(* ===== verification/_CoqProject ===== *)
-Q . S2P
Prelude.v
Buf.v
Pmm.v
KString.v
Path.v
Pid.v
Kheap.v
Vm.v
Vmspace.v
VmFork.v
Proc.v
Sched.v
SchedInv.v
Tree.v
Signal.v
WaitQ.v
Thread.v
System.v
Pthread.v
Tty.v
Pipe.v
Tmpfs.v
Vfs.v
Fd.v
Elf.v
User.v
Inet.v
Tcp.v
TcpFrame.v
TcpStream.v
TcpWorld.v
TcpSafe.v
TcpFamily.v
Wire.v
Sock.v
SockInv.v
SockSafe.v
SockCalls.v
Ip.v
Arp.v
Loopback.v
NetSafe.v
Ext2.v
Ext2Safe.v
Ext2Disk.v
Ext2Inode.v
Ext2File.v
Ext2Io.v
Ext2Dir.v
Ext2Demo.v
UserProc.v
ForkOk.v
ExecOk.v
LineEdit.v
