(* ===== verification/Prelude.v ===== *)
(** * Verification of the MakhOS kernel

    MakhOS is a small x86-64 kernel in C. This library models its core, routine by
    routine, as Rocq functions on explicit states, and proves what the routines
    promise to each other and to programs. Paths below are under [src/kernel].

    ** The parts of the kernel and the files that model them

    - Memory: [Pmm] (mm/pmm.c, the bitmap of physical pages), [Kheap] (mm/kheap.c,
      the boundary-tag heap on raw bytes), [Vm] (mm/vmm.c and mm/page.c, page
      tables in physical memory and frame reference counts), [Vmspace]
      (mm/vmspace.c and mm/uvm.c: address spaces, copy on write, brk and mmap),
      [VmFork] (what vmspace_create and vmspace_fork make).
    - Strings and paths: [KString] (lib/string.c on byte memory), [Path]
      (fs/path.c).
    - Processes: [Pid] (proc/pid), [Proc] (proc/table, proc/list, proc/tree over a
      store of fields), [Tree] (the invariant of the process tree), [Sched]
      (proc/sched/sched.c, proc/core/core.c and the timer interrupt), [SchedInv]
      (its invariant and the abstract scheduler), [WaitQ] (sleep list and wait
      queues as lists), [Signal] (signal/signal.c), [Thread] (futex.c, thread
      keys, the end of a thread), [System] (all of these as one step relation).
    - Synchronisation: [Pthread] (pthread/pthread.c, pthread/sem.c, ktime.c).
    - Terminal and files: [Tty] (tty/tty.c), [Pipe] (the pipes of fs/vfs.c),
      [Tmpfs] (fs/tmpfs.c), [Vfs] (paths and mounts of fs/vfs.c), [Fd] (the
      descriptor layer of fs/vfs.c).
    - The ext2 driver fs/ext2.c: [Ext2] (every routine, on a block device), [Ext2Safe]
      (any disk contents), [Ext2Disk], [Ext2Inode], [Ext2File] and [Ext2Io] (a
      well-formed volume: bitmaps, inodes, block trees, reads and writes),
      [Ext2Dir] (directories) and [Ext2Demo] (a volume, and what goes wrong on it).
    - Programs: [Elf] (proc/elf.c, the loader, against any file that satisfies the
      interface [FileOf]), [User] (the image and the first stack of a program),
      [UserProc] (spawn, fork, clone, execve and waitpid of proc/user.c, and
      proc/create), [ForkOk] and [ExecOk] (what fork, execve and waitpid do).
    - The shell: [LineEdit] (input_line.c and the keys of the main loop of kernel.c).
    - Network: [Inet] (byte order, checksums and dotted addresses of
      net/netdev.c), [Wire] (the packet formats), [Tcp] (net/tcp.c, one
      connection), [TcpFrame], [TcpStream] and [TcpWorld] (its streams, and two
      ends over a bad network), [TcpSafe] and [TcpFamily] (one connection against
      anybody, and what it does to its listener), [Sock] (net/socket.c, net/udp.c
      and the table of control blocks of net/tcp.c), [SockInv], [SockSafe] and
      [SockCalls] (the invariant of the table, and every call), [Ip] (net/arp.c,
      net/ipv4.c, net/icmp.c, net/eth.c and the loopback device of net/netdev.c),
      [Arp], [Loopback] and [NetSafe] (what they guarantee).
    - [Prelude] (this file) and [Buf] hold what they share: machine integers,
      byte memory, loops, checked buffers and rings, and the tactics.

    ** How the model corresponds to the code

    A C function is a definition of the same name; a static variable is a member
    of a state record; a pointer is an integer, 0 for NULL, into a byte memory
    ([Kheap], [KString], [Vm]), a store of fields ([Proc] and all that build on
    it) or a map of objects ([Tmpfs], [Fd]), so aliasing is that of the code.
    Integers wrap at their width ([u32], [s32], [u64], ...). [None] is a fault, a
    panic or an access outside a buffer, or a loop that has used up its fuel.
    What code outside the model gives (the heap to tmpfs, the RTC to the clocks,
    the close of a socket to a descriptor, the driver of a network card) is an
    argument. A critical section
    with interrupts off is one step. A routine that waits is cut at its
    schedule(): a round that returns or puts the thread to sleep, and a
    resumption; the scheduler, interrupts and other threads run in between.

    ** What the theorems show

    - The heap ([kheap_reach_check], [kheap_live_disjoint], [kheap_frame]) and the
      page allocator ([pmm_alloc_pages_first_fit], [pmm_accounting]) keep their
      structure over any sequence of calls, and give out disjoint memory.
    - Mapping changes one page of one space ([vmspace_map_isolated]); a copy on
      write fault gives a private copy ([vmspace_cow_fault_private]); a fork of a
      space is a twin with no page writable in either, or is undone
      ([vmspace_fork_cow]).
    - fork makes a child that is, member by member, what the code decides, or
      changes nothing ([fork_child]); execve replaces the image or nothing
      ([execve_atomic]); waitpid reaps a dead child once ([waitpid_reaps]).
    - Files and directories of an ext2 volume read back what was written
      ([ext2_write_read], [dir_add_lookup]), and whatever a disk holds, the operations
      on its vnodes return without a fault ([ext2_any_disk_safe]).
    - Over every sequence of kernel routines from boot the run queues hold exactly
      the READY threads ([kernel_reach_ok]); schedule() is priority round robin
      ([schedule_refines]); the process tree stays a tree ([proc_tree_preserved]);
      the timer walk ends and wakes exactly the expired ([wake_expired_spec]).
    - SIGKILL cannot be escaped ([sigkill_certain]) and sigreturn undoes delivery
      ([sigframe_roundtrip]).
    - Mutexes, read/write locks, semaphores, barriers and once blocks keep their
      promise under every interleaving ([mutex_exclusion], [rwlock_exclusion],
      [sem_conservation], [barrier_releases], [once_calls_once]).
    - Pipes and the raw terminal are queues ([pipe_fifo], [tty_raw_fifo]); lines
      are edited as shown ([tty_line_delivered]); files are byte sequences
      ([tmpfs_write_read]); paths resolve by names and resolution ends, symlink
      circles included ([vfs_resolve_names], [vfs_resolve_total]); descriptions
      are counted exactly ([fd_refcounts_exact]).
    - Typing at the shell is editing plain text, with a clipboard and fifty lines of
      history, inside the arrays of the code ([typing_refines]).
    - Loading a file gives a space exactly the pages its segments describe, never
      writable and executable at once, and touches nothing else ([elf_load_image],
      [elf_load_wx]); a program finds its arguments, environment and auxiliary
      vector on its stack ([initial_stack]).
    - What a TCP connection delivers is a prefix of what the other end wrote, over
      a network that loses, repeats, reorders and delays segments, and the end of
      the stream means all of it ([tcp_delivers_prefix], [tcp_eof_is_complete]).
      Every socket call, packet and timer run keeps sockets, control blocks,
      listeners and accept queues consistent ([net_step_safe]), and a frame of any
      bytes is taken in without a fault ([net_input_safe]). Segments survive the
      wire ([tcp_wire_roundtrip]), datagrams and pings the loopback device
      ([udp_loopback_delivers], [ping_loopback], [loopback_fifo]), a request and
      its reply resolve an address ([arp_exchange], [arp_update_lookup]), a single
      changed byte is noticed ([inet_checksum_guards]), and a free port is always
      found ([ephemeral_port_found]).
    - Where the code does not do what it means to, the theorem says what it does:
      [sleep_again_hangs], [futex_wake_collision], [cond_wait_signal_times_out],
      [tty_eof_twice], [tmpfs_write_hangs], [tmpfs_rename_into_self],
      [vfs_mkdir_answers], [vmspace_protect_ignores_sharing], [kmalloc_wraps],
      [uvm_mmap_wraps], [ext2_rename_same_loses], [ext2_rmdir_unmount_faults],
      [connect_close_dangles], [source_mismatch_dropped], [kill_leaves_selection],
      [kheap_expand_overflow], [strncpy_writes],
      [strncat_writes] and others.

    ** Fuel and bounds

    Loops over linked lists take fuel, and the theorems about them say that any
    fuel above the length of the list is enough ([wake_expired_spec],
    [wq_remove_spec], [signal_send_pgrp_spec]); the walk of the heap's list and
    the scans of the bitmap get the fuel that their invariant bounds. The loop of
    pipe_write needs three rounds ([pipe_write_rounds]); the doubling of a tmpfs
    buffer 64; poke as many rounds as bytes; path resolution as many rounds as the
    path has characters, on nine levels of symlinks. tcp_output sends a byte or
    more per round, so the size of its buffer bounds its loop ([output_fuel]), and
    the loop of tcp_send ends with the bytes it is given ([send_fuel]). lo_poll
    has no bound in the code, which can answer its own packets; the theorems give
    the rounds each exchange needs. A TCP stream is taken to be shorter than 4 GiB,
    so that a sequence number names one byte of it ([short]).
    Invariants of step relations ([kernel_step], [mutex_step],
    [pipe_step], [fd_step], ...) hold for every number of steps. Bounds that a
    theorem assumes (fewer than 2^30 references, lock depth below INT_MAX) are
    hypotheses of its steps.

    ** Not modelled

    Drivers, interrupt entry and context switch assembly, the boot code, the
    screen, the shells and the tests: they are input and output, or assembly. Of
    the network, the wrapping of sockets as vnodes and the printing of tables; a
    send that has to wait for ARP is modelled in [Ip], and the routines of [Tcp]
    take it that the next hop is known, so that they keep the lock. The system
    call table, the kernel log, the initial archive and devfs are
    plain C that moves arguments between the parts modelled here; they are left
    out. *)

(** * Shared vocabulary

    Machine-width integers, the byte addressed memory of the kernel, counted
    loops, the error numbers the kernel returns, and the generic lemmas and
    automation the component files use. *)

From stdpp Require Import base numbers list gmap.
From Stdlib Require Import ZArith Lia.

#[global] Open Scope Z_scope.

(** * Machine-width integers

    A C value of a [w]-bit unsigned type is a [Z]; every operation that can
    leave the range is followed by the wrap of its type. *)

Definition u8 (z : Z) : Z := z mod 2 ^ 8.
Definition u16 (z : Z) : Z := z mod 2 ^ 16.
Definition u32 (z : Z) : Z := z mod 2 ^ 32.
Definition u64 (z : Z) : Z := z mod 2 ^ 64.

Definition s32 (z : Z) : Z := if u32 z <? 2 ^ 31 then u32 z else u32 z - 2 ^ 32.
Definition s64 (z : Z) : Z := if u64 z <? 2 ^ 63 then u64 z else u64 z - 2 ^ 64.

(** The value of a C comparison used as an [int]. *)
Definition b2z (b : bool) : Z := if b then 1 else 0.

(** [C] truth of an [int] value. *)
Definition truth (z : Z) : bool := negb (z =? 0).

(** * Error numbers (kernel/include/errno.h) *)

Definition EPERM : Z := 1.
Definition ENOENT : Z := 2.
Definition ESRCH : Z := 3.
Definition EINTR : Z := 4.
Definition EIO : Z := 5.
Definition ENOEXEC : Z := 8.
Definition EBADF : Z := 9.
Definition EAGAIN : Z := 11.
Definition ENOMEM : Z := 12.
Definition EFAULT : Z := 14.
Definition EBUSY : Z := 16.
Definition EEXIST : Z := 17.
Definition ENOTDIR : Z := 20.
Definition EINVAL : Z := 22.
Definition EMFILE : Z := 24.
Definition EPIPE : Z := 32.
Definition ERANGE : Z := 34.
Definition EDEADLK : Z := 35.
Definition ENOTEMPTY : Z := 39.
Definition ETIMEDOUT : Z := 110.

(** * Automation *)

Create HintDb makh.
Create Rewrite HintDb makh.

(** Reflect the boolean comparisons of the goal and close what arithmetic can. *)
Ltac zcase :=
  repeat match goal with
  | |- context [Z.ltb ?a ?b] => destruct (Z.ltb_spec a b)
  | |- context [Z.leb ?a ?b] => destruct (Z.leb_spec a b)
  | |- context [Z.eqb ?a ?b] => destruct (Z.eqb_spec a b)
  end.

(** Split one [if] of the goal, reflecting its test when it is a comparison. *)
Ltac zif :=
  match goal with
  | |- context [if Z.ltb ?a ?b then _ else _] => destruct (Z.ltb_spec a b)
  | |- context [if Z.leb ?a ?b then _ else _] => destruct (Z.leb_spec a b)
  | |- context [if Z.eqb ?a ?b then _ else _] => destruct (Z.eqb_spec a b)
  | |- context [if ?b then _ else _] => destruct b eqn:?
  end.

(** Inversion of a result pair. *)
Ltac pair_inv :=
  match goal with
  | H : (_, _) = (_, _) |- _ => injection H as ?; subst
  | H : Some _ = Some _ |- _ => injection H as ?; subst
  end.

(** * Wrap lemmas *)

Lemma u8_small z : 0 <= z < 2 ^ 8 -> u8 z = z.
Proof. apply Z.mod_small. Qed.

Lemma u16_small z : 0 <= z < 2 ^ 16 -> u16 z = z.
Proof. apply Z.mod_small. Qed.

Lemma u32_small z : 0 <= z < 2 ^ 32 -> u32 z = z.
Proof. apply Z.mod_small. Qed.

Lemma u64_small z : 0 <= z < 2 ^ 64 -> u64 z = z.
Proof. apply Z.mod_small. Qed.

Lemma u8_range z : 0 <= u8 z < 2 ^ 8.
Proof. apply Z.mod_pos_bound; lia. Qed.

Lemma u16_range z : 0 <= u16 z < 2 ^ 16.
Proof. apply Z.mod_pos_bound; lia. Qed.

Lemma u32_range z : 0 <= u32 z < 2 ^ 32.
Proof. apply Z.mod_pos_bound; lia. Qed.

Lemma u64_range z : 0 <= u64 z < 2 ^ 64.
Proof. apply Z.mod_pos_bound; lia. Qed.

#[export] Hint Resolve u8_range u16_range u32_range u64_range : makh.
#[export] Hint Rewrite u8_small u16_small u32_small u64_small using lia : makh.

Lemma s32_small z : - 2 ^ 31 <= z < 2 ^ 31 -> s32 z = z.
Proof.
  intros H. unfold s32, u32. destruct (Z.le_gt_cases 0 z) as [Hz|Hz].
  - rewrite Z.mod_small by lia. zcase; lia.
  - replace (z mod 2 ^ 32) with (z + 2 ^ 32); [zcase; lia|].
    apply (Z.mod_unique_pos z (2 ^ 32) (-1)); lia.
Qed.

Lemma s64_small z : - 2 ^ 63 <= z < 2 ^ 63 -> s64 z = z.
Proof.
  intros. unfold s64, u64.
  destruct (Z.ltb_spec z 0).
  - replace (z mod 2 ^ 64) with (z + 2 ^ 64)
      by (apply (Z.mod_unique_pos _ _ (-1)); lia).
    zcase; lia.
  - rewrite Z.mod_small by lia. zcase; lia.
Qed.

Lemma u32_sub_add a : u32 (u32 (a - 1) + 1) = u32 a.
Proof. unfold u32. rewrite Zplus_mod_idemp_l. f_equal. lia. Qed.

Lemma u32_idem_add a b : u32 (u32 a + b) = u32 (a + b).
Proof. apply Zplus_mod_idemp_l. Qed.

Lemma u32_idem_sub a b : u32 (u32 a - b) = u32 (a - b).
Proof. apply Zminus_mod_idemp_l. Qed.

(** A pair from its first component. *)
Lemma pair_eq {A B} (x : A * B) (a : A) : x.1 = a -> x = (a, x.2).
Proof. destruct x. cbn. by intros ->. Qed.

(** * Bit lemmas *)

Lemma land_shiftr_1 x k :
  0 <= k -> Z.land (Z.shiftr x k) 1 = b2z (Z.testbit x k).
Proof.
  intros Hk. change 1 with (Z.ones 1). rewrite Z.land_ones by lia.
  change (2 ^ 1) with 2.
  pose proof (Z.bit0_mod (Z.shiftr x k)) as Hm.
  rewrite Z.shiftr_spec, Z.add_0_l in Hm by lia. rewrite <- Hm.
  unfold b2z. by destruct (Z.testbit x k).
Qed.

Lemma testbit_u8 x k : 0 <= k < 8 -> Z.testbit (u8 x) k = Z.testbit x k.
Proof. intros. unfold u8. by rewrite Z.mod_pow2_bits_low by lia. Qed.

Lemma testbit_u32 x k : 0 <= k < 32 -> Z.testbit (u32 x) k = Z.testbit x k.
Proof. intros. unfold u32. by rewrite Z.mod_pow2_bits_low by lia. Qed.

Lemma testbit_u64 x k : 0 <= k < 64 -> Z.testbit (u64 x) k = Z.testbit x k.
Proof. intros. unfold u64. by rewrite Z.mod_pow2_bits_low by lia. Qed.

Lemma testbit_one_shift k j :
  0 <= k -> 0 <= j -> Z.testbit (Z.shiftl 1 k) j = bool_decide (k = j).
Proof.
  intros. rewrite Z.shiftl_1_l, Z.pow2_bits_eqb by lia.
  case_bool_decide; zcase; naive_solver lia.
Qed.

Lemma lor_bound a b n : 0 <= n -> 0 <= a < 2 ^ n -> 0 <= b < 2 ^ n -> 0 <= Z.lor a b < 2 ^ n.
Proof.
  intros Hn Ha Hb. assert (Hp : 0 <= Z.lor a b) by (apply Z.lor_nonneg; lia). split; [done|].
  destruct (Z.eqb_spec (Z.lor a b) 0) as [->|]; [lia|]. apply Z.log2_lt_pow2; [lia|].
  rewrite Z.log2_lor by lia. apply Z.max_lub_lt.
  - destruct (Z.eqb_spec a 0) as [->|]; [|by apply Z.log2_lt_pow2; lia].
    destruct (Z.eqb_spec b 0) as [->|]; [done|]. assert (b < 2 ^ n) by lia. cbn.
    destruct (Z.eqb_spec n 0) as [->|]; lia.
  - destruct (Z.eqb_spec b 0) as [->|]; [|by apply Z.log2_lt_pow2; lia].
    destruct (Z.eqb_spec a 0) as [->|]; [done|]. cbn. destruct (Z.eqb_spec n 0) as [->|]; lia.
Qed.

Lemma land_bound a b n : 0 <= n -> 0 <= a -> 0 <= b < 2 ^ n -> 0 <= Z.land a b < 2 ^ n.
Proof.
  intros Hn Ha Hb. assert (Hp : 0 <= Z.land a b) by (apply Z.land_nonneg; lia). split; [done|].
  destruct (Z.eqb_spec (Z.land a b) 0) as [->|]; [lia|]. apply Z.log2_lt_pow2; [lia|].
  eapply Z.le_lt_trans; [apply Z.log2_land; lia|].
  apply Z.min_lt_iff. right. destruct (Z.eqb_spec b 0) as [->|].
  - rewrite Z.land_0_r in *. lia.
  - apply Z.log2_lt_pow2; lia.
Qed.

(** Disjoint bits add. *)
Lemma lor_add a b : Z.land a b = 0 -> Z.lor a b = a + b.
Proof. intros H. rewrite <- Z.lxor_lor by done. by rewrite Z.add_nocarry_lxor. Qed.

(** A shifted value and one that fits below it. *)
Lemma lor_shift a b n : 0 <= n -> 0 <= b < 2 ^ n -> Z.lor (Z.shiftl a n) b = a * 2 ^ n + b.
Proof.
  intros Hn Hb. rewrite lor_add; [by rewrite Z.shiftl_mul_pow2 by lia|]. apply Z.bits_inj'. intros k Hk.
  rewrite Z.land_spec, Z.bits_0. destruct (Z.ltb_spec k n).
  - rewrite Z.shiftl_spec_low by lia. done.
  - assert (Z.testbit b k = false) as ->; [|by rewrite andb_false_r].
    destruct (Z.eqb_spec b 0) as [->|]; [apply Z.bits_0|]. apply Z.bits_above_log2; [lia|].
    assert (Z.log2 b < n) by (apply Z.log2_lt_pow2; lia). lia.
Qed.

(** Eight bits of a value, where they are. *)
Lemma land_shift_mask v n : 0 <= n -> Z.land v (Z.shiftl (Z.ones 8) n) = (v / 2 ^ n) mod 256 * 2 ^ n.
Proof.
  intros Hn. change 256 with (2 ^ 8). rewrite <- Z.land_ones, <- Z.shiftr_div_pow2, <- Z.shiftl_mul_pow2 by lia.
  apply Z.bits_inj'. intros k Hk. rewrite Z.land_spec, !Z.shiftl_spec by lia. destruct (Z.ltb_spec k n).
  - rewrite !(Z.testbit_neg_r _ (k - n)) by lia. by rewrite andb_false_r.
  - rewrite Z.land_spec, Z.shiftr_spec by lia. by replace (k - n + n) with k by lia.
Qed.

(** * Memory

    The kernel's memory as a total map from addresses to bytes. A load of [n]
    bytes is little endian, as on x86-64. *)

Definition mem : Type := Z -> Z.

Definition mset (m : mem) (a v : Z) : mem := fun x => if x =? a then u8 v else m x.

(** [n] bytes from [a] set to [v] (the effect of memset). *)
Definition mfill (m : mem) (a n v : Z) : mem :=
  fun x => if (a <=? x) && (x <? a + n) then u8 v else m x.

(** [n] bytes copied from [src] to [dst] (the effect of memcpy on regions that
    do not overlap). *)
Definition mcopy (m : mem) (dst src n : Z) : mem :=
  fun x => if (dst <=? x) && (x <? dst + n) then m (src + (x - dst)) else m x.

Fixpoint ld (n : nat) (m : mem) (a : Z) : Z :=
  match n with
  | O => 0
  | S n => u8 (m a) + 256 * ld n m (a + 1)
  end.

Fixpoint st (n : nat) (m : mem) (a v : Z) : mem :=
  match n with
  | O => m
  | S n => mset (st n m (a + 1) (v / 256)) a v
  end.

Abbreviation ld8 := (ld 1).
Abbreviation ld16 := (ld 2).
Abbreviation ld32 := (ld 4).
Abbreviation ld64 := (ld 8).
Abbreviation st8 := (st 1).
Abbreviation st16 := (st 2).
Abbreviation st32 := (st 4).
Abbreviation st64 := (st 8).

Lemma mset_eq m a v : mset m a v a = u8 v.
Proof. unfold mset. by rewrite Z.eqb_refl. Qed.

Lemma mset_ne m a v x : x <> a -> mset m a v x = m x.
Proof. intros. unfold mset. zcase; congruence. Qed.

Lemma mfill_in m a n v x : a <= x < a + n -> mfill m a n v x = u8 v.
Proof. intros. unfold mfill. zcase; simpl; first [done | lia]. Qed.

Lemma mfill_out m a n v x : x < a \/ a + n <= x -> mfill m a n v x = m x.
Proof. intros. unfold mfill. zcase; simpl; first [done | lia]. Qed.

Lemma st_frame n m a v x : x < a \/ a + Z.of_nat n <= x -> st n m a v x = m x.
Proof.
  revert m a v. induction n as [|n IH]; intros m a v Hx; simpl; [done|].
  rewrite mset_ne by lia. apply IH. lia.
Qed.

Lemma ld_ext n m m' a :
  (forall x, a <= x < a + Z.of_nat n -> m x = m' x) -> ld n m a = ld n m' a.
Proof.
  revert a. induction n as [|n IH]; intros a Hm; simpl; [done|].
  rewrite Hm by lia. rewrite (IH (a + 1)); [done|]. intros. apply Hm. lia.
Qed.

Lemma ld_range n m a : 0 <= ld n m a < 256 ^ Z.of_nat n.
Proof.
  revert a. induction n as [|n IH]; intros a; [simpl; lia|].
  cbn [ld]. pose proof (u8_range (m a)). specialize (IH (a + 1)).
  rewrite Nat2Z.inj_succ, Z.pow_succ_r by lia. lia.
Qed.

Lemma ld_st_same n m a v : ld n (st n m a v) a = v mod 256 ^ Z.of_nat n.
Proof.
  revert m a v. induction n as [|n IH]; intros m a v; [simpl; by rewrite Z.mod_1_r|].
  cbn [ld st]. rewrite mset_eq.
  rewrite (ld_ext n _ (st n m (a + 1) (v / 256))).
  2:{ intros. apply mset_ne. lia. }
  rewrite IH. rewrite Nat2Z.inj_succ, Z.pow_succ_r by lia.
  rewrite Z.rem_mul_r by lia. unfold u8. rewrite Z.mod_mod by lia.
  reflexivity.
Qed.

Lemma ld_st_disj n n' m a a' v :
  a' + Z.of_nat n' <= a \/ a + Z.of_nat n <= a' ->
  ld n' (st n m a v) a' = ld n' m a'.
Proof. intros. apply ld_ext. intros. apply st_frame. lia. Qed.

Lemma ld_st_in n m a v :
  0 <= v < 256 ^ Z.of_nat n -> ld n (st n m a v) a = v.
Proof. intros. rewrite ld_st_same. by apply Z.mod_small. Qed.

Lemma ld64_st64 m a v : 0 <= v < 2 ^ 64 -> ld64 (st64 m a v) a = v.
Proof. apply (ld_st_in 8). Qed.

Lemma ld32_st32 m a v : ld32 (st32 m a v) a = u32 v.
Proof. apply (ld_st_same 4). Qed.

Lemma ld8_st8 m a v : ld8 (st8 m a v) a = u8 v.
Proof. apply (ld_st_same 1). Qed.

Lemma ld64_range m a : 0 <= ld64 m a < 2 ^ 64.
Proof. apply (ld_range 8). Qed.

Lemma ld32_range m a : 0 <= ld32 m a < 2 ^ 32.
Proof. apply (ld_range 4). Qed.

Lemma ld8_range m a : 0 <= ld8 m a < 2 ^ 8.
Proof. apply (ld_range 1). Qed.

Lemma ld_mfill0 n m a len x :
  a <= x -> x + Z.of_nat n <= a + len -> ld n (mfill m a len 0) x = 0.
Proof.
  revert x. induction n as [|n IH]; intros x H1 H2; [done|].
  cbn [ld]. rewrite mfill_in by lia. rewrite IH by lia. done.
Qed.

Lemma ld_mfill_out n m a len v x :
  x + Z.of_nat n <= a \/ a + len <= x -> ld n (mfill m a len v) x = ld n m x.
Proof. intros. apply ld_ext. intros. apply mfill_out. lia. Qed.

(** * Counted loops

    [for (i = lo; i < hi; i++) s = f(i, s)]. *)

Fixpoint for_loop {S : Type} (n : nat) (i : Z) (f : Z -> S -> S) (s : S) : S :=
  match n with
  | O => s
  | Datatypes.S n => for_loop n (i + 1) f (f i s)
  end.

Definition for_range {S : Type} (lo hi : Z) (f : Z -> S -> S) (s : S) : S :=
  for_loop (Z.to_nat (hi - lo)) lo f s.

Lemma for_loop_ind {S} (P : Z -> S -> Prop) (f : Z -> S -> S) n i s :
  P i s ->
  (forall j t, i <= j < i + Z.of_nat n -> P j t -> P (j + 1) (f j t)) ->
  P (i + Z.of_nat n) (for_loop n i f s).
Proof.
  revert i s. induction n as [|n IH]; intros i s H0 Hs.
  - simpl. by rewrite Z.add_0_r.
  - cbn [for_loop].
    replace (i + Z.of_nat (Datatypes.S n)) with (i + 1 + Z.of_nat n) by lia.
    apply IH.
    + apply Hs; [lia|done].
    + intros. apply Hs; [lia|done].
Qed.

(** The invariant rule of a counted loop. *)
Lemma for_range_ind {S} (P : Z -> S -> Prop) (f : Z -> S -> S) lo hi s :
  lo <= hi ->
  P lo s ->
  (forall j t, lo <= j < hi -> P j t -> P (j + 1) (f j t)) ->
  P hi (for_range lo hi f s).
Proof.
  intros Hle H0 Hs. unfold for_range.
  replace hi with (lo + Z.of_nat (Z.to_nat (hi - lo))) at 1 by lia.
  apply for_loop_ind; [done|]. intros. apply Hs; [lia|done].
Qed.

Lemma for_range_empty {S} (f : Z -> S -> S) lo hi s :
  hi <= lo -> for_range lo hi f s = s.
Proof. intros. unfold for_range. by replace (Z.to_nat (hi - lo)) with O by lia. Qed.

(** An invariant that does not mention the index. *)
Lemma for_range_inv {S} (P : S -> Prop) (f : Z -> S -> S) lo hi s :
  P s -> (forall j t, lo <= j < hi -> P t -> P (f j t)) -> P (for_range lo hi f s).
Proof.
  intros H0 Hs. destruct (Z.le_gt_cases lo hi).
  - apply (for_range_ind (fun _ => P)); auto.
  - by rewrite for_range_empty by lia.
Qed.

(** * Counting

    [count_range lo n p] is the number of [i] in [lo, lo + n) with [p i]. *)

Fixpoint count_range (n : nat) (lo : Z) (p : Z -> bool) : Z :=
  match n with
  | O => 0
  | S n => b2z (p lo) + count_range n (lo + 1) p
  end.

Lemma count_range_ext n lo p q :
  (forall i, lo <= i < lo + Z.of_nat n -> p i = q i) ->
  count_range n lo p = count_range n lo q.
Proof.
  revert lo. induction n as [|n IH]; intros lo H; simpl; [done|].
  rewrite H by lia. rewrite (IH (lo + 1)); [done|]. intros. apply H. lia.
Qed.

(** Changing [p] at one index of the range changes the count by that index's
    contribution. *)
Lemma count_range_update n lo p q k :
  lo <= k < lo + Z.of_nat n ->
  (forall i, i <> k -> p i = q i) ->
  count_range n lo q = count_range n lo p + b2z (q k) - b2z (p k).
Proof.
  revert lo. induction n as [|n IH]; intros lo Hk H; [lia|].
  cbn [count_range]. destruct (decide (lo = k)) as [->|Hne].
  - rewrite (count_range_ext n (k + 1) p q); [lia|]. intros. apply H. lia.
  - rewrite (H lo Hne), (IH (lo + 1)); [lia|lia|done].
Qed.

Lemma count_range_bounds n lo p : 0 <= count_range n lo p <= Z.of_nat n.
Proof.
  revert lo. induction n as [|n IH]; intros lo; [simpl; lia|].
  cbn [count_range]. specialize (IH (lo + 1)). destruct (p lo); simpl; lia.
Qed.

Lemma count_range_mono n lo p q :
  (forall i, lo <= i < lo + Z.of_nat n -> p i = true -> q i = true) ->
  count_range n lo p <= count_range n lo q.
Proof.
  revert lo. induction n as [|n IH]; intros lo H; [done|].
  cbn [count_range]. specialize (IH (lo + 1)).
  assert (b2z (p lo) <= b2z (q lo)).
  { specialize (H lo ltac:(lia)). destruct (p lo), (q lo); simpl; lia || (by discriminate H). }
  enough (count_range n (lo + 1) p <= count_range n (lo + 1) q) by lia.
  apply IH. intros i Hi. apply H. lia.
Qed.

#[global] Arguments u8 : simpl never.
#[global] Arguments u16 : simpl never.
#[global] Arguments u32 : simpl never.
#[global] Arguments u64 : simpl never.
#[global] Arguments mset : simpl never.
#[global] Arguments mfill : simpl never.
#[global] Arguments mcopy : simpl never.
#[global] Arguments ld : simpl never.
#[global] Arguments st : simpl never.
#[global] Arguments for_range : simpl never.
