(* ===== verification/Buf.v ===== *)
(** Fixed-size byte arrays with checked accesses: an access outside the array is
    [None], so a routine that returns a value stays inside its buffers. *)

From stdpp Require Import base numbers list.
From Stdlib Require Import ZArith Lia.
From S2P Require Import Prelude.

Definition len {A} (l : list A) : Z := Z.of_nat (length l).

(** The first [n] bytes, and those from [n] on. *)
Definition ztake {A} (n : Z) (l : list A) : list A := take (Z.to_nat n) l.
Definition zdrop {A} (n : Z) (l : list A) : list A := drop (Z.to_nat n) l.

Definition bget (a : list Z) (i : Z) : option Z :=
  if (0 <=? i) && (i <? len a) then a !! Z.to_nat i else None.

Definition bput (a : list Z) (i v : Z) : option (list Z) :=
  if (0 <=? i) && (i <? len a) then Some (<[Z.to_nat i := v]> a) else None.

(** memcpy of all of [src] to [a + i]. *)
Definition bblit (a : list Z) (i : Z) (src : list Z) : option (list Z) :=
  if (0 <=? i) && (i + len src <=? len a)
  then Some (ztake i a ++ src ++ zdrop (i + len src) a) else None.

(** The [n] bytes at [a + i]. *)
Definition bsub (a : list Z) (i n : Z) : option (list Z) :=
  if (0 <=? i) && (0 <=? n) && (i + n <=? len a) then Some (ztake n (zdrop i a)) else None.

(** A buffer filled with [bs], as memory. *)
Definition bytes_at (bs : list Z) : mem := fun x => default 0 (bs !! Z.to_nat x).

(** [n] bytes of [v], little endian. *)
Fixpoint le (n : nat) (v : Z) : list Z :=
  match n with O => [] | S n => u8 v :: le n (v / 256) end.

(** * Lemmas *)

Lemma len_nonneg {A} (l : list A) : 0 <= len l.
Proof. unfold len. lia. Qed.

Lemma len_app {A} (l k : list A) : len (l ++ k) = len l + len k.
Proof. unfold len. rewrite length_app. lia. Qed.

Lemma len_cons {A} (x : A) l : len (x :: l) = 1 + len l.
Proof. unfold len. cbn. lia. Qed.

Lemma len_ztake {A} n (l : list A) : 0 <= n <= len l -> len (ztake n l) = n.
Proof. unfold len, ztake. rewrite length_take. lia. Qed.

Lemma len_zdrop {A} n (l : list A) : 0 <= n <= len l -> len (zdrop n l) = len l - n.
Proof. unfold len, zdrop. rewrite length_drop. lia. Qed.

Lemma ztake_zdrop {A} n (l : list A) : ztake n l ++ zdrop n l = l.
Proof. apply take_drop. Qed.

Lemma ztake_all {A} n (l : list A) : len l <= n -> ztake n l = l.
Proof. unfold len, ztake. intros. apply take_ge. lia. Qed.

Lemma ztake_0 {A} (l : list A) : ztake 0 l = [].
Proof. done. Qed.

Lemma len_ztake_0 {A} (l : list A) : len (ztake 0 l) = 0.
Proof. done. Qed.

Lemma zdrop_0 {A} (l : list A) : zdrop 0 l = l.
Proof. done. Qed.

Lemma ztake_app {A} n (l k : list A) : n = len l -> ztake n (l ++ k) = l.
Proof. unfold len, ztake. intros ->. rewrite Nat2Z.id. apply take_app_length. Qed.

Lemma zdrop_app {A} n (l k : list A) : n = len l -> zdrop n (l ++ k) = k.
Proof. unfold len, zdrop. intros ->. rewrite Nat2Z.id. apply drop_app_length. Qed.

Lemma ztake_app_le {A} n (l k : list A) : n <= len l -> ztake n (l ++ k) = ztake n l.
Proof. unfold len, ztake. intros. apply take_app_le. lia. Qed.

Lemma ztake_ztake {A} n m (l : list A) : n <= m -> ztake n (ztake m l) = ztake n l.
Proof. unfold ztake. intros. rewrite take_take. f_equal. lia. Qed.

Lemma zdrop_zdrop {A} n m (l : list A) : 0 <= n -> 0 <= m -> zdrop n (zdrop m l) = zdrop (m + n) l.
Proof. unfold zdrop. intros. rewrite drop_drop. f_equal. lia. Qed.

Lemma bput_some a i v : 0 <= i < len a -> bput a i v = Some (<[Z.to_nat i := v]> a).
Proof. intros. unfold bput. destruct (Z.leb_spec 0 i), (Z.ltb_spec i (len a)); done || lia. Qed.

Lemma bput_len a i v a' : bput a i v = Some a' -> len a' = len a.
Proof. unfold bput. destruct (_ && _); [|done]. intros [= <-]. unfold len. by rewrite length_insert. Qed.

(** A byte stored behind the first [i] extends them. *)
Lemma ztake_bput a i v a' : bput a i v = Some a' -> ztake (i + 1) a' = ztake i a ++ [v].
Proof.
  unfold bput. destruct (Z.leb_spec 0 i); [|done]. destruct (Z.ltb_spec i (len a)); [|done]. cbn.
  intros [= <-]. unfold ztake, len in *. rewrite Z2Nat.inj_add, Nat.add_1_r by lia.
  rewrite (take_S_r _ _ v); [|apply list_lookup_insert_eq; lia]. by rewrite take_insert_ge by lia.
Qed.

Lemma bblit_some a i src : 0 <= i -> i + len src <= len a ->
  bblit a i src = Some (ztake i a ++ src ++ zdrop (i + len src) a).
Proof. intros. unfold bblit. destruct (Z.leb_spec 0 i), (Z.leb_spec (i + len src) (len a)); done || lia. Qed.

Lemma bblit_len a i src a' : bblit a i src = Some a' -> len a' = len a.
Proof.
  unfold bblit. destruct (Z.leb_spec 0 i); [|done].
  destruct (Z.leb_spec (i + len src) (len a)); [|done]. cbn. intros [= <-]. pose proof (len_nonneg src).
  rewrite !len_app, len_ztake, len_zdrop by lia. lia.
Qed.

Lemma bsub_some a i n : 0 <= i -> 0 <= n -> i + n <= len a -> bsub a i n = Some (ztake n (zdrop i a)).
Proof. intros. unfold bsub. destruct (Z.leb_spec 0 i), (Z.leb_spec 0 n), (Z.leb_spec (i + n) (len a)); done || lia. Qed.

(** What was stored is there. *)
Lemma bsub_bblit a i src a' : bblit a i src = Some a' -> bsub a' i (len src) = Some src.
Proof.
  intros H. pose proof (bblit_len _ _ _ _ H) as El. revert H. unfold bblit.
  destruct (Z.leb_spec 0 i) as [Hi|]; [|done].
  destruct (Z.leb_spec (i + len src) (len a)) as [Hl|]; [|done]. cbn. intros [= <-]. pose proof (len_nonneg src).
  rewrite bsub_some by lia. rewrite (zdrop_app i) by (rewrite len_ztake; lia). by rewrite (ztake_app (len src)).
Qed.

(** * Rings *)

(** The [n] elements of the ring [a] from index [t] on. *)
Definition ring {A} `{!Inhabited A} (a : list A) (t n : Z) : list A :=
  (fun i => a !!! Z.to_nat ((t + i) mod len a)) <$> seqZ 0 n.

Lemma len_ring {A} `{!Inhabited A} (a : list A) t n : 0 <= n -> len (ring a t n) = n.
Proof. intros. unfold ring, len. rewrite length_fmap, length_seqZ. lia. Qed.

Lemma ring_0 {A} `{!Inhabited A} (a : list A) t : ring a t 0 = [].
Proof. done. Qed.

(** An element stored behind the last. *)
Lemma ring_push {A} `{!Inhabited A} (a : list A) t n v :
  0 <= t -> 0 <= n < len a ->
  ring (<[Z.to_nat ((t + n) mod len a) := v]> a) t (n + 1) = ring a t n ++ [v].
Proof.
  intros Ht Hn. unfold ring.
  rewrite (seqZ_app 0 n 1) by lia. rewrite fmap_app. f_equal.
  - apply list_fmap_ext. intros i x Hi. apply lookup_seqZ in Hi as [-> Hi].
    unfold len. rewrite length_insert. fold (len a). rewrite list_lookup_total_insert_ne; [done|].
    pose proof (Z.mod_pos_bound (t + n) (len a) ltac:(lia)). pose proof (Z.mod_pos_bound (t + (0 + Z.of_nat i)) (len a) ltac:(lia)).
    intros E%Z2Nat.inj; [|lia..].
    pose proof (Z.div_mod (t + n) (len a) ltac:(lia)). pose proof (Z.div_mod (t + (0 + Z.of_nat i)) (len a) ltac:(lia)).
    assert (Hq : n - Z.of_nat i = len a * ((t + n) / len a - (t + (0 + Z.of_nat i)) / len a)) by lia.
    destruct (Z.eq_dec ((t + n) / len a) ((t + (0 + Z.of_nat i)) / len a)) as [Eq|Ne]; [lia|nia].
  - rewrite Z.add_0_l. change (seqZ n 1) with [0 + n]. rewrite Z.add_0_l. cbn [fmap list_fmap].
    unfold len. rewrite length_insert. fold (len a). rewrite list_lookup_total_insert_eq; [done|].
    pose proof (Z.mod_pos_bound (t + n) (len a) ltac:(lia)). unfold len in *. lia.
Qed.

(** The first element, and the others. *)
Lemma ring_pop {A} `{!Inhabited A} (a : list A) t n :
  0 <= t -> 0 < n <= len a ->
  ring a t n = (a !!! Z.to_nat (t mod len a)) :: ring a ((t + 1) mod len a) (n - 1).
Proof.
  intros Ht Hn. unfold ring. rewrite seqZ_cons by lia. cbn [fmap list_fmap]. rewrite Z.add_0_r. f_equal.
  apply list_eq. intros i. rewrite !list_lookup_fmap.
  replace (Z.pred n) with (n - 1) by lia.
  destruct (decide (Z.of_nat i < n - 1)) as [Hi|Hi].
  - rewrite !lookup_seqZ_lt by lia. cbn. do 3 f_equal. rewrite Zplus_mod_idemp_l. f_equal. lia.
  - rewrite !lookup_seqZ_ge by lia. done.
Qed.

Lemma bget_some a i : 0 <= i < len a -> bget a i = Some (a !!! Z.to_nat i).
Proof.
  intros H. unfold bget. destruct (Z.leb_spec 0 i), (Z.ltb_spec i (len a)); [|lia..]. cbn.
  apply list_lookup_lookup_total_lt. unfold len in *. lia.
Qed.

(** * Integers in buffers *)

Lemma len_le n v : len (le n v) = Z.of_nat n.
Proof. revert v. unfold len. induction n as [|n IH]; intros v; cbn; [done|]. specialize (IH (v / 256)). lia. Qed.

Lemma bytes_take k src i : 0 <= i < k -> bytes_at (ztake k src) i = bytes_at src i.
Proof. intros Hi. unfold bytes_at, ztake. by rewrite lookup_take_lt by lia. Qed.

Lemma bytes_drop k src i : 0 <= k -> 0 <= i -> bytes_at (zdrop k src) i = bytes_at src (k + i).
Proof. intros Hk Hi. unfold bytes_at, zdrop. rewrite lookup_drop. do 2 f_equal. lia. Qed.
