(* ===== verification/Pmm.v ===== *)
(** The physical page allocator, [kernel/mm/pmm.c]: a bitmap of 4 KiB pages,
    first-fit allocation of one page or of a contiguous run, and the counters
    behind the memory statistics. The state is one record, the C statics; an
    operation takes the state and returns its result with the new state. *)

From stdpp Require Import base numbers list gmap.
From Stdlib Require Import ZArith Lia.
From S2P Require Import Prelude.

Definition PAGE_SIZE : Z := 4096.
Definition MAX_MEMORY_SIZE : Z := 4 * 1024 * 1024 * 1024.
Definition MAX_BITMAP_SIZE : Z := MAX_MEMORY_SIZE / PAGE_SIZE / 8.
Definition RESERVED_LOW_MEMORY : Z := 0x400000.
Definition MULTIBOOT_MEMORY_AVAILABLE : Z := 1.

(** The statics of pmm.c; [bitmap] is the byte array of [MAX_BITMAP_SIZE]. *)
Record pmm_state := Pmm {
  bitmap : mem;
  total_pages : Z;
  used_pages : Z;
  total_memory : Z;
  max_page_num : Z;
  pmm_fail_in : Z;
}.

Definition with_bitmap (b : mem) (s : pmm_state) : pmm_state :=
  Pmm b (total_pages s) (used_pages s) (total_memory s) (max_page_num s) (pmm_fail_in s).

Definition with_used (u : Z) (s : pmm_state) : pmm_state :=
  Pmm (bitmap s) (total_pages s) u (total_memory s) (max_page_num s) (pmm_fail_in s).

Definition with_fail_in (n : Z) (s : pmm_state) : pmm_state :=
  Pmm (bitmap s) (total_pages s) (used_pages s) (total_memory s) (max_page_num s) n.

(** A multiboot memory-map entry and the tag that carries [entry_count] of
    them; [entries i] is the entry found at [i * entry_size]. *)
Record multiboot_mmap_entry := MmapEntry { addr : Z; len : Z; type : Z }.

Record multiboot_tag_mmap := MmapTag {
  size : Z;
  entry_size : Z;
  entries : Z -> multiboot_mmap_entry;
}.

(** * Bitmap primitives *)

Definition bitmap_set (page_num : Z) (s : pmm_state) : pmm_state :=
  if max_page_num s <=? page_num then s else
  let byte_idx := page_num / 8 in
  let bit_pos := u8 (page_num mod 8) in
  with_bitmap (mset (bitmap s) byte_idx
                    (Z.lor (bitmap s byte_idx) (Z.shiftl 1 bit_pos))) s.

Definition bitmap_clear (page_num : Z) (s : pmm_state) : pmm_state :=
  if max_page_num s <=? page_num then s else
  let byte_idx := page_num / 8 in
  let bit_pos := u8 (page_num mod 8) in
  with_bitmap (mset (bitmap s) byte_idx
                    (Z.land (bitmap s byte_idx) (Z.lnot (Z.shiftl 1 bit_pos)))) s.

Definition bitmap_test (page_num : Z) (s : pmm_state) : Z :=
  if max_page_num s <=? page_num then 1 else
  let byte_idx := page_num / 8 in
  let bit_pos := u8 (page_num mod 8) in
  Z.land (Z.shiftr (bitmap s byte_idx) bit_pos) 1.

Definition addr_to_page (phys_addr : Z) : Z := phys_addr / PAGE_SIZE.
Definition page_to_addr (page_num : Z) : Z := u64 (page_num * PAGE_SIZE).

(** The two-statement body that claims a free page: [bitmap_set; used_pages++]. *)
Definition claim (page : Z) (s : pmm_state) : pmm_state :=
  let s := bitmap_set page s in with_used (u32 (used_pages s + 1)) s.

(** [bitmap_clear; used_pages--]. *)
Definition release (page : Z) (s : pmm_state) : pmm_state :=
  let s := bitmap_clear page s in with_used (u32 (used_pages s - 1)) s.

Definition claim_if_free (page : Z) (s : pmm_state) : pmm_state :=
  if truth (bitmap_test page s) then s else claim page s.

Definition release_if_used (page : Z) (s : pmm_state) : pmm_state :=
  if truth (bitmap_test page s) then release page s else s.

(** * Operations *)

Definition mmap_entry_count (t : multiboot_tag_mmap) : Z :=
  u32 (size t - 16) / entry_size t.

(** First pass of pmm_init: the highest end of an available region. *)
Definition highest_addr (t : multiboot_tag_mmap) : Z :=
  for_range 0 (mmap_entry_count t)
    (fun i hi =>
       let e := entries t i in
       if type e =? MULTIBOOT_MEMORY_AVAILABLE then
         let end_addr := u64 (addr e + len e) in
         if hi <? end_addr then end_addr else hi
       else hi) 0.

(** Second pass: one available region is marked free. *)
Definition free_region (e : multiboot_mmap_entry) (s : pmm_state) : pmm_state :=
  if type e =? MULTIBOOT_MEMORY_AVAILABLE then
    let start_page := addr e / PAGE_SIZE in
    let end_page := u64 (addr e + len e) / PAGE_SIZE in
    let end_page := if max_page_num s <? end_page then max_page_num s else end_page in
    for_range start_page end_page bitmap_clear s
  else s.

Definition pmm_init (mmap_tag : option multiboot_tag_mmap) (s : pmm_state) : pmm_state :=
  let s := with_bitmap (mfill (bitmap s) 0 MAX_BITMAP_SIZE 0xFF) s in
  match mmap_tag with
  | None => s
  | Some t =>
      let hi := highest_addr t in
      let hi := if MAX_MEMORY_SIZE <? hi then MAX_MEMORY_SIZE else hi in
      let s := Pmm (bitmap s) (u32 (hi / PAGE_SIZE)) (used_pages s) hi (hi / PAGE_SIZE)
                   (pmm_fail_in s) in
      let s := for_range 0 (mmap_entry_count t) (fun i s => free_region (entries t i) s) s in
      for_range 0 (RESERVED_LOW_MEMORY / PAGE_SIZE) claim_if_free s
  end.

Definition pmm_reserve_region (phys_addr len : Z) (s : pmm_state) : pmm_state :=
  if len =? 0 then s else
  let start := phys_addr / PAGE_SIZE in
  let fin := u64 (phys_addr + len + PAGE_SIZE - 1) / PAGE_SIZE in
  let fin := if max_page_num s <? fin then max_page_num s else fin in
  for_range start fin claim_if_free s.

Definition pmm_test_fail_after (n : Z) (s : pmm_state) : pmm_state := with_fail_in n s.

(** The first-fit scan of pmm_alloc_page, [n] pages from [page] on. *)
Fixpoint alloc_scan (n : nat) (page : Z) (s : pmm_state) : Z * pmm_state :=
  match n with
  | O => (0, s)
  | S n =>
      if truth (bitmap_test page s) then alloc_scan n (page + 1) s
      else (page_to_addr page, claim page s)
  end.

(** Returns the physical address of the page, 0 (NULL) when there is none. *)
Definition pmm_alloc_page (s : pmm_state) : Z * pmm_state :=
  if (0 <=? pmm_fail_in s) && (pmm_fail_in s =? 0) then (0, with_fail_in (-1) s) else
  let s := if 0 <=? pmm_fail_in s then with_fail_in (pmm_fail_in s - 1) s else s in
  alloc_scan (Z.to_nat (max_page_num s)) 0 s.

(** [while (k < n && !bitmap_test(start + k)) k++], [fuel] steps from [k]. *)
Fixpoint free_run (fuel : nat) (start k : Z) (s : pmm_state) : Z :=
  match fuel with
  | O => k
  | S fuel =>
      if truth (bitmap_test (start + k) s) then k else free_run fuel start (k + 1) s
  end.

Fixpoint alloc_run_scan (fuel : nat) (n start : Z) (s : pmm_state) : Z * pmm_state :=
  match fuel with
  | O => (0, s)
  | S fuel =>
      if u64 (start + n) <=? max_page_num s then
        let k := free_run (Z.to_nat n) start 0 s in
        if k =? n then
          (page_to_addr start, for_range 0 n (fun i s => claim (start + i) s) s)
        else alloc_run_scan fuel n (start + k + 1) s
      else (0, s)
  end.

Definition pmm_alloc_pages (n : Z) (s : pmm_state) : Z * pmm_state :=
  if n =? 0 then (0, s) else
  if n =? 1 then pmm_alloc_page s else
  alloc_run_scan (Z.to_nat (max_page_num s) + 1) n 0 s.

(** The argument check both free operations start with. *)
Definition bad_page_addr (phys_addr : Z) : bool :=
  (phys_addr =? 0) || truth (Z.land phys_addr (PAGE_SIZE - 1)).

(** The loop runs while [i < n && base + i < max_page_num]. *)
Definition pmm_free_pages (phys_addr n : Z) (s : pmm_state) : pmm_state :=
  if bad_page_addr phys_addr then s else
  let base := addr_to_page phys_addr in
  for_range 0 (Z.min n (max_page_num s - base))
    (fun i s => release_if_used (base + i) s) s.

Definition pmm_free_page (phys_addr : Z) (s : pmm_state) : pmm_state :=
  if bad_page_addr phys_addr then s else
  let page := addr_to_page phys_addr in
  if (page <? max_page_num s) && truth (bitmap_test page s) then release page s else s.

Definition pmm_get_free_memory (s : pmm_state) : Z :=
  u64 (u32 (total_pages s - used_pages s) * PAGE_SIZE).
Definition pmm_get_total_memory (s : pmm_state) : Z := total_memory s.
Definition pmm_get_used_page_count (s : pmm_state) : Z := used_pages s.
Definition pmm_get_total_page_count (s : pmm_state) : Z := total_pages s.

(** * uint64_to_string: decimal printing

    [temp] is filled with the digits from the least significant one; the copy
    loop writes them reversed. 20 digits hold every 64-bit value. *)

Fixpoint digits_loop (fuel : nat) (value : Z) : list Z :=
  match fuel with
  | O => []
  | S fuel => if 0 <? value then (48 + value mod 10) :: digits_loop fuel (value / 10) else []
  end.

Definition uint64_to_string (value : Z) : list Z :=
  if value =? 0 then [48] else rev (digits_loop 20 value).

(** * The abstract view: which pages are free *)

Definition page_used (s : pmm_state) (p : Z) : bool := truth (bitmap_test p s).

Definition free_pages (s : pmm_state) : gset Z :=
  list_to_set (base.filter (fun p => page_used s p = false) (seqZ 0 (max_page_num s))).

(** Number of set bits below [max_page_num]. *)
Definition set_bits (s : pmm_state) : Z :=
  count_range (Z.to_nat (max_page_num s)) 0 (page_used s).

(** What pmm_init establishes and every operation keeps. *)
Record pmm_wf (s : pmm_state) : Prop := {
  wf_max : 0 <= max_page_num s <= MAX_BITMAP_SIZE * 8;
  wf_total : total_pages s = max_page_num s;
  wf_used : 0 <= used_pages s < 2 ^ 32;
}.

(** * Lemmas on single bits *)

Lemma page_used_alt s q :
  page_used s q = (max_page_num s <=? q) || Z.testbit (bitmap s (q / 8)) (q mod 8).
Proof.
  unfold page_used, bitmap_test. destruct (Z.leb_spec (max_page_num s) q); [done|].
  rewrite u8_small by (pose proof (Z.mod_pos_bound q 8); lia).
  rewrite land_shiftr_1 by (apply Z.mod_pos_bound; lia).
  by destruct (Z.testbit _ _).
Qed.

Lemma page_used_set s p q :
  p < max_page_num s -> page_used (bitmap_set p s) q = bool_decide (q = p) || page_used s q.
Proof.
  intros Hp. rewrite !page_used_alt. unfold bitmap_set.
  destruct (Z.leb_spec (max_page_num s) p); [lia|]. cbn -[Z.modulo Z.div].
  pose proof (Z.mod_pos_bound q 8). pose proof (Z.mod_pos_bound p 8).
  pose proof (Z.div_mod q 8). pose proof (Z.div_mod p 8).
  destruct (decide (q / 8 = p / 8)) as [E|E].
  - rewrite E, mset_eq, testbit_u8, Z.lor_spec, testbit_one_shift, !u8_small by (rewrite ?u8_small; lia).
    repeat case_bool_decide; try lia; destruct (_ <=? _), (Z.testbit _ _); done.
  - rewrite mset_ne by done. case_bool_decide; [subst; done|].
    by rewrite orb_false_l.
Qed.

Lemma page_used_clear s p q :
  p < max_page_num s ->
  page_used (bitmap_clear p s) q = negb (bool_decide (q = p)) && page_used s q.
Proof.
  intros Hp. rewrite !page_used_alt. unfold bitmap_clear.
  destruct (Z.leb_spec (max_page_num s) p); [lia|]. cbn -[Z.modulo Z.div].
  pose proof (Z.mod_pos_bound q 8). pose proof (Z.mod_pos_bound p 8).
  pose proof (Z.div_mod q 8). pose proof (Z.div_mod p 8).
  destruct (decide (q / 8 = p / 8)) as [E|E].
  - rewrite E, mset_eq, testbit_u8, Z.land_spec, Z.lnot_spec, testbit_one_shift, !u8_small
      by (rewrite ?u8_small; lia).
    destruct (Z.leb_spec (max_page_num s) q); repeat case_bool_decide; try lia;
      destruct (Z.testbit _ _); done.
  - rewrite mset_ne by done. case_bool_decide; [subst; done|].
    by rewrite andb_true_l.
Qed.

Lemma bitmap_set_max s p : max_page_num (bitmap_set p s) = max_page_num s.
Proof. unfold bitmap_set. by zif. Qed.

Lemma bitmap_clear_max s p : max_page_num (bitmap_clear p s) = max_page_num s.
Proof. unfold bitmap_clear. by zif. Qed.

Lemma page_used_claim s p q :
  p < max_page_num s -> page_used (claim p s) q = bool_decide (q = p) || page_used s q.
Proof. apply page_used_set. Qed.

Lemma page_used_release s p q :
  p < max_page_num s ->
  page_used (release p s) q = negb (bool_decide (q = p)) && page_used s q.
Proof. apply page_used_clear. Qed.

Lemma page_used_high s p : max_page_num s <= p -> page_used s p = true.
Proof. intros. rewrite page_used_alt. zcase; [done|lia]. Qed.

Lemma elem_of_free_pages s p :
  p ∈ free_pages s <-> 0 <= p < max_page_num s /\ page_used s p = false.
Proof.
  unfold free_pages. rewrite elem_of_list_to_set, list_elem_of_filter, elem_of_seqZ.
  intuition lia.
Qed.

(** ** What an operation may change: the frame of claim and release *)

Record same_frame (s s' : pmm_state) : Prop := {
  sf_max : max_page_num s' = max_page_num s;
  sf_total : total_pages s' = total_pages s;
  sf_mem : total_memory s' = total_memory s;
  sf_fail : pmm_fail_in s' = pmm_fail_in s;
}.

#[export] Instance same_frame_preorder : PreOrder same_frame.
Proof.
  split; [by intros s|].
  intros a b c [] []. split; congruence.
Qed.

Lemma bitmap_set_frame p s : same_frame s (bitmap_set p s).
Proof. unfold bitmap_set. by zif. Qed.

Lemma bitmap_clear_frame p s : same_frame s (bitmap_clear p s).
Proof. unfold bitmap_clear. by zif. Qed.

Lemma claim_frame p s : same_frame s (claim p s).
Proof. destruct (bitmap_set_frame p s). by split. Qed.

Lemma release_frame p s : same_frame s (release p s).
Proof. destruct (bitmap_clear_frame p s). by split. Qed.

Lemma claim_used p s : used_pages (claim p s) = u32 (used_pages s + 1).
Proof. unfold claim, bitmap_set. by zif. Qed.

Lemma release_used p s : used_pages (release p s) = u32 (used_pages s - 1).
Proof. unfold release, bitmap_clear. by zif. Qed.

Lemma claim_if_free_frame p s : same_frame s (claim_if_free p s).
Proof. unfold claim_if_free. zif; [done|apply claim_frame]. Qed.

Lemma release_if_used_frame p s : same_frame s (release_if_used p s).
Proof. unfold release_if_used. zif; [apply release_frame|done]. Qed.

#[export] Hint Resolve claim_frame release_frame claim_if_free_frame
  release_if_used_frame bitmap_set_frame bitmap_clear_frame : makh.

Lemma for_range_frame lo hi f s :
  (forall i t, same_frame t (f i t)) -> same_frame s (for_range lo hi f s).
Proof.
  intros Hf. apply (for_range_inv (same_frame s)); [done|].
  intros j t _ Ht. etrans; [exact Ht|apply Hf].
Qed.

(** ** Accounting: the set bits and the counter move together *)

Definition balance (s : pmm_state) : Z := u32 (set_bits s - used_pages s).

Lemma set_bits_claim p s :
  0 <= p < max_page_num s -> page_used s p = false ->
  set_bits (claim p s) = set_bits s + 1.
Proof.
  intros Hp Hf. unfold set_bits. rewrite (sf_max _ _ (claim_frame p s)).
  rewrite (count_range_update _ 0 (page_used s) _ p).
  - rewrite page_used_claim by lia. rewrite bool_decide_true, Hf by done. simpl. lia.
  - lia.
  - intros i Hi. rewrite page_used_claim by lia. by rewrite bool_decide_false.
Qed.

Lemma set_bits_release p s :
  0 <= p < max_page_num s -> page_used s p = true ->
  set_bits (release p s) = set_bits s - 1.
Proof.
  intros Hp Hf. unfold set_bits. rewrite (sf_max _ _ (release_frame p s)).
  rewrite (count_range_update _ 0 (page_used s) _ p).
  - rewrite page_used_release by lia. rewrite bool_decide_true, Hf by done. simpl. lia.
  - lia.
  - intros i Hi. rewrite page_used_release by lia. by rewrite bool_decide_false.
Qed.

Lemma balance_claim p s :
  0 <= p -> page_used s p = false -> balance (claim p s) = balance s.
Proof.
  intros Hp Hf. destruct (Z.lt_ge_cases p (max_page_num s)) as [H|H].
  2:{ rewrite page_used_high in Hf by lia. done. }
  unfold balance. rewrite set_bits_claim, claim_used by (done || lia).
  unfold u32. rewrite Zminus_mod_idemp_r. f_equal. lia.
Qed.

Lemma balance_release p s :
  0 <= p < max_page_num s -> page_used s p = true -> balance (release p s) = balance s.
Proof.
  intros Hp Hf. unfold balance. rewrite set_bits_release, release_used by (done || lia).
  unfold u32. rewrite Zminus_mod_idemp_r. f_equal. lia.
Qed.

Lemma balance_claim_if_free p s : 0 <= p -> balance (claim_if_free p s) = balance s.
Proof.
  intros. unfold claim_if_free. fold (page_used s p). zif; [done|].
  by apply balance_claim.
Qed.

Lemma balance_release_if_used p s :
  0 <= p < max_page_num s -> balance (release_if_used p s) = balance s.
Proof.
  intros. unfold release_if_used. fold (page_used s p). zif; [|done].
  by apply balance_release.
Qed.

(** ** First-fit scans *)

(** [n] pages from [start] on are all free. *)
Definition run_free (s : pmm_state) (start n : Z) : Prop :=
  forall i, 0 <= i < n -> page_used s (start + i) = false.

#[export] Instance run_free_dec s start n : Decision (run_free s start n).
Proof.
  destruct (decide (Forall (fun i => page_used s (start + i) = false) (seqZ 0 n)))
    as [H|H]; rewrite Forall_forall in H; [left|right].
  - intros i Hi. apply H. apply elem_of_seqZ. lia.
  - intros Hr. apply H. intros i Hi. apply Hr. apply elem_of_seqZ in Hi. lia.
Defined.

Lemma alloc_scan_spec n page s :
  (alloc_scan n page s = (0, s) /\
     forall q, page <= q < page + Z.of_nat n -> page_used s q = true) \/
  (exists p, page <= p < page + Z.of_nat n /\ page_used s p = false /\
     (forall q, page <= q < p -> page_used s q = true) /\
     alloc_scan n page s = (page_to_addr p, claim p s)).
Proof.
  revert page. induction n as [|n IH]; intros page; cbn [alloc_scan].
  - left. split; [done|]. lia.
  - fold (page_used s page). destruct (page_used s page) eqn:E.
    + destruct (IH (page + 1)) as [[Hr Hq]|(p & Hp & Hf & Hq & Hr)].
      * left. split; [done|]. intros q ?. destruct (decide (q = page)); [by subst|].
        apply Hq. lia.
      * right. exists p. split; [lia|]. split; [done|]. split; [|done].
        intros q ?. destruct (decide (q = page)); [by subst|]. apply Hq. lia.
    + right. exists page. repeat split; try done; lia.
Qed.

Lemma free_run_spec fuel start k s :
  let r := free_run fuel start k s in
  k <= r <= k + Z.of_nat fuel /\
  (forall i, k <= i < r -> page_used s (start + i) = false) /\
  (r < k + Z.of_nat fuel -> page_used s (start + r) = true).
Proof.
  cbv zeta. revert k. induction fuel as [|fuel IH]; intros k; cbn [free_run].
  - repeat split; intros; lia.
  - fold (page_used s (start + k)). destruct (page_used s (start + k)) eqn:E.
    + repeat split; intros; try lia. done.
    + destruct (IH (k + 1)) as (H1 & H2 & H3). repeat split; try lia.
      * intros i Hi. destruct (decide (i = k)); [by subst|]. apply H2. lia.
      * intros. apply H3. lia.
Qed.

(** The scan for a run finds the first one, and reports NULL only when there is
    none: skipping past the used page that broke a run loses nothing. *)
Lemma alloc_run_scan_spec fuel n start s :
  0 < n <= max_page_num s -> 0 <= start <= max_page_num s + 1 ->
  max_page_num s < 2 ^ 32 -> max_page_num s - start < Z.of_nat fuel ->
  (alloc_run_scan fuel n start s = (0, s) /\
     forall q, start <= q -> q + n <= max_page_num s -> ~ run_free s q n) \/
  (exists p, start <= p /\ p + n <= max_page_num s /\ run_free s p n /\
     (forall q, start <= q < p -> ~ run_free s q n) /\
     alloc_run_scan fuel n start s =
       (page_to_addr p, for_range 0 n (fun i s => claim (p + i) s) s)).
Proof.
  intros Hn. revert start. induction fuel as [|fuel IH]; intros start Hs Hm Hf.
  { left. split; [done|]. intros. lia. }
  cbn [alloc_run_scan]. rewrite u64_small by lia.
  destruct (Z.leb_spec (start + n) (max_page_num s)) as [Hle|Hgt].
  2:{ left. split; [done|]. intros. lia. }
  destruct (free_run_spec (Z.to_nat n) start 0 s) as (H1 & H2 & H3).
  set (k := free_run (Z.to_nat n) start 0 s) in *.
  destruct (Z.eqb_spec k n) as [Hk|Hk].
  - right. exists start. repeat split; try lia.
    intros i Hi. apply H2. lia.
  - assert (Hskip : forall q, start <= q < start + k + 1 -> ~ run_free s q n).
    { intros q Hq Hr. specialize (Hr (start + k - q)).
      replace (q + (start + k - q)) with (start + k) in Hr by lia.
      rewrite H3 in Hr by lia. discriminate Hr. lia. }
    destruct (IH (start + k + 1)) as [[Hr Hq]|(p & Hp & Hpn & Hrf & Hq & Hr)]; try lia.
    + left. split; [done|]. intros q Hq1 Hq2.
      destruct (Z.lt_ge_cases q (start + k + 1)); [apply Hskip; lia|apply Hq; lia].
    + right. exists p. repeat split; try done; [lia|]. intros q Hq1.
      destruct (Z.lt_ge_cases q (start + k + 1)); [apply Hskip; lia|apply Hq; lia].
Qed.

(** ** Claiming a run *)

Definition in_run (p n q : Z) : bool := (p <=? q) && (q <? p + n).

Lemma in_run_empty p n q : n <= 0 -> in_run p n q = false.
Proof. intros. unfold in_run. zcase; simpl; first [done|lia]. Qed.

Lemma claim_run_spec n p s :
  0 <= n -> 0 <= p -> p + n <= max_page_num s -> run_free s p n ->
  let s' := for_range 0 n (fun i s => claim (p + i) s) s in
  same_frame s s' /\
  (forall q, page_used s' q = in_run p n q || page_used s q) /\
  used_pages s' mod 2 ^ 32 = u32 (used_pages s + n) /\
  balance s' = balance s.
Proof.
  intros Hn Hp Hm Hr. cbv zeta.
  apply (for_range_ind (fun j t =>
    same_frame s t /\
    (forall q, page_used t q = in_run p j q || page_used s q) /\
    used_pages t mod 2 ^ 32 = u32 (used_pages s + j) /\ balance t = balance s)); [lia| |].
  - repeat split; [|by rewrite Z.add_0_r].
    intros q. by rewrite in_run_empty by lia.
  - intros j t Hj (Hf & Hu & Hc & Hb).
    pose proof (sf_max _ _ Hf) as Hmax.
    assert (Hfree : page_used t (p + j) = false).
    { rewrite Hu, Hr by lia. unfold in_run. zcase; simpl; first [done|lia]. }
    split; [etrans; [done|apply claim_frame]|]. split; [|split].
    + intros q. rewrite page_used_claim, Hu, orb_assoc by lia. f_equal.
      unfold in_run. case_bool_decide; zcase; simpl; first [done|lia].
    + rewrite claim_used. unfold u32 in *. rewrite Z.mod_mod by lia.
      rewrite <- Zplus_mod_idemp_l, Hc, Zplus_mod_idemp_l. f_equal. lia.
    + rewrite balance_claim by (done || lia). done.
Qed.

Lemma run_free_1 s p : run_free s p 1 <-> page_used s p = false.
Proof.
  split; intros H.
  - specialize (H 0). rewrite Z.add_0_r in H. apply H. lia.
  - intros i Hi. by replace (p + i) with p by lia.
Qed.

Lemma page_to_addr_exact s p :
  pmm_wf s -> 0 <= p <= max_page_num s -> page_to_addr p = p * PAGE_SIZE.
Proof.
  intros [Hm _ _] Hp. unfold page_to_addr, PAGE_SIZE in *.
  apply u64_small. change (MAX_BITMAP_SIZE * 8) with 1048576 in Hm. lia.
Qed.

Lemma free_pages_claimed s s' p n :
  0 <= p -> 0 <= n -> p + n <= max_page_num s -> max_page_num s' = max_page_num s ->
  (forall q, page_used s' q = in_run p n q || page_used s q) ->
  free_pages s' = free_pages s ∖ list_to_set (seqZ p n).
Proof.
  intros Hp Hn Hle Hm Hu. apply set_eq. intros q.
  rewrite elem_of_difference, elem_of_list_to_set, elem_of_seqZ, !elem_of_free_pages, Hm, Hu.
  rewrite orb_false_iff. unfold in_run. rewrite andb_false_iff. intuition lia.
Qed.

Lemma claimed_inv s s' p n q :
  0 <= p -> 0 <= q -> max_page_num s' = max_page_num s ->
  run_free s p n -> p + n <= max_page_num s ->
  free_pages s' = free_pages s ∖ list_to_set (seqZ p n) ->
  page_used s' q = in_run p n q || page_used s q.
Proof.
  intros Hp Hq Hm Hr Hle Hf.
  assert (Hiff : q ∈ free_pages s' <-> q ∈ free_pages s /\ ~ p <= q < p + n).
  { rewrite Hf, elem_of_difference, elem_of_list_to_set, elem_of_seqZ. done. }
  rewrite !elem_of_free_pages, Hm in Hiff. unfold in_run.
  destruct (Z.lt_ge_cases q (max_page_num s)).
  - destruct (page_used s' q), (page_used s q); zcase; simpl; intuition (congruence || lia).
  - rewrite !page_used_high by lia. by rewrite orb_true_r.
Qed.

(** The result every allocation of [n] pages is specified against: the first
    run of [n] free pages is taken, and NULL means there is none. *)
Definition first_fit (n : Z) (s : pmm_state) (r : Z) (s' : pmm_state) : Prop :=
  (r = 0 /\ s' = s /\ forall q, 0 <= q -> q + n <= max_page_num s -> ~ run_free s q n) \/
  (exists p, 0 <= p /\ p + n <= max_page_num s /\ run_free s p n /\
     (forall q, 0 <= q < p -> ~ run_free s q n) /\
     r = p * PAGE_SIZE /\
     free_pages s' = free_pages s ∖ list_to_set (seqZ p n) /\
     used_pages s' = u32 (used_pages s + n) /\ pmm_wf s' /\ same_frame s s').

Lemma wf_frame s s' :
  pmm_wf s -> same_frame s s' -> 0 <= used_pages s' < 2 ^ 32 -> pmm_wf s'.
Proof. intros [? ? ?] [? ? ? ?] ?. split; congruence || lia. Qed.

Lemma alloc_page_first_fit s :
  pmm_wf s -> pmm_fail_in s < 0 ->
  first_fit 1 s (pmm_alloc_page s).1 (pmm_alloc_page s).2.
Proof.
  intros Hwf Hd. unfold pmm_alloc_page.
  destruct (Z.leb_spec 0 (pmm_fail_in s)); [lia|]. cbn [andb].
  pose proof (wf_max _ Hwf) as Hmax.
  destruct (alloc_scan_spec (Z.to_nat (max_page_num s)) 0 s)
    as [[-> Hq]|(p & Hp & Hf & Hq & ->)]; [left|right]; cbn [fst snd].
  - split; [done|]. split; [done|]. intros q ? ?. rewrite run_free_1, Hq by lia. done.
  - exists p. split; [lia|]. split; [lia|]. rewrite run_free_1. split; [done|].
    split; [intros q ?; rewrite run_free_1, Hq by lia; done|].
    split; [eapply page_to_addr_exact; [done|lia]|]. split; [|split].
    + apply free_pages_claimed; [lia..|apply (claim_frame p s)|].
      intros q. rewrite page_used_claim by lia. f_equal. unfold in_run.
      case_bool_decide; zcase; simpl; first [done|lia].
    + apply claim_used.
    + split; [|apply claim_frame].
      apply (wf_frame s); [done|apply claim_frame|]. rewrite claim_used. apply u32_range.
Qed.

Lemma for_claim_used_range n p s :
  0 < n -> 0 <= used_pages (for_range 0 n (fun i s => claim (p + i) s) s) < 2 ^ 32.
Proof.
  intros. apply (for_range_ind (fun j t => 0 < j -> 0 <= used_pages t < 2 ^ 32)); [lia..| |lia].
  intros j t _ _ _. rewrite claim_used. apply u32_range.
Qed.

Lemma alloc_pages_first_fit n s :
  pmm_wf s -> pmm_fail_in s < 0 -> 1 <= n < 2 ^ 64 ->
  first_fit n s (pmm_alloc_pages n s).1 (pmm_alloc_pages n s).2.
Proof.
  intros Hwf Hd Hn. unfold pmm_alloc_pages.
  destruct (Z.eqb_spec n 0); [lia|]. destruct (Z.eqb_spec n 1) as [->|].
  { by apply alloc_page_first_fit. }
  pose proof (wf_max _ Hwf) as Hmax. change (MAX_BITMAP_SIZE * 8) with 1048576 in Hmax.
  destruct (Z.le_gt_cases n (max_page_num s)) as [Hle|Hgt].
  2:{ left. rewrite Nat.add_1_r. cbn [alloc_run_scan]. rewrite u64_small by lia.
      destruct (Z.leb_spec (0 + n) (max_page_num s)); [lia|]. repeat split; lia. }
  destruct (alloc_run_scan_spec (Z.to_nat (max_page_num s) + 1) n 0 s)
    as [[-> Hq]|(p & Hp & Hpn & Hr & Hq & ->)]; try lia; [left|right]; cbn [fst snd].
  - repeat split; try done.
  - destruct (claim_run_spec n p s) as (Hf & Hu & Hc & _); [lia..|done|].
    pose proof (for_claim_used_range n p s ltac:(lia)) as Hrange.
    exists p. do 3 (split; [done || lia|]). split; [intros; apply Hq; lia|].
    split; [eapply page_to_addr_exact; [done|lia]|]. split; [|split].
    + apply free_pages_claimed; [lia..|apply Hf|done].
    + rewrite <- Hc. symmetry. by apply Z.mod_small.
    + split; [by apply (wf_frame s)|done].
Qed.

(** C21: for every [n >= 1], pmm_alloc_pages claims the first run of [n] free
    pages of the bitmap: it returns the run's address, removes exactly those
    pages from the free set and adds [n] to used_pages, and it returns NULL,
    leaving the state untouched, only when no such run exists. *)
Theorem pmm_alloc_pages_first_fit n s :
  pmm_wf s -> pmm_fail_in s < 0 -> 1 <= n < 2 ^ 64 ->
  first_fit n s (pmm_alloc_pages n s).1 (pmm_alloc_pages n s).2.
Proof. apply alloc_pages_first_fit. Qed.

(** ** A small allocator state to evaluate on: 16 pages, pages 0, 1 and 4 used *)

Definition demo_bitmap : mem := fun i => if i =? 0 then 0x13 else 0.
Definition demo : pmm_state := Pmm demo_bitmap 16 3 65536 16 (-1).

Lemma demo_wf : pmm_wf demo.
Proof. split; vm_compute; split; congruence. Qed.

Lemma pmm_alloc_pages_first_fit_witness :
  (pmm_alloc_pages 3 demo).1 = 0x5000 /\
  first_fit 3 demo (pmm_alloc_pages 3 demo).1 (pmm_alloc_pages 3 demo).2.
Proof.
  split; [reflexivity|].
  apply (pmm_alloc_pages_first_fit 3 demo); [apply demo_wf|reflexivity|lia].
Defined.

(** ** Freeing *)

Lemma release_if_used_spec p q s :
  p < max_page_num s ->
  page_used (release_if_used p s) q = negb (bool_decide (q = p)) && page_used s q.
Proof.
  intros. unfold release_if_used. fold (page_used s p).
  destruct (page_used s p) eqn:E; [by apply page_used_release|].
  case_bool_decide; [subst; by rewrite E|done].
Qed.

Lemma page_not_negative a : bad_page_addr a = false -> 0 <= a -> 0 < addr_to_page a.
Proof.
  unfold bad_page_addr, addr_to_page. rewrite orb_false_iff. intros [H0 Hl] Ha.
  apply Z.eqb_neq in H0. change (PAGE_SIZE - 1) with (Z.ones 12) in Hl.
  rewrite Z.land_ones in Hl by lia. apply Z.div_str_pos.
  unfold truth in Hl. apply negb_false_iff, Z.eqb_eq in Hl.
  change (2 ^ 12) with PAGE_SIZE in Hl. pose proof (Z.div_mod a PAGE_SIZE).
  unfold PAGE_SIZE in *. lia.
Qed.

Lemma bad_page_addr_page p : 0 < p -> bad_page_addr (p * PAGE_SIZE) = false.
Proof.
  intros. unfold bad_page_addr. change (PAGE_SIZE - 1) with (Z.ones 12).
  rewrite Z.land_ones by lia. change (2 ^ 12) with PAGE_SIZE.
  rewrite Z.mod_mul by done. unfold PAGE_SIZE. zcase; [lia|done].
Qed.

Lemma addr_to_page_mul p : addr_to_page (p * PAGE_SIZE) = p.
Proof. unfold addr_to_page. by apply Z.div_mul. Qed.

(** The loop of pmm_free_pages over [k] pages that are in range. *)
Lemma free_loop_spec k p s :
  0 <= k -> 0 <= p -> p + k <= max_page_num s ->
  let s' := for_range 0 k (fun i s => release_if_used (p + i) s) s in
  same_frame s s' /\
  (forall q, page_used s' q = negb (in_run p k q) && page_used s q) /\
  ((forall i, 0 <= i < k -> page_used s (p + i) = true) ->
     u32 (used_pages s') = u32 (used_pages s - k)) /\
  balance s' = balance s.
Proof.
  intros Hk Hp Hm. cbv zeta.
  apply (for_range_ind (fun j t =>
    same_frame s t /\
    (forall q, page_used t q = negb (in_run p j q) && page_used s q) /\
    ((forall i, 0 <= i < j -> page_used s (p + i) = true) ->
       u32 (used_pages t) = u32 (used_pages s - j)) /\ balance t = balance s)); [lia| |].
  - repeat split; intros; [by rewrite in_run_empty by lia|f_equal; lia].
  - intros j t Hj (Hf & Hu & Hc & Hb). pose proof (sf_max _ _ Hf) as Hmax.
    split; [etrans; [done|apply release_if_used_frame]|]. split; [|split].
    + intros q. rewrite release_if_used_spec, Hu, andb_assoc by lia. f_equal.
      unfold in_run. case_bool_decide; zcase; simpl; first [done|lia].
    + intros Hall. unfold release_if_used. fold (page_used t (p + j)).
      rewrite Hu, Hall by lia.
      replace (in_run p j (p + j)) with false
        by (unfold in_run; zcase; simpl; first [done|lia]). cbn [negb andb].
      rewrite release_used. unfold u32 in *. rewrite Z.mod_mod by lia.
      rewrite <- Zminus_mod_idemp_l, Hc, Zminus_mod_idemp_l by (intros; apply Hall; lia).
      f_equal. lia.
    + rewrite balance_release_if_used by lia. done.
Qed.

(** Freeing what pmm_alloc_pages returned gives the allocator back exactly
    the free set and the used-page counter it had before the allocation. *)
Theorem pmm_alloc_free_roundtrip n s :
  pmm_wf s -> pmm_fail_in s < 0 -> 1 <= n < 2 ^ 64 -> (pmm_alloc_pages n s).1 <> 0 ->
  let s' := pmm_free_pages (pmm_alloc_pages n s).1 n (pmm_alloc_pages n s).2 in
  free_pages s' = free_pages s /\ u32 (used_pages s') = used_pages s.
Proof.
  intros Hwf Hd Hn Hnz. cbv zeta.
  destruct (alloc_pages_first_fit n s Hwf Hd Hn)
    as [[? _]|(p & Hp & Hpn & Hr & _ & E & Hfr & Hu & Hwf' & Hsf)]; [done|].
  rewrite E in *. set (t := (pmm_alloc_pages n s).2) in *.
  pose proof (sf_max _ _ Hsf) as Hmax.
  unfold pmm_free_pages. rewrite bad_page_addr_page, addr_to_page_mul by (unfold PAGE_SIZE in *; lia).
  rewrite Z.min_l by lia.
  destruct (free_loop_spec n p t) as (Hf & Hq & Hc & _); [lia..|].
  set (t' := for_range _ _ _ _) in *. pose proof (sf_max _ _ Hf) as Hmax'.
  assert (Hused : forall q, 0 <= q -> page_used t q = in_run p n q || page_used s q).
  { intros q ?. apply (claimed_inv s t p n); done || lia. }
  split.
  - apply set_eq. intros q. rewrite !elem_of_free_pages, Hmax', Hmax, Hq.
    destruct (Z.le_gt_cases 0 q); [|intuition lia]. rewrite Hused by done.
    destruct (in_run p n q) eqn:Ein; [|done]. simpl.
    unfold in_run in Ein. specialize (Hr (q - p)). replace (p + (q - p)) with q in Hr by lia.
    by rewrite Hr by lia.
  - rewrite Hc, Hu.
    + rewrite u32_idem_sub. replace (used_pages s + n - n) with (used_pages s) by lia.
      apply u32_small, (wf_used _ Hwf).
    + intros i Hi. rewrite Hused by lia. unfold in_run. zcase; simpl; first [done|lia].
Qed.

Lemma pmm_alloc_free_roundtrip_witness :
  let s' := pmm_free_pages (pmm_alloc_pages 3 demo).1 3 (pmm_alloc_pages 3 demo).2 in
  free_pages s' = free_pages demo /\ u32 (used_pages s') = used_pages demo.
Proof.
  apply (pmm_alloc_free_roundtrip 3 demo); [apply demo_wf|reflexivity|lia|vm_compute; congruence].
Defined.

(** ** Sequences of operations *)

Inductive pmm_op :=
| OpAlloc
| OpAllocN (n : Z)
| OpFree (a : Z)
| OpFreeN (a n : Z)
| OpReserve (a n : Z)
| OpFailAfter (n : Z).

Definition pmm_step (o : pmm_op) (s : pmm_state) : pmm_state :=
  match o with
  | OpAlloc => (pmm_alloc_page s).2
  | OpAllocN n => (pmm_alloc_pages n s).2
  | OpFree a => pmm_free_page a s
  | OpFreeN a n => pmm_free_pages a n s
  | OpReserve a n => pmm_reserve_region a n s
  | OpFailAfter n => pmm_test_fail_after n s
  end.

(** Arguments are 64-bit unsigned values. *)
Definition op_ok (o : pmm_op) : Prop :=
  match o with
  | OpAlloc | OpFailAfter _ => True
  | OpAllocN n => 0 <= n < 2 ^ 64
  | OpFree a => 0 <= a < 2 ^ 64
  | OpFreeN a n | OpReserve a n => 0 <= a < 2 ^ 64 /\ 0 <= n < 2 ^ 64
  end.

Definition pmm_run (os : list pmm_op) (s : pmm_state) : pmm_state :=
  foldl (fun s o => pmm_step o s) s os.

(** What one operation keeps: the well-formedness and the balance. *)
Definition keeps (s s' : pmm_state) : Prop := pmm_wf s' /\ balance s' = balance s.

Lemma keeps_refl s : pmm_wf s -> keeps s s.
Proof. by split. Qed.

Lemma keeps_claim_if_free p s t :
  0 <= p -> keeps s t -> keeps s (claim_if_free p t).
Proof.
  intros Hp [Hwf Hb]. split; [|by rewrite balance_claim_if_free].
  apply (wf_frame t); [done|apply claim_if_free_frame|].
  unfold claim_if_free. zif; [apply Hwf|]. rewrite claim_used. apply u32_range.
Qed.

Lemma keeps_claim p s t :
  0 <= p -> page_used t p = false -> keeps s t -> keeps s (claim p t).
Proof.
  intros Hp Hf. unfold page_used in Hf. intros Hk.
  generalize (keeps_claim_if_free p s t Hp Hk). unfold claim_if_free. by rewrite Hf.
Qed.

Lemma keeps_release_if_used p s t :
  0 <= p < max_page_num t -> keeps s t -> keeps s (release_if_used p t).
Proof.
  intros Hp [Hwf Hb]. split; [|by rewrite balance_release_if_used].
  apply (wf_frame t); [done|apply release_if_used_frame|].
  unfold release_if_used. zif; [|apply Hwf]. rewrite release_used. apply u32_range.
Qed.

Lemma keeps_fail_in n s : pmm_wf s -> keeps s (with_fail_in n s).
Proof. intros [? ? ?]. split; [by split|done]. Qed.

Lemma keeps_trans s t u : keeps s t -> keeps t u -> keeps s u.
Proof. intros [? ?] [? ?]. split; [done|congruence]. Qed.

Lemma keeps_alloc_page s : pmm_wf s -> keeps s (pmm_alloc_page s).2.
Proof.
  intros Hwf. unfold pmm_alloc_page.
  destruct ((0 <=? pmm_fail_in s) && (pmm_fail_in s =? 0)); [by apply keeps_fail_in|].
  match goal with |- context [alloc_scan _ _ ?t] => assert (Hk : keeps s t) end.
  { zif; [by apply keeps_fail_in|by apply keeps_refl]. }
  revert Hk. generalize (if 0 <=? pmm_fail_in s then with_fail_in (pmm_fail_in s - 1) s else s).
  intros t Hk. destruct (alloc_scan_spec (Z.to_nat (max_page_num t)) 0 t)
    as [[-> _]|(p & Hp & Hf & _ & ->)]; [done|]. apply keeps_claim; [lia|done..].
Qed.

Lemma keeps_alloc_pages n s : 0 <= n < 2 ^ 64 -> pmm_wf s -> keeps s (pmm_alloc_pages n s).2.
Proof.
  intros Hn Hwf. unfold pmm_alloc_pages.
  destruct (Z.eqb_spec n 0); [by apply keeps_refl|].
  destruct (Z.eqb_spec n 1); [by apply keeps_alloc_page|].
  pose proof (wf_max _ Hwf) as Hmax. change (MAX_BITMAP_SIZE * 8) with 1048576 in Hmax.
  destruct (Z.le_gt_cases n (max_page_num s)) as [Hle|Hgt].
  2:{ rewrite Nat.add_1_r. cbn [alloc_run_scan]. rewrite u64_small by lia.
      destruct (Z.leb_spec (0 + n) (max_page_num s)); [lia|]. by apply keeps_refl. }
  destruct (alloc_run_scan_spec (Z.to_nat (max_page_num s) + 1) n 0 s)
    as [[-> _]|(p & Hp & Hpn & Hr & _ & ->)]; try lia; [by apply keeps_refl|].
  destruct (claim_run_spec n p s) as (Hf & _ & _ & Hb); [lia..|done|].
  split; [|done]. apply (wf_frame s); [done..|]. apply for_claim_used_range. lia.
Qed.

Lemma keeps_free_pages a n s :
  0 <= a < 2 ^ 64 -> pmm_wf s -> keeps s (pmm_free_pages a n s).
Proof.
  intros Ha Hwf. unfold pmm_free_pages. destruct (bad_page_addr a) eqn:E; [by apply keeps_refl|].
  apply page_not_negative in E; [|lia].
  apply (for_range_inv (fun t => keeps s t /\ max_page_num t = max_page_num s)).
  - split; [by apply keeps_refl|done].
  - intros j t Hj [Hk Hm]. split; [apply keeps_release_if_used; [lia|done]|].
    by rewrite (sf_max _ _ (release_if_used_frame _ t)).
Qed.

Lemma keeps_free_page a s : 0 <= a < 2 ^ 64 -> pmm_wf s -> keeps s (pmm_free_page a s).
Proof.
  intros Ha Hwf. unfold pmm_free_page. destruct (bad_page_addr a) eqn:E; [by apply keeps_refl|].
  apply page_not_negative in E; [|lia].
  destruct (Z.ltb_spec (addr_to_page a) (max_page_num s)); [|by apply keeps_refl].
  cbn [andb].
  generalize (keeps_release_if_used (addr_to_page a) s s ltac:(lia) (keeps_refl s Hwf)).
  unfold release_if_used. by destruct (truth _).
Qed.

Lemma keeps_reserve a n s : 0 <= a -> pmm_wf s -> keeps s (pmm_reserve_region a n s).
Proof.
  intros Ha Hwf. unfold pmm_reserve_region. destruct (n =? 0); [by apply keeps_refl|].
  apply for_range_inv; [by apply keeps_refl|].
  intros j t Hj Hk. apply keeps_claim_if_free; [|done].
  pose proof (Z.div_pos a PAGE_SIZE). unfold PAGE_SIZE in *. lia.
Qed.

Lemma keeps_step o s : op_ok o -> pmm_wf s -> keeps s (pmm_step o s).
Proof.
  destruct o; cbn [op_ok pmm_step]; intros;
    [by apply keeps_alloc_page|by apply keeps_alloc_pages|by apply keeps_free_page
    |apply keeps_free_pages; tauto|apply keeps_reserve; [lia|done]|by apply keeps_fail_in].
Qed.

(** Over any sequence of allocations, frees, reservations and fault
    injections, the counter used_pages and the number of set bits of the bitmap
    differ by a constant (mod 2^32), and the bitmap index of every managed page
    stays inside the static array. *)
Theorem pmm_accounting os s :
  pmm_wf s -> Forall op_ok os ->
  pmm_wf (pmm_run os s) /\ balance (pmm_run os s) = balance s /\
  (forall p, 0 <= p < max_page_num (pmm_run os s) -> 0 <= p / 8 < MAX_BITMAP_SIZE).
Proof.
  intros Hwf Hok. assert (keeps s (pmm_run os s)) as [Hw Hb].
  { unfold pmm_run. revert s Hwf. induction Hok as [|o os Ho Hos IH]; intros s Hwf; simpl.
    - by apply keeps_refl.
    - destruct (keeps_step o s Ho Hwf) as [Hw Hb]. eapply keeps_trans; [by split|].
      by apply IH. }
  split; [done|]. split; [done|]. intros p Hp. pose proof (wf_max _ Hw).
  pose proof (Z.div_mod p 8). pose proof (Z.mod_pos_bound p 8). lia.
Qed.

Definition demo_ops : list pmm_op :=
  [OpAlloc; OpAllocN 4; OpFailAfter 1; OpAlloc; OpAlloc; OpFree 0x2000; OpFree 0x2000;
   OpReserve 0xA001 0x1000; OpFreeN 0x5000 9; OpFree 7].

Lemma pmm_accounting_witness :
  used_pages (pmm_run demo_ops demo) = 4 /\ balance demo = 0 /\
  pmm_wf (pmm_run demo_ops demo) /\ balance (pmm_run demo_ops demo) = balance demo /\
  (forall p, 0 <= p < max_page_num (pmm_run demo_ops demo) -> 0 <= p / 8 < MAX_BITMAP_SIZE).
Proof.
  split; [vm_compute; reflexivity|]. split; [vm_compute; reflexivity|].
  apply (pmm_accounting demo_ops demo); [apply demo_wf|].
  repeat constructor; cbn; lia.
Defined.

(** ** Initialisation from the memory map *)

(** Entry [i] of the map makes page [p] available. *)
Definition entry_covers (t : multiboot_tag_mmap) (p i : Z) : bool :=
  let e := entries t i in
  (type e =? MULTIBOOT_MEMORY_AVAILABLE) && (addr e / PAGE_SIZE <=? p)
  && (p <? u64 (addr e + len e) / PAGE_SIZE).

(** Some entry below [k] makes page [p] available. *)
Fixpoint available_upto (t : multiboot_tag_mmap) (p : Z) (k : nat) : bool :=
  match k with
  | O => false
  | S k => available_upto t p k || entry_covers t p (Z.of_nat k)
  end.

Definition available (t : multiboot_tag_mmap) (p : Z) : bool :=
  available_upto t p (Z.to_nat (mmap_entry_count t)).

Lemma available_upto_S t p j :
  0 <= j ->
  available_upto t p (Z.to_nat (j + 1)) = available_upto t p (Z.to_nat j) || entry_covers t p j.
Proof.
  intros. rewrite Z2Nat.inj_add by lia. rewrite Nat.add_1_r. cbn [available_upto].
  by rewrite Z2Nat.id by lia.
Qed.

Lemma clear_loop_spec lo hi s :
  hi <= max_page_num s -> 
  let s' := for_range lo hi bitmap_clear s in
  same_frame s s' /\ used_pages s' = used_pages s /\
  forall q, page_used s' q = negb ((lo <=? q) && (q <? hi)) && page_used s q.
Proof.
  intros Hhi. cbv zeta. destruct (Z.le_gt_cases lo hi) as [Hle|Hgt].
  2:{ rewrite for_range_empty by lia. repeat split. intros q.
      zcase; simpl; first [done|lia]. }
  apply (for_range_ind (fun j t => same_frame s t /\ used_pages t = used_pages s /\
    forall q, page_used t q = negb ((lo <=? q) && (q <? j)) && page_used s q)); [done| |].
  - repeat split. intros q. zcase; simpl; first [done|lia].
  - intros j t Hj (Hf & Hu & Hq). pose proof (sf_max _ _ Hf).
    split; [etrans; [done|apply bitmap_clear_frame]|]. split.
    + rewrite <- Hu. unfold bitmap_clear. by zif.
    + intros q. rewrite page_used_clear, Hq, andb_assoc by lia. f_equal.
      case_bool_decide; zcase; simpl; first [done|lia].
Qed.

Lemma free_region_spec t i s :
  let s' := free_region (entries t i) s in
  same_frame s s' /\ used_pages s' = used_pages s /\
  forall q, 0 <= q < max_page_num s ->
    page_used s' q = negb (entry_covers t q i) && page_used s q.
Proof.
  cbv zeta. unfold free_region, entry_covers.
  destruct (type (entries t i) =? MULTIBOOT_MEMORY_AVAILABLE); cbn [andb].
  2:{ repeat split. }
  set (e := u64 _ / PAGE_SIZE).
  set (e' := if max_page_num s <? e then max_page_num s else e).
  assert (He : e' <= max_page_num s) by (subst e'; zif; lia).
  destruct (clear_loop_spec (addr (entries t i) / PAGE_SIZE) e' s He) as (Hf & Hu & Hq).
  repeat split; [apply Hf..|done|]. intros q Hr. rewrite Hq. f_equal. f_equal. f_equal.
  subst e'. zif; zcase; first [done|lia].
Qed.

Lemma init_bitmap_used s p :
  0 <= p < MAX_BITMAP_SIZE * 8 ->
  page_used (with_bitmap (mfill (bitmap s) 0 MAX_BITMAP_SIZE 0xFF) s) p = true.
Proof.
  intros Hp. rewrite page_used_alt. cbn [bitmap with_bitmap max_page_num].
  pose proof (Z.div_mod p 8). pose proof (Z.mod_pos_bound p 8).
  rewrite mfill_in by lia. rewrite testbit_u8 by lia.
  change 0xFF with (Z.ones 8). rewrite Z.ones_spec_low by lia. apply orb_true_r.
Qed.

(** The state after both passes over the map, before the low reservation. *)
Definition init_mapped (t : multiboot_tag_mmap) (s : pmm_state) : pmm_state :=
  let s := with_bitmap (mfill (bitmap s) 0 MAX_BITMAP_SIZE 0xFF) s in
  let hi := highest_addr t in
  let hi := if MAX_MEMORY_SIZE <? hi then MAX_MEMORY_SIZE else hi in
  let s := Pmm (bitmap s) (u32 (hi / PAGE_SIZE)) (used_pages s) hi (hi / PAGE_SIZE)
               (pmm_fail_in s) in
  for_range 0 (mmap_entry_count t) (fun i s => free_region (entries t i) s) s.

Lemma highest_addr_range t : 0 <= highest_addr t.
Proof.
  unfold highest_addr. apply (for_range_inv (fun h => 0 <= h)); [done|].
  intros j h _ Hh. cbv zeta. repeat zif; first [apply u64_range|done].
Qed.

Lemma mmap_entry_count_nonneg t : 0 < entry_size t -> 0 <= mmap_entry_count t.
Proof.
  intros. unfold mmap_entry_count. pose proof (u32_range (size t - 16)).
  apply Z.div_pos; lia.
Qed.

Lemma init_mapped_spec t s :
  0 < entry_size t ->
  let s' := init_mapped t s in
  0 <= max_page_num s' <= MAX_BITMAP_SIZE * 8 /\ total_pages s' = max_page_num s' /\
  used_pages s' = used_pages s /\
  forall q, 0 <= q < max_page_num s' -> page_used s' q = negb (available t q).
Proof.
  intros Hes. cbv zeta. unfold init_mapped.
  set (hi := if MAX_MEMORY_SIZE <? highest_addr t then MAX_MEMORY_SIZE else highest_addr t).
  set (s0 := Pmm _ _ _ _ _ _).
  pose proof (highest_addr_range t). pose proof (mmap_entry_count_nonneg t Hes) as Hc.
  assert (Hhi : 0 <= hi / PAGE_SIZE <= 1048576).
  { split; [apply Z.div_pos; [subst hi; zif; unfold MAX_MEMORY_SIZE; lia|done]|].
    apply Z.div_le_upper_bound; [done|]. subst hi. unfold MAX_MEMORY_SIZE, PAGE_SIZE in *.
    zif; lia. }
  apply (for_range_ind (fun j u => 
    0 <= max_page_num u <= MAX_BITMAP_SIZE * 8 /\ total_pages u = max_page_num u /\
    used_pages u = used_pages s /\
    forall q, 0 <= q < max_page_num u -> page_used u q = negb (available_upto t q (Z.to_nat j))));
    [done| |].
  - cbn [max_page_num total_pages used_pages s0 with_bitmap]. split; [apply Hhi|].
    split; [apply u32_small; lia|]. split; [done|]. intros q Hq.
    change (MAX_BITMAP_SIZE * 8) with 1048576 in *.
    rewrite page_used_alt. subst s0. cbn [bitmap max_page_num with_bitmap].
    generalize (init_bitmap_used s q). rewrite page_used_alt.
    change (MAX_BITMAP_SIZE * 8) with 1048576. cbn [bitmap max_page_num with_bitmap].
    pose proof (Z.div_mod q 8). pose proof (Z.mod_pos_bound q 8).
    rewrite mfill_in, testbit_u8 by (change MAX_BITMAP_SIZE with 131072; lia).
    change 255 with (Z.ones 8). rewrite Z.ones_spec_low by lia. by rewrite !orb_true_r.
  - intros j u Hj (Hm & Ht & Hu & Hq). destruct (free_region_spec t j u) as (Hf & Hu' & Hq').
    rewrite (sf_max _ _ Hf), (sf_total _ _ Hf), Hu'. repeat split; try done; try lia.
    intros q Hr. rewrite Hq', Hq, available_upto_S, negb_orb by lia. apply andb_comm.
Qed.

(** The reservation loop used by pmm_init and pmm_reserve_region. *)
Lemma claim_loop_spec lo hi s :
  0 <= lo -> 
  let s' := for_range lo hi claim_if_free s in
  same_frame s s' /\
  (forall q, 0 <= q < max_page_num s ->
     page_used s' q = ((lo <=? q) && (q <? hi)) || page_used s q) /\
  balance s' = balance s /\
  (0 <= used_pages s < 2 ^ 32 -> 0 <= used_pages s' < 2 ^ 32).
Proof.
  intros Hlo. cbv zeta. destruct (Z.le_gt_cases lo hi) as [Hle|Hgt].
  2:{ rewrite for_range_empty by lia. repeat split; intros; try tauto.
      zcase; simpl; first [done|lia]. }
  apply (for_range_ind (fun j t => same_frame s t /\
    (forall q, 0 <= q < max_page_num s ->
       page_used t q = ((lo <=? q) && (q <? j)) || page_used s q) /\ balance t = balance s /\
    (0 <= used_pages s < 2 ^ 32 -> 0 <= used_pages t < 2 ^ 32))); [done| |].
  - repeat split; intros; try tauto. zcase; simpl; first [done|lia].
  - intros j t Hj (Hf & Hq & Hb & Hu). pose proof (sf_max _ _ Hf) as Hm.
    split; [etrans; [done|apply claim_if_free_frame]|]. split; [|split].
    + intros q Hr. unfold claim_if_free. fold (page_used t j).
      destruct (page_used t j) eqn:E.
      * rewrite Hq by lia. destruct (decide (q = j)) as [->|].
        { rewrite Hq in E by lia. rewrite E. destruct (lo <=? j), (j <? j + 1) eqn:?; try done; lia. }
        zcase; simpl; first [done|lia].
      * destruct (Z.lt_ge_cases j (max_page_num t)).
        2:{ rewrite page_used_high in E by lia. done. }
        rewrite page_used_claim, Hq, orb_assoc by lia. f_equal.
        case_bool_decide; zcase; simpl; first [done|lia].
    + rewrite balance_claim_if_free by lia. done.
    + intros H. unfold claim_if_free. zif; [by apply Hu|]. rewrite claim_used. apply u32_range.
Qed.

Lemma pmm_init_unfold t s :
  pmm_init (Some t) s =
  for_range 0 (RESERVED_LOW_MEMORY / PAGE_SIZE) claim_if_free (init_mapped t s).
Proof. done. Qed.

(** Pmm_init builds a well-formed allocator whose free pages are exactly the
    pages at or above 4 MiB that an available region of the memory map covers. *)
Theorem pmm_init_free_set t s :
  0 < entry_size t -> 0 <= used_pages s < 2 ^ 32 ->
  let s' := pmm_init (Some t) s in
  pmm_wf s' /\
  forall p, p ∈ free_pages s' <-> 1024 <= p < max_page_num s' /\ available t p = true.
Proof.
  intros Hes Hu. cbv zeta. rewrite pmm_init_unfold.
  destruct (init_mapped_spec t s Hes) as (Hm & Ht & Hu' & Hq).
  destruct (claim_loop_spec 0 (RESERVED_LOW_MEMORY / PAGE_SIZE) (init_mapped t s))
    as (Hf & Hq' & _ & Hr); [lia|].
  split.
  - split; rewrite ?(sf_max _ _ Hf), ?(sf_total _ _ Hf); [done..|]. apply Hr. by rewrite Hu'.
  - intros p. rewrite elem_of_free_pages, (sf_max _ _ Hf).
    change (RESERVED_LOW_MEMORY / PAGE_SIZE) with 1024 in *.
    destruct (decide (0 <= p < max_page_num (init_mapped t s))) as [Hp|Hp]; [|intuition lia].
    rewrite Hq', Hq by done. destruct (available t p); zcase; simpl; intuition (congruence || lia).
Qed.

(** A map with 8 MiB available from 0, a hole of 1 MiB, then 2 MiB available. *)
Definition demo_tag : multiboot_tag_mmap :=
  MmapTag 88 24 (fun i => if i =? 0 then MmapEntry 0 0x800000 1
                          else if i =? 1 then MmapEntry 0x800000 0x100000 2
                          else MmapEntry 0x900000 0x200000 1).
Definition blank : pmm_state := Pmm (fun _ => 0) 0 0 0 0 (-1).

Lemma pmm_init_free_set_witness :
  let s' := pmm_init (Some demo_tag) blank in
  pmm_wf s' /\
  forall p, p ∈ free_pages s' <-> 1024 <= p < max_page_num s' /\ available demo_tag p = true.
Proof. apply (pmm_init_free_set demo_tag blank); cbn; lia. Defined.

(** ** Statistics *)

(** Pages below [max_page_num] that no available region covers. *)
Definition hole_pages (t : multiboot_tag_mmap) (s : pmm_state) : Z :=
  count_range (Z.to_nat (max_page_num s)) 0 (fun p => negb (available t p)).

Definition clear_bits (s : pmm_state) : Z := max_page_num s - set_bits s.

Lemma free_memory_balance s :
  pmm_wf s -> balance s = set_bits s - used_pages s ->
  pmm_get_free_memory s = (clear_bits s + balance s) * PAGE_SIZE.
Proof.
  intros [Hm Ht Hu] Hb. unfold pmm_get_free_memory, clear_bits. rewrite Hb, Ht.
  pose proof (count_range_bounds (Z.to_nat (max_page_num s)) 0 (page_used s)) as Hc.
  fold (set_bits s) in Hc. change (MAX_BITMAP_SIZE * 8) with 1048576 in Hm.
  assert (0 <= balance s) by apply u32_range. unfold PAGE_SIZE.
  rewrite (u32_small (_ - _)), u64_small by lia. lia.
Qed.

Lemma u32_exact x h : x mod 2 ^ 32 = h -> 0 <= h -> h - 2 ^ 32 < x < 2 ^ 32 -> h = x.
Proof.
  intros Hm Hh Hx. pose proof (Z.div_mod x (2 ^ 32)). pose proof (Z.mod_pos_bound x (2 ^ 32)). lia.
Qed.

Lemma set_bits_bounds s : 0 <= set_bits s <= Z.max 0 (max_page_num s).
Proof. unfold set_bits. pose proof (count_range_bounds (Z.to_nat (max_page_num s)) 0 (page_used s)). lia. Qed.

(** The reported free memory after claiming pages of a state [u] that had no
    page counted as used. *)
Lemma free_memory_after_claims u s' :
  pmm_wf s' -> max_page_num s' = max_page_num u -> used_pages u = 0 ->
  balance s' = balance u -> set_bits u <= set_bits s' ->
  pmm_get_free_memory s' = (clear_bits s' + set_bits u) * PAGE_SIZE.
Proof.
  intros Hwf Hm Hu Hb Hle. pose proof (wf_max _ Hwf) as Hmax. pose proof (wf_used _ Hwf).
  change (MAX_BITMAP_SIZE * 8) with 1048576 in Hmax.
  pose proof (set_bits_bounds u). pose proof (set_bits_bounds s').
  assert (Hbu : balance u = set_bits u).
  { unfold balance. rewrite Hu, Z.sub_0_r. apply u32_small. lia. }
  rewrite <- Hbu, <- Hb. apply free_memory_balance; [done|].
  rewrite Hb, Hbu. apply u32_exact; [|lia..]. by rewrite <- Hbu, <- Hb.
Qed.

(** Right after pmm_init, pmm_get_free_memory reports the free pages plus
    every page of the holes of the memory map below max_page_num: used_pages
    only counts the pages the low reservation claimed, so pages that were never
    available are reported as free memory. *)
Theorem pmm_free_memory_counts_holes t s :
  0 < entry_size t -> used_pages s = 0 ->
  let s' := pmm_init (Some t) s in
  pmm_get_free_memory s' = (clear_bits s' + hole_pages t s') * PAGE_SIZE.
Proof.
  intros Hes Hu. cbv zeta. rewrite pmm_init_unfold.
  destruct (init_mapped_spec t s Hes) as (Hm & Ht & Hu' & Hq).
  destruct (claim_loop_spec 0 (RESERVED_LOW_MEMORY / PAGE_SIZE) (init_mapped t s))
    as (Hf & Hq' & Hb & Hr); [lia|].
  rewrite Hu', Hu in Hr. pose proof (sf_max _ _ Hf) as Hfm. pose proof (sf_total _ _ Hf) as Hft.
  rewrite (free_memory_after_claims (init_mapped t s)).
  - f_equal. f_equal. unfold set_bits, hole_pages. rewrite Hfm. apply count_range_ext.
    intros i Hi. apply Hq. lia.
  - split; rewrite ?Hfm, ?Hft; [done..|]. apply Hr. lia.
  - done.
  - by rewrite Hu'.
  - done.
  - unfold set_bits. rewrite Hfm. apply count_range_mono.
    intros i Hi Hi'. rewrite Hq', Hi' by lia. apply orb_true_r.
Qed.

Lemma pmm_free_memory_counts_holes_witness :
  let s' := pmm_init (Some demo_tag) blank in
  pmm_get_free_memory s' = (clear_bits s' + hole_pages demo_tag s') * PAGE_SIZE.
Proof. apply (pmm_free_memory_counts_holes demo_tag blank); cbn; lia. Defined.

(** ** Reservation *)

Lemma reserve_pages a n s t :
  pmm_wf t -> max_page_num t = max_page_num s ->
  0 <= a -> 0 < n -> a + n + PAGE_SIZE - 1 < 2 ^ 64 ->
  pmm_wf (pmm_reserve_region a n t) /\ max_page_num (pmm_reserve_region a n t) = max_page_num s /\
  forall p, p ∈ free_pages (pmm_reserve_region a n t) <->
    p ∈ free_pages t /\ ~ (a / PAGE_SIZE <= p <= (a + n - 1) / PAGE_SIZE).
Proof.
  intros Hwf Hmt Ha Hn Hov. unfold PAGE_SIZE in Hov.
  split; [by apply keeps_reserve|]. unfold pmm_reserve_region.
  destruct (Z.eqb_spec n 0); [lia|].
  rewrite u64_small by (unfold PAGE_SIZE; lia).
  set (fin := if max_page_num t <? _ then _ else _).
  destruct (claim_loop_spec (a / PAGE_SIZE) fin t) as (Hf & Hq & _);
    [apply Z.div_pos; [lia|done]|].
  rewrite (sf_max _ _ Hf). split; [done|]. intros p.
  rewrite !elem_of_free_pages, (sf_max _ _ Hf).
  destruct (decide (0 <= p < max_page_num t)) as [Hp|Hp]; [|tauto].
  rewrite Hq, orb_false_iff, andb_false_iff by done.
  assert (Hfin : (p <? fin) = false <-> ~ p <= (a + n - 1) / PAGE_SIZE).
  { subst fin. replace (a + n + PAGE_SIZE - 1) with (a + n - 1 + 1 * PAGE_SIZE) by lia.
    rewrite Z.div_add by done. zif; lia. }
  rewrite Hfin, Z.leb_gt.
  destruct (decide (page_used t p = false)); intuition lia.
Qed.

Lemma range_pages a n p :
  0 < n ->
  ~ (a / PAGE_SIZE <= p <= (a + n - 1) / PAGE_SIZE) <->
  forall x, a <= x < a + n -> x / PAGE_SIZE <> p.
Proof.
  intros Hn. split.
  - intros H x Hx <-. apply H. split; apply Z.div_le_mono; unfold PAGE_SIZE; lia.
  - intros H [H1 H2]. pose proof (Z.div_mod a PAGE_SIZE). pose proof (Z.mod_pos_bound a PAGE_SIZE).
    pose proof (Z.div_mod (a + n - 1) PAGE_SIZE). pose proof (Z.mod_pos_bound (a + n - 1) PAGE_SIZE).
    unfold PAGE_SIZE in *.
    apply (H (Z.max a (p * 4096))); [lia|].
    destruct (Z.max_spec a (p * 4096)) as [[? ->]|[? ->]]; [apply Z.div_mul; lia|].
    symmetry. apply (Z.div_unique_pos _ _ _ (a - p * 4096)); lia.
Qed.

(** Pmm_reserve_region removes from the free set every page that a byte of
    the range lies in, rounding outward, and no other page; reserving twice is
    the same as reserving once. *)
Theorem pmm_reserve_region_spec a n s :
  pmm_wf s -> 0 <= a -> 0 < n -> a + n + PAGE_SIZE - 1 < 2 ^ 64 ->
  let s' := pmm_reserve_region a n s in
  pmm_wf s' /\
  (forall p, p ∈ free_pages s' <->
     p ∈ free_pages s /\ forall x, a <= x < a + n -> x / PAGE_SIZE <> p) /\
  free_pages (pmm_reserve_region a n s') = free_pages s'.
Proof.
  intros Hwf Ha Hn Hov. cbv zeta.
  assert (Hspec : forall t, pmm_wf t -> max_page_num t = max_page_num s ->
    pmm_wf (pmm_reserve_region a n t) /\ max_page_num (pmm_reserve_region a n t) = max_page_num s /\
    forall p, p ∈ free_pages (pmm_reserve_region a n t) <->
      p ∈ free_pages t /\ ~ (a / PAGE_SIZE <= p <= (a + n - 1) / PAGE_SIZE)).
  { intros t Ht Hmt. apply reserve_pages; done || lia. }
  destruct (Hspec s Hwf eq_refl) as (Hw & Hm & Hq).
  destruct (Hspec _ Hw Hm) as (_ & _ & Hq').
  split; [done|]. split.
  - intros p. rewrite Hq. by rewrite range_pages by lia.
  - apply set_eq. intros p. rewrite Hq', Hq. tauto.
Qed.

Lemma pmm_reserve_region_spec_witness :
  let s' := pmm_reserve_region 0x5FFF 2 demo in
  pmm_wf s' /\
  (forall p, p ∈ free_pages s' <->
     p ∈ free_pages demo /\ forall x, 0x5FFF <= x < 0x5FFF + 2 -> x / PAGE_SIZE <> p) /\
  free_pages (pmm_reserve_region 0x5FFF 2 s') = free_pages s'.
Proof.
  apply (pmm_reserve_region_spec 0x5FFF 2 demo); [apply demo_wf|unfold PAGE_SIZE; lia..].
Defined.

(** ** Decimal printing *)

(** Reading a decimal numeral back. *)
Definition parse_decimal (l : list Z) : Z := foldl (fun v c => v * 10 + (c - 48)) 0 l.

Lemma parse_snoc l c : parse_decimal (l ++ [c]) = parse_decimal l * 10 + (c - 48).
Proof. unfold parse_decimal. by rewrite foldl_app. Qed.

Lemma digits_loop_parse fuel v :
  0 <= v < 10 ^ Z.of_nat fuel ->
  parse_decimal (rev (digits_loop fuel v)) = v /\
  Forall (fun c => 48 <= c <= 57) (digits_loop fuel v).
Proof.
  revert v. induction fuel as [|fuel IH]; intros v Hv.
  - change (10 ^ Z.of_nat 0) with 1 in Hv. split; [cbn; lia|constructor].
  - cbn [digits_loop]. rewrite Nat2Z.inj_succ, Z.pow_succ_r in Hv by lia.
    destruct (Z.ltb_spec 0 v); [|split; [cbn; lia|constructor]].
    destruct (IH (v / 10)) as [H1 H2].
    { split; [apply Z.div_pos; lia|]. apply Z.div_lt_upper_bound; lia. }
    pose proof (Z.mod_pos_bound v 10). pose proof (Z.div_mod v 10).
    cbn [rev]. rewrite parse_snoc, H1. split; [lia|]. constructor; [lia|done].
Qed.

Lemma digits_loop_length fuel v : (length (digits_loop fuel v) <= fuel)%nat.
Proof.
  revert v. induction fuel as [|fuel IH]; intros v; cbn [digits_loop]; [done|].
  destruct (0 <? v); cbn [length]; [specialize (IH (v / 10))|]; lia.
Qed.

(** Uint64_to_string prints every 64-bit value as a decimal numeral that
    reads back to the value, in at most 20 characters, so that the digits and
    the terminating NUL fit the 24-byte temporary and the callers' 32-byte
    buffers. *)
Theorem uint64_to_string_roundtrip v :
  0 <= v < 2 ^ 64 ->
  parse_decimal (uint64_to_string v) = v /\
  Forall (fun c => 48 <= c <= 57) (uint64_to_string v) /\
  1 <= Z.of_nat (length (uint64_to_string v)) <= 20.
Proof.
  intros Hv. unfold uint64_to_string. destruct (Z.eqb_spec v 0) as [->|Hne].
  { split; [done|]. split; [repeat constructor; lia|cbn; lia]. }
  destruct (digits_loop_parse 20 v) as [H1 H2]; [lia|].
  split; [done|]. split; [by apply Forall_rev|]. rewrite length_rev.
  pose proof (digits_loop_length 20 v). split; [|lia].
  cbn [digits_loop]. destruct (Z.ltb_spec 0 v); [|lia]. simpl. lia.
Qed.

Lemma uint64_to_string_roundtrip_witness :
  uint64_to_string 18446744073709551615
    = [49; 56; 52; 52; 54; 55; 52; 52; 48; 55; 51; 55; 48; 57; 53; 53; 49; 54; 49; 53] /\
  parse_decimal (uint64_to_string 18446744073709551615) = 18446744073709551615 /\
  Forall (fun c => 48 <= c <= 57) (uint64_to_string 18446744073709551615) /\
  1 <= Z.of_nat (length (uint64_to_string 18446744073709551615)) <= 20.
Proof.
  split; [vm_compute; reflexivity|].
  apply (uint64_to_string_roundtrip 18446744073709551615). lia.
Defined.
