(* ===== verification/KString.v ===== *)
(** The freestanding C string library, [kernel/lib/string.c], over the byte
    memory. A loop that the length argument bounds is structural in it; a loop
    that runs to a terminator takes fuel and is [None] when the fuel runs out,
    so that "it returns" is part of each theorem. Pointers are addresses, NULL
    is 0. *)

From stdpp Require Import base numbers list.
From Stdlib Require Import ZArith Lia.
From S2P Require Import Prelude.

(** The character at [a]. *)
Definition byte (m : mem) (a : Z) : Z := u8 (m a).

(** * Memory functions *)

Fixpoint memset (m : mem) (p c : Z) (n : nat) : mem :=
  match n with
  | O => m
  | S n => memset (mset m p c) (p + 1) c n
  end.

Fixpoint memcpy (m : mem) (d s : Z) (n : nat) : mem :=
  match n with
  | O => m
  | S n => memcpy (mset m d (byte m s)) (d + 1) (s + 1) n
  end.

(** The descending loop of memmove: [*--d = *--s]. *)
Fixpoint memcpy_down (m : mem) (d s : Z) (n : nat) : mem :=
  match n with
  | O => m
  | S n => memcpy_down (mset m (d - 1) (byte m (s - 1))) (d - 1) (s - 1) n
  end.

Definition memmove (m : mem) (dest src : Z) (n : nat) : mem :=
  if dest <? src then memcpy m dest src n
  else memcpy_down m (dest + Z.of_nat n) (src + Z.of_nat n) n.

Fixpoint memcmp (m : mem) (p1 p2 : Z) (n : nat) : Z :=
  match n with
  | O => 0
  | S n => if byte m p1 =? byte m p2 then memcmp m (p1 + 1) (p2 + 1) n
           else byte m p1 - byte m p2
  end.

(** * String functions *)

Fixpoint strlen_loop (fuel : nat) (m : mem) (s len : Z) : option Z :=
  match fuel with
  | O => None
  | S fuel => if byte m s =? 0 then Some len else strlen_loop fuel m (s + 1) (u64 (len + 1))
  end.

Definition strlen (fuel : nat) (m : mem) (s : Z) : option Z := strlen_loop fuel m s 0.

(** Copy up to and including the NUL. *)
Fixpoint strcpy (fuel : nat) (m : mem) (d src : Z) : option mem :=
  match fuel with
  | O => None
  | S fuel =>
      let c := byte m src in
      let m := mset m d c in
      if c =? 0 then Some m else strcpy fuel m (d + 1) (src + 1)
  end.

(** [while (n && ( *d++ = *src++ )) n--;] returns the memory, [d] and [n]: the
    iteration that copies the NUL leaves [n] as it was. *)
Fixpoint strncpy_copy (m : mem) (d src : Z) (n : nat) : mem * Z * nat :=
  match n with
  | O => (m, d, O)
  | S k =>
      let c := byte m src in
      let m := mset m d c in
      if c =? 0 then (m, d + 1, S k) else strncpy_copy m (d + 1) (src + 1) k
  end.

(** The copy loop, then [while (n--) *d++ = 0]. *)
Definition strncpy (m : mem) (dest src : Z) (n : nat) : mem :=
  let '(m, d, n) := strncpy_copy m dest src n in memset m d 0 n.

(** [while ( *d ) d++;] *)
Fixpoint str_end (fuel : nat) (m : mem) (d : Z) : option Z :=
  match fuel with
  | O => None
  | S fuel => if byte m d =? 0 then Some d else str_end fuel m (d + 1)
  end.

Definition strcat (fuel : nat) (m : mem) (dest src : Z) : option mem :=
  d ← str_end fuel m dest; strcpy fuel m d src.

(** [while (n-- && ( *d++ = *src++ ));] *)
Fixpoint strncat_copy (m : mem) (d src : Z) (n : nat) : mem * Z :=
  match n with
  | O => (m, d)
  | S n =>
      let c := byte m src in
      let m := mset m d c in
      if c =? 0 then (m, d + 1) else strncat_copy m (d + 1) (src + 1) n
  end.

Definition strncat (fuel : nat) (m : mem) (dest src : Z) (n : nat) : option mem :=
  d ← str_end fuel m dest;
  let '(m, d) := strncat_copy m d src n in Some (mset m d 0).

Fixpoint strcmp (fuel : nat) (m : mem) (s1 s2 : Z) : option Z :=
  match fuel with
  | O => None
  | S fuel =>
      if negb (byte m s1 =? 0) && (byte m s1 =? byte m s2)
      then strcmp fuel m (s1 + 1) (s2 + 1)
      else Some (byte m s1 - byte m s2)
  end.

Fixpoint strncmp (m : mem) (s1 s2 : Z) (n : nat) : Z :=
  match n with
  | O => 0
  | S n =>
      if negb (byte m s1 =? 0) && (byte m s1 =? byte m s2)
      then strncmp m (s1 + 1) (s2 + 1) n
      else byte m s1 - byte m s2
  end.

Fixpoint strchr (fuel : nat) (m : mem) (s c : Z) : option Z :=
  match fuel with
  | O => None
  | S fuel =>
      if byte m s =? u8 c then Some s
      else if byte m s =? 0 then Some 0
      else strchr fuel m (s + 1) c
  end.

Fixpoint strrchr_loop (fuel : nat) (m : mem) (s c last : Z) : option Z :=
  match fuel with
  | O => None
  | S fuel =>
      if byte m s =? 0 then Some last
      else strrchr_loop fuel m (s + 1) c (if byte m s =? u8 c then s else last)
  end.

Definition strrchr (fuel : nat) (m : mem) (s c : Z) : option Z := strrchr_loop fuel m s c 0.

(** [while ( *h && *n && *h == *n ) { h++; n++; }] then [!*n]: does the needle
    match at [h]? *)
Fixpoint match_at (fuel : nat) (m : mem) (h n : Z) : option bool :=
  match fuel with
  | O => None
  | S fuel =>
      if negb (byte m h =? 0) && negb (byte m n =? 0) && (byte m h =? byte m n)
      then match_at fuel m (h + 1) (n + 1)
      else Some (byte m n =? 0)
  end.

Fixpoint strstr_loop (fuel : nat) (m : mem) (haystack needle : Z) : option Z :=
  match fuel with
  | O => None
  | S fuel' =>
      if byte m haystack =? 0 then Some 0 else
      b ← match_at fuel m haystack needle;
      if (b : bool) then Some haystack else strstr_loop fuel' m (haystack + 1) needle
  end.

Definition strstr (fuel : nat) (m : mem) (haystack needle : Z) : option Z :=
  if byte m needle =? 0 then Some haystack else strstr_loop fuel m haystack needle.

(** * C strings in memory *)

(** The NUL-terminated string [l] starts at [s]. *)
Fixpoint cstr (m : mem) (s : Z) (l : list Z) : Prop :=
  match l with
  | [] => byte m s = 0
  | c :: l => byte m s = c /\ c <> 0 /\ cstr m (s + 1) l
  end.

(** Two memories agree on [n] bytes from [a]. *)
Definition agree (m m' : mem) (a n : Z) : Prop :=
  forall x, a <= x < a + n -> byte m' x = byte m x.

Lemma byte_range m a : 0 <= byte m a < 256.
Proof. apply u8_range. Qed.

Lemma byte_mset m a v x : byte (mset m a v) x = if x =? a then u8 v else byte m x.
Proof.
  unfold byte. destruct (Z.eqb_spec x a) as [->|].
  - rewrite mset_eq. apply u8_small, u8_range.
  - by rewrite mset_ne.
Qed.

Lemma byte_mset_eq m a v : byte (mset m a v) a = u8 v.
Proof. by rewrite byte_mset, Z.eqb_refl. Qed.

Lemma byte_mset_ne m a v x : x <> a -> byte (mset m a v) x = byte m x.
Proof. intros. rewrite byte_mset. zcase; [done|]. done. Qed.

Lemma u8_byte m a : u8 (byte m a) = byte m a.
Proof. apply u8_small, byte_range. Qed.

#[export] Hint Rewrite byte_mset_eq u8_byte : makh.
#[export] Hint Rewrite byte_mset_ne using lia : makh.

Lemma cstr_agree m m' s l :
  agree m m' s (Z.of_nat (length l) + 1) -> cstr m s l -> cstr m' s l.
Proof.
  revert s. induction l as [|c l IH]; intros s Ha; cbn [cstr length] in *.
  - intros. by rewrite (Ha s) by lia.
  - intros (H1 & H2 & H3). rewrite (Ha s) by lia. repeat split; try done.
    apply IH; [|done]. intros x Hx. apply Ha. lia.
Qed.

Lemma cstr_nul m s l : cstr m s l -> byte m (s + Z.of_nat (length l)) = 0.
Proof.
  revert s. induction l as [|c l IH]; intros s H; cbn [cstr length] in *.
  - by rewrite Z.add_0_r.
  - rewrite <- (IH (s + 1)) by apply H. f_equal. lia.
Qed.

Lemma cstr_lookup m s l i c :
  cstr m s l -> l !! i = Some c -> byte m (s + Z.of_nat i) = c /\ c <> 0.
Proof.
  revert s i. induction l as [|c' l IH]; intros s i H Hi; [done|].
  destruct H as (H1 & H2 & H3). destruct i as [|i]; simpl in Hi.
  - simplify_eq. by rewrite Z.add_0_r.
  - replace (s + Z.of_nat (S i)) with (s + 1 + Z.of_nat i) by lia. by apply IH.
Qed.

Lemma cstr_nonzero m s l x :
  cstr m s l -> s <= x < s + Z.of_nat (length l) -> byte m x <> 0.
Proof.
  intros H Hx. destruct (lookup_lt_is_Some_2 l (Z.to_nat (x - s))) as [c Hc]; [lia|].
  destruct (cstr_lookup _ _ _ _ _ H Hc) as [E ?].
  replace (s + Z.of_nat (Z.to_nat (x - s))) with x in E by lia. congruence.
Qed.

(** * Block operations *)

Lemma memset_spec m p c n x :
  byte (memset m p c n) x = if (p <=? x) && (x <? p + Z.of_nat n) then u8 c else byte m x.
Proof.
  revert m p. induction n as [|n IH]; intros m p; cbn [memset].
  - zcase; simpl; first [done|lia].
  - rewrite IH, byte_mset. zcase; simpl; first [done|lia].
Qed.

Lemma memcpy_spec m d s n x :
  d <= s \/ s + Z.of_nat n <= d ->
  byte (memcpy m d s n) x =
    if (d <=? x) && (x <? d + Z.of_nat n) then byte m (s + (x - d)) else byte m x.
Proof.
  revert m d s. induction n as [|n IH]; intros m d s H; cbn [memcpy].
  - zcase; simpl; first [done|lia].
  - rewrite IH by lia.
    destruct (decide (x = d)) as [->|Hne].
    + zcase; simpl; try lia. rewrite byte_mset_eq, u8_byte. f_equal. lia.
    + rewrite (byte_mset_ne m d _ x) by done.
      replace (s + 1 + (x - (d + 1))) with (s + (x - d)) by lia.
      zcase; simpl; try lia; try done. rewrite byte_mset_ne by lia. done.
Qed.

Lemma memcpy_down_spec m d s n x :
  s <= d ->
  byte (memcpy_down m d s n) x =
    if (d - Z.of_nat n <=? x) && (x <? d) then byte m (s + (x - d)) else byte m x.
Proof.
  revert m d s. induction n as [|n IH]; intros m d s H; cbn [memcpy_down].
  - zcase; simpl; first [done|lia].
  - rewrite IH by lia.
    destruct (decide (x = d - 1)) as [->|Hne].
    + zcase; simpl; try lia. rewrite byte_mset_eq, u8_byte. f_equal. lia.
    + rewrite (byte_mset_ne m (d - 1) _ x) by done.
      replace (s - 1 + (x - (d - 1))) with (s + (x - d)) by lia.
      zcase; simpl; try lia; try done. rewrite byte_mset_ne by lia. done.
Qed.

(** Memmove copies the bytes the source held before the call, whatever the
    overlap of the two regions, and changes nothing outside the destination. *)
Theorem memmove_correct m dest src n x :
  byte (memmove m dest src n) x =
    if (dest <=? x) && (x <? dest + Z.of_nat n) then byte m (src + (x - dest)) else byte m x.
Proof.
  unfold memmove. destruct (Z.ltb_spec dest src).
  - apply memcpy_spec. lia.
  - rewrite memcpy_down_spec by lia.
    replace (dest + Z.of_nat n - Z.of_nat n) with dest by lia.
    by replace (src + Z.of_nat n + (x - (dest + Z.of_nat n))) with (src + (x - dest)) by lia.
Qed.

(** * Bounded copies *)

Lemma strncpy_copy_spec m d src n l :
  cstr m src l -> src + Z.of_nat (length l) + 1 <= d \/ d + Z.of_nat n + 1 <= src ->
  exists m',
    strncpy_copy m d src n =
      (if (length l <? n)%nat then (m', d + Z.of_nat (length l) + 1, (n - length l)%nat)
       else (m', d + Z.of_nat n, O)) /\
    forall x, byte m' x =
      if (d <=? x) && (x <? d + Z.of_nat (min n (length l))) then byte m (src + (x - d))
      else if (length l <? n)%nat && (x =? d + Z.of_nat (length l)) then 0 else byte m x.
Proof.
  revert m d src l. induction n as [|n IH]; intros m d src l Hs Hd; cbn [strncpy_copy].
  - exists m. split.
    + destruct (Nat.ltb_spec (length l) 0); [lia|]. f_equal. f_equal. lia.
    + intros x. cbn. zcase; simpl; first [done|lia].
  - destruct l as [|c l]; cbn [cstr length] in Hs, Hd |- *.
    + rewrite Hs. change (0 =? 0) with true. cbn [length]. exists (mset m d 0). split.
      * cbn. f_equal. f_equal. lia.
      * intros x. cbn. rewrite byte_mset. zcase; simpl; first [done|lia].
    + destruct Hs as (Hc & Hnz & Hs). rewrite Hc. destruct (Z.eqb_spec c 0); [done|].
      destruct (IH (mset m d c) (d + 1) (src + 1) l) as (m' & Hr & Hm); [|lia|].
      { apply (cstr_agree m); [|done]. intros x Hx. rewrite byte_mset_ne by lia. done. }
      exists m'. rewrite Hr. split.
      * change (S (length l) <? S n)%nat with (length l <? n)%nat.
        destruct (_ <? _)%nat; f_equal; f_equal; lia.
      * intros x. rewrite Hm. change (S (length l) <? S n)%nat with (length l <? n)%nat.
        assert (Hu : u8 c = c) by (rewrite <- Hc; apply u8_byte).
        destruct (decide (x = d)) as [->|Hne].
        { rewrite byte_mset_eq, Hu, Z.sub_diag, Z.add_0_r, Hc.
          destruct (_ <? _)%nat; zcase; simpl; first [done|lia]. }
        rewrite (byte_mset_ne m d c x) by done. cbn [Nat.min].
        replace (src + 1 + (x - (d + 1))) with (src + (x - d)) by lia.
        destruct (_ <? _)%nat; zcase; simpl; try lia; try done;
          rewrite byte_mset_ne by lia; done.
Qed.

(** What strncpy writes, byte by byte: the characters of the source up to
    the limit [n], and, when the source is shorter than [n], zeros up to and
    including the byte at [dest + n]. The iteration that copies the NUL does
    not decrement [n], so the padding runs one byte past the [n]-byte
    destination. *)
Theorem strncpy_writes m dest src n l x :
  cstr m src l ->
  src + Z.of_nat (length l) + 1 <= dest \/ dest + Z.of_nat n + 1 <= src ->
  byte (strncpy m dest src n) x =
    if (dest <=? x) && (x <? dest + Z.of_nat (min n (length l))) then byte m (src + (x - dest))
    else if (length l <? n)%nat && (dest + Z.of_nat (length l) <=? x) && (x <=? dest + Z.of_nat n)
    then 0 else byte m x.
Proof.
  intros Hs Hd. unfold strncpy.
  destruct (strncpy_copy_spec m dest src n l Hs Hd) as (m' & -> & Hm).
  destruct (Nat.ltb_spec (length l) n); rewrite memset_spec, Hm.
  - zcase; simpl; first [done|lia].
  - zcase; simpl; first [done|lia].
Qed.

(** A memory holding the string "ab" at 100 and ones everywhere else. *)
Definition demo_mem : mem :=
  fun a => if a =? 100 then 97 else if a =? 101 then 98 else if a =? 102 then 0 else 1.

Lemma demo_cstr : cstr demo_mem 100 [97; 98].
Proof. repeat split; done. Qed.

(** A five-byte buffer at 200: the byte at 205, which does not belong to it, is
    cleared. *)
Lemma strncpy_writes_witness :
  byte demo_mem 205 = 1 /\ byte (strncpy demo_mem 200 100 5) 205 = 0 /\
  byte (strncpy demo_mem 200 100 5) 205 =
    if (200 <=? 205) && (205 <? 200 + Z.of_nat (min 5 2)) then byte demo_mem (100 + (205 - 200))
    else if (2 <? 5)%nat && (200 + Z.of_nat 2 <=? 205) && (205 <=? 200 + Z.of_nat 5)
    then 0 else byte demo_mem 205.
Proof.
  split; [reflexivity|]. split; [reflexivity|].
  apply (strncpy_writes demo_mem 200 100 5 [97; 98] 205); [apply demo_cstr|simpl; lia].
Defined.

(** * Terminator loops: they return, and with the expected value *)

Lemma str_end_spec fuel m d l :
  cstr m d l -> (length l < fuel)%nat -> str_end fuel m d = Some (d + Z.of_nat (length l)).
Proof.
  revert d l. induction fuel as [|fuel IH]; intros d l Hs Hf; [lia|]. cbn [str_end].
  destruct l as [|c l]; cbn [cstr length] in *.
  - rewrite Hs. cbn. f_equal. lia.
  - destruct Hs as (-> & Hc & Hs). destruct (Z.eqb_spec c 0); [done|].
    rewrite (IH _ l) by (done || lia). f_equal. lia.
Qed.

Lemma strlen_loop_spec fuel m s l len :
  cstr m s l -> (length l < fuel)%nat -> 0 <= len ->
  len + Z.of_nat (length l) < 2 ^ 64 ->
  strlen_loop fuel m s len = Some (len + Z.of_nat (length l)).
Proof.
  revert s l len. induction fuel as [|fuel IH]; intros s l len Hs Hf H0 H; [lia|].
  cbn [strlen_loop]. destruct l as [|c l]; cbn [cstr length] in *.
  - rewrite Hs. cbn. f_equal. lia.
  - destruct Hs as (-> & Hc & Hs). destruct (Z.eqb_spec c 0); [done|].
    rewrite u64_small by lia. rewrite (IH _ l) by (done || lia). f_equal. lia.
Qed.

Lemma strcpy_spec fuel m d src l :
  cstr m src l -> (length l < fuel)%nat ->
  src + Z.of_nat (length l) + 1 <= d \/ d + Z.of_nat (length l) + 1 <= src ->
  exists m', strcpy fuel m d src = Some m' /\ cstr m' d l /\
    forall x, x < d \/ d + Z.of_nat (length l) + 1 <= x -> byte m' x = byte m x.
Proof.
  revert m d src l. induction fuel as [|fuel IH]; intros m d src l Hs Hf Hd; [lia|].
  cbn [strcpy]. destruct l as [|c l]; cbn [cstr length] in *.
  - rewrite Hs. exists (mset m d 0). cbn. split; [done|]. split; [apply byte_mset_eq|].
    intros x Hx. apply byte_mset_ne. lia.
  - destruct Hs as (Hb & Hc & Hs). rewrite Hb. destruct (Z.eqb_spec c 0); [done|].
    destruct (IH (mset m d c) (d + 1) (src + 1) l) as (m' & Hr & Hcs & Hfr); [|lia..|].
    { apply (cstr_agree m); [|done]. intros x Hx. rewrite byte_mset_ne by lia. done. }
    exists m'. split; [done|]. split.
    + rewrite Hfr, byte_mset_eq by lia. rewrite <- Hb, u8_byte. split; [done|].
      split; [congruence|done].
    + intros x Hx. rewrite Hfr, byte_mset_ne by lia. done.
Qed.

Lemma strncat_copy_spec m d src n l :
  cstr m src l -> src + Z.of_nat (length l) + 1 <= d \/ d + Z.of_nat n + 1 <= src ->
  exists m',
    strncat_copy m d src n =
      (m', d + Z.of_nat (min n (length l)) + b2z (length l <? n)%nat) /\
    forall x, byte m' x =
      if (d <=? x) && (x <? d + Z.of_nat (min n (length l))) then byte m (src + (x - d))
      else if (length l <? n)%nat && (x =? d + Z.of_nat (length l)) then 0 else byte m x.
Proof.
  intros Hs Hd. destruct (strncpy_copy_spec m d src n l Hs Hd) as (m' & Hr & Hm).
  exists m'. split; [|done].
  assert (Heq : forall n m d src, strncat_copy m d src n = fst (strncpy_copy m d src n)).
  { clear. induction n as [|n IH]; intros m d src; [done|].
    cbn [strncat_copy strncpy_copy]. destruct (_ =? 0); [done|apply IH]. }
  rewrite Heq, Hr. destruct (Nat.ltb_spec (length l) n); cbn; f_equal; lia.
Qed.

(** What strncat writes after the end of the destination string: at most
    [n] characters of the source and a NUL; when the source is shorter than
    [n] the copy loop has already stored the NUL and advanced, so the final
    store clears one byte beyond the resulting string. *)
Theorem strncat_writes fuel m dest src n ld l :
  cstr m dest ld -> (length ld < fuel)%nat -> cstr m src l ->
  src + Z.of_nat (length l) + 1 <= dest \/
    dest + Z.of_nat (length ld) + Z.of_nat n + 1 <= src ->
  exists m', strncat fuel m dest src n = Some m' /\
  let e := dest + Z.of_nat (length ld) in
  forall x, byte m' x =
    if (e <=? x) && (x <? e + Z.of_nat (min n (length l))) then byte m (src + (x - e))
    else if (e + Z.of_nat (min n (length l)) <=? x)
            && (x <=? e + Z.of_nat (min n (length l)) + b2z (length l <? n)%nat)
    then 0 else byte m x.
Proof.
  intros Hd Hf Hs Hdis. unfold strncat. rewrite (str_end_spec fuel m dest ld Hd Hf). cbn [mbind option_bind].
  destruct (strncat_copy_spec m (dest + Z.of_nat (length ld)) src n l Hs) as (m' & -> & Hm); [lia|].
  eexists. split; [done|]. intros x. rewrite byte_mset, Hm.
  change (u8 0) with 0.
  destruct (Nat.ltb_spec (length l) n); cbn [b2z]; zcase; simpl; first [done|lia].
Qed.

(** Appending "ab" to the one-character string at 300 with a limit of 10 also
    clears the byte at 304, after the terminator at 303. *)
Lemma strncat_writes_witness :
  let m := mset demo_mem 301 0 in
  byte m 304 = 1 /\
  exists m', strncat 5 m 300 100 10 = Some m' /\ byte m' 303 = 0 /\ byte m' 304 = 0.
Proof.
  split; [reflexivity|].
  destruct (strncat_writes 5 (mset demo_mem 301 0) 300 100 10 [1] [97; 98])
    as (m' & Hr & Hm); [repeat split; done|simpl; lia|repeat split; done|simpl; lia|].
  exists m'. split; [exact Hr|]. rewrite !Hm. split; reflexivity.
Defined.

(** ** Comparison *)

(** The reference: difference of the first bytes that differ, a terminator
    counting as 0. *)
Fixpoint strcmp_ref (l1 l2 : list Z) : Z :=
  match l1, l2 with
  | [], [] => 0
  | [], b :: _ => - b
  | a :: _, [] => a
  | a :: l1, b :: l2 => if a =? b then strcmp_ref l1 l2 else a - b
  end.

Lemma strcmp_ref_zero l1 l2 :
  Forall (fun c => c <> 0) l1 -> Forall (fun c => c <> 0) l2 ->
  strcmp_ref l1 l2 = 0 <-> l1 = l2.
Proof.
  revert l2. induction l1 as [|a l1 IH]; intros [|b l2] H1 H2; cbn [strcmp_ref];
    try apply Forall_cons in H1 as [? H1]; try apply Forall_cons in H2 as [? H2].
  - done.
  - split; [lia|done].
  - split; [lia|done].
  - destruct (Z.eqb_spec a b) as [->|]; [rewrite IH by done; split; congruence|].
    split; [lia|congruence].
Qed.

Lemma cstr_nonzero_list m s l : cstr m s l -> Forall (fun c => c <> 0) l.
Proof.
  revert s. induction l as [|c l IH]; intros s H; constructor; [apply H|].
  apply (IH (s + 1)). apply H.
Qed.

Lemma strcmp_loop_spec fuel m s1 s2 l1 l2 :
  cstr m s1 l1 -> cstr m s2 l2 -> (length l1 < fuel)%nat ->
  strcmp fuel m s1 s2 = Some (strcmp_ref l1 l2).
Proof.
  revert s1 s2 l1 l2. induction fuel as [|fuel IH]; intros s1 s2 l1 l2 H1 H2 Hf; [lia|].
  cbn [strcmp]. destruct l1 as [|a l1], l2 as [|b l2]; cbn [cstr length strcmp_ref] in *.
  - by rewrite H1, H2.
  - destruct H2 as (-> & ? & ?). by rewrite H1.
  - destruct H1 as (-> & ? & ?). rewrite H2. destruct (Z.eqb_spec a 0); [done|].
    destruct (Z.eqb_spec a 0); [done|]. cbn. f_equal. lia.
  - destruct H1 as (-> & ? & ?), H2 as (-> & ? & ?). destruct (Z.eqb_spec a 0); [done|].
    cbn [negb andb]. destruct (Z.eqb_spec a b); [|done]. by apply IH; [..|lia].
Qed.

(** On two C strings strcmp returns the difference of the first characters
    that differ, read as unsigned bytes, and returns 0 exactly when the strings
    are equal; it needs no more iterations than the first string has bytes. *)
Theorem strcmp_correct fuel m s1 s2 l1 l2 :
  cstr m s1 l1 -> cstr m s2 l2 -> (length l1 < fuel)%nat ->
  exists r, strcmp fuel m s1 s2 = Some r /\ r = strcmp_ref l1 l2 /\ (r = 0 <-> l1 = l2).
Proof.
  intros H1 H2 Hf. exists (strcmp_ref l1 l2). split; [by apply strcmp_loop_spec|].
  split; [done|]. apply strcmp_ref_zero; by eapply cstr_nonzero_list.
Qed.

Lemma strcmp_correct_witness :
  exists r, strcmp 3 demo_mem 100 101 = Some r /\ r = strcmp_ref [97; 98] [98] /\
    (r = 0 <-> [97; 98] = [98]).
Proof.
  apply (strcmp_correct 3 demo_mem 100 101 [97; 98] [98]);
    [apply demo_cstr|repeat split; done|simpl; lia].
Defined.

(** ** Searching *)

Lemma strrchr_loop_spec fuel m s l c last :
  cstr m s l -> (length l < fuel)%nat ->
  exists r, strrchr_loop fuel m s c last = Some r /\
    ((r = last /\ forall i, l !! i <> Some (u8 c)) \/
     exists i, r = s + Z.of_nat i /\ l !! i = Some (u8 c) /\
       forall j, (i < j)%nat -> l !! j <> Some (u8 c)).
Proof.
  revert s l last. induction fuel as [|fuel IH]; intros s l last Hs Hf; [lia|].
  cbn [strrchr_loop]. destruct l as [|a l]; cbn [cstr length] in *.
  - rewrite Hs. exists last. split; [done|]. left. split; [done|]. intros i. done.
  - destruct Hs as (Hb & Ha & Hs). rewrite Hb. destruct (Z.eqb_spec a 0); [done|].
    destruct (IH (s + 1) l (if a =? u8 c then s else last) Hs) as (r & Hr & Hcase); [lia|].
    exists r. split; [done|]. destruct Hcase as [[-> Hn]|(i & -> & Hi & Hj)].
    + destruct (Z.eqb_spec a (u8 c)) as [->|Hne].
      * right. exists O. split; [lia|]. split; [done|]. intros [|j] Hj; [lia|apply Hn].
      * left. split; [done|]. intros [|i]; [simpl; congruence|apply Hn].
    + right. exists (S i). split; [lia|]. split; [done|].
      intros [|j] ?; [lia|]. apply Hj. lia.
Qed.

(** Strrchr returns the last occurrence of a non-NUL character, NULL when
    there is none, and, unlike strchr, it returns NULL when asked for the
    terminator although the terminator is part of the string. *)
Theorem strrchr_correct fuel m s l c :
  cstr m s l -> (length l < fuel)%nat ->
  exists r, strrchr fuel m s c = Some r /\
    ((r = 0 /\ forall i, l !! i <> Some (u8 c)) \/
     exists i, r = s + Z.of_nat i /\ l !! i = Some (u8 c) /\
       forall j, (i < j)%nat -> l !! j <> Some (u8 c)) /\
    (u8 c = 0 -> r = 0 /\ strchr fuel m s c = Some (s + Z.of_nat (length l))).
Proof.
  intros Hs Hf. destruct (strrchr_loop_spec fuel m s l c 0 Hs Hf) as (r & Hr & Hcase).
  exists r. split; [done|]. split; [done|]. intros Hc. split.
  - destruct Hcase as [[? _]|(i & _ & Hi & _)]; [done|].
    destruct (cstr_lookup _ _ _ _ _ Hs Hi). congruence.
  - rewrite <- (str_end_spec fuel m s l Hs Hf). clear -Hc. revert s.
    induction fuel as [|fuel IH]; intros s; [done|]. cbn [strchr str_end]. rewrite Hc.
    destruct (byte m s =? 0); [done|apply IH].
Qed.

Lemma strrchr_correct_witness :
  exists r, strrchr 3 demo_mem 100 0 = Some r /\
    ((r = 0 /\ forall i, [97; 98] !! i <> Some (u8 0)) \/
     exists i, r = 100 + Z.of_nat i /\ [97; 98] !! i = Some (u8 0) /\
       forall j, (i < j)%nat -> [97; 98] !! j <> Some (u8 0)) /\
    (u8 0 = 0 -> r = 0 /\ strchr 3 demo_mem 100 0 = Some (100 + Z.of_nat (length [97; 98]))).
Proof. apply (strrchr_correct 3 demo_mem 100 [97; 98] 0); [apply demo_cstr|simpl; lia]. Defined.

Lemma match_at_spec fuel m h n lh ln :
  cstr m h lh -> cstr m n ln -> (length lh < fuel)%nat ->
  match_at fuel m h n = Some (bool_decide (ln `prefix_of` lh)).
Proof.
  revert h n lh ln. induction fuel as [|fuel IH]; intros h n lh ln Hh Hn Hf; [lia|].
  cbn [match_at]. destruct ln as [|b ln]; cbn [cstr] in Hn.
  { rewrite Hn. rewrite andb_false_r. cbn. by rewrite bool_decide_true by apply prefix_nil. }
  destruct Hn as (-> & Hb & Hn). destruct lh as [|a lh]; cbn [cstr length] in *.
  - rewrite Hh. cbn. destruct (Z.eqb_spec b 0); [done|].
    rewrite bool_decide_false; [done|]. intros H. by apply prefix_nil_not in H.
  - destruct Hh as (-> & Ha & Hh). destruct (Z.eqb_spec a 0), (Z.eqb_spec b 0); try done.
    cbn [negb andb]. destruct (Z.eqb_spec a b) as [->|Hne].
    + rewrite (IH _ _ lh ln) by (done || lia). f_equal. apply bool_decide_ext.
      split; [apply prefix_cons|apply prefix_cons_inv_2].
    + rewrite bool_decide_false; [done|]. intros H. by apply prefix_cons_inv_1 in H.
Qed.

Lemma strstr_loop_spec fuel m h n lh ln :
  cstr m h lh -> cstr m n ln -> ln <> [] -> (length lh < fuel)%nat ->
  (strstr_loop fuel m h n = Some 0 /\ forall i, ~ ln `prefix_of` drop i lh) \/
  (exists i, strstr_loop fuel m h n = Some (h + Z.of_nat i) /\ ln `prefix_of` drop i lh /\
     forall j, (j < i)%nat -> ~ ln `prefix_of` drop j lh).
Proof.
  revert h lh. induction fuel as [|fuel IH]; intros h lh Hh Hn Hne Hf; [lia|].
  cbn [strstr_loop]. destruct lh as [|a lh].
  - cbn [cstr] in Hh. rewrite Hh. left. split; [done|]. intros i. rewrite drop_nil.
    intros H. by apply prefix_nil_inv in H.
  - assert (Hm := match_at_spec (S fuel) m h n _ _ Hh Hn Hf).
    destruct Hh as (Hb & Ha & Hh). rewrite Hb. destruct (Z.eqb_spec a 0); [done|].
    rewrite Hm. cbn [mbind option_bind]. case_bool_decide as Hp.
    + right. exists O. rewrite Z.add_0_r. split; [done|]. split; [done|]. lia.
    + destruct (IH (h + 1) lh Hh Hn Hne) as [[-> Hno]|(i & -> & Hi & Hj)];
        [cbn [length] in Hf; lia| |].
      * left. split; [done|]. intros [|i]; [done|apply Hno].
      * right. exists (S i). split; [f_equal; lia|]. split; [done|].
        intros [|j] ?; [done|]. apply Hj. lia.
Qed.

(** Strstr returns the first position at which the needle occurs in the
    haystack, the haystack itself for an empty needle, and NULL exactly when
    there is no occurrence; it always returns. *)
Theorem strstr_first fuel m h n lh ln :
  cstr m h lh -> cstr m n ln -> (length lh < fuel)%nat ->
  (strstr fuel m h n = Some 0 /\ forall i, ~ ln `prefix_of` drop i lh) \/
  (exists i, strstr fuel m h n = Some (h + Z.of_nat i) /\ ln `prefix_of` drop i lh /\
     forall j, (j < i)%nat -> ~ ln `prefix_of` drop j lh).
Proof.
  intros Hh Hn Hf. unfold strstr. destruct ln as [|b ln].
  - cbn [cstr] in Hn. rewrite Hn. right. exists O. rewrite Z.add_0_r.
    split; [done|]. split; [apply prefix_nil|lia].
  - assert (byte m n <> 0) by (destruct Hn as (-> & ? & _); done).
    destruct (Z.eqb_spec (byte m n) 0); [done|]. by apply strstr_loop_spec.
Qed.

Lemma strstr_first_witness :
  strstr 3 demo_mem 100 101 = Some 101 /\
  ((strstr 3 demo_mem 100 101 = Some 0 /\ forall i, ~ [98] `prefix_of` drop i [97; 98]) \/
   (exists i, strstr 3 demo_mem 100 101 = Some (100 + Z.of_nat i) /\
      [98] `prefix_of` drop i [97; 98] /\
      forall j, (j < i)%nat -> ~ [98] `prefix_of` drop j [97; 98])).
Proof.
  split; [reflexivity|].
  apply (strstr_first 3 demo_mem 100 101 [97; 98] [98]);
    [apply demo_cstr|repeat split; done|simpl; lia].
Defined.
