(* ===== verification/Path.v ===== *)
(** Path canonicalisation, [kernel/fs/path.c]: a pure string routine that turns
    a working directory and a path into an absolute path without ".", ".." or
    repeated separators, writing into a caller's buffer of [outsz] bytes.

    [path] and [cwd] are C strings, given as their characters before the NUL
    ([None] is a NULL pointer); [out] is the buffer as an array of bytes. *)

From stdpp Require Import base numbers list.
From Stdlib Require Import ZArith Lia.
From S2P Require Import Prelude.

Definition PATH_MAX_COMPS : Z := 64.
Definition SLASH : Z := 47.
Definition DOT : Z := 46.

(** The locals of path_canonicalize: the output, its length, the component
    stack [end] and its depth. *)
Record canon_state := Canon {
  out : mem;
  clen : Z;
  ncomp : Z;
  cend : Z -> Z;
}.

(** [while ( *p == '/' ) p++] *)
Fixpoint skip_sep (p : list Z) : list Z :=
  match p with
  | c :: p' => if c =? SLASH then skip_sep p' else p
  | [] => []
  end.

(** [while ( *p && *p != '/' ) p++]: the component [st, p) and the rest. *)
Fixpoint take_comp (p : list Z) : list Z * list Z :=
  match p with
  | [] => ([], [])
  | c :: p' => if c =? SLASH then ([], p)
               else let '(a, b) := take_comp p' in (c :: a, b)
  end.

(** [for (i = 0; i < clen; i++) out[len++] = st[i]] *)
Fixpoint write_comp (st : list Z) (o : mem) (len : Z) : mem * Z :=
  match st with
  | [] => (o, len)
  | c :: st => write_comp st (mset o len c) (len + 1)
  end.

Definition is_dot (c : list Z) : bool := bool_decide (c = [DOT]).
Definition is_dotdot (c : list Z) : bool := bool_decide (c = [DOT; DOT]).

(** The body of the component loop: the new state, or the error it returns. *)
Definition canon_comp (outsz : Z) (st : list Z) (s : canon_state) : canon_state + Z :=
  let n := Z.of_nat (length st) in
  if is_dot st then inl s
  else if is_dotdot st then
    inl (if 0 <? ncomp s then
           let k := ncomp s - 1 in
           Canon (out s) (if k =? 0 then 1 else cend s (k - 1)) k (cend s)
         else s)
  else if PATH_MAX_COMPS <=? ncomp s then inr (- ERANGE)
  else
    let need := (if clen s =? 1 then 0 else 1) + n in
    if outsz <? clen s + need + 1 then inr (- ERANGE)
    else
      let '(o, len) := if clen s =? 1 then (out s, clen s)
                       else (mset (out s) (clen s) SLASH, clen s + 1) in
      let '(o, len) := write_comp st o len in
      inl (Canon o len (ncomp s + 1)
                 (fun i => if i =? ncomp s then len else cend s i)).

(** [while ( *p ) ...] over one source string; every iteration that continues
    consumes a character, so [length p + 1] iterations are enough. *)
Fixpoint canon_loop (fuel : nat) (outsz : Z) (p : list Z) (s : canon_state)
  : option (canon_state + Z * mem) :=
  match fuel with
  | O => None
  | S fuel =>
      match skip_sep p with
      | [] => Some (inl s)
      | p =>
          let '(st, rest) := take_comp p in
          match canon_comp outsz st s with
          | inr e => Some (inr (e, out s))
          | inl s => canon_loop fuel outsz rest s
          end
      end
  end.

Definition canon_source (outsz : Z) (p : list Z) (s : canon_state) :=
  canon_loop (S (length p)) outsz p s.

(** The sources: an absolute path ignores cwd. *)
Definition canon_sources (cwd : option (list Z)) (path : list Z) : list (list Z) :=
  match path with
  | c :: _ => if c =? SLASH then [path] else
                [match cwd with Some (c :: l) => c :: l | _ => [SLASH] end; path]
  | [] => [match cwd with Some (c :: l) => c :: l | _ => [SLASH] end; path]
  end.

Fixpoint canon_all (outsz : Z) (srcs : list (list Z)) (s : canon_state)
  : option (canon_state + Z * mem) :=
  match srcs with
  | [] => Some (inl s)
  | p :: srcs =>
      match canon_source outsz p s with
      | Some (inl s) => canon_all outsz srcs s
      | r => r
      end
  end.

(** The result code and the buffer; [o] is [None] for a NULL buffer. *)
Definition path_canonicalize (cwd path : option (list Z)) (o : option mem) (outsz : Z)
  : option (Z * option mem) :=
  match path, o with
  | Some path, Some o =>
      if outsz <? 2 then Some (- EINVAL, Some o) else
      match canon_all outsz (canon_sources cwd path)
              (Canon (mset o 0 SLASH) 1 0 (fun _ => 0)) with
      | Some (inl s) => Some (0, Some (mset (out s) (clen s) 0))
      | Some (inr (e, o)) => Some (e, Some o)
      | None => None
      end
  | _, _ => Some (- EINVAL, o)
  end.

(** * Reference: a stack of components *)

Fixpoint split_slash (p : list Z) : list (list Z) :=
  match p with
  | [] => [[]]
  | c :: p => if c =? SLASH then [] :: split_slash p
              else match split_slash p with
                   | [] => [[c]]
                   | x :: xs => (c :: x) :: xs
                   end
  end.

Definition nonempty (c : list Z) : bool := match c with [] => false | _ => true end.

(** The non-empty components of a path. *)
Definition comps (p : list Z) : list (list Z) := List.filter nonempty (split_slash p).

Fixpoint join (cs : list (list Z)) : list Z :=
  match cs with
  | [] => []
  | [c] => c
  | c :: cs => c ++ SLASH :: join cs
  end.

Definition render (stk : list (list Z)) : list Z := SLASH :: join stk.

(** One component: "." is dropped, ".." pops (and stays at the root), any other
    name is pushed unless the stack or the buffer is full. *)
Definition ref_step (outsz : Z) (stk : list (list Z)) (c : list Z) : option (list (list Z)) :=
  if is_dot c then Some stk
  else if is_dotdot c then Some (removelast stk)
  else if PATH_MAX_COMPS <=? Z.of_nat (length stk) then None
  else if outsz <? Z.of_nat (length (render (stk ++ [c]))) + 1 then None
  else Some (stk ++ [c]).

Fixpoint ref_steps (outsz : Z) (stk : list (list Z)) (cs : list (list Z))
  : option (list (list Z)) :=
  match cs with
  | [] => Some stk
  | c :: cs => stk ← ref_step outsz stk c; ref_steps outsz stk cs
  end.

Definition canonical (outsz : Z) (cwd : option (list Z)) (path : list Z) :=
  ref_steps outsz [] (concat (comps <$> canon_sources cwd path)).

(** ** Components *)

Definition valid_comp (c : list Z) : Prop :=
  c <> [] /\ (SLASH ∉ c) /\ Forall (fun x => 0 < x < 256) c.

Lemma comps_slash p : comps (SLASH :: p) = comps p.
Proof. done. Qed.

Lemma comps_skip_sep p : comps (skip_sep p) = comps p.
Proof.
  induction p as [|c p IH]; [done|]. cbn [skip_sep].
  destruct (Z.eqb_spec c SLASH) as [->|]; [by rewrite comps_slash|done].
Qed.

Lemma take_comp_app p a b :
  take_comp p = (a, b) -> p = a ++ b /\ (SLASH ∉ a) /\ (b = [] \/ exists b', b = SLASH :: b').
Proof.
  revert a b. induction p as [|c p IH]; intros a b; cbn [take_comp].
  - intros [= <- <-]. split; [done|]. split; [apply not_elem_of_nil|]. by left.
  - destruct (Z.eqb_spec c SLASH) as [->|Hne].
    + intros [= <- <-]. split; [done|]. split; [apply not_elem_of_nil|]. right. eauto.
    + destruct (take_comp p) as [a' b'] eqn:E. intros [= <- <-].
      destruct (IH _ _ eq_refl) as (-> & Hn & Hb). split; [done|]. split; [|done].
      apply not_elem_of_cons. done.
Qed.

Lemma split_slash_nonnil p : split_slash p <> [].
Proof. destruct p as [|c p]; [done|]. cbn. destruct (_ =? _); [done|]. by destruct (split_slash p). Qed.

Lemma split_slash_app a b :
  SLASH ∉ a -> b = [] \/ (exists b', b = SLASH :: b') ->
  split_slash (a ++ b) = match b with [] => [a] | _ :: b' => a :: split_slash b' end.
Proof.
  intros Ha Hb. induction a as [|c a IH]; cbn [app].
  - destruct Hb as [->|(b' & ->)]; done.
  - apply not_elem_of_cons in Ha as [Hc Ha]. cbn [split_slash].
    destruct (Z.eqb_spec c SLASH); [congruence|]. rewrite IH by done. by destruct b.
Qed.

Lemma comps_take p a b :
  take_comp p = (a, b) -> a <> [] -> comps p = a :: comps b.
Proof.
  intros (-> & Ha & Hb)%take_comp_app Hne. unfold comps. rewrite split_slash_app by done.
  destruct a; [done|]. by destruct Hb as [->|(b' & ->)].
Qed.

Lemma take_comp_nonnil p a b c p' :
  skip_sep p = c :: p' -> take_comp (c :: p') = (a, b) -> a <> [].
Proof.
  intros Hs. assert (c <> SLASH).
  { clear -Hs. induction p as [|x p IH]; [done|]. cbn [skip_sep] in Hs.
    destruct (Z.eqb_spec x SLASH); [by apply IH|congruence]. }
  cbn [take_comp]. destruct (Z.eqb_spec c SLASH); [done|].
  destruct (take_comp p'). by intros [= <- <-].
Qed.

Lemma skip_sep_length p : (length (skip_sep p) <= length p)%nat.
Proof. induction p as [|c p IH]; cbn [skip_sep]; [done|]. destruct (_ =? _); cbn [length]; lia. Qed.

(** ** Rendering *)

Lemma join_snoc stk c :
  join (stk ++ [c]) = match stk with [] => c | _ => join stk ++ SLASH :: c end.
Proof.
  induction stk as [|x stk IH]; [done|]. cbn [app join].
  destruct stk as [|y stk]; [done|]. cbn [app] in *. rewrite IH. cbn [join].
  by rewrite <- app_assoc.
Qed.

Lemma render_length stk :
  Forall (fun c => c <> []) stk -> Z.of_nat (length (render stk)) = 1 <-> stk = [].
Proof.
  intros H. destruct stk as [|c stk]; [done|]. apply Forall_cons in H as [Hc _].
  split; [|done]. unfold render. cbn [join length]. destruct c; [done|].
  destruct stk; cbn [length app]; lia.
Qed.

Lemma render_push stk c :
  Forall (fun c => c <> []) stk ->
  render (stk ++ [c]) = render stk ++ (if Z.of_nat (length (render stk)) =? 1 then [] else [SLASH]) ++ c.
Proof.
  intros H. destruct (Z.eqb_spec (Z.of_nat (length (render stk))) 1) as [E|E];
    rewrite render_length in E by done.
  - by subst.
  - unfold render. rewrite join_snoc. destruct stk; done.
Qed.

(** ** The state represents the stack *)

(** [o] holds the characters [l] from index [k]. *)
Definition holds (o : mem) (k : Z) (l : list Z) : Prop :=
  forall i c, l !! i = Some c -> o (k + Z.of_nat i) = c.

Lemma holds_app o k l1 l2 :
  holds o k (l1 ++ l2) <-> holds o k l1 /\ holds o (k + Z.of_nat (length l1)) l2.
Proof.
  split.
  - intros H. split; intros i c Hi.
    + apply H. by apply lookup_app_l_Some.
    + replace (k + Z.of_nat (length l1) + Z.of_nat i) with (k + Z.of_nat (length l1 + i)) by lia.
      apply H. by rewrite lookup_app_r, Nat.add_comm, Nat.add_sub by lia.
  - intros [H1 H2] i c [Hi|[Hge Hi]]%lookup_app_Some; [by apply H1|].
    rewrite <- (H2 _ _ Hi). f_equal. lia.
Qed.

Lemma holds_frame o o' k l :
  holds o k l -> (forall x, k <= x < k + Z.of_nat (length l) -> o' x = o x) -> holds o' k l.
Proof.
  intros H Hf i c Hi. pose proof (lookup_lt_Some _ _ _ Hi). rewrite Hf by lia. by apply H.
Qed.

Record repr (outsz : Z) (s : canon_state) (stk : list (list Z)) : Prop := {
  r_comps : Forall valid_comp stk;
  r_n : ncomp s = Z.of_nat (length stk);
  r_len : clen s = Z.of_nat (length (render stk));
  r_fit : clen s + 1 <= outsz;
  r_out : holds (out s) 0 (render stk);
  r_end : forall k, 0 <= k < ncomp s ->
            cend s k = Z.of_nat (length (render (take (S (Z.to_nat k)) stk)));
}.

Lemma valid_nonnil stk : Forall valid_comp stk -> Forall (fun c => c <> []) stk.
Proof. intros H. eapply Forall_impl; [exact H|]. by intros c [? _]. Qed.

Lemma write_comp_spec st o len :
  Forall (fun x => 0 < x < 256) st ->
  let r := write_comp st o len in
  r.2 = len + Z.of_nat (length st) /\ holds r.1 len st /\
  forall x, x < len \/ len + Z.of_nat (length st) <= x -> r.1 x = o x.
Proof.
  cbv zeta. revert o len. induction st as [|c st IH]; intros o len Hst; cbn [write_comp length].
  - cbn. split; [lia|]. split; [by intros i c|done].
  - apply Forall_cons in Hst as [Hc Hst].
    destruct (IH (mset o len c) (len + 1) Hst) as (H1 & H2 & H3).
    split; [lia|]. split.
    + intros [|i] x Hi; cbn in Hi.
      * simplify_eq. rewrite H3, Z.add_0_r, mset_eq by lia. apply u8_small. lia.
      * rewrite <- (H2 _ _ Hi). f_equal. lia.
    + intros x Hx. rewrite H3 by lia. apply mset_ne. lia.
Qed.

Lemma removelast_take (stk : list (list Z)) :
  removelast stk = take (length stk - 1) stk.
Proof.
  induction stk as [|c stk IH]; [done|]. cbn [removelast length].
  destruct stk as [|d stk]; [done|]. rewrite IH. cbn [length].
  replace (S (S (length stk)) - 1)%nat with (S (S (length stk) - 1)) by lia. done.
Qed.

Lemma render_take_prefix stk k : exists l, render stk = render (take k stk) ++ l.
Proof.
  unfold render. cbn [app]. revert k. induction stk as [|c stk IH]; intros [|k].
  - by exists [].
  - by exists [].
  - eexists. done.
  - cbn [firstn]. destruct stk as [|d stk].
    + exists []. rewrite take_nil. cbn. by rewrite app_nil_r.
    + destruct (IH k) as [l Hl]. injection Hl as Hl. destruct k as [|k].
      * cbn [firstn join]. eexists. done.
      * cbn [firstn] in *. cbn [join]. cbn [join] in Hl. exists l. rewrite Hl.
        by rewrite <- !app_assoc.
Qed.

Lemma repr_pop outsz s stk :
  repr outsz s stk -> 0 < ncomp s ->
  repr outsz (Canon (out s) (if ncomp s - 1 =? 0 then 1 else cend s (ncomp s - 1 - 1))
                    (ncomp s - 1) (cend s)) (removelast stk).
Proof.
  intros [Hc Hn Hl Hf Ho He] Hpos. rewrite removelast_take.
  set (k := (length stk - 1)%nat). assert (Hk : ncomp s - 1 = Z.of_nat k) by lia.
  assert (Hlen : (if ncomp s - 1 =? 0 then 1 else cend s (ncomp s - 1 - 1))
                 = Z.of_nat (length (render (take k stk)))).
  { destruct (Z.eqb_spec (ncomp s - 1) 0) as [E|E].
    - assert (k = O) by lia. by replace k with O.
    - rewrite He by lia. do 4 f_equal. lia. }
  destruct (render_take_prefix stk k) as [l Hr].
  split; cbn [out clen ncomp cend].
  - by apply Forall_take.
  - rewrite length_take. lia.
  - done.
  - rewrite Hlen. rewrite Hl, Hr, length_app in Hf. lia.
  - rewrite Hr in Ho. by apply holds_app in Ho as [? _].
  - intros j Hj. rewrite He by lia. do 3 f_equal. rewrite take_take. f_equal. lia.
Qed.

Lemma repr_push outsz s stk c :
  repr outsz s stk -> valid_comp c -> is_dot c = false -> is_dotdot c = false ->
  match ref_step outsz stk c with
  | None => canon_comp outsz c s = inr (- ERANGE)
  | Some stk' => exists s', canon_comp outsz c s = inl s' /\ repr outsz s' stk' /\
      forall x, x < 0 \/ outsz <= x -> out s' x = out s x
  end.
Proof.
  intros [Hc Hn Hl Hf Ho He] Hv Hd Hdd. unfold ref_step, canon_comp. rewrite Hd, Hdd, Hn.
  destruct (PATH_MAX_COMPS <=? Z.of_nat (length stk)); [done|].
  rewrite render_push by (by apply valid_nonnil). rewrite Hl, !length_app.
  set (n1 := Z.of_nat (length (render stk))) in *.
  set (sep := if n1 =? 1 then [] else [SLASH]).
  assert (Hsep : Z.of_nat (length sep) = if n1 =? 1 then 0 else 1) by (subst sep; by destruct (n1 =? 1)).
  replace (Z.of_nat (length (render stk) + (length sep + length c)))
    with (n1 + ((if n1 =? 1 then 0 else 1) + Z.of_nat (length c))) by lia.
  destruct (Z.ltb_spec outsz (n1 + ((if n1 =? 1 then 0 else 1) + Z.of_nat (length c)) + 1)); [done|].
  set (o1 := if n1 =? 1 then (out s, n1) else (mset (out s) n1 SLASH, n1 + 1)).
  assert (Ho1 : o1.2 = n1 + Z.of_nat (length sep) /\ holds o1.1 n1 sep /\
                forall x, x < n1 \/ n1 + Z.of_nat (length sep) <= x -> o1.1 x = out s x).
  { subst o1 sep. destruct (n1 =? 1); cbn.
    - split; [lia|]. split; [by intros i|done].
    - split; [done|]. split.
      + intros [|i] x Hi; [|done]. cbn in Hi. simplify_eq. rewrite Z.add_0_r. apply mset_eq.
      + intros x Hx. apply mset_ne. lia. }
  destruct Hv as (Hne & Hns & Hb). destruct o1 as [o len]. cbn [fst snd] in Ho1.
  destruct Ho1 as (-> & Hs1 & Hs2).
  destruct (write_comp_spec c o (n1 + Z.of_nat (length sep)) Hb) as (Hw1 & Hw2 & Hw3).
  destruct (write_comp c o _) as [o' len']. cbn [fst snd] in *. subst len'.
  eexists. split; [done|]. split; [|].
  - split; cbn [out clen ncomp cend].
    + apply Forall_app. split; [done|]. repeat constructor; done.
    + rewrite length_app. cbn. lia.
    + rewrite render_push by (by apply valid_nonnil). rewrite !length_app. fold n1 sep. lia.
    + lia.
    + rewrite render_push by (by apply valid_nonnil). fold n1 sep. rewrite !holds_app.
      repeat split.
      * apply (holds_frame (out s)); [done|]. intros x Hx. rewrite Hw3, Hs2 by lia. done.
      * rewrite Z.add_0_l. apply (holds_frame o); [done|]. intros x Hx. apply Hw3. lia.
      * by rewrite Z.add_0_l.
    + intros k Hk. destruct (Z.eqb_spec k (Z.of_nat (length stk))) as [->|Hne'].
      * rewrite take_ge by (rewrite length_app; cbn; lia).
        rewrite render_push by (by apply valid_nonnil). rewrite !length_app. fold n1 sep. lia.
      * rewrite He by lia. rewrite take_app_le by lia. done.
  - intros x Hx. cbn [out]. rewrite Hw3, Hs2 by lia. done.
Qed.

(** Bytes outside [0, outsz) are as they were. *)
Definition in_bounds (outsz : Z) (o o' : mem) : Prop :=
  forall x, x < 0 \/ outsz <= x -> o' x = o x.

#[export] Instance in_bounds_preorder outsz : PreOrder (in_bounds outsz).
Proof. split; [by intros o x|]. intros a b c H1 H2 x Hx. rewrite H2, H1 by done. done. Qed.

Lemma canon_comp_spec outsz s stk c :
  repr outsz s stk -> valid_comp c ->
  match ref_step outsz stk c with
  | None => canon_comp outsz c s = inr (- ERANGE)
  | Some stk' => exists s', canon_comp outsz c s = inl s' /\ repr outsz s' stk' /\
      in_bounds outsz (out s) (out s')
  end.
Proof.
  intros Hr Hv. destruct (is_dot c) eqn:Hd.
  { unfold ref_step, canon_comp. rewrite Hd. by exists s. }
  destruct (is_dotdot c) eqn:Hdd; [|by apply repr_push].
  unfold ref_step, canon_comp. rewrite Hd, Hdd. eexists. split; [done|].
  destruct (Z.ltb_spec 0 (ncomp s)) as [Hpos|Hz].
  - split; [by apply repr_pop|done].
  - split; [|done]. assert (stk = []) as ->; [|done].
    destruct stk; [done|]. rewrite (r_n _ _ _ Hr) in Hz. cbn in Hz. lia.
Qed.

Definition chars (l : list Z) : Prop := Forall (fun x => 0 < x < 256) l.

(** What a run of the loop must produce for the stack the reference computes. *)
Definition result_for (outsz : Z) (o : mem) (ref : option (list (list Z)))
    (r : option (canon_state + Z * mem)) : Prop :=
  match ref with
  | Some stk => exists s, r = Some (inl s) /\ repr outsz s stk /\ in_bounds outsz o (out s)
  | None => exists o', r = Some (inr (- ERANGE, o')) /\ in_bounds outsz o o'
  end.

Lemma result_for_weaken outsz o o' ref r :
  in_bounds outsz o o' -> result_for outsz o' ref r -> result_for outsz o ref r.
Proof.
  intros Hb. destruct ref as [stk|]; cbn.
  - intros (s & -> & Hr & Hi). exists s. split; [done|]. split; [done|]. by etrans.
  - intros (o1 & -> & Hi). exists o1. split; [done|]. by etrans.
Qed.

Lemma skip_sep_chars p : chars p -> chars (skip_sep p).
Proof. intros H. induction H; cbn [skip_sep]; [constructor|]. destruct (_ =? _); [done|by constructor]. Qed.

Lemma canon_loop_spec outsz fuel p s stk :
  repr outsz s stk -> chars p -> (length p < fuel)%nat ->
  result_for outsz (out s) (ref_steps outsz stk (comps p)) (canon_loop fuel outsz p s).
Proof.
  revert p s stk. induction fuel as [|fuel IH]; intros p s stk Hr Hch Hf; [lia|].
  cbn [canon_loop]. rewrite <- comps_skip_sep.
  pose proof (skip_sep_length p) as Hlen. pose proof (skip_sep_chars p Hch) as Hcs.
  destruct (skip_sep p) as [|c p'] eqn:Es.
  { exists s. split; [done|]. split; done. }
  destruct (take_comp (c :: p')) as [st rest] eqn:Et.
  pose proof (take_comp_nonnil _ _ _ _ _ Es Et) as Hne.
  rewrite (comps_take _ _ _ Et Hne). cbn [ref_steps].
  destruct (take_comp_app _ _ _ Et) as (Heq & Hns & _). rewrite Heq in Hcs, Hlen.
  apply Forall_app in Hcs as [Hc1 Hc2]. rewrite length_app in Hlen.
  assert (0 < length st)%nat by (destruct st; [done|cbn; lia]).
  pose proof (canon_comp_spec outsz s stk st Hr (conj Hne (conj Hns Hc1))) as Hcc.
  destruct (ref_step outsz stk st) as [stk'|]; cbn [mbind option_bind].
  - destruct Hcc as (s' & -> & Hr' & Hb). apply (result_for_weaken _ _ _ _ _ Hb).
    apply IH; [done..|lia].
  - rewrite Hcc. exists (out s). done.
Qed.

Lemma ref_steps_app outsz stk cs1 cs2 :
  ref_steps outsz stk (cs1 ++ cs2) =
    stk' ← ref_steps outsz stk cs1; ref_steps outsz stk' cs2.
Proof.
  revert stk. induction cs1 as [|c cs1 IH]; intros stk; [done|]. cbn [app ref_steps].
  destruct (ref_step outsz stk c); [apply IH|done].
Qed.

Lemma canon_all_spec outsz srcs s stk :
  repr outsz s stk -> Forall chars srcs ->
  result_for outsz (out s) (ref_steps outsz stk (concat (comps <$> srcs))) (canon_all outsz srcs s).
Proof.
  revert s stk. induction srcs as [|p srcs IH]; intros s stk Hr Hch.
  { exists s. split; [done|]. split; done. }
  apply Forall_cons in Hch as [Hp Hch]. cbn [fmap list_fmap concat canon_all].
  rewrite ref_steps_app. unfold canon_source.
  pose proof (canon_loop_spec outsz (S (length p)) p s stk Hr Hp ltac:(lia)) as H.
  destruct (ref_steps outsz stk (comps p)) as [stk'|]; cbn [mbind option_bind result_for] in *.
  - destruct H as (s' & -> & Hr' & Hb). apply (result_for_weaken _ _ _ _ _ Hb). by apply IH.
  - destruct H as (o' & -> & Hb). exists o'. done.
Qed.

Lemma canon_sources_chars cwd path :
  chars path -> (forall l, cwd = Some l -> chars l) -> Forall chars (canon_sources cwd path).
Proof.
  intros Hp Hc. assert (Hs : chars [SLASH]) by (repeat constructor; unfold SLASH; lia).
  assert (Hcwd : chars (match cwd with Some (c :: l) => c :: l | _ => [SLASH] end)).
  { destruct cwd as [[|c l]|]; auto. }
  unfold canon_sources. destruct path as [|c path]; [|destruct (c =? SLASH)];
    repeat (constructor; [assumption|]); constructor.
Qed.

Lemma repr_init outsz o : 2 <= outsz -> repr outsz (Canon (mset o 0 SLASH) 1 0 (fun _ => 0)) [].
Proof.
  intros. split; cbn; try done; try lia.
  intros [|i] c Hi; [|done]. cbn in Hi. simplify_eq. apply mset_eq.
Qed.

Lemma canonicalize_result cwd path o outsz :
  2 <= outsz -> chars path -> (forall l, cwd = Some l -> chars l) ->
  match canonical outsz cwd path with
  | Some stk => exists o', path_canonicalize cwd (Some path) (Some o) outsz = Some (0, Some o') /\
      holds o' 0 (render stk ++ [0]) /\ Z.of_nat (length (render stk)) + 1 <= outsz /\
      Forall valid_comp stk /\ in_bounds outsz o o'
  | None => exists o', path_canonicalize cwd (Some path) (Some o) outsz = Some (- ERANGE, Some o')
      /\ in_bounds outsz o o'
  end.
Proof.
  intros Hsz Hp Hc. unfold path_canonicalize, canonical.
  destruct (Z.ltb_spec outsz 2); [lia|].
  pose proof (canon_all_spec outsz (canon_sources cwd path) _ [] (repr_init outsz o Hsz)
                (canon_sources_chars cwd path Hp Hc)) as Hall.
  assert (Hb0 : in_bounds outsz o (mset o 0 SLASH)) by (intros x Hx; apply mset_ne; lia).
  apply (result_for_weaken _ _ _ _ _ Hb0) in Hall.
  destruct (ref_steps _ _ _) as [stk|]; cbn [result_for] in Hall.
  - destruct Hall as (s & -> & [Hv Hn Hl Hf Ho He] & Hb). eexists. split; [done|].
    split; [|split; [lia|split; [done|]]].
    + apply holds_app. split.
      * apply (holds_frame (out s)); [done|]. intros x Hx. apply mset_ne. lia.
      * intros [|i] c Hi; [|done]. cbn in Hi. simplify_eq.
        rewrite Z.add_0_l, Z.add_0_r, <- Hl. apply mset_eq.
    + intros x Hx. rewrite mset_ne by lia. by apply Hb.
  - destruct Hall as (o' & -> & Hb). eauto.
Qed.

(** C27: path_canonicalize computes the reference canonicalisation: it pushes the
    components of the working directory (for a relative path) and of the path
    on a stack, "." doing nothing and ".." popping, and leaves "/" followed by
    the stack joined with "/" and a NUL in the buffer; it returns -ERANGE
    exactly when the reference runs out of component slots or buffer. *)
Theorem path_canonicalize_refines cwd path o outsz :
  2 <= outsz -> chars path -> (forall l, cwd = Some l -> chars l) ->
  match canonical outsz cwd path with
  | Some stk => exists o', path_canonicalize cwd (Some path) (Some o) outsz = Some (0, Some o') /\
      holds o' 0 (render stk ++ [0])
  | None => exists o', path_canonicalize cwd (Some path) (Some o) outsz = Some (- ERANGE, Some o')
  end.
Proof.
  intros Hsz Hp Hc. pose proof (canonicalize_result cwd path o outsz Hsz Hp Hc) as H.
  destruct (canonical outsz cwd path); destruct H as (o' & H); exists o'; tauto.
Qed.

(** "/usr" and "../x/./y//z" in an 8-byte buffer. *)
Definition demo_cwd : list Z := [47; 117; 115; 114].
Definition demo_path : list Z := [46; 46; 47; 120; 47; 46; 47; 121; 47; 47; 122].

Lemma path_canonicalize_refines_witness :
  canonical 8 (Some demo_cwd) demo_path = Some [[120]; [121]; [122]] /\
  exists o', path_canonicalize (Some demo_cwd) (Some demo_path) (Some (fun _ => 7)) 8
               = Some (0, Some o') /\
    holds o' 0 (render [[120]; [121]; [122]] ++ [0]).
Proof.
  split; [vm_compute; reflexivity|].
  apply (path_canonicalize_refines (Some demo_cwd) demo_path (fun _ => 7) 8).
  - lia.
  - repeat constructor.
  - intros l [= <-]. repeat constructor.
Defined.

(** Whatever the arguments, path_canonicalize returns 0, -EINVAL or -ERANGE
    and never writes outside the [outsz] bytes of its buffer. *)
Theorem path_canonicalize_in_bounds cwd path o outsz :
  (forall l, path = Some l -> chars l) -> (forall l, cwd = Some l -> chars l) ->
  exists r o', path_canonicalize cwd path (Some o) outsz = Some (r, Some o') /\
    (r = 0 \/ r = - EINVAL \/ r = - ERANGE) /\ in_bounds outsz o o'.
Proof.
  intros Hp Hc. destruct path as [path|].
  2:{ exists (- EINVAL), o. split; [done|]. split; [tauto|done]. }
  destruct (Z.lt_ge_cases outsz 2) as [Hlt|Hge].
  { exists (- EINVAL), o. unfold path_canonicalize. destruct (Z.ltb_spec outsz 2); [|lia].
    split; [done|]. split; [tauto|done]. }
  pose proof (canonicalize_result cwd path o outsz Hge (Hp _ eq_refl) Hc) as H.
  destruct (canonical outsz cwd path); destruct H as (o' & H).
  - exists 0, o'. tauto.
  - exists (- ERANGE), o'. tauto.
Qed.

Lemma path_canonicalize_in_bounds_witness :
  exists r o', path_canonicalize (Some demo_cwd) (Some demo_path) (Some (fun _ => 7)) 5
                 = Some (r, Some o') /\
    (r = 0 \/ r = - EINVAL \/ r = - ERANGE) /\ in_bounds 5 (fun _ => 7) o'.
Proof.
  apply (path_canonicalize_in_bounds (Some demo_cwd) (Some demo_path) (fun _ => 7) 5);
    intros l [= <-]; repeat constructor.
Defined.

(** ** Canonical paths are fixed points *)

Definition settled (stk : list (list Z)) : Prop :=
  Forall (fun c => is_dot c = false /\ is_dotdot c = false) stk /\
  Z.of_nat (length stk) <= PATH_MAX_COMPS.

Lemma removelast_Forall {A} (P : A -> Prop) l : Forall P l -> Forall P (removelast l).
Proof.
  induction l as [|x l IH]; [done|]. intros [Hx Hl]%Forall_cons. cbn [removelast].
  destruct l; [done|]. apply Forall_cons. auto.
Qed.

Lemma ref_step_settled outsz stk c stk' :
  settled stk -> ref_step outsz stk c = Some stk' -> settled stk'.
Proof.
  intros [Hf Hl]. unfold ref_step. destruct (is_dot c) eqn:Hd; [by intros [= <-]|].
  destruct (is_dotdot c) eqn:Hdd.
  { intros [= <-]. split; [by apply removelast_Forall|]. rewrite removelast_take, length_take. lia. }
  destruct (Z.leb_spec PATH_MAX_COMPS (Z.of_nat (length stk))); [done|].
  destruct (_ <? _); [done|]. intros [= <-]. split.
  - apply Forall_app. split; [done|]. by repeat constructor.
  - rewrite length_app. cbn. lia.
Qed.

Lemma ref_steps_settled outsz stk cs stk' :
  settled stk -> ref_steps outsz stk cs = Some stk' -> settled stk'.
Proof.
  revert stk. induction cs as [|c cs IH]; intros stk Hs; cbn [ref_steps]; [by intros [= <-]|].
  destruct (ref_step outsz stk c) as [s1|] eqn:E; [|done]. apply IH.
  by eapply ref_step_settled.
Qed.

Lemma comps_join stk : Forall valid_comp stk -> comps (join stk) = stk.
Proof.
  induction 1 as [|c stk (Hne & Hns & _) Hst IH]; [done|]. cbn [join].
  unfold comps in *. destruct stk as [|d stk].
  - rewrite <- (app_nil_r c) at 1. rewrite split_slash_app by auto. by destruct c.
  - rewrite split_slash_app by eauto. cbn [List.filter]. rewrite IH. by destruct c.
Qed.

Lemma render_take_length stk k :
  (length (render (take k stk)) <= length (render stk))%nat.
Proof. destruct (render_take_prefix stk k) as [l ->]. rewrite length_app. lia. Qed.

Lemma ref_steps_replay outsz stk k :
  settled stk -> Z.of_nat (length (render stk)) + 1 <= outsz -> (k <= length stk)%nat ->
  ref_steps outsz (take k stk) (drop k stk) = Some stk.
Proof.
  intros [Hs Hl] Hfit. remember (length stk - k)%nat as d eqn:Hd. revert k Hd.
  induction d as [|d IH]; intros k Hd Hk.
  { rewrite drop_ge, take_ge by lia. done. }
  destruct (lookup_lt_is_Some_2 stk k) as [c Hc]; [lia|].
  rewrite (drop_S stk c k Hc). cbn [ref_steps].
  assert (ref_step outsz (take k stk) c = Some (take (S k) stk)) as ->.
  { apply Forall_lookup_1 with (i := k) (x := c) in Hs as [Hd1 Hd2]; [|done].
    unfold ref_step. rewrite Hd1, Hd2, <- (take_S_r stk k c) by done.
    rewrite length_take. destruct (Z.leb_spec PATH_MAX_COMPS (Z.of_nat (k `min` length stk))); [lia|].
    pose proof (render_take_length stk (S k)).
    destruct (Z.ltb_spec outsz (Z.of_nat (length (render (take (S k) stk))) + 1)); [lia|done]. }
  cbn [mbind option_bind]. apply IH; lia.
Qed.

Lemma canonical_render outsz cwd stk :
  Forall valid_comp stk -> settled stk -> Z.of_nat (length (render stk)) + 1 <= outsz ->
  canonical outsz cwd (render stk) = Some stk.
Proof.
  intros Hv Hs Hfit. unfold canonical, render, canon_sources.
  rewrite Z.eqb_refl. cbn [fmap list_fmap concat]. rewrite comps_slash, comps_join, app_nil_r by done.
  apply (ref_steps_replay outsz stk 0); [done..|lia].
Qed.

Lemma render_chars stk : Forall valid_comp stk -> chars (render stk).
Proof.
  intros H. constructor; [unfold SLASH; lia|].
  induction H as [|c stk (_ & _ & Hc) Hst IH]; [constructor|]. cbn [join].
  destruct stk; [done|]. apply Forall_app. split; [done|]. constructor; [unfold SLASH; lia|done].
Qed.

Lemma holds_inj o l1 l2 :
  chars l1 -> chars l2 -> holds o 0 (l1 ++ [0]) -> holds o 0 (l2 ++ [0]) -> l1 = l2.
Proof.
  generalize 0 at 1 3 as k. intros k H1 H2. revert k l2 H2.
  induction H1 as [|a l1 Ha H1 IH]; intros k [|b l2] H2 Ho1 Ho2.
  - done.
  - apply Forall_cons in H2 as [Hb _].
    pose proof (Ho1 O 0 eq_refl). pose proof (Ho2 O b eq_refl). lia.
  - pose proof (Ho1 O a eq_refl). pose proof (Ho2 O 0 eq_refl). lia.
  - apply Forall_cons in H2 as [Hb H2].
    pose proof (Ho1 O a eq_refl). pose proof (Ho2 O b eq_refl). f_equal; [lia|].
    apply (IH (k + 1)); [done| |].
    + intros i c Hi. rewrite <- (Ho1 (S i) c Hi). f_equal. lia.
    + intros i c Hi. rewrite <- (Ho2 (S i) c Hi). f_equal. lia.
Qed.

(** Canonicalising an already canonical path gives the same path back,
    whatever the working directory. *)
Theorem path_canonicalize_idempotent cwd cwd' path o o' o2 outsz l :
  chars path -> (forall l, cwd = Some l -> chars l) -> (forall l, cwd' = Some l -> chars l) ->
  path_canonicalize cwd (Some path) (Some o) outsz = Some (0, Some o') ->
  chars l -> holds o' 0 (l ++ [0]) ->
  exists o3, path_canonicalize cwd' (Some l) (Some o2) outsz = Some (0, Some o3) /\
    holds o3 0 (l ++ [0]).
Proof.
  intros Hp Hc Hc' Hrun Hl Ho.
  destruct (Z.lt_ge_cases outsz 2) as [Hlt|Hsz].
  { unfold path_canonicalize in Hrun. destruct (Z.ltb_spec outsz 2); [done|lia]. }
  pose proof (canonicalize_result cwd path o outsz Hsz Hp Hc) as H.
  destruct (canonical outsz cwd path) as [stk|] eqn:Ec; destruct H as (o1 & Hr & H);
    rewrite Hrun in Hr; [|done]. injection Hr as <-. destruct H as (Ho1 & Hfit & Hv & _).
  assert (l = render stk) as ->.
  { apply (holds_inj o'); [done|by apply render_chars|done|done]. }
  pose proof (canonicalize_result cwd' (render stk) o2 outsz Hsz (render_chars _ Hv) Hc') as H.
  rewrite canonical_render in H; [|done| |done].
  - destruct H as (o3 & H). exists o3. tauto.
  - eapply ref_steps_settled; [|exact Ec]. split; [constructor|]. cbn. unfold PATH_MAX_COMPS. lia.
Qed.

Lemma path_canonicalize_idempotent_witness :
  exists o', path_canonicalize (Some demo_cwd) (Some demo_path) (Some (fun _ => 7)) 8
               = Some (0, Some o') /\
  exists o3, path_canonicalize None (Some [47; 120; 47; 121; 47; 122]) (Some (fun _ => 7)) 8
               = Some (0, Some o3) /\
    holds o3 0 ([47; 120; 47; 121; 47; 122] ++ [0]).
Proof.
  eexists. split; [reflexivity|].
  eapply (path_canonicalize_idempotent (Some demo_cwd) None demo_path (fun _ => 7) _ (fun _ => 7) 8);
    [repeat constructor|intros l [= <-]; repeat constructor|done|reflexivity|repeat constructor|].
  intros i c Hi. repeat (destruct i as [|i]; [injection Hi as <-; reflexivity|]). done.
Defined.
