(* ===== verification/Pid.v ===== *)
(** PID allocation, [kernel/proc/pid/pid.c]: a bitmap of 32768 identifiers in
    32-bit words and a cursor that rotates over [2, PID_MAX). *)

From stdpp Require Import base numbers list.
From Stdlib Require Import ZArith Lia.
From S2P Require Import Prelude.

Definition PID_MAX : Z := 32768.

(** The statics of pid.c: the words of the bitmap and the cursor. *)
Record pid_state := PidState { pid_bitmap : Z -> Z; pid_cursor : Z }.

(** [pid_bitmap[i] = v], a 32-bit store. *)
Definition word_set (b : Z -> Z) (i v : Z) : Z -> Z := fun x => if x =? i then u32 v else b x.

Definition pid_reserve (pid : Z) (s : pid_state) : pid_state :=
  if PID_MAX <=? pid then s else
  let idx := pid / 32 in
  let bit := pid mod 32 in
  PidState (word_set (pid_bitmap s) idx (Z.lor (pid_bitmap s idx) (Z.shiftl 1 bit)))
           (pid_cursor s).

(** The clearing loop covers the whole array, so every word reads 0. *)
Definition pid_init (s : pid_state) : pid_state :=
  let s := PidState (fun i => if (0 <=? i) && (i <? PID_MAX / 32) then 0 else pid_bitmap s i)
                    (pid_cursor s) in
  pid_reserve 1 (pid_reserve 0 s).

Definition next_cursor (c : Z) : Z := if PID_MAX <=? c + 1 then 2 else c + 1.

(** The scan of pid_alloc, [n] candidates from the cursor on. *)
Fixpoint pid_scan (n : nat) (s : pid_state) : Z * pid_state :=
  match n with
  | O => (0, s)
  | S n =>
      let pid := pid_cursor s in
      let s := PidState (pid_bitmap s) (next_cursor (pid_cursor s)) in
      let idx := pid / 32 in
      let bit := pid mod 32 in
      if truth (Z.land (pid_bitmap s idx) (u32 (Z.shiftl 1 bit))) then pid_scan n s
      else (pid, PidState (word_set (pid_bitmap s) idx
                             (Z.lor (pid_bitmap s idx) (u32 (Z.shiftl 1 bit)))) (pid_cursor s))
  end.

(** 0 when every PID is taken. *)
Definition pid_alloc (s : pid_state) : Z * pid_state := pid_scan (Z.to_nat (PID_MAX - 2)) s.

Definition pid_free (pid : Z) (s : pid_state) : pid_state :=
  if PID_MAX <=? pid then s else
  if (pid =? 0) || (pid =? 1) then s else
  PidState (word_set (pid_bitmap s) (pid / 32)
              (Z.land (pid_bitmap s (pid / 32)) (u32 (Z.lnot (u32 (Z.shiftl 1 (pid mod 32)))))))
           (pid_cursor s).

(** * Taken PIDs *)

Definition taken (s : pid_state) (p : Z) : bool := Z.testbit (pid_bitmap s (p / 32)) (p mod 32).

Definition pid_wf (s : pid_state) : Prop := 2 <= pid_cursor s < PID_MAX.

Lemma word_set_eq b i v : word_set b i v i = u32 v.
Proof. unfold word_set. by rewrite Z.eqb_refl. Qed.

Lemma word_set_ne b i v x : x <> i -> word_set b i v x = b x.
Proof. intros. unfold word_set. zcase; congruence. Qed.

Lemma bit_shift_u32 k : 0 <= k < 32 -> u32 (Z.shiftl 1 k) = Z.shiftl 1 k.
Proof.
  intros. apply u32_small. rewrite Z.shiftl_1_l.
  split; [apply Z.pow_nonneg; lia|]. apply Z.pow_lt_mono_r; lia.
Qed.

Lemma land_one_shift x k :
  0 <= k -> truth (Z.land x (Z.shiftl 1 k)) = Z.testbit x k.
Proof.
  intros Hk. unfold truth. destruct (Z.testbit x k) eqn:E.
  - destruct (Z.eqb_spec (Z.land x (Z.shiftl 1 k)) 0) as [E0|]; [|done].
    assert (Hb : Z.testbit (Z.land x (Z.shiftl 1 k)) k = true).
    { rewrite Z.land_spec, testbit_one_shift, E by lia. by rewrite bool_decide_true. }
    rewrite E0, Z.bits_0 in Hb. done.
  - replace (Z.land x (Z.shiftl 1 k)) with 0; [done|]. symmetry. apply Z.bits_inj'.
    intros n Hn. rewrite Z.land_spec, testbit_one_shift, Z.bits_0 by lia.
    case_bool_decide as En; [subst; by rewrite E|apply andb_false_r].
Qed.

Lemma taken_set s p q c :
  taken (PidState (word_set (pid_bitmap s) (p / 32)
           (Z.lor (pid_bitmap s (p / 32)) (Z.shiftl 1 (p mod 32)))) c) q
  = bool_decide (q = p) || taken s q.
Proof.
  unfold taken. cbn [pid_bitmap].
  pose proof (Z.mod_pos_bound q 32). pose proof (Z.mod_pos_bound p 32).
  pose proof (Z.div_mod q 32). pose proof (Z.div_mod p 32).
  destruct (decide (q / 32 = p / 32)) as [E|E].
  - rewrite E, word_set_eq, testbit_u32, Z.lor_spec, testbit_one_shift by lia.
    repeat case_bool_decide; try lia; destruct (Z.testbit _ _); done.
  - rewrite word_set_ne by done. case_bool_decide; [subst; done|done].
Qed.

Lemma taken_free s p q :
  2 <= p < PID_MAX -> taken (pid_free p s) q = negb (bool_decide (q = p)) && taken s q.
Proof.
  intros Hp. unfold pid_free, taken, PID_MAX in *.
  destruct (Z.leb_spec 32768 p), (Z.eqb_spec p 0), (Z.eqb_spec p 1); try lia.
  cbn [orb pid_bitmap].
  pose proof (Z.mod_pos_bound q 32). pose proof (Z.mod_pos_bound p 32).
  pose proof (Z.div_mod q 32). pose proof (Z.div_mod p 32).
  destruct (decide (q / 32 = p / 32)) as [E|E].
  - rewrite E, word_set_eq, testbit_u32, Z.land_spec, testbit_u32, Z.lnot_spec, testbit_u32,
      testbit_one_shift by lia.
    repeat case_bool_decide; try lia; destruct (Z.testbit _ _); done.
  - rewrite word_set_ne by done. case_bool_decide; [subst; done|done].
Qed.

(** * The scan *)

(** The PID tried after [k] steps from cursor [c]. *)
Definition nth_pid (c : Z) (k : Z) : Z := 2 + (c - 2 + k) mod (PID_MAX - 2).

Lemma nth_pid_0 c : 2 <= c < PID_MAX -> nth_pid c 0 = c.
Proof. intros. unfold nth_pid, PID_MAX in *. rewrite Z.mod_small; lia. Qed.

Lemma nth_pid_next c k : 2 <= c < PID_MAX -> nth_pid (next_cursor c) k = nth_pid c (k + 1).
Proof.
  intros. unfold nth_pid, next_cursor, PID_MAX in *. f_equal.
  destruct (Z.leb_spec 32768 (c + 1)).
  - replace c with 32767 by lia.
    replace (32767 - 2 + (k + 1)) with (2 - 2 + k + 1 * (32768 - 2)) by lia.
    by rewrite Z.mod_add by lia.
  - f_equal. lia.
Qed.

Lemma next_cursor_range c : 2 <= c < PID_MAX -> 2 <= next_cursor c < PID_MAX.
Proof. intros. unfold next_cursor. zif; unfold PID_MAX in *; lia. Qed.

Lemma nth_pid_onto c p :
  2 <= p < PID_MAX -> exists k, 0 <= k < PID_MAX - 2 /\ nth_pid c k = p.
Proof.
  intros Hp. exists ((p - c) mod (PID_MAX - 2)). unfold nth_pid, PID_MAX in *.
  split; [apply Z.mod_pos_bound; lia|].
  rewrite Zplus_mod_idemp_r. replace (c - 2 + (p - c)) with (p - 2) by lia.
  rewrite Z.mod_small by lia. lia.
Qed.

Lemma nth_pid_inj c j k :
  nth_pid c j = nth_pid c k -> 0 <= j < PID_MAX - 2 -> 0 <= k < PID_MAX - 2 -> j = k.
Proof.
  unfold nth_pid. generalize (c - 2) as d. intros d H Hj Hk. unfold PID_MAX in *.
  change (32768 - 2) with 32766 in *.
  pose proof (Z.div_mod (d + j) 32766). pose proof (Z.div_mod (d + k) 32766).
  pose proof (Z.mod_pos_bound (d + j) 32766). lia.
Qed.

Lemma pid_scan_spec n s :
  pid_wf s ->
  (exists s', pid_scan n s = (0, s') /\ pid_wf s' /\ (forall q, taken s' q = taken s q) /\
     forall k, 0 <= k < Z.of_nat n -> taken s (nth_pid (pid_cursor s) k) = true) \/
  (exists p s' k, pid_scan n s = (p, s') /\ 2 <= p < PID_MAX /\ taken s p = false /\
     0 <= k < Z.of_nat n /\ p = nth_pid (pid_cursor s) k /\
     (forall j, 0 <= j < k -> taken s (nth_pid (pid_cursor s) j) = true) /\
     (forall q, taken s' q = bool_decide (q = p) || taken s q) /\
     pid_cursor s' = next_cursor p).
Proof.
  revert s. induction n as [|n IH]; intros s Hwf; cbn [pid_scan].
  { left. exists s. do 3 (split; [done|]). lia. }
  pose proof (Z.mod_pos_bound (pid_cursor s) 32). rewrite bit_shift_u32 by lia.
  cbn [pid_bitmap pid_cursor]. rewrite land_one_shift by lia.
  fold (taken s (pid_cursor s)). destruct (taken s (pid_cursor s)) eqn:E.
  - set (s1 := PidState _ _).
    assert (Hwf1 : pid_wf s1) by (by apply next_cursor_range).
    assert (Hn : forall k, nth_pid (pid_cursor s1) k = nth_pid (pid_cursor s) (k + 1)).
    { intros k. by apply nth_pid_next. }
    assert (Hall : forall k, (1 <= k -> taken s (nth_pid (pid_cursor s1) (k - 1)) = true) ->
              0 <= k -> taken s (nth_pid (pid_cursor s) k) = true).
    { intros k Hk Hk0. destruct (decide (k = 0)) as [->|]; [by rewrite nth_pid_0|].
      rewrite <- Hk by lia. rewrite Hn. do 2 f_equal. lia. }
    destruct (IH s1 Hwf1) as [(s' & Hr & Hw & Hq & Hk)|(p & s' & k & Hr & Hp & Hf & Hk & Hpk & Hj & Hq & Hc)].
    + left. exists s'. repeat split; try done; try apply Hw.
      intros k Hk'. apply Hall; [|lia]. intros. apply Hk. lia.
    + right. exists p, s', (k + 1). repeat split; try done; try lia.
      * by rewrite Hpk, Hn.
      * intros j Hj'. apply Hall; [|lia]. intros. apply Hj. lia.
  - right. exists (pid_cursor s). eexists _, 0. split; [done|].
    repeat split; try apply Hwf; try done; try lia.
    + by rewrite nth_pid_0.
    + intros q. apply (taken_set s).
Qed.

(** Pid_alloc returns a PID in [2, PID_MAX) that was free, marks it taken and
    changes no other PID; it returns 0 exactly when every PID is taken. *)
Theorem pid_alloc_fresh s :
  pid_wf s ->
  let '(p, s') := pid_alloc s in
  pid_wf s' /\
  (p = 0 <-> forall q, 2 <= q < PID_MAX -> taken s q = true) /\
  (p <> 0 -> 2 <= p < PID_MAX /\ taken s p = false /\
     forall q, taken s' q = bool_decide (q = p) || taken s q).
Proof.
  intros Hwf. unfold pid_alloc.
  destruct (pid_scan_spec (Z.to_nat (PID_MAX - 2)) s Hwf)
    as [(s' & -> & Hw & Hq & Hk)|(p & s' & k & -> & Hp & Hf & Hk & Hpk & Hj & Hq & Hc)].
  - split; [done|]. split; [|done]. split; [|done]. intros _ q Hqr.
    destruct (nth_pid_onto (pid_cursor s) q Hqr) as (k & Hk1 & <-). apply Hk. lia.
  - split; [unfold pid_wf; rewrite Hc; by apply next_cursor_range|]. split; [|done].
    split; [lia|]. intros Hall. rewrite Hall in Hf by done. done.
Qed.

(** The state after pid_init and two allocations. *)
Definition demo_pids : pid_state := (pid_alloc (pid_alloc (pid_init (PidState (fun _ => 0) 2))).2).2.

Lemma pid_alloc_fresh_witness :
  (pid_alloc demo_pids).1 = 4 /\
  let '(p, s') := pid_alloc demo_pids in
  pid_wf s' /\
  (p = 0 <-> forall q, 2 <= q < PID_MAX -> taken demo_pids q = true) /\
  (p <> 0 -> 2 <= p < PID_MAX /\ taken demo_pids p = false /\
     forall q, taken s' q = bool_decide (q = p) || taken demo_pids q).
Proof.
  split; [vm_compute; reflexivity|].
  apply (pid_alloc_fresh demo_pids). vm_compute. split; congruence.
Defined.

(** A PID that is freed right after it was allocated is not handed out by
    the next allocation as long as any other PID is free: the cursor has to go
    round the whole PID space first. *)
Theorem pid_no_immediate_reuse s q :
  pid_wf s -> (pid_alloc s).1 <> 0 ->
  2 <= q < PID_MAX -> q <> (pid_alloc s).1 -> taken s q = false ->
  (pid_alloc (pid_free (pid_alloc s).1 (pid_alloc s).2)).1 <> (pid_alloc s).1.
Proof.
  intros Hwf Hp0 Hq Hne Hfree. unfold pid_alloc at 2 3 4. unfold pid_alloc in Hp0, Hne.
  destruct (pid_scan_spec (Z.to_nat (PID_MAX - 2)) s Hwf)
    as [(s' & E & _)|(p & s' & k & E & Hp & Hf & Hk & Hpk & Hj & Ht & Hc)];
    rewrite E in *; cbn [fst snd] in *; [done|]. clear Hj Hk Hpk E.
  set (s2 := pid_free p s').
  assert (Hc2 : pid_cursor s2 = next_cursor p).
  { rewrite <- Hc. subst s2. unfold pid_free. by repeat zif. }
  assert (Hwf2 : pid_wf s2) by (unfold pid_wf; rewrite Hc2; by apply next_cursor_range).
  destruct (nth_pid_onto (pid_cursor s2) q Hq) as (kq & Hkq & Hnq).
  assert (Hfq : taken s2 q = false).
  { subst s2. rewrite taken_free, Ht, Hfree by done. by rewrite !bool_decide_false. }
  unfold pid_alloc. destruct (pid_scan_spec (Z.to_nat (PID_MAX - 2)) s2 Hwf2)
    as [(s3 & E & _)|(r & s3 & k3 & E & Hr & Hf3 & Hk3 & -> & Hj3 & _)]; rewrite E; cbn [fst].
  { lia. }
  assert (Hle : k3 <= kq).
  { destruct (Z.le_gt_cases k3 kq); [done|]. specialize (Hj3 kq). rewrite Hnq in Hj3.
    rewrite Hj3 in Hfq by lia. done. }
  assert (Hlast : nth_pid (pid_cursor s2) (PID_MAX - 3) = p).
  { rewrite Hc2, nth_pid_next by done. unfold nth_pid, PID_MAX in *.
    replace (p - 2 + (32768 - 3 + 1)) with (p - 2 + 1 * (32768 - 2)) by lia.
    rewrite Z.mod_add, Z.mod_small by lia. lia. }
  assert (Hkl : kq <> PID_MAX - 3) by (intros ->; congruence).
  intros Heq. rewrite <- Hlast in Heq. apply nth_pid_inj in Heq; lia.
Qed.

Lemma pid_no_immediate_reuse_witness :
  (pid_alloc (pid_free (pid_alloc demo_pids).1 (pid_alloc demo_pids).2)).1 <> (pid_alloc demo_pids).1.
Proof.
  apply (pid_no_immediate_reuse demo_pids 9); vm_compute; try split; congruence.
Defined.
