(* ===== verification/Kheap.v ===== *)
(** The kernel heap, [kernel/mm/kheap.c]: blocks with a 32-byte header and a
    16-byte footer tile [heap_start, heap_end); free blocks are on a doubly
    linked list threaded through their headers. The block structures live in the
    byte memory at their real offsets, so a header that is reused as payload is
    overwritten like in the kernel.

    The pages under the heap come from the page layer (pmm.c and vmm.c), which
    is the interface [PageSource]. *)

From stdpp Require Import base numbers list sets gmap.
From Stdlib Require Import ZArith Lia.
From S2P Require Import Prelude.

(** * The page layer as the heap sees it *)

(** pmm_alloc_page, pmm_free_page, vmm_map_page, vmm_unmap_page and
    vmm_get_physical over a state [S]; addresses are integers, 0 is NULL. *)
Class PageSource (S : Type) := {
  ps_alloc : S -> Z * S;
  ps_free : Z -> S -> S;
  ps_map : Z -> Z -> Z -> S -> Z * S;
  ps_unmap : Z -> S -> S;
  ps_phys : Z -> S -> Z;
}.

(** * Constants and layout (kheap.h) *)

Definition PAGE : Z := 4096.
Definition PAGE_PRESENT : Z := 1.
Definition PAGE_WRITABLE : Z := 2.
Definition HEAP_START_VIRTUAL : Z := 0xFFFF900000000000.
Definition HEAP_INITIAL_PAGES : Z := 4.
Definition HEAP_INITIAL_SIZE : Z := HEAP_INITIAL_PAGES * PAGE.
Definition HEAP_MIN_BLOCK : Z := 64.
Definition HEAP_ALIGNMENT : Z := 16.
Definition KHEAP_MAGIC_FREE : Z := 0x1234F4EE.
Definition KHEAP_MAGIC_USED : Z := 0x5678D5ED.
Definition KHEAP_MAGIC_TAIL : Z := 0x9ABCDA1.

(** sizeof(block_header_t) and sizeof(block_footer_t). *)
Definition HDR : Z := 32.
Definition FTR : Z := 16.

(** Fields of block_header_t at [b]. *)
Definition h_magic (m : mem) (b : Z) : Z := ld32 m b.
Definition h_size (m : mem) (b : Z) : Z := ld32 m (b + 4).
Definition h_allocated (m : mem) (b : Z) : Z := ld8 m (b + 8).
Definition h_next (m : mem) (b : Z) : Z := ld64 m (b + 16).
Definition h_prev (m : mem) (b : Z) : Z := ld64 m (b + 24).

Definition set_magic (b v : Z) (m : mem) : mem := st32 m b v.
Definition set_size (b v : Z) (m : mem) : mem := st32 m (b + 4) v.
Definition set_allocated (b v : Z) (m : mem) : mem := st8 m (b + 8) v.
Definition set_next (b v : Z) (m : mem) : mem := st64 m (b + 16) v.
Definition set_prev (b v : Z) (m : mem) : mem := st64 m (b + 24) v.

(** Fields of block_footer_t at [f]. *)
Definition f_magic (m : mem) (f : Z) : Z := ld32 m f.
Definition f_size (m : mem) (f : Z) : Z := ld32 m (f + 4).
Definition f_header (m : mem) (f : Z) : Z := ld64 m (f + 8).

Definition set_footer (f magic size header : Z) (m : mem) : mem :=
  st64 (st32 (st32 m f magic) (f + 4) size) (f + 8) header.

(** The statics of kheap.c together with the memory and the page layer. *)
Record heap (S : Type) := Heap {
  hm : mem;
  free_list_head : Z;
  heap_start : Z;
  heap_end : Z;
  heap_max : Z;
  heap_used : Z;
  bad_frees : Z;
  pages : S;
}.
Arguments Heap {S}.
Arguments hm {S}.
Arguments free_list_head {S}.
Arguments heap_start {S}.
Arguments heap_end {S}.
Arguments heap_max {S}.
Arguments heap_used {S}.
Arguments bad_frees {S}.
Arguments pages {S}.

Section ops.
Context {S : Type}.
Implicit Types h : heap S.

Definition with_mem (m : mem) h : heap S :=
  Heap m (free_list_head h) (heap_start h) (heap_end h) (heap_max h) (heap_used h)
       (bad_frees h) (pages h).
Definition with_head (p : Z) h : heap S :=
  Heap (hm h) p (heap_start h) (heap_end h) (heap_max h) (heap_used h) (bad_frees h) (pages h).
Definition with_used (u : Z) h : heap S :=
  Heap (hm h) (free_list_head h) (heap_start h) (heap_end h) (heap_max h) u (bad_frees h) (pages h).
Definition with_bad_frees (n : Z) h : heap S :=
  Heap (hm h) (free_list_head h) (heap_start h) (heap_end h) (heap_max h) (heap_used h) n (pages h).
Definition on_mem (f : mem -> mem) h : heap S := with_mem (f (hm h)) h.

Definition align_up (value alignment : Z) : Z :=
  u64 (Z.land (u64 (value + alignment - 1)) (u64 (Z.lnot (u64 (alignment - 1))))).

Definition get_footer (m : mem) (header : Z) : Z := header + h_size m header - FTR.

Definition remove_from_free_list (block : Z) h : heap S :=
  let h := if truth (h_prev (hm h) block)
           then on_mem (set_next (h_prev (hm h) block) (h_next (hm h) block)) h
           else with_head (h_next (hm h) block) h in
  let h := if truth (h_next (hm h) block)
           then on_mem (set_prev (h_next (hm h) block) (h_prev (hm h) block)) h else h in
  on_mem (set_prev block 0) (on_mem (set_next block 0) h).

Definition add_to_free_list (block : Z) h : heap S :=
  let h := on_mem (set_next block (free_list_head h)) h in
  let h := on_mem (set_prev block 0) h in
  let h := if truth (free_list_head h)
           then on_mem (set_prev (free_list_head h) block) h else h in
  with_head block h.

(** The scan visits each free block once; [fuel] bounds it. [Some 0] is NULL. *)
Fixpoint find_from (fuel : nat) (m : mem) (current size : Z) : option Z :=
  match fuel with
  | O => None
  | Datatypes.S fuel =>
      if current =? 0 then Some 0
      else if (h_magic m current =? KHEAP_MAGIC_FREE) && (size <=? h_size m current)
      then Some current
      else find_from fuel m (h_next m current) size
  end.

(** No more blocks than this fit in the heap. *)
Definition list_fuel h : nat :=
  Datatypes.S (Z.to_nat ((heap_end h - heap_start h) / HEAP_MIN_BLOCK)).

Definition find_free_block (size : Z) h : option Z :=
  find_from (list_fuel h) (hm h) (free_list_head h) size.

(** magic, size, allocated, next and prev of a fresh free block, and its
    footer: the sequence kheap_init, kmalloc_locked and split_block write. *)
Definition write_free_block (b size : Z) (m : mem) : mem :=
  let m := set_magic b KHEAP_MAGIC_FREE m in
  let m := set_size b size m in
  let m := set_allocated b 0 m in
  let m := set_next b 0 m in
  let m := set_prev b 0 m in
  set_footer (get_footer m b) KHEAP_MAGIC_TAIL size b m.

Definition split_block (block size : Z) h : heap S :=
  let remaining := u64 (h_size (hm h) block - size) in
  if HDR + FTR + HEAP_MIN_BLOCK <=? remaining then
    let new_block := block + size in
    let h := on_mem (write_free_block new_block remaining) h in
    let h := on_mem (set_size block size) h in
    let footer := get_footer (hm h) block in
    let h := on_mem (fun m => st64 (st32 m (footer + 4) size) (footer + 8) block) h in
    add_to_free_list new_block h
  else h.

(** The two merges of coalesce_block: [c], right after [b], leaves the list and
    becomes part of [b]. *)
Definition absorb_m (b c : Z) (m : mem) : mem :=
  let m1 := set_size b (h_size m b + h_size m c) m in
  set_footer (get_footer m1 b) KHEAP_MAGIC_TAIL (h_size m1 b) b m1.

Definition absorb (b c : Z) h : heap S := on_mem (absorb_m b c) (remove_from_free_list c h).

Definition coalesce_block (block : Z) h : heap S :=
  if negb (h_magic (hm h) block =? KHEAP_MAGIC_FREE) || negb (h_allocated (hm h) block =? 0)
  then h else
  let next_block := block + h_size (hm h) block in
  let h :=
    if (next_block <? heap_end h) && (h_magic (hm h) next_block =? KHEAP_MAGIC_FREE)
       && (h_allocated (hm h) next_block =? 0)
    then absorb block next_block h else h in
  if heap_start h <? block then
    let prev_footer := block - FTR in
    if f_magic (hm h) prev_footer =? KHEAP_MAGIC_TAIL then
      let prev_block := f_header (hm h) prev_footer in
      if (h_magic (hm h) prev_block =? KHEAP_MAGIC_FREE)
         && (h_allocated (hm h) prev_block =? 0)
      then absorb prev_block block h else h
    else h
  else h.

Definition kfree_locked (ptr : Z) h : heap S :=
  if ptr =? 0 then h else
  let header := ptr - HDR in
  if negb (h_magic (hm h) header =? KHEAP_MAGIC_USED)
  then with_bad_frees (u64 (bad_frees h + 1)) h else
  let footer := get_footer (hm h) header in
  if negb (f_magic (hm h) footer =? KHEAP_MAGIC_TAIL) || negb (f_header (hm h) footer =? header)
  then with_bad_frees (u64 (bad_frees h + 1)) h else
  let h := with_used (u64 (heap_used h - h_size (hm h) header)) h in
  let h := on_mem (set_magic header KHEAP_MAGIC_FREE) h in
  let h := on_mem (set_allocated header 0) h in
  let h := add_to_free_list header h in
  coalesce_block header h.

(** kfree is kfree_locked between local_irq_save and local_irq_restore. *)
Definition kfree (ptr : Z) h : heap S := kfree_locked ptr h.

Context `{PageSource S}.

(** Undo of a failed expansion: the [n] pages from [u] on are unmapped and their
    frames freed. *)
Fixpoint expand_undo (n : nat) (u : Z) (s : S) : S :=
  match n with
  | O => s
  | Datatypes.S n =>
      let up := ps_phys u s in
      let s := ps_unmap u s in
      let s := if truth up then ps_free up s else s in
      expand_undo n (u + PAGE) s
  end.

(** The mapping loop of kheap_expand over [n] pages, [k] of them already done. *)
Fixpoint expand_map (n k : nat) (old_end addr : Z) (s : S) : bool * S :=
  match n with
  | O => (true, s)
  | Datatypes.S n =>
      let '(phys_page, s) := ps_alloc s in
      if phys_page =? 0 then (false, expand_undo k old_end s) else
      let '(rc, s) := ps_map addr phys_page (Z.lor PAGE_PRESENT PAGE_WRITABLE) s in
      if negb (rc =? 0)
      then (false, expand_undo k old_end (ps_free phys_page s))
      else expand_map n (Datatypes.S k) old_end (addr + PAGE) s
  end.

(** Number of iterations of [for (addr = old_end; addr < new_end; addr += PAGE)]. *)
Definition expand_count (old_end new_end : Z) : nat := Z.to_nat ((new_end - old_end + PAGE - 1) / PAGE).

(** Returns the old end, or 0 (NULL) with the heap bounds unchanged. *)
Definition kheap_expand (npages : Z) h : Z * heap S :=
  let bytes_needed := u64 (npages * PAGE) in
  let old_end := heap_end h in
  let new_end := u64 (heap_end h + bytes_needed) in
  let '(ok, s) := expand_map (expand_count old_end new_end) O old_end old_end (pages h) in
  if ok then
    (old_end, Heap (hm h) (free_list_head h) (heap_start h) new_end
                   (if heap_max h <? new_end then new_end else heap_max h)
                   (heap_used h) (bad_frees h) s)
  else (0, Heap (hm h) (free_list_head h) (heap_start h) (heap_end h) (heap_max h)
                (heap_used h) (bad_frees h) s).

(** The block size a request of [size] bytes needs. *)
Definition request_size (size : Z) : Z :=
  let aligned_size := align_up size HEAP_ALIGNMENT in
  let total_size := u64 (HDR + aligned_size + FTR) in
  if total_size <? HEAP_MIN_BLOCK then HEAP_MIN_BLOCK else total_size.

(** The tail of kmalloc_locked, once a block is chosen. *)
Definition take_block (block total_size : Z) h : Z * heap S :=
  let h := remove_from_free_list block h in
  let h := split_block block total_size h in
  let h := on_mem (set_magic block KHEAP_MAGIC_USED) h in
  let h := on_mem (set_allocated block 1) h in
  let h := on_mem (fun m => set_footer (get_footer m block) KHEAP_MAGIC_TAIL
                              (h_size m block) block m) h in
  let h := with_used (u64 (heap_used h + h_size (hm h) block)) h in
  (block + HDR, h).

(** [None] only when the free-list scan runs out of fuel. *)
Definition kmalloc_locked (size : Z) h : option (Z * heap S) :=
  if size =? 0 then Some (0, h) else
  let total_size := request_size size in
  block ← find_free_block total_size h;
  if block =? 0 then
    let pages_needed := u64 (total_size + PAGE - 1) / PAGE in
    let pages_needed := if pages_needed <? 1 then 1 else pages_needed in
    let '(new_region, h) := kheap_expand pages_needed h in
    if new_region =? 0 then Some (0, h) else
    let h := on_mem (write_free_block new_region (u64 (pages_needed * PAGE))) h in
    let h := add_to_free_list new_region h in
    Some (take_block new_region total_size h)
  else Some (take_block block total_size h).

Definition kmalloc (size : Z) h : option (Z * heap S) := kmalloc_locked size h.

Definition kheap_test_expand (npages : Z) h : Z * heap S := kheap_expand npages h.

Definition kcalloc (num size : Z) h : option (Z * heap S) :=
  let total := u64 (num * size) in
  if negb (num =? 0) && negb (total / num =? size) then Some (0, h) else
  r ← kmalloc total h;
  let '(ptr, h) := (r : Z * heap S) in
  Some (ptr, if truth ptr then on_mem (fun m => mfill m ptr total 0) h else h).

Definition kmalloc_aligned (size alignment : Z) h : option (Z * heap S) :=
  let alignment := if alignment <? HEAP_ALIGNMENT then HEAP_ALIGNMENT else alignment in
  let total_size := u64 (size + alignment + HDR + FTR) in
  r ← kmalloc total_size h;
  let '(raw, h) := (r : Z * heap S) in
  if raw =? 0 then Some (0, h) else
  let aligned_addr := align_up raw alignment in
  if aligned_addr =? raw then Some (raw, h) else Some (aligned_addr, h).

Definition krealloc (ptr new_size : Z) h : option (Z * heap S) :=
  if ptr =? 0 then kmalloc new_size h else
  if new_size =? 0 then Some (0, kfree ptr h) else
  let header := ptr - HDR in
  if negb (h_magic (hm h) header =? KHEAP_MAGIC_USED) then Some (0, h) else
  let current_size := u64 (h_size (hm h) header - HDR - FTR) in
  if new_size <=? current_size then Some (ptr, h) else
  r ← kmalloc new_size h;
  let '(new_ptr, h) := (r : Z * heap S) in
  if new_ptr =? 0 then Some (0, h) else
  let h := on_mem (fun m => mcopy m new_ptr ptr current_size) h in
  Some (new_ptr, kfree ptr h).

(** kheap_init: [None] is kernel_panic. *)
Fixpoint init_map (n : nat) (virt_addr : Z) (s : S) : option S :=
  match n with
  | O => Some s
  | Datatypes.S n =>
      let '(phys_page, s) := ps_alloc s in
      if phys_page =? 0 then None else
      let '(rc, s) := ps_map virt_addr phys_page (Z.lor PAGE_PRESENT PAGE_WRITABLE) s in
      if negb (rc =? 0) then None else init_map n (virt_addr + PAGE) s
  end.

Definition kheap_init h : option (heap S) :=
  s ← init_map (Z.to_nat HEAP_INITIAL_PAGES) HEAP_START_VIRTUAL (pages h);
  let m := write_free_block HEAP_START_VIRTUAL HEAP_INITIAL_SIZE (hm h) in
  Some (Heap m HEAP_START_VIRTUAL HEAP_START_VIRTUAL (HEAP_START_VIRTUAL + HEAP_INITIAL_SIZE)
             (HEAP_START_VIRTUAL + HEAP_INITIAL_SIZE) 0 (bad_frees h) s).

(** * Statistics and the integrity walker *)

Definition kheap_get_used h : Z := heap_used h.
Definition kheap_get_total h : Z := u64 (heap_end h - heap_start h).
Definition kheap_get_bad_frees h : Z := bad_frees h.

Fixpoint free_from (fuel : nat) (m : mem) (current free : Z) : option Z :=
  match fuel with
  | O => None
  | Datatypes.S fuel =>
      if current =? 0 then Some free
      else free_from fuel m (h_next m current)
             (if h_magic m current =? KHEAP_MAGIC_FREE
              then u64 (free + (h_size m current - HDR - FTR)) else free)
  end.

Definition kheap_get_free h : option Z := free_from (list_fuel h) (hm h) (free_list_head h) 0.

(** The per-block test of kheap_check. *)
Definition block_ok (m : mem) (hend addr : Z) : bool :=
  let ft := get_footer m addr in
  ((h_magic m addr =? KHEAP_MAGIC_USED) || (h_magic m addr =? KHEAP_MAGIC_FREE))
  && (HEAP_MIN_BLOCK <=? h_size m addr)
  && (Z.land (h_size m addr) (HEAP_ALIGNMENT - 1) =? 0)
  && (addr + h_size m addr <=? hend)
  && (h_allocated m addr =? b2z (h_magic m addr =? KHEAP_MAGIC_USED))
  && (f_magic m ft =? KHEAP_MAGIC_TAIL) && (f_size m ft =? h_size m addr)
  && (f_header m ft =? addr).

(** The walk over the tiling: the used bytes, or the first bad block. *)
Fixpoint check_walk (fuel : nat) (m : mem) (hend addr used : Z) : option (Z + Z) :=
  match fuel with
  | O => None
  | Datatypes.S fuel =>
      if addr <? hend then
        if block_ok m hend addr then
          check_walk fuel m hend (addr + h_size m addr)
            (if h_magic m addr =? KHEAP_MAGIC_USED then u64 (used + h_size m addr) else used)
        else Some (inr addr)
      else Some (inl used)
  end.

(** The walk over the free list, with the 2^20 guard: the first bad entry. *)
Fixpoint check_list (fuel : nat) (m : mem) (hs he c guard : Z) : option (option Z) :=
  match fuel with
  | O => None
  | Datatypes.S fuel =>
      if c =? 0 then Some None
      else if (c <? hs) || (he <=? c) || negb (h_magic m c =? KHEAP_MAGIC_FREE)
              || (2 ^ 20 <? guard + 1)
      then Some (Some c)
      else check_list fuel m hs he (h_next m c) (guard + 1)
  end.

(** The number of errors and the bad address (0 for none). *)
Definition kheap_check h : option (Z * Z) :=
  w ← check_walk (list_fuel h) (hm h) (heap_end h) (heap_start h) 0;
  match (w : Z + Z) with
  | inr bad => Some (1, bad)
  | inl used =>
      l ← check_list (Z.to_nat (2 ^ 20 + 2)) (hm h) (heap_start h) (heap_end h) (free_list_head h) 0;
      match (l : option Z) with
      | Some c => Some (1, c)
      | None => Some (b2z (negb (used =? heap_used h)), 0)
      end
  end.

End ops.

(** * Frames

    [only m m' P]: the bytes that differ between [m] and [m'] satisfy [P]. *)

Definition only (m m' : mem) (P : Z -> Prop) : Prop := forall x, ~ P x -> m' x = m x.

(** Byte [x] belongs to the next/prev fields of a block of [l]. *)
Definition links (l : list Z) (x : Z) : Prop := exists b, b ∈ l /\ b + 16 <= x < b + 32.

Lemma only_refl m P : only m m P.
Proof. by intros x. Qed.

Lemma only_trans m1 m2 m3 P : only m1 m2 P -> only m2 m3 P -> only m1 m3 P.
Proof. intros H1 H2 x Hx. rewrite H2, H1 by done. done. Qed.

Lemma only_mono m m' (P Q : Z -> Prop) : (forall x, P x -> Q x) -> only m m' P -> only m m' Q.
Proof. intros HPQ H x Hx. apply H. intros HP. by apply Hx, HPQ. Qed.

Lemma only_st n m a v (P : Z -> Prop) :
  (forall x, a <= x < a + Z.of_nat n -> P x) -> only m (st n m a v) P.
Proof.
  intros H x Hx. apply st_frame. destruct (decide (a <= x < a + Z.of_nat n)); [|lia].
  by destruct Hx; apply H.
Qed.

Lemma ld_only n m m' a P :
  only m m' P -> (forall x, a <= x < a + Z.of_nat n -> ~ P x) -> ld n m' a = ld n m a.
Proof. intros Ho H. apply ld_ext. intros x Hx. by apply Ho, H. Qed.

(** Evaluate a load over stores: same field, or a disjoint one. *)
Ltac mem_eval :=
  unfold h_magic, h_size, h_allocated, h_next, h_prev, f_magic, f_size, f_header,
    set_magic, set_size, set_allocated, set_next, set_prev, set_footer;
  repeat first
    [ rewrite ld64_st64 by lia | rewrite ld32_st32 | rewrite ld8_st8
    | rewrite ld_st_disj by lia ].

(** * The free list *)

(** The doubly linked segment [l]: it starts at [cur], whose back pointer is
    [prev], and ends with [prev'] as last node and [cur'] as next pointer. *)
Fixpoint seg (m : mem) (prev cur : Z) (l : list Z) (prev' cur' : Z) : Prop :=
  match l with
  | [] => prev = prev' /\ cur = cur'
  | b :: l => cur = b /\ h_prev m b = prev /\ seg m b (h_next m b) l prev' cur'
  end.

Definition dll (m : mem) (head : Z) (l : list Z) : Prop := exists p, seg m 0 head l p 0.

Lemma seg_app m l1 l2 p c p' c' :
  seg m p c (l1 ++ l2) p' c' <-> exists q d, seg m p c l1 q d /\ seg m q d l2 p' c'.
Proof.
  revert p c. induction l1 as [|b l1 IH]; intros p c; cbn [app seg].
  - split; [by intros; exists p, c|]. by intros (q & d & [-> ->] & ?).
  - rewrite IH. split.
    + intros (-> & ? & q & d & ? & ?). exists q, d. done.
    + intros (q & d & (-> & ? & ?) & ?). split; [done|]. split; [done|]. eauto.
Qed.

Lemma seg_only m m' p c l p' c' P :
  only m m' P -> (forall b x, b ∈ l -> b + 16 <= x < b + 32 -> ~ P x) ->
  seg m p c l p' c' -> seg m' p c l p' c'.
Proof.
  intros Ho. revert p c. induction l as [|b l IH]; intros p c Hl; cbn [seg]; [done|].
  intros (-> & Hp & Hs).
  assert (Hb : forall x, b + 16 <= x < b + 32 -> ~ P x) by (intros; eapply Hl; [left|done]).
  unfold h_prev, h_next in *. rewrite !(ld_only 8 m m' _ P Ho) by (intros; apply Hb; lia).
  split; [done|]. split; [done|]. apply IH; [|done]. intros. eapply Hl; [by right|done].
Qed.

(** Free blocks are distinct non-null addresses at least 32 bytes apart. *)
Record spaced (l : list Z) : Prop := {
  sp_nodup : NoDup l;
  sp_pos : forall b, b ∈ l -> 0 < b < 2 ^ 64;
  sp_apart : forall b c, b ∈ l -> c ∈ l -> b <> c -> b + 32 <= c \/ c + 32 <= b;
}.

Lemma seg_first m p b l p' c' : seg m p b l p' c' -> l <> [] -> hd 0 l = b.
Proof. destruct l; [done|]. by intros [-> _]. Qed.

Lemma seg_last m p c l p' c' : seg m p c l p' c' -> l = [] /\ p' = p \/ p' ∈ l.
Proof.
  revert p c. induction l as [|b l IH]; intros p c; cbn [seg].
  - intros [-> _]. by left.
  - intros (-> & _ & Hs). right. destruct (IH _ _ Hs) as [[-> ->]|Hin]; [left|by right].
Qed.

(** Redirecting the next pointer of the last node. *)
Lemma seg_set_next m p c l b d d' :
  seg m p c (l ++ [b]) b d -> spaced (l ++ [b]) -> 0 <= d' < 2 ^ 64 ->
  seg (set_next b d' m) p c (l ++ [b]) b d'.
Proof.
  intros Hs Hsp Hd. apply seg_app in Hs as (q & e & H1 & H2). apply seg_app.
  cbn [seg] in *. destruct H2 as (-> & Hq & _ & _). exists q, b.
  assert (Ho : only m (set_next b d' m) (fun x => b + 16 <= x < b + 24))
    by (apply only_st; lia).
  split.
  - eapply seg_only; [exact Ho| |exact H1]. intros c' x Hc Hx1 Hx2.
    destruct Hsp as [Hn _ Ha]. apply NoDup_app in Hn as (_ & Hn & _).
    destruct (Ha c' b); [set_solver..| |lia|lia].
    intros ->. apply (Hn b Hc). left.
  - split; [done|]. mem_eval. done.
Qed.

(** Redirecting the back pointer of the first node. *)
Lemma seg_set_prev m p q b l p' c' :
  seg m p b (b :: l) p' c' -> spaced (b :: l) -> 0 <= q < 2 ^ 64 ->
  seg (set_prev b q m) q b (b :: l) p' c'.
Proof.
  intros (_ & Hp & Hs) Hsp Hq. cbn [seg].
  assert (Ho : only m (set_prev b q m) (fun x => b + 24 <= x < b + 32))
    by (apply only_st; lia).
  split; [done|]. split; [mem_eval; done|].
  replace (h_next (set_prev b q m) b) with (h_next m b) by (mem_eval; done).
  eapply seg_only; [exact Ho| |exact Hs]. intros d x Hc Hx1 Hx2.
  destruct Hsp as [Hn _ Ha]. apply NoDup_cons in Hn as [Hn _].
  destruct (Ha d b); [set_solver..| |lia|lia]. intros ->. done.
Qed.

(** * The tiling

    A block of the abstract heap: its size, whether it is allocated and whether
    it is on the free list. Between two steps of an operation a block can be
    neither: its header and footer are then being written. *)

Record blk := Blk { bsz : Z; bused : bool; blisted : bool }.

Fixpoint total (bs : list blk) : Z :=
  match bs with [] => 0 | b :: bs => bsz b + total bs end.

(** Addresses of the listed blocks, and address and size of the used ones, of a
    tiling that starts at [a]. *)
Fixpoint frees (a : Z) (bs : list blk) : list Z :=
  match bs with
  | [] => []
  | b :: bs => (if blisted b then [a] else []) ++ frees (a + bsz b) bs
  end.

Fixpoint useds (a : Z) (bs : list blk) : list (Z * Z) :=
  match bs with
  | [] => []
  | b :: bs => (if bused b then [(a, bsz b)] else []) ++ useds (a + bsz b) bs
  end.

(** Byte [x] lies in a block that is not allocated. *)
Fixpoint unused (a : Z) (bs : list blk) (x : Z) : Prop :=
  match bs with
  | [] => False
  | b :: bs => (bused b = false /\ a <= x < a + bsz b) \/ unused (a + bsz b) bs x
  end.

(** Header and footer of the block at [a]. *)
Record meta_at (m : mem) (a : Z) (b : blk) : Prop := {
  ma_magic : h_magic m a = if bused b then KHEAP_MAGIC_USED else KHEAP_MAGIC_FREE;
  ma_size : h_size m a = bsz b;
  ma_alloc : h_allocated m a = b2z (bused b);
  ma_fmagic : f_magic m (a + bsz b - FTR) = KHEAP_MAGIC_TAIL;
  ma_fsize : f_size m (a + bsz b - FTR) = bsz b;
  ma_fheader : f_header m (a + bsz b - FTR) = a;
}.

Definition blk_wf (b : blk) : Prop :=
  HEAP_MIN_BLOCK <= bsz b /\ bsz b mod 16 = 0 /\ (blisted b = true -> bused b = false).

Fixpoint tiles (m : mem) (a : Z) (bs : list blk) : Prop :=
  match bs with
  | [] => True
  | b :: bs => (bused b || blisted b = true -> meta_at m a b) /\ tiles m (a + bsz b) bs
  end.

(** What the heap is between two steps of an operation. *)
Record ginv (m : mem) (head s e : Z) (bs : list blk) : Prop := {
  g_tiles : tiles m s bs;
  g_wf : Forall blk_wf bs;
  g_end : e = s + total bs;
  g_list : exists fl, dll m head fl /\ fl ≡ₚ frees s bs;
  g_bounds : 0 < s /\ e < 2 ^ 64 /\ e - s < 2 ^ 32;
}.

Lemma total_app l1 l2 : total (l1 ++ l2) = total l1 + total l2.
Proof. induction l1; cbn [app total]; lia. Qed.

Lemma frees_app a l1 l2 : frees a (l1 ++ l2) = frees a l1 ++ frees (a + total l1) l2.
Proof.
  revert a. induction l1 as [|b l1 IH]; intros a; cbn [app frees total].
  - by rewrite Z.add_0_r.
  - by rewrite IH, app_assoc, Z.add_assoc.
Qed.

Lemma useds_app a l1 l2 : useds a (l1 ++ l2) = useds a l1 ++ useds (a + total l1) l2.
Proof.
  revert a. induction l1 as [|b l1 IH]; intros a; cbn [app useds total].
  - by rewrite Z.add_0_r.
  - by rewrite IH, app_assoc, Z.add_assoc.
Qed.

Lemma unused_app a l1 l2 x :
  unused a (l1 ++ l2) x <-> unused a l1 x \/ unused (a + total l1) l2 x.
Proof.
  revert a. induction l1 as [|b l1 IH]; intros a; cbn [app unused total].
  - rewrite Z.add_0_r. tauto.
  - rewrite IH. replace (a + bsz b + total l1) with (a + (bsz b + total l1)) by lia. tauto.
Qed.

Lemma tiles_app m a l1 l2 : tiles m a (l1 ++ l2) <-> tiles m a l1 /\ tiles m (a + total l1) l2.
Proof.
  revert a. induction l1 as [|b l1 IH]; intros a; cbn [app tiles total].
  - rewrite Z.add_0_r. tauto.
  - rewrite IH. replace (a + bsz b + total l1) with (a + (bsz b + total l1)) by lia. tauto.
Qed.

Lemma total_pos bs : Forall blk_wf bs -> 0 <= total bs.
Proof.
  unfold blk_wf, HEAP_MIN_BLOCK. induction 1 as [|b bs (H1 & H2) _ IH]; cbn [total]; lia.
Qed.

Lemma frees_bounds a bs b :
  Forall blk_wf bs -> b ∈ frees a bs -> a <= b /\ b + 64 <= a + total bs.
Proof.
  intros Hwf. revert a.
  induction Hwf as [|c bs [Hc _] Hwf IH]; intros a Hb; cbn [frees total] in *; [set_solver|].
  unfold HEAP_MIN_BLOCK in *. pose proof (total_pos bs Hwf).
  apply elem_of_app in Hb as [Hb|Hb].
  - destruct (blisted c); [|set_solver]. apply list_elem_of_singleton in Hb. lia.
  - apply IH in Hb. lia.
Qed.

Lemma frees_spaced a bs :
  Forall blk_wf bs -> 0 < a -> a + total bs < 2 ^ 64 -> spaced (frees a bs).
Proof.
  intros Hwf Ha He. split.
  - clear Ha He. revert a.
    induction Hwf as [|c bs [Hc _] Hwf IH]; intros a; cbn [frees]; [constructor|].
    destruct (blisted c); [|apply IH]. constructor; [|apply IH].
    intros Hin. apply frees_bounds in Hin; [|done]. unfold HEAP_MIN_BLOCK in *. lia.
  - intros b Hb. apply frees_bounds in Hb; [|done]. lia.
  - clear Ha He. revert a.
    induction Hwf as [|c bs [Hc _] Hwf IH]; intros a x y; cbn [frees]; [set_solver|].
    unfold HEAP_MIN_BLOCK in *.
    assert (Hb := fun z => frees_bounds (a + bsz c) bs z Hwf).
    destruct (blisted c); cbn [app]; [|apply IH]. rewrite !elem_of_cons.
    intros [->|Hx] [->|Hy] Hne; [done| | |by eapply IH].
    + apply Hb in Hy. lia.
    + apply Hb in Hx. lia.
Qed.

Lemma spaced_perm l l' : l ≡ₚ l' -> spaced l -> spaced l'.
Proof.
  intros Hp [H1 H2 H3]. split.
  - by rewrite <- Hp.
  - intros b. rewrite <- Hp. apply H2.
  - intros b c. rewrite <- Hp. apply H3.
Qed.

(** * List operations *)

(** The fields the list operations leave alone. *)
Record same_rest {S} (h h' : heap S) : Prop := {
  sr_start : heap_start h' = heap_start h;
  sr_end : heap_end h' = heap_end h;
  sr_max : heap_max h' = heap_max h;
  sr_used : heap_used h' = heap_used h;
  sr_bad : bad_frees h' = bad_frees h;
  sr_pages : pages h' = pages h;
}.

Lemma same_rest_refl {S} (h : heap S) : same_rest h h.
Proof. done. Qed.

Lemma same_rest_trans {S} (h1 h2 h3 : heap S) : same_rest h1 h2 -> same_rest h2 h3 -> same_rest h1 h3.
Proof. intros [] []. split; congruence. Qed.

Lemma remove_rest {S} b (h : heap S) : same_rest h (remove_from_free_list b h).
Proof. unfold remove_from_free_list. repeat case_match; done. Qed.

Lemma add_rest {S} b (h : heap S) : same_rest h (add_to_free_list b h).
Proof. unfold add_to_free_list. repeat case_match; done. Qed.

#[export] Hint Resolve same_rest_refl remove_rest add_rest : makh.

(** A store into the link fields of a node off the segment keeps it. *)
Lemma seg_set_out m p c l p' c' b v :
  (forall d, d ∈ l -> b + 32 <= d \/ d + 32 <= b) -> seg m p c l p' c' ->
  seg (set_next b v m) p c l p' c' /\ seg (set_prev b v m) p c l p' c'.
Proof.
  intros Hl Hs.
  split; (eapply (seg_only _ _ _ _ _ _ _ (fun x => b + 16 <= x < b + 32));
    [apply only_st; lia| |exact Hs]; intros d x Hd ??; destruct (Hl d Hd); lia).
Qed.

Lemma seg_snoc_last m p c l b p' c' : seg m p c (l ++ [b]) p' c' -> p' = b.
Proof. intros Hs. apply seg_app in Hs as (q & d & _ & (-> & _ & [-> _])). done. Qed.

Lemma spaced_app_apart l1 l2 b c :
  spaced (l1 ++ l2) -> b ∈ l1 -> c ∈ l2 -> b + 32 <= c \/ c + 32 <= b.
Proof.
  intros [Hn _ Ha] Hb Hc. apply NoDup_app in Hn as (_ & Hn & _).
  apply Ha; [set_solver..|]. intros ->. by apply (Hn c).
Qed.

Lemma spaced_app l1 l2 : spaced (l1 ++ l2) -> spaced l1 /\ spaced l2.
Proof.
  intros [Hn Hp Ha]. apply NoDup_app in Hn as (? & _ & ?).
  split; split; try done; intros; (apply Hp || apply Ha); set_solver.
Qed.

Lemma only_link m (b v : Z) l :
  b ∈ l -> only m (set_next b v m) (links l) /\ only m (set_prev b v m) (links l).
Proof. intros Hb. split; apply only_st; intros x Hx; exists b; split; done || lia. Qed.

(** The first half of the removal: the predecessor, or the head, skips [b]. *)
Lemma unlink_pred {S} (h : heap S) l1 q b n l2 p :
  seg (hm h) 0 (free_list_head h) l1 q b -> seg (hm h) b n l2 p 0 ->
  spaced (l1 ++ b :: l2) -> 0 <= n < 2 ^ 64 ->
  let h' := if truth q then on_mem (set_next q n) h else with_head n h in
  seg (hm h') 0 (free_list_head h') l1 q n /\ seg (hm h') b n l2 p 0 /\
  h_next (hm h') b = h_next (hm h) b /\ h_prev (hm h') b = h_prev (hm h) b /\
  only (hm h) (hm h') (links (l1 ++ b :: l2)).
Proof.
  intros H1 H2 Hsp Hn. cbn zeta. destruct l1 as [|x l1 _] using rev_ind.
  - destruct H1 as [<- <-]. cbn. repeat split; done.
  - pose proof (seg_snoc_last _ _ _ _ _ _ _ H1) as ->.
    assert (Hx : 0 < x < 2 ^ 64) by (apply (sp_pos _ Hsp); set_solver).
    unfold truth. destruct (Z.eqb_spec x 0); [lia|]. cbn.
    pose proof (spaced_app _ _ Hsp) as [Hs1 _].
    destruct (fun H => spaced_app_apart _ _ x b Hsp H ltac:(left)) as [?|?]; [set_solver| |];
    (repeat split; [by eapply seg_set_next| | | |apply only_link; set_solver];
     [apply seg_set_out; [|done]; intros; apply (spaced_app_apart _ _ _ _ Hsp); set_solver
     | mem_eval; done | mem_eval; done]).
Qed.

(** The second half: the successor skips [b] backwards. *)
Lemma unlink_succ {S} (h : heap S) l1 q b n l2 p :
  seg (hm h) 0 (free_list_head h) l1 q n -> seg (hm h) b n l2 p 0 ->
  spaced (l1 ++ b :: l2) -> 0 <= q < 2 ^ 64 ->
  let h' := if truth n then on_mem (set_prev n q) h else h in
  (exists p', seg (hm h') 0 (free_list_head h') (l1 ++ l2) p' 0) /\
  only (hm h) (hm h') (links (l1 ++ b :: l2)).
Proof.
  intros H1 H2 Hsp Hq. cbn zeta. destruct l2 as [|x l2].
  - destruct H2 as [<- ->]. cbn. rewrite app_nil_r. split; [by exists q|apply only_refl].
  - pose proof H2 as [-> _].
    assert (Hx : 0 < x < 2 ^ 64) by (apply (sp_pos _ Hsp); set_solver).
    unfold truth. destruct (Z.eqb_spec x 0); [lia|]. cbn.
    split; [|apply only_link; set_solver]. exists p. apply seg_app. exists q, x. split.
    + apply seg_set_out; [|done]. intros d Hd.
      pose proof (spaced_app_apart _ _ d x Hsp Hd ltac:(set_solver)). lia.
    + eapply seg_set_prev; [done| |done]. apply spaced_app in Hsp as [_ Hsp].
      apply (spaced_app [b] (x :: l2) Hsp).
Qed.

Lemma remove_dll {S} (h : heap S) l1 b l2 :
  dll (hm h) (free_list_head h) (l1 ++ b :: l2) -> spaced (l1 ++ b :: l2) ->
  let h' := remove_from_free_list b h in
  dll (hm h') (free_list_head h') (l1 ++ l2) /\
  only (hm h) (hm h') (links (l1 ++ b :: l2)).
Proof.
  intros [p Hs] Hsp. cbn zeta. unfold remove_from_free_list.
  apply seg_app in Hs as (q & d & H1 & (-> & Hq & H2)).
  set (n := h_next (hm h) b) in *. rewrite Hq.
  assert (Hnr : 0 <= n < 2 ^ 64) by apply ld64_range.
  assert (Hqr : 0 <= q < 2 ^ 64) by (rewrite <- Hq; apply ld64_range).
  destruct (unlink_pred h l1 q b n l2 p H1 H2 Hsp Hnr) as (A1 & A2 & A3 & A4 & A5).
  set (h1 := if truth q then _ else _) in *. clearbody h1. rewrite A3, A4, Hq. fold n.
  destruct (unlink_succ h1 l1 q b n l2 p A1 A2 Hsp Hqr) as ([p' B1] & B2).
  set (h2 := if truth n then _ else _) in *. clearbody h2. cbn.
  assert (Hout : forall d, d ∈ l1 ++ l2 -> b + 32 <= d \/ d + 32 <= b).
  { intros d Hd. apply (sp_apart _ Hsp); [set_solver..|]. intros ->.
    pose proof (sp_nodup _ Hsp) as Hnd. rewrite <- Permutation_middle in Hnd.
    by apply NoDup_cons in Hnd as [? _]. }
  split.
  - exists p'. apply seg_set_out; [done|]. by apply seg_set_out.
  - assert (Hb : b ∈ l1 ++ b :: l2) by set_solver.
    eapply only_trans; [exact A5|]. eapply only_trans; [exact B2|].
    eapply (only_trans _ (set_next b 0 (hm h2))); apply only_link; done.
Qed.

Lemma add_dll {S} (h : heap S) b l :
  dll (hm h) (free_list_head h) l -> spaced (b :: l) ->
  let h' := add_to_free_list b h in
  dll (hm h') (free_list_head h') (b :: l) /\ only (hm h) (hm h') (links (b :: l)).
Proof.
  intros [p Hs] Hsp. cbn zeta.
  set (hd := free_list_head h) in *.
  assert (Hb : 0 < b < 2 ^ 64) by (apply (sp_pos _ Hsp); left).
  assert (Hap : forall d, d ∈ l -> b + 32 <= d \/ d + 32 <= b).
  { intros d Hd. apply (spaced_app_apart [b] l _ _ Hsp); set_solver. }
  set (m1 := set_prev b 0 (set_next b hd (hm h))).
  assert (E : hm (add_to_free_list b h) = (if truth hd then set_prev hd b m1 else m1)
              /\ free_list_head (add_to_free_list b h) = b).
  { unfold add_to_free_list. cbn. fold hd. by destruct (truth hd). }
  destruct E as [-> ->].
  assert (Hs1 : seg m1 0 hd l p 0) by (apply seg_set_out; [done|]; by apply seg_set_out).
  assert (Ho : only (hm h) m1 (links (b :: l))).
  { eapply (only_trans _ (set_next b hd (hm h))); apply only_link; left. }
  assert (Hn : 0 <= hd < 2 ^ 64 -> h_next m1 b = hd /\ h_prev m1 b = 0).
  { intros. unfold m1. mem_eval. done. }
  clearbody m1. destruct l as [|x l].
  - destruct Hs as [<- Hd]. rewrite Hd in *. cbn. split; [|done].
    exists b. cbn. destruct Hn as [-> ->]; [lia|]. done.
  - pose proof Hs as [Hx _]. rewrite Hx in *.
    assert (0 < x < 2 ^ 64) by (apply (sp_pos _ Hsp); set_solver).
    destruct Hn as [Hn1 Hn2]; [lia|]. destruct (Hap x); [left| |];
    (unfold truth; destruct (Z.eqb_spec x 0); [lia|]; cbn;
    split; [|eapply only_trans; [exact Ho|]; apply only_link; set_solver];
    exists p; cbn [seg]; split; [done|];
    replace (h_prev (set_prev x b m1) b) with (h_prev m1 b) by (mem_eval; done);
    replace (h_next (set_prev x b m1) b) with (h_next m1 b) by (mem_eval; done);
    split; [done|]; rewrite Hn1; eapply seg_set_prev;
    [exact Hs1|by apply (spaced_app [b])|lia]).
Qed.

(** * Steps on the tiling *)

Abbreviation G h bs := (ginv (hm h) (free_list_head h) (heap_start h) (heap_end h) bs).

(** Header and footer only depend on the block's first 9 and last 16 bytes. *)
Lemma meta_only m m' a b P :
  only m m' P -> (forall x, a <= x < a + 9 \/ a + bsz b - 16 <= x < a + bsz b -> ~ P x) ->
  meta_at m a b -> meta_at m' a b.
Proof.
  intros Ho HP [].
  split; unfold h_magic, h_size, h_allocated, f_magic, f_size, f_header, FTR in *;
    (erewrite ld_only; [eassumption|exact Ho|intros; apply HP; lia]).
Qed.

Lemma tiles_out m m' a bs P :
  Forall blk_wf bs -> only m m' P -> (forall x, a <= x < a + total bs -> ~ P x) ->
  tiles m a bs -> tiles m' a bs.
Proof.
  intros Hwf Ho. revert a. induction Hwf as [|b bs [Hb _] Hwf IH]; intros a HP; cbn [tiles total] in *;
    [done|]. unfold HEAP_MIN_BLOCK in *. pose proof (total_pos bs Hwf).
  intros [H1 H2]. split.
  - intros Hx. eapply meta_only; [exact Ho| |by apply H1]. intros; apply HP; lia.
  - apply IH; [|done]. intros; apply HP; lia.
Qed.

(** The link fields of listed blocks are not metadata. *)
Lemma tiles_links m m' a bs l :
  Forall blk_wf bs -> only m m' (links l) -> (forall b, b ∈ l -> b + 32 <= a \/ b ∈ frees a bs) ->
  tiles m a bs -> tiles m' a bs.
Proof.
  intros Hwf Ho. revert a. induction Hwf as [|b bs [Hb _] Hwf IH]; intros a HP; cbn [tiles] in *;
    [done|]. unfold HEAP_MIN_BLOCK in *.
  assert (Hl : forall c, c ∈ l -> c + 32 <= a \/ c = a \/ c ∈ frees (a + bsz b) bs).
  { intros c Hc. destruct (HP c Hc) as [?|Hin]; [by left|right]. cbn [frees] in Hin.
    destruct (blisted b); cbn [app] in Hin; [|by right]. by apply elem_of_cons in Hin. }
  intros [H1 H2]. split.
  - intros Hu. eapply meta_only; [exact Ho| |by apply H1]. intros x Hx (c & Hc & Hr).
    destruct (Hl c Hc) as [?|[->|Hin]]; [lia..|].
    apply frees_bounds in Hin; [lia|done].
  - apply IH; [|done]. intros c Hc. destruct (Hl c Hc) as [?|[->|Hin]]; [left; lia..|by right].
Qed.

Lemma frees_unused a bs x : Forall blk_wf bs -> links (frees a bs) x -> unused a bs x.
Proof.
  intros Hwf (b & Hb & Hx). revert a Hb.
  induction Hwf as [|c bs (Hc & _ & Hu) Hwf IH]; intros a Hb; cbn [frees unused] in *; [set_solver|].
  unfold HEAP_MIN_BLOCK in *. apply elem_of_app in Hb as [Hb|Hb].
  - destruct (blisted c); [|set_solver]. apply list_elem_of_singleton in Hb as ->.
    left. split; [by apply Hu|lia].
  - right. by apply IH.
Qed.

Lemma links_perm l l' x : l ≡ₚ l' -> links l x -> links l' x.
Proof. intros Hp (b & Hb & Hx). exists b. by rewrite <- Hp. Qed.

(** One block changes only its place on the list. *)
Lemma frees_flip a l1 sz l2 u :
  frees a (l1 ++ Blk sz u true :: l2) ≡ₚ (a + total l1) :: frees a (l1 ++ Blk sz u false :: l2).
Proof.
  rewrite !frees_app. cbn [frees blisted bsz app]. by rewrite <- Permutation_middle.
Qed.

Lemma tiles_flip m a l1 b b' l2 :
  bsz b = bsz b' -> (bused b' || blisted b' = true -> meta_at m (a + total l1) b') ->
  tiles m a (l1 ++ b :: l2) -> tiles m a (l1 ++ b' :: l2).
Proof. intros Hb Hm. rewrite !tiles_app. cbn [tiles]. rewrite <- Hb. by intros [? [_ ?]]. Qed.

Lemma tiles_at m a l1 b l2 :
  bused b || blisted b = true -> tiles m a (l1 ++ b :: l2) -> meta_at m (a + total l1) b.
Proof. rewrite tiles_app. intros Hb (_ & Hm & _). by apply Hm. Qed.

(** The list flag is not part of the metadata. *)
Lemma meta_flag m a sz u x y : meta_at m a (Blk sz u x) -> meta_at m a (Blk sz u y).
Proof. by intros []. Qed.

Lemma meta_links m m' a b l :
  HEAP_MIN_BLOCK <= bsz b -> only m m' (links l) ->
  (forall c, c ∈ l -> c = a \/ c + 32 <= a \/ a + bsz b <= c) ->
  meta_at m a b -> meta_at m' a b.
Proof.
  unfold HEAP_MIN_BLOCK. intros Hb Ho Hl. eapply meta_only; [exact Ho|].
  intros x Hx (c & Hc & Hr). destruct (Hl c Hc) as [->|[?|?]]; lia.
Qed.

(** A listed block is this one or lies outside it. *)
Lemma frees_apart a l1 b l2 c :
  Forall blk_wf (l1 ++ b :: l2) -> c ∈ frees a (l1 ++ b :: l2) ->
  c = a + total l1 \/ c + 32 <= a + total l1 \/ a + total l1 + bsz b <= c.
Proof.
  rewrite Forall_app, Forall_cons, frees_app. intros (W1 & _ & W2) Hc. cbn [frees] in Hc.
  rewrite !elem_of_app in Hc. destruct Hc as [Hc|[Hc|Hc]].
  - apply frees_bounds in Hc; [lia|done].
  - destruct (blisted b); [|set_solver]. apply list_elem_of_singleton in Hc. by left.
  - apply frees_bounds in Hc; [lia|done].
Qed.

Lemma meta_links_frees m m' a l1 b l2 :
  Forall blk_wf (l1 ++ b :: l2) -> only m m' (links (frees a (l1 ++ b :: l2))) ->
  meta_at m (a + total l1) b -> meta_at m' (a + total l1) b.
Proof.
  intros Hwf Ho. eapply meta_links; [|exact Ho|].
  - rewrite Forall_app, Forall_cons in Hwf. apply Hwf.
  - intros c. by apply frees_apart.
Qed.

Lemma total_flip l1 sz u x y l2 :
  total (l1 ++ Blk sz u x :: l2) = total (l1 ++ Blk sz u y :: l2).
Proof. by rewrite !total_app. Qed.

Lemma wf_flip l1 sz u x y l2 :
  (y = true -> u = false) -> Forall blk_wf (l1 ++ Blk sz u x :: l2) ->
  Forall blk_wf (l1 ++ Blk sz u y :: l2).
Proof.
  intros Hy. rewrite !Forall_app, !Forall_cons. intros (? & (? & ? & _) & ?).
  split; [done|]. split; [|done]. split; [done|]. by split.
Qed.

Lemma remove_ok {S} (h : heap S) l1 sz u l2 :
  G h (l1 ++ Blk sz u true :: l2) ->
  let h' := remove_from_free_list (heap_start h + total l1) h in
  G h' (l1 ++ Blk sz u false :: l2) /\
  meta_at (hm h') (heap_start h + total l1) (Blk sz u false) /\
  only (hm h) (hm h') (links (frees (heap_start h) (l1 ++ Blk sz u true :: l2))) /\
  same_rest h h'.
Proof.
  intros [Ht Hwf He (fl & Hd & Hp) Hb]. cbn zeta.
  set (b := heap_start h + total l1).
  assert (Hsp : spaced fl).
  { apply (spaced_perm _ _ (symmetry Hp)), frees_spaced; [done|lia|lia]. }
  assert (Hin : b ∈ fl) by (rewrite Hp, frees_flip; left).
  apply list_elem_of_split in Hin as (k1 & k2 & ->).
  destruct (remove_dll h k1 b k2 Hd Hsp) as [Hd' Ho].
  pose proof (remove_rest b h) as Hr. pose proof (sr_start _ _ Hr) as Hr1. pose proof (sr_end _ _ Hr) as Hr2.
  set (h' := remove_from_free_list b h) in *. clearbody h'.
  assert (Ho' : only (hm h) (hm h') (links (frees (heap_start h) (l1 ++ Blk sz u true :: l2)))).
  { eapply only_mono; [|exact Ho]. intros x. by apply links_perm. }
  assert (Hm : meta_at (hm h') b (Blk sz u false)).
  { eapply meta_flag, meta_links_frees; [exact Hwf|exact Ho'|].
    eapply tiles_at; [|exact Ht]. by destruct u. }
  split; [|by split_and!]. rewrite Hr1, Hr2. split.
  - eapply tiles_flip, tiles_links; [| |exact Hwf|exact Ho'| |exact Ht]; by try right.
  - eapply wf_flip; [|exact Hwf]. done.
  - rewrite He. f_equal. apply total_flip.
  - exists (k1 ++ k2). split; [done|]. apply (Permutation_cons_inv (a := b)).
    unfold b at 2. rewrite <- frees_flip, <- Hp. by rewrite Permutation_middle.
  - done.
Qed.

Lemma add_ok {S} (h : heap S) l1 sz l2 :
  G h (l1 ++ Blk sz false false :: l2) ->
  meta_at (hm h) (heap_start h + total l1) (Blk sz false true) ->
  let h' := add_to_free_list (heap_start h + total l1) h in
  G h' (l1 ++ Blk sz false true :: l2) /\
  only (hm h) (hm h') (links (frees (heap_start h) (l1 ++ Blk sz false true :: l2))) /\
  same_rest h h'.
Proof.
  intros [Ht Hwf He (fl & Hd & Hp) Hb] Hm. cbn zeta.
  set (b := heap_start h + total l1) in *.
  apply (wf_flip _ _ _ _ true) in Hwf; [|done]. rewrite (total_flip _ _ _ _ true) in He.
  apply (tiles_flip _ _ _ _ (Blk sz false true)) in Ht; [|done..].
  assert (Hp' : b :: fl ≡ₚ frees (heap_start h) (l1 ++ Blk sz false true :: l2))
    by (rewrite frees_flip; by f_equiv).
  assert (Hsp : spaced (b :: fl)).
  { apply (spaced_perm _ _ (symmetry Hp')), frees_spaced; [done|lia|lia]. }
  destruct (add_dll h b fl Hd Hsp) as [Hd' Ho].
  pose proof (add_rest b h) as Hr. pose proof (sr_start _ _ Hr) as Hr1. pose proof (sr_end _ _ Hr) as Hr2.
  set (h' := add_to_free_list b h) in *. clearbody h'.
  assert (Ho' : only (hm h) (hm h') (links (frees (heap_start h) (l1 ++ Blk sz false true :: l2)))).
  { eapply only_mono; [|exact Ho]. intros x. by apply links_perm. }
  split; [|by split; [|apply Hr]]. rewrite Hr1, Hr2. split; try done.
  - eapply tiles_links; [exact Hwf|exact Ho'| |exact Ht]. by right.
  - by exists (b :: fl).
Qed.

(** A store inside a run of blocks that re-tiles it and leaves the links of its
    listed blocks alone. *)
Lemma replace_ok m m' head s e l1 mid mid' l2 :
  ginv m head s e (l1 ++ mid ++ l2) ->
  let b := s + total l1 in
  only m m' (fun x => b <= x < b + total mid /\ ~ links (frees b mid) x) ->
  tiles m' b mid' -> Forall blk_wf mid' -> total mid' = total mid -> frees b mid' = frees b mid ->
  ginv m' head s e (l1 ++ mid' ++ l2).
Proof.
  intros [Ht Hwf He (fl & Hd & Hp) Hb] b Ho Ht' Hwf' Htot Hfr.
  pose proof Hwf as Hwf0. rewrite !Forall_app in Hwf. destruct Hwf as (W1 & W2 & W3).
  rewrite !tiles_app in Ht. destruct Ht as (T1 & _ & T3).
  pose proof (total_pos _ W1). pose proof (total_pos _ W2). pose proof (total_pos _ W3).
  split.
  - rewrite !tiles_app, Htot. fold b. fold b in T3. split; [|split; [done|]].
    + eapply tiles_out; [done|exact Ho| |done]. intros x Hx [Hr _]. lia.
    + eapply tiles_out; [done|exact Ho| |done]. intros x Hx [Hr _]. lia.
  - by rewrite !Forall_app.
  - rewrite !total_app, Htot. rewrite !total_app in He. done.
  - exists fl. rewrite !frees_app in Hp |- *. fold b in Hp |- *. rewrite Htot, Hfr. split; [|done].
    destruct Hd as [p Hd]. exists p. eapply seg_only; [exact Ho| |exact Hd].
    intros c x Hc Hx [Hr Hnl]. rewrite Hp, !elem_of_app in Hc.
    destruct Hc as [Hc|[Hc|Hc]].
    + apply frees_bounds in Hc; [lia|done].
    + apply Hnl. by exists c.
    + apply frees_bounds in Hc; [lia|done].
  - done.
Qed.

(** * Block operations *)

Lemma unused_all a mid x :
  Forall blk_wf mid -> Forall (fun b => bused b = false) mid ->
  unused a mid x <-> a <= x < a + total mid.
Proof.
  intros Hwf. revert a. induction Hwf as [|b mid [Hb _] Hwf IH]; intros a Hu; cbn [unused total]; [lia|].
  apply Forall_cons in Hu as [Hu1 Hu]. rewrite IH by done. unfold HEAP_MIN_BLOCK in *.
  pose proof (total_pos _ Hwf). split; [intros [[_ ?]|?]; lia|]. intros.
  destruct (Z.lt_ge_cases x (a + bsz b)); [left; split; [done|lia]|right; lia].
Qed.

Lemma unused_mid a l1 mid l2 x :
  Forall blk_wf mid -> Forall (fun b => bused b = false) mid ->
  a + total l1 <= x < a + total l1 + total mid -> unused a (l1 ++ mid ++ l2) x.
Proof. intros. rewrite !unused_app. right. left. by apply unused_all. Qed.

(** Free space may be cut differently. *)
Lemma unused_recut a l1 mid mid' l2 x :
  Forall blk_wf mid -> Forall blk_wf mid' -> Forall (fun b => bused b = false) mid ->
  Forall (fun b => bused b = false) mid' -> total mid = total mid' ->
  unused a (l1 ++ mid ++ l2) x -> unused a (l1 ++ mid' ++ l2) x.
Proof.
  intros ???? Ht. rewrite !unused_app, (unused_all _ mid), (unused_all _ mid'), Ht by done. tauto.
Qed.

Lemma set_footer_only f mg sz hd m (P : Z -> Prop) :
  (forall x, f <= x < f + 16 -> P x) -> only m (set_footer f mg sz hd m) P.
Proof.
  intros HP. unfold set_footer. eapply only_trans; [eapply only_trans|];
    apply only_st; intros; apply HP; lia.
Qed.

(** The stores that mark a block: header fields, then the footer. *)
Lemma meta_write m a sz (u : bool) :
  HEAP_MIN_BLOCK <= sz < 2 ^ 32 -> 0 <= a < 2 ^ 64 ->
  h_magic m a = (if u then KHEAP_MAGIC_USED else KHEAP_MAGIC_FREE) ->
  h_size m a = sz -> h_allocated m a = b2z u ->
  forall l, meta_at (set_footer (get_footer m a) KHEAP_MAGIC_TAIL sz a m) a (Blk sz u l).
Proof.
  unfold HEAP_MIN_BLOCK. intros Hsz Ha H1 H2 H3 l. unfold get_footer. rewrite H2.
  unfold h_magic, h_size, h_allocated, FTR in *.
  split; cbn [bsz bused]; unfold FTR; mem_eval; rewrite ?u32_small by lia; done.
Qed.

Lemma write_free_ok m b size l :
  HEAP_MIN_BLOCK <= size < 2 ^ 32 -> 0 <= b < 2 ^ 64 ->
  meta_at (write_free_block b size m) b (Blk size false l) /\
  only m (write_free_block b size m) (fun x => b <= x < b + size).
Proof.
  intros Hs Hb. pose proof Hs as Hs'. unfold HEAP_MIN_BLOCK in Hs'. unfold write_free_block.
  set (m0 := set_prev b 0 _).
  assert (H : h_magic m0 b = KHEAP_MAGIC_FREE /\ h_size m0 b = size /\ h_allocated m0 b = 0).
  { unfold m0. mem_eval. by rewrite (u32_small size) by lia. }
  destruct H as (H1 & H2 & H3).
  assert (Ho : only m m0 (fun x => b <= x < b + size)).
  { unfold m0. repeat (eapply only_trans; [|apply only_st; lia]). apply only_refl. }
  clearbody m0. split.
  - by apply meta_write.
  - eapply only_trans; [exact Ho|]. apply set_footer_only. unfold get_footer, FTR. rewrite H2. lia.
Qed.

Lemma h_size_links m m' a l :
  only m m' (links l) -> (forall c, c ∈ l -> c = a \/ c + 32 <= a \/ a + 64 <= c) ->
  h_size m' a = h_size m a.
Proof.
  intros Ho Hl. unfold h_size. eapply ld_only; [exact Ho|].
  intros x Hx (c & Hc & Hr). destruct (Hl c Hc) as [->|[?|?]]; lia.
Qed.

(** The stores of split_block, before the remainder goes on the list. *)
Lemma split_stores m b sz size :
  HEAP_MIN_BLOCK <= size -> size + 112 <= sz -> sz < 2 ^ 32 -> 0 <= b -> b + sz < 2 ^ 64 ->
  let m1 := set_size b size (write_free_block (b + size) (sz - size) m) in
  let m2 := st64 (st32 m1 (get_footer m1 b + 4) size) (get_footer m1 b + 8) b in
  meta_at m2 (b + size) (Blk (sz - size) false true) /\ h_size m2 b = size /\
  only m m2 (fun x => b <= x < b + sz).
Proof.
  unfold HEAP_MIN_BLOCK. intros H1 H2 H3 H4 H5. cbn zeta.
  destruct (write_free_ok m (b + size) (sz - size) true) as [Hm Ho]; [unfold HEAP_MIN_BLOCK; lia..|].
  set (m0 := write_free_block _ _ _) in *. clearbody m0.
  set (m1 := set_size b size m0).
  assert (Hsz : h_size m1 b = size) by (unfold m1; mem_eval; by rewrite u32_small by lia).
  assert (Ho1 : only m0 m1 (fun x => b <= x < b + size)) by (apply only_st; lia).
  unfold get_footer, FTR. rewrite Hsz. clearbody m1.
  set (m2 := st64 _ _ _).
  assert (Ho2 : only m1 m2 (fun x => b + size - 16 <= x < b + size)).
  { unfold m2. eapply only_trans; apply only_st; lia. }
  split; [|split].
  - eapply meta_only; [exact Ho2|cbn [bsz]; lia|]. eapply meta_only; [exact Ho1|cbn [bsz]; lia|done].
  - unfold h_size in *. erewrite ld_only; [exact Hsz|exact Ho2|cbn; lia].
  - eapply only_trans; [eapply only_trans|]; (eapply only_mono; [|eassumption]); cbn; lia.
Qed.

(** Bounds of a block inside the heap. *)
Lemma G_block {S} (h : heap S) l1 b l2 :
  G h (l1 ++ b :: l2) ->
  let a := heap_start h + total l1 in
  0 < a /\ 64 <= bsz b < 2 ^ 32 /\ bsz b mod 16 = 0 /\ a + bsz b <= heap_end h < 2 ^ 64 /\ heap_start h <= a.
Proof.
  intros [_ Hwf He _ Hb]. cbn zeta. rewrite total_app in He. cbn [total] in He.
  rewrite Forall_app, Forall_cons in Hwf. destruct Hwf as (W1 & (W2 & W3 & _) & W4).
  unfold HEAP_MIN_BLOCK in *.
  pose proof (total_pos _ W1). pose proof (total_pos _ W4). repeat split; lia || done.
Qed.

Lemma wf_mid l1 mid l2 : Forall blk_wf (l1 ++ mid ++ l2) -> Forall blk_wf mid.
Proof. rewrite !Forall_app. tauto. Qed.

(** The outcome of split_block: the block has at least the size asked for, and
    the rest, if any, is a free block. *)
Definition cut (sz size : Z) : Z * list blk :=
  if size + 112 <=? sz then (size, [Blk (sz - size) false true]) else (sz, []).

Lemma split_ok {S} (h : heap S) l1 sz l2 size :
  G h (l1 ++ Blk sz false false :: l2) ->
  h_size (hm h) (heap_start h + total l1) = sz ->
  HEAP_MIN_BLOCK <= size <= sz -> size mod 16 = 0 ->
  let h' := split_block (heap_start h + total l1) size h in
  let '(sz', rest) := cut sz size in
  G h' (l1 ++ Blk sz' false false :: rest ++ l2) /\
  h_size (hm h') (heap_start h + total l1) = sz' /\
  only (hm h) (hm h') (unused (heap_start h) (l1 ++ Blk sz false false :: l2)) /\
  same_rest h h'.
Proof.
  unfold HEAP_MIN_BLOCK. intros HG Hsz Hs H16. pose proof (G_block _ _ _ _ HG) as Hb.
  cbn [bsz] in Hb. cbn zeta in *. unfold split_block, cut.
  set (b := heap_start h + total l1) in *. rewrite Hsz, u64_small by lia.
  unfold HDR, FTR, HEAP_MIN_BLOCK.
  destruct (Z.leb_spec (32 + 16 + 64) (sz - size)), (Z.leb_spec (size + 112) sz); try lia.
  2:{ cbn [app]. split_and!; eauto using only_refl with makh. }
  destruct (split_stores (hm h) b sz size) as (Hm & Hsz' & Ho); [unfold HEAP_MIN_BLOCK; lia..|].
  cbn zeta in *. set (m1 := set_size b size _) in *. set (m2 := st64 _ _ _) in *.
  assert (HG2 : G (with_mem m2 h) (l1 ++ [Blk size false false; Blk (sz - size) false false] ++ l2)).
  { assert ((sz - size) mod 16 = 0) by (rewrite Zminus_mod, H16; destruct Hb as (_ & _ & -> & _); done).
    eapply (replace_ok _ _ _ _ _ _ [Blk sz false false]); [exact HG| | | | |done].
    - eapply only_mono; [|exact Ho]. cbn. fold b. intros x Hx. split; [lia|].
      intros (c & Hc & _). set_solver.
    - done.
    - repeat constructor; cbn; unfold HEAP_MIN_BLOCK; done || lia.
    - cbn [total bsz]. lia. }
  pose proof (add_ok (with_mem m2 h) (l1 ++ [Blk size false false]) (sz - size) l2) as Hadd.
  rewrite <- !app_assoc, !total_app in Hadd. cbn [app total bsz] in Hadd, HG2. cbn zeta in Hadd.
  replace (heap_start (with_mem m2 h) + (total l1 + (size + 0))) with (b + size) in Hadd
    by (unfold b; cbn; lia).
  destruct (Hadd HG2 Hm) as (A1 & A2 & A3). clear Hadd.
  change (on_mem _ (on_mem _ (on_mem _ h))) with (with_mem m2 h).
  set (h' := add_to_free_list _ _) in *. clearbody h'. clearbody m2.
  split_and!.
  - exact A1.
  - erewrite h_size_links; [exact Hsz'|exact A2|]. intros c Hc.
    pose proof (g_wf _ _ _ _ _ A1) as Hwf. rewrite (sr_start _ _ A3) in A1. cbn in Hc, A1.
    eapply frees_apart in Hc; [|exact Hwf]. cbn [bsz] in Hc. fold b in Hc. lia.
  - eapply only_trans.
    + eapply only_mono; [|exact Ho]. intros x Hx.
      apply (unused_mid _ l1 [Blk sz false false]);
        [exact (wf_mid _ [_] _ (g_wf _ _ _ _ _ HG))|by repeat constructor|]. cbn in Hx |- *. fold b. lia.
    + eapply only_mono; [|exact A2]. cbn. intros x Hx.
      eapply frees_unused in Hx; [|exact (g_wf _ _ _ _ _ A1)]. revert Hx.
      apply (unused_recut _ l1 [_; _] [_]).
      * exact (wf_mid _ [_;_] _ (g_wf _ _ _ _ _ A1)).
      * exact (wf_mid _ [_] _ (g_wf _ _ _ _ _ HG)).
      * by repeat constructor.
      * by repeat constructor.
      * cbn [total bsz]. lia.
  - by destruct A3.
Qed.

Lemma cut_props sz size :
  HEAP_MIN_BLOCK <= size <= sz ->
  let '(sz', rest) := cut sz size in
  size <= sz' /\ sz' + total rest = sz /\ useds (0 + sz') rest = [] /\
  Forall (fun b => bused b = false /\ blisted b = true) rest.
Proof.
  unfold HEAP_MIN_BLOCK, cut. intros. destruct (Z.leb_spec (size + 112) sz); cbn [total bsz];
    split_and!; try lia; try done; repeat constructor.
Qed.

(** The stores that allocate a block off the list. *)
Lemma mark_used_ok m head s e l1 sz l2 :
  ginv m head s e (l1 ++ Blk sz false false :: l2) -> h_size m (s + total l1) = sz ->
  let b := s + total l1 in
  let m1 := set_allocated b 1 (set_magic b KHEAP_MAGIC_USED m) in
  let m2 := set_footer (get_footer m1 b) KHEAP_MAGIC_TAIL (h_size m1 b) b m1 in
  ginv m2 head s e (l1 ++ Blk sz true false :: l2) /\ h_size m2 b = sz /\
  only m m2 (fun x => b <= x < b + sz).
Proof.
  intros HG Hsz. cbn zeta.
  assert (Hb := G_block (Heap m head s e 0 0 0 tt) _ _ _ HG). cbn in Hb.
  set (b := s + total l1) in *. set (m1 := set_allocated _ _ _).
  assert (H : h_magic m1 b = KHEAP_MAGIC_USED /\ h_size m1 b = sz /\ h_allocated m1 b = 1).
  { unfold m1, h_size in *. mem_eval. done. }
  destruct H as (H1 & H2 & H3).
  assert (Ho : only m m1 (fun x => b <= x < b + sz)).
  { unfold m1. eapply (only_trans _ (set_magic b KHEAP_MAGIC_USED m)); apply only_st; lia. }
  clearbody m1. rewrite H2.
  assert (Hm : meta_at (set_footer (get_footer m1 b) KHEAP_MAGIC_TAIL sz b m1) b (Blk sz true false)).
  { apply meta_write; unfold HEAP_MIN_BLOCK; done || lia. }
  assert (Ho2 : only m (set_footer (get_footer m1 b) KHEAP_MAGIC_TAIL sz b m1) (fun x => b <= x < b + sz)).
  { eapply only_trans; [exact Ho|]. apply set_footer_only. unfold get_footer, FTR. rewrite H2. lia. }
  split_and!; [|by apply ma_size in Hm|done].
  apply (replace_ok _ _ _ _ _ _ [Blk sz false false] [Blk sz true false] l2 HG).
  - eapply only_mono; [|exact Ho2]. cbn. fold b. intros x Hx. split; [lia|].
    intros (c & Hc & _). set_solver.
  - done.
  - repeat constructor; cbn; unfold HEAP_MIN_BLOCK; done || lia.
  - done.
  - done.
Qed.

Lemma take_block_ok {S} (h : heap S) l1 sz l2 size :
  G h (l1 ++ Blk sz false true :: l2) -> HEAP_MIN_BLOCK <= size <= sz -> size mod 16 = 0 ->
  let b := heap_start h + total l1 in
  let '(p, h') := take_block b size h in
  let '(sz', rest) := cut sz size in
  p = b + HDR /\ G h' (l1 ++ Blk sz' true false :: rest ++ l2) /\
  only (hm h) (hm h') (unused (heap_start h) (l1 ++ Blk sz false true :: l2)) /\
  same_rest (with_used (u64 (heap_used h + sz')) h) h'.
Proof.
  intros HG Hs H16. cbn zeta. unfold take_block.
  destruct (remove_ok h l1 sz false l2 HG) as (HG1 & Hm1 & Ho1 & Hr1).
  set (b := heap_start h + total l1) in *. set (h1 := remove_from_free_list b h) in *. clearbody h1.
  assert (Hst : heap_start h1 + total l1 = b) by (unfold b; by rewrite (sr_start _ _ Hr1)).
  pose proof (split_ok h1 l1 sz l2 size HG1) as HS. rewrite Hst in HS.
  specialize (HS (ma_size _ _ _ Hm1) Hs H16). cbn zeta in HS.
  pose proof (cut_props sz size Hs) as Hc.
  destruct (cut sz size) as [sz' rest]. destruct HS as (HG2 & Hsz2 & Ho2 & Hr2).
  set (h2 := split_block b size h1) in *. clearbody h2.
  assert (Hst2 : heap_start h2 + total l1 = b)
    by (unfold b; by rewrite (sr_start _ _ Hr2), (sr_start _ _ Hr1)).
  assert (Hs2 : h_size (hm h2) (heap_start h2 + total l1) = sz') by by rewrite Hst2.
  destruct (mark_used_ok _ _ _ _ _ _ _ HG2 Hs2) as (HG3 & Hsz3 & Ho3). rewrite Hst2 in *.
  split_and!; [done|exact HG3| |].
  - assert (HU : forall x, unused (heap_start h1) (l1 ++ Blk sz false false :: l2) x ->
                           unused (heap_start h) (l1 ++ Blk sz false true :: l2) x).
    { intros x. rewrite (sr_start _ _ Hr1).
      apply (unused_recut _ l1 [_] [_]); try (by repeat constructor).
      - exact (wf_mid _ [_] _ (g_wf _ _ _ _ _ HG1)).
      - exact (wf_mid _ [_] _ (g_wf _ _ _ _ _ HG)). }
    eapply only_trans; [eapply only_mono; [|exact Ho1]|].
    { intros x. apply frees_unused, (g_wf _ _ _ _ _ HG). }
    eapply only_trans; [eapply only_mono; [|exact Ho2]; exact HU|].
    eapply only_mono; [|exact Ho3]. cbn. intros x Hx.
    apply (unused_mid _ l1 [Blk sz false true]).
    + exact (wf_mid _ [_] _ (g_wf _ _ _ _ _ HG)).
    + by repeat constructor.
    + cbn [total bsz]. fold b. pose proof (total_pos rest).
      destruct Hc as (? & ? & _). enough (0 <= total rest) by lia. apply total_pos.
      apply (wf_mid (l1 ++ [Blk sz' false false]) rest l2). rewrite <- app_assoc.
      exact (g_wf _ _ _ _ _ HG2).
  - destruct Hr1, Hr2. split; cbn in *; try congruence.
Qed.

(** ** Coalescing *)

(** Between operations every block is either allocated or on the list. *)
Definition steady (bs : list blk) : Prop := Forall (fun b => blisted b = negb (bused b)) bs.

(** [h'] has the same allocated blocks as [h], with the free space cut differently;
    only free bytes were written. *)
Record recut {S} (h : heap S) (bs : list blk) (h' : heap S) (bs' : list blk) : Prop := {
  rc_inv : G h' bs';
  rc_steady : steady bs';
  rc_useds : useds (heap_start h) bs' = useds (heap_start h) bs;
  rc_unused : forall x, unused (heap_start h) bs' x <-> unused (heap_start h) bs x;
  rc_only : only (hm h) (hm h') (unused (heap_start h) bs);
  rc_rest : same_rest h h';
}.

Lemma recut_refl {S} (h : heap S) bs : G h bs -> steady bs -> recut h bs h bs.
Proof. intros. split; eauto using only_refl with makh. Qed.

Lemma recut_trans {S} (h1 h2 h3 : heap S) bs1 bs2 bs3 :
  recut h1 bs1 h2 bs2 -> recut h2 bs2 h3 bs3 -> recut h1 bs1 h3 bs3.
Proof.
  intros [A1 A2 A3 A4 A5 A6] [B1 B2 B3 B4 B5 B6].
  rewrite (sr_start _ _ A6) in *. split; try done.
  - congruence.
  - intros x. by rewrite B4.
  - eapply only_trans; [exact A5|]. eapply only_mono; [|exact B5]. intros x. by rewrite A4.
  - by eapply same_rest_trans.
Qed.

Lemma absorb_stores m a s1 s2 l :
  meta_at m a (Blk s1 false l) -> h_size m (a + s1) = s2 ->
  64 <= s1 -> 64 <= s2 -> s1 + s2 < 2 ^ 32 -> 0 <= a < 2 ^ 64 ->
  meta_at (absorb_m a (a + s1) m) a (Blk (s1 + s2) false true) /\
  only m (absorb_m a (a + s1) m) (fun x => a <= x < a + 16 \/ a + 32 <= x < a + (s1 + s2)).
Proof.
  intros [H1 H2 H3 _ _ _] H4 Hs1 Hs2 Hs Ha. cbn [bsz bused] in *. unfold absorb_m. rewrite H2, H4.
  set (m1 := set_size _ _ _).
  assert (E1 : h_size m1 a = s1 + s2) by (unfold m1; mem_eval; by rewrite u32_small by lia).
  assert (E2 : h_magic m1 a = KHEAP_MAGIC_FREE)
    by (unfold m1, h_magic in *; mem_eval; done).
  assert (E3 : h_allocated m1 a = 0) by (unfold m1, h_allocated in *; mem_eval; done).
  assert (Ho : only m m1 (fun x => a <= x < a + 16 \/ a + 32 <= x < a + (s1 + s2)))
    by (apply only_st; lia).
  clearbody m1. rewrite E1. split.
  - apply meta_write; unfold HEAP_MIN_BLOCK; done || lia.
  - eapply only_trans; [exact Ho|]. apply set_footer_only. unfold get_footer, FTR. rewrite E1. lia.
Qed.

Lemma absorb_ginv m head s e l1 s1 s2 l2 :
  ginv m head s e (l1 ++ Blk s1 false true :: Blk s2 false false :: l2) ->
  let b := s + total l1 in
  h_size m (b + s1) = s2 ->
  let m' := absorb_m b (b + s1) m in
  ginv m' head s e (l1 ++ Blk (s1 + s2) false true :: l2) /\
  only m m' (fun x => b <= x < b + (s1 + s2)).
Proof.
  intros HG b Hsz. cbn zeta. pose proof HG as [T Hw E _ Hbd].
  rewrite Forall_app, !Forall_cons in Hw. destruct Hw as (W1 & (W2 & W3 & _) & (W4 & W5 & _) & W6).
  unfold HEAP_MIN_BLOCK in *. rewrite total_app in E. cbn [total bsz] in *.
  pose proof (total_pos _ W1). pose proof (total_pos _ W6).
  assert (Hmb : meta_at m b (Blk s1 false true)) by (by eapply (tiles_at _ _ l1 (Blk s1 false true))).
  destruct (absorb_stores _ _ _ s2 _ Hmb Hsz) as (Hm2 & Ho2); [lia..|].
  set (m2 := absorb_m _ _ _) in *. clearbody m2. split.
  - apply (replace_ok _ _ _ _ _ l1 [_; _] [_] l2 HG).
    + eapply only_mono; [|exact Ho2]. cbn. fold b. intros x Hx. split; [lia|].
      intros (c & Hc & ?). apply list_elem_of_singleton in Hc. lia.
    + done.
    + repeat constructor; cbn; unfold HEAP_MIN_BLOCK; [lia|]. by rewrite Z.add_mod, W3, W5.
    + cbn [total bsz]. lia.
    + done.
  - eapply only_mono; [|exact Ho2]. cbn. lia.
Qed.

Lemma absorb_recut {S} (h h1 : heap S) l1 s1 s2 l2 m2 :
  let bs := l1 ++ Blk s1 false true :: Blk s2 false true :: l2 in
  let b := heap_start h + total l1 in
  G h bs -> steady bs -> same_rest h h1 ->
  only (hm h) (hm h1) (links (frees (heap_start h) bs)) ->
  ginv m2 (free_list_head h1) (heap_start h) (heap_end h1) (l1 ++ Blk (s1 + s2) false true :: l2) ->
  only (hm h1) m2 (fun x => b <= x < b + (s1 + s2)) ->
  recut h bs (with_mem m2 h1) (l1 ++ Blk (s1 + s2) false true :: l2).
Proof.
  intros bs b HG Hst Hr Ho HG2 Ho2. pose proof (sr_start _ _ Hr) as Hs.
  assert (HW : Forall blk_wf [Blk s1 false true; Blk s2 false true])
    by (apply (wf_mid l1 _ l2), (g_wf _ _ _ _ _ HG)).
  assert (HW' : Forall blk_wf [Blk (s1 + s2) false true])
    by (apply (wf_mid l1 [_] l2), (g_wf _ _ _ _ _ HG2)).
  split.
  - cbn. by rewrite Hs.
  - unfold bs, steady in *. rewrite Forall_app, !Forall_cons in *. naive_solver.
  - unfold bs. rewrite !useds_app. cbn [useds bsz bused app]. by rewrite Z.add_assoc.
  - split; [apply (unused_recut _ l1 [_] [_; _] l2)|apply (unused_recut _ l1 [_; _] [_] l2)];
      cbn [total bsz]; try lia; try done; by repeat constructor.
  - eapply only_trans; [eapply only_mono; [|exact Ho]; intros x; apply frees_unused, (g_wf _ _ _ _ _ HG)|].
    eapply only_mono; [|exact Ho2]. cbn. intros x Hx.
    apply (unused_mid _ l1 [Blk s1 false true; Blk s2 false true]); [done|by repeat constructor|].
    cbn [total bsz]. fold b. lia.
  - by destruct Hr.
Qed.

Lemma absorb_ok {S} (h : heap S) l1 s1 s2 l2 :
  G h (l1 ++ Blk s1 false true :: Blk s2 false true :: l2) ->
  steady (l1 ++ Blk s1 false true :: Blk s2 false true :: l2) ->
  let b := heap_start h + total l1 in
  recut h (l1 ++ Blk s1 false true :: Blk s2 false true :: l2)
        (absorb b (b + s1) h) (l1 ++ Blk (s1 + s2) false true :: l2).
Proof.
  intros HG Hst b. pose proof (remove_ok h (l1 ++ [Blk s1 false true]) s2 false l2) as HR.
  rewrite <- !app_assoc, total_app in HR. cbn [app total bsz] in HR.
  replace (heap_start h + (total l1 + (s1 + 0))) with (b + s1) in HR by lia.
  destruct (HR HG) as (HG1 & Hm & Ho & Hr). clear HR.
  rewrite (sr_start _ _ Hr) in HG1.
  destruct (absorb_ginv _ _ _ _ _ _ _ _ HG1 (ma_size _ _ _ Hm)) as (HG2 & Ho2).
  exact (absorb_recut h _ l1 s1 s2 l2 _ HG Hst Hr Ho HG2 Ho2).
Qed.

Lemma steady_at {S} (h : heap S) l1 b l2 :
  G h (l1 ++ b :: l2) -> steady (l1 ++ b :: l2) -> meta_at (hm h) (heap_start h + total l1) b.
Proof.
  intros HG Hs. eapply tiles_at; [|exact (g_tiles _ _ _ _ _ HG)].
  unfold steady in Hs. rewrite Forall_app, Forall_cons in Hs. destruct Hs as (_ & -> & _).
  by destruct (bused b).
Qed.

Lemma steady_mid l1 sz u x l2 : steady (l1 ++ Blk sz u x :: l2) -> x = negb u.
Proof. unfold steady. rewrite Forall_app, Forall_cons. naive_solver. Qed.

Lemma coalesce_fwd {S} (h : heap S) l1 sz l2 :
  G h (l1 ++ Blk sz false true :: l2) -> steady (l1 ++ Blk sz false true :: l2) ->
  let b := heap_start h + total l1 in
  let n := b + h_size (hm h) b in
  let h' := if (n <? heap_end h) && (h_magic (hm h) n =? KHEAP_MAGIC_FREE)
               && (h_allocated (hm h) n =? 0) then absorb b n h else h in
  exists sz' l2', recut h (l1 ++ Blk sz false true :: l2) h' (l1 ++ Blk sz' false true :: l2').
Proof.
  intros HG Hs. cbn zeta. pose proof (steady_at _ _ _ _ HG Hs) as Hm.
  rewrite (ma_size _ _ _ Hm). cbn [bsz]. set (b := heap_start h + total l1) in *.
  destruct l2 as [|[s2 u x] l2].
  { exists sz, []. pose proof (g_end _ _ _ _ _ HG) as He. rewrite total_app in He. cbn [total bsz] in He.
    destruct (Z.ltb_spec (b + sz) (heap_end h)); [lia|]. by apply recut_refl. }
  change (l1 ++ Blk sz false true :: Blk s2 u x :: l2)
    with (l1 ++ [Blk sz false true] ++ Blk s2 u x :: l2) in *.
  rewrite app_assoc in HG, Hs. pose proof (steady_mid _ _ _ _ _ Hs) as ->.
  pose proof (steady_at _ _ _ _ HG Hs) as Hn. pose proof (G_block _ _ _ _ HG) as Hb.
  rewrite total_app in Hn, Hb. cbn [total bsz] in Hn, Hb.
  replace (heap_start h + (total l1 + (sz + 0))) with (b + sz) in Hn, Hb by lia.
  cbn zeta in Hb. destruct (Z.ltb_spec (b + sz) (heap_end h)); [|lia].
  rewrite (ma_magic _ _ _ Hn), (ma_alloc _ _ _ Hn). rewrite <- app_assoc in HG, Hs.
  destruct u; cbn [andb bused negb] in *.
  - exists sz, (Blk s2 true false :: l2). by apply recut_refl.
  - exists (sz + s2), l2. by apply absorb_ok.
Qed.

Lemma coalesce_bwd {S} (h : heap S) l1 sz l2 :
  G h (l1 ++ Blk sz false true :: l2) -> steady (l1 ++ Blk sz false true :: l2) ->
  let b := heap_start h + total l1 in
  let p := f_header (hm h) (b - FTR) in
  let h' := if heap_start h <? b then
              if f_magic (hm h) (b - FTR) =? KHEAP_MAGIC_TAIL then
                if (h_magic (hm h) p =? KHEAP_MAGIC_FREE) && (h_allocated (hm h) p =? 0)
                then absorb p b h else h
              else h
            else h in
  exists bs', recut h (l1 ++ Blk sz false true :: l2) h' bs'.
Proof.
  intros HG Hs. cbn zeta. destruct l1 as [|[s1 u x] l1 _] using rev_ind.
  { cbn [total]. rewrite Z.add_0_r, Z.ltb_irrefl. eexists. by apply recut_refl. }
  pose proof HG as HG0. pose proof Hs as Hs0.
  rewrite <- app_assoc in HG0, Hs0. cbn [app] in HG0, Hs0.
  pose proof (steady_mid _ _ _ _ _ Hs0) as ->. pose proof (steady_at _ _ _ _ HG0 Hs0) as Hm.
  pose proof (G_block _ _ _ _ HG0) as Hb. cbn [bsz] in Hb. cbn zeta in Hb.
  rewrite total_app. cbn [total bsz]. set (a := heap_start h + total l1) in *.
  replace (heap_start h + (total l1 + (s1 + 0))) with (a + s1) by lia.
  destruct (Z.ltb_spec (heap_start h) (a + s1)); [|lia].
  pose proof (ma_fmagic _ _ _ Hm) as E1. pose proof (ma_fheader _ _ _ Hm) as E2.
  cbn [bsz] in E1, E2. rewrite E1, E2, Z.eqb_refl, (ma_magic _ _ _ Hm), (ma_alloc _ _ _ Hm).
  destruct u; cbn [bused negb].
  - eexists. by apply recut_refl.
  - eexists. rewrite <- app_assoc. cbn [app andb]. by apply absorb_ok.
Qed.

Lemma coalesce_ok {S} (h : heap S) l1 sz l2 :
  G h (l1 ++ Blk sz false true :: l2) -> steady (l1 ++ Blk sz false true :: l2) ->
  exists bs', recut h (l1 ++ Blk sz false true :: l2)
                    (coalesce_block (heap_start h + total l1) h) bs'.
Proof.
  intros HG Hs. unfold coalesce_block. pose proof (steady_at _ _ _ _ HG Hs) as Hm.
  rewrite (ma_magic _ _ _ Hm), (ma_alloc _ _ _ Hm). cbn [bused negb orb]. cbn zeta.
  destruct (coalesce_fwd h l1 sz l2 HG Hs) as (sz' & l2' & R1). cbn zeta in R1.
  set (h1 := if _ && _ then absorb _ _ h else h) in R1 |- *. clearbody h1.
  destruct (coalesce_bwd h1 l1 sz' l2') as (bs' & R2); [apply R1..|].
  exists bs'. eapply recut_trans; [exact R1|]. cbn zeta in R2.
  rewrite (sr_start _ _ (rc_rest _ _ _ _ R1)) in *. exact R2.
Qed.

(** * The invariant of the heap between calls *)

Fixpoint used_bytes (l : list (Z * Z)) : Z :=
  match l with [] => 0 | (_, sz) :: l => sz + used_bytes l end.

Record inv {S} (h : heap S) (bs : list blk) : Prop := {
  i_G : G h bs;
  i_steady : steady bs;
  i_used : heap_used h = used_bytes (useds (heap_start h) bs);
  i_start : heap_start h = HEAP_START_VIRTUAL;
}.

Lemma used_bytes_app l1 l2 : used_bytes (l1 ++ l2) = used_bytes l1 + used_bytes l2.
Proof. induction l1 as [|[a sz] l1 IH]; cbn [app used_bytes]; [done|]. rewrite IH. lia. Qed.

Lemma used_bytes_bound a bs :
  Forall blk_wf bs -> 0 <= used_bytes (useds a bs) <= total bs.
Proof.
  intros Hwf. revert a. unfold blk_wf, HEAP_MIN_BLOCK in Hwf.
  induction Hwf as [|b bs (H & _) _ IH]; intros a; cbn [useds total]; [done|].
  rewrite used_bytes_app. specialize (IH (a + bsz b)). destruct (bused b); cbn [used_bytes]; lia.
Qed.

Lemma useds_split a bs b sz :
  (b, sz) ∈ useds a bs -> exists l1 x l2, bs = l1 ++ Blk sz true x :: l2 /\ b = a + total l1.
Proof.
  revert a. induction bs as [|[s u x] bs IH]; intros a Hin; cbn [useds bsz bused] in Hin; [set_solver|].
  apply elem_of_app in Hin as [Hin|Hin].
  - destruct u; [|set_solver]. apply list_elem_of_singleton in Hin. simplify_eq.
    exists [], x, bs. cbn. split; [done|lia].
  - apply IH in Hin as (l1 & y & l2 & -> & ->). exists (Blk s u x :: l1), y, l2.
    cbn [app total bsz]. split; [done|lia].
Qed.

Lemma useds_mid a l1 sz x l2 u y :
  useds a (l1 ++ Blk sz u y :: l2) ≡ₚ
  (if u then [(a + total l1, sz)] else []) ++ useds a (l1 ++ Blk sz false x :: l2).
Proof.
  rewrite !useds_app. cbn [useds bsz bused app]. destruct u; cbn [app]; [|done].
  by rewrite <- Permutation_middle.
Qed.

Lemma used_bytes_perm l l' : l ≡ₚ l' -> used_bytes l = used_bytes l'.
Proof.
  induction 1 as [|[] ?? _ IH|[] [] ?|???? IH1 ? IH2]; cbn [used_bytes]; lia.
Qed.

(** The stores of kfree_locked before the block goes on the list. *)
Lemma mark_free_ok m head s e l1 sz x l2 :
  ginv m head s e (l1 ++ Blk sz true x :: l2) -> meta_at m (s + total l1) (Blk sz true x) ->
  let b := s + total l1 in
  let m2 := set_allocated b 0 (set_magic b KHEAP_MAGIC_FREE m) in
  ginv m2 head s e (l1 ++ Blk sz false false :: l2) /\ meta_at m2 b (Blk sz false true) /\
  only m m2 (fun x => b <= x < b + sz).
Proof.
  intros HG [H1 H2 H3 H4 H5 H6]. cbn zeta. assert (Hb := G_block (Heap m head s e 0 0 0 tt) _ _ _ HG).
  assert (Hx : x = false).
  { destruct HG as [_ Hwf _ _ _]. rewrite Forall_app, Forall_cons in Hwf.
    destruct Hwf as (_ & (_ & _ & Hx) & _). cbn in Hx. destruct x; naive_solver. }
  cbn in Hb, H1, H2, H3, H4, H5, H6. set (b := s + total l1) in *. set (m2 := set_allocated _ _ _).
  assert (Ho : only m m2 (fun x => b <= x < b + 9)).
  { unfold m2. eapply (only_trans _ (set_magic b KHEAP_MAGIC_FREE m)); apply only_st; lia. }
  split_and!.
  - apply (replace_ok _ _ _ _ _ _ [Blk sz true x] [Blk sz false false] l2 HG).
    + eapply only_mono; [|exact Ho]. cbn. subst x. fold b. intros y Hy. split; [lia|].
      intros (c & Hc & _). set_solver.
    + done.
    + repeat constructor; cbn; unfold HEAP_MIN_BLOCK; done || lia.
    + done.
    + by subst x.
  - unfold m2, h_magic, h_size, h_allocated, f_magic, f_size, f_header, FTR in *.
    split; cbn [bsz bused]; unfold FTR; mem_eval; done.
  - eapply only_mono; [|exact Ho]. cbn. lia.
Qed.

Lemma kfree_ok {S} (h : heap S) bs p sz :
  inv h bs -> (p - HDR, sz) ∈ useds (heap_start h) bs ->
  let h' := kfree p h in
  exists bs', inv h' bs' /\
    useds (heap_start h) bs ≡ₚ (p - HDR, sz) :: useds (heap_start h) bs' /\
    only (hm h) (hm h') (unused (heap_start h) bs') /\
    same_rest (with_used (heap_used h - sz) h) h'.
Proof.
  intros [HG Hs Hu Ha] Hin. cbn zeta. unfold kfree, kfree_locked.
  apply useds_split in Hin as (l1 & x & l2 & -> & Hp).
  pose proof (G_block _ _ _ _ HG) as Hb. pose proof (steady_at _ _ _ _ HG Hs) as Hm.
  cbn [bsz] in Hb. cbn zeta in Hb. rewrite <- Hp in Hb, Hm.
  destruct (Z.eqb_spec p 0) as [->|_]; [unfold HDR in *; lia|]. cbn zeta.
  rewrite (ma_magic _ _ _ Hm). unfold get_footer. rewrite (ma_size _ _ _ Hm). cbn [bused bsz negb orb].
  pose proof (ma_fmagic _ _ _ Hm) as E1. pose proof (ma_fheader _ _ _ Hm) as E2. cbn [bsz] in E1, E2.
  rewrite E1, E2, !Z.eqb_refl. cbn [negb orb]. set (b := p - HDR) in *.
  pose proof (useds_mid (heap_start h) l1 sz true l2 true x) as HU. rewrite <- Hp in HU. cbn [app] in HU.
  pose proof (mark_free_ok _ _ _ _ _ _ _ _ HG) as HF. rewrite <- Hp in HF.
  destruct (HF Hm) as (HG1 & Hm1 & Ho1). clear HF. cbn zeta in *.
  set (m2 := set_allocated _ _ _) in *. set (u' := u64 _) in *.
  change (on_mem _ (on_mem _ (with_used u' h))) with (with_mem m2 (with_used u' h)).
  pose proof (add_ok (with_mem m2 (with_used u' h)) l1 sz l2 HG1) as HA.
  cbn [heap_start with_mem with_used hm] in HA. rewrite <- Hp in HA.
  destruct (HA Hm1) as (HG2 & Ho2 & Hr2). clear HA. clearbody m2.
  assert (Hs2 : steady (l1 ++ Blk sz false true :: l2)).
  { unfold steady in *. rewrite Forall_app, Forall_cons in *. naive_solver. }
  set (h2 := add_to_free_list _ _) in *. clearbody h2.
  destruct (coalesce_ok h2 l1 sz l2 HG2 Hs2) as (bs' & [R1 R2 R3 R4 R5 R6]).
  pose proof (sr_start _ _ Hr2) as Hst. cbn in Hst. rewrite Hst, <- Hp in *.
  assert (HU' : useds (heap_start h) (l1 ++ Blk sz true x :: l2)
                ≡ₚ (b, sz) :: useds (heap_start h) bs') by by rewrite R3.
  assert (Hu' : u' = used_bytes (useds (heap_start h) bs')).
  { unfold u'. rewrite Hu, (used_bytes_perm _ _ HU'). cbn [used_bytes].
    pose proof (used_bytes_bound (heap_start h) bs' (g_wf _ _ _ _ _ R1)).
    destruct R1 as [_ _ E _ Hbd]. destruct R6. rewrite u64_small; lia. }
  exists bs'. split_and!.
  - split; [done|done| |].
    + rewrite (sr_start _ _ R6), (sr_used _ _ R6), (sr_used _ _ Hr2), Hst. exact Hu'.
    + by rewrite (sr_start _ _ R6), Hst.
  - done.
  - assert (HW := g_wf _ _ _ _ _ HG2).
    eapply only_trans; [|eapply only_trans; [|eapply only_mono; [|exact R5]; intros y; by rewrite R4]].
    + eapply only_mono; [|exact Ho1]. cbn. intros y Hy. rewrite R4.
      apply (unused_mid _ l1 [Blk sz false true]); [exact (wf_mid _ [_] _ HW)|by repeat constructor|].
      cbn [total bsz]. rewrite <- Hp. lia.
    + eapply only_mono; [|exact Ho2]. intros y. rewrite R4. by apply frees_unused.
  - eapply same_rest_trans; [|exact R6]. destruct Hr2. cbn in *. split; cbn; try congruence.
    rewrite Hu, (used_bytes_perm _ _ HU'). cbn [used_bytes]. rewrite sr_used0, Hu'. lia.
Qed.

(** * Allocation *)

Lemma align_up_spec v k :
  0 <= k < 64 -> 0 <= v -> v + 2 ^ k - 1 < 2 ^ 64 ->
  align_up v (2 ^ k) = (v + 2 ^ k - 1) / 2 ^ k * 2 ^ k.
Proof.
  intros Hk Hv Hlt. unfold align_up.
  assert (0 < 2 ^ k) by (apply Z.pow_pos_nonneg; lia).
  assert (2 ^ k <= 2 ^ 63) by (apply Z.pow_le_mono_r; lia).
  set (x := v + 2 ^ k - 1) in *. assert (0 <= x < 2 ^ 64) by (unfold x; lia). clearbody x.
  rewrite (u64_small x), (u64_small (2 ^ k - 1)) by lia.
  replace (2 ^ k - 1) with (Z.ones k) by (rewrite Z.ones_equiv; lia).
  unfold u64 at 2. rewrite <- Z.land_ones, Z.land_assoc, <- Z.ldiff_land by lia.
  rewrite Z.ldiff_ones_r, Z.shiftl_mul_pow2, Z.shiftr_div_pow2, Z.land_ones by lia.
  assert (0 <= x / 2 ^ k * 2 ^ k <= x).
  { split; [apply Z.mul_nonneg_nonneg; [apply Z.div_pos|]; lia|].
    rewrite Z.mul_comm. apply Z.mul_div_le. lia. }
  rewrite (Z.mod_small _ (2 ^ 64)) by lia. apply Z.mod_small. lia.
Qed.

Lemma request_size_spec size :
  0 < size < 2 ^ 63 ->
  let r := request_size size in
  HEAP_MIN_BLOCK <= r /\ r mod 16 = 0 /\ size + HDR + FTR <= r <= size + 63.
Proof.
  intros Hs. cbn zeta. unfold request_size, HEAP_MIN_BLOCK, HDR, FTR, HEAP_ALIGNMENT.
  assert (E := align_up_spec size 4). change (2 ^ 4) with 16 in E. rewrite E by lia.
  set (q := (size + 16 - 1) / 16).
  assert (16 * q <= size + 15 < 16 * q + 16).
  { unfold q. replace (size + 16 - 1) with (size + 15) by lia.
    pose proof (Z.div_mod (size + 15) 16). pose proof (Z.mod_pos_bound (size + 15) 16). lia. }
  rewrite u64_small by lia. destruct (Z.ltb_spec (32 + q * 16 + 16) 64); [split_and!; done || lia|].
  split_and!; [lia| |lia|lia]. replace (32 + q * 16 + 16) with ((q + 3) * 16) by lia.
  apply Z.mod_mul. lia.
Qed.

(** The first block of the list that is large enough. *)
Definition first_fit (m : mem) (size : Z) (l : list Z) : Z :=
  hd 0 (filter (fun b => size <= h_size m b) l).

Lemma find_from_spec m size l p c p' fuel :
  seg m p c l p' 0 -> (forall b, b ∈ l -> 0 < b /\ h_magic m b = KHEAP_MAGIC_FREE) ->
  (length l < fuel)%nat -> find_from fuel m c size = Some (first_fit m size l).
Proof.
  revert p c fuel. induction l as [|b l IH]; intros p c fuel Hs Hl Hf; (destruct fuel; [cbn in Hf; lia|]).
  - destruct Hs as [_ ->]. done.
  - destruct Hs as (-> & _ & Hs). cbn [find_from]. destruct (Hl b) as [Hb ->]; [left|].
    unfold first_fit. rewrite filter_cons.
    destruct (Z.eqb_spec b 0); [lia|]. rewrite Z.eqb_refl. cbn [andb].
    destruct (Z.leb_spec size (h_size m b)); case_decide; try lia; [done|].
    eapply IH; [exact Hs| |cbn in Hf; lia]. intros. apply Hl. by right.
Qed.

Lemma frees_length a bs : Forall blk_wf bs -> 64 * Z.of_nat (length (frees a bs)) <= total bs.
Proof.
  intros Hwf. revert a. unfold blk_wf, HEAP_MIN_BLOCK in Hwf.
  induction Hwf as [|b bs (H & _) _ IH]; intros a; cbn [frees total]; [done|].
  rewrite length_app. specialize (IH (a + bsz b)). destruct (blisted b); cbn [length]; lia.
Qed.

Lemma frees_split a bs b :
  b ∈ frees a bs -> exists l1 sz u l2, bs = l1 ++ Blk sz u true :: l2 /\ b = a + total l1.
Proof.
  revert a. induction bs as [|[s u x] bs IH]; intros a Hin; cbn [frees bsz blisted] in Hin; [set_solver|].
  apply elem_of_app in Hin as [Hin|Hin].
  - destruct x; [|set_solver]. apply list_elem_of_singleton in Hin as ->.
    exists [], s, u, bs. cbn. split; [done|lia].
  - apply IH in Hin as (l1 & s' & u' & l2 & -> & ->). exists (Blk s u x :: l1), s', u', l2.
    cbn [app total bsz]. split; [done|lia].
Qed.

Lemma frees_free m head s e bs b :
  ginv m head s e bs -> b ∈ frees s bs ->
  exists l1 l2, bs = l1 ++ Blk (h_size m b) false true :: l2 /\ b = s + total l1 /\
                0 < b /\ h_magic m b = KHEAP_MAGIC_FREE.
Proof.
  intros HG Hb. apply frees_split in Hb as (l1 & sz & u & l2 & -> & ->).
  pose proof (g_wf _ _ _ _ _ HG) as Hw. rewrite Forall_app, Forall_cons in Hw.
  destruct Hw as (_ & (_ & _ & Hu) & _). cbn in Hu. rewrite Hu in * by done.
  assert (Hm : meta_at m (s + total l1) (Blk sz false true)).
  { eapply tiles_at; [done|apply HG]. }
  exists l1, l2. rewrite (ma_size _ _ _ Hm), (ma_magic _ _ _ Hm).
  pose proof (G_block (Heap m head s e 0 0 0 tt) _ _ _ HG) as Hb. cbn in Hb. split_and!; done || lia.
Qed.

(** The scan of the free list terminates within its fuel with the first block
    that fits, or with NULL when none does. *)
Lemma find_ok {S} (h : heap S) bs size :
  G h bs ->
  exists r, find_free_block size h = Some r /\
    (r = 0 \/ exists l1 sz l2, bs = l1 ++ Blk sz false true :: l2 /\ r = heap_start h + total l1 /\ size <= sz).
Proof.
  intros HG. pose proof HG as [_ Hwf He (fl & [p Hd] & Hp) _].
  exists (first_fit (hm h) size fl). split.
  - unfold find_free_block. eapply find_from_spec; [exact Hd| |].
    + intros b. rewrite Hp. intros Hb. destruct (frees_free _ _ _ _ _ _ HG Hb) as (? & ? & _ & _ & ?). done.
    + rewrite Hp. unfold list_fuel, HEAP_MIN_BLOCK. pose proof (frees_length (heap_start h) bs Hwf).
      enough (Z.of_nat (length (frees (heap_start h) bs)) <= (heap_end h - heap_start h) / 64) by lia.
      apply Z.div_le_lower_bound; lia.
  - unfold first_fit. destruct (filter _ fl) as [|b l] eqn:E; [by left|right]. cbn [hd].
    assert (Hb : b ∈ filter (fun b => size <= h_size (hm h) b) fl) by (rewrite E; left).
    apply list_elem_of_filter in Hb as [Hsz Hb]. rewrite Hp in Hb.
    destruct (frees_free _ _ _ _ _ _ HG Hb) as (l1 & l2 & -> & -> & _).
    eexists l1, _, l2. done.
Qed.

(** The outcome of a successful allocation of [size] bytes. *)
Record allocated {S} (h : heap S) (bs : list blk) (size p : Z) (h' : heap S) (bs' : list blk) : Prop := {
  al_inv : inv h' bs';
  al_useds : exists sz, size + HDR + FTR <= sz /\
               useds (heap_start h) bs' ≡ₚ (p - HDR, sz) :: useds (heap_start h) bs;
  al_only : only (hm h) (hm h') (fun x => unused (heap_start h) bs x \/ heap_end h <= x);
  al_align : p mod 16 = 0;
  al_bad : bad_frees h' = bad_frees h;
}.

Lemma total_mod16 bs : Forall blk_wf bs -> total bs mod 16 = 0.
Proof.
  induction 1 as [|b bs (_ & H & _) _ IH]; cbn [total]; [done|]. by rewrite Z.add_mod, H, IH.
Qed.

Lemma useds_listed a rest : Forall (fun b => bused b = false /\ blisted b = true) rest -> useds a rest = [].
Proof.
  intros Hr. revert a. induction Hr as [|b rest [Hb _] _ IH]; intros a; cbn [useds]; [done|].
  rewrite Hb. apply IH.
Qed.

Lemma take_block_inv {S} (h : heap S) l1 sz l2 size :
  inv h (l1 ++ Blk sz false true :: l2) -> HEAP_MIN_BLOCK <= size <= sz -> size mod 16 = 0 ->
  let b := heap_start h + total l1 in
  exists h' bs', take_block b size h = (b + HDR, h') /\ inv h' bs' /\
    (exists sz', size <= sz' /\
       useds (heap_start h) bs' ≡ₚ (b, sz') :: useds (heap_start h) (l1 ++ Blk sz false true :: l2)) /\
    only (hm h) (hm h') (unused (heap_start h) (l1 ++ Blk sz false true :: l2)) /\
    bad_frees h' = bad_frees h /\ heap_end h' = heap_end h.
Proof.
  intros [HG Hs Hu Hst] Hsz H16. cbn zeta. pose proof (take_block_ok h l1 sz l2 size HG Hsz H16) as HT.
  cbn zeta in HT. pose proof (cut_props sz size Hsz) as Hc.
  destruct (take_block _ size h) as [p h']. destruct (cut sz size) as [sz' rest].
  destruct HT as (-> & HG' & Ho & [R1 R2 _ R4 R5 _]). cbn in R1, R2, R4, R5. destruct Hc as (C1 & C2 & _ & C4).
  set (s := heap_start h) in *.
  assert (HU : useds s (l1 ++ Blk sz' true false :: rest ++ l2) ≡ₚ
               (s + total l1, sz') :: useds s (l1 ++ Blk sz false true :: l2)).
  { rewrite !useds_app. cbn [useds bsz bused app]. rewrite useds_app, (useds_listed _ rest) by done.
    cbn [app]. replace (s + total l1 + sz' + total rest) with (s + total l1 + sz) by lia.
    by rewrite <- Permutation_middle. }
  exists h', (l1 ++ Blk sz' true false :: rest ++ l2). split_and!; try done; [split|].
  - done.
  - unfold steady in *. rewrite Forall_app, Forall_cons in *. rewrite Forall_app.
    destruct Hs as (? & _ & ?). split_and!; [done|done| |done].
    eapply Forall_impl; [exact C4|]. by intros b [-> ->].
  - rewrite R1, R4. fold s. rewrite (used_bytes_perm _ _ HU). cbn [used_bytes]. rewrite Hu. fold s.
    pose proof (used_bytes_bound s _ (g_wf _ _ _ _ _ HG')) as Hb. fold s in R1. rewrite R1 in HG'.
    rewrite (used_bytes_perm _ _ HU) in Hb. cbn [used_bytes] in Hb.
    pose proof (used_bytes_bound s _ (g_wf _ _ _ _ _ HG)). destruct HG' as [_ _ E _ B].
    unfold HEAP_MIN_BLOCK in *. rewrite u64_small; lia.
  - by rewrite R1.
  - by exists sz'.
Qed.

Section kmalloc.
Context {S : Type} `{PageSource S}.
Implicit Types h : heap S.

(** An expansion either leaves everything but the page layer alone, or moves the
    end of the heap. *)
Lemma kheap_expand_ok n h :
  0 <= n -> 0 <= heap_end h -> heap_end h + n * PAGE < 2 ^ 64 ->
  exists r h', kheap_expand n h = (r, h') /\ hm h' = hm h /\ free_list_head h' = free_list_head h /\
    heap_start h' = heap_start h /\ heap_used h' = heap_used h /\ bad_frees h' = bad_frees h /\
    (r = 0 /\ heap_end h' = heap_end h \/ r = heap_end h /\ heap_end h' = heap_end h + n * PAGE).
Proof.
  unfold PAGE. intros. unfold kheap_expand, PAGE. rewrite (u64_small (n * 4096)), u64_small by lia.
  destruct (expand_map _ _ _ _ _) as [[] s]; (eexists _, _; split; [done|]); cbn;
    split_and!; try done; [by right|by left].
Qed.

(** The new pages become a raw block at the end of the tiling. *)
Lemma extend_ok m m' head s e bs sz :
  ginv m head s e bs -> 64 <= sz -> sz mod 16 = 0 -> e + sz < 2 ^ 64 -> e + sz - s < 2 ^ 32 ->
  only m m' (fun x => e <= x < e + sz) ->
  ginv m' head s (e + sz) (bs ++ [Blk sz false false]).
Proof.
  intros [Ht Hwf He (fl & Hd & Hp) Hb] H1 H2 H3 H4 Ho.
  assert (HG : ginv m head s (e + sz) (bs ++ [Blk sz false false] ++ [])).
  { split.
    - apply tiles_app. split; [done|]. done.
    - apply Forall_app. split; [done|]. repeat constructor; cbn; unfold HEAP_MIN_BLOCK; done || lia.
    - rewrite total_app. cbn [app total bsz]. lia.
    - exists fl. rewrite frees_app. cbn [frees blisted app]. by rewrite app_nil_r.
    - lia. }
  eapply (replace_ok m m' _ _ _ _ _ [Blk sz false false]) in HG; [by rewrite app_nil_r in HG| | | |done|done].
  - eapply only_mono; [|exact Ho]. cbn. intros x Hx. split; [lia|]. intros (c & Hc & _). set_solver.
  - done.
  - repeat constructor; cbn; unfold HEAP_MIN_BLOCK; done || lia.
Qed.

(** Room for a request: the heap stays below 4 GiB, the range of the 32-bit block
    sizes. *)
Definition room h (size : Z) : Prop := heap_end h - heap_start h + size + 2 * PAGE < 2 ^ 32.

Lemma pages_for total :
  0 < total < 2 ^ 32 ->
  let n := u64 (total + PAGE - 1) / PAGE in
  (if n <? 1 then 1 else n) = n /\ total <= n * PAGE < total + PAGE /\ u64 (n * PAGE) = n * PAGE.
Proof.
  intros Ht. cbn zeta. unfold PAGE in *. rewrite u64_small by lia.
  replace (total + 4096 - 1) with (total + 4095) by lia.
  pose proof (Z.div_mod (total + 4095) 4096). pose proof (Z.mod_pos_bound (total + 4095) 4096).
  destruct (Z.ltb_spec ((total + 4095) / 4096) 1); [lia|]. split_and!; try lia. apply u64_small. lia.
Qed.

(** A fresh region is put on the free list. *)
Lemma grow_ok h h1 bs n :
  inv h bs -> 0 < n -> heap_end h + n * PAGE - heap_start h < 2 ^ 32 ->
  hm h1 = hm h -> free_list_head h1 = free_list_head h -> heap_start h1 = heap_start h ->
  heap_used h1 = heap_used h -> heap_end h1 = heap_end h + n * PAGE ->
  let h2 := add_to_free_list (heap_end h) (on_mem (write_free_block (heap_end h) (n * PAGE)) h1) in
  inv h2 (bs ++ [Blk (n * PAGE) false true]) /\
  only (hm h) (hm h2) (fun x => unused (heap_start h) bs x \/ heap_end h <= x) /\
  bad_frees h2 = bad_frees h1 /\ heap_start h2 = heap_start h.
Proof.
  unfold PAGE. intros [HG Hs Hu Hst] Hn Hroom E1 E2 E3 E4 E5. cbn zeta.
  pose proof HG as [_ Hwf He _ Hbd]. unfold HEAP_START_VIRTUAL in *.
  pose proof (total_pos _ Hwf).
  destruct (write_free_ok (hm h) (heap_end h) (n * 4096) true) as [Hm Ho]; [unfold HEAP_MIN_BLOCK; lia|lia|].
  set (m1 := write_free_block _ _ _) in *.
  assert (HG1 : ginv m1 (free_list_head h) (heap_start h) (heap_end h + n * 4096)
                  (bs ++ [Blk (n * 4096) false false])).
  { apply (extend_ok (hm h)); try done; try lia.
    replace (n * 4096) with (n * 256 * 16) by lia. apply Z.mod_mul. lia. }
  set (h1' := on_mem _ h1).
  assert (Em : hm h1' = m1) by (cbn; by rewrite E1).
  pose proof (add_ok h1' bs (n * 4096) []) as HA.
  change (heap_start h1') with (heap_start h1) in HA. change (heap_end h1') with (heap_end h1) in HA.
  change (free_list_head h1') with (free_list_head h1) in HA.
  rewrite Em, E2, E3, E5, <- He in HA. destruct (HA HG1 Hm) as (HG2 & Ho2 & Hr). clear HA.
  set (h2 := add_to_free_list _ _) in *. clearbody h2. destruct Hr as [R1 R2 _ R4 R5 _]. cbn in R1, R2, R4, R5.
  clearbody m1. split_and!.
  - split.
    + done.
    + unfold steady in *. rewrite Forall_app. split; [done|]. by repeat constructor.
    + rewrite R4, E4, Hu, R1, E3, useds_app. cbn [useds bused app]. by rewrite app_nil_r.
    + by rewrite R1, E3.
  - eapply only_trans; [eapply only_mono; [|exact Ho]; cbn; intros; right; lia|].
    eapply only_mono; [|exact Ho2]. intros x Hx. cbn.
    apply frees_unused, unused_app in Hx; [|apply HG2].
    destruct Hx as [Hx|[[_ Hx]|[]]]; [by left|right; lia].
  - done.
  - by rewrite R1.
Qed.

Lemma kmalloc_ok h bs size :
  inv h bs -> 0 < size -> room h size ->
  exists p h', kmalloc size h = Some (p, h') /\
    ((p = 0 /\ inv h' bs /\ hm h' = hm h /\ heap_start h' = heap_start h /\ bad_frees h' = bad_frees h)
     \/ exists bs', allocated h bs size p h' bs').
Proof.
  intros Hi Hsz Hroom. pose proof Hi as [HG Hs Hu Hst]. unfold room, PAGE in Hroom.
  unfold kmalloc, kmalloc_locked. destruct (Z.eqb_spec size 0) as [?|_]; [lia|]. cbn zeta.
  destruct (request_size_spec size) as (Q1 & Q2 & Q3);
    [pose proof HG as [_ Hw E _ _]; pose proof (total_pos _ Hw); lia|].
  set (ts := request_size size) in *. clearbody ts.
  assert (Halign : forall l1 l2, bs = l1 ++ l2 -> (heap_start h + total l1 + HDR) mod 16 = 0).
  { intros l1 l2 ->. pose proof (g_wf _ _ _ _ _ HG) as Hw. apply Forall_app in Hw as [Hw _].
    apply total_mod16 in Hw. rewrite Hst, Z.add_mod, (Z.add_mod _ (total l1)), Hw by lia. done. }
  destruct (find_ok h bs ts HG) as (r & -> & Hr). cbn [mbind option_bind].
  destruct Hr as [->|(l1 & sz & l2 & -> & -> & Hle)].
  2:{ pose proof (G_block _ _ _ _ HG) as Hb. cbn in Hb. destruct (Z.eqb_spec (heap_start h + total l1) 0); [lia|].
      destruct (take_block_inv h l1 sz l2 ts Hi) as (h' & bs' & -> & A1 & (sz' & A2 & A3) & A4 & A5 & A6);
        [lia|done|].
      eexists _, _. split; [done|]. right. exists bs'. split; try done.
      - exists sz'. split; [lia|]. by replace (heap_start h + total l1 + HDR - HDR)
          with (heap_start h + total l1) by lia.
      - eapply only_mono; [|exact A4]. by left.
      - by eapply Halign. }
  cbn [Z.eqb]. pose proof HG as [_ Hwf He _ Hbd]. pose proof (total_pos _ Hwf) as Htp.
  unfold HEAP_MIN_BLOCK, HEAP_START_VIRTUAL in *.
  destruct (pages_for ts) as (-> & Hn & ->); [lia|]. set (n := _ / PAGE) in *. clearbody n.
  destruct (kheap_expand_ok n h) as (r & h1 & -> & B1 & B2 & B3 & B4 & B5 & B6); [unfold PAGE in *; lia..|].
  destruct B6 as [[-> B6]|[-> B6]].
  { cbn [Z.eqb]. eexists _, _. split; [done|]. left. split_and!; try done.
    split; [|done| |]; rewrite ?B1, ?B2, ?B3, ?B4, ?B6; done. }
  destruct (Z.eqb_spec (heap_end h) 0); [lia|].
  destruct (grow_ok h h1 bs n Hi) as (C1 & C2 & C3 & C4); try done; [unfold PAGE in *; lia..|].
  set (h2 := add_to_free_list _ _) in *. clearbody h2.
  destruct (take_block_inv h2 bs (n * PAGE) [] ts C1) as (h' & bs' & D & A1 & (sz' & A2 & A3) & A4 & A5 & A6);
    [unfold HEAP_MIN_BLOCK; lia|done|].
  rewrite C4, <- He in D, A3. rewrite C4 in A4. rewrite D. eexists _, _. split; [done|].
  right. exists bs'. split; try done.
  - exists sz'. split; [lia|]. replace (heap_end h + HDR - HDR) with (heap_end h) by lia.
    rewrite A3, useds_app. cbn [useds bused app]. by rewrite app_nil_r.
  - eapply only_trans; [exact C2|]. eapply only_mono; [|exact A4]. intros x Hx.
    apply unused_app in Hx. destruct Hx as [Hx|[[_ Hx]|[]]]; [by left|right; lia].
  - rewrite He. apply (Halign bs []). by rewrite app_nil_r.
  - congruence.
Qed.

End kmalloc.

(** * The heap as its clients use it

    [reach h live]: [h] is a heap after kheap_init and any sequence of calls, with
    [live] the allocations (pointer and requested size) not freed yet. Clients may
    write the bytes they asked for, and no others. *)

Definition in_buf (x : Z) (b : Z * Z) : Prop := b.1 <= x < b.1 + b.2.

Section reach.
Context {S : Type} `{PageSource S}.
Implicit Types h : heap S.

Inductive reach : heap S -> list (Z * Z) -> Prop :=
  | reach_init h0 h : kheap_init h0 = Some h -> reach h []
  | reach_malloc h live size p h' :
      reach h live -> 0 < size -> room h size -> kmalloc size h = Some (p, h') ->
      reach h' (if p =? 0 then live else (p, size) :: live)
  | reach_free h l1 p size l2 :
      reach h (l1 ++ (p, size) :: l2) -> reach (kfree p h) (l1 ++ l2)
  | reach_write h live m :
      reach h live -> only (hm h) m (fun x => exists b, b ∈ live /\ in_buf x b) ->
      reach (with_mem m h) live.

(** A live allocation sits inside the payload of its block. *)
Definition holds (b u : Z * Z) : Prop := u.1 = b.1 - HDR /\ 0 < b.2 /\ b.2 + HDR + FTR <= u.2.

Definition models h (live : list (Z * Z)) : Prop :=
  exists bs us, inv h bs /\ useds (heap_start h) bs ≡ₚ us /\ Forall2 holds live us.

Lemma init_links m b size :
  HEAP_MIN_BLOCK <= size < 2 ^ 32 -> 0 <= b < 2 ^ 64 ->
  h_next (write_free_block b size m) b = 0 /\ h_prev (write_free_block b size m) b = 0.
Proof.
  unfold HEAP_MIN_BLOCK. intros Hs Hb. unfold write_free_block. set (m0 := set_prev b 0 _).
  assert (E : h_size m0 b = size) by (unfold m0; mem_eval; by rewrite u32_small by lia).
  assert (En : h_next m0 b = 0 /\ h_prev m0 b = 0) by (unfold m0; mem_eval; done).
  clearbody m0. unfold get_footer, FTR. rewrite E. unfold h_next, h_prev in *. mem_eval. done.
Qed.

Lemma kheap_init_ok h0 h : kheap_init h0 = Some h -> inv h [Blk HEAP_INITIAL_SIZE false true].
Proof.
  unfold kheap_init. destruct (init_map _ _ _) as [s|]; [|done]. cbn [mbind option_bind].
  intros [= <-].
  assert (R : HEAP_MIN_BLOCK <= HEAP_INITIAL_SIZE < 2 ^ 32 /\ 0 <= HEAP_START_VIRTUAL < 2 ^ 64) by done.
  destruct (write_free_ok (hm h0) _ _ true (proj1 R) (proj2 R)) as [Hm _].
  destruct (init_links (hm h0) _ _ (proj1 R) (proj2 R)) as [E1 E2].
  set (m := write_free_block _ _ _) in *. clearbody m.
  split; cbn [hm free_list_head heap_start heap_end heap_used]; [|by repeat constructor|done|done].
  split.
  - done.
  - repeat constructor; done.
  - done.
  - exists [HEAP_START_VIRTUAL]. split; [|done]. exists HEAP_START_VIRTUAL. cbn [seg]. by rewrite E1, E2.
  - done.
Qed.

Lemma useds_not_unused a bs b sz x :
  Forall blk_wf bs -> (b, sz) ∈ useds a bs -> b <= x < b + sz -> ~ unused a bs x.
Proof.
  intros Hwf Hin Hx. apply useds_split in Hin as (l1 & y & l2 & -> & ->).
  rewrite Forall_app, Forall_cons in Hwf. destruct Hwf as (W1 & [W2 _] & W3).
  assert (Hout : forall c l z, Forall blk_wf l -> unused c l z -> c <= z < c + total l).
  { clear. intros c l z Hwf. revert c. unfold blk_wf, HEAP_MIN_BLOCK in *.
    induction Hwf as [|b l [Hb _] Hw IH]; intros c; cbn [unused total]; [done|].
    pose proof (total_pos l Hw). intros [[_ ?]|Hz]; [lia|]. apply IH in Hz. lia. }
  rewrite unused_app. cbn [unused bused bsz]. intros [Hu|[[? _]|Hu]]; [|done|].
  - apply Hout in Hu; [lia|done].
  - apply Hout in Hu; [|done]. cbn [bsz] in *. lia.
Qed.

Lemma useds_bounds a bs b sz :
  Forall blk_wf bs -> (b, sz) ∈ useds a bs -> a <= b /\ b + sz <= a + total bs.
Proof.
  intros Hwf Hin. apply useds_split in Hin as (l1 & y & l2 & -> & ->).
  rewrite Forall_app, Forall_cons in Hwf. destruct Hwf as (W1 & [W2 _] & W3).
  rewrite total_app. cbn [total bsz].
  pose proof (total_pos _ W1). pose proof (total_pos _ W3). lia.
Qed.

(** Client stores inside allocated payloads keep the invariant. *)
Lemma ginv_payload m m' head s e bs P :
  ginv m head s e bs -> steady bs -> only m m' P ->
  (forall x, P x -> exists b sz, (b, sz) ∈ useds s bs /\ b + HDR <= x < b + sz - FTR) ->
  ginv m' head s e bs.
Proof.
  intros [Ht Hwf He (fl & [p Hd] & Hp) Hb] Hs Ho HP. unfold HDR, FTR in HP. split; try done.
  - assert (Hgen : forall a l, Forall blk_wf l -> steady l -> tiles m a l ->
      (forall x, P x -> x < a \/ exists b sz, (b, sz) ∈ useds a l /\ b + 32 <= x < b + sz - 16) ->
      tiles m' a l).
    { clear -Ho. intros a l Hwf. revert a. induction Hwf as [|b l (Hb & _ & Hl) Hw IH]; intros a Hs Ht HP; [done|].
      cbn [tiles] in *. apply Forall_cons in Hs as [Hs1 Hs]. destruct Ht as [Ht1 Ht]. unfold HEAP_MIN_BLOCK in *.
      assert (Hu : forall x, P x -> x < a \/ bused b = true /\ a + 32 <= x < a + bsz b - 16 \/
         exists c sz, (c, sz) ∈ useds (a + bsz b) l /\ c + 32 <= x < c + sz - 16).
      { intros x Hx. destruct (HP x Hx) as [?|(c & sz & Hin & Hr)]; [by left|right]. cbn [useds] in Hin.
        apply elem_of_app in Hin as [Hin|Hin]; [|right; eauto]. left.
        destruct (bused b); [|set_solver]. apply list_elem_of_singleton in Hin. simplify_eq. done. }
      split.
      - intros Hx. eapply meta_only; [exact Ho| |by apply Ht1]. intros x Hr HPx.
        destruct (Hu x HPx) as [?|[[_ ?]|(c & sz & Hin & ?)]]; [lia|lia|].
        apply useds_bounds in Hin; [lia|done].
      - apply IH; [done|done|]. intros x Hx. destruct (Hu x Hx) as [?|[[_ ?]|?]]; [left; lia|left; lia|by right]. }
    apply Hgen; [done..|]. intros x Hx. right. by apply HP.
  - exists fl. split; [|done]. exists p. eapply seg_only; [exact Ho| |exact Hd].
    intros b x Hb' Hx HPx. destruct (HP x HPx) as (c & sz & Hin & Hr).
    eapply (useds_not_unused s bs c sz x); [done|done|lia|]. apply frees_unused; [done|].
    exists b. by rewrite <- Hp.
Qed.

Lemma models_payload h live x :
  models h live -> (exists b, b ∈ live /\ in_buf x b) ->
  exists bs us, inv h bs /\ useds (heap_start h) bs ≡ₚ us /\ Forall2 holds live us /\
    exists b sz, (b, sz) ∈ useds (heap_start h) bs /\ b + HDR <= x < b + sz - FTR.
Proof.
  intros (bs & us & Hi & Hp & Hf) (b & Hb & Hx). exists bs, us. split_and!; try done.
  apply list_elem_of_lookup in Hb as [i Hb].
  destruct (Forall2_lookup_l _ _ _ _ _ Hf Hb) as ([a sz] & Hu & (E & _ & Hsz)). cbn in E, Hsz.
  exists a, sz. split; [rewrite Hp; by apply list_elem_of_lookup_2 in Hu|].
  unfold in_buf in Hx. lia.
Qed.

Lemma holds_payload live us x :
  Forall2 holds live us -> (exists b, b ∈ live /\ in_buf x b) ->
  exists b sz, (b, sz) ∈ us /\ b + HDR <= x < b + sz - FTR.
Proof.
  intros Hf (b & Hb & Hx). apply list_elem_of_lookup in Hb as [i Hb].
  destruct (Forall2_lookup_l _ _ _ _ _ Hf Hb) as ([a sz] & Hu & (E & _ & Hsz)). cbn in E, Hsz.
  exists a, sz. split; [by apply list_elem_of_lookup_2 in Hu|]. unfold in_buf in Hx. lia.
Qed.

Lemma models_malloc h live size p h' :
  models h live -> 0 < size -> room h size -> kmalloc size h = Some (p, h') ->
  models h' (if p =? 0 then live else (p, size) :: live).
Proof.
  intros (bs & us & Hi & Hp & Hf) Hsz Hr Hk.
  destruct (kmalloc_ok h bs size Hi Hsz Hr) as (q & h1 & Hk' & HA). rewrite Hk in Hk'. simplify_eq.
  destruct HA as [(-> & Hi' & _ & Hst & _)|(bs' & [Hi' (sz & Hle & Hu) _ _ _])].
  - exists bs, us. by rewrite Hst.
  - assert (Hst : heap_start h1 = heap_start h) by by rewrite (i_start _ _ Hi), (i_start _ _ Hi').
    destruct (Z.eqb_spec q 0) as [->|Hq].
    { exfalso. assert (Hin : (0 - HDR, sz) ∈ useds (heap_start h) bs') by (rewrite Hu; left).
      rewrite <- Hst in Hin. apply useds_bounds in Hin; [|apply Hi'].
      rewrite (i_start _ _ Hi') in Hin. unfold HEAP_START_VIRTUAL, HDR in Hin. lia. }
    exists bs', ((q - HDR, sz) :: us). rewrite Hst. split_and!; [done|by rewrite Hu, Hp|].
    constructor; [|done]. unfold holds. cbn. split_and!; lia.
Qed.

Lemma models_free h l1 p size l2 :
  models h (l1 ++ (p, size) :: l2) -> models (kfree p h) (l1 ++ l2).
Proof.
  intros (bs & us & Hi & Hp & Hf).
  apply Forall2_app_inv_l in Hf as (u1 & u2 & Hf1 & Hf2 & ->).
  apply Forall2_cons_inv_l in Hf2 as ([a sz] & u3 & (E & _ & _) & Hf2 & ->). cbn in E. subst a.
  destruct (kfree_ok h bs p sz Hi) as (bs' & Hi' & Hu & _ & Hr); [rewrite Hp; set_solver|].
  exists bs', (u1 ++ u3). rewrite (sr_start _ _ Hr). cbn. split_and!; [done| |by apply Forall2_app].
  rewrite Hp, <- Permutation_middle in Hu. by apply Permutation_cons_inv in Hu.
Qed.

Lemma reach_models h live : reach h live -> models h live.
Proof.
  induction 1 as [h0 h Hi|h live size p h' _ IH Hs Hr Hk|h l1 p size l2 _ IH|h live m _ IH Ho].
  - exists [Blk HEAP_INITIAL_SIZE false true], []. split_and!; [by eapply kheap_init_ok|done|done].
  - by eapply models_malloc.
  - by eapply models_free.
  - destruct IH as (bs & us & [HG Hs Hu Hst] & Hp & Hf). exists bs, us. split_and!; [|done|done].
    split; [|done|done|done]. cbn. eapply ginv_payload; [done|done|exact Ho|].
    intros x Hx. destruct (holds_payload _ _ _ Hf Hx) as (b & sz & Hin & Hr).
    exists b, sz. by rewrite Hp.
Qed.

(** ** The integrity walker *)

Lemma check_walk_ok m hend a bs used fuel :
  Forall blk_wf bs -> steady bs -> tiles m a bs -> hend = a + total bs ->
  0 <= used -> used + used_bytes (useds a bs) < 2 ^ 64 -> (length bs < fuel)%nat ->
  check_walk fuel m hend a used = Some (inl (used + used_bytes (useds a bs))).
Proof.
  intros Hwf. revert a used fuel. induction Hwf as [|b bs (H1 & H2 & H3) Hw IH];
    intros a used fuel Hs Ht He Hu0 Hu Hf; (destruct fuel as [|fuel]; [cbn in Hf; lia|]); cbn [check_walk].
  - cbn in He. destruct (Z.ltb_spec a hend); [lia|]. cbn. by rewrite Z.add_0_r.
  - apply Forall_cons in Hs as [Hs1 Hs]. cbn [tiles total useds] in *. destruct Ht as [Ht1 Ht].
    assert (Hm : meta_at m a b) by (apply Ht1; rewrite Hs1; by destruct (bused b)).
    unfold HEAP_MIN_BLOCK in *. pose proof (total_pos bs Hw).
    destruct (Z.ltb_spec a hend); [|lia].
    assert (Hok : block_ok m hend a = true).
    { unfold block_ok, get_footer. destruct Hm as [-> -> -> -> -> ->].
      rewrite !Z.eqb_refl. unfold HEAP_MIN_BLOCK, HEAP_ALIGNMENT.
      change (16 - 1) with (Z.ones 4). rewrite Z.land_ones by lia. change (2 ^ 4) with 16. rewrite H2.
      destruct (Z.leb_spec 64 (bsz b)); [|lia]. destruct (Z.leb_spec (a + bsz b) hend); [|lia].
      by destruct (bused b). }
    rewrite Hok, (ma_size _ _ _ Hm), (ma_magic _ _ _ Hm). rewrite used_bytes_app in Hu |- *.
    pose proof (used_bytes_bound (a + bsz b) bs Hw).
    destruct (bused b); cbn [used_bytes] in *.
    + rewrite Z.eqb_refl, u64_small by lia. rewrite IH; [do 2 f_equal; lia|done|done|lia|lia|lia|cbn in Hf; lia].
    + change (KHEAP_MAGIC_FREE =? KHEAP_MAGIC_USED) with false.
      rewrite IH; [do 2 f_equal; lia|done|done|lia|lia|lia|cbn in Hf; lia].
Qed.

Lemma check_list_ok m hs he l p c p' g fuel :
  seg m p c l p' 0 ->
  (forall b, b ∈ l -> 0 < b /\ hs <= b < he /\ h_magic m b = KHEAP_MAGIC_FREE) ->
  g + Z.of_nat (length l) <= 2 ^ 20 -> (length l < fuel)%nat ->
  check_list fuel m hs he c g = Some None.
Proof.
  revert p c g fuel. induction l as [|b l IH]; intros p c g fuel Hs Hl Hg Hf; (destruct fuel as [|fuel]; [cbn in Hf; lia|]);
    cbn [check_list].
  - by destruct Hs as [_ ->].
  - destruct Hs as (-> & _ & Hs). destruct (Hl b) as (B1 & B2 & B3); [left|]. rewrite B3, Z.eqb_refl.
    destruct (Z.eqb_spec b 0); [lia|]. destruct (Z.ltb_spec b hs); [lia|]. destruct (Z.leb_spec he b); [lia|].
    cbn [length] in *. destruct (Z.ltb_spec (2 ^ 20) (g + 1)); [lia|]. cbn [orb negb].
    eapply IH; [exact Hs| |lia|lia]. intros. apply Hl. by right.
Qed.

Lemma blocks_length bs : Forall blk_wf bs -> 64 * Z.of_nat (length bs) <= total bs.
Proof.
  unfold blk_wf, HEAP_MIN_BLOCK. induction 1 as [|b bs (H1 & _) _ IH]; cbn [length total]; lia.
Qed.

Lemma kheap_check_ok h bs :
  inv h bs -> heap_end h - heap_start h <= 2 ^ 26 -> kheap_check h = Some (0, 0).
Proof.
  intros [HG Hs Hu _] Hlen. pose proof HG as [Ht Hwf He (fl & [p Hd] & Hp) Hb].
  unfold kheap_check. pose proof (used_bytes_bound (heap_start h) bs Hwf).
  rewrite (check_walk_ok _ _ _ bs); try done; try lia.
  2:{ unfold list_fuel, HEAP_MIN_BLOCK. pose proof (blocks_length bs Hwf).
      enough (Z.of_nat (length bs) <= (heap_end h - heap_start h) / 64) by lia.
      apply Z.div_le_lower_bound; lia. }
  cbn [mbind option_bind]. pose proof (frees_length (heap_start h) bs Hwf) as Hfl. rewrite <- Hp in Hfl.
  rewrite (check_list_ok _ _ _ fl 0 _ p); [|exact Hd| |lia|lia].
  - cbn [mbind option_bind]. rewrite Z.add_0_l, <- Hu, Z.eqb_refl. done.
  - intros b. rewrite Hp. intros Hbf.
    destruct (frees_free _ _ _ _ _ _ HG Hbf) as (l1 & l2 & _ & _ & ? & ?).
    apply frees_bounds in Hbf; [|done]. split_and!; done || lia.
Qed.

(** ** Live allocations *)

Lemma useds_apart a bs :
  Forall blk_wf bs -> NoDup (useds a bs) /\
  forall b sz c sz', (b, sz) ∈ useds a bs -> (c, sz') ∈ useds a bs -> (b, sz) <> (c, sz') ->
    b + sz <= c \/ c + sz' <= b.
Proof.
  intros Hwf. revert a. induction Hwf as [|b bs [Hb _] Hw IH]; intros a; cbn [useds].
  - split; [constructor|set_solver].
  - destruct (IH (a + bsz b)) as [IH1 IH2]. unfold HEAP_MIN_BLOCK in *.
    assert (Hbd := fun c s => useds_bounds (a + bsz b) bs c s Hw).
    destruct (bused b); cbn [app]; [|done]. split.
    + constructor; [|done]. intros Hin. apply Hbd in Hin. lia.
    + intros b1 s1 b2 s2. rewrite !elem_of_cons. intros [E1|H1] [E2|H2] Hne; simplify_eq.
      * apply Hbd in H2. lia.
      * apply Hbd in H1. lia.
      * by apply IH2.
Qed.

Lemma useds_align a bs b sz :
  Forall blk_wf bs -> a mod 16 = 0 -> (b, sz) ∈ useds a bs -> b mod 16 = 0.
Proof.
  intros Hwf Ha Hin. apply useds_split in Hin as (l1 & x & l2 & -> & ->).
  apply Forall_app in Hwf as [Hw _]. by rewrite Z.add_mod, Ha, (total_mod16 _ Hw).
Qed.

Lemma models_buf h live p n :
  models h live -> (p, n) ∈ live ->
  p mod 16 = 0 /\ 0 < n /\ heap_start h + HDR <= p /\ p + n + FTR <= heap_end h.
Proof.
  intros (bs & us & Hi & Hp & Hf) Hb. apply list_elem_of_lookup in Hb as [i Hb].
  destruct (Forall2_lookup_l _ _ _ _ _ Hf Hb) as ([a sz] & Hu & (E & Hn & Hsz)). cbn in E, Hn, Hsz. subst a.
  apply list_elem_of_lookup_2 in Hu. rewrite <- Hp in Hu. pose proof Hi as [[_ Hwf He _ _] _ _ Hst].
  pose proof (useds_bounds _ _ _ _ Hwf Hu). apply useds_align in Hu; [|done|by rewrite Hst].
  unfold HDR, FTR in *. split_and!; [|lia..].
  replace p with (p - 32 + 32) by lia. by rewrite Z.add_mod, Hu.
Qed.

Lemma models_apart h live i j p n q k :
  models h live -> i <> j -> live !! i = Some (p, n) -> live !! j = Some (q, k) ->
  p + n + FTR + HDR <= q \/ q + k + FTR + HDR <= p.
Proof.
  intros (bs & us & Hi & Hp & Hf) Hij H1 H2. pose proof Hi as [[_ Hwf He _ _] _ _ Hst].
  destruct (useds_apart (heap_start h) bs Hwf) as [Hnd Hap]. rewrite Hp in Hnd.
  destruct (Forall2_lookup_l _ _ _ _ _ Hf H1) as ([a s1] & U1 & (E1 & _ & S1)).
  destruct (Forall2_lookup_l _ _ _ _ _ Hf H2) as ([b s2] & U2 & (E2 & _ & S2)).
  cbn in E1, E2, S1, S2. unfold HDR, FTR in *.
  assert (Hne : (a, s1) <> (b, s2)).
  { intros Heq. rewrite <- Heq in U2. apply Hij. by eapply NoDup_lookup. }
  apply list_elem_of_lookup_2 in U1, U2. rewrite <- Hp in U1, U2. destruct (Hap _ _ _ _ U1 U2 Hne); lia.
Qed.

Lemma models_live_block h live p n :
  models h live -> (p, n) ∈ live ->
  exists sz, h_magic (hm h) (p - HDR) = KHEAP_MAGIC_USED /\ h_size (hm h) (p - HDR) = sz /\
    n + HDR + FTR <= sz < 2 ^ 32.
Proof.
  intros (bs & us & Hi & Hp & Hf) Hb. apply list_elem_of_lookup in Hb as [i Hb].
  destruct (Forall2_lookup_l _ _ _ _ _ Hf Hb) as ([a sz] & Hu & (E & Hn & Hsz)). cbn in E, Hn, Hsz. subst a.
  apply list_elem_of_lookup_2 in Hu. rewrite <- Hp in Hu. destruct Hi as [HG Hs _ _].
  apply useds_split in Hu as (l1 & x & l2 & -> & ->).
  pose proof (steady_at _ _ _ _ HG Hs) as Hm. pose proof (G_block _ _ _ _ HG) as Hb'. cbn in Hb'.
  exists sz. rewrite (ma_magic _ _ _ Hm), (ma_size _ _ _ Hm). split_and!; done || lia.
Qed.

Lemma kmalloc_frame_ok h live size p h' x :
  models h live -> 0 < size -> room h size -> kmalloc size h = Some (p, h') ->
  (exists b, b ∈ live /\ in_buf x b) -> hm h' x = hm h x.
Proof.
  intros (bs & us & Hi & Hp & Hf) Hsz Hr Hk Hx.
  destruct (kmalloc_ok h bs size Hi Hsz Hr) as (q & h1 & Hk' & HA). rewrite Hk in Hk'. simplify_eq.
  destruct HA as [(_ & _ & -> & _)|(bs' & [_ _ Ho _ _])]; [done|]. apply Ho.
  destruct (holds_payload _ _ _ Hf Hx) as (b & sz & Hin & Hbx). rewrite <- Hp in Hin.
  pose proof Hi as [[_ Hwf He _ _] _ _ _]. unfold HDR, FTR in *. intros [Hu|Hu].
  - by eapply (useds_not_unused (heap_start h) bs b sz x); [| |lia|].
  - apply useds_bounds in Hin; [lia|done].
Qed.

Lemma kfree_frame_ok h l1 p n l2 x :
  models h (l1 ++ (p, n) :: l2) -> (exists b, b ∈ l1 ++ l2 /\ in_buf x b) ->
  hm (kfree p h) x = hm h x.
Proof.
  intros (bs & us & Hi & Hp & Hf) Hx.
  apply Forall2_app_inv_l in Hf as (u1 & u2 & Hf1 & Hf2 & ->).
  apply Forall2_cons_inv_l in Hf2 as ([a sz] & u3 & (E & _ & _) & Hf2 & ->). cbn in E. subst a.
  destruct (kfree_ok h bs p sz Hi) as (bs' & Hi' & Hu & Ho & Hr); [rewrite Hp; set_solver|].
  apply Ho. destruct (holds_payload (l1 ++ l2) (u1 ++ u3) x) as (b & sz' & Hin & Hbx);
    [by apply Forall2_app|done|].
  rewrite Hp, <- Permutation_middle in Hu. apply Permutation_cons_inv in Hu. rewrite Hu in Hin.
  unfold HDR, FTR in *. eapply useds_not_unused; [apply Hi'|exact Hin|lia].
Qed.

End reach.

(** * A concrete page layer

    Frames are handed out in order; the heap's pages are mapped one to one. *)

Definition bump : PageSource Z := {|
  ps_alloc := fun n => (n * PAGE, n + 1);
  ps_free := fun _ n => n;
  ps_map := fun _ _ _ n => (0, n);
  ps_unmap := fun _ n => n;
  ps_phys := fun _ _ => 0;
|}.

Definition boot : heap Z := Heap (fun _ => 0) 0 0 0 0 0 0 1.
Definition demo0 : heap Z := default boot (kheap_init (H := bump) boot).
Definition demo1 : Z * heap Z := default (0, demo0) (kmalloc (H := bump) 100 demo0).
Definition demo2 : Z * heap Z := default (0, demo0) (kmalloc (H := bump) 5000 demo1.2).

Lemma default_is_some {A} (d : A) (o : option A) :
  match o with Some _ => true | None => false end = true -> o = Some (default d o).
Proof. by destruct o. Qed.

Lemma default_pair {A} (d : Z * A) (o : option (Z * A)) (p : Z) :
  match o with Some (q, _) => q =? p | None => false end = true -> o = Some (p, (default d o).2).
Proof. destruct o as [[q a]|]; [|done]. cbn. intros ->%Z.eqb_eq. done. Qed.

Lemma demo_reach :
  reach (H := bump) demo2.2 [(HEAP_START_VIRTUAL + 192, 5000); (HEAP_START_VIRTUAL + 32, 100)].
Proof.
  assert (R0 : reach (H := bump) demo0 []).
  { apply (reach_init (H := bump) boot). apply default_is_some. vm_compute. reflexivity. }
  assert (R1 : reach (H := bump) demo1.2 [(HEAP_START_VIRTUAL + 32, 100)]).
  { apply (reach_malloc (H := bump) demo0 [] 100 (HEAP_START_VIRTUAL + 32) demo1.2 R0); [lia|vm_compute; reflexivity|].
    unfold demo1. apply default_pair. vm_compute. reflexivity. }
  apply (reach_malloc (H := bump) demo1.2 _ 5000 (HEAP_START_VIRTUAL + 192) demo2.2 R1); [lia|vm_compute; reflexivity|].
  unfold demo2. apply default_pair. vm_compute. reflexivity.
Qed.

(** * The properties *)

Section claims.
Context {S : Type} `{PageSource S}.
Implicit Types h : heap S.

(** C3: from kheap_init on, whatever sequence of kmalloc, kfree of live pointers
    and client stores inside the requested bytes has run, the integrity walker
    kheap_check reports no error: every block has matching header and footer, the
    blocks tile the heap, the free list is well formed and heap_used is the sum of
    the used blocks (for heaps up to 64 MiB, so that the walker's own 2^20 guard
    on the free list cannot fire). *)
Theorem kheap_reach_check h live :
  reach h live -> heap_end h - heap_start h <= 2 ^ 26 -> kheap_check h = Some (0, 0).
Proof.
  intros Hr Hl. destruct (reach_models h live Hr) as (bs & us & Hi & _). by eapply kheap_check_ok.
Qed.

(** C15: live allocations are 16-byte aligned, lie inside the heap behind their
    header and before their footer, and any two of them are disjoint with room for
    a footer and a header in between. *)
Theorem kheap_live_disjoint h live :
  reach h live ->
  (forall p n, (p, n) ∈ live -> p mod 16 = 0 /\ heap_start h + HDR <= p /\ p + n + FTR <= heap_end h) /\
  (forall i j p n q k, i <> j -> live !! i = Some (p, n) -> live !! j = Some (q, k) ->
     p + n + FTR + HDR <= q \/ q + k + FTR + HDR <= p).
Proof.
  intros Hr. apply reach_models in Hr. split.
  - intros p n Hin. destruct (models_buf h live p n Hr Hin) as (? & ? & ? & ?). done.
  - intros i j p n q k. by apply (models_apart h).
Qed.

(** C16: kmalloc always returns, and neither it nor kfree changes a byte of any
    allocation that stays live. *)
Theorem kheap_frame h l1 p n l2 :
  reach h (l1 ++ (p, n) :: l2) ->
  (forall size, 0 < size -> room h size -> exists q h', kmalloc size h = Some (q, h') /\
     forall b x, b ∈ l1 ++ (p, n) :: l2 -> in_buf x b -> hm h' x = hm h x) /\
  (forall b x, b ∈ l1 ++ l2 -> in_buf x b -> hm (kfree p h) x = hm h x).
Proof.
  intros Hr. apply reach_models in Hr. split.
  - intros size Hsz Hroom. pose proof Hr as (bs & us & Hi & _).
    destruct (kmalloc_ok h bs size Hi Hsz Hroom) as (q & h' & Hk & _). exists q, h'. split; [done|].
    intros b x Hb Hx. eapply kmalloc_frame_ok; eauto.
  - intros b x Hb Hx. eapply kfree_frame_ok; eauto.
Qed.

(** Krealloc of a live buffer returns, and when the result is not NULL the
    first min(old, new) bytes of the new buffer are those of the old one. *)
Theorem krealloc_copies h l1 p n l2 size :
  reach h (l1 ++ (p, n) :: l2) -> 0 < size -> room h size ->
  exists q h', krealloc p size h = Some (q, h') /\
    (q <> 0 -> forall i, 0 <= i < n -> i < size -> hm h' (q + i) = hm h (p + i)).
Proof.
  intros Hr Hsz Hroom. pose proof (reach_models _ _ Hr) as Hm.
  assert (Hin : (p, n) ∈ l1 ++ (p, n) :: l2) by set_solver.
  destruct (models_buf _ _ _ _ Hm Hin) as (_ & Hn & Hps & _).
  destruct (models_live_block _ _ _ _ Hm Hin) as (sz & E1 & E2 & E3).
  pose proof Hm as (bs & us & Hi & _). unfold krealloc.
  destruct (Z.eqb_spec p 0) as [->|_]; [rewrite (i_start _ _ Hi) in Hps; unfold HEAP_START_VIRTUAL, HDR in Hps; lia|].
  destruct (Z.eqb_spec size 0) as [?|_]; [lia|]. rewrite E1, E2, Z.eqb_refl. cbn [negb]. cbn zeta.
  unfold HDR, FTR in E3 |- *. rewrite u64_small by lia.
  destruct (Z.leb_spec size (sz - 32 - 16)); [by eexists _, _|].
  destruct (kmalloc_ok h bs size Hi Hsz Hroom) as (q & h1 & Hk & _). rewrite Hk. cbn [mbind option_bind].
  pose proof (reach_malloc _ _ _ _ _ Hr Hsz Hroom Hk) as Hr1.
  destruct (Z.eqb_spec q 0); [by eexists _, _|]. eexists _, _. split; [done|]. intros _ i Hi0 Hi1.
  set (cs := sz - 32 - 16) in *.
  assert (Hr2 : reach (on_mem (fun m => mcopy m q p cs) h1) ((q, size) :: l1 ++ (p, n) :: l2)).
  { apply reach_write; [done|]. intros x Hx. unfold mcopy.
    destruct (Z.leb_spec q x), (Z.ltb_spec x (q + cs)); cbn [andb]; try done.
    destruct Hx. exists (q, size). split; [left|]. unfold in_buf. cbn. lia. }
  rewrite (kfree_frame_ok _ ((q, size) :: l1) p n l2); [|by apply reach_models|].
  - cbn. unfold mcopy. destruct (Z.leb_spec q (q + i)); [|lia].
    destruct (Z.ltb_spec (q + i) (q + cs)); [|lia]. cbn [andb].
    replace (p + (q + i - q)) with (p + i) by lia. apply (kmalloc_frame_ok h _ size q h1 _ Hm Hsz Hroom Hk).
    exists (p, n). split; [done|]. unfold in_buf. cbn. lia.
  - exists (q, size). split; [set_solver|]. unfold in_buf. cbn. lia.
Qed.

(** A request of 2^64 - 15 bytes or more does not fail: align_up wraps around
    and kmalloc serves it like a request of one byte. *)
Theorem kmalloc_wraps h size :
  2 ^ 64 - 15 <= size < 2 ^ 64 -> kmalloc size h = kmalloc 1 h.
Proof.
  intros Hs. unfold kmalloc, kmalloc_locked. destruct (Z.eqb_spec size 0); [lia|].
  assert (E : request_size size = request_size 1); [|by rewrite E].
  unfold request_size. enough (align_up size HEAP_ALIGNMENT = 0) as -> by done.
  unfold align_up, HEAP_ALIGNMENT.
  assert (Hw : u64 (size + 16 - 1) = size - (2 ^ 64 - 15)).
  { unfold u64. symmetry. apply (Z.mod_unique_pos _ _ 1); lia. }
  rewrite Hw. assert (Hd : exists d, size - (2 ^ 64 - 15) = d /\ 0 <= d < 15) by (eexists; split; [done|lia]).
  destruct Hd as (d & -> & Hd).
  assert (Hcases : d ∈ seqZ 0 15) by (apply elem_of_seqZ; lia). clear -Hcases.
  cbn in Hcases. repeat (apply elem_of_cons in Hcases as [->|Hcases]; [reflexivity|]). set_solver.
Qed.

(** When the byte count of an expansion carries the end of the heap past 2^64,
    kheap_expand maps no page, moves the end of the heap below its old value and
    still reports success. *)
Theorem kheap_expand_overflow h n :
  0 <= n * PAGE < 2 ^ 64 -> 0 <= heap_end h < 2 ^ 64 -> 2 ^ 64 <= heap_end h + n * PAGE ->
  let '(r, h') := kheap_expand n h in
  r = heap_end h /\ pages h' = pages h /\ heap_end h' < heap_end h.
Proof.
  intros Hn He Hov. unfold kheap_expand. rewrite (u64_small (n * PAGE)) by lia.
  assert (Hw : u64 (heap_end h + n * PAGE) = heap_end h + n * PAGE - 2 ^ 64).
  { unfold u64. symmetry. apply (Z.mod_unique_pos _ _ 1); lia. }
  rewrite Hw. unfold expand_count.
  replace (Z.to_nat _) with O; [cbn [expand_map]; cbn; split_and!; done || lia|].
  enough ((heap_end h + n * PAGE - 2 ^ 64 - heap_end h + PAGE - 1) / PAGE <= 0) by lia.
  unfold PAGE in *. apply Z.lt_succ_r, Z.div_lt_upper_bound; lia.
Qed.

End claims.

(** * All-or-nothing expansion

    What the page layer promises to the heap, over the mapping it maintains and
    the frames it has handed out. *)

Class PageLaws (S : Type) `{PageSource S} := {
  pl_ok : S -> Prop;
  pl_map : S -> Z -> Z;
  pl_owned : S -> gset Z;
  pl_alloc s : pl_ok s -> let '(p, s') := ps_alloc s in
    pl_ok s' /\ (forall a, pl_map s' a = pl_map s a) /\
    (p = 0 /\ pl_owned s' = pl_owned s \/
     p <> 0 /\ (p ∉ pl_owned s) /\ pl_owned s' = {[p]} ∪ pl_owned s);
  pl_free s p : pl_ok s -> p ∈ pl_owned s ->
    pl_ok (ps_free p s) /\ (forall a, pl_map (ps_free p s) a = pl_map s a) /\
    pl_owned (ps_free p s) = pl_owned s ∖ {[p]};
  pl_mapped s v p f : pl_ok s -> let '(rc, s') := ps_map v p f s in
    pl_ok s' /\ pl_owned s' = pl_owned s /\
    forall a, pl_map s' a = if decide (rc = 0 /\ a = v) then p else pl_map s a;
  pl_unmapped s v : pl_ok s ->
    pl_ok (ps_unmap v s) /\ pl_owned (ps_unmap v s) = pl_owned s /\
    forall a, pl_map (ps_unmap v s) a = if decide (a = v) then 0 else pl_map s a;
  pl_phys s v : pl_ok s -> ps_phys v s = pl_map s v;
}.

Section expand.
Context {S : Type} `{PageLaws S}.

(** The pages of a region of [k] pages at [u]. *)
Definition region (u : Z) (k : nat) (a : Z) : Prop := exists i, 0 <= i < Z.of_nat k /\ a = u + i * PAGE.

(** [s] differs from [s0] by the frames [fs], mapped one page after the other. *)
Record grown (s0 s : S) (u : Z) (fs : list Z) : Prop := {
  gr_ok : pl_ok s;
  gr_map : forall i f, fs !! i = Some f -> pl_map s (u + Z.of_nat i * PAGE) = f;
  gr_out : forall a, ~ region u (length fs) a -> pl_map s a = pl_map s0 a;
  gr_nodup : NoDup fs;
  gr_fresh : forall f, f ∈ fs -> f <> 0 /\ (f ∉ pl_owned s0);
  gr_owned : pl_owned s = list_to_set fs ∪ pl_owned s0;
}.

Lemma region_S u k a : region u (Datatypes.S k) a <-> a = u \/ region (u + PAGE) k a.
Proof.
  unfold region. split.
  - intros (i & Hi & ->). destruct (decide (i = 0)) as [->|]; [left; lia|right].
    exists (i - 1). split; lia.
  - intros [->|(i & Hi & ->)]; [exists 0|exists (i + 1)]; split; lia.
Qed.

(** Undoing gives back every page and every frame. *)
Lemma expand_undo_ok s0 fs : forall u s,
  grown s0 s u fs -> (forall a, region u (length fs) a -> pl_map s0 a = 0) ->
  let s' := expand_undo (length fs) u s in
  pl_ok s' /\ (forall a, pl_map s' a = pl_map s0 a) /\ pl_owned s' = pl_owned s0.
Proof.
  induction fs as [|f fs IH]; intros u s [G1 G2 G3 G4 G5 G6] Hz; cbn [length expand_undo].
  - split_and!; [done| |by rewrite G6; cbn; set_solver]. intros a. apply G3. intros (i & Hi & _). cbn in Hi. lia.
  - assert (Hu : ps_phys u s = f).
    { rewrite (pl_phys _ _ G1). specialize (G2 O f eq_refl). rewrite <- G2. f_equal. lia. }
    rewrite Hu. destruct (G5 f) as [Hf0 Hfo]; [left|]. apply NoDup_cons in G4 as [Hfn G4].
    unfold truth. destruct (Z.eqb_spec f 0); [done|]. cbn [negb].
    destruct (pl_unmapped s u G1) as (U1 & U2 & U3).
    destruct (pl_free (ps_unmap u s) f U1) as (F1 & F2 & F3); [rewrite U2, G6; cbn; set_solver|].
    apply IH; [split|].
    + done.
    + intros i g Hg. rewrite F2, U3. case_decide; [unfold PAGE in *; lia|].
      rewrite <- (G2 (Datatypes.S i) g Hg). f_equal. lia.
    + intros a Ha. rewrite F2, U3. case_decide as Hau; [subst a; symmetry; apply Hz, region_S; by left|].
      apply G3. cbn [length]. rewrite region_S. tauto.
    + done.
    + intros g Hg. apply G5. by right.
    + rewrite F3, U2, G6. cbn. apply leibniz_equiv. set_solver.
    + intros a Ha. apply Hz. cbn [length]. rewrite region_S. by right.
Qed.

(** The page layer's view is all [grown] depends on. *)
Lemma grown_same s0 s s' u fs :
  grown s0 s u fs -> pl_ok s' -> (forall a, pl_map s' a = pl_map s a) -> pl_owned s' = pl_owned s ->
  grown s0 s' u fs.
Proof.
  intros [] Hok Hm Ho. split; try done.
  - intros. rewrite Hm. eauto.
  - intros. rewrite Hm. eauto.
  - by rewrite Ho.
Qed.

Lemma grown_snoc s0 s s' u fs p :
  grown s0 s u fs -> p <> 0 -> (p ∉ pl_owned s) -> pl_ok s' ->
  pl_owned s' = {[p]} ∪ pl_owned s ->
  (forall a, pl_map s' a = if decide (a = u + Z.of_nat (length fs) * PAGE) then p else pl_map s a) ->
  grown s0 s' u (fs ++ [p]).
Proof.
  intros [G1 G2 G3 G4 G5 G6] Hp Hpo Hok Ho Hm. rewrite G6 in Hpo. split.
  - done.
  - intros i f Hi. rewrite Hm. apply lookup_app_Some in Hi as [Hi|[Hl Hi]].
    + pose proof (lookup_lt_Some _ _ _ Hi). case_decide; [unfold PAGE in *; lia|]. eauto.
    + apply list_lookup_singleton_Some in Hi as [Hi <-]. case_decide; [done|unfold PAGE in *; lia].
  - intros a Ha. rewrite Hm. case_decide as E.
    + destruct Ha. exists (Z.of_nat (length fs)). rewrite length_app. cbn. split; [lia|done].
    + apply G3. intros (i & Hi & ->). apply Ha. exists i. rewrite length_app. split; [lia|done].
  - apply NoDup_app. split; [done|]. split; [|apply NoDup_singleton]. set_solver.
  - intros f [Hf|Hf%list_elem_of_singleton]%elem_of_app; [by apply G5|]. subst f. set_solver.
  - rewrite Ho, G6, list_to_set_app_L. cbn. apply leibniz_equiv. set_solver.
Qed.

Lemma expand_map_ok s0 u n : forall fs s,
  grown s0 s u fs -> (forall a, region u (length fs + n) a -> pl_map s0 a = 0) ->
  let '(ok, s') := expand_map n (length fs) u (u + Z.of_nat (length fs) * PAGE) s in
  if ok then exists fs', length fs' = (length fs + n)%nat /\ grown s0 s' u fs'
  else pl_ok s' /\ (forall a, pl_map s' a = pl_map s0 a) /\ pl_owned s' = pl_owned s0.
Proof.
  induction n as [|n IH]; intros fs s Hg Hz; cbn [expand_map].
  { exists fs. split; [lia|done]. }
  assert (Hz' : forall a, region u (length fs) a -> pl_map s0 a = 0).
  { intros a (i & Hi & ->). apply Hz. exists i. split; [lia|done]. }
  pose proof (pl_alloc s (gr_ok _ _ _ _ Hg)) as HA. destruct (ps_alloc s) as [p s1].
  destruct HA as (A1 & A2 & [[-> A3]|(A3 & A4 & A5)]).
  { cbn [Z.eqb]. apply (expand_undo_ok s0); [|done]. by eapply grown_same. }
  destruct (Z.eqb_spec p 0); [done|].
  pose proof (pl_mapped s1 (u + Z.of_nat (length fs) * PAGE) p (Z.lor PAGE_PRESENT PAGE_WRITABLE) A1) as HM.
  destruct (ps_map _ _ _ s1) as [rc s2]. destruct HM as (M1 & M2 & M3).
  destruct (Z.eqb_spec rc 0) as [->|Hrc]; cbn [negb].
  - assert (Hg2 : grown s0 s2 u (fs ++ [p])).
    { eapply (grown_snoc s0 s); [done..| |]; [by rewrite M2|]. intros a. rewrite M3, A2.
      repeat case_decide; naive_solver. }
    specialize (IH (fs ++ [p]) s2 Hg2). rewrite length_app in IH. cbn [length] in IH.
    replace (length fs + 1)%nat with (Datatypes.S (length fs)) in IH by lia.
    replace (u + Z.of_nat (Datatypes.S (length fs)) * PAGE) with (u + Z.of_nat (length fs) * PAGE + PAGE) in IH by lia.
    replace (Datatypes.S (length fs) + n)%nat with (length fs + Datatypes.S n)%nat in IH by lia. by apply IH.
  - destruct (pl_free s2 p M1) as (F1 & F2 & F3); [rewrite M2, A5; set_solver|].
    apply (expand_undo_ok s0); [|done]. eapply grown_same; [exact Hg|done| |].
    + intros a. rewrite F2, M3, A2. case_decide; naive_solver.
    + rewrite F3, M2, A5. apply leibniz_equiv. set_solver.
Qed.

(** A failed expansion is undone completely: the heap's fields are untouched,
    no page of the region stays mapped and every frame that was taken for it is
    given back, whichever page of the region the failure happened at. *)
Theorem kheap_expand_all_or_nothing (h : heap S) n :
  pl_ok (pages h) -> 0 <= n -> 0 < heap_end h -> heap_end h + n * PAGE < 2 ^ 64 ->
  (forall i, 0 <= i < n -> pl_map (pages h) (heap_end h + i * PAGE) = 0) ->
  let '(r, h') := kheap_expand n h in
  r = 0 ->
  (forall a, pl_map (pages h') a = pl_map (pages h) a) /\ pl_owned (pages h') = pl_owned (pages h) /\
  heap_end h' = heap_end h /\ heap_max h' = heap_max h /\ hm h' = hm h.
Proof.
  intros Hok Hn He Hlt Hz. unfold kheap_expand, PAGE in *.
  rewrite (u64_small (n * 4096)), u64_small by lia. unfold expand_count, PAGE.
  replace ((heap_end h + n * 4096 - heap_end h + 4096 - 1) / 4096) with n.
  2:{ replace (heap_end h + n * 4096 - heap_end h + 4096 - 1) with (4095 + n * 4096) by lia.
      rewrite Z.div_add by lia. change (4095 / 4096) with 0. lia. }
  assert (Hg : grown (pages h) (pages h) (heap_end h) []).
  { split; try done; [by apply NoDup_nil_2|set_solver|]. cbn. apply leibniz_equiv. set_solver. }
  pose proof (expand_map_ok (pages h) (heap_end h) (Z.to_nat n) [] _ Hg) as HE. cbn [length] in HE.
  replace (heap_end h + Z.of_nat 0 * PAGE) with (heap_end h) in HE by lia.
  destruct (expand_map _ _ _ _ _) as [ok s']. destruct ok; [intros; lia|]. intros _. cbn.
  destruct HE as (_ & E1 & E2); [|done]. intros a (i & Hi & ->). apply Hz. lia.
Qed.

End expand.

(** * Witnesses *)

(** A page layer with a list of free frames. *)
Record toy := Toy { t_free : list Z; t_own : gset Z; t_map : gmap Z Z }.

#[export] Instance toy_source : PageSource toy := {|
  ps_alloc s := match t_free s with
                | [] => (0, s)
                | p :: l => (p, Toy l ({[p]} ∪ t_own s) (t_map s))
                end;
  ps_free p s := Toy (p :: t_free s) (t_own s ∖ {[p]}) (t_map s);
  ps_map v p _ s := (0, Toy (t_free s) (t_own s) (<[v := p]> (t_map s)));
  ps_unmap v s := Toy (t_free s) (t_own s) (delete v (t_map s));
  ps_phys v s := default 0 (t_map s !! v);
|}.

Record toy_ok (s : toy) : Prop := {
  to_nodup : NoDup (t_free s);
  to_free : forall p, p ∈ t_free s -> p <> 0 /\ (p ∉ t_own s);
  to_own : 0 ∉ t_own s;
}.

#[export, program] Instance toy_laws : PageLaws toy := {|
  pl_ok := toy_ok;
  pl_map s a := default 0 (t_map s !! a);
  pl_owned := t_own;
|}.
Next Obligation.
  intros [l o m] [H1 H2 H3]. cbn in *. destruct l as [|p l]; cbn.
  - split_and!; [done..|]. by left.
  - apply NoDup_cons in H1 as [H0 H1]. destruct (H2 p) as [Hp Ho]; [left|]. split_and!; [|done|right; done].
    split; cbn; [done| |set_solver]. intros q Hq. destruct (H2 q); set_solver.
Qed.
Next Obligation.
  intros [l o m] p [H1 H2 H3] Hp. cbn in *. split_and!; [|done|done]. split; cbn.
  - constructor; [|done]. intros Hin. by apply H2 in Hin as [_ ?].
  - intros q [->|Hq]%elem_of_cons; [set_solver|]. apply H2 in Hq. set_solver.
  - set_solver.
Qed.
Next Obligation.
  intros [l o m] v p f [H1 H2 H3]. cbn in *. split_and!; [done|done|]. intros a.
  case_decide as E; [destruct E as [_ ->]; by rewrite lookup_insert_eq|].
  rewrite lookup_insert_ne; [done|]. naive_solver.
Qed.
Next Obligation.
  intros [l o m] v [H1 H2 H3]. cbn in *. split_and!; [done|done|]. intros a.
  case_decide as E; [by rewrite E, lookup_delete_eq|]. by rewrite lookup_delete_ne.
Qed.
Next Obligation. done. Qed.

(** Two frames for three pages. *)
Definition short_heap : heap toy :=
  Heap (fun _ => 0) 0 HEAP_START_VIRTUAL (HEAP_START_VIRTUAL + PAGE) (HEAP_START_VIRTUAL + PAGE) 0 0
       (Toy [4096; 8192] ∅ ∅).

Lemma kheap_expand_all_or_nothing_witness :
  (kheap_expand 3 short_heap).1 = 0 /\
  pl_owned (pages (kheap_expand 3 short_heap).2) = pl_owned (pages short_heap).
Proof.
  split; [vm_compute; reflexivity|].
  assert (Hok : pl_ok (pages short_heap)).
  { split; cbn; [|set_solver|set_solver]. apply (bool_decide_unpack _). vm_compute. exact I. }
  pose proof (kheap_expand_all_or_nothing short_heap 3 Hok) as HT.
  assert (E : (kheap_expand 3 short_heap).1 = 0) by (vm_compute; reflexivity).
  destruct (kheap_expand 3 short_heap) as [r h']. cbn in E |- *.
  apply HT; [lia|vm_compute; reflexivity|vm_compute; reflexivity| |exact E].
  intros i Hi. cbn. by rewrite lookup_empty.
Defined.

Lemma kheap_reach_check_witness : kheap_check demo2.2 = Some (0, 0).
Proof.
  apply (kheap_reach_check (H := bump) _ _ demo_reach). apply Z.leb_le. vm_compute. reflexivity.
Defined.

Lemma kheap_live_disjoint_witness :
  HEAP_START_VIRTUAL + 192 + 5000 + FTR + HDR <= HEAP_START_VIRTUAL + 32 \/
  HEAP_START_VIRTUAL + 32 + 100 + FTR + HDR <= HEAP_START_VIRTUAL + 192.
Proof.
  apply (proj2 (kheap_live_disjoint (H := bump) _ _ demo_reach) 0%nat 1%nat); done.
Defined.

Lemma kheap_frame_witness :
  hm (kfree (HEAP_START_VIRTUAL + 192) demo2.2) (HEAP_START_VIRTUAL + 40) =
  hm demo2.2 (HEAP_START_VIRTUAL + 40).
Proof.
  apply (proj2 (kheap_frame (H := bump) demo2.2 [] (HEAP_START_VIRTUAL + 192) 5000 _ demo_reach)
           (HEAP_START_VIRTUAL + 32, 100)); [left|].
  unfold in_buf. cbn. lia.
Defined.

Lemma krealloc_copies_witness :
  exists q h', krealloc (H := bump) (HEAP_START_VIRTUAL + 32) 300 demo2.2 = Some (q, h') /\
    (q <> 0 -> hm h' (q + 7) = hm demo2.2 (HEAP_START_VIRTUAL + 32 + 7)).
Proof.
  destruct (krealloc_copies (H := bump) demo2.2 [(HEAP_START_VIRTUAL + 192, 5000)]
              (HEAP_START_VIRTUAL + 32) 100 [] 300 demo_reach) as (q & h' & E & Hc);
    [lia|vm_compute; reflexivity|].
  exists q, h'. split; [exact E|]. intros Hq. apply Hc; [exact Hq|lia|lia].
Defined.

Lemma kmalloc_wraps_witness : kmalloc (H := bump) (2 ^ 64 - 1) demo0 = kmalloc (H := bump) 1 demo0.
Proof. apply kmalloc_wraps. lia. Defined.

Lemma kheap_expand_overflow_witness :
  (kheap_expand (H := bump) (2 ^ 35) demo0).1 = heap_end demo0.
Proof.
  pose proof (kheap_expand_overflow (H := bump) demo0 (2 ^ 35)) as HT.
  destruct (kheap_expand (H := bump) (2 ^ 35) demo0) as [r h'].
  apply HT.
  - unfold PAGE. lia.
  - split; [apply Z.leb_le|apply Z.ltb_lt]; vm_compute; reflexivity.
  - apply Z.leb_le. vm_compute. reflexivity.
Defined.
