(* ===== verification/Vm.v ===== *)
(** Page reference counts and kernel page tables: [kernel/mm/page.c] and
    [kernel/mm/vmm.c].

    The state is physical memory, the page allocator of pmm.c, the reference
    counts of page.c and the statics of vmm.c. A table is a physical address; the
    kernel reaches a physical address [p] at P2V(p) through the direct map, and its
    static tables at KV2P of their symbol, so a table access is an access to
    physical memory. The TLB is not part of the state: an invalidation is not
    an operation of the model. *)

From stdpp Require Import base numbers list gmap.
From Stdlib Require Import ZArith Lia.
From S2P Require Import Prelude Pmm.

(** * Page-table entries (vmm.h) *)

Definition PAGE_PRESENT : Z := Z.shiftl 1 0.
Definition PAGE_WRITABLE : Z := Z.shiftl 1 1.
Definition PAGE_USER : Z := Z.shiftl 1 2.
Definition PAGE_WRITETHROUGH : Z := Z.shiftl 1 3.
Definition PAGE_CACHE_DISABLE : Z := Z.shiftl 1 4.
Definition PAGE_HUGE : Z := Z.shiftl 1 7.
Definition PAGE_NO_EXECUTE : Z := Z.shiftl 1 63.
Definition PAGE_COW : Z := Z.shiftl 1 9.
Definition PTE_PHYS_MASK : Z := 0x000FFFFFFFFFF000.
Definition PAGE_TABLE_ENTRIES : Z := 512.
Definition HHDM_BASE : Z := 0xFFFF800000000000.
Definition MMIO_WINDOW_BASE : Z := 0xFFFF810000000000.
Definition MMIO_WINDOW_END : Z := 0xFFFF818000000000.

Definition VMM_PML4_INDEX (virt : Z) : Z := Z.land (Z.shiftr virt 39) 0x1FF.
Definition VMM_PDPT_INDEX (virt : Z) : Z := Z.land (Z.shiftr virt 30) 0x1FF.
Definition VMM_PD_INDEX (virt : Z) : Z := Z.land (Z.shiftr virt 21) 0x1FF.
Definition VMM_PT_INDEX (virt : Z) : Z := Z.land (Z.shiftr virt 12) 0x1FF.
Definition VMM_PAGE_OFFSET (virt : Z) : Z := Z.land virt 0xFFF.

(** [~m] as a 64-bit mask. *)
Definition not64 (m : Z) : Z := Z.lxor (2 ^ 64 - 1) m.

(** * State *)

Record vm := Vm {
  phys : mem;
  pmm : pmm_state;
  refcount : option (Z -> Z);
  nframes : Z;
  kernel_pml4 : Z;
  hhdm_pdpt : Z;
  hhdm_pd : Z;
  current_pml4_phys : Z;
  cr3 : Z;
  next_virt_addr : Z;
  mmio_next : Z;
}.

Definition with_phys (m : mem) (s : vm) : vm :=
  Vm m (pmm s) (refcount s) (nframes s) (kernel_pml4 s) (hhdm_pdpt s) (hhdm_pd s)
     (current_pml4_phys s) (cr3 s) (next_virt_addr s) (mmio_next s).
Definition with_pmm (p : pmm_state) (s : vm) : vm :=
  Vm (phys s) p (refcount s) (nframes s) (kernel_pml4 s) (hhdm_pdpt s) (hhdm_pd s)
     (current_pml4_phys s) (cr3 s) (next_virt_addr s) (mmio_next s).
Definition with_refs (r : option (Z -> Z)) (n : Z) (s : vm) : vm :=
  Vm (phys s) (pmm s) r n (kernel_pml4 s) (hhdm_pdpt s) (hhdm_pd s)
     (current_pml4_phys s) (cr3 s) (next_virt_addr s) (mmio_next s).
Definition with_cr3 (c : Z) (s : vm) : vm :=
  Vm (phys s) (pmm s) (refcount s) (nframes s) (kernel_pml4 s) (hhdm_pdpt s) (hhdm_pd s)
     c c (next_virt_addr s) (mmio_next s).
Definition with_next_virt (a : Z) (s : vm) : vm :=
  Vm (phys s) (pmm s) (refcount s) (nframes s) (kernel_pml4 s) (hhdm_pdpt s) (hhdm_pd s)
     (current_pml4_phys s) (cr3 s) a (mmio_next s).
Definition with_mmio_next (a : Z) (s : vm) : vm :=
  Vm (phys s) (pmm s) (refcount s) (nframes s) (kernel_pml4 s) (hhdm_pdpt s) (hhdm_pd s)
     (current_pml4_phys s) (cr3 s) (next_virt_addr s) a.

Definition alloc_frame (s : vm) : Z * vm :=
  let '(p, q) := pmm_alloc_page (pmm s) in (p, with_pmm q s).
Definition free_frame (p : Z) (s : vm) : vm := with_pmm (pmm_free_page p (pmm s)) s.

(** Entry [i] of the table at [t]. *)
Definition entry (m : mem) (t i : Z) : Z := ld64 m (t + 8 * i).
Definition set_entry (t i e : Z) (s : vm) : vm := with_phys (st64 (phys s) (t + 8 * i) e) s.

(** [e & flag] as a condition. *)
Definition has (e flag : Z) : bool := truth (Z.land e flag).

(** * Reference counts (page.c) *)

Definition pfn (p : Z) : Z := Z.shiftr p 12.

(** [ok] is the outcome of the kcalloc of the array. *)
Definition page_init (ok : bool) (s : vm) : vm :=
  let n := pmm_get_total_page_count (pmm s) in
  with_refs (if ok then Some (fun _ => 0) else None) n s.

Definition set_ref (r : Z -> Z) (i v : Z) : Z -> Z := fun x => if x =? i then u16 v else r x.

Definition page_setref (p count : Z) (s : vm) : vm :=
  match refcount s with
  | None => s
  | Some r => if nframes s <=? pfn p then s
              else with_refs (Some (set_ref r (pfn p) (if 0xFFFF <? count then 0xFFFF else count)))
                             (nframes s) s
  end.

Definition page_refcount (p : Z) (s : vm) : Z :=
  match refcount s with
  | None => 0
  | Some r => if nframes s <=? pfn p then 0 else r (pfn p)
  end.

Definition page_incref (p : Z) (s : vm) : vm :=
  match refcount s with
  | None => s
  | Some r => if nframes s <=? pfn p then s
              else if r (pfn p) <? 0xFFFF
              then with_refs (Some (set_ref r (pfn p) (r (pfn p) + 1))) (nframes s) s else s
  end.

Definition page_decref (p : Z) (s : vm) : Z * vm :=
  match refcount s with
  | None => (0, s)
  | Some r =>
      if nframes s <=? pfn p then (0, s) else
      let n := r (pfn p) in
      let '(n, s) := if 0 <? n
                     then (n - 1, with_refs (Some (set_ref r (pfn p) (n - 1))) (nframes s) s)
                     else (n, s) in
      (n, if n =? 0 then free_frame (Z.land p (not64 0xFFF)) s else s)
  end.

(** * Kernel page tables (vmm.c) *)

Definition memset64 (dest v count : Z) (s : vm) : vm :=
  for_range 0 count (fun i s => set_entry dest i v s) s.

(** The body shared by get_or_create_pdpt, _pd and _pt: the table entry [i] of
    [t] points to, created when it is not present. [None] is NULL. *)
Definition get_or_create (t i : Z) (s : vm) : option Z * vm :=
  let '(ok, s) :=
    if negb (has (entry (phys s) t i) PAGE_PRESENT) then
      let '(f, s) := alloc_frame s in
      if f =? 0 then (false, s) else
      let s := memset64 f 0 PAGE_TABLE_ENTRIES s in
      (true, set_entry t i (Z.lor (Z.lor f PAGE_PRESENT) PAGE_WRITABLE) s)
    else (true, s) in
  if ok then (Some (Z.land (entry (phys s) t i) (not64 0xFFF)), s) else (None, s).

Definition get_or_create_pdpt (va : Z) (s : vm) : option Z * vm :=
  get_or_create (kernel_pml4 s) (VMM_PML4_INDEX va) s.

Definition get_or_create_pd (va : Z) (s : vm) : option Z * vm :=
  let '(pdpt, s) := get_or_create_pdpt va s in
  match pdpt with
  | None => (None, s)
  | Some pdpt => get_or_create pdpt (VMM_PDPT_INDEX va) s
  end.

Definition get_or_create_pt (va : Z) (s : vm) : option Z * vm :=
  let '(pd, s) := get_or_create_pd va s in
  match pd with
  | None => (None, s)
  | Some pd => get_or_create pd (VMM_PD_INDEX va) s
  end.

Definition vmm_map_page (virt_addr phys_addr flags : Z) (s : vm) : Z * vm :=
  if truth (Z.land virt_addr 0xFFF) then (-1, s) else
  if truth (Z.land phys_addr 0xFFF) then (-1, s) else
  let '(pt, s) := get_or_create_pt virt_addr s in
  match pt with
  | None => (-1, s)
  | Some pt =>
      (0, set_entry pt (VMM_PT_INDEX virt_addr)
            (Z.lor (Z.lor (Z.land phys_addr (not64 0xFFF)) (Z.land flags 0xFFF)) PAGE_PRESENT) s)
  end.

Definition or_entry (t i flag : Z) (s : vm) : vm := set_entry t i (Z.lor (entry (phys s) t i) flag) s.

Definition vmm_map_user_page (va p flags : Z) (s : vm) : Z * vm :=
  if truth (Z.land va 0xFFF) || truth (Z.land p 0xFFF) then (-1, s) else
  let '(pdpt, s) := get_or_create_pdpt va s in
  match pdpt with
  | None => (-1, s)
  | Some pdpt =>
    let s := or_entry (kernel_pml4 s) (VMM_PML4_INDEX va) PAGE_USER s in
    let '(pd, s) := get_or_create_pd va s in
    match pd with
    | None => (-1, s)
    | Some pd =>
      let s := or_entry pdpt (VMM_PDPT_INDEX va) PAGE_USER s in
      let '(pt, s) := get_or_create_pt va s in
      match pt with
      | None => (-1, s)
      | Some pt =>
        let s := or_entry pd (VMM_PD_INDEX va) PAGE_USER s in
        (0, set_entry pt (VMM_PT_INDEX va)
              (Z.lor (Z.lor (Z.lor (Z.lor (Z.land p (not64 0xFFF)) (Z.land flags 0xFFF))
                                   (Z.land flags PAGE_NO_EXECUTE)) PAGE_PRESENT) PAGE_USER) s)
      end
    end
  end.

(** The sub-table an entry points to, when present. *)
Definition sub (m : mem) (t i : Z) : option Z :=
  if has (entry m t i) PAGE_PRESENT then Some (Z.land (entry m t i) (not64 0xFFF)) else None.

Definition vmm_unmap_page (va : Z) (s : vm) : Z * vm :=
  if truth (Z.land va 0xFFF) then (-1, s) else
  match sub (phys s) (kernel_pml4 s) (VMM_PML4_INDEX va) with
  | None => (-1, s)
  | Some pdpt =>
    match sub (phys s) pdpt (VMM_PDPT_INDEX va) with
    | None => (-1, s)
    | Some pd =>
      match sub (phys s) pd (VMM_PD_INDEX va) with
      | None => (-1, s)
      | Some pt => (0, set_entry pt (VMM_PT_INDEX va) 0 s)
      end
    end
  end.

Definition vmm_get_physical (va : Z) (s : vm) : Z :=
  match sub (phys s) (kernel_pml4 s) (VMM_PML4_INDEX va) with
  | None => 0
  | Some pdpt =>
    let e := entry (phys s) pdpt (VMM_PDPT_INDEX va) in
    if negb (has e PAGE_PRESENT) then 0 else
    if has e PAGE_HUGE
    then Z.lor (Z.land e (not64 0x3FFFFFFF)) (Z.land va 0x3FFFFFFF) else
    let pd := Z.land e (not64 0xFFF) in
    let e := entry (phys s) pd (VMM_PD_INDEX va) in
    if negb (has e PAGE_PRESENT) then 0 else
    if has e PAGE_HUGE
    then Z.lor (Z.land e (not64 0x1FFFFF)) (Z.land va 0x1FFFFF) else
    let pt := Z.land e (not64 0xFFF) in
    let e := entry (phys s) pt (VMM_PT_INDEX va) in
    if negb (has e PAGE_PRESENT) then 0 else
    Z.lor (Z.land e (not64 0xFFF)) (VMM_PAGE_OFFSET va)
  end.

Definition vmm_alloc_page (flags : Z) (s : vm) : Z * vm :=
  let '(phys_page, s) := alloc_frame s in
  if phys_page =? 0 then (0, s) else
  let virt_addr := next_virt_addr s in
  let s := with_next_virt (u64 (next_virt_addr s + PAGE_SIZE)) s in
  let '(rc, s) := vmm_map_page virt_addr phys_page flags s in
  if negb (rc =? 0) then
    let s := free_frame phys_page s in
    (0, with_next_virt (u64 (next_virt_addr s - PAGE_SIZE)) s)
  else (virt_addr, s).

Definition vmm_free_page (va : Z) (s : vm) : vm :=
  if va =? 0 then s else
  let p := vmm_get_physical va s in
  if p =? 0 then s else
  let '(_, s) := vmm_unmap_page va s in
  free_frame p s.

(** The mapping loop of vmm_map_mmio; [false] on the first failure. *)
Fixpoint mmio_map (n : nat) (vbase pstart i : Z) (s : vm) : bool * vm :=
  match n with
  | O => (true, s)
  | S n =>
      let '(rc, s) := vmm_map_page (u64 (vbase + i * 0x1000)) (u64 (pstart + i * 0x1000))
                        (Z.lor (Z.lor (Z.lor PAGE_PRESENT PAGE_WRITABLE) PAGE_CACHE_DISABLE)
                               PAGE_WRITETHROUGH) s in
      if negb (rc =? 0) then (false, s) else mmio_map n vbase pstart (i + 1) s
  end.

Definition vmm_map_mmio (p size : Z) (s : vm) : Z * vm :=
  let pstart := Z.land p (not64 0xFFF) in
  let pend := Z.land (u64 (p + size + 0xFFF)) (not64 0xFFF) in
  let npages := u64 (pend - pstart) / 0x1000 in
  let vbase := mmio_next s in
  if (npages =? 0) || (MMIO_WINDOW_END <? u64 (vbase + npages * 0x1000)) then (0, s) else
  let '(ok, s) := mmio_map (Z.to_nat npages) vbase pstart 0 s in
  if negb ok then (0, s) else
  (u64 (vbase + Z.land p 0xFFF), with_mmio_next (u64 (vbase + npages * 0x1000)) s).

Definition vmm_create_address_space (s : vm) : Z * vm :=
  let '(f, s) := alloc_frame s in
  if f =? 0 then (0, s) else
  let s := memset64 f 0 PAGE_TABLE_ENTRIES s in
  (f, for_range 256 PAGE_TABLE_ENTRIES
        (fun i s => set_entry f i (entry (phys s) (kernel_pml4 s) i) s) s).

Definition vmm_switch_address_space (pml4_phys : Z) (s : vm) : vm := with_cr3 pml4_phys s.

(** vmm_init: the boot mappings are kept, RAM is identity-mapped and mapped at
    HHDM_BASE with 2 MiB pages, and the MMIO window gets its top-level entry. The
    boot PML4 is the one CR3 holds; enabling NX is not part of the state. *)
Definition vmm_init (s : vm) : vm :=
  let boot_pml4 := cr3 s in
  let k := kernel_pml4 s in
  let s := memset64 k 0 PAGE_TABLE_ENTRIES s in
  let s := for_range 0 PAGE_TABLE_ENTRIES
             (fun i s => if has (entry (phys s) boot_pml4 i) PAGE_PRESENT
                         then set_entry k i (entry (phys s) boot_pml4 i) s else s) s in
  let pdpt := Z.land (entry (phys s) k 0) (not64 0xFFF) in
  let pd := Z.land (entry (phys s) pdpt 0) (not64 0xFFF) in
  let ram := pmm_get_total_memory (pmm s) in
  let ram := if 1024 * 1024 * 1024 <? ram then 1024 * 1024 * 1024 else ram in
  let entries := u64 (ram + 0x1FFFFF) / 0x200000 in
  let entries := if PAGE_TABLE_ENTRIES <? entries then PAGE_TABLE_ENTRIES else entries in
  let huge i := Z.lor (Z.lor (Z.lor (i * 0x200000) PAGE_PRESENT) PAGE_WRITABLE) PAGE_HUGE in
  let s := for_range 2 entries
             (fun i s => if has (entry (phys s) pd i) PAGE_PRESENT then s
                         else set_entry pd i (huge i) s) s in
  let s := memset64 (hhdm_pdpt s) 0 PAGE_TABLE_ENTRIES s in
  let s := memset64 (hhdm_pd s) 0 PAGE_TABLE_ENTRIES s in
  let s := for_range 0 entries (fun i s => set_entry (hhdm_pd s) i (huge i) s) s in
  let s := set_entry (hhdm_pdpt s) 0 (Z.lor (Z.lor (hhdm_pd s) PAGE_PRESENT) PAGE_WRITABLE) s in
  let s := set_entry k (VMM_PML4_INDEX HHDM_BASE)
             (Z.lor (Z.lor (hhdm_pdpt s) PAGE_PRESENT) PAGE_WRITABLE) s in
  let s := with_cr3 k s in
  (get_or_create_pdpt MMIO_WINDOW_BASE s).2.
