(* ===== verification/Vmspace.v ===== *)
(** Per-process address spaces, copy-on-write and the user memory calls:
    [kernel/mm/vmspace.c] and [kernel/mm/uvm.c], over the machine state of
    Vm.v. A space is the physical address of its PML4; the conditional TLB
    flushes of the active space have no counterpart in the state. *)

From stdpp Require Import base numbers list gmap.
From Stdlib Require Import ZArith Lia.
From S2P Require Import Prelude Pmm Vm.

Record address_space := AddrSpace { pml4_phys : Z; as_refcount : Z }.

Definition tbl (p : Z) : Z := Z.land p PTE_PHYS_MASK.

(** * vmspace.c *)

(** The sub-table of entry [idx], created if asked; [None] is NULL. *)
Definition ensure (table idx : Z) (create : bool) (s : vm) : option Z * vm :=
  if negb (has (entry (phys s) table idx) PAGE_PRESENT) then
    if negb create then (None, s) else
    let '(f, s) := alloc_frame s in
    if f =? 0 then (None, s) else
    let s := with_phys (mfill (phys s) f 4096 0) s in
    let s := set_entry table idx (Z.lor (Z.lor (Z.lor f PAGE_PRESENT) PAGE_WRITABLE) PAGE_USER) s in
    (Some (tbl (entry (phys s) table idx)), s)
  else if has (entry (phys s) table idx) PAGE_HUGE then (None, s)
  else
    let s := set_entry table idx (Z.lor (entry (phys s) table idx) PAGE_USER) s in
    (Some (tbl (entry (phys s) table idx)), s).

(** The address of the leaf PTE of [va], [None] for NULL. *)
Definition leaf_slot (root va : Z) (create : bool) (s : vm) : option Z * vm :=
  if 256 <=? VMM_PML4_INDEX va then (None, s) else
  let '(pdpt, s) := ensure (tbl root) (VMM_PML4_INDEX va) create s in
  match pdpt with
  | None => (None, s)
  | Some pdpt =>
    let '(pd, s) := ensure pdpt (VMM_PDPT_INDEX va) create s in
    match pd with
    | None => (None, s)
    | Some pd =>
      let '(pt, s) := ensure pd (VMM_PD_INDEX va) create s in
      match pt with
      | None => (None, s)
      | Some pt => (Some (pt + 8 * VMM_PT_INDEX va), s)
      end
    end
  end.

Definition get (slot : Z) (s : vm) : Z := ld64 (phys s) slot.
Definition put (slot e : Z) (s : vm) : vm := with_phys (st64 (phys s) slot e) s.

Definition vmspace_create (s : vm) : Z * address_space * vm :=
  let '(p, s) := alloc_frame s in
  if p =? 0 then (-1, AddrSpace 0 0, s) else
  let np := tbl p in
  let s := with_phys (mfill (phys s) np 4096 0) s in
  let s := for_range 256 512
             (fun i s => if has (entry (phys s) (kernel_pml4 s) i) PAGE_PRESENT
                         then set_entry np i (entry (phys s) (kernel_pml4 s) i) s else s) s in
  (0, AddrSpace p 1, s).

Definition vmspace_map (a : address_space) (va p flags : Z) (s : vm) : Z * vm :=
  let '(slot, s) := leaf_slot (pml4_phys a) va true s in
  match slot with
  | None => (-1, s)
  | Some slot =>
      let s := if has (get slot s) PAGE_PRESENT then
                 let old := Z.land (get slot s) PTE_PHYS_MASK in
                 if negb (old =? Z.land p PTE_PHYS_MASK) then (page_decref old s).2 else s
               else s in
      (0, put slot (Z.lor (Z.lor (Z.lor (Z.lor (Z.land p PTE_PHYS_MASK) (Z.land flags 0xFFF))
                                        (Z.land flags PAGE_NO_EXECUTE)) PAGE_PRESENT) PAGE_USER) s)
  end.

Definition vmspace_phys (a : address_space) (va : Z) (s : vm) : Z * vm :=
  let '(slot, s) := leaf_slot (pml4_phys a) va false s in
  match slot with
  | None => (0, s)
  | Some slot => (if has (get slot s) PAGE_PRESENT then Z.land (get slot s) PTE_PHYS_MASK else 0, s)
  end.

(** [level] counts the table levels below: 0 for a PT, 2 for a PDPT. *)
Fixpoint free_level (level : nat) (p : Z) (s : vm) : vm :=
  let t := tbl p in
  let s := for_range 0 512
    (fun i s =>
       let e := entry (phys s) t i in
       if negb (has e PAGE_PRESENT) then s else
       match level with
       | O => (page_decref (Z.land e PTE_PHYS_MASK) s).2
       | S level => free_level level (Z.land e PTE_PHYS_MASK) s
       end) s in
  free_frame (Z.land p PTE_PHYS_MASK) s.

(** [for (i = 0; i < 512; i++)] with an early exit: [false] when [body] fails. *)
Fixpoint try_loop (n : nat) (i : Z) (body : Z -> vm -> bool * vm) (s : vm) : bool * vm :=
  match n with
  | O => (true, s)
  | S n => let '(ok, s) := body i s in if ok then try_loop n (i + 1) body s else (false, s)
  end.

(** The copied leaf: a writable page becomes read-only and COW. *)
Definition cow_entry (e : Z) : Z :=
  if has e PAGE_WRITABLE then Z.lor (Z.land e (not64 PAGE_WRITABLE)) PAGE_COW else e.

Definition copy_leaf (src dst i : Z) (s : vm) : vm :=
  let e := entry (phys s) src i in
  let p := Z.land e PTE_PHYS_MASK in
  let s := if has e PAGE_WRITABLE then set_entry src i (cow_entry e) s else s in
  let s := set_entry dst i (cow_entry e) s in
  page_incref p s.

(** The physical address of the copy, 0 on failure. *)
Fixpoint copy_level (level : nat) (src_phys : Z) (s : vm) : Z * vm :=
  let '(f, s) := alloc_frame s in
  if f =? 0 then (0, s) else
  let dst := tbl f in
  let src := tbl src_phys in
  let s := with_phys (mfill (phys s) dst 4096 0) s in
  let '(ok, s) := try_loop 512 0
    (fun i s =>
       let e := entry (phys s) src i in
       if negb (has e PAGE_PRESENT) then (true, s) else
       match level with
       | O => (true, copy_leaf src dst i s)
       | S level =>
           let '(sub, s) := copy_level level (Z.land e PTE_PHYS_MASK) s in
           if sub =? 0 then (false, s)
           else (true, set_entry dst i (Z.lor (Z.land (entry (phys s) src i) 0xFFF) sub) s)
       end) s in
  if ok then (f, s) else (0, free_level level f s).

Definition vmspace_destroy (a : address_space) (s : vm) : address_space * vm :=
  if pml4_phys a =? 0 then (a, s) else
  let pml4 := tbl (pml4_phys a) in
  let s := for_range 0 256
    (fun i s => if has (entry (phys s) pml4 i) PAGE_PRESENT
                then free_level 2 (Z.land (entry (phys s) pml4 i) PTE_PHYS_MASK) s else s) s in
  (AddrSpace 0 (as_refcount a), free_frame (Z.land (pml4_phys a) PTE_PHYS_MASK) s).

Definition vmspace_fork (parent : address_space) (s : vm) : Z * address_space * vm :=
  let '(rc, child, s) := vmspace_create s in
  if negb (rc =? 0) then (-1, child, s) else
  let pp := tbl (pml4_phys parent) in
  let cp := tbl (pml4_phys child) in
  let '(ok, s) := try_loop 256 0
    (fun i s =>
       if negb (has (entry (phys s) pp i) PAGE_PRESENT) then (true, s) else
       let '(sub, s) := copy_level 2 (Z.land (entry (phys s) pp i) PTE_PHYS_MASK) s in
       if sub =? 0 then (false, s)
       else (true, set_entry cp i (Z.lor (Z.land (entry (phys s) pp i) 0xFFF) sub) s)) s in
  if ok then (0, child, s)
  else let '(child, s) := vmspace_destroy child s in (-1, child, s).

Definition vmspace_cow_fault (a : address_space) (va : Z) (s : vm) : Z * vm :=
  let '(slot, s) := leaf_slot (pml4_phys a) va false s in
  match slot with
  | None => (-1, s)
  | Some slot =>
      let e := get slot s in
      if negb (has e PAGE_PRESENT) || negb (has e PAGE_COW) then (-1, s) else
      let old := Z.land e PTE_PHYS_MASK in
      if page_refcount old s <=? 1 then
        (0, put slot (Z.lor (Z.land e (not64 PAGE_COW)) PAGE_WRITABLE) s)
      else
        let '(nf, s) := alloc_frame s in
        if nf =? 0 then (-1, s) else
        let s := with_phys (mcopy (phys s) (tbl nf) (tbl old) 4096) s in
        let s := page_setref nf 1 s in
        let s := put slot (Z.lor (Z.lor (Z.lor (Z.land nf PTE_PHYS_MASK)
                                               (Z.land (Z.land e 0xFFF) (not64 PAGE_COW)))
                                        PAGE_WRITABLE) (Z.land e PAGE_NO_EXECUTE)) s in
        (0, (page_decref old s).2)
  end.

Definition vmspace_unmap (a : address_space) (va : Z) (s : vm) : Z * vm :=
  let '(slot, s) := leaf_slot (pml4_phys a) va false s in
  match slot with
  | None => (-1, s)
  | Some slot =>
      if negb (has (get slot s) PAGE_PRESENT) then (-1, s) else
      let p := Z.land (get slot s) PTE_PHYS_MASK in
      let s := put slot 0 s in
      (0, (page_decref p s).2)
  end.

Definition protect_entry (e flags : Z) : Z :=
  let newe := Z.lor (Z.lor (Z.lor (Z.land e PTE_PHYS_MASK) PAGE_PRESENT) PAGE_USER)
                    (Z.land e PAGE_COW) in
  let newe := if has flags PAGE_WRITABLE && negb (has e PAGE_COW)
              then Z.lor newe PAGE_WRITABLE else newe in
  if has flags PAGE_NO_EXECUTE then Z.lor newe PAGE_NO_EXECUTE else newe.

Definition vmspace_protect (a : address_space) (va flags : Z) (s : vm) : Z * vm :=
  let '(slot, s) := leaf_slot (pml4_phys a) va false s in
  match slot with
  | None => (-1, s)
  | Some slot =>
      if negb (has (get slot s) PAGE_PRESENT) then (-1, s)
      else (0, put slot (protect_entry (get slot s) flags) s)
  end.

Definition vmspace_switch (a : address_space) (s : vm) : vm :=
  Vm (phys s) (pmm s) (refcount s) (nframes s) (kernel_pml4 s) (hhdm_pdpt s) (hhdm_pd s)
     (current_pml4_phys s) (Z.land (pml4_phys a) PTE_PHYS_MASK) (next_virt_addr s) (mmio_next s).

(** * uvm.c *)

Definition PROT_WRITE : Z := 2.
Definition PROT_EXEC : Z := 4.
Definition MAP_ANONYMOUS : Z := 0x20.
Definition USER_MMAP_BASE : Z := 0x0000200040000000.
Definition USER_HEAP_MAX : Z := USER_MMAP_BASE.
Definition USER_ARENA_END : Z := 0x0000208000000000.
Definition USER_VA_END : Z := 0x0000800000000000.

Definition PAGE_UP (x : Z) : Z := Z.land (u64 (x + 0xFFF)) (not64 0xFFF).

Definition prot_to_flags (prot : Z) : Z :=
  let f := if has prot PROT_WRITE then PAGE_WRITABLE else 0 in
  if negb (has prot PROT_EXEC) then Z.lor f PAGE_NO_EXECUTE else f.

(** [for (off = 0; off < len; off += 4096)] over [n] pages. *)
Definition pages_in (len : Z) : nat := Z.to_nat ((len + 4095) / 4096).

Definition unmap_pages (a : address_space) (va : Z) (n : nat) (s : vm) : vm :=
  for_range 0 (Z.of_nat n) (fun i s => (vmspace_unmap a (u64 (va + i * 4096)) s).2) s.

Fixpoint map_anon_loop (n k : nat) (a : address_space) (va flags : Z) (s : vm) : Z * vm :=
  match n with
  | O => (0, s)
  | S n =>
      let '(pf, s) := alloc_frame s in
      if pf =? 0 then (-1, unmap_pages a va k s) else
      let s := with_phys (mfill (phys s) pf 4096 0) s in
      let s := page_setref pf 1 s in
      let '(rc, s) := vmspace_map a (u64 (va + Z.of_nat k * 4096)) pf flags s in
      if negb (rc =? 0) then
        let s := (page_decref pf s).2 in (-1, unmap_pages a va k s)
      else map_anon_loop n (S k) a va flags s
  end.

Definition map_anon (a : address_space) (va len flags : Z) (s : vm) : Z * vm :=
  map_anon_loop (pages_in len) O a va flags s.

(** Result, the new break, and the state. *)
Definition uvm_brk (a : address_space) (brk_cur brk_start newbrk : Z) (s : vm) : Z * Z * vm :=
  if newbrk =? 0 then (s64 brk_cur, brk_cur, s) else
  if (newbrk <? brk_start) || (USER_HEAP_MAX <? newbrk) then (s64 brk_cur, brk_cur, s) else
  let have := PAGE_UP brk_cur in
  let want := PAGE_UP newbrk in
  if have <? want then
    let '(rc, s) := map_anon a have (want - have) (Z.lor PAGE_WRITABLE PAGE_NO_EXECUTE) s in
    if negb (rc =? 0) then (s64 brk_cur, brk_cur, s) else (s64 newbrk, newbrk, s)
  else
    let s := unmap_pages a want (pages_in (have - want)) s in
    (s64 newbrk, newbrk, s).

Definition uvm_mmap (a : address_space) (mmap_cur len prot flags : Z) (s : vm) : Z * Z * vm :=
  if len =? 0 then (- EINVAL, mmap_cur, s) else
  if negb (has flags MAP_ANONYMOUS) then (- EINVAL, mmap_cur, s) else
  let len := PAGE_UP len in
  let va := if mmap_cur <? USER_MMAP_BASE then USER_MMAP_BASE else mmap_cur in
  if (USER_ARENA_END <? u64 (va + len)) || (u64 (va + len) <? va)
  then (- ENOMEM, mmap_cur, s) else
  let '(rc, s) := map_anon a va len (prot_to_flags prot) s in
  if negb (rc =? 0) then (- ENOMEM, mmap_cur, s) else (s64 va, u64 (va + len), s).

Definition user_va_range_ok (addr len : Z) : bool :=
  if truth (Z.land addr 0xFFF) then false else
  if (len =? 0) || (2 ^ 64 <=? addr + len) then false else
  (0x1000 <=? addr) && (addr + len <=? USER_VA_END).

Definition uvm_munmap (a : address_space) (addr len : Z) (s : vm) : Z * vm :=
  let rlen := PAGE_UP len in
  if negb (user_va_range_ok addr rlen) then (- EINVAL, s) else
  (0, unmap_pages a addr (pages_in rlen) s).

Fixpoint protect_pages (n : nat) (a : address_space) (va flags : Z) (s : vm) : Z * vm :=
  match n with
  | O => (0, s)
  | S n =>
      let '(rc, s) := vmspace_protect a va flags s in
      if negb (rc =? 0) then (- ENOMEM, s) else protect_pages n a (u64 (va + 4096)) flags s
  end.

Definition uvm_mprotect (a : address_space) (addr len prot : Z) (s : vm) : Z * vm :=
  let rlen := PAGE_UP len in
  if negb (user_va_range_ok addr rlen) then (- EINVAL, s) else
  protect_pages (pages_in rlen) a addr (prot_to_flags prot) s.

(** * Bits of an entry *)

Lemma has_bit e k : 0 <= k -> has e (Z.shiftl 1 k) = Z.testbit e k.
Proof.
  intros Hk. unfold has, truth.
  assert (E : Z.land e (Z.shiftl 1 k) = if Z.testbit e k then 2 ^ k else 0).
  { apply Z.bits_inj'. intros n Hn. rewrite Z.land_spec, testbit_one_shift by lia.
    case_bool_decide as H; [subst n|].
    - destruct (Z.testbit e k); [by rewrite Z.pow2_bits_true|by rewrite Z.bits_0].
    - rewrite andb_false_r. destruct (Z.testbit e k); [|by rewrite Z.bits_0].
      rewrite Z.pow2_bits_false; [done|lia]. }
  rewrite E. destruct (Z.testbit e k); [|done]. destruct (Z.eqb_spec (2 ^ k) 0); [|done].
  pose proof (Z.pow_pos_nonneg 2 k). lia.
Qed.

Lemma mask_bit n : 0 <= n -> Z.testbit PTE_PHYS_MASK n = (12 <=? n) && (n <? 52).
Proof.
  intros Hn. change PTE_PHYS_MASK with (Z.shiftl (Z.ones 40) 12).
  rewrite Z.shiftl_spec by lia. destruct (Z.leb_spec 12 n); cbn [andb].
  - destruct (Z.ltb_spec n 52); [rewrite Z.ones_spec_low by lia; done|].
    rewrite Z.ones_spec_high by lia. done.
  - apply Z.testbit_neg_r. lia.
Qed.

Lemma tbl_bit e n : 0 <= n -> Z.testbit (tbl e) n = Z.testbit e n && ((12 <=? n) && (n <? 52)).
Proof. intros. unfold tbl. by rewrite Z.land_spec, mask_bit. Qed.

(** Setting a flag bit below the frame field keeps the frame. *)
Lemma tbl_lor_flag e k : 0 <= k < 12 -> tbl (Z.lor e (Z.shiftl 1 k)) = tbl e.
Proof.
  intros Hk. apply Z.bits_inj'. intros n Hn. rewrite !tbl_bit, Z.lor_spec, testbit_one_shift by lia.
  case_bool_decide; [|by rewrite orb_false_r]. subst. destruct (Z.leb_spec 12 n); [lia|].
  by rewrite !andb_false_r.
Qed.

Lemma lor_flag_bit e k j : 0 <= k -> 0 <= j -> j <> k ->
  has (Z.lor e (Z.shiftl 1 k)) (Z.shiftl 1 j) = has e (Z.shiftl 1 j).
Proof.
  intros. rewrite !has_bit, Z.lor_spec, testbit_one_shift by lia.
  case_bool_decide; [lia|]. by rewrite orb_false_r.
Qed.

Lemma lor_flag_same e k : 0 <= k -> has (Z.lor e (Z.shiftl 1 k)) (Z.shiftl 1 k) = true.
Proof.
  intros. rewrite has_bit, Z.lor_spec, testbit_one_shift by lia.
  case_bool_decide; [|done]. by rewrite orb_true_r.
Qed.

(** A frame address is its own frame field. *)
Definition frame_addr (f : Z) : Prop := 0 < f < 2 ^ 52 /\ f mod 4096 = 0.

Lemma tbl_frame f : frame_addr f -> tbl f = f.
Proof.
  intros [Hf Hm]. apply Z.bits_inj'. intros n Hn. rewrite tbl_bit by done.
  destruct (Z.leb_spec 12 n); [destruct (Z.ltb_spec n 52); cbn [andb]; [by rewrite andb_true_r|]|];
    rewrite ?andb_false_r; symmetry.
  - apply Z.bits_above_log2; [lia|]. assert (Z.log2 f < 52) by (apply Z.log2_lt_pow2; lia). lia.
  - rewrite <- (Z.mod_pow2_bits_low f 12) by lia. change (2 ^ 12) with 4096. rewrite Hm. apply Z.bits_0.
Qed.

Lemma frame_bit_low f n : frame_addr f -> 0 <= n < 12 -> Z.testbit f n = false.
Proof.
  intros [_ Hm] Hn. rewrite <- (Z.mod_pow2_bits_low f 12) by lia. change (2 ^ 12) with 4096.
  rewrite Hm. apply Z.bits_0.
Qed.

(** The entry of a fresh table. *)
Lemma new_entry f :
  frame_addr f ->
  let e := Z.lor (Z.lor (Z.lor f PAGE_PRESENT) PAGE_WRITABLE) PAGE_USER in
  tbl e = f /\ has e PAGE_PRESENT = true /\ has e PAGE_HUGE = false /\ 0 <= e < 2 ^ 64.
Proof.
  intros Hf. cbn zeta. unfold PAGE_PRESENT, PAGE_WRITABLE, PAGE_USER, PAGE_HUGE.
  split; [|split; [|split]].
  - rewrite !tbl_lor_flag by lia. by apply tbl_frame.
  - rewrite !lor_flag_bit by lia. by apply lor_flag_same.
  - rewrite !lor_flag_bit by lia. rewrite has_bit by lia. apply frame_bit_low; [done|lia].
  - destruct Hf as [Hf _]. repeat apply lor_bound; try done; lia.
Qed.

(** * The walk as a function *)

(** The index a walk uses in the table at depth [k] (0 is the PML4). *)
Definition ix (k : nat) (va : Z) : Z :=
  match k with
  | 0%nat => VMM_PML4_INDEX va
  | 1%nat => VMM_PDPT_INDEX va
  | 2%nat => VMM_PD_INDEX va
  | _ => VMM_PT_INDEX va
  end.

Definition tab_next (m : mem) (t i : Z) : option Z :=
  let e := entry m t i in
  if has e PAGE_PRESENT && negb (has e PAGE_HUGE) then Some (tbl e) else None.

(** The table at depth [k] on the walk of [va]. *)
Fixpoint tab (m : mem) (root va : Z) (k : nat) : option Z :=
  match k with
  | O => Some root
  | S k => t ← tab m root va k; tab_next m t (ix k va)
  end.

(** What [va] translates to in the space of [root]: its leaf entry, if present. *)
Definition translate (m : mem) (root va : Z) : option Z :=
  t ← tab m root va 3;
  let e := entry m t (ix 3 va) in
  if has e PAGE_PRESENT then Some e else None.

(** The user pages of a space; two addresses with the same page translate alike. *)
Definition user_va (va : Z) : Prop := ix 0 va < 256.
Definition page_of (va : Z) : Z := (va mod 2 ^ 48) / 2 ^ 12.

(** The number formed by the indices above depth [k]. *)
Definition prefix (k : nat) (va : Z) : Z := (va mod 2 ^ 48) / 2 ^ (48 - 9 * Z.of_nat k).

Lemma ix_range k va : 0 <= ix k va < 512.
Proof.
  assert (H : forall x, 0 <= Z.land x 0x1FF < 512).
  { intros x. change 0x1FF with (Z.ones 9). rewrite Z.land_ones by lia. apply Z.mod_pos_bound. lia. }
  unfold ix. destruct k as [|[|[|k]]]; apply H.
Qed.

Lemma index_shift va j : 0 <= j -> j + 9 <= 48 ->
  Z.land (Z.shiftr va j) 0x1FF = ((va mod 2 ^ 48) / 2 ^ j) mod 512.
Proof.
  intros Hj Hj'. change 0x1FF with (Z.ones 9). rewrite Z.land_ones, Z.shiftr_div_pow2 by lia.
  change (2 ^ 9) with 512. rewrite (Z.div_mod va (2 ^ 48)) at 1 by lia.
  set (q := va / 2 ^ 48). set (r := va mod 2 ^ 48).
  replace (2 ^ 48 * q + r) with (r + q * 2 ^ (48 - j - 9) * 512 * 2 ^ j).
  2:{ replace (2 ^ 48) with (2 ^ (48 - j - 9) * 512 * 2 ^ j); [lia|].
      change 512 with (2 ^ 9). rewrite <- !Z.pow_add_r by lia. f_equal. lia. }
  assert (0 < 2 ^ j) by (apply Z.pow_pos_nonneg; lia).
  rewrite Z.div_add by lia. rewrite Z.mod_add by lia. done.
Qed.

Lemma prefix_S k va : (k < 4)%nat -> prefix (S k) va = prefix k va * 512 + ix k va.
Proof.
  intros Hk. unfold prefix. set (r := va mod 2 ^ 48).
  assert (E : ix k va = (r / 2 ^ (39 - 9 * Z.of_nat k)) mod 512).
  { unfold r. destruct k as [|[|[|[|k]]]]; [..|lia]; cbn [ix];
      unfold VMM_PML4_INDEX, VMM_PDPT_INDEX, VMM_PD_INDEX, VMM_PT_INDEX; by rewrite index_shift by lia. }
  rewrite E. set (j := 39 - 9 * Z.of_nat k).
  replace (48 - 9 * Z.of_nat (S k)) with j by lia. replace (48 - 9 * Z.of_nat k) with (j + 9) by lia.
  assert (0 < 2 ^ j) by (apply Z.pow_pos_nonneg; lia).
  rewrite Z.pow_add_r, <- Z.div_div by lia. change (2 ^ 9) with 512.
  pose proof (Z.div_mod (r / 2 ^ j) 512). lia.
Qed.

Lemma prefix_page va : prefix 4 va = page_of va.
Proof. done. Qed.

(** * Who owns which table

    [own f] is the place of the table frame [f]: its space, its depth and the
    indices that lead to it. A frame has at most one place, so the tables of all
    spaces form disjoint trees. *)

Definition place : Type := Z * nat * Z.

Record tree (s : vm) (own : Z -> option place) : Prop := {
  o_pmm : pmm_wf (pmm s);
  o_root : forall f r p, own f = Some (r, O, p) -> f = r /\ p = 0;
  o_frame : forall f pl, own f = Some pl -> frame_addr f /\ page_used (pmm s) (f / 4096) = true;
  o_child : forall f r k p i c, own f = Some (r, k, p) -> (k < 3)%nat -> 0 <= i < 512 ->
    (k = O -> i < 256) -> tab_next (phys s) f i = Some c -> own c = Some (r, S k, p * 512 + i);
}.

Definition is_space (own : Z -> option place) (root : Z) : Prop := own root = Some (root, O, 0).

Lemma tab_own s own root va k t :
  tree s own -> is_space own root -> user_va va ->
  tab (phys s) root va k = Some t -> (k <= 3)%nat -> own t = Some (root, k, prefix k va).
Proof.
  intros HT Hr Hu. revert t. induction k as [|k IH]; intros t Ht Hk; cbn [tab] in Ht.
  - injection Ht as <-. unfold is_space in Hr. rewrite Hr. unfold prefix. do 2 f_equal.
    symmetry. apply Z.div_small. apply Z.mod_pos_bound. lia.
  - destruct (tab (phys s) root va k) as [t'|] eqn:E; [|done]. cbn in Ht.
    specialize (IH t' eq_refl ltac:(lia)). rewrite prefix_S by lia.
    eapply o_child; [exact HT|exact IH|lia|apply ix_range| |exact Ht]. by intros ->.
Qed.

(** Entries of different slots do not overlap. *)
Lemma entry_frame m m' f i t j :
  (forall x, ~ (f + 8 * i <= x < f + 8 * i + 8) -> m' x = m x) ->
  frame_addr f -> frame_addr t -> 0 <= i < 512 -> 0 <= j < 512 -> (t, j) <> (f, i) ->
  entry m' t j = entry m t j.
Proof.
  intros Hm [Hf1 Hf2] [Ht1 Ht2] Hi Hj Hne. unfold entry. symmetry. apply ld_ext. intros x Hx.
  symmetry. apply Hm. intros Hx'. apply Hne.
  pose proof (Z.div_mod f 4096). pose proof (Z.div_mod t 4096).
  assert (f / 4096 = t / 4096) by lia. assert (f = t) by lia. subst. f_equal. lia.
Qed.

Lemma set_entry_other t i e m x : ~ (t + 8 * i <= x < t + 8 * i + 8) -> st64 m (t + 8 * i) e x = m x.
Proof. intros H. apply st_frame. lia. Qed.

Lemma set_entry_same m t i e : 0 <= e < 2 ^ 64 -> entry (st64 m (t + 8 * i) e) t i = e.
Proof. apply ld64_st64. Qed.

(** ** Frames from the page allocator *)

Lemma fail_in_frame n s : page_used (with_fail_in n s) = page_used s.
Proof. done. Qed.

Lemma wf_fail_in n s : pmm_wf s -> pmm_wf (with_fail_in n s).
Proof. by intros []. Qed.


(** What an allocation does to the allocator: nothing visible, or one free page
    becomes used. *)
Lemma alloc_frame_ok s f s' :
  pmm_wf (pmm s) -> page_used (pmm s) 0 = true -> alloc_frame s = (f, s') ->
  (exists q, s' = with_pmm q s /\ pmm_wf q /\ max_page_num q = max_page_num (pmm s) /\
    (f = 0 /\ (forall n, page_used q n = page_used (pmm s) n) \/
     frame_addr f /\ page_used (pmm s) (f / 4096) = false /\
     (forall n, page_used q n = bool_decide (n = f / 4096) || page_used (pmm s) n))).
Proof.
  intros Hwf H0. unfold alloc_frame, pmm_alloc_page.
  destruct (_ && _).
  { intros [= <- <-]. exists (with_fail_in (-1) (pmm s)). split_and!; [done|by apply wf_fail_in|done|by left]. }
  cbn zeta.
  match goal with |- context [alloc_scan _ 0 ?q] => set (q0 := q) end.
  assert (Hq : pmm_wf q0 /\ page_used q0 = page_used (pmm s) /\ max_page_num q0 = max_page_num (pmm s)).
  { unfold q0. destruct (0 <=? _); [|done]. split; [by apply wf_fail_in|done]. }
  clearbody q0. destruct Hq as (Hq & Hu & Hm).
  destruct (alloc_scan_spec (Z.to_nat (max_page_num q0)) 0 q0) as [[-> _]|(p & Hp & Hf & _ & ->)];
    intros [= <- <-].
  - exists q0. split_and!; try done. left. split; [done|]. intros. by rewrite Hu.
  - pose proof (wf_max _ Hq) as Hmax. change (MAX_BITMAP_SIZE * 8) with 1048576 in Hmax.
    rewrite (page_to_addr_exact q0) by (done || lia). unfold PAGE_SIZE.
    assert (p <> 0) by (intros ->; congruence).
    exists (claim p q0). split; [done|]. split.
    { apply (wf_frame q0); [done|apply claim_frame|]. rewrite claim_used. apply u32_range. }
    split; [by rewrite (sf_max _ _ (claim_frame p q0))|]. right. rewrite Z.div_mul by lia. split_and!.
    + split; [lia|]. apply Z.mod_mul. lia.
    + by rewrite <- Hu.
    + intros n. rewrite page_used_claim, Hu by lia. done.
Qed.

(** ** Steps that keep every translation *)

Record keeps_trans (s : vm) (own : Z -> option place) (s' : vm) (own' : Z -> option place) : Prop := {
  kt_tree : tree s' own';
  kt_zero : page_used (pmm s') 0 = true;
  kt_own : forall f pl, own f = Some pl -> own' f = Some pl;
  kt_new : forall f, own f = None -> page_used (pmm s) (f / 4096) = true -> own' f = None;
  kt_used : forall n, page_used (pmm s) n = true -> page_used (pmm s') n = true;
  kt_tab : forall t r k p j c, own t = Some (r, k, p) -> (k < 3)%nat -> 0 <= j < 512 ->
    tab_next (phys s) t j = Some c -> tab_next (phys s') t j = Some c;
  kt_trans : forall root va, is_space own root -> user_va va ->
    translate (phys s') root va = translate (phys s) root va;
  kt_data : forall f x, own f = None -> frame_addr f -> page_used (pmm s) (f / 4096) = true ->
    f <= x < f + 4096 -> phys s' x = phys s x;
  kt_refs : refcount s' = refcount s /\ nframes s' = nframes s;
}.

Lemma keeps_trans_refl s own : tree s own -> page_used (pmm s) 0 = true -> keeps_trans s own s own.
Proof. by split. Qed.

Lemma keeps_trans_trans s1 o1 s2 o2 s3 o3 :
  keeps_trans s1 o1 s2 o2 -> keeps_trans s2 o2 s3 o3 -> keeps_trans s1 o1 s3 o3.
Proof.
  intros [A1 A2 A3 A4 A5 A6 A7 A8 [A9 A10]] [B1 B2 B3 B4 B5 B6 B7 B8 [B9 B10]]. split; auto.
  - intros t r k p j c Ht Hk Hj Hn. eapply B6; eauto.
  - intros root va Hr Hu. rewrite B7, A7; [done|done|done| |done]. by apply A3.
  - intros f x Hf Hfa Hu Hx. rewrite (B8 f), (A8 f); auto.
  - split; congruence.
Qed.

(** Memory changed, but no walk sees it. *)
Lemma same_walk_core s own s' :
  tree s own -> pmm_wf (pmm s') -> (forall f pl, own f = Some pl -> page_used (pmm s') (f / 4096) = true) ->
  (forall t r k p j, own t = Some (r, k, p) -> (k < 3)%nat -> 0 <= j < 512 ->
     tab_next (phys s') t j = tab_next (phys s) t j) ->
  (forall t r p j, own t = Some (r, 3%nat, p) -> 0 <= j < 512 ->
     entry (phys s') t j = entry (phys s) t j) ->
  tree s' own /\
  (forall root va k, is_space own root -> user_va va -> (k <= 3)%nat ->
     tab (phys s') root va k = tab (phys s) root va k) /\
  (forall root va, is_space own root -> user_va va ->
     translate (phys s') root va = translate (phys s) root va).
Proof.
  intros HT Hw Hu Hn He.
  assert (Htab : forall root va k, is_space own root -> user_va va -> (k <= 3)%nat ->
    tab (phys s') root va k = tab (phys s) root va k).
  { intros root va k Hr Hv. induction k as [|k IH]; intros Hk; [done|]. cbn [tab]. rewrite IH by lia.
    destruct (tab (phys s) root va k) as [t|] eqn:E; [|done]. cbn.
    assert (Ho : own t = Some (root, k, prefix k va)) by (eapply tab_own; [exact HT|done|done|exact E|lia]).
    eapply Hn; [exact Ho|lia|apply ix_range]. }
  split; [|split; [exact Htab|]].
  - destruct HT as [T1 T2 T3 T4]. split; try done.
    + intros f pl Hf. split; [by eapply T3|by eapply Hu].
    + intros f r k p i c Hf Hk Hi H4. rewrite (Hn f r k p i) by done. eauto.
  - intros root va Hr Hv.
    unfold translate. rewrite Htab by (done || lia). destruct (tab (phys s) root va 3) as [t|] eqn:E; [|done]. cbn.
    erewrite He; [done| |apply (ix_range 3)]. eapply tab_own; [exact HT|done|done|exact E|lia].
Qed.

Lemma same_walk s own s' :
  tree s own -> page_used (pmm s) 0 = true -> pmm_wf (pmm s') -> page_used (pmm s') = page_used (pmm s) ->
  (forall t r k p j, own t = Some (r, k, p) -> (k < 3)%nat -> 0 <= j < 512 ->
     tab_next (phys s') t j = tab_next (phys s) t j) ->
  (forall t r p j, own t = Some (r, 3%nat, p) -> 0 <= j < 512 ->
     entry (phys s') t j = entry (phys s) t j) ->
  (forall f x, own f = None -> frame_addr f -> f <= x < f + 4096 -> phys s' x = phys s x) ->
  refcount s' = refcount s /\ nframes s' = nframes s ->
  keeps_trans s own s' own.
Proof.
  intros HT H0 Hw Hu Hn He Hdat Hrf.
  destruct (same_walk_core s own s' HT Hw) as (S1 & _ & S2); [|done|done|].
  { intros f pl Hf. rewrite Hu. by eapply HT. }
  split; try done; [by rewrite Hu|by rewrite Hu| |by eauto].
  intros t r k p j c Ht Hk Hj. by erewrite Hn.
Qed.

(** Distinct frames do not overlap. *)
Lemma frame_apart f g x :
  frame_addr f -> frame_addr g -> f <> g -> f <= x < f + 4096 -> ~ (g <= x < g + 4096).
Proof.
  intros [_ H1] [_ H2] Hne Hx Hy. apply Hne.
  pose proof (Z.div_mod f 4096). pose proof (Z.div_mod g 4096).
  assert (f / 4096 = g / 4096) by lia. lia.
Qed.

(** ** ensure *)

Definition own_add (own : Z -> option place) (c : Z) (pl : place) : Z -> option place :=
  fun f => if decide (f = c) then Some pl else own f.

(** Setting PAGE_USER on a present entry is invisible to walks. *)
Lemma set_user_ok s own t r k p i :
  tree s own -> page_used (pmm s) 0 = true -> own t = Some (r, k, p) -> (k < 3)%nat -> 0 <= i < 512 ->
  keeps_trans s own (set_entry t i (Z.lor (entry (phys s) t i) PAGE_USER) s) own.
Proof.
  intros HT H0 Ht Hk Hi. set (e := entry (phys s) t i).
  assert (He : 0 <= Z.lor e PAGE_USER < 2 ^ 64).
  { apply lor_bound; [lia|apply ld64_range|done]. }
  pose proof (o_frame _ _ HT) as Hfr.
  assert (Hoth : forall t' pl j, own t' = Some pl -> 0 <= j < 512 -> (t', j) <> (t, i) ->
    entry (st64 (phys s) (t + 8 * i) (Z.lor e PAGE_USER)) t' j = entry (phys s) t' j).
  { intros t' pl j Ht' Hj Hne. eapply entry_frame; [|exact (proj1 (Hfr _ _ Ht))|exact (proj1 (Hfr _ _ Ht'))|exact Hi|done|done].
    intros x. apply set_entry_other. }
  apply same_walk; try done; [by apply HT| | |].
  3:{ intros f x Hf Hfa Hx. cbn. apply set_entry_other. intros Hx'.
      eapply (frame_apart f t); [done|exact (proj1 (Hfr _ _ Ht))|congruence|exact Hx|lia]. }
  - intros t' r' k' p' j Ht' Hk' Hj. cbn. destruct (decide ((t', j) = (t, i))) as [[= -> ->]|Hne].
    + unfold tab_next. rewrite set_entry_same by done. unfold PAGE_PRESENT, PAGE_HUGE, PAGE_USER.
      rewrite !lor_flag_bit, tbl_lor_flag by lia. done.
    + unfold tab_next. by erewrite Hoth.
  - intros t' r' p' j Ht' Hj. cbn. eapply Hoth; [done|done|]. intros [= -> ->]. rewrite Ht in Ht'.
    simplify_eq. lia.
Qed.

(** A new, empty table hangs off a slot that had none. *)
Lemma new_table_ok s own s' t r k p i c :
  tree s own -> own t = Some (r, k, p) -> (k < 3)%nat -> 0 <= i < 512 ->
  (k = O -> i < 256) -> tab_next (phys s) t i = None ->
  frame_addr c -> page_used (pmm s) (c / 4096) = false ->
  pmm_wf (pmm s') -> page_used (pmm s') 0 = true ->
  (forall n, page_used (pmm s') n = bool_decide (n = c / 4096) || page_used (pmm s) n) ->
  tab_next (phys s') t i = Some c -> (forall j, 0 <= j < 512 -> entry (phys s') c j = 0) ->
  (forall t' pl j, own t' = Some pl -> 0 <= j < 512 -> (t', j) <> (t, i) ->
     entry (phys s') t' j = entry (phys s) t' j) ->
  (forall f x, own f = None -> frame_addr f -> f <> c -> f <= x < f + 4096 -> phys s' x = phys s x) ->
  refcount s' = refcount s /\ nframes s' = nframes s ->
  keeps_trans s own s' (own_add own c (r, S k, p * 512 + i)).
Proof.
  intros HT Ht Hk Hi H4 Hnone Hc Hfree Hw H0 Hu Hsome Hz Hoth Hdat Hrf.
  assert (Hcn : own c = None).
  { destruct (own c) as [pl|] eqn:E; [|done]. apply (o_frame _ _ HT) in E as [_ E]. congruence. }
  assert (Hadd : forall f pl, own f = Some pl -> own_add own c (r, S k, p * 512 + i) f = Some pl).
  { intros f pl Hf. unfold own_add. case_decide; [subst; congruence|done]. }
  assert (Hzn : forall j, 0 <= j < 512 -> tab_next (phys s') c j = None).
  { intros j Hj. unfold tab_next. by rewrite Hz. }
  assert (Hne : forall t' pl j, own t' = Some pl -> 0 <= j < 512 -> (t', j) <> (t, i) ->
    tab_next (phys s') t' j = tab_next (phys s) t' j).
  { intros t' pl j Ht' Hj Hn. unfold tab_next. by erewrite Hoth. }
  split; [|done|done| | | | | |done].
  - split; [done| | |].
    + intros f r' p'. unfold own_add. case_decide; [done|]. apply (o_root _ _ HT).
    + intros f pl. unfold own_add. case_decide as E.
      * intros _. subst f. split; [done|]. rewrite Hu. by rewrite bool_decide_true.
      * intros Hf. apply (o_frame _ _ HT) in Hf as [? Hf]. split; [done|]. by rewrite Hu, Hf, orb_true_r.
    + intros f r' k' p' j d. unfold own_add at 1. case_decide as E.
      * intros _ _ Hj _. subst f. by rewrite Hzn.
      * intros Hf Hk' Hj H4'. destruct (decide ((f, j) = (t, i))) as [[= -> ->]|Hn].
        -- rewrite Hsome. intros [= <-]. rewrite Ht in Hf. simplify_eq. unfold own_add. by case_decide.
        -- rewrite (Hne f _ j Hf Hj Hn). intros Hd. eapply Hadd, (o_child _ _ HT); eauto.
  - intros f Hf Hused. unfold own_add. case_decide; [subst; congruence|done].
  - intros n Hn. by rewrite Hu, Hn, orb_true_r.
  - intros t' r' k' p' j d Ht' Hk' Hj Hd. rewrite <- Hd. eapply Hne; [done|done|]. intros [= -> ->]. congruence.
  - intros root va Hr Hv.
    assert (Hle : forall k0 t0, (k0 <= 3)%nat -> tab (phys s) root va k0 = Some t0 ->
      tab (phys s') root va k0 = Some t0).
    { induction k0 as [|k0 IH]; intros t0 Hk0; cbn [tab]; [done|].
      destruct (tab (phys s) root va k0) as [t1|] eqn:E; [|done]. cbn. rewrite (IH t1) by (done || lia). cbn.
      assert (Ho := tab_own _ _ _ _ _ _ HT Hr Hv E ltac:(lia)).
      intros Hn0. rewrite <- Hn0. eapply Hne; [exact Ho|apply ix_range|]. intros [= -> E2]. congruence. }
    assert (Hge : forall k0 t0, (k0 <= 3)%nat -> tab (phys s') root va k0 = Some t0 ->
      tab (phys s) root va k0 = Some t0 \/ t0 = c).
    { induction k0 as [|k0 IH]; intros t0 Hk0; cbn [tab]; [by left|].
      destruct (tab (phys s') root va k0) as [t1|] eqn:E; [|done]. cbn.
      destruct (IH t1 ltac:(lia) eq_refl) as [E1| ->]; [|by rewrite Hzn by apply ix_range].
      rewrite E1. cbn. assert (Ho := tab_own _ _ _ _ _ _ HT Hr Hv E1 ltac:(lia)).
      destruct (decide ((t1, ix k0 va) = (t, i))) as [[= -> E2]|Hn]; [rewrite E2, Hsome; intros [= <-]; by right|].
      rewrite (Hne _ _ _ Ho (ix_range _ _) Hn). by left. }
    unfold translate. destruct (tab (phys s) root va 3) as [t1|] eqn:E.
    + rewrite (Hle 3%nat t1 ltac:(lia) E). cbn [mbind option_bind].
      assert (Ho := tab_own _ _ _ _ _ _ HT Hr Hv E ltac:(lia)).
      rewrite (Hoth _ _ (ix 3 va) Ho); [done|apply ix_range|]. intros [= -> _]. rewrite Ht in Ho. simplify_eq. lia.
    + destruct (tab (phys s') root va 3) as [t1|] eqn:E'; [|done].
      destruct (Hge 3%nat t1 ltac:(lia) E') as [E1| ->]; [congruence|]. cbn [mbind option_bind].
      by rewrite Hz by apply ix_range.
  - intros f x Hf Hfa Hused. apply Hdat; [done|done|congruence].
Qed.

Lemma tab_next_absent m t i : has (entry m t i) PAGE_PRESENT = false -> tab_next m t i = None.
Proof. intros H. unfold tab_next. by rewrite H. Qed.

(** An allocation that fails is invisible. *)
Lemma pmm_only_ok s own q :
  tree s own -> page_used (pmm s) 0 = true -> pmm_wf q -> (forall n, page_used q n = page_used (pmm s) n) ->
  keeps_trans s own (with_pmm q s) own.
Proof.
  intros HT H0 Hq Hu. split; cbn; auto; [|by rewrite Hu|intros; by rewrite Hu].
  destruct HT as [T1 T2 T3 T4]. split; auto. intros f pl Hf. cbn. rewrite Hu. eauto.
Qed.

Lemma fill_entry m c j : 0 <= j < 512 -> entry (mfill m c 4096 0) c j = 0.
Proof. intros Hj. unfold entry. apply ld_mfill0; lia. Qed.

Lemma fill_other m c t j :
  frame_addr c -> frame_addr t -> t <> c -> 0 <= j < 512 -> entry (mfill m c 4096 0) t j = entry m t j.
Proof.
  intros [H1 H2] [H3 H4] Hne Hj. unfold entry. apply ld_mfill_out.
  pose proof (Z.div_mod c 4096). pose proof (Z.div_mod t 4096).
  assert (t / 4096 <> c / 4096) by (intros E; apply Hne; lia). lia.
Qed.

Lemma ensure_ok s own t r k p i create o s' :
  tree s own -> page_used (pmm s) 0 = true -> own t = Some (r, k, p) -> (k < 3)%nat -> 0 <= i < 512 ->
  (k = O -> i < 256) -> ensure t i create s = (o, s') ->
  exists own', keeps_trans s own s' own' /\
    forall c, o = Some c -> own' c = Some (r, S k, p * 512 + i) /\ tab_next (phys s') t i = Some c.
Proof.
  intros HT H0 Ht Hk Hi H4. unfold ensure. set (e := entry (phys s) t i).
  destruct (has e PAGE_PRESENT) eqn:Hp; cbn [negb].
  - destruct (has e PAGE_HUGE) eqn:Hh; intros [= <- <-].
    { exists own. split; [by apply keeps_trans_refl|done]. }
    exists own. pose proof (set_user_ok s own t r k p i HT H0 Ht Hk Hi) as HK. split; [exact HK|].
    intros c [= <-].
    assert (Hn : tab_next (phys s) t i = Some (tbl e)) by (unfold tab_next; fold e; by rewrite Hp, Hh).
    assert (E : entry (st64 (phys s) (t + 8 * i) (Z.lor e PAGE_USER)) t i = Z.lor e PAGE_USER).
    { apply set_entry_same. apply lor_bound; [lia|apply ld64_range|done]. }
    rewrite E. unfold PAGE_USER at 1 3. rewrite tbl_lor_flag by lia. split.
    + eapply (o_child _ _ HT); eauto.
    + by eapply (kt_tab _ _ _ _ HK).
  - destruct create; cbn [negb]; [|intros [= <- <-]; exists own; split; [by apply keeps_trans_refl|done]].
    destruct (alloc_frame s) as [c s1] eqn:EA.
    destruct (alloc_frame_ok s c s1 (o_pmm _ _ HT) H0 EA) as (q & -> & Hq & _ & [[-> Hu]|(Hc & Hfree & Hu)]).
    { intros [= <- <-]. exists own. split; [by apply pmm_only_ok|done]. }
    destruct (Z.eqb_spec c 0); [destruct Hc; lia|]. cbn zeta. cbn [phys with_pmm with_phys set_entry].
    destruct (new_entry c Hc) as (N1 & N2 & N3 & N4).
    set (e' := Z.lor _ PAGE_USER) in *. clearbody e'. rewrite set_entry_same by done. rewrite N1.
    intros [= <- <-]. exists (own_add own c (r, S k, p * 512 + i)).
    assert (Hct : t <> c).
    { intros ->. apply (o_frame _ _ HT) in Ht as [_ Ht]. congruence. }
    pose proof (proj1 (o_frame _ _ HT _ _ Ht)) as Hft.
    assert (Hsome : tab_next (st64 (mfill (phys s) c 4096 0) (t + 8 * i) e') t i = Some c).
    { unfold tab_next. rewrite set_entry_same by done. by rewrite N1, N2, N3. }
    split.
    + apply new_table_ok with (t := t) (k := k); try done.
      * by apply tab_next_absent.
      * cbn. by rewrite Hu, H0, orb_true_r.
      * intros j Hj. cbn. erewrite (entry_frame _ _ t i c j); [by apply fill_entry| |done..|].
        -- intros x. apply set_entry_other.
        -- congruence.
      * intros t' pl j Ht' Hj Hne. cbn. pose proof (proj1 (o_frame _ _ HT _ _ Ht')) as Hft'.
        erewrite (entry_frame _ _ t i t' j); [|intros x; apply set_entry_other|done..].
        apply fill_other; try done. intros ->. apply (o_frame _ _ HT) in Ht' as [_ ?]. congruence.
      * intros f x Hf Hfa Hfc Hx. cbn. rewrite set_entry_other.
        -- apply mfill_out. pose proof (frame_apart f c x Hfa Hc Hfc Hx). lia.
        -- intros Hx'. eapply (frame_apart f t); [done|done|congruence|exact Hx|lia].
    + intros d [= <-]. split; [|exact Hsome]. unfold own_add. by case_decide.
Qed.

Lemma leaf_slot_ok s own root va create o s' :
  tree s own -> page_used (pmm s) 0 = true -> is_space own root -> user_va va ->
  leaf_slot root va create s = (o, s') ->
  exists own', keeps_trans s own s' own' /\
    forall slot, o = Some slot -> exists pt, tab (phys s') root va 3 = Some pt /\ slot = pt + 8 * ix 3 va.
Proof.
  intros HT H0 Hr Hv. unfold leaf_slot. pose proof (ix_range 0 va). unfold user_va in Hv. cbn [ix] in *.
  destruct (Z.leb_spec 256 (VMM_PML4_INDEX va)); [lia|].
  rewrite (tbl_frame root) by apply (o_frame _ _ HT _ _ Hr).
  destruct (ensure root _ create s) as [o1 s1] eqn:E1.
  destruct (ensure_ok _ _ _ _ _ _ _ _ _ _ HT H0 Hr ltac:(lia) (ix_range 0 va) ltac:(done) E1) as (w1 & K1 & R1).
  destruct o1 as [pdpt|]; [|intros [= <- <-]; by exists w1]. destruct (R1 _ eq_refl) as [O1 N1].
  destruct (ensure pdpt _ create s1) as [o2 s2] eqn:E2.
  destruct (ensure_ok _ _ _ _ _ _ _ _ _ _ (kt_tree _ _ _ _ K1) (kt_zero _ _ _ _ K1) O1 ltac:(lia) (ix_range 1 va)
              ltac:(done) E2) as (w2 & K2 & R2).
  pose proof (keeps_trans_trans _ _ _ _ _ _ K1 K2) as K12.
  destruct o2 as [pd|]; [|intros [= <- <-]; by exists w2]. destruct (R2 _ eq_refl) as [O2 N2].
  destruct (ensure pd _ create s2) as [o3 s3] eqn:E3.
  destruct (ensure_ok _ _ _ _ _ _ _ _ _ _ (kt_tree _ _ _ _ K2) (kt_zero _ _ _ _ K2) O2 ltac:(lia) (ix_range 2 va)
              ltac:(done) E3) as (w3 & K3 & R3).
  pose proof (keeps_trans_trans _ _ _ _ _ _ K12 K3) as K123.
  destruct o3 as [pt|]; [|intros [= <- <-]; by exists w3]. destruct (R3 _ eq_refl) as [O3 N3].
  intros [= <- <-]. exists w3. split; [exact K123|]. intros slot [= <-]. exists pt. split; [|done].
  cbn [tab mbind option_bind].
  assert (A1 : tab_next (phys s3) root (ix 0 va) = Some pdpt).
  { eapply (kt_tab _ _ _ _ K3); [apply K2, K1, Hr|lia|apply ix_range|].
    eapply (kt_tab _ _ _ _ K2); [apply K1, Hr|lia|apply ix_range|exact N1]. }
  rewrite A1. cbn [mbind option_bind].
  assert (A2 : tab_next (phys s3) pdpt (ix 1 va) = Some pd).
  { eapply (kt_tab _ _ _ _ K3); [apply K2, O1|lia|apply ix_range|exact N2]. }
  rewrite A2. cbn [mbind option_bind]. exact N3.
Qed.

(** ** Leaf entries *)

Lemma put_leaf_ok s own root va pt e :
  tree s own -> is_space own root -> user_va va -> tab (phys s) root va 3 = Some pt -> 0 <= e < 2 ^ 64 ->
  let s' := put (pt + 8 * ix 3 va) e s in
  tree s' own /\
  translate (phys s') root va = (if has e PAGE_PRESENT then Some e else None) /\
  (forall root' va', is_space own root' -> user_va va' -> (root', page_of va') <> (root, page_of va) ->
     translate (phys s') root' va' = translate (phys s) root' va').
Proof.
  intros HT Hr Hv Hpt He. cbn zeta. pose proof (tab_own _ _ _ _ _ _ HT Hr Hv Hpt ltac:(lia)) as Hown.
  pose proof (o_frame _ _ HT) as Hfr. set (i := ix 3 va). assert (Hi : 0 <= i < 512) by apply ix_range.
  assert (Hoth : forall t pl j, own t = Some pl -> 0 <= j < 512 -> (t, j) <> (pt, i) ->
    entry (st64 (phys s) (pt + 8 * i) e) t j = entry (phys s) t j).
  { intros t pl j Ht Hj Hne. eapply entry_frame; [|exact (proj1 (Hfr _ _ Hown))|exact (proj1 (Hfr _ _ Ht))|exact Hi|done|done].
    intros x. apply set_entry_other. }
  assert (Hnext : forall t r k p j, own t = Some (r, k, p) -> (k < 3)%nat -> 0 <= j < 512 ->
    tab_next (st64 (phys s) (pt + 8 * i) e) t j = tab_next (phys s) t j).
  { intros t r k p j Ht Hk Hj. unfold tab_next. rewrite (Hoth _ _ _ Ht Hj); [done|].
    intros [= -> ->]. rewrite Hown in Ht. simplify_eq. lia. }
  assert (Htab : forall root' va' k, is_space own root' -> user_va va' -> (k <= 3)%nat ->
    tab (st64 (phys s) (pt + 8 * i) e) root' va' k = tab (phys s) root' va' k).
  { intros root' va' k Hr' Hv'. induction k as [|k IH]; intros Hk; [done|]. cbn [tab]. rewrite IH by lia.
    destruct (tab (phys s) root' va' k) as [t|] eqn:E; [|done]. cbn.
    eapply Hnext; [by eapply (tab_own _ _ _ _ _ _ HT Hr' Hv' E); lia|lia|apply ix_range]. }
  split_and!.
  - destruct HT as [T1 T2 T3 T4]. split; try done. intros f r k p j c Hf Hk Hj H4. cbn [phys put with_phys].
    rewrite (Hnext f r k p j Hf Hk Hj). eauto.
  - unfold translate. cbn [phys put with_phys]. rewrite Htab by (done || lia). rewrite Hpt.
    cbn [mbind option_bind]. fold i. by rewrite set_entry_same by done.
  - intros root' va' Hr' Hv' Hne. unfold translate. cbn [phys put with_phys]. rewrite Htab by (done || lia).
    destruct (tab (phys s) root' va' 3) as [t|] eqn:E; [|done]. cbn [mbind option_bind].
    pose proof (tab_own _ _ _ _ _ _ HT Hr' Hv' E ltac:(lia)) as Ht.
    rewrite (Hoth _ _ (ix 3 va') Ht); [done|apply ix_range|]. intros [= -> E2].
    apply Hne. rewrite Hown in Ht. injection Ht as -> Hp. f_equal.
    rewrite <- !prefix_page, !(prefix_S 3) by lia. fold i. rewrite Hp. by change (ix 3 va') with (VMM_PT_INDEX va'); rewrite E2.
Qed.

(** A non-creating walk finds what is there. *)
Lemma ensure_found s t i create c :
  tab_next (phys s) t i = Some c -> exists s', ensure t i create s = (Some c, s').
Proof.
  unfold tab_next, ensure. destruct (has _ PAGE_PRESENT); [|done]. cbn [andb negb].
  destruct (has _ PAGE_HUGE); [done|]. intros [= <-]. eexists. f_equal. f_equal. cbn.
  rewrite set_entry_same by (apply lor_bound; [lia|apply ld64_range|done]). by apply tbl_lor_flag.
Qed.

Lemma leaf_slot_found s own root va create pt :
  tree s own -> page_used (pmm s) 0 = true -> is_space own root -> user_va va ->
  tab (phys s) root va 3 = Some pt ->
  exists s', leaf_slot root va create s = (Some (pt + 8 * ix 3 va), s').
Proof.
  intros HT H0 Hr Hv Hpt. cbn [tab mbind option_bind] in Hpt.
  destruct (tab_next (phys s) root (ix 0 va)) as [pdpt|] eqn:N1; [|done]. cbn [mbind option_bind] in Hpt.
  destruct (tab_next (phys s) pdpt (ix 1 va)) as [pd|] eqn:N2; [|done]. cbn [mbind option_bind] in Hpt.
  unfold leaf_slot. unfold user_va in Hv. cbn [ix] in *.
  destruct (Z.leb_spec 256 (VMM_PML4_INDEX va)); [lia|].
  rewrite (tbl_frame root) by apply (o_frame _ _ HT _ _ Hr).
  destruct (ensure_found s root (ix 0 va) create pdpt N1) as [s1 E1]. cbn [ix] in E1. rewrite E1.
  destruct (ensure_ok _ _ _ _ _ _ _ _ _ _ HT H0 Hr ltac:(lia) (ix_range 0 va) ltac:(done) E1) as (w1 & K1 & R1).
  destruct (R1 _ eq_refl) as [O1 _].
  pose proof (o_child _ _ HT _ _ _ _ _ _ Hr ltac:(lia) (ix_range 0 va) ltac:(done) N1) as P1.
  assert (N2' : tab_next (phys s1) pdpt (ix 1 va) = Some pd).
  { eapply (kt_tab _ _ _ _ K1); [exact P1|lia|apply ix_range|exact N2]. }
  destruct (ensure_found s1 pdpt (ix 1 va) create pd N2') as [s2 E2]. cbn [ix] in E2. rewrite E2.
  destruct (ensure_ok _ _ _ _ _ _ _ _ _ _ (kt_tree _ _ _ _ K1) (kt_zero _ _ _ _ K1) O1 ltac:(lia) (ix_range 1 va)
              ltac:(done) E2) as (w2 & K2 & R2).
  pose proof (o_child _ _ HT _ _ _ _ _ _ P1 ltac:(lia) (ix_range 1 va) ltac:(done) N2) as P2.
  assert (N3' : tab_next (phys s2) pd (ix 2 va) = Some pt).
  { eapply (kt_tab _ _ _ _ K2); [apply K1, P2|lia|apply ix_range|].
    eapply (kt_tab _ _ _ _ K1); [exact P2|lia|apply ix_range|exact Hpt]. }
  destruct (ensure_found s2 pd (ix 2 va) create pt N3') as [s3 E3]. cbn [ix] in E3. rewrite E3. by eexists.
Qed.

(** Only the memory and the allocator matter to the tree. *)
Lemma tree_ext s s' own : pmm s' = pmm s -> phys s' = phys s -> tree s own -> tree s' own.
Proof. intros E1 E2 [T1 T2 T3 T4]. split; rewrite ?E1, ?E2; done. Qed.

(** Clearing the offset bits of a frame address changes nothing. *)
Lemma frame_mask f : frame_addr f -> Z.land f (not64 0xFFF) = f.
Proof.
  intros Hf. apply Z.bits_inj'. intros n Hn. rewrite Z.land_spec. destruct (Z.ltb_spec n 12).
  - by rewrite frame_bit_low by (done || lia).
  - destruct (Z.ltb_spec n 64).
    + unfold not64. rewrite Z.lxor_spec. change (2 ^ 64 - 1) with (Z.ones 64). change 0xFFF with (Z.ones 12).
      rewrite Z.ones_spec_low, Z.ones_spec_high by lia. by rewrite andb_true_r.
    + destruct Hf as [Hf _]. rewrite (Z.bits_above_log2 f n); [done|lia|].
      assert (Z.log2 f < 52) by (apply Z.log2_lt_pow2; lia). lia.
Qed.

(** Dropping a reference to a data frame. *)
Lemma decref_ok s own f :
  tree s own -> page_used (pmm s) 0 = true -> own f = None -> frame_addr f ->
  let s' := (page_decref f s).2 in
  phys s' = phys s /\ tree s' own /\ page_used (pmm s') 0 = true.
Proof.
  intros HT H0 Hown Hf. cbn zeta. unfold page_decref. destruct (refcount s) as [r|]; [|done].
  destruct (_ <=? _); [done|].
  assert (HF : forall s1, pmm s1 = pmm s -> phys s1 = phys s ->
    let s2 := free_frame (Z.land f (not64 0xFFF)) s1 in
    phys s2 = phys s /\ tree s2 own /\ page_used (pmm s2) 0 = true).
  { intros s1 E1 E2. cbn zeta.
    rewrite (frame_mask f Hf). unfold free_frame, pmm_free_page. rewrite E1. split; [done|]. cbn [pmm with_pmm].
    destruct (bad_page_addr f); [split; [by apply (tree_ext s)|done]|].
    destruct (_ && _) eqn:Eb; [|split; [by apply (tree_ext s)|done]].
    apply andb_prop in Eb as [Eb _]. apply Z.ltb_lt in Eb. unfold addr_to_page, PAGE_SIZE in *.
    destruct Hf as [Hf1 Hf2]. assert (0 < f / 4096) by (pose proof (Z.div_mod f 4096); lia).
    split; [|rewrite page_used_release, H0, bool_decide_false by lia; done].
    destruct HT as [T1 T2 T3 T4]. split; cbn; rewrite ?E2; try done.
    - apply (wf_frame (pmm s)); [done|apply release_frame|]. rewrite release_used. apply u32_range.
    - intros g pl Hg. destruct (T3 g pl Hg) as [[Hg1 Hg2] Hg3]. split; [done|].
      rewrite page_used_release, Hg3 by lia. case_bool_decide as E; [|done].
      assert (g = f) by (pose proof (Z.div_mod g 4096); pose proof (Z.div_mod f 4096); lia). congruence. }
  destruct (0 <? r (pfn f)).
  - destruct (Z.eqb_spec (r (pfn f) - 1) 0); cbn [snd]; [by apply HF|].
    split; [done|]. split; [by apply (tree_ext s)|done].
  - destruct (Z.eqb_spec (r (pfn f)) 0); cbn [snd]; [by apply HF|done].
Qed.

(** Dropping a reference frees at most that frame. *)
Lemma decref_used s f n :
  frame_addr f -> n <> f / 4096 -> page_used (pmm (page_decref f s).2) n = page_used (pmm s) n.
Proof.
  intros [Hf Hm] Hn. unfold page_decref. destruct (refcount s) as [r|]; [|done].
  destruct (_ <=? _); [done|].
  assert (HF : forall s1, pmm s1 = pmm s ->
    page_used (pmm (free_frame (Z.land f (not64 0xFFF)) s1)) n = page_used (pmm s) n).
  { intros s1 E. unfold free_frame, pmm_free_page. cbn [pmm with_pmm].
    rewrite (frame_mask f) by (by split). rewrite E. destruct (bad_page_addr f); [done|]. destruct (_ && _) eqn:Eb; [|done].
    apply andb_prop in Eb as [Eb _]. apply Z.ltb_lt in Eb. unfold addr_to_page, PAGE_SIZE in *.
    rewrite page_used_release by (done || (pose proof (Z.div_mod f 4096); lia)).
    rewrite bool_decide_false by done. by rewrite ?andb_true_l. }
  destruct (0 <? r (pfn f)); [destruct (Z.eqb_spec (r (pfn f) - 1) 0)|destruct (Z.eqb_spec (r (pfn f)) 0)];
    cbn [snd]; try done; by apply HF.
Qed.

(** ** The properties of a space *)

(** The entry vmspace_map writes. *)
Definition leaf_entry (p flags : Z) : Z :=
  Z.lor (Z.lor (Z.lor (Z.lor (Z.land p PTE_PHYS_MASK) (Z.land flags 0xFFF))
                      (Z.land flags PAGE_NO_EXECUTE)) PAGE_PRESENT) PAGE_USER.

Lemma leaf_entry_bits p flags n :
  0 <= n -> Z.testbit (leaf_entry p flags) n =
    Z.testbit p n && ((12 <=? n) && (n <? 52)) || Z.testbit flags n && (n <? 12)
    || Z.testbit flags n && bool_decide (63 = n) || bool_decide (0 = n) || bool_decide (2 = n).
Proof.
  intros Hn. unfold leaf_entry, PAGE_NO_EXECUTE, PAGE_PRESENT, PAGE_USER.
  rewrite !Z.lor_spec, !Z.land_spec, mask_bit, !testbit_one_shift by lia.
  change 0xFFF with (Z.ones 12). destruct (Z.ltb_spec n 12).
  - by rewrite Z.ones_spec_low by lia.
  - by rewrite Z.ones_spec_high by lia.
Qed.

Lemma leaf_entry_ok p flags :
  0 <= p -> 0 <= flags < 2 ^ 64 ->
  let e := leaf_entry p flags in
  0 <= e < 2 ^ 64 /\ tbl e = tbl p /\ has e PAGE_PRESENT = true /\
  has e PAGE_WRITABLE = has flags PAGE_WRITABLE /\ has e PAGE_NO_EXECUTE = has flags PAGE_NO_EXECUTE.
Proof.
  intros Hp Hf. cbn zeta. split; [|split_and!].
  - unfold leaf_entry. apply lor_bound; [lia| |done]. apply lor_bound; [lia| |done].
    apply lor_bound; [lia| |]; [apply lor_bound; [lia| |]|]; apply land_bound; done || lia.
  - apply Z.bits_inj'. intros n Hn. rewrite !tbl_bit, leaf_entry_bits by done.
    destruct (Z.leb_spec 12 n), (Z.ltb_spec n 52), (Z.ltb_spec n 12); try lia; cbn [andb];
      rewrite ?andb_false_r, ?andb_true_r, ?orb_false_r; try done;
      repeat (rewrite bool_decide_false by lia); by rewrite ?andb_false_r, ?orb_false_r.
  - unfold PAGE_PRESENT. rewrite has_bit, leaf_entry_bits by lia.
    rewrite (bool_decide_true (0 = 0)) by done. by rewrite !orb_true_r.
  - unfold PAGE_WRITABLE. rewrite !has_bit, leaf_entry_bits by lia. cbn. by rewrite !andb_false_r, !andb_true_r, !orb_false_r.
  - unfold PAGE_NO_EXECUTE. rewrite !has_bit, leaf_entry_bits by lia. cbn. by rewrite !andb_false_r, !andb_true_r, !orb_false_r.
Qed.

(** A frame a leaf may be dropped from: in use and not a page table. *)
Definition data_frame (s : vm) (own : Z -> option place) (f : Z) : Prop :=
  own f = None /\ frame_addr f /\ page_used (pmm s) (f / 4096) = true.

(** The well-formed machine the theorems start from. *)
Definition vm_ok (s : vm) (own : Z -> option place) : Prop := tree s own /\ page_used (pmm s) 0 = true.

Lemma drop_ok s own e :
  vm_ok s own -> (has e PAGE_PRESENT = true -> data_frame s own (tbl e)) ->
  forall (b : bool), vm_ok (if has e PAGE_PRESENT then if b then (page_decref (tbl e) s).2 else s else s) own /\
  phys (if has e PAGE_PRESENT then if b then (page_decref (tbl e) s).2 else s else s) = phys s.
Proof.
  intros [HT H0] Hd b. destruct (has e PAGE_PRESENT); [|done]. destruct b; [|done].
  destruct (Hd eq_refl) as (D1 & D2 & _).
  destruct (decref_ok s own (tbl e) HT H0 D1 D2) as (P1 & P2 & P3). done.
Qed.

(** vmspace_phys computes the translation. *)
Lemma vmspace_phys_ok s own a va :
  vm_ok s own -> is_space own (pml4_phys a) -> user_va va ->
  (vmspace_phys a va s).1 =
    match translate (phys s) (pml4_phys a) va with Some e => tbl e | None => 0 end.
Proof.
  intros [HT H0] Hr Hv. unfold vmspace_phys. destruct (leaf_slot (pml4_phys a) va false s) as [o s1] eqn:EL.
  destruct (leaf_slot_ok s own _ va false o s1 HT H0 Hr Hv EL) as (w & K & HS).
  rewrite <- (kt_trans _ _ _ _ K) by done. destruct o as [slot|].
  - destruct (HS slot eq_refl) as (pt & Hpt & ->). unfold translate. rewrite Hpt. cbn [mbind option_bind fst].
    change (entry (phys s1) pt (ix 3 va)) with (get (pt + 8 * ix 3 va) s1).
    by destruct (has (get (pt + 8 * ix 3 va) s1) PAGE_PRESENT).
  - rewrite (kt_trans _ _ _ _ K) by done. unfold translate.
    destruct (tab (phys s) (pml4_phys a) va 3) as [pt|] eqn:E; [|done].
    destruct (leaf_slot_found s own _ va false pt HT H0 Hr Hv E) as [s2 E2]. congruence.
Qed.

(** What a change of one leaf may do: every other page of every space translates
    as before. *)
Definition others_same (own : Z -> option place) (s s' : vm) (root va : Z) : Prop :=
  forall root' va', is_space own root' -> user_va va' -> (root', page_of va') <> (root, page_of va) ->
    translate (phys s') root' va' = translate (phys s) root' va'.

(** A leaf store changes no data frame. *)
Lemma put_leaf_data s own root va pt e f x :
  tree s own -> is_space own root -> user_va va -> tab (phys s) root va 3 = Some pt ->
  own f = None -> frame_addr f -> f <= x < f + 4096 ->
  phys (put (pt + 8 * ix 3 va) e s) x = phys s x.
Proof.
  intros HT Hr Hv Hpt Hf Hfa Hx. pose proof (tab_own _ _ _ _ _ _ HT Hr Hv Hpt ltac:(lia)) as Ho.
  cbn. apply set_entry_other. intros Hx'. pose proof (ix_range 3 va).
  eapply (frame_apart f pt); [done|exact (proj1 (o_frame _ _ HT _ _ Ho))|congruence|exact Hx|].
  change (ix 3 va) with (VMM_PT_INDEX va) in *. lia.
Qed.

Lemma vmspace_map_ok s own a va p flags rc s' :
  vm_ok s own -> is_space own (pml4_phys a) -> user_va va -> 0 <= p -> 0 <= flags < 2 ^ 64 ->
  (forall e, translate (phys s) (pml4_phys a) va = Some e -> data_frame s own (tbl e)) ->
  vmspace_map a va p flags s = (rc, s') ->
  exists own', vm_ok s' own' /\ (forall f pl, own f = Some pl -> own' f = Some pl) /\
    (forall f, own f = None -> page_used (pmm s) (f / 4096) = true -> own' f = None) /\
    (rc = 0 -> (vmspace_phys a va s').1 = tbl p /\
       exists e, translate (phys s') (pml4_phys a) va = Some e /\ tbl e = tbl p /\
         has e PAGE_WRITABLE = has flags PAGE_WRITABLE /\ has e PAGE_NO_EXECUTE = has flags PAGE_NO_EXECUTE) /\
    (rc <> 0 -> rc = -1 /\ translate (phys s') (pml4_phys a) va = translate (phys s) (pml4_phys a) va) /\
    others_same own s s' (pml4_phys a) va /\
    (forall f x, data_frame s own f -> f <= x < f + 4096 -> phys s' x = phys s x) /\
    (forall n, page_used (pmm s) n = true ->
       (forall e, translate (phys s) (pml4_phys a) va = Some e -> tbl e / 4096 = n -> tbl e = tbl p) ->
       page_used (pmm s') n = true).
Proof.
  intros [HT H0] Hr Hv Hp Hfl Hdata. unfold vmspace_map.
  destruct (leaf_slot (pml4_phys a) va true s) as [o s1] eqn:EL.
  destruct (leaf_slot_ok s own _ va true o s1 HT H0 Hr Hv EL) as (w & K & HS).
  assert (Hvm1 : vm_ok s1 w) by (split; apply K). pose proof (kt_trans _ _ _ _ K) as KT.
  destruct o as [slot|].
  2:{ intros [= <- <-]. exists w. split_and!; [done|apply K|apply K|lia|intros _; split; [done|by apply KT]| | |].
      - intros root' va' Hr' Hv' _. by apply KT.
      - intros f x (D1 & D2 & D3) Hx. by apply (kt_data _ _ _ _ K f).
      - intros n Hn _. by apply (kt_used _ _ _ _ K). }
  destruct (HS slot eq_refl) as (pt & Hpt & ->).
  set (e0 := get (pt + 8 * ix 3 va) s1).
  assert (Hd1 : has e0 PAGE_PRESENT = true -> data_frame s1 w (tbl e0)).
  { intros Hpr. destruct (Hdata e0) as (D1 & D2 & D3).
    - rewrite <- KT by done. unfold translate. rewrite Hpt. cbn [mbind option_bind].
      change (entry (phys s1) pt (ix 3 va)) with e0. by rewrite Hpr.
    - split_and!; [by apply (kt_new _ _ _ _ K)|done|by apply (kt_used _ _ _ _ K)]. }
  destruct (drop_ok s1 w e0 Hvm1 Hd1 (negb (tbl e0 =? Z.land p PTE_PHYS_MASK))) as [[HT2 H02] Hph2].
  change (Z.land e0 PTE_PHYS_MASK) with (tbl e0). fold (leaf_entry p flags).
  set (s2 := if has e0 PAGE_PRESENT then _ else _) in *.
  assert (Hu2 : forall n, page_used (pmm s) n = true ->
    (forall e, translate (phys s) (pml4_phys a) va = Some e -> tbl e / 4096 = n -> tbl e = tbl p) ->
    page_used (pmm s2) n = true).
  { intros n Hu He. pose proof (kt_used _ _ _ _ K _ Hu) as Hu1. unfold s2.
    destruct (has e0 PAGE_PRESENT) eqn:Epr; [|done]. destruct (Hd1 eq_refl) as (_ & D2 & _).
    destruct (Z.eqb_spec (tbl e0) (Z.land p PTE_PHYS_MASK)) as [|Hne]; [done|]. cbn [negb].
    rewrite decref_used; [done|done|]. intros ->. apply Hne, (He e0); [|done].
    rewrite <- KT by done. unfold translate. rewrite Hpt. cbn [mbind option_bind].
    change (entry (phys s1) pt (ix 3 va)) with e0. by rewrite Epr. }
  clearbody s2.
  intros [= <- <-]. exists w.
  destruct (leaf_entry_ok p flags Hp Hfl) as (L1 & L2 & L3 & L4 & L5). set (e := leaf_entry p flags) in *.
  rewrite <- Hph2 in Hpt.
  destruct (put_leaf_ok s2 w _ va pt e HT2 (kt_own _ _ _ _ K _ _ Hr) Hv Hpt L1) as (P1 & P2 & P3).
  set (s3 := put _ e s2) in *. rewrite L3 in P2.
  split_and!; [by split|apply K|apply K| |lia| | |].
  - intros _. split; [|by exists e]. rewrite (vmspace_phys_ok s3 w a va); [by rewrite P2|by split|by apply K|done].
  - intros root' va' Hr' Hv' Hne. rewrite P3; [|by apply K|done|done]. rewrite Hph2. by apply KT.
  - intros f x (D1 & D2 & D3) Hx. unfold s3.
    rewrite (put_leaf_data s2 w (pml4_phys a) va pt e f x); [|done|by apply K|done|done|by apply K|done|done].
    rewrite Hph2. by apply (kt_data _ _ _ _ K f).
  - intros n Hu He. by apply Hu2.
Qed.

(** C9: vmspace_map on a user page either fails with -1 and changes no
    translation, or makes exactly that page translate to the given frame with the
    given protection (vmspace_phys then returns the frame), leaving every other
    page of this and of every other address space as it was; page tables stay
    disjoint trees. *)
Theorem vmspace_map_isolated s own a va p flags rc s' :
  vm_ok s own -> is_space own (pml4_phys a) -> user_va va -> 0 <= p -> 0 <= flags < 2 ^ 64 ->
  (forall e, translate (phys s) (pml4_phys a) va = Some e -> data_frame s own (tbl e)) ->
  vmspace_map a va p flags s = (rc, s') ->
  exists own', vm_ok s' own' /\ (forall f pl, own f = Some pl -> own' f = Some pl) /\
    (forall f, own f = None -> page_used (pmm s) (f / 4096) = true -> own' f = None) /\
    (rc = 0 -> (vmspace_phys a va s').1 = tbl p /\
       exists e, translate (phys s') (pml4_phys a) va = Some e /\ tbl e = tbl p /\
         has e PAGE_WRITABLE = has flags PAGE_WRITABLE /\ has e PAGE_NO_EXECUTE = has flags PAGE_NO_EXECUTE) /\
    (rc <> 0 -> rc = -1 /\ translate (phys s') (pml4_phys a) va = translate (phys s) (pml4_phys a) va) /\
    others_same own s s' (pml4_phys a) va.
Proof.
  intros Hok Hr Hv Hp Hfl Hd E.
  destruct (vmspace_map_ok s own a va p flags rc s' Hok Hr Hv Hp Hfl Hd E) as (w & P1 & P2 & P3 & P4 & P5 & P6 & _).
  by exists w.
Qed.

(** Vmspace_unmap returns -1 and changes nothing for a page that is not
    mapped; otherwise the page stops translating, and every other page of every
    address space keeps its translation. *)
Theorem vmspace_unmap_isolated s own a va rc s' :
  vm_ok s own -> is_space own (pml4_phys a) -> user_va va ->
  (forall e, translate (phys s) (pml4_phys a) va = Some e -> data_frame s own (tbl e)) ->
  vmspace_unmap a va s = (rc, s') ->
  exists own', vm_ok s' own' /\
    rc = match translate (phys s) (pml4_phys a) va with Some _ => 0 | None => -1 end /\
    translate (phys s') (pml4_phys a) va = None /\ others_same own s s' (pml4_phys a) va.
Proof.
  intros [HT H0] Hr Hv Hdata. unfold vmspace_unmap.
  destruct (leaf_slot (pml4_phys a) va false s) as [o s1] eqn:EL.
  destruct (leaf_slot_ok s own _ va false o s1 HT H0 Hr Hv EL) as (w & K & HS).
  pose proof (kt_trans _ _ _ _ K) as KT. rewrite <- (KT _ va Hr Hv).
  assert (Hsame : others_same own s s1 (pml4_phys a) va) by (intros ?????; by apply KT).
  assert (Hvm1 : vm_ok s1 w) by (split; apply K).
  destruct o as [slot|].
  2:{ intros [= <- <-]. exists w.
      assert (Hnone : translate (phys s1) (pml4_phys a) va = None).
      { rewrite (KT _ va Hr Hv). unfold translate. destruct (tab (phys s) (pml4_phys a) va 3) as [pt|] eqn:E; [|done].
        destruct (leaf_slot_found s own _ va false pt HT H0 Hr Hv E) as [s2 E2]. congruence. }
      rewrite Hnone. done. }
  destruct (HS slot eq_refl) as (pt & Hpt & ->). set (e0 := get (pt + 8 * ix 3 va) s1).
  assert (Htr : translate (phys s1) (pml4_phys a) va = if has e0 PAGE_PRESENT then Some e0 else None).
  { unfold translate. by rewrite Hpt. }
  rewrite Htr. destruct (has e0 PAGE_PRESENT) eqn:Hpr; cbn [negb].
  2:{ intros [= <- <-]. exists w. rewrite Htr. done. }
  rewrite (KT _ va Hr Hv) in Htr. destruct (Hdata e0 Htr) as (D1 & D2 & D3).
  destruct (put_leaf_ok s1 w _ va pt 0 (kt_tree _ _ _ _ K) (kt_own _ _ _ _ K _ _ Hr) Hv Hpt ltac:(lia)) as (P1 & P2 & P3).
  set (s2 := put _ 0 s1) in *. change (Z.land e0 PTE_PHYS_MASK) with (tbl e0).
  destruct (decref_ok s2 w (tbl e0) P1) as (Q1 & Q2 & Q3); [apply K|by apply (kt_new _ _ _ _ K)|done|].
  intros [= <- <-]. exists w. rewrite Q1. split_and!; try done.
  intros root' va' Hr' Hv' Hne. rewrite Q1, P3; [by apply KT|by apply K|done|done].
Qed.

(** ** Copy on write *)

(** Entries vmspace_cow_fault writes: without and with a copy. *)
Definition own_entry (e : Z) : Z := Z.lor (Z.land e (not64 PAGE_COW)) PAGE_WRITABLE.
Definition copied_entry (nf e : Z) : Z :=
  Z.lor (Z.lor (Z.lor (Z.land nf PTE_PHYS_MASK) (Z.land (Z.land e 0xFFF) (not64 PAGE_COW)))
               PAGE_WRITABLE) (Z.land e PAGE_NO_EXECUTE).

Lemma not64_bit k n : 0 <= k < 64 -> 0 <= n ->
  Z.testbit (not64 (Z.shiftl 1 k)) n = (n <? 64) && negb (bool_decide (k = n)).
Proof.
  intros Hk Hn. unfold not64. rewrite Z.lxor_spec, testbit_one_shift by lia.
  change (2 ^ 64 - 1) with (Z.ones 64). destruct (Z.ltb_spec n 64).
  - rewrite Z.ones_spec_low by lia. by case_bool_decide.
  - rewrite Z.ones_spec_high by lia. rewrite bool_decide_false by lia. done.
Qed.

Lemma own_entry_ok e :
  0 <= e < 2 ^ 64 ->
  0 <= own_entry e < 2 ^ 64 /\ tbl (own_entry e) = tbl e /\
  has (own_entry e) PAGE_PRESENT = has e PAGE_PRESENT /\ has (own_entry e) PAGE_WRITABLE = true /\
  has (own_entry e) PAGE_COW = false /\ has (own_entry e) PAGE_NO_EXECUTE = has e PAGE_NO_EXECUTE.
Proof.
  intros He. unfold own_entry, PAGE_COW, PAGE_PRESENT, PAGE_WRITABLE, PAGE_NO_EXECUTE.
  assert (HB : forall n, 0 <= n -> Z.testbit (Z.lor (Z.land e (not64 (Z.shiftl 1 9))) (Z.shiftl 1 1)) n =
    Z.testbit e n && ((n <? 64) && negb (bool_decide (9 = n))) || bool_decide (1 = n)).
  { intros n Hn. by rewrite Z.lor_spec, Z.land_spec, not64_bit, testbit_one_shift by lia. }
  split; [apply lor_bound; [lia|apply land_bound; done || lia|done]|].
  split; [|split_and!; rewrite !has_bit, ?HB by lia; cbn; by rewrite ?andb_true_r, ?andb_false_r, ?orb_false_r, ?orb_true_r].
  apply Z.bits_inj'. intros n Hn. rewrite !tbl_bit, HB by done.
  destruct (Z.leb_spec 12 n), (Z.ltb_spec n 52), (Z.ltb_spec n 64); try lia; cbn [andb];
    rewrite ?andb_false_r, ?andb_true_r; try done.
  rewrite !bool_decide_false by lia. by rewrite andb_true_r, orb_false_r.
Qed.

Lemma copied_entry_ok nf e :
  frame_addr nf -> 0 <= e < 2 ^ 64 ->
  0 <= copied_entry nf e < 2 ^ 64 /\ tbl (copied_entry nf e) = nf /\
  has (copied_entry nf e) PAGE_PRESENT = has e PAGE_PRESENT /\ has (copied_entry nf e) PAGE_WRITABLE = true /\
  has (copied_entry nf e) PAGE_COW = false /\ has (copied_entry nf e) PAGE_NO_EXECUTE = has e PAGE_NO_EXECUTE.
Proof.
  intros Hnf He. unfold copied_entry, PAGE_COW, PAGE_PRESENT, PAGE_WRITABLE, PAGE_NO_EXECUTE.
  set (x := Z.lor _ (Z.land e (Z.shiftl 1 63))).
  assert (HB : forall n, 0 <= n -> Z.testbit x n =
    (Z.testbit nf n && ((12 <=? n) && (n <? 52)) || Z.testbit e n && (n <? 12) && ((n <? 64) && negb (bool_decide (9 = n))))
    || bool_decide (1 = n) || Z.testbit e n && bool_decide (63 = n)).
  { intros n Hn. unfold x. rewrite !Z.lor_spec, !Z.land_spec, not64_bit, mask_bit, !testbit_one_shift by lia.
    change 0xFFF with (Z.ones 12). destruct (Z.ltb_spec n 12); [by rewrite Z.ones_spec_low by lia|].
    by rewrite Z.ones_spec_high by lia. }
  split.
  { unfold x. destruct Hnf as [Hnf _].
    apply lor_bound; [lia| |apply land_bound; done || lia]. apply lor_bound; [lia| |done].
    apply lor_bound; [lia|apply land_bound; done || lia|]. apply land_bound; [lia| |done].
    apply Z.land_nonneg. lia. }
  clearbody x. split.
  { rewrite <- (tbl_frame nf) by done. apply Z.bits_inj'. intros n Hn. rewrite !tbl_bit, HB by done.
    destruct (Z.leb_spec 12 n), (Z.ltb_spec n 52), (Z.ltb_spec n 12); try lia; cbn [andb];
      rewrite ?andb_false_r, ?andb_true_r; try done.
    rewrite (bool_decide_false (1 = n)), (bool_decide_false (63 = n)) by lia. by rewrite !andb_false_r, !orb_false_r. }
  split_and!; rewrite !has_bit, ?HB by lia; cbn;
    by rewrite ?andb_true_r, ?andb_false_r, ?orb_false_r, ?orb_true_r.
Qed.

(** A store into a frame that is no table. *)
Lemma data_store_ok s own f m :
  vm_ok s own -> own f = None -> frame_addr f ->
  (forall x, ~ (f <= x < f + 4096) -> m x = phys s x) ->
  vm_ok (with_phys m s) own /\
  (forall root va, is_space own root -> user_va va -> tab m root va 3 = tab (phys s) root va 3 /\
     translate m root va = translate (phys s) root va).
Proof.
  intros [HT H0] Hf Hfa Hm.
  assert (He : forall t pl j, own t = Some pl -> 0 <= j < 512 -> entry m t j = entry (phys s) t j).
  { intros t pl j Ht Hj. unfold entry. apply ld_ext. intros x Hx. apply Hm.
    apply (frame_apart t f); [exact (proj1 (o_frame _ _ HT _ _ Ht))|done|congruence|lia]. }
  destruct (same_walk_core s own (with_phys m s) HT) as (S1 & S2 & S3).
  - apply HT.
  - intros g pl Hg. by eapply HT.
  - intros t r k p j Ht _ Hj. unfold tab_next. cbn. by erewrite He.
  - intros t r p j Ht Hj. cbn. by eapply He.
  - split; [by split|]. intros root va Hr Hv. split; [by apply S2; lia || done|by apply S3].
Qed.

(** What a resolved fault leaves, relative to the state [s] after the walk. *)
Record resolved (s : vm) (own : Z -> option place) (root va e : Z) (s' : vm) : Prop := {
  rs_ok : vm_ok s' own;
  rs_entry : exists e', translate (phys s') root va = Some e' /\
    has e' PAGE_WRITABLE = true /\ has e' PAGE_COW = false /\ has e' PAGE_NO_EXECUTE = has e PAGE_NO_EXECUTE /\
    (forall i, 0 <= i < 4096 -> phys s' (tbl e' + i) = phys s (tbl e + i) /\
                                phys s' (tbl e + i) = phys s (tbl e + i)) /\
    (1 < page_refcount (tbl e) s -> page_used (pmm s) (tbl e' / 4096) = false);
  rs_others : others_same own s s' root va;
}.

Lemma cow_sole_ok s own root va pt e :
  vm_ok s own -> is_space own root -> user_va va -> tab (phys s) root va 3 = Some pt ->
  0 <= e < 2 ^ 64 -> has e PAGE_PRESENT = true -> data_frame s own (tbl e) -> page_refcount (tbl e) s <= 1 ->
  resolved s own root va e (put (pt + 8 * ix 3 va) (own_entry e) s).
Proof.
  intros [HT H0] Hr Hv Hpt He Hp (D1 & D2 & D3) Hrc.
  destruct (own_entry_ok e He) as (E1 & E2 & E3 & E4 & E5 & E6).
  destruct (put_leaf_ok s own root va pt (own_entry e) HT Hr Hv Hpt E1) as (P1 & P2 & P3).
  split; [by split| |exact P3]. exists (own_entry e). rewrite P2, E3, Hp, E2. split_and!; try done; [|lia].
  intros i Hi. assert (HD : phys (put (pt + 8 * ix 3 va) (own_entry e) s) (tbl e + i) = phys s (tbl e + i)).
  { apply (put_leaf_data s own root va pt _ (tbl e)); done || lia. }
  done.
Qed.

(** The copying case: [s] is the state after the walk, [nf] the new frame. *)
Lemma cow_copy_ok s own root va pt e q nf :
  vm_ok s own -> is_space own root -> user_va va -> tab (phys s) root va 3 = Some pt ->
  0 <= e < 2 ^ 64 -> has e PAGE_PRESENT = true -> data_frame s own (tbl e) ->
  pmm_wf q -> frame_addr nf -> page_used (pmm s) (nf / 4096) = false ->
  (forall n, page_used q n = bool_decide (n = nf / 4096) || page_used (pmm s) n) ->
  let s1 := page_setref nf 1 (with_phys (mcopy (phys s) nf (tbl e) 4096) (with_pmm q s)) in
  resolved s own root va e (page_decref (tbl e) (put (pt + 8 * ix 3 va) (copied_entry nf e) s1)).2.
Proof.
  intros [HT H0] Hr Hv Hpt He Hp (D1 & D2 & D3) Hq Hnf Hfree Hu. cbn zeta.
  assert (Hown : own nf = None).
  { destruct (own nf) as [pl|] eqn:E; [|done]. apply (o_frame _ _ HT) in E as [_ E]. congruence. }
  assert (Hne : nf <> tbl e) by (intros ->; congruence).
  assert (HV0 : vm_ok (with_pmm q s) own).
  { split; [|cbn; by rewrite Hu, H0, orb_true_r]. destruct HT as [T1 T2 T3 T4]. split; try done.
    intros f pl Hf. cbn. destruct (T3 f pl Hf) as [? Hf']. by rewrite Hu, Hf', orb_true_r. }
  set (m1 := mcopy (phys s) nf (tbl e) 4096).
  assert (Hm1 : forall x, ~ (nf <= x < nf + 4096) -> m1 x = phys s x).
  { intros x Hx. unfold m1, mcopy. destruct (Z.leb_spec nf x), (Z.ltb_spec x (nf + 4096)); cbn [andb]; done || lia. }
  destruct (data_store_ok (with_pmm q s) own nf m1 HV0 Hown Hnf Hm1) as [[HT1 H01] HT1'].
  set (s1 := with_phys m1 (with_pmm q s)) in *.
  assert (HX : phys (page_setref nf 1 s1) = m1 /\ pmm (page_setref nf 1 s1) = pmm s1).
  { unfold page_setref. destruct (refcount s1); [|done]. by destruct (_ <=? _). }
  destruct HX as [X1 X2]. set (s2 := page_setref nf 1 s1) in *. clearbody s2.
  assert (HT2 : tree s2 own) by (eapply (tree_ext s1); done).
  assert (Hpt2 : tab (phys s2) root va 3 = Some pt).
  { rewrite X1. by rewrite (proj1 (HT1' root va Hr Hv)). }
  destruct (copied_entry_ok nf e Hnf He) as (E1 & E2 & E3 & E4 & E5 & E6).
  destruct (put_leaf_ok s2 own root va pt (copied_entry nf e) HT2 Hr Hv Hpt2 E1) as (P1 & P2 & P3).
  set (s3 := put _ _ s2) in *.
  assert (H03 : page_used (pmm s3) 0 = true) by (change (pmm s3) with (pmm s2); by rewrite X2).
  destruct (decref_ok s3 own (tbl e) P1 H03 D1 D2) as (Q1 & Q2 & Q3).
  assert (HD : forall f x, own f = None -> frame_addr f -> f <= x < f + 4096 -> phys s3 x = m1 x).
  { intros f x Hf Hfa Hx. unfold s3. rewrite (put_leaf_data s2 own root va pt _ f x HT2 Hr Hv Hpt2 Hf Hfa Hx).
    by rewrite X1. }
  split; [by split| |].
  - exists (copied_entry nf e). rewrite Q1, P2, E3, Hp, E2. split_and!; try done. intros i Hi. split.
    + rewrite (HD nf) by (done || lia). unfold m1, mcopy.
      destruct (Z.leb_spec nf (nf + i)); [|lia]. destruct (Z.ltb_spec (nf + i) (nf + 4096)); [|lia].
      cbn [andb]. f_equal. lia.
    + rewrite (HD (tbl e)) by (done || lia). apply Hm1. apply (frame_apart (tbl e) nf); done || lia.
  - intros root' va' Hr' Hv' Hn. rewrite Q1, P3 by done. rewrite X1. by apply HT1'.
Qed.

Lemma resolved_walk s own s1 w root va e s' :
  keeps_trans s own s1 w -> is_space own root -> user_va va -> data_frame s own (tbl e) ->
  resolved s1 w root va e s' ->
  exists own' e', vm_ok s' own' /\ translate (phys s') root va = Some e' /\
    has e' PAGE_WRITABLE = true /\ has e' PAGE_COW = false /\
    has e' PAGE_NO_EXECUTE = has e PAGE_NO_EXECUTE /\
    (forall i, 0 <= i < 4096 -> phys s' (tbl e' + i) = phys s (tbl e + i) /\
                                phys s' (tbl e + i) = phys s (tbl e + i)) /\
    (1 < page_refcount (tbl e) s -> page_used (pmm s) (tbl e' / 4096) = false) /\
    others_same own s s' root va.
Proof.
  intros K Hr Hv (D1 & D2 & D3) [R1 (e' & R2 & R3 & R4 & R5 & R6 & R7) R8].
  exists w, e'. split_and!; try done.
  - intros i Hi. rewrite <- (kt_data _ _ _ _ K (tbl e)) by (done || lia). by apply R6.
  - intros Hrc. destruct (page_used (pmm s) (tbl e' / 4096)) eqn:E; [|done].
    rewrite (kt_used _ _ _ _ K _ E) in R7. apply R7.
    destruct (kt_refs _ _ _ _ K) as [E1 E2]. unfold page_refcount in *. by rewrite E1, E2.
  - intros root' va' Hr' Hv' Hne. rewrite R8; [by apply (kt_trans _ _ _ _ K)|by apply (kt_own _ _ _ _ K)|done|done].
Qed.

(** C10: a successful vmspace_cow_fault makes the faulting page writable and no
    longer COW, with the same execute permission and the same 4096 bytes; when the
    frame was shared the page gets a fresh frame and the shared one keeps its
    contents; no other page of any address space changes. *)
Theorem vmspace_cow_fault_private s own a va e s' :
  vm_ok s own -> is_space own (pml4_phys a) -> user_va va ->
  translate (phys s) (pml4_phys a) va = Some e -> data_frame s own (tbl e) ->
  vmspace_cow_fault a va s = (0, s') ->
  exists own' e', vm_ok s' own' /\ translate (phys s') (pml4_phys a) va = Some e' /\
    has e' PAGE_WRITABLE = true /\ has e' PAGE_COW = false /\
    has e' PAGE_NO_EXECUTE = has e PAGE_NO_EXECUTE /\
    (forall i, 0 <= i < 4096 -> phys s' (tbl e' + i) = phys s (tbl e + i) /\
                                phys s' (tbl e + i) = phys s (tbl e + i)) /\
    (1 < page_refcount (tbl e) s -> page_used (pmm s) (tbl e' / 4096) = false) /\
    others_same own s s' (pml4_phys a) va.
Proof.
  intros [HT H0] Hr Hv Htr (D1 & D2 & D3). unfold vmspace_cow_fault.
  destruct (leaf_slot (pml4_phys a) va false s) as [o s1] eqn:EL.
  destruct (leaf_slot_ok s own _ va false o s1 HT H0 Hr Hv EL) as (w & K & HS).
  pose proof (kt_trans _ _ _ _ K) as KT. destruct o as [slot|]; [|done].
  destruct (HS slot eq_refl) as (pt & Hpt & ->).
  assert (He : get (pt + 8 * ix 3 va) s1 = e /\ has e PAGE_PRESENT = true).
  { rewrite <- KT in Htr by done. unfold translate in Htr. rewrite Hpt in Htr. cbn [mbind option_bind] in Htr.
    change (entry (phys s1) pt (ix 3 va)) with (get (pt + 8 * ix 3 va) s1) in Htr.
    destruct (has (get _ s1) PAGE_PRESENT) eqn:E; [|done]. by simplify_eq. }
  destruct He as [He Hpr]. rewrite He, Hpr. cbn [negb orb].
  destruct (has e PAGE_COW) eqn:Hcow; [|done]. cbn [negb].
  change (Z.land e PTE_PHYS_MASK) with (tbl e).
  assert (Her : 0 <= e < 2 ^ 64) by (rewrite <- He; apply ld64_range).
  assert (Hrw : is_space w (pml4_phys a)) by (by apply (kt_own _ _ _ _ K)).
  assert (HVw : vm_ok s1 w) by (split; apply K).
  assert (HDw : data_frame s1 w (tbl e)).
  { split_and!; [by apply (kt_new _ _ _ _ K)|done|by apply (kt_used _ _ _ _ K)]. }
  intros Hres. eapply (resolved_walk s own s1 w); [done..|].
  fold (own_entry e) in Hres. destruct (Z.leb_spec (page_refcount (tbl e) s1) 1).
  { injection Hres as <-. by apply cow_sole_ok. }
  destruct (alloc_frame s1) as [nf s2] eqn:EA.
  destruct (alloc_frame_ok s1 nf s2 (o_pmm _ _ (kt_tree _ _ _ _ K)) (kt_zero _ _ _ _ K) EA)
    as (q & -> & Hq & _ & [[-> _]|(Hnf & Hfree & Hu)]); [done|].
  destruct (Z.eqb_spec nf 0); [destruct Hnf; lia|].
  rewrite (tbl_frame nf), (tbl_frame (tbl e)) in Hres by done. fold (copied_entry nf e) in Hres.
  injection Hres as <-. by apply cow_copy_ok.
Qed.

(** ** Protection *)

Lemma protect_entry_bits e flags n :
  0 <= n -> Z.testbit (protect_entry e flags) n =
    (Z.testbit e n && ((12 <=? n) && (n <? 52)) || bool_decide (0 = n) || bool_decide (2 = n)
     || Z.testbit e n && bool_decide (9 = n))
    || bool_decide (1 = n) && (has flags PAGE_WRITABLE && negb (has e PAGE_COW))
    || bool_decide (63 = n) && has flags PAGE_NO_EXECUTE.
Proof.
  intros Hn. unfold protect_entry. cbn zeta.
  destruct (has flags PAGE_WRITABLE && negb (has e PAGE_COW)), (has flags PAGE_NO_EXECUTE);
    unfold PAGE_WRITABLE, PAGE_NO_EXECUTE, PAGE_PRESENT, PAGE_USER, PAGE_COW; rewrite !Z.lor_spec, !Z.land_spec, mask_bit, !testbit_one_shift by lia;
    rewrite ?andb_true_r, ?andb_false_r, ?orb_false_r; done.
Qed.

Lemma protect_entry_ok e flags :
  0 <= e < 2 ^ 64 ->
  let e' := protect_entry e flags in
  0 <= e' < 2 ^ 64 /\ tbl e' = tbl e /\ has e' PAGE_PRESENT = true /\ has e' PAGE_COW = has e PAGE_COW /\
  has e' PAGE_WRITABLE = has flags PAGE_WRITABLE && negb (has e PAGE_COW) /\
  has e' PAGE_NO_EXECUTE = has flags PAGE_NO_EXECUTE.
Proof.
  intros He. cbn zeta. split.
  { unfold protect_entry. assert (Hb : 0 <= Z.lor (Z.lor (Z.lor (Z.land e PTE_PHYS_MASK) PAGE_PRESENT) PAGE_USER)
      (Z.land e PAGE_COW) < 2 ^ 64).
    { apply lor_bound; [lia| |apply land_bound; done || lia]. apply lor_bound; [lia| |done].
      apply lor_bound; [lia| |done]. apply land_bound; done || lia. }
    destruct (_ && _), (has flags PAGE_NO_EXECUTE); repeat (apply lor_bound; [lia| |done]); exact Hb. }
  split_and!.
  - apply Z.bits_inj'. intros n Hn. rewrite !tbl_bit, protect_entry_bits by done.
    destruct (Z.leb_spec 12 n), (Z.ltb_spec n 52); cbn [andb]; rewrite ?andb_false_r, ?andb_true_r; try done.
    rewrite !bool_decide_false by lia. by rewrite ?andb_false_r, ?orb_false_r.
  - unfold PAGE_PRESENT. rewrite has_bit, protect_entry_bits by lia. cbn. by rewrite andb_false_r.
  - unfold PAGE_COW. rewrite !has_bit, protect_entry_bits by lia. cbn.
    by rewrite andb_false_r, andb_true_r, !orb_false_r.
  - unfold PAGE_WRITABLE at 1. rewrite has_bit, protect_entry_bits by lia. cbn [Z.leb Z.ltb Z.compare andb].
    rewrite !andb_false_r. cbn. by rewrite ?andb_false_r, ?orb_false_r.
  - unfold PAGE_NO_EXECUTE at 1. rewrite has_bit, protect_entry_bits by lia. cbn.
    by rewrite !andb_false_r.
Qed.

(** What fork does with a read-only page and what mprotect does to it
    afterwards: the leaf is copied into the child as it is, not marked COW, and
    vmspace_protect with PAGE_WRITABLE then makes it writable on the same frame
    without looking at the frame's reference count. *)
Theorem vmspace_protect_ignores_sharing s own a va e s' :
  vm_ok s own -> is_space own (pml4_phys a) -> user_va va ->
  translate (phys s) (pml4_phys a) va = Some e ->
  has e PAGE_WRITABLE = false -> has e PAGE_COW = false ->
  vmspace_protect a va PAGE_WRITABLE s = (0, s') ->
  cow_entry e = e /\
  exists e', translate (phys s') (pml4_phys a) va = Some e' /\ tbl e' = tbl e /\
    has e' PAGE_WRITABLE = true /\ page_refcount (tbl e) s' = page_refcount (tbl e) s.
Proof.
  intros [HT H0] Hr Hv Htr Hw Hc. split; [unfold cow_entry; by rewrite Hw|].
  revert H. unfold vmspace_protect.
  destruct (leaf_slot (pml4_phys a) va false s) as [o s1] eqn:EL.
  destruct (leaf_slot_ok s own _ va false o s1 HT H0 Hr Hv EL) as (w & K & HS).
  pose proof (kt_trans _ _ _ _ K) as KT. destruct o as [slot|]; [|done].
  destruct (HS slot eq_refl) as (pt & Hpt & ->).
  assert (He : get (pt + 8 * ix 3 va) s1 = e).
  { rewrite <- KT in Htr by done. unfold translate in Htr. rewrite Hpt in Htr. cbn [mbind option_bind] in Htr.
    change (entry (phys s1) pt (ix 3 va)) with (get (pt + 8 * ix 3 va) s1) in Htr.
    destruct (has (get _ s1) PAGE_PRESENT) eqn:E; [|done]. by simplify_eq. }
  rewrite He. destruct (has e PAGE_PRESENT) eqn:Hp; [|done]. cbn [negb]. intros [= <-].
  assert (Her : 0 <= e < 2 ^ 64) by (rewrite <- He; apply ld64_range).
  destruct (protect_entry_ok e PAGE_WRITABLE Her) as (E1 & E2 & E3 & _ & E5 & _).
  destruct (put_leaf_ok s1 w _ va pt _ (kt_tree _ _ _ _ K) (kt_own _ _ _ _ K _ _ Hr) Hv Hpt E1) as (_ & P2 & _).
  exists (protect_entry e PAGE_WRITABLE). change (VMM_PT_INDEX va) with (ix 3 va). rewrite P2, E3, E5, Hc. split_and!; try done.
  destruct (kt_refs _ _ _ _ K) as [F1 F2]. unfold page_refcount. cbn. by rewrite F1, F2.
Qed.

(** An anonymous mmap of more than 2^64 - 4096 bytes is not refused: the
    rounded length wraps to zero, no page is mapped, and the call returns the
    arena position as if the range were mapped. *)
Theorem uvm_mmap_wraps a mmap_cur len prot flags s :
  2 ^ 64 - 4096 < len < 2 ^ 64 -> has flags MAP_ANONYMOUS = true ->
  USER_MMAP_BASE <= mmap_cur <= USER_ARENA_END ->
  uvm_mmap a mmap_cur len prot flags s = (mmap_cur, mmap_cur, s).
Proof.
  intros Hl Hf Hc. unfold uvm_mmap, USER_MMAP_BASE, USER_ARENA_END in *.
  destruct (Z.eqb_spec len 0) as [?|_]; [lia|]. rewrite Hf. cbn [negb].
  assert (E : PAGE_UP len = 0).
  { unfold PAGE_UP. assert (Hw : u64 (len + 0xFFF) = len + 0xFFF - 2 ^ 64).
    { unfold u64. symmetry. apply (Z.mod_unique_pos _ _ 1); lia. }
    rewrite Hw. set (x := len + 0xFFF - 2 ^ 64). apply Z.bits_inj'. intros n Hn. rewrite Z.land_spec, Z.bits_0.
    destruct (Z.ltb_spec n 12).
    - replace (Z.testbit (not64 0xFFF) n) with false; [by rewrite andb_false_r|]. unfold not64.
      rewrite Z.lxor_spec. change (2 ^ 64 - 1) with (Z.ones 64). change 0xFFF with (Z.ones 12).
      by rewrite !Z.ones_spec_low by lia.
    - rewrite (Z.bits_above_log2 x n); [done|lia|]. destruct (Z.eqb_spec x 0) as [->|]; [cbn; lia|].
      assert (Z.log2 x < 12) by (apply Z.log2_lt_pow2; lia). lia. }
  rewrite E, Z.add_0_r. destruct (Z.ltb_spec mmap_cur 0x0000200040000000); [lia|].
  rewrite (u64_small mmap_cur), Z.ltb_irrefl by lia. destruct (Z.ltb_spec 0x0000208000000000 mmap_cur); [lia|].
  cbn [orb]. unfold map_anon, pages_in. cbn [Z.add Z.to_nat Z.div Z.div_eucl map_anon_loop].
  change (Z.to_nat (4095 / 4096)) with O. cbn [map_anon_loop negb Z.eqb]. rewrite s64_small by lia. done.
Qed.

(** * Witnesses

    A machine with 64 pages, pages 0 to 3 in use, one empty space at 0x2000, and
    the frame 0x3000 to map. *)

Definition demo_vm : vm :=
  Vm (fun x => if x =? 0x3005 then 77 else 0) (Pmm (fun i => if i =? 0 then 15 else 0) 64 4 262144 64 (-1))
     (Some (fun _ => 1)) 64 0x1000 0 0 0 0 0 0.
Definition demo_own : Z -> option place := fun f => if f =? 0x2000 then Some (0x2000, O, 0) else None.
Definition demo_as : address_space := AddrSpace 0x2000 1.
Definition demo_va : Z := 0x400000.

Lemma demo_vm_ok : vm_ok demo_vm demo_own.
Proof.
  split; [|vm_compute; reflexivity]. split.
  - split; cbn; [change (MAX_BITMAP_SIZE * 8) with 1048576; lia|done|lia].
  - intros f r p. unfold demo_own. destruct (Z.eqb_spec f 0x2000); [|done]. intros [= <- <-]. done.
  - intros f pl. unfold demo_own. destruct (Z.eqb_spec f 0x2000) as [->|]; [|done]. intros _.
    split; [split; [lia|done]|vm_compute; reflexivity].
  - intros f r k p i c Hf Hk Hi H4. unfold demo_own in Hf. destruct (Z.eqb_spec f 0x2000) as [->|]; [|done].
    unfold tab_next. replace (entry (phys demo_vm) 0x2000 i) with 0; [done|].
    unfold entry. symmetry. rewrite (ld_ext 8 _ (fun _ => 0)); [reflexivity|].
    intros x Hx. cbn. destruct (Z.eqb_spec x 0x3005); [lia|done].
Qed.

(** The page is mapped read-only; [cow] adds the COW bit. *)
Definition demo_mapped (flags : Z) : Z * vm := vmspace_map demo_as demo_va 0x3000 flags demo_vm.

Lemma demo_pair flags : (demo_mapped flags).1 = 0 ->
  vmspace_map demo_as demo_va 0x3000 flags demo_vm = (0, (demo_mapped flags).2).
Proof. unfold demo_mapped. apply pair_eq. Qed.

Lemma demo_empty e : translate (phys demo_vm) 0x2000 demo_va = Some e -> data_frame demo_vm demo_own (tbl e).
Proof. intros He. exfalso. revert He. vm_compute. discriminate. Qed.

Lemma demo_map_rc flags : 0 <= flags < 2 ^ 64 -> (demo_mapped flags).1 = 0 ->
  page_used (pmm (demo_mapped flags).2) 3 = true ->
  exists own' e, vm_ok (demo_mapped flags).2 own' /\ is_space own' 0x2000 /\
    translate (phys (demo_mapped flags).2) 0x2000 demo_va = Some e /\
    data_frame (demo_mapped flags).2 own' (tbl e) /\
    has e PAGE_WRITABLE = has flags PAGE_WRITABLE.
Proof.
  intros Hf Hrc Hused.
  destruct (vmspace_map_ok demo_vm demo_own demo_as demo_va 0x3000 flags 0 (demo_mapped flags).2)
    as (w & H1 & H2 & H2' & H3 & _); [apply demo_vm_ok|reflexivity|vm_compute; reflexivity|lia|done| | |].
  - exact demo_empty.
  - by apply demo_pair.
  - destruct (H3 eq_refl) as (_ & e & E1 & E2 & E3 & _). exists w, e.
    split; [exact H1|]. split; [exact (H2 0x2000 (0x2000, O, 0) eq_refl)|]. split; [exact E1|].
    split; [|exact E3]. rewrite E2. change (tbl 0x3000) with 0x3000. split; [|split; [|exact Hused]].
    + apply H2'; vm_compute; reflexivity.
    + split; [lia|reflexivity].
Qed.

Lemma vmspace_map_isolated_witness :
  (vmspace_phys demo_as demo_va (demo_mapped PAGE_WRITABLE).2).1 = 0x3000.
Proof.
  destruct (vmspace_map_isolated demo_vm demo_own demo_as demo_va 0x3000 PAGE_WRITABLE 0 (demo_mapped PAGE_WRITABLE).2)
    as (w & _ & _ & _ & H & _).
  - apply demo_vm_ok.
  - reflexivity.
  - vm_compute. reflexivity.
  - lia.
  - vm_compute. split; [discriminate|reflexivity].
  - exact demo_empty.
  - apply demo_pair. vm_compute. reflexivity.
  - exact (proj1 (H eq_refl)).
Defined.

Definition ro_vm : vm := (demo_mapped 0).2.
Definition cow_vm : vm := (demo_mapped PAGE_COW).2.

Lemma ro_vm_facts : exists own' e, vm_ok ro_vm own' /\ is_space own' 0x2000 /\
  translate (phys ro_vm) 0x2000 demo_va = Some e /\ data_frame ro_vm own' (tbl e) /\
  has e PAGE_WRITABLE = has 0 PAGE_WRITABLE.
Proof. apply demo_map_rc; [lia|vm_compute; reflexivity|vm_compute; reflexivity]. Qed.

Lemma cow_vm_facts : exists own' e, vm_ok cow_vm own' /\ is_space own' 0x2000 /\
  translate (phys cow_vm) 0x2000 demo_va = Some e /\ data_frame cow_vm own' (tbl e) /\
  has e PAGE_WRITABLE = has PAGE_COW PAGE_WRITABLE.
Proof. apply demo_map_rc; [vm_compute; split; [discriminate|reflexivity]|vm_compute; reflexivity|vm_compute; reflexivity]. Qed.

Lemma vmspace_unmap_isolated_witness :
  translate (phys (vmspace_unmap demo_as demo_va ro_vm).2) 0x2000 demo_va = None.
Proof.
  destruct ro_vm_facts as (w & e & H1 & H2 & H3 & H4 & _).
  destruct (vmspace_unmap_isolated ro_vm w demo_as demo_va (vmspace_unmap demo_as demo_va ro_vm).1
              (vmspace_unmap demo_as demo_va ro_vm).2 H1 H2) as (w' & _ & _ & H & _).
  - vm_compute. reflexivity.
  - intros e' He'. cbn [pml4_phys demo_as] in He'. rewrite H3 in He'. injection He' as <-. exact H4.
  - apply surjective_pairing.
  - exact H.
Defined.

Lemma vmspace_cow_fault_private_witness :
  exists e', translate (phys (vmspace_cow_fault demo_as demo_va cow_vm).2) 0x2000 demo_va = Some e' /\
    has e' PAGE_WRITABLE = true.
Proof.
  destruct cow_vm_facts as (w & e & H1 & H2 & H3 & H4 & _).
  destruct (vmspace_cow_fault_private cow_vm w demo_as demo_va e (vmspace_cow_fault demo_as demo_va cow_vm).2 H1 H2)
    as (w' & e' & _ & H & H' & _).
  - vm_compute. reflexivity.
  - exact H3.
  - exact H4.
  - apply pair_eq. vm_compute. reflexivity.
  - exists e'. split; [exact H|exact H'].
Defined.

Lemma vmspace_protect_ignores_sharing_witness :
  exists e e', translate (phys ro_vm) 0x2000 demo_va = Some e /\
    translate (phys (vmspace_protect demo_as demo_va PAGE_WRITABLE ro_vm).2) 0x2000 demo_va = Some e' /\
    tbl e' = tbl e /\ has e' PAGE_WRITABLE = true.
Proof.
  destruct ro_vm_facts as (w & e & H1 & H2 & H3 & H4 & H5).
  destruct (vmspace_protect_ignores_sharing ro_vm w demo_as demo_va e
              (vmspace_protect demo_as demo_va PAGE_WRITABLE ro_vm).2 H1 H2) as (_ & e' & E1 & E2 & E3 & _).
  - vm_compute. reflexivity.
  - exact H3.
  - rewrite H5. vm_compute. reflexivity.
  - assert (E : match translate (phys ro_vm) 0x2000 demo_va with Some x => has x PAGE_COW | None => true end = false)
      by (vm_compute; reflexivity). rewrite H3 in E. exact E.
  - apply pair_eq. vm_compute. reflexivity.
  - exists e, e'. split; [exact H3|]. split; [exact E1|]. split; [exact E2|exact E3].
Defined.

Lemma uvm_mmap_wraps_witness :
  (uvm_mmap demo_as USER_MMAP_BASE (2 ^ 64 - 1) 3 MAP_ANONYMOUS demo_vm).1.1 = USER_MMAP_BASE.
Proof.
  rewrite uvm_mmap_wraps; [reflexivity|lia|reflexivity|unfold USER_MMAP_BASE, USER_ARENA_END; lia].
Defined.
