(* ===== verification/VmFork.v ===== *)
(** Copy-on-write fork of an address space: [vmspace_create] makes an empty space,
    [vmspace_fork] a twin of the parent's with every writable page read-only and
    COW in both, and a failing fork gives back every table it took. *)

From stdpp Require Import base numbers option list gmap.
From Stdlib Require Import ZArith Lia.
From S2P Require Import Prelude Pmm Vm Vmspace.

(** * Entries *)

(** What fork makes of an entry of a page table. *)
Definition cow (e : Z) : Z := if has e PAGE_PRESENT then cow_entry e else e.
Definition cowish (e e' : Z) : Prop := e' = e \/ e' = cow e.

Lemma cow_bits e n : 0 <= n -> 0 <= e < 2 ^ 64 -> Z.testbit (cow_entry e) n =
  if Z.testbit e 1 then Z.testbit e n && negb (bool_decide (1 = n)) || bool_decide (9 = n) else Z.testbit e n.
Proof.
  intros Hn He. unfold cow_entry, PAGE_WRITABLE, PAGE_COW. rewrite has_bit by lia. destruct (Z.testbit e 1); [|done].
  rewrite Z.lor_spec, Z.land_spec, not64_bit, testbit_one_shift by lia.
  destruct (Z.ltb_spec n 64); [done|]. assert (E : Z.testbit e n = false) by (destruct (decide (e = 0)) as [->|]; [apply Z.bits_0|];
    apply Z.bits_above_log2; [lia|]; assert (Z.log2 e < 64) by (apply Z.log2_lt_pow2; lia); lia).
  by rewrite E.
Qed.

Lemma cow_entry_ok e : 0 <= e < 2 ^ 64 ->
  0 <= cow_entry e < 2 ^ 64 /\ tbl (cow_entry e) = tbl e /\ has (cow_entry e) PAGE_PRESENT = has e PAGE_PRESENT /\
  has (cow_entry e) PAGE_WRITABLE = false /\ has (cow_entry e) PAGE_NO_EXECUTE = has e PAGE_NO_EXECUTE /\
  (has e PAGE_WRITABLE = true -> has (cow_entry e) PAGE_COW = true).
Proof.
  intros He. unfold PAGE_PRESENT, PAGE_WRITABLE, PAGE_NO_EXECUTE, PAGE_COW. rewrite !has_bit, !cow_bits by lia.
  split; [unfold cow_entry; destruct (has _ _); [|done]; apply lor_bound; [lia| |done]; apply land_bound; done || lia|]. split_and!.
  - unfold cow_entry. destruct (has _ _); [|done]. apply Z.bits_inj'. intros n Hn.
    unfold PAGE_WRITABLE, PAGE_COW. rewrite tbl_lor_flag, !tbl_bit, Z.land_spec, not64_bit by lia.
    destruct (Z.leb_spec 12 n), (Z.ltb_spec n 52), (Z.ltb_spec n 64); try lia; cbn [andb]; rewrite ?andb_false_r, ?andb_true_r; try done.
    rewrite bool_decide_false by lia. by rewrite andb_true_r.
  - destruct (Z.testbit e 1); [|done]. by rewrite andb_true_r, orb_false_r.
  - destruct (Z.testbit e 1) eqn:E; [|done]. by rewrite andb_false_r.
  - destruct (Z.testbit e 1); [|done]. by rewrite andb_true_r, orb_false_r.
  - intros ->. by rewrite orb_true_r.
Qed.

Lemma cow_ok e : 0 <= e < 2 ^ 64 -> 0 <= cow e < 2 ^ 64 /\ tbl (cow e) = tbl e /\ has (cow e) PAGE_PRESENT = has e PAGE_PRESENT.
Proof. intros He. unfold cow. destruct (has e PAGE_PRESENT) eqn:E; [|done]. destruct (cow_entry_ok e He) as (H1 & H2 & H3 & _). by rewrite H3. Qed.

Lemma cow_idem e : 0 <= e < 2 ^ 64 -> cow (cow e) = cow e.
Proof.
  intros He. unfold cow at 1. destruct (cow_ok e He) as (_ & _ & ->). destruct (has e PAGE_PRESENT) eqn:E; [|done].
  unfold cow. rewrite E. destruct (cow_entry_ok e He) as (_ & _ & _ & W & _). unfold cow_entry at 1. by rewrite W.
Qed.

Lemma cowish_trans e e' e'' : 0 <= e < 2 ^ 64 -> cowish e e' -> cowish e' e'' -> cowish e e''.
Proof. intros He [->| ->] [->| ->]; [by left|by right|by right|right; by apply cow_idem]. Qed.

Lemma cowish_cow e e' : 0 <= e < 2 ^ 64 -> cowish e e' -> cow e' = cow e.
Proof. intros He [->| ->]; [done|by apply cow_idem]. Qed.

Lemma cowish_ok e e' : 0 <= e < 2 ^ 64 -> cowish e e' -> tbl e' = tbl e /\ has e' PAGE_PRESENT = has e PAGE_PRESENT.
Proof. intros He [->| ->]; [done|]. by destruct (cow_ok e He) as (_ & -> & ->). Qed.

(** The entry of a copied table. *)
Lemma link_entry_ok e f : frame_addr f -> has e PAGE_PRESENT = true -> has e PAGE_HUGE = false ->
  let e' := Z.lor (Z.land e 0xFFF) f in
  0 <= e' < 2 ^ 64 /\ tbl e' = f /\ has e' PAGE_PRESENT = true /\ has e' PAGE_HUGE = false.
Proof.
  intros Hf Hp Hh. cbn zeta. unfold PAGE_PRESENT, PAGE_HUGE in *. rewrite has_bit in Hp, Hh by lia. rewrite !has_bit by lia.
  assert (HB : forall n, 0 <= n -> Z.testbit (Z.lor (Z.land e 0xFFF) f) n = Z.testbit e n && (n <? 12) || Z.testbit f n).
  { intros n Hn. rewrite Z.lor_spec, Z.land_spec. change 0xFFF with (Z.ones 12).
    destruct (Z.ltb_spec n 12); [by rewrite Z.ones_spec_low by lia|by rewrite Z.ones_spec_high by lia]. }
  assert (0 <= Z.land e 0xFFF < 2 ^ 12) by (change 0xFFF with (Z.ones 12); rewrite Z.land_ones by lia; apply Z.mod_pos_bound; lia).
  split; [destruct Hf as [Hf _]; apply lor_bound; lia|]. split_and!.
  - rewrite <- (tbl_frame f Hf) at 2. apply Z.bits_inj'. intros n Hn. rewrite !tbl_bit, HB by done.
    destruct (Z.leb_spec 12 n), (Z.ltb_spec n 12); try lia; cbn [andb]; by rewrite ?andb_false_r, ?orb_false_l.
  - rewrite HB, Hp by lia. done.
  - rewrite HB, Hh by lia. apply frame_bit_low; [done|lia].
Qed.

(** * Well-formed spaces *)

(** Every present leaf is a data frame in use; no user table has a huge page. *)
Record sound (s : vm) (own : Z -> option place) : Prop := {
  sd_ok : vm_ok s own;
  sd_leaf : forall t r p j, own t = Some (r, 3%nat, p) -> 0 <= j < 512 -> has (entry (phys s) t j) PAGE_PRESENT = true ->
    data_frame s own (tbl (entry (phys s) t j));
  sd_huge : forall t r k p j, own t = Some (r, k, p) -> (k < 3)%nat -> 0 <= j < 512 -> (k = O -> j < 256) ->
    has (entry (phys s) t j) PAGE_PRESENT = true -> has (entry (phys s) t j) PAGE_HUGE = false
}.

(** A step of a fork of [r] into the new space [c]: tables are only added, to [c];
    entries above the page tables and all other spaces stay; leaves of [r] stay or
    become copy-on-write; no data changes. *)
Record alters (r : Z) (s : vm) (own : Z -> option place) (s' : vm) : Prop := {
  al_upper : forall t r' k p j, own t = Some (r', k, p) -> (k < 3)%nat -> 0 <= j < 512 -> entry (phys s') t j = entry (phys s) t j;
  al_other : forall t r' p j, own t = Some (r', 3%nat, p) -> r' <> r -> 0 <= j < 512 -> entry (phys s') t j = entry (phys s) t j;
  al_leaf : forall t p j, own t = Some (r, 3%nat, p) -> 0 <= j < 512 -> cowish (entry (phys s) t j) (entry (phys s') t j);
  al_data : forall f x, data_frame s own f -> f <= x < f + 4096 -> phys s' x = phys s x
}.

Record grows (r c : Z) (s : vm) (own : Z -> option place) (s' : vm) (own' : Z -> option place) : Prop := {
  gr_sound : sound s' own';
  gr_own : forall f pl, own f = Some pl -> own' f = Some pl;
  gr_new : forall f r' k p, own f = None -> own' f = Some (r', k, p) -> r' = c /\ page_used (pmm s) (f / 4096) = false;
  gr_used : forall n, page_used (pmm s) n = true -> page_used (pmm s') n = true;
  gr_alters : alters r s own s'
}.

Lemma entry_range m t j : 0 <= entry m t j < 2 ^ 64.
Proof. apply ld64_range. Qed.
#[local] Hint Resolve entry_range : core.

Lemma alters_refl r s own : alters r s own s.
Proof. split; try done. intros. by left. Qed.

Lemma grows_refl r c s own : sound s own -> grows r c s own s own.
Proof. intros H. split; try done; [intros; congruence|apply alters_refl]. Qed.

(** A data frame stays one. *)
Lemma grows_data r c s own s' own' f : grows r c s own s' own' -> data_frame s own f -> data_frame s' own' f.
Proof.
  intros G (D1 & D2 & D3). split_and!; [|done|by apply (gr_used _ _ _ _ _ _ G)].
  destruct (own' f) as [[[r' k] p]|] eqn:E; [|done]. destruct (gr_new _ _ _ _ _ _ G f r' k p D1 E). congruence.
Qed.

Lemma alters_trans r c s1 o1 s2 o2 s3 : grows r c s1 o1 s2 o2 -> alters r s2 o2 s3 -> alters r s1 o1 s3.
Proof.
  intros G B. pose proof (gr_alters _ _ _ _ _ _ G) as A. pose proof (gr_own _ _ _ _ _ _ G) as O. split.
  - intros t r' k p j Ht Hk Hj. rewrite (al_upper _ _ _ _ B t r' k p j) by auto. by eapply (al_upper _ _ _ _ A).
  - intros t r' p j Ht Hr Hj. rewrite (al_other _ _ _ _ B t r' p j) by auto. by eapply (al_other _ _ _ _ A).
  - intros t p j Ht Hj. eapply cowish_trans; [done|by eapply (al_leaf _ _ _ _ A)|eapply (al_leaf _ _ _ _ B); eauto].
  - intros f x Hf Hx. rewrite (al_data _ _ _ _ B f) by (done || by eapply grows_data). by eapply (al_data _ _ _ _ A).
Qed.

Lemma grows_trans r c s1 o1 s2 o2 s3 o3 : grows r c s1 o1 s2 o2 -> grows r c s2 o2 s3 o3 -> grows r c s1 o1 s3 o3.
Proof.
  intros G1 G2. split; [apply G2| | | |by eapply alters_trans, G2].
  - intros f pl Hf. by apply G2, G1.
  - intros f r' k p H1 H3. destruct (o2 f) as [[[r2 k2] p2]|] eqn:E2.
    + pose proof (gr_own _ _ _ _ _ _ G2 _ _ E2) as E. rewrite H3 in E. injection E as -> -> ->. by eapply (gr_new _ _ _ _ _ _ G1).
    + destruct (gr_new _ _ _ _ _ _ G2 f r' k p E2 H3) as [-> Hu]. split; [done|].
      destruct (page_used (pmm s1) (f / 4096)) eqn:E; [|done]. by rewrite (gr_used _ _ _ _ _ _ G1) in Hu.
  - intros n Hn. by apply G2, G1.
Qed.

(** * Stores to tables *)

Lemma set_entry_read t i e s t' j : frame_addr t -> frame_addr t' -> 0 <= i < 512 -> 0 <= j < 512 -> 0 <= e < 2 ^ 64 ->
  entry (phys (set_entry t i e s)) t' j = if decide ((t', j) = (t, i)) then e else entry (phys s) t' j.
Proof.
  intros H1 H2 Hi Hj He. cbn. case_decide as E; [injection E as -> ->; by apply set_entry_same|].
  eapply entry_frame; [intros x; apply set_entry_other|done..].
Qed.

Lemma set_entry_data t i e s f x : frame_addr t -> frame_addr f -> f <> t -> 0 <= i < 512 -> f <= x < f + 4096 ->
  phys (set_entry t i e s) x = phys s x.
Proof. intros H1 H2 Hne Hi Hx. cbn. apply set_entry_other. intros Hx'. eapply (frame_apart f t); [done|done|done|exact Hx|lia]. Qed.

(** The entry [e] may stand in slot [i] of a table at place [(r, k, p)]. *)
Definition may_hold (s : vm) (own : Z -> option place) (r : Z) (k : nat) (p i e : Z) : Prop :=
  0 <= e < 2 ^ 64 /\ (has e PAGE_PRESENT = true ->
    (k = 3%nat -> data_frame s own (tbl e)) /\
    ((k < 3)%nat -> (k = O -> i < 256) -> has e PAGE_HUGE = false /\ own (tbl e) = Some (r, S k, p * 512 + i))).

Lemma sound_set s own t r k p i e : sound s own -> own t = Some (r, k, p) -> 0 <= i < 512 -> may_hold s own r k p i e ->
  sound (set_entry t i e s) own.
Proof.
  intros [[HT H0] L U] Ht Hi [He Hm]. pose proof (fun f pl H => proj1 (o_frame _ _ HT f pl H)) as Fr.
  assert (R : forall t' pl j, own t' = Some pl -> 0 <= j < 512 ->
    entry (phys (set_entry t i e s)) t' j = if decide ((t', j) = (t, i)) then e else entry (phys s) t' j).
  { intros t' pl j Ht' Hj. apply set_entry_read; eauto. }
  split; [split; [|done]| |].
  - destruct HT as [T1 T2 T3 T4]. split; try done. intros f r' k' p' j c Hf Hk Hj H4. unfold tab_next. rewrite (R _ _ _ Hf Hj).
    case_decide as E; [|by apply T4]. injection E as -> ->. rewrite Ht in Hf. injection Hf as <- <- <-.
    destruct (has e PAGE_PRESENT) eqn:Ep; [|done]. destruct (proj2 (Hm eq_refl)) as [-> Hd]; [done|done|]. by intros [= <-].
  - intros t' r' p' j Ht' Hj. rewrite (R _ _ _ Ht' Hj). case_decide as E; [|by apply (L t' r' p')].
    injection E as -> ->. intros Hp. rewrite Ht in Ht'. injection Ht' as <- -> <-. by apply (Hm Hp).
  - intros t' r' k' p' j Ht' Hk Hj H4. rewrite (R _ _ _ Ht' Hj). case_decide as E; [|by eapply U].
    injection E as -> ->. intros Hp. rewrite Ht in Ht'. injection Ht' as <- <- <-. by apply (Hm Hp).
Qed.

(** A store to a new table, or one that makes a leaf of [r] copy-on-write. *)
Lemma grows_set r c s0 own0 s own t r' k p i e : sound s0 own0 -> grows r c s0 own0 s own -> own t = Some (r', k, p) -> 0 <= i < 512 ->
  may_hold s own r' k p i e -> (own0 t <> None -> k = 3%nat /\ r' = r /\ cowish (entry (phys s0) t i) e) ->
  grows r c s0 own0 (set_entry t i e s) own.
Proof.
  intros S0 G Ht Hi Hm H0. pose proof (gr_alters _ _ _ _ _ _ G) as A. pose proof (gr_own _ _ _ _ _ _ G) as O.
  pose proof (fun f pl H => proj1 (o_frame _ _ (proj1 (sd_ok _ _ (gr_sound _ _ _ _ _ _ G))) f pl H)) as Fr.
  assert (R : forall t' pl j, own0 t' = Some pl -> 0 <= j < 512 ->
    entry (phys (set_entry t i e s)) t' j = if decide ((t', j) = (t, i)) then e else entry (phys s) t' j).
  { intros t' pl j Ht' Hj. apply set_entry_read; eauto. apply Hm. }
  split; [|apply G|apply G|apply G|].
  - eapply sound_set; [apply G|exact Ht|done|done].
  - split.
    + intros t' r2 k' p' j Ht' Hk Hj. rewrite (R _ _ _ Ht' Hj). case_decide as E; [|by eapply (al_upper _ _ _ _ A)].
      injection E as -> ->. destruct H0 as (-> & _); [congruence|]. apply O in Ht'. rewrite Ht in Ht'. simplify_eq. lia.
    + intros t' r2 p' j Ht' Hr Hj. rewrite (R _ _ _ Ht' Hj). case_decide as E; [|by eapply (al_other _ _ _ _ A)].
      injection E as -> ->. destruct H0 as (_ & -> & _); [congruence|]. apply O in Ht'. rewrite Ht in Ht'. by simplify_eq.
    + intros t' p' j Ht' Hj. rewrite (R _ _ _ Ht' Hj). case_decide as E; [|by eapply (al_leaf _ _ _ _ A)].
      injection E as -> ->. by destruct H0 as (_ & _ & ?); [congruence|].
    + intros f x Hf Hx. rewrite (set_entry_data t i e s f x); [by eapply (al_data _ _ _ _ A)|by eapply Fr|apply Hf| |done|done].
      intros ->. apply (grows_data _ _ _ _ _ _ _ G) in Hf as [Hf _]. congruence.
Qed.

(** A step that changes neither memory nor the allocator. *)
Lemma grows_same r c s0 own0 s own s' : grows r c s0 own0 s own -> phys s' = phys s -> pmm s' = pmm s -> grows r c s0 own0 s' own.
Proof.
  intros [[[HT H0] L U] O N Us [A1 A2 A3 A4]] E1 E2. split; [split; [split; [by eapply tree_ext|by rewrite E2]| |]|done|done| |].
  - intros t r' p j Ht Hj. rewrite E1. intros Hp. destruct (L _ _ _ _ Ht Hj Hp) as (D1 & D2 & D3). split_and!; [done|done|by rewrite E2].
  - intros. rewrite E1 in *. by eapply U.
  - intros. rewrite E2. by apply Us.
  - by split; intros; rewrite E1; eauto.
Qed.

Lemma incref_same p s : phys (page_incref p s) = phys s /\ pmm (page_incref p s) = pmm s.
Proof. unfold page_incref. by repeat case_match. Qed.

(** A frame the allocator gave, cleared, is a table of [c]. *)
Lemma grows_table r c s own q f k p : sound s own -> pmm_wf q -> frame_addr f -> page_used (pmm s) (f / 4096) = false ->
  (forall n, page_used q n = bool_decide (n = f / 4096) || page_used (pmm s) n) -> (k = O -> f = c /\ p = 0) ->
  let s' := with_phys (mfill (phys s) f 4096 0) (with_pmm q s) in
  grows r c s own s' (own_add own f (c, k, p)) /\ own f = None /\ forall j, 0 <= j < 512 -> entry (phys s') f j = 0.
Proof.
  intros [[HT H0] L U] Hq Hf Hfree Hu Hk. cbn zeta. pose proof (fun f pl H => proj1 (o_frame _ _ HT f pl H)) as Fr.
  assert (Hn : own f = None). { destruct (own f) as [pl|] eqn:E; [|done]. apply (o_frame _ _ HT) in E as [_ E]. congruence. }
  assert (Z0 : forall j, 0 <= j < 512 -> entry (mfill (phys s) f 4096 0) f j = 0) by (intros; by apply fill_entry).
  assert (R : forall t pl j, own t = Some pl -> 0 <= j < 512 -> entry (mfill (phys s) f 4096 0) t j = entry (phys s) t j).
  { intros t pl j Ht Hj. apply fill_other; try done; [by eapply Fr|]. congruence. }
  assert (Oa : forall g pl, own g = Some pl -> own_add own f (c, k, p) g = Some pl) by (intros g pl Hg; unfold own_add; case_decide; congruence).
  assert (Da : forall g, data_frame s own g -> data_frame (with_phys (mfill (phys s) f 4096 0) (with_pmm q s)) (own_add own f (c, k, p)) g).
  { intros g (D1 & D2 & D3). split_and!; [|done|cbn; by rewrite Hu, D3, orb_true_r]. unfold own_add. case_decide; congruence. }
  split; [|done]. split; [split; [split|..]|done|..].
  - split; cbn; [done| | |].
    + intros g r' p'. unfold own_add. case_decide; [|by apply (o_root _ _ HT)]. intros [= <- -> <-]. destruct (Hk eq_refl). by subst.
    + intros g pl. unfold own_add. case_decide as E; [subst; intros _; split; [done|]; rewrite Hu; by rewrite bool_decide_true|].
      intros Hg. destruct (o_frame _ _ HT _ _ Hg) as [? E2]. split; [done|]. by rewrite Hu, E2, orb_true_r.
    + intros g r' k' p' j d. unfold own_add at 1. case_decide as E.
      * subst. intros _ _ Hj _. unfold tab_next. by rewrite Z0.
      * intros Hg Hk' Hj H4. unfold tab_next. rewrite (R _ _ _ Hg Hj). intros Hd. eapply Oa, (o_child _ _ HT); eauto.
  - cbn. by rewrite Hu, H0, orb_true_r.
  - intros t r' p' j. cbn [phys with_phys with_pmm]. unfold own_add at 1. case_decide as E; [subst; intros _ Hj; by rewrite Z0|].
    intros Ht Hj. rewrite (R _ _ _ Ht Hj). intros Hp. by eapply Da, L.
  - intros t r' k' p' j. cbn [phys with_phys with_pmm]. unfold own_add at 1. case_decide as E; [subst; intros _ _ Hj _; by rewrite Z0|].
    intros Ht. intros Hk' Hj H4. rewrite (R _ _ _ Ht Hj). by eapply U.
  - intros g r' k' p' Hg. unfold own_add. case_decide; [|congruence]. intros [= <- <- <-]. by subst.
  - intros n Hn'. cbn. by rewrite Hu, Hn', orb_true_r.
  - split; cbn; intros; [by eapply R|by eapply R|left; by eapply R|]. match goal with H : data_frame _ _ _ |- _ => destruct H as (D1 & D2 & D3) end.
    apply mfill_out. assert (f0 <> f) by congruence. pose proof (frame_apart f0 f x D2 Hf ltac:(done) ltac:(done)). lia.
Qed.

(** * Copies of subtrees *)

(** Slot [j] of the table [f], [level] levels above the page tables, in memory [m]
    is the copy of slot [j] of [src] as it was in [m0]; the tables of the copy are
    not among [own0]. *)
Fixpoint twin_slot (own0 : Z -> option place) (m0 m : mem) (level : nat) (f src j : Z) : Prop :=
  match level with
  | O => entry m src j = cow (entry m0 src j) /\
         entry m f j = if has (entry m0 src j) PAGE_PRESENT then cow (entry m0 src j) else 0
  | S n => match tab_next m0 src j with
           | Some d => exists d', tab_next m f j = Some d' /\ own0 d' = None /\ forall i, 0 <= i < 512 -> twin_slot own0 m0 m n d' d i
           | None => tab_next m f j = None
           end
  end.

(** The slots of a table that belong to the user half. *)
Definition lim (k : nat) : Z := match k with O => 256 | S _ => 512 end.

Lemma lim_512 k j : j < lim k -> j < 512.
Proof. destruct k; cbn; lia. Qed.

Lemma child_of s own t r k p j d : tree s own -> own t = Some (r, k, p) -> (k < 3)%nat -> 0 <= j < lim k ->
  tab_next (phys s) t j = Some d -> own d = Some (r, S k, p * 512 + j).
Proof. intros HT Ht Hk Hj Hd. eapply (o_child _ _ HT); [exact Ht|lia|destruct k; cbn in Hj; lia|destruct k; cbn in Hj; lia|exact Hd]. Qed.

(** Later steps keep a copy. *)
Lemma twin_ext own0 s0 r c s own m' : sound s0 own0 -> tree s own -> grows r c s0 own0 s own ->
  (forall t p j, own t = Some (r, 3%nat, p) -> 0 <= j < 512 -> cowish (entry (phys s) t j) (entry m' t j)) ->
  forall level k p f src j, (level + k = 3)%nat -> own f = Some (c, k, p) -> own0 src = Some (r, k, p) -> 0 <= j < lim k ->
  (forall t k' q i, own t = Some (c, k', q) -> (k < k' <= 3)%nat -> 0 <= i < 512 -> entry m' t i = entry (phys s) t i) ->
  entry m' f j = entry (phys s) f j ->
  twin_slot own0 (phys s0) (phys s) level f src j -> twin_slot own0 (phys s0) m' level f src j.
Proof.
  intros S0 HT G Hr level. induction level as [|n IH]; intros k p f src j Hlk Hf Hs Hj Hc He; cbn [twin_slot].
  - intros [T1 T2]. assert (k = 3%nat) as -> by lia. split; [|by rewrite He].
    pose proof (Hr src p j (gr_own _ _ _ _ _ _ G _ _ Hs) Hj) as [E|E]; rewrite E, T1; [done|]. by apply cow_idem.
  - assert (En : tab_next m' f j = tab_next (phys s) f j) by (unfold tab_next; by rewrite He).
    rewrite En. destruct (tab_next (phys s0) src j) as [d|] eqn:Ed; [|done].
    intros (d' & E1 & E2 & E3). exists d'. split_and!; [done|done|]. intros i Hi.
    assert (Hd' : own d' = Some (c, S k, p * 512 + j)) by (eapply (child_of s); [done|exact Hf|lia|done|done]).
    eapply (IH (S k) (p * 512 + j)); [lia|exact Hd'| |done| | |by apply E3].
    + eapply (child_of s0); [apply (sd_ok _ _ S0)|exact Hs|lia|done|done].
    + intros t k' q i' Ht Hk'. apply (Hc t k' q); [done|lia].
    + apply (Hc d' (S k) (p * 512 + j)); [done|lia|done].
Qed.

(** A copy made from a later state is a copy of the first one. *)
Lemma twin_base own0 s0 r c s own m : sound s0 own0 -> grows r c s0 own0 s own ->
  forall level k p f src j, (level + k = 3)%nat -> own0 src = Some (r, k, p) -> 0 <= j < lim k ->
  twin_slot own (phys s) m level f src j -> twin_slot own0 (phys s0) m level f src j.
Proof.
  intros S0 G level. pose proof (gr_alters _ _ _ _ _ _ G) as A. induction level as [|n IH]; intros k p f src j Hlk Hs Hj; cbn [twin_slot].
  - assert (k = 3%nat) as -> by lia. pose proof (al_leaf _ _ _ _ A src p j Hs Hj) as C.
    rewrite (cowish_cow _ _ (entry_range _ _ _) C). by destruct (cowish_ok _ _ (entry_range _ _ _) C) as [_ ->].
  - assert (En : tab_next (phys s) src j = tab_next (phys s0) src j) by (unfold tab_next; erewrite (al_upper _ _ _ _ A); [done|exact Hs|lia|pose proof (lim_512 k j); lia]).
    rewrite En. destruct (tab_next (phys s0) src j) as [d|] eqn:Ed; [|done].
    intros (d' & E1 & E2 & E3). exists d'. split_and!; [done| |].
    + destruct (own0 d') eqn:E; [|done]. apply (gr_own _ _ _ _ _ _ G) in E. congruence.
    + intros i Hi. eapply (IH (S k) (p * 512 + j)); [lia| |done|by apply E3].
      eapply (child_of s0); [apply (sd_ok _ _ S0)|exact Hs|lia|done|done].
Qed.

(** * Giving tables back *)

(** What free_level reaches from slot [j] of [f] is none of the tables [own0]. *)
Fixpoint freeable (own0 : Z -> option place) (m : mem) (level : nat) (f j : Z) : Prop :=
  has (entry m f j) PAGE_PRESENT = true -> own0 (tbl (entry m f j)) = None /\ frame_addr (tbl (entry m f j)) /\
    match level with O => True | S n => forall i, 0 <= i < 512 -> freeable own0 m n (tbl (entry m f j)) i end.

(** Memory is the same and the tables [own0] are still in use. *)
Definition kept (own0 : Z -> option place) (s s' : vm) : Prop :=
  phys s' = phys s /\ pmm_wf (pmm s') /\ page_used (pmm s') 0 = true /\
  forall g pl, own0 g = Some pl -> page_used (pmm s) (g / 4096) = true -> page_used (pmm s') (g / 4096) = true.

Section Free.
Context (own0 : Z -> option place) (Hfr : forall g pl, own0 g = Some pl -> frame_addr g).

Lemma kept_refl s : pmm_wf (pmm s) -> page_used (pmm s) 0 = true -> kept own0 s s.
Proof. intros H1 H2. split_and!; [done|done|done|]. intros g pl _ H. exact H. Qed.

Lemma kept_trans s1 s2 s3 : kept own0 s1 s2 -> kept own0 s2 s3 -> kept own0 s1 s3.
Proof. intros (A1 & A2 & A3 & A4) (B1 & B2 & B3 & B4). split_and!; [congruence|done|done|eauto]. Qed.

Lemma free_frame_kept f s : pmm_wf (pmm s) -> page_used (pmm s) 0 = true -> own0 f = None -> frame_addr f -> kept own0 s (free_frame f s).
Proof.
  intros Hw H0 Hn Hf. unfold free_frame, pmm_free_page, kept. cbn [phys with_pmm pmm].
  destruct (bad_page_addr f); [done|]. destruct (_ && _) eqn:Eb; [|done].
  apply andb_prop in Eb as [Eb _]. apply Z.ltb_lt in Eb. unfold addr_to_page, PAGE_SIZE in *. pose proof Hf as [Hf1 Hf2].
  assert (0 < f / 4096) by (pose proof (Z.div_mod f 4096); lia). split_and!; [done| | |].
  - apply (wf_frame (pmm s)); [done|apply release_frame|]. rewrite release_used. apply u32_range.
  - rewrite page_used_release, H0, bool_decide_false by lia. done.
  - intros g pl Hg Hu. destruct (Hfr g pl Hg) as [Hg1 Hg2]. rewrite page_used_release, Hu by lia. case_bool_decide as E; [|done].
    assert (g = f) by (pose proof (Z.div_mod g 4096); pose proof (Z.div_mod f 4096); lia). congruence.
Qed.

Lemma decref_kept f s : pmm_wf (pmm s) -> page_used (pmm s) 0 = true -> own0 f = None -> frame_addr f -> kept own0 s (page_decref f s).2.
Proof.
  intros Hw H0 Hn Hf. unfold page_decref. rewrite (frame_mask f Hf). destruct (refcount s) as [r|]; [|by apply kept_refl].
  destruct (_ <=? _); [by apply kept_refl|].
  destruct (0 <? r (pfn f)); (destruct (_ =? 0); cbn [snd]; [|exact (kept_refl s Hw H0)]).
  - exact (free_frame_kept f (with_refs _ _ s) Hw H0 Hn Hf).
  - by apply free_frame_kept.
Qed.

Lemma free_level_kept level : forall f s, pmm_wf (pmm s) -> page_used (pmm s) 0 = true -> own0 f = None -> frame_addr f ->
  (forall j, 0 <= j < 512 -> freeable own0 (phys s) level f j) -> kept own0 s (free_level level f s).
Proof.
  induction level as [|n IH]; intros f s Hw H0 Hn Hf Hfree; cbn [free_level]; change (Z.land f PTE_PHYS_MASK) with (tbl f); rewrite (tbl_frame f Hf);
    match goal with |- kept _ _ (free_frame f ?x) => assert (K : kept own0 s x) end;
    try (eapply kept_trans; [exact K|]; destruct K as (_ & K1 & K2 & _); by apply free_frame_kept);
    apply (for_range_inv (kept own0 s)); try (by apply kept_refl);
    intros j t Hj K; pose proof K as (K0 & K1 & K2 & _); specialize (Hfree j Hj); rewrite <- K0 in Hfree; cbn [freeable] in Hfree;
    change (Z.land (entry (phys t) f j) PTE_PHYS_MASK) with (tbl (entry (phys t) f j));
    destruct (has (entry (phys t) f j) PAGE_PRESENT); cbn [negb]; try done; destruct (Hfree eq_refl) as (F1 & F2 & F3);
    (eapply kept_trans; [exact K|]); [by apply decref_kept|by apply IH].
Qed.
End Free.

(** The tables of a copy can be given back. *)
Lemma twin_freeable own0 s0 r c s own m' : sound s0 own0 -> grows r c s0 own0 s own ->
  (forall t k q i, own t = Some (c, k, q) -> (k <= 3)%nat -> 0 <= i < 512 -> entry m' t i = entry (phys s) t i) ->
  forall level k p f src j, (level + k = 3)%nat -> own f = Some (c, k, p) -> 0 <= j < lim k ->
  twin_slot own0 (phys s0) (phys s) level f src j \/ entry (phys s) f j = 0 -> freeable own0 m' level f j.
Proof.
  intros S0 G Hm level. pose proof (gr_sound _ _ _ _ _ _ G) as S1. pose proof (proj1 (sd_ok _ _ S1)) as HT.
  assert (None0 : forall x, own x = None -> own0 x = None).
  { intros x Hx. destruct (own0 x) eqn:E; [|done]. apply (gr_own _ _ _ _ _ _ G) in E. congruence. }
  induction level as [|n IH]; intros k p f src j Hlk Hf Hj' Ht; (assert (Hj : 0 <= j < 512) by (pose proof (lim_512 k j); lia)); cbn [freeable]; rewrite (Hm f k p j Hf ltac:(lia) Hj); intros Hp.
  - assert (k = 3%nat) as -> by lia. destruct (sd_leaf _ _ S1 _ _ _ _ Hf Hj Hp) as (D1 & D2 & _). auto.
  - assert (Hh : has (entry (phys s) f j) PAGE_HUGE = false) by (eapply (sd_huge _ _ S1); [exact Hf|lia|done|intros ->; cbn in Hj'; lia|done]).
    assert (En : tab_next (phys s) f j = Some (tbl (entry (phys s) f j))) by (unfold tab_next; by rewrite Hp, Hh).
    assert (Hd : own (tbl (entry (phys s) f j)) = Some (c, S k, p * 512 + j)) by (eapply (child_of s); [done|exact Hf|lia|done|done]).
    destruct Ht as [Ht|Ht]; [|rewrite Ht in Hp; done]. cbn [twin_slot] in Ht. rewrite En in Ht.
    destruct (tab_next (phys s0) src j) as [d|]; [|done]. destruct Ht as (d' & [= <-] & E2 & E3).
    split_and!; [done|by apply (o_frame _ _ HT) in Hd as []|]. intros i Hi. eapply (IH (S k) (p * 512 + j)); [lia|exact Hd|done|left; by apply E3].
Qed.

(** * copy_level *)

Lemma try_loop_ind (Inv : Z -> vm -> Prop) (Bad : vm -> Prop) body n : forall i s, Inv i s ->
  (forall j t, i <= j < i + Z.of_nat n -> Inv j t -> let '(ok, t') := body j t in if ok : bool then Inv (j + 1) t' else Bad t') ->
  let '(ok, t) := try_loop n i body s in if ok : bool then Inv (i + Z.of_nat n) t else Bad t.
Proof.
  induction n as [|n IH]; intros i s H0 Hs; cbn [try_loop]; [by rewrite Z.add_0_r|].
  pose proof (Hs i s ltac:(lia) H0) as H1. destruct (body i s) as [[] s']; [|done].
  replace (i + Z.of_nat (S n)) with (i + 1 + Z.of_nat n) by lia. apply IH; [done|]. intros j t Hj. apply Hs. lia.
Qed.

(** The copy [f] of [src] after the slots below [i]. *)
Record copying (r c : Z) (s0 : vm) (own0 : Z -> option place) (level k : nat) (p f src i : Z) (s : vm) (own : Z -> option place) : Prop := {
  cp_grows : grows r c s0 own0 s own;
  cp_own : own f = Some (c, k, p);
  cp_done : forall j, 0 <= j < i -> twin_slot own0 (phys s0) (phys s) level f src j;
  cp_todo : forall j, i <= j < lim k -> entry (phys s) f j = 0
}.

(** The result of copying a subtree: the copy, or everything given back. *)
Definition copied (r c : Z) (s : vm) (own : Z -> option place) (level k : nat) (p src f : Z) (s' : vm) : Prop :=
  (f <> 0 /\ own f = None /\ frame_addr f /\ exists own', grows r c s own s' own' /\ own' f = Some (c, k, p) /\
     forall j, 0 <= j < 512 -> twin_slot own (phys s) (phys s') level f src j) \/
  (f = 0 /\ alters r s own s' /\ vm_ok s' own).

Section Copy.
Context (r c : Z) (Hrc : c <> r).

(** A present leaf is copied. *)
Lemma copy_leaf_step s0 own0 p f src i s own : sound s0 own0 -> own0 src = Some (r, 3%nat, p) -> own0 f = None -> 0 <= i < 512 ->
  copying r c s0 own0 0 3 p f src i s own -> has (entry (phys s) src i) PAGE_PRESENT = true ->
  copying r c s0 own0 0 3 p f src (i + 1) (copy_leaf src f i s) own.
Proof.
  intros S0 Hsrc Hf0 Hi [G Of Dn Td] Hp. pose proof (gr_own _ _ _ _ _ _ G _ _ Hsrc) as Osrc.
  pose proof (gr_sound _ _ _ _ _ _ G) as S1. pose proof (fun g pl H => proj1 (o_frame _ _ (proj1 (sd_ok _ _ S1)) g pl H)) as Fr.
  assert (Hne : f <> src) by congruence. pose proof (entry_range (phys s) src i) as Re.
  assert (C0 : cowish (entry (phys s0) src i) (entry (phys s) src i)) by (by eapply (al_leaf _ _ _ _ (gr_alters _ _ _ _ _ _ G))).
  pose proof (cowish_cow _ _ (entry_range _ _ _) C0) as C1. destruct (cowish_ok _ _ (entry_range _ _ _) C0) as [_ C2].
  destruct (cow_entry_ok _ Re) as (R1 & R2 & R3 & R4 & _). assert (D : data_frame s own (tbl (entry (phys s) src i))) by (by eapply (sd_leaf _ _ S1)).
  assert (Ec : cow (entry (phys s) src i) = cow_entry (entry (phys s) src i)) by (unfold cow; by rewrite Hp).
  set (e := entry (phys s) src i) in *. unfold copy_leaf. fold e. set (s1 := if has e PAGE_WRITABLE then _ else _).
  assert (E1 : forall t pl j, own t = Some pl -> 0 <= j < 512 ->
    entry (phys s1) t j = if decide ((t, j) = (src, i)) then cow_entry e else entry (phys s) t j).
  { intros t pl j Ht Hj. unfold s1. destruct (has e PAGE_WRITABLE) eqn:Ew; [by apply set_entry_read; eauto|].
    case_decide as E; [|done]. injection E as -> ->. fold e. unfold cow_entry. by rewrite Ew. }
  assert (G1 : grows r c s0 own0 s1 own).
  { unfold s1. destruct (has e PAGE_WRITABLE); [|done]. eapply grows_set; [done|done|exact Osrc|done| |].
    - split; [done|]. intros _. split; [intros _; by rewrite R2|lia].
    - intros _. split_and!; [done|done|]. right. by rewrite <- C1, Ec. }
  assert (D1 : data_frame s1 own (tbl e)) by (unfold s1; by destruct (has e PAGE_WRITABLE)).
  clearbody s1. set (s2 := set_entry f i (cow_entry e) s1).
  assert (E2 : forall t pl j, own t = Some pl -> 0 <= j < 512 ->
    entry (phys s2) t j = if decide ((t, j) = (f, i)) then cow_entry e else entry (phys s1) t j) by (intros; apply set_entry_read; eauto).
  assert (G2 : grows r c s0 own0 s2 own).
  { eapply grows_set; [done|done|exact Of|done| |done]. split; [done|]. intros _. split; [intros _; by rewrite R2|lia]. }
  clearbody s2. destruct (incref_same (Z.land e PTE_PHYS_MASK) s2) as [I1 I2]. split; [by eapply grows_same|done| |]; rewrite I1.
  - intros j Hj. cbn [twin_slot]. rewrite !(E2 _ _ _ Osrc), !(E2 _ _ _ Of) by lia. rewrite (decide_False (P := (src, j) = (f, i))) by congruence.
    rewrite !(E1 _ _ _ Osrc), !(E1 _ _ _ Of) by lia. rewrite (decide_False (P := (f, j) = (src, i))) by congruence.
    destruct (decide (j = i)) as [->|Hji].
    + rewrite !decide_True by done. rewrite <- C1, Ec. rewrite <- C2. by rewrite Hp.
    + rewrite !decide_False by congruence. apply (Dn j). lia.
  - intros j Hj. cbn [lim] in *. assert (j <> i) by lia. rewrite (E2 _ _ _ Of), decide_False by (lia || congruence). rewrite (E1 _ _ _ Of), decide_False by (lia || congruence). apply Td. lia.
Qed.

(** A slot that is not present is a copy of nothing. *)
Lemma copy_absent s0 own0 level k p f src i s own : (level + k = 3)%nat -> own0 src = Some (r, k, p) -> 0 <= i < lim k ->
  copying r c s0 own0 level k p f src i s own -> has (entry (phys s) src i) PAGE_PRESENT = false ->
  copying r c s0 own0 level k p f src (i + 1) s own.
Proof.
  intros Hlk Hsrc Hi' [G Of Dn Td] Hp. assert (Hi : 0 <= i < 512) by (pose proof (lim_512 k i); lia). pose proof (gr_alters _ _ _ _ _ _ G) as A. split; [done|done| |intros; apply Td; lia].
  intros j Hj. destruct (decide (j = i)) as [->|]; [|apply Dn; lia]. specialize (Td i ltac:(lia)). destruct level as [|n]; cbn [twin_slot].
  - assert (k = 3%nat) as -> by lia. pose proof (al_leaf _ _ _ _ A _ _ _ Hsrc Hi) as C. destruct (cowish_ok _ _ (entry_range _ _ _) C) as [_ C2].
    rewrite <- C2, Hp. split; [|done]. rewrite <- (cowish_cow _ _ (entry_range _ _ _) C). unfold cow. by rewrite Hp.
  - rewrite (al_upper _ _ _ _ A _ _ _ _ _ Hsrc ltac:(lia) Hi) in Hp. unfold tab_next. by rewrite Hp, Td.
Qed.

(** A subtree was copied and its copy is linked. *)
Lemma copy_sub_step s0 own0 n k p f src i s own d s' own' : sound s0 own0 -> (S n + k = 3)%nat ->
  own0 src = Some (r, k, p) -> own0 f = None -> 0 <= i < lim k -> copying r c s0 own0 (S n) k p f src i s own ->
  let e := entry (phys s) src i in has e PAGE_PRESENT = true ->
  grows r c s own s' own' -> own d = None -> frame_addr d -> own' d = Some (c, S k, p * 512 + i) ->
  (forall j, 0 <= j < 512 -> twin_slot own (phys s) (phys s') n d (tbl e) j) ->
  copying r c s0 own0 (S n) k p f src (i + 1) (set_entry f i (Z.lor (Z.land (entry (phys s') src i) 0xFFF) d) s') own'.
Proof.
  intros S0 Hlk Hsrc Hf0 Hi' [G Of Dn Td] e Hp G' Hd0 Hd Od Tw. assert (Hi : 0 <= i < 512) by (pose proof (lim_512 k i); lia).
  pose proof (lim_512 k) as Lim.
  pose proof (gr_own _ _ _ _ _ _ G _ _ Hsrc) as Osrc. pose proof (gr_sound _ _ _ _ _ _ G) as S1. pose proof (gr_sound _ _ _ _ _ _ G') as S2.
  pose proof (gr_alters _ _ _ _ _ _ G') as A'. pose proof (grows_trans _ _ _ _ _ _ _ _ G G') as G2. pose proof (gr_own _ _ _ _ _ _ G' _ _ Of) as Of'.
  assert (Hh : has e PAGE_HUGE = false) by (eapply (sd_huge _ _ S1); [exact Osrc|lia|done|intros ->; cbn in Hi'; lia|done]).
  rewrite (al_upper _ _ _ _ A' _ _ _ _ _ Osrc ltac:(lia) Hi). fold e.
  destruct (link_entry_ok e d Hd Hp Hh) as (L1 & L2 & L3 & L4). set (e' := Z.lor _ d) in *. clearbody e'.
  assert (G3 : grows r c s0 own0 (set_entry f i e' s') own').
  { eapply grows_set; [done|done|exact Of'|done| |done]. split; [done|]. intros _. split; [lia|]. intros _ _. by rewrite L2. }
  pose proof (fun g pl H => proj1 (o_frame _ _ (proj1 (sd_ok _ _ S2)) g pl H)) as Fr.
  assert (E2 : forall t pl j, own' t = Some pl -> 0 <= j < 512 ->
    entry (phys (set_entry f i e' s')) t j = if decide ((t, j) = (f, i)) then e' else entry (phys s') t j) by (intros; apply set_entry_read; eauto).
  assert (Ext : forall t pl j, own' t = Some pl -> 0 <= j < 512 -> (t, j) <> (f, i) -> entry (phys (set_entry f i e' s')) t j = entry (phys s') t j)
    by (intros t pl j Ht Hj Hne; rewrite (E2 _ _ _ Ht Hj); by rewrite decide_False).
  assert (Deep : forall t k' q j, own' t = Some (c, k', q) -> (k < k' <= 3)%nat -> 0 <= j < 512 -> entry (phys (set_entry f i e' s')) t j = entry (phys s') t j).
  { intros t k' q j Ht Hk' Hj. eapply Ext; [exact Ht|done|]. intros [= -> _]. rewrite Of' in Ht. simplify_eq. lia. }
  assert (Leaf : forall t q j, own' t = Some (r, 3%nat, q) -> 0 <= j < 512 -> cowish (entry (phys s') t j) (entry (phys (set_entry f i e' s')) t j)).
  { intros t q j Ht Hj. left. eapply Ext; [exact Ht|done|]. intros [= -> _]. rewrite Of' in Ht. simplify_eq. }
  split; [done|done| |].
  - intros j Hj. destruct (decide (j = i)) as [->|Hji].
    + cbn [twin_slot]. assert (En : tab_next (phys s0) src i = Some (tbl e)).
      { unfold tab_next. pose proof (al_upper _ _ _ _ (gr_alters _ _ _ _ _ _ G) _ _ _ _ _ Hsrc ltac:(lia) Hi) as E. rewrite <- E. fold e. by rewrite Hp, Hh. }
      rewrite En. exists d. split_and!.
      * unfold tab_next. rewrite (E2 _ _ _ Of' Hi), decide_True by done. by rewrite L3, L4, L2.
      * destruct (own0 d) eqn:E; [|done]. apply (gr_own _ _ _ _ _ _ G) in E. congruence.
      * assert (Ht0 : own0 (tbl e) = Some (r, S k, p * 512 + i)) by (eapply (child_of s0); [apply (sd_ok _ _ S0)|exact Hsrc|lia|done|done]).
        intros j Hj'. eapply (twin_ext own0 s0 r c s' own' _ S0 (proj1 (sd_ok _ _ S2)) G2 Leaf n (S k) (p * 512 + i));
          [lia|exact Od|exact Ht0|done| | |].
        -- intros t k' q j' Ht Hk'. apply (Deep t k' q); [done|lia].
        -- apply (Deep d (S k) (p * 512 + i)); [done|lia|done].
        -- eapply (twin_base own0 s0 r c s own _ S0 G n (S k) (p * 512 + i)); [lia|exact Ht0|done|by apply Tw].
    + eapply (twin_ext own0 s0 r c s' own' _ S0 (proj1 (sd_ok _ _ S2)) G2 Leaf (S n) k p); [done|exact Of'|exact Hsrc|lia|exact Deep| |].
      * eapply Ext; [exact Of'|specialize (Lim j); lia|congruence].
      * eapply (twin_ext own0 s0 r c s own _ S0 (proj1 (sd_ok _ _ S1)) G (al_leaf _ _ _ _ A') (S n) k p); [done|exact Of|exact Hsrc|lia| | |apply Dn; lia].
        -- intros t k' q j' Ht Hk' Hj'. destruct (decide (k' = 3%nat)) as [->|Hk3]; [by eapply (al_other _ _ _ _ A')|].
           eapply (al_upper _ _ _ _ A'); [exact Ht|lia|done].
        -- eapply (al_upper _ _ _ _ A'); [exact Of|lia|specialize (Lim j); lia].
  - intros j Hj. specialize (Lim j). rewrite (Ext _ _ _ Of') by (lia || (intros [= ->]; lia)). rewrite (al_upper _ _ _ _ A' _ _ _ _ _ Of) by lia. apply Td. lia.
Qed.

(** The old tables, when nothing but leaves of [r] changed in them. *)
Lemma alters_ok s0 own0 t : sound s0 own0 -> alters r s0 own0 t -> pmm_wf (pmm t) -> page_used (pmm t) 0 = true ->
  (forall g pl, own0 g = Some pl -> page_used (pmm t) (g / 4096) = true) -> vm_ok t own0.
Proof.
  intros S0 A Hw H0 Hu. destruct (proj1 (sd_ok _ _ S0)) as [T1 T2 T3 T4]. split; [|done]. split; [done|done| |].
  - intros f pl Hf. split; [by eapply T3|by eapply Hu].
  - intros f r' k p i d Hf Hk Hi H4. unfold tab_next. rewrite (al_upper _ _ _ _ A _ _ _ _ _ Hf Hk Hi). by apply T4.
Qed.

Lemma alters_same s0 own0 s t : alters r s0 own0 s -> phys t = phys s -> alters r s0 own0 t.
Proof. intros [A1 A2 A3 A4] E. by split; intros; rewrite E; eauto. Qed.

(** A copy that stopped is given back. *)
Lemma copy_failed s0 own0 level k p f src i s own t : sound s0 own0 -> (level + k = 3)%nat -> (1 <= k)%nat -> own0 f = None ->
  0 <= i <= 512 -> copying r c s0 own0 level k p f src i s own -> alters r s own t -> vm_ok t own ->
  alters r s0 own0 (free_level level f t) /\ vm_ok (free_level level f t) own0.
Proof.
  intros S0 Hlk Hk Hf0 Hi [G Of Dn Td] A [HTt H0t]. pose proof (alters_trans _ _ _ _ _ _ _ G A) as A0.
  pose proof (gr_sound _ _ _ _ _ _ G) as S1. pose proof (o_frame _ _ (proj1 (sd_ok _ _ S0))) as Fr0.
  assert (K : kept own0 t (free_level level f t)).
  { apply free_level_kept; [|apply HTt|done|done|apply (o_frame _ _ HTt _ _ Of)|].
    - intros g pl Hg. by eapply Fr0.
    - intros j Hj. assert (El : lim k = 512) by (destruct k; [lia|done]). eapply (twin_freeable own0 s0 r c s own (phys t) S0 G); [|exact Hlk|exact Of|by rewrite El|].
      + intros t' k' q j' Ht' Hk' Hj'. destruct (decide (k' = 3%nat)) as [->|]; [by eapply (al_other _ _ _ _ A)|].
        eapply (al_upper _ _ _ _ A); [exact Ht'|lia|done].
      + destruct (decide (j < i)); [left; apply Dn; lia|right; apply Td; lia]. }
  destruct K as (K1 & K2 & K3 & K4). assert (A1 : alters r s0 own0 (free_level level f t)) by (by eapply alters_same).
  split; [done|]. apply (alters_ok s0); [done|done|done|done|]. intros g pl Hg. eapply K4; [done|].
  apply (gr_own _ _ _ _ _ _ G) in Hg. by apply (o_frame _ _ HTt) in Hg as [_ ?].
Qed.

(** No memory: nothing happened. *)
Lemma alloc_failed s own q : sound s own -> pmm_wf q -> (forall n, page_used q n = page_used (pmm s) n) ->
  alters r s own (with_pmm q s) /\ vm_ok (with_pmm q s) own.
Proof.
  intros S0 Hq Hu. assert (A : alters r s own (with_pmm q s)) by (apply (alters_same _ _ s); [apply alters_refl|done]).
  split; [done|]. apply (alters_ok s); [done|done|done| |].
  - cbn. rewrite Hu. apply (sd_ok _ _ S0).
  - intros g pl Hg. cbn. rewrite Hu. by apply (o_frame _ _ (proj1 (sd_ok _ _ S0))) in Hg as [_ ?].
Qed.

(** One slot of the table [src] copied to [dst]. *)
Definition copy_slot (level : nat) (src dst i : Z) (s : vm) : bool * vm :=
  let e := entry (phys s) src i in
  if negb (has e PAGE_PRESENT) then (true, s) else
  match level with
  | O => (true, copy_leaf src dst i s)
  | S level =>
      let '(sub, s) := copy_level level (Z.land e PTE_PHYS_MASK) s in
      if sub =? 0 then (false, s) else (true, set_entry dst i (Z.lor (Z.land (entry (phys s) src i) 0xFFF) sub) s)
  end.

Lemma copy_level_slots level src s : copy_level level src s =
  let '(f, s) := alloc_frame s in
  if f =? 0 then (0, s) else
  let '(ok, s) := try_loop 512 0 (copy_slot level (tbl src) (tbl f)) (with_phys (mfill (phys s) (tbl f) 4096 0) s) in
  if ok then (f, s) else (0, free_level level f s).
Proof. by destruct level. Qed.

Definition copies (level : nat) : Prop := forall k p src s own f s', (level + k = 3)%nat -> (1 <= k)%nat -> sound s own ->
  own src = Some (r, k, p) -> copy_level level src s = (f, s') -> copied r c s own level k p src f s'.

(** The slot was copied, or there was no memory and nothing is left of its copy. *)
Lemma copy_slot_ok level k p s0 own0 f src i s own : match level with O => True | S n => copies n end -> sound s0 own0 ->
  (level + k = 3)%nat -> own0 src = Some (r, k, p) -> own0 f = None -> 0 <= i < lim k ->
  copying r c s0 own0 level k p f src i s own ->
  let '(ok, t) := copy_slot level src f i s in
  if ok : bool then exists o, copying r c s0 own0 level k p f src (i + 1) t o else alters r s own t /\ vm_ok t own.
Proof.
  intros IH S0 Hlk Hsrc Hf Hi' C. assert (Hi : 0 <= i < 512) by (pose proof (lim_512 k i); lia). unfold copy_slot. pose proof (cp_grows _ _ _ _ _ _ _ _ _ _ _ _ C) as G.
  destruct (has (entry (phys s) src i) PAGE_PRESENT) eqn:Hp; cbn [negb]; [|exists own; by apply copy_absent].
  destruct level as [|n]; [assert (k = 3%nat) as -> by lia; exists own; by apply copy_leaf_step|].
  pose proof (gr_sound _ _ _ _ _ _ G) as S1. pose proof (gr_own _ _ _ _ _ _ G _ _ Hsrc) as Osrc.
  assert (Hh : has (entry (phys s) src i) PAGE_HUGE = false) by (eapply (sd_huge _ _ S1); [exact Osrc|lia|done|intros ->; cbn in Hi'; lia|done]).
  destruct (copy_level n _ s) as [d t] eqn:E.
  assert (Hc : own (tbl (entry (phys s) src i)) = Some (r, S k, p * 512 + i)).
  { eapply (child_of s); [apply (sd_ok _ _ S1)|exact Osrc|lia|done|]. unfold tab_next. by rewrite Hp, Hh. }
  destruct (IH (S k) (p * 512 + i) _ s own d t ltac:(lia) ltac:(lia) S1 Hc E) as [(Hd & Hd0 & Hda & o & G' & Od & Tw)|(-> & A & V)].
  - destruct (Z.eqb_spec d 0); [done|]. exists o. by eapply copy_sub_step.
  - done.
Qed.

Lemma copy_level_step level : match level with O => True | S n => copies n end -> copies level.
Proof.
  intros IH k p src s own f s' Hlk Hk S0 Hsrc. rewrite copy_level_slots. destruct (alloc_frame s) as [g s1] eqn:EA.
  pose proof (proj1 (sd_ok _ _ S0)) as HT.
  destruct (alloc_frame_ok s g s1 (o_pmm _ _ HT) (proj2 (sd_ok _ _ S0)) EA) as (q & -> & Hq & _ & [[-> Hu]|(Hg & Hfree & Hu)]).
  { intros [= <- <-]. right. split; [done|by apply alloc_failed]. }
  destruct (Z.eqb_spec g 0); [destruct Hg; lia|]. rewrite (tbl_frame g Hg), (tbl_frame src) by (by apply (o_frame _ _ HT _ _ Hsrc)).
  destruct (grows_table r c s own q g k p S0 Hq Hg Hfree Hu ltac:(lia)) as (G & Hg0 & Z0).
  change (with_phys (mfill (phys (with_pmm q s)) g 4096 0) (with_pmm q s)) with (with_phys (mfill (phys s) g 4096 0) (with_pmm q s)).
  set (s1 := with_phys _ _) in *.
  assert (El : lim k = 512) by (destruct k; [lia|done]).
  assert (L : let '(ok, t) := try_loop 512 0 (copy_slot level src g) s1 in
    if ok : bool then 0 <= 512 /\ exists o, copying r c s own level k p g src 512 t o
    else exists j t0 o, 0 <= j <= 512 /\ copying r c s own level k p g src j t0 o /\ alters r t0 o t /\ vm_ok t o).
  { apply (try_loop_ind (fun i t => 0 <= i /\ exists o, copying r c s own level k p g src i t o)
      (fun t => exists j t0 o, 0 <= j <= 512 /\ copying r c s own level k p g src j t0 o /\ alters r t0 o t /\ vm_ok t o)
      (copy_slot level src g) 512 0 s1).
    - split; [done|]. eexists. split; [exact G|unfold own_add; by rewrite decide_True|lia|]. intros j Hj. apply Z0. lia.
    - intros j t0 Hj (_ & o & C). pose proof (copy_slot_ok level k p s own g src j t0 o IH S0 Hlk Hsrc Hg0 ltac:(lia) C) as R.
      destruct (copy_slot level src g j t0) as [[] t']; [split; [lia|done]|]. exists j, t0, o. split_and!; [lia|lia|done|apply R|apply R]. }
  destruct (try_loop 512 0 _ s1) as [[] t]; intros [= <- <-].
  - destruct L as (_ & o & C). left. split_and!; [done|done|done|]. exists o.
    split_and!; [by eapply cp_grows|by eapply cp_own|by eapply cp_done].
  - right. split; [done|]. destruct L as (j & t0 & o & Hj & C & A & V). by eapply copy_failed.
Qed.

Lemma copy_level_ok level : copies level.
Proof. induction level; by apply copy_level_step. Qed.
End Copy.

(** * vmspace_create *)

(** A new space has no user page; the old ones are as they were. *)
Lemma vmspace_create_ok r s own rc a s' : sound s own -> vmspace_create s = (rc, a, s') ->
  (rc = 0 /\ as_refcount a = 1 /\ own (pml4_phys a) = None /\ frame_addr (pml4_phys a) /\
   exists own', grows r (pml4_phys a) s own s' own' /\ is_space own' (pml4_phys a) /\
     forall j, 0 <= j < 256 -> entry (phys s') (pml4_phys a) j = 0) \/
  (rc = -1 /\ a = AddrSpace 0 0 /\ alters r s own s' /\ vm_ok s' own).
Proof.
  intros S0. unfold vmspace_create. destruct (alloc_frame s) as [c s1] eqn:EA. pose proof (proj1 (sd_ok _ _ S0)) as HT.
  destruct (alloc_frame_ok s c s1 (o_pmm _ _ HT) (proj2 (sd_ok _ _ S0)) EA) as (q & -> & Hq & _ & [[-> Hu]|(Hg & Hfree & Hu)]).
  { intros [= <- <- <-]. right. split_and!; [done|done|by apply alloc_failed|by apply (alloc_failed r)]. }
  destruct (Z.eqb_spec c 0); [destruct Hg; lia|]. rewrite (tbl_frame c Hg).
  destruct (grows_table r c s own q c 0 0 S0 Hq Hg Hfree Hu ltac:(done)) as (G & Hg0 & Z0).
  change (with_phys (mfill (phys (with_pmm q s)) c 4096 0) (with_pmm q s)) with (with_phys (mfill (phys s) c 4096 0) (with_pmm q s)).
  set (s1 := with_phys _ _) in *. intros [= <- <- <-]. left. cbn [as_refcount pml4_phys]. split_and!; [done|done|done|exact Hg|].
  set (own' := own_add own c (c, O, 0)) in *. assert (Oc : own' c = Some (c, O, 0)) by (unfold own', own_add; by rewrite decide_True).
  exists own'. match goal with |- grows _ _ _ _ ?x _ /\ _ =>
    assert (L : grows r c s own x own' /\ forall j, 0 <= j < 256 -> entry (phys x) c j = 0) end; [|by destruct L].
  apply (for_range_inv (fun t => grows r c s own t own' /\ forall j, 0 <= j < 256 -> entry (phys t) c j = 0)).
  - split; [done|]. intros j Hj. apply Z0. lia.
  - intros i t Hi [Gt Zt]. destruct (has _ PAGE_PRESENT); [|done]. split.
    + eapply grows_set; [done|done|exact Oc|lia| |done]. split; [apply entry_range|]. intros _. split; [done|]. intros _ H. specialize (H eq_refl). lia.
    + intros j Hj. rewrite set_entry_read, decide_False by (done || lia || apply entry_range || (intros [= ->]; lia)). by apply Zt.
Qed.

(** * vmspace_destroy *)

Lemma vmspace_destroy_kept own0 a s : (forall g pl, own0 g = Some pl -> frame_addr g) ->
  pmm_wf (pmm s) -> page_used (pmm s) 0 = true -> own0 (pml4_phys a) = None -> frame_addr (pml4_phys a) ->
  (forall j, 0 <= j < 256 -> freeable own0 (phys s) 3 (pml4_phys a) j) -> kept own0 s (vmspace_destroy a s).2.
Proof.
  intros Hfr Hw H0 Hn Hf Hfree. unfold vmspace_destroy. replace (pml4_phys a =? 0) with false by (destruct Hf; lia).
  change (Z.land (pml4_phys a) PTE_PHYS_MASK) with (tbl (pml4_phys a)). rewrite (tbl_frame _ Hf). cbn [snd].
  match goal with |- kept _ _ (free_frame _ ?x) => assert (K : kept own0 s x) end.
  - apply (for_range_inv (kept own0 s)); [by apply kept_refl|]. intros j t Hj K. pose proof K as (K0 & K1 & K2 & _).
    specialize (Hfree j Hj). cbn [freeable] in Hfree. rewrite <- K0 in Hfree.
    change (Z.land (entry (phys t) (pml4_phys a) j) PTE_PHYS_MASK) with (tbl (entry (phys t) (pml4_phys a) j)).
    destruct (has _ PAGE_PRESENT); [|done]. destruct (Hfree eq_refl) as (F1 & F2 & F3).
    eapply kept_trans; [exact K|]. by apply free_level_kept.
  - eapply kept_trans; [exact K|]. destruct K as (_ & K1 & K2 & _). by apply free_frame_kept.
Qed.

(** * vmspace_fork *)

Section Fork.
Context (r c : Z) (s0 : vm) (own0 : Z -> option place) (s : vm) (own : Z -> option place).
Context (S0 : sound s0 own0) (Hr : is_space own0 r) (G : grows r c s0 own0 s own).
Context (Tw : forall j, 0 <= j < 256 -> twin_slot own0 (phys s0) (phys s) 3 c r j).

Lemma twin_tab va k : user_va va -> (k <= 3)%nat ->
  match tab (phys s0) r va k with
  | Some t => tab (phys s) r va k = Some t /\ exists t', tab (phys s) c va k = Some t' /\
      forall j, 0 <= j < lim k -> twin_slot own0 (phys s0) (phys s) (3 - k) t' t j
  | None => tab (phys s) r va k = None /\ tab (phys s) c va k = None
  end.
Proof.
  intros Hv. induction k as [|k IH]; intros Hk; cbn [tab]; [split; [done|]; by exists c|]. specialize (IH ltac:(lia)).
  destruct (tab (phys s0) r va k) as [t|] eqn:E; [|by destruct IH as [-> ->]]. destruct IH as (Et & t' & Et' & H).
  rewrite Et, Et'. cbn [mbind option_bind].
  pose proof (tab_own _ _ _ _ _ _ (proj1 (sd_ok _ _ S0)) Hr Hv E ltac:(lia)) as Ot.
  assert (En : tab_next (phys s) t (ix k va) = tab_next (phys s0) t (ix k va)).
  { unfold tab_next. by rewrite (al_upper _ _ _ _ (gr_alters _ _ _ _ _ _ G) _ _ _ _ _ Ot ltac:(lia) (ix_range k va)). }
  rewrite En. assert (Hi : 0 <= ix k va < lim k) by (pose proof (ix_range k va); destruct k; [unfold user_va in Hv; cbn in *; lia|done]).
  specialize (H _ Hi). replace (3 - k)%nat with (S (3 - S k)) in H by lia. cbn [twin_slot] in H.
  destruct (tab_next (phys s0) t (ix k va)) as [d|]; [|done]. destruct H as (d' & E1 & _ & E3). split; [done|]. by exists d'.
Qed.

Lemma twin_translate va : user_va va ->
  translate (phys s) c va = cow_entry <$> translate (phys s0) r va /\ translate (phys s) r va = cow_entry <$> translate (phys s0) r va.
Proof.
  intros Hv. pose proof (twin_tab va 3 Hv ltac:(lia)) as H. unfold translate.
  destruct (tab (phys s0) r va 3) as [t|]; [|by destruct H as [-> ->]]. destruct H as (E1 & t' & E2 & E3).
  rewrite E1, E2. cbn [mbind option_bind]. destruct (E3 (ix 3 va) (ix_range 3 va)) as [T1 T2]. rewrite T1, T2.
  destruct (cow_ok _ (entry_range (phys s0) t (ix 3 va))) as (_ & _ & P). rewrite P.
  destruct (has (entry (phys s0) t (ix 3 va)) PAGE_PRESENT) eqn:Ep; [|done]. rewrite P. unfold cow. by rewrite Ep.
Qed.
End Fork.

(** Translations of other spaces, and of [r] when a fork failed. *)
Lemma alters_translate r s own s' : sound s own -> alters r s own s' ->
  forall root va, is_space own root -> user_va va ->
    (root <> r -> translate (phys s') root va = translate (phys s) root va) /\
    (root = r -> translate (phys s') r va = translate (phys s) r va \/ translate (phys s') r va = cow_entry <$> translate (phys s) r va).
Proof.
  intros S0 A root va Hs Hv.
  assert (T : forall k, (k <= 3)%nat -> tab (phys s') root va k = tab (phys s) root va k).
  { induction k as [|k IH]; intros Hk; [done|]. cbn [tab]. rewrite IH by lia. destruct (tab (phys s) root va k) as [t|] eqn:E; [|done].
    pose proof (tab_own _ _ _ _ _ _ (proj1 (sd_ok _ _ S0)) Hs Hv E ltac:(lia)) as Ot. cbn.
    unfold tab_next. by rewrite (al_upper _ _ _ _ A _ _ _ _ _ Ot ltac:(lia) (ix_range k va)). }
  unfold translate. pose proof (T 3%nat ltac:(lia)) as T3. destruct (tab (phys s) root va 3) as [t|] eqn:E.
  - pose proof (tab_own _ _ _ _ _ _ (proj1 (sd_ok _ _ S0)) Hs Hv E ltac:(lia)) as Ot. split.
    + intros Hne. rewrite T3. cbn [mbind option_bind]. by rewrite (al_other _ _ _ _ A _ _ _ _ Ot Hne (ix_range 3 va)).
    + intros ->. rewrite T3, E. cbn [mbind option_bind]. destruct (al_leaf _ _ _ _ A _ _ _ Ot (ix_range 3 va)) as [-> | ->]; [by left|right].
      destruct (cow_ok _ (entry_range (phys s) t (ix 3 va))) as (_ & _ & ->). unfold cow. by destruct (has (entry (phys s) t (ix 3 va)) PAGE_PRESENT).
  - split; [by rewrite T3|]. intros ->. left. by rewrite T3, E.
Qed.

(** What a fork of the space [r] does to the rest of the machine. *)
Definition fork_frame (s : vm) (own : Z -> option place) (r : Z) (s' : vm) : Prop :=
  (forall root va, is_space own root -> root <> r -> user_va va -> translate (phys s') root va = translate (phys s) root va) /\
  (forall f x, data_frame s own f -> f <= x < f + 4096 -> phys s' x = phys s x).

Lemma alters_frame r s own s' : sound s own -> alters r s own s' -> fork_frame s own r s'.
Proof.
  intros S0 A. split; [|by apply A]. intros root va H1 H2 H3. by apply (alters_translate r s own s' S0 A).
Qed.

(** A fork that stopped gives the child's tables back. *)
Lemma fork_failed r c : c <> r -> forall s0 own0 i s own t ch, sound s0 own0 -> pml4_phys ch = c -> own0 c = None -> frame_addr c ->
  0 <= i <= 256 -> copying r c s0 own0 3 0 0 c r i s own -> alters r s own t -> vm_ok t own ->
  alters r s0 own0 (vmspace_destroy ch t).2 /\ vm_ok (vmspace_destroy ch t).2 own0.
Proof.
  intros Hrc s0 own0 i s own t ch S0 <- Hc0 Hc Hi [G Of Dn Td] A [HTt H0t]. pose proof (alters_trans _ _ _ _ _ _ _ G A) as A0.
  pose proof (o_frame _ _ (proj1 (sd_ok _ _ S0))) as Fr0.
  assert (K : kept own0 t (vmspace_destroy ch t).2).
  { apply vmspace_destroy_kept; [by intros g pl Hg; eapply Fr0|apply HTt|done|done|done|].
    intros j Hj. eapply (twin_freeable own0 s0 r _ s own (phys t) S0 G); [|reflexivity|exact Of|done|].
    - intros t' k' q j' Ht' Hk' Hj'. destruct (decide (k' = 3%nat)) as [->|]; [by eapply (al_other _ _ _ _ A)|].
      eapply (al_upper _ _ _ _ A); [exact Ht'|lia|done].
    - destruct (decide (j < i)); [left; apply Dn; lia|right; apply Td; cbn; lia]. }
  destruct K as (K1 & K2 & K3 & K4). assert (A1 : alters r s0 own0 (vmspace_destroy ch t).2) by (by eapply alters_same).
  split; [done|]. apply (alters_ok r s0); [done|done|done|done|]. intros g pl Hg. eapply K4; [done|].
  apply (gr_own _ _ _ _ _ _ G) in Hg. by apply (o_frame _ _ HTt) in Hg as [_ ?].
Qed.


(** * A space to fork: one writable page *)

Definition fork_vm : vm := (demo_mapped PAGE_WRITABLE).2.
Definition fork_tables : list (Z * place) :=
  [(0x2000, (0x2000, O, 0)); (0x4000, (0x2000, 1%nat, 0)); (0x5000, (0x2000, 2%nat, 0)); (0x6000, (0x2000, 3%nat, 2))].
Definition fork_own (f : Z) : option place := snd <$> List.find (fun x => x.1 =? f) fork_tables.

(** The conditions of [sound] on one slot, as a check. *)
Definition slot_check (s : vm) (own : Z -> option place) (t : Z) (pl : place) (j : Z) : bool :=
  let '(r, k, p) := pl in
  let e := entry (phys s) t j in
  negb (has e PAGE_PRESENT) ||
  match k with
  | 3%nat => bool_decide (own (tbl e) = None) && (0 <? tbl e) && (tbl e <? 2 ^ 52) && (tbl e mod 4096 =? 0) && page_used (pmm s) (tbl e / 4096)
  | _ => negb (has e PAGE_HUGE) && bool_decide (own (tbl e) = Some (r, S k, p * 512 + j))
  end.
Definition tables_check (s : vm) : bool :=
  forallb (fun x => forallb (fun i => slot_check s fork_own x.1 x.2 (Z.of_nat i)) (List.seq 0 512)) fork_tables.

Lemma fork_own_in f pl : fork_own f = Some pl -> List.In (f, pl) fork_tables.
Proof.
  unfold fork_own. destruct (List.find _ _) as [[g pl']|] eqn:E; [|done]. apply find_some in E as [E1 E2]. cbn in *. intros [= ->].
  by apply Z.eqb_eq in E2 as ->.
Qed.

Lemma fork_vm_slot t pl j : fork_own t = Some pl -> 0 <= j < 512 -> slot_check fork_vm fork_own t pl j = true.
Proof.
  intros Ht%fork_own_in Hj. assert (C : tables_check fork_vm = true) by (vm_compute; reflexivity).
  unfold tables_check in C. rewrite forallb_forall in C. specialize (C _ Ht). rewrite forallb_forall in C. specialize (C (Z.to_nat j)).
  cbn [fst snd] in C. rewrite Z2Nat.id in C by lia. apply C, in_seq. lia.
Qed.

Lemma fork_own_root f r p : fork_own f = Some (r, O, p) -> f = r /\ p = 0.
Proof. intros [H|[H|[H|[H|[]]]]]%fork_own_in; by inversion H. Qed.

Lemma fork_own_frame f pl : List.In (f, pl) fork_tables -> frame_addr f.
Proof. intros [H|[H|[H|[H|[]]]]]; inversion H; (split; [lia|reflexivity]). Qed.

Lemma fork_vm_used : forallb (fun x => page_used (pmm fork_vm) (x.1 / 4096)) fork_tables = true.
Proof. vm_compute. reflexivity. Qed.

Lemma checked_sound s own : pmm_wf (pmm s) -> page_used (pmm s) 0 = true -> (forall f r p, own f = Some (r, O, p) -> f = r /\ p = 0) ->
  (forall f pl, own f = Some pl -> frame_addr f /\ page_used (pmm s) (f / 4096) = true) ->
  (forall t pl j, own t = Some pl -> 0 <= j < 512 -> slot_check s own t pl j = true) -> sound s own.
Proof.
  intros P H0 Hr Hf C. split; [split; [split|]| |]; try done.
  - intros f r k p j d Ht Hk Hj _. specialize (C _ _ _ Ht Hj). unfold slot_check, tab_next in *.
    destruct (has (entry _ f j) PAGE_PRESENT); [|done]. cbn [negb orb andb] in *. destruct (has _ PAGE_HUGE); [done|]. intros [= <-].
    destruct k as [|[|[|[|]]]]; try lia; cbn [negb andb] in C; by apply bool_decide_eq_true_1 in C.
  - intros t r p j Ht Hj Hp. specialize (C _ _ _ Ht Hj). unfold slot_check in C. rewrite Hp in C. cbn [negb orb] in C.
    rewrite !andb_true_iff in C. destruct C as [[[[C1 C2] C3] C4] C5]. apply bool_decide_eq_true_1 in C1.
    split_and!; [done|split; lia|done].
  - intros t r k p j Ht Hk Hj _ Hp. specialize (C _ _ _ Ht Hj). unfold slot_check in C. rewrite Hp in C. cbn [negb orb] in C.
    destruct k as [|[|[|[|]]]]; try lia; apply andb_true_iff in C as [C _]; by destruct (has _ PAGE_HUGE).
Qed.

Lemma fork_vm_wf : pmm_wf (pmm fork_vm) /\ page_used (pmm fork_vm) 0 = true.
Proof. split; [split; vm_compute; repeat split; discriminate|vm_compute; reflexivity]. Qed.

Lemma fork_vm_sound : sound fork_vm fork_own.
Proof.
  apply checked_sound; [apply fork_vm_wf|apply fork_vm_wf|exact fork_own_root| |exact fork_vm_slot].
  intros f pl Hf%fork_own_in. split; [by eapply fork_own_frame|]. exact (proj1 (forallb_forall _ _) fork_vm_used _ Hf).
Qed.

