(* ===== verification/Proc.v ===== *)
(** Process control blocks and the structures that link them: the list of all
    processes ([kernel/proc/list/list.c]), the parent/child tree
    ([kernel/proc/tree/tree.c]) and the process table
    ([kernel/proc/table/table.c]).

    A PCB is the fields at its address: the store maps an address and a field to
    the field's value, so every structure is linked through the PCBs as in the
    kernel and a store to one PCB is seen through every pointer to it. Pointers
    are integers, 0 is NULL. Wait queues are objects of the store too. *)

From stdpp Require Import base numbers list gmap.
From Stdlib Require Import ZArith Lia.
From S2P Require Import Prelude.

(** * The store *)

(** A wait queue is a member of the object that embeds it: a PCB has two, a
    read/write lock has two, the other objects have one. *)
Inductive wq_member := WQ_main | WQ_join | WQ_child | WQ_readers.

#[export] Instance wq_member_eq_dec : EqDecision wq_member.
Proof. solve_decision. Defined.

(** The fields of process_t (proc.h), of an embedded wait_queue_t, the reference
    count of an address space, the words of a TLS array and of the key table, the
    members of the synchronization objects of pthread.h and semaphore.h, and the two words of a kernel stack the kernel
    writes: the canary at its bottom and the return slot at its top. *)
Inductive field :=
  | F_pid | F_parent_pid | F_state | F_priority | F_name (i : Z)
  | F_ctx_rsp | F_ctx_rip | F_ctx_rflags | F_ctx_cr3 | F_ctx_cs | F_ctx_dseg
  | F_kernel_stack | F_kernel_stack_size | F_canary_word | F_return_slot
  | F_all_next | F_all_prev
  | F_child_count | F_children_head | F_children_tail | F_sibling_next
  | F_creation_time | F_cpu_time_used | F_exit_time | F_exit_code
  | F_time_slice | F_ticks_left | F_wake_tick | F_entry | F_entry_arg
  | F_detached | F_reaped | F_timed_out | F_preempt_count | F_stack_canary
  | F_sig_pending | F_sig_blocked | F_sig_ignore | F_pgid | F_sid | F_sig_interrupt
  | F_sig_handler (sig : Z) | F_sig_restorer | F_clear_child_tid
  | F_aspace | F_is_user | F_tls | F_pth_start | F_retval
  | F_run_next | F_sleep_next | F_wq_next
  | F_wq_head (m : wq_member) | F_wq_tail (m : wq_member)
  | F_refcount
  | F_tls_slot (k : Z) | F_key_used (k : Z) | F_key_dtor (k : Z)
  | F_locked | F_owner | F_type | F_recursion | F_inited
  | F_rw_state | F_waiting_writers | F_bar_count | F_bar_total | F_generation
  | F_done | F_running | F_value | F_attr_detachstate | F_attr_priority
  | F_fs_base | F_user_entry | F_user_stack | F_brk_start | F_brk_cur | F_mmap_cur | F_cwd (i : Z).

#[export] Instance field_eq_dec : EqDecision field.
Proof. solve_decision. Defined.

Definition store : Type := Z -> field -> Z.

Definition upd (p : Z) (f : field) (v : Z) (st : store) : store :=
  fun q g => if decide (q = p /\ g = f) then v else st q g.

Lemma upd_eq p f v st : upd p f v st p f = v.
Proof. unfold upd. rewrite decide_True by done. done. Qed.

Lemma upd_ne p f v st q g : (q, g) <> (p, f) -> upd p f v st q g = st q g.
Proof. intros H. unfold upd. case_decide as E; [|done]. by destruct E as [-> ->]. Qed.

Lemma upd_field p f v st q g : g <> f -> upd p f v st q g = st q g.
Proof. intros H. apply upd_ne. congruence. Qed.

Lemma upd_ptr p f v st q g : q <> p -> upd p f v st q g = st q g.
Proof. intros H. apply upd_ne. congruence. Qed.

(** Evaluate a read over stores to other fields, or to the same one. *)
Ltac store_eval :=
  repeat first
    [ rewrite upd_eq | rewrite upd_field by done | rewrite upd_ptr by done ].

(** proc_state_t. *)
Definition PROC_EMBRYO : Z := 0.
Definition PROC_READY : Z := 1.
Definition PROC_RUNNING : Z := 2.
Definition PROC_BLOCKED : Z := 3.
Definition PROC_ZOMBIE : Z := 4.

Definition PID_MAX : Z := 32768.
Definition MAX_PROCESSES : Z := 256.

(** The list of all processes and the process table. [freed] records the kfree
    calls on PCBs. *)
Record procs := Procs {
  ps : store;
  all_head : Z;
  all_tail : Z;
  all_count : Z;
  process_table : Z -> Z;
  process_count : Z;
  freed : list Z;
}.

Definition with_ps (st : store) (s : procs) : procs :=
  Procs st (all_head s) (all_tail s) (all_count s) (process_table s) (process_count s) (freed s).
Definition on_ps (f : store -> store) (s : procs) : procs := with_ps (f (ps s)) s.
Definition with_all (h t c : Z) (s : procs) : procs :=
  Procs (ps s) h t c (process_table s) (process_count s) (freed s).
Definition with_table (tb : Z -> Z) (c : Z) (s : procs) : procs :=
  Procs (ps s) (all_head s) (all_tail s) (all_count s) tb c (freed s).
Definition with_freed (p : Z) (s : procs) : procs :=
  Procs (ps s) (all_head s) (all_tail s) (all_count s) (process_table s) (process_count s) (p :: freed s).

(** * list.c *)

Definition all_list_add (proc : Z) (s : procs) : procs :=
  if proc =? 0 then s else
  let s := on_ps (upd proc F_all_next 0) s in
  let s := on_ps (upd proc F_all_prev (all_tail s)) s in
  let s := if truth (all_tail s) then on_ps (upd (all_tail s) F_all_next proc) s
           else with_all proc (all_tail s) (all_count s) s in
  with_all (all_head s) proc (u32 (all_count s + 1)) s.

Definition all_list_remove (proc : Z) (s : procs) : procs :=
  if proc =? 0 then s else
  let prev := ps s proc F_all_prev in
  let s := if truth prev then on_ps (upd prev F_all_next (ps s proc F_all_next)) s
           else with_all (ps s proc F_all_next) (all_tail s) (all_count s) s in
  let next := ps s proc F_all_next in
  let s := if truth next then on_ps (upd next F_all_prev (ps s proc F_all_prev)) s
           else with_all (all_head s) (ps s proc F_all_prev) (all_count s) s in
  let s := on_ps (upd proc F_all_next 0) s in
  let s := on_ps (upd proc F_all_prev 0) s in
  if truth (all_count s) then with_all (all_head s) (all_tail s) (u32 (all_count s - 1)) s else s.

(** * table.c *)

(** The first slot [i] of [i, i + n) with [f i]. *)
Fixpoint find_slot (n : nat) (i : Z) (f : Z -> bool) : option Z :=
  match n with
  | O => None
  | S n => if f i then Some i else find_slot n (i + 1) f
  end.

Lemma find_slot_Some n i f j :
  find_slot n i f = Some j ->
  i <= j < i + Z.of_nat n /\ f j = true /\ (forall k, i <= k < j -> f k = false).
Proof.
  revert i. induction n as [|n IH]; intros i; cbn; [done|]. destruct (f i) eqn:E.
  - intros [= <-]. split_and!; [lia..|done|]. intros. lia.
  - intros (H1 & H2 & H3)%IH. split_and!; [lia..|done|]. intros k Hk.
    destruct (Z.eqb_spec k i) as [->|]; [done|]. apply H3. lia.
Qed.

Lemma find_slot_None n i f k : find_slot n i f = None -> i <= k < i + Z.of_nat n -> f k = false.
Proof.
  revert i. induction n as [|n IH]; intros i; cbn; [lia|]. destruct (f i) eqn:E; [done|].
  intros H Hk. destruct (Z.eqb_spec k i) as [->|]; [done|]. apply (IH (i + 1)); [done|lia].
Qed.

Lemma find_slot_ext n i f g :
  (forall k, i <= k < i + Z.of_nat n -> f k = g k) -> find_slot n i f = find_slot n i g.
Proof.
  revert i. induction n as [|n IH]; intros i H; cbn; [done|]. rewrite (H i) by lia.
  rewrite (IH (i + 1)); [done|]. intros. apply H. lia.
Qed.

Definition tset (tb : Z -> Z) (i v : Z) : Z -> Z := fun x => if x =? i then v else tb x.

Definition proc_table_init (s : procs) : procs := with_table (fun _ => 0) 0 s.

(** [proc] is what kmalloc returned for the PCB. *)
Definition proc_table_alloc (proc : Z) (s : procs) : Z * procs :=
  if proc =? 0 then (0, s) else
  match (if process_count s <? MAX_PROCESSES
         then find_slot (Z.to_nat MAX_PROCESSES) 0 (fun i => process_table s i =? 0) else None) with
  | Some i => (proc, with_table (tset (process_table s) i proc) (u32 (process_count s + 1)) s)
  | None => (0, with_freed proc s)
  end.

Definition proc_table_insert (proc : Z) (s : procs) : Z * procs :=
  if proc =? 0 then (-1, s) else
  match find_slot (Z.to_nat MAX_PROCESSES) 0 (fun i => process_table s i =? 0) with
  | Some i => (0, with_table (tset (process_table s) i proc) (u32 (process_count s + 1)) s)
  | None => (-1, s)
  end.

Definition proc_table_free (proc : Z) (s : procs) : procs :=
  if proc =? 0 then s else
  match find_slot (Z.to_nat MAX_PROCESSES) 0 (fun i => process_table s i =? proc) with
  | Some i => with_freed proc (with_table (tset (process_table s) i 0) (u32 (process_count s - 1)) s)
  | None => s
  end.

Definition proc_find (pid : Z) (s : procs) : Z :=
  if (pid <? 0) || (PID_MAX <=? pid) then 0 else
  match find_slot (Z.to_nat MAX_PROCESSES) 0
          (fun i => truth (process_table s i) && (s32 (ps s (process_table s i) F_pid) =? pid)) with
  | Some i => process_table s i
  | None => 0
  end.

Definition proc_get_count (s : procs) : Z := process_count s.

Definition in_table (p : Z) (s : procs) : bool :=
  match find_slot (Z.to_nat MAX_PROCESSES) 0 (fun i => process_table s i =? p) with
  | Some _ => true
  | None => false
  end.

(** The walk over the children of [p]: [None] when a child is bad, otherwise the
    last child and their number. The walk stops after MAX_PROCESSES children. *)
Fixpoint check_children (fuel : nat) (s : procs) (p c n last : Z) : option (Z * Z) :=
  match fuel with
  | O => None
  | S fuel =>
      if c =? 0 then Some (last, n)
      else if negb (in_table c s) || negb (ps s c F_parent_pid =? ps s p F_pid)
              || (MAX_PROCESSES <? n + 1)
      then None
      else check_children fuel s p (ps s c F_sibling_next) (n + 1) c
  end.

Definition children_ok (s : procs) (p : Z) : bool :=
  match check_children (Z.to_nat (MAX_PROCESSES + 2)) s p (ps s p F_children_head) 0 0 with
  | Some (last, n) => (last =? ps s p F_children_tail) && (n =? ps s p F_child_count)
  | None => false
  end.

(** 0, or 1 + the slot of the first process with a bad child list. *)
Definition proc_tree_check (s : procs) : Z :=
  match find_slot (Z.to_nat MAX_PROCESSES) 0
          (fun i => truth (process_table s i) && negb (children_ok s (process_table s i))) with
  | Some i => i + 1
  | None => 0
  end.

(** * tree.c *)

Definition proc_add_child (parent child : Z) (s : procs) : procs :=
  if (parent =? 0) || (child =? 0) then s else
  let s := on_ps (upd child F_parent_pid (ps s parent F_pid)) s in
  let s := on_ps (upd child F_sibling_next 0) s in
  let tail := ps s parent F_children_tail in
  let s := if truth tail then on_ps (upd tail F_sibling_next child) s
           else on_ps (upd parent F_children_head child) s in
  let s := on_ps (upd parent F_children_tail child) s in
  on_ps (upd parent F_child_count (u32 (ps s parent F_child_count + 1))) s.

(** Unlinking [child], whose predecessor among its siblings is [prev]. *)
Definition unlink_child (parent child prev : Z) (s : procs) : procs :=
  let next := ps s child F_sibling_next in
  let s := if truth prev then on_ps (upd prev F_sibling_next next) s
           else on_ps (upd parent F_children_head next) s in
  let s := if child =? ps s parent F_children_tail
           then on_ps (upd parent F_children_tail prev) s else s in
  let s := if truth (ps s parent F_child_count)
           then on_ps (upd parent F_child_count (u32 (ps s parent F_child_count - 1))) s else s in
  on_ps (upd child F_sibling_next 0) s.

(** The search of proc_remove_child: from [cur], whose predecessor is [prev]. *)
Fixpoint remove_child_loop (fuel : nat) (parent child prev cur : Z) (s : procs) : option procs :=
  match fuel with
  | O => None
  | S fuel =>
      if cur =? 0 then Some s
      else if cur =? child then Some (unlink_child parent child prev s)
      else remove_child_loop fuel parent child cur (ps s cur F_sibling_next) s
  end.

(** [None]: the walk ran out of [fuel], or panic for an unknown parent. *)
Definition proc_remove_child (fuel : nat) (child : Z) (s : procs) : option procs :=
  if child =? 0 then Some s else
  let parent := proc_find (s32 (ps s child F_parent_pid)) s in
  if parent =? 0 then None
  else remove_child_loop fuel parent child 0 (ps s parent F_children_head) s.

(** One child of a dying parent: it goes to the end of init's children, or loses
    its parent when there is no init or init itself is dying. *)
Definition reparent_one (init dead child : Z) (s : procs) : procs :=
  let s := on_ps (upd child F_sibling_next 0) s in
  if truth init && negb (init =? dead) then
    let s := on_ps (upd child F_parent_pid 1) s in
    let tail := ps s init F_children_tail in
    let s := if truth tail then on_ps (upd tail F_sibling_next child) s
             else on_ps (upd init F_children_head child) s in
    let s := on_ps (upd init F_children_tail child) s in
    on_ps (upd init F_child_count (u32 (ps s init F_child_count + 1))) s
  else on_ps (upd child F_parent_pid 0) s.

(** The loop of proc_reparent_orphans over the children from [child] on. *)
Fixpoint reparent_loop (fuel : nat) (init dead child : Z) (s : procs) : option procs :=
  match fuel with
  | O => None
  | S fuel =>
      if child =? 0 then Some s
      else reparent_loop fuel init dead (ps s child F_sibling_next) (reparent_one init dead child s)
  end.

Definition proc_reparent_orphans (fuel : nat) (dead : Z) (s : procs) : option procs :=
  if dead =? 0 then Some s else
  let init := proc_find 1 s in
  s ← reparent_loop fuel init dead (ps s dead F_children_head) s;
  let s := on_ps (upd dead F_children_head 0) s in
  let s := on_ps (upd dead F_children_tail 0) s in
  Some (on_ps (upd dead F_child_count 0) s).
