(* ===== verification/Sched.v ===== *)
(** The preemptive priority scheduler, [kernel/proc/sched/sched.c]: run queues,
    sleep list, wait queues, thread creation and reaping.

    The kernel runs on one CPU and every routine below runs with interrupts off
    from its local_irq_save to its local_irq_restore, so a routine is one step on
    the state. schedule() switches to another thread in the middle of a routine:
    a routine that blocks is two definitions, the part up to and including
    schedule() and the part that runs when the thread is current again.
    Registers are not part of the state; current_process is.

    [None] stands for a panic, a NULL dereference, or a walk that has not come to
    an end within [fuel] steps. *)

From stdpp Require Import base numbers list gmap.
From Stdlib Require Import ZArith Lia.
From S2P Require Import Prelude Pid Proc.

Definition PRIO_LEVELS : Z := 32.
Definition PRIO_DEFAULT : Z := 16.
Definition PRIO_IDLE : Z := PRIO_LEVELS - 1.
Definition SCHED_QUANTUM : Z := 5.
Definition TIMER_FREQUENCY : Z := 100.
Definition DEFAULT_THREAD_STACK : Z := 8192.
Definition STACK_CANARY_MAGIC : Z := 0x5AFEC0DE5AFEC0DE.

(** * State *)

(** The statics of sched.c, current_process, the tick counter of the timer, the
    page-table base register, and the states of the process table, the PID
    bitmap and the list of destroyed address spaces. *)
Record sched := Sched {
  pr : procs;
  pids : pid_state;
  runq_head : Z -> Z;
  runq_tail : Z -> Z;
  idle_thread : Z;
  sleep_list : Z;
  reap_list : Z;
  need_resched : Z;
  current_process : Z;
  timer_ticks : Z;
  cr3 : Z;
  destroyed : list Z;
}.

Definition with_pr (x : procs) (s : sched) : sched :=
  Sched x (pids s) (runq_head s) (runq_tail s) (idle_thread s) (sleep_list s) (reap_list s)
    (need_resched s) (current_process s) (timer_ticks s) (cr3 s) (destroyed s).
Definition with_pids (x : pid_state) (s : sched) : sched :=
  Sched (pr s) x (runq_head s) (runq_tail s) (idle_thread s) (sleep_list s) (reap_list s)
    (need_resched s) (current_process s) (timer_ticks s) (cr3 s) (destroyed s).
Definition with_runq (h t : Z -> Z) (s : sched) : sched :=
  Sched (pr s) (pids s) h t (idle_thread s) (sleep_list s) (reap_list s)
    (need_resched s) (current_process s) (timer_ticks s) (cr3 s) (destroyed s).
Definition with_idle (x : Z) (s : sched) : sched :=
  Sched (pr s) (pids s) (runq_head s) (runq_tail s) x (sleep_list s) (reap_list s)
    (need_resched s) (current_process s) (timer_ticks s) (cr3 s) (destroyed s).
Definition with_sleep (x : Z) (s : sched) : sched :=
  Sched (pr s) (pids s) (runq_head s) (runq_tail s) (idle_thread s) x (reap_list s)
    (need_resched s) (current_process s) (timer_ticks s) (cr3 s) (destroyed s).
Definition with_reap (x : Z) (s : sched) : sched :=
  Sched (pr s) (pids s) (runq_head s) (runq_tail s) (idle_thread s) (sleep_list s) x
    (need_resched s) (current_process s) (timer_ticks s) (cr3 s) (destroyed s).
Definition with_need (x : Z) (s : sched) : sched :=
  Sched (pr s) (pids s) (runq_head s) (runq_tail s) (idle_thread s) (sleep_list s) (reap_list s)
    x (current_process s) (timer_ticks s) (cr3 s) (destroyed s).
Definition with_current (x : Z) (s : sched) : sched :=
  Sched (pr s) (pids s) (runq_head s) (runq_tail s) (idle_thread s) (sleep_list s) (reap_list s)
    (need_resched s) x (timer_ticks s) (cr3 s) (destroyed s).
Definition with_ticks (x : Z) (s : sched) : sched :=
  Sched (pr s) (pids s) (runq_head s) (runq_tail s) (idle_thread s) (sleep_list s) (reap_list s)
    (need_resched s) (current_process s) x (cr3 s) (destroyed s).
Definition with_destroyed (a : Z) (s : sched) : sched :=
  Sched (pr s) (pids s) (runq_head s) (runq_tail s) (idle_thread s) (sleep_list s) (reap_list s)
    (need_resched s) (current_process s) (timer_ticks s) (cr3 s) (a :: destroyed s).

(** [t->f] and [t->f = v]. *)
Definition get (s : sched) (t : Z) (f : field) : Z := ps (pr s) t f.
Definition put (t : Z) (f : field) (v : Z) (s : sched) : sched :=
  with_pr (on_ps (upd t f v) (pr s)) s.

(** Apply an operation of Proc.v. *)
Definition on_pr (f : procs -> procs) (s : sched) : sched := with_pr (f (pr s)) s.

(** * Run queues *)

Definition clamp_prio (p : Z) : Z := if PRIO_LEVELS <=? p then PRIO_LEVELS - 1 else p.

Definition runq_push (t : Z) (s : sched) : sched :=
  let p := clamp_prio (get s t F_priority) in
  let s := put t F_run_next 0 s in
  if truth (runq_tail s p) then
    let s := put (runq_tail s p) F_run_next t s in
    with_runq (runq_head s) (tset (runq_tail s) p t) s
  else
    with_runq (tset (runq_head s) p t) (tset (runq_tail s) p t) s.

(** 0 when every queue is empty. *)
Definition runq_pop_highest (s : sched) : Z * sched :=
  match find_slot (Z.to_nat PRIO_LEVELS) 0 (fun p => truth (runq_head s p)) with
  | None => (0, s)
  | Some p =>
      let t := runq_head s p in
      let s := with_runq (tset (runq_head s) p (get s t F_run_next)) (runq_tail s) s in
      let s := if truth (runq_head s p) then s
               else with_runq (runq_head s) (tset (runq_tail s) p 0) s in
      (t, put t F_run_next 0 s)
  end.

(** * The core switch *)

Definition schedule (s : sched) : option sched :=
  let prev := current_process s in
  let s := if truth prev && negb (prev =? idle_thread s) && (get s prev F_state =? PROC_RUNNING)
           then runq_push prev (put prev F_state PROC_READY s) else s in
  let '(next, s) := runq_pop_highest s in
  let next := if truth next then next else idle_thread s in
  s ← (if (prev =? idle_thread s) && negb (next =? idle_thread s)
       then if truth prev then Some (put prev F_state PROC_READY s) else None
       else Some s);
  if truth prev && truth (get s prev F_stack_canary)
     && negb (get s (get s prev F_kernel_stack) F_canary_word =? STACK_CANARY_MAGIC) then None
  else if negb (truth next) then None
  else
    let s := put next F_state PROC_RUNNING s in
    let slice := get s next F_time_slice in
    let s := put next F_ticks_left (s64 (if truth slice then slice else SCHED_QUANTUM)) s in
    Some (with_current next s).

Definition thread_yield (s : sched) : option sched := schedule s.
Definition proc_yield (s : sched) : option sched := schedule s.
Definition sched_block_current (s : sched) : option sched := schedule s.

(** * Preemption control *)

Definition preempt_disable (s : sched) : sched :=
  let cur := current_process s in
  if truth cur then put cur F_preempt_count (s32 (get s cur F_preempt_count + 1)) s else s.

Definition preempt_enable (s : sched) : option sched :=
  let cur := current_process s in
  if truth cur then
    let s := put cur F_preempt_count (s32 (get s cur F_preempt_count - 1)) s in
    if (get s cur F_preempt_count =? 0) && truth (need_resched s) then thread_yield s else Some s
  else Some s.

(** * Timer integration *)

(** A [process_t**] that walks a list: the address of the list's head variable
    or of the link field of a node. *)
Inductive link := L_head | L_node (t : Z).

Definition sleep_get (s : sched) (l : link) : Z :=
  match l with L_head => sleep_list s | L_node t => get s t F_sleep_next end.
Definition sleep_put (l : link) (v : Z) (s : sched) : sched :=
  match l with L_head => with_sleep v s | L_node t => put t F_sleep_next v s end.

Fixpoint sleep_remove_from (fuel : nat) (l : link) (t : Z) (s : sched) : option sched :=
  match fuel with
  | O => None
  | S fuel =>
      let x := sleep_get s l in
      if x =? 0 then Some s
      else if x =? t then Some (put t F_sleep_next 0 (sleep_put l (get s t F_sleep_next) s))
      else sleep_remove_from fuel (L_node x) t s
  end.

Definition sleep_remove (fuel : nat) (t : Z) (s : sched) : option sched :=
  sleep_remove_from fuel L_head t s.

(** A thread becomes runnable: state, queue and the request to reschedule. *)
Definition make_ready (t : Z) (s : sched) : sched :=
  with_need 1 (runq_push t (put t F_state PROC_READY s)).

Fixpoint wake_expired_from (fuel : nat) (now : Z) (l : link) (s : sched) : option sched :=
  match fuel with
  | O => None
  | S fuel =>
      let t := sleep_get s l in
      if t =? 0 then Some s
      else if negb (get s t F_state =? PROC_BLOCKED) then
        let s := sleep_put l (get s t F_sleep_next) s in
        wake_expired_from fuel now l (put t F_sleep_next 0 s)
      else if 0 <=? s64 (now - get s t F_wake_tick) then
        let s := sleep_put l (get s t F_sleep_next) s in
        let s := put t F_sleep_next 0 s in
        let s := put t F_timed_out 1 s in
        wake_expired_from fuel now l (make_ready t s)
      else wake_expired_from fuel now (L_node t) s
  end.

Definition wake_expired_sleepers (fuel : nat) (now : Z) (s : sched) : option sched :=
  wake_expired_from fuel now L_head s.

Definition sched_tick (fuel : nat) (s : sched) : option sched :=
  s ← wake_expired_sleepers fuel (timer_ticks s) s;
  let cur := current_process s in
  if truth cur && negb (cur =? idle_thread s) then
    let s := put cur F_ticks_left (s64 (get s cur F_ticks_left - 1)) s in
    Some (if get s cur F_ticks_left <=? 0 then with_need 1 s else s)
  else if cur =? idle_thread s then
    match find_slot (Z.to_nat (PRIO_LEVELS - 1)) 0 (fun p => truth (runq_head s p)) with
    | Some _ => Some (with_need 1 s)
    | None => Some s
    end
  else Some s.

(** timer_handler (drivers/timer.c): the clock, then the scheduler. *)
Definition timer_handler (fuel : nat) (s : sched) : option sched :=
  sched_tick fuel (with_ticks (u64 (timer_ticks s + 1)) s).

Definition sched_preempt_if_needed (s : sched) : option sched :=
  let cur := current_process s in
  if truth (need_resched s) && (negb (truth cur) || (get s cur F_preempt_count =? 0))
  then schedule (with_need 0 s)
  else Some s.

(** * Wake, block and sleep *)

Definition sched_wake (t : Z) (s : sched) : sched :=
  if t =? 0 then s
  else if negb (get s t F_state =? PROC_RUNNING) && negb (get s t F_state =? PROC_READY)
  then make_ready t s else s.

Definition proc_add_to_ready (t : Z) (s : sched) : sched := sched_wake t s.

(** [cur->sleep_next = sleep_list; sleep_list = cur]. *)
Definition sleep_push (cur : Z) (s : sched) : sched :=
  with_sleep cur (put cur F_sleep_next (sleep_list s) s).

(** Nothing of sched_sleep_ticks runs after schedule() but the restore of IF. *)
Definition sched_sleep_ticks (ticks : Z) (s : sched) : option sched :=
  if ticks =? 0 then thread_yield s else
  let cur := current_process s in
  let s := put cur F_wake_tick (u64 (timer_ticks s + ticks)) s in
  let s := put cur F_state PROC_BLOCKED s in
  schedule (sleep_push cur s).

Definition sched_sleep_ms (ms : Z) (s : sched) : option sched :=
  let ticks := u64 (u64 (ms * TIMER_FREQUENCY) + 999) / 1000 in
  sched_sleep_ticks (if truth ticks then ticks else 1) s.

(** * Wait queues *)

(** A wait_queue_t: the object that embeds it and the member. *)
Definition wait_queue : Type := Z * wq_member.

Definition wq_head (s : sched) (wq : wait_queue) : Z := get s wq.1 (F_wq_head wq.2).
Definition wq_tail (s : sched) (wq : wait_queue) : Z := get s wq.1 (F_wq_tail wq.2).
Definition set_wq_head (wq : wait_queue) (v : Z) (s : sched) : sched := put wq.1 (F_wq_head wq.2) v s.
Definition set_wq_tail (wq : wait_queue) (v : Z) (s : sched) : sched := put wq.1 (F_wq_tail wq.2) v s.

Definition wq_init (wq : wait_queue) (s : sched) : sched :=
  set_wq_head wq 0 (set_wq_tail wq 0 s).

Definition wq_pop (wq : wait_queue) (s : sched) : Z * sched :=
  let t := wq_head s wq in
  if truth t then
    let s := set_wq_head wq (get s t F_wq_next) s in
    let s := if truth (wq_head s wq) then s else set_wq_tail wq 0 s in
    (t, put t F_wq_next 0 s)
  else (t, s).

(** The walk of wq_remove: [prev] is the node whose link is followed, 0 for the
    head of the queue. *)
Fixpoint wq_remove_from (fuel : nat) (wq : wait_queue) (prev t : Z) (s : sched) : option sched :=
  match fuel with
  | O => None
  | S fuel =>
      let x := if truth prev then get s prev F_wq_next else wq_head s wq in
      if x =? 0 then Some s
      else if x =? t then
        let s := if truth prev then put prev F_wq_next (get s t F_wq_next) s
                 else set_wq_head wq (get s t F_wq_next) s in
        let s := if wq_tail s wq =? t then set_wq_tail wq prev s else s in
        Some (put t F_wq_next 0 s)
      else wq_remove_from fuel wq x t s
  end.

Definition wq_remove (fuel : nat) (wq : wait_queue) (t : Z) (s : sched) : option sched :=
  wq_remove_from fuel wq 0 t s.

(** sched_wait_event up to its schedule(). *)
Definition sched_wait_enter (wq : wait_queue) (timeout : Z) (s : sched) : option sched :=
  let cur := current_process s in
  let s := put cur F_state PROC_BLOCKED s in
  let s := put cur F_timed_out 0 s in
  let s := put cur F_wq_next 0 s in
  let s := if truth (wq_tail s wq)
           then set_wq_tail wq cur (put (wq_tail s wq) F_wq_next cur s)
           else set_wq_tail wq cur (set_wq_head wq cur s) in
  let s := if truth timeout
           then sleep_push cur (put cur F_wake_tick (u64 (timer_ticks s + timeout)) s)
           else s in
  schedule s.

(** sched_wait_event from its schedule() on: [cur] is running again. 0: woken,
    1: timed out, 2: interrupted by a signal. *)
Definition sched_wait_leave (fuel : nat) (wq : wait_queue) (cur : Z) (s : sched)
  : option (Z * sched) :=
  s ← wq_remove fuel wq cur s;
  s ← sleep_remove fuel cur s;
  let timed := get s cur F_timed_out in
  let intr := get s cur F_sig_interrupt in
  let s := put cur F_sig_interrupt 0 s in
  Some (if truth intr then 2 else timed, s).

(** wq_block is sched_wait_event with no timeout, its result dropped. *)
Definition wq_block_enter (wq : wait_queue) (s : sched) : option sched := sched_wait_enter wq 0 s.

(** [all]: wq_wake_all, which goes on after a thread is made ready. *)
Fixpoint wq_wake_loop (fuel : nat) (all : bool) (wq : wait_queue) (s : sched) : option sched :=
  match fuel with
  | O => None
  | S fuel =>
      let '(t, s) := wq_pop wq s in
      if t =? 0 then Some s
      else if negb (get s t F_state =? PROC_BLOCKED) then wq_wake_loop fuel all wq s
      else
        let s := make_ready t (put t F_timed_out 0 s) in
        if all then wq_wake_loop fuel all wq s else Some s
  end.

Definition wq_wake_one (fuel : nat) (wq : wait_queue) (s : sched) : option sched :=
  wq_wake_loop fuel false wq s.
Definition wq_wake_all (fuel : nat) (wq : wait_queue) (s : sched) : option sched :=
  wq_wake_loop fuel true wq s.

(** * Thread creation *)

(** memset(t, 0, sizeof *t). *)
Definition zero_pcb (t : Z) (s : sched) : sched :=
  with_pr (on_ps (fun st q g => if q =? t then 0 else st q g) (pr s)) s.

(** The copy of at most 31 characters of a name, and its NUL. *)
Fixpoint copy_name (n : nat) (i t : Z) (name : Z -> Z) (s : sched) : sched :=
  match n with
  | O => put t (F_name i) 0 s
  | S n => if truth (name i) then copy_name n (i + 1) t name (put t (F_name i) (name i) s)
           else put t (F_name i) 0 s
  end.

(** Code addresses the kernel stores in a context. *)
Record text := Text { thread_exit_addr : Z; thread_trampoline_addr : Z }.

(** [pcb] and [stack]: what kmalloc returned for the PCB and the stack; [name]:
    the characters of the name, [None] for NULL. 0 when a resource is missing. *)
Definition thread_create (tx : text) (pcb stack : Z) (entry arg : Z) (name : option (Z -> Z))
    (priority : Z) (s : sched) : Z * sched :=
  let '(t, p) := proc_table_alloc pcb (pr s) in
  let s := with_pr p s in
  if t =? 0 then (0, s) else
  let s := zero_pcb t s in
  if stack =? 0 then (0, on_pr (proc_table_free t) s) else
  let s := put stack F_canary_word STACK_CANARY_MAGIC s in
  let '(pid, pb) := pid_alloc (pids s) in
  let s := with_pids pb s in
  if pid =? 0 then (0, on_pr (proc_table_free t) (on_pr (with_freed stack) s)) else
  let s := put t F_pid pid s in
  let s := put t F_pgid pid s in
  let s := put t F_sid pid s in
  let s := put t F_state PROC_EMBRYO s in
  let s := put t F_priority (if priority <? PRIO_LEVELS then priority else PRIO_DEFAULT) s in
  let s := put t F_kernel_stack stack s in
  let s := put t F_kernel_stack_size DEFAULT_THREAD_STACK s in
  let s := put t F_stack_canary 1 s in
  let s := put t F_time_slice SCHED_QUANTUM s in
  let s := put t F_ticks_left SCHED_QUANTUM s in
  let s := put t F_entry entry s in
  let s := put t F_entry_arg arg s in
  let s := match name with Some nm => copy_name 31 0 t nm s | None => s end in
  let top := Z.land (u64 (stack + DEFAULT_THREAD_STACK)) (2 ^ 64 - 16) - 8 in
  let s := put top F_return_slot (thread_exit_addr tx) s in
  let s := put t F_ctx_rsp top s in
  let s := put t F_ctx_rip (thread_trampoline_addr tx) s in
  let s := put t F_ctx_rflags 0x202 s in
  let s := put t F_ctx_cr3 (cr3 s) s in
  let s := put t F_ctx_cs 0x08 s in
  let s := put t F_ctx_dseg 0x10 s in
  let s := put t F_creation_time (timer_ticks s) s in
  let s := on_pr (all_list_add t) s in
  let cur := current_process s in
  let s := if truth cur
           then on_pr (proc_add_child cur t) (put t F_parent_pid (get s cur F_pid) s) else s in
  (t, make_ready t s).

Definition sched_admit (t : Z) (s : sched) : sched := make_ready t s.

(** * Reaping *)

(** The release of a thread's address space: destroyed with its last reference. *)
Definition release_aspace (t : Z) (s : sched) : sched :=
  let a := get s t F_aspace in
  if truth a then
    let s := put t F_aspace 0 s in
    if get s a F_refcount <=? 1
    then on_pr (with_freed a) (with_destroyed a s)
    else put a F_refcount (u32 (get s a F_refcount - 1)) s
  else s.

Definition reap (t : Z) (s : sched) : sched :=
  let s := on_pr (all_list_remove t) s in
  let s := release_aspace t s in
  let s := if truth (get s t F_tls)
           then put t F_tls 0 (on_pr (with_freed (get s t F_tls)) s) else s in
  let s := if truth (get s t F_kernel_stack)
           then put t F_kernel_stack 0 (on_pr (with_freed (get s t F_kernel_stack)) s) else s in
  let s := with_pids (pid_free (get s t F_pid) (pids s)) s in
  let s := put t F_reaped 1 s in
  on_pr (proc_table_free t) s.

Definition proc_reap (t : Z) (s : sched) : sched :=
  if t =? 0 then s else if truth (get s t F_reaped) then s else reap t s.

Fixpoint sched_reap_detached (fuel : nat) (s : sched) : option sched :=
  match fuel with
  | O => None
  | S fuel =>
      let t := reap_list s in
      if t =? 0 then Some s
      else sched_reap_detached fuel (reap t (with_reap (get s t F_run_next) s))
  end.

(** * Join and detach *)

(** One round of sched_join: the answer, or the thread went to sleep on the join
    queue and the round is run again when it is current. *)
Inductive join_step :=
  | Join_done (rc code retval : Z) (s : sched)
  | Join_blocked (s : sched).

Definition sched_join_check (t : Z) (s : sched) : bool :=
  truth t && negb (truth (get s t F_reaped) || truth (get s t F_detached)).

(** The loop of sched_join, after the test of [sched_join_check]. *)
Definition sched_join_round (t : Z) (s : sched) : option join_step :=
  if get s t F_state =? PROC_ZOMBIE
  then Some (Join_done 0 (get s t F_exit_code) (get s t F_retval) (reap t s))
  else s' ← wq_block_enter (t, WQ_join) s; Some (Join_blocked s').

Definition sched_join (t : Z) (s : sched) : option join_step :=
  if sched_join_check t s then sched_join_round t s else Some (Join_done (-1) 0 0 s).

Definition sched_detach (t : Z) (s : sched) : Z * sched :=
  if t =? 0 then (-1, s)
  else if truth (get s t F_reaped) then (-1, s)
  else
    let s := put t F_detached 1 s in
    (0, if get s t F_state =? PROC_ZOMBIE then reap t s else s).

(** * Start up *)

Definition sched_set_idle (t : Z) (s : sched) : sched := with_idle t s.

Definition sched_init (s : sched) : sched :=
  let clear (f : Z -> Z) := fun i => if (0 <=? i) && (i <? PRIO_LEVELS) then 0 else f i in
  with_need 0 (with_reap 0 (with_sleep 0 (with_runq (clear (runq_head s)) (clear (runq_tail s)) s))).

(** * core.c: the two threads that always exist *)

Definition IDLE_STACK_SIZE : Z := 16384.
Definition INIT_STACK_SIZE : Z := 8192.

(** The addresses of the static PCBs and stacks, and of sched_idle_loop. *)
Record boot := Boot {
  idle_pcb : Z; init_pcb : Z; idle_stack : Z; init_stack : Z; sched_idle_loop_addr : Z }.

Definition init_common (p pid : Z) (name : Z -> Z) (prio stack stack_size : Z) (s : sched) : sched :=
  let s := zero_pcb p s in
  let s := put p F_pid pid s in
  let s := put p F_pgid pid s in
  let s := put p F_sid pid s in
  let s := put p F_state PROC_READY s in
  let s := put p F_priority prio s in
  let s := put p F_kernel_stack stack s in
  let s := put p F_kernel_stack_size stack_size s in
  let s := put p F_time_slice SCHED_QUANTUM s in
  let s := put p F_ticks_left SCHED_QUANTUM s in
  let s := copy_name 31 0 p name s in
  let s := put p F_ctx_rflags 0x202 s in
  let s := put p F_ctx_cr3 (cr3 s) s in
  let s := put p F_ctx_cs 0x08 s in
  let s := put p F_ctx_dseg 0x10 s in
  put p F_creation_time (timer_ticks s) s.

Definition name_of (l : list Z) : Z -> Z := fun i => default 0 (l !! Z.to_nat i).
Definition idle_name : Z -> Z := name_of [105; 100; 108; 101].
Definition init_name : Z -> Z := name_of [105; 110; 105; 116].

(** proc_init: the tables, the idle thread (PID 0), the init thread (PID 1). *)
Definition proc_reset (s : sched) : sched :=
  let s := with_pids (pid_init (pids s)) s in
  let s := on_pr proc_table_init s in
  let s := sched_init s in
  on_pr (with_all 0 0 0) s.

Definition start_idle (b : boot) (s : sched) : sched :=
  let s := init_common (idle_pcb b) 0 idle_name PRIO_IDLE (idle_stack b) IDLE_STACK_SIZE s in
  let itop := Z.land (u64 (idle_stack b + IDLE_STACK_SIZE)) (2 ^ 64 - 16) - 8 in
  let s := put itop F_return_slot 0 s in
  let s := put (idle_pcb b) F_ctx_rsp itop s in
  let s := put (idle_pcb b) F_ctx_rip (sched_idle_loop_addr b) s in
  let s := on_pr (all_list_add (idle_pcb b)) s in
  let s := on_pr (fun p => (proc_table_insert (idle_pcb b) p).2) s in
  sched_set_idle (idle_pcb b) s.

Definition start_init (b : boot) (s : sched) : sched :=
  let s := init_common (init_pcb b) 1 init_name PRIO_DEFAULT (init_stack b) INIT_STACK_SIZE s in
  let s := on_pr (all_list_add (init_pcb b)) s in
  on_pr (fun p => (proc_table_insert (init_pcb b) p).2) s.

Definition proc_init (b : boot) (s : sched) : sched := start_init b (start_idle b (proc_reset s)).

Definition proc_become_current (b : boot) (s : sched) : sched :=
  with_current (init_pcb b) (put (init_pcb b) F_state PROC_RUNNING s).

Definition proc_get_pid (s : sched) : Z :=
  if truth (current_process s) then get s (current_process s) F_pid else 0.

Definition proc_kstack_top (p : Z) (s : sched) : Z :=
  if (p =? 0) || (get s p F_kernel_stack =? 0) then 0
  else Z.land (u64 (get s p F_kernel_stack + get s p F_kernel_stack_size)) (2 ^ 64 - 16).
