(* ===== verification/SchedInv.v ===== *)
(** The scheduler's invariant and its refinement: the run queues of sched.c as
    lists, what each routine of Sched.v does to them, and the abstract scheduler
    that schedule() implements. *)

From stdpp Require Import base numbers list gmap.
From Stdlib Require Import ZArith Lia.
From S2P Require Import Prelude Pid Proc Sched.

(** * Linked lists in the store *)

(** [l] is the list that starts at [h] and is linked through [f]. *)
Fixpoint chain (st : store) (f : field) (h : Z) (l : list Z) : Prop :=
  match l with
  | [] => h = 0
  | x :: l => h = x /\ x <> 0 /\ chain st f (st x f) l
  end.

(** The last node, 0 for the empty list: what a tail pointer holds. *)
Definition last0 (l : list Z) : Z := default 0 (last l).

Lemma chain_nonzero st f h l x : chain st f h l -> x ∈ l -> x <> 0.
Proof.
  revert h. induction l as [|y l IH]; intros h Hc Hx; [by apply elem_of_nil in Hx|].
  destruct Hc as (-> & Hy & Hc). apply elem_of_cons in Hx as [->|Hx]; [done|]. eauto.
Qed.

Lemma chain_ext st st' f h l :
  (forall x, x ∈ l -> st' x f = st x f) -> chain st f h l -> chain st' f h l.
Proof.
  revert h. induction l as [|y l IH]; intros h He Hc; [done|].
  destruct Hc as (-> & Hy & Hc). cbn. split_and!; [done|done|].
  rewrite He by apply list_elem_of_here. apply IH; [|done].
  intros x Hx. apply He. by apply list_elem_of_further.
Qed.

Lemma chain_upd st f h l t v :
  t ∉ l -> chain st f h l -> chain (upd t f v st) f h l.
Proof. intros Ht. apply chain_ext. intros x Hx. apply upd_ptr. intros ->. by apply Ht. Qed.

Lemma chain_head st f h l : chain st f h l -> truth h = match l with [] => false | _ => true end.
Proof.
  destruct l as [|x l]; cbn; [by intros ->|]. intros (-> & Hx & _). unfold truth. zcase; done.
Qed.

Lemma last0_cons x l : l <> [] -> last0 (x :: l) = last0 l.
Proof. intros. unfold last0. by destruct l. Qed.

Lemma last0_snoc l x : last0 (l ++ [x]) = x.
Proof. unfold last0. by rewrite last_snoc. Qed.

Lemma last0_in l : l <> [] -> last0 l ∈ l.
Proof.
  intros Hl. destruct (last l) as [x|] eqn:E; [|by apply last_None in E].
  unfold last0. rewrite E. cbn. apply last_Some in E as [k ->].
  apply elem_of_app. right. by apply list_elem_of_singleton.
Qed.

Lemma last0_truth st f h l :
  chain st f h l -> truth (last0 l) = match l with [] => false | _ => true end.
Proof.
  intros Hc. destruct l as [|x l]; [done|].
  assert (Hn : last0 (x :: l) <> 0) by (eapply chain_nonzero; [done|by apply last0_in]).
  unfold truth. zcase; done.
Qed.

(** Linking [t], whose own link is NULL, behind the last node. *)
Lemma chain_snoc st f h l t :
  chain st f h l -> NoDup l -> l <> [] -> t ∉ l -> t <> 0 -> st t f = 0 ->
  chain (upd (last0 l) f t st) f h (l ++ [t]).
Proof.
  revert h. induction l as [|x l IH]; intros h Hc Hnd Hl Ht Ht0 Hlink; [done|].
  destruct Hc as (-> & Hx & Hc). apply NoDup_cons in Hnd as [Hxl Hnd].
  apply not_elem_of_cons in Ht as [Htx Htl]. cbn. split_and!; [done|done|].
  destruct l as [|y l].
  - cbn in Hc. change (last0 [x]) with x. rewrite upd_eq. cbn. split_and!; [done|done|].
    rewrite upd_ptr by done. done.
  - rewrite last0_cons by done. rewrite upd_ptr.
    2:{ intros Heq. apply Hxl. rewrite Heq. by apply last0_in. }
    by apply IH.
Qed.

Lemma last_cons_nonnil {A} (x : A) d : d <> [] -> last (x :: d) = last d.
Proof. by destruct d. Qed.

(** Unlinking the node [x] behind [d]. *)
Lemma chain_unlink st f h d x r :
  chain st f h (d ++ x :: r) -> NoDup (d ++ x :: r) ->
  match last d with
  | None => h = x /\ chain (upd x f 0 st) f (st x f) r
  | Some y => st y f = x /\ chain (upd x f 0 (upd y f (st x f) st)) f h (d ++ r)
  end.
Proof.
  revert h. induction d as [|z d IH]; intros h Hc Hnd.
  - cbn in *. destruct Hc as (-> & Hx & Hc). apply NoDup_cons in Hnd as [Hxr _].
    split; [done|]. by apply chain_upd.
  - cbn in Hc. destruct Hc as (-> & Hz & Hc). cbn [app] in Hnd. apply NoDup_cons in Hnd as [Hzn Hnd].
    specialize (IH _ Hc Hnd). destruct (decide (d = [])) as [->|Hd].
    + cbn in *. destruct IH as [Hzx IH]. split; [done|]. split_and!; [done|done|].
      apply not_elem_of_cons in Hzn as [Hne Hzr].
      rewrite upd_ptr, upd_eq by done.
      eapply chain_ext; [|exact IH]. intros y Hy. unfold upd. repeat case_decide; naive_solver.
    + rewrite last_cons_nonnil by done. destruct (last d) as [y|] eqn:El; [|by apply last_None in El].
      destruct IH as [Hyx IH]. split; [done|]. cbn [app]. cbn. split_and!; [done|done|].
      assert (Hzx : z <> x).
      { intros ->. apply Hzn. apply elem_of_app. right. apply list_elem_of_here. }
      assert (Hzy : z <> y).
      { intros ->. apply Hzn. apply elem_of_app. left. apply last_Some in El as [d' ->].
        apply elem_of_app. right. apply list_elem_of_here. }
      rewrite !upd_ptr by done. exact IH.
Qed.

Lemma chain_at st f h d r : chain st f h (d ++ r) ->
  match last d with None => h | Some y => st y f end = match r with [] => 0 | x :: _ => x end.
Proof.
  revert h. induction d as [|z d IH]; intros h Hc.
  - cbn in *. destruct r as [|x r]; [done|]. by destruct Hc.
  - cbn in Hc. destruct Hc as (-> & _ & Hc). specialize (IH _ Hc).
    destruct (decide (d = [])) as [->|Hd]; [done|]. rewrite last_cons_nonnil by done.
    destruct (last d) eqn:El; [done|]. by apply last_None in El.
Qed.

Lemma chain_det st f h l1 l2 : chain st f h l1 -> chain st f h l2 -> l1 = l2.
Proof.
  revert h l2. induction l1 as [|x l1 IH]; intros h [|y l2] H1 H2; cbn in *; [done|naive_solver..|].
  destruct H1 as (-> & _ & H1), H2 as (-> & _ & H2). f_equal. eauto.
Qed.

Lemma chain_suffix st f h a x b : chain st f h (a ++ x :: b) -> chain st f x (x :: b).
Proof.
  revert h. induction a as [|y a IH]; intros h; cbn; [naive_solver|].
  intros (_ & _ & H). by apply IH in H.
Qed.

(** A list that ends in NULL has no node twice. *)
Lemma chain_NoDup st f h l : chain st f h l -> NoDup l.
Proof.
  revert h. induction l as [|x l IH]; intros h H; [apply NoDup_nil_2|].
  apply NoDup_cons. split; [|destruct H as (_ & _ & H); eauto].
  intros (a & b & ->)%list_elem_of_split.
  assert (H1 : chain st f x (x :: a ++ x :: b)) by (destruct H as (<- & Hx & H); by split_and!).
  assert (H2 : chain st f x (x :: b)) by (apply (chain_suffix st f x (x :: a) x b); exact H1).
  pose proof (chain_det _ _ _ _ _ H1 H2) as E. injection E as E.
  apply (f_equal length) in E. rewrite length_app in E. cbn in E. lia.
Qed.

Lemma last0_app a b : b <> [] -> last0 (a ++ b) = last0 b.
Proof.
  intros Hb. unfold last0. destruct (last b) as [x|] eqn:E; [|by apply last_None in E].
  apply last_Some in E as [b' ->]. by rewrite app_assoc, last_snoc.
Qed.

(** * What the run queues depend on *)

Definition sched_field (f : field) : bool :=
  match f with F_state | F_run_next | F_priority => true | _ => false end.

Definition same_ps (st st' : store) : Prop :=
  forall t f, sched_field f = true -> st' t f = st t f.

(** Two states the scheduler cannot tell apart, but for the sleep and reap
    lists and the bookkeeping of processes. *)
Record same (s s' : sched) : Prop := {
  same_ps_of : same_ps (ps (pr s)) (ps (pr s'));
  same_head : runq_head s' = runq_head s;
  same_tail : runq_tail s' = runq_tail s;
  same_idle : idle_thread s' = idle_thread s;
  same_current : current_process s' = current_process s;
}.

#[export] Instance same_refl : Reflexive same.
Proof. by constructor. Qed.

#[export] Instance same_trans : Transitive same.
Proof.
  intros s1 s2 s3 H1 H2. constructor; [|etransitivity; [apply H2|apply H1]..].
  intros t f Hf. by rewrite (same_ps_of _ _ H2), (same_ps_of _ _ H1).
Qed.

Lemma same_get s s' t f : same s s' -> sched_field f = true -> get s' t f = get s t f.
Proof. intros H. apply H. Qed.

Lemma same_ps_upd t f v st st' : sched_field f = false -> same_ps st st' -> same_ps st (upd t f v st').
Proof. intros Hf H u g Hg. rewrite upd_field by (intros ->; congruence). by apply H. Qed.

Lemma same_put t f v s : sched_field f = false -> same s (put t f v s).
Proof. intros Hf. constructor; [|done..]. by apply same_ps_upd. Qed.

Lemma same_on_pr g s : same_ps (ps (pr s)) (ps (g (pr s))) -> same s (on_pr g s).
Proof. by constructor. Qed.

Lemma same_put_r t f v s s' : sched_field f = false -> same s s' -> same s (put t f v s').
Proof. intros Hf H. etransitivity; [done|by apply same_put]. Qed.

Lemma same_on_pr_r g s s' :
  (forall p, same_ps (ps p) (ps (g p))) -> same s s' -> same s (on_pr g s').
Proof. intros Hg H. etransitivity; [done|]. by apply same_on_pr. Qed.

(** Close a goal [same s (op .. s)] for a sequence of stores the run queues do
    not depend on. *)
Ltac same_step :=
  match goal with
  | |- same ?s ?s => reflexivity
  | |- same _ (put _ _ _ _) => apply same_put_r; [reflexivity|]
  | |- same _ (set_wq_head _ _ _) => apply same_put_r; [reflexivity|]
  | |- same _ (set_wq_tail _ _ _) => apply same_put_r; [reflexivity|]
  | |- same _ (with_pids _ ?s') => transitivity s'; [|by constructor]
  | |- same _ (with_sleep _ ?s') => transitivity s'; [|by constructor]
  | |- same _ (with_reap _ ?s') => transitivity s'; [|by constructor]
  | |- same _ (with_need _ ?s') => transitivity s'; [|by constructor]
  | |- same _ (with_ticks _ ?s') => transitivity s'; [|by constructor]
  | |- same _ (with_destroyed _ ?s') => transitivity s'; [|by constructor]
  | |- same _ (on_pr _ _) => apply same_on_pr_r; [intros ?; by eauto with makh|]
  | |- same _ (if ?b then _ else _) => destruct b
  end.
Ltac same := repeat same_step.

Ltac same_ps_step :=
  match goal with
  | |- same_ps _ (ps (if ?b then _ else _)) => destruct b
  | |- same_ps _ (upd _ _ _ _) => apply same_ps_upd; [reflexivity|]
  | |- same_ps _ (ps (match ?x with _ => _ end)) => destruct x
  | |- same_ps ?a ?a => intros ? ? ?; reflexivity
  | _ => progress cbn [ps on_ps with_ps with_all with_table with_freed]
  end.

Lemma same_all_list_add t p : same_ps (ps p) (ps (all_list_add t p)).
Proof. unfold all_list_add. repeat same_ps_step. Qed.

Lemma same_all_list_remove t p : same_ps (ps p) (ps (all_list_remove t p)).
Proof. unfold all_list_remove. repeat same_ps_step. Qed.

Lemma same_proc_add_child a t p : same_ps (ps p) (ps (proc_add_child a t p)).
Proof. unfold proc_add_child. repeat same_ps_step. Qed.

Lemma same_proc_table_free t p : same_ps (ps p) (ps (proc_table_free t p)).
Proof. unfold proc_table_free. repeat same_ps_step. Qed.

Lemma same_with_freed t p : same_ps (ps p) (ps (with_freed t p)).
Proof. done. Qed.

#[export] Hint Resolve same_all_list_add same_all_list_remove same_proc_add_child
  same_proc_table_free same_with_freed : makh.

Lemma same_proc_table_alloc t p : same_ps (ps p) (ps (proc_table_alloc t p).2).
Proof. unfold proc_table_alloc. destruct (t =? 0); [done|]. by case_match. Qed.

(** * The run queues as lists *)

Definition qset (q : Z -> list Z) (p : Z) (l : list Z) : Z -> list Z :=
  fun x => if x =? p then l else q x.

Definition prio_of (s : sched) (t : Z) : Z := clamp_prio (get s t F_priority).

Definition is_prio (p : Z) : Prop := 0 <= p < PRIO_LEVELS.

(** [q p] is the FIFO of level [p]; together the queues hold exactly the READY
    threads other than idle, each once and at its own level. *)
Record runqs (s : sched) (q : Z -> list Z) : Prop := {
  rq_chain p : is_prio p -> chain (ps (pr s)) F_run_next (runq_head s p) (q p);
  rq_tail p : is_prio p -> runq_tail s p = last0 (q p);
  rq_nodup p : is_prio p -> NoDup (q p);
  rq_member p t : is_prio p -> t ∈ q p ->
    prio_of s t = p /\ get s t F_state = PROC_READY /\ t <> idle_thread s;
  rq_complete t : get s t F_state = PROC_READY -> t <> idle_thread s -> t ∈ q (prio_of s t);
  rq_prio t : 0 <= get s t F_priority;
}.

Lemma prio_of_range s q t : runqs s q -> is_prio (prio_of s t).
Proof.
  intros H. pose proof (rq_prio _ _ H t). unfold prio_of, clamp_prio, is_prio.
  change PRIO_LEVELS with 32. zcase; lia.
Qed.

(** The run queues do not depend on idle's state. *)
Lemma runqs_ext s s' q :
  (forall u, get s' u F_run_next = get s u F_run_next) ->
  (forall u, get s' u F_priority = get s u F_priority) ->
  (forall u, u <> idle_thread s -> get s' u F_state = get s u F_state) ->
  runq_head s' = runq_head s -> runq_tail s' = runq_tail s -> idle_thread s' = idle_thread s ->
  runqs s q -> runqs s' q.
Proof.
  intros Hrn Hpri Hst Hh Ht Hid H.
  assert (Hp : forall t, prio_of s' t = prio_of s t) by (intros t; unfold prio_of; by rewrite Hpri).
  constructor.
  - intros p Hr. rewrite Hh. eapply chain_ext; [intros; apply Hrn|by apply H].
  - intros p Hr. rewrite Ht. by apply H.
  - intros p Hr. by apply H.
  - intros p t Hr Hin. rewrite Hp, Hid. destruct (rq_member _ _ H p t Hr Hin) as (? & ? & ?).
    by rewrite Hst.
  - intros t. rewrite Hp, Hid. intros H1 H2. rewrite Hst in H1 by done. by apply H.
  - intros t. rewrite Hpri. by apply H.
Qed.

Lemma runqs_same s s' q : same s s' -> runqs s q -> runqs s' q.
Proof.
  intros Hs. apply runqs_ext; intros; by apply Hs || by apply same_get.
Qed.

Lemma tset_eq f i v : tset f i v i = v.
Proof. unfold tset. by rewrite Z.eqb_refl. Qed.

Lemma tset_ne f i v j : j <> i -> tset f i v j = f j.
Proof. intros. unfold tset. by destruct (Z.eqb_spec j i). Qed.

Lemma qset_eq q i l : qset q i l i = l.
Proof. unfold qset. by rewrite Z.eqb_refl. Qed.

Lemma qset_ne q i l j : j <> i -> qset q i l j = q j.
Proof. intros. unfold qset. by destruct (Z.eqb_spec j i). Qed.

(** ** Making a thread ready *)

(** The queues once [t], not queued so far, has been appended to its level. *)
Definition enqueue (s : sched) (t : Z) (q : Z -> list Z) : Z -> list Z :=
  qset q (prio_of s t) (q (prio_of s t) ++ [t]).

Lemma get_put_eq t f v s : get (put t f v s) t f = v.
Proof. apply upd_eq. Qed.

Lemma get_put_ne t f v s u g : (u, g) <> (t, f) -> get (put t f v s) u g = get s u g.
Proof. apply upd_ne. Qed.

Lemma get_put_field t f v s u g : g <> f -> get (put t f v s) u g = get s u g.
Proof. apply upd_field. Qed.

Lemma get_put_ptr t f v s u g : u <> t -> get (put t f v s) u g = get s u g.
Proof. apply upd_ptr. Qed.

Lemma get_with_current x s u f : get (with_current x s) u f = get s u f.
Proof. done. Qed.

(** runq_push: every field but [run_next] is as before. *)
Lemma runq_push_get t s u g : g <> F_run_next -> get (runq_push t s) u g = get s u g.
Proof.
  intros Hg. unfold runq_push. destruct (truth _).
  - change (get (put (runq_tail s (prio_of s t)) F_run_next t (put t F_run_next 0 s)) u g = get s u g).
    rewrite !get_put_field by done. done.
  - change (get (put t F_run_next 0 s) u g = get s u g). by rewrite get_put_field.
Qed.

Lemma runq_push_frame t s :
  idle_thread (runq_push t s) = idle_thread s
  /\ current_process (runq_push t s) = current_process s
  /\ sleep_list (runq_push t s) = sleep_list s.
Proof. unfold runq_push. by destruct (truth _). Qed.

Lemma runq_push_ticks t s : timer_ticks (runq_push t s) = timer_ticks s.
Proof. unfold runq_push. by destruct (truth _). Qed.

Lemma runq_pop_ticks s : timer_ticks (runq_pop_highest s).2 = timer_ticks s.
Proof.
  unfold runq_pop_highest. destruct (find_slot _ _ _); [|done]. cbn [snd]. by destruct (truth _).
Qed.

(** runq_push appends [t] to the chain of its level and leaves the others. *)
Lemma runq_push_chain s q t p :
  (forall p, is_prio p -> chain (ps (pr s)) F_run_next (runq_head s p) (q p)
                          /\ runq_tail s p = last0 (q p) /\ NoDup (q p) /\ t ∉ q p) ->
  (forall p p' x, is_prio p -> is_prio p' -> x ∈ q p -> x ∈ q p' -> p = p') ->
  t <> 0 -> is_prio (prio_of s t) -> is_prio p ->
  chain (ps (pr (runq_push t s))) F_run_next (runq_head (runq_push t s) p) (enqueue s t q p)
  /\ runq_tail (runq_push t s) p = last0 (enqueue s t q p).
Proof.
  intros Hq Hdis Ht0 Hpt Hp. unfold runq_push, enqueue. fold (prio_of s t).
  set (P := prio_of s t) in *. destruct (Hq P Hpt) as (HcP & HtP & HndP & HnP).
  change (runq_tail (put t F_run_next 0 s) P) with (runq_tail s P).
  rewrite HtP, (last0_truth _ _ _ _ HcP).
  assert (Hc0 : forall p, is_prio p -> chain (upd t F_run_next 0 (ps (pr s))) F_run_next (runq_head s p) (q p)).
  { intros p' Hp'. apply chain_upd; by apply Hq. }
  destruct (q P) as [|x l] eqn:EqP.
  - cbn. destruct (Z.eqb_spec p P) as [->|Hne].
    + rewrite !tset_eq, qset_eq. split; [|done]. cbn. split_and!; [done|done|apply upd_eq].
    + rewrite !tset_ne, qset_ne by done. split; [by apply Hc0|by apply Hq].
  - cbn [runq_head runq_tail with_runq put with_pr pr on_ps with_ps ps].
    destruct (Z.eqb_spec p P) as [->|Hne].
    + rewrite tset_eq, qset_eq, last0_snoc. split; [|done].
      apply chain_snoc; [rewrite <- EqP; by apply Hc0|done..|apply upd_eq].
    + rewrite tset_ne, qset_ne by done. split; [|by apply Hq].
      apply chain_upd; [|by apply Hc0]. intros Hin. apply Hne.
      apply (Hdis _ _ (last0 (x :: l))); [done|done|done|]. rewrite EqP. by apply last0_in.
Qed.

Lemma enqueue_elem s t q p u :
  u ∈ enqueue s t q p <-> u ∈ q p \/ (u = t /\ p = prio_of s t).
Proof.
  unfold enqueue. destruct (Z.eqb_spec p (prio_of s t)) as [->|Hne].
  - rewrite qset_eq, elem_of_app, list_elem_of_singleton. naive_solver.
  - rewrite qset_ne by done. naive_solver.
Qed.

(** A thread that is not READY becomes READY and goes to the tail of its level. *)
Lemma push_ready s q t :
  runqs s q -> t <> 0 -> t <> idle_thread s -> get s t F_state <> PROC_READY ->
  runqs (runq_push t (put t F_state PROC_READY s)) (enqueue s t q).
Proof.
  intros H Ht0 Hti Hts. set (s1 := put t F_state PROC_READY s).
  assert (Hn : forall p, is_prio p -> t ∉ q p).
  { intros p Hp Hin. by apply (rq_member _ _ H) in Hin as (_ & ? & _). }
  assert (Hpr : forall u, prio_of s1 u = prio_of s u).
  { intros u. unfold prio_of, s1. by rewrite get_put_field. }
  assert (Hp2 : forall u, prio_of (runq_push t s1) u = prio_of s u).
  { intros u. rewrite <- Hpr. unfold prio_of. by rewrite runq_push_get. }
  assert (Henq : enqueue s t q = enqueue s1 t q) by (unfold enqueue; by rewrite Hpr).
  assert (Hst : forall u, get (runq_push t s1) u F_state = if u =? t then PROC_READY else get s u F_state).
  { intros u. rewrite runq_push_get by done. unfold s1.
    destruct (Z.eqb_spec u t) as [->|]; [apply get_put_eq|by apply get_put_ptr]. }
  pose proof (runq_push_frame t s1) as (Hid & _ & _).
  assert (Hch : forall p, is_prio p -> _) by
    (intros p Hp; apply (runq_push_chain s1 q t p);
      [intros p' Hp'; split_and!; [apply chain_ext with (ps (pr s)); [intros; by apply upd_field|]|..];
        first [by apply H | by apply Hn]
      |intros p1 p2 x Hp1 Hp2' Hx1 Hx2; apply (rq_member _ _ H) in Hx1 as [<- _], Hx2 as [<- _]; done
      |done|rewrite Hpr; by eapply prio_of_range|done]).
  constructor.
  - intros p Hp. rewrite Henq. by apply Hch.
  - intros p Hp. rewrite Henq. by apply Hch.
  - intros p Hp. unfold enqueue. destruct (Z.eqb_spec p (prio_of s t)) as [->|].
    + rewrite qset_eq. apply NoDup_app. split_and!; [by apply H| |apply NoDup_singleton].
      intros x Hx ->%list_elem_of_singleton. by apply (Hn (prio_of s t)).
    + rewrite qset_ne by done. by apply H.
  - intros p u Hp Hu. rewrite Hp2, Hid, Hst. apply enqueue_elem in Hu as [Hu|[-> ->]].
    + destruct (rq_member _ _ H p u Hp Hu) as (? & ? & ?). split_and!; [done| |done].
      by destruct (u =? t).
    + rewrite Z.eqb_refl. done.
  - intros u Hu Hui. rewrite Hp2, enqueue_elem. rewrite Hst in Hu.
    destruct (Z.eqb_spec u t) as [E|E]; [right; by rewrite E|left].
    apply (rq_complete _ _ H); [done|]. by rewrite Hid in Hui.
  - intros u. rewrite runq_push_get by done. unfold s1. rewrite get_put_field by done. apply H.
Qed.

(** ** Taking the first thread of the best level *)

(** The best level that is not empty. *)
Definition highest (q : Z -> list Z) : option Z :=
  find_slot (Z.to_nat PRIO_LEVELS) 0 (fun p => match q p with [] => false | _ => true end).

Lemma highest_slot s q :
  runqs s q ->
  find_slot (Z.to_nat PRIO_LEVELS) 0 (fun p => truth (runq_head s p)) = highest q.
Proof.
  intros H. apply find_slot_ext. intros p Hp. eapply chain_head. apply H.
  unfold is_prio. change (Z.of_nat (Z.to_nat PRIO_LEVELS)) with PRIO_LEVELS in Hp. lia.
Qed.

Lemma highest_Some q p :
  highest q = Some p ->
  is_prio p /\ (exists t l, q p = t :: l) /\ (forall p', 0 <= p' < p -> q p' = []).
Proof.
  intros (Hr & Hp & Hlt)%find_slot_Some. split; [|split].
  - unfold is_prio. change (Z.of_nat (Z.to_nat PRIO_LEVELS)) with PRIO_LEVELS in Hr. lia.
  - destruct (q p) as [|t l]; [done|eauto].
  - intros p' Hp'. specialize (Hlt p' Hp'). by destruct (q p').
Qed.

Lemma highest_None q p : highest q = None -> is_prio p -> q p = [].
Proof.
  intros H Hp. assert (Hf := find_slot_None _ _ _ p H Hp). cbn in Hf. by destruct (q p).
Qed.

Lemma pop_empty s q : runqs s q -> highest q = None -> runq_pop_highest s = (0, s).
Proof. intros H Hh. unfold runq_pop_highest. by rewrite (highest_slot s q H), Hh. Qed.

(** What runq_pop_highest returns and leaves. *)
Lemma pop_effect s q p t l :
  runqs s q -> highest q = Some p -> q p = t :: l ->
  exists s', runq_pop_highest s = (t, s')
    /\ (forall u g, g <> F_run_next -> get s' u g = get s u g)
    /\ (forall u, u <> t -> get s' u F_run_next = get s u F_run_next)
    /\ runq_head s' = tset (runq_head s) p (get s t F_run_next)
    /\ (forall p', is_prio p' -> runq_tail s' p' = last0 (qset q p l p'))
    /\ idle_thread s' = idle_thread s /\ sleep_list s' = sleep_list s.
Proof.
  intros H Hh Hq. unfold runq_pop_highest. rewrite (highest_slot s q H), Hh.
  apply highest_Some in Hh as (Hp & _ & _).
  pose proof (rq_chain _ _ H p Hp) as Hc. rewrite Hq in Hc. destruct Hc as (Hhd & Ht0 & Hc).
  rewrite Hhd. eexists. split; [reflexivity|].
  cbn [runq_head with_runq]. rewrite tset_eq. split_and!.
  - intros u g Hg. rewrite get_put_field by done. by destruct (truth _).
  - intros u Hu. rewrite get_put_ptr by done. by destruct (truth _).
  - by destruct (truth _).
  - intros p' Hp'. change (get s t F_run_next) with (ps (pr s) t F_run_next).
    rewrite (chain_head _ _ _ _ Hc). pose proof (rq_tail _ _ H p' Hp') as Htl.
    destruct (Z.eqb_spec p' p) as [->|Hne].
    + rewrite qset_eq. rewrite Hq in Htl. destruct l as [|y l]; cbn; [by rewrite tset_eq|].
      by rewrite last0_cons in Htl.
    + rewrite qset_ne by done. destruct l; cbn; [by rewrite tset_ne|done].
  - by destruct (truth _).
  - by destruct (truth _).
Qed.

(** The queues after [t] has been taken off and its state changed; idle's state
    does not matter. *)
Lemma pop_runqs s q p t l s'' :
  runqs s q -> is_prio p -> q p = t :: l ->
  (forall u, u <> t -> get s'' u F_run_next = get s u F_run_next) ->
  (forall u, get s'' u F_priority = get s u F_priority) ->
  runq_head s'' = tset (runq_head s) p (get s t F_run_next) ->
  (forall p', is_prio p' -> runq_tail s'' p' = last0 (qset q p l p')) ->
  idle_thread s'' = idle_thread s ->
  (forall u, u <> t -> u <> idle_thread s -> get s'' u F_state = get s u F_state) ->
  get s'' t F_state <> PROC_READY ->
  runqs s'' (qset q p l).
Proof.
  intros H Hp Hq Hrn Hpri Hhd Htl Hid Hst Hts.
  pose proof (rq_chain _ _ H p Hp) as Hc. rewrite Hq in Hc. destruct Hc as (Hh & Ht0 & Hc).
  pose proof (rq_nodup _ _ H p Hp) as Hnd. rewrite Hq in Hnd. apply NoDup_cons in Hnd as [Htl' Hnd].
  assert (Hpr : forall u, prio_of s'' u = prio_of s u) by (intros u; unfold prio_of; by rewrite Hpri).
  assert (Hsub : forall p' u, is_prio p' -> u ∈ qset q p l p' -> u ∈ q p' /\ u <> t).
  { intros p' u Hp' Hu. destruct (Z.eqb_spec p' p) as [->|Hne].
    - rewrite qset_eq in Hu. rewrite Hq. split; [by apply list_elem_of_further|congruence].
    - rewrite qset_ne in Hu by done. split; [done|]. intros ->. apply Hne.
      destruct (rq_member _ _ H p' t Hp' Hu) as [<- _].
      destruct (rq_member _ _ H p t Hp) as [<- _]; [|done]. rewrite Hq. apply list_elem_of_here. }
  constructor.
  - intros p' Hp'. rewrite Hhd. eapply chain_ext.
    { intros x Hx. apply Hrn. by apply (Hsub p'). }
    destruct (Z.eqb_spec p' p) as [->|Hne].
    + rewrite tset_eq, qset_eq. exact Hc.
    + rewrite tset_ne, qset_ne by done. by apply H.
  - done.
  - intros p' Hp'. destruct (Z.eqb_spec p' p) as [->|Hne].
    + by rewrite qset_eq.
    + rewrite qset_ne by done. by apply H.
  - intros p' u Hp' Hu. apply Hsub in Hu as [Hu Hut]; [|done]. rewrite Hpr, Hid.
    destruct (rq_member _ _ H p' u Hp' Hu) as (? & ? & ?). rewrite Hst by done. done.
  - intros u Hu Hui. rewrite Hid in Hui. rewrite Hpr. assert (Hut : u <> t) by congruence.
    rewrite Hst in Hu by done. pose proof (rq_complete _ _ H u Hu Hui) as Hin.
    destruct (Z.eqb_spec (prio_of s u) p) as [Epu|Hne].
    + rewrite Epu, qset_eq. rewrite Epu, Hq in Hin. by apply elem_of_cons in Hin as [?|?].
    + by rewrite qset_ne.
  - intros u. rewrite Hpri. apply H.
Qed.

(** * The invariant *)

(** A thread is RUNNING exactly when it is current; idle is READY when it is not. *)
Record ok (s : sched) (q : Z -> list Z) : Prop := {
  ok_runqs : runqs s q;
  ok_running t : get s t F_state = PROC_RUNNING <-> t = current_process s;
  ok_current : current_process s <> 0;
  ok_idle0 : idle_thread s <> 0;
  ok_idle : idle_thread s <> current_process s -> get s (idle_thread s) F_state = PROC_READY;
}.

(** The state schedule() is called in: the current thread may have left RUNNING
    for a state that is not READY. *)
Record mid (s : sched) (q : Z -> list Z) : Prop := {
  mid_runqs : runqs s q;
  mid_running t : get s t F_state = PROC_RUNNING -> t = current_process s;
  mid_current : current_process s <> 0;
  mid_state : get s (current_process s) F_state <> PROC_READY;
  mid_idle0 : idle_thread s <> 0;
  mid_idle : idle_thread s <> current_process s -> get s (idle_thread s) F_state = PROC_READY;
}.

Definition sched_ok (s : sched) : Prop := exists q, ok s q.

Lemma ok_mid s q : ok s q -> mid s q.
Proof.
  intros H. constructor; try apply H.
  rewrite (proj2 (ok_running _ _ H _) eq_refl). done.
Qed.

Lemma ok_same s s' q : same s s' -> ok s q -> ok s' q.
Proof.
  intros Hs H. constructor; rewrite ?(same_current _ _ Hs), ?(same_idle _ _ Hs).
  - eapply runqs_same; [done|apply H].
  - intros t. rewrite (same_get s s') by done. apply H.
  - apply H.
  - apply H.
  - rewrite (same_get s s') by done. apply H.
Qed.

Lemma mid_same s s' q : same s s' -> mid s q -> mid s' q.
Proof.
  intros Hs H. constructor; rewrite ?(same_current _ _ Hs), ?(same_idle _ _ Hs),
    ?(same_get s s') by done; try apply H.
  - eapply runqs_same; [done|apply H].
  - intros t. rewrite (same_get s s') by done. apply H.
Qed.

Lemma sched_ok_same s s' : same s s' -> sched_ok s -> sched_ok s'.
Proof. intros Hs [q H]. exists q. by eapply ok_same. Qed.

(** * The abstract scheduler *)

(** The outgoing thread is still runnable and is not idle. *)
Definition runnable (s : sched) : bool :=
  truth (current_process s) && negb (current_process s =? idle_thread s)
  && (get s (current_process s) F_state =? PROC_RUNNING).

(** The queues with the outgoing thread behind its peers if it is runnable. *)
Definition requeue (s : sched) (q : Z -> list Z) : Z -> list Z :=
  if runnable s then enqueue s (current_process s) q else q.

(** The first thread of the best level, idle when there is none. *)
Definition pick (s : sched) (q : Z -> list Z) : Z :=
  match highest q with Some p => default 0 (head (q p)) | None => idle_thread s end.

Definition rest (q : Z -> list Z) : Z -> list Z :=
  match highest q with Some p => qset q p (tail (q p)) | None => q end.

(** The bottom of the outgoing thread's stack is intact. *)
Definition canary_ok (s : sched) : bool :=
  negb (truth (current_process s) && truth (get s (current_process s) F_stack_canary)
        && negb (get s (get s (current_process s) F_kernel_stack) F_canary_word =? STACK_CANARY_MAGIC)).

(** Fields schedule() does not write. *)
Definition kept (f : field) : bool :=
  match f with F_state | F_run_next | F_ticks_left => false | _ => true end.

(** The first part of schedule(): the outgoing thread goes back to its queue. *)
Definition requeued (s : sched) : sched :=
  if runnable s then runq_push (current_process s) (put (current_process s) F_state PROC_READY s) else s.

Lemma requeued_frame s :
  idle_thread (requeued s) = idle_thread s /\ sleep_list (requeued s) = sleep_list s
  /\ (forall u f, f <> F_state -> f <> F_run_next -> get (requeued s) u f = get s u f)
  /\ (forall u, get (requeued s) u F_state
        = if runnable s && (u =? current_process s) then PROC_READY else get s u F_state).
Proof.
  unfold requeued. destruct (runnable s); [|by split_and!].
  pose proof (runq_push_frame (current_process s) (put (current_process s) F_state PROC_READY s)) as (-> & _ & ->).
  split_and!; [done|done|..].
  - intros. rewrite runq_push_get, get_put_field by done. done.
  - intros u. rewrite runq_push_get by done. cbn.
    destruct (Z.eqb_spec u (current_process s)) as [->|]; [apply get_put_eq|by apply get_put_ptr].
Qed.

Lemma requeued_runqs s q : mid s q -> runqs (requeued s) (requeue s q).
Proof.
  intros H. unfold requeued, requeue. destruct (runnable s) eqn:E; [|apply H].
  unfold runnable in E. apply andb_true_iff in E as [E Hst]. apply andb_true_iff in E as [_ Hid].
  apply push_ready; [apply H|apply H| |].
  - intros Heq. rewrite Heq, Z.eqb_refl in Hid. done.
  - apply Z.eqb_eq in Hst. by rewrite Hst.
Qed.

(** The second part of schedule(), from the choice of the next thread on. *)
Definition switch_to (prev next : Z) (s : sched) : option sched :=
  s ← (if (prev =? idle_thread s) && negb (next =? idle_thread s)
       then if truth prev then Some (put prev F_state PROC_READY s) else None
       else Some s);
  if truth prev && truth (get s prev F_stack_canary)
     && negb (get s (get s prev F_kernel_stack) F_canary_word =? STACK_CANARY_MAGIC) then None
  else if negb (truth next) then None
  else
    let s := put next F_state PROC_RUNNING s in
    let slice := get s next F_time_slice in
    let s := put next F_ticks_left (s64 (if truth slice then slice else SCHED_QUANTUM)) s in
    Some (with_current next s).

Lemma schedule_split s :
  schedule s = switch_to (current_process s)
                 (if truth (runq_pop_highest (requeued s)).1 then (runq_pop_highest (requeued s)).1
                  else idle_thread (runq_pop_highest (requeued s)).2)
                 (runq_pop_highest (requeued s)).2.
Proof.
  unfold schedule, switch_to, requeued, runnable.
  by destruct (runq_pop_highest _) as [next s2].
Qed.

(** What switch_to does when the stack is intact and there is a thread to run. *)
Lemma switch_to_effect prev next s :
  truth prev = true -> next <> 0 ->
  negb (truth (get s prev F_stack_canary)
        && negb (get s (get s prev F_kernel_stack) F_canary_word =? STACK_CANARY_MAGIC)) = true ->
  exists s', switch_to prev next s = Some s' /\ current_process s' = next
    /\ runq_head s' = runq_head s /\ runq_tail s' = runq_tail s /\ idle_thread s' = idle_thread s
    /\ sleep_list s' = sleep_list s /\ timer_ticks s' = timer_ticks s
    /\ (forall u f, f <> F_state -> f <> F_ticks_left -> get s' u f = get s u f)
    /\ get s' next F_ticks_left
       = s64 (if truth (get s next F_time_slice) then get s next F_time_slice else SCHED_QUANTUM)
    /\ (forall u, get s' u F_state = if u =? next then PROC_RUNNING
          else if (u =? prev) && (prev =? idle_thread s) then PROC_READY else get s u F_state).
Proof.
  intros Hp Hn Hcan. unfold switch_to. rewrite Hp.
  set (b := (prev =? idle_thread s) && negb (next =? idle_thread s)).
  set (s1 := if b then put prev F_state PROC_READY s else s).
  assert (E1 : (if b then Some (put prev F_state PROC_READY s) else Some s) = Some s1)
    by (unfold s1; by destruct b).
  rewrite E1. cbn [mbind option_bind].
  assert (Hg : forall u f, f <> F_state -> get s1 u f = get s u f).
  { intros u f Hf. unfold s1. destruct b; [by apply get_put_field|done]. }
  rewrite !Hg by done. apply negb_true_iff in Hcan. rewrite andb_true_l, Hcan.
  assert (Hn' : truth next = true) by (unfold truth; zcase; done). rewrite Hn'. cbn [negb].
  eexists. split; [reflexivity|]. rewrite !get_put_field by done. rewrite !Hg by done.
  assert (Hs1 : runq_head s1 = runq_head s /\ runq_tail s1 = runq_tail s /\ idle_thread s1 = idle_thread s
          /\ sleep_list s1 = sleep_list s /\ timer_ticks s1 = timer_ticks s)
    by (unfold s1; by destruct b).
  destruct Hs1 as (H1 & H2 & H3 & H4 & H5).
  split_and!; [done|exact H1|exact H2|exact H3|exact H4|exact H5|..].
  - intros u f Hf1 Hf2. rewrite get_with_current.
    rewrite !get_put_field by done. by apply Hg.
  - apply get_put_eq.
  - intros u. rewrite get_with_current.
    rewrite get_put_field by done. destruct (Z.eqb_spec u next) as [->|Hu]; [apply get_put_eq|].
    rewrite get_put_ptr by done. unfold s1, b.
    destruct (Z.eqb_spec prev (idle_thread s)) as [Ep|]; cbn; [|by rewrite andb_false_r].
    rewrite andb_true_r. destruct (Z.eqb_spec next (idle_thread s)) as [En|]; cbn.
    + destruct (Z.eqb_spec u prev) as [->|]; [congruence|done].
    + destruct (Z.eqb_spec u prev) as [->|]; [apply get_put_eq|by apply get_put_ptr].
Qed.

(** The states after the switch make the invariant hold. *)
Lemma switch_ok s q next s' q' :
  mid s q -> runqs s' q' -> next <> 0 ->
  current_process s' = next -> idle_thread s' = idle_thread s ->
  (forall u, get s' u F_state = if u =? next then PROC_RUNNING
     else if (u =? current_process s) && (current_process s =? idle_thread s) then PROC_READY
     else if runnable s && (u =? current_process s) then PROC_READY else get s u F_state) ->
  ok s' q'.
Proof.
  intros H Hq Hn Hcur Hid Hst. constructor; [done|..].
  - intros t. rewrite Hst, Hcur. destruct (Z.eqb_spec t next) as [->|Ht]; [done|]. split; [|done].
    destruct (Z.eqb_spec t (current_process s)) as [->|Htc]; cbn [andb].
    + destruct (Z.eqb_spec (current_process s) (idle_thread s)) as [|Hci]; [done|].
      rewrite andb_true_r. unfold runnable. destruct (Z.eqb_spec (current_process s) (idle_thread s)); [done|].
      unfold truth. destruct (Z.eqb_spec (current_process s) 0) as [E|_]; [by apply (mid_current _ _ H) in E|].
      cbn. destruct (Z.eqb_spec (get s (current_process s) F_state) PROC_RUNNING); [done|congruence].
    + rewrite andb_false_r. intros E. by apply (mid_running _ _ H) in E.
  - congruence.
  - rewrite Hid. apply H.
  - rewrite Hid, Hcur, Hst. intros Hne. destruct (Z.eqb_spec (idle_thread s) next) as [|_]; [done|].
    destruct (Z.eqb_spec (idle_thread s) (current_process s)) as [E|Hic]; cbn [andb].
    + rewrite <- E, Z.eqb_refl. done.
    + rewrite andb_false_r. by apply (mid_idle _ _ H).
Qed.

Lemma canary_requeued s :
  truth (current_process s) = true -> canary_ok s = true ->
  negb (truth (get (requeued s) (current_process s) F_stack_canary)
        && negb (get (requeued s) (get (requeued s) (current_process s) F_kernel_stack) F_canary_word
                 =? STACK_CANARY_MAGIC)) = true.
Proof.
  intros Ht Hcan. destruct (requeued_frame s) as (_ & _ & Hk & _). rewrite !Hk by done.
  unfold canary_ok in Hcan. by rewrite Ht in Hcan.
Qed.

(** The state of the threads after schedule(): [next] runs, the outgoing thread
    is READY if it was runnable or idle, the others are as before. *)
Definition switched_state (s : sched) (next u : Z) : Z :=
  if u =? next then PROC_RUNNING
  else if (u =? current_process s) && (current_process s =? idle_thread s) then PROC_READY
  else if runnable s && (u =? current_process s) then PROC_READY else get s u F_state.

(** What schedule() does from the choice of [next] on. *)
Record switched (s : sched) (next : Z) (q : Z -> list Z) (s' : sched) : Prop := {
  sw_current : current_process s' = next;
  sw_ok : ok s' q;
  sw_idle : idle_thread s' = idle_thread s;
  sw_sleep : sleep_list s' = sleep_list s;
  sw_ticks : timer_ticks s' = timer_ticks s;
  sw_kept u f : kept f = true -> get s' u f = get s u f;
  sw_state u : get s' u F_state = switched_state s next u;
  sw_quantum : get s' next F_ticks_left
    = s64 (if truth (get s next F_time_slice) then get s next F_time_slice else SCHED_QUANTUM);
}.

Lemma requeued_ticks s : timer_ticks (requeued s) = timer_ticks s.
Proof. unfold requeued. destruct (runnable s); [by rewrite runq_push_ticks|done]. Qed.

Lemma current_truth s q : mid s q -> truth (current_process s) = true.
Proof. intros H. pose proof (mid_current _ _ H). unfold truth; zcase; done. Qed.

(** A queue is not empty: its first thread runs. *)
Lemma schedule_pop s q p t l :
  mid s q -> canary_ok s = true -> highest (requeue s q) = Some p -> requeue s q p = t :: l ->
  exists s', schedule s = Some s' /\ switched s t (qset (requeue s q) p l) s'.
Proof.
  intros H Hcan Eh Hpl. pose proof (requeued_runqs s q H) as Hq1.
  destruct (requeued_frame s) as (Hid & Hsl & Hkeep & Hstate). pose proof (current_truth _ _ H) as Ht.
  pose proof (canary_requeued s Ht Hcan) as Hcan1. rewrite schedule_split.
  pose proof (highest_Some _ _ Eh) as (Hp & _ & _).
  destruct (pop_effect _ _ _ _ _ Hq1 Eh Hpl) as (s2 & Epop & Hg & Hrn & Hhd & Htl & Hid2 & Hsl2).
  pose proof (runq_pop_ticks (requeued s)) as Htk2. rewrite Epop in *. cbn [fst snd] in *.
  assert (Ht0 : t <> 0).
  { eapply chain_nonzero; [by apply Hq1|]. rewrite Hpl. apply list_elem_of_here. }
  assert (Htt : truth t = true) by (unfold truth; zcase; done). rewrite Htt.
  rewrite <- !Hg in Hcan1 by done.
  destruct (switch_to_effect _ t _ Ht Ht0 Hcan1) as
    (s' & Hsw & Hc' & Hh' & Ht' & Hi' & Hsl' & Htk' & Hk' & Hq' & Hst').
  assert (Hst : forall u, get s' u F_state = switched_state s t u).
  { intros u. rewrite Hst', Hid2, Hid. unfold switched_state. by rewrite Hg, Hstate. }
  exists s'. split; [exact Hsw|]. constructor; [done|..|exact Hst|].
  - eapply switch_ok with (next := t); [exact H| |done|done|by rewrite Hi', Hid2|exact Hst].
    eapply pop_runqs; [exact Hq1|exact Hp|exact Hpl|..|by rewrite Hst', Z.eqb_refl].
    + intros u Hu. rewrite Hk' by done. by apply Hrn.
    + intros u. rewrite Hk', Hg by done. done.
    + by rewrite Hh'.
    + intros p' Hp'. rewrite Ht'. by apply Htl.
    + by rewrite Hi', Hid2.
    + intros u Hu Hui. rewrite Hst', Hg by done. destruct (Z.eqb_spec u t) as [|_]; [done|].
      destruct (Z.eqb_spec u (current_process s)) as [E|_]; [|done]. cbn [andb].
      destruct (Z.eqb_spec (current_process s) (idle_thread s2)) as [E2|_]; [|done].
      exfalso. apply Hui. by rewrite E, E2, Hid2.
  - by rewrite Hi', Hid2.
  - by rewrite Hsl', Hsl2.
  - by rewrite Htk', Htk2, requeued_ticks.
  - intros u f Hf. destruct f; try discriminate Hf; rewrite Hk', Hg, Hkeep by done; done.
  - rewrite Hq', !Hg, !Hkeep by done. done.
Qed.

(** Every queue is empty: idle runs. *)
Lemma schedule_idle s q :
  mid s q -> canary_ok s = true -> highest (requeue s q) = None ->
  exists s', schedule s = Some s' /\ switched s (idle_thread s) (requeue s q) s'.
Proof.
  intros H Hcan Eh. pose proof (requeued_runqs s q H) as Hq1.
  destruct (requeued_frame s) as (Hid & Hsl & Hkeep & Hstate). pose proof (current_truth _ _ H) as Ht.
  pose proof (canary_requeued s Ht Hcan) as Hcan1. rewrite schedule_split.
  rewrite (pop_empty _ _ Hq1 Eh). cbn [fst snd truth Z.eqb negb]. rewrite Hid.
  destruct (switch_to_effect _ (idle_thread s) _ Ht (mid_idle0 _ _ H) Hcan1) as
    (s' & Hsw & Hc' & Hh' & Ht' & Hi' & Hsl' & Htk' & Hk' & Hq' & Hst').
  assert (Hst : forall u, get s' u F_state = switched_state s (idle_thread s) u).
  { intros u. rewrite Hst', Hid. unfold switched_state. by rewrite Hstate. }
  exists s'. split; [exact Hsw|]. constructor; [done|..|exact Hst|].
  - eapply switch_ok with (next := idle_thread s); [exact H| |apply H|done|by rewrite Hi', Hid|exact Hst].
    eapply runqs_ext; [..|exact Hq1]; [intros; by apply Hk'..| |exact Hh'|exact Ht'|exact Hi'].
    intros u Hu. rewrite Hid in Hu. rewrite Hst', Hid.
    destruct (Z.eqb_spec u (idle_thread s)) as [|_]; [done|].
    destruct (Z.eqb_spec u (current_process s)) as [E|_]; [|done]. cbn [andb].
    destruct (Z.eqb_spec (current_process s) (idle_thread s)) as [E2|_]; [|done]. congruence.
  - by rewrite Hi', Hid.
  - by rewrite Hsl', Hsl.
  - by rewrite Htk', requeued_ticks.
  - intros u f Hf. destruct f; try discriminate Hf; rewrite Hk', Hkeep by done; done.
  - rewrite Hq', !Hkeep by done. done.
Qed.

(** schedule() implements the abstract scheduler: the outgoing thread, if it is
    runnable, goes behind its peers, the first thread of the best level runs with
    a full quantum, and the invariant holds again. *)
Lemma schedule_spec s q :
  mid s q -> canary_ok s = true ->
  exists s', schedule s = Some s' /\ switched s (pick s (requeue s q)) (rest (requeue s q)) s'.
Proof.
  intros H Hcan. unfold pick, rest. destruct (highest (requeue s q)) as [p|] eqn:Eh.
  - pose proof (highest_Some _ _ Eh) as (_ & (t & l & Hpl) & _). rewrite Hpl. cbn [tail head default].
    by apply schedule_pop.
  - by apply schedule_idle.
Qed.

Lemma pop_get s u g : g <> F_run_next -> get (runq_pop_highest s).2 u g = get s u g.
Proof.
  intros Hg. unfold runq_pop_highest. destruct (find_slot _ _ _); [|done]. cbn [snd].
  rewrite get_put_field by done. by destruct (truth _).
Qed.

(** A smashed canary is caught: no switch takes place. *)
Lemma schedule_canary s : canary_ok s = false -> schedule s = None.
Proof.
  intros Hcan. rewrite schedule_split. unfold switch_to.
  set (s2 := (runq_pop_highest (requeued s)).2).
  match goal with |- context [if ?b then if truth _ then _ else None else _] => set (c := b) end.
  assert (Hg : forall u g, g <> F_run_next -> g <> F_state -> get s2 u g = get s u g).
  { intros u g H1 H2. unfold s2. rewrite pop_get by done.
    destruct (requeued_frame s) as (_ & _ & Hk & _). by apply Hk. }
  unfold canary_ok in Hcan. apply negb_false_iff in Hcan.
  destruct c; [destruct (truth (current_process s)); [|done]|]; cbn [mbind option_bind].
  - rewrite !get_put_field by done. rewrite !Hg by done. by rewrite Hcan.
  - rewrite !Hg by done. by rewrite Hcan.
Qed.

Lemma schedule_ok s q s' : mid s q -> schedule s = Some s' -> sched_ok s'.
Proof.
  intros H Hs. destruct (canary_ok s) eqn:Hc; [|by rewrite schedule_canary in Hs].
  destruct (schedule_spec s q H Hc) as (s1 & E & Hok%sw_ok). rewrite E in Hs.
  injection Hs as <-. by eexists.
Qed.

(** * The invariant and the routines *)

Lemma yield_ok s s' : sched_ok s -> schedule s = Some s' -> sched_ok s'.
Proof. intros [q H]. eapply schedule_ok. by apply ok_mid. Qed.

(** A thread that is neither READY nor RUNNING is made ready. *)
Lemma make_ready_ok t s :
  sched_ok s -> t <> 0 -> get s t F_state <> PROC_READY -> get s t F_state <> PROC_RUNNING ->
  sched_ok (make_ready t s).
Proof.
  intros [q H] Ht0 Hr Hu. exists (enqueue s t q). unfold make_ready.
  apply ok_same with (runq_push t (put t F_state PROC_READY s)); [same|].
  assert (Htc : t <> current_process s) by (intros ->; by rewrite (ok_running _ _ H) in Hu).
  assert (Hti : t <> idle_thread s).
  { intros ->. apply Hr. by apply (ok_idle _ _ H). }
  pose proof (runq_push_frame t (put t F_state PROC_READY s)) as (Hid & Hcur & _).
  constructor.
  - apply push_ready; [apply H|done..].
  - intros u. rewrite runq_push_get, Hcur by done. destruct (Z.eqb_spec u t) as [->|Hne].
    + rewrite get_put_eq. split; [done|]. intros E. by rewrite E in Htc.
    + rewrite get_put_ptr by done. apply H.
  - rewrite Hcur. apply H.
  - rewrite Hid. apply H.
  - rewrite Hid, Hcur, runq_push_get by done. intros Hne. cbn.
    change (get (put t F_state PROC_READY s) (idle_thread s) F_state = PROC_READY).
    rewrite get_put_ptr by done. by apply (ok_idle _ _ H).
Qed.

(** The current thread leaves RUNNING. *)
Lemma block_mid v s q :
  ok s q -> v <> PROC_READY -> v <> PROC_RUNNING -> mid (put (current_process s) F_state v s) q.
Proof.
  intros H Hr Hu. set (c := current_process s) in *. constructor.
  - assert (Hn : forall p, is_prio p -> c ∉ q p).
    { intros p Hp Hin. apply (rq_member _ _ (ok_runqs _ _ H)) in Hin as (_ & Hst & _); [|done].
      by rewrite (proj2 (ok_running _ _ H c) eq_refl) in Hst. }
    destruct (ok_runqs _ _ H) as [H1 H2 H3 H4 H5 H6]. constructor.
    + intros p Hp. eapply chain_ext; [|by apply H1]. intros. by apply upd_field.
    + done.
    + done.
    + intros p t Hp Hin. unfold prio_of. rewrite get_put_field by done.
      rewrite get_put_ptr; [by apply H4|]. intros ->. by apply (Hn p).
    + intros t. unfold prio_of. rewrite (get_put_field _ _ _ _ _ F_priority) by done.
      destruct (Z.eqb_spec t c) as [->|]; [by rewrite get_put_eq|]. rewrite get_put_ptr by done. apply H5.
    + intros t. rewrite get_put_field by done. apply H6.
  - intros t. destruct (Z.eqb_spec t c) as [->|]; [done|]. rewrite get_put_ptr by done. apply H.
  - apply H.
  - change (get (put c F_state v s) c F_state <> PROC_READY). by rewrite get_put_eq.
  - apply H.
  - intros Hne. change (get (put c F_state v s) (idle_thread s) F_state = PROC_READY).
    rewrite get_put_ptr by done. by apply (ok_idle _ _ H).
Qed.

Lemma block_ok v s s' :
  sched_ok s -> v <> PROC_READY -> v <> PROC_RUNNING ->
  forall s1, same (put (current_process s) F_state v s) s1 -> schedule s1 = Some s' -> sched_ok s'.
Proof.
  intros [q H] Hr Hu s1 Hsame Hs. apply (schedule_ok s1 q); [|done].
  eapply mid_same; [done|]. by apply block_mid.
Qed.

(** Becoming ready out of BLOCKED, after stores the queues do not depend on. *)
Lemma wake_blocked_ok t s s1 :
  sched_ok s -> t <> 0 -> get s t F_state = PROC_BLOCKED -> same s s1 -> sched_ok (make_ready t s1).
Proof.
  intros H Ht0 Hst Hsame. apply make_ready_ok; [by eapply sched_ok_same|done|..];
    by rewrite (same_get _ _ _ _ Hsame), Hst.
Qed.

Lemma preempt_disable_ok s : sched_ok s -> sched_ok (preempt_disable s).
Proof. apply sched_ok_same. unfold preempt_disable. same. Qed.

Lemma preempt_enable_ok s s' : sched_ok s -> preempt_enable s = Some s' -> sched_ok s'.
Proof.
  intros H. unfold preempt_enable. destruct (truth _); [|by intros [= <-]].
  assert (H1 : sched_ok (put (current_process s) F_preempt_count
                 (s32 (get s (current_process s) F_preempt_count - 1)) s)).
  { eapply sched_ok_same; [|done]. same. }
  destruct (_ && _); [by apply yield_ok|by intros [= <-]].
Qed.

Lemma same_sleep_put l v s s' : same s s' -> same s (sleep_put l v s').
Proof. intros. destruct l; cbn; same; done. Qed.

Lemma wake_expired_ok fuel now l s s' :
  sched_ok s -> wake_expired_from fuel now l s = Some s' -> sched_ok s'.
Proof.
  revert l s. induction fuel as [|fuel IH]; intros l s H; cbn [wake_expired_from]; [done|].
  set (t := sleep_get s l). destruct (Z.eqb_spec t 0) as [_|Ht]; [by intros [= <-]|].
  destruct (Z.eqb_spec (get s t F_state) PROC_BLOCKED) as [Hb|_]; cbn [negb].
  - destruct (0 <=? _); apply IH; [|done]. eapply wake_blocked_ok; [done..|].
    same. by apply same_sleep_put.
  - apply IH. eapply sched_ok_same; [|done]. same. by apply same_sleep_put.
Qed.

Lemma sched_tick_ok fuel s s' : sched_ok s -> sched_tick fuel s = Some s' -> sched_ok s'.
Proof.
  intros H. unfold sched_tick. intros (s1 & Hw & Hs)%bind_Some.
  apply wake_expired_ok in Hw; [|done]. eapply sched_ok_same; [|exact Hw]. revert Hs.
  destruct (_ && _); [intros [= <-]; same|]. destruct (_ =? _); [|by intros [= <-]].
  destruct (find_slot _ _ _); intros [= <-]; same.
Qed.

Lemma timer_handler_ok fuel s s' : sched_ok s -> timer_handler fuel s = Some s' -> sched_ok s'.
Proof. intros H. apply sched_tick_ok. eapply sched_ok_same; [|done]. same. Qed.

Lemma sched_preempt_ok s s' : sched_ok s -> sched_preempt_if_needed s = Some s' -> sched_ok s'.
Proof.
  intros H. unfold sched_preempt_if_needed. destruct (_ && _); [|by intros [= <-]].
  apply yield_ok. eapply sched_ok_same; [|done]. same.
Qed.

Lemma sched_wake_ok t s : sched_ok s -> sched_ok (sched_wake t s).
Proof.
  intros H. unfold sched_wake. destruct (Z.eqb_spec t 0); [done|].
  destruct (Z.eqb_spec (get s t F_state) PROC_RUNNING); [done|].
  destruct (Z.eqb_spec (get s t F_state) PROC_READY); [done|]. by apply make_ready_ok.
Qed.

Lemma sched_sleep_ticks_ok n s s' : sched_ok s -> sched_sleep_ticks n s = Some s' -> sched_ok s'.
Proof.
  intros H. unfold sched_sleep_ticks. destruct (n =? 0); [by apply yield_ok|].
  set (s0 := put (current_process s) F_wake_tick _ s). intros Hs.
  eapply (block_ok PROC_BLOCKED s0); [eapply sched_ok_same; [|done]; unfold s0; same|done..| |exact Hs].
  unfold sleep_push. same. reflexivity.
Qed.

Lemma sched_sleep_ms_ok n s s' : sched_ok s -> sched_sleep_ms n s = Some s' -> sched_ok s'.
Proof. intros H. by apply sched_sleep_ticks_ok. Qed.

Lemma sched_wait_enter_ok wq n s s' : sched_ok s -> sched_wait_enter wq n s = Some s' -> sched_ok s'.
Proof.
  intros H. unfold sched_wait_enter. intros Hs.
  eapply (block_ok PROC_BLOCKED s); [done..| |exact Hs]. unfold sleep_push. same.
Qed.

Lemma sleep_remove_same fuel l t s s' : sleep_remove_from fuel l t s = Some s' -> same s s'.
Proof.
  revert l. induction fuel as [|fuel IH]; intros l; cbn [sleep_remove_from]; [done|].
  destruct (_ =? 0); [by intros [= <-]|]. destruct (_ =? t); [intros [= <-]|apply IH].
  same. by apply same_sleep_put.
Qed.

Lemma wq_remove_same fuel wq prev t s s' : wq_remove_from fuel wq prev t s = Some s' -> same s s'.
Proof.
  revert prev. induction fuel as [|fuel IH]; intros prev; cbn [wq_remove_from]; [done|].
  destruct (_ =? 0); [by intros [= <-]|]. destruct (_ =? t); [intros [= <-]; same|apply IH].
Qed.

Lemma sched_wait_leave_same fuel wq c s r s' : sched_wait_leave fuel wq c s = Some (r, s') -> same s s'.
Proof.
  unfold sched_wait_leave. intros (s1 & H1 & (s2 & H2 & [= _ <-])%bind_Some)%bind_Some. same.
  etransitivity; [by eapply wq_remove_same|by eapply sleep_remove_same].
Qed.

Lemma wq_pop_same wq s : same s (wq_pop wq s).2.
Proof. unfold wq_pop. destruct (truth _); cbn [snd]; same. Qed.

Lemma wq_wake_ok fuel all wq s s' : sched_ok s -> wq_wake_loop fuel all wq s = Some s' -> sched_ok s'.
Proof.
  revert s. induction fuel as [|fuel IH]; intros s H; cbn [wq_wake_loop]; [done|].
  pose proof (wq_pop_same wq s) as Hp. destruct (wq_pop wq s) as [t s1]. cbn in Hp.
  assert (H1 : sched_ok s1) by by eapply sched_ok_same.
  destruct (Z.eqb_spec t 0) as [_|Ht]; [by intros [= <-]|].
  destruct (Z.eqb_spec (get s1 t F_state) PROC_BLOCKED) as [Hb|_]; cbn [negb]; [|by apply IH].
  assert (H2 : sched_ok (make_ready t (put t F_timed_out 0 s1))).
  { eapply wake_blocked_ok; [exact H1|done..|]. same. }
  destruct all; [by apply IH|by intros [= <-]].
Qed.

Lemma release_aspace_same t s s' : same s s' -> same s (release_aspace t s').
Proof. intros. unfold release_aspace. same; done. Qed.

Lemma reap_same t s : same s (reap t s).
Proof. unfold reap. same; apply release_aspace_same; same. Qed.

Lemma proc_reap_same t s : same s (proc_reap t s).
Proof. unfold proc_reap. same. apply reap_same. Qed.

Lemma sched_reap_detached_same fuel s s' : sched_reap_detached fuel s = Some s' -> same s s'.
Proof.
  revert s. induction fuel as [|fuel IH]; intros s; cbn [sched_reap_detached]; [done|].
  destruct (_ =? 0); [by intros [= <-]|]. intros H%IH. etransitivity; [|exact H].
  etransitivity; [|apply reap_same]. same.
Qed.

Lemma sched_detach_same t s : same s (sched_detach t s).2.
Proof.
  unfold sched_detach. destruct (_ =? 0); [done|]. destruct (truth _); [done|]. cbn [snd]. same.
  etransitivity; [|apply reap_same]. same.
Qed.

Definition join_state (j : join_step) : sched :=
  match j with Join_done _ _ _ s => s | Join_blocked s => s end.

Lemma sched_join_round_ok t s j : sched_ok s -> sched_join_round t s = Some j -> sched_ok (join_state j).
Proof.
  intros H. unfold sched_join_round. destruct (_ =? _).
  - intros [= <-]. cbn. eapply sched_ok_same; [apply reap_same|done].
  - intros (s1 & H1 & [= <-])%bind_Some. cbn. by eapply sched_wait_enter_ok.
Qed.

(** ** Creating a thread *)

(** [s'] is [s] but for the PCB at [t], which is an embryo. *)
Record fresh (t : Z) (s s' : sched) : Prop := {
  fr_get u f : u <> t -> sched_field f = true -> get s' u f = get s u f;
  fr_head : runq_head s' = runq_head s;
  fr_tail : runq_tail s' = runq_tail s;
  fr_idle : idle_thread s' = idle_thread s;
  fr_current : current_process s' = current_process s;
  fr_state : get s' t F_state = PROC_EMBRYO;
  fr_prio : 0 <= get s' t F_priority;
}.

Lemma fresh_zero t s : fresh t s (zero_pcb t s).
Proof.
  assert (Hz : forall u f, get (zero_pcb t s) u f = if u =? t then 0 else get s u f) by done.
  constructor; [|done..|by rewrite Hz, Z.eqb_refl|rewrite Hz, Z.eqb_refl; lia].
  intros u f Hu _. rewrite Hz. by destruct (Z.eqb_spec u t).
Qed.

Lemma fresh_same t s s1 s2 : same s1 s2 -> fresh t s s1 -> fresh t s s2.
Proof.
  intros Hs H. constructor.
  - intros u f Hu Hf. rewrite (same_get _ _ _ _ Hs) by done. by apply H.
  - rewrite (same_head _ _ Hs). apply H.
  - rewrite (same_tail _ _ Hs). apply H.
  - rewrite (same_idle _ _ Hs). apply H.
  - rewrite (same_current _ _ Hs). apply H.
  - rewrite (same_get _ _ _ _ Hs) by done. apply H.
  - rewrite (same_get _ _ _ _ Hs) by done. apply H.
Qed.

Lemma fresh_put t s s1 f v :
  (f = F_state -> v = PROC_EMBRYO) -> (f = F_priority -> 0 <= v) ->
  fresh t s s1 -> fresh t s (put t f v s1).
Proof.
  intros Hs Hp H. constructor; try apply H.
  - intros u g Hu Hg. rewrite get_put_ptr by done. by apply H.
  - destruct (decide (f = F_state)) as [->|Hne]; [rewrite get_put_eq; by apply Hs|].
    rewrite get_put_field by congruence. apply H.
  - destruct (decide (f = F_priority)) as [->|Hne]; [rewrite get_put_eq; by apply Hp|].
    rewrite get_put_field by congruence. apply H.
Qed.

(** A PCB that is no live thread may be overwritten. *)
Lemma fresh_ok t s s' :
  sched_ok s -> get s t F_state <> PROC_READY -> get s t F_state <> PROC_RUNNING ->
  fresh t s s' -> sched_ok s'.
Proof.
  intros [q H] Hr Hu F. exists q. pose proof (ok_runqs _ _ H) as Hq.
  assert (Hn : forall p, is_prio p -> t ∉ q p).
  { intros p Hp Hin. by apply (rq_member _ _ Hq) in Hin as (_ & ? & _). }
  assert (Hti : t <> idle_thread s).
  { intros ->. destruct (decide (idle_thread s = current_process s)) as [E|E].
    - apply Hu. rewrite E. by apply (ok_running _ _ H).
    - apply Hr. by apply (ok_idle _ _ H). }
  assert (Hpu : forall u, u <> t -> prio_of s' u = prio_of s u)
    by (intros u Hne; unfold prio_of; by rewrite (fr_get _ _ _ F)).
  constructor; rewrite ?(fr_current _ _ _ F), ?(fr_idle _ _ _ F); try apply H.
  - constructor.
    + intros p Hp. rewrite (fr_head _ _ _ F). eapply chain_ext; [|by apply Hq].
      intros x Hx. apply (fr_get _ _ _ F); [|done]. intros ->. by apply (Hn p).
    + intros p Hp. rewrite (fr_tail _ _ _ F). by apply Hq.
    + apply Hq.
    + intros p u Hp Hin. assert (u <> t) by (intros ->; by apply (Hn p)).
      rewrite Hpu, (fr_get _ _ _ F), (fr_idle _ _ _ F) by done. by apply Hq.
    + intros u Hst. rewrite (fr_idle _ _ _ F).
      assert (u <> t) by (intros ->; by rewrite (fr_state _ _ _ F) in Hst).
      rewrite Hpu by done. rewrite (fr_get _ _ _ F) in Hst by done. by apply Hq.
    + intros u. destruct (decide (u = t)) as [->|]; [apply F|]. rewrite (fr_get _ _ _ F) by done. apply Hq.
  - intros u. destruct (decide (u = t)) as [->|].
    + rewrite (fr_state _ _ _ F). split; [done|]. intros ->. by rewrite (proj2 (ok_running _ _ H _) eq_refl) in Hu.
    + rewrite (fr_get _ _ _ F) by done. apply H.
  - intros Hne. rewrite (fr_get _ _ _ F) by done. by apply (ok_idle _ _ H).
Qed.

Lemma copy_name_same n i t nm s : same s (copy_name n i t nm s).
Proof.
  revert i s. induction n as [|n IH]; intros i s; cbn [copy_name]; [same|].
  destruct (truth (nm i)); [|same]. etransitivity; [|apply IH]. same.
Qed.

Lemma proc_table_alloc_result pcb p : (proc_table_alloc pcb p).1 = 0 \/ (proc_table_alloc pcb p).1 = pcb.
Proof. unfold proc_table_alloc. destruct (pcb =? 0); [by left|]. case_match; cbn; tauto. Qed.

Ltac fresh_steps :=
  repeat match goal with
  | |- fresh ?t ?s ?s => fail 1
  | |- fresh ?t _ (put ?t _ _ _) => apply fresh_put; [try discriminate; try done|try discriminate; try done|]
  | |- fresh _ _ (put _ _ _ ?s1) => apply fresh_same with s1; [same|]
  | |- fresh _ _ (on_pr _ ?s1) => apply fresh_same with s1; [same|]
  | |- fresh _ _ (with_pids _ ?s1) => apply fresh_same with s1; [same|]
  | |- fresh _ _ (copy_name _ _ _ _ ?s1) => apply fresh_same with s1; [apply copy_name_same|]
  | |- fresh _ _ (match ?x with _ => _ end) => destruct x
  | |- fresh _ _ (zero_pcb _ _) => apply fresh_zero
  end.

Lemma thread_create_ok tx pcb stack entry arg name prio s :
  sched_ok s -> get s pcb F_state <> PROC_READY -> get s pcb F_state <> PROC_RUNNING -> 0 <= prio ->
  sched_ok (thread_create tx pcb stack entry arg name prio s).2.
Proof.
  intros H Hr Hu Hprio. unfold thread_create.
  pose proof (same_proc_table_alloc pcb (pr s)) as Hsp.
  pose proof (proc_table_alloc_result pcb (pr s)) as Hres.
  destruct (proc_table_alloc pcb (pr s)) as [t p1]. cbn [fst snd] in Hsp, Hres.
  set (s1 := with_pr p1 s). assert (Hs1 : same s s1) by by constructor.
  assert (H1 : sched_ok s1) by by eapply sched_ok_same.
  destruct (Z.eqb_spec t 0) as [|Ht0]; [done|]. destruct Hres as [?| ->]; [done|].
  rewrite <- (same_get s s1) in Hr, Hu by done.
  destruct (stack =? 0).
  { eapply fresh_ok; [exact H1|done..|]. cbn [snd]. fresh_steps. }
  destruct (pid_alloc _) as [pid pb]. destruct (pid =? 0).
  { eapply fresh_ok; [exact H1|done..|]. cbn [snd]. fresh_steps. }
  cbn [snd]. match goal with |- sched_ok (make_ready _ ?x) => assert (F : fresh pcb s1 x) end.
  { fresh_steps; (intros _; zif; [done|unfold PRIO_DEFAULT; lia]). }
  apply make_ready_ok; [by eapply fresh_ok|done|by rewrite (fr_state _ _ _ F)..].
Qed.

(** * Boot *)

Lemma init_common_same p pid name prio stack size s :
  same (put p F_priority prio (put p F_state PROC_READY (zero_pcb p s)))
       (init_common p pid name prio stack size s).
Proof.
  unfold init_common. same. etransitivity; [|apply copy_name_same]. same.
  constructor; [|done..]. intros t f Hf. unfold put. cbn. unfold upd.
  destruct f; try discriminate Hf; repeat case_decide; naive_solver.
Qed.

(** The scheduling fields of a thread after init_common. *)
Lemma init_common_get p pid name prio stack size s u :
  let s' := init_common p pid name prio stack size s in
  get s' u F_state = (if u =? p then PROC_READY else get s u F_state)
  /\ get s' u F_priority = (if u =? p then prio else get s u F_priority)
  /\ runq_head s' = runq_head s /\ runq_tail s' = runq_tail s
  /\ idle_thread s' = idle_thread s /\ current_process s' = current_process s.
Proof.
  pose proof (init_common_same p pid name prio stack size s) as H. cbn zeta.
  rewrite !(same_get _ _ _ _ H) by done.
  assert (Hz : forall f, get (zero_pcb p s) u f = if u =? p then 0 else get s u f) by done.
  split_and!; [..|apply H|apply H|apply H|apply H].
  - rewrite get_put_field by done. destruct (Z.eqb_spec u p) as [->|]; [apply get_put_eq|].
    rewrite get_put_ptr, Hz by done. by destruct (Z.eqb_spec u p).
  - destruct (Z.eqb_spec u p) as [->|]; [apply get_put_eq|].
    rewrite get_put_ptr, get_put_field, Hz by done. by destruct (Z.eqb_spec u p).
Qed.

Lemma same_proc_table_insert t p : same_ps (ps p) (ps (proc_table_insert t p).2).
Proof. unfold proc_table_insert. destruct (t =? 0); [done|]. by case_match. Qed.

#[export] Hint Resolve same_proc_table_insert : makh.

(** The memory before the process manager starts holds no thread. *)
Definition no_thread (s : sched) : Prop :=
  forall t, get s t F_state = PROC_EMBRYO /\ 0 <= get s t F_priority.

Definition boot_wf (b : boot) : Prop :=
  idle_pcb b <> 0 /\ init_pcb b <> 0 /\ idle_pcb b <> init_pcb b.

Lemma proc_reset_get s u f : get (proc_reset s) u f = get s u f.
Proof. done. Qed.

Lemma proc_reset_runq s p : is_prio p -> runq_head (proc_reset s) p = 0 /\ runq_tail (proc_reset s) p = 0.
Proof.
  unfold is_prio, PRIO_LEVELS. intros Hp. cbn. unfold PRIO_LEVELS.
  destruct (Z.leb_spec 0 p); [|lia]. destruct (Z.ltb_spec p 32); [|lia]. done.
Qed.

Lemma start_idle_same b s :
  same (with_idle (idle_pcb b) (init_common (idle_pcb b) 0 idle_name PRIO_IDLE (idle_stack b) IDLE_STACK_SIZE s))
       (start_idle b s).
Proof.
  unfold start_idle, sched_set_idle. generalize (init_common (idle_pcb b) 0 idle_name PRIO_IDLE
    (idle_stack b) IDLE_STACK_SIZE s) as x. intros x.
  match goal with |- same (with_idle _ ?a) (with_idle _ ?c) => assert (Hs : same a c) by same end.
  constructor; [apply Hs|apply Hs|apply Hs|done|apply Hs].
Qed.

Lemma start_init_same b s :
  same (init_common (init_pcb b) 1 init_name PRIO_DEFAULT (init_stack b) INIT_STACK_SIZE s) (start_init b s).
Proof.
  unfold start_init. generalize (init_common (init_pcb b) 1 init_name PRIO_DEFAULT
    (init_stack b) INIT_STACK_SIZE s) as x. intros x. same.
Qed.

Lemma become_frame c v s :
  runq_head (with_current c (put c F_state v s)) = runq_head s
  /\ runq_tail (with_current c (put c F_state v s)) = runq_tail s
  /\ idle_thread (with_current c (put c F_state v s)) = idle_thread s
  /\ current_process (with_current c (put c F_state v s)) = c.
Proof. done. Qed.

Lemma with_idle_frame c s :
  runq_head (with_idle c s) = runq_head s /\ runq_tail (with_idle c s) = runq_tail s
  /\ idle_thread (with_idle c s) = c /\ (forall u f, get (with_idle c s) u f = get s u f).
Proof. done. Qed.

(** The scheduling fields once kernel_main has become init. *)
Lemma boot_fields b s u :
  let s' := proc_become_current b (proc_init b s) in
  get s' u F_state = (if u =? init_pcb b then PROC_RUNNING
                      else if u =? idle_pcb b then PROC_READY else get s u F_state)
  /\ get s' u F_priority = (if u =? init_pcb b then PRIO_DEFAULT
                            else if u =? idle_pcb b then PRIO_IDLE else get s u F_priority)
  /\ (forall p, is_prio p -> runq_head s' p = 0 /\ runq_tail s' p = 0)
  /\ idle_thread s' = idle_pcb b /\ current_process s' = init_pcb b.
Proof.
  cbn zeta. unfold proc_become_current, proc_init.
  pose proof (start_init_same b (start_idle b (proc_reset s))) as S5.
  destruct (init_common_get (init_pcb b) 1 init_name PRIO_DEFAULT (init_stack b) INIT_STACK_SIZE
    (start_idle b (proc_reset s)) u) as (B1 & B2 & B3 & B4 & B5 & B6).
  pose proof (start_idle_same b (proc_reset s)) as S3.
  destruct (init_common_get (idle_pcb b) 0 idle_name PRIO_IDLE (idle_stack b) IDLE_STACK_SIZE
    (proc_reset s) u) as (A1 & A2 & A3 & A4 & A5 & A6).
  destruct (become_frame (init_pcb b) PROC_RUNNING (start_init b (start_idle b (proc_reset s))))
    as (-> & -> & -> & ->).
  destruct (with_idle_frame (idle_pcb b) (init_common (idle_pcb b) 0 idle_name PRIO_IDLE (idle_stack b)
    IDLE_STACK_SIZE (proc_reset s))) as (W1 & W2 & W3 & W4).
  rewrite !get_with_current. rewrite (same_get _ _ u F_state S3), W4, A1, proc_reset_get in B1 by done.
  rewrite (same_get _ _ u F_priority S3), W4, A2, proc_reset_get in B2 by done.
  split_and!.
  - destruct (Z.eqb_spec u (init_pcb b)) as [E|Hu]; [rewrite E; apply get_put_eq|].
    rewrite get_put_ptr, (same_get _ _ _ _ S5) by done. exact B1.
  - rewrite get_put_field, (same_get _ _ _ _ S5) by done. exact B2.
  - intros p Hp. rewrite (same_head _ _ S5), (same_tail _ _ S5), B3, B4, (same_head _ _ S3),
      (same_tail _ _ S3), W1, W2, A3, A4. by apply proc_reset_runq.
  - rewrite (same_idle _ _ S5), B5, (same_idle _ _ S3). exact W3.
  - reflexivity.
Qed.

(** The scheduler's invariant holds when the first thread starts. *)
Lemma boot_ok b s : boot_wf b -> no_thread s -> ok (proc_become_current b (proc_init b s)) (fun _ => []).
Proof.
  intros (Hi & Hn & Hd) Hs. pose proof (boot_fields b s) as HF. cbn zeta in HF.
  set (s' := proc_become_current b (proc_init b s)) in *. clearbody s'.
  destruct (HF 0) as (_ & _ & Hq & Hid & Hcur).
  assert (Hst := fun u => proj1 (HF u)). assert (Hpr := fun u => proj1 (proj2 (HF u))).
  constructor; rewrite ?Hid, ?Hcur; try done.
  - constructor.
    + intros p Hp. cbn. by apply Hq.
    + intros p Hp. by apply Hq.
    + intros p Hp. apply NoDup_nil_2.
    + intros p t _ Ht. by apply elem_of_nil in Ht.
    + intros t. rewrite Hst, Hid. intros H1 H2. destruct (Z.eqb_spec t (init_pcb b)); [done|].
      destruct (Z.eqb_spec t (idle_pcb b)); [done|]. by rewrite (proj1 (Hs t)) in H1.
    + intros t. rewrite Hpr. zif; [unfold PRIO_DEFAULT; lia|]. zif; [unfold PRIO_IDLE, PRIO_LEVELS; lia|]. apply Hs.
  - intros t. rewrite Hst. destruct (Z.eqb_spec t (init_pcb b)) as [->|]; [done|].
    split; [|done]. destruct (Z.eqb_spec t (idle_pcb b)); [done|]. by rewrite (proj1 (Hs t)).
  - intros _. rewrite Hst, Z.eqb_refl. by destruct (Z.eqb_spec (idle_pcb b) (init_pcb b)).
Qed.

(** * What schedule() guarantees *)

Lemma rest_nonempty q p : rest q p <> [] -> q p <> [].
Proof.
  unfold rest. destruct (highest q) as [p'|]; [|done]. destruct (Z.eqb_spec p p') as [->|Hne].
  - rewrite qset_eq. by destruct (q p').
  - by rewrite qset_ne.
Qed.

(** No thread that is left READY has a better priority than the one that runs;
    idle runs only when no thread is READY. *)
Lemma pick_best s q s' t :
  mid s q -> switched s (pick s (requeue s q)) (rest (requeue s q)) s' ->
  get s' t F_state = PROC_READY -> t <> idle_thread s' ->
  current_process s' <> idle_thread s' /\ prio_of s' (current_process s') <= prio_of s' t.
Proof.
  intros Hm Hsw Ht Hti. set (q1 := requeue s q) in *. pose proof (sw_ok _ _ _ _ Hsw) as Hok.
  pose proof (prio_of_range _ _ t (ok_runqs _ _ Hok)) as Hr.
  assert (Hne : q1 (prio_of s' t) <> []).
  { apply rest_nonempty. intros E. pose proof (rq_complete _ _ (ok_runqs _ _ Hok) t Ht Hti) as Hin.
    rewrite E in Hin. by apply elem_of_nil in Hin. }
  pose proof (requeued_runqs s q Hm) as Hq1. fold q1 in Hq1.
  rewrite (sw_current _ _ _ _ Hsw). rewrite (sw_idle _ _ _ _ Hsw). unfold pick.
  destruct (highest q1) as [p|] eqn:Eh.
  - apply highest_Some in Eh as (Hp & (x & l & Hx) & Hlt). rewrite Hx. cbn [head default].
    destruct (rq_member _ _ Hq1 p x Hp) as (Hpx & _ & Hxi); [rewrite Hx; apply list_elem_of_here|].
    destruct (requeued_frame s) as (Hid & _ & Hk & _). rewrite Hid in Hxi. split; [done|].
    assert (E : prio_of s' x = p).
    { rewrite <- Hpx. unfold prio_of. rewrite (sw_kept _ _ _ _ Hsw), Hk by done. done. }
    unfold id. rewrite E. destruct (Z.le_gt_cases p (prio_of s' t)) as [|Hgt]; [done|].
    exfalso. apply Hne, Hlt. split; [apply Hr|lia].
  - by rewrite (highest_None _ _ Eh Hr) in Hne.
Qed.

(** C2: schedule() implements priority scheduling with round robin: from a state
    in which the invariant holds and the outgoing stack is intact it returns;
    the outgoing thread goes behind its peers, the first thread of the best
    level runs with its full quantum, idle only when no thread is READY; no
    thread that is left READY has a better priority; the invariant holds again. *)
Theorem schedule_refines s q :
  ok s q -> canary_ok s = true ->
  exists s', schedule s = Some s'
    /\ current_process s' = pick s (requeue s q)
    /\ ok s' (rest (requeue s q))
    /\ get s' (current_process s') F_ticks_left
       = s64 (if truth (get s (current_process s') F_time_slice)
              then get s (current_process s') F_time_slice else SCHED_QUANTUM)
    /\ (forall t, get s' t F_state = PROC_READY -> t <> idle_thread s' ->
          current_process s' <> idle_thread s' /\ prio_of s' (current_process s') <= prio_of s' t).
Proof.
  intros H%ok_mid Hcan. destruct (schedule_spec s q H Hcan) as (s' & Hrun & Hsw). exists s'.
  split_and!; [exact Hrun|apply Hsw|apply Hsw| |].
  - rewrite (sw_current _ _ _ _ Hsw). apply Hsw.
  - intros t. by eapply pick_best.
Qed.

(** ** Witness: the kernel after boot, with one more thread *)

Definition demo_boot : boot := Boot 1000 2000 100000 200000 64.
Definition demo_start : sched :=
  Sched (Procs (fun _ _ => 0) 0 0 0 (fun _ => 0) 0 []) (PidState (fun _ => 0) 2)
    (fun _ => 0) (fun _ => 0) 0 0 0 0 0 0 0 [].
Definition demo_booted : sched := proc_become_current demo_boot (proc_init demo_boot demo_start).
Definition demo_two : sched := (thread_create (Text 16 32) 3000 300000 48 0 None 10 demo_booted).2.

Lemma demo_booted_ok : ok demo_booted (fun _ => []).
Proof. apply boot_ok; [by split_and!|]. intros t. split; [done|]. cbn. lia. Qed.

Lemma demo_two_ok : sched_ok demo_two.
Proof.
  apply thread_create_ok; [eexists; apply demo_booted_ok|vm_compute; discriminate..|lia].
Qed.

Lemma schedule_refines_witness :
  exists q s', ok demo_two q /\ schedule demo_two = Some s'
    /\ current_process s' = pick demo_two (requeue demo_two q) /\ current_process s' = 3000.
Proof.
  destruct demo_two_ok as [q H]. destruct (schedule_refines demo_two q H) as (s' & H1 & H2 & _).
  { vm_compute. reflexivity. }
  exists q, s'. split_and!; [exact H|exact H1|exact H2|].
  assert (E : option_map current_process (schedule demo_two) = Some 3000) by (vm_compute; reflexivity).
  rewrite H1 in E. cbn in E. by injection E.
Defined.
