(* ===== verification/Tree.v ===== *)
(** The parent/child tree of [kernel/proc/tree/tree.c] against its own oracle,
    proc_tree_check of [kernel/proc/table/table.c]. *)

From stdpp Require Import base numbers list gmap.
From Stdlib Require Import ZArith Lia.
From S2P Require Import Prelude Pid Proc Sched SchedInv.

(** * Children lists *)

Definition in_tab (s : procs) (p : Z) : Prop :=
  exists i, 0 <= i < MAX_PROCESSES /\ process_table s i = p.

Lemma in_table_spec s p : in_table p s = true <-> in_tab s p.
Proof.
  unfold in_tab, in_table. destruct (find_slot _ _ _) as [i|] eqn:E.
  - apply find_slot_Some in E as (Hi & Hp & _). split; [|done]. intros _. exists i.
    split; [exact Hi|by apply Z.eqb_eq].
  - split; [done|]. intros (i & Hi & Hp). assert (Hf := find_slot_None _ _ _ i E Hi). cbn in Hf.
    by rewrite Hp, Z.eqb_refl in Hf.
Qed.

Lemma in_tab_eq s s' p : process_table s' = process_table s -> in_tab s' p <-> in_tab s p.
Proof. intros H. unfold in_tab. by rewrite H. Qed.

(** [l] is the list of the children of [p], as proc_tree_check wants it. *)
Record kids (s : procs) (p : Z) (l : list Z) : Prop := {
  k_chain : chain (ps s) F_sibling_next (ps s p F_children_head) l;
  k_tail : ps s p F_children_tail = last0 l;
  k_count : ps s p F_child_count = Z.of_nat (length l);
  k_max : Z.of_nat (length l) <= MAX_PROCESSES;
  k_child c : c ∈ l -> in_tab s c /\ ps s c F_parent_pid = ps s p F_pid;
}.

Definition last_or (d : Z) (l : list Z) : Z := default d (last l).

Lemma check_children_list fuel s p c n d last' n' :
  check_children fuel s p c n d = Some (last', n') -> 0 <= n <= MAX_PROCESSES ->
  exists l, chain (ps s) F_sibling_next c l /\ n' = n + Z.of_nat (length l) /\ n' <= MAX_PROCESSES
    /\ last' = last_or d l
    /\ (forall x, x ∈ l -> in_tab s x /\ ps s x F_parent_pid = ps s p F_pid).
Proof.
  revert c n d. induction fuel as [|fuel IH]; intros c n d; cbn [check_children]; [done|].
  destruct (Z.eqb_spec c 0) as [->|Hc].
  - intros [= <- <-] Hn. exists []. split_and!; [done|cbn; lia|lia|done|]. by intros x ?%elem_of_nil.
  - destruct (in_table c s) eqn:Et; [|done]. destruct (Z.eqb_spec (ps s c F_parent_pid) (ps s p F_pid)) as [Ep|]; [|done].
    destruct (Z.ltb_spec MAX_PROCESSES (n + 1)) as [|Hlt]; [done|]. cbn [negb orb]. intros H Hn.
    apply IH in H as (l & H1 & H2 & H3 & H4 & H5); [|lia]. exists (c :: l). split_and!.
    + by split_and!.
    + rewrite H2. cbn [length]. lia.
    + done.
    + rewrite H4. unfold last_or. destruct l as [|y l]; [done|]. cbn [last]. by destruct (last (y :: l)) eqn:E; [|by apply last_None in E].
    + intros x [->|Hx]%elem_of_cons; [|by apply H5]. split; [by apply in_table_spec|done].
Qed.

Lemma check_children_run s p l fuel c n d :
  chain (ps s) F_sibling_next c l -> 0 <= n -> n + Z.of_nat (length l) <= MAX_PROCESSES ->
  (length l < fuel)%nat ->
  (forall x, x ∈ l -> in_tab s x /\ ps s x F_parent_pid = ps s p F_pid) ->
  check_children fuel s p c n d = Some (last_or d l, n + Z.of_nat (length l)).
Proof.
  revert fuel c n d. induction l as [|x l IH]; intros fuel c n d Hc Hn Hm Hf Hk;
    (destruct fuel as [|fuel]; [cbn in Hf; lia|]); cbn [check_children].
  - cbn in Hc. subst c. cbn. do 2 f_equal. lia.
  - destruct Hc as (-> & Hx & Hc). destruct (Z.eqb_spec x 0) as [|_]; [done|].
    destruct (Hk x (list_elem_of_here _ _)) as [Ht%in_table_spec Hp]. rewrite Ht, Hp, Z.eqb_refl.
    cbn [length] in *. destruct (Z.ltb_spec MAX_PROCESSES (n + 1)); [lia|]. cbn [negb orb].
    rewrite IH; [|done|lia|lia|lia|intros y Hy; apply Hk; by apply list_elem_of_further].
    f_equal. f_equal; [|lia]. unfold last_or. destruct l as [|y l]; [done|]. cbn [last].
    by destruct (last (y :: l)) eqn:E; [|by apply last_None in E].
Qed.

(** The oracle's test of one process. *)
Lemma children_ok_kids s p : children_ok s p = true <-> exists l, kids s p l.
Proof.
  unfold children_ok. split.
  - destruct (check_children _ _ _ _ _ _) as [[last' n']|] eqn:E; [|done].
    apply check_children_list in E as (l & H1 & H2 & H3 & H4 & H5); [|unfold MAX_PROCESSES; lia].
    intros [Hl Hn]%andb_true_iff. apply Z.eqb_eq in Hl, Hn. exists l.
    constructor; [done|..|done].
    + rewrite <- Hl. exact H4.
    + rewrite <- Hn, H2. lia.
    + rewrite H2 in H3. lia.
  - intros [l H]. rewrite (check_children_run s p l); [|apply H|lia|..].
    + rewrite (k_tail _ _ _ H), (k_count _ _ _ H). unfold last_or, last0.
      rewrite Z.add_0_l, !Z.eqb_refl. done.
    + pose proof (k_max _ _ _ H). lia.
    + pose proof (k_max _ _ _ H). unfold MAX_PROCESSES in *. lia.
    + apply H.
Qed.

(** The processes of the table, without [d], a process that is being taken
    apart; [d] is NULL when there is none. *)
Definition node (d : Z) (s : procs) (p : Z) : Prop := in_tab s p /\ p <> 0 /\ p <> d.

(** The table as a tree: [K p] are the children of [p]. PIDs name processes. *)
Record tree (d : Z) (s : procs) (K : Z -> list Z) : Prop := {
  t_kids p : node d s p -> kids s p (K p);
  t_pids p p' : node 0 s p -> node 0 s p' -> ps s p F_pid = ps s p' F_pid -> p = p';
  t_range p : node 0 s p -> 0 <= ps s p F_pid < PID_MAX;
}.

Lemma node_eq d s s' p : process_table s' = process_table s -> node d s' p <-> node d s p.
Proof. intros H. unfold node. by rewrite (in_tab_eq s s' p H). Qed.

Lemma node_0 d s p : node d s p -> node 0 s p.
Proof. intros (H1 & H2 & _). by split_and!. Qed.

Lemma tree_check s K : tree 0 s K -> proc_tree_check s = 0.
Proof.
  intros H. unfold proc_tree_check. destruct (find_slot _ _ _) as [i|] eqn:E; [|done].
  apply find_slot_Some in E as (Hi & Hb & _). apply andb_true_iff in Hb as [Ht Hn].
  assert (Hk : children_ok s (process_table s i) = true).
  { apply children_ok_kids. exists (K (process_table s i)). apply (t_kids _ _ _ H).
    assert (process_table s i <> 0).
    { unfold truth in Ht. destruct (Z.eqb_spec (process_table s i) 0); done. }
    split_and!; [by exists i|done|done]. }
  by rewrite Hk in Hn.
Qed.

(** Conversely, every process of a table the oracle accepts has its children. *)
Lemma check_tree s p : proc_tree_check s = 0 -> node 0 s p -> exists l, kids s p l.
Proof.
  unfold proc_tree_check. intros Hc ((i & Hi & Hp) & Hp0 & _). apply children_ok_kids.
  match type of Hc with context [find_slot ?n ?k ?f] => destruct (find_slot n k f) as [j|] eqn:E end.
  - apply find_slot_Some in E as (Hj & _). lia.
  - assert (Hf := find_slot_None _ _ _ i E Hi). cbn beta in Hf. rewrite Hp in Hf. unfold truth in Hf.
    destruct (Z.eqb_spec p 0) as [E0|_]; [exfalso; exact (Hp0 E0)|]. apply negb_false_iff in Hf. exact Hf.
Qed.

(** A child belongs to one parent. *)
Lemma kids_disjoint d s K p p' c :
  tree d s K -> node d s p -> node d s p' -> c ∈ K p -> c ∈ K p' -> p = p'.
Proof.
  intros H Hp Hp' Hc Hc'. apply (t_pids _ _ _ H); [by eapply node_0..|].
  destruct (k_child _ _ _ (t_kids _ _ _ H p Hp) c Hc) as [_ <-].
  by destruct (k_child _ _ _ (t_kids _ _ _ H p' Hp') c Hc') as [_ <-].
Qed.

(** There are at most MAX_PROCESSES different processes in the table. *)
Lemma table_bound s l : NoDup l -> (forall x, x ∈ l -> in_tab s x) -> Z.of_nat (length l) <= MAX_PROCESSES.
Proof.
  intros Hnd Hin. set (all := map (fun n => process_table s (Z.of_nat n)) (seq 0 256)).
  assert (Hle : (length l <= length all)%nat).
  { apply NoDup_incl_length; [by apply NoDup_ListNoDup|]. intros x Hx%list_elem_of_In.
    destruct (Hin x Hx) as (i & Hi & Hp). unfold MAX_PROCESSES in Hi. apply in_map_iff. exists (Z.to_nat i).
    split; [by rewrite Z2Nat.id by lia|]. apply in_seq. lia. }
  unfold all in Hle. rewrite length_map, length_seq in Hle. unfold MAX_PROCESSES. lia.
Qed.

(** * Adding a child *)

(** Read a field through a sequence of stores. *)
Ltac upd_read :=
  cbn [ps on_ps with_ps process_table with_table];
  repeat first
    [ rewrite upd_eq
    | rewrite upd_field by discriminate
    | match goal with |- context [upd ?p ?f ?v ?st ?u ?f] =>
        destruct (Z.eqb_spec u p) as [?E|?E]; [subst; rewrite ?upd_eq|rewrite (upd_ptr p f v st u f) by assumption]
      end ];
  try reflexivity; try congruence.

Lemma add_child_fields s parent child :
  parent <> 0 -> child <> 0 ->
  let s' := proc_add_child parent child s in
  let T := ps s parent F_children_tail in
  process_table s' = process_table s
  /\ (forall u, ps s' u F_pid = ps s u F_pid)
  /\ (forall u, ps s' u F_parent_pid = if u =? child then ps s parent F_pid else ps s u F_parent_pid)
  /\ ps s' = upd parent F_child_count (u32 (ps s parent F_child_count + 1))
             (upd parent F_children_tail child
               (if truth T then upd T F_sibling_next child
                                  (upd child F_sibling_next 0 (upd child F_parent_pid (ps s parent F_pid) (ps s)))
                else upd parent F_children_head child
                       (upd child F_sibling_next 0 (upd child F_parent_pid (ps s parent F_pid) (ps s))))).
Proof.
  intros Hp Hc. cbn zeta. unfold proc_add_child.
  destruct (Z.eqb_spec parent 0) as [|_]; [done|]. destruct (Z.eqb_spec child 0) as [|_]; [done|]. cbn [orb].
  cbn [ps on_ps with_ps]. rewrite !(upd_field child _ _ _ parent F_children_tail) by discriminate.
  destruct (truth (ps s parent F_children_tail)); split_and!; try done; intros; upd_read.
Qed.

(** Nothing a children list depends on has changed. *)
Lemma kids_ext s s' p l :
  kids s p l -> process_table s' = process_table s ->
  (forall u, ps s' u F_pid = ps s u F_pid) ->
  (forall f, f = F_children_head \/ f = F_children_tail \/ f = F_child_count -> ps s' p f = ps s p f) ->
  (forall x f, x ∈ l -> f = F_sibling_next \/ f = F_parent_pid -> ps s' x f = ps s x f) ->
  kids s' p l.
Proof.
  intros H Ht Hpid Hp Hx. constructor.
  - rewrite Hp by tauto. eapply chain_ext; [|apply H]. intros x Hin. apply Hx; [done|tauto].
  - rewrite Hp by tauto. apply H.
  - rewrite Hp by tauto. apply H.
  - apply H.
  - intros c Hc. rewrite (in_tab_eq s s' c Ht), Hx, Hpid by tauto. by apply H.
Qed.

Lemma kids_tail_in s p l : kids s p l -> truth (ps s p F_children_tail) = true -> ps s p F_children_tail ∈ l.
Proof.
  intros H Ht. rewrite (k_tail _ _ _ H) in *. apply last0_in. intros ->. done.
Qed.

Lemma tail_nil s p l : kids s p l -> truth (ps s p F_children_tail) = match l with [] => false | _ => true end.
Proof. intros H. rewrite (k_tail _ _ _ H). eapply last0_truth, H. Qed.

(** The list of the parent itself. *)
Lemma add_child_kids s parent child l :
  parent <> 0 -> child <> 0 -> kids s parent l -> child ∉ l -> in_tab s child ->
  kids (proc_add_child parent child s) parent (l ++ [child]).
Proof.
  intros Hp Hc H Hn Hct.
  destruct (add_child_fields s parent child Hp Hc) as (Ht & Hpid & Hpp & Hps). rewrite (tail_nil s parent l H) in Hps.
  set (s' := proc_add_child parent child s) in *. clearbody s'.
  pose proof (chain_NoDup _ _ _ _ (k_chain _ _ _ H)) as Hnd.
  assert (Hkid : forall c, c ∈ l ++ [child] -> in_tab s c).
  { intros c [Hin|Hin%list_elem_of_singleton]%elem_of_app; [by apply (k_child _ _ _ H)|by subst]. }
  assert (Hlen : Z.of_nat (length (l ++ [child])) <= MAX_PROCESSES).
  { apply (table_bound s); [|done]. apply NoDup_app. split_and!; [done| |apply NoDup_singleton].
    intros x Hx ->%list_elem_of_singleton. done. }
  constructor.
  - destruct l as [|x l]; rewrite Hps.
    + upd_read. cbn. split_and!; [done|done|]. upd_read.
    + rewrite (k_tail _ _ _ H).
      assert (E : upd parent F_child_count (u32 (ps s parent F_child_count + 1))
        (upd parent F_children_tail child (upd (last0 (x :: l)) F_sibling_next child
          (upd child F_sibling_next 0 (upd child F_parent_pid (ps s parent F_pid) (ps s)))))
        parent F_children_head = ps s parent F_children_head) by upd_read.
      rewrite E. eapply chain_ext; [intros y _; rewrite !upd_field by discriminate; reflexivity|].
      apply chain_snoc; [|done..|apply upd_eq].
      apply chain_upd; [done|]. eapply chain_ext; [|apply H]. intros; by apply upd_field.
  - rewrite Hps, last0_snoc. upd_read.
  - rewrite Hps, (k_count _ _ _ H). rewrite length_app in *. cbn [length] in *. rewrite upd_eq.
    unfold MAX_PROCESSES in Hlen. rewrite u32_small by lia. lia.
  - done.
  - intros c Hin. rewrite (in_tab_eq s s' c Ht), Hpp, Hpid. split; [by apply Hkid|].
    destruct (Z.eqb_spec c child) as [|Hne]; [done|].
    apply elem_of_app in Hin as [Hin|Hin%list_elem_of_singleton]; [by apply H|done].
Qed.

Lemma add_child_tree d s K parent child :
  tree d s K -> node d s parent -> in_tab s child -> child <> 0 ->
  (forall p, node d s p -> child ∉ K p) ->
  tree d (proc_add_child parent child s) (qset K parent (K parent ++ [child])).
Proof.
  intros H Hp Hc Hc0 Hfree. pose proof Hp as (_ & Hp0 & _).
  destruct (add_child_fields s parent child Hp0 Hc0) as (Ht & Hpid & Hpp & Hps).
  pose proof (add_child_kids s parent child (K parent) Hp0 Hc0 (t_kids _ _ _ H parent Hp)
    (Hfree parent Hp) Hc) as Hkids.
  set (s' := proc_add_child parent child s) in *. clearbody s'. constructor.
  - intros p Hip%(node_eq d s s' p Ht). destruct (decide (p = parent)) as [->|Hne]; [by rewrite qset_eq|].
    rewrite qset_ne by done. pose proof (t_kids _ _ _ H p Hip) as Hk.
    apply (kids_ext s s' p (K p) Hk Ht Hpid).
    + intros f Hf. rewrite Hps. destruct (truth _); rewrite !upd_ne; first [done|naive_solver].
    + intros x f Hx Hf. assert (Hxc : x <> child) by (intros ->; by apply (Hfree p)).
      destruct Hf as [->| ->]; [|rewrite Hpp; by destruct (Z.eqb_spec x child)].
      rewrite Hps. destruct (truth (ps s parent F_children_tail)) eqn:Et.
      * assert (Hxt : x <> ps s parent F_children_tail).
        { intros ->. apply Hne. apply (kids_disjoint d s K p parent (ps s parent F_children_tail)); try done.
          apply (kids_tail_in s parent); [by apply (t_kids _ _ _ H)|done]. }
        repeat first [rewrite upd_field by discriminate|rewrite upd_ptr by assumption]. reflexivity.
      * repeat first [rewrite upd_field by discriminate|rewrite upd_ptr by assumption]. reflexivity.
  - intros p p' H1%(node_eq 0 s s' p Ht) H2%(node_eq 0 s s' p' Ht). rewrite !Hpid. by apply (t_pids _ _ _ H).
  - intros p H1%(node_eq 0 s s' p Ht). rewrite Hpid. by apply (t_range _ _ _ H).
Qed.

(** * Removing a child *)

(** proc_find finds the process of the table with a PID. *)
Lemma proc_find_node d s K p : tree d s K -> node 0 s p -> proc_find (s32 (ps s p F_pid)) s = p.
Proof.
  intros H Hn. pose proof (t_range _ _ _ H p Hn) as Hr. unfold PID_MAX in Hr.
  rewrite s32_small by lia. unfold proc_find, PID_MAX.
  destruct (Z.ltb_spec (ps s p F_pid) 0); [lia|]. destruct (Z.leb_spec 32768 (ps s p F_pid)); [lia|]. cbn [orb].
  match goal with |- context [find_slot ?n ?k ?f] => destruct (find_slot n k f) as [j|] eqn:E end.
  - apply find_slot_Some in E as (Hj & Hb & _). apply andb_true_iff in Hb as [Ht Hp].
    apply Z.eqb_eq in Hp. assert (Hj0 : process_table s j <> 0).
    { unfold truth in Ht. destruct (Z.eqb_spec (process_table s j) 0); done. }
    assert (Hnj : node 0 s (process_table s j)) by (split_and!; [by exists j|done|done]).
    pose proof (t_range _ _ _ H _ Hnj) as Hrj. unfold PID_MAX in Hrj. rewrite s32_small in Hp by lia.
    by apply (t_pids _ _ _ H).
  - destruct Hn as ((i & Hi & Hp) & Hp0 & _). assert (Hf := find_slot_None _ _ _ i E Hi). cbn beta in Hf.
    rewrite Hp, s32_small, Z.eqb_refl, andb_true_r in Hf by lia. unfold truth in Hf.
    destruct (Z.eqb_spec p 0); done.
Qed.

Lemma remove_loop_run parent child s a b fuel prev cur :
  chain (ps s) F_sibling_next cur (a ++ child :: b) -> child ∉ a -> (length a < fuel)%nat ->
  remove_child_loop fuel parent child prev cur s = Some (unlink_child parent child (last_or prev a) s).
Proof.
  revert fuel prev cur. induction a as [|x a IH]; intros fuel prev cur Hc Hn Hf;
    (destruct fuel as [|fuel]; [cbn in Hf; lia|]); cbn [remove_child_loop]; cbn in Hc.
  - destruct Hc as (-> & Hx & _). destruct (Z.eqb_spec child 0) as [|_]; [done|]. by rewrite Z.eqb_refl.
  - destruct Hc as (-> & Hx & Hc). apply not_elem_of_cons in Hn as [Hxc Hn].
    destruct (Z.eqb_spec x 0) as [|_]; [done|]. destruct (Z.eqb_spec x child) as [|_]; [done|].
    cbn [length] in Hf. rewrite IH by (done || lia). f_equal. unfold last_or.
    destruct a as [|y a]; [done|]. cbn [last]. by destruct (last (y :: a)) eqn:E; [|by apply last_None in E].
Qed.

(** The store after unlinking, for a list that is not empty. *)
Lemma unlink_fields s parent child prev :
  truth (ps s parent F_child_count) = true ->
  let s' := unlink_child parent child prev s in
  process_table s' = process_table s
  /\ (forall u, ps s' u F_pid = ps s u F_pid)
  /\ (forall u, ps s' u F_parent_pid = ps s u F_parent_pid)
  /\ (forall u, ps s' u F_sibling_next = upd child F_sibling_next 0
        (if truth prev then upd prev F_sibling_next (ps s child F_sibling_next) (ps s) else ps s) u F_sibling_next)
  /\ (forall u, ps s' u F_children_head = if (u =? parent) && negb (truth prev)
        then ps s child F_sibling_next else ps s u F_children_head)
  /\ (forall u, ps s' u F_children_tail = if (u =? parent) && (child =? ps s parent F_children_tail)
        then prev else ps s u F_children_tail)
  /\ (forall u, ps s' u F_child_count = if u =? parent then u32 (ps s parent F_child_count - 1)
        else ps s u F_child_count).
Proof.
  intros Hcnt. cbn zeta. unfold unlink_child.
  set (s1 := if truth prev then _ else _).
  assert (H1 : forall u f, f <> F_sibling_next -> f <> F_children_head -> ps s1 u f = ps s u f).
  { intros u f Hf1 Hf2. unfold s1. destruct (truth prev); by apply upd_field. }
  rewrite !(H1 parent F_children_tail) by done.
  set (s2 := if child =? ps s parent F_children_tail then _ else _).
  assert (H2 : forall u f, f <> F_children_tail -> ps s2 u f = ps s1 u f).
  { intros u f Hf. unfold s2. destruct (child =? _); [by apply upd_field|done]. }
  rewrite !(H2 parent F_child_count), !(H1 parent F_child_count), Hcnt by done.
  assert (Ht : process_table s2 = process_table s)
    by (unfold s2, s1; by destruct (child =? _), (truth prev)).
  split_and!; [exact Ht|..]; intros u; cbn [ps on_ps with_ps].
  - rewrite !upd_field, H2, H1 by done. done.
  - rewrite !upd_field, H2, H1 by done. done.
  - destruct (decide (u = child)) as [->|Hne]; [by rewrite !upd_eq|].
    rewrite !(upd_ptr child) by done. rewrite upd_field, H2 by done. unfold s1.
    destruct (truth prev); [done|]. by apply upd_field.
  - rewrite !upd_field, H2 by done. unfold s1. destruct (truth prev); cbn [negb].
    + rewrite andb_false_r. by apply upd_field.
    + rewrite andb_true_r. destruct (Z.eqb_spec u parent) as [->|]; [apply upd_eq|by apply upd_ptr].
  - rewrite !upd_field by done. unfold s2. destruct (child =? _).
    + rewrite andb_true_r. destruct (Z.eqb_spec u parent) as [->|]; [apply upd_eq|].
      cbn [ps on_ps with_ps]. rewrite upd_ptr by done. by apply H1.
    + rewrite andb_false_r. by apply H1.
  - rewrite upd_field by done. destruct (Z.eqb_spec u parent) as [->|]; [apply upd_eq|].
    rewrite upd_ptr, H2, H1 by done. done.
Qed.

(** The list of [parent] after [child] has left it. *)
Lemma unlink_kids s parent child a b :
  parent <> 0 -> kids s parent (a ++ child :: b) ->
  kids (unlink_child parent child (last_or 0 a) s) parent (a ++ b).
Proof.
  intros Hp0 Hk. pose proof (k_chain _ _ _ Hk) as Hc. pose proof (chain_NoDup _ _ _ _ Hc) as Hnd.
  pose proof (k_count _ _ _ Hk) as Hn. pose proof (k_max _ _ _ Hk) as Hmax. rewrite length_app in Hn, Hmax.
  cbn [length] in Hn, Hmax. unfold MAX_PROCESSES in Hmax.
  assert (Hcnt : truth (ps s parent F_child_count) = true) by (rewrite Hn; unfold truth; zcase; [lia|done]).
  destruct (unlink_fields s parent child (last_or 0 a) Hcnt) as (Ht & Hpid & Hpp & Hsib & Hhd & Htl & Hct).
  set (s' := unlink_child _ _ _ _) in *. clearbody s'.
  pose proof (chain_unlink _ _ _ _ _ _ Hc Hnd) as Hu.
  assert (Hlast : forall y, last a = Some y -> y <> 0).
  { intros y E. eapply chain_nonzero; [exact Hc|]. apply elem_of_app. left. apply last_Some in E as [a' ->].
    apply elem_of_app. right. apply list_elem_of_here. }
  constructor.
  - rewrite Hhd, Z.eqb_refl. cbn [andb]. unfold last_or in *. destruct (last a) as [y|] eqn:E; cbn [default] in *.
    + unfold id in *. assert (Hy : truth y = true) by (specialize (Hlast y eq_refl); unfold truth; zcase; done).
      rewrite Hy in *. cbn [negb]. destruct Hu as [_ Hu]. eapply chain_ext; [|exact Hu]. intros x _. apply Hsib.
    + apply last_None in E as ->. cbn in *. destruct Hu as [_ Hu]. eapply chain_ext; [|exact Hu]. intros x _. apply Hsib.
  - rewrite Htl, Z.eqb_refl, (k_tail _ _ _ Hk). cbn [andb]. rewrite last0_app by done.
    destruct b as [|y b].
    + change (last0 [child]) with child. rewrite Z.eqb_refl, app_nil_r. done.
    + rewrite last0_cons by done. rewrite last0_app by done.
      destruct (Z.eqb_spec child (last0 (y :: b))) as [E|_]; [|done]. exfalso.
      apply NoDup_app in Hnd as (_ & _ & [Hn' _]%NoDup_cons). apply Hn'. rewrite E. by apply last0_in.
  - rewrite Hct, Z.eqb_refl, Hn, length_app. rewrite u32_small by lia. lia.
  - rewrite length_app. unfold MAX_PROCESSES. lia.
  - intros c Hin. rewrite (in_tab_eq s s' c Ht), Hpp, Hpid. apply Hk.
    apply elem_of_app in Hin as [?|?]; apply elem_of_app; [by left|right; by apply list_elem_of_further].
Qed.

(** The lists after [child] has left the list of [parent]. *)
Lemma unlink_tree d s K parent child a b :
  tree d s K -> node d s parent -> K parent = a ++ child :: b ->
  tree d (unlink_child parent child (last_or 0 a) s) (qset K parent (a ++ b)).
Proof.
  intros H Hp HK. pose proof (t_kids _ _ _ H parent Hp) as Hk. rewrite HK in Hk.
  pose proof (unlink_kids s parent child a b (proj1 (proj2 Hp)) Hk) as Hnew.
  pose proof (k_chain _ _ _ Hk) as Hc. pose proof (chain_NoDup _ _ _ _ Hc) as Hnd.
  assert (Hcnt : truth (ps s parent F_child_count) = true).
  { rewrite (k_count _ _ _ Hk), length_app. cbn [length]. unfold truth. zcase; [lia|done]. }
  destruct (unlink_fields s parent child (last_or 0 a) Hcnt) as (Ht & Hpid & Hpp & Hsib & Hhd & Htl & Hct).
  set (s' := unlink_child _ _ _ _) in *. clearbody s'. set (prev := last_or 0 a) in *.
  assert (Hprev : truth prev = true -> prev ∈ K parent).
  { intros Htr. unfold prev, last_or in *. destruct (last a) as [y|] eqn:E; [|done]. cbn.
    rewrite HK. apply elem_of_app. left. apply last_Some in E as [a' ->]. apply elem_of_app. right.
    apply list_elem_of_here. }
  assert (Hch : child ∈ K parent) by (rewrite HK; apply elem_of_app; right; apply list_elem_of_here).
  constructor.
  - intros p Hip%(node_eq d s s' p Ht). destruct (decide (p = parent)) as [->|Hne].
    + by rewrite qset_eq.
    + rewrite qset_ne by done. apply (kids_ext s s' p (K p) (t_kids _ _ _ H p Hip) Ht Hpid).
      * intros f [->|[->| ->]]; rewrite ?Hhd, ?Htl, ?Hct; by destruct (Z.eqb_spec p parent).
      * intros x f Hx [->| ->]; [|apply Hpp]. rewrite Hsib.
        assert (x <> child) by (intros ->; apply Hne; by apply (kids_disjoint d s K p parent child)).
        rewrite upd_ptr by done. destruct (truth prev) eqn:Et; [|done].
        apply upd_ptr. intros ->. apply Hne. apply (kids_disjoint d s K p parent prev); try done. by apply Hprev.
  - intros p p' H1%(node_eq 0 s s' p Ht) H2%(node_eq 0 s s' p' Ht). rewrite !Hpid. by apply (t_pids _ _ _ H).
  - intros p H1%(node_eq 0 s s' p Ht). rewrite Hpid. by apply (t_range _ _ _ H).
Qed.

Lemma unlink_table parent child prev s : process_table (unlink_child parent child prev s) = process_table s.
Proof.
  unfold unlink_child. destruct (truth prev); cbn [ps on_ps with_ps process_table];
    destruct (child =? _); cbn [ps on_ps with_ps process_table]; by destruct (truth _).
Qed.

(** proc_remove_child takes a child off its parent's list. *)
Lemma remove_child_tree s K parent child a b fuel :
  tree 0 s K -> node 0 s parent -> K parent = a ++ child :: b -> (length a < fuel)%nat ->
  exists s', proc_remove_child fuel child s = Some s' /\ tree 0 s' (qset K parent (a ++ b))
    /\ process_table s' = process_table s.
Proof.
  intros H Hp HK Hf. exists (unlink_child parent child (last_or 0 a) s).
  split; [|split; [by apply unlink_tree|apply unlink_table]]. pose proof (t_kids _ _ _ H parent Hp) as Hk. rewrite HK in Hk.
  pose proof (chain_NoDup _ _ _ _ (k_chain _ _ _ Hk)) as Hnd.
  assert (Hin : child ∈ a ++ child :: b) by (apply elem_of_app; right; apply list_elem_of_here).
  pose proof (chain_nonzero _ _ _ _ _ (k_chain _ _ _ Hk) Hin) as Hc0. unfold proc_remove_child.
  destruct (Z.eqb_spec child 0) as [|_]; [done|].
  destruct (k_child _ _ _ Hk child Hin) as [_ ->]. rewrite (proc_find_node 0 s K parent H Hp).
  destruct (Z.eqb_spec parent 0) as [E|_]; [by destruct Hp as (_ & Hp0 & _)|].
  apply (remove_loop_run parent child s a b); [apply Hk| |done].
  apply NoDup_app in Hnd as (_ & Hd & _). intros Ha. apply (Hd child Ha). apply list_elem_of_here.
Qed.

(** * Reparenting *)

(** A step of the loop is proc_add_child to init. *)
Lemma reparent_one_add init dead child s :
  init <> 0 -> init <> dead -> child <> 0 -> ps s init F_pid = 1 ->
  process_table (reparent_one init dead child s) = process_table s
  /\ (forall u f, ps (reparent_one init dead child s) u f = ps (proc_add_child init child s) u f).
Proof.
  intros Hi Hd Hc Hpid. destruct (add_child_fields s init child Hi Hc) as (_ & _ & _ & Hps).
  rewrite Hps, Hpid. unfold reparent_one.
  assert (Ht : truth init && negb (init =? dead) = true).
  { unfold truth. destruct (Z.eqb_spec init 0), (Z.eqb_spec init dead); done. }
  rewrite Ht. cbn [ps on_ps with_ps]. rewrite !(upd_field child _ _ _ init F_children_tail) by discriminate.
  assert (Hswap : forall u f, upd child F_parent_pid 1 (upd child F_sibling_next 0 (ps s)) u f
                    = upd child F_sibling_next 0 (upd child F_parent_pid 1 (ps s)) u f).
  { intros u f. unfold upd. repeat case_decide; naive_solver. }
  assert (Hup : forall p f v st st', (forall u g, st u g = st' u g) -> forall u g, upd p f v st u g = upd p f v st' u g).
  { intros p f v st st' He u g. unfold upd. by rewrite He. }
  destruct (truth (ps s init F_children_tail)); (split; [done|]); intros u f; cbn [ps on_ps with_ps];
    rewrite !(upd_field _ _ _ _ init F_child_count) by discriminate; by repeat (apply Hup; intros).
Qed.

Lemma tree_pointwise d s s' K :
  process_table s' = process_table s -> (forall u f, ps s' u f = ps s u f) -> tree d s K -> tree d s' K.
Proof.
  intros Ht He H. constructor.
  - intros p Hp%(node_eq d s s' p Ht). apply (kids_ext s s' p (K p) (t_kids _ _ _ H p Hp) Ht); intros; apply He.
  - intros p p' H1%(node_eq 0 s s' p Ht) H2%(node_eq 0 s s' p' Ht). rewrite !He. by apply (t_pids _ _ _ H).
  - intros p H1%(node_eq 0 s s' p Ht). rewrite He. by apply (t_range _ _ _ H).
Qed.

Lemma reparent_loop_tree init dead l fuel child s K :
  tree dead s K -> node dead s init -> ps s init F_pid = 1 ->
  chain (ps s) F_sibling_next child l -> (length l < fuel)%nat -> (forall x, x ∈ l -> in_tab s x) ->
  (forall x p, x ∈ l -> node dead s p -> x ∉ K p) ->
  exists s' K', reparent_loop fuel init dead child s = Some s' /\ tree dead s' K'
    /\ process_table s' = process_table s
    /\ K' init = K init ++ l /\ (forall p, p <> init -> K' p = K p).
Proof.
  revert fuel child s K. induction l as [|x l IH]; intros fuel child s K H Hi Hpid Hc Hf Hin Hdis;
    (destruct fuel as [|fuel]; [cbn in Hf; lia|]); cbn [reparent_loop].
  - cbn in Hc. subst child. exists s, K. split_and!; [done|done|done|by rewrite app_nil_r|done].
  - pose proof (chain_NoDup _ _ _ _ Hc) as Hnd. apply NoDup_cons in Hnd as [Hxl _].
    destruct Hc as (-> & Hx & Hc). destruct (Z.eqb_spec x 0) as [|_]; [done|].
    pose proof Hi as (Hit & Hi0 & Hid).
    assert (Hxin : in_tab s x) by apply Hin, list_elem_of_here.
    destruct (reparent_one_add init dead x s Hi0 Hid Hx Hpid) as [Ht He].
    destruct (add_child_fields s init x Hi0 Hx) as (Ha & Hap & Happ & Haps).
    pose proof (add_child_tree dead s K init x H Hi Hxin Hx (fun p => Hdis x p (list_elem_of_here _ _))) as H1.
    set (s1 := reparent_one init dead x s) in *. set (s2 := proc_add_child init x s) in *.
    apply (tree_pointwise dead s2 s1) in H1; [|by rewrite Ht, Ha|exact He]. clearbody s1 s2.
    assert (Hrest : forall y, y ∈ l -> ps s1 y F_sibling_next = ps s y F_sibling_next).
    { intros y Hy. rewrite He, Haps. assert (y <> x) by (intros ->; done).
      destruct (truth (ps s init F_children_tail)) eqn:Et;
        repeat first [rewrite upd_field by discriminate|rewrite upd_ptr by assumption]; [|done].
      rewrite upd_ptr; [repeat first [rewrite upd_field by discriminate|rewrite upd_ptr by assumption]; done|].
      intros ->. eapply (Hdis _ init); [by apply list_elem_of_further|done|].
      apply (kids_tail_in s init); [by apply (t_kids _ _ _ H)|done]. }
    destruct (IH fuel (ps s x F_sibling_next) s1 (qset K init (K init ++ [x])) H1) as (s' & K' & R1 & R2 & R3 & R4 & R5).
    + by rewrite (node_eq dead s s1 init Ht).
    + rewrite He, Hap. done.
    + eapply chain_ext; [exact Hrest|exact Hc].
    + cbn [length] in Hf. lia.
    + intros y Hy. rewrite (in_tab_eq s s1 y Ht). apply Hin. by apply list_elem_of_further.
    + intros y p Hy Hp%(node_eq dead s s1 p Ht). destruct (decide (p = init)) as [->|Hne].
      * rewrite qset_eq, not_elem_of_app, list_elem_of_singleton. split; [|intros ->; done].
        apply Hdis; [by apply list_elem_of_further|done].
      * rewrite qset_ne by done. apply Hdis; [by apply list_elem_of_further|done].
    + exists s', K'. split_and!; [exact R1|exact R2|by rewrite R3, Ht|..].
      * rewrite R4, qset_eq, <- app_assoc. done.
      * intros p Hp. rewrite R5, qset_ne by done. done.
Qed.

(** The children of a dying process become the last children of init. *)
Lemma reparent_tree s K init dead fuel :
  tree 0 s K -> node 0 s init -> ps s init F_pid = 1 -> node 0 s dead -> init <> dead ->
  (length (K dead) < fuel)%nat ->
  exists s' K', proc_reparent_orphans fuel dead s = Some s' /\ tree 0 s' K'
    /\ K' dead = [] /\ K' init = K init ++ K dead
    /\ process_table s' = process_table s.
Proof.
  intros H Hi Hpid Hd Hne Hf. pose proof Hd as (Hdt & Hd0 & _). pose proof Hi as (Hit & Hi0 & _).
  pose proof (t_kids _ _ _ H dead Hd) as Hk. unfold proc_reparent_orphans.
  destruct (Z.eqb_spec dead 0) as [|_]; [done|].
  assert (Ef : proc_find 1 s = init).
  { rewrite <- (proc_find_node 0 s K init H Hi), Hpid. by rewrite s32_small by lia. }
  assert (Hnode : forall p, node dead s p -> node 0 s p /\ p <> dead).
  { intros p (H1 & H2 & H3). by split_and!. }
  destruct (reparent_loop_tree init dead (K dead) fuel (ps s dead F_children_head) s K) as (s1 & K1 & R1 & R2 & R3 & R4 & R5).
  - constructor; [|apply H|apply H]. intros p [Hp _]%Hnode. by apply H.
  - by split_and!.
  - done.
  - apply Hk.
  - done.
  - intros x Hx. by apply (k_child _ _ _ Hk).
  - intros x p Hx [Hp Hpd]%Hnode Hx'. apply Hpd. by apply (kids_disjoint 0 s K p dead x).
  - rewrite Ef, R1. cbn [mbind option_bind]. eexists _, (qset K1 dead []).
    split; [reflexivity|]. split_and!; [|apply qset_eq|by rewrite qset_ne|exact R3].
    match goal with |- tree 0 ?x _ => set (s2 := x) end.
    assert (Hg : forall u f, (u = dead -> f <> F_children_head /\ f <> F_children_tail /\ f <> F_child_count) ->
              ps s2 u f = ps s1 u f).
    { intros u f Hu. unfold s2. cbn [ps on_ps with_ps]. rewrite !upd_ne; [done|naive_solver..]. }
    assert (Ht : process_table s2 = process_table s1) by done.
    assert (Hz : forall f, f = F_children_head \/ f = F_children_tail \/ f = F_child_count -> ps s2 dead f = 0).
    { intros f [->|[->| ->]]; unfold s2; upd_read. }
    clearbody s2. constructor.
    + intros p Hp%(node_eq 0 s1 s2 p Ht). destruct (decide (p = dead)) as [->|Hpd].
      * rewrite qset_eq. constructor; [rewrite Hz by tauto; done..|by unfold MAX_PROCESSES|].
        by intros c ?%elem_of_nil.
      * rewrite qset_ne by done. destruct Hp as (Hp1 & Hp2 & _).
        apply (kids_ext s1 s2 p (K1 p)); [by apply (t_kids _ _ _ R2)|done|..]; intros; apply Hg; naive_solver.
    + intros p p' H1%(node_eq 0 s1 s2 p Ht) H2%(node_eq 0 s1 s2 p' Ht).
      rewrite !Hg by (intros; split_and!; discriminate). by apply (t_pids _ _ _ R2).
    + intros p H1%(node_eq 0 s1 s2 p Ht). rewrite Hg by (intros; split_and!; discriminate). by apply (t_range _ _ _ R2).
Qed.

(** * The oracle accepts what the operations leave *)

Fixpoint walk (n : nat) (s : procs) (c : Z) : list Z :=
  match n with
  | O => []
  | S n => if c =? 0 then [] else c :: walk n s (ps s c F_sibling_next)
  end.

(** The children of [p], read off the links. *)
Definition children (s : procs) (p : Z) : list Z := walk 257 s (ps s p F_children_head).

Lemma walk_chain n s c l : chain (ps s) F_sibling_next c l -> (length l < n)%nat -> walk n s c = l.
Proof.
  revert n c. induction l as [|x l IH]; intros n c Hc Hn; (destruct n as [|n]; [cbn in Hn; lia|]); cbn [walk].
  - cbn in Hc. by subst c.
  - destruct Hc as (-> & Hx & Hc). destruct (Z.eqb_spec x 0) as [|_]; [done|]. f_equal.
    apply IH; [done|]. cbn [length] in Hn. lia.
Qed.

Lemma kids_children s p l : kids s p l -> children s p = l.
Proof.
  intros H. apply walk_chain; [apply H|]. pose proof (k_max _ _ _ H). unfold MAX_PROCESSES in *. lia.
Qed.

(** PIDs are in range and name one process. *)
Definition pids_ok (s : procs) : Prop :=
  (forall p p', node 0 s p -> node 0 s p' -> ps s p F_pid = ps s p' F_pid -> p = p')
  /\ (forall p, node 0 s p -> 0 <= ps s p F_pid < PID_MAX).

Lemma checked_tree s : pids_ok s -> proc_tree_check s = 0 -> tree 0 s (children s).
Proof.
  intros [H1 H2] Hc. constructor; [|done|done]. intros p Hp.
  destruct (check_tree s p Hc Hp) as [l Hl]. by rewrite (kids_children _ _ _ Hl).
Qed.

Lemma tree_children s K p : tree 0 s K -> node 0 s p -> children s p = K p.
Proof. intros H Hp. apply kids_children. by apply (t_kids _ _ _ H). Qed.

(** C28: on a process table that proc_tree_check accepts, adding a process that
    is nobody's child, removing a child (the walk ends) and reparenting the
    children of a dying process to init (the walk ends) leave a table that
    proc_tree_check accepts; the child lists change as meant: the new child goes
    last, the removed child is gone, the orphans follow init's own children. *)
Theorem proc_tree_preserved s :
  pids_ok s -> proc_tree_check s = 0 ->
  (forall parent child, node 0 s parent -> in_tab s child -> child <> 0 ->
     (forall p, node 0 s p -> child ∉ children s p) ->
     proc_tree_check (proc_add_child parent child s) = 0
     /\ children (proc_add_child parent child s) parent = children s parent ++ [child])
  /\ (forall parent a child b, node 0 s parent -> children s parent = a ++ child :: b ->
     exists s', proc_remove_child 257 child s = Some s' /\ proc_tree_check s' = 0
       /\ children s' parent = a ++ b)
  /\ (forall init dead, node 0 s init -> ps s init F_pid = 1 -> node 0 s dead -> init <> dead ->
     exists s', proc_reparent_orphans 257 dead s = Some s' /\ proc_tree_check s' = 0
       /\ children s' dead = [] /\ children s' init = children s init ++ children s dead).
Proof.
  intros Hpids Hc. pose proof (checked_tree s Hpids Hc) as H.
  assert (Hlen : forall p, node 0 s p -> (length (children s p) < 257)%nat).
  { intros p Hp. pose proof (k_max _ _ _ (t_kids _ _ _ H p Hp)). unfold MAX_PROCESSES in *. lia. }
  split_and!.
  - intros parent child Hp Hct Hc0 Hfree. pose proof (add_child_tree 0 s _ parent child H Hp Hct Hc0 Hfree) as H'.
    pose proof (proj1 (add_child_fields s parent child (proj1 (proj2 Hp)) Hc0)) as Ht.
    split; [by eapply tree_check|]. rewrite (tree_children _ _ parent H'); [by rewrite qset_eq|].
    by rewrite (node_eq 0 s _ parent Ht).
  - intros parent a child b Hp HK.
    destruct (remove_child_tree s _ parent child a b 257 H Hp HK) as (s' & Hrun & H' & Ht).
    { specialize (Hlen parent Hp). rewrite HK, length_app in Hlen. lia. }
    exists s'. split_and!; [done|by eapply tree_check|].
    rewrite (tree_children _ _ parent H'); [by rewrite qset_eq|]. by rewrite (node_eq 0 s _ parent Ht).
  - intros init dead Hi Hpid Hd Hne.
    destruct (reparent_tree s _ init dead 257 H Hi Hpid Hd Hne (Hlen dead Hd)) as (s' & K' & Hrun & H' & E1 & E2 & Ht).
    exists s'. split_and!; [done|by eapply tree_check|..].
    + rewrite (tree_children _ _ dead H'); [done|]. by rewrite (node_eq 0 s _ dead Ht).
    + rewrite (tree_children _ _ init H'); [done|]. by rewrite (node_eq 0 s _ init Ht).
Qed.

(** ** Witness: the two boot processes and one child of init *)

Definition demo_procs : procs := pr demo_two.

Lemma demo_node p : node 0 demo_procs p -> p = 1000 \/ p = 2000 \/ p = 3000.
Proof.
  intros ((i & Hi & Hp) & Hp0 & _).
  assert (Ht : forall n : nat, (n < 256)%nat -> process_table demo_procs (Z.of_nat n)
            = match n with 0%nat => 1000 | 1%nat => 2000 | 2%nat => 3000 | _ => 0 end).
  { assert (Hall : forallb (fun n => process_table demo_procs (Z.of_nat n) =?
        match n with 0%nat => 1000 | 1%nat => 2000 | 2%nat => 3000 | _ => 0 end) (seq 0 256) = true)
      by (vm_compute; reflexivity).
    intros n Hn. rewrite forallb_forall in Hall. apply Z.eqb_eq, Hall, in_seq. lia. }
  unfold MAX_PROCESSES in Hi. specialize (Ht (Z.to_nat i) ltac:(lia)). rewrite Z2Nat.id in Ht by lia.
  rewrite Hp in Ht. destruct (Z.to_nat i) as [|[|[|]]]; auto. done.
Qed.

Lemma demo_pids_ok : pids_ok demo_procs.
Proof.
  split.
  - intros p p' [->|[->| ->]]%demo_node [->|[->| ->]]%demo_node; vm_compute; congruence.
  - intros p [->|[->| ->]]%demo_node; vm_compute; split; congruence.
Qed.

Lemma proc_tree_preserved_witness :
  exists s', proc_remove_child 257 3000 demo_procs = Some s' /\ proc_tree_check s' = 0
    /\ children s' 2000 = [].
Proof.
  destruct (proc_tree_preserved demo_procs demo_pids_ok) as (_ & H & _); [vm_compute; reflexivity|].
  apply (H 2000 [] 3000 []).
  - split_and!; [exists 1; split; [unfold MAX_PROCESSES; lia|vm_compute; reflexivity]|done|done].
  - vm_compute. reflexivity.
Defined.
