(* ===== verification/Signal.v ===== *)
(** POSIX signals, [kernel/signal/signal.c], on the scheduler's state, and the
    copies to and from user memory of [kernel/arch/uaccess.c] they use.

    thread_exit does not return: a routine that calls it gives the exit code as
    a result ([Dies]); Thread.v has thread_exit itself. *)

From stdpp Require Import base numbers list gmap.
From Stdlib Require Import ZArith Lia.
From S2P Require Import Prelude Pid Proc Sched SchedInv.

Definition NSIG : Z := 32.
Definition SIGHUP : Z := 1.
Definition SIGINT : Z := 2.
Definition SIGQUIT : Z := 3.
Definition SIGILL : Z := 4.
Definition SIGABRT : Z := 6.
Definition SIGKILL : Z := 9.
Definition SIGSEGV : Z := 11.
Definition SIGPIPE : Z := 13.
Definition SIGTERM : Z := 15.
Definition SIGCHLD : Z := 17.
Definition SIGCONT : Z := 18.
Definition SIGSTOP : Z := 19.
Definition SIGTSTP : Z := 20.

Definition SIG_BLOCK : Z := 0.
Definition SIG_UNBLOCK : Z := 1.
Definition SIG_SETMASK : Z := 2.
Definition SIG_DFL : Z := 0.
Definition SIG_IGN : Z := 1.

(** [1ull << s] and [1u << s], for signal numbers. *)
Definition sigmask (s : Z) : Z := Z.shiftl 1 s.

(** [~x] on 64 and on 32 bits. *)
Definition not64 (x : Z) : Z := u64 (Z.lnot x).
Definition not32 (x : Z) : Z := u32 (Z.lnot x).

Definition is_terminate (sig : Z) : bool :=
  existsb (Z.eqb sig) [SIGHUP; SIGINT; SIGQUIT; SIGILL; SIGABRT; SIGKILL; SIGSEGV; SIGTERM;
                       SIGPIPE; SIGTSTP].

Definition uncatchable (sig : Z) : bool := (sig =? SIGKILL) || (sig =? SIGSTOP).

Definition effectively_ignored (s : sched) (t sig : Z) : bool :=
  if uncatchable sig then false
  else if truth (get s t (F_sig_handler sig)) then false
  else if truth (Z.land (get s t F_sig_ignore) (u32 (sigmask sig))) then true
  else negb (is_terminate sig).

(** * Generation *)

(** The pending bit, and the wake-up of a target blocked in a wait. *)
Definition post_signal (t sig : Z) (s : sched) : sched :=
  let s := put t F_sig_pending (Z.lor (get s t F_sig_pending) (sigmask sig)) s in
  if (uncatchable sig || negb (truth (Z.land (get s t F_sig_blocked) (sigmask sig))))
     && (get s t F_state =? PROC_BLOCKED)
  then sched_wake t (put t F_sig_interrupt 1 s)
  else s.

Definition signal_send (t sig : Z) (s : sched) : Z * sched :=
  if (t =? 0) || (sig <=? 0) || (NSIG <=? sig) then (- EINVAL, s)
  else if effectively_ignored s t sig then (0, s)
  else (0, post_signal t sig s).

(** The walk over all_processes from [p]; [n] signals have been posted so far. *)
Fixpoint send_pgrp_from (fuel : nat) (pgid sig p n : Z) (s : sched) : option (Z * sched) :=
  match fuel with
  | O => None
  | S fuel =>
      if p =? 0 then Some (n, s)
      else if (get s p F_pgid =? pgid) && negb (get s p F_state =? PROC_ZOMBIE)
              && negb (effectively_ignored s p sig)
      then let s := post_signal p sig s in
           send_pgrp_from fuel pgid sig (get s p F_all_next) (n + 1) s
      else send_pgrp_from fuel pgid sig (get s p F_all_next) n s
  end.

Definition signal_send_pgrp (fuel : nat) (pgid sig : Z) (s : sched) : option (Z * sched) :=
  send_pgrp_from fuel pgid sig (all_head (pr s)) 0 s.

Definition signal_kill (fuel : nat) (pid sig : Z) (s : sched) : option (Z * sched) :=
  if (sig <? 0) || (NSIG <=? sig) then Some (- EINVAL, s)
  else if 0 <? pid then
    let t := proc_find pid (pr s) in
    if t =? 0 then Some (- ESRCH, s)
    else if sig =? 0 then Some (0, s)
    else Some (signal_send t sig s)
  else
    let cur := current_process s in
    let pgid := if pid =? 0 then (if truth cur then get s cur F_pgid else 0) else u32 (- pid) in
    '(n, s) ← signal_send_pgrp fuel pgid sig s;
    Some (if 0 <? n then 0 else - ESRCH, s).

(** * Mask and dispositions of the current thread *)

Definition unmaskable : Z := Z.lor (sigmask SIGKILL) (sigmask SIGSTOP).

(** The result, the old mask and the state. *)
Definition signal_procmask (how set : Z) (s : sched) : Z * Z * sched :=
  let cur := current_process s in
  if cur =? 0 then (- EINVAL, 0, s) else
  let old := get s cur F_sig_blocked in
  let set := Z.land set (not64 unmaskable) in
  if how =? SIG_BLOCK then (0, old, put cur F_sig_blocked (Z.lor old set) s)
  else if how =? SIG_UNBLOCK then (0, old, put cur F_sig_blocked (Z.land old (not64 set)) s)
  else if how =? SIG_SETMASK then (0, old, put cur F_sig_blocked set s)
  else (- EINVAL, old, s).

Definition signal_set_ignore (sig ignore : Z) (s : sched) : Z * sched :=
  if (sig <=? 0) || (NSIG <=? sig) || uncatchable sig then (- EINVAL, s) else
  let cur := current_process s in
  if cur =? 0 then (- EINVAL, s)
  else if truth ignore
  then (0, put cur F_sig_ignore (Z.lor (get s cur F_sig_ignore) (u32 (sigmask sig))) s)
  else (0, put cur F_sig_ignore (Z.land (get s cur F_sig_ignore) (not32 (sigmask sig))) s).

Definition signal_pending (s : sched) : bool :=
  let cur := current_process s in
  if cur =? 0 then false
  else truth (Z.land (get s cur F_sig_pending) (not64 (get s cur F_sig_blocked))).

Definition signal_sigaction (sig handler restorer : Z) (s : sched) : Z * sched :=
  if (sig <=? 0) || (NSIG <=? sig) || uncatchable sig then (- EINVAL, s) else
  let cur := current_process s in
  if cur =? 0 then (- EINVAL, s) else
  let unignore s := put cur F_sig_ignore (Z.land (get s cur F_sig_ignore) (not32 (sigmask sig))) s in
  let s :=
    if handler =? SIG_DFL then unignore (put cur (F_sig_handler sig) 0 s)
    else if handler =? SIG_IGN then
      let s := put cur (F_sig_handler sig) 0 s in
      let s := put cur F_sig_ignore (Z.lor (get s cur F_sig_ignore) (u32 (sigmask sig))) s in
      put cur F_sig_pending (Z.land (get s cur F_sig_pending) (not64 (sigmask sig))) s
    else unignore (put cur (F_sig_handler sig) handler s) in
  (0, if truth restorer then put cur F_sig_restorer restorer s else s).

Definition signal_reset_handlers (t : Z) (s : sched) : sched :=
  if t =? 0 then s
  else put t F_sig_restorer 0 (for_range 0 NSIG (fun sig => put t (F_sig_handler sig) 0) s).

(** * Acceptance *)

(** The pending signals the mask lets through, SIGKILL and SIGSTOP always. *)
Definition deliverable (s : sched) (cur : Z) : Z :=
  Z.land (get s cur F_sig_pending) (Z.lor (not64 (get s cur F_sig_blocked)) unmaskable).

Definition accept (cur sig : Z) (s : sched) : sched :=
  put cur F_sig_pending (Z.land (get s cur F_sig_pending) (not64 (sigmask sig))) s.

(** The scan of signal_take_terminate from [sig] on, [n] signals. *)
Fixpoint take_terminate_from (n : nat) (cur d sig : Z) (s : sched) : Z * sched :=
  match n with
  | O => (0, s)
  | S n =>
      if negb (truth (Z.land d (sigmask sig))) then take_terminate_from n cur d (sig + 1) s
      else if truth (get s cur (F_sig_handler sig)) then take_terminate_from n cur d (sig + 1) s
      else
        let s := accept cur sig s in
        if is_terminate sig then (sig, s) else take_terminate_from n cur d (sig + 1) s
  end.

Definition signal_take_terminate (s : sched) : Z * sched :=
  let cur := current_process s in
  if cur =? 0 then (0, s) else
  let d := deliverable s cur in
  take_terminate_from (Z.to_nat (NSIG - 1)) cur d 1 (put cur F_sig_interrupt 0 s).

(** The exit code when the thread dies here, and the state. *)
Definition signal_check_and_die (s : sched) : option Z * sched :=
  let cur := current_process s in
  if (cur =? 0) || (get s cur F_is_user =? 0) then (None, s) else
  let '(sig, s) := signal_take_terminate s in
  if truth sig then (Some (128 + sig), s) else (None, s).

(** * User memory *)

(** User memory and the bytes of it that can be touched without a fault. *)
Record umem := Umem { um : mem; uok : Z -> bool }.

Definition USER_END : Z := 0x0000800000000000.

(** user_range_ok: [a + n] does not wrap and stays in the lower half. *)
Definition user_range_ok (a n : Z) : bool :=
  if 2 ^ 64 <=? a + n then false else a + n <=? USER_END.

(** __copy_user towards user memory: byte [i] of the source is [src i]; the copy
    stops at the first fault and gives the number of bytes left. *)
Fixpoint copy_user_out (n : nat) (dst i : Z) (src : Z -> Z) (u : umem) : Z * umem :=
  match n with
  | O => (0, u)
  | S n' => if uok u (dst + i)
            then copy_user_out n' dst (i + 1) src (Umem (mset (um u) (dst + i) (src i)) (uok u))
            else (Z.of_nat n, u)
  end.

Definition copy_to_user (dst : Z) (src : Z -> Z) (n : Z) (u : umem) : Z * umem :=
  if user_range_ok dst n then
    let '(rem, u) := copy_user_out (Z.to_nat n) dst 0 src u in
    (if truth rem then - EFAULT else n, u)
  else (- EFAULT, u).

(** __copy_user from user memory; the bytes read are those of [um]. *)
Definition copy_from_user_ok (src n : Z) (u : umem) : bool :=
  user_range_ok src n
  && match find_slot (Z.to_nat n) src (fun a => negb (uok u a)) with None => true | Some _ => false end.

(** * Handlers *)

(** trapframe_t. *)
Record trapframe := Trapframe {
  tf_r15 : Z; tf_r14 : Z; tf_r13 : Z; tf_r12 : Z; tf_r11 : Z; tf_r10 : Z; tf_r9 : Z; tf_r8 : Z;
  tf_rbp : Z; tf_rdi : Z; tf_rsi : Z; tf_rdx : Z; tf_rcx : Z; tf_rbx : Z; tf_rax : Z;
  tf_int_no : Z; tf_rip : Z; tf_cs : Z; tf_rflags : Z; tf_rsp : Z; tf_ss : Z }.

(** sigcontext_t as its 19 quad words, in the order of the struct:
    r15 .. r8, rbp, rdi, rsi, rdx, rcx, rbx, rax, rip, rflags, rsp, blocked. *)
Definition sigcontext_of (tf : trapframe) (blocked : Z) : list Z :=
  [tf_r15 tf; tf_r14 tf; tf_r13 tf; tf_r12 tf; tf_r11 tf; tf_r10 tf; tf_r9 tf; tf_r8 tf;
   tf_rbp tf; tf_rdi tf; tf_rsi tf; tf_rdx tf; tf_rcx tf; tf_rbx tf; tf_rax tf;
   tf_rip tf; tf_rflags tf; tf_rsp tf; blocked].

Definition SC_SIZE : Z := 152.

(** Byte [i] of a sequence of quad words. *)
Definition byte_of (l : list Z) (i : Z) : Z :=
  (default 0 (l !! Z.to_nat (i / 8)) / 256 ^ (i mod 8)) mod 256.

(** What becomes of the thread: it goes on with the trap frame, or thread_exit
    is called with a code. *)
Inductive outcome :=
  | Runs (tf : trapframe) (u : umem) (s : sched)
  | Dies (code : Z) (u : umem) (s : sched).

Definition deliver_to_handler (cur : Z) (tf : trapframe) (sig handler : Z) (u : umem) (s : sched)
  : outcome :=
  let sc := sigcontext_of tf (get s cur F_sig_blocked) in
  let sc_addr := Z.land (u64 (tf_rsp tf - 128 - SC_SIZE)) (2 ^ 64 - 16) in
  let ret_slot := u64 (sc_addr - 8) in
  if get s cur F_sig_restorer =? 0 then Dies (128 + SIGSEGV) u s else
  let '(r1, u) := copy_to_user sc_addr (byte_of sc) SC_SIZE u in
  if r1 <? 0 then Dies (128 + SIGSEGV) u s else
  let '(r2, u) := copy_to_user ret_slot (byte_of [get s cur F_sig_restorer]) 8 u in
  if r2 <? 0 then Dies (128 + SIGSEGV) u s else
  let s := put cur F_sig_blocked (Z.lor (get s cur F_sig_blocked) (sigmask sig)) s in
  Runs (Trapframe (tf_r15 tf) (tf_r14 tf) (tf_r13 tf) (tf_r12 tf) (tf_r11 tf) (tf_r10 tf)
          (tf_r9 tf) (tf_r8 tf) (tf_rbp tf) sig (tf_rsi tf) (tf_rdx tf) (tf_rcx tf) (tf_rbx tf) 0
          (tf_int_no tf) handler (tf_cs tf) (tf_rflags tf) ret_slot (tf_ss tf)) u s.

Fixpoint deliver_from (n : nat) (cur d sig : Z) (tf : trapframe) (u : umem) (s : sched) : outcome :=
  match n with
  | O => Runs tf u s
  | S n =>
      if negb (truth (Z.land d (sigmask sig))) then deliver_from n cur d (sig + 1) tf u s
      else
        let h := get s cur (F_sig_handler sig) in
        let s := accept cur sig s in
        if truth h then deliver_to_handler cur tf sig h u s
        else if is_terminate sig then Dies (128 + sig) u s
        else deliver_from n cur d (sig + 1) tf u s
  end.

Definition signal_deliver (tf : trapframe) (u : umem) (s : sched) : outcome :=
  let cur := current_process s in
  if (cur =? 0) || (get s cur F_is_user =? 0) then Runs tf u s else
  let d := deliverable s cur in
  deliver_from (Z.to_nat (NSIG - 1)) cur d 1 tf u (put cur F_sig_interrupt 0 s).

Definition signal_restore_ok (rip rsp : Z) : bool :=
  if (rip <? 0x1000) || (USER_END <=? rip) then false
  else if (rsp =? 0) || (USER_END <=? rsp) then false
  else true.

(** sigreturn: the outcome and the value the dispatcher stores in rax. *)
Definition signal_sigreturn (tf : trapframe) (u : umem) (s : sched) : Z * outcome :=
  let cur := current_process s in
  if negb (copy_from_user_ok (tf_rsp tf) SC_SIZE u) then (0, Dies (128 + SIGSEGV) u s) else
  let sc (k : Z) := ld64 (um u) (tf_rsp tf + 8 * k) in
  let rip := sc 15 in
  let rsp := sc 17 in
  if negb (signal_restore_ok rip rsp) then (0, Dies (128 + SIGSEGV) u s) else
  let tf' := Trapframe (sc 0) (sc 1) (sc 2) (sc 3) (sc 4) (sc 5) (sc 6) (sc 7) (sc 8) (sc 9)
               (sc 10) (sc 11) (sc 12) (sc 13) (tf_rax tf) (tf_int_no tf) rip (tf_cs tf)
               (Z.lor (Z.land (sc 16) 0xCD5) 0x202) rsp (tf_ss tf) in
  let s := if truth cur then put cur F_sig_blocked (Z.land (sc 18) (not64 unmaskable)) s else s in
  (sc 14, Runs tf' u s).

(** * Process groups and sessions *)

Definition sys_setpgid (pid pgid : Z) (s : sched) : Z * sched :=
  let cur := current_process s in
  if cur =? 0 then (- ESRCH, s)
  else if pgid <? 0 then (- EINVAL, s)
  else
    let t := if pid =? 0 then cur else proc_find pid (pr s) in
    if t =? 0 then (- ESRCH, s)
    else if negb (t =? cur) && negb (get s t F_parent_pid =? get s cur F_pid) then (- ESRCH, s)
    else if negb (get s t F_sid =? get s cur F_sid) then (- EPERM, s)
    else (0, put t F_pgid (if pgid =? 0 then get s t F_pid else u32 pgid) s).

Definition sys_getpgid (pid : Z) (s : sched) : Z :=
  let t := if pid =? 0 then current_process s else proc_find pid (pr s) in
  if truth t then s32 (get s t F_pgid) else - ESRCH.

Definition sys_setsid (s : sched) : Z * sched :=
  let cur := current_process s in
  if cur =? 0 then (- EINVAL, s) else
  let s := put cur F_sid (get s cur F_pid) s in
  let s := put cur F_pgid (get s cur F_pid) s in
  (s32 (get s cur F_sid), s).

(** * Masks *)

Lemma testbit_not64 x k : 0 <= k < 64 -> Z.testbit (not64 x) k = negb (Z.testbit x k).
Proof. intros. unfold not64. rewrite testbit_u64, Z.lnot_spec by lia. done. Qed.

Lemma testbit_sigmask s k : 0 <= s -> 0 <= k -> Z.testbit (sigmask s) k = bool_decide (s = k).
Proof. apply testbit_one_shift. Qed.

Lemma testbit_unmaskable k : 0 <= k -> Z.testbit unmaskable k = uncatchable k.
Proof.
  intros. unfold unmaskable, uncatchable. rewrite Z.lor_spec, !testbit_sigmask by done.
  f_equal; rewrite Z.eqb_sym; unfold SIGKILL, SIGSTOP; case_bool_decide; zcase; done.
Qed.

Lemma uncatchable_range k : uncatchable k = true -> 0 <= k < 32.
Proof. unfold uncatchable, SIGKILL, SIGSTOP. zcase; cbn; (lia || done). Qed.

Lemma land_sigmask x k : 0 <= k -> truth (Z.land x (sigmask k)) = Z.testbit x k.
Proof. apply land_one_shift. Qed.

(** No thread blocks SIGKILL or SIGSTOP or has a handler for them. *)
Definition sig_inv (s : sched) : Prop :=
  forall t k, uncatchable k = true ->
    Z.testbit (get s t F_sig_blocked) k = false /\ get s t (F_sig_handler k) = 0.

Definition sig_field (f : field) : bool :=
  match f with F_sig_blocked | F_sig_handler _ => true | _ => false end.

Lemma sig_inv_frame s s' :
  (forall t f, sig_field f = true -> get s' t f = get s t f) -> sig_inv s -> sig_inv s'.
Proof. intros Hf H t k Hk. rewrite !Hf by done. by apply H. Qed.

Lemma sig_inv_put t f v s : sig_field f = false -> sig_inv s -> sig_inv (put t f v s).
Proof. intros Hf. apply sig_inv_frame. intros u g Hg. apply get_put_field. congruence. Qed.

Lemma sig_inv_blocked t v s :
  (forall k, uncatchable k = true -> Z.testbit v k = false) -> sig_inv s ->
  sig_inv (put t F_sig_blocked v s).
Proof.
  intros Hv H u k Hk. rewrite (get_put_field _ _ _ _ _ (F_sig_handler k)) by done.
  split; [|by apply H]. destruct (decide (u = t)) as [->|].
  - rewrite get_put_eq. by apply Hv.
  - rewrite get_put_ptr by done. by apply H.
Qed.

Lemma sig_inv_handler t sig v s :
  uncatchable sig = false \/ v = 0 -> sig_inv s -> sig_inv (put t (F_sig_handler sig) v s).
Proof.
  intros Hv H u k Hk. rewrite (get_put_field _ _ _ _ _ F_sig_blocked) by done. split; [by apply H|].
  destruct (decide (u = t /\ k = sig)) as [[-> ->]|Hne].
  - rewrite get_put_eq. destruct Hv; congruence.
  - rewrite get_put_ne by (intros [= -> ->]; by apply Hne). by apply H.
Qed.

(** A mask from which SIGKILL and SIGSTOP have been stripped. *)
Lemma stripped_mask x k : uncatchable k = true -> Z.testbit (Z.land x (not64 unmaskable)) k = false.
Proof.
  intros Hk. pose proof (uncatchable_range _ Hk).
  rewrite Z.land_spec, testbit_not64, testbit_unmaskable, Hk by lia. apply andb_false_r.
Qed.

Lemma sig_inv_procmask how set s : sig_inv s -> sig_inv (signal_procmask how set s).2.
Proof.
  intros H. unfold signal_procmask. destruct (_ =? 0); [done|].
  destruct (how =? SIG_BLOCK); [|destruct (how =? SIG_UNBLOCK); [|destruct (how =? SIG_SETMASK); [|done]]];
    cbn [snd]; apply sig_inv_blocked; try done; intros k Hk.
  - rewrite Z.lor_spec, stripped_mask by done. rewrite orb_false_r. by apply H.
  - rewrite Z.land_spec. by rewrite (proj1 (H _ k Hk)).
  - by apply stripped_mask.
Qed.

Lemma sig_inv_sigaction sig h r s : sig_inv s -> sig_inv (signal_sigaction sig h r s).2.
Proof.
  intros H. unfold signal_sigaction. destruct (uncatchable sig) eqn:Eu; [by rewrite orb_true_r|].
  destruct (_ || _); [done|]. destruct (_ =? 0); [done|]. cbn [snd].
  destruct (h =? SIG_DFL); [|destruct (h =? SIG_IGN)]; destruct (truth r);
    repeat (apply sig_inv_put; [done|]); apply sig_inv_handler; by first [left | done].
Qed.

Lemma sig_inv_set_ignore sig i s : sig_inv s -> sig_inv (signal_set_ignore sig i s).2.
Proof.
  intros H. unfold signal_set_ignore. destruct (_ || _); [done|]. destruct (_ =? 0); [done|].
  destruct (truth i); by apply sig_inv_put.
Qed.

Lemma sig_inv_reset t s : sig_inv s -> sig_inv (signal_reset_handlers t s).
Proof.
  intros H. unfold signal_reset_handlers. destruct (t =? 0); [done|]. apply sig_inv_put; [done|].
  apply for_range_inv; [done|]. intros. apply sig_inv_handler; [by right|done].
Qed.

Lemma runq_push_sig t s : sig_inv s -> sig_inv (runq_push t s).
Proof. apply sig_inv_frame. intros u f Hf. apply runq_push_get. by intros ->. Qed.

Lemma sig_inv_wake t s : sig_inv s -> sig_inv (sched_wake t s).
Proof.
  intros H. unfold sched_wake. destruct (_ =? 0); [done|]. destruct (_ && _); [|done].
  unfold make_ready. apply (sig_inv_frame (runq_push t (put t F_state PROC_READY s))); [done|].
  apply runq_push_sig. by apply sig_inv_put.
Qed.

Lemma sig_inv_post t sig s : sig_inv s -> sig_inv (post_signal t sig s).
Proof.
  intros H. unfold post_signal. destruct (_ && _); [apply sig_inv_wake|]; repeat (apply sig_inv_put; [done|]); done.
Qed.

Lemma sig_inv_send t sig s : sig_inv s -> sig_inv (signal_send t sig s).2.
Proof.
  intros H. unfold signal_send. destruct (_ || _); [done|]. destruct (effectively_ignored _ _ _); [done|].
  by apply sig_inv_post.
Qed.

Lemma sig_inv_pgrp fuel pgid sig p n s n' s' :
  sig_inv s -> send_pgrp_from fuel pgid sig p n s = Some (n', s') -> sig_inv s'.
Proof.
  revert p n s. induction fuel as [|fuel IH]; intros p n s H; cbn [send_pgrp_from]; [done|].
  destruct (_ =? 0); [by intros [= <- <-]|]. destruct (_ && _); apply IH; [by apply sig_inv_post|done].
Qed.

Lemma sig_inv_kill fuel pid sig s r s' :
  sig_inv s -> signal_kill fuel pid sig s = Some (r, s') -> sig_inv s'.
Proof.
  intros H. unfold signal_kill. destruct (_ || _); [by intros [= <- <-]|]. destruct (0 <? pid).
  - destruct (_ =? 0); [by intros [= <- <-]|]. destruct (sig =? 0); [by intros [= <- <-]|].
    intros [= E]. pose proof (sig_inv_send (proc_find pid (pr s)) sig s H) as H1. by rewrite E in H1.
  - intros ([n s1] & H1 & [= _ <-])%bind_Some. by eapply sig_inv_pgrp.
Qed.

Lemma sig_inv_accept cur sig s : sig_inv s -> sig_inv (accept cur sig s).
Proof. by apply sig_inv_put. Qed.

Lemma sig_inv_take n cur d sig s : sig_inv s -> sig_inv (take_terminate_from n cur d sig s).2.
Proof.
  revert sig s. induction n as [|n IH]; intros sig s H; cbn [take_terminate_from]; [done|].
  destruct (negb _); [by apply IH|]. destruct (truth _); [by apply IH|].
  destruct (is_terminate sig); [|apply IH]; by apply sig_inv_accept.
Qed.

Lemma sig_inv_check s : sig_inv s -> sig_inv (signal_check_and_die s).2.
Proof.
  intros H. unfold signal_check_and_die. destruct (_ || _); [done|].
  unfold signal_take_terminate. destruct (_ =? 0); [done|].
  pose proof (sig_inv_take (Z.to_nat (NSIG - 1)) (current_process s) (deliverable s (current_process s)) 1 _
    (sig_inv_put (current_process s) F_sig_interrupt 0 s eq_refl H)) as H1.
  destruct (take_terminate_from _ _ _ _ _) as [sig s1]. by destruct (truth sig).
Qed.

Definition outcome_state (o : outcome) : sched :=
  match o with Runs _ _ s => s | Dies _ _ s => s end.

Lemma sig_inv_to_handler cur tf sig h u s :
  sig_inv s -> uncatchable sig = false -> 0 <= sig ->
  sig_inv (outcome_state (deliver_to_handler cur tf sig h u s)).
Proof.
  intros H Hu Hs. unfold deliver_to_handler. destruct (_ =? 0); [done|].
  destruct (copy_to_user _ _ SC_SIZE _) as [r1 u1]. destruct (r1 <? 0); [done|].
  destruct (copy_to_user _ _ _ u1) as [r2 u2]. destruct (r2 <? 0); [done|]. cbn [outcome_state].
  apply sig_inv_blocked; [|done]. intros k Hk. pose proof (uncatchable_range _ Hk).
  rewrite Z.lor_spec, testbit_sigmask, (proj1 (H cur k Hk)) by lia. cbn.
  apply bool_decide_false. congruence.
Qed.

Lemma sig_inv_deliver_from n cur d sig tf u s :
  sig_inv s -> 0 <= sig -> sig_inv (outcome_state (deliver_from n cur d sig tf u s)).
Proof.
  revert sig s. induction n as [|n IH]; intros sig s H Hs; cbn [deliver_from]; [done|].
  destruct (negb _); [apply IH; [done|lia]|].
  assert (H1 : sig_inv (accept cur sig s)) by by apply sig_inv_accept.
  destruct (truth _) eqn:Eh.
  - apply sig_inv_to_handler; [done| |done]. destruct (uncatchable sig) eqn:Eu; [|done].
    by rewrite (proj2 (H cur sig Eu)) in Eh.
  - destruct (is_terminate sig); [done|]. apply IH; [done|lia].
Qed.

Lemma sig_inv_deliver tf u s : sig_inv s -> sig_inv (outcome_state (signal_deliver tf u s)).
Proof.
  intros H. unfold signal_deliver. destruct (_ || _); [done|].
  apply sig_inv_deliver_from; [by apply sig_inv_put|done].
Qed.

Lemma sig_inv_sigreturn tf u s : sig_inv s -> sig_inv (outcome_state (signal_sigreturn tf u s).2).
Proof.
  intros H. unfold signal_sigreturn. destruct (negb _); [done|]. destruct (negb _); [done|].
  cbn [snd outcome_state]. destruct (truth _); [|done]. apply sig_inv_blocked; [|done].
  intros k Hk. by apply stripped_mask.
Qed.

(** ** Reachable states *)

Lemma switch_to_kept prev next s s' u f :
  switch_to prev next s = Some s' -> kept f = true -> get s' u f = get s u f.
Proof.
  intros Hs Hf. unfold switch_to in Hs. apply bind_Some in Hs as (s1 & H1 & Hs).
  assert (Hg : get s1 u f = get s u f).
  { destruct (_ && _); [destruct (truth prev); [|done]|]; injection H1 as <-; [|done].
    apply get_put_field. by intros ->. }
  revert Hs. destruct (_ && negb (_ =? STACK_CANARY_MAGIC)); [done|].
  destruct (negb (truth next)); [done|]. intros [= <-].
  rewrite get_with_current, !get_put_field by (by intros ->). done.
Qed.

Lemma schedule_kept s s' u f : schedule s = Some s' -> kept f = true -> get s' u f = get s u f.
Proof.
  rewrite schedule_split. intros Hs Hf. rewrite (switch_to_kept _ _ _ _ _ _ Hs Hf).
  rewrite pop_get by (by intros ->). destruct (requeued_frame s) as (_ & _ & Hk & _).
  apply Hk; by intros ->.
Qed.

(** One signal operation, or a switch to another thread. A [Dies] outcome ends
    the thread and is not followed here. *)
Inductive sig_step : sched -> sched -> Prop :=
  | step_procmask how set s : sig_step s (signal_procmask how set s).2
  | step_sigaction sig h r s : sig_step s (signal_sigaction sig h r s).2
  | step_set_ignore sig i s : sig_step s (signal_set_ignore sig i s).2
  | step_reset t s : sig_step s (signal_reset_handlers t s)
  | step_kill fuel pid sig s r s' : signal_kill fuel pid sig s = Some (r, s') -> sig_step s s'
  | step_check s : sig_step s (signal_check_and_die s).2
  | step_deliver tf u s : sig_step s (outcome_state (signal_deliver tf u s))
  | step_sigreturn tf u s : sig_step s (outcome_state (signal_sigreturn tf u s).2)
  | step_switch s s' : schedule s = Some s' -> sig_step s s'.

(** States reached from one in which nothing is masked and no handler is set. *)
Inductive sig_reach : sched -> Prop :=
  | reach_start s :
      (forall t, get s t F_sig_blocked = 0 /\ forall k, get s t (F_sig_handler k) = 0) -> sig_reach s
  | reach_step s s' : sig_reach s -> sig_step s s' -> sig_reach s'.

Lemma sig_reach_inv s : sig_reach s -> sig_inv s.
Proof.
  induction 1 as [s H|s s' _ IH Hstep].
  - intros t k _. destruct (H t) as [-> Hk]. split; [apply Z.bits_0|apply Hk].
  - destruct Hstep; eauto using sig_inv_procmask, sig_inv_sigaction, sig_inv_set_ignore,
      sig_inv_reset, sig_inv_kill, sig_inv_check, sig_inv_deliver, sig_inv_sigreturn.
    eapply sig_inv_frame; [|done]. intros t f Hf. eapply schedule_kept; [done|]. by destruct f.
Qed.

(** ** SIGKILL *)

Lemma accept_get cur sig s u f : f <> F_sig_pending -> get (accept cur sig s) u f = get s u f.
Proof. apply get_put_field. Qed.

Lemma take_terminate_bound n cur d sig s :
  0 <= sig <= SIGKILL -> SIGKILL < sig + Z.of_nat n ->
  Z.testbit d SIGKILL = true -> get s cur (F_sig_handler SIGKILL) = 0 ->
  sig <= (take_terminate_from n cur d sig s).1 <= SIGKILL
  /\ is_terminate (take_terminate_from n cur d sig s).1 = true.
Proof.
  revert sig s. induction n as [|n IH]; intros sig s Hs Hn Hd Hh; [lia|]. cbn [take_terminate_from].
  rewrite land_sigmask by lia. destruct (Z.eqb_spec sig SIGKILL) as [->|Hne].
  - rewrite Hd, Hh. done.
  - assert (Hrec : forall s1, get s1 cur (F_sig_handler SIGKILL) = 0 ->
      sig <= (take_terminate_from n cur d (sig + 1) s1).1 <= SIGKILL
      /\ is_terminate (take_terminate_from n cur d (sig + 1) s1).1 = true).
    { intros s1 H1. destruct (IH (sig + 1) s1); [lia..|done|done|]. split; [lia|done]. }
    destruct (Z.testbit d sig); cbn [negb]; [|by apply Hrec].
    destruct (truth _); [by apply Hrec|].
    destruct (is_terminate sig) eqn:Et; [split; [cbn; lia|done]|].
    apply Hrec. by rewrite accept_get.
Qed.


(** ** Process groups *)

Lemma post_signal_get p sig s u f :
  u <> p \/ (f <> F_sig_pending /\ f <> F_sig_interrupt /\ f <> F_state) -> f <> F_run_next ->
  get (post_signal p sig s) u f = get s u f.
Proof.
  intros Hu Hrn.
  assert (Hput : forall g v s1, g = F_sig_pending \/ g = F_sig_interrupt \/ g = F_state ->
    get (put p g v s1) u f = get s1 u f).
  { intros g v s1 Hg. apply get_put_ne. intros [= -> ->]. naive_solver. }
  unfold post_signal. destruct (_ && _); [|apply Hput; naive_solver].
  unfold sched_wake. destruct (_ =? 0); [rewrite !Hput by naive_solver; done|].
  destruct (_ && _); [|rewrite !Hput by naive_solver; done].
  unfold make_ready. change (get (runq_push p (put p F_state PROC_READY (put p F_sig_interrupt 1
    (put p F_sig_pending (Z.lor (get s p F_sig_pending) (sigmask sig)) s)))) u f = get s u f).
  rewrite runq_push_get, !Hput by naive_solver. done.
Qed.

Lemma post_signal_pending p sig s :
  get (post_signal p sig s) p F_sig_pending = Z.lor (get s p F_sig_pending) (sigmask sig).
Proof.
  unfold post_signal. destruct (_ && _); [|apply get_put_eq].
  unfold sched_wake. destruct (_ =? 0); [rewrite get_put_field by done; apply get_put_eq|].
  destruct (_ && _); [|rewrite get_put_field by done; apply get_put_eq].
  unfold make_ready. change (get (runq_push p (put p F_state PROC_READY (put p F_sig_interrupt 1
    (put p F_sig_pending (Z.lor (get s p F_sig_pending) (sigmask sig)) s)))) p F_sig_pending
    = Z.lor (get s p F_sig_pending) (sigmask sig)).
  rewrite runq_push_get, !get_put_field by done. apply get_put_eq.
Qed.

(** The threads a group signal is for. *)
Definition target (s : sched) (pgid sig t : Z) : bool :=
  (get s t F_pgid =? pgid) && negb (get s t F_state =? PROC_ZOMBIE)
  && negb (effectively_ignored s t sig).

Lemma effectively_ignored_ext s s' t sig :
  get s' t (F_sig_handler sig) = get s t (F_sig_handler sig) ->
  get s' t F_sig_ignore = get s t F_sig_ignore ->
  effectively_ignored s' t sig = effectively_ignored s t sig.
Proof. intros H1 H2. unfold effectively_ignored. by rewrite H1, H2. Qed.

Lemma target_post p pgid sig s t : t <> p -> target (post_signal p sig s) pgid sig t = target s pgid sig t.
Proof.
  intros Ht. unfold target. rewrite !post_signal_get by (try done; by left).
  by rewrite (effectively_ignored_ext s (post_signal p sig s)) by (apply post_signal_get; [by left|done]).
Qed.

Lemma send_pgrp_from_spec pgid sig fuel l p n s :
  chain (ps (pr s)) F_all_next p l -> NoDup l -> (length l < fuel)%nat ->
  exists s', send_pgrp_from fuel pgid sig p n s
               = Some (n + Z.of_nat (length (List.filter (target s pgid sig) l)), s')
    /\ (forall t, get s' t F_sig_pending
          = if bool_decide (t ∈ l) && target s pgid sig t
            then Z.lor (get s t F_sig_pending) (sigmask sig) else get s t F_sig_pending).
Proof.
  revert p n s fuel. induction l as [|x l IH]; intros p n s fuel Hc Hnd Hl.
  - cbn in Hc. subst p. destruct fuel as [|fuel]; [cbn in Hl; lia|]. exists s. cbn. split; [|done].
    do 2 f_equal. lia.
  - destruct Hc as (-> & Hx & Hc). destruct fuel as [|fuel]; [cbn in Hl; lia|].
    apply NoDup_cons in Hnd as [Hxl Hnd]. cbn [length] in Hl. cbn [send_pgrp_from].
    destruct (Z.eqb_spec x 0) as [|_]; [done|]. fold (target s pgid sig x).
    change (ps (pr s) x F_all_next) with (get s x F_all_next) in Hc.
    destruct (target s pgid sig x) eqn:Et.
    + set (s1 := post_signal x sig s).
      assert (E1 : get s1 x F_all_next = get s x F_all_next)
        by (apply post_signal_get; [by right|done]).
      destruct (IH (get s1 x F_all_next) (n + 1) s1 fuel) as (s' & Hrun & Hpend); [|done|lia|].
      { rewrite E1. eapply chain_ext; [|exact Hc]. intros y _. apply post_signal_get; [by right|done]. }
      exists s'. rewrite Hrun. split.
      * cbn [List.filter]. rewrite Et. cbn [length]. do 2 f_equal.
        rewrite (filter_ext_in (target s1 pgid sig) (target s pgid sig)); [lia|].
        intros y Hy. apply target_post. intros ->. apply Hxl. by apply list_elem_of_In.
      * intros t. rewrite Hpend. destruct (decide (t = x)) as [->|Htx].
        -- rewrite (bool_decide_false (x ∈ l)) by done. cbn [andb].
           rewrite bool_decide_true by apply list_elem_of_here. rewrite Et. cbn [andb].
           apply post_signal_pending.
        -- unfold s1. rewrite target_post, post_signal_get by (done || by left).
           by rewrite (bool_decide_ext (t ∈ x :: l) (t ∈ l)) by (rewrite elem_of_cons; naive_solver).
    + destruct (IH (get s x F_all_next) n s fuel Hc Hnd) as (s' & Hrun & Hpend); [lia|].
      exists s'. rewrite Hrun. cbn [List.filter]. rewrite Et. split; [done|].
      intros t. rewrite Hpend. destruct (decide (t = x)) as [->|Htx].
      * rewrite Et, !andb_false_r. done.
      * by rewrite (bool_decide_ext (t ∈ x :: l) (t ∈ l)) by (rewrite elem_of_cons; naive_solver).
Qed.

(** Signal_send_pgrp posts the signal to exactly the members of the group
    that are not zombies and do not ignore it, returns their number, and leaves
    the pending set of every other thread as it is. *)
Theorem signal_send_pgrp_spec fuel pgid sig l s :
  chain (ps (pr s)) F_all_next (all_head (pr s)) l -> NoDup l -> (length l < fuel)%nat ->
  exists s', signal_send_pgrp fuel pgid sig s
               = Some (Z.of_nat (length (List.filter (target s pgid sig) l)), s')
    /\ (forall t, get s' t F_sig_pending
          = if bool_decide (t ∈ l) && target s pgid sig t
            then Z.lor (get s t F_sig_pending) (sigmask sig) else get s t F_sig_pending).
Proof. intros Hc Hnd Hl. exact (send_pgrp_from_spec pgid sig fuel l _ 0 s Hc Hnd Hl). Qed.

Lemma send_pgrp_none pgid sig fuel l p n s :
  chain (ps (pr s)) F_all_next p l -> (length l < fuel)%nat ->
  (forall t, t ∈ l -> target s pgid sig t = false) ->
  send_pgrp_from fuel pgid sig p n s = Some (n, s).
Proof.
  revert p fuel. induction l as [|x l IH]; intros p fuel Hc Hl Ht;
    (destruct fuel as [|fuel]; [cbn in Hl; lia|]); cbn [send_pgrp_from].
  - cbn in Hc. by subst p.
  - destruct Hc as (-> & Hx & Hc). destruct (Z.eqb_spec x 0) as [|_]; [done|].
    fold (target s pgid sig x). rewrite Ht by apply list_elem_of_here.
    cbn [length] in Hl. apply IH; [done|lia|]. intros t Hin. apply Ht. by apply list_elem_of_further.
Qed.

(** A signal that a process drops because its disposition is to ignore it is
    sent with success when the process is named by its PID, but kill of its
    group answers ESRCH when every member ignores the signal, as if the group
    did not exist; kill(-pgid, 0), the existence check, is a case of this. *)
Theorem kill_group_esrch fuel l pid pgid sig s :
  chain (ps (pr s)) F_all_next (all_head (pr s)) l -> (length l < fuel)%nat ->
  0 <= sig < NSIG -> 0 < pgid < 2 ^ 31 ->
  (forall t, t ∈ l -> get s t F_pgid = pgid -> effectively_ignored s t sig = true) ->
  0 < pid -> proc_find pid (pr s) ∈ l -> get s (proc_find pid (pr s)) F_pgid = pgid ->
  signal_kill fuel pid sig s = Some (0, s) /\ signal_kill fuel (- pgid) sig s = Some (- ESRCH, s).
Proof.
  intros Hc Hl Hsig Hpg Hign Hpid Hin Hgrp. pose proof (chain_nonzero _ _ _ _ _ Hc Hin) as Hne.
  unfold signal_kill, NSIG in *. destruct (Z.ltb_spec sig 0); [lia|]. destruct (Z.leb_spec 32 sig); [lia|].
  cbn [orb]. split.
  - destruct (Z.ltb_spec 0 pid); [|lia]. destruct (Z.eqb_spec (proc_find pid (pr s)) 0) as [|_]; [done|].
    destruct (Z.eqb_spec sig 0) as [|Hs0]; [done|]. unfold signal_send.
    destruct (Z.eqb_spec (proc_find pid (pr s)) 0) as [|_]; [done|].
    destruct (Z.leb_spec sig 0); [lia|]. unfold NSIG. destruct (Z.leb_spec 32 sig); [lia|]. cbn [orb].
    by rewrite Hign.
  - destruct (Z.ltb_spec 0 (- pgid)); [lia|]. destruct (Z.eqb_spec (- pgid) 0); [lia|].
    rewrite Z.opp_involutive, u32_small by lia. unfold signal_send_pgrp.
    erewrite send_pgrp_none; [done|exact Hc|done|]. intros t Ht. unfold target.
    destruct (Z.eqb_spec (get s t F_pgid) pgid) as [E|_]; [|done].
    rewrite Hign by done. by rewrite !andb_false_r.
Qed.

(** * Signal frames *)

Lemma copy_user_out_done n dst i src u u' :
  copy_user_out n dst i src u = (0, u') ->
  uok u' = uok u
  /\ (forall a, um u' a = if (dst + i <=? a) && (a <? dst + i + Z.of_nat n)
                          then u8 (src (a - dst)) else um u a)
  /\ (forall a, dst + i <= a < dst + i + Z.of_nat n -> uok u a = true).
Proof.
  revert i u. induction n as [|n IH]; intros i u; cbn [copy_user_out].
  - intros [= <-]. split_and!; [done| |lia]. intros a. zcase; cbn; (lia || done).
  - destruct (uok u (dst + i)) eqn:Eok; [|intros [= H _]; lia].
    intros (H1 & H2 & H3)%IH. cbn in *. split_and!; [done|..].
    + intros a. rewrite H2. destruct (Z.eqb_spec a (dst + i)) as [->|Hne].
      * rewrite mset_eq. replace (dst + i - dst) with i by lia. zcase; cbn; (lia || done).
      * rewrite mset_ne by done. zcase; cbn; (lia || done).
    + intros a Ha. destruct (Z.eqb_spec a (dst + i)) as [->|Hne]; [done|]. apply H3. lia.
Qed.

Lemma copy_user_out_nonneg n dst i src u : 0 <= (copy_user_out n dst i src u).1.
Proof.
  revert i u. induction n as [|n IH]; intros i u; cbn [copy_user_out]; [done|].
  destruct (uok u (dst + i)); [apply IH|cbn [fst]; lia].
Qed.

(** A copy to user memory that did not fail has written its bytes, no others. *)
Lemma copy_to_user_done dst src n u r u' :
  0 <= n -> copy_to_user dst src n u = (r, u') -> 0 <= r ->
  user_range_ok dst n = true /\ uok u' = uok u
  /\ (forall a, um u' a = if (dst <=? a) && (a <? dst + n) then u8 (src (a - dst)) else um u a)
  /\ (forall a, dst <= a < dst + n -> uok u a = true).
Proof.
  intros Hn Hc Hr. unfold copy_to_user in Hc. destruct (user_range_ok dst n).
  2:{ injection Hc as <- <-. unfold EFAULT in Hr. lia. }
  pose proof (copy_user_out_nonneg (Z.to_nat n) dst 0 src u) as Hnn.
  destruct (copy_user_out _ _ _ _ _) as [rem u1] eqn:E. unfold truth in Hc.
  destruct (Z.eqb_spec rem 0) as [->|]; cbn [negb] in Hc; injection Hc as <- <-.
  - apply copy_user_out_done in E as (H1 & H2 & H3). split_and!; [done|done|..].
    + intros a. rewrite H2. rewrite Z.add_0_r. by replace (Z.of_nat (Z.to_nat n)) with n by lia.
    + intros a Ha. apply H3. lia.
  - unfold EFAULT in Hr. lia.
Qed.

Lemma ld_bytes n m a v :
  (forall i, 0 <= i < Z.of_nat n -> m (a + i) = (v / 256 ^ i) mod 256) ->
  ld n m a = v mod 256 ^ Z.of_nat n.
Proof.
  revert a v. induction n as [|n IH]; intros a v Hb; [by rewrite Z.mod_1_r|].
  change (ld (S n) m a) with (u8 (m a) + 256 * ld n m (a + 1)). rewrite (IH (a + 1) (v / 256)).
  - pose proof (Hb 0 ltac:(lia)) as H0. rewrite Z.add_0_r, Z.pow_0_r, Z.div_1_r in H0. rewrite H0.
    rewrite Nat2Z.inj_succ, Z.pow_succ_r by lia. rewrite Z.rem_mul_r by lia.
    unfold u8. rewrite Z.mod_mod by lia. done.
  - intros i Hi. replace (a + 1 + i) with (a + (i + 1)) by lia. rewrite Hb by lia.
    rewrite Z.pow_add_r, Z.mul_comm by lia. change (256 ^ 1) with 256.
    by rewrite Z.div_div by lia.
Qed.

Lemma byte_of_at l k i v : 0 <= k -> 0 <= i < 8 -> l !! Z.to_nat k = Some v ->
  byte_of l (8 * k + i) = (v / 256 ^ i) mod 256.
Proof.
  intros Hk Hi Hl. unfold byte_of. rewrite (Z.mul_comm 8 k), Z.div_add_l by lia.
  rewrite (Z.div_small i 8), Z.add_0_r, Hl by lia. cbn [default].
  rewrite (Z.add_comm (k * 8) i), Z.mod_add, (Z.mod_small i 8) by lia. done.
Qed.

Lemma ld64_sc m a l k v :
  (forall x, a <= x < a + 8 * Z.of_nat (length l) -> m x = u8 (byte_of l (x - a))) ->
  0 <= k -> l !! Z.to_nat k = Some v -> 0 <= v < 2 ^ 64 -> ld64 m (a + 8 * k) = v.
Proof.
  intros Hm Hk Hl Hv. pose proof (lookup_lt_Some _ _ _ Hl) as Hlt.
  rewrite (ld_bytes 8 m (a + 8 * k) v); [by apply Z.mod_small|].
  intros i Hi. rewrite Hm by lia. replace (a + 8 * k + i - a) with (8 * k + i) by lia.
  rewrite (byte_of_at l k i v) by (done || lia). unfold u8. apply Z.mod_mod. lia.
Qed.

Lemma find_slot_all n i f : (forall k, i <= k < i + Z.of_nat n -> f k = false) -> find_slot n i f = None.
Proof.
  revert i. induction n as [|n IH]; intros i H; cbn; [done|]. rewrite H by lia. apply IH.
  intros. apply H. lia.
Qed.

(** The registers a signal frame carries, but for rax and rflags. *)
Definition user_regs (tf : trapframe) : list Z :=
  [tf_r15 tf; tf_r14 tf; tf_r13 tf; tf_r12 tf; tf_r11 tf; tf_r10 tf; tf_r9 tf; tf_r8 tf;
   tf_rbp tf; tf_rdi tf; tf_rsi tf; tf_rdx tf; tf_rcx tf; tf_rbx tf; tf_rip tf; tf_rsp tf].

Definition is_u64 (z : Z) : Prop := 0 <= z < 2 ^ 64.

(** Where deliver_to_handler puts the context, and what it leaves there. *)
Lemma deliver_frame cur tf sig h u s tf1 u1 s1 :
  deliver_to_handler cur tf sig h u s = Runs tf1 u1 s1 ->
  user_range_ok (tf_rsp tf1 + 8) SC_SIZE = true
  /\ (forall a, tf_rsp tf1 + 8 <= a < tf_rsp tf1 + 8 + SC_SIZE ->
        um u1 a = u8 (byte_of (sigcontext_of tf (get s cur F_sig_blocked)) (a - (tf_rsp tf1 + 8)))
        /\ uok u1 a = true).
Proof.
  unfold deliver_to_handler. set (sc := sigcontext_of _ _). set (A := Z.land _ _).
  assert (HA : 0 <= A < 2 ^ 64).
  { apply land_bound; [lia|apply u64_range|lia]. }
  destruct (_ =? 0); [done|].
  destruct (copy_to_user A _ _ _) as [r1 ua] eqn:E1. destruct (Z.ltb_spec r1 0); [done|].
  destruct (copy_to_user (u64 (A - 8)) _ _ _) as [r2 ub] eqn:E2. destruct (Z.ltb_spec r2 0); [done|].
  intros [= <- <- _]. cbn [tf_rsp].
  apply copy_to_user_done in E1 as (Hr1 & Hok1 & Hm1 & Hu1); [|done|done].
  apply copy_to_user_done in E2 as (Hr2 & Hok2 & Hm2 & Hu2); [|done|done].
  assert (HA8 : u64 (A - 8) = A - 8).
  { destruct (Z.le_gt_cases 8 A); [apply u64_small; lia|]. exfalso.
    assert (E : u64 (A - 8) = A - 8 + 2 ^ 64)
      by (unfold u64; symmetry; apply (Z.mod_unique_pos _ _ (-1)); lia).
    rewrite E in Hr2. unfold user_range_ok, USER_END in Hr2. revert Hr2. zcase; (lia || done). }
  rewrite HA8 in *. replace (A - 8 + 8) with A in * by lia. split; [done|]. intros a Ha. split.
  - rewrite Hm2. destruct (Z.ltb_spec a A); [lia|]. rewrite andb_false_r, Hm1. zcase; cbn; (lia || done).
  - rewrite Hok2, Hok1. by apply Hu1.
Qed.

(** C30: the context deliver_to_handler saves on the user stack is the one
    sigreturn restores: when the handler returns and the frame is intact, every
    general register, rip and rsp are as before the delivery, rax is the value
    returned, rflags are the user-settable flags with IF forced, and the mask is
    the one from before the handler without SIGKILL and SIGSTOP. *)
Theorem sigframe_roundtrip cur tf sig h u s tf1 u1 s1 tf2 u2 s2 :
  Forall is_u64 (sigcontext_of tf (get s cur F_sig_blocked)) ->
  signal_restore_ok (tf_rip tf) (tf_rsp tf) = true -> cur <> 0 ->
  deliver_to_handler cur tf sig h u s = Runs tf1 u1 s1 ->
  tf_rsp tf2 = tf_rsp tf1 + 8 -> current_process s2 = cur ->
  (forall a, tf_rsp tf2 <= a < tf_rsp tf2 + SC_SIZE -> um u2 a = um u1 a /\ uok u2 a = uok u1 a) ->
  exists tf3 s3, signal_sigreturn tf2 u2 s2 = (tf_rax tf, Runs tf3 u2 s3)
    /\ user_regs tf3 = user_regs tf
    /\ tf_rflags tf3 = Z.lor (Z.land (tf_rflags tf) 0xCD5) 0x202
    /\ get s3 cur F_sig_blocked = Z.land (get s cur F_sig_blocked) (not64 unmaskable).
Proof.
  intros Hreg Hok Hcur Hdel Hrsp Hc2 Hmem.
  apply deliver_frame in Hdel as [Hrange Hframe]. rewrite <- Hrsp in Hrange, Hframe.
  set (sc := sigcontext_of tf (get s cur F_sig_blocked)) in *.
  assert (Hld : forall k v, 0 <= k -> sc !! Z.to_nat k = Some v -> ld64 (um u2) (tf_rsp tf2 + 8 * k) = v).
  { intros k v Hk Hl. eapply ld64_sc; [|done|exact Hl|exact (Forall_lookup_1 _ _ _ _ Hreg Hl)].
    intros x Hx. destruct (Hmem x Hx) as [-> _]. by apply Hframe. }
  assert (Hacc : copy_from_user_ok (tf_rsp tf2) SC_SIZE u2 = true).
  { unfold copy_from_user_ok. rewrite Hrange. cbn [andb]. rewrite find_slot_all; [done|].
    intros k Hk. destruct (Hmem k Hk) as [_ ->]. by rewrite (proj2 (Hframe k Hk)). }
  unfold signal_sigreturn. rewrite Hacc, Hc2. cbn [negb].
  rewrite (Hld 0 _ ltac:(lia) eq_refl), (Hld 1 _ ltac:(lia) eq_refl), (Hld 2 _ ltac:(lia) eq_refl),
    (Hld 3 _ ltac:(lia) eq_refl), (Hld 4 _ ltac:(lia) eq_refl), (Hld 5 _ ltac:(lia) eq_refl),
    (Hld 6 _ ltac:(lia) eq_refl), (Hld 7 _ ltac:(lia) eq_refl), (Hld 8 _ ltac:(lia) eq_refl),
    (Hld 9 _ ltac:(lia) eq_refl), (Hld 10 _ ltac:(lia) eq_refl), (Hld 11 _ ltac:(lia) eq_refl),
    (Hld 12 _ ltac:(lia) eq_refl), (Hld 13 _ ltac:(lia) eq_refl), (Hld 14 _ ltac:(lia) eq_refl),
    (Hld 15 _ ltac:(lia) eq_refl), (Hld 16 _ ltac:(lia) eq_refl), (Hld 17 _ ltac:(lia) eq_refl),
    (Hld 18 _ ltac:(lia) eq_refl).
  rewrite Hok. cbn [negb]. unfold truth. destruct (Z.eqb_spec cur 0) as [|_]; [done|]. cbn [negb].
  do 2 eexists. split_and!; [reflexivity|reflexivity|reflexivity|apply get_put_eq].
Qed.

(** * Signals and the scheduler's invariant *)

Lemma post_signal_ok t sig s : sched_ok s -> sched_ok (post_signal t sig s).
Proof.
  intros H. unfold post_signal. destruct (_ && _); [apply sched_wake_ok|]; eapply sched_ok_same; [|done| |done]; same.
Qed.

Lemma signal_send_ok t sig s : sched_ok s -> sched_ok (signal_send t sig s).2.
Proof.
  intros H. unfold signal_send. destruct (_ || _); [done|].
  destruct (effectively_ignored _ _ _); [done|]. by apply post_signal_ok.
Qed.

Lemma send_pgrp_ok fuel pgid sig p n s n' s' :
  sched_ok s -> send_pgrp_from fuel pgid sig p n s = Some (n', s') -> sched_ok s'.
Proof.
  revert p n s. induction fuel as [|fuel IH]; intros p n s H; cbn [send_pgrp_from]; [done|].
  destruct (_ =? 0); [by intros [= <- <-]|]. destruct (_ && _); apply IH; [by apply post_signal_ok|done].
Qed.

Lemma signal_kill_ok fuel pid sig s r s' :
  sched_ok s -> signal_kill fuel pid sig s = Some (r, s') -> sched_ok s'.
Proof.
  intros H. unfold signal_kill. destruct (_ || _); [by intros [= <- <-]|]. destruct (0 <? pid).
  - destruct (_ =? 0); [by intros [= <- <-]|]. destruct (sig =? 0); [by intros [= <- <-]|].
    intros [= E]. pose proof (signal_send_ok (proc_find pid (pr s)) sig s H) as H1. by rewrite E in H1.
  - intros ([n s1] & H1 & [= _ <-])%bind_Some. by eapply send_pgrp_ok.
Qed.

(** * Witnesses *)

(** Two processes of group 7, PIDs 2 and 3, the first one current. *)
Definition demo_ps : store := fun t f =>
  match f with
  | F_pid => if t =? 1000 then 2 else if t =? 2000 then 3 else 0
  | F_pgid => if (t =? 1000) || (t =? 2000) then 7 else 0
  | F_state => if t =? 1000 then PROC_RUNNING else if t =? 2000 then PROC_BLOCKED else 0
  | F_all_next => if t =? 1000 then 2000 else 0
  | F_is_user => if t =? 1000 then 1 else 0
  | F_sig_restorer => 0x400
  | F_priority => 16
  | _ => 0
  end.

Definition demo : sched :=
  Sched (Procs demo_ps 1000 2000 2 (fun i => if i =? 0 then 1000 else if i =? 1 then 2000 else 0) 2 [])
    (PidState (fun _ => 0) 2) (fun _ => 0) (fun _ => 0) 500 0 0 0 1000 0 0 [].

Lemma demo_chain : chain (ps (pr demo)) F_all_next (all_head (pr demo)) [1000; 2000].
Proof. by split_and!. Qed.

(** The current process masks every signal and then receives SIGKILL. *)
Definition demo_masked : sched := (signal_procmask SIG_SETMASK (2 ^ 64 - 1) demo).2.
Definition demo_killed : sched := (signal_send 1000 SIGKILL demo_masked).2.

Lemma demo_killed_reach : sig_reach demo_killed.
Proof.
  apply (reach_step demo_masked).
  - apply (reach_step demo); [|apply step_procmask]. by apply reach_start.
  - apply (step_kill 5 2 SIGKILL _ 0). reflexivity.
Qed.


Lemma signal_send_pgrp_spec_witness :
  exists s', signal_send_pgrp 3 7 SIGTERM demo = Some (2, s')
    /\ get s' 2000 F_sig_pending = Z.lor 0 (sigmask SIGTERM).
Proof.
  destruct (signal_send_pgrp_spec 3 7 SIGTERM [1000; 2000] demo) as (s' & H1 & H2).
  - apply demo_chain.
  - by apply NoDup_cons_2; [rewrite list_elem_of_singleton|apply NoDup_singleton].
  - cbn. lia.
  - exists s'. split; [exact H1|]. rewrite H2. reflexivity.
Defined.

Lemma kill_group_esrch_witness :
  signal_kill 3 2 0 demo = Some (0, demo) /\ signal_kill 3 (- 7) 0 demo = Some (- ESRCH, demo).
Proof.
  apply (kill_group_esrch 3 [1000; 2000] 2 7 0 demo).
  - apply demo_chain.
  - cbn. lia.
  - unfold NSIG. lia.
  - lia.
  - intros t Ht _. rewrite !elem_of_cons in Ht. destruct Ht as [->|[->|Ht%elem_of_nil]]; done.
  - lia.
  - change (1000 ∈ [1000; 2000]). apply list_elem_of_here.
  - reflexivity.
Defined.

Definition demo_tf : trapframe :=
  Trapframe 15 14 13 12 11 10 9 8 7 6 5 4 3 2 1 0 0x401000 0x33 0x246 0x500000 0x2b.
Definition demo_user : umem := Umem (fun _ => 0) (fun a => (0x400000 <=? a) && (a <? 0x600000)).

(** Delivery of SIGTERM to a handler at 0x402000 and the handler's return. *)
Definition demo_delivered : outcome := deliver_to_handler 1000 demo_tf SIGTERM 0x402000 demo_user demo.
Definition demo_ret_tf (tf : trapframe) : trapframe :=
  Trapframe 0 0 0 0 0 0 0 0 0 0 0 0 0 0 0 0 0x402010 0x33 0x202 (tf_rsp tf + 8) 0x2b.

Definition delivered_tf (o : outcome) : trapframe :=
  match o with Runs tf _ _ => tf | Dies _ _ _ => demo_tf end.
Definition delivered_mem (o : outcome) : umem :=
  match o with Runs _ u _ => u | Dies _ u _ => u end.

Definition demo_runs : bool := match demo_delivered with Runs _ _ _ => true | Dies _ _ _ => false end.

Lemma demo_delivered_runs :
  demo_delivered = Runs (delivered_tf demo_delivered) (delivered_mem demo_delivered) (outcome_state demo_delivered).
Proof.
  assert (H : demo_runs = true) by (vm_compute; reflexivity). revert H. unfold demo_runs.
  by destruct demo_delivered.
Qed.

Lemma sigframe_roundtrip_witness :
  exists tf3 s3,
    signal_sigreturn (demo_ret_tf (delivered_tf demo_delivered)) (delivered_mem demo_delivered)
      (outcome_state demo_delivered) = (tf_rax demo_tf, Runs tf3 (delivered_mem demo_delivered) s3)
    /\ user_regs tf3 = user_regs demo_tf
    /\ tf_rflags tf3 = Z.lor (Z.land (tf_rflags demo_tf) 0xCD5) 0x202
    /\ get s3 1000 F_sig_blocked = Z.land (get demo 1000 F_sig_blocked) (not64 unmaskable).
Proof.
  apply (sigframe_roundtrip 1000 demo_tf SIGTERM 0x402000 demo_user demo
           (delivered_tf demo_delivered) (delivered_mem demo_delivered) (outcome_state demo_delivered)).
  - repeat constructor; unfold is_u64; cbn; lia.
  - reflexivity.
  - done.
  - apply demo_delivered_runs.
  - reflexivity.
  - vm_compute. reflexivity.
  - intros a _. split; reflexivity.
Defined.
