(* ===== verification/WaitQ.v ===== *)
(** What the lists of sleeping and waiting threads hold: functional specifications
    of the wake-ups of [kernel/proc/sched/sched.c] on the queues as lists. *)

From stdpp Require Import base numbers list gmap.
From Stdlib Require Import ZArith Lia.
From S2P Require Import Prelude Pid Proc Sched SchedInv Signal.

(** * Wait queues *)

(** The FIFO of the waiters of [wq]. *)
Definition wq_rep (s : sched) (wq : wait_queue) (l : list Z) : Prop :=
  chain (ps (pr s)) F_wq_next (wq_head s wq) l /\ NoDup l /\ wq_tail s wq = last0 l.

Lemma wq_pop_nil wq s : wq_rep s wq [] -> wq_pop wq s = (0, s).
Proof. intros (Hc & _ & _). cbn in Hc. unfold wq_pop. by rewrite Hc. Qed.

(** The words of the queue after a pop. *)
Lemma wq_pop_words wq s :
  truth (wq_head s wq) = true ->
  let t := wq_head s wq in
  let s1 := (wq_pop wq s).2 in
  wq_head s1 wq = get s t F_wq_next
  /\ wq_tail s1 wq = (if truth (get s t F_wq_next) then wq_tail s wq else 0)
  /\ (forall u, get s1 u F_wq_next = if u =? t then 0 else get s u F_wq_next)
  /\ (forall u f, f <> F_wq_next -> f <> F_wq_head wq.2 -> f <> F_wq_tail wq.2 -> get s1 u f = get s u f).
Proof.
  intros Ht. cbn zeta. unfold wq_pop. rewrite Ht. cbn [snd].
  unfold set_wq_head, set_wq_tail, wq_head, wq_tail. rewrite get_put_eq.
  set (t := get s wq.1 (F_wq_head wq.2)). set (nx := get s t F_wq_next).
  destruct (truth nx); split_and!; intros;
    repeat first [rewrite get_put_eq | rewrite get_put_field by done]; try done.
  - destruct (Z.eqb_spec u t) as [->|]; [apply get_put_eq|].
    rewrite get_put_ptr, !get_put_field by done. done.
  - destruct (Z.eqb_spec u t) as [->|]; [apply get_put_eq|].
    rewrite get_put_ptr, !get_put_field by done. done.
Qed.

Lemma wq_pop_cons wq t l s :
  wq_rep s wq (t :: l) ->
  exists s1, wq_pop wq s = (t, s1) /\ t <> 0 /\ wq_rep s1 wq l /\ same s s1
    /\ (forall u f, f <> F_wq_next -> f <> F_wq_head wq.2 -> f <> F_wq_tail wq.2 -> get s1 u f = get s u f).
Proof.
  intros (Hc & Hnd & Htl). destruct Hc as (Hh & Ht & Hc). apply NoDup_cons in Hnd as [Htn Hnd].
  assert (Htt : truth (wq_head s wq) = true) by (rewrite Hh; unfold truth; zcase; done).
  destruct (wq_pop_words wq s Htt) as (W1 & W2 & W3 & W4). rewrite Hh in W1, W2, W3.
  exists (wq_pop wq s).2. split_and!; [|done|..|apply wq_pop_same|exact W4].
  - apply pair_eq. unfold wq_pop. rewrite Htt. exact Hh.
  - split_and!; [|done|].
    + rewrite W1. eapply chain_ext; [|exact Hc]. intros x Hx.
      change (get (wq_pop wq s).2 x F_wq_next = get s x F_wq_next). rewrite W3.
      destruct (Z.eqb_spec x t) as [->|]; [done|done].
    + rewrite W2. change (get s t F_wq_next) with (ps (pr s) t F_wq_next). rewrite (chain_head _ _ _ _ Hc).
      destruct l as [|y l]; [done|]. rewrite Htl. by apply last0_cons.
Qed.

Lemma wq_rep_ext s s' wq l :
  (forall u, get s' u F_wq_next = get s u F_wq_next) ->
  wq_head s' wq = wq_head s wq -> wq_tail s' wq = wq_tail s wq -> wq_rep s wq l -> wq_rep s' wq l.
Proof.
  intros H1 H2 H3 (Hc & Hnd & Ht). unfold wq_rep. rewrite H2, H3. split_and!; [|done|done].
  eapply chain_ext; [|exact Hc]. intros; apply H1.
Qed.

Lemma make_ready_get t s u f :
  f <> F_run_next -> f <> F_state -> get (make_ready t s) u f = get s u f.
Proof.
  intros H1 H2. unfold make_ready.
  change (get (runq_push t (put t F_state PROC_READY s)) u f = get s u f).
  rewrite runq_push_get, get_put_field by done. done.
Qed.

Lemma make_ready_state t s u :
  get (make_ready t s) u F_state = if u =? t then PROC_READY else get s u F_state.
Proof.
  unfold make_ready.
  change (get (runq_push t (put t F_state PROC_READY s)) u F_state
          = if u =? t then PROC_READY else get s u F_state).
  rewrite runq_push_get by done.
  destruct (Z.eqb_spec u t) as [->|]; [apply get_put_eq|by apply get_put_ptr].
Qed.

(** The threads of [l] that wq_wake_one makes ready, and what stays queued: the
    waiters in front of the first blocked one have been woken otherwise. *)
Fixpoint split_wake (blocked : Z -> bool) (l : list Z) : option Z * list Z :=
  match l with
  | [] => (None, [])
  | t :: l => if blocked t then (Some t, l) else split_wake blocked l
  end.

Definition is_blocked (s : sched) (t : Z) : bool := get s t F_state =? PROC_BLOCKED.

Lemma wake_one_spec fuel wq l s :
  wq_rep s wq l -> (length l < fuel)%nat ->
  exists s', wq_wake_loop fuel false wq s = Some s'
    /\ wq_rep s' wq (split_wake (is_blocked s) l).2
    /\ (forall u, get s' u F_state
          = if bool_decide (Some u = (split_wake (is_blocked s) l).1) then PROC_READY else get s u F_state).
Proof.
  revert s fuel. induction l as [|t l IH]; intros s fuel Hr Hl;
    (destruct fuel as [|fuel]; [cbn in Hl; lia|]); cbn [wq_wake_loop split_wake].
  - rewrite (wq_pop_nil wq s Hr). exists s. by split_and!.
  - destruct (wq_pop_cons wq t l s Hr) as (s1 & -> & Ht & Hr1 & Hsame & Hg).
    destruct (Z.eqb_spec t 0) as [|_]; [done|].
    rewrite (same_get s s1) by done. fold (is_blocked s t). cbn [length] in Hl.
    destruct (is_blocked s t); cbn [negb].
    + eexists. split; [reflexivity|]. cbn [fst snd]. split.
      * eapply wq_rep_ext; [..|exact Hr1]; intros; unfold wq_head, wq_tail;
          rewrite make_ready_get, get_put_field by done; done.
      * intros u. rewrite make_ready_state, get_put_field, (same_get s s1) by done.
        rewrite (bool_decide_ext (Some u = Some t) (u = t)) by naive_solver.
        case_bool_decide; zcase; done.
    + destruct (IH s1 fuel Hr1) as (s' & Hrun & Hrep & Hst); [lia|]. exists s'.
      assert (Hsp : split_wake (is_blocked s1) l = split_wake (is_blocked s) l).
      { clear -Hsame. induction l as [|x l IH]; [done|]. cbn. unfold is_blocked at 1 3.
        rewrite (same_get s s1) by done. by rewrite IH. }
      rewrite Hsp in *. split_and!; [done|done|]. intros u. rewrite Hst, (same_get s s1) by done. done.
Qed.

Lemma split_wake_ext b1 b2 l : (forall t, b1 t = b2 t) -> split_wake b1 l = split_wake b2 l.
Proof. intros H. induction l as [|t l IH]; cbn; [done|]. by rewrite H, IH. Qed.

Lemma wake_all_spec fuel wq l s :
  wq_rep s wq l -> (length l < fuel)%nat ->
  exists s', wq_wake_loop fuel true wq s = Some s'
    /\ wq_rep s' wq []
    /\ (forall u, get s' u F_state
          = if bool_decide (u ∈ l) && is_blocked s u then PROC_READY else get s u F_state).
Proof.
  revert s fuel. induction l as [|t l IH]; intros s fuel Hr Hl;
    (destruct fuel as [|fuel]; [cbn in Hl; lia|]); cbn [wq_wake_loop].
  - rewrite (wq_pop_nil wq s Hr). exists s. by split_and!.
  - destruct (wq_pop_cons wq t l s Hr) as (s1 & -> & Ht & Hr1 & Hsame & Hg).
    destruct (Z.eqb_spec t 0) as [|_]; [done|]. pose proof Hr as (_ & Hnd & _).
    apply NoDup_cons in Hnd as [Htl _]. rewrite (same_get s s1) by done. fold (is_blocked s t).
    cbn [length] in Hl. set (s2 := if is_blocked s t then make_ready t (put t F_timed_out 0 s1) else s1).
    assert (Hr2 : wq_rep s2 wq l).
    { unfold s2. destruct (is_blocked s t); [|done]. eapply wq_rep_ext; [..|exact Hr1];
        intros; unfold wq_head, wq_tail; rewrite make_ready_get, get_put_field by done; done. }
    assert (Hst2 : forall u, get s2 u F_state
              = if (u =? t) && is_blocked s t then PROC_READY else get s u F_state).
    { intros u. unfold s2. destruct (is_blocked s t).
      - rewrite make_ready_state, get_put_field, (same_get s s1) by done. by rewrite andb_true_r.
      - rewrite (same_get s s1) by done. by rewrite andb_false_r. }
    destruct (IH s2 fuel Hr2) as (s' & Hrun & Hrep & Hst); [lia|]. exists s'. split_and!; [|done|].
    + rewrite <- Hrun. unfold s2. by destruct (is_blocked s t).
    + intros u. rewrite Hst. unfold is_blocked at 1. rewrite Hst2.
      destruct (Z.eqb_spec u t) as [->|Hne]; cbn [andb].
      * rewrite (bool_decide_false (t ∈ l)) by done. rewrite (bool_decide_true (t ∈ t :: l)) by apply list_elem_of_here.
        done.
      * rewrite (bool_decide_ext (u ∈ t :: l) (u ∈ l)) by (rewrite elem_of_cons; naive_solver). done.
Qed.

(** ** Leaving a wait queue *)

Lemma last0_truth_last st f h d x r :
  chain st f h (d ++ x :: r) -> truth (last0 d) = match last d with None => false | Some _ => true end.
Proof.
  intros Hc. unfold last0. destruct (last d) as [y|] eqn:E; [|done]. cbn. unfold truth, id.
  assert (Hy : y <> 0).
  { eapply chain_nonzero; [exact Hc|]. apply elem_of_app. left. apply last_Some in E as [d' ->].
    apply elem_of_app. right. apply list_elem_of_here. }
  zcase; done.
Qed.

(** The unlinking step of wq_remove. *)
Definition wq_unlink (wq : wait_queue) (prev t : Z) (s : sched) : sched :=
  let s := if truth prev then put prev F_wq_next (get s t F_wq_next) s
           else set_wq_head wq (get s t F_wq_next) s in
  let s := if wq_tail s wq =? t then set_wq_tail wq prev s else s in
  put t F_wq_next 0 s.

(** Fields that belong to wait queues. *)
Definition wq_field (f : field) : bool :=
  match f with F_wq_next | F_wq_head _ | F_wq_tail _ => true | _ => false end.

Lemma wq_unlink_get wq prev t s u f : wq_field f = false -> get (wq_unlink wq prev t s) u f = get s u f.
Proof.
  intros Hf. unfold wq_unlink, set_wq_head, set_wq_tail.
  destruct (truth prev), (_ =? t); rewrite !get_put_field by (by intros ->); done.
Qed.

(** The words of the queue after the unlinking. *)
Lemma wq_unlink_words wq prev t s :
  let s1 := wq_unlink wq prev t s in
  wq_head s1 wq = (if truth prev then wq_head s wq else get s t F_wq_next)
  /\ wq_tail s1 wq = (if wq_tail s wq =? t then prev else wq_tail s wq)
  /\ (forall u, get s1 u F_wq_next
        = upd t F_wq_next 0 (if truth prev then upd prev F_wq_next (get s t F_wq_next) (ps (pr s))
                             else ps (pr s)) u F_wq_next).
Proof.
  cbn zeta. unfold wq_unlink, wq_head, wq_tail, set_wq_head, set_wq_tail.
  set (s0 := if truth prev then _ else _).
  assert (E1 : get s0 wq.1 (F_wq_tail wq.2) = get s wq.1 (F_wq_tail wq.2))
    by (unfold s0; destruct (truth prev); by rewrite get_put_field).
  assert (E2 : get s0 wq.1 (F_wq_head wq.2) = if truth prev then get s wq.1 (F_wq_head wq.2) else get s t F_wq_next).
  { unfold s0. destruct (truth prev); [by rewrite get_put_field|apply get_put_eq]. }
  assert (E3 : forall u, get s0 u F_wq_next
            = (if truth prev then upd prev F_wq_next (get s t F_wq_next) (ps (pr s)) else ps (pr s)) u F_wq_next).
  { intros u. unfold s0. destruct (truth prev); [done|by rewrite get_put_field]. }
  rewrite E1. clearbody s0. split_and!.
  - rewrite get_put_field by done. destruct (_ =? t); [by rewrite get_put_field|done].
  - rewrite get_put_field by done. destruct (_ =? t); [apply get_put_eq|done].
  - intros u. destruct (decide (u = t)) as [->|Hne]; [by rewrite get_put_eq, upd_eq|].
    rewrite get_put_ptr, upd_ptr, <- E3 by done. destruct (_ =? t); [by rewrite get_put_field|done].
Qed.

Lemma wq_unlink_rep wq d t r s :
  wq_rep s wq (d ++ t :: r) -> wq_rep (wq_unlink wq (last0 d) t s) wq (d ++ r).
Proof.
  intros (Hc & Hnd & Htl). pose proof (chain_unlink _ _ _ _ _ _ Hc Hnd) as Hu.
  pose proof (last0_truth_last _ _ _ _ _ _ Hc) as Hlt.
  destruct (wq_unlink_words wq (last0 d) t s) as (W1 & W2 & W3). rewrite Hlt in W1, W3.
  split_and!.
  - rewrite W1. destruct (last d) as [y|] eqn:El.
    + assert (Hy : last0 d = y) by (unfold last0; by rewrite El). rewrite Hy in *. destruct Hu as [_ Hu].
      eapply chain_ext; [|exact Hu]. intros x _. apply W3.
    + apply last_None in El as ->. destruct Hu as [_ Hu]. eapply chain_ext; [|exact Hu]. intros x _. apply W3.
  - apply NoDup_app in Hnd as (H1 & H2 & [_ H3]%NoDup_cons). apply NoDup_app.
    split_and!; [done| |done]. intros y Hy Hyr. apply (H2 y Hy). by apply list_elem_of_further.
  - rewrite W2, Htl, (last0_app d (t :: r)) by done. destruct r as [|y r].
    + change (last0 [t]) with t. by rewrite Z.eqb_refl, app_nil_r.
    + rewrite last0_cons, last0_app by done. destruct (Z.eqb_spec (last0 (y :: r)) t) as [E|_]; [|done].
      exfalso. apply NoDup_app in Hnd as (_ & _ & [Hn _]%NoDup_cons). apply Hn. rewrite <- E. by apply last0_in.
Qed.

Definition others (t : Z) (l : list Z) : list Z := List.filter (fun x => negb (x =? t)) l.

Lemma others_cons t x l : others t (x :: l) = if x =? t then others t l else x :: others t l.
Proof. unfold others. cbn. by destruct (x =? t). Qed.

Lemma others_notin t l : t ∉ l -> others t l = l.
Proof.
  intros Hn. apply forallb_filter_id. apply forallb_forall. intros y Hy%list_elem_of_In.
  destruct (Z.eqb_spec y t) as [->|]; done.
Qed.

Lemma wq_remove_spec fuel wq t l s :
  wq_rep s wq l -> (length l < fuel)%nat ->
  exists s', wq_remove fuel wq t s = Some s' /\ wq_rep s' wq (others t l)
    /\ (forall u f, wq_field f = false -> get s' u f = get s u f)
    /\ sleep_list s' = sleep_list s.
Proof.
  intros Hr Hl. unfold wq_remove. change 0 with (last0 []) at 1.
  change (others t l) with ([] ++ others t l). revert Hr. change l with ([] ++ l) at 1.
  generalize (@nil Z) as d. revert fuel Hl.
  induction l as [|x l IH]; intros fuel Hl d Hr; (destruct fuel as [|fuel]; [cbn in Hl; lia|]); cbn [wq_remove_from].
  - assert (E : (if truth (last0 d) then get s (last0 d) F_wq_next else wq_head s wq) = 0).
    { destruct Hr as (Hc & _). pose proof (chain_at _ _ _ _ _ Hc) as H. unfold last0.
      destruct (last d) as [y|] eqn:El; [|exact H]. cbn [default]. unfold id.
      assert (Hy : y <> 0).
      { eapply chain_nonzero; [exact Hc|]. rewrite app_nil_r. apply last_Some in El as [d' ->].
        apply elem_of_app. right. apply list_elem_of_here. }
      unfold truth. destruct (Z.eqb_spec y 0); [done|exact H]. }
    rewrite E. exists s. by split_and!.
  - pose proof Hr as (Hc & Hnd & _). pose proof (chain_at _ _ _ _ _ Hc) as Hat.
    assert (E : (if truth (last0 d) then get s (last0 d) F_wq_next else wq_head s wq) = x).
    { rewrite (last0_truth_last _ _ _ _ _ _ Hc). unfold last0. by destruct (last d). }
    rewrite E. assert (Hx : x <> 0).
    { eapply chain_nonzero; [exact Hc|]. apply elem_of_app. right. apply list_elem_of_here. }
    destruct (Z.eqb_spec x 0) as [|_]; [done|]. cbn [length] in Hl. rewrite others_cons.
    destruct (Z.eqb_spec x t) as [->|Hne].
    + exists (wq_unlink wq (last0 d) t s). split_and!; [done|..].
      * rewrite others_notin; [by apply wq_unlink_rep|].
        by apply NoDup_app in Hnd as (_ & _ & [Hn _]%NoDup_cons).
      * intros u f Hf. by apply wq_unlink_get.
      * unfold wq_unlink, set_wq_head, set_wq_tail. by destruct (truth _), (_ =? t).
    + destruct (IH fuel ltac:(lia) (d ++ [x])) as (s' & Hrun & Hrep & Hrest); [by rewrite <- app_assoc|].
      rewrite last0_snoc in Hrun. rewrite <- app_assoc in Hrep. by exists s'.
Qed.

(** * The sleep list *)

Definition sleep_rep (s : sched) (l : list Z) : Prop :=
  chain (ps (pr s)) F_sleep_next (sleep_list s) l /\ NoDup l.

(** The link that follows the nodes [d]. *)
Definition link_of (d : list Z) : link :=
  match last d with None => L_head | Some y => L_node y end.

Lemma sleep_get_at s d r : sleep_rep s (d ++ r) ->
  sleep_get s (link_of d) = match r with [] => 0 | x :: _ => x end.
Proof.
  intros [Hc _]. pose proof (chain_at _ _ _ _ _ Hc) as H. unfold link_of. by destruct (last d).
Qed.

Lemma sleep_unlink s d x r :
  sleep_rep s (d ++ x :: r) ->
  sleep_rep (put x F_sleep_next 0 (sleep_put (link_of d) (get s x F_sleep_next) s)) (d ++ r).
Proof.
  intros [Hc Hnd]. pose proof (chain_unlink _ _ _ _ _ _ Hc Hnd) as H. unfold link_of.
  assert (Hnd' : NoDup (d ++ r)).
  { apply NoDup_app in Hnd as (H1 & H2 & H3). apply NoDup_cons in H3 as [_ H3]. apply NoDup_app.
    split_and!; [done| |done]. intros y Hy Hyr. apply (H2 y Hy). by apply list_elem_of_further. }
  split; [|done]. destruct (last d) as [y|] eqn:El.
  - destruct H as [_ H]. exact H.
  - apply last_None in El as ->. destruct H as [_ H]. exact H.
Qed.

Lemma sleep_rep_ext s s' l :
  (forall u, get s' u F_sleep_next = get s u F_sleep_next) -> sleep_list s' = sleep_list s ->
  sleep_rep s l -> sleep_rep s' l.
Proof.
  intros H1 H2 [Hc Hnd]. split; [|done]. rewrite H2. eapply chain_ext; [|exact Hc]. intros; apply H1.
Qed.

Lemma link_of_snoc d x : link_of (d ++ [x]) = L_node x.
Proof. unfold link_of. by rewrite last_snoc. Qed.

Lemma sleep_put_get l v s u f : f <> F_sleep_next -> get (sleep_put l v s) u f = get s u f.
Proof. intros. destruct l; [done|]. by apply get_put_field. Qed.

Lemma sleep_remove_spec fuel t l s :
  sleep_rep s l -> (length l < fuel)%nat ->
  exists s', sleep_remove fuel t s = Some s' /\ sleep_rep s' (others t l)
    /\ (forall u f, f <> F_sleep_next -> get s' u f = get s u f).
Proof.
  intros Hr Hl. unfold sleep_remove. change L_head with (link_of []).
  change (others t l) with ([] ++ others t l).
  revert Hr. change l with ([] ++ l) at 1. generalize (@nil Z) as d. revert fuel Hl.
  induction l as [|x l IH]; intros fuel Hl d Hr; (destruct fuel as [|fuel]; [cbn in Hl; lia|]);
    cbn [sleep_remove_from]; rewrite (sleep_get_at _ _ _ Hr).
  - exists s. by rewrite Z.eqb_refl.
  - assert (Hx : x <> 0).
    { eapply chain_nonzero; [apply Hr|]. apply elem_of_app. right. apply list_elem_of_here. }
    destruct (Z.eqb_spec x 0) as [|_]; [done|]. cbn [length] in Hl. rewrite others_cons.
    destruct (Z.eqb_spec x t) as [->|Hne].
    + eexists. split_and!; [reflexivity|..].
      * rewrite others_notin; [by apply sleep_unlink|].
        by destruct Hr as [_ (_ & _ & [Hn _]%NoDup_cons)%NoDup_app].
      * intros u f Hf. by rewrite get_put_field, sleep_put_get.
    + rewrite <- (link_of_snoc d x). replace (d ++ x :: others t l) with ((d ++ [x]) ++ others t l)
        by (by rewrite <- app_assoc).
      apply IH; [lia|]. by rewrite <- app_assoc.
Qed.

Definition expired (s : sched) (now t : Z) : bool := 0 <=? s64 (now - get s t F_wake_tick).

(** The sleepers that stay asleep, and those whose deadline has passed. *)
Definition stays (s : sched) (now t : Z) : bool := is_blocked s t && negb (expired s now t).
Definition wakes (s : sched) (now t : Z) : bool := is_blocked s t && expired s now t.

Lemma make_ready_sleep t s : sleep_list (make_ready t s) = sleep_list s.
Proof. apply (runq_push_frame t (put t F_state PROC_READY s)). Qed.

Lemma stays_ext s s' now t :
  get s' t F_state = get s t F_state -> get s' t F_wake_tick = get s t F_wake_tick ->
  stays s' now t = stays s now t.
Proof. intros H1 H2. unfold stays, is_blocked, expired. by rewrite H1, H2. Qed.

Lemma wakes_ext s s' now t :
  get s' t F_state = get s t F_state -> get s' t F_wake_tick = get s t F_wake_tick ->
  wakes s' now t = wakes s now t.
Proof. intros H1 H2. unfold wakes, is_blocked, expired. by rewrite H1, H2. Qed.

(** The result of the walk over [r] from the link behind [d]. *)
Definition walked (s s' : sched) (now : Z) (d r : list Z) : Prop :=
  sleep_rep s' (d ++ List.filter (stays s now) r)
  /\ (forall u, get s' u F_state
        = if bool_decide (u ∈ r) && wakes s now u then PROC_READY else get s u F_state).

(** One node [x] that does not stay, before the walk over the rest. *)
Lemma walked_step s s1 s' now d x r :
  x ∉ r -> stays s now x = false ->
  (forall u, get s1 u F_wake_tick = get s u F_wake_tick) ->
  (forall u, get s1 u F_state = if (u =? x) && wakes s now x then PROC_READY else get s u F_state) ->
  walked s1 s' now d r -> walked s s' now d (x :: r).
Proof.
  intros Hx Hsx Hw Hst [H1 H2]. cbn [List.filter].
  assert (Hne : forall u, u ∈ r -> u <> x) by (intros u Hu ->; done).
  assert (Hsame : forall u, u <> x -> get s1 u F_state = get s u F_state).
  { intros u Hu. rewrite Hst. by destruct (Z.eqb_spec u x). }
  split.
  - cbn [List.filter]. rewrite Hsx. erewrite filter_ext_in; [exact H1|].
    intros u Hu%list_elem_of_In. symmetry. apply stays_ext; [|done]. by apply Hsame, Hne.
  - intros u. rewrite H2. destruct (Z.eqb_spec u x) as [->|Hux].
    + rewrite (bool_decide_false (x ∈ r)) by done. cbn [andb].
      rewrite (bool_decide_true (x ∈ x :: r)) by apply list_elem_of_here. rewrite Hst, Z.eqb_refl. done.
    + rewrite (bool_decide_ext (u ∈ x :: r) (u ∈ r)) by (rewrite elem_of_cons; naive_solver).
      rewrite (wakes_ext s s1) by (done || by apply Hsame). by rewrite Hsame.
Qed.

Lemma wake_expired_walk fuel now r d s :
  sleep_rep s (d ++ r) -> (length r < fuel)%nat ->
  exists s', wake_expired_from fuel now (link_of d) s = Some s' /\ walked s s' now d r.
Proof.
  revert d s fuel. induction r as [|x r IH]; intros d s fuel Hr Hl;
    (destruct fuel as [|fuel]; [cbn in Hl; lia|]); cbn [wake_expired_from]; rewrite (sleep_get_at _ _ _ Hr).
  - exists s. rewrite Z.eqb_refl. by split_and!.
  - assert (Hx : x <> 0).
    { eapply chain_nonzero; [apply Hr|]. apply elem_of_app. right. apply list_elem_of_here. }
    destruct (Z.eqb_spec x 0) as [|_]; [done|]. cbn [length] in Hl.
    assert (Hxr : x ∉ r) by (destruct Hr as [_ (_ & _ & [Hn _]%NoDup_cons)%NoDup_app]; done).
    pose proof (sleep_unlink _ _ _ _ Hr) as Hu.
    set (s1 := put x F_sleep_next 0 (sleep_put (link_of d) (get s x F_sleep_next) s)) in *.
    assert (Hg : forall u f, f <> F_sleep_next -> get s1 u f = get s u f).
    { intros u f Hf. unfold s1. rewrite get_put_field, sleep_put_get by done. done. }
    fold (is_blocked s x). destruct (is_blocked s x) eqn:Eb; cbn [negb].
    + fold (expired s now x). destruct (expired s now x) eqn:Ee.
      * set (s2 := make_ready x (put x F_timed_out 1 s1)).
        destruct (IH d s2 fuel) as (s' & Hrun & Hw); [|lia|].
        { eapply sleep_rep_ext; [..|exact Hu].
          - intros u. unfold s2. rewrite make_ready_get, get_put_field by done. done.
          - unfold s2. by rewrite make_ready_sleep. }
        exists s'. split; [exact Hrun|]. eapply (walked_step s s2); [done|..|exact Hw].
        -- unfold stays. by rewrite Eb, Ee.
        -- intros u. unfold s2. rewrite make_ready_get, get_put_field, Hg by done. done.
        -- intros u. unfold s2, wakes. rewrite make_ready_state, get_put_field, Hg, Eb, Ee by done.
           by rewrite andb_true_r.
      * rewrite <- (link_of_snoc d x).
        destruct (IH (d ++ [x]) s fuel) as (s' & Hrun & H1 & H2); [by rewrite <- app_assoc|lia|].
        exists s'. split; [exact Hrun|]. split.
        -- cbn [List.filter]. unfold stays at 1. rewrite Eb, Ee. cbn. by rewrite <- app_assoc in H1.
        -- intros u. rewrite H2. destruct (decide (u = x)) as [->|Hux].
           ++ unfold wakes. rewrite Ee, !andb_false_r. done.
           ++ by rewrite (bool_decide_ext (u ∈ x :: r) (u ∈ r)) by (rewrite elem_of_cons; naive_solver).
    + destruct (IH d s1 fuel Hu) as (s' & Hrun & Hw); [lia|]. exists s'. split; [exact Hrun|].
      eapply (walked_step s s1); [done|..|exact Hw].
      * unfold stays. by rewrite Eb.
      * intros u. by apply Hg.
      * intros u. rewrite Hg by done. unfold wakes. rewrite Eb, andb_false_r. done.
Qed.

(** The timer wakes the sleepers: on a well-formed sleep list the walk ends
    (one step per node), makes READY exactly the blocked threads whose deadline
    has passed, and keeps on the list exactly the blocked threads whose deadline
    has not; nodes woken by other means are dropped. *)
Theorem wake_expired_spec fuel now l s :
  sleep_rep s l -> (length l < fuel)%nat ->
  exists s', wake_expired_sleepers fuel now s = Some s'
    /\ sleep_rep s' (List.filter (stays s now) l)
    /\ (forall u, get s' u F_state
          = if bool_decide (u ∈ l) && wakes s now u then PROC_READY else get s u F_state).
Proof.
  intros Hr Hl. destruct (wake_expired_walk fuel now l [] s Hr Hl) as (s' & Hrun & Hw).
  exists s'. split; [exact Hrun|exact Hw].
Qed.

(** ** A thread on the sleep list goes to sleep again *)

(** A blocked node that is its own successor and has not expired is walked over
    forever. *)
Lemma walk_self_loop fuel now l t s :
  sleep_get s l = t -> t <> 0 -> get s t F_sleep_next = t ->
  is_blocked s t = true -> expired s now t = false -> wake_expired_from fuel now l s = None.
Proof.
  intros Hl Ht Hn Hb He. revert l Hl. induction fuel as [|fuel IH]; intros l Hl; [done|].
  cbn [wake_expired_from]. rewrite Hl. destruct (Z.eqb_spec t 0) as [|_]; [done|].
  fold (is_blocked s t). rewrite Hb. cbn [negb]. fold (expired s now t). rewrite He. by apply IH.
Qed.

Lemma not_expired now ticks :
  0 <= now < 2 ^ 62 -> 2 <= ticks < 2 ^ 62 ->
  (0 <=? s64 (u64 (now + 1) - u64 (now + ticks))) = false.
Proof.
  intros Hn Ht. rewrite !u64_small by lia. rewrite s64_small by lia. zcase; lia.
Qed.

(** Going to sleep while at the head of the sleep list. *)
Lemma sleep_again s q ticks :
  ok s q -> canary_ok s = true -> current_process s <> idle_thread s ->
  sleep_list s = current_process s -> ticks <> 0 ->
  exists s', sched_sleep_ticks ticks s = Some s'
    /\ sleep_list s' = current_process s
    /\ get s' (current_process s) F_sleep_next = current_process s
    /\ get s' (current_process s) F_wake_tick = u64 (timer_ticks s + ticks)
    /\ is_blocked s' (current_process s) = true /\ timer_ticks s' = timer_ticks s.
Proof.
  intros H Hcan Hci Hsl Ht. unfold sched_sleep_ticks. destruct (Z.eqb_spec ticks 0) as [|_]; [done|].
  set (c := current_process s) in *. set (w := u64 (timer_ticks s + ticks)).
  set (s0 := put c F_wake_tick w s). set (s1 := sleep_push c (put c F_state PROC_BLOCKED s0)).
  assert (Hok0 : ok s0 q) by (eapply ok_same; [|done]; unfold s0; same).
  assert (Hm : mid s1 q).
  { eapply mid_same; [|apply (block_mid PROC_BLOCKED s0 q Hok0); done]. unfold s1, sleep_push. same. reflexivity. }
  assert (Hg : forall u f, f <> F_sleep_next -> f <> F_state -> f <> F_wake_tick -> get s1 u f = get s u f).
  { intros u f H1 H2 H3. unfold s1, sleep_push, s0.
    change (get (put c F_sleep_next (sleep_list s) (put c F_state PROC_BLOCKED (put c F_wake_tick w s))) u f = get s u f).
    rewrite !get_put_field by done. done. }
  assert (Hst : get s1 c F_state = PROC_BLOCKED).
  { unfold s1, sleep_push.
    change (get (put c F_sleep_next (sleep_list s) (put c F_state PROC_BLOCKED s0)) c F_state = PROC_BLOCKED).
    rewrite get_put_field by done. apply get_put_eq. }
  assert (Hcan1 : canary_ok s1 = true).
  { unfold canary_ok in *. change (current_process s1) with c. rewrite !Hg by done. exact Hcan. }
  destruct (schedule_spec s1 q Hm Hcan1) as (s' & Hrun & Hsw). exists s'.
  assert (Hnr : runnable s1 = false).
  { unfold runnable. change (current_process s1) with c. rewrite Hst. by rewrite andb_false_r. }
  split_and!; [exact Hrun|..].
  - rewrite (sw_sleep _ _ _ _ Hsw). done.
  - rewrite (sw_kept _ _ _ _ Hsw) by done. unfold s1, sleep_push.
    change (get (put c F_sleep_next (sleep_list s) (put c F_state PROC_BLOCKED s0)) c F_sleep_next = c).
    rewrite get_put_eq. exact Hsl.
  - rewrite (sw_kept _ _ _ _ Hsw) by done. unfold s1, sleep_push.
    change (get (put c F_sleep_next (sleep_list s) (put c F_state PROC_BLOCKED s0)) c F_wake_tick = w).
    rewrite !get_put_field by done. apply get_put_eq.
  - unfold is_blocked. rewrite (sw_state _ _ _ _ Hsw). unfold switched_state. rewrite Hnr.
    change (current_process s1) with c. change (idle_thread s1) with (idle_thread s). rewrite Hst.
    destruct (Z.eqb_spec c (idle_thread s)) as [|_]; [done|]. rewrite andb_false_r. cbn [andb].
    destruct (Z.eqb_spec c (pick s1 (requeue s1 q))) as [E|_]; [|done]. exfalso.
    revert E. unfold requeue, pick. rewrite Hnr. destruct (highest q) as [p|] eqn:Eh; [|done].
    apply highest_Some in Eh as (Hp & (x & r & Hx) & _). rewrite Hx. cbn. intros E.
    destruct (rq_member _ _ (mid_runqs _ _ Hm) p x Hp) as (_ & Hrx & _); [rewrite Hx; apply list_elem_of_here|].
    rewrite <- E, Hst in Hrx. done.
  - rewrite (sw_ticks _ _ _ _ Hsw). done.
Qed.

(** Sched_wake, which a signal uses to wake a sleeper, leaves the thread on
    the sleep list until the next tick. If the thread sleeps again before that
    tick, the push of its node in front of itself makes the list a cycle, and the
    next timer interrupt walks it forever with interrupts off: timer_handler
    comes to no end, whatever number of steps it is given. *)
Theorem sleep_again_hangs s q ticks :
  ok s q -> canary_ok s = true -> current_process s <> idle_thread s ->
  sleep_list s = current_process s -> 2 <= ticks < 2 ^ 62 -> 0 <= timer_ticks s < 2 ^ 62 ->
  exists s', sched_sleep_ticks ticks s = Some s' /\ (forall fuel, timer_handler fuel s' = None).
Proof.
  intros H Hcan Hci Hsl Ht Hn.
  destruct (sleep_again s q ticks H Hcan Hci Hsl) as (s' & Hrun & H1 & H2 & H3 & H4 & H5); [lia|].
  exists s'. split; [exact Hrun|]. intros fuel. unfold timer_handler, sched_tick, wake_expired_sleepers.
  rewrite (walk_self_loop fuel _ L_head (current_process s)); [done|exact H1|apply H|exact H2|exact H4|].
  unfold expired. rewrite H5.
  change (get (with_ticks (u64 (timer_ticks s + 1)) s') (current_process s) F_wake_tick)
    with (get s' (current_process s) F_wake_tick). rewrite H3. by apply not_expired.
Qed.

(** ** Witnesses *)

(** Thread 3000 sleeps, a signal wakes it, and it runs again before a tick. *)
Definition demo_run (f : sched -> option sched) (s : sched) : sched := default s (f s).
Definition demo_runs_3000 : sched := demo_run schedule demo_two.
Definition demo_sleeps : sched := demo_run (sched_sleep_ticks 100) demo_runs_3000.
Definition demo_signalled : sched := (signal_send 3000 SIGINT demo_sleeps).2.
Definition demo_back : sched := demo_run schedule demo_signalled.

Lemma demo_run_ok f s :
  (forall s', f s = Some s' -> sched_ok s') -> sched_ok s -> sched_ok (demo_run f s).
Proof. intros Hf H. unfold demo_run. destruct (f s) eqn:E; cbn; [by apply Hf|done]. Qed.

Lemma demo_sleeps_ok : sched_ok demo_sleeps.
Proof.
  apply demo_run_ok; [intros s'; apply sched_sleep_ticks_ok|];
    (apply demo_run_ok; [intros s1; apply yield_ok|]); apply demo_two_ok.
Qed.

Lemma demo_back_ok : sched_ok demo_back.
Proof.
  apply demo_run_ok; [intros s'; apply yield_ok|]; apply signal_send_ok, demo_sleeps_ok.
Qed.

Lemma sleep_again_hangs_witness :
  exists s', sched_sleep_ticks 50 demo_back = Some s' /\ (forall fuel, timer_handler fuel s' = None).
Proof.
  destruct demo_back_ok as [q H]. apply (sleep_again_hangs demo_back q 50); [exact H|..].
  - vm_compute. reflexivity.
  - vm_compute. discriminate.
  - vm_compute. reflexivity.
  - lia.
  - vm_compute. split; [discriminate|reflexivity].
Defined.

Lemma wake_expired_spec_witness :
  exists s', wake_expired_sleepers 2 200 demo_sleeps = Some s' /\ get s' 3000 F_state = PROC_READY.
Proof.
  destruct (wake_expired_spec 2 200 [3000] demo_sleeps) as (s' & H1 & _ & H2).
  - split; [|apply NoDup_singleton]. split_and!; [vm_compute; reflexivity|done|vm_compute; reflexivity].
  - cbn. lia.
  - exists s'. split; [exact H1|]. rewrite H2. vm_compute. reflexivity.
Defined.
