(* ===== verification/Thread.v ===== *)
(** Futexes ([kernel/futex.c]), thread-specific data and the end of a thread
    (pthread_tls_cleanup of [kernel/pthread/pthread.c], thread_exit of
    [kernel/proc/sched/sched.c]).

    A routine that waits is the part up to the switch, which either returns or
    leaves the thread asleep, and the part that runs when the thread is current
    again. *)

From stdpp Require Import base numbers list gmap.
From Stdlib Require Import ZArith Lia.
From S2P Require Import Prelude Pmm Vm Vmspace Pid Proc Sched SchedInv Signal WaitQ.

(** * Futexes *)

Definition NBUCKETS : Z := 64.

(** [&bucket[i]]: the static array lies at [bucket], 16 bytes an element. *)
Definition bucket_wq (bucket i : Z) : wait_queue := (bucket + 16 * i, WQ_main).

Definition futex_init (bucket : Z) (s : sched) : sched :=
  for_range 0 NBUCKETS (fun i => wq_init (bucket_wq bucket i)) s.

(** What user addresses mean: the address spaces by the address of their struct,
    the page tables, and user memory. *)
Record uspace := Uspace { spaces : Z -> address_space; tables : vm; umemory : umem }.

(** 0 when the word is not mapped. *)
Definition uaddr_phys (us : uspace) (va : Z) (s : sched) : Z :=
  let cur := current_process s in
  if (cur =? 0) || (get s cur F_aspace =? 0) then 0 else
  let frame := (vmspace_phys (spaces us (get s cur F_aspace)) (Z.land va (2 ^ 64 - 4096)) (tables us)).1 in
  if frame =? 0 then 0 else frame + Z.land va 0xFFF.

Definition bucket_of (phys : Z) : Z := Z.shiftr phys 2 mod NBUCKETS.

(** A result, or the thread sleeps and goes on with the routine's second part. *)
Inductive wait_step := Ret (rc : Z) (s : sched) | Sleeps (s : sched).

Definition futex_wait (bucket : Z) (us : uspace) (uaddr val timeout : Z) (s : sched)
  : option wait_step :=
  let phys := uaddr_phys us uaddr s in
  if phys =? 0 then Some (Ret (- EFAULT) s) else
  let b := bucket_of phys in
  if negb (copy_from_user_ok uaddr 4 (umemory us)) then Some (Ret (- EFAULT) s)
  else if negb (ld32 (um (umemory us)) uaddr =? val) then Some (Ret (- EAGAIN) s)
  else s' ← sched_wait_enter (bucket_wq bucket b) timeout s; Some (Sleeps s').

(** The rest of futex_wait: [b] and [cur] are those of its first part. *)
Definition futex_wait_leave (fuel : nat) (bucket b cur : Z) (s : sched) : option (Z * sched) :=
  '(rc, s) ← sched_wait_leave fuel (bucket_wq bucket b) cur s;
  Some (if rc =? 2 then - EINTR else if rc =? 1 then - ETIMEDOUT else 0, s).

(** The loop of futex_wake. *)
Fixpoint futex_wake_loop (fuel : nat) (wq : wait_queue) (n woken : Z) (s : sched)
  : option (Z * sched) :=
  match fuel with
  | O => None
  | S fuel' =>
      if (woken <? n) && truth (wq_head s wq) then
        s ← wq_wake_one fuel wq s;
        futex_wake_loop fuel' wq n (woken + 1) s
      else Some (woken, s)
  end.

Definition futex_wake (fuel : nat) (bucket : Z) (us : uspace) (uaddr n : Z) (s : sched)
  : option (Z * sched) :=
  let phys := uaddr_phys us uaddr s in
  if phys =? 0 then Some (- EFAULT, s)
  else futex_wake_loop fuel (bucket_wq bucket (bucket_of phys)) n 0 s.

(** * Thread-specific data *)

Definition PTHREAD_KEYS_MAX : Z := 64.

(** The address of the key table. *)
Section keys.
Context (key_table : Z).

(** [Some key]: the key that was taken. *)
Definition pthread_key_create (key_ptr dtor : Z) (s : sched) : Z * option Z * sched :=
  if key_ptr =? 0 then (EINVAL, None, s) else
  match find_slot (Z.to_nat PTHREAD_KEYS_MAX) 0 (fun i => get s key_table (F_key_used i) =? 0) with
  | Some i => (0, Some i, put key_table (F_key_dtor i) dtor (put key_table (F_key_used i) 1 s))
  | None => (EAGAIN, None, s)
  end.

Definition pthread_key_delete (key : Z) (s : sched) : Z * sched :=
  if (key <? 0) || (PTHREAD_KEYS_MAX <=? key) then (EINVAL, s)
  else (0, put key_table (F_key_dtor key) 0 (put key_table (F_key_used key) 0 s)).

(** [tls]: what kcalloc returns for the array, which is then zero. *)
Definition pthread_setspecific (tls key value : Z) (s : sched) : Z * sched :=
  if (key <? 0) || (PTHREAD_KEYS_MAX <=? key) || (get s key_table (F_key_used key) =? 0)
  then (EINVAL, s) else
  let self := current_process s in
  if truth (get s self F_tls) then (0, put (get s self F_tls) (F_tls_slot key) value s)
  else if tls =? 0 then (ENOMEM, s)
  else
    let s := for_range 0 PTHREAD_KEYS_MAX (fun k => put tls (F_tls_slot k) 0) s in
    let s := put self F_tls tls s in
    (0, put (get s self F_tls) (F_tls_slot key) value s).

Definition pthread_getspecific (key : Z) (s : sched) : Z :=
  if (key <? 0) || (PTHREAD_KEYS_MAX <=? key) then 0 else
  let self := current_process s in
  if get s self F_tls =? 0 then 0 else get s (get s self F_tls) (F_tls_slot key).

(** A destructor is a function of the program that made the key: [run_dtor] is
    the effect of calling it. *)
Context (run_dtor : Z -> Z -> sched -> sched).

(** One pass over the keys; whether a destructor was called. *)
Definition tls_pass (t : Z) (s : sched) : bool * sched :=
  for_range 0 PTHREAD_KEYS_MAX
    (fun k '(any, s) =>
       let val := get s (get s t F_tls) (F_tls_slot k) in
       if truth val && truth (get s key_table (F_key_used k)) && truth (get s key_table (F_key_dtor k))
       then (true, run_dtor (get s key_table (F_key_dtor k)) val
                     (put (get s t F_tls) (F_tls_slot k) 0 s))
       else (any, s)) (false, s).

Fixpoint tls_passes (n : nat) (t : Z) (s : sched) : sched :=
  match n with
  | O => s
  | S n => let '(any, s) := tls_pass t s in if any then tls_passes n t s else s
  end.

Definition pthread_tls_cleanup (t : Z) (s : sched) : sched :=
  if (t =? 0) || (get s t F_tls =? 0) then s else tls_passes 4 t s.

(** * The end of a thread *)

(** vfs_close_all: the effect of closing the descriptors. *)
Context (vfs_close_all : Z -> sched -> sched).

(** thread_exit from local_irq_save on: the thread becomes a zombie and another
    one runs. *)
Definition exit_locked (fuel : nat) (code : Z) (s : sched) : option sched :=
  let cur := current_process s in
  let s := put cur F_exit_code code s in
  let s := put cur F_exit_time (timer_ticks s) s in
  let s := put cur F_cpu_time_used
             (u64 (get s cur F_cpu_time_used + (get s cur F_exit_time - get s cur F_creation_time))) s in
  p ← proc_reparent_orphans fuel cur (pr s);
  let s := with_pr p s in
  s ← (if truth (get s cur F_parent_pid) && negb (get s cur F_parent_pid =? get s cur F_pid)
       then p ← proc_remove_child fuel cur (pr s); Some (with_pr p s)
       else Some s);
  let s := put cur F_state PROC_ZOMBIE s in
  s ← wq_wake_all fuel (cur, WQ_join) s;
  let parent := proc_find (s32 (get s cur F_parent_pid)) (pr s) in
  s ← (if truth parent && negb (parent =? cur)
       then s ← wq_wake_all fuel (parent, WQ_child) s; Some (signal_send parent SIGCHLD s).2
       else Some s);
  let s := if truth (get s cur F_detached)
           then with_reap cur (put cur F_run_next (reap_list s) s) else s in
  schedule s.

(** clear_child_tid: the word is cleared and a waiter on it is woken. *)
Definition clear_tid (fuel : nat) (bucket : Z) (us : uspace) (s : sched) : option (sched * uspace) :=
  let cur := current_process s in
  let a := get s cur F_clear_child_tid in
  if truth a then
    let '(_, u) := copy_to_user a (fun _ => 0) 4 (umemory us) in
    let us := Uspace (spaces us) (tables us) u in
    '(_, s) ← futex_wake fuel bucket us a 1 s;
    Some (put cur F_clear_child_tid 0 s, us)
  else Some (s, us).

Definition thread_exit (fuel : nat) (bucket : Z) (us : uspace) (code : Z) (s : sched)
  : option (sched * uspace) :=
  let s := pthread_tls_cleanup (current_process s) s in
  '(s, us) ← clear_tid fuel bucket us s;
  let s := vfs_close_all (current_process s) s in
  s ← exit_locked fuel code s;
  Some (s, us).

Definition proc_exit := thread_exit.

Definition pthread_exit (fuel : nat) (bucket : Z) (us : uspace) (retval : Z) (s : sched)
  : option (sched * uspace) :=
  thread_exit fuel bucket us 0 (put (current_process s) F_retval retval s).

End keys.

(** * Wake-ups of futexes *)

Lemma wake_one_head fuel wq x l s :
  wq_rep s wq (x :: l) -> is_blocked s x = true -> (S (length l) < fuel)%nat ->
  exists s', wq_wake_one fuel wq s = Some s' /\ wq_rep s' wq l
    /\ (forall u, get s' u F_state = if u =? x then PROC_READY else get s u F_state).
Proof.
  intros Hr Hb Hl. destruct (wake_one_spec fuel wq (x :: l) s Hr Hl) as (s' & H1 & H2 & H3).
  exists s'. cbn [split_wake] in H2, H3. rewrite Hb in H2, H3. split_and!; [done|done|].
  intros u. rewrite H3. cbn [fst]. rewrite (bool_decide_ext (Some u = Some x) (u = x)) by naive_solver.
  case_bool_decide; zcase; done.
Qed.

(** Waiters of every word whose address falls in a bucket share one queue,
    and futex_wake takes them in order whatever word they wait on. When a waiter
    [x] of another word is ahead of the waiter [y] of this word, waking one
    waiter of this word wakes [x], reports one waiter woken, and leaves [y]
    asleep: the collision is not a harmless spurious wake-up, the wake-up of
    this word is lost. *)
Theorem futex_wake_collision fuel bucket us a s x y l :
  uaddr_phys us a s <> 0 ->
  wq_rep s (bucket_wq bucket (bucket_of (uaddr_phys us a s))) (x :: l) -> (S (length l) < fuel)%nat ->
  is_blocked s x = true -> y ∈ l -> is_blocked s y = true ->
  exists s', futex_wake fuel bucket us a 1 s = Some (1, s')
    /\ get s' x F_state = PROC_READY /\ is_blocked s' y = true.
Proof.
  intros Hp Hr Hl Hx Hy Hyb. unfold futex_wake. destruct (Z.eqb_spec (uaddr_phys us a s) 0) as [|_]; [done|].
  set (wq := bucket_wq _ _) in *. destruct (wake_one_head fuel wq x l s Hr Hx Hl) as (s' & H1 & H2 & H3).
  destruct fuel as [|fuel]; [lia|]. cbn [futex_wake_loop].
  assert (Hh : truth (wq_head s wq) = true) by (destruct Hr as (Hc & _); by rewrite (chain_head _ _ _ _ Hc)).
  rewrite Hh. cbn [Z.ltb Z.compare andb]. rewrite H1. cbn [mbind option_bind].
  destruct fuel as [|fuel]; [lia|]. cbn [futex_wake_loop]. rewrite Z.add_0_l, Z.ltb_irrefl. cbn [andb].
  exists s'. split_and!; [done|by rewrite H3, Z.eqb_refl|]. unfold is_blocked. rewrite H3.
  destruct (Z.eqb_spec y x) as [E|_]; [|exact Hyb].
  destruct Hr as (_ & Hnd & _). apply NoDup_cons in Hnd as [Hn _]. by rewrite E in Hy.
Qed.

(** ** Witness: two words of one page, 256 bytes apart *)

Definition demo_us : uspace :=
  Uspace (fun _ => demo_as) (demo_mapped (Z.lor PAGE_WRITABLE PAGE_USER)).2
    (Umem (fun _ => 0) (fun a => (0x400000 <=? a) && (a <? 0x401000))).

(** Threads 3000, 4000 and 2000 share the address space. *)
Definition demo_three : sched :=
  let s := (thread_create (Text 16 32) 4000 400000 48 0 None 12 demo_two).2 in
  put 2000 F_aspace 64 (put 3000 F_aspace 64 (put 4000 F_aspace 64 s)).

Definition demo_wait (a : Z) (s : sched) : sched :=
  match futex_wait 9000 demo_us a 0 0 s with
  | Some (Sleeps s') => s'
  | _ => s
  end.

(** 3000 waits on the word at 0x400000, then 4000 on the word at 0x400100. *)
Definition demo_two_wait : sched := demo_wait 0x400100 (demo_wait 0x400000 (demo_run schedule demo_three)).

Lemma futex_wake_collision_witness :
  exists s', futex_wake 3 9000 demo_us 0x400100 1 demo_two_wait = Some (1, s')
    /\ get s' 3000 F_state = PROC_READY /\ is_blocked s' 4000 = true.
Proof.
  apply (futex_wake_collision 3 9000 demo_us 0x400100 demo_two_wait 3000 4000 [4000]).
  - vm_compute. discriminate.
  - split_and!.
    + repeat first [split; [vm_compute; reflexivity|split; [discriminate|]] | vm_compute; reflexivity].
    + apply NoDup_cons_2; [by rewrite list_elem_of_singleton|apply NoDup_singleton].
    + vm_compute. reflexivity.
  - cbn. lia.
  - vm_compute. reflexivity.
  - apply list_elem_of_here.
  - vm_compute. reflexivity.
Defined.
