(* ===== verification/System.v ===== *)
(** The scheduler's invariant over everything the kernel does to threads: a step
    relation with the routines of Sched.v, Signal.v and Thread.v, from boot on. *)

From stdpp Require Import base numbers list gmap.
From Stdlib Require Import ZArith Lia.
From S2P Require Import Prelude Pmm Vm Vmspace Pid Proc Sched SchedInv Signal WaitQ Thread.

(** * A thread on its way out *)

(** The current thread [c] is a zombie and schedule() has not run yet. *)
Definition exiting (c : Z) (s : sched) : Prop :=
  (exists q, mid s q) /\ current_process s = c /\ get s c F_state = PROC_ZOMBIE.

Lemma exiting_same c s s' : same s s' -> exiting c s -> exiting c s'.
Proof.
  intros Hs ([q H] & Hc & Hz). split_and!; [exists q; by eapply mid_same|by rewrite (same_current _ _ Hs)|].
  by rewrite (same_get _ _ _ _ Hs).
Qed.

Lemma make_ready_exiting c t s :
  exiting c s -> t <> 0 -> get s t F_state = PROC_BLOCKED -> exiting c (make_ready t s).
Proof.
  intros ([q H] & <- & Hz) Ht Hb.
  assert (Htc : t <> current_process s) by (intros ->; by rewrite Hz in Hb).
  assert (Hti : t <> idle_thread s).
  { intros ->. rewrite (mid_idle _ _ H) in Hb; [done|done]. }
  pose proof (runq_push_frame t (put t F_state PROC_READY s)) as (Hid & Hcur & _).
  split_and!; [exists (enqueue s t q); unfold make_ready;
    apply mid_same with (runq_push t (put t F_state PROC_READY s)); [same|];
    constructor; rewrite ?Hid, ?Hcur|exact Hcur|].
  - apply push_ready; [apply H|done|done|by rewrite Hb].
  - intros u. rewrite runq_push_get by done. destruct (Z.eqb_spec u t) as [->|Hne].
    + by rewrite get_put_eq.
    + rewrite get_put_ptr by done. apply H.
  - apply H.
  - rewrite runq_push_get by done. change (current_process (put t F_state PROC_READY s)) with (current_process s).
    rewrite get_put_ptr by done. apply H.
  - apply H.
  - rewrite runq_push_get by done. change (idle_thread (put t F_state PROC_READY s)) with (idle_thread s).
    rewrite get_put_ptr by done. apply H.
  - rewrite make_ready_state. destruct (Z.eqb_spec (current_process s) t) as [E|_]; [by rewrite <- E in Htc|done].
Qed.

Lemma wq_wake_exiting c fuel all wq s s' :
  exiting c s -> wq_wake_loop fuel all wq s = Some s' -> exiting c s'.
Proof.
  revert s. induction fuel as [|fuel IH]; intros s H; cbn [wq_wake_loop]; [done|].
  pose proof (wq_pop_same wq s) as Hp. destruct (wq_pop wq s) as [t s1]. cbn in Hp.
  assert (H1 : exiting c s1) by by eapply exiting_same.
  destruct (Z.eqb_spec t 0) as [_|Ht]; [by intros [= <-]|].
  destruct (Z.eqb_spec (get s1 t F_state) PROC_BLOCKED) as [Hb|_]; cbn [negb]; [|by apply IH].
  assert (H2 : exiting c (make_ready t (put t F_timed_out 0 s1))).
  { apply make_ready_exiting; [eapply exiting_same; [|exact H1]; same|done|by rewrite get_put_field]. }
  destruct all; [by apply IH|by intros [= <-]].
Qed.

Lemma signal_send_exiting c t sig s : exiting c s -> exiting c (signal_send t sig s).2.
Proof.
  intros H. unfold signal_send. destruct (Z.eqb_spec t 0) as [|Ht]; [done|]. destruct (_ || _); [done|].
  destruct (effectively_ignored _ _ _); [done|]. cbn [snd]. unfold post_signal.
  set (s1 := put t F_sig_pending _ s). assert (H1 : exiting c s1) by (eapply exiting_same; [|done]; unfold s1; same).
  destruct (_ || _); cbn [andb]; [|done].
  destruct (Z.eqb_spec (get s1 t F_state) PROC_BLOCKED) as [Hb|_]; [|done].
  unfold sched_wake. destruct (Z.eqb_spec t 0) as [|_]; [done|]. rewrite !get_put_field by done.
  rewrite Hb. cbn. apply make_ready_exiting; [eapply exiting_same; [|done]; same|done|].
  by rewrite get_put_field.
Qed.

(** Linking the zombie, which is on no run queue, through its [run_next]. *)
Lemma reap_push_mid s q v :
  mid s q -> get s (current_process s) F_state = PROC_ZOMBIE ->
  mid (with_reap (current_process s) (put (current_process s) F_run_next v s)) q.
Proof.
  intros H Hz. apply mid_same with (put (current_process s) F_run_next v s); [same|].
  assert (Hg : forall u f, f <> F_run_next -> get (put (current_process s) F_run_next v s) u f = get s u f)
    by (intros; by apply get_put_field).
  constructor; [|intros t; rewrite Hg by done; apply H|apply H|by rewrite Hg; [apply H|]|apply H|by rewrite Hg; [apply H|]].
  destruct (mid_runqs _ _ H) as [H1 H2 H3 H4 H5 H6]. constructor.
  - intros p Hp. apply chain_upd; [|by apply H1]. intros Hin. apply H4 in Hin as (_ & Hst & _); [|done].
    by rewrite Hz in Hst.
  - done.
  - done.
  - intros p t Hp Ht. unfold prio_of. rewrite !Hg by done. by apply H4.
  - intros t. unfold prio_of. rewrite !Hg by done. apply H5.
  - intros t. rewrite Hg by done. apply H6.
Qed.

Lemma same_remove_child_loop fuel parent child prev cur p p' :
  remove_child_loop fuel parent child prev cur p = Some p' -> same_ps (ps p) (ps p').
Proof.
  revert prev cur. induction fuel as [|fuel IH]; intros prev cur; cbn [remove_child_loop]; [done|].
  destruct (cur =? 0); [by intros [= <-]|]. destruct (cur =? child); [intros [= <-]|apply IH].
  unfold unlink_child. repeat same_ps_step.
Qed.

Lemma same_proc_remove_child fuel child p p' :
  proc_remove_child fuel child p = Some p' -> same_ps (ps p) (ps p').
Proof.
  unfold proc_remove_child. destruct (child =? 0); [by intros [= <-]|].
  destruct (_ =? 0); [done|]. apply same_remove_child_loop.
Qed.

Lemma same_reparent_one init dead child p : same_ps (ps p) (ps (reparent_one init dead child p)).
Proof. unfold reparent_one. repeat same_ps_step. Qed.

Lemma same_reparent_loop fuel init dead child p p' :
  reparent_loop fuel init dead child p = Some p' -> same_ps (ps p) (ps p').
Proof.
  revert child p. induction fuel as [|fuel IH]; intros child p; cbn [reparent_loop]; [done|].
  destruct (child =? 0); [by intros [= <-]|]. intros H%IH t f Hf.
  rewrite H by done. by apply same_reparent_one.
Qed.

Lemma same_proc_reparent_orphans fuel dead p p' :
  proc_reparent_orphans fuel dead p = Some p' -> same_ps (ps p) (ps p').
Proof.
  unfold proc_reparent_orphans. destruct (dead =? 0); [by intros [= <-]|].
  intros (p1 & H1%same_reparent_loop & [= <-])%bind_Some. intros t f Hf. cbn.
  rewrite !upd_field by (by intros ->). by apply H1.
Qed.

Lemma with_pr_same s p : same_ps (ps (pr s)) (ps p) -> same s (with_pr p s).
Proof. by constructor. Qed.

Lemma exit_locked_ok fuel code s s' : sched_ok s -> exit_locked fuel code s = Some s' -> sched_ok s'.
Proof.
  intros H. unfold exit_locked. set (c := current_process s).
  intros (p1 & H1%same_proc_reparent_orphans & Hs)%bind_Some.
  apply bind_Some in Hs as (s2 & H2 & Hs). apply bind_Some in Hs as (s3 & H3 & Hs).
  apply bind_Some in Hs as (s4 & H4 & Hs).
  set (s0 := with_pr p1 _) in *.
  assert (S0 : same s s0).
  { unfold s0. eapply same_trans; [|by apply with_pr_same]. same. }
  assert (S2 : same s s2).
  { eapply same_trans; [exact S0|]. destruct (_ && _).
    - apply bind_Some in H2 as (p2 & E%same_proc_remove_child & [= <-]). by apply with_pr_same.
    - by injection H2 as <-. }
  assert (E2 : exiting c (put c F_state PROC_ZOMBIE s2)).
  { destruct H as [q H]. assert (Hc : c = current_process s2) by (symmetry; apply S2). split_and!.
    - exists q. rewrite Hc. apply block_mid; [by eapply ok_same|done|done].
    - done.
    - apply get_put_eq. }
  pose proof (wq_wake_exiting _ _ _ _ _ _ E2 H3) as E3.
  assert (E4 : exiting c s4).
  { destruct (_ && _) in H4; [|by injection H4 as <-].
    apply bind_Some in H4 as (s5 & H5 & [= <-]). apply signal_send_exiting.
    exact (wq_wake_exiting _ _ _ _ _ _ E3 H5). }
  destruct E4 as ([q Hm] & Hc & Hz). destruct (truth _) in Hs; [|by eapply schedule_ok].
  rewrite <- Hc in Hs, Hz. eapply schedule_ok; [by apply reap_push_mid|exact Hs].
Qed.

(** * Futexes *)

Lemma futex_wake_ok fuel wq n w s r s' :
  sched_ok s -> futex_wake_loop fuel wq n w s = Some (r, s') -> sched_ok s'.
Proof.
  revert w s. induction fuel as [|fuel IH]; intros w s H; cbn [futex_wake_loop]; [done|].
  destruct (_ && _); [|by intros [= <- <-]].
  intros (s1 & H1%wq_wake_ok & H2)%bind_Some; [|done]. by eapply IH.
Qed.

(** * Every step of the kernel *)

(** One routine of the scheduler, the signal or the thread code runs; anything
    else the kernel does stores to fields the scheduler does not own
    ([K_store]). A PCB for a new thread is memory that is no live thread. *)
Inductive kernel_step : sched -> sched -> Prop :=
  | K_yield s s' : thread_yield s = Some s' -> kernel_step s s'
  | K_timer fuel s s' : timer_handler fuel s = Some s' -> kernel_step s s'
  | K_preempt s s' : sched_preempt_if_needed s = Some s' -> kernel_step s s'
  | K_preempt_disable s : kernel_step s (preempt_disable s)
  | K_preempt_enable s s' : preempt_enable s = Some s' -> kernel_step s s'
  | K_wake t s : kernel_step s (sched_wake t s)
  | K_sleep n s s' : sched_sleep_ticks n s = Some s' -> kernel_step s s'
  | K_sleep_ms n s s' : sched_sleep_ms n s = Some s' -> kernel_step s s'
  | K_wait wq n s s' : sched_wait_enter wq n s = Some s' -> kernel_step s s'
  | K_wait_leave fuel wq s r s' :
      sched_wait_leave fuel wq (current_process s) s = Some (r, s') -> kernel_step s s'
  | K_wake_one fuel wq s s' : wq_wake_one fuel wq s = Some s' -> kernel_step s s'
  | K_wake_all fuel wq s s' : wq_wake_all fuel wq s = Some s' -> kernel_step s s'
  | K_create tx pcb stack entry arg name prio s :
      get s pcb F_state <> PROC_READY -> get s pcb F_state <> PROC_RUNNING -> 0 <= prio < 256 ->
      kernel_step s (thread_create tx pcb stack entry arg name prio s).2
  | K_admit t s :
      t <> 0 -> get s t F_state = PROC_EMBRYO -> kernel_step s (sched_admit t s)
  | K_reap t s : kernel_step s (proc_reap t s)
  | K_reap_detached fuel s s' : sched_reap_detached fuel s = Some s' -> kernel_step s s'
  | K_join t s j : sched_join_round t s = Some j -> kernel_step s (join_state j)
  | K_detach t s : kernel_step s (sched_detach t s).2
  | K_signal t sig s : kernel_step s (signal_send t sig s).2
  | K_kill fuel pid sig s r s' : signal_kill fuel pid sig s = Some (r, s') -> kernel_step s s'
  | K_futex_wake fuel bucket us a n s r s' :
      futex_wake fuel bucket us a n s = Some (r, s') -> kernel_step s s'
  | K_exit fuel code s s' : exit_locked fuel code s = Some s' -> kernel_step s s'
  | K_store t f v s : sched_field f = false -> kernel_step s (put t f v s).

(** The states the kernel reaches once kernel_main has become init. *)
Inductive kernel_reach (b : boot) : sched -> Prop :=
  | kr_boot s : no_thread s -> kernel_reach b (proc_become_current b (proc_init b s))
  | kr_step s s' : kernel_reach b s -> kernel_step s s' -> kernel_reach b s'.

Lemma kernel_step_ok s s' : sched_ok s -> kernel_step s s' -> sched_ok s'.
Proof.
  intros H Hs. destruct Hs as [s s' E|fuel s s' E|s s' E|s|s s' E|t s|n s s' E|n s s' E|wq n s s' E
    |fuel wq s r s' E|fuel wq s s' E|fuel wq s s' E|tx pcb stack entry arg name prio s H1 H2 H3|t s H1 H2
    |t s|fuel s s' E|t s j E|t s|t sig s|fuel pid sig s r s' E|fuel bucket us a n s r s' E|fuel code s s' E
    |t f v s E].
  - exact (yield_ok _ _ H E).
  - exact (timer_handler_ok _ _ _ H E).
  - exact (sched_preempt_ok _ _ H E).
  - exact (preempt_disable_ok _ H).
  - exact (preempt_enable_ok _ _ H E).
  - exact (sched_wake_ok _ _ H).
  - exact (sched_sleep_ticks_ok _ _ _ H E).
  - exact (sched_sleep_ms_ok _ _ _ H E).
  - exact (sched_wait_enter_ok _ _ _ _ H E).
  - exact (sched_ok_same _ _ (sched_wait_leave_same _ _ _ _ _ _ E) H).
  - exact (wq_wake_ok _ _ _ _ _ H E).
  - exact (wq_wake_ok _ _ _ _ _ H E).
  - apply thread_create_ok; [done..|lia].
  - apply make_ready_ok; [done|done|by rewrite H2..].
  - exact (sched_ok_same _ _ (proc_reap_same _ _) H).
  - exact (sched_ok_same _ _ (sched_reap_detached_same _ _ _ E) H).
  - exact (sched_join_round_ok _ _ _ H E).
  - exact (sched_ok_same _ _ (sched_detach_same _ _) H).
  - exact (signal_send_ok _ _ _ H).
  - exact (signal_kill_ok _ _ _ _ _ _ H E).
  - unfold futex_wake in E. destruct (_ =? 0) in E; [by injection E as _ <-|].
    exact (futex_wake_ok _ _ _ _ _ _ _ H E).
  - exact (exit_locked_ok _ _ _ _ H E).
  - exact (sched_ok_same _ _ (same_put _ _ _ _ E) H).
Qed.

(** C1: whatever sequence of scheduler, signal, futex, creation and exit routines
    runs after boot, the run queues hold exactly the READY threads other than
    idle, each once and in the queue of its priority, and exactly one thread, the
    current one, is RUNNING. *)
Theorem kernel_reach_ok b s : boot_wf b -> kernel_reach b s -> exists q, ok s q.
Proof.
  intros Hb. induction 1 as [s Hn|s s' _ IH Hs].
  - exists (fun _ => []). by apply boot_ok.
  - by eapply kernel_step_ok.
Qed.

(** The scenario of [sleep_again_hangs] is one of these sequences. *)
Lemma demo_step f s :
  (forall s', f s = Some s' -> kernel_step s s') -> kernel_reach demo_boot s ->
  kernel_reach demo_boot (demo_run f s).
Proof.
  intros Hf H. unfold demo_run. destruct (f s) eqn:E; cbn; [|done]. eapply kr_step; [done|]. by apply Hf.
Qed.

Lemma kernel_reach_ok_witness : kernel_reach demo_boot demo_back /\ exists q, ok demo_back q.
Proof.
  assert (H : kernel_reach demo_boot demo_back).
  { apply demo_step; [intros; by apply K_yield|]. eapply kr_step; [|apply K_signal].
    apply demo_step; [intros; by eapply K_sleep|]. apply demo_step; [intros; by apply K_yield|].
    eapply kr_step; [|apply K_create; [vm_compute; discriminate..|lia]].
    apply kr_boot. intros t. split; [done|]. cbn. lia. }
  split; [exact H|]. apply (kernel_reach_ok demo_boot); [by split_and!|exact H].
Defined.
