(* ===== verification/Pthread.v ===== *)
(** POSIX threads, [kernel/pthread/pthread.c], and semaphores,
    [kernel/pthread/sem.c], on the scheduler's wait queues.

    Every critical section runs with interrupts off, so it is one step. A routine
    that waits is a round, which returns or puts the thread to sleep, and a
    resume, which leaves the wait and starts the next round. The objects (mutex,
    condition, lock, barrier, once, semaphore) are objects of the store. *)

From stdpp Require Import base numbers list gmap.
From Stdlib Require Import ZArith Lia.
From S2P Require Import Prelude Pmm Vm Vmspace Pid Proc Sched SchedInv Signal WaitQ Thread.

(** * Time (ktime.c) *)

Record timespec := Timespec { tv_sec : Z; tv_nsec : Z }.

Definition CLOCK_REALTIME : Z := 0.

Definition clock_now_ms (s : sched) : Z := u64 (timer_ticks s * 1000) / TIMER_FREQUENCY.

(** [base]: realtime_base_ms. *)
Definition clock_now_realtime_ms (base : Z) (s : sched) : Z := u64 (base + clock_now_ms s).

Definition ktime_init_realtime (rtc_epoch : Z) (s : sched) : Z :=
  let epoch_ms := u64 (rtc_epoch * 1000) in
  let mono := clock_now_ms s in
  if mono <? epoch_ms then epoch_ms - mono else epoch_ms.

(** [ts]: the pointer; the result and what is stored there. *)
Definition clock_gettime (base clk ts : Z) (s : sched) : Z * option timespec :=
  if ts =? 0 then (-1, None) else
  let ms := if clk =? CLOCK_REALTIME then clock_now_realtime_ms base s else clock_now_ms s in
  (0, Some (Timespec (s64 (ms / 1000)) (s64 (u64 (ms mod 1000 * 1000000))))).

(** [None]: a NULL pointer. *)
Definition timespec_to_ms (ts : option timespec) : Z :=
  match ts with
  | None => 0
  | Some ts => u64 (u64 (u64 (tv_sec ts) * 1000) + u64 (tv_nsec ts) / 1000000)
  end.

(** The same static function in pthread.c and sem.c. *)
Definition abstime_to_ticks (abstime : timespec) (s : sched) : Z :=
  let now := clock_now_ms s in
  let dl := timespec_to_ms (Some abstime) in
  if dl <=? now then 0 else
  let rel_ms := dl - now in
  let ticks := u64 (u64 (rel_ms * TIMER_FREQUENCY) + 999) / 1000 in
  if truth ticks then ticks else 1.

(** * Threads *)

Definition PTHREAD_CREATE_JOINABLE : Z := 0.
Definition PTHREAD_CREATE_DETACHED : Z := 1.

(** [attr]: 0 for NULL; [pcb] and [stack] as in thread_create. The result, the
    thread and the state. *)
Definition pthread_create (tx : text) (pth_shim pcb stack attr start arg : Z) (name : Z -> Z) (s : sched)
  : option (Z * Z * sched) :=
  let prio := if truth attr then get s attr F_attr_priority else PRIO_DEFAULT in
  let detach := if truth attr then get s attr F_attr_detachstate else PTHREAD_CREATE_JOINABLE in
  let s := preempt_disable s in
  let '(t, s) := thread_create tx pcb stack pth_shim arg (Some name) prio s in
  let s := if truth t then
             let s := put t F_pth_start start s in
             if detach =? PTHREAD_CREATE_DETACHED then put t F_detached 1 s else s
           else s in
  s ← preempt_enable s;
  Some (if t =? 0 then (EAGAIN, 0, s) else (0, t, s)).

Definition pthread_detach (t : Z) (s : sched) : Z * sched :=
  if t =? 0 then (EINVAL, s) else
  let '(r, s) := sched_detach t s in (if r =? 0 then 0 else EINVAL, s).

(** The answer of pthread_join from that of sched_join. *)
Definition pthread_join (t : Z) (s : sched) : option join_step :=
  if t =? 0 then Some (Join_done EINVAL 0 0 s) else
  j ← sched_join t s;
  Some (match j with
        | Join_done rc code retval s => Join_done (if rc =? 0 then 0 else ESRCH) code retval s
        | Join_blocked s => Join_blocked s
        end).

Definition pthread_self (s : sched) : Z := current_process s.
Definition pthread_equal (a b : Z) : bool := a =? b.
Definition pthread_yield (s : sched) : option sched := thread_yield s.

(** ** Attributes *)

Definition pthread_attr_init (a : Z) (s : sched) : Z * sched :=
  if a =? 0 then (EINVAL, s)
  else (0, put a F_attr_priority PRIO_DEFAULT (put a F_attr_detachstate PTHREAD_CREATE_JOINABLE s)).

Definition pthread_attr_setdetachstate (a st : Z) (s : sched) : Z * sched :=
  if (a =? 0) || (negb (st =? PTHREAD_CREATE_JOINABLE) && negb (st =? PTHREAD_CREATE_DETACHED))
  then (EINVAL, s) else (0, put a F_attr_detachstate st s).

Definition pthread_attr_getdetachstate (a : Z) (s : sched) : Z * Z :=
  if a =? 0 then (EINVAL, 0) else (0, get s a F_attr_detachstate).

Definition pthread_attr_setpriority_np (a prio : Z) (s : sched) : Z * sched :=
  if a =? 0 then (EINVAL, s) else (0, put a F_attr_priority prio s).

(** * Mutex *)

Definition PTHREAD_MUTEX_NORMAL : Z := 0.
Definition PTHREAD_MUTEX_RECURSIVE : Z := 1.
Definition PTHREAD_MUTEX_ERRORCHECK : Z := 2.

Definition mutex_wq (m : Z) : wait_queue := (m, WQ_main).

Definition pthread_mutexattr_init (a : Z) (s : sched) : Z * sched :=
  if a =? 0 then (EINVAL, s) else (0, put a F_type PTHREAD_MUTEX_NORMAL s).

Definition pthread_mutexattr_settype (a type : Z) (s : sched) : Z * sched :=
  if (a =? 0) || (type <? 0) || (PTHREAD_MUTEX_ERRORCHECK <? type) then (EINVAL, s)
  else (0, put a F_type type s).

Definition pthread_mutex_init (m a : Z) (s : sched) : Z * sched :=
  if m =? 0 then (EINVAL, s) else
  let s := put m F_locked 0 s in
  let s := put m F_owner 0 s in
  let s := put m F_type (if truth a then get s a F_type else PTHREAD_MUTEX_NORMAL) s in
  let s := put m F_recursion 0 s in
  let s := wq_init (mutex_wq m) s in
  (0, put m F_inited 1 s).

Definition pthread_mutex_destroy (m : Z) (s : sched) : Z * sched :=
  if m =? 0 then (EINVAL, s)
  else if truth (get s m F_locked) then (EBUSY, s)
  else (0, put m F_inited 0 s).

(** The mutex is taken by [self]. *)
Definition take_mutex (m self : Z) (s : sched) : sched :=
  put m F_recursion 1 (put m F_owner self (put m F_locked 1 s)).

(** One round of the loop of pthread_mutex_lock. *)
Definition pthread_mutex_lock (m : Z) (s : sched) : option wait_step :=
  if m =? 0 then Some (Ret EINVAL s) else
  let self := current_process s in
  if get s m F_locked =? 0 then Some (Ret 0 (take_mutex m self s))
  else if get s m F_owner =? self then
    if get s m F_type =? PTHREAD_MUTEX_RECURSIVE
    then Some (Ret 0 (put m F_recursion (s32 (get s m F_recursion + 1)) s))
    else Some (Ret EDEADLK s)
  else s' ← sched_wait_enter (mutex_wq m) 0 s; Some (Sleeps s').

Definition mutex_lock_resume (fuel : nat) (m : Z) (s : sched) : option wait_step :=
  '(_, s) ← sched_wait_leave fuel (mutex_wq m) (current_process s) s;
  pthread_mutex_lock m s.

Definition pthread_mutex_trylock (m : Z) (s : sched) : Z * sched :=
  if m =? 0 then (EINVAL, s) else
  let self := current_process s in
  if get s m F_locked =? 0 then (0, take_mutex m self s)
  else if (get s m F_owner =? self) && (get s m F_type =? PTHREAD_MUTEX_RECURSIVE)
  then (0, put m F_recursion (s32 (get s m F_recursion + 1)) s)
  else (EBUSY, s).

(** The mutex is released and its first waiter woken. *)
Definition release_mutex (fuel : nat) (m : Z) (s : sched) : option sched :=
  let s := put m F_recursion 0 s in
  let s := put m F_locked 0 s in
  let s := put m F_owner 0 s in
  wq_wake_one fuel (mutex_wq m) s.

Definition pthread_mutex_unlock (fuel : nat) (m : Z) (s : sched) : option (Z * sched) :=
  if m =? 0 then Some (EINVAL, s) else
  let self := current_process s in
  let type := get s m F_type in
  if (get s m F_locked =? 0)
     || (negb (get s m F_owner =? self)
         && ((type =? PTHREAD_MUTEX_ERRORCHECK) || (type =? PTHREAD_MUTEX_RECURSIVE)))
  then Some (EPERM, s) else
  let s := if type =? PTHREAD_MUTEX_RECURSIVE
           then put m F_recursion (s32 (get s m F_recursion - 1)) s else s in
  if (type =? PTHREAD_MUTEX_RECURSIVE) && (0 <? get s m F_recursion) then Some (0, s)
  else s ← release_mutex fuel m s; Some (0, s).

(** * Condition variables *)

Definition cond_wq (c : Z) : wait_queue := (c, WQ_main).

Definition pthread_cond_init (c : Z) (s : sched) : Z * sched :=
  if c =? 0 then (EINVAL, s) else (0, put c F_inited 1 (wq_init (cond_wq c) s)).

Definition pthread_cond_destroy (c : Z) (s : sched) : Z * sched :=
  if c =? 0 then (EINVAL, s) else (0, put c F_inited 0 s).

(** cond_wait_common up to the switch; [saved] is the recursion to restore. *)
Inductive cond_step := Cond_ret (rc : Z) (s : sched) | Cond_sleeps (saved : Z) (s : sched).

Definition cond_wait_common (fuel : nat) (c m ticks : Z) (s : sched) : option cond_step :=
  let self := current_process s in
  if (get s m F_locked =? 0) || negb (get s m F_owner =? self) then Some (Cond_ret EPERM s) else
  let saved := get s m F_recursion in
  s ← release_mutex fuel m s;
  s ← sched_wait_enter (cond_wq c) ticks s;
  Some (Cond_sleeps saved s).

(** cond_wait_common after the switch: it leaves the wait and takes the mutex
    again; while the mutex is held by another thread it sleeps in
    pthread_mutex_lock. [timed] is what sched_wait_event returned. *)
Definition cond_relock (m saved timed : Z) (s : sched) : option wait_step :=
  w ← pthread_mutex_lock m s;
  Some (match w with
        | Ret _ s => Ret (if truth timed then ETIMEDOUT else 0)
                       (if get s m F_type =? PTHREAD_MUTEX_RECURSIVE
                        then put m F_recursion (if truth saved then saved else 1) s else s)
        | Sleeps s => Sleeps s
        end).

Definition cond_wait_leave (fuel : nat) (c m saved : Z) (s : sched) : option (Z * wait_step) :=
  '(timed, s) ← sched_wait_leave fuel (cond_wq c) (current_process s) s;
  w ← cond_relock m saved timed s;
  Some (timed, w).

Definition pthread_cond_wait (fuel : nat) (c m : Z) (s : sched) : option cond_step :=
  if (c =? 0) || (m =? 0) then Some (Cond_ret EINVAL s) else cond_wait_common fuel c m 0 s.

(** [abstime]: [None] for NULL. *)
Definition pthread_cond_timedwait (fuel : nat) (c m : Z) (abstime : option timespec) (s : sched)
  : option cond_step :=
  match abstime with
  | None => Some (Cond_ret EINVAL s)
  | Some ts =>
      if (c =? 0) || (m =? 0) then Some (Cond_ret EINVAL s) else
      let ticks := abstime_to_ticks ts s in
      if ticks =? 0 then Some (Cond_ret ETIMEDOUT s) else cond_wait_common fuel c m ticks s
  end.

Definition pthread_cond_signal (fuel : nat) (c : Z) (s : sched) : option (Z * sched) :=
  if c =? 0 then Some (EINVAL, s) else s ← wq_wake_one fuel (cond_wq c) s; Some (0, s).

Definition pthread_cond_broadcast (fuel : nat) (c : Z) (s : sched) : option (Z * sched) :=
  if c =? 0 then Some (EINVAL, s) else s ← wq_wake_all fuel (cond_wq c) s; Some (0, s).

(** * Read/write lock *)

Definition rw_readers (rw : Z) : wait_queue := (rw, WQ_readers).
Definition rw_writers (rw : Z) : wait_queue := (rw, WQ_main).

Definition pthread_rwlock_init (rw : Z) (s : sched) : Z * sched :=
  if rw =? 0 then (EINVAL, s) else
  let s := put rw F_rw_state 0 s in
  let s := put rw F_waiting_writers 0 s in
  let s := wq_init (rw_readers rw) s in
  let s := wq_init (rw_writers rw) s in
  (0, put rw F_inited 1 s).

Definition pthread_rwlock_destroy (rw : Z) (s : sched) : Z * sched :=
  if rw =? 0 then (EINVAL, s)
  else if truth (get s rw F_rw_state) then (EBUSY, s)
  else (0, put rw F_inited 0 s).

(** A reader must wait. *)
Definition rd_blocked (rw : Z) (s : sched) : bool :=
  (get s rw F_rw_state <? 0) || (0 <? get s rw F_waiting_writers).

Definition pthread_rwlock_rdlock (rw : Z) (s : sched) : option wait_step :=
  if rw =? 0 then Some (Ret EINVAL s)
  else if rd_blocked rw s then s' ← sched_wait_enter (rw_readers rw) 0 s; Some (Sleeps s')
  else Some (Ret 0 (put rw F_rw_state (s32 (get s rw F_rw_state + 1)) s)).

Definition rdlock_resume (fuel : nat) (rw : Z) (s : sched) : option wait_step :=
  '(_, s) ← sched_wait_leave fuel (rw_readers rw) (current_process s) s;
  pthread_rwlock_rdlock rw s.

Definition pthread_rwlock_tryrdlock (rw : Z) (s : sched) : Z * sched :=
  if rw =? 0 then (EINVAL, s)
  else if rd_blocked rw s then (EBUSY, s)
  else (0, put rw F_rw_state (s32 (get s rw F_rw_state + 1)) s).

Definition pthread_rwlock_wrlock (rw : Z) (s : sched) : option wait_step :=
  if rw =? 0 then Some (Ret EINVAL s)
  else if truth (get s rw F_rw_state) then
    let s := put rw F_waiting_writers (s32 (get s rw F_waiting_writers + 1)) s in
    s' ← sched_wait_enter (rw_writers rw) 0 s; Some (Sleeps s')
  else Some (Ret 0 (put rw F_rw_state (-1) s)).

(** The end of a round of the writer's loop, and the next one. *)
Definition wrlock_again (rw : Z) (s : sched) : option wait_step :=
  pthread_rwlock_wrlock rw (put rw F_waiting_writers (s32 (get s rw F_waiting_writers - 1)) s).

Definition wrlock_resume (fuel : nat) (rw : Z) (s : sched) : option wait_step :=
  '(_, s) ← sched_wait_leave fuel (rw_writers rw) (current_process s) s;
  wrlock_again rw s.

Definition pthread_rwlock_trywrlock (rw : Z) (s : sched) : Z * sched :=
  if rw =? 0 then (EINVAL, s)
  else if truth (get s rw F_rw_state) then (EBUSY, s)
  else (0, put rw F_rw_state (-1) s).

Definition pthread_rwlock_unlock (fuel : nat) (rw : Z) (s : sched) : option (Z * sched) :=
  if rw =? 0 then Some (EINVAL, s) else
  let st := get s rw F_rw_state in
  if st =? 0 then Some (EPERM, s) else
  let s := put rw F_rw_state (if st <? 0 then 0 else st - 1) s in
  if get s rw F_rw_state =? 0 then
    s ← (if 0 <? get s rw F_waiting_writers then wq_wake_one fuel (rw_writers rw) s
         else wq_wake_all fuel (rw_readers rw) s);
    Some (0, s)
  else Some (0, s).

(** * Barrier *)

Definition PTHREAD_BARRIER_SERIAL_THREAD : Z := 1.
Definition bar_wq (b : Z) : wait_queue := (b, WQ_main).

Definition pthread_barrier_init (b count : Z) (s : sched) : Z * sched :=
  if (b =? 0) || (count =? 0) then (EINVAL, s) else
  let s := put b F_bar_count 0 s in
  let s := put b F_bar_total count s in
  let s := put b F_generation 0 s in
  let s := wq_init (bar_wq b) s in
  (0, put b F_inited 1 s).

Definition pthread_barrier_destroy (b : Z) (s : sched) : Z * sched :=
  if b =? 0 then (EINVAL, s) else (0, put b F_inited 0 s).

(** A round of the wait loop: [gen] is the generation at arrival. *)
Definition barrier_round (b gen : Z) (s : sched) : option wait_step :=
  if get s b F_generation =? gen then s' ← sched_wait_enter (bar_wq b) 0 s; Some (Sleeps s')
  else Some (Ret 0 s).

Definition pthread_barrier_wait (fuel : nat) (b : Z) (s : sched) : option wait_step :=
  if b =? 0 then Some (Ret EINVAL s) else
  let gen := get s b F_generation in
  let s := put b F_bar_count (u32 (get s b F_bar_count + 1)) s in
  if get s b F_bar_count =? get s b F_bar_total then
    let s := put b F_bar_count 0 s in
    let s := put b F_generation (u32 (get s b F_generation + 1)) s in
    s ← wq_wake_all fuel (bar_wq b) s;
    Some (Ret PTHREAD_BARRIER_SERIAL_THREAD s)
  else barrier_round b gen s.

Definition barrier_resume (fuel : nat) (b gen : Z) (s : sched) : option wait_step :=
  '(_, s) ← sched_wait_leave fuel (bar_wq b) (current_process s) s;
  barrier_round b gen s.

(** * Once *)

Definition once_wq (o : Z) : wait_queue := (o, WQ_main).

(** pthread_once up to the call of the routine: it is over, the thread waits for
    the one that runs the routine, or it runs the routine itself. *)
Inductive once_step := Once_ret (rc : Z) (s : sched) | Once_sleeps (s : sched) | Once_call (s : sched).

Definition once_wait (o : Z) (s : sched) : option once_step :=
  if truth (get s o F_done) then Some (Once_ret 0 s)
  else s' ← sched_wait_enter (once_wq o) 0 s; Some (Once_sleeps s').

Definition pthread_once (o init_routine : Z) (s : sched) : option once_step :=
  if (o =? 0) || (init_routine =? 0) then Some (Once_ret EINVAL s)
  else if truth (get s o F_done) then Some (Once_ret 0 s)
  else if truth (get s o F_running) then once_wait o s
  else Some (Once_call (put o F_running 1 s)).

Definition once_resume (fuel : nat) (o : Z) (s : sched) : option once_step :=
  '(_, s) ← sched_wait_leave fuel (once_wq o) (current_process s) s;
  once_wait o s.

(** The end of pthread_once for the thread that ran the routine. *)
Definition once_finish (fuel : nat) (o : Z) (s : sched) : option (Z * sched) :=
  s ← wq_wake_all fuel (once_wq o) (put o F_done 1 s);
  Some (0, s).

(** * Spinlock *)

Definition pthread_spin_init (l : Z) (s : sched) : Z * sched :=
  if l =? 0 then (EINVAL, s) else (0, put l F_locked 0 s).

Definition pthread_spin_destroy (l : Z) (s : sched) : Z := if l =? 0 then EINVAL else 0.

Definition pthread_spin_lock (l : Z) (s : sched) : Z * sched :=
  if l =? 0 then (EINVAL, s) else (0, put l F_locked 1 (preempt_disable s)).

Definition pthread_spin_trylock (l : Z) (s : sched) : option (Z * sched) :=
  if l =? 0 then Some (EINVAL, s) else
  let s := preempt_disable s in
  if truth (get s l F_locked) then s ← preempt_enable s; Some (EBUSY, s)
  else Some (0, put l F_locked 1 s).

Definition pthread_spin_unlock (l : Z) (s : sched) : option (Z * sched) :=
  if l =? 0 then Some (EINVAL, s) else
  s ← preempt_enable (put l F_locked 0 s); Some (0, s).

(** * Semaphores (sem.c) *)

Definition sem_wq (m : Z) : wait_queue := (m, WQ_main).

Definition sem_init (m value : Z) (s : sched) : Z * sched :=
  if m =? 0 then (- EINVAL, s) else
  let s := put m F_value (s32 value) s in
  let s := wq_init (sem_wq m) s in
  (0, put m F_inited 1 s).

Definition sem_destroy (m : Z) (s : sched) : Z * sched :=
  if m =? 0 then (- EINVAL, s) else (0, put m F_inited 0 s).

Definition sem_take (m : Z) (s : sched) : sched := put m F_value (s32 (get s m F_value - 1)) s.

Definition sem_wait (m : Z) (s : sched) : option wait_step :=
  if m =? 0 then Some (Ret (- EINVAL) s)
  else if get s m F_value =? 0 then s' ← sched_wait_enter (sem_wq m) 0 s; Some (Sleeps s')
  else Some (Ret 0 (sem_take m s)).

Definition sem_wait_resume (fuel : nat) (m : Z) (s : sched) : option wait_step :=
  '(_, s) ← sched_wait_leave fuel (sem_wq m) (current_process s) s;
  sem_wait m s.

Definition sem_trywait (m : Z) (s : sched) : Z * sched :=
  if m =? 0 then (- EINVAL, s)
  else if get s m F_value =? 0 then (- EAGAIN, s) else (0, sem_take m s).

Definition sem_timedwait (m : Z) (abstime : option timespec) (s : sched) : option wait_step :=
  match abstime with
  | None => Some (Ret (- EINVAL) s)
  | Some ts =>
      if m =? 0 then Some (Ret (- EINVAL) s)
      else if get s m F_value =? 0 then
        let ticks := abstime_to_ticks ts s in
        if ticks =? 0 then Some (Ret (- ETIMEDOUT) s)
        else s' ← sched_wait_enter (sem_wq m) ticks s; Some (Sleeps s')
      else Some (Ret 0 (sem_take m s))
  end.

(** The end of a round, with what sched_wait_event returned, and the next one. *)
Definition sem_timedwait_again (m : Z) (ts : timespec) (timed : Z) (s : sched) : option wait_step :=
  if truth timed && (get s m F_value =? 0) then Some (Ret (- ETIMEDOUT) s)
  else sem_timedwait m (Some ts) s.

Definition sem_timedwait_resume (fuel : nat) (m : Z) (ts : timespec) (s : sched) : option wait_step :=
  '(timed, s) ← sched_wait_leave fuel (sem_wq m) (current_process s) s;
  sem_timedwait_again m ts timed s.

Definition sem_post (fuel : nat) (m : Z) (s : sched) : option (Z * sched) :=
  if m =? 0 then Some (- EINVAL, s) else
  let s := put m F_value (s32 (get s m F_value + 1)) s in
  s ← wq_wake_one fuel (sem_wq m) s;
  Some (0, s).

Definition sem_getvalue (m out : Z) (s : sched) : Z * Z :=
  if (m =? 0) || (out =? 0) then (- EINVAL, 0) else (0, get s m F_value).

(** * What the scheduler leaves alone *)

(** The words of the synchronisation objects. *)
Definition sync_field (f : field) : bool :=
  match f with
  | F_locked | F_owner | F_type | F_recursion | F_rw_state | F_waiting_writers
  | F_bar_count | F_bar_total | F_generation | F_done | F_running | F_value => true
  | _ => false
  end.

(** [s'] has the synchronisation words of [s]. *)
Definition sync_eq (s s' : sched) : Prop := forall u f, sync_field f = true -> get s' u f = get s u f.

#[export] Instance sync_eq_refl : Reflexive sync_eq.
Proof. intros s u f _. reflexivity. Qed.

#[export] Instance sync_eq_trans : Transitive sync_eq.
Proof. intros s1 s2 s3 H1 H2 u f Hf. rewrite (H2 u f Hf). by apply H1. Qed.

Lemma sync_put t g v s s' : sync_field g = false -> sync_eq s s' -> sync_eq s (put t g v s').
Proof. intros Hg H u f Hf. rewrite get_put_field by congruence. by apply H. Qed.

Lemma sync_make_ready t s s' : sync_eq s s' -> sync_eq s (make_ready t s').
Proof. intros H u f Hf. rewrite make_ready_get by (by intros ->). by apply H. Qed.

Lemma sync_sleep_put l v s s' : sync_eq s s' -> sync_eq s (sleep_put l v s').
Proof. intros H u f Hf. rewrite sleep_put_get by (by intros ->). by apply H. Qed.

Lemma sync_with_sleep v s s' : sync_eq s s' -> sync_eq s (with_sleep v s').
Proof. intros H. exact H. Qed.

Lemma sync_with_need v s s' : sync_eq s s' -> sync_eq s (with_need v s').
Proof. intros H. exact H. Qed.

Lemma sync_schedule s s1 s2 : sync_eq s s1 -> schedule s1 = Some s2 -> sync_eq s s2.
Proof. intros H Hs u f Hf. rewrite (schedule_kept s1 s2) by (done || by destruct f). by apply H. Qed.

Create HintDb sync.
#[export] Hint Resolve sync_put sync_make_ready sync_sleep_put sync_with_sleep sync_with_need : sync.
#[export] Hint Extern 0 (sync_eq ?s ?s) => reflexivity : sync.
#[export] Hint Extern 1 (sync_field _ = false) => reflexivity : sync.

Ltac sync := eauto 20 with sync nocore.

Lemma sync_wq_pop wq s : sync_eq s (wq_pop wq s).2.
Proof.
  unfold wq_pop, set_wq_head, set_wq_tail, wq_head.
  destruct (truth _); cbn [snd]; [|reflexivity]. destruct (truth _); sync.
Qed.

Lemma sync_wake fuel all wq s s' : wq_wake_loop fuel all wq s = Some s' -> sync_eq s s'.
Proof.
  revert s. induction fuel as [|fuel IH]; intros s; cbn [wq_wake_loop]; [done|].
  pose proof (sync_wq_pop wq s) as Hp. destruct (wq_pop wq s) as [t s1]. cbn [snd] in Hp.
  destruct (t =? 0); [by intros [= <-]|]. destruct (negb _).
  - intros H. etrans; [exact Hp|]. by apply IH.
  - assert (Hm : sync_eq s (make_ready t (put t F_timed_out 0 s1))) by sync.
    destruct all; [|intros [= <-]; exact Hm]. intros H. etrans; [exact Hm|]. by apply IH.
Qed.

Lemma sync_wait_enter wq n s s' : sched_wait_enter wq n s = Some s' -> sync_eq s s'.
Proof.
  unfold sched_wait_enter, sleep_push, set_wq_head, set_wq_tail. intros H.
  eapply sync_schedule; [|exact H]. destruct (truth n), (truth _); sync.
Qed.

Lemma sync_wq_remove fuel wq prev t s s' : wq_remove_from fuel wq prev t s = Some s' -> sync_eq s s'.
Proof.
  revert prev. induction fuel as [|fuel IH]; intros prev; cbn [wq_remove_from]; [done|].
  unfold set_wq_head, set_wq_tail.
  destruct (_ =? 0); [by intros [= <-]|]. destruct (_ =? t); [|apply IH].
  intros [= <-]. destruct (truth prev); destruct (_ =? t); sync.
Qed.

Lemma sync_sleep_remove fuel l t s s' : sleep_remove_from fuel l t s = Some s' -> sync_eq s s'.
Proof.
  revert l. induction fuel as [|fuel IH]; intros l; cbn [sleep_remove_from]; [done|].
  destruct (_ =? 0); [by intros [= <-]|]. destruct (_ =? t); [|apply IH]. intros [= <-]. sync.
Qed.

Lemma sync_wait_leave fuel wq c s r s' : sched_wait_leave fuel wq c s = Some (r, s') -> sync_eq s s'.
Proof.
  unfold sched_wait_leave. intros (s1 & H1 & (s2 & H2 & [= _ <-])%bind_Some)%bind_Some.
  apply sync_put; [done|]. etrans; [by eapply sync_wq_remove|by eapply sync_sleep_remove].
Qed.

Lemma sync_wake_expired fuel now l s s' : wake_expired_from fuel now l s = Some s' -> sync_eq s s'.
Proof.
  revert l s. induction fuel as [|fuel IH]; intros l s; cbn [wake_expired_from]; [done|].
  destruct (_ =? 0); [by intros [= <-]|]. destruct (negb _).
  - intros H%IH. etrans; [|exact H]. sync.
  - destruct (0 <=? _); [|apply IH]. intros H%IH. etrans; [|exact H]. sync.
Qed.

Lemma sync_timer fuel s s' : timer_handler fuel s = Some s' -> sync_eq s s'.
Proof.
  unfold timer_handler, sched_tick, wake_expired_sleepers. intros (s1 & H1%sync_wake_expired & H2)%bind_Some.
  etrans; [exact H1|]. revert H2.
  destruct (truth _ && _); [intros [= <-]; destruct (_ <=? 0); sync|].
  destruct (_ =? _); [|by intros [= <-]]. destruct (find_slot _ _ _); intros [= <-]; sync.
Qed.

(** The steps between two critical sections of an object: context switches, timer
    interrupts, wake-ups, and waits for other objects. *)
Inductive env_step : sched -> sched -> Prop :=
| E_schedule s s' : schedule s = Some s' -> env_step s s'
| E_tick fuel s s' : timer_handler fuel s = Some s' -> env_step s s'
| E_wake fuel all wq s s' : wq_wake_loop fuel all wq s = Some s' -> env_step s s'
| E_sleep wq n s s' : sched_wait_enter wq n s = Some s' -> env_step s s'
| E_resume fuel wq c r s s' : sched_wait_leave fuel wq c s = Some (r, s') -> env_step s s'.

Lemma sync_env s s' : env_step s s' -> sync_eq s s'.
Proof.
  destruct 1 as [s s' H|fuel s s' H|fuel all wq s s' H|wq n s s' H|fuel wq c r s s' H].
  - eapply sync_schedule; [reflexivity|exact H].
  - by eapply sync_timer.
  - by eapply sync_wake.
  - by eapply sync_wait_enter.
  - by eapply sync_wait_leave.
Qed.

(** Rule induction for an invariant. *)
Lemma rtc_invariant {A} (R : A -> A -> Prop) (P : A -> Prop) x y :
  (forall a b, P a -> R a b -> P b) -> rtc R x y -> P x -> P y.
Proof. intros HR. induction 1 as [|a b c Hab _ IH]; [done|]. intros Ha. by eapply IH, HR. Qed.

(** * Mutual exclusion of mutexes *)

(** How often each thread holds the mutex: what lock and unlock have answered. *)
Definition holds : Type := Z -> Z.
Definition bump (h : holds) (t v : Z) : holds := fun u => if u =? t then v else h u.

Definition INT_MAX : Z := 2 ^ 31 - 1.

(** A step of the system as one mutex [m] sees it: a call on the mutex by the
    running thread, a wait on a condition variable, or a step of the scheduler.
    The clients' part: nobody nests a lock [INT_MAX] deep, a mutex of type NORMAL
    is unlocked only by a thread that holds it, and a thread that comes back
    from a condition variable, where it left the mutex, does not hold it. *)
Inductive mutex_step (m : Z) : sched * holds -> sched * holds -> Prop :=
| MS_lock s h rc s' :
    pthread_mutex_lock m s = Some (Ret rc s') -> h (current_process s) < INT_MAX ->
    mutex_step m (s, h) (s', if rc =? 0 then bump h (current_process s) (h (current_process s) + 1) else h)
| MS_lock_sleeps s h s' : pthread_mutex_lock m s = Some (Sleeps s') -> mutex_step m (s, h) (s', h)
| MS_trylock s h rc s' :
    pthread_mutex_trylock m s = (rc, s') -> h (current_process s) < INT_MAX ->
    mutex_step m (s, h) (s', if rc =? 0 then bump h (current_process s) (h (current_process s) + 1) else h)
| MS_unlock fuel s h rc s' :
    pthread_mutex_unlock fuel m s = Some (rc, s') ->
    0 < h (current_process s) \/ get s m F_type = PTHREAD_MUTEX_ERRORCHECK
      \/ get s m F_type = PTHREAD_MUTEX_RECURSIVE ->
    mutex_step m (s, h) (s', if rc =? 0 then bump h (current_process s) (h (current_process s) - 1) else h)
| MS_cond_wait fuel c ticks s h saved s' :
    cond_wait_common fuel c m ticks s = Some (Cond_sleeps saved s') ->
    mutex_step m (s, h) (s', bump h (current_process s) 0)
| MS_cond_relock saved timed s h rc s' :
    cond_relock m saved timed s = Some (Ret rc s') ->
    h (current_process s) = 0 -> 0 < saved <= INT_MAX ->
    mutex_step m (s, h)
      (s', bump h (current_process s) (if get s m F_type =? PTHREAD_MUTEX_RECURSIVE then saved else 1))
| MS_cond_relock_sleeps saved timed s h s' :
    cond_relock m saved timed s = Some (Sleeps s') -> mutex_step m (s, h) (s', h)
| MS_env s h s' : env_step s s' -> mutex_step m (s, h) (s', h).

Definition mutex_inv (m : Z) (s : sched) (h : holds) : Prop :=
  if get s m F_locked =? 0 then forall u, h u = 0
  else 0 < get s m F_recursion <= INT_MAX
       /\ (get s m F_type <> PTHREAD_MUTEX_RECURSIVE -> get s m F_recursion = 1)
       /\ (forall u, h u = if u =? get s m F_owner then get s m F_recursion else 0).

Lemma mutex_inv_sync m s s' h : sync_eq s s' -> mutex_inv m s h -> mutex_inv m s' h.
Proof. intros E. unfold mutex_inv. by rewrite !E. Qed.

Lemma mutex_inv_ext m s h h' : (forall u, h' u = h u) -> mutex_inv m s h -> mutex_inv m s h'.
Proof.
  intros E. unfold mutex_inv. destruct (_ =? 0); [intros H u; by rewrite E|].
  intros (H1 & H2 & H3). split_and!; [apply H1..|exact H2|]. intros u. by rewrite E.
Qed.

Ltac words := repeat first [rewrite get_put_eq | rewrite get_put_field by done].

Lemma mutex_inv_take m c s h :
  mutex_inv m s h -> get s m F_locked = 0 -> mutex_inv m (take_mutex m c s) (bump h c (h c + 1)).
Proof.
  unfold mutex_inv at 1. intros H E. rewrite E in H. cbn in H. unfold mutex_inv, take_mutex. words. cbn.
  split_and!; [done..|]. intros u. unfold bump. rewrite !H. by destruct (u =? c).
Qed.

Lemma mutex_inv_again m s h :
  let c := current_process s in
  mutex_inv m s h -> get s m F_locked <> 0 -> get s m F_owner = c ->
  get s m F_type = PTHREAD_MUTEX_RECURSIVE -> h c < INT_MAX ->
  mutex_inv m (put m F_recursion (s32 (get s m F_recursion + 1)) s) (bump h c (h c + 1)).
Proof.
  cbn zeta. unfold mutex_inv, INT_MAX. intros H Hl Ho Ht Hh. words.
  destruct (Z.eqb_spec (get s m F_locked) 0) as [|_]; [done|]. destruct H as (H1 & H2 & H3).
  rewrite !H3, Ho, Z.eqb_refl in *. rewrite s32_small by lia. split_and!; [lia..|by intros []|].
  intros u. unfold bump. rewrite H3. by destruct (u =? current_process s).
Qed.

Lemma lock_ret_nonzero : EINVAL <> 0 /\ EDEADLK <> 0 /\ EBUSY <> 0 /\ EPERM <> 0.
Proof. by split_and!. Qed.

Lemma mutex_lock_inv m s h w :
  let c := current_process s in
  mutex_inv m s h -> pthread_mutex_lock m s = Some w ->
  match w with
  | Ret rc s' => h c < INT_MAX -> mutex_inv m s' (if rc =? 0 then bump h c (h c + 1) else h)
  | Sleeps s' => mutex_inv m s' h
  end.
Proof.
  cbn zeta. intros H. unfold pthread_mutex_lock. destruct (m =? 0); [by intros [= <-]|].
  destruct (Z.eqb_spec (get s m F_locked) 0) as [E|E].
  { intros [= <-] _. by apply mutex_inv_take. }
  destruct (Z.eqb_spec (get s m F_owner) (current_process s)) as [Eo|Eo].
  - destruct (Z.eqb_spec (get s m F_type) PTHREAD_MUTEX_RECURSIVE) as [Et|Et]; intros [= <-]; [|done].
    intros Hh. by apply mutex_inv_again.
  - intros (s' & Hs%sync_wait_enter & [= <-])%bind_Some. by eapply mutex_inv_sync.
Qed.

Lemma mutex_inv_released m fuel c s h s' :
  (forall u, u <> c -> h u = 0) -> release_mutex fuel m s = Some s' -> mutex_inv m s' (bump h c 0).
Proof.
  intros H Hs%sync_wake. eapply mutex_inv_sync; [exact Hs|]. unfold mutex_inv. words. cbn.
  intros u. unfold bump. destruct (Z.eqb_spec u c); [done|by apply H].
Qed.

Lemma mutex_trylock_inv m s h rc s' :
  let c := current_process s in
  mutex_inv m s h -> pthread_mutex_trylock m s = (rc, s') -> h c < INT_MAX ->
  mutex_inv m s' (if rc =? 0 then bump h c (h c + 1) else h).
Proof.
  cbn zeta. intros H. unfold pthread_mutex_trylock. destruct (m =? 0); [by intros [= <- <-]|].
  destruct (Z.eqb_spec (get s m F_locked) 0) as [E|E].
  { intros [= <- <-] _. by apply mutex_inv_take. }
  destruct (Z.eqb_spec (get s m F_owner) (current_process s)) as [Eo|Eo]; cbn [andb]; [|by intros [= <- <-]].
  destruct (Z.eqb_spec (get s m F_type) PTHREAD_MUTEX_RECURSIVE) as [Et|Et]; intros [= <- <-]; [|done].
  by apply mutex_inv_again.
Qed.

(** Who may unlock: [c] holds the mutex, or its type checks the owner. *)
Lemma mutex_unlock_owner m s h fuel s' :
  let c := current_process s in
  mutex_inv m s h -> pthread_mutex_unlock fuel m s = Some (0, s') ->
  0 < h c \/ get s m F_type = PTHREAD_MUTEX_ERRORCHECK \/ get s m F_type = PTHREAD_MUTEX_RECURSIVE ->
  get s m F_locked <> 0 /\ get s m F_owner = c.
Proof.
  cbn zeta. unfold pthread_mutex_unlock, mutex_inv. intros H Hs Hc. revert Hs. destruct (m =? 0); [done|].
  destruct (Z.eqb_spec (get s m F_locked) 0) as [|El]; cbn [orb]; [done|].
  destruct H as (_ & _ & H). destruct (Z.eqb_spec (get s m F_owner) (current_process s)) as [|Eo]; [done|].
  cbn [negb andb]. destruct Hc as [Hc|[-> | ->]]; [|done..]. rewrite H in Hc.
  destruct (Z.eqb_spec (current_process s) (get s m F_owner)); [congruence|lia].
Qed.

Lemma mutex_unlock_inv m s h fuel rc s' :
  let c := current_process s in
  mutex_inv m s h -> pthread_mutex_unlock fuel m s = Some (rc, s') ->
  0 < h c \/ get s m F_type = PTHREAD_MUTEX_ERRORCHECK \/ get s m F_type = PTHREAD_MUTEX_RECURSIVE ->
  mutex_inv m s' (if rc =? 0 then bump h c (h c - 1) else h).
Proof.
  cbn zeta. intros H Hs Hc. set (c := current_process s) in *. destruct (Z.eqb_spec rc 0) as [->|Hrc].
  - destruct (mutex_unlock_owner m s h fuel s' H Hs Hc) as [El Eo]. fold c in Eo.
    revert Hs. unfold pthread_mutex_unlock. destruct (m =? 0); [done|].
    destruct (Z.eqb_spec (get s m F_locked) 0) as [|_]; [done|]. fold c. rewrite Eo, Z.eqb_refl. cbn [negb orb andb].
    pose proof H as Hi. unfold mutex_inv in Hi. destruct (Z.eqb_spec (get s m F_locked) 0) as [|_]; [done|].
    destruct Hi as (H1 & H2 & H3). assert (Hhc : h c = get s m F_recursion) by (by rewrite H3, Eo, Z.eqb_refl).
    assert (Hoth : forall u, u <> c -> h u = 0) by (intros u Hu; rewrite H3, Eo; zcase; done).
    unfold INT_MAX in H1. destruct (Z.eqb_spec (get s m F_type) PTHREAD_MUTEX_RECURSIVE) as [Et|Et]; cbn [andb].
    + words. rewrite s32_small by lia. destruct (Z.ltb_spec 0 (get s m F_recursion - 1)) as [Hp|Hp].
      * intros [= <-]. unfold mutex_inv, INT_MAX. words. destruct (Z.eqb_spec (get s m F_locked) 0) as [|_]; [done|].
        split_and!; [lia..|by intros []|]. intros u. unfold bump. rewrite Hhc, H3, Eo. by destruct (u =? c).
      * intros (s1 & Hr & [= <-])%bind_Some. eapply mutex_inv_ext; [|exact (mutex_inv_released _ _ _ _ _ _ Hoth Hr)].
        intros u. unfold bump. rewrite Hhc. destruct (u =? c); [lia|done].
    + intros (s1 & Hr & [= <-])%bind_Some. eapply mutex_inv_ext; [|exact (mutex_inv_released _ _ _ _ _ _ Hoth Hr)].
      intros u. unfold bump. rewrite Hhc, H2 by done. by destruct (u =? c).
  - revert Hs. unfold pthread_mutex_unlock. destruct (m =? 0); [by intros [= _ <-]|].
    destruct (_ || _); [by intros [= _ <-]|]. destruct (_ && _); [intros [= <- _]; done|].
    intros (s1 & _ & [= <- _])%bind_Some. done.
Qed.

Lemma mutex_cond_wait_inv m s h fuel c ticks saved s' :
  mutex_inv m s h -> cond_wait_common fuel c m ticks s = Some (Cond_sleeps saved s') ->
  mutex_inv m s' (bump h (current_process s) 0).
Proof.
  intros H. unfold cond_wait_common. unfold mutex_inv in H.
  destruct (Z.eqb_spec (get s m F_locked) 0) as [|_]; cbn [orb]; [done|].
  destruct (Z.eqb_spec (get s m F_owner) (current_process s)) as [Eo|]; cbn [negb]; [|done].
  intros (s1 & Hr & (s2 & Hw%sync_wait_enter & [= _ <-])%bind_Some)%bind_Some.
  eapply mutex_inv_sync; [exact Hw|]. eapply mutex_inv_released; [|exact Hr].
  intros u Hu. destruct H as (_ & _ & ->). rewrite Eo. zcase; done.
Qed.

(** A thread that does not hold the mutex and gets an answer from lock takes it. *)
Lemma mutex_lock_takes m s h rc s' :
  m <> 0 -> mutex_inv m s h -> h (current_process s) = 0 -> pthread_mutex_lock m s = Some (Ret rc s') ->
  get s m F_locked = 0 /\ s' = take_mutex m (current_process s) s.
Proof.
  intros Hm H Hc. unfold pthread_mutex_lock, mutex_inv in *. destruct (Z.eqb_spec m 0) as [|_]; [done|].
  destruct (Z.eqb_spec (get s m F_locked) 0) as [E|_]; [by intros [= _ <-]|].
  destruct (Z.eqb_spec (get s m F_owner) (current_process s)) as [Eo|_].
  - exfalso. destruct H as (H1 & _ & H3). rewrite H3, Eo, Z.eqb_refl in Hc. lia.
  - by intros (s1 & _ & [=])%bind_Some.
Qed.

Lemma mutex_cond_relock_inv m s h saved timed w :
  m <> 0 -> mutex_inv m s h -> cond_relock m saved timed s = Some w ->
  match w with
  | Ret _ s' =>
      h (current_process s) = 0 -> 0 < saved <= INT_MAX ->
      mutex_inv m s' (bump h (current_process s) (if get s m F_type =? PTHREAD_MUTEX_RECURSIVE then saved else 1))
  | Sleeps s' => mutex_inv m s' h
  end.
Proof.
  intros Hm H. unfold cond_relock. intros (w2 & Hk & [= <-])%bind_Some.
  destruct w2 as [rc s2|s2]; [|exact (mutex_lock_inv m s h _ H Hk)]. intros Hc Hsv.
  destruct (mutex_lock_takes m s h rc s2 Hm H Hc Hk) as [E ->].
  pose proof (mutex_inv_take m (current_process s) s h H E) as Ht. rewrite Hc in Ht.
  assert (Ety : get (take_mutex m (current_process s) s) m F_type = get s m F_type).
  { unfold take_mutex. by words. }
  rewrite Ety. destruct (Z.eqb_spec (get s m F_type) PTHREAD_MUTEX_RECURSIVE) as [Er|_]; [|exact Ht].
  assert (Es : truth saved = true) by (unfold truth; zcase; [lia|done]). rewrite Es.
  unfold mutex_inv in *. unfold take_mutex in *. revert Ht. words. cbn. intros (_ & _ & Ht).
  split_and!; [lia..|by intros []|]. intros u. specialize (Ht u). revert Ht.
  unfold bump. by destruct (u =? current_process s).
Qed.

Lemma mutex_step_inv m s h s' h' :
  m <> 0 -> mutex_inv m s h -> mutex_step m (s, h) (s', h') -> mutex_inv m s' h'.
Proof.
  intros Hm H Hs. inversion Hs; subst.
  - by eapply (mutex_lock_inv m s h (Ret _ _)).
  - by eapply (mutex_lock_inv m s h' (Sleeps _)).
  - by apply mutex_trylock_inv.
  - by eapply mutex_unlock_inv.
  - by eapply mutex_cond_wait_inv.
  - by eapply (mutex_cond_relock_inv m s h _ _ (Ret _ _)).
  - by eapply (mutex_cond_relock_inv m s h' _ _ (Sleeps _)).
  - eapply mutex_inv_sync; [|exact H]. by apply sync_env.
Qed.

(** C4: mutual exclusion. Start from a mutex that pthread_mutex_init has set up and
    run any interleaving of lock, trylock, unlock, condition waits and their
    rounds by any threads with context switches, timer interrupts and wake-ups:
    two threads never hold the mutex at the same time, and the mutex names its
    holder and how often it holds it. *)
Theorem mutex_exclusion m a s0 s h :
  m <> 0 -> rtc (mutex_step m) ((pthread_mutex_init m a s0).2, fun _ => 0) (s, h) ->
  (forall u v, 0 < h u -> 0 < h v -> u = v)
  /\ (forall u, 0 < h u -> get s m F_locked <> 0 /\ get s m F_owner = u /\ get s m F_recursion = h u)
  /\ (get s m F_locked = 0 -> forall u, h u = 0).
Proof.
  intros Hm Hr. assert (H : mutex_inv m s h).
  { assert (H0 : mutex_inv m (pthread_mutex_init m a s0).2 (fun _ => 0)).
    { unfold pthread_mutex_init. destruct (Z.eqb_spec m 0) as [|_]; [done|]. cbn [snd].
      unfold mutex_inv, wq_init, set_wq_head, set_wq_tail. words. done. }
    apply (rtc_invariant _ (fun x => mutex_inv m x.1 x.2) _ _) in Hr; [exact Hr| |exact H0].
    intros [s1 h1] [s2 h2] H1 Hst. by eapply mutex_step_inv. }
  unfold mutex_inv in H. destruct (Z.eqb_spec (get s m F_locked) 0) as [E|E].
  - split_and!; intros; rewrite ?H in *; first [lia|done].
  - destruct H as (H1 & _ & H3).
    assert (Ho : forall u, 0 < h u -> get s m F_owner = u) by (intros u; rewrite H3; zcase; [done|lia]).
    split_and!; [intros u v <-%Ho <-%Ho; done| |done]. intros u Hu. pose proof (Ho u Hu) as Eu.
    split_and!; [done|done|]. by rewrite H3, Eu, Z.eqb_refl.
Qed.

(** * Read/write locks *)

(** A step as one lock [rw] sees it, with the threads that read and write: a
    lock call that answers 0 adds its caller, and unlock, which asks for no
    owner, is called by a thread that holds the lock. *)
Inductive rwlock_step (rw : Z) : sched * (list Z * list Z) -> sched * (list Z * list Z) -> Prop :=
| RS_rdlock s rd wr s' :
    pthread_rwlock_rdlock rw s = Some (Ret 0 s') -> Z.of_nat (length rd) < INT_MAX ->
    rwlock_step rw (s, (rd, wr)) (s', (current_process s :: rd, wr))
| RS_rdlock_sleeps s h s' : pthread_rwlock_rdlock rw s = Some (Sleeps s') -> rwlock_step rw (s, h) (s', h)
| RS_tryrdlock s rd wr s' :
    pthread_rwlock_tryrdlock rw s = (0, s') -> Z.of_nat (length rd) < INT_MAX ->
    rwlock_step rw (s, (rd, wr)) (s', (current_process s :: rd, wr))
| RS_wrlock s rd wr s' :
    pthread_rwlock_wrlock rw s = Some (Ret 0 s') ->
    rwlock_step rw (s, (rd, wr)) (s', (rd, current_process s :: wr))
| RS_wrlock_sleeps s h s' : pthread_rwlock_wrlock rw s = Some (Sleeps s') -> rwlock_step rw (s, h) (s', h)
| RS_wrlock_again s rd wr s' :
    wrlock_again rw s = Some (Ret 0 s') ->
    rwlock_step rw (s, (rd, wr)) (s', (rd, current_process s :: wr))
| RS_wrlock_again_sleeps s h s' : wrlock_again rw s = Some (Sleeps s') -> rwlock_step rw (s, h) (s', h)
| RS_trywrlock s rd wr s' :
    pthread_rwlock_trywrlock rw s = (0, s') -> rwlock_step rw (s, (rd, wr)) (s', (rd, current_process s :: wr))
| RS_unlock_reader fuel s rd rd' wr s' :
    pthread_rwlock_unlock fuel rw s = Some (0, s') -> rd ≡ₚ current_process s :: rd' ->
    rwlock_step rw (s, (rd, wr)) (s', (rd', wr))
| RS_unlock_writer fuel s rd wr wr' s' :
    pthread_rwlock_unlock fuel rw s = Some (0, s') -> wr ≡ₚ current_process s :: wr' ->
    rwlock_step rw (s, (rd, wr)) (s', (rd, wr'))
| RS_env s h s' : env_step s s' -> rwlock_step rw (s, h) (s', h).

Definition rwlock_inv (rw : Z) (x : sched * (list Z * list Z)) : Prop :=
  let '(s, (rd, wr)) := x in
  (wr = [] /\ get s rw F_rw_state = Z.of_nat (length rd) /\ Z.of_nat (length rd) <= INT_MAX)
  \/ (rd = [] /\ get s rw F_rw_state = -1 /\ exists t, wr = [t]).

Lemma rwlock_inv_state rw s s' h :
  get s' rw F_rw_state = get s rw F_rw_state -> rwlock_inv rw (s, h) -> rwlock_inv rw (s', h).
Proof. intros E. destruct h as [rd wr]. unfold rwlock_inv. by rewrite E. Qed.

Lemma rwlock_inv_read rw s rd wr t :
  rwlock_inv rw (s, (rd, wr)) -> rd_blocked rw s = false -> Z.of_nat (length rd) < INT_MAX ->
  rwlock_inv rw (put rw F_rw_state (s32 (get s rw F_rw_state + 1)) s, (t :: rd, wr)).
Proof.
  unfold rwlock_inv, rd_blocked, INT_MAX. words. intros H Hb Hl. apply orb_false_iff in Hb as [Hb _].
  destruct H as [(-> & E & _)|(_ & E & _)]; rewrite E in *; [|done].
  left. cbn [length]. rewrite s32_small by lia. split_and!; [done|lia..].
Qed.

Lemma rwlock_inv_write rw s rd wr t :
  rwlock_inv rw (s, (rd, wr)) -> get s rw F_rw_state = 0 ->
  rwlock_inv rw (put rw F_rw_state (-1) s, (rd, t :: wr)).
Proof.
  unfold rwlock_inv. words. intros H E. rewrite E in H.
  destruct H as [(-> & Hn & _)|(_ & [=] & _)]. right.
  destruct rd; [|cbn in Hn; lia]. split_and!; [done..|]. by exists t.
Qed.

Lemma wrlock_inv rw s rd wr w :
  rwlock_inv rw (s, (rd, wr)) -> pthread_rwlock_wrlock rw s = Some w ->
  match w with
  | Ret rc s' => rc = 0 -> rwlock_inv rw (s', (rd, current_process s :: wr))
  | Sleeps s' => rwlock_inv rw (s', (rd, wr))
  end.
Proof.
  intros H. unfold pthread_rwlock_wrlock. destruct (rw =? 0); [by intros [= <-]|].
  unfold truth. destruct (Z.eqb_spec (get s rw F_rw_state) 0) as [E|_]; cbn [negb].
  - intros [= <-] _. by apply rwlock_inv_write.
  - intros (s1 & Hs%sync_wait_enter & [= <-])%bind_Some. eapply rwlock_inv_state; [|exact H].
    rewrite Hs by done. by words.
Qed.

Lemma rwlock_unlock_state fuel rw s s' :
  pthread_rwlock_unlock fuel rw s = Some (0, s') ->
  get s' rw F_rw_state = (if get s rw F_rw_state <? 0 then 0 else get s rw F_rw_state - 1).
Proof.
  unfold pthread_rwlock_unlock. destruct (rw =? 0); [done|]. destruct (get s rw F_rw_state =? 0); [done|].
  destruct (_ =? 0).
  - intros (s1 & Hs & [= <-])%bind_Some. assert (Hw : sync_eq (put rw F_rw_state
      (if get s rw F_rw_state <? 0 then 0 else get s rw F_rw_state - 1) s) s1).
    { revert Hs. destruct (0 <? _); apply sync_wake. }
    rewrite Hw by done. by words.
  - intros [= <-]. by words.
Qed.

Lemma rwlock_step_inv rw x y : rwlock_inv rw x -> rwlock_step rw x y -> rwlock_inv rw y.
Proof.
  intros H Hs. destruct Hs as [s rd wr s' E Hl|s [rd wr] s' E|s rd wr s' E Hl|s rd wr s' E|s [rd wr] s' E
    |s rd wr s' E|s [rd wr] s' E|s rd wr s' E|fuel s rd rd' wr s' E Hp|fuel s rd wr wr' s' E Hp|s [rd wr] s' E].
  - revert E. unfold pthread_rwlock_rdlock. destruct (rw =? 0); [done|].
    destruct (rd_blocked rw s) eqn:Eb; [by intros (? & _ & [=])%bind_Some|]. intros [= <-]. by apply rwlock_inv_read.
  - revert E. unfold pthread_rwlock_rdlock. destruct (rw =? 0); [done|]. destruct (rd_blocked rw s); [|done].
    intros (s1 & Hs%sync_wait_enter & [= <-])%bind_Some. eapply rwlock_inv_state; [by apply Hs|exact H].
  - revert E. unfold pthread_rwlock_tryrdlock. destruct (rw =? 0); [done|].
    destruct (rd_blocked rw s) eqn:Eb; [done|]. intros [= <-]. by apply rwlock_inv_read.
  - by apply (wrlock_inv rw s rd wr (Ret 0 s')).
  - by apply (wrlock_inv rw s rd wr (Sleeps s')).
  - refine (wrlock_inv rw (put _ _ _ s) rd wr (Ret 0 s') _ E eq_refl). eapply rwlock_inv_state; [|exact H]. by words.
  - refine (wrlock_inv rw (put _ _ _ s) rd wr (Sleeps s') _ E). eapply rwlock_inv_state; [|exact H]. by words.
  - revert E. unfold pthread_rwlock_trywrlock, truth. destruct (rw =? 0); [done|].
    destruct (Z.eqb_spec (get s rw F_rw_state) 0) as [E|]; cbn [negb]; [|done]. intros [= <-]. by apply rwlock_inv_write.
  - apply rwlock_unlock_state in E. apply Permutation_length in Hp. cbn [length] in Hp. unfold rwlock_inv in *.
    destruct H as [(-> & H1 & H2)|(-> & _)]; [|done]. rewrite H1 in E. left. split_and!; [done|revert E; zcase; lia|lia].
  - apply rwlock_unlock_state in E. apply Permutation_length in Hp. cbn [length] in Hp. unfold rwlock_inv in *.
    destruct H as [(-> & _)|(-> & H1 & (t & ->))]; [done|]. rewrite H1 in E. left.
    destruct wr'; [|done]. unfold INT_MAX. by split_and!.
  - eapply rwlock_inv_state; [|exact H]. by apply (sync_env s s').
Qed.

(** C31: readers and writers. From pthread_rwlock_init on, whatever the interleaving
    of lock, try, resumption and unlock calls with the scheduler's steps, at most
    one thread writes, and none reads while one writes. *)
Theorem rwlock_exclusion rw s0 s rd wr :
  rw <> 0 -> rtc (rwlock_step rw) ((pthread_rwlock_init rw s0).2, ([], [])) (s, (rd, wr)) ->
  (length wr <= 1)%nat /\ (wr <> [] -> rd = [])
  /\ get s rw F_rw_state = (match wr with [] => Z.of_nat (length rd) | _ => -1 end).
Proof.
  intros Hrw Hr. apply (rtc_invariant _ (rwlock_inv rw)) in Hr.
  - destruct Hr as [(-> & -> & _)|(-> & -> & (t & ->))]; split_and!; done || (cbn; lia).
  - apply rwlock_step_inv.
  - left. unfold pthread_rwlock_init. destruct (Z.eqb_spec rw 0) as [|_]; [done|].
    unfold wq_init, set_wq_head, set_wq_tail. cbn [snd]. words. unfold INT_MAX. by split_and!.
Qed.

(** * Semaphores *)

(** A step as one semaphore [m] sees it, with the number of posts and of waits
    that were granted. Nobody posts at [INT_MAX]. *)
Inductive sem_step (m : Z) : sched * (Z * Z) -> sched * (Z * Z) -> Prop :=
| SS_post fuel s p w s' :
    sem_post fuel m s = Some (0, s') -> get s m F_value < INT_MAX -> sem_step m (s, (p, w)) (s', (p + 1, w))
| SS_wait s p w s' : sem_wait m s = Some (Ret 0 s') -> sem_step m (s, (p, w)) (s', (p, w + 1))
| SS_wait_sleeps s n s' : sem_wait m s = Some (Sleeps s') -> sem_step m (s, n) (s', n)
| SS_trywait s p w s' : sem_trywait m s = (0, s') -> sem_step m (s, (p, w)) (s', (p, w + 1))
| SS_timedwait ts s p w s' :
    sem_timedwait m (Some ts) s = Some (Ret 0 s') -> sem_step m (s, (p, w)) (s', (p, w + 1))
| SS_timedwait_fails ts s n rc s' :
    sem_timedwait m (Some ts) s = Some (Ret rc s') -> rc <> 0 -> sem_step m (s, n) (s', n)
| SS_timedwait_sleeps ts s n s' : sem_timedwait m (Some ts) s = Some (Sleeps s') -> sem_step m (s, n) (s', n)
| SS_timedwait_again ts timed s p w s' :
    sem_timedwait_again m ts timed s = Some (Ret 0 s') -> sem_step m (s, (p, w)) (s', (p, w + 1))
| SS_env s n s' : env_step s s' -> sem_step m (s, n) (s', n).

Definition sem_inv (m v0 : Z) (x : sched * (Z * Z)) : Prop :=
  let '(s, (p, w)) := x in get s m F_value = v0 + p - w /\ 0 <= get s m F_value <= INT_MAX.

Lemma sem_inv_sync m v0 s s' n : sync_eq s s' -> sem_inv m v0 (s, n) -> sem_inv m v0 (s', n).
Proof. intros E. destruct n. unfold sem_inv. by rewrite E. Qed.

Lemma sem_inv_take m v0 s p w :
  sem_inv m v0 (s, (p, w)) -> get s m F_value <> 0 -> sem_inv m v0 (sem_take m s, (p, w + 1)).
Proof. unfold sem_inv, sem_take, INT_MAX. intros [H1 H2] Hv. words. rewrite s32_small by lia. lia. Qed.

(** The rounds of sem_wait and sem_timedwait. *)
Lemma sem_timedwait_inv m v0 ts s p w x :
  sem_inv m v0 (s, (p, w)) -> sem_timedwait m (Some ts) s = Some x ->
  match x with
  | Ret rc s' => sem_inv m v0 (s', (p, if rc =? 0 then w + 1 else w))
  | Sleeps s' => sem_inv m v0 (s', (p, w))
  end.
Proof.
  intros H. unfold sem_timedwait. destruct (m =? 0); [by intros [= <-]|].
  destruct (Z.eqb_spec (get s m F_value) 0) as [_|Hv].
  - destruct (_ =? 0); [by intros [= <-]|]. intros (s1 & Hs%sync_wait_enter & [= <-])%bind_Some.
    by eapply sem_inv_sync.
  - intros [= <-]. by apply sem_inv_take.
Qed.

Lemma sem_step_inv m v0 x y : sem_inv m v0 x -> sem_step m x y -> sem_inv m v0 y.
Proof.
  intros H Hs. destruct Hs as [fuel s p w s' E Hv|s p w s' E|s n s' E|s p w s' E|ts s p w s' E|ts s [p w] rc s' E Hr
    |ts s [p w] s' E|ts timed s p w s' E|s n s' E].
  - revert E. unfold sem_post. destruct (m =? 0); [done|]. intros (s1 & Hs%sync_wake & [= <-])%bind_Some.
    eapply sem_inv_sync; [exact Hs|]. unfold sem_inv, INT_MAX in *. words. rewrite s32_small by lia. lia.
  - revert E. unfold sem_wait. destruct (m =? 0); [done|]. destruct (Z.eqb_spec (get s m F_value) 0) as [|Hv].
    + by intros (? & _ & [=])%bind_Some.
    + intros [= <-]. by apply sem_inv_take.
  - revert E. unfold sem_wait. destruct (m =? 0); [done|]. destruct (_ =? 0); [|done].
    intros (s1 & Hs%sync_wait_enter & [= <-])%bind_Some. by eapply sem_inv_sync.
  - revert E. unfold sem_trywait. destruct (m =? 0); [done|].
    destruct (Z.eqb_spec (get s m F_value) 0) as [|Hv]; [done|]. intros [= <-]. by apply sem_inv_take.
  - by apply (sem_timedwait_inv m v0 ts s p w (Ret 0 s')).
  - apply (sem_timedwait_inv m v0 ts s p w (Ret rc s')) in E; [|done]. by destruct (Z.eqb_spec rc 0).
  - by apply (sem_timedwait_inv m v0 ts s p w (Sleeps s')).
  - revert E. unfold sem_timedwait_again. destruct (_ && _); [done|]. intros E.
    by apply (sem_timedwait_inv m v0 ts s p w (Ret 0 s')).
  - eapply sem_inv_sync; [|exact H]. by apply sync_env.
Qed.

(** C32: a semaphore gives out what it has. From sem_init with a value that an int
    holds, after any interleaving of post, wait, trywait and timedwait with the
    scheduler's steps, the value is the initial one plus the posts minus the
    waits that were granted, and it never goes below 0. *)
Theorem sem_conservation m v0 s0 s p w :
  m <> 0 -> 0 <= v0 <= INT_MAX -> rtc (sem_step m) ((sem_init m v0 s0).2, (0, 0)) (s, (p, w)) ->
  get s m F_value = v0 + p - w /\ w <= v0 + p.
Proof.
  intros Hm Hv Hr. apply (rtc_invariant _ (sem_inv m v0)) in Hr.
  - destruct Hr as [H1 H2]. lia.
  - apply sem_step_inv.
  - unfold sem_init. destruct (Z.eqb_spec m 0) as [|_]; [done|]. unfold wq_init, set_wq_head, set_wq_tail, sem_inv, INT_MAX in *.
    cbn [snd]. words. rewrite s32_small by lia. lia.
Qed.

(** * Barriers *)

(** A step as one barrier sees it, with the number of arrivals so far. *)
Inductive barrier_step (b : Z) : sched * Z -> sched * Z -> Prop :=
| BS_last fuel s n s' :
    pthread_barrier_wait fuel b s = Some (Ret PTHREAD_BARRIER_SERIAL_THREAD s') -> barrier_step b (s, n) (s', n + 1)
| BS_sleeps fuel s n s' : pthread_barrier_wait fuel b s = Some (Sleeps s') -> barrier_step b (s, n) (s', n + 1)
| BS_round gen s n w :
    barrier_round b gen s = Some w ->
    barrier_step b (s, n) (match w with Ret _ s' | Sleeps s' => s' end, n)
| BS_env s n s' : env_step s s' -> barrier_step b (s, n) (s', n).

Definition barrier_inv (b total : Z) (x : sched * Z) : Prop :=
  let '(s, n) := x in
  0 <= n /\ get s b F_bar_total = total /\ get s b F_bar_count = n mod total
  /\ get s b F_generation = u32 (n / total).

Lemma barrier_inv_sync b total s s' n : sync_eq s s' -> barrier_inv b total (s, n) -> barrier_inv b total (s', n).
Proof. intros E. unfold barrier_inv. by rewrite !E. Qed.

(** The next arrival: within the group, or the last of it. *)
Lemma arrive_within n total : 0 < total -> 0 <= n -> n mod total + 1 < total ->
  (n + 1) mod total = n mod total + 1 /\ (n + 1) / total = n / total.
Proof.
  intros Ht Hn Hl. pose proof (Z.div_mod n total ltac:(lia)) as E. pose proof (Z.mod_pos_bound n total Ht).
  split; symmetry.
  - apply (Z.mod_unique_pos _ _ (n / total)); lia.
  - apply (Z.div_unique_pos _ _ _ (n mod total + 1)); lia.
Qed.

Lemma arrive_last n total : 0 < total -> 0 <= n -> n mod total + 1 = total ->
  (n + 1) mod total = 0 /\ (n + 1) / total = n / total + 1.
Proof.
  intros Ht Hn Hl. pose proof (Z.div_mod n total ltac:(lia)) as E.
  split; symmetry.
  - apply (Z.mod_unique_pos _ _ (n / total + 1)); lia.
  - apply (Z.div_unique_pos _ _ _ 0); lia.
Qed.

Lemma u32_succ z : u32 (u32 z + 1) = u32 (z + 1).
Proof. unfold u32. apply Zplus_mod_idemp_l. Qed.

Lemma barrier_wait_inv b total fuel s n w :
  0 < total < 2 ^ 32 -> b <> 0 -> barrier_inv b total (s, n) -> pthread_barrier_wait fuel b s = Some w ->
  barrier_inv b total (match w with Ret _ s' | Sleeps s' => s' end, n + 1)
  /\ (match w with Ret rc _ => rc = PTHREAD_BARRIER_SERIAL_THREAD /\ (n + 1) mod total = 0
                 | Sleeps _ => (n + 1) mod total <> 0 end).
Proof.
  intros Ht Hb (Hn & H1 & H2 & H3). unfold pthread_barrier_wait. destruct (Z.eqb_spec b 0) as [|_]; [done|].
  words. pose proof (Z.mod_pos_bound n total ltac:(lia)) as Hm. rewrite H1, H2, (u32_small (n mod total + 1)) by lia.
  destruct (Z.eqb_spec (n mod total + 1) total) as [E|E].
  - destruct (arrive_last n total ltac:(lia) Hn E) as [E1 E2].
    intros (s1 & Hs%sync_wake & [= <-])%bind_Some. split; [|done].
    eapply barrier_inv_sync; [exact Hs|]. unfold barrier_inv. words.
    rewrite E1, E2, H3. split_and!; [lia|exact H1|done|apply u32_succ].
  - destruct (arrive_within n total ltac:(lia) Hn ltac:(lia)) as [E1 E2]. unfold barrier_round. words.
    rewrite Z.eqb_refl. intros (s1 & Hs%sync_wait_enter & [= <-])%bind_Some. split; [|lia].
    eapply barrier_inv_sync; [exact Hs|]. unfold barrier_inv. words. rewrite E1, E2. split_and!; [lia|done..].
Qed.

Lemma barrier_step_inv b total x y :
  0 < total < 2 ^ 32 -> b <> 0 -> barrier_inv b total x -> barrier_step b x y -> barrier_inv b total y.
Proof.
  intros Ht Hb H Hs. destruct Hs as [fuel s n s' E|fuel s n s' E|gen s n w E|s n s' E].
  - by apply (barrier_wait_inv b total fuel s n (Ret PTHREAD_BARRIER_SERIAL_THREAD s')).
  - by apply (barrier_wait_inv b total fuel s n (Sleeps s')).
  - revert E. unfold barrier_round. destruct (_ =? gen).
    + intros (s1 & Hs%sync_wait_enter & [= <-])%bind_Some. by eapply barrier_inv_sync.
    + by intros [= <-].
  - eapply barrier_inv_sync; [|exact H]. by apply sync_env.
Qed.

(** A barrier of [total] threads works group by group: after [n] arrivals, the
    thread that came [i]-th leaves its loop exactly when all the [total] arrivals
    of its group have come (unless 2^32 groups went by while it slept), and the
    call that answers PTHREAD_BARRIER_SERIAL_THREAD is the last of its group. *)
Theorem barrier_releases b total s0 s n i :
  b <> 0 -> 0 < total < 2 ^ 32 -> rtc (barrier_step b) ((pthread_barrier_init b total s0).2, 0) (s, n) ->
  0 <= i < n -> n / total - i / total < 2 ^ 32 ->
  (barrier_round b (u32 (i / total)) s = Some (Ret 0 s) <-> (i / total + 1) * total <= n)
  /\ (forall fuel rc s', pthread_barrier_wait fuel b s = Some (Ret rc s') ->
        rc = PTHREAD_BARRIER_SERIAL_THREAD /\ (n + 1) mod total = 0).
Proof.
  intros Hb Ht Hr Hi Hw. apply (rtc_invariant _ (barrier_inv b total)) in Hr.
  - split; [|intros fuel rc s' E; by apply (barrier_wait_inv b total fuel s n (Ret rc s'))].
    destruct Hr as (Hn & H1 & H2 & H3). unfold barrier_round. rewrite H3.
    pose proof (Z.div_mod n total ltac:(lia)) as En. pose proof (Z.mod_pos_bound n total ltac:(lia)) as Bn.
    assert (Hle : i / total <= n / total) by (apply Z.div_le_mono; lia).
    assert (Hge : 0 <= i / total) by (apply Z.div_pos; lia).
    destruct (Z.eqb_spec (u32 (n / total)) (u32 (i / total))) as [E|E].
    + split; [by intros (? & _ & [=])%bind_Some|]. intros Hc. exfalso.
      assert (Hlt : i / total + 1 <= n / total) by (apply Z.div_le_lower_bound; lia).
      unfold u32 in E. pose proof (Z.div_mod (n / total) (2 ^ 32) ltac:(lia)).
      pose proof (Z.div_mod (i / total) (2 ^ 32) ltac:(lia)). lia.
    + split; [|done]. intros _. assert (i / total <> n / total) by congruence. nia.
  - intros x y. by apply barrier_step_inv.
  - unfold pthread_barrier_init. destruct (Z.eqb_spec b 0) as [|_]; [done|].
    destruct (Z.eqb_spec total 0) as [|_]; [lia|]. cbn [orb snd]. unfold wq_init, set_wq_head, set_wq_tail, barrier_inv.
    words. split_and!; [lia|done..].
Qed.

(** * Once *)

(** A step as one pthread_once_t sees it, with how often its routine was called
    and how often it has come back. *)
Inductive pth_once_step (o : Z) : sched * (Z * Z) -> sched * (Z * Z) -> Prop :=
| OS_call r s c f s' : pthread_once o r s = Some (Once_call s') -> pth_once_step o (s, (c, f)) (s', (c + 1, f))
| OS_sleeps r s n s' : pthread_once o r s = Some (Once_sleeps s') -> pth_once_step o (s, n) (s', n)
| OS_wait s n s' : once_wait o s = Some (Once_sleeps s') -> pth_once_step o (s, n) (s', n)
| OS_finish fuel s c f s' : once_finish fuel o s = Some (0, s') -> f < c -> pth_once_step o (s, (c, f)) (s', (c, f + 1))
| OS_env s n s' : env_step s s' -> pth_once_step o (s, n) (s', n).

Definition once_inv (o : Z) (x : sched * (Z * Z)) : Prop :=
  let '(s, (c, f)) := x in
  c = (if truth (get s o F_running) then 1 else 0) /\ f = (if truth (get s o F_done) then 1 else 0) /\ f <= c.

Lemma once_inv_sync o s s' n : sync_eq s s' -> once_inv o (s, n) -> once_inv o (s', n).
Proof. intros E. destruct n. unfold once_inv. by rewrite !E. Qed.

Lemma once_wait_sync o s s' : once_wait o s = Some (Once_sleeps s') -> sync_eq s s'.
Proof.
  unfold once_wait. destruct (truth _); [done|]. intros (s1 & Hs%sync_wait_enter & [= <-])%bind_Some. exact Hs.
Qed.

Lemma once_step_inv o x y : once_inv o x -> pth_once_step o x y -> once_inv o y.
Proof.
  intros H Hs. destruct Hs as [r s c f s' E|r s n s' E|s n s' E|fuel s c f s' E Hf|s n s' E].
  - revert E. unfold pthread_once. destruct (_ || _); [done|]. unfold once_inv in *.
    destruct (truth (get s o F_done)) eqn:Ed; [done|]. destruct (truth (get s o F_running)).
    { unfold once_wait. rewrite Ed. by intros (? & _ & [=])%bind_Some. }
    intros [= <-]. words. rewrite Ed. destruct H as (-> & -> & _). by split_and!.
  - revert E. unfold pthread_once. destruct (_ || _); [done|]. destruct (truth _); [done|].
    destruct (truth _); [|done]. intros Hs%once_wait_sync. by eapply once_inv_sync.
  - apply once_wait_sync in E. by eapply once_inv_sync.
  - apply bind_Some in E as (s1 & Hs%sync_wake & [= <-]). eapply once_inv_sync; [exact Hs|]. unfold once_inv in *. words.
    destruct H as (-> & -> & _). revert Hf. destruct (truth (get s o F_running)), (truth (get s o F_done)); cbn; lia.
  - eapply once_inv_sync; [|exact H]. by apply sync_env.
Qed.

(** Pthread_once runs its routine once. From a control block in its initial
    state, however the calls of any threads interleave, the routine is called at
    most once, and a call of pthread_once that returns 0, or a waiter that leaves
    its loop, does so after the routine has come back. *)
Theorem once_calls_once o s0 s c f :
  get s0 o F_done = 0 -> get s0 o F_running = 0 -> rtc (pth_once_step o) (s0, (0, 0)) (s, (c, f)) ->
  c <= 1 /\ f <= c
  /\ (forall r s', pthread_once o r s = Some (Once_ret 0 s') \/ once_wait o s = Some (Once_ret 0 s') -> c = 1 /\ f = 1).
Proof.
  intros Hd Hr0 Hr. apply (rtc_invariant _ (once_inv o)) in Hr.
  - destruct Hr as (H1 & H2 & H3). split_and!; [rewrite H1; by destruct (truth _)|done|].
    intros r s' E. destruct (truth (get s o F_done)) eqn:Ed; [destruct (truth (get s o F_running)); lia|].
    exfalso. revert E. unfold pthread_once, once_wait. rewrite Ed.
    destruct (_ || _), (truth _); intros [E|E]; try done; by apply bind_Some in E as (? & _ & [=]).
  - apply once_step_inv.
  - unfold once_inv. by rewrite Hd, Hr0.
Qed.

(** * A condition wait that a signal ends *)

(** Leaving a wait: the thread is on neither list any more. *)
Lemma sched_wait_leave_spec fuel wq t l sl s :
  wq_rep s wq l -> sleep_rep s sl -> (length l < fuel)%nat -> (length sl < fuel)%nat ->
  exists s', sched_wait_leave fuel wq t s
             = Some (if truth (get s t F_sig_interrupt) then 2 else get s t F_timed_out, s')
    /\ wq_rep s' wq (others t l) /\ sleep_rep s' (others t sl) /\ get s' t F_sig_interrupt = 0.
Proof.
  intros Hw Hs Hl Hsl. destruct (wq_remove_spec fuel wq t l s Hw Hl) as (s1 & E1 & W1 & G1 & L1).
  destruct (sleep_remove_spec fuel t sl s1) as (s2 & E2 & W2 & G2); [|done|].
  { eapply sleep_rep_ext; [|exact L1|exact Hs]. intros u. by apply G1. }
  exists (put t F_sig_interrupt 0 s2). unfold sched_wait_leave. rewrite E1. cbn [mbind option_bind]. rewrite E2.
  cbn [mbind option_bind]. split_and!.
  - by rewrite !G2, !G1 by done.
  - eapply wq_rep_ext; [..|exact W1]; intros; unfold wq_head, wq_tail; words; by apply G2.
  - eapply sleep_rep_ext; [..|exact W2]; intros; by words.
  - apply get_put_eq.
Qed.

(** A signal that ends pthread_cond_wait, which has no timeout, makes it answer
    ETIMEDOUT: sched_wait_event reports an interruption as 2, and the caller takes
    every answer but 0 for a timeout. *)
Theorem cond_wait_signal_times_out fuel c m saved l sl s :
  m <> 0 -> get s m F_locked = 0 ->
  wq_rep s (cond_wq c) l -> sleep_rep s sl -> (length l < fuel)%nat -> (length sl < fuel)%nat ->
  get s (current_process s) F_sig_interrupt <> 0 ->
  exists s', cond_wait_leave fuel c m saved s = Some (2, Ret ETIMEDOUT s')
    /\ get s' m F_owner = current_process s.
Proof.
  intros Hm Hf Hw Hs Hl Hsl Hi.
  destruct (sched_wait_leave_spec fuel (cond_wq c) (current_process s) l sl s Hw Hs Hl Hsl) as (s1 & E & _).
  assert (Et : truth (get s (current_process s) F_sig_interrupt) = true) by (unfold truth; zcase; done).
  rewrite Et in E. pose proof (same_current _ _ (sched_wait_leave_same _ _ _ _ _ _ E)) as Ec.
  pose proof (sync_wait_leave _ _ _ _ _ _ E) as Hy. unfold cond_wait_leave. rewrite E. cbn [mbind option_bind].
  unfold cond_relock, pthread_mutex_lock. destruct (Z.eqb_spec m 0) as [|_]; [done|].
  rewrite (Hy m F_locked), Hf, Z.eqb_refl by done. cbn [mbind option_bind].
  eexists. split; [reflexivity|]. unfold take_mutex.
  destruct (_ =? PTHREAD_MUTEX_RECURSIVE); words; exact Ec.
Qed.

(** ** Witnesses *)

Definition demo_mutex : sched := (pthread_mutex_init 9000 0 demo_runs_3000).2.

Definition ret_state (w : option wait_step) (s : sched) : sched :=
  match w with Some (Ret _ s') | Some (Sleeps s') => s' | None => s end.

(** The answer of a call, without its state. *)
Definition answers (w : option wait_step) (rc : Z) : bool :=
  match w with Some (Ret r _) => r =? rc | _ => false end.

Lemma ret_state_eq w rc s : answers w rc = true -> w = Some (Ret rc (ret_state w s)).
Proof. destruct w as [[r s'|]|]; cbn; [|done..]. by intros ->%Z.eqb_eq. Qed.

Definition demo_locked : sched := ret_state (pthread_mutex_lock 9000 demo_mutex) demo_mutex.

Lemma mutex_exclusion_witness : get demo_locked 9000 F_owner = current_process demo_mutex.
Proof.
  destruct (mutex_exclusion 9000 0 demo_runs_3000 demo_locked (bump (fun _ => 0) (current_process demo_mutex) 1))
    as (_ & H & _).
  - done.
  - apply rtc_once.
    pose proof (MS_lock 9000 demo_mutex (fun _ => 0) 0 demo_locked) as Hst. apply Hst; [|done].
    apply ret_state_eq. vm_compute. reflexivity.
  - apply (H (current_process demo_mutex)). unfold bump. rewrite Z.eqb_refl. reflexivity.
Defined.

Definition demo_rw : sched := (pthread_rwlock_init 9200 demo_runs_3000).2.
Definition demo_reads : sched := ret_state (pthread_rwlock_rdlock 9200 demo_rw) demo_rw.

Lemma rwlock_exclusion_witness : get demo_reads 9200 F_rw_state = 1.
Proof.
  apply (rwlock_exclusion 9200 demo_runs_3000 demo_reads [current_process demo_rw] []); [done|].
  apply rtc_once. pose proof (RS_rdlock 9200 demo_rw [] [] demo_reads) as Hst. apply Hst; [|done].
  apply ret_state_eq. vm_compute. reflexivity.
Defined.

Definition demo_sem : sched := (sem_init 9300 2 demo_runs_3000).2.
Definition demo_sem_taken : sched := ret_state (sem_wait 9300 demo_sem) demo_sem.

Lemma sem_conservation_witness : get demo_sem_taken 9300 F_value = 1.
Proof.
  apply (sem_conservation 9300 2 demo_runs_3000 demo_sem_taken 0 1); [done|done|].
  apply rtc_once. pose proof (SS_wait 9300 demo_sem 0 0 demo_sem_taken) as Hst. apply Hst.
  apply ret_state_eq. vm_compute. reflexivity.
Defined.

(** Two threads and a barrier for one: each arrival is the last of its group. *)
Definition demo_bar : sched := (pthread_barrier_init 9400 1 demo_runs_3000).2.
Definition demo_bar_passed : sched := ret_state (pthread_barrier_wait 1 9400 demo_bar) demo_bar.

Lemma barrier_releases_witness : barrier_round 9400 0 demo_bar_passed = Some (Ret 0 demo_bar_passed).
Proof.
  apply (barrier_releases 9400 1 demo_runs_3000 demo_bar_passed 1 0).
  - done.
  - done.
  - apply rtc_once. pose proof (BS_last 9400 1 demo_bar 0 demo_bar_passed) as Hst. apply Hst.
    apply ret_state_eq. vm_compute. reflexivity.
  - lia.
  - done.
  - done.
Defined.

Definition once_state (w : option once_step) (s : sched) : sched :=
  match w with Some (Once_call s') => s' | _ => s end.
Definition once_calls (w : option once_step) : bool := match w with Some (Once_call _) => true | _ => false end.

Lemma once_call_eq w s : once_calls w = true -> w = Some (Once_call (once_state w s)).
Proof. by destruct w as [[]|]. Qed.

Definition demo_once : sched := once_state (pthread_once 9500 7 demo_runs_3000) demo_runs_3000.

Lemma once_calls_once_witness : 1 <= 1 /\ 0 <= 1.
Proof.
  destruct (once_calls_once 9500 demo_runs_3000 demo_once 1 0) as (H1 & H2 & _).
  - vm_compute. reflexivity.
  - vm_compute. reflexivity.
  - apply rtc_once. pose proof (OS_call 9500 7 demo_runs_3000 0 0 demo_once) as Hst. apply Hst.
    apply once_call_eq. vm_compute. reflexivity.
  - split; [exact H1|exact H2].
Defined.

(** Thread 3000 waits on a condition with no timeout, a signal wakes it, and it
    runs again. *)
Definition demo_cond_sleeps : sched :=
  match pthread_cond_wait 1 9100 9000 demo_locked with Some (Cond_sleeps _ s) => s | _ => demo_locked end.
Definition demo_cond_back : sched := demo_run schedule (signal_send 3000 SIGINT demo_cond_sleeps).2.

Lemma cond_wait_signal_times_out_witness :
  exists s', cond_wait_leave 2 9100 9000 1 demo_cond_back = Some (2, Ret ETIMEDOUT s')
    /\ get s' 9000 F_owner = 3000.
Proof.
  destruct (cond_wait_signal_times_out 2 9100 9000 1 [3000] [] demo_cond_back) as (s' & H1 & H2).
  - done.
  - vm_compute. reflexivity.
  - unfold wq_rep. cbn [chain]. split_and!; [vm_compute; reflexivity|done|vm_compute; reflexivity|apply NoDup_singleton|vm_compute; reflexivity].
  - split; [vm_compute; reflexivity|apply NoDup_nil_2].
  - cbn. lia.
  - cbn. lia.
  - vm_compute. discriminate.
  - exists s'. split; [exact H1|]. rewrite H2. vm_compute. reflexivity.
Defined.
