(* ===== verification/Tty.v ===== *)
(** The terminal line discipline, [kernel/tty/tty.c]: canonical lines with erase
    and end of file, raw input through a ring, control characters that raise
    signals, and readers that wait. The console is the list of the characters
    that were put on it. *)

From stdpp Require Import base numbers list gmap.
From Stdlib Require Import ZArith Lia.
From S2P Require Import Prelude Buf Pid Proc Sched SchedInv Signal WaitQ Thread.

Definition ISIG : Z := 1.
Definition ICANON : Z := 2.
Definition ECHO : Z := 8.

Definition VINTR : Z := 0.
Definition VQUIT : Z := 1.
Definition VERASE : Z := 2.
Definition VEOF : Z := 3.
Definition VSUSP : Z := 4.

Definition TTY_LINE_MAX : Z := 256.
Definition TTY_RAW_Q : Z := 256.

(** [(char)x]. *)
Definition char_of (z : Z) : Z := if u8 z <? 2 ^ 7 then u8 z else u8 z - 2 ^ 8.

Definition newline : Z := 10.
Definition return_char : Z := 13.
Definition backspace : Z := 8.
Definition space : Z := 32.

(** The statics of tty.c, the console and the kernel. *)
Record tty := Tty {
  c_lflag : Z; c_cc : Z -> Z; fg_pgid : Z;
  line : list Z; line_len : Z;
  ready : list Z; ready_len : Z; ready_has : Z; ready_eof : Z;
  raw_q : list Z; raw_head : Z; raw_tail : Z;
  tty_active : Z; console : list Z; ks : sched
}.

Definition with_line (l : list Z) (n : Z) (t : tty) : tty :=
  Tty (c_lflag t) (c_cc t) (fg_pgid t) l n (ready t) (ready_len t) (ready_has t) (ready_eof t)
    (raw_q t) (raw_head t) (raw_tail t) (tty_active t) (console t) (ks t).
Definition with_ready (r : list Z) (n has eof : Z) (t : tty) : tty :=
  Tty (c_lflag t) (c_cc t) (fg_pgid t) (line t) (line_len t) r n has eof
    (raw_q t) (raw_head t) (raw_tail t) (tty_active t) (console t) (ks t).
Definition with_raw (q : list Z) (h tl : Z) (t : tty) : tty :=
  Tty (c_lflag t) (c_cc t) (fg_pgid t) (line t) (line_len t) (ready t) (ready_len t) (ready_has t)
    (ready_eof t) q h tl (tty_active t) (console t) (ks t).
Definition with_console (c : list Z) (t : tty) : tty :=
  Tty (c_lflag t) (c_cc t) (fg_pgid t) (line t) (line_len t) (ready t) (ready_len t) (ready_has t)
    (ready_eof t) (raw_q t) (raw_head t) (raw_tail t) (tty_active t) c (ks t).
Definition with_ks (s : sched) (t : tty) : tty :=
  Tty (c_lflag t) (c_cc t) (fg_pgid t) (line t) (line_len t) (ready t) (ready_len t) (ready_has t)
    (ready_eof t) (raw_q t) (raw_head t) (raw_tail t) (tty_active t) (console t) s.

Definition tty_set_active (on : Z) (t : tty) : tty :=
  Tty (c_lflag t) (c_cc t) (fg_pgid t) (line t) (line_len t) (ready t) (ready_len t) (ready_has t)
    (ready_eof t) (raw_q t) (raw_head t) (raw_tail t) on (console t) (ks t).
Definition tty_is_active (t : tty) : Z := tty_active t.

Definition tty_set_foreground (pgid : Z) (t : tty) : tty :=
  Tty (c_lflag t) (c_cc t) pgid (line t) (line_len t) (ready t) (ready_len t) (ready_has t)
    (ready_eof t) (raw_q t) (raw_head t) (raw_tail t) (tty_active t) (console t) (ks t).
Definition tty_get_foreground (t : tty) : Z := fg_pgid t.

(** [wq]: tty_wq, a static wait queue. *)
Definition tty_init (wq : wait_queue) (t : tty) : tty :=
  Tty (Z.lor (Z.lor ICANON ECHO) ISIG)
    (fun i => if i =? VINTR then 3 else if i =? VQUIT then 28 else if i =? VERASE then 127
              else if i =? VEOF then 4 else if i =? VSUSP then 26 else c_cc t i)
    0 (line t) 0 (ready t) 0 0 0 (raw_q t) 0 0 (tty_active t) (console t)
    (set_wq_tail wq 0 (set_wq_head wq 0 (ks t))).

Definition terminal_putchar (c : Z) (t : tty) : tty := with_console (console t ++ [c]) t.

Definition lflag (t : tty) (bit : Z) : bool := truth (Z.land (c_lflag t) bit).
Definition is_cc (t : tty) (i c : Z) : bool := c =? char_of (c_cc t i).

Definition echo (c : Z) (t : tty) : tty := if lflag t ECHO then terminal_putchar c t else t.

(** wq_wake_all(&tty_wq). *)
Definition wake_readers (fuel : nat) (wq : wait_queue) (t : tty) : option tty :=
  s ← wq_wake_all fuel wq (ks t); Some (with_ks s t).

Definition line_complete (fuel : nat) (wq : wait_queue) (t : tty) : option tty :=
  src ← bsub (line t) 0 (line_len t);
  r ← bblit (ready t) 0 src;
  let t := with_ready r (line_len t) 1 (ready_eof t) t in
  wake_readers fuel wq (with_line (line t) 0 t).

Definition send_fg (fuel : nat) (sig : Z) (t : tty) : option tty :=
  '(_, s) ← signal_send_pgrp fuel (fg_pgid t) sig (ks t); Some (with_ks s t).

(** Raw mode: one byte at a time, dropped when the ring is full. *)
Definition raw_input (fuel : nat) (wq : wait_queue) (c : Z) (t : tty) : option tty :=
  let nh := (raw_head t + 1) mod TTY_RAW_Q in
  t ← (if negb (nh =? raw_tail t) then q ← bput (raw_q t) (raw_head t) c; Some (with_raw q nh (raw_tail t) t)
       else Some t);
  wake_readers fuel wq (echo c t).

(** Canonical mode. *)
Definition canon_input (fuel : nat) (wq : wait_queue) (c : Z) (t : tty) : option tty :=
  if is_cc t VEOF c then
    t ← line_complete fuel wq t;
    Some (if ready_len t =? 0 then with_ready (ready t) (ready_len t) (ready_has t) 1 t else t)
  else if is_cc t VERASE c || (c =? backspace) then
    Some (if 0 <? line_len t then
            let t := with_line (line t) (line_len t - 1) t in
            if lflag t ECHO
            then terminal_putchar backspace (terminal_putchar space (terminal_putchar backspace t)) else t
          else t)
  else if (c =? newline) || (c =? return_char) then
    t ← (if line_len t <? TTY_LINE_MAX
         then l ← bput (line t) (line_len t) newline; Some (with_line l (line_len t + 1) t)
         else Some t);
    line_complete fuel wq (echo newline t)
  else if line_len t <? TTY_LINE_MAX - 1 then
    l ← bput (line t) (line_len t) c;
    Some (echo c (with_line l (line_len t + 1) t))
  else Some t.

Definition tty_input (fuel : nat) (wq : wait_queue) (c : Z) (t : tty) : option tty :=
  if lflag t ISIG && is_cc t VINTR c then send_fg fuel SIGINT t
  else if lflag t ISIG && is_cc t VSUSP c then send_fg fuel SIGTSTP t
  else if lflag t ISIG && is_cc t VQUIT c then send_fg fuel SIGQUIT t
  else if negb (lflag t ICANON) then raw_input fuel wq c t
  else canon_input fuel wq c t.

Definition tty_line_ready (t : tty) : bool :=
  if negb (lflag t ICANON)
  then negb (raw_head t =? raw_tail t) || (truth (ready_has t) && truth (ready_len t)) || truth (ready_eof t)
  else truth (ready_has t) || truth (ready_eof t).

(** The loop that drains the ring: at most [n] bytes. *)
Fixpoint raw_drain (n : nat) (t : tty) : option (list Z * tty) :=
  match n with
  | O => Some ([], t)
  | S n =>
      if raw_tail t =? raw_head t then Some ([], t) else
      b ← bget (raw_q t) (raw_tail t);
      '(bs, t) ← raw_drain n (with_raw (raw_q t) (raw_head t) ((raw_tail t + 1) mod TTY_RAW_Q) t);
      Some (b :: bs, t)
  end.

(** The first [k] bytes of the ready line leave it; the rest moves to the front. *)
Definition take_ready (k : Z) (t : tty) : option (list Z * tty) :=
  out ← bsub (ready t) 0 k;
  rest ← bsub (ready t) k (ready_len t - k);
  r ← bblit (ready t) 0 rest;
  Some (out, with_ready r (ready_len t - k) (ready_has t) (ready_eof t) t).

(** The bytes stored in the caller's buffer of [n] bytes; their number is the
    result. *)
Definition tty_read (n : Z) (t : tty) : option (list Z * tty) :=
  let k := if ready_len t <? n then ready_len t else n in
  if negb (lflag t ICANON) then
    '(bs, t) ← raw_drain (Z.to_nat n) t;
    match bs with
    | _ :: _ => Some (bs, t)
    | [] =>
        if truth (ready_has t) && (0 <? ready_len t) then
          '(bs, t) ← take_ready k t;
          Some (bs, if ready_len t =? 0 then with_ready (ready t) 0 0 (ready_eof t) t else t)
        else if truth (ready_eof t) then Some ([], with_ready (ready t) (ready_len t) (ready_has t) 0 t)
        else Some ([], t)
    end
  else if truth (ready_eof t) && (ready_len t =? 0)
  then Some ([], with_ready (ready t) (ready_len t) (ready_has t) 0 t)
  else if negb (truth (ready_has t)) then Some ([], t)
  else
    '(bs, t) ← take_ready k t;
    Some (bs, if ready_len t =? 0 then with_ready (ready t) 0 0 0 t else t).

(** A round of tty_read_blocking, and its end after the switch. *)
Inductive tty_step := Tty_ret (r : Z) (bs : list Z) (t : tty) | Tty_sleeps (t : tty).

Definition tty_read_blocking (wq : wait_queue) (n : Z) (t : tty) : option tty_step :=
  if tty_line_ready t then '(bs, t) ← tty_read n t; Some (Tty_ret (len bs) bs t)
  else s ← sched_wait_enter wq 0 (ks t); Some (Tty_sleeps (with_ks s t)).

Definition tty_read_resume (fuel : nat) (wq : wait_queue) (n : Z) (t : tty) : option tty_step :=
  '(rc, s) ← sched_wait_leave fuel wq (current_process (ks t)) (ks t);
  let t := with_ks s t in
  if rc =? 2 then Some (Tty_ret (- EINTR) [] t) else tty_read_blocking wq n t.

(** * Canonical mode *)

Record tty_wf (t : tty) : Prop := {
  wf_line : len (line t) = TTY_LINE_MAX;
  wf_line_len : 0 <= line_len t <= TTY_LINE_MAX - 1;
  wf_ready : len (ready t) = TTY_LINE_MAX;
  wf_ready_len : 0 <= ready_len t <= TTY_LINE_MAX;
  wf_raw : len (raw_q t) = TTY_RAW_Q;
  wf_head : 0 <= raw_head t < TTY_RAW_Q;
  wf_tail : 0 <= raw_tail t < TTY_RAW_Q;
}.

(** The characters of the line being typed and of the line to be read. *)
Definition typed (t : tty) : list Z := ztake (line_len t) (line t).
Definition readable (t : tty) : list Z := ztake (ready_len t) (ready t).

(** What the terminal keeps fixed while characters are typed. *)
Record same_mode (t t' : tty) : Prop := {
  sm_lflag : c_lflag t' = c_lflag t;
  sm_cc : c_cc t' = c_cc t;
}.

#[export] Instance same_mode_refl : Reflexive same_mode.
Proof. by constructor. Qed.

#[export] Instance same_mode_trans : Transitive same_mode.
Proof. intros t1 t2 t3 [] []. constructor; congruence. Qed.

Definition erases (t : tty) (c : Z) : bool := is_cc t VERASE c || (c =? backspace).

(** The settings raise no signal for [c]. *)
Definition no_signal (t : tty) (c : Z) : bool :=
  negb (lflag t ISIG && (is_cc t VINTR c || is_cc t VSUSP c || is_cc t VQUIT c)).

(** A character that the discipline puts in the line or that erases. *)
Definition plain (t : tty) (c : Z) : bool :=
  no_signal t c && negb (is_cc t VEOF c) && (erases t c || negb ((c =? newline) || (c =? return_char))).

(** The settings give the newline no other meaning. *)
Definition newline_ends (t : tty) : bool :=
  no_signal t newline && negb (is_cc t VEOF newline) && negb (erases t newline).

(** The editing of a line, on lists. *)
Definition edit_step (t : tty) (acc : list Z) (c : Z) : list Z :=
  if erases t c then removelast acc
  else if len acc <? TTY_LINE_MAX - 1 then acc ++ [c] else acc.

Definition edit (t : tty) (acc cs : list Z) : list Z := fold_left (edit_step t) cs acc.

Fixpoint feed (fuel : nat) (wq : wait_queue) (cs : list Z) (t : tty) : option tty :=
  match cs with
  | [] => Some t
  | c :: cs => t ← tty_input fuel wq c t; feed fuel wq cs t
  end.

Lemma mode_bits t t' : same_mode t t' ->
  (forall b, lflag t' b = lflag t b) /\ (forall i c, is_cc t' i c = is_cc t i c)
  /\ (forall c, plain t' c = plain t c) /\ newline_ends t' = newline_ends t /\ (forall acc cs, edit t' acc cs = edit t acc cs).
Proof.
  intros [E1 E2]. assert (H1 : forall b, lflag t' b = lflag t b) by (intros; unfold lflag; by rewrite E1).
  assert (H2 : forall i c, is_cc t' i c = is_cc t i c) by (intros; unfold is_cc; by rewrite E2).
  split_and!; [done|done| | |].
  - intros c. unfold plain, no_signal, erases. by rewrite H1, !H2.
  - unfold newline_ends, no_signal, erases. by rewrite H1, !H2.
  - intros acc cs. revert acc. induction cs as [|c cs IH]; intros acc; [done|]. cbn. unfold edit in IH. rewrite IH.
    unfold edit_step, erases. by rewrite H2.
Qed.

Lemma removelast_ztake n (l : list Z) : 0 < n <= len l -> removelast (ztake n l) = ztake (n - 1) l.
Proof.
  intros H. unfold ztake. replace (Z.to_nat n) with (S (Z.to_nat (n - 1))) by lia.
  unfold len in H. apply removelast_firstn. lia.
Qed.

Lemma echo_frame c t :
  tty_wf t -> tty_wf (echo c t) /\ same_mode t (echo c t) /\ typed (echo c t) = typed t
    /\ readable (echo c t) = readable t /\ ks (echo c t) = ks t.
Proof. intros []. unfold echo, terminal_putchar, with_console. destruct (lflag t ECHO); by split_and!. Qed.

Lemma tty_input_no_signal fuel wq c t :
  no_signal t c = true ->
  tty_input fuel wq c t = if lflag t ICANON then canon_input fuel wq c t else raw_input fuel wq c t.
Proof.
  unfold no_signal, tty_input. destruct (lflag t ISIG), (is_cc t VINTR c), (is_cc t VSUSP c), (is_cc t VQUIT c);
    cbn; (done || by destruct (lflag t ICANON)).
Qed.

(** One character that edits the line. *)
Lemma canon_plain fuel wq t c :
  tty_wf t -> lflag t ICANON = true -> plain t c = true ->
  exists t', tty_input fuel wq c t = Some t' /\ tty_wf t' /\ same_mode t t' /\ ks t' = ks t
    /\ typed t' = edit_step t (typed t) c /\ readable t' = readable t /\ ready_len t' = ready_len t.
Proof.
  intros Hwf Hc. pose proof Hwf as []. unfold plain. rewrite !andb_true_iff. intros [[Hs He] Hn].
  rewrite tty_input_no_signal, Hc by done. unfold canon_input. apply negb_true_iff in He. rewrite He.
  fold (erases t c). unfold edit_step, typed. rewrite len_ztake by (unfold TTY_LINE_MAX in *; lia).
  destruct (erases t c) eqn:Er.
  - destruct (Z.ltb_spec 0 (line_len t)) as [Hp|Hp].
    + rewrite removelast_ztake by (unfold TTY_LINE_MAX in *; lia).
      eexists. split; [reflexivity|]. destruct (lflag _ ECHO); cbn; split_and!; try done; constructor; cbn; lia.
    + exists t. replace (line_len t) with 0 by lia. by split_and!.
  - destruct ((c =? newline) || (c =? return_char)); [done|].
    destruct (Z.ltb_spec (line_len t) (TTY_LINE_MAX - 1)) as [Hp|Hp]; [|by exists t; split_and!].
    destruct (bput (line t) (line_len t) c) as [l|] eqn:Eb; [|rewrite bput_some in Eb by lia; done].
    pose proof (bput_len _ _ _ _ Eb) as El. cbn [mbind option_bind].
    set (t1 := with_line l (line_len t + 1) t).
    assert (Hw1 : tty_wf t1) by (constructor; cbn; lia).
    destruct (echo_frame c t1 Hw1) as (H1 & H2 & H3 & H4 & H5). unfold typed in H3.
    exists (echo c t1). split_and!; [done|done|etrans; [|exact H2]; by constructor|done| |done|].
    + rewrite H3. cbn. by apply ztake_bput.
    + unfold echo. destruct (lflag t1 ECHO); reflexivity.
Qed.

Lemma feed_plain fuel wq cs t :
  tty_wf t -> lflag t ICANON = true -> forallb (plain t) cs = true ->
  exists t', feed fuel wq cs t = Some t' /\ tty_wf t' /\ same_mode t t' /\ ks t' = ks t
    /\ typed t' = edit t (typed t) cs.
Proof.
  revert t. induction cs as [|c cs IH]; intros t Hw Hc; cbn [forallb feed].
  - intros _. by exists t.
  - intros [Hp Hps]%andb_true_iff. destruct (canon_plain fuel wq t c Hw Hc Hp) as (t1 & -> & Hw1 & Hm & Hk & Ht & _).
    cbn [mbind option_bind]. destruct (mode_bits _ _ Hm) as (B1 & B2 & B3 & _ & B4).
    destruct (IH t1 Hw1) as (t2 & E & Hw2 & Hm2 & Hk2 & Ht2); [by rewrite B1| |].
    { rewrite <- Hps. clear -B3. induction cs as [|x cs IH]; [done|]. cbn. by rewrite B3, IH. }
    exists t2. split_and!; [done|done|by etrans|congruence|]. by rewrite Ht2, B4, Ht.
Qed.

(** Completing a line. *)
Lemma line_complete_spec fuel wq l t :
  len (line t) = TTY_LINE_MAX -> len (ready t) = TTY_LINE_MAX -> 0 <= line_len t <= TTY_LINE_MAX ->
  wq_rep (ks t) wq l -> (length l < fuel)%nat ->
  exists r s, line_complete fuel wq t = Some (with_ks s (with_line (line t) 0 (with_ready r (line_len t) 1 (ready_eof t) t)))
    /\ len r = TTY_LINE_MAX /\ ztake (line_len t) r = typed t
    /\ wq_rep s wq []
    /\ (forall u, get s u F_state
          = if bool_decide (u ∈ l) && is_blocked (ks t) u then PROC_READY else get (ks t) u F_state).
Proof.
  intros Hl Hr Hn Hw Hf. unfold line_complete, wake_readers, wq_wake_all. rewrite bsub_some, zdrop_0 by lia.
  cbn [mbind option_bind]. assert (Et : len (ztake (line_len t) (line t)) = line_len t) by (apply len_ztake; lia).
  destruct (bblit (ready t) 0 (ztake (line_len t) (line t))) as [r|] eqn:Eb;
    [|rewrite bblit_some in Eb by lia; done].
  destruct (wake_all_spec fuel wq l (ks t) Hw Hf) as (s & Es & H1 & H2). cbn [mbind option_bind].
  exists r, s. cbn. rewrite Es. cbn. split_and!; [done|by rewrite (bblit_len _ _ _ _ Eb)| |done|done].
  rewrite bblit_some in Eb by lia. injection Eb as <-. by rewrite ztake_app by done.
Qed.

(** The newline that ends a line. *)
Lemma newline_input fuel wq l t :
  tty_wf t -> lflag t ICANON = true -> newline_ends t = true ->
  wq_rep (ks t) wq l -> (length l < fuel)%nat ->
  exists t', tty_input fuel wq newline t = Some t' /\ tty_wf t' /\ same_mode t t'
    /\ readable t' = typed t ++ [newline] /\ ready_has t' = 1 /\ ready_eof t' = ready_eof t /\ line_len t' = 0
    /\ ready_len t' = len (typed t) + 1
    /\ (forall u, get (ks t') u F_state
          = if bool_decide (u ∈ l) && is_blocked (ks t) u then PROC_READY else get (ks t) u F_state).
Proof.
  intros Hwf Hc. unfold newline_ends. rewrite !andb_true_iff, !negb_true_iff. intros [[Hs He] Her] Hw Hf.
  pose proof Hwf as []. rewrite tty_input_no_signal, Hc by done. unfold canon_input. rewrite He.
  fold (erases t newline). rewrite Her, Z.eqb_refl. cbn [orb].
  unfold TTY_LINE_MAX in *. destruct (Z.ltb_spec (line_len t) 256) as [_|]; [|lia].
  destruct (bput (line t) (line_len t) newline) as [ln|] eqn:Eb; [|rewrite bput_some in Eb by lia; done].
  pose proof (bput_len _ _ _ _ Eb) as El. cbn [mbind option_bind].
  set (t1 := echo newline (with_line ln (line_len t + 1) t)).
  assert (F : line t1 = ln /\ line_len t1 = line_len t + 1 /\ ready t1 = ready t /\ ready_eof t1 = ready_eof t
    /\ ks t1 = ks t /\ raw_q t1 = raw_q t /\ raw_head t1 = raw_head t /\ raw_tail t1 = raw_tail t /\ same_mode t t1).
  { unfold t1, echo. destruct (lflag _ ECHO); by split_and!. }
  destruct F as (F1 & F2 & F3 & F4 & F5 & F6 & F7 & F8 & F9). clearbody t1.
  destruct (line_complete_spec fuel wq l t1) as (r & s & -> & Hr & Ht & _ & Hst);
    [unfold TTY_LINE_MAX; rewrite ?F1, ?F2, ?F3; lia..|by rewrite F5|done|].
  rewrite F2 in *. eexists. split; [reflexivity|]. unfold TTY_LINE_MAX in *.
  assert (Ety : typed t1 = typed t ++ [newline]).
  { unfold typed. rewrite F1, F2. by apply ztake_bput. }
  split_and!.
  - constructor; cbn; rewrite ?F1, ?F6, ?F7, ?F8; unfold TTY_LINE_MAX; lia.
  - destruct F9. by constructor.
  - unfold readable. cbn. by rewrite Ht.
  - done.
  - done.
  - done.
  - cbn. unfold typed. rewrite len_ztake; lia.
  - cbn. intros u. by rewrite Hst, F5.
Qed.

(** Reading the whole of the ready line. *)
Lemma read_all t n :
  tty_wf t -> lflag t ICANON = true -> ready_has t = 1 -> 0 < ready_len t <= n ->
  exists t', tty_read n t = Some (readable t, t') /\ tty_line_ready t' = false.
Proof.
  intros [] Hc Hh Hn. unfold tty_read, take_ready. rewrite Hc, Hh. unfold TTY_LINE_MAX in *.
  destruct (Z.eqb_spec (ready_len t) 0) as [|_]; [lia|]. rewrite andb_false_r. cbn [negb truth Z.eqb].
  assert (Ek : (if ready_len t <? n then ready_len t else n) = ready_len t) by (zcase; lia). rewrite Ek.
  rewrite !bsub_some, zdrop_0 by lia. cbn [mbind option_bind]. rewrite Z.sub_diag, bblit_some by (rewrite ?len_ztake_0; lia).
  cbn [mbind option_bind]. cbn. eexists. split; [reflexivity|].
  unfold tty_line_ready. change (lflag _ ICANON) with (lflag t ICANON). by rewrite Hc.
Qed.

(** C35: a line typed in canonical mode reaches the reader as the line editor shows
    it: erase characters remove the last character, what goes over the buffer is
    dropped, the newline ends it, every waiting reader is made ready, and one read
    with room enough returns the line, after which none is ready. The line that
    was waiting to be read before is gone. *)
Theorem tty_line_delivered fuel wq l cs t n :
  tty_wf t -> lflag t ICANON = true -> typed t = [] ->
  forallb (plain t) cs = true -> newline_ends t = true ->
  wq_rep (ks t) wq l -> (length l < fuel)%nat -> len (edit t [] cs) < n ->
  exists t' t'', feed fuel wq (cs ++ [newline]) t = Some t'
    /\ (forall u, get (ks t') u F_state
          = if bool_decide (u ∈ l) && is_blocked (ks t) u then PROC_READY else get (ks t) u F_state)
    /\ tty_read n t' = Some (edit t [] cs ++ [newline], t'') /\ tty_line_ready t'' = false.
Proof.
  intros Hwf Hc Ht Hp Hn Hw Hf Hlen. destruct (feed_plain fuel wq cs t Hwf Hc Hp) as (t1 & E1 & W1 & M1 & K1 & T1).
  rewrite Ht in T1. destruct (mode_bits _ _ M1) as (B1 & _ & _ & Bn & _).
  destruct (newline_input fuel wq l t1) as (t2 & E2 & W2 & M2 & R2 & H2 & _ & _ & L2 & S2); try done;
    [by rewrite B1|by rewrite Bn|by rewrite K1|].
  destruct (mode_bits _ _ M2) as (B1' & _). rewrite T1 in *.
  destruct (read_all t2 n W2) as (t3 & E3 & R3); [by rewrite B1', B1|done|pose proof (len_nonneg (edit t [] cs)); lia|].
  exists t2, t3. split_and!; [|by rewrite <- K1|by rewrite E3, R2|done].
  clear -E1 E2. revert t E1. induction cs as [|c cs IH]; intros t; cbn [feed app].
  - intros [= ->]. by rewrite E2.
  - intros (t' & -> & H)%bind_Some. cbn. by apply IH.
Qed.

Lemma read_eof wq n t :
  lflag t ICANON = true -> ready_eof t = 1 -> ready_len t = 0 ->
  tty_read_blocking wq n t = Some (Tty_ret 0 [] (with_ready (ready t) 0 (ready_has t) 0 t)).
Proof.
  intros Hc He Hl. unfold tty_read_blocking, tty_line_ready, tty_read. rewrite Hc, He, Hl. cbn.
  by rewrite orb_true_r.
Qed.

Lemma read_empty_line wq n t :
  lflag t ICANON = true -> ready_has t = 1 -> ready_eof t = 0 -> ready_len t = 0 -> len (ready t) = TTY_LINE_MAX -> 0 < n ->
  exists t', tty_read_blocking wq n t = Some (Tty_ret 0 [] t') /\ tty_line_ready t' = false.
Proof.
  intros Hc Hh He Hl Hr Hn. unfold TTY_LINE_MAX in Hr. unfold tty_read_blocking, tty_line_ready at 1, tty_read, take_ready.
  rewrite Hc, Hh, He, Hl. cbn [negb truth Z.eqb orb andb]. destruct (Z.ltb_spec 0 n) as [_|]; [|lia].
  rewrite Z.sub_diag, !bsub_some by lia. cbn [mbind option_bind].
  rewrite bblit_some by (rewrite ?len_ztake_0; lia). cbn [mbind option_bind].
  eexists. split; [reflexivity|]. unfold tty_line_ready. cbn [ready_len with_ready Z.eqb].
  change (lflag _ ICANON) with (lflag t ICANON). by rewrite Hc.
Qed.

(** One ^D on an empty line is delivered to the reader twice: the first read
    takes the end of file but leaves ready_has set, so the terminal still counts
    as ready and the next read returns 0 bytes as well instead of waiting. *)
Theorem tty_eof_twice fuel wq l t c n :
  tty_wf t -> lflag t ICANON = true -> typed t = [] -> is_cc t VEOF c = true -> no_signal t c = true ->
  wq_rep (ks t) wq l -> (length l < fuel)%nat -> 0 < n ->
  exists t1 t2 t3, tty_input fuel wq c t = Some t1
    /\ tty_read_blocking wq n t1 = Some (Tty_ret 0 [] t2)
    /\ tty_read_blocking wq n t2 = Some (Tty_ret 0 [] t3) /\ tty_line_ready t3 = false.
Proof.
  intros Hwf Hc Ht He Hs Hw Hf Hn. pose proof Hwf as []. unfold TTY_LINE_MAX in *.
  assert (Hl : line_len t = 0).
  { unfold typed in Ht. apply (f_equal len) in Ht. rewrite len_ztake in Ht by lia. exact Ht. }
  destruct (line_complete_spec fuel wq l t) as (r & s & E & Hr & _); [unfold TTY_LINE_MAX; lia..|done|done|].
  rewrite tty_input_no_signal, Hc by done. unfold canon_input. rewrite He, E, Hl. cbn [mbind option_bind].
  set (t1 := with_ks s _). set (t2 := with_ready (ready t1) (ready_len t1) (ready_has t1) 1 t1).
  set (t3 := with_ready (ready t2) 0 (ready_has t2) 0 t2).
  destruct (read_empty_line wq n t3) as (t4 & E4 & R4); try done.
  exists t2, t3, t4. split_and!; [done| |done|done]. by apply read_eof.
Qed.

(** * Raw mode *)

(** The bytes in the ring. *)
Definition pending (t : tty) : list Z :=
  ring (raw_q t) (raw_tail t) ((raw_head t - raw_tail t) mod TTY_RAW_Q).

(** The step of the ring's head. *)
Lemma ring_head_step h tl :
  0 <= h < TTY_RAW_Q -> 0 <= tl < TTY_RAW_Q ->
  (if (h + 1) mod TTY_RAW_Q =? tl then (h - tl) mod TTY_RAW_Q = TTY_RAW_Q - 1
   else (h - tl) mod TTY_RAW_Q < TTY_RAW_Q - 1
        /\ ((h + 1) mod TTY_RAW_Q - tl) mod TTY_RAW_Q = (h - tl) mod TTY_RAW_Q + 1)
  /\ (tl + (h - tl) mod TTY_RAW_Q) mod TTY_RAW_Q = h.
Proof.
  unfold TTY_RAW_Q. intros Hh Ht.
  assert (E1 : (h + 1) mod 256 = if h =? 255 then 0 else h + 1).
  { destruct (Z.eqb_spec h 255) as [->|]; [done|]. apply Z.mod_small. lia. }
  assert (E2 : (h - tl) mod 256 = if tl <=? h then h - tl else h - tl + 256).
  { destruct (Z.leb_spec tl h); [apply Z.mod_small; lia|]. symmetry. apply (Z.mod_unique_pos _ _ (-1)); lia. }
  assert (E3 : (tl + (h - tl) mod 256) mod 256 = h).
  { rewrite E2. destruct (Z.leb_spec tl h); [rewrite Z.mod_small; lia|].
    symmetry. apply (Z.mod_unique_pos _ _ 1); lia. }
  split; [|done]. rewrite E1, E2. clear E3.
  destruct (Z.eqb_spec h 255) as [->|Hh'].
  - destruct (Z.eqb_spec 0 tl) as [<-|Hz]; [done|]. destruct (Z.leb_spec tl 255); [|lia]. split; [lia|].
    symmetry. apply (Z.mod_unique_pos _ _ (-1)); lia.
  - destruct (Z.eqb_spec (h + 1) tl) as [<-|Hz]; [destruct (Z.leb_spec (h + 1) h); lia|].
    destruct (Z.leb_spec tl h); (split; [lia|]).
    + rewrite Z.mod_small; lia.
    + symmetry. apply (Z.mod_unique_pos _ _ (-1)); lia.
Qed.

Lemma raw_drain_spec n t :
  tty_wf t ->
  exists t', raw_drain n t = Some (take n (pending t), t') /\ pending t' = drop n (pending t)
    /\ same_mode t t' /\ tty_wf t'.
Proof.
  revert t. induction n as [|n IH]; intros t Hw; cbn [raw_drain].
  - exists t. by rewrite take_0, drop_0.
  - pose proof Hw as []. destruct (ring_head_step (raw_head t) (raw_tail t)) as [Hst Hh]; [done..|].
    destruct (Z.eqb_spec (raw_tail t) (raw_head t)) as [E|Hne].
    { exists t. assert (Ep : pending t = []) by (unfold pending; by rewrite E, Z.sub_diag).
      by rewrite Ep, take_nil, drop_nil. }
    assert (Hp : 0 < (raw_head t - raw_tail t) mod TTY_RAW_Q < TTY_RAW_Q).
    { pose proof (Z.mod_pos_bound (raw_head t - raw_tail t) TTY_RAW_Q ltac:(done)) as B. split; [|lia].
      destruct (Z.eq_dec ((raw_head t - raw_tail t) mod TTY_RAW_Q) 0) as [E0|]; [|lia].
      rewrite E0, Z.add_0_r, Z.mod_small in Hh; [done|unfold TTY_RAW_Q in *; lia]. }
    rewrite bget_some by (unfold TTY_RAW_Q in *; lia). cbn [mbind option_bind].
    set (t1 := with_raw _ _ _ _). assert (Hw1 : tty_wf t1).
    { constructor; cbn; try done. apply Z.mod_pos_bound. done. }
    destruct (IH t1 Hw1) as (t2 & E2 & P2 & M2 & W2). rewrite E2. cbn [mbind option_bind].
    assert (Epop : pending t = raw_q t !!! Z.to_nat (raw_tail t) :: pending t1).
    { unfold pending. rewrite ring_pop by lia. rewrite wf_raw0, Z.mod_small by done. f_equal. cbn. f_equal.
      rewrite Zminus_mod_idemp_r. unfold TTY_RAW_Q in *.
      rewrite <- (Z.mod_small ((raw_head t - raw_tail t) mod 256 - 1) 256) by lia.
      rewrite Zminus_mod_idemp_l. f_equal. lia. }
    exists t2. rewrite Epop. cbn [take drop]. split_and!; [done|done| |done]. destruct M2. by constructor.
Qed.

(** Raw mode is a queue. A byte typed in raw mode is put behind those that wait,
    unless 255 wait already, then it is dropped; a read takes the bytes that wait,
    in order, at most as many as it has room for, and leaves the others. *)
Theorem tty_raw_fifo fuel wq l t c n :
  tty_wf t -> lflag t ICANON = false -> no_signal t c = true ->
  wq_rep (ks t) wq l -> (length l < fuel)%nat -> 0 <= n ->
  (exists t', tty_input fuel wq c t = Some t' /\ tty_wf t' /\ lflag t' ICANON = false
     /\ pending t' = (if len (pending t) <? TTY_RAW_Q - 1 then pending t ++ [c] else pending t))
  /\ (ztake n (pending t) <> [] ->
      exists t', tty_read n t = Some (ztake n (pending t), t') /\ tty_wf t' /\ lflag t' ICANON = false
        /\ pending t' = zdrop n (pending t)).
Proof.
  intros Hw Hc Hs Hq Hf Hn. pose proof Hw as [].
  destruct (ring_head_step (raw_head t) (raw_tail t)) as [Hst Hh]; [done..|]. split.
  - rewrite tty_input_no_signal, Hc by done. unfold raw_input, wake_readers, wq_wake_all.
    assert (Bm : 0 <= (raw_head t - raw_tail t) mod TTY_RAW_Q) by (apply Z.mod_pos_bound; done).
    unfold pending at 2. rewrite len_ring by done.
    destruct (Z.eqb_spec ((raw_head t + 1) mod TTY_RAW_Q) (raw_tail t)) as [E|E]; cbn [negb].
    + rewrite Hst, Z.ltb_irrefl. cbn [mbind option_bind].
      destruct (wake_all_spec fuel wq l (ks t) Hq Hf) as (s & Es & _).
      assert (Ek : ks (echo c t) = ks t) by (unfold echo; by destruct (lflag t ECHO)). rewrite Ek, Es. cbn.
      eexists. split; [reflexivity|]. unfold echo. destruct (lflag t ECHO) eqn:Ee; by split_and!.
    + destruct Hst as [Hlt Hnew]. destruct (Z.ltb_spec ((raw_head t - raw_tail t) mod TTY_RAW_Q) (TTY_RAW_Q - 1)) as [_|]; [|lia].
      rewrite bput_some by (unfold TTY_RAW_Q in *; lia). cbn [mbind option_bind].
      set (t1 := with_raw _ _ _ _). destruct (wake_all_spec fuel wq l (ks t) Hq Hf) as (s & Es & _).
      assert (Ek : ks (echo c t1) = ks t) by (unfold echo; by destruct (lflag t1 ECHO)). rewrite Ek, Es. cbn.
      assert (Hw1 : tty_wf t1).
      { constructor; cbn; try done; [|apply Z.mod_pos_bound; done]. unfold len. by rewrite length_insert. }
      assert (Ep : pending t1 = pending t ++ [c]).
      { unfold pending. cbn. rewrite Hnew, <- Hh at 1. rewrite <- wf_raw0. apply ring_push; [lia|rewrite wf_raw0; lia]. }
      eexists. split; [reflexivity|]. destruct (echo_frame c t1 Hw1) as ([] & _).
      unfold echo in *. destruct (lflag t1 ECHO); by split_and!.
  - intros Hne. destruct (raw_drain_spec (Z.to_nat n) t Hw) as (t' & E & P & M & W).
    destruct (mode_bits _ _ M) as (B & _). unfold tty_read. rewrite Hc, E. cbn [negb mbind option_bind].
    unfold ztake in *. destruct (take (Z.to_nat n) (pending t)) as [|b bs]; [done|].
    exists t'. split_and!; [done|done|by rewrite B|done].
Qed.

(** ** Witnesses *)

Definition demo_buf : list Z := replicate 256 0.
Definition tty_statics : tty :=
  Tty 0 (fun _ => 0) 0 demo_buf 0 demo_buf 0 0 0 demo_buf 0 0 0 [] demo_booted.
Definition demo_wq : wait_queue := (7000, WQ_main).
Definition demo_tty : tty := tty_init demo_wq tty_statics.
(** The same terminal after TCSETS has cleared ICANON. *)
Definition demo_raw : tty :=
  Tty (Z.lor ECHO ISIG) (c_cc demo_tty) 0 demo_buf 0 demo_buf 0 0 0 demo_buf 0 0 0 [] (ks demo_tty).

Lemma demo_tty_wf : tty_wf demo_tty.
Proof. constructor; vm_compute; (reflexivity || (split; [discriminate|reflexivity]) || (split; discriminate)). Qed.

Lemma demo_raw_wf : tty_wf demo_raw.
Proof. constructor; vm_compute; (reflexivity || (split; [discriminate|reflexivity]) || (split; discriminate)). Qed.

Lemma demo_wq_empty : wq_rep (ks demo_tty) demo_wq [].
Proof. unfold wq_rep. cbn [chain]. split_and!; [vm_compute; reflexivity|apply NoDup_nil_2|vm_compute; reflexivity]. Qed.

(** "lx", DEL, "s", newline. *)
Lemma tty_line_delivered_witness :
  exists t' t'', feed 1 demo_wq ([108; 120; 127; 115] ++ [newline]) demo_tty = Some t'
    /\ tty_read 64 t' = Some ([108; 115; newline], t'').
Proof.
  destruct (tty_line_delivered 1 demo_wq [] [108; 120; 127; 115] demo_tty 64) as (t' & t'' & H1 & _ & H2 & _).
  - exact demo_tty_wf.
  - vm_compute. reflexivity.
  - vm_compute. reflexivity.
  - vm_compute. reflexivity.
  - vm_compute. reflexivity.
  - exact demo_wq_empty.
  - cbn. lia.
  - vm_compute. reflexivity.
  - exists t', t''. split; [exact H1|]. rewrite H2. vm_compute. reflexivity.
Defined.

Lemma tty_eof_twice_witness :
  exists t1 t2 t3, tty_input 1 demo_wq 4 demo_tty = Some t1
    /\ tty_read_blocking demo_wq 64 t1 = Some (Tty_ret 0 [] t2)
    /\ tty_read_blocking demo_wq 64 t2 = Some (Tty_ret 0 [] t3).
Proof.
  destruct (tty_eof_twice 1 demo_wq [] demo_tty 4 64) as (t1 & t2 & t3 & H1 & H2 & H3 & _).
  - exact demo_tty_wf.
  - vm_compute. reflexivity.
  - vm_compute. reflexivity.
  - vm_compute. reflexivity.
  - vm_compute. reflexivity.
  - exact demo_wq_empty.
  - cbn. lia.
  - lia.
  - exists t1, t2, t3. split_and!; [exact H1|exact H2|exact H3].
Defined.

Lemma tty_raw_fifo_witness :
  exists t', tty_input 1 demo_wq 65 demo_raw = Some t' /\ pending t' = [65].
Proof.
  destruct (tty_raw_fifo 1 demo_wq [] demo_raw 65 16) as [(t' & H1 & _ & _ & H2) _].
  - exact demo_raw_wf.
  - vm_compute. reflexivity.
  - vm_compute. reflexivity.
  - exact demo_wq_empty.
  - cbn. lia.
  - lia.
  - exists t'. split; [exact H1|]. rewrite H2. vm_compute. reflexivity.
Defined.
