(* ===== verification/Pipe.v ===== *)
(** Pipes, [kernel/fs/vfs.c] (pipe_read, pipe_write, pipe_detach): a ring of
    PIPE_CAP bytes, its live ends, and the readers and writers that wait.

    A call that waits is a round, which returns or puts the thread to sleep, and a
    resumption. Each critical section runs with interrupts off, so it is one step. *)

From stdpp Require Import base numbers list gmap.
From Stdlib Require Import ZArith Lia.
From S2P Require Import Prelude Buf Pid Proc Sched SchedInv Signal WaitQ Thread Pthread.

Definition PIPE_CAP : Z := 4096.

(** pipe_t, but for its wait queues, which are in the store. *)
Record pipe := Pipe {
  buf : list Z; head : Z; tail : Z; count : Z; readers : Z; writers : Z
}.

Definition with_ring (b : list Z) (h t c : Z) (p : pipe) : pipe := Pipe b h t c (readers p) (writers p).

(** [a]: the address of the pipe. *)
Definition rwait (a : Z) : wait_queue := (a, WQ_readers).
Definition wwait (a : Z) : wait_queue := (a, WQ_main).

(** The pipe part of vfs_pipe: kcalloc, then the live ends. *)
Definition new_pipe (a : Z) (s : sched) : pipe * sched :=
  (Pipe (replicate (Z.to_nat PIPE_CAP) 0) 0 0 0 1 1, wq_init (wwait a) (wq_init (rwait a) s)).

(** [chunk] bytes leave the ring. *)
Fixpoint ring_out (chunk : nat) (p : pipe) : option (list Z * pipe) :=
  match chunk with
  | O => Some ([], p)
  | S chunk =>
      b ← bget (buf p) (tail p);
      '(bs, p) ← ring_out chunk (with_ring (buf p) (head p) ((tail p + 1) mod PIPE_CAP) (count p) p);
      Some (b :: bs, p)
  end.

(** The bytes [bs] enter the ring. *)
Fixpoint ring_in (bs : list Z) (p : pipe) : option pipe :=
  match bs with
  | [] => Some p
  | b :: bs =>
      q ← bput (buf p) (head p) b;
      ring_in bs (with_ring q ((head p + 1) mod PIPE_CAP) (tail p) (count p) p)
  end.

(** A round of pipe_read ends the call with a result and the bytes read, or the
    thread sleeps. [got] is 0 at the start of every round: a burst ends the loop. *)
Inductive read_step := R_ret (r : Z) (bs : list Z) (p : pipe) (s : sched) | R_sleeps (p : pipe) (s : sched).

Definition pipe_read (fuel : nat) (a n : Z) (p : pipe) (s : sched) : option read_step :=
  if negb (0 <? n) then Some (R_ret 0 [] p s)
  else if count p =? 0 then
    if writers p =? 0 then Some (R_ret 0 [] p s)
    else s ← sched_wait_enter (rwait a) 0 s; Some (R_sleeps p s)
  else
    let chunk := if count p <? n then count p else n in
    '(bs, p) ← ring_out (Z.to_nat chunk) p;
    let p := with_ring (buf p) (head p) (tail p) (count p - chunk) p in
    s ← wq_wake_all fuel (wwait a) s;
    Some (R_ret chunk bs p s).

Definition pipe_read_resume (fuel : nat) (a n : Z) (p : pipe) (s : sched) : option read_step :=
  '(rc, s) ← sched_wait_leave fuel (rwait a) (current_process s) s;
  if rc =? 2 then Some (R_ret (- EINTR) [] p s) else pipe_read fuel a n p s.

(** A round of pipe_write: [put] bytes of [src] have been written before. *)
Inductive write_step := W_ret (r put : Z) (p : pipe) (s : sched) | W_sleeps (put : Z) (p : pipe) (s : sched).

(** The loop; it goes round at most twice before it ends or waits. *)
Fixpoint pipe_write (rounds fuel : nat) (a : Z) (src : list Z) (put : Z) (p : pipe) (s : sched)
  : option write_step :=
  match rounds with
  | O => None
  | S rounds =>
      let n := len src in
      if negb (put <? n) then Some (W_ret put put p s)
      else if readers p =? 0 then
        let s := if truth (current_process s) then (signal_send (current_process s) SIGPIPE s).2 else s in
        Some (W_ret (if truth put then put else - EPIPE) put p s)
      else if count p =? PIPE_CAP then
        s ← sched_wait_enter (wwait a) 0 s; Some (W_sleeps put p s)
      else
        let space := PIPE_CAP - count p in
        let chunk := if space <? n - put then space else n - put in
        bs ← bsub src put chunk;
        p ← ring_in bs p;
        let p := with_ring (buf p) (head p) (tail p) (count p + chunk) p in
        s ← wq_wake_all fuel (rwait a) s;
        pipe_write rounds fuel a src (put + chunk) p s
  end.

Definition pipe_write_resume (fuel : nat) (a : Z) (src : list Z) (put : Z) (p : pipe) (s : sched)
  : option write_step :=
  '(rc, s) ← sched_wait_leave fuel (wwait a) (current_process s) s;
  if rc =? 2 then Some (W_ret (if truth put then put else - EINTR) put p s)
  else pipe_write 3 fuel a src put p s.

Definition O_WRONLY : Z := 1.

Definition pipe_detach (fuel : nat) (a access : Z) (p : pipe) (s : sched) : option (pipe * sched) :=
  let p := if access =? O_WRONLY
           then Pipe (buf p) (head p) (tail p) (count p) (readers p)
                  (if truth (writers p) then s32 (writers p - 1) else writers p)
           else Pipe (buf p) (head p) (tail p) (count p)
                  (if truth (readers p) then s32 (readers p - 1) else readers p) (writers p) in
  s ← wq_wake_all fuel (rwait a) s;
  s ← wq_wake_all fuel (wwait a) s;
  Some (p, s).

(** * The pipe as a queue *)

Definition contents (p : pipe) : list Z := ring (buf p) (tail p) (count p).

Record pipe_wf (p : pipe) : Prop := {
  pw_buf : len (buf p) = PIPE_CAP;
  pw_tail : 0 <= tail p < PIPE_CAP;
  pw_count : 0 <= count p <= PIPE_CAP;
  pw_head : head p = (tail p + count p) mod PIPE_CAP;
}.

(** The ring while bytes enter: [m] bytes are in it. *)
Lemma ring_in_spec bs p m :
  len (buf p) = PIPE_CAP -> 0 <= tail p < PIPE_CAP -> 0 <= m -> m + len bs <= PIPE_CAP ->
  head p = (tail p + m) mod PIPE_CAP ->
  exists p', ring_in bs p = Some p' /\ len (buf p') = PIPE_CAP /\ tail p' = tail p /\ count p' = count p
    /\ head p' = (tail p + (m + len bs)) mod PIPE_CAP
    /\ ring (buf p') (tail p) (m + len bs) = ring (buf p) (tail p) m ++ bs
    /\ readers p' = readers p /\ writers p' = writers p.
Proof.
  revert p m. induction bs as [|b bs IH]; intros p m Hb Ht Hm Hl Hh; cbn [ring_in].
  - exists p. change (len (@nil Z)) with 0. rewrite Z.add_0_r, app_nil_r. by split_and!.
  - rewrite len_cons in *. pose proof (len_nonneg bs).
    assert (Hr : 0 <= head p < PIPE_CAP) by (rewrite Hh; apply Z.mod_pos_bound; done).
    rewrite bput_some by lia. cbn [mbind option_bind].
    edestruct (IH (with_ring (<[Z.to_nat (head p) := b]> (buf p)) ((head p + 1) mod PIPE_CAP) (tail p) (count p) p) (m + 1))
      as (p' & E & H1 & H2 & H3 & H4 & H5 & H6 & H7); cbn; try done; [|lia|lia| |].
    { unfold len. by rewrite length_insert. }
    { rewrite Hh, Zplus_mod_idemp_l. f_equal. lia. }
    exists p'. cbn in *. replace (m + (1 + len bs)) with (m + 1 + len bs) by lia. split_and!; try done.
    rewrite H5, Hh, <- Hb, ring_push by lia. by rewrite <- app_assoc.
Qed.

Lemma ring_out_spec k p m :
  len (buf p) = PIPE_CAP -> 0 <= tail p < PIPE_CAP -> Z.of_nat k <= m <= PIPE_CAP ->
  exists p', ring_out k p = Some (take k (ring (buf p) (tail p) m), p') /\ buf p' = buf p /\ head p' = head p
    /\ tail p' = (tail p + Z.of_nat k) mod PIPE_CAP /\ count p' = count p
    /\ ring (buf p) (tail p') (m - Z.of_nat k) = drop k (ring (buf p) (tail p) m)
    /\ readers p' = readers p /\ writers p' = writers p.
Proof.
  revert p m. induction k as [|k IH]; intros p m Hb Ht Hm; cbn [ring_out].
  - exists p. rewrite take_0, drop_0, Z.sub_0_r, Z.add_0_r, Z.mod_small by done. by split_and!.
  - rewrite bget_some by lia. cbn [mbind option_bind].
    edestruct (IH (with_ring (buf p) (head p) ((tail p + 1) mod PIPE_CAP) (count p) p) (m - 1))
      as (p' & E & H1 & H2 & H3 & H4 & H5 & H6 & H7); cbn; try done; [apply Z.mod_pos_bound; done|lia|].
    rewrite E. cbn [mbind option_bind]. cbn in *. exists p'.
    rewrite (ring_pop (buf p) (tail p) m) by lia. rewrite Hb, (Z.mod_small (tail p)) by done. cbn [take drop].
    split_and!; try done.
    + rewrite H3, Zplus_mod_idemp_l. f_equal. lia.
    + rewrite <- H5. f_equal. lia.
Qed.

Lemma len_contents p : pipe_wf p -> len (contents p) = count p.
Proof. intros []. unfold contents. apply len_ring. lia. Qed.

Lemma pipe_read_spec fuel a n p s w :
  pipe_wf p -> pipe_read fuel a n p s = Some w ->
  match w with
  | R_ret r bs p' s' =>
      pipe_wf p' /\ contents p = bs ++ contents p' /\ r = len bs
      /\ (0 < n -> bs = [] -> contents p = [] /\ writers p = 0)
  | R_sleeps p' s' => p' = p /\ contents p = [] /\ writers p <> 0
  end.
Proof.
  intros Hw. pose proof Hw as []. unfold pipe_read.
  destruct (Z.ltb_spec 0 n) as [Hn|Hn]; cbn [negb]; [|intros [= <-]; split_and!; [done..|lia]].
  destruct (Z.eqb_spec (count p) 0) as [Ec|Ec].
  - assert (Ep : contents p = []) by (unfold contents; by rewrite Ec).
    destruct (Z.eqb_spec (writers p) 0) as [Ew|Ew]; [intros [= <-]; by rewrite Ep|].
    intros (s' & _ & [= <-])%bind_Some. done.
  - set (chunk := if count p <? n then count p else n).
    assert (Hc : 0 < chunk <= count p) by (unfold chunk; zcase; lia).
    destruct (ring_out_spec (Z.to_nat chunk) p (count p)) as (p1 & -> & H1 & H2 & H3 & H4 & H5 & H6 & H7);
      [done|done|lia|]. rewrite Z2Nat.id in * by lia. cbn [mbind option_bind].
    intros (s' & _ & [= <-])%bind_Some. fold (contents p) in *.
    assert (Hl : len (take (Z.to_nat chunk) (contents p)) = chunk)
      by (apply (len_ztake chunk); rewrite len_contents by done; lia).
    split_and!.
    + constructor; cbn; rewrite ?H1, ?H2, ?H3, ?H4.
      * done.
      * apply Z.mod_pos_bound. done.
      * lia.
      * rewrite pw_head0, Zplus_mod_idemp_l. f_equal. lia.
    + unfold contents at 3. cbn. rewrite H1, H4, H5. symmetry. apply take_drop.
    + done.
    + intros _ E. rewrite E in Hl. change (len (@nil Z)) with 0 in Hl. lia.
Qed.

(** The bytes of [src] from [put] to [put']. *)
Definition part (src : list Z) (put put' : Z) : list Z := ztake (put' - put) (zdrop put src).

Lemma part_nil src i : part src i i = [].
Proof. unfold part. by rewrite Z.sub_diag. Qed.

Lemma part_app src i j k : 0 <= i <= j -> j <= k -> part src i j ++ part src j k = part src i k.
Proof.
  intros Hi Hj. unfold part, ztake, zdrop.
  replace (Z.to_nat (k - i)) with (Z.to_nat (j - i) + Z.to_nat (k - j))%nat by lia.
  rewrite <- take_take_drop, drop_drop. do 3 f_equal. lia.
Qed.

Lemma pipe_write_spec rounds fuel a src put p s w :
  pipe_wf p -> 0 <= put <= len src -> pipe_write rounds fuel a src put p s = Some w ->
  match w with
  | W_ret _ put' p' s' | W_sleeps put' p' s' =>
      pipe_wf p' /\ put <= put' <= len src /\ contents p' = contents p ++ part src put put'
  end.
Proof.
  revert put p s. induction rounds as [|rounds IH]; intros put p s Hw Hp; cbn [pipe_write]; [done|].
  pose proof Hw as []. destruct (Z.ltb_spec put (len src)) as [Hl|Hl]; cbn [negb].
  2: { intros [= <-]. rewrite part_nil, app_nil_r. split_and!; [done|lia..|done]. }
  destruct (readers p =? 0).
  { intros [= <-]. rewrite part_nil, app_nil_r. split_and!; [done|lia..|done]. }
  destruct (Z.eqb_spec (count p) PIPE_CAP) as [Ec|Ec].
  { intros (s' & _ & [= <-])%bind_Some. rewrite part_nil, app_nil_r. split_and!; [done|lia..|done]. }
  set (chunk := if PIPE_CAP - count p <? len src - put then PIPE_CAP - count p else len src - put).
  assert (Hc : 0 < chunk <= PIPE_CAP - count p /\ put + chunk <= len src) by (unfold chunk; zcase; lia).
  rewrite bsub_some by lia. cbn [mbind option_bind].
  assert (Hs : len (ztake chunk (zdrop put src)) = chunk) by (apply len_ztake; rewrite len_zdrop; lia).
  destruct (ring_in_spec (ztake chunk (zdrop put src)) p (count p))
    as (p1 & -> & H1 & H2 & H3 & H4 & H5 & H6 & H7); [done|done|lia|lia|done|].
  rewrite Hs in *. cbn [mbind option_bind]. intros (s1 & _ & H)%bind_Some.
  apply IH in H; [|constructor; cbn; rewrite ?H2, ?H3, ?H4; done || lia|lia].
  assert (E : contents (with_ring (buf p1) (head p1) (tail p1) (count p1 + chunk) p1) = contents p ++ part src put (put + chunk)).
  { unfold contents at 1. cbn. rewrite H2, H3, H5. unfold part. do 2 f_equal. lia. }
  rewrite E in H. destruct w; (destruct H as (G1 & G2 & G3); split_and!; [done|lia..|]);
    rewrite G3, <- app_assoc, part_app by lia; done.
Qed.

(** Three rounds are enough: after a chunk either all is written or the ring is
    full, and then the loop ends or waits. *)
Lemma pipe_write_rounds rounds fuel a src put p s :
  pipe_wf p -> 0 <= put -> pipe_write (3 + rounds) fuel a src put p s = pipe_write 3 fuel a src put p s.
Proof.
  intros Hw Hp. pose proof Hw as []. change (3 + rounds)%nat with (S (S (S rounds))). cbn [pipe_write].
  destruct (Z.ltb_spec put (len src)) as [Hl|Hl]; cbn [negb]; [|done].
  destruct (readers p =? 0) eqn:Er; [done|]. destruct (Z.eqb_spec (count p) PIPE_CAP) as [Ec|Ec]; [done|].
  set (chunk := if PIPE_CAP - count p <? len src - put then PIPE_CAP - count p else len src - put).
  assert (Hc : chunk = len src - put \/ chunk = PIPE_CAP - count p) by (unfold chunk; zcase; auto).
  assert (Hc' : 0 < chunk /\ put + chunk <= len src /\ chunk <= PIPE_CAP - count p) by (unfold chunk; zcase; lia).
  rewrite bsub_some by lia. cbn [mbind option_bind].
  assert (Hs : len (ztake chunk (zdrop put src)) = chunk) by (apply len_ztake; rewrite len_zdrop; lia).
  destruct (ring_in_spec (ztake chunk (zdrop put src)) p (count p))
    as (p1 & -> & H1 & H2 & H3 & H4 & H5 & H6 & H7); [done|done|lia|lia|done|]. cbn [mbind option_bind].
  destruct (wq_wake_all fuel (rwait a) s) as [s1|]; [|done]. cbn. rewrite H3, H6, Er.
  destruct (Z.ltb_spec (put + chunk) (len src)) as [Hl2|]; cbn [negb]; [|done].
  destruct Hc as [Hc|Hc]; [lia|]. rewrite Hc. replace (count p + (PIPE_CAP - count p)) with PIPE_CAP by lia.
  by rewrite Z.eqb_refl.
Qed.

(** A step of the pipe at [a], with the bytes the writers have put in and those
    the readers have taken out so far. *)
Inductive pipe_step (a : Z) : pipe * sched * (list Z * list Z) -> pipe * sched * (list Z * list Z) -> Prop :=
| PS_read fuel n p s w g r bs p' s' :
    pipe_read fuel a n p s = Some (R_ret r bs p' s') -> pipe_step a (p, s, (w, g)) (p', s', (w, g ++ bs))
| PS_read_sleeps fuel n p s h p' s' :
    pipe_read fuel a n p s = Some (R_sleeps p' s') -> pipe_step a (p, s, h) (p', s', h)
| PS_write fuel src put p s w g r put' p' s' :
    pipe_write 3 fuel a src put p s = Some (W_ret r put' p' s') -> 0 <= put <= len src ->
    pipe_step a (p, s, (w, g)) (p', s', (w ++ part src put put', g))
| PS_write_sleeps fuel src put p s w g put' p' s' :
    pipe_write 3 fuel a src put p s = Some (W_sleeps put' p' s') -> 0 <= put <= len src ->
    pipe_step a (p, s, (w, g)) (p', s', (w ++ part src put put', g))
| PS_detach fuel access p s h p' s' :
    pipe_detach fuel a access p s = Some (p', s') -> pipe_step a (p, s, h) (p', s', h)
| PS_env p s h s' : env_step s s' -> pipe_step a (p, s, h) (p, s', h).

Definition pipe_inv (x : pipe * sched * (list Z * list Z)) : Prop :=
  let '(p, _, (w, g)) := x in pipe_wf p /\ w = g ++ contents p.

Lemma pipe_step_inv a x y : pipe_inv x -> pipe_step a x y -> pipe_inv y.
Proof.
  intros H Hs. destruct Hs as [fuel n p s w g r bs p' s' E|fuel n p s [w g] p' s' E|fuel src put p s w g r put' p' s' E Hp
    |fuel src put p s w g put' p' s' E Hp|fuel access p s [w g] p' s' E|p s [w g] s' E]; destruct H as [Hw Hq].
  - apply pipe_read_spec in E as (H1 & H2 & _); [|done]. split; [done|]. by rewrite Hq, H2, <- app_assoc.
  - by apply pipe_read_spec in E as (-> & _).
  - apply pipe_write_spec in E as (H1 & _ & H2); [|done|done]. split; [done|]. by rewrite Hq, H2, <- app_assoc.
  - apply pipe_write_spec in E as (H1 & _ & H2); [|done|done]. split; [done|]. by rewrite Hq, H2, <- app_assoc.
  - revert E. unfold pipe_detach. intros (s1 & _ & (s2 & _ & [= <- _])%bind_Some)%bind_Some.
    destruct Hw. by destruct (access =? O_WRONLY).
  - done.
Qed.

(** C8: a pipe carries bytes in order. From its creation on, after any interleaving
    of rounds of readers and writers, closings of ends and scheduler steps, the
    bytes that were read followed by those in the ring are exactly the bytes that
    were accepted from the writers: none is lost, repeated or reordered, and at
    most 4096 are on the way. A read that asks for bytes and gets none has found
    the pipe empty with no writer left. *)
Theorem pipe_fifo a s0 p s w g :
  rtc (pipe_step a) (new_pipe a s0, ([], [])) (p, s, (w, g)) ->
  w = g ++ contents p /\ len (contents p) <= PIPE_CAP
  /\ (forall fuel n p' s', 0 < n -> pipe_read fuel a n p s = Some (R_ret 0 [] p' s') -> w = g /\ writers p = 0).
Proof.
  intros Hr. apply (rtc_invariant _ pipe_inv) in Hr.
  - destruct Hr as [Hw Hq]. split_and!; [done|rewrite len_contents by done; apply Hw|].
    intros fuel n p' s' Hn E. apply pipe_read_spec in E as (_ & _ & _ & E); [|done].
    destruct (E Hn eq_refl) as [E1 E2]. split; [|done]. by rewrite Hq, E1, app_nil_r.
  - intros x y. apply pipe_step_inv.
  - split; [|done]. constructor; cbn [buf head tail count]; [|done..]. unfold len. by rewrite length_replicate.
Qed.

(** ** Witness *)

Definition demo_pipe : pipe * sched := new_pipe 9600 demo_runs_3000.

Definition wret (w : option write_step) (d : pipe * sched) : pipe * sched :=
  match w with Some (W_ret _ _ p s) | Some (W_sleeps _ p s) => (p, s) | None => d end.
Definition wanswers (w : option write_step) (r put : Z) : bool :=
  match w with Some (W_ret r' put' _ _) => (r' =? r) && (put' =? put) | _ => false end.

Lemma wret_eq w r put d : wanswers w r put = true -> w = Some (W_ret r put (wret w d).1 (wret w d).2).
Proof. destruct w as [[r' put' p s|]|]; cbn; [|done..]. rewrite andb_true_iff. by intros [->%Z.eqb_eq ->%Z.eqb_eq]. Qed.

Definition demo_written : pipe * sched := wret (pipe_write 3 1 9600 [1; 2; 3] 0 demo_pipe.1 demo_pipe.2) demo_pipe.

Lemma pipe_fifo_witness : contents demo_written.1 = [1; 2; 3].
Proof.
  destruct (pipe_fifo 9600 demo_runs_3000 demo_written.1 demo_written.2 [1; 2; 3] []) as (H & _ & _).
  - apply rtc_once.
    pose proof (PS_write 9600 1 [1; 2; 3] 0 demo_pipe.1 demo_pipe.2 [] [] 3 3 demo_written.1 demo_written.2) as Hst.
    apply Hst; [|done]. apply wret_eq. vm_compute. reflexivity.
  - symmetry. exact H.
Defined.
