(* ===== verification/Tmpfs.v ===== *)
(** The RAM file system, [kernel/fs/tmpfs.c], over a store of vnodes.

    Objects are addresses: vnodes, the child list of a directory (tmpfs_dir_t with
    its dirents) and the buffer of a file (tmpfs_file_t with its data) are maps
    from addresses, and an access to an object that is not there, or outside a
    buffer, is [None]. What kcalloc and krealloc return is an argument: an address
    (0 when they fail), or the bytes behind the old ones in the grown buffer.
    Names are strings without their NUL. *)

From stdpp Require Import base numbers list gmap.
From Stdlib Require Import ZArith Lia.
From S2P Require Import Prelude Buf.

Definition VFS_NAME_MAX : Z := 63.

Inductive vtype := VNODE_NONE | VNODE_REG | VNODE_DIR | VNODE_CHR | VNODE_FIFO | VNODE_LNK | VNODE_SOCK.

#[export] Instance vtype_eq_dec : EqDecision vtype.
Proof. solve_decision. Defined.

(** [v_ops]: the address of the table of operations. *)
Record vnode := Vnode {
  v_type : vtype; v_ops : Z; v_priv : Z; v_size : Z; v_refcount : Z; v_mode : Z; v_mounted : Z
}.

Record dirent := Dirent { d_id : Z; d_name : list Z; d_vnode : Z }.
Record tmpfs_file := Tfile { t_data : list Z; t_cap : Z }.

Record fs := Fs {
  vnodes : gmap Z vnode;
  dirs : gmap Z (list dirent);
  tfiles : gmap Z tmpfs_file;
  root_vnode : Z
}.

(** &tmpfs_ops. *)
Definition TMPFS_OPS : Z := 1.

Definition set_vnode (a : Z) (v : vnode) (s : fs) : fs :=
  Fs (<[a := v]> (vnodes s)) (dirs s) (tfiles s) (root_vnode s).
Definition set_dir (a : Z) (l : list dirent) (s : fs) : fs :=
  Fs (vnodes s) (<[a := l]> (dirs s)) (tfiles s) (root_vnode s).
Definition set_tfile (a : Z) (f : tmpfs_file) (s : fs) : fs :=
  Fs (vnodes s) (dirs s) (<[a := f]> (tfiles s)) (root_vnode s).
Definition free_vnode_obj (a : Z) (s : fs) : fs := Fs (delete a (vnodes s)) (dirs s) (tfiles s) (root_vnode s).
Definition free_dir_obj (a : Z) (s : fs) : fs := Fs (vnodes s) (delete a (dirs s)) (tfiles s) (root_vnode s).
Definition free_tfile_obj (a : Z) (s : fs) : fs := Fs (vnodes s) (dirs s) (delete a (tfiles s)) (root_vnode s).

Definition with_size (n : Z) (v : vnode) : vnode :=
  Vnode (v_type v) (v_ops v) (v_priv v) n (v_refcount v) (v_mode v) (v_mounted v).
Definition with_refcount (n : Z) (v : vnode) : vnode :=
  Vnode (v_type v) (v_ops v) (v_priv v) (v_size v) n (v_mode v) (v_mounted v).

Definition is_type (t : vtype) (v : vnode) : bool := bool_decide (v_type v = t).

(** The buffer of a regular file or the target of a symlink. *)
Definition has_buffer (v : vnode) : bool := is_type VNODE_REG v || is_type VNODE_LNK v.

(** [vn] and [priv]: what the two calls of kcalloc return. *)
Definition mk_vnode (type : vtype) (vn priv : Z) (s : fs) : Z * fs :=
  if vn =? 0 then (0, s) else
  match type with
  | VNODE_DIR =>
      if priv =? 0 then (0, s) else
      (vn, set_vnode vn (Vnode type TMPFS_OPS priv 0 0 0 0) (set_dir priv [] s))
  | VNODE_REG | VNODE_LNK =>
      if priv =? 0 then (0, s) else
      (vn, set_vnode vn (Vnode type TMPFS_OPS priv 0 0 0 0) (set_tfile priv (Tfile [] 0) s))
  | VNODE_CHR => (vn, set_vnode vn (Vnode type TMPFS_OPS 0 0 0 0 0) s)
  | _ => (0, s)
  end.

Definition same_name (a b : list Z) : bool := bool_decide (a = b).

(** The first entry of that name. *)
Definition find_entry (name : list Z) (l : list dirent) : option dirent :=
  snd <$> list_find (fun e => same_name (d_name e) name = true) l.

Definition tmpfs_lookup (dir : Z) (name : list Z) (s : fs) : option Z :=
  d ← vnodes s !! dir;
  if negb (is_type VNODE_DIR d) then Some 0 else
  l ← dirs s !! v_priv d;
  Some (match find_entry name l with Some e => d_vnode e | None => 0 end).

(** The copy of at most VFS_NAME_MAX characters. *)
Definition clip_name (name : list Z) : list Z := ztake VFS_NAME_MAX name.

(** [e]: what kcalloc returns. *)
Definition tmpfs_link (dir : Z) (name : list Z) (child e : Z) (s : fs) : option (Z * fs) :=
  if dir =? 0 then Some (0, s) else
  d ← vnodes s !! dir;
  if negb (is_type VNODE_DIR d) || (child =? 0) then Some (0, s)
  else if e =? 0 then Some (0, s) else
  l ← dirs s !! v_priv d;
  let s := set_dir (v_priv d) (Dirent e (clip_name name) child :: l) s in
  c ← vnodes s !! child;
  Some (child, set_vnode child (with_refcount (u32 (v_refcount c + 1)) c) s).

(** kfree(vn->priv); kfree(vn) of a vnode that mk_vnode has just built. *)
Definition unmake (vn : Z) (s : fs) : option fs :=
  v ← vnodes s !! vn;
  let s := if has_buffer v then free_tfile_obj (v_priv v) s
           else if is_type VNODE_DIR v then free_dir_obj (v_priv v) s else s in
  Some (free_vnode_obj vn s).

Definition tmpfs_create (dir : Z) (name : list Z) (type : vtype) (vn priv e : Z) (s : fs) : option (Z * fs) :=
  x ← tmpfs_lookup dir name s;
  if truth x then Some (0, s) else
  let '(vn, s) := mk_vnode type vn priv s in
  if vn =? 0 then Some (0, s) else
  '(r, s) ← tmpfs_link dir name vn e s;
  if r =? 0 then s ← unmake vn s; Some (0, s) else Some (vn, s).

(** The result and the name, at most [cap - 1] characters of it. *)
Definition tmpfs_readdir (dir index cap : Z) (s : fs) : option (Z * list Z) :=
  d ← vnodes s !! dir;
  if negb (is_type VNODE_DIR d) || (cap =? 0) then Some (-1, []) else
  l ← dirs s !! v_priv d;
  Some (match l !! Z.to_nat index with
        | Some e => (0, ztake (cap - 1) (d_name e))
        | None => (-1, [])
        end).

(** * Files *)

Definition tmpfs_read (vn n off : Z) (s : fs) : option (Z * list Z) :=
  v ← vnodes s !! vn;
  if negb (is_type VNODE_REG v) then Some (- EINVAL, [])
  else if v_size v <=? off then Some (0, []) else
  let avail := v_size v - off in
  let n := if avail <? n then avail else n in
  f ← tfiles s !! v_priv v;
  bs ← bsub (t_data f) off n;
  Some (n, bs).

(** [while (ncap < end) ncap *= 2], on 64 bits. *)
Fixpoint grow (fuel : nat) (ncap e : Z) : option Z :=
  match fuel with
  | O => None
  | S fuel => if ncap <? e then grow fuel (u64 (ncap * 2)) e else Some ncap
  end.

(** krealloc to [ncap] bytes: the old bytes and [junk ncap] behind them. *)
Definition regrow (f : tmpfs_file) (ncap : Z) (junk : Z -> option (list Z)) : option tmpfs_file :=
  tl ← junk ncap; Some (Tfile (ztake ncap (t_data f ++ tl)) ncap).

Definition tmpfs_write (fuel : nat) (junk : Z -> option (list Z)) (vn : Z) (bs : list Z) (off : Z) (s : fs)
  : option (Z * fs) :=
  v ← vnodes s !! vn;
  if negb (is_type VNODE_REG v) then Some (- EINVAL, s) else
  f ← tfiles s !! v_priv v;
  let e := u64 (off + len bs) in
  g ← (if t_cap f <? e
       then ncap ← grow fuel (if truth (t_cap f) then t_cap f else 64) e; Some (regrow f ncap junk)
       else Some (Some f));
  match g with
  | None => Some (- ENOMEM, s)
  | Some f =>
      d ← (if v_size v <? off
           then bblit (t_data f) (v_size v) (replicate (Z.to_nat (off - v_size v)) 0) else Some (t_data f));
      d ← bblit d off bs;
      let s := set_tfile (v_priv v) (Tfile d (t_cap f)) s in
      let s := if v_size v <? e then set_vnode vn (with_size e v) s else s in
      Some (len bs, s)
  end.

Definition tmpfs_truncate (vn n : Z) (s : fs) : option (Z * fs) :=
  v ← vnodes s !! vn;
  if negb (is_type VNODE_REG v) then Some (- EINVAL, s) else Some (0, set_vnode vn (with_size n v) s).

(** * Symlinks *)

(** The target is stored with its NUL. [data]: what kmalloc returns (0: failure). *)
Definition tmpfs_symlink (dir : Z) (name target : list Z) (vn priv data e : Z) (s : fs) : option (Z * fs) :=
  x ← tmpfs_lookup dir name s;
  if truth x then Some (0, s) else
  let '(vn, s) := mk_vnode VNODE_LNK vn priv s in
  if vn =? 0 then Some (0, s) else
  if data =? 0 then s ← unmake vn s; Some (0, s) else
  v ← vnodes s !! vn;
  let s := set_tfile (v_priv v) (Tfile (target ++ [0]) (len target + 1)) s in
  let s := set_vnode vn (with_size (len target) v) s in
  '(r, s) ← tmpfs_link dir name vn e s;
  if r =? 0 then s ← unmake vn s; Some (0, s) else Some (vn, s).

(** The result and the string stored in a buffer of [sz] bytes. *)
Definition tmpfs_readlink (vn sz : Z) (s : fs) : option (Z * list Z) :=
  v ← vnodes s !! vn;
  if negb (is_type VNODE_LNK v) || (v_priv v =? 0) || (sz =? 0) then Some (-1, []) else
  f ← tfiles s !! v_priv v;
  let n := if sz <=? v_size v then sz - 1 else v_size v in
  bs ← bsub (t_data f) 0 n;
  Some (n, bs).

(** * Removal and renaming *)

Definition free_vnode (vn : Z) (s : fs) : option fs :=
  if vn =? 0 then Some s else
  v ← vnodes s !! vn;
  let s := if has_buffer v && truth (v_priv v) then free_tfile_obj (v_priv v) s
           else if is_type VNODE_DIR v && truth (v_priv v) then free_dir_obj (v_priv v) s else s in
  Some (free_vnode_obj vn s).

(** A directory with children. *)
Definition is_full_dir (v : vnode) (s : fs) : option bool :=
  if is_type VNODE_DIR v then l ← dirs s !! v_priv v; Some (negb (bool_decide (l = []))) else Some false.

Definition drop_entry (id : Z) (l : list dirent) : list dirent := List.filter (fun e => negb (d_id e =? id)) l.

Definition tmpfs_unlink (dir : Z) (name : list Z) (s : fs) : option (Z * fs) :=
  d ← vnodes s !! dir;
  if negb (is_type VNODE_DIR d) then Some (- ENOTDIR, s) else
  l ← dirs s !! v_priv d;
  match find_entry name l with
  | None => Some (- ENOENT, s)
  | Some e =>
      v ← vnodes s !! d_vnode e;
      full ← is_full_dir v s;
      if full : bool then Some (- ENOTEMPTY, s) else
      let s := set_dir (v_priv d) (drop_entry (d_id e) l) s in
      let rc := if truth (v_refcount v) then u32 (v_refcount v - 1) else v_refcount v in
      let s := set_vnode (d_vnode e) (with_refcount rc v) s in
      s ← (if rc =? 0 then free_vnode (d_vnode e) s else Some s);
      Some (0, s)
  end.

Definition tmpfs_rename (olddir : Z) (oldname : list Z) (newdir : Z) (newname : list Z) (s : fs)
  : option (Z * fs) :=
  od ← vnodes s !! olddir;
  nd ← vnodes s !! newdir;
  if negb (is_type VNODE_DIR od) || negb (is_type VNODE_DIR nd) then Some (- ENOTDIR, s) else
  ol ← dirs s !! v_priv od;
  match find_entry oldname ol with
  | None => Some (- ENOENT, s)
  | Some src =>
      dst ← tmpfs_lookup newdir newname s;
      if truth dst && (dst =? d_vnode src) then Some (0, s) else
      (* an existing destination goes first *)
      '(rc, s) ← (if truth dst then
                    dv ← vnodes s !! dst;
                    full ← is_full_dir dv s;
                    if full : bool then Some (- ENOTEMPTY, s) else tmpfs_unlink newdir newname s
                  else Some (0, s));
      if rc <? 0 then Some (rc, s) else
      ol ← dirs s !! v_priv od;
      if negb (existsb (fun e => d_id e =? d_id src) ol) then Some (- ENOENT, s) else
      let s := set_dir (v_priv od) (drop_entry (d_id src) ol) s in
      nl ← dirs s !! v_priv nd;
      let s := set_dir (v_priv nd) (Dirent (d_id src) (clip_name newname) (d_vnode src) :: nl) s in
      Some (0, s)
  end.

Definition tmpfs_create_root (vn priv : Z) (s : fs) : option (Z * fs) :=
  let '(root, s) := mk_vnode VNODE_DIR vn priv s in
  if root =? 0 then Some (0, s) else
  v ← vnodes s !! root;
  Some (root, set_vnode root (with_refcount 1 v) s).

(** * The contents of a file *)

(** [v] is a regular file with buffer [f]: the buffer has its capacity, and the
    size is within it. *)
Record file_ok (v : vnode) (f : tmpfs_file) : Prop := {
  fo_cap : len (t_data f) = t_cap f;
  fo_size : 0 <= v_size v <= t_cap f;
}.

Definition file_at (s : fs) (vn : Z) (v : vnode) (f : tmpfs_file) : Prop :=
  vnodes s !! vn = Some v /\ v_type v = VNODE_REG /\ tfiles s !! v_priv v = Some f /\ file_ok v f.

Definition content (v : vnode) (f : tmpfs_file) : list Z := ztake (v_size v) (t_data f).

(** Writing [bs] at [off] into the bytes [c]: a gap is filled with zeros. *)
Definition splice (c : list Z) (off : Z) (bs : list Z) : list Z :=
  let c := c ++ replicate (Z.to_nat (off - len c)) 0 in
  ztake off c ++ bs ++ zdrop (off + len bs) c.

Lemma len_content v f : file_ok v f -> len (content v f) = v_size v.
Proof. intros []. unfold content. apply len_ztake. lia. Qed.

(** The doubling ends when no product leaves 64 bits. *)
Lemma grow_spec fuel ncap e :
  0 < ncap -> e <= 2 ^ 63 -> e <= ncap * 2 ^ Z.of_nat fuel ->
  exists n, grow (S fuel) ncap e = Some n /\ ncap <= n /\ e <= n.
Proof.
  revert ncap. induction fuel as [|fuel IH]; intros ncap Hn He Hf; cbn [grow] in *.
  - destruct (Z.ltb_spec ncap e); [lia|]. exists ncap. split_and!; [done|lia..].
  - destruct (Z.ltb_spec ncap e); [|exists ncap; split_and!; [done|lia..]].
    rewrite u64_small by lia. destruct (IH (ncap * 2)) as (n & E & H1 & H2); [lia|done| |].
    + rewrite Nat2Z.inj_succ, Z.pow_succ_r in Hf by lia. lia.
    + exists n. split_and!; [exact E|lia..].
Qed.

(** ... and not when the target is over 2^63: the capacity becomes 0 and stays 0. *)
Lemma grow_never fuel ncap e :
  2 ^ 63 < e -> ncap = 0 \/ (exists j, 0 <= j <= 63 /\ ncap = 2 ^ j) -> grow fuel ncap e = None.
Proof.
  intros He. revert ncap. induction fuel as [|fuel IH]; intros ncap Hn; cbn [grow]; [done|].
  assert (Hle : ncap <= 2 ^ 63).
  { destruct Hn as [->|(j & Hj & ->)]; [lia|]. apply Z.pow_le_mono_r; lia. }
  destruct (Z.ltb_spec ncap e); [|lia]. apply IH. destruct Hn as [->|(j & Hj & ->)]; [by left|].
  rewrite Z.mul_comm, <- Z.pow_succ_r by lia. destruct (Z.eq_dec j 63) as [->|]; [by left|].
  right. exists (Z.succ j). split; [lia|]. rewrite u64_small; [done|].
  split; [lia|]. apply Z.pow_lt_mono_r; lia.
Qed.

Lemma replicate_len n (x : Z) : 0 <= n -> len (replicate (Z.to_nat n) x) = n.
Proof. intros. unfold len. rewrite length_replicate. lia. Qed.

(** The bytes of the buffer after the gap is filled and [bs] is copied. *)
Lemma write_bytes (d : list Z) sz off bs :
  0 <= sz -> 0 <= off -> sz <= len d -> off + len bs <= len d ->
  exists d1 d2, (if sz <? off then bblit d sz (replicate (Z.to_nat (off - sz)) 0) else Some d) = Some d1
    /\ bblit d1 off bs = Some d2 /\ len d2 = len d
    /\ ztake (if sz <? off + len bs then off + len bs else sz) d2 = splice (ztake sz d) off bs.
Proof.
  intros Hs Ho Hsd Hl. pose proof (len_nonneg bs) as Hb. unfold splice. rewrite (len_ztake sz d) by lia.
  assert (Hd1 : exists d1, (if sz <? off then bblit d sz (replicate (Z.to_nat (off - sz)) 0) else Some d) = Some d1
    /\ len d1 = len d /\ ztake off d1 = ztake off (ztake sz d ++ replicate (Z.to_nat (off - sz)) 0)
    /\ (off <= sz -> d1 = d)).
  { destruct (Z.ltb_spec sz off) as [H|H].
    - rewrite bblit_some by (rewrite ?replicate_len; lia). eexists. split; [reflexivity|].
      rewrite !len_app, len_ztake, len_zdrop, replicate_len by (rewrite ?replicate_len; lia).
      split_and!; [lia| |lia]. rewrite app_assoc, ztake_app_le; [done|].
      rewrite len_app, len_ztake, replicate_len; lia.
    - exists d. replace (Z.to_nat (off - sz)) with 0%nat by lia. cbn [replicate]. rewrite app_nil_r, ztake_ztake by lia. done. }
  destruct Hd1 as (d1 & E1 & L1 & T1 & K1). rewrite <- T1. exists d1.
  rewrite (bblit_some d1) by lia. eexists. split_and!; [done|done|..].
  { rewrite !len_app, len_ztake, len_zdrop by lia. lia. }
  assert (Hlt : len (ztake off d1) = off) by (apply len_ztake; lia).
  destruct (Z.ltb_spec sz (off + len bs)) as [H|H].
  - rewrite app_assoc. rewrite (ztake_app (off + len bs)) by (rewrite len_app; lia).
    f_equal. assert (Ez : zdrop (off + len bs) (ztake sz d ++ replicate (Z.to_nat (off - sz)) 0) = []).
    { unfold zdrop. apply drop_ge. pose proof (len_app (ztake sz d) (replicate (Z.to_nat (off - sz)) 0)) as Ea.
      rewrite len_ztake in Ea by lia. unfold len in *. rewrite length_replicate in Ea. lia. }
    by rewrite Ez, app_nil_r.
  - rewrite K1 in * by lia. replace (Z.to_nat (off - sz)) with 0%nat by lia. cbn [replicate]. rewrite app_nil_r.
    rewrite !app_assoc. set (x := ztake off d ++ bs). assert (Hx : len x = off + len bs) by (unfold x; rewrite len_app; lia).
    unfold ztake, zdrop. rewrite take_app. clearbody x; unfold len in *. rewrite take_ge by lia. f_equal.
    rewrite skipn_firstn_comm. f_equal. lia.
Qed.

(** What the heap gives for a growth of [f]: nothing, or [n] bytes in all. *)
Definition junk_ok (f : tmpfs_file) (junk : Z -> option (list Z)) : Prop :=
  forall n tl, junk n = Some tl -> t_cap f + len tl = n.

(** The buffer a write works on. *)
Lemma write_buffer fuel junk v f e :
  file_ok v f -> junk_ok f junk -> 0 <= e <= 2 ^ 63 -> (64 <= fuel)%nat ->
  exists g, (if t_cap f <? e
             then ncap ← grow fuel (if truth (t_cap f) then t_cap f else 64) e; Some (regrow f ncap junk)
             else Some (Some f)) = Some g
    /\ (forall f', g = Some f' -> file_ok v f' /\ e <= t_cap f' /\ content v f' = content v f).
Proof.
  intros [Hc Hs] Hj He Hf. destruct (Z.ltb_spec (t_cap f) e) as [H|H].
  - set (n0 := if truth (t_cap f) then t_cap f else 64).
    assert (Hn0 : 0 < n0 /\ t_cap f <= n0) by (unfold n0, truth; zcase; cbn; lia).
    destruct (grow_spec (fuel - 1) n0 e) as (n & E & H1 & H2); [lia|lia| |].
    { assert (2 ^ 63 <= 2 ^ Z.of_nat (fuel - 1)) by (apply Z.pow_le_mono_r; lia). nia. }
    replace (S (fuel - 1)) with fuel in E by lia. rewrite E. cbn [mbind option_bind]. unfold regrow.
    destruct (junk n) as [tl|] eqn:Ej; cbn; [|by exists None]. eexists. split; [reflexivity|].
    intros f' [= <-]. apply Hj in Ej. assert (Ea : len (t_data f ++ tl) = n) by (rewrite len_app; lia).
    rewrite (ztake_all n) by lia. split_and!; [constructor; cbn; lia|cbn; lia|].
    unfold content. cbn. apply ztake_app_le. lia.
  - exists (Some f). split; [done|]. intros f' [= <-]. split_and!; [done|lia|done].
Qed.

Lemma write_fields fuel junk vn v f bs off s g :
  vnodes s !! vn = Some v -> v_type v = VNODE_REG -> tfiles s !! v_priv v = Some f ->
  0 <= off -> off + len bs < 2 ^ 64 ->
  (if t_cap f <? off + len bs
   then ncap ← grow fuel (if truth (t_cap f) then t_cap f else 64) (off + len bs); Some (regrow f ncap junk)
   else Some (Some f)) = Some g ->
  tmpfs_write fuel junk vn bs off s =
  match g with
  | None => Some (- ENOMEM, s)
  | Some f =>
      d ← (if v_size v <? off
           then bblit (t_data f) (v_size v) (replicate (Z.to_nat (off - v_size v)) 0) else Some (t_data f));
      d ← bblit d off bs;
      let s := set_tfile (v_priv v) (Tfile d (t_cap f)) s in
      Some (len bs, if v_size v <? off + len bs then set_vnode vn (with_size (off + len bs) v) s else s)
  end.
Proof.
  intros Hv Ht Hf Ho Hl E. pose proof (len_nonneg bs). unfold tmpfs_write. rewrite Hv. cbn [mbind option_bind].
  unfold is_type. rewrite bool_decide_true by done. cbn [negb]. rewrite Hf. cbn [mbind option_bind].
  rewrite u64_small by lia. rewrite E. done.
Qed.

(** A read of a file returns the bytes of its contents at that offset. *)
Lemma tmpfs_read_content vn v f s n o :
  file_at s vn v f -> 0 <= n -> 0 <= o ->
  tmpfs_read vn n o s = Some (len (ztake n (zdrop o (content v f))), ztake n (zdrop o (content v f))).
Proof.
  intros (A1 & A2 & A3 & A4) Hn Hoo. unfold tmpfs_read. rewrite A1. cbn [mbind option_bind].
  unfold is_type. rewrite bool_decide_true by done. cbn [negb]. pose proof (len_content v f A4) as Hlen.
  destruct (Z.leb_spec (v_size v) o) as [Hle|Hle].
  - unfold zdrop. rewrite drop_ge by (unfold len in Hlen; lia). unfold ztake. by rewrite take_nil.
  - rewrite A3. cbn [mbind option_bind]. set (k := if _ <? n then _ else n).
    assert (Hk : 0 <= k <= v_size v - o) by (unfold k; destruct (Z.ltb_spec (v_size v - o) n); lia).
    destruct A4 as [Hcap Hsz]. rewrite bsub_some by lia. cbn [mbind option_bind].
    assert (E : ztake n (zdrop o (content v f)) = ztake k (zdrop o (t_data f))).
    { unfold content, ztake, zdrop in *. rewrite skipn_firstn_comm, take_take. f_equal.
      unfold k. destruct (Z.ltb_spec (v_size v - o) n); lia. }
    rewrite E, len_ztake; [done|]. rewrite len_zdrop; lia.
Qed.

(** C17: a write to a regular file either fails for want of memory and changes
    nothing, or takes all the bytes: the contents are then the old ones with the
    bytes put at the offset, a gap filled with zeros; a read at any offset returns
    the bytes of the contents there, and none past their end. The size stays
    within the buffer, and nothing else of the file system changes. *)
Theorem tmpfs_write_read fuel junk vn v f bs off s :
  file_at s vn v f -> junk_ok f junk -> 0 <= off -> off + len bs <= 2 ^ 63 -> (64 <= fuel)%nat ->
  tmpfs_write fuel junk vn bs off s = Some (- ENOMEM, s)
  \/ exists s' v' f', tmpfs_write fuel junk vn bs off s = Some (len bs, s')
       /\ file_at s' vn v' f' /\ content v' f' = splice (content v f) off bs
       /\ (forall n o, 0 <= n -> 0 <= o ->
             let r := ztake n (zdrop o (splice (content v f) off bs)) in tmpfs_read vn n o s' = Some (len r, r))
       /\ dirs s' = dirs s /\ (forall a, a <> vn -> vnodes s' !! a = vnodes s !! a).
Proof.
  intros (Hv & Ht & Hf & Hok) Hj Ho Hl Hfuel. pose proof (len_nonneg bs) as Hb.
  destruct (write_buffer fuel junk v f (off + len bs) Hok Hj) as (g & Eg & Hg); [lia|done|].
  rewrite (write_fields fuel junk vn v f bs off s g) by (done || lia).
  destruct g as [f1|]; [right|by left]. destruct (Hg f1 eq_refl) as ([Hc1 Hs1] & He1 & Hc).
  destruct (write_bytes (t_data f1) (v_size v) off bs) as (d1 & d2 & -> & E2 & L2 & T2); [lia..|].
  cbn [mbind option_bind]. rewrite E2. cbn [mbind option_bind].
  set (e := if v_size v <? off + len bs then off + len bs else v_size v) in *.
  set (v' := with_size e v). set (f' := Tfile d2 (t_cap f1)). clear Eg Hg.
  set (s' := if v_size v <? off + len bs then set_vnode vn (with_size (off + len bs) v) (set_tfile (v_priv v) f' s)
             else set_tfile (v_priv v) f' s). exists s', v', f'. split; [reflexivity|].
  assert (Hct : content v' f' = splice (content v f) off bs).
  { unfold content at 1. cbn. rewrite T2. unfold content in Hc. by rewrite Hc. }
  assert (Hat : file_at s' vn v' f').
  { unfold s', v', e. split_and!.
    - destruct (v_size v <? off + len bs); cbn; [apply lookup_insert_eq|]. rewrite Hv. by destruct v.
    - done.
    - cbn. destruct (v_size v <? off + len bs); cbn; apply lookup_insert_eq.
    - constructor; cbn; [congruence|]. destruct (Z.ltb_spec (v_size v) (off + len bs)); lia. }
  split_and!; [exact Hat|exact Hct| |by unfold s'; destruct (v_size v <? off + len bs)|].
  - intros n o Hn Hoo. cbn zeta. rewrite <- Hct. by apply tmpfs_read_content.
  - intros a Ha. unfold s'. destruct (v_size v <? off + len bs); cbn; [by rewrite lookup_insert_ne|done].
Qed.

(** A write that ends beyond 2^63, which lseek allows, never returns: the
    doubling of the capacity overflows to 0 and the loop [while (ncap < end)]
    runs forever, whatever number of rounds it is given. *)
Theorem tmpfs_write_hangs junk vn v f bs off s :
  file_at s vn v f -> t_cap f = 0 \/ (exists j, 0 <= j <= 63 /\ t_cap f = 2 ^ j) ->
  0 <= off < 2 ^ 63 -> 2 ^ 63 < off + len bs < 2 ^ 64 ->
  forall fuel, tmpfs_write fuel junk vn bs off s = None.
Proof.
  intros (Hv & Ht & Hf & _) Hcap Ho Hl fuel. unfold tmpfs_write. rewrite Hv. cbn [mbind option_bind].
  unfold is_type. rewrite bool_decide_true by done. cbn [negb]. rewrite Hf. cbn [mbind option_bind].
  rewrite u64_small by lia.
  assert (Hle : t_cap f <= 2 ^ 63).
  { destruct Hcap as [->|(j & Hj & ->)]; [lia|]. apply Z.pow_le_mono_r; lia. }
  destruct (Z.ltb_spec (t_cap f) (off + len bs)) as [_|]; [|lia].
  rewrite grow_never; [done|lia|]. unfold truth. destruct (Z.eqb_spec (t_cap f) 0) as [_|Hne]; cbn [negb].
  - right. exists 6. split; [lia|done].
  - destruct Hcap as [|]; [done|by right].
Qed.

(** * The names of a directory *)

(** [dir] is a directory with entries [l], each name and each entry once. *)
Record dir_at (s : fs) (dir : Z) (d : vnode) (l : list dirent) : Prop := {
  da_vnode : vnodes s !! dir = Some d;
  da_type : v_type d = VNODE_DIR;
  da_list : dirs s !! v_priv d = Some l;
  da_names : NoDup (d_name <$> l);
  da_ids : NoDup (d_id <$> l);
  da_vnodes : forall e, e ∈ l -> d_vnode e <> 0 /\ is_Some (vnodes s !! d_vnode e);
}.

(** The child of that name, 0 for none. *)
Definition child (l : list dirent) (name : list Z) : Z :=
  match find_entry name l with Some e => d_vnode e | None => 0 end.

Lemma lookup_child s dir d l name : dir_at s dir d l -> tmpfs_lookup dir name s = Some (child l name).
Proof.
  intros []. unfold tmpfs_lookup. rewrite da_vnode0. cbn [mbind option_bind]. unfold is_type.
  rewrite bool_decide_true by done. cbn [negb]. by rewrite da_list0.
Qed.

Lemma find_entry_cons name e l :
  find_entry name (e :: l) = if same_name (d_name e) name then Some e else find_entry name l.
Proof.
  unfold find_entry. cbn [list_find]. case_decide as H; [by rewrite H|]. apply not_true_iff_false in H. rewrite H.
  by destruct (list_find _ l) as [[]|].
Qed.

Lemma find_entry_some name l e : find_entry name l = Some e -> e ∈ l /\ d_name e = name.
Proof.
  induction l as [|x l IH]; [done|]. rewrite find_entry_cons. unfold same_name. case_bool_decide as E.
  - intros [= <-]. split; [apply list_elem_of_here|done].
  - intros [H1 H2]%IH. split; [by apply list_elem_of_further|done].
Qed.

Lemma find_entry_none name l : find_entry name l = None <-> name ∉ (d_name <$> l).
Proof.
  induction l as [|x l IH]; [split; [intros _; apply not_elem_of_nil|done]|].
  rewrite find_entry_cons, fmap_cons, not_elem_of_cons. unfold same_name. case_bool_decide as E; naive_solver.
Qed.

(** Without its entry [e], the directory has the other names. *)
Lemma find_drop_entry name e l :
  NoDup (d_name <$> l) -> NoDup (d_id <$> l) -> e ∈ l ->
  find_entry name (drop_entry (d_id e) l) = if same_name (d_name e) name then None else find_entry name l.
Proof.
  unfold drop_entry. induction l as [|x l IH]; [intros _ _ H; by apply elem_of_nil in H|].
  rewrite !fmap_cons, !NoDup_cons. intros [Hn1 Hn2] [Hi1 Hi2] He. cbn [List.filter].
  destruct (Z.eqb_spec (d_id x) (d_id e)) as [Ei|Ei]; cbn [negb].
  - assert (x = e) as ->.
    { apply elem_of_cons in He as [->|He]; [done|]. destruct Hi1. rewrite Ei. by apply list_elem_of_fmap_2. }
    assert (Ef : List.filter (fun y => negb (d_id y =? d_id e)) l = l).
    { apply forallb_filter_id, forallb_forall. intros y Hy%list_elem_of_In. destruct (Z.eqb_spec (d_id y) (d_id e)) as [E|]; [|done].
      destruct Hi1. rewrite <- E. by apply list_elem_of_fmap_2. }
    rewrite Ef, find_entry_cons. unfold same_name. case_bool_decide as E; [|done]. subst name. by apply find_entry_none.
  - apply elem_of_cons in He as [->|He]; [done|]. rewrite !find_entry_cons, IH by done.
    unfold same_name. case_bool_decide as E1; case_bool_decide as E2; try done.
    exfalso. apply Hn1. rewrite E1, <- E2. by apply list_elem_of_fmap_2.
Qed.

Lemma drop_entry_sub id l e : e ∈ drop_entry id l -> e ∈ l /\ d_id e <> id.
Proof.
  rewrite !list_elem_of_In. unfold drop_entry. rewrite filter_In. intros [H1 H2]. split; [done|].
  intros E. by rewrite E, Z.eqb_refl in H2.
Qed.

Lemma drop_entry_nodup {A} (f : dirent -> A) id l : NoDup (f <$> l) -> NoDup (f <$> drop_entry id l).
Proof.
  unfold drop_entry. induction l as [|x l IH]; [done|]. rewrite fmap_cons, NoDup_cons. intros [H1 H2]. cbn [List.filter].
  destruct (negb _); [|by apply IH]. rewrite fmap_cons, NoDup_cons. split; [|by apply IH].
  intros (y & Ey & Hy)%list_elem_of_fmap. apply H1. rewrite Ey. apply list_elem_of_fmap_2.
  apply list_elem_of_In. apply list_elem_of_In, filter_In in Hy as [Hy _]. exact Hy.
Qed.

(** Creating a file in a directory that has no such name adds exactly that
    name: lookup then finds the new vnode under it and what it found before under
    every other name, and the directory stays well formed. *)
Theorem tmpfs_create_lookup s dir d l name type vn priv e :
  dir_at s dir d l -> child l name = 0 -> len name <= VFS_NAME_MAX ->
  type = VNODE_REG \/ type = VNODE_DIR ->
  dir <> 0 -> vn <> 0 -> priv <> 0 -> e <> 0 -> vnodes s !! vn = None -> dirs s !! priv = None -> e ∉ (d_id <$> l) ->
  exists s', tmpfs_create dir name type vn priv e s = Some (vn, s')
    /\ dir_at s' dir d (Dirent e name vn :: l)
    /\ (forall x, tmpfs_lookup dir x s' = Some (if same_name name x then vn else child l x)).
Proof.
  intros Hd Hc Hlen Hty Hd0 Hv0 Hp0 He0 Hvn Hpr Hid. pose proof Hd as [H1 H2 H3 H4 H5 H6].
  assert (Hne : vn <> dir) by congruence. assert (Hpe : priv <> v_priv d) by congruence.
  unfold tmpfs_create. rewrite (lookup_child s dir d l), Hc by done. cbn [mbind option_bind truth Z.eqb negb].
  set (s1 := (mk_vnode type vn priv s).2).
  assert (Em : mk_vnode type vn priv s = (vn, s1)).
  { unfold s1, mk_vnode. destruct (Z.eqb_spec vn 0), (Z.eqb_spec priv 0), Hty as [-> | ->]; done. }
  assert (E1 : vnodes s1 = <[vn := Vnode type TMPFS_OPS priv 0 0 0 0]> (vnodes s) /\ dirs s1 !! v_priv d = Some l).
  { unfold s1, mk_vnode. destruct (Z.eqb_spec vn 0), (Z.eqb_spec priv 0), Hty as [-> | ->]; try done; cbn.
    by rewrite lookup_insert_ne. }
  destruct E1 as [Ev Ed]. rewrite Em. destruct (Z.eqb_spec vn 0) as [|_]; [done|]. unfold tmpfs_link.
  destruct (Z.eqb_spec dir 0) as [|_]; [done|]. rewrite Ev, lookup_insert_ne, H1 by done. cbn [mbind option_bind].
  unfold is_type. rewrite bool_decide_true by done. destruct (Z.eqb_spec vn 0), (Z.eqb_spec e 0); try done. cbn [negb orb].
  rewrite Ed. cbn [mbind option_bind]. cbn [set_dir vnodes]. rewrite Ev, lookup_insert_eq. cbn [mbind option_bind].
  destruct (Z.eqb_spec vn 0); [done|]. unfold clip_name. rewrite ztake_all by done.
  set (s2 := set_vnode _ _ _). exists s2. split; [done|].
  assert (Hat : dir_at s2 dir d (Dirent e name vn :: l)).
  { constructor.
    - cbn. rewrite Ev, !lookup_insert_ne; done.
    - done.
    - cbn. apply lookup_insert_eq.
    - rewrite fmap_cons. apply NoDup_cons. split; [|done]. apply find_entry_none. unfold child in Hc.
      destruct (find_entry name l) as [x|] eqn:E; [|done]. apply find_entry_some in E as [Hx _]. by destruct (H6 x Hx).
    - rewrite fmap_cons. by apply NoDup_cons.
    - intros x [->|Hx]%elem_of_cons; cbn [d_vnode]; rewrite <- ?Ev.
      + split; [done|]. cbn. rewrite lookup_insert_eq. done.
      + destruct (H6 x Hx) as [Hx1 [w Hx2]]. split; [done|]. cbn. rewrite Ev.
        destruct (decide (d_vnode x = vn)) as [->|]; [rewrite lookup_insert_eq; done|].
        rewrite !lookup_insert_ne by done. by rewrite Hx2. }
  split; [done|]. intros x. rewrite (lookup_child _ _ _ _ _ Hat). unfold child. rewrite find_entry_cons. cbn [d_name].
  by destruct (same_name name x).
Qed.

(** Unlink removes exactly that name, and frees the vnode exactly when this was
    its last reference: a file that is still open keeps its vnode. *)
Theorem tmpfs_unlink_lookup s dir d l name e v :
  dir_at s dir d l -> find_entry name l = Some e -> vnodes s !! d_vnode e = Some v ->
  d_vnode e <> dir -> v_type v <> VNODE_DIR \/ (dirs s !! v_priv v = Some [] /\ v_priv v <> v_priv d) ->
  0 < v_refcount v < 2 ^ 32 ->
  exists s', tmpfs_unlink dir name s = Some (0, s')
    /\ (forall x, tmpfs_lookup dir x s' = Some (if same_name name x then 0 else child l x))
    /\ vnodes s' !! d_vnode e
       = (if v_refcount v =? 1 then None else Some (with_refcount (v_refcount v - 1) v)).
Proof.
  intros Hd Hf Hv Hne Hdir Hrc. pose proof Hd as [H1 H2 H3 H4 H5 H6].
  pose proof (find_entry_some _ _ _ Hf) as [Hin Hnm]. unfold tmpfs_unlink. rewrite H1. cbn [mbind option_bind].
  unfold is_type at 1. rewrite bool_decide_true by done. cbn [negb]. rewrite H3. cbn [mbind option_bind]. rewrite Hf, Hv.
  assert (Efull : is_full_dir v s = Some false).
  { unfold is_full_dir, is_type. case_bool_decide as Et; [|done]. destruct Hdir as [|[-> _]]; done. }
  cbn [mbind option_bind]. rewrite Efull. cbn [mbind option_bind]. unfold truth.
  destruct (Z.eqb_spec (v_refcount v) 0) as [|_]; [lia|]. cbn [negb]. rewrite u32_small by lia.
  set (s1 := set_vnode _ _ _).
  assert (L1 : forall x, match find_entry x (drop_entry (d_id e) l) with Some e' => d_vnode e' | None => 0 end
                         = if same_name name x then 0 else child l x).
  { intros x. rewrite find_drop_entry by done. rewrite Hnm. unfold child. by destruct (same_name name x). }
  assert (Hlk : forall s', vnodes s' !! dir = Some d -> dirs s' !! v_priv d = Some (drop_entry (d_id e) l) ->
      forall x, tmpfs_lookup dir x s' = Some (if same_name name x then 0 else child l x)).
  { intros s' E1 E2 x. unfold tmpfs_lookup. rewrite E1. cbn [mbind option_bind]. unfold is_type.
    rewrite bool_decide_true by done. cbn [negb]. rewrite E2. cbn [mbind option_bind]. by rewrite L1. }
  assert (V1 : vnodes s1 !! dir = Some d) by (cbn; by rewrite lookup_insert_ne).
  assert (D1 : dirs s1 !! v_priv d = Some (drop_entry (d_id e) l)) by apply lookup_insert_eq.
  destruct (Z.eqb_spec (v_refcount v) 1) as [E1|E1].
  - rewrite E1. cbn [Z.eqb Z.sub Z.opp Z.add Z.pos_sub]. unfold free_vnode. destruct (Z.eqb_spec (d_vnode e) 0) as [E0|_];
      [by destruct (H6 e Hin)|]. cbn [vnodes s1 set_vnode]. rewrite lookup_insert_eq. cbn [mbind option_bind].
    eexists. split; [reflexivity|]. split; [|cbn; apply lookup_delete_eq].
    apply Hlk.
    + cbn. rewrite lookup_delete_ne by done. by destruct (_ && _); [|destruct (_ && _)]; cbn; rewrite lookup_insert_ne.
    + cbn. destruct (_ && _); [exact D1|]. destruct (is_type VNODE_DIR _ && _) eqn:Et; [|exact D1].
      cbn. apply andb_true_iff in Et as [Et _]. unfold is_type in Et. cbn in Et. apply bool_decide_eq_true in Et.
      destruct Hdir as [|[_ Hp]]; [done|]. by rewrite lookup_delete_ne by done.
  - destruct (Z.eqb_spec (v_refcount v - 1) 0) as [|_]; [lia|]. cbn [mbind option_bind]. exists s1.
    split; [done|]. split; [by apply Hlk|]. apply lookup_insert_eq.
Qed.

(** Moving an entry to another directory that has no such name. *)
Lemma rename_apart s olddir od ol newdir nd nl oldname newname src :
  dir_at s olddir od ol -> dir_at s newdir nd nl -> v_priv od <> v_priv nd ->
  find_entry oldname ol = Some src -> child nl newname = 0 -> len newname <= VFS_NAME_MAX ->
  exists s', tmpfs_rename olddir oldname newdir newname s = Some (0, s')
    /\ (forall x, tmpfs_lookup olddir x s' = Some (if same_name oldname x then 0 else child ol x))
    /\ (forall x, tmpfs_lookup newdir x s' = Some (if same_name newname x then d_vnode src else child nl x)).
Proof.
  intros Ho Hn Hp Hf Hc Hlen. pose proof (find_entry_some _ _ _ Hf) as [Hin Hnm]. unfold tmpfs_rename.
  rewrite (da_vnode _ _ _ _ Ho), (da_vnode _ _ _ _ Hn). cbn [mbind option_bind]. unfold is_type.
  rewrite (bool_decide_true _ (da_type _ _ _ _ Ho)), (bool_decide_true _ (da_type _ _ _ _ Hn)). cbn [negb orb].
  rewrite (da_list _ _ _ _ Ho). cbn [mbind option_bind]. rewrite Hf, (lookup_child _ _ _ _ newname Hn), Hc.
  cbn [mbind option_bind truth Z.eqb negb andb]. cbn [Z.ltb Z.compare]. rewrite (da_list _ _ _ _ Ho).
  cbn [mbind option_bind].
  assert (Ex : existsb (fun e => d_id e =? d_id src) ol = true).
  { apply existsb_exists. exists src. split; [by apply list_elem_of_In|apply Z.eqb_refl]. }
  rewrite Ex. cbn [negb]. cbn [dirs set_dir]. rewrite lookup_insert_ne, (da_list _ _ _ _ Hn) by done. cbn [mbind option_bind].
  unfold clip_name. rewrite ztake_all by done. eexists. split; [reflexivity|].
  split; intros x; unfold tmpfs_lookup; cbn [vnodes dirs set_dir].
  - rewrite (da_vnode _ _ _ _ Ho). cbn [mbind option_bind]. unfold is_type.
    rewrite (bool_decide_true _ (da_type _ _ _ _ Ho)). cbn [negb]. rewrite lookup_insert_ne, lookup_insert_eq by done.
    cbn [mbind option_bind]. rewrite find_drop_entry by (done || apply Ho). rewrite Hnm. unfold child.
    by destruct (same_name oldname x).
  - rewrite (da_vnode _ _ _ _ Hn). cbn [mbind option_bind]. unfold is_type.
    rewrite (bool_decide_true _ (da_type _ _ _ _ Hn)). cbn [negb]. rewrite lookup_insert_eq.
    cbn [mbind option_bind]. rewrite find_entry_cons. cbn [d_name]. unfold child. by destruct (same_name newname x).
Qed.

(** Renaming within a directory. *)
Lemma rename_within s dir d l oldname newname src :
  dir_at s dir d l -> find_entry oldname l = Some src -> child l newname = 0 -> len newname <= VFS_NAME_MAX ->
  exists s', tmpfs_rename dir oldname dir newname s = Some (0, s')
    /\ (forall x, tmpfs_lookup dir x s'
          = Some (if same_name newname x then d_vnode src else if same_name oldname x then 0 else child l x)).
Proof.
  intros Hd Hf Hc Hlen. pose proof (find_entry_some _ _ _ Hf) as [Hin Hnm]. unfold tmpfs_rename.
  rewrite (da_vnode _ _ _ _ Hd). cbn [mbind option_bind]. unfold is_type.
  rewrite (bool_decide_true _ (da_type _ _ _ _ Hd)). cbn [negb orb].
  rewrite (da_list _ _ _ _ Hd). cbn [mbind option_bind]. rewrite Hf, (lookup_child _ _ _ _ newname Hd), Hc.
  cbn [mbind option_bind truth Z.eqb negb andb]. cbn [Z.ltb Z.compare]. rewrite (da_list _ _ _ _ Hd).
  cbn [mbind option_bind].
  assert (Ex : existsb (fun e => d_id e =? d_id src) l = true).
  { apply existsb_exists. exists src. split; [by apply list_elem_of_In|apply Z.eqb_refl]. }
  rewrite Ex. cbn [negb]. cbn [dirs set_dir]. rewrite lookup_insert_eq. cbn [mbind option_bind].
  unfold clip_name. rewrite ztake_all by done. eexists. split; [reflexivity|].
  intros x; unfold tmpfs_lookup; cbn [vnodes dirs set_dir].
  rewrite (da_vnode _ _ _ _ Hd). cbn [mbind option_bind]. unfold is_type.
  rewrite (bool_decide_true _ (da_type _ _ _ _ Hd)). cbn [negb]. rewrite lookup_insert_eq.
  cbn [mbind option_bind]. rewrite find_entry_cons, find_drop_entry by (done || apply Hd). cbn [d_name]. rewrite Hnm.
  unfold child. by destruct (same_name newname x), (same_name oldname x).
Qed.

(** Renaming to a free name, of the same or of another directory, moves the
    entry: the new name stands for the vnode of the old one, which is gone, and
    every other name of both directories is as before. *)
Theorem tmpfs_rename_moves s olddir od ol newdir nd nl oldname newname src :
  dir_at s olddir od ol -> dir_at s newdir nd nl -> (olddir = newdir \/ v_priv od <> v_priv nd) ->
  find_entry oldname ol = Some src -> child nl newname = 0 -> len newname <= VFS_NAME_MAX ->
  exists s', tmpfs_rename olddir oldname newdir newname s = Some (0, s')
    /\ tmpfs_lookup newdir newname s' = Some (d_vnode src)
    /\ tmpfs_lookup olddir oldname s' = Some 0
    /\ (forall x, x <> oldname -> x <> newname ->
          tmpfs_lookup olddir x s' = Some (child ol x) /\ tmpfs_lookup newdir x s' = Some (child nl x)).
Proof.
  intros Ho Hn Hp Hf Hc Hlen.
  assert (Hself : forall x, same_name x x = true) by (intros; by apply bool_decide_true).
  assert (Hdiff : forall x y, x <> y -> same_name y x = false) by (intros x y ?; apply bool_decide_false; congruence).
  destruct Hp as [<-|Hp].
  - assert (nd = od) as -> by (pose proof (da_vnode _ _ _ _ Ho); pose proof (da_vnode _ _ _ _ Hn); congruence).
    assert (nl = ol) as -> by (pose proof (da_list _ _ _ _ Ho); pose proof (da_list _ _ _ _ Hn); congruence).
    destruct (rename_within s olddir od ol oldname newname src) as (s' & E & H); [done..|].
    assert (Hon : oldname <> newname).
    { intros ->. unfold child in Hc. rewrite Hf in Hc. apply find_entry_some in Hf as [Hf _]. by destruct (da_vnodes _ _ _ _ Ho src Hf). }
    exists s'. split_and!; [done|by rewrite H, Hself|by rewrite H, Hself, (Hdiff oldname newname) by done|].
    intros x H1 H2. by rewrite H, !Hdiff by done.
  - destruct (rename_apart s olddir od ol newdir nd nl oldname newname src) as (s' & E & H1 & H2); [done..|].
    exists s'. split_and!; [done|by rewrite H2, Hself|by rewrite H1, Hself|].
    intros x Hx1 Hx2. by rewrite H1, H2, !Hdiff by done.
Qed.

(** A directory can be renamed into itself: nothing checks that the new parent
    is not below the directory that moves. It is then its own child and no
    longer in its old parent, so it and all below it are lost. *)
Theorem tmpfs_rename_into_self s olddir od ol nd nl oldname newname src :
  dir_at s olddir od ol -> find_entry oldname ol = Some src -> dir_at s (d_vnode src) nd nl ->
  v_priv od <> v_priv nd -> child nl newname = 0 -> len newname <= VFS_NAME_MAX ->
  exists s', tmpfs_rename olddir oldname (d_vnode src) newname s = Some (0, s')
    /\ tmpfs_lookup olddir oldname s' = Some 0
    /\ tmpfs_lookup (d_vnode src) newname s' = Some (d_vnode src).
Proof.
  intros Ho Hf Hn Hp Hc Hl. destruct (rename_apart s olddir od ol (d_vnode src) nd nl oldname newname src)
    as (s' & E & H1 & H2); [done..|]. exists s'. split_and!; [done| |].
  - rewrite H1. unfold same_name. by rewrite bool_decide_true.
  - rewrite H2. unfold same_name. by rewrite bool_decide_true.
Qed.

(** ** Witnesses *)

Definition demo_file : vnode := Vnode VNODE_REG TMPFS_OPS 220 3 1 0 0.
Definition demo_dir : vnode := Vnode VNODE_DIR TMPFS_OPS 210 0 1 0 0.
Definition demo_root : vnode := Vnode VNODE_DIR TMPFS_OPS 200 0 1 0 0.
Definition demo_data : tmpfs_file := Tfile ([1; 2; 3] ++ replicate 61 0) 64.
Definition demo_entries : list dirent := [Dirent 300 [100] 110; Dirent 301 [102] 120].

(** The root with a directory "d" and a file "f". *)
Definition demo_fs : fs :=
  Fs (<[100 := demo_root]> (<[110 := demo_dir]> {[120 := demo_file]}))
     (<[200 := demo_entries]> {[210 := []]}) {[220 := demo_data]} 100.

Definition demo_heap (n : Z) : option (list Z) :=
  if n <? 64 then None else Some (replicate (Z.to_nat (n - 64)) 9).

Lemma demo_file_at : file_at demo_fs 120 demo_file demo_data.
Proof. split_and!; [vm_compute; reflexivity|done|vm_compute; reflexivity|]. constructor; vm_compute; [done|split; discriminate]. Qed.

Lemma demo_root_at : dir_at demo_fs 100 demo_root demo_entries.
Proof.
  constructor; [vm_compute; reflexivity|done|vm_compute; reflexivity|by apply (bool_decide_unpack _)..|].
  intros e He. apply list_elem_of_In in He as [<-|[<-|[]]]; (split; [done|]); (eexists; vm_compute; reflexivity).
Qed.

Lemma demo_dir_at : dir_at demo_fs 110 demo_dir [].
Proof.
  constructor; [vm_compute; reflexivity|done|vm_compute; reflexivity|apply NoDup_nil_2..|].
  intros e He. by apply elem_of_nil in He.
Qed.

Lemma demo_heap_ok : junk_ok demo_data demo_heap.
Proof.
  intros n tl. unfold demo_heap. destruct (Z.ltb_spec n 64); [done|]. intros [= <-].
  unfold len. rewrite length_replicate. cbn [t_cap demo_data]. lia.
Qed.

(** Two bytes at offset 70: the file grows, and the gap reads as zeros. *)
Lemma tmpfs_write_read_witness :
  exists s', tmpfs_write 64 demo_heap 120 [7; 8] 70 demo_fs = Some (2, s')
    /\ tmpfs_read 120 4 68 s' = Some (4, [0; 0; 7; 8]).
Proof.
  destruct (tmpfs_write_read 64 demo_heap 120 demo_file demo_data [7; 8] 70 demo_fs) as [H|(s' & v' & f' & H1 & _ & _ & H2 & _)].
  - exact demo_file_at.
  - exact demo_heap_ok.
  - lia.
  - vm_compute. discriminate.
  - lia.
  - exfalso. revert H. vm_compute. discriminate.
  - exists s'. split; [exact H1|]. rewrite (H2 4 68) by lia. vm_compute. reflexivity.
Defined.

Lemma tmpfs_write_hangs_witness :
  tmpfs_write 1000 demo_heap 120 [1; 2] (2 ^ 63 - 1) demo_fs = None.
Proof.
  apply (tmpfs_write_hangs demo_heap 120 demo_file demo_data [1; 2] (2 ^ 63 - 1) demo_fs).
  - exact demo_file_at.
  - right. exists 6. split; [lia|reflexivity].
  - lia.
  - vm_compute. split; reflexivity.
Defined.

Lemma tmpfs_create_lookup_witness :
  exists s', tmpfs_create 100 [110] VNODE_REG 130 230 302 demo_fs = Some (130, s')
    /\ tmpfs_lookup 100 [110] s' = Some 130 /\ tmpfs_lookup 100 [102] s' = Some 120.
Proof.
  destruct (tmpfs_create_lookup demo_fs 100 demo_root demo_entries [110] VNODE_REG 130 230 302) as (s' & H1 & _ & H2);
    try (vm_compute; (reflexivity || discriminate)).
  - exact demo_root_at.
  - by left.
  - rewrite list_elem_of_In. vm_compute. intros [E|[E|[]]]; discriminate.
  - exists s'. split; [exact H1|]. split; rewrite H2; vm_compute; reflexivity.
Defined.

Lemma tmpfs_unlink_lookup_witness :
  exists s', tmpfs_unlink 100 [102] demo_fs = Some (0, s') /\ tmpfs_lookup 100 [102] s' = Some 0
    /\ vnodes s' !! 120 = None.
Proof.
  destruct (tmpfs_unlink_lookup demo_fs 100 demo_root demo_entries [102] (Dirent 301 [102] 120) demo_file) as (s' & H1 & H2 & H3).
  - exact demo_root_at.
  - vm_compute. reflexivity.
  - vm_compute. reflexivity.
  - done.
  - by left.
  - done.
  - exists s'. split; [exact H1|]. split; [rewrite H2; vm_compute; reflexivity|exact H3].
Defined.

Lemma tmpfs_rename_moves_witness :
  exists s', tmpfs_rename 100 [102] 110 [103] demo_fs = Some (0, s') /\ tmpfs_lookup 110 [103] s' = Some 120.
Proof.
  destruct (tmpfs_rename_moves demo_fs 100 demo_root demo_entries 110 demo_dir [] [102] [103] (Dirent 301 [102] 120)) as (s' & H1 & H2 & _).
  - exact demo_root_at.
  - exact demo_dir_at.
  - by right.
  - vm_compute. reflexivity.
  - reflexivity.
  - vm_compute. discriminate.
  - exists s'. split; [exact H1|exact H2].
Defined.

(** mv /d /d/x. *)
Lemma tmpfs_rename_into_self_witness :
  exists s', tmpfs_rename 100 [100] 110 [120] demo_fs = Some (0, s')
    /\ tmpfs_lookup 100 [100] s' = Some 0 /\ tmpfs_lookup 110 [120] s' = Some 110.
Proof.
  apply (tmpfs_rename_into_self demo_fs 100 demo_root demo_entries demo_dir [] [100] [120] (Dirent 300 [100] 110)).
  - exact demo_root_at.
  - vm_compute. reflexivity.
  - exact demo_dir_at.
  - done.
  - reflexivity.
  - vm_compute. discriminate.
Defined.
