(* ===== verification/Vfs.v ===== *)
(** The virtual file system, [kernel/fs/vfs.c]: mounts, path resolution through
    symlinks, the operations on paths, and the descriptor layer with its shared
    open-file descriptions.

    A file system is a record of operations ([vfs_ops]); [ops_of] gives the record
    behind the address in a vnode. Reads and writes of pipes, which wait, are in
    Pipe.v. Paths are strings without their NUL. *)

From stdpp Require Import base numbers list gmap.
From Stdlib Require Import ZArith Lia.
From S2P Require Import Prelude Buf Proc Sched SchedInv Signal WaitQ Thread Pthread Pipe Tmpfs.

Definition VFS_PATH_MAX : Z := 256.
Definition VFS_MAX_FDS : Z := 32.
Definition VFS_SYMLINK_MAX : nat := 8.

Definition O_RDONLY : Z := 0.
Definition O_RDWR : Z := 2.
Definition O_ACCMODE : Z := 3.
Definition O_CREAT : Z := 64.
Definition O_TRUNC : Z := 512.
Definition O_APPEND : Z := 1024.
Definition O_NONBLOCK : Z := 2048.

Definition SEEK_CUR : Z := 1.
Definition SEEK_END : Z := 2.

Definition F_DUPFD : Z := 0.
Definition F_GETFD : Z := 1.
Definition F_SETFD : Z := 2.
Definition F_GETFL : Z := 3.
Definition F_SETFL : Z := 4.

Definition slash : Z := 47.
Definition dot : Z := 46.

(** * The operations of a file system *)

(** [None]: a NULL member. An operation returns [None] when it faults. *)
Record vfs_ops := VfsOps {
  op_read : option (Z -> Z -> Z -> fs -> option (Z * list Z));
  op_write : option (Z -> list Z -> Z -> fs -> option (Z * fs));
  op_lookup : option (Z -> list Z -> fs -> option Z);
  op_create : option (Z -> list Z -> vtype -> fs -> option (Z * fs));
  op_readdir : option (Z -> Z -> Z -> fs -> option (Z * list Z));
  op_unlink : option (Z -> list Z -> fs -> option (Z * fs));
  op_truncate : option (Z -> Z -> fs -> option (Z * fs));
  op_rename : option (Z -> list Z -> Z -> list Z -> fs -> option (Z * fs));
  op_symlink : option (Z -> list Z -> list Z -> fs -> option (Z * fs));
  op_readlink : option (Z -> Z -> fs -> option (Z * list Z));
  op_chmod : option (Z -> Z -> fs -> option (Z * fs));
}.

(** What the heap gives to one operation of tmpfs. *)
Record heap := Heap { h_vnode : Z; h_priv : Z; h_data : Z; h_dirent : Z; h_grow : Z -> option (list Z) }.

Definition tmpfs_ops (fuel : nat) (h : heap) : vfs_ops := {|
  op_read := Some tmpfs_read;
  op_write := Some (tmpfs_write fuel (h_grow h));
  op_lookup := Some tmpfs_lookup;
  op_create := Some (fun dir name t => tmpfs_create dir name t (h_vnode h) (h_priv h) (h_dirent h));
  op_readdir := Some tmpfs_readdir;
  op_unlink := Some tmpfs_unlink;
  op_truncate := Some tmpfs_truncate;
  op_rename := Some tmpfs_rename;
  op_symlink := Some (fun dir name target =>
                        tmpfs_symlink dir name target (h_vnode h) (h_priv h) (h_data h) (h_dirent h));
  op_readlink := Some tmpfs_readlink;
  op_chmod := None;
|}.

(** The root tmpfs; NULL when there is no memory for it. *)
Definition vfs_init (vn priv : Z) (s : fs) : option fs :=
  '(r, s) ← tmpfs_create_root vn priv s; Some (Fs (vnodes s) (dirs s) (tfiles s) r).

Definition vfs_root (s : fs) : Z := root_vnode s.

Section Vfs.
Context (ops_of : Z -> vfs_ops).

Definition with_mounted (m : Z) (v : vnode) : vnode :=
  Vnode (v_type v) (v_ops v) (v_priv v) (v_size v) (v_refcount v) (v_mode v) m.
Definition with_mode (m : Z) (v : vnode) : vnode :=
  Vnode (v_type v) (v_ops v) (v_priv v) (v_size v) (v_refcount v) m (v_mounted v).

(** [while (vn && vn->mounted) vn = vn->mounted]. *)
Fixpoint cross_mount (fuel : nat) (vn : Z) (s : fs) : option Z :=
  match fuel with
  | O => None
  | S fuel =>
      if vn =? 0 then Some 0 else
      v ← vnodes s !! vn;
      if truth (v_mounted v) then cross_mount fuel (v_mounted v) s else Some vn
  end.

(** * Path resolution *)

Fixpoint skip_slashes (p : list Z) : list Z :=
  match p with c :: q => if c =? slash then skip_slashes q else p | [] => [] end.

(** The characters up to the next slash, and the rest. *)
Fixpoint span_comp (p : list Z) : list Z * list Z :=
  match p with
  | c :: q => if c =? slash then ([], p) else let '(n, r) := span_comp q in (c :: n, r)
  | [] => ([], [])
  end.

(** The next component, at most VFS_NAME_MAX characters of it, and what follows. *)
Definition next_comp (p : list Z) : list Z * list Z :=
  let '(n, r) := span_comp p in (clip_name n, r).

(** A symlink that is to be followed: its target resolved by [follow]. *)
Definition follow_link (mf : nat) (follow : Z -> list Z -> fs -> option (Z * list Z))
    (cur child : Z) (s : fs) : option Z :=
  v ← vnodes s !! child;
  match op_readlink (ops_of (v_ops v)) with
  | None => Some 0
  | Some readlink =>
      '(n, tgt) ← readlink child VFS_PATH_MAX s;
      if n <=? 0 then Some 0 else
      base ← (match tgt with c :: _ => if c =? slash then cross_mount mf (root_vnode s) s else Some cur
                        | [] => Some cur end);
      '(vn, _) ← follow base tgt s;
      Some vn
  end.

Definition dir_or_null (vn : Z) (leaf : list Z) (s : fs) : option (Z * list Z) :=
  v ← vnodes s !! vn;
  Some (if is_type VNODE_DIR v then (vn, leaf) else (0, leaf)).

(** The loop over the components: [rounds] bounds them by the characters of the
    path. The result is the vnode (0 for NULL) and the leaf. *)
Fixpoint resolve_loop (mf : nat) (follow : Z -> list Z -> fs -> option (Z * list Z))
    (want_parent follow_last : bool) (rounds : nat) (cur : Z) (p : list Z) (s : fs) : option (Z * list Z) :=
  match rounds with
  | O => None
  | S rounds =>
      match skip_slashes p with
      | [] => if want_parent then dir_or_null cur [] s else Some (cur, [])
      | p =>
          let '(name, p) := next_comp p in
          let last := match skip_slashes p with [] => true | _ => false end in
          if last && want_parent then dir_or_null cur name s else
          c ← vnodes s !! cur;
          match op_lookup (ops_of (v_ops c)) with
          | None => Some (0, [])
          | Some lookup =>
              if negb (is_type VNODE_DIR c) then Some (0, [])
              else if bool_decide (name = [dot])
              then resolve_loop mf follow want_parent follow_last rounds cur p s
              else
                child ← lookup cur name s;
                if child =? 0 then Some (0, []) else
                child ← cross_mount mf child s;
                v ← vnodes s !! child;
                child ← (if is_type VNODE_LNK v && (negb last || follow_last)
                         then follow_link mf follow cur child s else Some child);
                if child =? 0 then Some (0, []) else
                resolve_loop mf follow want_parent follow_last rounds child p s
          end
      end
  end.

(** [depth]: how many levels of symlinks are left; the source counts up to
    VFS_SYMLINK_MAX. *)
Fixpoint resolve_from (mf depth : nat) (want_parent follow_last : bool) (start : Z) (path : list Z) (s : fs)
  : option (Z * list Z) :=
  match depth with
  | O => Some (0, [])
  | S depth =>
      if start =? 0 then Some (0, []) else
      resolve_loop mf (resolve_from mf depth false true) want_parent follow_last (S (length path)) start path s
  end.

Definition absolute (path : list Z) : bool := match path with c :: _ => c =? slash | [] => false end.

Definition walk (mf : nat) (path : list Z) (want_parent follow_last : bool) (s : fs) : option (Z * list Z) :=
  if negb (absolute path) then Some (0, []) else
  root ← cross_mount mf (root_vnode s) s;
  resolve_from mf (S VFS_SYMLINK_MAX) want_parent follow_last root path s.

Definition vfs_resolve (mf : nat) (path : list Z) (s : fs) : option Z :=
  if bool_decide (path = [slash]) then cross_mount mf (root_vnode s) s
  else '(vn, _) ← walk mf path false true s; Some vn.

Definition vfs_resolve_nofollow (mf : nat) (path : list Z) (s : fs) : option Z :=
  if bool_decide (path = [slash]) then cross_mount mf (root_vnode s) s
  else '(vn, _) ← walk mf path false false s; Some vn.

Definition vfs_resolve_parent (mf : nat) (path : list Z) (s : fs) : option (Z * list Z) :=
  walk mf path true true s.

Definition vfs_mount (mf : nat) (path : list Z) (mroot : Z) (s : fs) : option (Z * fs) :=
  at_ ← vfs_resolve mf path s;
  if at_ =? 0 then Some (- ENOTDIR, s) else
  v ← vnodes s !! at_;
  if negb (is_type VNODE_DIR v) then Some (- ENOTDIR, s)
  else Some (0, set_vnode at_ (with_mounted mroot v) s).

(** * Operations on paths *)

Definition vfs_read (vn n off : Z) (s : fs) : option (Z * list Z) :=
  if vn =? 0 then Some (- EINVAL, []) else
  v ← vnodes s !! vn;
  match op_read (ops_of (v_ops v)) with None => Some (- EINVAL, []) | Some read => read vn n off s end.

Definition vfs_write (vn : Z) (bs : list Z) (off : Z) (s : fs) : option (Z * fs) :=
  if vn =? 0 then Some (- EINVAL, s) else
  v ← vnodes s !! vn;
  match op_write (ops_of (v_ops v)) with None => Some (- EINVAL, s) | Some write => write vn bs off s end.

Definition vfs_create (mf : nat) (path : list Z) (type : vtype) (s : fs) : option (Z * fs) :=
  '(dir, leaf) ← vfs_resolve_parent mf path s;
  if (dir =? 0) || bool_decide (leaf = []) then Some (0, s) else
  d ← vnodes s !! dir;
  match op_create (ops_of (v_ops d)) with
  | None => Some (0, s)
  | Some create =>
      existing ← (match op_lookup (ops_of (v_ops d)) with Some lookup => lookup dir leaf s | None => Some 0 end);
      if truth existing then Some (existing, s) else create dir leaf type s
  end.

Definition vfs_mkdir (mf : nat) (path : list Z) (s : fs) : option (Z * fs) :=
  '(vn, s) ← vfs_create mf path VNODE_DIR s; Some (if truth vn then 0 else - EEXIST, s).

Definition vfs_unlink (mf : nat) (path : list Z) (s : fs) : option (Z * fs) :=
  '(dir, leaf) ← vfs_resolve_parent mf path s;
  if (dir =? 0) || bool_decide (leaf = []) then Some (- EINVAL, s) else
  d ← vnodes s !! dir;
  match op_unlink (ops_of (v_ops d)) with None => Some (- EINVAL, s) | Some unlink => unlink dir leaf s end.

Definition vfs_rename (mf : nat) (oldpath newpath : list Z) (s : fs) : option (Z * fs) :=
  '(od, oleaf) ← vfs_resolve_parent mf oldpath s;
  '(nd, nleaf) ← vfs_resolve_parent mf newpath s;
  if (od =? 0) || (nd =? 0) || bool_decide (oleaf = []) || bool_decide (nleaf = []) then Some (- EINVAL, s) else
  o ← vnodes s !! od;
  n ← vnodes s !! nd;
  match op_rename (ops_of (v_ops o)) with
  | None => Some (- EINVAL, s)
  | Some rename => if negb (v_ops o =? v_ops n) then Some (- EINVAL, s) else rename od oleaf nd nleaf s
  end.

Definition vfs_symlink (mf : nat) (target path : list Z) (s : fs) : option (Z * fs) :=
  '(dir, leaf) ← vfs_resolve_parent mf path s;
  if (dir =? 0) || bool_decide (leaf = []) then Some (- EINVAL, s) else
  d ← vnodes s !! dir;
  match op_symlink (ops_of (v_ops d)) with
  | None => Some (- EINVAL, s)
  | Some symlink =>
      existing ← (match op_lookup (ops_of (v_ops d)) with Some lookup => lookup dir leaf s | None => Some 0 end);
      if truth existing then Some (- EEXIST, s) else
      '(vn, s) ← symlink dir leaf target s; Some (if truth vn then 0 else - EIO, s)
  end.

Definition vfs_readlink (mf : nat) (path : list Z) (sz : Z) (s : fs) : option (Z * list Z) :=
  vn ← vfs_resolve_nofollow mf path s;
  if vn =? 0 then Some (- ENOENT, []) else
  v ← vnodes s !! vn;
  match op_readlink (ops_of (v_ops v)) with
  | None => Some (- EINVAL, [])
  | Some readlink =>
      if negb (is_type VNODE_LNK v) then Some (- EINVAL, []) else
      '(r, bs) ← readlink vn sz s; Some (if r <? 0 then - EINVAL else r, bs)
  end.

(** [mode & ~07777u], the permission bits replaced. *)
Definition PERM_BITS : Z := 4095.

Definition vfs_chmod (mf : nat) (path : list Z) (mode : Z) (s : fs) : option (Z * fs) :=
  vn ← vfs_resolve mf path s;
  if vn =? 0 then Some (- ENOENT, s) else
  v ← vnodes s !! vn;
  let m := Z.lor (Z.ldiff (v_mode v) PERM_BITS) (Z.land mode PERM_BITS) in
  let s := set_vnode vn (with_mode m v) s in
  match op_chmod (ops_of (v_ops v)) with None => Some (0, s) | Some chmod => chmod vn m s end.

(** The fields of struct stat that are not 0. *)
Record stat := Stat { st_mode : Z; st_nlink : Z; st_size : Z; st_blksize : Z; st_blocks : Z; st_ino : Z; st_rdev : Z }.

Definition fill_stat (vn : Z) (v : vnode) : stat :=
  let '(typ, def) := match v_type v with
                     | VNODE_DIR => (16384, 493)
                     | VNODE_CHR => (8192, 438)
                     | VNODE_LNK => (40960, 511)
                     | _ => (32768, 420)
                     end in
  let perm := if truth (Z.land (v_mode v) PERM_BITS) then Z.land (v_mode v) PERM_BITS else def in
  Stat (Z.lor typ perm) 1 (s64 (v_size v)) 4096 (s64 (u64 (v_size v + 511) / 512)) vn 0.

Definition vfs_stat (mf : nat) (path : list Z) (s : fs) : option (Z * option stat) :=
  vn ← vfs_resolve mf path s;
  if vn =? 0 then Some (- ENOENT, None) else v ← vnodes s !! vn; Some (0, Some (fill_stat vn v)).

Definition vfs_lstat (mf : nat) (path : list Z) (s : fs) : option (Z * option stat) :=
  vn ← vfs_resolve_nofollow mf path s;
  if vn =? 0 then Some (- ENOENT, None) else v ← vnodes s !! vn; Some (0, Some (fill_stat vn v)).

End Vfs.

(** * Path resolution comes to an end *)

Section Resolution.
Context (ops_of : Z -> vfs_ops) (fuel : nat) (h : heap).
Hypothesis tmpfs_table : ops_of TMPFS_OPS = tmpfs_ops fuel h.

(** Every reference of the file system is to an object, and a mounted root has
    nothing mounted on it. Symlinks may point anywhere, also in circles. *)
Record fs_ok (s : fs) : Prop := {
  ok_ops a v : vnodes s !! a = Some v ->
    v_ops v = TMPFS_OPS \/ (op_lookup (ops_of (v_ops v)) = None /\ op_readlink (ops_of (v_ops v)) = None);
  ok_dirs a v : vnodes s !! a = Some v -> v_type v = VNODE_DIR ->
    exists l, dirs s !! v_priv v = Some l /\ forall e, e ∈ l -> d_vnode e = 0 \/ is_Some (vnodes s !! d_vnode e);
  ok_links a v : vnodes s !! a = Some v -> v_type v = VNODE_LNK ->
    exists f, tfiles s !! v_priv v = Some f /\ 0 <= v_size v <= len (t_data f);
  ok_mounted a v : vnodes s !! a = Some v ->
    v_mounted v = 0 \/ exists w, vnodes s !! v_mounted v = Some w /\ v_mounted w = 0;
  ok_root : is_Some (vnodes s !! root_vnode s);
}.

(** A vnode of the system or NULL. *)
Definition valid (s : fs) (a : Z) : Prop := a = 0 \/ is_Some (vnodes s !! a).

Lemma lookup_valid s a v name :
  fs_ok s -> vnodes s !! a = Some v -> exists c, tmpfs_lookup a name s = Some c /\ valid s c.
Proof.
  intros Hok Ha. unfold tmpfs_lookup. rewrite Ha. cbn [mbind option_bind]. unfold is_type.
  case_bool_decide as Ht; cbn [negb]; [|exists 0; split; [done|by left]].
  destruct (ok_dirs s Hok a v Ha Ht) as (l & -> & Hl). cbn [mbind option_bind].
  destruct (find_entry name l) as [e|] eqn:Ef; [|exists 0; split; [done|by left]].
  exists (d_vnode e). split; [done|]. apply Hl. by apply find_entry_some in Ef as [H _].
Qed.

Lemma cross_mount_valid mf s a : fs_ok s -> is_Some (vnodes s !! a) -> (2 <= mf)%nat ->
  exists b, cross_mount mf a s = Some b /\ valid s b /\ (a <> 0 -> is_Some (vnodes s !! b)).
Proof.
  intros Hok [v Hv] Hf. destruct mf as [|[|mf]]; [lia..|]. cbn [cross_mount].
  destruct (Z.eqb_spec a 0) as [->|_]; [exists 0; split_and!; [done|by left|done]|]. rewrite Hv. cbn [mbind option_bind].
  unfold truth at 1. destruct (Z.eqb_spec (v_mounted v) 0) as [E|Hne]; cbn [negb].
  { exists a. assert (is_Some (vnodes s !! a)) by (by exists v). split_and!; [done|by right|done]. }
  destruct (ok_mounted s Hok a v Hv) as [|(w & Hw & Ew)]; [done|]. rewrite Hw. cbn [mbind option_bind].
  destruct (Z.eqb_spec (v_mounted v) 0) as [|_]; [done|]. rewrite Ew. cbn.
  exists (v_mounted v). assert (is_Some (vnodes s !! v_mounted v)) by (by exists w). split_and!; [done|by right|done].
Qed.

Lemma readlink_valid s a v :
  fs_ok s -> vnodes s !! a = Some v -> exists n tgt, tmpfs_readlink a VFS_PATH_MAX s = Some (n, tgt).
Proof.
  intros Hok Ha. unfold tmpfs_readlink. rewrite Ha. cbn [mbind option_bind]. unfold is_type.
  case_bool_decide as Ht; cbn [negb orb]; [|by eexists _, _]. destruct (v_priv v =? 0); cbn [orb]; [by eexists _, _|].
  destruct (VFS_PATH_MAX =? 0) eqn:E; [done|]. destruct (ok_links s Hok a v Ha Ht) as (f & -> & Hf). cbn [mbind option_bind].
  set (n := if _ <=? _ then _ else _).
  assert (0 <= n <= v_size v) by (unfold n, VFS_PATH_MAX; destruct (Z.leb_spec 256 (v_size v)); lia).
  rewrite bsub_some by lia. cbn [mbind option_bind]. by eexists _, _.
Qed.

(** The paths that the loop goes through get shorter. *)
Lemma skip_slashes_length p : (length (skip_slashes p) <= length p)%nat.
Proof. induction p as [|c p IH]; [done|]. cbn [skip_slashes]. destruct (c =? slash); cbn; lia. Qed.

Lemma span_comp_length p : (length (span_comp p).1 + length (span_comp p).2 = length p)%nat.
Proof.
  induction p as [|c p IH]; [done|]. cbn [span_comp]. destruct (c =? slash); [done|].
  destruct (span_comp p) as [n r]. cbn in *. lia.
Qed.

Lemma skip_slashes_head p c q : skip_slashes p = c :: q -> (c =? slash) = false.
Proof. induction p as [|x p IH]; [done|]. cbn [skip_slashes]. destruct (x =? slash) eqn:E; [exact IH|]. intros [= <- _]. exact E. Qed.

Lemma next_comp_shorter p c q : skip_slashes p = c :: q -> (length (next_comp (c :: q)).2 < length p)%nat.
Proof.
  intros E. pose proof (skip_slashes_length p) as Hl. rewrite E in Hl. pose proof (skip_slashes_head p c q E) as Ec.
  unfold next_comp. cbn [span_comp]. rewrite Ec. pose proof (span_comp_length q). destruct (span_comp q) as [n r]. cbn in *. lia.
Qed.

Lemma follow_valid mf follow s cur child :
  fs_ok s -> (2 <= mf)%nat -> is_Some (vnodes s !! cur) -> is_Some (vnodes s !! child) ->
  (forall b tgt, valid s b -> exists vn leaf, follow b tgt s = Some (vn, leaf) /\ valid s vn) ->
  exists c, follow_link ops_of mf follow cur child s = Some c /\ valid s c.
Proof.
  intros Hok Hmf Hcur [v Hv] Hfol. unfold follow_link. rewrite Hv. cbn [mbind option_bind].
  destruct (ok_ops s Hok child v Hv) as [-> |[_ ->]]; [|exists 0; split; [done|by left]].
  rewrite tmpfs_table. cbn [op_readlink tmpfs_ops]. destruct (readlink_valid s child v Hok Hv) as (n & tgt & ->).
  cbn [mbind option_bind]. destruct (n <=? 0); [exists 0; split; [done|by left]|].
  assert (Hb : exists b, (match tgt with c :: _ => if c =? slash then cross_mount mf (root_vnode s) s else Some cur
                                    | [] => Some cur end) = Some b /\ valid s b).
  { destruct tgt as [|c tgt]; [exists cur; split; [done|by right]|].
    destruct (c =? slash); [|exists cur; split; [done|by right]].
    destruct (cross_mount_valid mf s (root_vnode s) Hok (ok_root s Hok) Hmf) as (b & E & Hb & _). by exists b. }
  destruct Hb as (b & -> & Hb). cbn [mbind option_bind]. destruct (Hfol b tgt Hb) as (vn & leaf & -> & Hvn).
  cbn [mbind option_bind]. by exists vn.
Qed.

Lemma dir_or_null_valid s cur leaf : is_Some (vnodes s !! cur) ->
  exists vn lf, dir_or_null cur leaf s = Some (vn, lf) /\ valid s vn.
Proof.
  intros [v Hv]. unfold dir_or_null. rewrite Hv. cbn [mbind option_bind].
  destruct (is_type VNODE_DIR v); eexists _, _; (split; [done|]); [right; by exists v|by left].
Qed.

Lemma resolve_loop_valid mf follow wp fl rounds cur p s :
  fs_ok s -> (2 <= mf)%nat -> is_Some (vnodes s !! cur) -> (length p < rounds)%nat ->
  (forall b tgt, valid s b -> exists vn leaf, follow b tgt s = Some (vn, leaf) /\ valid s vn) ->
  exists vn leaf, resolve_loop ops_of mf follow wp fl rounds cur p s = Some (vn, leaf) /\ valid s vn.
Proof.
  intros Hok Hmf Hcur Hl Hfol. revert cur p Hcur Hl.
  induction rounds as [|rounds IH]; intros cur p Hcur Hl; [lia|]. cbn [resolve_loop].
  assert (Hnull : forall lf : list Z, exists vn leaf, Some (0, lf) = Some (vn, leaf) /\ valid s vn)
    by (intros lf; exists 0, lf; split; [done|by left]).
  destruct (skip_slashes p) as [|x q] eqn:Es.
  { destruct wp; [by apply dir_or_null_valid|]. exists cur, []. split; [done|by right]. }
  pose proof (next_comp_shorter p x q Es) as Hsh. destruct (next_comp (x :: q)) as [name r]. cbn [snd] in Hsh.
  set (last := match skip_slashes r with [] => true | _ => false end).
  destruct (last && wp); [by apply dir_or_null_valid|]. destruct Hcur as [c Hc]. rewrite Hc. cbn [mbind option_bind].
  destruct (ok_ops s Hok cur c Hc) as [-> |[-> _]]; [|apply Hnull].
  rewrite tmpfs_table. cbn [op_lookup tmpfs_ops]. destruct (negb _); [apply Hnull|].
  case_bool_decide; [apply IH; [by exists c|lia]|].
  destruct (lookup_valid s cur c name Hok Hc) as (ch & -> & Hch). cbn [mbind option_bind].
  destruct (Z.eqb_spec ch 0) as [|Hne]; [apply Hnull|]. destruct Hch as [|Hch]; [done|].
  destruct (cross_mount_valid mf s ch Hok Hch Hmf) as (ch2 & -> & _ & Hch2). cbn [mbind option_bind].
  destruct (Hch2 Hne) as [v Hv]. rewrite Hv. cbn [mbind option_bind].
  assert (Hc3 : exists c3, (if is_type VNODE_LNK v && (negb last || fl) then follow_link ops_of mf follow cur ch2 s
                            else Some ch2) = Some c3 /\ valid s c3).
  { destruct (_ && _); [|exists ch2; split; [done|by right; exists v]].
    apply follow_valid; [done|done|by exists c|by exists v|done]. }
  destruct Hc3 as (c3 & -> & Hc3). cbn [mbind option_bind]. destruct (Z.eqb_spec c3 0) as [|Hne3]; [apply Hnull|].
  destruct Hc3 as [|Hc3]; [done|]. apply IH; [done|lia].
Qed.

Lemma resolve_from_valid mf depth wp fl start path s :
  fs_ok s -> (2 <= mf)%nat -> valid s start ->
  exists vn leaf, resolve_from ops_of mf depth wp fl start path s = Some (vn, leaf) /\ valid s vn.
Proof.
  intros Hok Hmf. revert wp fl start path. induction depth as [|depth IH]; intros wp fl start path Hst; cbn [resolve_from].
  { exists 0, []. split; [done|by left]. }
  destruct (Z.eqb_spec start 0) as [|Hne]; [exists 0, []; split; [done|by left]|]. destruct Hst as [|Hst]; [done|].
  apply resolve_loop_valid; [done|done|done|lia|]. intros b tgt Hb. by apply IH.
Qed.

Lemma walk_valid mf path wp fl s :
  fs_ok s -> (2 <= mf)%nat -> exists vn leaf, walk ops_of mf path wp fl s = Some (vn, leaf) /\ valid s vn.
Proof.
  intros Hok Hmf. unfold walk. destruct (negb _); [exists 0, []; split; [done|by left]|].
  destruct (cross_mount_valid mf s (root_vnode s) Hok (ok_root s Hok) Hmf) as (b & -> & Hb & _). cbn [mbind option_bind].
  by apply resolve_from_valid.
Qed.

End Resolution.

(** C33: path resolution always comes to an end. Over a file system whose references
    are to objects, symlinks in circles included, vfs_resolve and
    vfs_resolve_parent return, for every path, NULL or a vnode of the system, and
    touch nothing that is not there. *)
Theorem vfs_resolve_total ops_of fuel h mf path s :
  ops_of TMPFS_OPS = tmpfs_ops fuel h -> fs_ok ops_of s -> (2 <= mf)%nat ->
  (exists vn, vfs_resolve ops_of mf path s = Some vn /\ valid s vn)
  /\ (exists vn leaf, vfs_resolve_parent ops_of mf path s = Some (vn, leaf) /\ valid s vn).
Proof.
  intros Ht Hok Hmf. split; [|by eapply walk_valid].
  unfold vfs_resolve. case_bool_decide.
  - destruct (cross_mount_valid ops_of mf s (root_vnode s) Hok (ok_root _ s Hok) Hmf) as (b & E & Hb & _). by exists b.
  - destruct (walk_valid ops_of fuel h Ht mf path false true s Hok Hmf) as (vn & leaf & -> & Hv). by exists vn.
Qed.

(** Mkdir answers 0 for a name that exists, whatever it names, and EEXIST when
    the parent cannot be resolved: vfs_create returns the existing vnode, and
    vfs_mkdir takes every vnode for success and every NULL for EEXIST. *)
Theorem vfs_mkdir_answers ops_of fuel h mf path s dir d leaf :
  ops_of TMPFS_OPS = tmpfs_ops fuel h ->
  (vfs_resolve_parent ops_of mf path s = Some (dir, leaf) -> dir <> 0 -> leaf <> [] ->
   vnodes s !! dir = Some d -> v_ops d = TMPFS_OPS ->
   (exists x, tmpfs_lookup dir leaf s = Some x /\ x <> 0) -> vfs_mkdir ops_of mf path s = Some (0, s))
  /\ (vfs_resolve_parent ops_of mf path s = Some (0, leaf) -> vfs_mkdir ops_of mf path s = Some (- EEXIST, s)).
Proof.
  intros Ht. unfold vfs_mkdir, vfs_create. split.
  - intros -> Hd Hl Hv Ho (x & Hx & Hne). cbn [mbind option_bind]. destruct (Z.eqb_spec dir 0) as [|_]; [done|].
    rewrite bool_decide_false by done. cbn [orb]. rewrite Hv. cbn [mbind option_bind]. rewrite Ho, Ht.
    cbn [op_create op_lookup tmpfs_ops]. rewrite Hx. cbn [mbind option_bind].
    assert (E : truth x = true) by (unfold truth; destruct (Z.eqb_spec x 0); done). rewrite E. cbn. by rewrite E.
  - intros ->. done.
Qed.

(** * Resolution of plain names *)

(** "/n1/n2/...". *)
Definition path_of (names : list (list Z)) : list Z := List.concat (map (fun n => slash :: n) names).

(** A component as it stands in a directory. *)
Definition good_name (n : list Z) : Prop :=
  n <> [] /\ forallb (fun c => negb (c =? slash)) n = true /\ n <> [dot] /\ len n <= VFS_NAME_MAX.

(** From [cur] by the names through directories of tmpfs; no mounts, no symlinks. *)
Inductive reaches (s : fs) : Z -> list (list Z) -> Z -> Prop :=
| reach_nil cur : reaches s cur [] cur
| reach_cons cur v n c w ns vn :
    vnodes s !! cur = Some v -> v_ops v = TMPFS_OPS -> v_type v = VNODE_DIR ->
    tmpfs_lookup cur n s = Some c -> c <> 0 -> vnodes s !! c = Some w -> v_mounted w = 0 -> v_type w <> VNODE_LNK ->
    reaches s c ns vn -> reaches s cur (n :: ns) vn.

Lemma span_good n rest :
  forallb (fun c => negb (c =? slash)) n = true -> (rest = [] \/ exists q, rest = slash :: q) ->
  span_comp (n ++ rest) = (n, rest).
Proof.
  intros Hn Hr. induction n as [|c n IH]; cbn [app].
  - destruct Hr as [->|(q & ->)]; [done|]. cbn [span_comp]. by rewrite Z.eqb_refl.
  - cbn [forallb] in Hn. apply andb_true_iff in Hn as [Hc Hn]. cbn [span_comp].
    destruct (c =? slash); [done|]. by rewrite (IH Hn).
Qed.

Lemma skip_good n rest : good_name n -> skip_slashes (slash :: n ++ rest) = n ++ rest.
Proof.
  intros (Hne & Hs & _). cbn [skip_slashes]. rewrite Z.eqb_refl. destruct n as [|c n]; [done|].
  cbn [forallb] in Hs. apply andb_true_iff in Hs as [Hc _]. cbn [app skip_slashes]. by destruct (c =? slash).
Qed.

Lemma path_of_cons n ns : path_of (n :: ns) = slash :: n ++ path_of ns.
Proof. done. Qed.

Lemma path_of_head ns : path_of ns = [] \/ exists q, path_of ns = slash :: q.
Proof. destruct ns as [|n ns]; [by left|]. right. by exists (n ++ path_of ns). Qed.

Lemma skip_path_of ns : Forall good_name ns -> skip_slashes (path_of ns) = [] -> ns = [].
Proof.
  destruct ns as [|n ns]; [done|]. intros [Hn _]%Forall_cons. rewrite path_of_cons, skip_good by done.
  destruct Hn as (Hne & _). by destruct n.
Qed.

Section Names.
Context (ops_of : Z -> vfs_ops) (fuel : nat) (h : heap) (mf : nat).
Hypothesis tmpfs_table : ops_of TMPFS_OPS = tmpfs_ops fuel h.

(** One plain component. *)
Lemma resolve_step follow wp fl rounds s cur v n c w ns :
  good_name n -> Forall good_name ns -> (wp = true -> ns <> []) ->
  vnodes s !! cur = Some v -> v_ops v = TMPFS_OPS -> v_type v = VNODE_DIR ->
  tmpfs_lookup cur n s = Some c -> c <> 0 -> vnodes s !! c = Some w -> v_mounted w = 0 -> v_type w <> VNODE_LNK ->
  resolve_loop ops_of (S mf) follow wp fl (S rounds) cur (path_of (n :: ns)) s
  = resolve_loop ops_of (S mf) follow wp fl rounds c (path_of ns) s.
Proof.
  intros Hn Hns Hwp Hv Ho Ht Hl Hc Hw Hm Hk. rewrite path_of_cons.
  set (p := path_of ns). cbn [resolve_loop]. rewrite (skip_good n p Hn). pose proof Hn as (Hne & Hs & Hd & Hlen).
  destruct (n ++ p) as [|x q] eqn:Ex; [by destruct n|]. rewrite <- Ex. unfold next_comp.
  rewrite (span_good n p Hs (path_of_head ns)). unfold clip_name. rewrite ztake_all by done.
  assert (El : (match skip_slashes p with [] => true | _ => false end) && wp = false).
  { destruct wp; [|by rewrite andb_false_r]. rewrite andb_true_r. destruct (skip_slashes p) eqn:E; [|done].
    exfalso. by apply Hwp, (skip_path_of ns Hns). }
  rewrite El, Hv. cbn [mbind option_bind]. rewrite Ho, tmpfs_table. cbn [op_lookup tmpfs_ops]. unfold is_type.
  rewrite bool_decide_true by done. cbn [negb]. rewrite bool_decide_false by done. rewrite Hl. cbn [mbind option_bind].
  destruct (Z.eqb_spec c 0) as [|_]; [done|]. cbn [cross_mount]. destruct (Z.eqb_spec c 0) as [|_]; [done|].
  rewrite Hw. cbn [mbind option_bind]. unfold truth. rewrite Hm. cbn [Z.eqb negb]. cbn [mbind option_bind].
  rewrite Hw. cbn [mbind option_bind]. rewrite bool_decide_false by done. cbn [andb mbind option_bind].
  by destruct (Z.eqb_spec c 0).
Qed.

Lemma resolve_reaches follow fl rounds s cur ns vn :
  reaches s cur ns vn -> Forall good_name ns -> (length ns < rounds)%nat ->
  resolve_loop ops_of (S mf) follow false fl rounds cur (path_of ns) s = Some (vn, []).
Proof.
  intros Hr. revert rounds. induction Hr as [cur|cur v n c w ns vn H1 H2 H3 H4 H5 H6 H7 H8 _ IH]; intros rounds Hg Hl.
  - destruct rounds; [lia|done].
  - destruct rounds as [|rounds]; [cbn in Hl; lia|]. apply Forall_cons in Hg as [Hn Hg]. cbn in Hl.
    erewrite resolve_step by done. apply IH; [done|lia].
Qed.

Lemma resolve_reaches_parent follow fl rounds s cur ns dir d leaf :
  reaches s cur ns dir -> Forall good_name ns -> good_name leaf -> (length ns < rounds)%nat ->
  vnodes s !! dir = Some d -> v_type d = VNODE_DIR ->
  resolve_loop ops_of (S mf) follow true fl rounds cur (path_of (ns ++ [leaf])) s = Some (dir, leaf).
Proof.
  intros Hr. revert rounds. induction Hr as [cur|cur v n c w ns vn H1 H2 H3 H4 H5 H6 H7 H8 _ IH]; intros rounds Hg Hleaf Hl Hd Ht.
  - destruct rounds as [|rounds]; [lia|]. cbn [app]. rewrite path_of_cons. cbn [path_of map List.concat resolve_loop].
    rewrite (skip_good leaf [] Hleaf). pose proof Hleaf as (Hne & Hs & _ & Hlen). destruct (leaf ++ []) as [|x q] eqn:Ex.
    { rewrite app_nil_r in Ex. done. }
    rewrite <- Ex. unfold next_comp. rewrite (span_good leaf [] Hs (or_introl eq_refl)). unfold clip_name.
    rewrite ztake_all by done. cbn [skip_slashes andb]. unfold dir_or_null. rewrite Hd. cbn [mbind option_bind].
    unfold is_type. by rewrite bool_decide_true.
  - destruct rounds as [|rounds]; [cbn in Hl; lia|]. apply Forall_cons in Hg as [Hn Hg]. cbn in Hl. cbn [app].
    erewrite resolve_step; [apply IH; [done|done|lia|done|done]|done|apply Forall_app; split; [done|by apply Forall_singleton]|
      intros _ E; by apply app_nil in E as [_ [=]]|done..].
Qed.

End Names.

Lemma path_of_length ns : Forall good_name ns -> (length ns <= length (path_of ns))%nat.
Proof.
  induction ns as [|n ns IH]; [done|]. intros [_ H]%Forall_cons. rewrite path_of_cons. cbn. rewrite length_app.
  specialize (IH H). lia.
Qed.

Lemma absolute_path_of ns : ns <> [] -> absolute (path_of ns) = true.
Proof. destruct ns; [done|]. intros _. reflexivity. Qed.


(** ** Witnesses *)

Definition demo_ops (a : Z) : vfs_ops :=
  if a =? TMPFS_OPS then tmpfs_ops 64 (Heap 500 501 502 503 demo_heap)
  else VfsOps None None None None None None None None None None None.

(** The demo file system with a symlink "l" in "d" that points to itself. *)
Definition loop_link : vnode := Vnode VNODE_LNK TMPFS_OPS 240 4 1 0 0.
Definition demo_loop : fs :=
  Fs (<[140 := loop_link]> (vnodes demo_fs)) (<[210 := [Dirent 304 [108] 140]]> (dirs demo_fs))
     (<[240 := Tfile [47; 100; 47; 108; 0] 5]> (tfiles demo_fs)) 100.

Lemma demo_loop_vnodes a v : vnodes demo_loop !! a = Some v ->
  (a = 140 /\ v = loop_link) \/ (a = 100 /\ v = demo_root) \/ (a = 110 /\ v = demo_dir) \/ (a = 120 /\ v = demo_file).
Proof.
  unfold demo_loop, demo_fs. cbn [vnodes]. rewrite !lookup_insert_Some, lookup_singleton_Some.
  intros [[<- <-]|[_ [[<- <-]|[_ [[<- <-]|[_ [<- <-]]]]]]]; naive_solver.
Qed.

Lemma demo_loop_ok : fs_ok demo_ops demo_loop.
Proof.
  constructor.
  - intros a v [[-> ->]|[[-> ->]|[[-> ->]|[-> ->]]]]%demo_loop_vnodes; by left.
  - intros a v [[-> ->]|[[-> ->]|[[-> ->]|[-> ->]]]]%demo_loop_vnodes Ht; try done.
    + exists demo_entries. split; [vm_compute; reflexivity|]. intros e He. right.
      apply list_elem_of_In in He as [<-|[<-|[]]]; (eexists; vm_compute; reflexivity).
    + exists [Dirent 304 [108] 140]. split; [vm_compute; reflexivity|]. intros e He. right.
      apply list_elem_of_In in He as [<-|[]]. eexists. vm_compute. reflexivity.
  - intros a v [[-> ->]|[[-> ->]|[[-> ->]|[-> ->]]]]%demo_loop_vnodes Ht; try done.
    exists (Tfile [47; 100; 47; 108; 0] 5). split; [vm_compute; reflexivity|]. vm_compute. split; discriminate.
  - intros a v [[-> ->]|[[-> ->]|[[-> ->]|[-> ->]]]]%demo_loop_vnodes; by left.
  - eexists. vm_compute. reflexivity.
Qed.

(** "/d/l", which resolves for ever, gives NULL. *)
Lemma vfs_resolve_total_witness : exists vn, vfs_resolve demo_ops 2 [47; 100; 47; 108] demo_loop = Some vn /\ vn = 0.
Proof.
  destruct (vfs_resolve_total demo_ops 64 (Heap 500 501 502 503 demo_heap) 2 [47; 100; 47; 108] demo_loop) as [(vn & H & _) _].
  - reflexivity.
  - exact demo_loop_ok.
  - lia.
  - exists vn. split; [exact H|]. revert H. vm_compute. by intros [= <-].
Defined.

(** mkdir of the regular file "/f". *)
Lemma vfs_mkdir_answers_witness : vfs_mkdir demo_ops 2 [47; 102] demo_fs = Some (0, demo_fs).
Proof.
  apply (vfs_mkdir_answers demo_ops 64 (Heap 500 501 502 503 demo_heap) 2 [47; 102] demo_fs 100 demo_root [102]).
  - reflexivity.
  - vm_compute. reflexivity.
  - done.
  - done.
  - vm_compute. reflexivity.
  - reflexivity.
  - exists 120. split; [vm_compute; reflexivity|done].
Defined.

Lemma good_demo c : c <> slash -> c <> dot -> good_name [c].
Proof.
  intros H1 H2. split_and!; [done| |congruence|done]. cbn. destruct (Z.eqb_spec c slash); done.
Qed.

