(* ===== verification/Fd.v ===== *)
(** The descriptor layer of [kernel/fs/vfs.c]: per-process tables of descriptors,
    open-file descriptions that dup, fork and clone share under a reference
    count, and their end. *)

From stdpp Require Import base numbers list gmap.
From Stdlib Require Import ZArith Lia.
From S2P Require Import Prelude Buf Pid Proc Sched SchedInv Signal WaitQ Thread Pthread Pipe Tmpfs Vfs.

(** file_t. Its member [used] is always 1. *)
Record file := File { f_vnode : Z; f_offset : Z; f_flags : Z; f_refcount : Z }.

Definition with_offset (o : Z) (f : file) : file := File (f_vnode f) o (f_flags f) (f_refcount f).
Definition with_flags (x : Z) (f : file) : file := File (f_vnode f) (f_offset f) x (f_refcount f).
Definition with_frc (n : Z) (f : file) : file := File (f_vnode f) (f_offset f) (f_flags f) n.

(** The file system, the descriptions, the tables, the members fd_table and fd_rc
    of the processes, the shared counts, the pipes by address, and the scheduler. *)
Record fds := Fds {
  fsy : fs; files : gmap Z file; tables : gmap Z (list Z);
  fd_table_of : Z -> Z; fd_rc_of : Z -> Z; rcs : gmap Z Z;
  pipes : gmap Z pipe; kern : sched
}.

Definition set_fsy (x : fs) (s : fds) : fds :=
  Fds x (files s) (tables s) (fd_table_of s) (fd_rc_of s) (rcs s) (pipes s) (kern s).
Definition set_files (x : gmap Z file) (s : fds) : fds :=
  Fds (fsy s) x (tables s) (fd_table_of s) (fd_rc_of s) (rcs s) (pipes s) (kern s).
Definition set_tables (x : gmap Z (list Z)) (s : fds) : fds :=
  Fds (fsy s) (files s) x (fd_table_of s) (fd_rc_of s) (rcs s) (pipes s) (kern s).
Definition set_proc (p t rc : Z) (s : fds) : fds :=
  Fds (fsy s) (files s) (tables s) (fun q => if q =? p then t else fd_table_of s q)
    (fun q => if q =? p then rc else fd_rc_of s q) (rcs s) (pipes s) (kern s).
Definition set_rcs (x : gmap Z Z) (s : fds) : fds :=
  Fds (fsy s) (files s) (tables s) (fd_table_of s) (fd_rc_of s) x (pipes s) (kern s).
Definition set_pipes (x : gmap Z pipe) (k : sched) (s : fds) : fds :=
  Fds (fsy s) (files s) (tables s) (fd_table_of s) (fd_rc_of s) (rcs s) x k.

Definition empty_table : list Z := replicate (Z.to_nat VFS_MAX_FDS) 0.

Definition set_slot (t fd f : Z) (l : list Z) (s : fds) : fds :=
  set_tables (<[t := <[Z.to_nat fd := f]> l]> (tables s)) s.

(** The table of the current process, made on its first use. [new]: what kcalloc
    returns. *)
Definition fd_table (new : Z) (s : fds) : Z * fds :=
  let cur := current_process (kern s) in
  if cur =? 0 then (0, s)
  else if fd_table_of s cur =? 0 then
    if new =? 0 then (0, s)
    else (new, set_proc cur new (fd_rc_of s cur) (set_tables (<[new := empty_table]> (tables s)) s))
  else (fd_table_of s cur, s).

Definition bad_fd (fd : Z) : bool := (fd <? 0) || (VFS_MAX_FDS <=? fd).

Definition vfs_file (new fd : Z) (s : fds) : option (Z * fds) :=
  let '(t, s) := fd_table new s in
  if (t =? 0) || bad_fd fd then Some (0, s) else
  l ← tables s !! t; f ← l !! Z.to_nat fd; Some (f, s).

Definition is_free (f : Z) : Prop := f = 0.
#[export] Instance is_free_dec f : Decision (is_free f) := decide (f = 0).

(** The first free descriptor from [lo] on. *)
Definition free_from (lo : Z) (l : list Z) : Z :=
  match list_find is_free (zdrop lo l) with Some (i, _) => lo + Z.of_nat i | None => - EMFILE end.

Definition fd_alloc (l : list Z) : Z := free_from 3 l.

(** [f->refcount++]. *)
Definition file_get (f : Z) (s : fds) : option fds :=
  fl ← files s !! f; Some (set_files (<[f := with_frc (s32 (f_refcount fl + 1)) fl]> (files s)) s).

(** &pipe_ops; its operations are those of Pipe.v. *)
Definition PIPE_OPS : Z := 2.

Section Fd.
Context (ops_of : Z -> vfs_ops).
(** net/socket.c: the end of a socket, which sends and wakes. *)
Context (sock_on_vnode_close : Z -> sched -> sched).

(** [new], [nf]: what kcalloc returns for a table and for a description. *)
Definition vfs_open (mf : nat) (new nf : Z) (path : list Z) (flags : Z) (s : fds) : option (Z * fds) :=
  let '(t, s) := fd_table new s in
  if t =? 0 then Some (- ENOMEM, s) else
  vn ← vfs_resolve ops_of mf path (fsy s);
  '(vn, s) ← (if (vn =? 0) && truth (Z.land flags O_CREAT)
              then '(vn, x) ← vfs_create ops_of mf path VNODE_REG (fsy s); Some (vn, set_fsy x s)
              else Some (vn, s));
  if vn =? 0 then Some (- ENOENT, s) else
  v ← vnodes (fsy s) !! vn;
  s ← (match op_truncate (ops_of (v_ops v)) with
       | Some truncate => if truth (Z.land flags O_TRUNC)
                          then '(_, x) ← truncate vn 0 (fsy s); Some (set_fsy x s) else Some s
       | None => Some s
       end);
  l ← tables s !! t;
  let fd := fd_alloc l in
  if fd <? 0 then Some (fd, s)
  else if nf =? 0 then Some (- ENOMEM, s) else
  v ← vnodes (fsy s) !! vn;
  let off := if truth (Z.land flags O_APPEND) then v_size v else 0 in
  let s := set_files (<[nf := File vn off flags 1]> (files s)) s in
  let s := set_fsy (set_vnode vn (with_refcount (u32 (v_refcount v + 1)) v) (fsy s)) s in
  Some (fd, set_slot t fd nf l s).

(** Reads and writes of the file systems that do not wait. *)
Definition vfs_fd_read (new fd n : Z) (s : fds) : option (Z * list Z * fds) :=
  '(f, s) ← vfs_file new fd s;
  if f =? 0 then Some (- EBADF, [], s) else
  fl ← files s !! f;
  '(r, bs) ← vfs_read ops_of (f_vnode fl) n (f_offset fl) (fsy s);
  Some (r, bs, if 0 <? r then set_files (<[f := with_offset (u64 (f_offset fl + r)) fl]> (files s)) s else s).

Definition vfs_fd_write (new fd : Z) (bs : list Z) (s : fds) : option (Z * fds) :=
  '(f, s) ← vfs_file new fd s;
  if f =? 0 then Some (- EBADF, s) else
  fl ← files s !! f;
  v ← vnodes (fsy s) !! f_vnode fl;
  let fl := if truth (Z.land (f_flags fl) O_APPEND) then with_offset (v_size v) fl else fl in
  let s := set_files (<[f := fl]> (files s)) s in
  '(r, x) ← vfs_write ops_of (f_vnode fl) bs (f_offset fl) (fsy s);
  let s := set_fsy x s in
  Some (r, if 0 <? r then set_files (<[f := with_offset (u64 (f_offset fl + r)) fl]> (files s)) s else s).

Definition vfs_lseek (new fd off whence : Z) (s : fds) : option (Z * fds) :=
  '(f, s) ← vfs_file new fd s;
  if f =? 0 then Some (- EBADF, s) else
  fl ← files s !! f;
  v ← vnodes (fsy s) !! f_vnode fl;
  let base := if whence =? SEEK_CUR then f_offset fl else if whence =? SEEK_END then v_size v else 0 in
  let target := s64 (s64 base + off) in
  if target <? 0 then Some (- EINVAL, s)
  else Some (target, set_files (<[f := with_offset target fl]> (files s)) s).

(** The console for the first three descriptors. *)
Definition vfs_fstat (new fd : Z) (s : fds) : option (Z * option stat * fds) :=
  if (0 <=? fd) && (fd <=? 2) then Some (0, Some (Stat (Z.lor 8192 400) 1 0 0 0 0 1281), s) else
  '(f, s) ← vfs_file new fd s;
  if f =? 0 then Some (- EBADF, None, s) else
  fl ← files s !! f;
  if f_vnode fl =? 0 then Some (- EBADF, None, s) else
  v ← vnodes (fsy s) !! f_vnode fl;
  Some (0, Some (fill_stat (f_vnode fl) v), s).

(** The members of a struct linux_dirent64; the padding is zeros. *)
Record linux_dirent64 := Dirent64 { de_ino : Z; de_off : Z; de_reclen : Z; de_type : Z; de_name : list Z }.

(** The offset of d_name. *)
Definition dirent_hdr : Z := 19.
Definition DT_UNKNOWN : Z := 0.
Definition DT_CHR : Z := 2.
Definition DT_DIR : Z := 4.
Definition DT_REG : Z := 8.

Definition dirent_type (dir : Z) (name : list Z) (lookup : option (Z -> list Z -> fs -> option Z)) (x : fs) : option Z :=
  match lookup with
  | None => Some DT_UNKNOWN
  | Some lookup =>
      c ← lookup dir name x;
      if c =? 0 then Some DT_UNKNOWN else
      v ← vnodes x !! c;
      Some (if is_type VNODE_DIR v then DT_DIR else if is_type VNODE_CHR v then DT_CHR else DT_REG)
  end.

(** The loop of getdents over the entries from the offset on: the records, the
    bytes used and the new offset, or the error for a buffer too small for one.
    Each record takes at least 24 bytes, so [n] rounds are enough. *)
Fixpoint getdents_loop (rounds : nat) (dir n used off : Z)
    (readdir : Z -> Z -> Z -> fs -> option (Z * list Z)) (lookup : option (Z -> list Z -> fs -> option Z)) (x : fs)
  : option (Z * list linux_dirent64 * Z) :=
  match rounds with
  | O => None
  | S rounds =>
      let idx := u32 off in
      '(r, name) ← readdir dir idx (VFS_NAME_MAX + 1) x;
      if negb (r =? 0) then Some (used, [], off) else
      let reclen := Z.ldiff (dirent_hdr + len name + 1 + 7) 7 in
      if n <? used + reclen then Some (if used =? 0 then - EINVAL else used, [], off) else
      ty ← dirent_type dir name lookup x;
      '(u, ds, off) ← getdents_loop rounds dir n (used + reclen) (u64 (off + 1)) readdir lookup x;
      Some (u, Dirent64 (idx + 1) (idx + 1) reclen ty name :: ds, off)
  end.

Definition vfs_getdents (new fd n : Z) (s : fds) : option (Z * list linux_dirent64 * fds) :=
  '(f, s) ← vfs_file new fd s;
  if f =? 0 then Some (- EBADF, [], s) else
  fl ← files s !! f;
  if f_vnode fl =? 0 then Some (- EBADF, [], s) else
  v ← vnodes (fsy s) !! f_vnode fl;
  match op_readdir (ops_of (v_ops v)) with
  | None => Some (- ENOTDIR, [], s)
  | Some readdir =>
      if negb (is_type VNODE_DIR v) then Some (- ENOTDIR, [], s) else
      '(r, ds, off) ← getdents_loop (S (Z.to_nat n)) (f_vnode fl) n 0 (f_offset fl) readdir
                         (op_lookup (ops_of (v_ops v))) (fsy s);
      Some (r, ds, set_files (<[f := with_offset off fl]> (files s)) s)
  end.

(** The end of the backing of a description: its vnode. *)
Definition put_vnode (fuel : nat) (fl : file) (s : fds) : option fds :=
  if f_vnode fl =? 0 then Some s else
  v ← vnodes (fsy s) !! f_vnode fl;
  s ← (if is_type VNODE_FIFO v then
         p ← pipes s !! v_priv v;
         '(p, k) ← pipe_detach fuel (v_priv v) (Z.land (f_flags fl) O_ACCMODE) p (kern s);
         Some (set_pipes (<[v_priv v := p]> (pipes s)) k s)
       else Some s);
  let rc := if truth (v_refcount v) then u32 (v_refcount v - 1) else v_refcount v in
  let s := set_fsy (set_vnode (f_vnode fl) (with_refcount rc v) (fsy s)) s in
  Some (if is_type VNODE_FIFO v && (rc =? 0)
        then set_pipes (delete (v_priv v) (pipes s)) (kern s) (set_fsy (free_vnode_obj (f_vnode fl) (fsy s)) s)
        else if is_type VNODE_SOCK v && (rc =? 0)
        then set_pipes (pipes s) (sock_on_vnode_close (f_vnode fl) (kern s))
               (set_fsy (free_vnode_obj (f_vnode fl) (fsy s)) s)
        else s).

Definition file_put (fuel : nat) (f : Z) (s : fds) : option fds :=
  if f =? 0 then Some s else
  fl ← files s !! f;
  let rc := s32 (f_refcount fl - 1) in
  if 0 <? rc then Some (set_files (<[f := with_frc rc fl]> (files s)) s) else
  s ← put_vnode fuel fl s;
  Some (set_files (delete f (files s)) s).

Definition vfs_close (fuel : nat) (new fd : Z) (s : fds) : option (Z * fds) :=
  let '(t, s) := fd_table new s in
  if (t =? 0) || bad_fd fd then Some (- EBADF, s) else
  l ← tables s !! t;
  f ← l !! Z.to_nat fd;
  if f =? 0 then Some (if fd <=? 2 then 0 else - EBADF, s) else
  s ← file_put fuel f (set_slot t fd 0 l s);
  Some (0, s).

Definition vfs_fcntl (new fd cmd arg : Z) (s : fds) : option (Z * fds) :=
  '(f, s) ← vfs_file new fd s;
  if (f =? 0) && ((fd <? 0) || (2 <? fd)) then Some (- EBADF, s)
  else if cmd =? F_GETFL then
    if f =? 0 then Some (O_RDWR, s) else fl ← files s !! f; Some (f_flags fl, s)
  else if cmd =? F_SETFL then
    if f =? 0 then Some (0, s) else
    fl ← files s !! f;
    let m := Z.lor O_APPEND O_NONBLOCK in
    Some (0, set_files (<[f := with_flags (Z.lor (Z.ldiff (f_flags fl) m) (Z.land arg m)) fl]> (files s)) s)
  else if (cmd =? F_GETFD) || (cmd =? F_SETFD) then Some (0, s)
  else if cmd =? F_DUPFD then
    let '(t, s) := fd_table new s in
    if (t =? 0) || (f =? 0) then Some (- EBADF, s) else
    l ← tables s !! t;
    let lo := if s32 arg <? 0 then 0 else s32 arg in
    let i := free_from lo l in
    if i <? 0 then Some (i, s) else
    s ← file_get f (set_slot t i f l s);
    Some (i, s)
  else Some (- EINVAL, s).

(** [vn], [p], [rf], [wf]: what kcalloc returns. *)
Definition vfs_pipe (new vn p rf wf : Z) (s : fds) : option (Z * (Z * Z) * fds) :=
  let '(t, s) := fd_table new s in
  if t =? 0 then Some (- ENOMEM, (0, 0), s)
  else if (vn =? 0) || (p =? 0) || (rf =? 0) || (wf =? 0) then Some (- ENOMEM, (0, 0), s) else
  let '(pp, k) := new_pipe p (kern s) in
  let s0 := set_pipes (<[p := pp]> (pipes s)) k s in
  let s0 := set_fsy (set_vnode vn (Vnode VNODE_FIFO PIPE_OPS p 0 2 0 0) (fsy s0)) s0 in
  let s0 := set_files (<[wf := File vn 0 O_WRONLY 1]> (<[rf := File vn 0 O_RDONLY 1]> (files s0))) s0 in
  l ← tables s !! t;
  let rfd := fd_alloc l in
  if rfd <? 0 then Some (rfd, (0, 0), s) else
  let l1 := <[Z.to_nat rfd := rf]> l in
  let wfd := fd_alloc l1 in
  if wfd <? 0 then Some (wfd, (0, 0), s)
  else Some (0, (rfd, wfd), set_slot t wfd wf l1 s0).

Definition vfs_install_vnode (new nf vn flags : Z) (s : fds) : option (Z * fds) :=
  let '(t, s) := fd_table new s in
  if (t =? 0) || (vn =? 0) then Some (- ENOMEM, s)
  else if nf =? 0 then Some (- ENOMEM, s) else
  l ← tables s !! t;
  let fd := fd_alloc l in
  if fd <? 0 then Some (fd, s)
  else Some (fd, set_slot t fd nf l (set_files (<[nf := File vn 0 flags 1]> (files s)) s)).

Definition vfs_dup2 (fuel : nat) (new oldfd newfd : Z) (s : fds) : option (Z * fds) :=
  let '(t, s) := fd_table new s in
  if t =? 0 then Some (- ENOMEM, s)
  else if bad_fd oldfd then Some (- EBADF, s) else
  l ← tables s !! t;
  f ← l !! Z.to_nat oldfd;
  if f =? 0 then Some (- EBADF, s)
  else if bad_fd newfd then Some (- EBADF, s)
  else if oldfd =? newfd then Some (newfd, s) else
  old ← l !! Z.to_nat newfd;
  s ← (if truth old then file_put fuel old (set_slot t newfd 0 l s) else Some s);
  l ← tables s !! t;
  s ← file_get f (set_slot t newfd f l s);
  Some (newfd, s).

(** fork: the slots of the child, each description counted once more. *)
Fixpoint share_all (l : list Z) (s : fds) : option fds :=
  match l with
  | [] => Some s
  | f :: l => s ← (if truth f then file_get f s else Some s); share_all l s
  end.

Definition vfs_fork_fds (new d p : Z) (s : fds) : option fds :=
  let st := fd_table_of s p in
  if st =? 0 then Some s
  else if new =? 0 then Some s else
  l ← tables s !! st;
  s ← share_all l (set_tables (<[new := l]> (tables s)) s);
  Some (set_proc d new (fd_rc_of s d) s).

(** clone(CLONE_FILES). [new], [nrc]: what kcalloc and kmalloc return. *)
Definition vfs_share_fds (new nrc d p : Z) (s : fds) : option fds :=
  let made := fd_table_of s p =? 0 in
  if made && (new =? 0) then Some s else
  let s := if made then set_proc p new (fd_rc_of s p) (set_tables (<[new := empty_table]> (tables s)) s) else s in
  if (fd_rc_of s p =? 0) && (nrc =? 0) then Some s else
  let s := if fd_rc_of s p =? 0
           then set_proc p (fd_table_of s p) nrc (set_rcs (<[nrc := 1]> (rcs s)) s) else s in
  n ← rcs s !! fd_rc_of s p;
  let s := set_rcs (<[fd_rc_of s p := s32 (n + 1)]> (rcs s)) s in
  Some (set_proc d (fd_table_of s p) (fd_rc_of s p) s).

(** The descriptors from [i] on are closed. *)
Fixpoint close_slots (fuel : nat) (n : nat) (t i : Z) (s : fds) : option fds :=
  match n with
  | O => Some s
  | S n =>
      l ← tables s !! t;
      f ← l !! Z.to_nat i;
      s ← (if truth f then file_put fuel f (set_slot t i 0 l s) else Some s);
      close_slots fuel n t (i + 1) s
  end.

Definition vfs_close_all (fuel : nat) (p : Z) (s : fds) : option fds :=
  let t := fd_table_of s p in
  if t =? 0 then Some s else
  let rc := fd_rc_of s p in
  left ← (if truth rc then n ← rcs s !! rc; Some (s32 (n - 1)) else Some 0);
  let s := if truth rc then set_rcs (<[rc := left]> (rcs s)) s else s in
  let s := set_proc p 0 0 s in
  if 0 <? left then Some s else
  let s := if truth rc then set_rcs (delete rc (rcs s)) s else s in
  s ← close_slots fuel (Z.to_nat VFS_MAX_FDS) t 0 s;
  Some (set_tables (delete t (tables s)) s).

End Fd.

(** * References *)

(** How often [f] stands in a table, and in all tables. *)
Definition cnt (l : list Z) (f : Z) : Z := Z.of_nat (count_occ Z.eq_dec l f).

Definition refs (T : gmap Z (list Z)) (f : Z) : Z := map_fold (fun _ l acc => acc + cnt l f) 0 T.

Lemma refs_insert_new T t l f : T !! t = None -> refs (<[t := l]> T) f = refs T f + cnt l f.
Proof. intros H. unfold refs. rewrite map_fold_insert_L; [done| |done]. intros. lia. Qed.

Lemma refs_delete T t l f : T !! t = Some l -> refs (delete t T) f = refs T f - cnt l f.
Proof.
  intros H. unfold refs. rewrite (map_fold_delete_L _ _ t l T) by (done || intros; lia). lia.
Qed.

Lemma refs_update T t l l' f : T !! t = Some l -> refs (<[t := l']> T) f = refs T f - cnt l f + cnt l' f.
Proof.
  intros H. rewrite <- insert_delete_eq, refs_insert_new, (refs_delete T t l) by (done || apply lookup_delete_eq). done.
Qed.

Lemma cnt_nonneg l f : 0 <= cnt l f.
Proof. unfold cnt. lia. Qed.

Lemma cnt_app l k f : cnt (l ++ k) f = cnt l f + cnt k f.
Proof. unfold cnt. rewrite count_occ_app. lia. Qed.

Lemma cnt_cons x l f : cnt (x :: l) f = (if decide (x = f) then 1 else 0) + cnt l f.
Proof. unfold cnt. cbn. destruct (Z.eq_dec x f), (decide (x = f)); lia. Qed.

Lemma cnt_insert l i x y f : l !! i = Some x ->
  cnt (<[i := y]> l) f = cnt l f - (if decide (x = f) then 1 else 0) + (if decide (y = f) then 1 else 0).
Proof.
  intros H. pose proof (lookup_lt_Some _ _ _ H) as Hl. rewrite insert_take_drop by done.
  rewrite <- (take_drop_middle l i x H) at 3. rewrite !cnt_app, !cnt_cons. lia.
Qed.

Lemma refs_nonneg T f : 0 <= refs T f.
Proof.
  induction T as [|t l T H IH] using map_ind; [done|]. rewrite refs_insert_new by done. pose proof (cnt_nonneg l f). lia.
Qed.

Lemma refs_slot T t l i f : T !! t = Some l -> l !! i = Some f -> 0 < refs T f.
Proof.
  intros Ht Hl. pose proof (refs_delete T t l f Ht) as E. pose proof (refs_nonneg (delete t T) f).
  pose proof (cnt_insert l i f (f + 1) f Hl) as Ec. rewrite decide_True, decide_False in Ec by lia.
  pose proof (cnt_nonneg (<[i := f + 1]> l) f). lia.
Qed.

(** Every description is counted as often as it stands in a table, plus [extra],
    and every descriptor stands for a description. *)
Record balanced (extra : Z -> Z) (s : fds) : Prop := {
  b_file f fl : files s !! f = Some fl -> f <> 0 /\ f_refcount fl = refs (tables s) f + extra f /\ 0 < f_refcount fl;
  b_live f : f <> 0 -> 0 < refs (tables s) f + extra f -> is_Some (files s !! f);
  b_len t l : tables s !! t = Some l -> len l = VFS_MAX_FDS;
}.

(** Nobody comes near 2^31 references. *)
Definition room (s : fds) : Prop := forall f, f <> 0 -> refs (tables s) f < 2 ^ 30.

Definition one (f : Z) : Z -> Z := fun g => if decide (f = g) then 1 else 0.
Definition zero : Z -> Z := fun _ => 0.

(** What the count does not see. *)
Lemma balanced_eq e s s' : files s' = files s -> tables s' = tables s -> balanced e s -> balanced e s'.
Proof. intros E1 E2 []. constructor; rewrite ?E1, ?E2; done. Qed.

Lemma balanced_ext e e' s : (forall f, f <> 0 -> e' f = e f) -> balanced e s -> balanced e' s.
Proof.
  intros E [H1 H2 H3]. constructor; [|intros f Hf; rewrite E by done; by apply H2|done].
  intros f fl Hf. destruct (H1 f fl Hf) as (A & B & C). by rewrite E.
Qed.

(** Changing a slot: the count of what leaves goes over to [extra]. *)
Lemma balanced_slot e s t l i f g :
  tables s !! t = Some l -> l !! Z.to_nat i = Some f -> balanced e s ->
  balanced (fun x => e x + one f x - one g x) (set_slot t i g l s).
Proof.
  intros Ht Hl [H1 H2 H3].
  assert (Er : forall x, refs (tables (set_slot t i g l s)) x = refs (tables s) x - one f x + one g x).
  { intros x. cbn. rewrite (refs_update _ t l) by done. rewrite (cnt_insert l _ f g) by done. unfold one. lia. }
  constructor.
  - intros x fl Hx. rewrite Er. destruct (H1 x fl Hx) as (A & B & C). split_and!; [done|lia|done].
  - intros x Hx Hp. rewrite Er in Hp. apply H2; [done|lia].
  - intros t' l' Hl'. cbn in Hl'. apply lookup_insert_Some in Hl' as [[<- <-]|[_ Hl']]; [|by eapply H3].
    unfold len. rewrite length_insert. by apply (H3 t).
Qed.

Lemma balanced_get e s f s' :
  refs (tables s) f < 2 ^ 31 - 1 -> (forall x, e x <= 0) -> balanced (fun x => e x - one f x) s -> f <> 0 ->
  file_get f s = Some s' -> balanced e s'.
Proof.
  intros Hr He [H1 H2 H3] Hf. unfold file_get. intros (fl & Hfl & [= <-])%bind_Some.
  destruct (H1 f fl Hfl) as (_ & B & C). unfold one in B.
  rewrite decide_True in B by done. specialize (He f). constructor; cbn.
  - intros x gl Hx. apply lookup_insert_Some in Hx as [[<- <-]|[Hne Hx]].
    + cbn. rewrite s32_small by lia. split_and!; [done|lia|lia].
    + destruct (H1 x gl Hx) as (D1 & D2 & D3). unfold one in D2. rewrite decide_False in D2 by done. split_and!; [done|lia|done].
  - intros x Hx Hp. destruct (decide (f = x)) as [->|Hne]; [rewrite lookup_insert_eq; done|].
    rewrite lookup_insert_ne by done. apply H2; [done|]. unfold one. rewrite decide_False by done. lia.
  - done.
Qed.

(** A new description. *)
Lemma balanced_new e s nf fl :
  files s !! nf = None -> nf <> 0 -> f_refcount fl = 1 -> e nf = 0 -> balanced e s ->
  balanced (fun x => e x + one nf x) (set_files (<[nf := fl]> (files s)) s).
Proof.
  intros Hn H0 Hc He [H1 H2 H3].
  assert (Er : refs (tables s) nf = 0).
  { pose proof (refs_nonneg (tables s) nf). destruct (Z.eq_dec (refs (tables s) nf) 0); [done|].
    destruct (H2 nf H0) as [x Hx]; [lia|congruence]. }
  constructor; cbn.
  - intros x gl Hx. unfold one. apply lookup_insert_Some in Hx as [[<- <-]|[Hne Hx]].
    + rewrite decide_True by done. split_and!; [done|lia|lia].
    + rewrite decide_False by done. destruct (H1 x gl Hx) as (A & B & C). split_and!; [done|lia|done].
  - intros x Hx Hp. destruct (decide (nf = x)) as [->|Hne]; [rewrite lookup_insert_eq; done|].
    rewrite lookup_insert_ne by done. apply H2; [done|]. unfold one in Hp. rewrite decide_False in Hp by done. lia.
  - done.
Qed.

(** A description changes, not its count. *)
Lemma balanced_upd e s f fl fl' :
  files s !! f = Some fl -> f_refcount fl' = f_refcount fl -> balanced e s ->
  balanced e (set_files (<[f := fl']> (files s)) s).
Proof.
  intros Hf Hc [H1 H2 H3]. constructor; cbn; [|intros x Hx Hp|done].
  - intros x gl Hx. apply lookup_insert_Some in Hx as [[<- <-]|[_ Hx]]; [rewrite Hc|]; by apply H1.
  - destruct (decide (f = x)) as [->|Hne]; [rewrite lookup_insert_eq; done|]. rewrite lookup_insert_ne by done. by apply H2.
Qed.

Lemma put_vnode_frame close fuel fl s s' : put_vnode close fuel fl s = Some s' -> files s' = files s /\ tables s' = tables s.
Proof.
  unfold put_vnode. destruct (f_vnode fl =? 0); [by intros [= <-]|]. intros (v & _ & (s1 & H1 & H2)%bind_Some)%bind_Some.
  assert (E : files s1 = files s /\ tables s1 = tables s).
  { revert H1. destruct (is_type VNODE_FIFO v); [|by intros [= <-]].
    by intros (p & _ & ([p' k] & _ & [= <-])%bind_Some)%bind_Some. }
  revert H2. destruct (_ && _); [by intros [= <-]|]. destruct (_ && _); by intros [= <-].
Qed.

Lemma balanced_put close fuel f s s' :
  balanced (one f) s -> room s -> file_put close fuel f s = Some s' -> f <> 0 -> balanced zero s' /\ tables s' = tables s.
Proof.
  intros [H1 H2 H3] Hr. unfold file_put. destruct (Z.eqb_spec f 0) as [|H0]; [done|].
  intros (fl & Hfl & Hp)%bind_Some _. destruct (H1 f fl Hfl) as (_ & B & C). specialize (Hr f H0).
  unfold one in B. rewrite decide_True in B by done. rewrite s32_small in Hp by lia.
  assert (Hother : forall x gl, x <> f -> files s !! x = Some gl ->
            x <> 0 /\ f_refcount gl = refs (tables s) x + zero x /\ 0 < f_refcount gl).
  { intros x gl Hne Hx. destruct (H1 x gl Hx) as (D1 & D2 & D3). unfold one in D2. rewrite decide_False in D2 by done.
    unfold zero. split_and!; [done|lia|done]. }
  assert (Hlive : forall x, x <> 0 -> x <> f -> 0 < refs (tables s) x + zero x -> is_Some (files s !! x)).
  { intros x Hx Hne Hpos. apply H2; [done|]. unfold zero in Hpos. unfold one. rewrite decide_False by done. lia. }
  revert Hp. destruct (Z.ltb_spec 0 (f_refcount fl - 1)) as [Hpos|Hnp].
  - intros [= <-]. split; [|done]. constructor; cbn; [|intros x Hx Hp|done].
    + intros x gl Hx. apply lookup_insert_Some in Hx as [[<- <-]|[Hne Hx]]; [|by apply Hother].
      cbn. unfold zero. split_and!; [done|lia|lia].
    + destruct (decide (f = x)) as [->|Hne]; [rewrite lookup_insert_eq; done|]. rewrite lookup_insert_ne by done. by apply Hlive.
  - intros (s1 & [E1 E2]%put_vnode_frame & [= <-])%bind_Some. split; [|done]. constructor; cbn; rewrite ?E1, ?E2; [|intros x Hx Hp|done].
    + intros x gl Hx. apply lookup_delete_Some in Hx as [Hne Hx]. by apply Hother.
    + destruct (decide (f = x)) as [->|Hne]; [unfold zero in Hp; lia|]. rewrite lookup_delete_ne by done. by apply Hlive.
Qed.

(** A new table without descriptors. *)
Lemma cnt_empty n f : f <> 0 -> cnt (replicate n 0) f = 0.
Proof. intros H. induction n as [|n IH]; [done|]. cbn [replicate]. rewrite cnt_cons, IH, decide_False by done. done. Qed.

Lemma balanced_table e s t l :
  tables s !! t = None -> len l = VFS_MAX_FDS -> balanced e s ->
  balanced (fun x => e x - cnt l x) (set_tables (<[t := l]> (tables s)) s).
Proof.
  intros Ht Hl [H1 H2 H3]. constructor; cbn; [intros x gl Hx|intros x Hx Hp|intros t' l' Hl'].
  - rewrite refs_insert_new by done. destruct (H1 x gl Hx) as (A & B & C). split_and!; [done|lia|done].
  - rewrite refs_insert_new in Hp by done. apply H2; [done|lia].
  - apply lookup_insert_Some in Hl' as [[<- <-]|[_ Hl']]; [done|by eapply H3].
Qed.

Lemma balanced_empty_table s t :
  tables s !! t = None -> balanced zero s -> balanced zero (set_tables (<[t := empty_table]> (tables s)) s).
Proof.
  intros Ht Hb. eapply balanced_ext; [|by apply (balanced_table zero s t empty_table)]. intros f Hf.
  unfold zero, empty_table. by rewrite cnt_empty.
Qed.

(** What the heap gives is not in use. *)
Definition fresh_table (s : fds) (t : Z) : Prop := tables s !! t = None.
Definition fresh_file (s : fds) (f : Z) : Prop := files s !! f = None.

Lemma fd_table_balanced new s t s1 :
  fresh_table s new -> balanced zero s -> room s -> fd_table new s = (t, s1) ->
  balanced zero s1 /\ room s1 /\ files s1 = files s.
Proof.
  unfold fresh_table. intros Hn Hb Hr. unfold fd_table. destruct (_ =? 0); [by intros [= <- <-]|].
  destruct (_ =? 0); [|by intros [= <- <-]].
  destruct (Z.eqb_spec new 0) as [|H0]; [by intros [= <- <-]|]. intros [= <- <-].
  pose proof (balanced_empty_table s new Hn Hb) as Hb1.
  split_and!; [by eapply balanced_eq; [..|exact Hb1]| |done].
  intros f Hf. cbn. rewrite refs_insert_new by done. unfold empty_table. rewrite cnt_empty by done. specialize (Hr f Hf). lia.
Qed.

Lemma vfs_file_balanced new fd s f s1 :
  fresh_table s new -> balanced zero s -> room s -> vfs_file new fd s = Some (f, s1) ->
  balanced zero s1 /\ room s1 /\ files s1 = files s.
Proof.
  intros Hn Hb Hr. unfold vfs_file. destruct (fd_table new s) as [t s2] eqn:Et.
  apply fd_table_balanced in Et; [|done..]. destruct (_ || _); [by intros [= <- <-]|].
  by intros (l & _ & (f' & _ & [= <- <-])%bind_Some)%bind_Some.
Qed.

Lemma free_from_slot lo l : 0 <= lo -> 0 <= free_from lo l -> l !! Z.to_nat (free_from lo l) = Some 0.
Proof.
  intros Hlo. unfold free_from. destruct (list_find is_free (zdrop lo l)) as [[i x]|] eqn:E; [|done].
  apply list_find_Some in E as (H & Hx & _). unfold is_free in Hx. subst x. intros _. unfold zdrop in H.
  rewrite lookup_drop in H. rewrite <- H. f_equal. lia.
Qed.

(** A new description takes the slot of a free descriptor. *)
Lemma balanced_install s t l fd nf fl :
  balanced zero s -> tables s !! t = Some l -> l !! Z.to_nat fd = Some 0 ->
  files s !! nf = None -> nf <> 0 -> f_refcount fl = 1 ->
  balanced zero (set_slot t fd nf l (set_files (<[nf := fl]> (files s)) s)).
Proof.
  intros Hb Ht Hl Hn H0 Hc.
  eapply balanced_ext; [|apply (balanced_slot (fun x => zero x + one nf x) _ t l fd 0 nf); [done|done|by apply balanced_new]].
  intros f Hf. unfold one. cbn. rewrite (decide_False (P := 0 = f)) by done. lia.
Qed.

(** A descriptor is closed: its description is put. *)
Lemma balanced_close close fuel s t l fd f s' :
  balanced zero s -> room s -> tables s !! t = Some l -> l !! Z.to_nat fd = Some f -> f <> 0 ->
  file_put close fuel f (set_slot t fd 0 l s) = Some s' ->
  balanced zero s' /\ tables s' = <[t := <[Z.to_nat fd := 0]> l]> (tables s) /\ room s'.
Proof.
  intros Hb Hr Ht Hl Hf Hp.
  assert (Hle : forall g, g <> 0 -> refs (<[t := <[Z.to_nat fd := 0]> l]> (tables s)) g <= refs (tables s) g).
  { intros g Hg. rewrite (refs_update _ t l) by done. rewrite (cnt_insert l _ f 0) by done.
    rewrite (decide_False (P := 0 = g)) by done. destruct (decide (f = g)); lia. }
  assert (Hr1 : room (set_slot t fd 0 l s)).
  { intros g Hg. specialize (Hr g Hg). specialize (Hle g Hg). cbn. lia. }
  apply balanced_put in Hp as [H1 H2]; [|..|done].
  - split_and!; [done|by rewrite H2|]. intros g Hg. rewrite H2. by apply Hr1.
  - eapply balanced_ext; [|by apply (balanced_slot zero s t l fd f 0)].
    intros g Hg. unfold zero, one. rewrite (decide_False (P := 0 = g)) by done. lia.
  - done.
Qed.

(** Another descriptor for a description. *)
Lemma balanced_dup s t l fd f s' :
  balanced zero s -> room s -> tables s !! t = Some l -> l !! Z.to_nat fd = Some 0 -> f <> 0 ->
  file_get f (set_slot t fd f l s) = Some s' -> balanced zero s'.
Proof.
  intros Hb Hr Ht Hl Hf. apply balanced_get; [|done| |done].
  - cbn. rewrite (refs_update _ t l), (cnt_insert l _ 0 f) by done. specialize (Hr f Hf).
    rewrite (decide_True (P := f = f)) by done. destruct (decide (0 = f)); lia.
  - eapply balanced_ext; [|by apply (balanced_slot zero s t l fd 0 f)].
    intros g Hg. unfold zero, one. rewrite (decide_False (P := 0 = g)) by done. lia.
Qed.

(** * The operations *)

Section Preserve.
Context (ops_of : Z -> vfs_ops) (sock_close : Z -> sched -> sched).

Lemma open_balanced mf new nf path flags s r s' :
  balanced zero s -> room s -> fresh_table s new -> fresh_file s nf ->
  vfs_open ops_of mf new nf path flags s = Some (r, s') -> balanced zero s'.
Proof.
  intros Hb Hr Hn Hf. unfold vfs_open. destruct (fd_table new s) as [t s1] eqn:Et.
  apply fd_table_balanced in Et as (Hb1 & Hr1 & Ef); [|done..]. destruct (t =? 0); [by intros [= _ <-]|].
  intros (vn & _ & H)%bind_Some. apply bind_Some in H as ([vn2 s2] & H2 & H).
  assert (E2 : files s2 = files s1 /\ tables s2 = tables s1).
  { revert H2. destruct (_ && _); [|by intros [= _ <-]]. by intros ([vn3 x] & _ & [= _ <-])%bind_Some. }
  destruct E2 as [E2 E2']. apply (balanced_eq zero s1 s2 E2 E2') in Hb1.
  destruct (vn2 =? 0); [by injection H as _ <-|]. apply bind_Some in H as (v & _ & H). apply bind_Some in H as (s3 & H3 & H).
  assert (E3 : files s3 = files s2 /\ tables s3 = tables s2).
  { revert H3. destruct (op_truncate _) as [tr|]; [|by intros [= <-]]. destruct (truth (Z.land flags O_TRUNC)); [|by intros [= <-]].
    by intros ([rr x] & _ & [= <-])%bind_Some. }
  destruct E3 as [E3 E3']. apply (balanced_eq zero s2 s3 E3 E3') in Hb1.
  apply bind_Some in H as (l & Hl & H). destruct (Z.ltb_spec (fd_alloc l) 0) as [|Hfd]; [by injection H as _ <-|].
  destruct (Z.eqb_spec nf 0) as [|H0]; [by injection H as _ <-|]. apply bind_Some in H as (v' & _ & [= _ <-]).
  eapply balanced_eq; [..|apply (balanced_install s3 t l (fd_alloc l) nf (File vn2 (if truth (Z.land flags O_APPEND) then v_size v' else 0) flags 1))];
    try done; [by apply free_from_slot; [lia|]|]. unfold fresh_file in Hf. congruence.
Qed.

Lemma close_balanced fuel new fd s r s' :
  balanced zero s -> room s -> fresh_table s new -> vfs_close sock_close fuel new fd s = Some (r, s') -> balanced zero s'.
Proof.
  intros Hb Hr Hn. unfold vfs_close. destruct (fd_table new s) as [t s1] eqn:Et.
  apply fd_table_balanced in Et as (Hb1 & Hr1 & _); [|done..]. destruct (_ || _); [by intros [= _ <-]|].
  intros (l & Hl & (f & Hf & H)%bind_Some)%bind_Some. destruct (Z.eqb_spec f 0) as [|H0]; [by injection H as _ <-|].
  apply bind_Some in H as (s2 & Hp & [= _ <-]). by apply balanced_close in Hp as [H _].
Qed.

Lemma dup2_balanced fuel new oldfd newfd s r s' :
  balanced zero s -> room s -> fresh_table s new ->
  vfs_dup2 sock_close fuel new oldfd newfd s = Some (r, s') -> balanced zero s'.
Proof.
  intros Hb Hr Hn. unfold vfs_dup2. destruct (fd_table new s) as [t s1] eqn:Et.
  apply fd_table_balanced in Et as (Hb1 & Hr1 & _); [|done..]. destruct (_ =? 0); [by intros [= _ <-]|].
  destruct (bad_fd oldfd); [by intros [= _ <-]|].
  intros (l & Hl & (f & Hf & H)%bind_Some)%bind_Some. destruct (Z.eqb_spec f 0) as [|H0]; [by injection H as _ <-|].
  destruct (bad_fd newfd); [by injection H as _ <-|]. destruct (oldfd =? newfd); [by injection H as _ <-|].
  apply bind_Some in H as (old & Ho & H). apply bind_Some in H as (s2 & H2 & H).
  apply bind_Some in H as (l2 & Hl2 & H). apply bind_Some in H as (s3 & H3 & [= _ <-]).
  assert (E : balanced zero s2 /\ room s2 /\ l2 !! Z.to_nat newfd = Some 0).
  { revert H2. unfold truth. destruct (Z.eqb_spec old 0) as [->|Hne]; cbn [negb].
    - intros [= <-]. split_and!; [done|done|]. by simplify_eq.
    - intros Hp. apply balanced_close in Hp as (A & B & C); [|done..]. split_and!; [done|done|].
      rewrite B, lookup_insert_eq in Hl2. injection Hl2 as <-. apply list_lookup_insert_eq. by eapply lookup_lt_Some. }
  destruct E as (A & B & C). by eapply balanced_dup.
Qed.

(** A second call of fd_table finds what the first one left. *)
Lemma fd_table_again new s t s1 : fd_table new s = (t, s1) -> fd_table new s1 = (t, s1).
Proof.
  unfold fd_table. destruct (Z.eqb_spec (current_process (kern s)) 0) as [E|E].
  - intros [= <- <-]. by rewrite E, Z.eqb_refl.
  - destruct (Z.eqb_spec (fd_table_of s (current_process (kern s))) 0) as [Et|Et].
    + destruct (Z.eqb_spec new 0) as [->|Hn]; intros [= <- <-]; cbn [kern set_proc set_tables fd_table_of].
      * destruct (Z.eqb_spec (current_process (kern s)) 0); [done|]. by rewrite Et.
      * destruct (Z.eqb_spec (current_process (kern s)) 0); [done|]. rewrite Z.eqb_refl. by destruct (Z.eqb_spec new 0).
    + intros [= <- <-]. destruct (Z.eqb_spec (current_process (kern s)) 0); [done|].
      by destruct (Z.eqb_spec (fd_table_of s (current_process (kern s))) 0).
Qed.

Lemma vfs_file_state new fd s f s1 : vfs_file new fd s = Some (f, s1) -> exists t, fd_table new s = (t, s1).
Proof.
  unfold vfs_file. destruct (fd_table new s) as [t s2]. destruct (_ || _); [intros [= <- <-]; by exists t|].
  intros (l & _ & (g & _ & [= <- <-])%bind_Some)%bind_Some. by exists t.
Qed.

Lemma fcntl_balanced new fd cmd arg s r s' :
  balanced zero s -> room s -> fresh_table s new -> vfs_fcntl new fd cmd arg s = Some (r, s') -> balanced zero s'.
Proof.
  intros Hb Hr Hn. unfold vfs_fcntl. intros ([f s1] & Hf & H)%bind_Some.
  destruct (vfs_file_state _ _ _ _ _ Hf) as (t & Et). apply vfs_file_balanced in Hf as (Hb1 & Hr1 & Ef); [|done..].
  destruct (_ && _); [by injection H as _ <-|]. destruct (cmd =? F_GETFL).
  { destruct (f =? 0); [by injection H as _ <-|]. by apply bind_Some in H as (fl & _ & [= _ <-]). }
  destruct (cmd =? F_SETFL).
  { destruct (f =? 0); [by injection H as _ <-|]. apply bind_Some in H as (fl & Hfl & [= _ <-]). by eapply balanced_upd. }
  destruct (_ || _); [by injection H as _ <-|]. destruct (cmd =? F_DUPFD); [|by injection H as _ <-].
  rewrite (fd_table_again _ _ _ _ Et) in H. destruct (Z.eqb_spec f 0) as [->|H0]; [rewrite orb_true_r in H; by injection H as _ <-|].
  rewrite orb_false_r in H. destruct (t =? 0); [by injection H as _ <-|]. apply bind_Some in H as (l & Hl & H).
  set (lo := if s32 arg <? 0 then 0 else s32 arg) in *.
  assert (Hlo : 0 <= lo) by (unfold lo; destruct (Z.ltb_spec (s32 arg) 0); lia).
  destruct (Z.ltb_spec (free_from lo l) 0) as [|Hi]; [by injection H as _ <-|]. apply bind_Some in H as (s3 & H3 & [= _ <-]).
  refine (balanced_dup s1 t l (free_from lo l) f s3 Hb1 Hr1 Hl _ H0 H3). by apply free_from_slot.
Qed.

Lemma install_balanced new nf vn flags s r s' :
  balanced zero s -> room s -> fresh_table s new -> fresh_file s nf ->
  vfs_install_vnode new nf vn flags s = Some (r, s') -> balanced zero s'.
Proof.
  intros Hb Hr Hn Hf. unfold vfs_install_vnode. destruct (fd_table new s) as [t s1] eqn:Et.
  apply fd_table_balanced in Et as (Hb1 & Hr1 & Ef); [|done..]. destruct (_ || _); [by intros [= _ <-]|].
  destruct (Z.eqb_spec nf 0) as [|H0]; [by intros [= _ <-]|]. intros (l & Hl & H)%bind_Some.
  destruct (Z.ltb_spec (fd_alloc l) 0) as [|Hfd]; [by injection H as _ <-|]. injection H as _ <-.
  apply balanced_install; try done; [by apply free_from_slot; [lia|]|]. unfold fresh_file in Hf. congruence.
Qed.

Lemma pipe_balanced new vn p rf wf s r fdp s' :
  balanced zero s -> room s -> fresh_table s new -> fresh_file s rf -> fresh_file s wf -> rf <> wf ->
  vfs_pipe new vn p rf wf s = Some (r, fdp, s') -> balanced zero s'.
Proof.
  unfold fresh_file. intros Hb Hr Hn Hrf Hwf Hne. unfold vfs_pipe. destruct (fd_table new s) as [t s1] eqn:Et.
  apply fd_table_balanced in Et as (Hb1 & Hr1 & Ef); [|done..]. destruct (t =? 0); [by intros [= _ _ <-]|].
  destruct (Z.eqb_spec rf 0) as [->|Hr0]; [rewrite !orb_true_r; by intros [= _ _ <-]|].
  destruct (Z.eqb_spec wf 0) as [->|Hw0]; [rewrite !orb_true_r; by intros [= _ _ <-]|].
  destruct (_ || _ || _ || _); [by intros [= _ _ <-]|]. cbn [new_pipe].
  intros (l & Hl & H)%bind_Some. destruct (Z.ltb_spec (fd_alloc l) 0) as [|Hfd]; [by injection H as _ _ <-|].
  set (l1 := <[Z.to_nat (fd_alloc l) := rf]> l) in *.
  destruct (Z.ltb_spec (fd_alloc l1) 0) as [|Hfd1]; [by injection H as _ _ <-|]. injection H as _ _ <-.
  pose proof (balanced_install s1 t l (fd_alloc l) rf (File vn 0 O_RDONLY 1) Hb1 Hl
    (free_from_slot 3 l ltac:(lia) Hfd) ltac:(congruence) Hr0 eq_refl) as H2.
  eapply balanced_eq; [..|apply (balanced_install _ t l1 (fd_alloc l1) wf (File vn 0 O_WRONLY 1) H2)]; cbn; try done.
  - by rewrite insert_insert_eq.
  - apply lookup_insert_eq.
  - by apply free_from_slot; [lia|].
  - rewrite lookup_insert_ne by done. congruence.
Qed.

Lemma file_get_frame f s s' : file_get f s = Some s' -> tables s' = tables s.
Proof. unfold file_get. by intros (fl & _ & [= <-])%bind_Some. Qed.

Lemma share_all_balanced l s s' :
  (forall f, f <> 0 -> refs (tables s) f < 2 ^ 31 - 1) ->
  balanced (fun x => - cnt l x) s -> share_all l s = Some s' -> balanced zero s' /\ tables s' = tables s.
Proof.
  revert s. induction l as [|f l IH]; intros s Hr Hb; cbn [share_all]; [by intros [= <-]|].
  intros (s1 & H1 & H)%bind_Some. unfold truth in H1. destruct (Z.eqb_spec f 0) as [->|H0]; cbn [negb] in H1.
  - injection H1 as <-. apply IH; [done| |done]. eapply balanced_ext; [|exact Hb]. intros x Hx. cbn.
    rewrite cnt_cons, decide_False by done. lia.
  - pose proof (file_get_frame _ _ _ H1) as Et.
    apply (balanced_get (fun x => - cnt l x)) in H1; [| |intros x; pose proof (cnt_nonneg l x); cbn; lia| |done].
    + apply IH in H; [|by rewrite Et|done]. destruct H as [A B]. split; [done|congruence].
    + by apply Hr.
    + eapply balanced_ext; [|exact Hb]. intros x Hx. cbn. rewrite cnt_cons. unfold one. lia.
Qed.

Lemma cnt_le l f : cnt l f <= len l.
Proof. unfold cnt, len. apply Nat2Z.inj_le, count_occ_bound. Qed.

Lemma fork_balanced new d p s s' :
  balanced zero s -> room s -> fresh_table s new -> vfs_fork_fds new d p s = Some s' -> balanced zero s'.
Proof.
  unfold fresh_table. intros Hb Hr Hn. unfold vfs_fork_fds. destruct (_ =? 0); [by intros [= <-]|].
  destruct (new =? 0); [by intros [= <-]|]. intros (l & Hl & (s1 & H1 & [= <-])%bind_Some)%bind_Some.
  pose proof (b_len _ _ Hb _ _ Hl) as Hlen. apply share_all_balanced in H1 as [H1 _].
  - by eapply balanced_eq; [..|exact H1].
  - intros f Hf. cbn. rewrite refs_insert_new by done. pose proof (cnt_le l f). specialize (Hr f Hf).
    unfold VFS_MAX_FDS in Hlen. lia.
  - eapply balanced_ext; [|by apply (balanced_table zero s new l)]. done.
Qed.

Lemma share_balanced new nrc d p s s' :
  balanced zero s -> room s -> fresh_table s new -> vfs_share_fds new nrc d p s = Some s' -> balanced zero s'.
Proof.
  unfold fresh_table. intros Hb Hr Hn. unfold vfs_share_fds. destruct (_ && _); [by intros [= <-]|].
  set (s1 := if fd_table_of s p =? 0 then _ else s).
  assert (Hb1 : balanced zero s1).
  { unfold s1. destruct (_ =? 0); [|done].
    eapply balanced_eq; [..|exact (balanced_empty_table s new Hn Hb)]; done. }
  destruct (_ && _); [by intros [= <-]|]. intros (n & _ & [= <-])%bind_Some.
  eapply balanced_eq; [..|exact Hb1]; by destruct (fd_rc_of s1 p =? 0).
Qed.

(** The slots below [i] are free. *)
Definition free_below (l : list Z) (i : Z) : Prop := forall j, Z.of_nat j < i -> l !! j = Some 0.

Lemma close_slots_balanced fuel n t i l s s' :
  balanced zero s -> room s -> tables s !! t = Some l -> free_below l i -> 0 <= i ->
  close_slots sock_close fuel n t i s = Some s' ->
  balanced zero s' /\ exists l', tables s' !! t = Some l' /\ free_below l' (i + Z.of_nat n).
Proof.
  revert i l s. induction n as [|n IH]; intros i l s Hb Hr Ht Hf Hi; cbn [close_slots].
  - intros [= <-]. split; [done|]. exists l. by rewrite Z.add_0_r.
  - rewrite Ht. cbn [mbind option_bind]. intros (f & Hl & (s1 & H1 & H)%bind_Some)%bind_Some.
    assert (E : balanced zero s1 /\ room s1 /\ exists l1, tables s1 !! t = Some l1 /\ free_below l1 (i + 1)).
    { revert H1. unfold truth. destruct (Z.eqb_spec f 0) as [->|H0]; cbn [negb].
      - intros [= <-]. split_and!; [done|done|]. exists l. split; [done|]. intros j Hj.
        destruct (Z.eq_dec (Z.of_nat j) i) as [E|]; [|apply Hf; lia]. rewrite <- E, Nat2Z.id in Hl. done.
      - intros Hp. apply balanced_close in Hp as (A & B & C); [|done..]. split_and!; [done|done|].
        exists (<[Z.to_nat i := 0]> l). rewrite B. split; [apply lookup_insert_eq|]. intros j Hj.
        destruct (decide (Z.to_nat i = j)) as [<-|Hne]; [apply list_lookup_insert_eq; by eapply lookup_lt_Some|].
        rewrite list_lookup_insert_ne by done. apply Hf. lia. }
    destruct E as (A & B & (l1 & C & D)). apply (IH (i + 1) l1) in H; [|done..|lia].
    destruct H as (E & l' & F & G). split; [done|]. exists l'. split; [done|].
    replace (i + Z.of_nat (S n)) with (i + 1 + Z.of_nat n) by lia. done.
Qed.

Lemma cnt_all_free l f : f <> 0 -> free_below l (len l) -> cnt l f = 0.
Proof.
  intros Hf Hl. unfold cnt. apply (f_equal Z.of_nat (y := 0%nat)). apply count_occ_not_In. intros Hin%list_elem_of_In.
  apply list_elem_of_lookup in Hin as (j & Hj). pose proof (lookup_lt_Some _ _ _ Hj) as Hlt.
  rewrite (Hl j) in Hj by (unfold len; lia). congruence.
Qed.

Lemma close_all_balanced fuel p s s' :
  balanced zero s -> room s -> vfs_close_all sock_close fuel p s = Some s' -> balanced zero s'.
Proof.
  intros Hb Hr. unfold vfs_close_all. destruct (_ =? 0); [by intros [= <-]|].
  set (t := fd_table_of s p). set (rc := fd_rc_of s p). intros (left & _ & H)%bind_Some. revert H.
  set (s1 := set_proc p 0 0 _).
  assert (E1 : files s1 = files s /\ tables s1 = tables s) by (unfold s1; by destruct (truth rc)).
  destruct E1 as [E1 E2]. clearbody s1. pose proof (balanced_eq zero s s1 E1 E2 Hb) as Hb1.
  destruct (0 <? left); [by intros [= <-]|]. intros (s2 & H2 & [= <-])%bind_Some.
  set (s1' := if truth rc then set_rcs (delete rc (rcs s1)) s1 else s1) in *.
  assert (Hb1' : balanced zero s1') by (eapply balanced_eq; [..|exact Hb1]; unfold s1'; by destruct (truth rc)).
  assert (Hr1 : room s1').
  { intros f Hf. unfold s1'. assert (Et : tables (if truth rc then set_rcs (delete rc (rcs s1)) s1 else s1) = tables s1) by (by destruct (truth rc)).
    rewrite Et, E2. by apply Hr. }
  clearbody s1'. destruct (tables s1' !! t) as [l|] eqn:Et.
  2: { change (Z.to_nat VFS_MAX_FDS) with 32%nat in H2. cbn [close_slots] in H2. rewrite Et in H2. done. }
  apply (close_slots_balanced fuel _ t 0 l) in H2 as (A & l' & B & C); [|done|done|done|intros j Hj; lia|lia].
  pose proof (b_len _ _ A _ _ B) as Hlen. destruct A as [A1 A2 A3]. rewrite Z2Nat.id in C by done. rewrite Z.add_0_l, <- Hlen in C.
  assert (Er : forall f, f <> 0 -> refs (delete t (tables s2)) f = refs (tables s2) f).
  { intros f Hf. rewrite (refs_delete _ t l') by done. rewrite (cnt_all_free l' f Hf C). lia. }
  constructor; cbn; [intros f fl Hf|intros f Hf Hp|intros t' l2 H2].
  - destruct (A1 f fl Hf) as (D1 & D2 & D3). by rewrite Er.
  - rewrite Er in Hp by done. by apply A2.
  - apply lookup_delete_Some in H2 as [_ H2]. by eapply A3.
Qed.

End Preserve.

(** * The theorem *)

(** A call of the descriptor layer by the current process; what the heap gives is
    not in use, and nobody comes near 2^30 references to one description. *)
Inductive fd_step (ops_of : Z -> vfs_ops) (sock_close : Z -> sched -> sched) : fds -> fds -> Prop :=
| D_open mf new nf path flags s r s' :
    room s -> fresh_table s new -> fresh_file s nf ->
    vfs_open ops_of mf new nf path flags s = Some (r, s') -> fd_step ops_of sock_close s s'
| D_close fuel new fd s r s' :
    room s -> fresh_table s new -> vfs_close sock_close fuel new fd s = Some (r, s') -> fd_step ops_of sock_close s s'
| D_dup2 fuel new oldfd newfd s r s' :
    room s -> fresh_table s new ->
    vfs_dup2 sock_close fuel new oldfd newfd s = Some (r, s') -> fd_step ops_of sock_close s s'
| D_fcntl new fd cmd arg s r s' :
    room s -> fresh_table s new -> vfs_fcntl new fd cmd arg s = Some (r, s') -> fd_step ops_of sock_close s s'
| D_pipe new vn p rf wf s r fdp s' :
    room s -> fresh_table s new -> fresh_file s rf -> fresh_file s wf -> rf <> wf ->
    vfs_pipe new vn p rf wf s = Some (r, fdp, s') -> fd_step ops_of sock_close s s'
| D_install new nf vn flags s r s' :
    room s -> fresh_table s new -> fresh_file s nf ->
    vfs_install_vnode new nf vn flags s = Some (r, s') -> fd_step ops_of sock_close s s'
| D_fork new d p s s' :
    room s -> fresh_table s new -> vfs_fork_fds new d p s = Some s' -> fd_step ops_of sock_close s s'
| D_share new nrc d p s s' :
    room s -> fresh_table s new -> vfs_share_fds new nrc d p s = Some s' -> fd_step ops_of sock_close s s'
| D_exit fuel p s s' :
    room s -> vfs_close_all sock_close fuel p s = Some s' -> fd_step ops_of sock_close s s'
| D_read new fd n s r bs s' :
    room s -> fresh_table s new -> vfs_fd_read ops_of new fd n s = Some (r, bs, s') -> fd_step ops_of sock_close s s'
| D_write new fd bs s r s' :
    room s -> fresh_table s new -> vfs_fd_write ops_of new fd bs s = Some (r, s') -> fd_step ops_of sock_close s s'
| D_getdents new fd n s r ds s' :
    room s -> fresh_table s new -> vfs_getdents ops_of new fd n s = Some (r, ds, s') -> fd_step ops_of sock_close s s'
| D_lseek new fd off whence s r s' :
    room s -> fresh_table s new -> vfs_lseek new fd off whence s = Some (r, s') -> fd_step ops_of sock_close s s'.

Lemma fd_step_balanced ops_of sock_close s s' :
  balanced zero s -> fd_step ops_of sock_close s s' -> balanced zero s'.
Proof.
  intros Hb Hs. destruct Hs as [mf new nf path flags s r s' Hr Hn Hf E|fuel new fd s r s' Hr Hn E|fuel new o n s r s' Hr Hn E
    |new fd cmd arg s r s' Hr Hn E|new vn p rf wf s r fdp s' Hr Hn H1 H2 H3 E|new nf vn flags s r s' Hr Hn Hf E
    |new d p s s' Hr Hn E|new nrc d p s s' Hr Hn E|fuel p s s' Hr E|new fd n s r bs s' Hr Hn E|new fd bs s r s' Hr Hn E
    |new fd n s r ds s' Hr Hn E|new fd off whence s r s' Hr Hn E].
  - by eapply open_balanced.
  - by eapply close_balanced.
  - by eapply dup2_balanced.
  - by eapply fcntl_balanced.
  - exact (pipe_balanced _ _ _ _ _ _ _ _ _ Hb Hr Hn H1 H2 H3 E).
  - by eapply install_balanced.
  - by eapply fork_balanced.
  - by eapply share_balanced.
  - by eapply close_all_balanced.
  - apply bind_Some in E as ([f s1] & Hf & E). apply vfs_file_balanced in Hf as (Hb1 & _); [|done..].
    destruct (f =? 0); [by injection E as _ _ <-|]. apply bind_Some in E as (fl & Hfl & ([r' bs'] & _ & [= _ _ <-])%bind_Some).
    destruct (0 <? r'); [by eapply balanced_upd|done].
  - apply bind_Some in E as ([f s1] & Hf & E). apply vfs_file_balanced in Hf as (Hb1 & _); [|done..].
    destruct (f =? 0); [by injection E as _ <-|]. apply bind_Some in E as (fl & Hfl & (v & _ & ([r' x] & _ & [= _ <-])%bind_Some)%bind_Some).
    set (fl' := if truth _ then _ else fl) in *.
    assert (Hrc : f_refcount fl' = f_refcount fl) by (unfold fl'; by destruct (truth _)).
    pose proof (balanced_upd zero s1 f fl fl' Hfl Hrc Hb1) as Hb2.
    destruct (0 <? r'); [|eapply balanced_eq; [..|exact Hb2]; done].
    pose proof (balanced_upd zero _ f fl' (with_offset (u64 (f_offset fl' + r')) fl') (lookup_insert_eq _ _ _) eq_refl Hb2) as Hb3.
    eapply balanced_eq; [..|exact Hb3]; done.
  - apply bind_Some in E as ([f s1] & Hf & E). apply vfs_file_balanced in Hf as (Hb1 & _); [|done..].
    destruct (f =? 0); [by injection E as _ _ <-|]. apply bind_Some in E as (fl & Hfl & E).
    destruct (f_vnode fl =? 0); [by injection E as _ _ <-|]. apply bind_Some in E as (v & _ & E).
    destruct (op_readdir _); [|by injection E as _ _ <-]. destruct (negb _); [by injection E as _ _ <-|].
    apply bind_Some in E as ([[u ds'] off] & _ & [= _ _ <-]). by eapply balanced_upd.
  - apply bind_Some in E as ([f s1] & Hf & E). apply vfs_file_balanced in Hf as (Hb1 & _); [|done..].
    destruct (f =? 0); [by injection E as _ <-|]. apply bind_Some in E as (fl & Hfl & (v & _ & E)%bind_Some).
    cbn zeta in E. destruct (s64 _ <? 0); injection E as _ <-; [done|by eapply balanced_upd].
Qed.


(** ** Witness *)

(** Thread 3000 opens "/f" of the demo file system. *)
Definition demo_fds : fds :=
  Fds demo_fs ∅ ∅ (fun _ => 0) (fun _ => 0) ∅ ∅ demo_runs_3000.

Definition opened (r : option (Z * fds)) : fds := match r with Some (_, s) => s | None => demo_fds end.
Definition result_of (r : option (Z * fds)) : option Z := fst <$> r.

Definition demo_opened : fds := opened (vfs_open demo_ops 2 600 700 [47; 102] O_RDWR demo_fds).

Lemma opened_eq r n : result_of r = Some n -> r = Some (n, opened r).
Proof. destruct r as [[m s]|]; cbn; [|done]. by intros [= ->]. Qed.

