(* ===== verification/Elf.v ===== *)
(** The program loader, [kernel/proc/elf.c], over the address spaces of Vmspace.v
    and the file reads of Vfs.v.

    The loader reads a file through [rd], [vfs_read] of that file: a length and an
    offset give the result and the bytes put in the buffer. Theorems about the
    loaded image are proved for every [rd] that is [FileOf] some contents; tmpfs
    files are an instance. *)

From stdpp Require Import base numbers list gmap.
From Stdlib Require Import ZArith Lia.
From S2P Require Import Prelude Pmm Vm Vmspace Buf Tmpfs Vfs.

(** * Constants (elf.c) *)

Definition ELF_MAGIC : Z := 0x464C457F.
Definition ET_EXEC : Z := 2.
Definition ET_DYN : Z := 3.
Definition PT_LOAD : Z := 1.
Definition PT_PHDR : Z := 6.
Definition PF_X : Z := 1.
Definition PF_W : Z := 2.
Definition USER_VA_MIN : Z := 0x1000.
Definition USER_PIE_BASE : Z := 0x0000200000000000.
Definition USER_SEG_MAX : Z := 16 * 1024 * 1024.
Definition ELF_MAX_PHNUM : Z := 64.
Definition ELF_MAX_TOTAL : Z := 64 * 1024 * 1024.

(** * Headers *)

Record elf64_ehdr := Ehdr {
  e_magic : Z; e_class : Z; e_data : Z; e_version : Z; e_osabi : Z; e_type : Z; e_machine : Z;
  e_version2 : Z; e_entry : Z; e_phoff : Z; e_shoff : Z; e_flags : Z; e_ehsize : Z;
  e_phentsize : Z; e_phnum : Z; e_shentsize : Z; e_shnum : Z; e_shstrndx : Z;
}.

Definition sizeof_ehdr : Z := 64.

Definition as_ehdr (bs : list Z) : elf64_ehdr :=
  let m := bytes_at bs in
  Ehdr (ld32 m 0) (ld8 m 4) (ld8 m 5) (ld8 m 6) (ld8 m 7) (ld16 m 16) (ld16 m 18) (ld32 m 20)
       (ld64 m 24) (ld64 m 32) (ld64 m 40) (ld32 m 48) (ld16 m 52) (ld16 m 54) (ld16 m 56)
       (ld16 m 58) (ld16 m 60) (ld16 m 62).

Record elf64_phdr := Phdr {
  p_type : Z; p_flags : Z; p_offset : Z; p_vaddr : Z; p_paddr : Z; p_filesz : Z;
  p_memsz : Z; p_align : Z;
}.

Definition sizeof_phdr : Z := 56.

Definition as_phdr (bs : list Z) : elf64_phdr :=
  let m := bytes_at bs in
  Phdr (ld32 m 0) (ld32 m 4) (ld64 m 8) (ld64 m 16) (ld64 m 24) (ld64 m 32) (ld64 m 40) (ld64 m 48).

(** What the loader learns for the auxiliary vector (elf.h). *)
Record elf_aux := Aux { at_phdr : Z; at_phent : Z; at_phnum : Z; at_base : Z }.

(** The locals of elf_load that change from one program header to the next. *)
Record locals := Locals { phdr_va : Z; phdr_va_fallback : Z; total_mem : Z; entry_in_x : bool }.

(** * Loading *)

(** The bytes [bs] stored at [a]. *)
Definition mstore (m : mem) (a : Z) (bs : list Z) : mem :=
  fun x => if (a <=? x) && (x <? a + len bs) then u8 (bytes_at bs (x - a)) else m x.

Definition seg_prot (ph : elf64_phdr) : Z :=
  if has (p_flags ph) PF_X then 0
  else if has (p_flags ph) PF_W then Z.lor PAGE_WRITABLE PAGE_NO_EXECUTE
  else PAGE_NO_EXECUTE.

Definition page_down (x : Z) : Z := Z.land x (not64 0xFFF).

Section Loader.

Context (rd : Z -> Z -> option (Z * list Z)).

(** The overlapping slice of the file content of the page at [va], copied to the
    frame [pf]. The result of the read is ignored. *)
Definition copy_slice (ph : elf64_phdr) (seg va pf : Z) (m : mem) : option mem :=
  let pfile_end := u64 (seg + p_filesz ph) in
  let copy_from := if seg <? va then va else seg in
  let copy_to := if u64 (va + 4096) <? pfile_end then u64 (va + 4096) else pfile_end in
  if copy_from <? copy_to then
    let foff := u64 (p_offset ph + u64 (copy_from - seg)) in
    '(_, bs) ← rd (copy_to - copy_from) foff;
    Some (mstore m (pf + (copy_from - va)) bs)
  else Some m.

(** One round of the loop that fills a segment. *)
Definition elf_page (a : address_space) (ph : elf64_phdr) (seg va : Z) (s : vm) : option (Z * vm) :=
  let '(pf, s) := alloc_frame s in
  if pf =? 0 then Some (- ENOMEM, s) else
  let s := with_phys (mfill (phys s) pf 4096 0) s in
  let s := page_setref pf 1 s in
  m ← copy_slice ph seg va pf (phys s);
  let s := with_phys m s in
  let '(rc, s) := vmspace_map a va pf PAGE_WRITABLE s in
  if negb (rc =? 0) then Some (- ENOMEM, (page_decref pf s).2) else Some (0, s).

Fixpoint elf_fill (n : nat) (a : address_space) (ph : elf64_phdr) (seg va : Z) (s : vm) : option (Z * vm) :=
  match n with
  | O => Some (0, s)
  | S n =>
      '(rc, s) ← elf_page a ph seg va s;
      if negb (rc =? 0) then Some (rc, s) else elf_fill n a ph seg (u64 (va + 4096)) s
  end.

(** The pass that gives the pages of a segment their protection. *)
Fixpoint elf_protect (n : nat) (a : address_space) (va prot : Z) (s : vm) : vm :=
  match n with
  | O => s
  | S n =>
      let '(p, s) := vmspace_phys a va s in
      let '(_, s) := vmspace_map a va p prot s in
      elf_protect n a (u64 (va + 4096)) prot s
  end.

(** The checks of a PT_LOAD header against the user window and the limits, with
    the size [total] of the segments before it: 0 or the error. *)
Definition elf_check (bias total : Z) (ph : elf64_phdr) : Z :=
  if USER_SEG_MAX <? p_memsz ph then - ENOMEM else
  if USER_VA_END <? p_vaddr ph then - ENOEXEC else
  let seg := u64 (bias + p_vaddr ph) in
  if seg <? bias then - ENOEXEC else
  if seg <? USER_VA_MIN then - ENOEXEC else
  if u64 (USER_VA_END - p_memsz ph) <? seg then - ENOEXEC else
  if p_memsz ph <? p_filesz ph then - ENOEXEC else
  if ELF_MAX_TOTAL <? u64 (total + p_memsz ph) then - ENOMEM else 0.

(** The body of the loop over the program headers: 0 to go on, or the error
    elf_load returns. *)
Definition elf_segment (a : address_space) (eh : elf64_ehdr) (bias entry_va : Z) (ph : elf64_phdr)
    (w : locals) (s : vm) : option (Z * locals * vm) :=
  if p_type ph =? PT_PHDR
  then Some (0, Locals (u64 (bias + p_vaddr ph)) (phdr_va_fallback w) (total_mem w) (entry_in_x w), s) else
  if negb (p_type ph =? PT_LOAD) || (p_memsz ph =? 0) then Some (0, w, s) else
  let rc := elf_check bias (total_mem w) ph in
  if negb (rc =? 0) then Some (rc, w, s) else
  let seg := u64 (bias + p_vaddr ph) in
  let total := u64 (total_mem w + p_memsz ph) in
  let fallback := if (p_offset ph <=? e_phoff eh) && (e_phoff eh <? u64 (p_offset ph + p_filesz ph))
                  then u64 (seg + u64 (e_phoff eh - p_offset ph)) else phdr_va_fallback w in
  let va_start := page_down seg in
  let va_end := page_down (u64 (u64 (seg + p_memsz ph) + 0xFFF)) in
  let n := Z.to_nat ((va_end - va_start) / 4096) in
  '(rc, s) ← elf_fill n a ph seg va_start s;
  if negb (rc =? 0) then Some (rc, Locals (phdr_va w) fallback total (entry_in_x w), s) else
  let in_x := has (p_flags ph) PF_X && (seg <=? entry_va) && (entry_va <? u64 (seg + p_memsz ph)) in
  Some (0, Locals (phdr_va w) fallback total (in_x || entry_in_x w), elf_protect n a va_start (seg_prot ph) s).

(** The loop over the program headers from header [i] on, [n] of them. *)
Fixpoint elf_phdrs (n : nat) (i : Z) (a : address_space) (eh : elf64_ehdr) (bias entry_va : Z)
    (w : locals) (s : vm) : option (Z * locals * vm) :=
  match n with
  | O => Some (0, w, s)
  | S n =>
      '(r, bs) ← rd sizeof_phdr (u64 (e_phoff eh + i * sizeof_phdr));
      if negb (r =? sizeof_phdr) then Some (- EIO, w, s) else
      '(rc, w, s) ← elf_segment a eh bias entry_va (as_phdr bs) w s;
      if negb (rc =? 0) then Some (rc, w, s) else elf_phdrs n (i + 1) a eh bias entry_va w s
  end.

Definition load_bias (eh : elf64_ehdr) : Z := if e_type eh =? ET_DYN then USER_PIE_BASE else 0.

(** The result, what is written to [*entry] and [*aux] on success, and the state. *)
Definition elf_load (a : address_space) (s : vm) : option (Z * option (Z * elf_aux) * vm) :=
  '(r, bs) ← rd sizeof_ehdr 0;
  if negb (r =? sizeof_ehdr) then Some (- EIO, None, s) else
  let eh := as_ehdr bs in
  if negb (e_magic eh =? ELF_MAGIC) || negb (e_class eh =? 2) then Some (- ENOEXEC, None, s) else
  if negb (e_type eh =? ET_EXEC) && negb (e_type eh =? ET_DYN) then Some (- ENOEXEC, None, s) else
  if (e_phnum eh =? 0) || negb (e_phentsize eh =? sizeof_phdr) then Some (- ENOEXEC, None, s) else
  if ELF_MAX_PHNUM <? e_phnum eh then Some (- ENOEXEC, None, s) else
  let bias := load_bias eh in
  let entry_va := u64 (bias + e_entry eh) in
  '(rc, w, s) ← elf_phdrs (Z.to_nat (e_phnum eh)) 0 a eh bias entry_va (Locals 0 0 0 false) s;
  if negb (rc =? 0) then Some (rc, None, s) else
  if negb (entry_in_x w) then Some (- ENOEXEC, None, s) else
  Some (0, Some (entry_va, Aux (if truth (phdr_va w) then phdr_va w else phdr_va_fallback w)
                               (e_phentsize eh) (e_phnum eh) bias), s).

End Loader.

(** * The image a file describes *)

(** What the loader needs of a file: reads return its bytes, fewer at its end. *)
Class FileOf (rd : Z -> Z -> option (Z * list Z)) (content : list Z) : Prop :=
  read_of : forall n off, 0 <= n -> 0 <= off ->
    rd n off = Some (len (ztake n (zdrop off content)), ztake n (zdrop off content)).

Section Image.

Context (content : list Z).

Definition file_ehdr : elf64_ehdr := as_ehdr (ztake sizeof_ehdr content).

Definition file_phdr (eh : elf64_ehdr) (i : Z) : elf64_phdr :=
  as_phdr (ztake sizeof_phdr (zdrop (u64 (e_phoff eh + i * sizeof_phdr)) content)).

(** The program headers, in order. *)
Definition file_phdrs (eh : elf64_ehdr) : list elf64_phdr :=
  map (fun i => file_phdr eh (Z.of_nat i)) (seq 0 (Z.to_nat (e_phnum eh))).

Definition loads (ph : elf64_phdr) : bool := (p_type ph =? PT_LOAD) && negb (p_memsz ph =? 0).

(** Does the segment of [ph] touch the page at [va]? *)
Definition touches (bias : Z) (ph : elf64_phdr) (va : Z) : bool :=
  (va <? bias + p_vaddr ph + p_memsz ph) && (bias + p_vaddr ph <? va + 4096).

(** Byte [i] of the page at [va] as the segment gives it: file bytes where the
    segment has them, zeros before and behind. *)
Definition seg_byte (bias : Z) (ph : elf64_phdr) (va i : Z) : Z :=
  let seg := bias + p_vaddr ph in
  let from := Z.max seg va in
  if (from <=? va + i) && (va + i <? seg + p_filesz ph)
  then u8 (default 0 (content !! Z.to_nat (u64 (p_offset ph + (from - seg)) + (va + i - from)))) else 0.

(** The page at [va]: its protection and its bytes; the last segment that touches
    it decides. *)
Definition image_step (bias va : Z) (acc : option (Z * (Z -> Z))) (ph : elf64_phdr) : option (Z * (Z -> Z)) :=
  if loads ph && touches bias ph va then Some (seg_prot ph, seg_byte bias ph va) else acc.

Definition image (bias : Z) (phs : list elf64_phdr) (va : Z) : option (Z * (Z -> Z)) :=
  fold_left (image_step bias va) phs None.

End Image.

(** * The state while an image is loaded *)

Definition low_page (va : Z) : Prop := 0 <= va < 2 ^ 47 /\ va mod 4096 = 0.

(** The page of [root] at [va] is what [d] says, in a frame that was free in [s0]. *)
Definition page_is (s0 s : vm) (own : Z -> option place) (root va : Z) (d : option (Z * (Z -> Z))) : Prop :=
  match d with
  | None => translate (phys s) root va = None
  | Some (fl, b) => exists e, translate (phys s) root va = Some e
      /\ has e PAGE_WRITABLE = has fl PAGE_WRITABLE /\ has e PAGE_NO_EXECUTE = has fl PAGE_NO_EXECUTE
      /\ data_frame s own (tbl e) /\ page_used (pmm s0) (tbl e / 4096) = false
      /\ forall i, 0 <= i < 4096 -> phys s (tbl e + i) = b i
  end.

(** [s] is reached from [s0] by loading pages into the space of [root], which now
    holds [img]; nothing else of [s0] has changed. *)
Record loaded (s0 : vm) (own0 : Z -> option place) (root : Z) (s : vm) (own : Z -> option place)
    (img : Z -> option (Z * (Z -> Z))) : Prop := {
  ld_ok : vm_ok s own;
  ld_own : forall f pl, own0 f = Some pl -> own f = Some pl;
  ld_old : forall f, own0 f = None -> page_used (pmm s0) (f / 4096) = true -> own f = None;
  ld_used : forall n, page_used (pmm s0) n = true -> page_used (pmm s) n = true;
  ld_page : forall va, low_page va -> page_is s0 s own root va (img va);
  ld_inj : forall va va' e e', low_page va -> low_page va' ->
    translate (phys s) root va = Some e -> translate (phys s) root va' = Some e' -> tbl e = tbl e' -> va = va';
  ld_data : forall f x, data_frame s0 own0 f -> f <= x < f + 4096 -> phys s x = phys s0 x;
  ld_others : forall root' va, is_space own0 root' -> root' <> root -> user_va va ->
    translate (phys s) root' va = translate (phys s0) root' va;
}.

Lemma low_user va : low_page va -> user_va va.
Proof.
  intros [H _]. unfold user_va. cbn [ix]. unfold VMM_PML4_INDEX. rewrite index_shift by lia.
  rewrite (Z.mod_small va) by lia. rewrite Z.mod_small; [|split; [apply Z.div_pos; lia|]];
    apply Z.div_lt_upper_bound; lia.
Qed.

Lemma low_page_of va va' : low_page va -> low_page va' -> page_of va = page_of va' -> va = va'.
Proof.
  intros [H1 H2] [H3 H4]. unfold page_of. rewrite !Z.mod_small by lia. change (2 ^ 12) with 4096.
  intros E. rewrite (Z.div_mod va 4096), (Z.div_mod va' 4096), E; lia.
Qed.

Lemma low_next va : low_page va -> va + 4096 < 2 ^ 47 -> low_page (u64 (va + 4096)).
Proof.
  intros [H1 H2] H. rewrite u64_small by lia. split; [lia|].
  rewrite Z.add_mod, H2 by lia. done.
Qed.

Definition upd (img : Z -> option (Z * (Z -> Z))) (va : Z) (d : option (Z * (Z -> Z))) (va' : Z) :=
  if va' =? va then d else img va'.

Section Loaded.

Context (s0 : vm) (own0 : Z -> option place) (root : Z).
Context (Hroot : is_space own0 root).

Abbreviation ld := (loaded s0 own0 root).

Lemma loaded_ext s own img img' :
  (forall va, low_page va -> page_is s0 s own root va (img va) -> page_is s0 s own root va (img' va)) ->
  ld s own img -> ld s own img'.
Proof. intros H []. split; auto. Qed.

Lemma data_later s own img f : ld s own img -> data_frame s0 own0 f -> data_frame s own f.
Proof.
  intros L (D1 & D2 & D3). split_and!; [by apply (ld_old _ _ _ _ _ _ L)|done|].
  by apply (ld_used _ _ _ _ _ _ L).
Qed.

(** A frame a page of the space translates to. *)
Lemma page_frame s own img va e :
  ld s own img -> low_page va -> translate (phys s) root va = Some e ->
  data_frame s own (tbl e) /\ page_used (pmm s0) (tbl e / 4096) = false.
Proof.
  intros L Hva He. pose proof (ld_page _ _ _ _ _ _ L va Hva) as P. unfold page_is in P.
  destruct (img va) as [[fl b]|]; [|congruence]. destruct P as (e' & E & _ & _ & D & U & _).
  rewrite He in E. by injection E as ->.
Qed.

(** The pages in use that a step must leave alone: those of [s0] and those of the
    space. *)
Definition kept (s : vm) (n : Z) : Prop :=
  page_used (pmm s0) n = true
  \/ exists va e, low_page va /\ translate (phys s) root va = Some e /\ n = tbl e / 4096.

(** A step that changes no translation and leaves what is kept as it is. *)
Lemma loaded_frame s own img s' own' :
  ld s own img -> vm_ok s' own' ->
  (forall f pl, own f = Some pl -> own' f = Some pl) ->
  (forall f, own f = None -> page_used (pmm s) (f / 4096) = true -> own' f = None) ->
  (forall r va, is_space own r -> user_va va -> translate (phys s') r va = translate (phys s) r va) ->
  (forall n, page_used (pmm s) n = true -> kept s n -> page_used (pmm s') n = true) ->
  (forall f x, data_frame s own f -> kept s (f / 4096) -> f <= x < f + 4096 -> phys s' x = phys s x) ->
  ld s' own' img.
Proof.
  intros L Hok Hown Hnew Htr Hus Hdat.
  assert (Hr : is_space own root) by (by apply (ld_own _ _ _ _ _ _ L)).
  assert (HD : forall f, data_frame s own f -> kept s (f / 4096) -> data_frame s' own' f).
  { intros f (D1 & D2 & D3) Hne. split_and!; [by apply Hnew|done|by apply Hus]. }
  split.
  - done.
  - intros f pl Hf. by apply Hown, (ld_own _ _ _ _ _ _ L).
  - intros f Hf Hu. apply Hnew; [by apply (ld_old _ _ _ _ _ _ L)|]. by apply (ld_used _ _ _ _ _ _ L).
  - intros n Hu. apply Hus; [by apply (ld_used _ _ _ _ _ _ L)|by left].
  - intros va Hva. pose proof (ld_page _ _ _ _ _ _ L va Hva) as P. unfold page_is in *.
    rewrite (Htr root va Hr (low_user va Hva)). destruct (img va) as [[fl b]|]; [|done].
    destruct P as (e & E & E1 & E2 & D & U & B). exists e. assert (kept s (tbl e / 4096)) by (right; by exists va, e).
    split_and!; try done; [by apply HD|]. intros i Hi. rewrite <- B by done. apply (Hdat (tbl e)); done || lia.
  - intros va va' e e' H1 H2. rewrite !Htr by (done || by apply low_user). by apply (ld_inj _ _ _ _ _ _ L).
  - intros f x D Hx. rewrite <- (ld_data _ _ _ _ _ _ L f x D Hx). pose proof (data_later _ _ _ _ L D) as D'.
    apply (Hdat f); [done| |done]. left. apply D.
  - intros r va Hr' Hne Hu. rewrite Htr; [by apply (ld_others _ _ _ _ _ _ L)|by apply (ld_own _ _ _ _ _ _ L)|done].
Qed.

(** Walks that only build tables. *)
Lemma loaded_keeps s own img s' own' : ld s own img -> keeps_trans s own s' own' -> ld s' own' img.
Proof.
  intros L K. apply (loaded_frame s own img); try apply K; try done.
  - split; apply K.
  - intros n Hn _. by apply (kt_used _ _ _ _ K).
  - intros f x (D1 & D2 & D3) _ Hx. by apply (kt_data _ _ _ _ K f).
Qed.

(** A step that gives the page at [va] the entry [e'] and keeps the rest. *)
Lemma loaded_set s own img s' own' va e' fl b :
  ld s own img -> low_page va -> vm_ok s' own' ->
  (forall f pl, own f = Some pl -> own' f = Some pl) ->
  (forall f, own f = None -> page_used (pmm s) (f / 4096) = true -> own' f = None) ->
  others_same own s s' root va ->
  (forall n, page_used (pmm s) n = true ->
     (forall e, translate (phys s) root va = Some e -> tbl e / 4096 = n -> tbl e = tbl e') ->
     page_used (pmm s') n = true) ->
  (forall f x, data_frame s own f -> f <= x < f + 4096 -> phys s' x = phys s x) ->
  translate (phys s') root va = Some e' ->
  has e' PAGE_WRITABLE = has fl PAGE_WRITABLE -> has e' PAGE_NO_EXECUTE = has fl PAGE_NO_EXECUTE ->
  data_frame s own (tbl e') -> page_used (pmm s0) (tbl e' / 4096) = false ->
  (forall va1 e1, low_page va1 -> va1 <> va -> translate (phys s) root va1 = Some e1 -> tbl e1 <> tbl e') ->
  (forall i, 0 <= i < 4096 -> phys s (tbl e' + i) = b i) ->
  ld s' own' (upd img va (Some (fl, b))).
Proof.
  intros L Hva Hok Hown Hnew Hoth Hus Hdat He' Hw Hx De' Ue' Hdis Hb.
  assert (Hr : is_space own root) by (by apply (ld_own _ _ _ _ _ _ L)).
  assert (Htr : forall va1, low_page va1 -> va1 <> va -> translate (phys s') root va1 = translate (phys s) root va1).
  { intros va1 H1 Hne. apply Hoth; [done|by apply low_user|]. intros [= E]. by apply Hne, low_page_of. }
  assert (HD : forall f, data_frame s own f ->
    (forall e, translate (phys s) root va = Some e -> tbl e = f -> f = tbl e') -> data_frame s' own' f).
  { intros f (D1 & D2 & D3) Hf. split_and!; [by apply Hnew|done|]. apply Hus; [done|]. intros e He E.
    assert (E2 : tbl e = f); [|by rewrite E2; apply (Hf e)].
    destruct (page_frame _ _ _ _ _ L Hva He) as [(_ & [_ G2] & _) _]. destruct D2 as [_ D2].
    rewrite (Z.div_mod f 4096), (Z.div_mod (tbl e) 4096), E by lia. lia. }
  assert (HDe : data_frame s' own' (tbl e')) by (by apply HD).
  split.
  - done.
  - intros f pl Hf. by apply Hown, (ld_own _ _ _ _ _ _ L).
  - intros f Hf Hu. apply Hnew; [by apply (ld_old _ _ _ _ _ _ L)|by apply (ld_used _ _ _ _ _ _ L)].
  - intros n Hu. apply Hus; [by apply (ld_used _ _ _ _ _ _ L)|]. intros e He <-.
    destruct (page_frame _ _ _ _ _ L Hva He) as [_ U]. congruence.
  - intros va1 H1. unfold upd. destruct (Z.eqb_spec va1 va) as [->|Hne].
    + exists e'. split_and!; try done. intros i Hi. rewrite <- Hb by done. apply (Hdat (tbl e')); done || lia.
    + pose proof (ld_page _ _ _ _ _ _ L va1 H1) as P. unfold page_is in *. rewrite Htr by done.
      destruct (img va1) as [[fl1 b1]|]; [|done]. destruct P as (e & E & E1 & E2 & D & U & B). exists e.
      split_and!; try done.
      * apply HD; [done|]. intros e0 He0 Heq. exfalso. apply Hne. symmetry.
        eapply (ld_inj _ _ _ _ _ _ L va va1); eauto.
      * intros i Hi. rewrite <- B by done. apply (Hdat (tbl e)); done || lia.
  - intros va1 va2 e1 e2 H1 H2. destruct (decide (va1 = va)) as [->|N1], (decide (va2 = va)) as [->|N2]; [done| | |].
    + rewrite He', Htr by done. intros [= <-] E Heq. by edestruct (Hdis va2 e2).
    + rewrite He', Htr by done. intros E [= <-] Heq. by edestruct (Hdis va1 e1).
    + rewrite !Htr by done. by apply (ld_inj _ _ _ _ _ _ L).
  - intros f x D Hx1. rewrite <- (ld_data _ _ _ _ _ _ L f x D Hx1). apply (Hdat f); [|done].
    by apply (data_later _ _ img).
  - intros r va1 Hr' Hne Hu. rewrite Hoth; [by apply (ld_others _ _ _ _ _ _ L)|by apply (ld_own _ _ _ _ _ _ L)|done|].
    by intros [= ? ?].
Qed.

(** A frame from the allocator, filled in any way. *)
Lemma loaded_alloc s own img pf s1 :
  ld s own img -> alloc_frame s = (pf, s1) ->
  (pf = 0 /\ ld s1 own img) \/
  (pf <> 0 /\ frame_addr pf /\ page_used (pmm s0) (pf / 4096) = false /\ phys s1 = phys s /\
   forall s2, pmm s2 = pmm s1 -> (forall x, ~ (pf <= x < pf + 4096) -> phys s2 x = phys s x) ->
     ld s2 own img /\ data_frame s2 own pf /\
     forall va e, low_page va -> translate (phys s2) root va = Some e -> tbl e <> pf).
Proof.
  intros L EA. destruct (ld_ok _ _ _ _ _ _ L) as [HT H0].
  destruct (alloc_frame_ok s pf s1 (o_pmm _ _ HT) H0 EA) as (q & -> & Hq & _ & HF).
  assert (Hup : forall n, page_used (pmm s) n = true -> page_used q n = true).
  { intros n Hn. destruct HF as [[_ ->]|(_ & _ & ->)]; [done|by rewrite Hn, orb_true_r]. }
  assert (HV : vm_ok (with_pmm q s) own).
  { split; [|cbn; by apply Hup]. destruct HT as [T1 T2 T3 T4]. split; try done.
    intros f pl Hf. cbn. destruct (T3 f pl Hf) as [? Hf']. by rewrite Hup. }
  destruct HF as [[-> _]|(Hpf & Hfree & Hu)]; [left|right].
  - split; [done|]. apply (loaded_frame s own img); try done. intros n Hn _. by apply Hup.
  - assert (Hown : own pf = None).
    { destruct (own pf) as [pl|] eqn:E; [|done]. apply (o_frame _ _ HT) in E as [_ E]. congruence. }
    assert (Hs0 : page_used (pmm s0) (pf / 4096) = false).
    { destruct (page_used (pmm s0) (pf / 4096)) eqn:E; [|done]. apply (ld_used _ _ _ _ _ _ L) in E. congruence. }
    split_and!; [destruct Hpf; lia|done|done|done|]. intros s2 Ep Em.
    destruct (data_store_ok (with_pmm q s) own pf (phys s2) HV Hown Hpf Em) as [[HT2 H02] Htr].
    assert (HV2 : vm_ok s2 own).
    { split; [by eapply tree_ext; [| |exact HT2]|by rewrite Ep]. }
    assert (Hne : forall f, data_frame s own f -> f <> pf) by (intros f (_ & _ & ?) ->; congruence).
    split_and!.
    + apply (loaded_frame s own img); try done.
      * intros r va Hr Hv. by apply Htr.
      * intros n Hn _. rewrite Ep. by apply Hup.
      * intros f x D _ Hx. apply Em. apply (frame_apart f pf); [apply D|done|by apply Hne|done].
    + split_and!; [done|done|]. rewrite Ep. cbn. rewrite Hu. by rewrite bool_decide_true.
    + intros va e Hva. rewrite (proj2 (Htr root va (ld_own _ _ _ _ _ _ L _ _ Hroot) (low_user va Hva))).
      intros He. by apply Hne, (page_frame s own img va).
Qed.

(** A map that fails has only built tables. *)
Lemma map_fails s own a va pf fl rc s' :
  vm_ok s own -> is_space own (pml4_phys a) -> user_va va -> vmspace_map a va pf fl s = (rc, s') -> rc <> 0 ->
  exists w, keeps_trans s own s' w.
Proof.
  intros [HT H0] Hr Hv. unfold vmspace_map. destruct (leaf_slot _ va true s) as [o s1] eqn:EL.
  destruct (leaf_slot_ok s own _ va true o s1 HT H0 Hr Hv EL) as (w & K & _).
  destruct o; intros [= <- <-]; [done|]. by exists w.
Qed.

(** vmspace_map of a frame the space does not use elsewhere. *)
Lemma loaded_map s own img a va pf fl b rc s' :
  ld s own img -> pml4_phys a = root -> low_page va -> 0 <= fl < 2 ^ 64 ->
  data_frame s own pf -> page_used (pmm s0) (pf / 4096) = false ->
  (forall va1 e1, low_page va1 -> va1 <> va -> translate (phys s) root va1 = Some e1 -> tbl e1 <> pf) ->
  (forall i, 0 <= i < 4096 -> phys s (pf + i) = b i) ->
  vmspace_map a va pf fl s = (rc, s') ->
  exists own', (rc = 0 /\ ld s' own' (upd img va (Some (fl, b)))) \/ (rc <> 0 /\ keeps_trans s own s' own').
Proof.
  intros L Ha Hva Hfl Hpf Hpf0 Hdis Hb E. assert (Hr : is_space own root) by (by apply (ld_own _ _ _ _ _ _ L)).
  destruct Hpf as (D1 & D2 & D3). assert (Et : tbl pf = pf) by (by apply tbl_frame). rewrite <- Ha in Hr.
  destruct (decide (rc = 0)) as [->|Hrc].
  2:{ destruct (map_fails s own a va pf fl rc s' (ld_ok _ _ _ _ _ _ L) Hr (low_user va Hva) E Hrc) as [w K].
      exists w. by right. }
  destruct (vmspace_map_ok s own a va pf fl 0 s' (ld_ok _ _ _ _ _ _ L) Hr (low_user va Hva)) as
    (w & V1 & V2 & V3 & V4 & _ & V6 & V7 & V8); [destruct D2; lia|done| |done|].
  { intros e He. rewrite Ha in He. by apply (page_frame s own img va e L Hva). }
  rewrite Ha in *. exists w. left. split; [done|].
  destruct (V4 eq_refl) as (_ & e & T1 & T2 & T3 & T4). rewrite Et in T2.
  apply (loaded_set s own img s' w va e fl b L); rewrite ?T2; try done.
  intros n Hn He. apply V8; [done|]. by rewrite Et.
Qed.

(** Releasing a frame the space does not use. *)
Lemma loaded_decref s own img pf :
  ld s own img -> data_frame s own pf -> page_used (pmm s0) (pf / 4096) = false ->
  (forall va e, low_page va -> translate (phys s) root va = Some e -> tbl e <> pf) ->
  ld (page_decref pf s).2 own img.
Proof.
  intros L (D1 & D2 & D3) Hpf0 Hdis. destruct (ld_ok _ _ _ _ _ _ L) as [HT H0].
  destruct (decref_ok s own pf HT H0 D1 D2) as (P1 & P2 & P3).
  apply (loaded_frame s own img); try done; [by intros; rewrite P1| |by intros; rewrite P1].
  intros n Hn Hk. rewrite decref_used; [done|done|]. intros ->. destruct Hk as [Hk|(va & e & Hva & He & Heq)]; [congruence|].
  apply (Hdis va e Hva He). destruct (page_frame s own img va e L Hva He) as [(_ & [_ G2] & _) _].
  destruct D2 as [_ D2]. rewrite (Z.div_mod (tbl e) 4096), (Z.div_mod pf 4096), Heq by lia. lia.
Qed.

Context (rd : Z -> Z -> option (Z * list Z)) (content : list Z) `{HF : FileOf rd content}.

(** The bounds elf_segment has checked before it loads [ph]. *)
Definition seg_ok (bias : Z) (ph : elf64_phdr) : Prop :=
  USER_VA_MIN <= bias + p_vaddr ph /\ bias + p_vaddr ph + p_memsz ph <= USER_VA_END
  /\ 0 < p_memsz ph <= USER_SEG_MAX /\ 0 <= p_filesz ph <= p_memsz ph.

Lemma copy_slice_ok bias ph va pf m m' :
  seg_ok bias ph -> low_page va -> va + 4096 <= 2 ^ 47 -> va < bias + p_vaddr ph + p_memsz ph ->
  (forall i, 0 <= i < 4096 -> m (pf + i) = 0) ->
  copy_slice rd ph (bias + p_vaddr ph) va pf m = Some m' ->
  (forall x, ~ (pf <= x < pf + 4096) -> m' x = m x) /\
  (forall i, 0 <= i < 4096 -> m' (pf + i) = seg_byte content bias ph va i).
Proof.
  intros (S1 & S2 & S3 & S4) [Hva Hm] Hend Hlt Hz. unfold copy_slice, seg_byte.
  set (seg := bias + p_vaddr ph) in *. unfold USER_VA_MIN, USER_VA_END, USER_SEG_MAX in *.
  rewrite (u64_small (seg + _)), (u64_small (va + 4096)) by lia.
  assert (Ef : (if seg <? va then va else seg) = Z.max seg va) by (destruct (Z.ltb_spec seg va); lia).
  rewrite Ef. set (from := Z.max seg va). set (to := if _ <? seg + p_filesz ph then _ else _).
  assert (Et : to = Z.min (va + 4096) (seg + p_filesz ph)) by (unfold to; destruct (Z.ltb_spec (va + 4096) (seg + p_filesz ph)); lia).
  clearbody to. destruct (Z.ltb_spec from to) as [Hft|Hft].
  2:{ intros [= <-]. split; [done|]. intros i Hi. rewrite Hz by done.
      destruct (Z.leb_spec from (va + i)), (Z.ltb_spec (va + i) (seg + p_filesz ph)); try done. lia. }
  rewrite (u64_small (from - seg)) by lia. set (foff := u64 (p_offset ph + (from - seg))).
  assert (Hfo : 0 <= foff) by apply u64_range. rewrite HF by lia. set (bs := ztake _ _). cbn [mbind option_bind].
  assert (Hlen : len bs <= to - from) by (unfold bs, ztake, len; rewrite length_take; lia).
  intros [= <-]. unfold mstore. split.
  - intros x Hx. destruct (Z.leb_spec (pf + (from - va)) x), (Z.ltb_spec x (pf + (from - va) + len bs)); try done; lia.
  - intros i Hi.
    assert (Hbs : 0 <= va + i - from < to - from ->
      bs !! Z.to_nat (va + i - from) = content !! Z.to_nat (foff + (va + i - from))).
    { intros Hk. unfold bs, ztake, zdrop. rewrite lookup_take_lt by lia. rewrite lookup_drop. f_equal. lia. }
    destruct (Z.leb_spec from (va + i)) as [H1|H1], (Z.ltb_spec (va + i) (seg + p_filesz ph)) as [H2|H2]; cbn [andb];
      destruct (Z.leb_spec (pf + (from - va)) (pf + i)) as [H3|H3], (Z.ltb_spec (pf + i) (pf + (from - va) + len bs)) as [H4|H4];
      cbn [andb]; rewrite ?Hz by done; try lia; try done.
    + unfold bytes_at. replace (pf + i - (pf + (from - va))) with (va + i - from) by lia. by rewrite Hbs by lia.
    + rewrite <- Hbs by lia. rewrite lookup_ge_None_2; [done|]. unfold len in H4. lia.
Qed.

Lemma setref_keeps pf n s : phys (page_setref pf n s) = phys s /\ pmm (page_setref pf n s) = pmm s.
Proof. unfold page_setref. destruct (refcount s); [|done]. by destruct (_ <=? _). Qed.

(** One page of a segment. *)
Lemma elf_page_ok s own img a bias ph va rc s' :
  ld s own img -> pml4_phys a = root -> low_page va -> va + 4096 <= 2 ^ 47 -> seg_ok bias ph ->
  va < bias + p_vaddr ph + p_memsz ph ->
  elf_page rd a ph (bias + p_vaddr ph) va s = Some (rc, s') ->
  exists own', (rc = 0 /\ ld s' own' (upd img va (Some (PAGE_WRITABLE, seg_byte content bias ph va))))
    \/ (rc = - ENOMEM /\ ld s' own' img).
Proof.
  intros L Ha Hva Hend Hs Hlt. unfold elf_page. destruct (alloc_frame s) as [pf s1] eqn:EA.
  destruct (loaded_alloc s own img pf s1 L EA) as [[-> L1]|(Hn & Hpf & H0 & E1 & H2)].
  { intros [= <- <-]. exists own. by right. }
  destruct (Z.eqb_spec pf 0) as [|_]; [done|]. cbn zeta. set (s2 := page_setref pf 1 _).
  destruct (setref_keeps pf 1 (with_phys (mfill (phys s1) pf 4096 0) s1)) as [R1 R2]. fold s2 in R1, R2. clearbody s2.
  cbn in R1, R2. destruct (copy_slice rd ph _ va pf (phys s2)) as [m|] eqn:EC; [|done]. cbn [mbind option_bind].
  destruct (copy_slice_ok bias ph va pf (phys s2) m Hs Hva Hend Hlt) as [C1 C2]; [|exact EC|].
  { intros i Hi. rewrite R1. by rewrite mfill_in by lia. }
  destruct (H2 (with_phys m s2)) as (L2 & D2 & N2).
  { by rewrite <- R2. }
  { intros x Hx. cbn. rewrite C1, R1, E1 by done. apply mfill_out. lia. }
  destruct (vmspace_map a va pf PAGE_WRITABLE (with_phys m s2)) as [rc1 s3] eqn:EM.
  destruct (loaded_map _ own img a va pf PAGE_WRITABLE (seg_byte content bias ph va) rc1 s3 L2 Ha Hva) as
    (w & [[-> L3]|[Hrc K]]); try done; [by intros ? ? ? _; apply N2| |].
  - intros [= <- <-]. exists w. by left.
  - destruct (Z.eqb_spec rc1 0) as [|_]; [done|]. intros [= <- <-]. exists w. right. split; [done|].
    assert (L3 : ld s3 w img) by (by eapply loaded_keeps).
    apply loaded_decref; [done| |done|].
    + destruct D2 as (? & ? & ?). split_and!; [by apply (kt_new _ _ _ _ K)|done|by apply (kt_used _ _ _ _ K)].
    + intros v e Hv. rewrite (kt_trans _ _ _ _ K); [by apply N2| |by apply low_user].
      by apply (ld_own _ _ _ _ _ _ L).
Qed.

Lemma loaded_eq s own img img' : (forall va, low_page va -> img va = img' va) -> ld s own img -> ld s own img'.
Proof. intros H. apply loaded_ext. intros va Hva. by rewrite (H va Hva). Qed.

(** [img] with the [n] pages from [va] on as [d] says. *)
Definition upd_range (img : Z -> option (Z * (Z -> Z))) (va : Z) (n : nat) (d : Z -> Z * (Z -> Z)) (x : Z) :=
  if (va <=? x) && (x <? va + Z.of_nat n * 4096) then Some (d x) else img x.

Lemma upd_range_S img va n d x :
  low_page va -> low_page x ->
  upd_range (upd img va (Some (d va))) (va + 4096) n d x = upd_range img va (S n) d x.
Proof.
  intros [Hv Hm] [Hx Hmx]. unfold upd_range, upd.
  assert (Hd : x < va \/ x = va \/ va + 4096 <= x).
  { pose proof (Z.div_mod va 4096). pose proof (Z.div_mod x 4096). lia. }
  destruct (Z.leb_spec (va + 4096) x), (Z.ltb_spec x (va + 4096 + Z.of_nat n * 4096)), (Z.leb_spec va x),
    (Z.ltb_spec x (va + Z.of_nat (S n) * 4096)), (Z.eqb_spec x va) as [->|]; cbn [andb]; try done; lia.
Qed.

Lemma elf_fill_ok n s own img a bias ph va rc s' :
  ld s own img -> pml4_phys a = root -> low_page va -> va + Z.of_nat n * 4096 <= 2 ^ 47 -> seg_ok bias ph ->
  (n = O \/ va + Z.of_nat n * 4096 < bias + p_vaddr ph + p_memsz ph + 4096) ->
  elf_fill rd n a ph (bias + p_vaddr ph) va s = Some (rc, s') ->
  exists own', (rc = 0 /\ ld s' own' (upd_range img va n (fun x => (PAGE_WRITABLE, seg_byte content bias ph x))))
    \/ (rc = - ENOMEM /\ exists img', ld s' own' img').
Proof.
  revert s own img va. induction n as [|n IH]; intros s own img va L Ha Hva Hend Hs Hlt.
  { intros [= <- <-]. exists own. left. split; [done|]. eapply loaded_eq; [|exact L]. intros x _. unfold upd_range.
    destruct (Z.leb_spec va x), (Z.ltb_spec x (va + Z.of_nat 0 * 4096)); done || lia. }
  cbn [elf_fill]. destruct (elf_page rd a ph _ va s) as [[rc1 s1]|] eqn:EP; [|done]. cbn [mbind option_bind].
  destruct (elf_page_ok s own img a bias ph va rc1 s1 L Ha Hva) as (w & [[-> L1]|[-> L1]]); try done; [lia|lia| |].
  - cbn [Z.eqb negb]. intros EF. destruct n as [|n].
    + injection EF as <- <-. exists w. left. split; [done|]. eapply loaded_eq; [|exact L1]. intros x Hx.
      rewrite <- upd_range_S by done. unfold upd_range at 1.
      destruct (Z.leb_spec (va + 4096) x), (Z.ltb_spec x (va + 4096 + Z.of_nat 0 * 4096)); done || lia.
    + rewrite (u64_small (va + 4096)) in EF by (destruct Hva; lia).
      assert (Hva' : low_page (va + 4096)).
      { rewrite <- (u64_small (va + 4096)) by (destruct Hva; lia). apply low_next; [done|lia]. }
      destruct (IH s1 w _ (va + 4096) L1 Ha Hva') as (w' & [[-> L2]|R]); [lia|done|right; lia|exact EF| |].
      * exists w'. left. split; [done|]. eapply loaded_eq; [|exact L2]. intros x Hx.
        by apply (upd_range_S img va (S n) (fun x => (PAGE_WRITABLE, seg_byte content bias ph x))).
      * exists w'. by right.
  - cbn. intros [= <- <-]. exists w. right. split; [done|]. by exists img.
Qed.

(** A page that translates can be mapped again. *)
Lemma map_succeeds s own a va p fl e :
  vm_ok s own -> is_space own (pml4_phys a) -> user_va va ->
  translate (phys s) (pml4_phys a) va = Some e -> (vmspace_map a va p fl s).1 = 0.
Proof.
  intros [HT H0] Hr Hv. unfold translate.
  destruct (tab (phys s) (pml4_phys a) va 3) as [pt|] eqn:E; [|done]. intros _.
  destruct (leaf_slot_found s own _ va true pt HT H0 Hr Hv E) as [s1 EL]. unfold vmspace_map. by rewrite EL.
Qed.

(** vmspace_phys returns the frame of a page and builds no page. *)
Lemma loaded_phys s own img a va p s1 :
  ld s own img -> pml4_phys a = root -> low_page va -> vmspace_phys a va s = (p, s1) ->
  (exists own', ld s1 own' img) /\ p = match translate (phys s1) root va with Some e => tbl e | None => 0 end.
Proof.
  intros L Ha Hva E. assert (Hr : is_space own root) by (by apply (ld_own _ _ _ _ _ _ L)). pose proof (low_user va Hva) as Hu.
  pose proof (vmspace_phys_ok s own a va (ld_ok _ _ _ _ _ _ L)) as HP. rewrite Ha in HP. specialize (HP Hr Hu).
  assert (HK : exists w, keeps_trans s own (vmspace_phys a va s).2 w).
  { unfold vmspace_phys. destruct (leaf_slot _ va false s) as [o s2] eqn:EL. destruct (ld_ok _ _ _ _ _ _ L) as [HT H0].
    rewrite Ha in EL. destruct (leaf_slot_ok s own root va false o s2 HT H0 Hr Hu EL) as (w & K & _). exists w. by destruct o. }
  destruct HK as [w K]. rewrite E in HP, K. cbn [fst snd] in *. split.
  - exists w. by eapply loaded_keeps.
  - by rewrite (kt_trans _ _ _ _ K).
Qed.

Lemma protect_page_ok s own img a va fl b prot :
  ld s own img -> pml4_phys a = root -> low_page va -> 0 <= prot < 2 ^ 64 -> img va = Some (fl, b) ->
  exists own', ld (let '(p, s) := vmspace_phys a va s in (vmspace_map a va p prot s).2) own' (upd img va (Some (prot, b))).
Proof.
  intros L Ha Hva Hp Hi. pose proof (low_user va Hva) as Hu. destruct (vmspace_phys a va s) as [p s1] eqn:EP.
  destruct (loaded_phys s own img a va p s1 L Ha Hva EP) as [[w L1] ->].
  pose proof (ld_page _ _ _ _ _ _ L1 va Hva) as P. rewrite Hi in P. destruct P as (e & E & _ & _ & D & U & B). rewrite E.
  assert (Hr1 : is_space w (pml4_phys a)) by (rewrite Ha; by apply (ld_own _ _ _ _ _ _ L1)).
  pose proof (map_succeeds s1 w a va (tbl e) prot e (ld_ok _ _ _ _ _ _ L1) Hr1 Hu) as HS. rewrite Ha in HS. specialize (HS E).
  destruct (vmspace_map a va (tbl e) prot s1) as [rc s2] eqn:EM. cbn in HS. subst rc. cbn [snd].
  destruct (loaded_map s1 w img a va (tbl e) prot b 0 s2 L1 Ha Hva) as (w' & [[_ L2]|[? _]]); try done; [|by exists w'].
  intros va1 e1 H1 Hne He1 Heq. apply Hne. by eapply (ld_inj _ _ _ _ _ _ L1).
Qed.

Lemma elf_protect_ok n s own img a va prot b :
  ld s own img -> pml4_phys a = root -> low_page va -> va + Z.of_nat n * 4096 <= 2 ^ 47 -> 0 <= prot < 2 ^ 64 ->
  (forall x, low_page x -> va <= x < va + Z.of_nat n * 4096 -> exists fl, img x = Some (fl, b x)) ->
  exists own', ld (elf_protect n a va prot s) own' (upd_range img va n (fun x => (prot, b x))).
Proof.
  revert s own img va. induction n as [|n IH]; intros s own img va L Ha Hva Hend Hp Hb.
  { exists own. cbn. eapply loaded_eq; [|exact L]. intros x _. unfold upd_range.
    destruct (Z.leb_spec va x), (Z.ltb_spec x (va + Z.of_nat 0 * 4096)); done || lia. }
  destruct (Hb va Hva) as [fl Hfl]; [lia|].
  destruct (protect_page_ok s own img a va fl (b va) prot L Ha Hva Hp Hfl) as [w L1]. cbn [elf_protect].
  destruct (vmspace_phys a va s) as [p s1]. destruct (vmspace_map a va p prot s1) as [rc s2]. cbn [snd] in L1.
  destruct n as [|n].
  { exists w. cbn. eapply loaded_eq; [|exact L1]. intros x Hx. rewrite <- (upd_range_S img va 0 (fun x => (prot, b x))) by done.
    unfold upd_range. destruct (Z.leb_spec (va + 4096) x), (Z.ltb_spec x (va + 4096 + Z.of_nat 0 * 4096)); done || lia. }
  rewrite (u64_small (va + 4096)) by (destruct Hva; lia).
  assert (Hva' : low_page (va + 4096)).
  { rewrite <- (u64_small (va + 4096)) by (destruct Hva; lia). apply low_next; [done|lia]. }
  destruct (IH s2 w _ (va + 4096) L1 Ha Hva') as [w' L2]; [lia|done| |].
  - intros x Hx Hr. unfold upd. destruct (Z.eqb_spec x va); [lia|]. apply Hb; [done|lia].
  - exists w'. eapply loaded_eq; [|exact L2]. intros x Hx.
    by apply (upd_range_S img va (S n) (fun x => (prot, b x))).
Qed.

(** Clearing the low [k] bits. *)
Lemma align_down k x : 0 <= k <= 64 -> 0 <= x < 2 ^ 64 -> Z.land x (not64 (Z.ones k)) = x / 2 ^ k * 2 ^ k.
Proof.
  intros Hk Hx. unfold not64. rewrite <- (Z.shiftl_mul_pow2 _ k), <- (Z.shiftr_div_pow2 x k) by lia.
  apply Z.bits_inj'. intros n Hn. rewrite Z.land_spec, Z.lxor_spec, Z.shiftl_spec by lia.
  change (2 ^ 64 - 1) with (Z.ones 64). destruct (Z.ltb_spec n k).
  - rewrite (Z.testbit_neg_r _ (n - k)) by lia. rewrite !Z.ones_spec_low by lia. by rewrite andb_false_r.
  - rewrite Z.shiftr_spec by lia. replace (n - k + k) with n by lia. rewrite (Z.ones_spec_high k) by lia.
    destruct (Z.ltb_spec n 64); [rewrite Z.ones_spec_low by lia; by rewrite andb_true_r|].
    rewrite Z.ones_spec_high by lia. rewrite andb_false_r. symmetry.
    destruct (Z.eqb_spec x 0) as [->|]; [apply Z.bits_0|]. apply Z.bits_above_log2; [lia|].
    assert (Z.log2 x < 64) by (apply Z.log2_lt_pow2; lia). lia.
Qed.

Lemma page_down_eq x : 0 <= x < 2 ^ 64 -> page_down x = x / 4096 * 4096.
Proof. apply (align_down 12). lia. Qed.

Lemma seg_prot_range ph : 0 <= seg_prot ph < 2 ^ 64.
Proof. unfold seg_prot. destruct (has (p_flags ph) PF_X), (has (p_flags ph) PF_W); by vm_compute. Qed.

(** The pages of a segment: what its two loops run over. *)
Lemma seg_pages bias ph :
  seg_ok bias ph ->
  let seg := bias + p_vaddr ph in
  let va_start := page_down seg in
  let va_end := page_down (u64 (u64 (seg + p_memsz ph) + 0xFFF)) in
  let n := Z.to_nat ((va_end - va_start) / 4096) in
  low_page va_start /\ va_start + Z.of_nat n * 4096 <= 2 ^ 47 /\
  va_start + Z.of_nat n * 4096 < seg + p_memsz ph + 4096 /\
  forall x, low_page x -> (va_start <=? x) && (x <? va_start + Z.of_nat n * 4096) = touches bias ph x.
Proof.
  intros (S1 & S2 & S3 & S4). cbn zeta. unfold touches. set (seg := bias + p_vaddr ph) in *.
  unfold USER_VA_MIN, USER_VA_END, USER_SEG_MAX in *. rewrite (u64_small (seg + _)), u64_small by lia.
  rewrite !page_down_eq by lia.
  pose proof (Z.div_mod seg 4096). pose proof (Z.mod_pos_bound seg 4096).
  pose proof (Z.div_mod (seg + p_memsz ph + 4095) 4096). pose proof (Z.mod_pos_bound (seg + p_memsz ph + 4095) 4096).
  set (i := seg / 4096) in *. set (j := (seg + p_memsz ph + 4095) / 4096) in *.
  replace (j * 4096 - i * 4096) with ((j - i) * 4096) by lia. rewrite Z.div_mul by lia.
  assert (i <= j) by lia. rewrite Z2Nat.id by lia. split_and!; [split; [lia|by apply Z.mod_mul]|lia|lia|].
  intros x [Hx Hm]. pose proof (Z.div_mod x 4096). set (k := x / 4096) in *. apply eq_bool_prop_intro.
  destruct (Z.leb_spec (i * 4096) x), (Z.ltb_spec x (i * 4096 + (j - i) * 4096)),
    (Z.ltb_spec x (seg + p_memsz ph)), (Z.ltb_spec seg (x + 4096)); cbn; naive_solver lia.
Qed.

Definition ph_range (ph : elf64_phdr) : Prop :=
  0 <= p_vaddr ph < 2 ^ 64 /\ 0 <= p_memsz ph < 2 ^ 64 /\ 0 <= p_filesz ph < 2 ^ 64.

Definition bias_ok (bias : Z) : Prop := bias = 0 \/ bias = USER_PIE_BASE.

(** The entry point lies in the executable segment of [ph]. *)
Definition enters (bias entry_va : Z) (ph : elf64_phdr) : bool :=
  loads ph && has (p_flags ph) PF_X && (bias + p_vaddr ph <=? entry_va)
  && (entry_va <? bias + p_vaddr ph + p_memsz ph).

Definition load_size (ph : elf64_phdr) : Z := if loads ph then p_memsz ph else 0.

Lemma elf_check_ok bias total ph :
  bias_ok bias -> ph_range ph -> p_memsz ph <> 0 -> 0 <= total <= ELF_MAX_TOTAL ->
  (elf_check bias total ph = 0 /\ seg_ok bias ph /\ 0 <= total + p_memsz ph <= ELF_MAX_TOTAL)
  \/ elf_check bias total ph < 0.
Proof.
  intros Hbias (R1 & R2 & R3) Hm0 Htot. unfold elf_check, seg_ok.
  assert (Hb : 0 <= bias <= USER_PIE_BASE) by (destruct Hbias as [-> | ->]; by vm_compute).
  change USER_VA_END with (2 ^ 47) in *. change USER_PIE_BASE with (2 ^ 45) in *. change USER_SEG_MAX with (2 ^ 24) in *.
  change ELF_MAX_TOTAL with (2 ^ 26) in *. cbn zeta.
  destruct (Z.ltb_spec (2 ^ 24) (p_memsz ph)); [by right|].
  destruct (Z.ltb_spec (2 ^ 47) (p_vaddr ph)); [by right|]. rewrite !u64_small by lia. repeat zif; (by right) || (left; lia).
Qed.

(** One program header. *)
Lemma elf_segment_ok s own img a eh bias entry_va ph w rc w' s' :
  ld s own img -> pml4_phys a = root -> bias_ok bias -> ph_range ph -> 0 <= total_mem w <= ELF_MAX_TOTAL ->
  elf_segment rd a eh bias entry_va ph w s = Some (rc, w', s') ->
  exists own', (rc = 0 /\ ld s' own' (fun va => image_step content bias va (img va) ph)
                /\ (loads ph = true -> seg_ok bias ph)
                /\ entry_in_x w' = enters bias entry_va ph || entry_in_x w
                /\ total_mem w' = total_mem w + load_size ph /\ 0 <= total_mem w' <= ELF_MAX_TOTAL)
    \/ (rc < 0 /\ exists img', ld s' own' img').
Proof.
  intros L Ha Hbias R Htot. unfold elf_segment.
  assert (Hskip : forall w1, loads ph = false -> Some (0, w1, s) = Some (rc, w', s') ->
      entry_in_x w1 = entry_in_x w -> total_mem w1 = total_mem w ->
      rc = 0 /\ ld s' own (fun va => image_step content bias va (img va) ph)
      /\ (loads ph = true -> seg_ok bias ph) /\ entry_in_x w' = enters bias entry_va ph || entry_in_x w
      /\ total_mem w' = total_mem w + load_size ph /\ 0 <= total_mem w' <= ELF_MAX_TOTAL).
  { intros w1 E [= <- <- <-] -> ->. unfold enters, load_size. rewrite E. split_and!; done || lia || idtac.
    eapply loaded_eq; [|exact L]. intros x _. unfold image_step. by rewrite E. }
  destruct (Z.eqb_spec (p_type ph) PT_PHDR) as [Ep|_].
  { intros E. exists own. left. eapply Hskip; [|exact E|done|done]. unfold loads. by rewrite Ep. }
  destruct (negb (p_type ph =? PT_LOAD) || (p_memsz ph =? 0)) eqn:El.
  { intros E. exists own. left. eapply Hskip; [|exact E|done|done]. unfold loads.
    by destruct (p_type ph =? PT_LOAD), (p_memsz ph =? 0). }
  assert (Hl : loads ph = true) by (unfold loads; by destruct (p_type ph =? PT_LOAD), (p_memsz ph =? 0)).
  assert (Hm0 : p_memsz ph <> 0) by (intros E; rewrite E in El; by destruct (p_type ph =? PT_LOAD)).
  clear El Hskip. cbn zeta.
  destruct (elf_check_ok bias (total_mem w) ph Hbias R Hm0 Htot) as [(-> & Hs & Ht)|Hc].
  2:{ destruct (Z.eqb_spec (elf_check bias (total_mem w) ph) 0); [lia|]. intros [= <- <- <-]. exists own. right.
      split; [done|]. by exists img. }
  pose proof Hs as (S1 & S2 & S3 & S4). change USER_VA_MIN with 0x1000 in S1. change USER_VA_END with (2 ^ 47) in S2.
  change ELF_MAX_TOTAL with (2 ^ 26) in *. cbn [Z.eqb negb].
  destruct (seg_pages bias ph Hs) as (P1 & P2 & P3 & P4). rewrite (u64_small (bias + _)), (u64_small (total_mem w + _)) by lia.
  set (n := Z.to_nat _) in *. set (va := page_down (bias + p_vaddr ph)) in *. clearbody n va.
  destruct (elf_fill rd n a ph _ va s) as [[rc1 s1]|] eqn:EF; [|done]. cbn [mbind option_bind].
  destruct (elf_fill_ok n s own img a bias ph va rc1 s1 L Ha P1 P2 Hs (or_intror P3) EF) as (o & [[-> L1]|[-> [i' L1]]]).
  2:{ intros [= <- _ <-]. exists o. right. split; [done|]. by exists i'. }
  cbn [Z.eqb negb]. intros [= <- <- <-].
  destruct (elf_protect_ok n s1 o _ a va (seg_prot ph) (seg_byte content bias ph) L1 Ha P1 P2 (seg_prot_range ph)) as [o' L2].
  { intros x Hx Hr. exists PAGE_WRITABLE. unfold upd_range.
    destruct (Z.leb_spec va x); [|lia]. destruct (Z.ltb_spec x (va + Z.of_nat n * 4096)); [done|lia]. }
  exists o'. left. cbn [entry_in_x total_mem]. unfold enters, load_size. rewrite Hl, u64_small by lia.
  split_and!; done || lia || idtac. eapply loaded_eq; [|exact L2]. intros x Hx.
  unfold upd_range, image_step. rewrite (P4 x Hx), Hl. by destruct (touches bias ph x).
Qed.

Lemma file_phdr_range eh i : ph_range (file_phdr content eh i).
Proof. unfold ph_range, file_phdr, as_phdr. cbn [p_vaddr p_memsz p_filesz]. split_and!; apply ld64_range. Qed.

Definition image_size (phs : list elf64_phdr) : Z := foldr (fun ph n => load_size ph + n) 0 phs.

(** The headers from [i] on. *)
Lemma elf_phdrs_ok n i s own img a eh bias entry_va w rc w' s' :
  ld s own img -> pml4_phys a = root -> bias_ok bias -> 0 <= total_mem w <= ELF_MAX_TOTAL ->
  elf_phdrs rd n (Z.of_nat i) a eh bias entry_va w s = Some (rc, w', s') ->
  let phs := map (fun i => file_phdr content eh (Z.of_nat i)) (seq i n) in
  exists own', (rc = 0 /\ ld s' own' (fun va => fold_left (image_step content bias va) phs (img va))
                /\ Forall (fun ph => loads ph = true -> seg_ok bias ph) phs
                /\ entry_in_x w' = existsb (enters bias entry_va) phs || entry_in_x w
                /\ total_mem w + image_size phs <= ELF_MAX_TOTAL)
    \/ (rc < 0 /\ exists img', ld s' own' img').
Proof.
  intros L Ha Hb. revert i s own img w L. induction n as [|n IH]; intros i s own img w L Ht; cbn [elf_phdrs seq map].
  { intros [= <- <- <-]. exists own. left. split_and!; try done. cbn. lia. }
  rewrite HF by (done || apply u64_range). cbn [mbind option_bind]. fold (file_phdr content eh (Z.of_nat i)).
  destruct (len _ =? sizeof_phdr); cbn [negb].
  2:{ intros [= <- <- <-]. exists own. right. split; [done|]. by exists img. }
  destruct (elf_segment rd a eh bias entry_va _ w s) as [[[rc1 w1] s1]|] eqn:ES; [|done]. cbn [mbind option_bind].
  destruct (elf_segment_ok s own img a eh bias entry_va _ w rc1 w1 s1 L Ha Hb (file_phdr_range eh (Z.of_nat i)) Ht ES)
    as (o & [(-> & L1 & S1 & X1 & T1 & T2)|[Hrc [i' L1]]]).
  2:{ destruct (Z.eqb_spec rc1 0); [lia|]. intros [= <- <- <-]. exists o. right. split; [done|]. by exists i'. }
  cbn [Z.eqb negb]. replace (Z.of_nat i + 1) with (Z.of_nat (S i)) by lia. intros E.
  destruct (IH (S i) s1 o _ w1 L1 T2 E) as (o' & [(-> & L2 & S2 & X2 & T3)|R]); exists o'; [left|by right].
  split_and!; [done|exact L2|by constructor| |unfold image_size in *; cbn [foldr]; lia].
  rewrite X2, X1. cbn [existsb]. by destruct (enters _ _ _), (existsb _ _).
Qed.

End Loaded.

(** * Theorems *)

(** A space with no page below the kernel half. *)
Definition empty_space (s : vm) (root : Z) : Prop :=
  forall va, low_page va -> translate (phys s) root va = None.

Lemma loaded_start s own root :
  vm_ok s own -> empty_space s root -> loaded s own root s own (fun _ => None).
Proof.
  intros Hok He. split; try done. intros va va' e e' H1 _ H2. by rewrite (He va H1) in H2.
Qed.

Lemma elf_load_loaded rd content `{FileOf rd content} s own a rc out s' :
  vm_ok s own -> is_space own (pml4_phys a) -> empty_space s (pml4_phys a) ->
  elf_load rd a s = Some (rc, out, s') ->
  let eh := file_ehdr content in
  let bias := load_bias eh in
  let phs := file_phdrs content eh in
  (rc < 0 /\ out = None /\ exists own' img, loaded s own (pml4_phys a) s' own' img)
  \/ (rc = 0 /\ exists own' entry aux, out = Some (entry, aux)
      /\ loaded s own (pml4_phys a) s' own' (image content bias phs)
      /\ Forall (fun ph => loads ph = true -> seg_ok bias ph) phs
      /\ existsb (enters bias entry) phs = true /\ image_size phs <= ELF_MAX_TOTAL).
Proof.
  intros Hok Hr Hemp. unfold elf_load. rewrite (read_of sizeof_ehdr 0) by done. cbn [mbind option_bind].
  change (zdrop 0 content) with content. fold (file_ehdr content). cbn zeta.
  set (eh := file_ehdr content). pose proof (loaded_start s own _ Hok Hemp) as L.
  assert (Herr : forall e, 0 < e -> Some (- e, None, s) = Some (rc, out, s') ->
    rc < 0 /\ out = None /\ exists own' img, loaded s own (pml4_phys a) s' own' img).
  { intros e He [= <- <- <-]. split_and!; [lia|done|]. by exists own, (fun _ => None). }
  destruct (negb (len _ =? _)); [left; by apply (Herr EIO)|].
  destruct (_ || _); [left; by apply (Herr ENOEXEC)|]. destruct (_ && _); [left; by apply (Herr ENOEXEC)|].
  destruct (_ || _); [left; by apply (Herr ENOEXEC)|]. destruct (ELF_MAX_PHNUM <? _); [left; by apply (Herr ENOEXEC)|].
  destruct (elf_phdrs rd _ 0 a eh _ _ _ s) as [[[rc1 w1] s1]|] eqn:EP; [|done]. cbn [mbind option_bind].
  assert (Hb : bias_ok (load_bias eh)) by (unfold load_bias, bias_ok; destruct (_ =? _); auto).
  destruct (elf_phdrs_ok s own (pml4_phys a) Hr rd content (Z.to_nat (e_phnum eh)) 0 s own (fun _ => None) a eh
    (load_bias eh) (u64 (load_bias eh + e_entry eh)) (Locals 0 0 0 false) rc1 w1 s1 L eq_refl Hb) as
    (o & [(-> & L1 & S1 & X1 & T1)|[Hrc [i' L1]]]); [done|exact EP| |].
  - cbn [Z.eqb negb]. cbn [entry_in_x] in X1. rewrite orb_false_r in X1.
    destruct (entry_in_x w1); cbn [negb]; intros [= <- <- <-].
    + right. split; [done|]. eexists o, _, _. split_and!; [done|exact L1|exact S1|by symmetry|exact T1].
    + left. split_and!; [done|done|]. by eexists o, _.
  - destruct (Z.eqb_spec rc1 0); [lia|]. intros [= <- <- <-]. left. split_and!; [done|done|]. by exists o, i'.
Qed.

Lemma elf_page_total rd content `{FileOf rd content} a ph seg va s : exists rc s', elf_page rd a ph seg va s = Some (rc, s').
Proof.
  unfold elf_page. destruct (alloc_frame s) as [pf s1]. destruct (pf =? 0); [by eexists _, _|]. cbn zeta.
  assert (HC : exists m, copy_slice rd ph seg va pf (phys (page_setref pf 1 (with_phys (mfill (phys s1) pf 4096 0) s1))) = Some m).
  { unfold copy_slice. set (from := if seg <? va then va else seg). set (to := if u64 (va + 4096) <? _ then _ else _).
    destruct (Z.ltb_spec from to) as [Hft|]; [|by eexists]. rewrite read_of by (lia || apply u64_range). by eexists. }
  destruct HC as [m ->]. cbn [mbind option_bind]. destruct (vmspace_map a va pf PAGE_WRITABLE _) as [rc s2].
  destruct (negb (rc =? 0)); by eexists _, _.
Qed.

Lemma elf_fill_total rd content `{FileOf rd content} n a ph seg va s : exists rc s', elf_fill rd n a ph seg va s = Some (rc, s').
Proof.
  revert va s. induction n as [|n IH]; intros va s; cbn [elf_fill]; [by eexists _, _|].
  destruct (elf_page_total rd content a ph seg va s) as (rc & s1 & ->). cbn [mbind option_bind].
  destruct (negb (rc =? 0)); [by eexists _, _|apply IH].
Qed.

Lemma elf_phdrs_total rd content `{FileOf rd content} n i a eh bias entry_va w s :
  exists rc w' s', elf_phdrs rd n i a eh bias entry_va w s = Some (rc, w', s').
Proof.
  revert i w s. induction n as [|n IH]; intros i w s; cbn [elf_phdrs]; [by eexists _, _, _|].
  rewrite read_of by (done || apply u64_range). cbn [mbind option_bind].
  destruct (negb (len _ =? _)); [by eexists _, _, _|]. set (ph := as_phdr _).
  assert (HS : exists rc w' s', elf_segment rd a eh bias entry_va ph w s = Some (rc, w', s')).
  { unfold elf_segment. destruct (p_type ph =? PT_PHDR); [by eexists _, _, _|]. destruct (_ || _); [by eexists _, _, _|].
    cbn zeta. destruct (negb (_ =? 0)); [by eexists _, _, _|].
    match goal with |- context [elf_fill rd ?n a ph ?seg ?va s] => destruct (elf_fill_total rd content n a ph seg va s) as (rc & s1 & ->) end.
    cbn [mbind option_bind]. destruct (negb (rc =? 0)); by eexists _, _, _. }
  destruct HS as (rc & w1 & s1 & ->). cbn [mbind option_bind]. destruct (negb (rc =? 0)); [by eexists _, _, _|apply IH].
Qed.

Lemma elf_load_total rd content `{FileOf rd content} a s : exists rc out s', elf_load rd a s = Some (rc, out, s').
Proof.
  unfold elf_load. rewrite read_of by done. cbn [mbind option_bind]. cbn zeta. set (eh := as_ehdr _).
  destruct (negb (len _ =? _)); [by eexists _, _, _|]. destruct (_ || _); [by eexists _, _, _|].
  destruct (_ && _); [by eexists _, _, _|]. destruct (_ || _); [by eexists _, _, _|].
  destruct (_ <? _); [by eexists _, _, _|].
  match goal with |- context [elf_phdrs rd ?n ?i a eh ?b ?e ?w s] =>
    destruct (elf_phdrs_total rd content n i a eh b e w s) as (rc & w1 & s1 & ->) end.
  cbn [mbind option_bind]. destruct (negb (rc =? 0)); [by eexists _, _, _|]. by destruct (negb (entry_in_x w1)); eexists _, _, _.
Qed.

(** What loading into [root] leaves alone: the frames in use, the page tables and
    the translations of all other spaces. *)
Definition confined (s : vm) (own : Z -> option place) (root : Z) (s' : vm) : Prop :=
  (forall f x, data_frame s own f -> f <= x < f + 4096 -> phys s' x = phys s x) /\
  (forall n, page_used (pmm s) n = true -> page_used (pmm s') n = true) /\
  (forall root' va, is_space own root' -> root' <> root -> user_va va ->
     translate (phys s') root' va = translate (phys s) root' va).

(** C22: elf_load into an empty space, for any file: it always returns; when it
    fails it has changed no other space and no frame in use. When it returns 0
    every page of the space is as the last PT_LOAD segment that touches it says,
    protection and bytes (file bytes, then zeros), pages no segment touches are not
    mapped, the entry point lies in an executable segment, and the segments add up
    to at most 64 MiB. *)
Theorem elf_load_image rd content `{FileOf rd content} s own a :
  vm_ok s own -> is_space own (pml4_phys a) -> empty_space s (pml4_phys a) ->
  exists rc out s', elf_load rd a s = Some (rc, out, s') /\ confined s own (pml4_phys a) s' /\
    let eh := file_ehdr content in
    let phs := file_phdrs content eh in
    (rc < 0 /\ out = None
     \/ rc = 0 /\ exists entry aux, out = Some (entry, aux)
        /\ (forall va, low_page va ->
              match image content (load_bias eh) phs va with
              | None => translate (phys s') (pml4_phys a) va = None
              | Some (fl, b) => exists e, translate (phys s') (pml4_phys a) va = Some e
                  /\ has e PAGE_WRITABLE = has fl PAGE_WRITABLE /\ has e PAGE_NO_EXECUTE = has fl PAGE_NO_EXECUTE
                  /\ forall i, 0 <= i < 4096 -> phys s' (tbl e + i) = b i
              end)
        /\ existsb (enters (load_bias eh) entry) phs = true /\ image_size phs <= ELF_MAX_TOTAL).
Proof.
  intros Hok Hr He. destruct (elf_load_total rd content a s) as (rc & out & s' & E). exists rc, out, s'. split; [done|].
  assert (HC : forall own' img, loaded s own (pml4_phys a) s' own' img -> confined s own (pml4_phys a) s') by (by intros ? ? []).
  destruct (elf_load_loaded rd content s own a rc out s' Hok Hr He E) as
    [(Hrc & -> & o & i & L)|(-> & o & entry & aux & -> & L & _ & X & T)]; (split; [by eapply HC|]).
  - by left.
  - right. split; [done|]. exists entry, aux. split_and!; try done. intros va Hva.
    pose proof (ld_page _ _ _ _ _ _ L va Hva) as P. unfold page_is in P.
    destruct (image content _ _ va) as [[fl b]|]; [|done]. destruct P as (e & P1 & P2 & P3 & _ & _ & P4). by exists e.
Qed.

(** A page of the image has the protection of a segment inside the user window. *)
Lemma image_seg content bias phs va fl b :
  Forall (fun ph => loads ph = true -> seg_ok bias ph) phs -> image content bias phs va = Some (fl, b) ->
  exists ph, In ph phs /\ seg_ok bias ph /\ fl = seg_prot ph /\ touches bias ph va = true.
Proof.
  unfold image. intros HF. assert (G : forall acc, (forall d, acc = Some d -> exists ph, In ph phs /\ seg_ok bias ph /\ d.1 = seg_prot ph /\ touches bias ph va = true) ->
    forall l, incl l phs -> fold_left (image_step content bias va) l acc = Some (fl, b) ->
    exists ph, In ph phs /\ seg_ok bias ph /\ fl = seg_prot ph /\ touches bias ph va = true).
  { intros acc Hacc l. revert acc Hacc. induction l as [|ph l IH]; intros acc Hacc Hl E; [by destruct (Hacc _ E) as (ph & ?); exists ph|].
    apply (IH (image_step content bias va acc ph)); [|by intros x Hx; apply Hl; right|done].
    unfold image_step. destruct (loads ph) eqn:E1; [|done]. destruct (touches bias ph va) eqn:E2; [|done].
    intros d [= <-]. exists ph. rewrite Forall_forall in HF. assert (In ph phs) by (apply Hl; by left).
    split_and!; try done. by apply HF; [apply list_elem_of_In|]. }
  intros E. apply (G None) with (l := phs); [done|apply incl_refl|exact E].
Qed.

(** Whatever the file says, after a successful elf_load no page of the new
    space is both writable and executable, and every mapped page below the kernel
    half holds part of a segment that lies between page 1 and the kernel half. *)
Theorem elf_load_wx rd content `{FileOf rd content} s own a out s' :
  vm_ok s own -> is_space own (pml4_phys a) -> empty_space s (pml4_phys a) ->
  elf_load rd a s = Some (0, out, s') ->
  forall va e, low_page va -> translate (phys s') (pml4_phys a) va = Some e ->
    (has e PAGE_WRITABLE = true -> has e PAGE_NO_EXECUTE = true) /\ USER_VA_MIN <= va < USER_VA_END.
Proof.
  intros Hok Hr He E va e Hva Ht.
  destruct (elf_load_loaded rd content s own a 0 out s' Hok Hr He E) as
    [(Hrc & _)|(_ & o & entry & aux & -> & L & HS & _ & _)]; [lia|].
  pose proof (ld_page _ _ _ _ _ _ L va Hva) as P. unfold page_is in P.
  destruct (image content _ _ va) as [[fl b]|] eqn:Ei; [|congruence].
  destruct P as (e' & P1 & P2 & P3 & _). rewrite Ht in P1. injection P1 as <-. rewrite P2, P3.
  destruct (image_seg content _ _ va fl b HS Ei) as (ph & _ & (S1 & S2 & S3 & S4) & -> & Htch).
  unfold touches in Htch. apply andb_prop in Htch as [H1%Z.ltb_lt H2%Z.ltb_lt]. split.
  2:{ destruct Hva as [Hva Hm]. unfold USER_VA_MIN in *. pose proof (Z.div_mod va 4096). lia. }
  unfold seg_prot. by destruct (has (p_flags ph) PF_X), (has (p_flags ph) PF_W).
Qed.

(** * A file to load *)

(** Files of tmpfs are files in the sense of [FileOf]. *)
#[export] Instance tmpfs_file ops_of vn v f s (Hf : file_at s vn v f) (Hvn : vn <> 0)
    (Ho : op_read (ops_of (v_ops v)) = Some tmpfs_read) :
  FileOf (fun n off => vfs_read ops_of vn n off s) (content v f).
Proof.
  intros n off Hn Hoff. unfold vfs_read. destruct (Z.eqb_spec vn 0); [done|].
  pose proof Hf as (Hv & _). rewrite Hv. cbn [mbind option_bind]. rewrite Ho. by apply tmpfs_read_content.
Qed.

Definition elf_file (phs : list (list Z)) (text : list Z) : list Z :=
  [127; 69; 76; 70; 2; 1; 1; 0] ++ le 8 0 ++ le 2 ET_EXEC ++ le 2 62 ++ le 4 1 ++ le 8 0x400000 ++ le 8 64 ++ le 8 0
    ++ le 4 0 ++ le 2 64 ++ le 2 56 ++ le 2 (len phs) ++ le 6 0 ++ concat phs ++ text.
Definition elf_header (flags off va filesz memsz : Z) : list Z :=
  le 4 PT_LOAD ++ le 4 flags ++ le 8 off ++ le 8 va ++ le 8 va ++ le 8 filesz ++ le 8 memsz ++ le 8 4096.

(** Two bytes of text at 0x400000 and a page of data behind it. *)
Definition demo_elf : list Z :=
  elf_file [elf_header 5 176 0x400000 2 2; elf_header 6 178 0x401800 1 16] [0x90; 0xC3; 7].
Definition read_list (l : list Z) (n off : Z) : option (Z * list Z) :=
  Some (len (ztake n (zdrop off l)), ztake n (zdrop off l)).

#[export] Instance read_list_file l : FileOf (read_list l) l.
Proof. by intros n off _ _. Qed.

Lemma demo_space_empty : empty_space demo_vm 0x2000.
Proof.
  intros va _. unfold translate, tab. cbn [mbind option_bind]. unfold tab_next at 3.
  replace (entry (phys demo_vm) 0x2000 (ix 0 va)) with 0; [done|]. pose proof (ix_range 0 va).
  unfold entry. symmetry. rewrite (ld_ext 8 _ (fun _ => 0)); [reflexivity|].
  intros x Hx. cbn. destruct (Z.eqb_spec x 0x3005); [lia|done].
Qed.

Lemma elf_load_image_witness :
  vm_ok demo_vm demo_own /\ exists rc out s', elf_load (read_list demo_elf) demo_as demo_vm = Some (rc, out, s')
    /\ rc = 0 /\ confined demo_vm demo_own 0x2000 s'.
Proof.
  split; [apply demo_vm_ok|].
  destruct (elf_load_image (read_list demo_elf) demo_elf demo_vm demo_own demo_as demo_vm_ok eq_refl demo_space_empty)
    as (rc & out & s' & E & HC & _).
  exists rc, out, s'. split_and!; [exact E| |exact HC].
  assert (H : match elf_load (read_list demo_elf) demo_as demo_vm with Some (rc, _, _) => rc = 0 | None => False end)
    by (vm_compute; reflexivity).
  rewrite E in H. exact H.
Defined.

Lemma elf_load_wx_witness :
  exists out s' e, elf_load (read_list demo_elf) demo_as demo_vm = Some (0, out, s')
    /\ translate (phys s') 0x2000 0x401000 = Some e /\ has e PAGE_WRITABLE = true /\ has e PAGE_NO_EXECUTE = true.
Proof.
  assert (H : match elf_load (read_list demo_elf) demo_as demo_vm with
              | Some (rc, _, s') => rc = 0 /\ exists e, translate (phys s') 0x2000 0x401000 = Some e /\ has e PAGE_WRITABLE = true
              | None => False end).
  { vm_compute. split; [reflexivity|]. eexists. split; reflexivity. }
  destruct (elf_load (read_list demo_elf) demo_as demo_vm) as [[[rc out] s']|] eqn:E; [|destruct H].
  destruct H as (-> & e & He & Hw). exists out, s', e. split_and!; try assumption; [reflexivity|].
  refine (proj1 (elf_load_wx (read_list demo_elf) demo_elf demo_vm demo_own demo_as out s' demo_vm_ok eq_refl demo_space_empty E
            0x401000 e _ He) Hw).
  split; [lia|reflexivity].
Defined.
