(* ===== verification/User.v ===== *)
(** The image of a new program: [build_user_image], [poke] and
    [setup_user_stack] of [kernel/proc/user.c], over the loader of Elf.v. *)

From stdpp Require Import base numbers list gmap.
From Stdlib Require Import ZArith Lia.
From S2P Require Import Prelude Pmm Vm Vmspace Buf Tmpfs Vfs Elf.

Definition USTACK_TOP : Z := 0x0000200000800000.
Definition USTACK_SIZE : Z := 64 * 1024.
Definition U_ARGC_MAX : Z := 32.
Definition U_NAUX : Z := 8.
Definition AT_NULL : Z := 0.
Definition AT_PHDR : Z := 3.
Definition AT_PHENT : Z := 4.
Definition AT_PHNUM : Z := 5.
Definition AT_PAGESZ : Z := 6.
Definition AT_BASE : Z := 7.
Definition AT_ENTRY : Z := 9.
Definition AT_RANDOM : Z := 25.

(** * Definitions *)

(** One page of the stack: [false] when there is no frame. The result of
    vmspace_map is not looked at. *)
Definition stack_page (a : address_space) (va : Z) (s : vm) : bool * vm :=
  let '(pf, s) := alloc_frame s in
  if pf =? 0 then (false, s) else
  let s := with_phys (mfill (phys s) pf 4096 0) s in
  let s := page_setref pf 1 s in
  (true, (vmspace_map a va pf (Z.lor PAGE_WRITABLE PAGE_NO_EXECUTE) s).2).

Fixpoint stack_pages (n : nat) (a : address_space) (va : Z) (s : vm) : Z * vm :=
  match n with
  | O => (0, s)
  | S n => let '(ok, s) := stack_page a va s in
           if negb ok then (- ENOMEM, s) else stack_pages n a (u64 (va + 4096)) s
  end.

Definition build_user_image (rd : Z -> Z -> option (Z * list Z)) (a : address_space) (s : vm)
    : option (Z * option (Z * elf_aux) * vm) :=
  '(rc, out, s) ← elf_load rd a s;
  if negb (rc =? 0) then Some (rc, out, s) else
  let '(rc, s) := stack_pages (Z.to_nat (USTACK_SIZE / 4096)) a (USTACK_TOP - USTACK_SIZE) s in
  Some (rc, out, s).

(** [while (n)] of poke; every round takes at least one byte of [src]. *)
Fixpoint poke_loop (fuel : nat) (a : address_space) (va : Z) (src : list Z) (s : vm) : vm :=
  match fuel with
  | O => s
  | S fuel =>
      if len src =? 0 then s else
      let '(p, s) := vmspace_phys a (page_down va) s in
      let off := Z.land va 0xFFF in
      let chunk := 4096 - off in
      let chunk := if len src <? chunk then len src else chunk in
      let s := if truth p then with_phys (mstore (phys s) (p + off) (ztake chunk src)) s else s in
      poke_loop fuel a (u64 (va + chunk)) (zdrop chunk src) s
  end.

Definition poke (a : address_space) (w : Z * list Z) (s : vm) : vm :=
  poke_loop (length w.2) a w.1 w.2 s.

(** The copies of the strings [l] (without their NUL) below [sp], the last string
    first: the new [sp] and the calls of poke in order. *)
Fixpoint push_strings (l : list (list Z)) (sp : Z) : Z * list (Z * list Z) :=
  match l with
  | [] => (sp, [])
  | x :: l =>
      let '(sp, ps) := push_strings l sp in
      let sp := u64 (sp - (len x + 1)) in
      (sp, ps ++ [(sp, x ++ [0])])
  end.

(** The addresses of the strings, first string first. *)
Definition string_vas (ps : list (Z * list Z)) : list Z := rev (map fst ps).

(** poke64 of [ws] at [p], [p + 8], ... *)
Fixpoint poke_words (p : Z) (ws : list Z) : list (Z * list Z) :=
  match ws with
  | [] => []
  | w :: ws => (p, le 8 w) :: poke_words (u64 (p + 8)) ws
  end.

Definition auxv (entry : Z) (aux : elf_aux) (rand_va : Z) : list Z :=
  [AT_PHDR; at_phdr aux; AT_PHENT; at_phent aux; AT_PHNUM; at_phnum aux; AT_PAGESZ; 4096;
   AT_BASE; at_base aux; AT_ENTRY; entry; AT_RANDOM; rand_va; AT_NULL; 0].

(** RSP, the words from RSP on, and the calls of poke. [aux]: [None] for NULL;
    [rnd]: 16 bytes of
    krandom_bytes; [argv] and [envp] are the strings without their NUL. *)
Definition stack_layout (argv envp : list (list Z)) (entry : Z) (aux : option elf_aux) (rnd : list Z)
    : Z * list Z * list (Z * list Z) :=
  let argv := ztake U_ARGC_MAX argv in
  let envp := ztake U_ARGC_MAX envp in
  let rand_va := USTACK_TOP - 16 in
  let '(sp, pe) := push_strings envp rand_va in
  let '(sp, pa) := push_strings argv sp in
  let sp := Z.land sp (not64 0xF) in
  let slots := 1 + (len argv + 1) + (len envp + 1) + U_NAUX * 2 in
  let rsp := Z.land (u64 (sp - slots * 8)) (not64 0xF) in
  let ws := len argv :: string_vas pa ++ 0 :: string_vas pe ++ 0 :: auxv entry (default (Aux 0 0 0 0) aux) rand_va in
  (rsp, ws, (rand_va, rnd) :: pe ++ pa ++ poke_words rsp ws).

Definition setup_user_stack (a : address_space) (argv envp : list (list Z)) (entry : Z) (aux : option elf_aux)
    (rnd : list Z) (s : vm) : Z * vm :=
  let '(rsp, _, ps) := stack_layout argv envp entry aux rnd in
  (rsp, fold_left (fun s w => poke a w s) ps s).

(** * Writing into a space *)

(** [img] after [bs] is written at [a]; pages that are not mapped stay so. *)
Definition upd_bytes (img : Z -> option (Z * (Z -> Z))) (a : Z) (bs : list Z) (p : Z) : option (Z * (Z -> Z)) :=
  match img p with
  | None => None
  | Some (fl, b) =>
      Some (fl, fun i => if (a <=? p + i) && (p + i <? a + len bs) then u8 (bytes_at bs (p + i - a)) else b i)
  end.

Section Poke.

Context (s0 : vm) (own0 : Z -> option place) (root : Z) (Hroot : is_space own0 root).

Abbreviation ld := (loaded s0 own0 root).

(** A store into the frame of a page of the space. *)
Lemma loaded_store s own img p e fl b m :
  ld s own img -> low_page p -> translate (phys s) root p = Some e -> img p = Some (fl, b) ->
  (forall x, ~ (tbl e <= x < tbl e + 4096) -> m x = phys s x) ->
  ld (with_phys m s) own (upd img p (Some (fl, fun i => m (tbl e + i)))).
Proof.
  intros L Hp He Hi Hm. destruct (page_frame s0 own0 root s own img p e L Hp He) as [(D1 & D2 & D3) U].
  assert (Hr : is_space own root) by (by apply (ld_own _ _ _ _ _ _ L)).
  destruct (data_store_ok s own (tbl e) m (ld_ok _ _ _ _ _ _ L) D1 D2 Hm) as [HV Htr].
  assert (Ht : forall va, low_page va -> translate m root va = translate (phys s) root va).
  { intros va Hva. by apply Htr; [|apply low_user]. }
  split; cbn [phys pmm with_phys]; try apply L; try done.
  - intros va Hva. pose proof (ld_page _ _ _ _ _ _ L va Hva) as P. unfold page_is, upd in *. cbn [phys pmm with_phys].
    rewrite (Ht va Hva). destruct (Z.eqb_spec va p) as [->|Hne].
    + rewrite Hi in P. destruct P as (e' & P1 & P2 & P3 & P4 & P5 & P6). rewrite He in P1. injection P1 as <-.
      by exists e.
    + destruct (img va) as [[fl' b']|]; [|done]. destruct P as (e' & P1 & P2 & P3 & P4 & P5 & P6).
      exists e'. split_and!; try done. intros i Hi'. rewrite <- P6 by done. apply Hm.
      apply (frame_apart (tbl e') (tbl e)); [apply P4|done| |lia]. intros Heq. apply Hne.
      by eapply (ld_inj _ _ _ _ _ _ L).
  - intros va va' e1 e2 H1 H2. rewrite !Ht by done. by apply (ld_inj _ _ _ _ _ _ L).
  - intros f x D Hx. rewrite <- (ld_data _ _ _ _ _ _ L f x D Hx). apply Hm.
    apply (frame_apart f (tbl e)); [apply D|done| |done]. intros ->. destruct D as (_ & _ & D). congruence.
  - intros r va Hr' Hne Hu. rewrite <- (ld_others _ _ _ _ _ _ L r va Hr' Hne Hu). apply Htr; [|done].
    by apply (ld_own _ _ _ _ _ _ L).
Qed.

(** Two descriptions of a page that agree on its bytes. *)
Definition same_page (d d' : option (Z * (Z -> Z))) : Prop :=
  match d, d' with
  | None, None => True
  | Some (fl, b), Some (fl', b') => fl = fl' /\ forall i, 0 <= i < 4096 -> b i = b' i
  | _, _ => False
  end.

Lemma loaded_same s own img img' :
  (forall va, low_page va -> same_page (img va) (img' va)) -> ld s own img -> ld s own img'.
Proof.
  intros H. apply loaded_ext. intros va Hva. specialize (H va Hva). unfold page_is, same_page in *.
  destruct (img va) as [[fl b]|], (img' va) as [[fl' b']|]; try done. destruct H as [<- H].
  intros (e & P1 & P2 & P3 & P4 & P5 & P6). exists e. split_and!; try done. intros i Hi. by rewrite <- H, P6.
Qed.

Lemma upd_bytes_nil img a p : same_page (img p) (upd_bytes img a [] p).
Proof.
  unfold upd_bytes, same_page. destruct (img p) as [[fl b]|]; [|done]. split; [done|]. intros i Hi.
  change (len (@nil Z)) with 0. destruct (Z.leb_spec a (p + i)), (Z.ltb_spec (p + i) (a + 0)); done || lia.
Qed.

Lemma upd_bytes_split img a k src p :
  0 <= k <= len src ->
  same_page (upd_bytes (upd_bytes img a (ztake k src)) (a + k) (zdrop k src) p) (upd_bytes img a src p).
Proof.
  intros Hk. unfold upd_bytes, same_page. destruct (img p) as [[fl b]|]; [|done]. split; [done|]. intros i Hi.
  rewrite len_ztake, len_zdrop by lia.
  destruct (Z.leb_spec (a + k) (p + i)), (Z.ltb_spec (p + i) (a + k + (len src - k))), (Z.leb_spec a (p + i)),
    (Z.ltb_spec (p + i) (a + k)), (Z.ltb_spec (p + i) (a + len src)); cbn [andb]; try lia; try done.
  - rewrite bytes_drop by lia. do 2 f_equal. lia.
  - by rewrite bytes_take by lia.
Qed.

(** The chunk of a write that lies in the page [p]. *)
Lemma poke_chunk_ok a p off bs s own img :
  ld s own img -> pml4_phys a = root -> low_page p -> 0 <= off -> off + len bs <= 4096 ->
  exists own', ld (let '(f, s) := vmspace_phys a p s in
                   if truth f then with_phys (mstore (phys s) (f + off) bs) s else s) own' (upd_bytes img (p + off) bs).
Proof.
  intros L Ha Hp Hoff Hl. destruct (vmspace_phys a p s) as [f s1] eqn:EP. pose proof (len_nonneg bs) as Hlen.
  destruct (loaded_phys s0 own0 root Hroot s own img a p f s1 L Ha Hp EP) as [[w L1] ->]. exists w.
  pose proof (ld_page _ _ _ _ _ _ L1 p Hp) as P. unfold page_is in P.
  assert (Hout : forall q, low_page q -> q <> p -> same_page (img q) (upd_bytes img (p + off) bs q)).
  { intros q [Hq Hqm] Hne. destruct Hp as [Hp Hpm]. pose proof (Z.div_mod q 4096). pose proof (Z.div_mod p 4096).
    unfold same_page, upd_bytes. destruct (img q) as [[fl b]|]; [|done]. split; [done|]. intros i Hi.
    destruct (Z.leb_spec (p + off) (q + i)), (Z.ltb_spec (q + i) (p + off + len bs)); done || lia. }
  destruct (img p) as [[fl b]|] eqn:Ei.
  - destruct P as (e & E & _ & _ & D & _ & B). rewrite E.
    destruct D as (D1 & D2 & D3). unfold truth. destruct (Z.eqb_spec (tbl e) 0); [destruct D2; lia|]. cbn [negb].
    set (m := mstore (phys s1) (tbl e + off) bs).
    assert (L2 : ld (with_phys m s1) w (upd img p (Some (fl, fun i => m (tbl e + i))))).
    { apply (loaded_store s1 w img p e fl b m); try done. intros x Hx. unfold m, mstore.
      destruct (Z.leb_spec (tbl e + off) x), (Z.ltb_spec x (tbl e + off + len bs)); done || lia. }
    eapply loaded_same; [|exact L2]. intros q Hq. unfold upd. destruct (Z.eqb_spec q p) as [->|Hne]; [|by apply Hout].
    unfold upd_bytes, same_page. rewrite Ei. split; [done|]. intros i Hi. unfold m, mstore.
    destruct (Z.leb_spec (tbl e + off) (tbl e + i)), (Z.ltb_spec (tbl e + i) (tbl e + off + len bs)),
      (Z.leb_spec (p + off) (p + i)), (Z.ltb_spec (p + i) (p + off + len bs)); cbn [andb]; try lia; try (by apply B).
    do 2 f_equal. lia.
  - rewrite P. cbn. eapply loaded_same; [|exact L1]. intros q Hq. destruct (decide (q = p)) as [->|Hne]; [|by apply Hout].
    unfold upd_bytes. by rewrite Ei.
Qed.

Lemma poke_loop_ok fuel a va src s own img :
  ld s own img -> pml4_phys a = root -> 0 <= va -> va + len src < 2 ^ 47 -> (length src <= fuel)%nat ->
  exists own', ld (poke_loop fuel a va src s) own' (upd_bytes img va src).
Proof.
  intros L Ha. revert va src s own img L. induction fuel as [|fuel IH]; intros va src s own img L Hva Hend Hf.
  { exists own. cbn. destruct src; [|cbn in Hf; lia]. eapply loaded_same; [|exact L]. intros. apply upd_bytes_nil. }
  cbn [poke_loop]. pose proof (len_nonneg src). destruct (Z.eqb_spec (len src) 0) as [E|Hne].
  { exists own. destruct src; [|unfold len in E; cbn in E; lia]. eapply loaded_same; [|exact L]. intros. apply upd_bytes_nil. }
  assert (Hoff : Z.land va 0xFFF = va mod 4096) by (change 0xFFF with (Z.ones 12); by rewrite Z.land_ones by lia).
  rewrite Hoff, page_down_eq by lia. pose proof (Z.div_mod va 4096). pose proof (Z.mod_pos_bound va 4096).
  set (p := va / 4096 * 4096). set (off := va mod 4096) in *. set (k := if len src <? 4096 - off then _ else _).
  assert (Hk : 0 < k <= len src /\ off + k <= 4096) by (unfold k; destruct (Z.ltb_spec (len src) (4096 - off)); lia).
  assert (Hp : low_page p) by (split; [lia|by apply Z.mod_mul]).
  destruct (poke_chunk_ok a p off (ztake k src) s own img L Ha Hp) as [w L1]; [lia|rewrite len_ztake; lia|].
  destruct (vmspace_phys a p s) as [f s1]. rewrite u64_small by lia.
  destruct (IH (va + k) (zdrop k src) _ w _ L1) as [w' L2]; [lia|rewrite len_zdrop; lia| |].
  - unfold zdrop. rewrite length_drop. unfold len in *. lia.
  - exists w'. replace (p + off) with va in L2 by lia. eapply loaded_same; [|exact L2]. intros q Hq. apply upd_bytes_split. lia.
Qed.

Lemma pokes_ok a ps s own img :
  ld s own img -> pml4_phys a = root -> Forall (fun w => 0 <= w.1 /\ w.1 + len w.2 < 2 ^ 47) ps ->
  exists own', ld (fold_left (fun s w => poke a w s) ps s) own' (fold_left (fun img w => upd_bytes img w.1 w.2) ps img).
Proof.
  intros L Ha Hps. revert s own img L. induction Hps as [|w ps [H1 H2] _ IH]; intros s own img L; cbn [fold_left]; [by exists own|].
  destruct (poke_loop_ok (length w.2) a w.1 w.2 s own img L Ha H1 H2) as [o L1]; [lia|]. by apply (IH _ o).
Qed.

End Poke.

(** * What a program reads *)

(** The byte at [x] of the space of [root]. *)
Definition user_byte (s : vm) (root x : Z) : option Z :=
  e ← translate (phys s) root (page_down x); Some (phys s (tbl e + x mod 4096)).

(** The bytes [bs] are at [a]. *)
Definition user_bytes (s : vm) (root a : Z) (bs : list Z) : Prop :=
  forall k, 0 <= k < len bs -> user_byte s root (a + k) = Some (u8 (bytes_at bs k)).

Definition img_byte (img : Z -> option (Z * (Z -> Z))) (x : Z) : option Z :=
  d ← img (page_down x); Some (d.2 (x mod 4096)).

Lemma page_low x : 0 <= x < 2 ^ 47 -> low_page (page_down x) /\ page_down x + x mod 4096 = x.
Proof.
  intros Hx. rewrite page_down_eq by lia. pose proof (Z.div_mod x 4096). pose proof (Z.mod_pos_bound x 4096).
  split; [split; [lia|by apply Z.mod_mul]|lia].
Qed.

Lemma user_byte_img s0 own0 root s own img x :
  loaded s0 own0 root s own img -> 0 <= x < 2 ^ 47 -> user_byte s root x = img_byte img x.
Proof.
  intros L Hx. destruct (page_low x Hx) as [Hp _]. unfold user_byte, img_byte.
  pose proof (ld_page _ _ _ _ _ _ L _ Hp) as P. unfold page_is in P.
  destruct (img (page_down x)) as [[fl b]|]; [|by rewrite P]. destruct P as (e & -> & _ & _ & _ & _ & B).
  cbn. f_equal. apply B. apply Z.mod_pos_bound. lia.
Qed.

Lemma img_byte_upd img a bs x :
  0 <= x < 2 ^ 47 ->
  img_byte (upd_bytes img a bs) x =
    if (a <=? x) && (x <? a + len bs) then _ ← img_byte img x; Some (u8 (bytes_at bs (x - a))) else img_byte img x.
Proof.
  intros Hx. destruct (page_low x Hx) as [_ E]. unfold img_byte, upd_bytes.
  destruct (img (page_down x)) as [[fl b]|]; cbn; [|by destruct (_ && _)]. rewrite E. by destruct (_ && _).
Qed.

(** Writes that do not overlap. *)
Definition apart (w w' : Z * list Z) : Prop := w.1 + len w.2 <= w'.1 \/ w'.1 + len w'.2 <= w.1.
Definition within (lo hi : Z) (w : Z * list Z) : Prop := lo <= w.1 /\ w.1 + len w.2 <= hi.

Lemma apart_app l1 l2 lo mid hi :
  ForallOrdPairs apart l1 -> ForallOrdPairs apart l2 ->
  (Forall (within mid hi) l1 /\ Forall (within lo mid) l2 \/ Forall (within lo mid) l1 /\ Forall (within mid hi) l2) ->
  ForallOrdPairs apart (l1 ++ l2).
Proof.
  intros H1 H2 HW. induction H1 as [|w l1 Hw H1 IH]; [done|]. cbn. constructor.
  - apply Forall_app. split; [done|]. destruct HW as [[W1 W2]|[W1 W2]]; inversion W1 as [|? ? [A1 A2] ?]; subst;
      (eapply Forall_impl; [exact W2|]); intros w' [B1 B2]; unfold apart; lia.
  - apply IH. destruct HW as [[W1 W2]|[W1 W2]]; inversion W1; subst; auto.
Qed.

Lemma within_mono lo hi lo' hi' ps : lo' <= lo -> hi <= hi' -> Forall (within lo hi) ps -> Forall (within lo' hi') ps.
Proof. intros. eapply Forall_impl; [done|]. unfold within. intros. lia. Qed.

(** A byte no write covers keeps its value. *)
Lemma pokes_frame ps img x :
  0 <= x < 2 ^ 47 -> Forall (fun w => ~ (w.1 <= x < w.1 + len w.2)) ps ->
  img_byte (fold_left (fun img w => upd_bytes img w.1 w.2) ps img) x = img_byte img x.
Proof.
  intros Hx H. revert img. induction H as [|w ps Hw _ IH]; intros img; [done|]. cbn [fold_left]. rewrite IH, img_byte_upd by done.
  destruct (Z.leb_spec w.1 x), (Z.ltb_spec x (w.1 + len w.2)); done || lia.
Qed.

(** Every write of non-overlapping writes to mapped pages is there in the end. *)
Lemma pokes_read ps img lo hi a bs :
  ForallOrdPairs apart ps -> Forall (within lo hi) ps -> 0 <= lo -> hi < 2 ^ 47 ->
  (forall x, lo <= x < hi -> img_byte img x <> None) -> In (a, bs) ps ->
  forall k, 0 <= k < len bs ->
    img_byte (fold_left (fun img w => upd_bytes img w.1 w.2) ps img) (a + k) = Some (u8 (bytes_at bs k)).
Proof.
  intros HA HW Hlo Hhi. revert img. induction HA as [|w ps Hw HA IH]; intros img Hmap Hin k Hk; [done|].
  inversion HW as [|? ? [W1 W2] HW']; subst. cbn [fold_left]. destruct Hin as [-> | Hin]; cbn [fst snd] in *.
  - rewrite pokes_frame, img_byte_upd; [|lia|lia|].
    + destruct (Z.leb_spec a (a + k)); [|lia]. destruct (Z.ltb_spec (a + k) (a + len bs)); [|lia]. cbn [andb].
      specialize (Hmap (a + k) ltac:(lia)). destruct (img_byte img (a + k)); [|done]. cbn. do 3 f_equal. lia.
    + eapply Forall_impl; [exact Hw|]. intros w' Hd. unfold apart in Hd. cbn in Hd. lia.
  - apply IH; [done| |done|done]. intros x Hx. rewrite img_byte_upd by lia. specialize (Hmap x Hx).
    destruct (_ && _); [|done]. by destruct (img_byte img x).
Qed.

(** * The layout *)

Definition strings_size (l : list (list Z)) : Z := foldr (fun x n => len x + 1 + n) 0 l.

Lemma strings_size_nonneg l : 0 <= strings_size l.
Proof. unfold strings_size. induction l as [|x l IH]; cbn; [lia|]. pose proof (len_nonneg x). lia. Qed.

Lemma push_strings_ok l sp sp' ps :
  0 <= sp - strings_size l -> sp < 2 ^ 64 -> push_strings l sp = (sp', ps) ->
  sp' = sp - strings_size l /\ Forall (within sp' sp) ps /\ ForallOrdPairs apart ps /\
  Forall2 (fun va x => In (va, x ++ [0]) ps) (string_vas ps) l.
Proof.
  revert sp' ps. unfold strings_size. induction l as [|x l IH]; intros sp' ps H1 H2; cbn [push_strings foldr] in *.
  { intros [= <- <-]. split_and!; [lia|done|constructor|done]. }
  fold (strings_size l) in *. pose proof (len_nonneg x). destruct (push_strings l sp) as [sp1 ps1] eqn:E.
  destruct (IH sp1 ps1) as (-> & W & A & F); [unfold strings_size in *; lia|done|done|].
  pose proof (strings_size_nonneg l). unfold strings_size in *. rewrite u64_small by lia. intros [= <- <-].
  set (n := foldr _ 0 l) in *.
  assert (Wl : Forall (within (sp - n - (len x + 1)) (sp - n)) [(sp - n - (len x + 1), x ++ [0])]).
  { constructor; [|done]. split; cbn; [lia|]. rewrite len_app. change (len [0]) with 1. lia. }
  split_and!; [lia| | |].
  - apply Forall_app. split; eapply within_mono; [| |exact W| | |exact Wl]; lia.
  - eapply (apart_app _ _ _ (sp - n) sp); [done| |left; split; [exact W|exact Wl]]. repeat constructor.
  - unfold string_vas in *. rewrite map_app, rev_app_distr. cbn. constructor.
    + apply in_or_app. right. by left.
    + eapply Forall2_impl; [exact F|]. intros va y Hin. apply in_or_app. by left.
Qed.

Lemma poke_words_ok p ws :
  0 <= p -> p + 8 * len ws < 2 ^ 64 ->
  Forall (within p (p + 8 * len ws)) (poke_words p ws) /\ ForallOrdPairs apart (poke_words p ws) /\
  forall (i : nat) w, ws !! i = Some w -> In (p + 8 * Z.of_nat i, le 8 w) (poke_words p ws).
Proof.
  revert p. induction ws as [|w ws IH]; intros p H0 H1; cbn [poke_words].
  { split_and!; [done|constructor|done]. }
  rewrite len_cons in *. pose proof (len_nonneg ws). rewrite u64_small by lia.
  destruct (IH (p + 8)) as (W & A & F); [lia|lia|]. pose proof (len_le 8 w).
  assert (Ww : within p (p + 8) (p, le 8 w)) by (split; cbn [fst snd]; lia). split_and!.
  - constructor; [unfold within in *; cbn [fst snd] in *; lia|]. eapply within_mono; [| |exact W]; lia.
  - constructor; [|done]. eapply Forall_impl; [exact W|]. intros w' [B1 B2]. unfold apart. cbn [fst snd]. lia.
  - intros [|i] w' Hi; cbn in Hi.
    + injection Hi as ->. left. f_equal. lia.
    + right. replace (p + 8 * Z.of_nat (S i)) with (p + 8 + 8 * Z.of_nat i) by lia. by apply F.
Qed.

Lemma align16 x : 0 <= x < 2 ^ 64 -> Z.land x (not64 0xF) = x / 16 * 16.
Proof. apply (align_down 4). lia. Qed.

Lemma len_vas l ps (P : Z -> list Z -> Prop) : Forall2 P (string_vas ps) l -> len (string_vas ps) = len l.
Proof. intros H. unfold len. by rewrite (Forall2_length _ _ _ H). Qed.

(** The writes of setup_user_stack lie between RSP and the top of the stack and
    do not overlap. *)
Lemma stack_layout_ok argv envp entry aux rnd rsp ws ps :
  len rnd = 16 -> strings_size (ztake U_ARGC_MAX argv) + strings_size (ztake U_ARGC_MAX envp) <= 64000 ->
  stack_layout argv envp entry aux rnd = (rsp, ws, ps) ->
  rsp mod 16 = 0 /\ USTACK_TOP - USTACK_SIZE <= rsp /\
  Forall (within rsp USTACK_TOP) ps /\ ForallOrdPairs apart ps /\ In (USTACK_TOP - 16, rnd) ps /\
  (forall (i : nat) w, ws !! i = Some w -> In (rsp + 8 * Z.of_nat i, le 8 w) ps) /\
  exists avs evs,
    ws = len (ztake U_ARGC_MAX argv) :: avs ++ 0 :: evs ++ 0 :: auxv entry (default (Aux 0 0 0 0) aux) (USTACK_TOP - 16) /\
    Forall2 (fun va x => In (va, x ++ [0]) ps) avs (ztake U_ARGC_MAX argv) /\
    Forall2 (fun va x => In (va, x ++ [0]) ps) evs (ztake U_ARGC_MAX envp).
Proof.
  intros Hr Hsz. unfold stack_layout. set (av := ztake U_ARGC_MAX argv) in *. set (ev := ztake U_ARGC_MAX envp) in *.
  assert (Hla : len av <= 32) by (unfold av, len, ztake, U_ARGC_MAX; rewrite length_take; lia).
  assert (Hle : len ev <= 32) by (unfold ev, len, ztake, U_ARGC_MAX; rewrite length_take; lia).
  pose proof (strings_size_nonneg av). pose proof (strings_size_nonneg ev). pose proof (len_nonneg av). pose proof (len_nonneg ev).
  destruct (push_strings ev _) as [sp1 pe] eqn:Ee. unfold USTACK_TOP, USTACK_SIZE, U_NAUX in *.
  set (T := 0x200000800000) in *. assert (HT : T = 0x200000800000) by done. clearbody T.
  destruct (push_strings_ok ev (T - 16) sp1 pe ltac:(lia) ltac:(lia) Ee) as (-> & We & Ae & Fe).
  destruct (push_strings av _) as [sp2 pa] eqn:Ea.
  destruct (push_strings_ok av (T - 16 - strings_size ev) sp2 pa ltac:(lia) ltac:(lia) Ea) as (-> & Wa & Aa & Fa).
  set (se := strings_size ev) in *. set (sa := strings_size av) in *.
  set (ws0 := len av :: _). assert (Hws : len ws0 = 1 + (len av + 1) + (len ev + 1) + 8 * 2).
  { unfold ws0. rewrite len_cons, len_app, len_cons, len_app, len_cons, (len_vas _ _ _ Fa), (len_vas _ _ _ Fe).
    unfold auxv, len. cbn. lia. }
  rewrite (align16 (T - 16 - se - sa)) by lia. set (sp := _ / 16 * 16).
  assert (Hsp : T - 16 - se - sa - 15 <= sp <= T - 16 - se - sa) by (unfold sp; pose proof (Z.div_mod (T - 16 - se - sa) 16); pose proof (Z.mod_pos_bound (T - 16 - se - sa) 16); lia).
  rewrite <- Hws. rewrite u64_small, align16 by lia. set (r := _ / 16 * 16).
  assert (Hrs : sp - len ws0 * 8 - 15 <= r <= sp - len ws0 * 8) by (unfold r; pose proof (Z.div_mod (sp - len ws0 * 8) 16); pose proof (Z.mod_pos_bound (sp - len ws0 * 8) 16); lia).
  assert (Hr16 : r mod 16 = 0) by (unfold r; by apply Z.mod_mul).
  destruct (poke_words_ok r ws0) as (Ww & Aw & Fw); [lia|lia|].
  clearbody sp r. intros [= <- <- <-].
  assert (W2 : Forall (within r (T - 16 - se)) (pa ++ poke_words r ws0)).
  { apply Forall_app. split; eapply within_mono; [| |exact Wa| | |exact Ww]; lia. }
  assert (W3 : Forall (within r (T - 16)) (pe ++ pa ++ poke_words r ws0)).
  { apply Forall_app. split; eapply within_mono; [| |exact We| | |exact W2]; lia. }
  assert (A2 : ForallOrdPairs apart (pa ++ poke_words r ws0)).
  { eapply (apart_app _ _ r (T - 16 - se - sa) (T - 16 - se)); [done|done|left; split; [exact Wa|]].
    eapply within_mono; [| |exact Ww]; lia. }
  split_and!; [done|lia| | |by left| |].
  - constructor; [split; cbn [fst snd]; lia|]. eapply within_mono; [| |exact W3]; lia.
  - apply (apart_app [_] _ r (T - 16) T); [repeat constructor| |left; split; [|exact W3]].
    + eapply (apart_app _ _ r (T - 16 - se) (T - 16)); [done|done|left; split; [exact We|exact W2]].
    + constructor; [split; cbn [fst snd]; lia|done].
  - intros i w Hi. right. apply in_or_app. right. apply in_or_app. right. by apply Fw.
  - exists (string_vas pa), (string_vas pe). split_and!; [done| |].
    + eapply Forall2_impl; [exact Fa|]. intros va x Hin. right. apply in_or_app. right. apply in_or_app. by left.
    + eapply Forall2_impl; [exact Fe|]. intros va x Hin. right. apply in_or_app. by left.
Qed.

(** * The image *)

Lemma stack_page_ok s0 own0 root s own img a va ok s' :
  is_space own0 root -> loaded s0 own0 root s own img -> pml4_phys a = root -> low_page va ->
  stack_page a va s = (ok, s') -> exists own' img', loaded s0 own0 root s' own' img'.
Proof.
  intros Hr L Ha Hva. unfold stack_page. destruct (alloc_frame s) as [pf s1] eqn:EA.
  destruct (loaded_alloc s0 own0 root Hr s own img pf s1 L EA) as [[-> L1]|(Hn & Hpf & H0 & E1 & H2)].
  { intros [= <- <-]. by exists own, img. }
  destruct (Z.eqb_spec pf 0) as [|_]; [done|]. cbn zeta. set (s2 := page_setref pf 1 _).
  destruct (setref_keeps pf 1 (with_phys (mfill (phys s1) pf 4096 0) s1)) as [R1 R2]. fold s2 in R1, R2. clearbody s2.
  cbn in R1, R2. destruct (H2 s2 R2) as (L2 & D2 & N2).
  { intros x Hx. rewrite R1, <- E1. apply mfill_out. lia. }
  destruct (vmspace_map a va pf _ s2) as [rc s3] eqn:EM. intros [= _ <-].
  destruct (loaded_map s0 own0 root Hr s2 own img a va pf (Z.lor PAGE_WRITABLE PAGE_NO_EXECUTE)
    (fun i => phys s2 (pf + i)) rc s3 L2 Ha Hva) as (w & [[_ L3]|[_ K]]); try done.
  - by intros ? ? ? _; apply N2.
  - by eexists w, _.
  - exists w, img. by eapply loaded_keeps.
Qed.

Lemma stack_pages_ok n s0 own0 root s own img a va rc s' :
  is_space own0 root -> loaded s0 own0 root s own img -> pml4_phys a = root -> low_page va ->
  va + Z.of_nat n * 4096 < 2 ^ 47 -> stack_pages n a va s = (rc, s') ->
  exists own' img', loaded s0 own0 root s' own' img'.
Proof.
  intros Hr L Ha. revert va s own img L. induction n as [|n IH]; intros va s own img L Hva Hend; cbn [stack_pages].
  { intros [= <- <-]. by exists own, img. }
  destruct (stack_page a va s) as [ok s1] eqn:E1.
  destruct (stack_page_ok s0 own0 root s own img a va ok s1 Hr L Ha Hva E1) as (o & i & L1).
  destruct ok; cbn [negb]; [|intros [= <- <-]; by exists o, i]. apply (IH _ _ o i L1); [apply low_next; [done|lia]|].
  rewrite u64_small by (destruct Hva; lia). lia.
Qed.

(** The stack of a program, page by page. *)
Definition stack_mapped (s : vm) (root : Z) : Prop :=
  forall va, low_page va -> USTACK_TOP - USTACK_SIZE <= va < USTACK_TOP -> translate (phys s) root va <> None.

(** C23: the stack a new program starts on. When build_user_image has loaded the file and
    mapped the stack, setup_user_stack returns a 16-byte aligned RSP in the stack
    at which the program finds argc, the argv pointers, NULL, the environment
    pointers, NULL and the auxiliary vector; every pointer leads to its string with
    its NUL, AT_RANDOM to the random bytes; the rest of the image and all other
    address spaces are as they were. *)
Theorem initial_stack rd content `{FileOf rd content} s own a out s1 argv envp entry aux rnd :
  vm_ok s own -> is_space own (pml4_phys a) -> empty_space s (pml4_phys a) ->
  build_user_image rd a s = Some (0, out, s1) -> stack_mapped s1 (pml4_phys a) ->
  len rnd = 16 -> strings_size (ztake U_ARGC_MAX argv) + strings_size (ztake U_ARGC_MAX envp) <= 64000 ->
  let root := pml4_phys a in
  exists rsp s2 avs evs, setup_user_stack a argv envp entry (Some aux) rnd s1 = (rsp, s2)
    /\ rsp mod 16 = 0 /\ USTACK_TOP - USTACK_SIZE <= rsp < USTACK_TOP
    /\ (forall (i : nat) w,
          (len (ztake U_ARGC_MAX argv) :: avs ++ 0 :: evs ++ 0 :: auxv entry aux (USTACK_TOP - 16)) !! i = Some w ->
          user_bytes s2 root (rsp + 8 * Z.of_nat i) (le 8 w))
    /\ Forall2 (fun va x => user_bytes s2 root va (x ++ [0])) avs (ztake U_ARGC_MAX argv)
    /\ Forall2 (fun va x => user_bytes s2 root va (x ++ [0])) evs (ztake U_ARGC_MAX envp)
    /\ user_bytes s2 root (USTACK_TOP - 16) rnd
    /\ (forall x, 0 <= x < 2 ^ 47 -> ~ (rsp <= x < USTACK_TOP) -> user_byte s2 root x = user_byte s1 root x)
    /\ confined s own root s2.
Proof.
  intros Hok Hr He Hb Hmap Hrnd Hsz root. unfold build_user_image in Hb.
  destruct (elf_load rd a s) as [[[rc o] s']|] eqn:EL; [|done]. cbn [mbind option_bind] in Hb.
  destruct (elf_load_loaded rd content s own a rc o s' Hok Hr He EL) as [(Hrc & _)|(-> & o1 & en & au & -> & L & _)].
  { destruct (Z.eqb_spec rc 0); [lia|]. cbn in Hb. injection Hb as -> _ _. lia. }
  cbn [Z.eqb negb] in Hb. destruct (stack_pages _ a _ s') as [rc1 s1'] eqn:ES. injection Hb as -> <- ->.
  destruct (stack_pages_ok 16 s own root s' o1 _ a (USTACK_TOP - USTACK_SIZE) 0 s1 Hr L eq_refl) as (o2 & img & L1);
    [by vm_compute|by vm_compute|exact ES|].
  unfold setup_user_stack. destruct (stack_layout argv envp entry (Some aux) rnd) as [[rsp ws] ps] eqn:EY.
  destruct (stack_layout_ok argv envp entry (Some aux) rnd rsp ws ps Hrnd Hsz EY) as (Y1 & Y2 & Y3 & Y4 & Y5 & Y6 & avs & evs & -> & Y7 & Y8).
  unfold stack_mapped, USTACK_TOP, USTACK_SIZE in *.
  destruct (pokes_ok s own root Hr a ps s1 o2 img L1 eq_refl) as [o3 L2].
  { eapply Forall_impl; [exact Y3|]. intros w [W1 W2]. lia. }
  set (s2 := fold_left _ ps s1) in *. set (img2 := fold_left _ ps img) in L2.
  assert (HR : forall va bs, In (va, bs) ps -> user_bytes s2 root va bs).
  { intros va bs Hin k Hk. assert (W : within rsp 0x200000800000 (va, bs)) by (rewrite List.Forall_forall in Y3; by apply Y3).
    destruct W as [W1 W2]. cbn [fst snd] in *. rewrite (user_byte_img _ _ _ _ _ _ _ L2) by lia. unfold img2.
    apply (pokes_read ps img rsp 0x200000800000 va bs); try done; [lia|]. intros x Hx.
    rewrite <- (user_byte_img _ _ _ _ _ _ x L1) by lia. unfold user_byte. destruct (page_low x) as [Px Ex]; [lia|].
    pose proof (Z.mod_pos_bound x 4096). specialize (Hmap (page_down x) Px).
    destruct (translate (phys s1) _ (page_down x)) eqn:Et; [done|]. exfalso. apply Hmap; [|done].
    destruct Px as [_ Pm]. pose proof (Z.div_mod (page_down x) 4096). lia. }
  exists rsp, s2, avs, evs. split_and!; try done.
  - pose proof (Y6 O _ eq_refl) as Hin. rewrite List.Forall_forall in Y3. destruct (Y3 _ Hin) as [_ W]. cbn [fst snd] in W.
    rewrite len_le in W. lia.
  - intros i w Hi. by apply HR, Y6.
  - eapply Forall2_impl; [exact Y7|]. intros va x Hin. by apply HR.
  - eapply Forall2_impl; [exact Y8|]. intros va x Hin. by apply HR.
  - by apply HR.
  - intros x Hx Hn. rewrite (user_byte_img _ _ _ _ _ _ x L2), (user_byte_img _ _ _ _ _ _ x L1) by done. unfold img2.
    apply pokes_frame; [done|]. eapply Forall_impl; [exact Y3|]. intros w [W1 W2]. lia.
  - by destruct L2.
Qed.

(** * A program to start *)

Definition demo_argv : list (list Z) := [[47; 115; 104]; [45; 99]].

(** The last page of the stack of the demonstration image is mapped, and its first. *)
Definition demo_image : option (Z * option (Z * elf_aux) * vm) := build_user_image (read_list demo_elf) demo_as demo_vm.
Definition stack_bases : list Z := map (fun i => USTACK_TOP - USTACK_SIZE + 4096 * Z.of_nat i) (seq 0 16).

Lemma stack_bases_all va : low_page va -> USTACK_TOP - USTACK_SIZE <= va < USTACK_TOP -> In va stack_bases.
Proof.
  intros [Hva Hm] Hr. unfold USTACK_TOP, USTACK_SIZE in Hr. pose proof (Z.div_mod va 4096) as Hd.
  apply in_map_iff. exists (Z.to_nat ((va - (USTACK_TOP - USTACK_SIZE)) / 4096)). unfold USTACK_TOP, USTACK_SIZE.
  replace (va - (35184380477440 - 64 * 1024)) with ((va / 4096 - 8589936624) * 4096) by lia. rewrite Z.div_mul by lia.
  split; [lia|]. apply in_seq. lia.
Qed.

Lemma demo_image_ok :
  match demo_image with
  | Some (rc, Some (en, au), s) => rc = 0 /\ en = 0x400000 /\ au = Aux 0 56 2 0
      /\ forallb (fun va => bool_decide (is_Some (translate (phys s) 0x2000 va))) stack_bases = true
  | _ => False
  end.
Proof. vm_compute. repeat split. Qed.

Lemma demo_image_facts :
  exists s1, demo_image = Some (0, Some (0x400000, Aux 0 56 2 0), s1) /\ stack_mapped s1 0x2000.
Proof.
  pose proof demo_image_ok as H. destruct demo_image as [[[rc [[en au]|]] s1]|]; [|done|done]. destruct H as (-> & -> & -> & HM).
  exists s1. split; [done|]. intros va Hva Hr. rewrite forallb_forall in HM. specialize (HM va (stack_bases_all va Hva Hr)).
  apply bool_decide_eq_true_1 in HM. by destruct HM as [e ->].
Qed.

Lemma demo_image_eq : demo_image = build_user_image (read_list demo_elf) demo_as demo_vm.
Proof. reflexivity. Qed.

Lemma initial_stack_witness :
  exists s1 rsp s2, demo_image = Some (0, Some (0x400000, Aux 0 56 2 0), s1)
    /\ setup_user_stack demo_as demo_argv [] 0x400000 (Some (Aux 0 56 2 0)) (le 16 99) s1 = (rsp, s2) /\ rsp mod 16 = 0.
Proof.
  destruct demo_image_facts as (s1 & E & Hst). exists s1. rewrite demo_image_eq in *.
  destruct (initial_stack (read_list demo_elf) demo_elf demo_vm demo_own demo_as (Some (0x400000, Aux 0 56 2 0)) s1
    demo_argv [] 0x400000 (Aux 0 56 2 0) (le 16 99) demo_vm_ok eq_refl demo_space_empty E Hst) as (rsp & s2 & _ & _ & E2 & H16 & _);
    [reflexivity|vm_compute; discriminate|].
  exists rsp, s2. split_and!; [exact E|exact E2|exact H16].
Defined.
