(* ===== verification/Inet.v ===== *)
(** The helpers of the network stack: byte order ([kernel/include/net/net.h]),
    the Internet checksum and dotted addresses ([kernel/net/netdev.c]).

    A packet is the list of its bytes. A field of a packed header is read and
    written little endian, as the processor does, so the byte order of the wire is
    made by htons and htonl as in the code. *)

From stdpp Require Import base numbers list.
From Stdlib Require Import ZArith Lia.
From S2P Require Import Prelude Buf.

Definition EMSGSIZE : Z := 90.
Definition ENETUNREACH : Z := 101.
Definition ECONNRESET : Z := 104.
Definition ENOBUFS : Z := 105.
Definition EISCONN : Z := 106.
Definition ENOTCONN : Z := 107.
Definition ECONNREFUSED : Z := 111.
Definition EHOSTUNREACH : Z := 113.
Definition EADDRINUSE : Z := 98.

(** * Byte order (net.h) *)

Definition htons (v : Z) : Z := u16 (Z.lor (Z.shiftr v 8) (Z.shiftl v 8)).
Definition ntohs (v : Z) : Z := htons v.

Definition htonl (v : Z) : Z :=
  u32 (Z.lor (Z.lor (Z.lor (Z.shiftl (Z.land v 0xFF) 24) (Z.shiftl (Z.land v 0xFF00) 8))
                    (Z.land (Z.shiftr v 8) 0xFF00)) (Z.shiftr v 24)).
Definition ntohl (v : Z) : Z := htonl v.

Definition IPV4 (a b c d : Z) : Z :=
  Z.lor (Z.lor (Z.lor (u32 (Z.shiftl a 24)) (u32 (Z.shiftl b 16))) (u32 (Z.shiftl c 8))) d.

(** * The checksum (netdev.c) *)

(** [while (len > 1) ...; if (len) ...], on 32 bits. *)
Fixpoint sum_words (p : list Z) (sum : Z) : Z :=
  match p with
  | a :: b :: p => sum_words p (u32 (sum + Z.lor (Z.shiftl a 8) b))
  | [a] => u32 (sum + Z.shiftl a 8)
  | [] => sum
  end.

(** [while (sum >> 16) sum = (sum & 0xFFFF) + (sum >> 16)]: two rounds are enough
    for 32 bits ([fold_carry_spec]). *)
Fixpoint fold_carry (fuel : nat) (sum : Z) : Z :=
  match fuel with
  | O => sum
  | S fuel => if truth (Z.shiftr sum 16) then fold_carry fuel (Z.land sum 0xFFFF + Z.shiftr sum 16) else sum
  end.

Definition inet_checksum (data : list Z) : Z :=
  htons (u16 (Z.lnot (fold_carry 3 (sum_words data 0)))).

Definition inet_pseudo_checksum (src dst proto : Z) (data : list Z) : Z :=
  let sum := u32 (Z.land (Z.shiftr src 16) 0xFFFF + Z.land src 0xFFFF
                  + Z.land (Z.shiftr dst 16) 0xFFFF + Z.land dst 0xFFFF + proto + u32 (len data)) in
  htons (u16 (Z.lnot (fold_carry 3 (sum_words data sum)))).

(** * Dotted addresses (netdev.c) *)

Definition digit (d : Z) : Z := 48 + d.

(** The decimal digits of one part. *)
Definition part_digits (v : Z) : list Z :=
  (if 100 <=? v then [digit (v / 100)] else []) ++
  (if 10 <=? v then [digit ((v / 10) mod 10)] else []) ++ [digit (v mod 10)].

(** The parts from byte [i] of the address down to byte 0. *)
Fixpoint ip_parts (i : nat) (ip : Z) : list Z :=
  let v := Z.land (Z.shiftr ip (Z.of_nat i * 8)) 0xFF in
  match i with
  | O => part_digits v
  | S i => part_digits v ++ 46 :: ip_parts i ip
  end.

(** The string without its NUL. *)
Definition ip_to_str (ip : Z) : list Z := ip_parts 3 ip.

Definition is_digit (c : Z) : bool := (48 <=? c) && (c <=? 57).

(** The loop over the digits of one part: its value and the rest, [None] for -1. *)
Fixpoint scan_part (s : list Z) (v digits : Z) : option (Z * list Z) :=
  match s with
  | c :: s' =>
      if is_digit c then
        let v := v * 10 + (c - 48) in
        if (3 <? digits + 1) || (255 <? v) then None else scan_part s' v (digits + 1)
      else Some (v, s)
  | [] => Some (v, [])
  end.

(** The parts from [n] to go on; [s] has no NUL, its end is the NUL. *)
Fixpoint scan_parts (n : nat) (s : list Z) (ip : Z) : option Z :=
  match n with
  | O => match s with [] => Some ip | _ :: _ => None end
  | S n =>
      match s with
      | c :: _ =>
          if negb (is_digit c) then None else
          '(v, s) ← scan_part s 0 0;
          let ip := Z.lor (u32 (Z.shiftl ip 8)) v in
          match n with
          | O => scan_parts n s ip
          | S _ => match s with
                   | c :: s => if c =? 46 then scan_parts n s ip else None
                   | [] => None
                   end
          end
      | [] => None
      end
  end.

(** [None]: -1. *)
Definition ip_from_str (s : list Z) : option Z := scan_parts 4 s 0.

(** * Lemmas *)

Lemma htons_eq v : 0 <= v < 2 ^ 16 -> htons v = v mod 256 * 256 + v / 256.
Proof.
  intros Hv. unfold htons. pose proof (Z.div_mod v 256). pose proof (Z.mod_pos_bound v 256).
  assert (0 <= v / 256 < 256) by (split; [apply Z.div_pos; lia|apply Z.div_lt_upper_bound; lia]).
  rewrite Z.lor_comm, Z.shiftr_div_pow2 by lia. change (2 ^ 8) with 256. rewrite lor_shift by (change (2 ^ 8) with 256; lia).
  change (2 ^ 8) with 256.
  unfold u16. replace (v * 256 + v / 256) with (v mod 256 * 256 + v / 256 + v / 256 * 2 ^ 16) by lia.
  rewrite Z.mod_add by lia. apply Z.mod_small. lia.
Qed.

Lemma htons_range v : 0 <= htons v < 2 ^ 16.
Proof. apply u16_range. Qed.

Lemma htons_htons v : 0 <= v < 2 ^ 16 -> htons (htons v) = v.
Proof.
  intros Hv. rewrite (htons_eq (htons v)) by apply htons_range. rewrite (htons_eq v Hv).
  pose proof (Z.div_mod v 256). pose proof (Z.mod_pos_bound v 256).
  assert (0 <= v / 256 < 256) by (split; [apply Z.div_pos; lia|apply Z.div_lt_upper_bound; lia]).
  rewrite !(Z.add_comm (v mod 256 * 256)), Z.mod_add, Z.div_add, (Z.mod_small (v / 256)), (Z.div_small (v / 256)) by lia. lia.
Qed.

(** The four bytes of a 32-bit value. *)
Definition byte_of (v i : Z) : Z := (v / 2 ^ (8 * i)) mod 256.

Lemma byte_of_range v i : 0 <= byte_of v i < 256.
Proof. apply Z.mod_pos_bound. lia. Qed.

Lemma bytes_of v : 0 <= v < 2 ^ 32 ->
  v = byte_of v 0 + 256 * byte_of v 1 + 65536 * byte_of v 2 + 16777216 * byte_of v 3.
Proof.
  intros Hv. unfold byte_of. change (2 ^ (8 * 0)) with 1. change (2 ^ (8 * 1)) with 256.
  change (2 ^ (8 * 2)) with (256 * 256). change (2 ^ (8 * 3)) with (256 * 256 * 256). rewrite Z.div_1_r, <- !Z.div_div by lia.
  assert (v / 256 / 256 / 256 < 256).
  { repeat (apply Z.div_lt_upper_bound; [lia|]). lia. }
  rewrite (Z.mod_small (v / 256 / 256 / 256)) by (split; [repeat apply Z.div_pos; lia|done]).
  pose proof (Z.div_mod v 256). pose proof (Z.div_mod (v / 256) 256). pose proof (Z.div_mod (v / 256 / 256) 256). lia.
Qed.

Lemma htonl_eq v : 0 <= v < 2 ^ 32 ->
  htonl v = byte_of v 3 + 256 * byte_of v 2 + 65536 * byte_of v 1 + 16777216 * byte_of v 0.
Proof.
  intros Hv. pose proof (byte_of_range v 0). pose proof (byte_of_range v 1). pose proof (byte_of_range v 2). pose proof (byte_of_range v 3).
  pose proof (bytes_of v Hv) as E. unfold htonl.
  assert (E0 : Z.land v 0xFF = byte_of v 0).
  { change 0xFF with (Z.ones 8). rewrite Z.land_ones by lia. unfold byte_of. change (2 ^ (8 * 0)) with 1. by rewrite Z.div_1_r. }
  assert (E1 : Z.land v 0xFF00 = byte_of v 1 * 256).
  { change 0xFF00 with (Z.shiftl (Z.ones 8) 8). rewrite land_shift_mask by lia. done. }
  assert (E2 : Z.land (Z.shiftr v 8) 0xFF00 = byte_of v 2 * 256).
  { change 0xFF00 with (Z.shiftl (Z.ones 8) 8). rewrite land_shift_mask by lia. unfold byte_of.
    rewrite Z.shiftr_div_pow2, Z.div_div by lia. done. }
  assert (E3 : Z.shiftr v 24 = byte_of v 3).
  { rewrite Z.shiftr_div_pow2 by lia. unfold byte_of. change (2 ^ (8 * 3)) with (2 ^ 24). rewrite Z.mod_small; [done|].
    split; [apply Z.div_pos; lia|apply Z.div_lt_upper_bound; lia]. }
  rewrite E0, E1, E2, E3. rewrite <- !Z.lor_assoc, lor_shift by (try lia; repeat (apply lor_bound; [lia| |]); rewrite ?Z.shiftl_mul_pow2 by lia; lia).
  replace (Z.shiftl (byte_of v 1 * 256) 8) with (Z.shiftl (byte_of v 1) 16) by (rewrite !Z.shiftl_mul_pow2 by lia; lia).
  rewrite lor_shift by (try lia; apply lor_bound; lia).
  replace (byte_of v 2 * 256) with (Z.shiftl (byte_of v 2) 8) by (rewrite Z.shiftl_mul_pow2 by lia; lia).
  rewrite lor_shift by lia. unfold u32. rewrite Z.mod_small; lia.
Qed.

(** ** What the checksum computes *)

Definition is_byte (b : Z) : Prop := 0 <= b < 256.

(** The sum of the 16-bit words of the wire, the last byte padded with zero. *)
Fixpoint word_sum (p : list Z) : Z :=
  match p with
  | a :: b :: p => a * 256 + b + word_sum p
  | [a] => a * 256
  | [] => 0
  end.

(** Induction on a list two elements at a time. *)
Lemma pairs_ind {A} (P : list A -> Prop) :
  P [] -> (forall a, P [a]) -> (forall a b l, P l -> P (a :: b :: l)) -> forall l, P l.
Proof.
  intros H0 H1 H2 l. enough (P l /\ forall a, P (a :: l)) by tauto.
  induction l as [|x l [IH1 IH2]]; [auto|]. split; [apply IH2|]. intros a. by apply H2.
Qed.

Lemma word_sum_bound l : Forall is_byte l -> 0 <= word_sum l <= 32768 * (len l + 1).
Proof.
  induction l as [|a|a b l IH] using pairs_ind; intros H; cbn [word_sum].
  - change (len (@nil Z)) with 0. lia.
  - inversion H as [|? ? Ha]; subst. unfold is_byte in Ha. change (len [a]) with 1. lia.
  - inversion H as [|? ? Ha H']; subst. inversion H' as [|? ? Hb Hl]; subst. specialize (IH Hl).
    unfold is_byte in *. rewrite !len_cons. lia.
Qed.

Lemma sum_words_eq l sum :
  Forall is_byte l -> 0 <= sum -> sum + word_sum l < 2 ^ 32 -> sum_words l sum = sum + word_sum l.
Proof.
  revert sum. induction l as [|a|a b l IH] using pairs_ind; intros sum H Hs Hlt; cbn [sum_words word_sum] in *.
  - lia.
  - inversion H as [|? ? Ha]; subst. unfold is_byte in Ha. rewrite Z.shiftl_mul_pow2 by lia. apply u32_small. lia.
  - inversion H as [|? ? Ha H']; subst. inversion H' as [|? ? Hb Hl]; subst. pose proof (word_sum_bound l Hl).
    unfold is_byte in *. rewrite lor_shift by lia. change (2 ^ 8) with 256. rewrite u32_small by lia.
    rewrite IH by (done || lia). lia.
Qed.

(** The sum in ones' complement on 16 bits. *)
Definition ones (s : Z) : Z := if s =? 0 then 0 else (s - 1) mod 65535 + 1.

Lemma ones_range s : 0 <= ones s < 2 ^ 16.
Proof. unfold ones. destruct (Z.eqb_spec s 0); [lia|]. pose proof (Z.mod_pos_bound (s - 1) 65535). lia. Qed.

Lemma fold_carry_spec s : 0 <= s < 2 ^ 32 -> fold_carry 3 s = ones s.
Proof.
  assert (HS : forall x, 0 <= x -> Z.shiftr x 16 = x / 65536 /\ Z.land x 0xFFFF = x mod 65536).
  { intros x Hx. split; [by rewrite Z.shiftr_div_pow2 by lia|]. change 0xFFFF with (Z.ones 16). by rewrite Z.land_ones by lia. }
  assert (H1 : forall n x, 0 <= x < 65536 -> fold_carry n x = x).
  { intros [|n] x Hx; cbn [fold_carry]; [done|]. destruct (HS x) as [-> _]; [lia|]. by rewrite Z.div_small. }
  assert (Hones : forall x, 0 <= x -> ones (x mod 65536 + x / 65536) = ones x).
  { intros x Hx. pose proof (Z.div_mod x 65536). pose proof (Z.mod_pos_bound x 65536). pose proof (Z.div_pos x 65536).
    unfold ones. destruct (Z.eqb_spec x 0) as [->|]; [done|]. destruct (Z.eqb_spec (x mod 65536 + x / 65536) 0); [lia|].
    f_equal. replace (x - 1) with (x mod 65536 + x / 65536 - 1 + x / 65536 * 65535) by lia. by rewrite Z.mod_add by lia. }
  assert (H2 : forall x, 0 <= x < 65536 -> ones x = x).
  { intros x Hx. unfold ones. destruct (Z.eqb_spec x 0); [lia|]. rewrite Z.mod_small; lia. }
  assert (Hstep : forall n x, 0 <= x -> fold_carry (S n) x = fold_carry n (x mod 65536 + x / 65536)).
  { intros n x Hx. cbn [fold_carry]. destruct (HS x Hx) as [-> ->]. unfold truth.
    destruct (Z.eqb_spec (x / 65536) 0) as [E|]; [|done]. cbn [negb]. pose proof (Z.div_mod x 65536). pose proof (Z.mod_pos_bound x 65536).
    rewrite E, Z.add_0_r, (Z.mod_small x), H1 by lia. done. }
  intros Hs. assert (0 <= s / 65536 < 65536) by (split; [apply Z.div_pos; lia|apply Z.div_lt_upper_bound; lia]).
  pose proof (Z.mod_pos_bound s 65536). set (x := s mod 65536 + s / 65536).
  assert (0 <= x <= 131070) by lia. assert (0 <= x / 65536 <= 1).
  { split; [apply Z.div_pos; lia|]. assert (x / 65536 < 2) by (apply Z.div_lt_upper_bound; lia). lia. }
  pose proof (Z.mod_pos_bound x 65536). pose proof (Z.div_mod x 65536).
  rewrite Hstep by lia. fold x. rewrite Hstep by lia. rewrite H1 by lia.
  rewrite <- (H2 (x mod 65536 + x / 65536)) by lia. rewrite Hones by lia. apply Hones. lia.
Qed.

(** The checksum of [data] with the sum [s0] of a pseudo header. *)
Definition checksum_from (s0 : Z) (data : list Z) : Z := htons (u16 (Z.lnot (fold_carry 3 (sum_words data s0)))).

Lemma checksum_from_eq s0 l :
  Forall is_byte l -> 0 <= s0 -> s0 + word_sum l < 2 ^ 32 ->
  checksum_from s0 l = htons (65535 - ones (s0 + word_sum l)).
Proof.
  intros Hl Hs Hlt. pose proof (word_sum_bound l Hl). unfold checksum_from.
  rewrite sum_words_eq, fold_carry_spec by (done || lia). f_equal. pose proof (ones_range (s0 + word_sum l)).
  unfold u16, Z.lnot. rewrite <- (Z.mod_add _ 1) by lia. rewrite Z.mod_small; lia.
Qed.

(** It is 0 exactly when the sum is a positive multiple of 65535. *)
Lemma checksum_from_zero s0 l :
  Forall is_byte l -> 0 <= s0 -> s0 + word_sum l < 2 ^ 32 ->
  checksum_from s0 l = 0 <-> 0 < s0 + word_sum l /\ (s0 + word_sum l) mod 65535 = 0.
Proof.
  intros Hl Hs Hlt. rewrite checksum_from_eq by done. pose proof (word_sum_bound l Hl). pose proof (ones_range (s0 + word_sum l)).
  set (S := s0 + word_sum l) in *. assert (HZ : htons (65535 - ones S) = 0 <-> ones S = 65535).
  { split; [|intros ->; done]. intros E. pose proof (htons_htons (65535 - ones S)) as HH. rewrite E in HH.
    change (htons 0) with 0 in HH. lia. }
  rewrite HZ. unfold ones. destruct (Z.eqb_spec S 0); [lia|]. pose proof (Z.div_mod (S - 1) 65535).
  pose proof (Z.mod_pos_bound (S - 1) 65535). split.
  - intros E. split; [lia|]. replace S with (((S - 1) / 65535 + 1) * 65535) by lia. by apply Z.mod_mul.
  - intros [_ E]. apply Z.mod_divide in E as [k Ek]; [|lia]. enough ((S - 1) mod 65535 = 65534) by lia.
    replace (S - 1) with (65534 + (k - 1) * 65535) by lia. rewrite Z.mod_add by lia. done.
Qed.

Lemma word_sum_app a b : Z.even (len a) = true -> word_sum (a ++ b) = word_sum a + word_sum b.
Proof.
  induction a as [|x|x y a IH] using pairs_ind; intros He; cbn [app word_sum]; [done|done|].
  rewrite IH; [lia|]. rewrite !len_cons in He. replace (1 + (1 + len a)) with (len a + 2 * 1) in He by lia.
  by rewrite Z.even_add_mul_2 in He.
Qed.

(** The two bytes of a value in network order. *)
Lemma le_htons v : 0 <= v < 2 ^ 16 -> le 2 (htons v) = [v / 256; v mod 256].
Proof.
  intros Hv. rewrite htons_eq by done. cbn [le]. pose proof (Z.div_mod v 256). pose proof (Z.mod_pos_bound v 256).
  assert (0 <= v / 256 < 256) by (split; [apply Z.div_pos; lia|apply Z.div_lt_upper_bound; lia]). unfold u8.
  change (2 ^ 8) with 256. rewrite !(Z.add_comm (v mod 256 * 256)), Z.mod_add, Z.div_add by lia.
  rewrite (Z.mod_small (v / 256)), (Z.div_small (v / 256)), Z.add_0_l, Z.mod_small by lia. done.
Qed.

Lemma is_byte_u8 v : is_byte (u8 v).
Proof. apply u8_range. Qed.

Lemma le_bytes n v : Forall is_byte (le n v).
Proof. revert v. induction n as [|n IH]; intros v; cbn [le]; constructor; auto using is_byte_u8. Qed.

(** A message whose checksum field holds the checksum of the rest sums to zero. *)
Lemma checksum_verifies s0 a b :
  Forall is_byte a -> Forall is_byte b -> Z.even (len a) = true -> 0 <= s0 < 2 ^ 20 -> len a + len b < 2 ^ 16 ->
  checksum_from s0 (a ++ le 2 (checksum_from s0 (a ++ [0; 0] ++ b)) ++ b) = 0.
Proof.
  intros Ha Hb He Hs Hl. pose proof (word_sum_bound a Ha). pose proof (word_sum_bound b Hb). pose proof (len_nonneg a). pose proof (len_nonneg b).
  assert (HS0 : word_sum (a ++ [0; 0] ++ b) = word_sum a + word_sum b) by (rewrite word_sum_app by done; done).
  rewrite (checksum_from_eq s0 (a ++ [0; 0] ++ b)), HS0; [|apply Forall_app; split; [done|by repeat constructor]|lia|lia].
  set (S := s0 + (word_sum a + word_sum b)). pose proof (ones_range S). rewrite le_htons by lia. set (c := 65535 - ones S).
  assert (0 <= c / 256 < 256) by (split; [apply Z.div_pos; lia|apply Z.div_lt_upper_bound; lia]). pose proof (Z.mod_pos_bound c 256).
  assert (HS1 : word_sum (a ++ [c / 256; c mod 256] ++ b) = word_sum a + (c + word_sum b)).
  { rewrite word_sum_app by done. cbn [app word_sum]. pose proof (Z.div_mod c 256). lia. }
  apply checksum_from_zero; rewrite ?HS1; [|lia|lia|].
  { apply Forall_app. split; [done|]. cbn [app]. constructor; [unfold is_byte; lia|]. constructor; [unfold is_byte; lia|done]. }
  replace (s0 + (word_sum a + (c + word_sum b))) with (S + c) by lia. unfold c, ones.
  destruct (Z.eqb_spec S 0) as [->|]; [done|]. pose proof (Z.div_mod (S - 1) 65535). pose proof (Z.mod_pos_bound (S - 1) 65535). split; [lia|].
  replace (S + (65535 - ((S - 1) mod 65535 + 1))) with (((S - 1) / 65535 + 1) * 65535) by lia. by apply Z.mod_mul.
Qed.

(** Changing byte [i]. *)
Lemma word_sum_insert l i x y :
  l !! i = Some y -> word_sum (<[i := x]> l) = word_sum l + (x - y) * (if Nat.even i then 256 else 1).
Proof.
  revert i. induction l as [|a|a b l IH] using pairs_ind; intros i Hi; [done| |].
  - destruct i as [|i]; [|by destruct i]. injection Hi as ->. cbn. lia.
  - destruct i as [|[|i]]; cbn in Hi; [injection Hi as ->; cbn; lia|injection Hi as ->; cbn; lia|].
    change (<[S (S i) := x]> (a :: b :: l)) with (a :: b :: <[i := x]> l). cbn [word_sum Nat.even]. rewrite (IH i Hi). lia.
Qed.

(** The Internet checksum: filling in the field makes the message verify, and
    a message that verifies no longer does when any one byte of it is changed. *)
Theorem inet_checksum_guards a b i x y :
  let msg := a ++ le 2 (inet_checksum (a ++ [0; 0] ++ b)) ++ b in
  Forall is_byte a -> Forall is_byte b -> Z.even (len a) = true -> len a + len b < 2 ^ 16 ->
  msg !! i = Some y -> is_byte x -> x <> y ->
  inet_checksum msg = 0 /\ inet_checksum (<[i := x]> msg) <> 0.
Proof.
  intros msg Ha Hb He Hl Hi Hx Hne.
  assert (HV : inet_checksum msg = 0) by (apply (checksum_verifies 0); done || lia). split; [done|]. intros HV'.
  assert (Hm : Forall is_byte msg) by (repeat (apply Forall_app; split); done || apply le_bytes).
  assert (Hy : is_byte y) by (by eapply Forall_lookup_1).
  assert (Hlm : len msg = len a + len b + 2) by (unfold msg; rewrite !len_app, len_le; lia).
  assert (Hm' : Forall is_byte (<[i := x]> msg)) by (by apply Forall_insert).
  assert (Hl' : len (<[i := x]> msg) = len msg) by (unfold len; by rewrite length_insert).
  pose proof (word_sum_bound msg Hm). pose proof (word_sum_bound _ Hm').
  apply (checksum_from_zero 0) in HV as [_ E1]; [|done|lia|lia]. apply (checksum_from_zero 0) in HV' as [_ E2]; [|done|lia|lia].
  rewrite (word_sum_insert msg i x y Hi) in E2. rewrite Z.add_0_l in E1, E2.
  apply Z.mod_divide in E1 as [k1 K1]; [|lia]. apply Z.mod_divide in E2 as [k2 K2]; [|lia]. unfold is_byte in *.
  destruct (Nat.even i); lia.
Qed.

(** ** Dotted addresses *)

Lemma scan_part_app ds rest v n v' :
  Forall (fun c => is_digit c = true) ds -> scan_part ds v n = Some (v', []) ->
  scan_part (ds ++ rest) v n = scan_part rest v' (n + len ds).
Proof.
  revert v n. induction ds as [|c ds IH]; intros v n Hd.
  { intros [= ->]. cbn [app]. f_equal. change (len (@nil Z)) with 0. lia. }
  inversion Hd as [|? ? Hc Hd']; subst. cbn [scan_part app]. rewrite Hc. destruct (_ || _); [done|].
  intros E. rewrite (IH _ _ Hd' E), len_cons. f_equal. lia.
Qed.

Lemma part_scan v rest :
  0 <= v < 256 -> (forall c s, rest = c :: s -> is_digit c = false) ->
  scan_part (part_digits v ++ rest) 0 0 = Some (v, rest) /\ exists c s, part_digits v ++ rest = c :: s /\ is_digit c = true.
Proof.
  intros Hv Hr.
  assert (HA : forallb (fun v => bool_decide (scan_part (part_digits v) 0 0 = Some (v, []))
                 && forallb is_digit (part_digits v) && negb (bool_decide (part_digits v = []))) (seqZ 0 256) = true) by (vm_compute; reflexivity).
  rewrite forallb_forall in HA. specialize (HA v). rewrite <- list_elem_of_In in HA.
  specialize (HA ltac:(apply elem_of_seqZ; lia)). apply andb_prop in HA as [HA H3]. apply andb_prop in HA as [H1 H2].
  apply bool_decide_eq_true_1 in H1. assert (HD : Forall (fun c => is_digit c = true) (part_digits v)) by (apply List.Forall_forall; by apply forallb_forall).
  split.
  - rewrite (scan_part_app _ rest 0 0 v HD H1). destruct rest as [|c s]; [done|]. cbn [scan_part]. by rewrite (Hr c s eq_refl).
  - destruct (part_digits v) as [|c s] eqn:E; [by vm_compute in H3|]. exists c, (s ++ rest). split; [done|]. by inversion HD.
Qed.

(** Printing and parsing addresses: ip_from_str reads back what ip_to_str
    prints. *)
Theorem ip_str_roundtrip ip : 0 <= ip < 2 ^ 32 -> ip_from_str (ip_to_str ip) = Some ip.
Proof.
  intros Hip. pose proof (bytes_of ip Hip) as E.
  pose proof (byte_of_range ip 0). pose proof (byte_of_range ip 1). pose proof (byte_of_range ip 2). pose proof (byte_of_range ip 3).
  assert (HB : forall i : nat, (i <= 3)%nat -> Z.land (Z.shiftr ip (Z.of_nat i * 8)) 0xFF = byte_of ip (Z.of_nat i)).
  { intros i Hi. change 0xFF with (Z.ones 8). rewrite Z.land_ones, Z.shiftr_div_pow2 by lia. unfold byte_of. do 3 f_equal. lia. }
  unfold ip_from_str, ip_to_str. cbn [ip_parts]. rewrite !HB by lia. change (Z.of_nat 3) with 3. change (Z.of_nat 2) with 2. change (Z.of_nat 1) with 1. change (Z.of_nat 0) with 0.
  assert (HS : forall n v rest ip, 0 <= v < 256 -> (forall c s, rest = c :: s -> is_digit c = false) ->
    scan_parts (S n) (part_digits v ++ rest) ip =
      let ip := Z.lor (u32 (Z.shiftl ip 8)) v in
      match n with
      | O => scan_parts n rest ip
      | S _ => match rest with c :: s => if c =? 46 then scan_parts n s ip else None | [] => None end
      end).
  { intros n v rest ip' Hv Hr. destruct (part_scan v rest Hv Hr) as [P1 (c & s & P2 & P3)]. cbn [scan_parts]. rewrite P2, P3.
    cbn [negb]. rewrite <- P2, P1. done. }
  assert (Hdot : forall c s t, 46 :: t = c :: s -> is_digit c = false) by (by intros c s t [= <- _]).
  rewrite HS by (done || (intros; by eapply Hdot)). cbn [Z.eqb Pos.eqb]. cbn zeta.
  rewrite HS by (done || (intros; by eapply Hdot)). cbn [Z.eqb Pos.eqb]. cbn zeta.
  rewrite HS by (done || (intros; by eapply Hdot)). cbn [Z.eqb Pos.eqb]. cbn zeta.
  rewrite <- (app_nil_r (part_digits (byte_of ip 0))). rewrite HS by done. cbn zeta. cbn [scan_parts]. f_equal.
  assert (HL : forall x v k, 0 <= x < 2 ^ k -> 0 <= k <= 24 -> 0 <= v < 256 -> Z.lor (u32 (Z.shiftl x 8)) v = x * 256 + v).
  { intros x v k Hx Hk Hv. assert (2 ^ k <= 2 ^ 24) by (apply Z.pow_le_mono_r; lia).
    rewrite u32_small by (rewrite Z.shiftl_mul_pow2 by lia; lia). by rewrite lor_shift by lia. }
  rewrite (HL 0 (byte_of ip 3) 0) by lia.
  rewrite (HL (0 * 256 + byte_of ip 3) (byte_of ip 2) 8) by lia.
  rewrite (HL ((0 * 256 + byte_of ip 3) * 256 + byte_of ip 2) (byte_of ip 1) 16) by lia.
  rewrite (HL (((0 * 256 + byte_of ip 3) * 256 + byte_of ip 2) * 256 + byte_of ip 1) (byte_of ip 0) 24) by lia. lia.
Qed.

Lemma inet_checksum_guards_witness :
  let msg := [1; 2] ++ le 2 (inet_checksum ([1; 2] ++ [0; 0] ++ [3])) ++ [3] in
  inet_checksum msg = 0 /\ inet_checksum (<[4%nat := 7]> msg) <> 0.
Proof. apply (inet_checksum_guards [1; 2] [3] 4 7 3); try done; repeat constructor; done. Defined.

Lemma ip_str_roundtrip_witness : ip_from_str (ip_to_str 0x7F000001) = Some 0x7F000001.
Proof. apply (ip_str_roundtrip 0x7F000001). done. Defined.
