(* ===== verification/Tcp.v ===== *)
(** TCP, one connection: [kernel/net/tcp.c] and the control block of
    [kernel/net/sock.h].

    A control block is its fields and its two buffers. A routine that works on one
    connection is a function on an [est]: the block, what the routine has done so
    far (segments sent, waiters woken, effects on the listener), the outcomes of
    the kmalloc calls for segments, and the clock. [None] is an access outside a
    buffer or through a NULL buffer, or a loop without end. A routine runs with
    net_lock held; the address of the next hop is in the ARP cache, so ipv4_send
    does not drop the lock. *)

From stdpp Require Import base numbers list.
From Stdlib Require Import ZArith Lia.
From S2P Require Import Prelude Buf Inet.

(** * Constants *)

Definition TCP_BUF_SIZE : Z := 16 * 1024.
Definition ETH_MTU : Z := 1500.
Definition TCP_MSS : Z := ETH_MTU - 40.
Definition TCP_RTO_INIT_MS : Z := 300.
Definition TCP_RTO_MAX_MS : Z := 3000.
Definition TCP_MAX_RETRIES : Z := 10.
Definition TCP_TIMEWAIT_MS : Z := 500.
Definition TCP_ORPHAN_LINGER_MS : Z := 5000.
Definition TCP_CONNECT_TIMEOUT_MS : Z := 10000.

Definition TCP_FIN : Z := 0x01.
Definition TCP_SYN : Z := 0x02.
Definition TCP_RST : Z := 0x04.
Definition TCP_PSH : Z := 0x08.
Definition TCP_ACK : Z := 0x10.

(** tcp_state_t. *)
Definition TCP_CLOSED : Z := 0.
Definition TCP_LISTEN : Z := 1.
Definition TCP_SYN_SENT : Z := 2.
Definition TCP_SYN_RCVD : Z := 3.
Definition TCP_ESTABLISHED : Z := 4.
Definition TCP_FIN_WAIT_1 : Z := 5.
Definition TCP_FIN_WAIT_2 : Z := 6.
Definition TCP_CLOSE_WAIT : Z := 7.
Definition TCP_CLOSING : Z := 8.
Definition TCP_LAST_ACK : Z := 9.
Definition TCP_TIME_WAIT : Z := 10.

Definition flag (x f : Z) : bool := truth (Z.land x f).

(** * State *)

(** The scalar fields of tcb_t. *)
Inductive tfield :=
  | T_state | T_lip | T_rip | T_lport | T_rport
  | T_iss | T_snd_una | T_snd_nxt | T_snd_wnd | T_peer_mss | T_irs | T_rcv_nxt
  | T_sb_len | T_rb_head | T_rb_len | T_last_adv_wnd
  | T_fin_rcvd | T_fin_queued | T_fin_sent | T_fin_seq
  | T_rto_ms | T_rtx_deadline | T_rtx_count | T_dup_acks | T_tw_deadline | T_err
  | T_backlog | T_parent | T_aq_next | T_aq_head | T_aq_tail | T_aq_len | T_half_open
  | T_sock | T_cond.

Definition tf_id (f : tfield) : nat :=
  match f with
  | T_state => 0 | T_lip => 1 | T_rip => 2 | T_lport => 3 | T_rport => 4
  | T_iss => 5 | T_snd_una => 6 | T_snd_nxt => 7 | T_snd_wnd => 8 | T_peer_mss => 9 | T_irs => 10 | T_rcv_nxt => 11
  | T_sb_len => 12 | T_rb_head => 13 | T_rb_len => 14 | T_last_adv_wnd => 15
  | T_fin_rcvd => 16 | T_fin_queued => 17 | T_fin_sent => 18 | T_fin_seq => 19
  | T_rto_ms => 20 | T_rtx_deadline => 21 | T_rtx_count => 22 | T_dup_acks => 23 | T_tw_deadline => 24 | T_err => 25
  | T_backlog => 26 | T_parent => 27 | T_aq_next => 28 | T_aq_head => 29 | T_aq_tail => 30 | T_aq_len => 31
  | T_half_open => 32 | T_sock => 33 | T_cond => 34
  end.

Definition tf_eqb (f g : tfield) : bool := Nat.eqb (tf_id f) (tf_id g).

(** [sb], [rb]: the buffers of TCP_BUF_SIZE bytes, [None] for NULL. *)
Record tcb := Tcb { fld : tfield -> Z; sb : option (list Z); rb : option (list Z) }.

Definition tset (f : tfield) (v : Z) (t : tcb) : tcb :=
  Tcb (fun g => if tf_eqb g f then v else fld t g) (sb t) (rb t).

(** A segment: the fields of tcp_hdr_t in host order (the checksum is made when
    the bytes are), its options and its payload. *)
Record segment := Seg {
  g_src : Z; g_dst : Z; g_sport : Z; g_dport : Z; g_seq : Z; g_ack : Z; g_flags : Z; g_win : Z;
  g_opts : list Z; g_data : list Z
}.

(** What a routine does besides changing its block: a segment given to ipv4_send,
    a broadcast on a condition, tcb_signal of another block, the listener's count
    of half-open children decremented, the block put on the listener's accept
    queue, a counter of net_stats incremented. *)
Inductive stat := st_tx | st_rst_tx | st_retrans | st_rx.
Inductive act :=
  | Xmit (g : segment) | Broadcast (cond : Z) | Signal (p : Z)
  | Half_open_dec (l : Z) | Accept_enqueue (l : Z) | Count (c : stat).

Record est := Est { et : tcb; acts : list act; segs : list bool; clock : Z }.

Definition with_tcb (t : tcb) (s : est) : est := Est t (acts s) (segs s) (clock s).
Definition put (f : tfield) (v : Z) (s : est) : est := with_tcb (tset f v (et s)) s.
Definition put_sb (b : option (list Z)) (s : est) : est := with_tcb (Tcb (fld (et s)) b (rb (et s))) s.
Definition put_rb (b : option (list Z)) (s : est) : est := with_tcb (Tcb (fld (et s)) (sb (et s)) b) s.
Definition emit (a : act) (s : est) : est := Est (et s) (acts s ++ [a]) (segs s) (clock s).

Declare Scope tcp_scope.
Delimit Scope tcp_scope with tcp.
Notation "s # f" := (fld (et s) f) (at level 8, left associativity, format "s # f") : tcp_scope.
#[global] Open Scope tcp_scope.

(** * Sequence numbers *)

Definition seq_lt (a b : Z) : bool := s32 (u32 (a - b)) <? 0.
Definition seq_le (a b : Z) : bool := s32 (u32 (a - b)) <=? 0.
Definition seq_gt (a b : Z) : bool := 0 <? s32 (u32 (a - b)).
Definition seq_ge (a b : Z) : bool := 0 <=? s32 (u32 (a - b)).

(** * Output *)

Definition tcb_signal (s : est) : est := if truth (s#T_cond) then emit (Broadcast (s#T_cond)) s else s.

Definition rcv_window (t : tcb) : Z :=
  match rb t with
  | None => 0
  | Some _ => let w := u32 (TCP_BUF_SIZE - fld t T_rb_len) in if 65535 <? w then 65535 else w
  end.

(** The outcome of the next kmalloc of a segment. *)
Definition kmalloc_seg (s : est) : bool * est :=
  match segs s with
  | [] => (true, s)
  | b :: l => (b, Est (et s) (acts s) l (clock s))
  end.

Definition mss_option : list Z := [2; 4; Z.shiftr TCP_MSS 8; Z.land TCP_MSS 0xFF].

(** Every caller ignores the result. *)
Definition tcp_xmit (seq flags : Z) (data : list Z) (mss_opt : bool) (s : est) : est :=
  let '(ok, s) := kmalloc_seg s in
  if negb ok then s else
  let wnd := rcv_window (et s) in
  let g := Seg (s#T_lip) (s#T_rip) (s#T_lport) (s#T_rport) seq (if flag flags TCP_ACK then s#T_rcv_nxt else 0)
               flags (u16 wnd) (if mss_opt then mss_option else []) data in
  let s := put T_last_adv_wnd wnd s in
  let s := emit (Count st_tx) s in
  let s := if flag flags TCP_RST then emit (Count st_rst_tx) s else s in
  emit (Xmit g) s.

(** The segment tcp_rst_raw sends. *)
Definition rst_segment (lip rip lport rport seq ack : Z) (with_ack : bool) : segment :=
  Seg lip rip lport rport seq (if with_ack then ack else 0) (Z.lor TCP_RST (if with_ack then TCP_ACK else 0)) 0 [] [].

Definition tcp_rst_raw (lip rip lport rport seq ack : Z) (with_ack : bool) (s : est) : est :=
  emit (Xmit (rst_segment lip rip lport rport seq ack with_ack)) (emit (Count st_rst_tx) (emit (Count st_tx) s)).

Definition arm_rtx (s : est) : est :=
  if negb (truth (s#T_rtx_deadline)) then put T_rtx_deadline (u64 (clock s + s#T_rto_ms)) s else s.

Definition can_send_data (st : Z) : bool :=
  (st =? TCP_ESTABLISHED) || (st =? TCP_CLOSE_WAIT) || (st =? TCP_FIN_WAIT_1) || (st =? TCP_LAST_ACK) || (st =? TCP_CLOSING).

(** [while (!t->fin_sent)]. Every round sends at least one byte of the buffer. *)
Fixpoint output_loop (fuel : nat) (s : est) : option est :=
  match fuel with
  | O => None
  | S fuel =>
      if truth (s#T_fin_sent) then Some s else
      let in_flight := u32 (s#T_snd_nxt - s#T_snd_una) in
      let unsent := u32 (s#T_sb_len - in_flight) in
      let wnd := s#T_snd_wnd in
      let wnd := if (wnd =? 0) && (in_flight =? 0) && (0 <? unsent) then 1 else wnd in
      if (unsent =? 0) || (wnd <=? in_flight) then Some s else
      let n := unsent in
      let n := if s#T_peer_mss <? n then s#T_peer_mss else n in
      let n := if u32 (wnd - in_flight) <? n then u32 (wnd - in_flight) else n in
      let seq := s#T_snd_nxt in
      let s := put T_snd_nxt (u32 (s#T_snd_nxt + n)) s in
      let s := arm_rtx s in
      b ← sb (et s);
      d ← bsub b in_flight n;
      output_loop fuel (tcp_xmit seq (Z.lor TCP_ACK TCP_PSH) d false s)
  end.

Definition output_fuel : nat := Z.to_nat (TCP_BUF_SIZE + 2).

Definition tcp_output (s : est) : option est :=
  if negb (can_send_data (s#T_state)) then Some s else
  s ← output_loop output_fuel s;
  if truth (s#T_fin_queued) && negb (truth (s#T_fin_sent)) && (u32 (s#T_snd_nxt - s#T_snd_una) =? s#T_sb_len) then
    let s := put T_fin_seq (s#T_snd_nxt) s in
    let s := put T_snd_nxt (u32 (s#T_snd_nxt + 1)) s in
    let s := put T_fin_sent 1 s in
    let s := arm_rtx s in
    Some (tcp_xmit (s#T_fin_seq) (Z.lor TCP_FIN TCP_ACK) [] false s)
  else Some s.

Definition send_ack (s : est) : est := tcp_xmit (s#T_snd_nxt) TCP_ACK [] false s.

Definition go_back_n (s : est) : option est :=
  let s := put T_snd_nxt (s#T_snd_una) s in
  let s := if truth (s#T_fin_sent) && seq_ge (s#T_fin_seq) (s#T_snd_una) then put T_fin_sent 0 s else s in
  let s := put T_rtx_deadline 0 s in
  s ← tcp_output s;
  Some (if negb (truth (s#T_rtx_deadline)) && negb (s#T_snd_una =? s#T_snd_nxt) then arm_rtx s else s).

Definition tcp_abort (err : Z) (s : est) : est :=
  let s := put T_err err s in
  let s := put T_state TCP_CLOSED s in
  let s := put T_rtx_deadline 0 s in
  let s := tcb_signal s in
  if truth (s#T_parent) then emit (Signal (s#T_parent)) s else s.

(** * Input *)

(** [opt]: the options from index [i] on. *)
Fixpoint parse_mss (fuel : nat) (opt : list Z) : Z :=
  match fuel with
  | O => 0
  | S fuel =>
      match opt with
      | [] => 0
      | kind :: rest =>
          if kind =? 0 then 0 else
          if kind =? 1 then parse_mss fuel rest else
          match rest with
          | [] => 0
          | olen :: _ =>
              if (olen <? 2) || (len opt <? olen) then 0 else
              if (kind =? 2) && (olen =? 4) then u16 (Z.lor (Z.shiftl (opt !!! 2%nat) 8) (opt !!! 3%nat)) else
              parse_mss fuel (zdrop olen opt)
          end
      end
  end.

Definition opt_mss (opts : list Z) : Z := parse_mss (length opts) opts.

(** The bytes [bs] enter the ring [b] from index [tail] on. *)
Fixpoint rb_in (bs b : list Z) (tail : Z) : option (list Z) :=
  match bs with
  | [] => Some b
  | x :: bs => b ← bput b tail x; rb_in bs b ((tail + 1) mod TCP_BUF_SIZE)
  end.

Definition accept_data (data : list Z) (s : est) : option est :=
  match rb (et s) with
  | None => Some s
  | Some b =>
      let space := u32 (TCP_BUF_SIZE - s#T_rb_len) in
      let n := if len data <? space then len data else space in
      let tail := u32 (s#T_rb_head + s#T_rb_len) mod TCP_BUF_SIZE in
      d ← bsub data 0 n;
      b ← rb_in d b tail;
      let s := put_rb (Some b) s in
      let s := put T_rb_len (u32 (s#T_rb_len + n)) s in
      Some (put T_rcv_nxt (u32 (s#T_rcv_nxt + n)) s)
  end.

(** The peer's MSS from the options of a SYN. *)
Definition take_mss (opts : list Z) (s : est) : est :=
  let mss := opt_mss opts in
  if truth mss then put T_peer_mss (if mss <? TCP_MSS then mss else TCP_MSS) s else s.

Definition handle_syn_sent (h : segment) (s : est) : est :=
  let flags := g_flags h in
  let seq := g_seq h in
  let ack := g_ack h in
  if flag flags TCP_ACK && negb (ack =? u32 (s#T_iss + 1)) then
    if negb (flag flags TCP_RST) then tcp_rst_raw (s#T_lip) (s#T_rip) (s#T_lport) (s#T_rport) ack 0 false s else s
  else if flag flags TCP_ACK && flag flags TCP_RST then tcp_abort ECONNREFUSED s
  else if negb (flag flags TCP_ACK) && flag flags TCP_RST then s
  else if negb (flag flags TCP_SYN) then s else
  let s := put T_irs seq s in
  let s := put T_rcv_nxt (u32 (seq + 1)) s in
  let s := take_mss (g_opts h) s in
  let s := put T_snd_wnd (g_win h) s in
  if flag flags TCP_ACK then
    let s := put T_snd_una ack s in
    let s := put T_state TCP_ESTABLISHED s in
    let s := put T_rtx_deadline 0 s in
    let s := put T_rtx_count 0 s in
    let s := put T_rto_ms TCP_RTO_INIT_MS s in
    tcb_signal (send_ack s)
  else s.

(** The first [n] bytes leave the send buffer: memmove to its start. *)
Definition sb_drop (n : Z) (s : est) : option est :=
  let rest := u32 (s#T_sb_len - n) in
  match sb (et s) with
  | None => if rest =? 0 then Some s else None
  | Some b => d ← bsub b n rest; b ← bblit b 0 d; Some (put_sb (Some b) s)
  end.

Definition enter_time_wait (s : est) : est :=
  put T_tw_deadline (u64 (clock s + TCP_TIMEWAIT_MS)) (put T_state TCP_TIME_WAIT s).

(** Data and FIN acknowledged: the block of [if (seq_gt(ack, t->snd_una))]. *)
Definition ack_new (ack : Z) (s : est) : option est :=
  let s := put T_dup_acks 0 s in
  let acked := u32 (ack - s#T_snd_una) in
  let fin_acked := truth (s#T_fin_sent) && seq_gt ack (s#T_fin_seq) in
  let data_acked := u32 (acked - b2z fin_acked) in
  let data_acked := if s#T_sb_len <? data_acked then s#T_sb_len else data_acked in
  s ← sb_drop data_acked s;
  let s := put T_sb_len (u32 (s#T_sb_len - data_acked)) s in
  let s := put T_snd_una ack s in
  let s := put T_rtx_count 0 s in
  let s := put T_rto_ms TCP_RTO_INIT_MS s in
  let s := put T_rtx_deadline (if s#T_snd_una =? s#T_snd_nxt then 0 else u64 (clock s + s#T_rto_ms)) s in
  let s := if fin_acked then
             if s#T_state =? TCP_FIN_WAIT_1 then put T_state TCP_FIN_WAIT_2 s
             else if s#T_state =? TCP_CLOSING then enter_time_wait s
             else if s#T_state =? TCP_LAST_ACK then put T_state TCP_CLOSED s else s
           else s in
  Some (tcb_signal s).

Definition process_ack (ack window : Z) (pure_ack : bool) (s : est) : option est :=
  if seq_gt ack (s#T_snd_nxt) then Some (send_ack s) else
  if (ack =? s#T_snd_una) && pure_ack && (window =? s#T_snd_wnd) && negb (s#T_snd_nxt =? s#T_snd_una) then
    let s := put T_dup_acks (s#T_dup_acks + 1) s in
    if s#T_dup_acks =? 3 then
      let s := emit (Count st_retrans) s in
      go_back_n (put T_dup_acks (-1000) s)
    else Some s
  else
    s ← (if seq_gt ack (s#T_snd_una) then ack_new ack s else Some s);
    Some (put T_snd_wnd window s).

(** The FIN of the peer is taken. *)
Definition take_fin (s : est) : est :=
  let s := put T_rcv_nxt (u32 (s#T_rcv_nxt + 1)) s in
  let s := put T_fin_rcvd 1 s in
  if s#T_state =? TCP_ESTABLISHED then put T_state TCP_CLOSE_WAIT s
  else if s#T_state =? TCP_FIN_WAIT_1 then
    if truth (s#T_fin_sent) && (s#T_snd_una =? s#T_snd_nxt) then enter_time_wait s
    else put T_state TCP_CLOSING s
  else if s#T_state =? TCP_FIN_WAIT_2 then enter_time_wait s
  else s.

(** Payload and FIN, in order only: [inl] where the handler returns, [inr] where
    it goes on. *)
Definition take_payload (h : segment) (s : est) : option (est + est) :=
  let data := g_data h in
  let has_fin := flag (g_flags h) TCP_FIN in
  if (0 <? len data) || has_fin then
    if negb (g_seq h =? s#T_rcv_nxt) then Some (inl (send_ack s)) else
    let can_receive := (s#T_state =? TCP_ESTABLISHED) || (s#T_state =? TCP_FIN_WAIT_1) || (s#T_state =? TCP_FIN_WAIT_2) in
    let before := s#T_rb_len in
    s ← (if (0 <? len data) && can_receive && negb (truth (s#T_fin_rcvd)) then accept_data data s else Some s);
    let all_data_taken := u64 (s#T_rb_len - before) =? len data in
    let s := if has_fin && all_data_taken && negb (truth (s#T_fin_rcvd)) then take_fin s
             else if has_fin && (s#T_state =? TCP_TIME_WAIT)
             then put T_tw_deadline (u64 (clock s + TCP_TIMEWAIT_MS)) s else s in
    Some (inr (tcb_signal (send_ack s)))
  else Some (inr s).

(** RST in a synchronized state. *)
Definition take_rst (h : segment) (s : est) : est :=
  let wnd := rcv_window (et s) in
  let wnd := if wnd =? 0 then 1 else wnd in
  if seq_ge (g_seq h) (s#T_rcv_nxt) && seq_lt (g_seq h) (u32 (s#T_rcv_nxt + wnd)) then
    if (s#T_state =? TCP_SYN_RCVD) && truth (s#T_parent) then
      let s := emit (Half_open_dec (s#T_parent)) s in
      put T_state TCP_CLOSED (put T_parent 0 s)
    else tcp_abort ECONNRESET s
  else s.

(** The handshake completes. *)
Definition establish (h : segment) (s : est) : est :=
  let s := put T_snd_una (g_ack h) s in
  let s := put T_snd_wnd (g_win h) s in
  let s := put T_rtx_deadline 0 s in
  let s := put T_rtx_count 0 s in
  let s := put T_state TCP_ESTABLISHED s in
  if truth (s#T_parent) then
    let s := emit (Half_open_dec (s#T_parent)) s in
    let s := put T_aq_next 0 s in
    let s := emit (Accept_enqueue (s#T_parent)) s in
    emit (Signal (s#T_parent)) s
  else s.

(** What tcb_alloc makes of a fresh block. *)
Definition tcb_init (sb rb : option (list Z)) : tcb :=
  tset T_peer_mss 536 (tset T_rto_ms TCP_RTO_INIT_MS (Tcb (fun _ => 0) sb rb)).

(** handle_listen, from the new block on; [l] is the listener. *)
Definition syn_child (l lport iss : Z) (h : segment) (s : est) : est :=
  let s := put T_lip (g_dst h) s in
  let s := put T_lport lport s in
  let s := put T_rip (g_src h) s in
  let s := put T_rport (g_sport h) s in
  let s := put T_irs (g_seq h) s in
  let s := put T_rcv_nxt (u32 (s#T_irs + 1)) s in
  let s := put T_iss iss s in
  let s := put T_snd_una (s#T_iss) s in
  let s := put T_snd_nxt (u32 (s#T_iss + 1)) s in
  let s := put T_snd_wnd (g_win h) s in
  let s := take_mss (g_opts h) s in
  let s := put T_state TCP_SYN_RCVD s in
  let s := put T_parent l s in
  let s := arm_rtx s in
  tcp_xmit (s#T_iss) (Z.lor TCP_SYN TCP_ACK) [] true s.

(** tcp_connect, from the new block to the wait. *)
Definition connect_syn (sock cond lip lport rip rport iss : Z) (s : est) : est :=
  let s := put T_lip lip s in
  let s := put T_lport lport s in
  let s := put T_rip rip s in
  let s := put T_rport rport s in
  let s := put T_iss iss s in
  let s := put T_snd_una (s#T_iss) s in
  let s := put T_snd_nxt (u32 (s#T_iss + 1)) s in
  let s := put T_state TCP_SYN_SENT s in
  let s := put T_sock sock s in
  let s := put T_cond cond s in
  let s := arm_rtx s in
  tcp_xmit (s#T_iss) TCP_SYN [] true s.

Definition handle_synchronized (h : segment) (s : est) : option est :=
  let flags := g_flags h in
  if flag flags TCP_RST then Some (take_rst h s) else
  if flag flags TCP_SYN then
    if (s#T_state =? TCP_SYN_RCVD) && (g_seq h =? s#T_irs)
    then Some (tcp_xmit (s#T_iss) (Z.lor TCP_SYN TCP_ACK) [] true s)
    else Some (send_ack s)
  else if negb (flag flags TCP_ACK) then Some s else
  if (s#T_state =? TCP_SYN_RCVD) && negb (g_ack h =? u32 (s#T_iss + 1)) then
    Some (tcp_rst_raw (s#T_lip) (s#T_rip) (s#T_lport) (s#T_rport) (g_ack h) 0 false s)
  else
  s ← (if s#T_state =? TCP_SYN_RCVD then Some (inr (establish h s)) else
       let pure := (len (g_data h) =? 0) && negb (flag flags (Z.lor TCP_FIN TCP_SYN)) in
       s ← process_ack (g_ack h) (g_win h) pure s;
       Some (if s#T_state =? TCP_CLOSED then inl (tcb_signal s) else inr s));
  match s with
  | inl s => Some s
  | inr s =>
      s ← take_payload h s;
      match s with
      | inl s => Some s
      | inr s => tcp_output s
      end
  end.

(** The end of tcp_input: a segment for a connection that was found. *)
Definition conn_input (h : segment) (s : est) : option est :=
  if s#T_state =? TCP_SYN_SENT then Some (handle_syn_sent h s) else handle_synchronized h s.

(** * The timer, for one block *)

Definition is_orphan (t : tcb) : bool :=
  (fld t T_sock =? 0) && (fld t T_parent =? 0) && negb (fld t T_state =? TCP_LISTEN).

(** The retransmission part. *)
Definition timer_rtx (s : est) : option est :=
  if truth (s#T_rtx_deadline) && (s#T_rtx_deadline <=? clock s) then
    let s := put T_rtx_count (s#T_rtx_count + 1) s in
    if TCP_MAX_RETRIES <? s#T_rtx_count then
      let was_half_open := s#T_state =? TCP_SYN_RCVD in
      let s := tcp_abort ETIMEDOUT s in
      Some (if was_half_open && truth (s#T_parent)
            then put T_parent 0 (emit (Half_open_dec (s#T_parent)) s) else s)
    else
      let rto := u64 (s#T_rto_ms * 2) in
      let s := put T_rto_ms (if TCP_RTO_MAX_MS <? rto then TCP_RTO_MAX_MS else rto) s in
      let s := put T_rtx_deadline (u64 (clock s + s#T_rto_ms)) s in
      let s := emit (Count st_retrans) s in
      if s#T_state =? TCP_SYN_SENT then Some (tcp_xmit (s#T_iss) TCP_SYN [] true s)
      else if s#T_state =? TCP_SYN_RCVD then Some (tcp_xmit (s#T_iss) (Z.lor TCP_SYN TCP_ACK) [] true s)
      else go_back_n s
  else Some s.

(** One round of tcp_timer: the block, and whether it is reaped. *)
Definition timer_tcb (s : est) : option (est * bool) :=
  let orphan := is_orphan (et s) in
  s ← timer_rtx s;
  let s := if (s#T_state =? TCP_TIME_WAIT) && (s#T_tw_deadline <=? clock s)
           then tcb_signal (put T_state TCP_CLOSED s) else s in
  let has_buffers := match sb (et s), rb (et s) with None, None => false | _, _ => true end in
  let s := if orphan && (s#T_state =? TCP_TIME_WAIT) && has_buffers
           then put T_rb_len 0 (put T_sb_len 0 (put_rb None (put_sb None s))) else s in
  let reap := orphan && ((s#T_state =? TCP_CLOSED) ||
                (truth (s#T_tw_deadline) && (s#T_tw_deadline <=? clock s) && negb (s#T_state =? TCP_TIME_WAIT))) in
  Some (s, reap).

(** * The calls of the owner, on the block *)

(** A round of the loop of tcp_send with [done] bytes of [buf] taken: the call
    returns, takes more, or waits for space ([deadline] is 0 for none). *)
Inductive send_step := Send_ret (r : Z) (s : est) | Send_more (done : Z) (s : est) | Send_waits (done timeout : Z) (s : est).

Definition tcp_send_round (buf : list Z) (done deadline : Z) (dontwait : bool) (s : est) : option send_step :=
  let ret e := Some (Send_ret (if truth done then done else - e) s) in
  if negb (done <? len buf) then Some (Send_ret done s) else
  if truth (s#T_err) then ret (s#T_err) else
  if negb (s#T_state =? TCP_ESTABLISHED) && negb (s#T_state =? TCP_CLOSE_WAIT) then ret EPIPE else
  let space := u32 (TCP_BUF_SIZE - s#T_sb_len) in
  if space =? 0 then
    if dontwait then ret EAGAIN else
    if truth deadline then
      if deadline <=? clock s then ret EAGAIN else Some (Send_waits done (deadline - clock s) s)
    else Some (Send_waits done 0 s)
  else
    let n := if len buf - done <? space then len buf - done else space in
    d ← bsub buf done n;
    b ← sb (et s);
    b ← bblit b (s#T_sb_len) d;
    let s := put T_sb_len (u32 (s#T_sb_len + n)) (put_sb (Some b) s) in
    s ← tcp_output s;
    Some (Send_more (done + n) s).

(** [n] bytes leave the ring. *)
Fixpoint rb_out (n : nat) (b : list Z) (head : Z) : option (list Z * Z) :=
  match n with
  | O => Some ([], head)
  | S n => x ← bget b head; '(bs, head) ← rb_out n b ((head + 1) mod TCP_BUF_SIZE); Some (x :: bs, head)
  end.

(** A round of tcp_recv; [shut_rd] is that of the socket. *)
Inductive recv_step := Recv_ret (r : Z) (bs : list Z) (s : est) | Recv_waits (timeout : Z) (s : est).

Definition tcp_recv_round (n deadline : Z) (dontwait shut_rd : bool) (s : est) : option recv_step :=
  if s#T_rb_len =? 0 then
    if truth (s#T_err) then Some (Recv_ret (- s#T_err) [] s) else
    if truth (s#T_fin_rcvd) || shut_rd || (s#T_state =? TCP_CLOSED) then Some (Recv_ret 0 [] s) else
    if dontwait then Some (Recv_ret (- EAGAIN) [] s) else
    if truth deadline then
      if deadline <=? clock s then Some (Recv_ret (- EAGAIN) [] s) else Some (Recv_waits (deadline - clock s) s)
    else Some (Recv_waits 0 s)
  else
    let n := if n <? s#T_rb_len then n else s#T_rb_len in
    b ← rb (et s);
    '(bs, head) ← rb_out (Z.to_nat n) b (s#T_rb_head);
    let s := put T_rb_head head s in
    let s := put T_rb_len (u32 (s#T_rb_len - n)) s in
    let wnd := rcv_window (et s) in
    let s := if (can_send_data (s#T_state) || (s#T_state =? TCP_FIN_WAIT_2))
                && (s#T_last_adv_wnd <? TCP_MSS) && (TCP_MSS <=? wnd) then send_ack s else s in
    Some (Recv_ret n bs s).

(** The FIN part that tcp_shutdown and tcp_close share. *)
Definition queue_fin (s : est) : option est :=
  if s#T_state =? TCP_ESTABLISHED then tcp_output (put T_state TCP_FIN_WAIT_1 (put T_fin_queued 1 s))
  else if s#T_state =? TCP_CLOSE_WAIT then tcp_output (put T_state TCP_LAST_ACK (put T_fin_queued 1 s))
  else Some s.

(** tcp_close of a connection that outlives its socket. *)
Definition orphan_close (s : est) : option est :=
  let s := put T_sock 0 s in
  let s := put T_cond 0 s in
  let s := put T_tw_deadline (u64 (clock s + TCP_ORPHAN_LINGER_MS)) s in
  if (0 <? s#T_rb_len) && negb (truth (s#T_fin_rcvd)) then
    Some (put T_state TCP_CLOSED (tcp_xmit (s#T_snd_nxt) (Z.lor TCP_RST TCP_ACK) [] false s))
  else queue_fin s.


(** tcp_close of a block that is not a listener: [None] is freed. *)
Definition conn_close (s : est) : option (option est) :=
  if (s#T_state =? TCP_SYN_SENT) || (s#T_state =? TCP_CLOSED) then Some None
  else s ← orphan_close s; Some (Some s).
