(* ===== verification/TcpFrame.v ===== *)
(** TCP, what the routines leave alone: which fields of a control block each
    routine of [Tcp] may write. *)

From stdpp Require Import base numbers option list.
From Stdlib Require Import ZArith Lia.
From S2P Require Import Prelude Buf Inet Tcp.

Create HintDb keeps.

Lemma fld_put_ne s f g v : tf_eqb g f = false -> (put f v s)#g = s#g.
Proof. intros E. cbn. by rewrite E. Qed.

Lemma fld_put_eq s f v : (put f v s)#f = v.
Proof. by destruct f. Qed.

(** tcp_xmit changes nothing but the last window it told. *)
Lemma xmit_frame seq flags d m s f : tf_eqb f T_last_adv_wnd = false -> (tcp_xmit seq flags d m s)#f = s#f.
Proof.
  intros K. unfold tcp_xmit, kmalloc_seg. destruct (segs s) as [|[] l]; cbn; try done; destruct (flag _ _); cbn; by rewrite K.
Qed.

Lemma xmit_bufs seq flags d m s :
  sb (et (tcp_xmit seq flags d m s)) = sb (et s) /\ rb (et (tcp_xmit seq flags d m s)) = rb (et s).
Proof. unfold tcp_xmit, kmalloc_seg. destruct (segs s) as [|[] l]; cbn; try done; by destruct (flag _ _). Qed.

Lemma arm_frame s f : tf_eqb f T_rtx_deadline = false -> (arm_rtx s)#f = s#f.
Proof. intros E. unfold arm_rtx. destruct (negb _); [cbn; by rewrite E|done]. Qed.

Lemma arm_sb s : sb (et (arm_rtx s)) = sb (et s).
Proof. unfold arm_rtx. by destruct (negb _). Qed.

Lemma sb_drop_frame n s s' : sb_drop n s = Some s' -> exists b, s' = put_sb b s.
Proof.
  unfold sb_drop. destruct (sb (et s)) as [b|] eqn:E.
  - destruct (bsub _ _ _); [|done]. cbn [mbind option_bind]. destruct (bblit _ _ _); [|done]. cbn [mbind option_bind].
    intros [= <-]. by eexists.
  - destruct (_ =? 0); [|done]. intros [= <-]. exists None. destruct s as [[] ? ? ?]. cbn in *. by subst.
Qed.

(** The fields tcp_output writes, those an acknowledgement writes besides, and
    those of the receiving half. *)
Definition out_field (f : tfield) : bool :=
  match f with T_snd_nxt | T_rtx_deadline | T_last_adv_wnd | T_fin_seq | T_fin_sent => true | _ => false end.
Definition ack_field (f : tfield) : bool :=
  match f with
  | T_dup_acks | T_sb_len | T_snd_una | T_snd_wnd | T_rtx_count | T_rto_ms | T_state | T_tw_deadline => true
  | _ => false
  end.
Definition pay_field (f : tfield) : bool :=
  match f with T_rcv_nxt | T_rb_len | T_fin_rcvd | T_state | T_tw_deadline => true | _ => false end.

Section Keeps.
Variable K : tfield -> bool.

(** [s'] has the fields [K] of [s], and its ring if [s] has it. *)
Definition keeps (s s' : est) : Prop :=
  (forall f, K f = true -> s'#f = s#f) /\ (rb (et s') = None -> rb (et s) = None).

Lemma fields_keep_refl s : keeps s s.
Proof. done. Qed.

Lemma keeps_put s x f v : K f = false -> keeps s x -> keeps s (put f v x).
Proof.
  intros Kf [Q B]. split; [|done]. intros g Hg. rewrite fld_put_ne; [by apply Q|].
  destruct (tf_eqb g f) eqn:E; [|done]. assert (g = f) as -> by (by destruct f, g). congruence.
Qed.

Lemma keeps_put_sb s x b : keeps s x -> keeps s (put_sb b x).
Proof. done. Qed.

Lemma keeps_put_rb s x b : keeps s x -> keeps s (put_rb (Some b) x).
Proof. intros [Q B]. by split. Qed.

Lemma keeps_emit s x a : keeps s x -> keeps s (emit a x).
Proof. done. Qed.

Lemma keeps_signal s x : keeps s x -> keeps s (tcb_signal x).
Proof. unfold tcb_signal. by destruct (truth _). Qed.

Lemma keeps_rst_raw s x a b c d seq ack w : keeps s x -> keeps s (tcp_rst_raw a b c d seq ack w x).
Proof. done. Qed.

Lemma keeps_mss s x opts : K T_peer_mss = false -> keeps s x -> keeps s (take_mss opts x).
Proof. intros Km. unfold take_mss. destruct (truth _); [by apply keeps_put|done]. Qed.

Context (K_out : forall f, out_field f = true -> K f = false).

Lemma keeps_arm s x : keeps s x -> keeps s (arm_rtx x).
Proof. unfold arm_rtx. destruct (negb _); [apply keeps_put; by apply K_out|done]. Qed.

Lemma keeps_xmit s x seq flags d m : keeps s x -> keeps s (tcp_xmit seq flags d m x).
Proof.
  intros [Q B]. destruct (xmit_bufs seq flags d m x) as [_ E]. split; [|by rewrite E].
  intros f Hf. rewrite xmit_frame; [by apply Q|]. destruct (tf_eqb f T_last_adv_wnd) eqn:Ef; [|done].
  assert (f = T_last_adv_wnd) as -> by (by destruct f). by rewrite K_out in Hf.
Qed.

Lemma keeps_ack s x : keeps s x -> keeps s (send_ack x).
Proof. apply keeps_xmit. Qed.

Lemma keeps_put_out s x f v : out_field f = true -> keeps s x -> keeps s (put f v x).
Proof. intros E. apply keeps_put. by apply K_out. Qed.

#[local] Hint Resolve fields_keep_refl keeps_put_sb keeps_put_rb keeps_emit keeps_signal keeps_arm keeps_xmit keeps_ack keeps_rst_raw : keeps.
#[local] Hint Extern 1 (keeps _ (put _ _ _)) => apply keeps_put_out; [reflexivity|] : keeps.

Lemma keeps_loop fuel s x x' : output_loop fuel x = Some x' -> keeps s x -> keeps s x'.
Proof.
  revert x. induction fuel as [|fuel IH]; intros x E Q; cbn [output_loop] in E; [done|].
  destruct (truth _); [by injection E as <-|]. destruct (_ || _); [by injection E as <-|].
  destruct (sb _) as [b|]; [|done]. cbn [mbind option_bind] in E. destruct (bsub _ _ _); [|done]. cbn [mbind option_bind] in E.
  eapply IH; [exact E|]. auto with keeps.
Qed.

Lemma keeps_output s x x' : tcp_output x = Some x' -> keeps s x -> keeps s x'.
Proof.
  unfold tcp_output. destruct (negb _); [by intros [= <-]|]. destruct (output_loop _ _) as [y|] eqn:E; [|done].
  cbn [mbind option_bind]. intros H Q. pose proof (keeps_loop _ s _ _ E Q).
  destruct (_ && _); injection H as <-; auto 8 with keeps.
Qed.

Lemma keeps_go_back s x x' : go_back_n x = Some x' -> keeps s x -> keeps s x'.
Proof.
  unfold go_back_n. cbn zeta. destruct (tcp_output _) as [y|] eqn:E; [|done]. cbn [mbind option_bind]. intros H Q.
  assert (keeps s y). { eapply keeps_output; [exact E|]. destruct (_ && seq_ge _ _); auto with keeps. }
  injection H as <-. zif; auto with keeps.
Qed.

Lemma keeps_accept s x x' d :
  (forall f, pay_field f = true -> K f = false) -> accept_data d x = Some x' -> keeps s x -> keeps s x'.
Proof.
  intros Kp. unfold accept_data. destruct (rb _); [|by intros [= <-]]. destruct (bsub _ _ _); [|done]. cbn [mbind option_bind].
  destruct (rb_in _ _ _); [|done]. intros [= <-] Q. do 2 (apply keeps_put; [by apply Kp|]). auto with keeps.
Qed.

(** ** Acknowledgements *)

Context (K_ack : forall f, ack_field f = true -> K f = false).

Lemma keeps_put_ack s x f v : ack_field f = true -> keeps s x -> keeps s (put f v x).
Proof. intros E. apply keeps_put. by apply K_ack. Qed.

#[local] Hint Extern 2 (keeps _ (put _ _ _)) => apply keeps_put_ack; [reflexivity|] : keeps.

Lemma keeps_ack_new ack s x x' : ack_new ack x = Some x' -> keeps s x -> keeps s x'.
Proof.
  unfold ack_new. cbn zeta. intros H Q. destruct (sb_drop _ _) as [y|] eqn:E; [|done]. cbn [mbind option_bind] in H.
  apply sb_drop_frame in E as [b ->]. injection H as <-. apply keeps_signal.
  set (z := put T_rtx_deadline _ _). assert (Z : keeps s z) by (unfold z; auto 10 with keeps). clearbody z.
  unfold enter_time_wait. repeat zif; auto with keeps.
Qed.

Lemma keeps_process_ack ack w pure s x x' : process_ack ack w pure x = Some x' -> keeps s x -> keeps s x'.
Proof.
  unfold process_ack. intros H Q. destruct (seq_gt ack _); [injection H as <-; auto with keeps|].
  destruct (_ && _ && _ && _).
  { cbn zeta in H. destruct (_ =? 3); [|injection H as <-; auto with keeps]. eapply keeps_go_back; [exact H|auto with keeps]. }
  destruct (seq_gt ack _); [|injection H as <-; auto with keeps].
  destruct (ack_new _ _) as [y|] eqn:E; [|done]. injection H as <-. pose proof (keeps_ack_new _ s _ _ E Q). auto with keeps.
Qed.
End Keeps.
