(* ===== verification/TcpStream.v ===== *)
(** TCP, the byte stream: what the routines of [Tcp] keep true of one connection,
    and what two of them carry over a network that loses, repeats and reorders.

    [stream] is what one side says: the bytes its owner has sent, and whether it
    has closed its direction. [cinv] relates a control block to its own stream, to
    the stream of its peer and to the bytes its owner has read; every routine
    keeps it and returns. The world of two ends then needs no argument on
    segments. *)

From stdpp Require Import base numbers list.
From Stdlib Require Import ZArith Lia.
From S2P Require Import Prelude Buf Inet Tcp TcpFrame.

(** * Sequence arithmetic *)

Lemma u32_off a x y : u32 (u32 (a + x) - u32 (a + y)) = u32 (x - y).
Proof. unfold u32. rewrite <-Zminus_mod. f_equal. lia. Qed.

Lemma u32_off_r a x n : u32 (u32 (a + x) + n) = u32 (a + (x + n)).
Proof. unfold u32. rewrite Zplus_mod_idemp_l. f_equal. lia. Qed.

Lemma u32_off_inj a x y : u32 (a + x) = u32 (a + y) -> - 2 ^ 32 < x - y < 2 ^ 32 -> x = y.
Proof.
  intros E H. pose proof (u32_off a x y) as D. rewrite E, Z.sub_diag in D. unfold u32 in D.
  change (0 mod 2 ^ 32) with 0 in D. symmetry in D. apply Z.mod_divide in D as [c D]; nia.
Qed.

Lemma s32_diff a x y : - 2 ^ 31 <= x - y < 2 ^ 31 -> s32 (u32 (u32 (a + x) - u32 (a + y))) = x - y.
Proof.
  intros H. rewrite u32_off. rewrite <-(s32_small (x - y)) at 2 by lia.
  unfold s32. by rewrite (u32_small (u32 (x - y))) by apply u32_range.
Qed.

Lemma seq_gt_off a x y : - 2 ^ 31 <= x - y < 2 ^ 31 -> seq_gt (u32 (a + x)) (u32 (a + y)) = (y <? x).
Proof. intros H. unfold seq_gt. rewrite s32_diff by lia. apply eq_bool_prop_intro; rewrite ?Is_true_true, ?Z.ltb_lt. lia. Qed.

Lemma seq_ge_off a x y : - 2 ^ 31 <= x - y < 2 ^ 31 -> seq_ge (u32 (a + x)) (u32 (a + y)) = (y <=? x).
Proof. intros H. unfold seq_ge. rewrite s32_diff by lia. apply eq_bool_prop_intro; rewrite ?Is_true_true, ?Z.leb_le. lia. Qed.

(** An acknowledgement that is past [x] and not past [y] is of something between
    them. *)
Lemma seq_between a x y ack :
  0 <= ack < 2 ^ 32 -> 0 <= y - x < 2 ^ 31 ->
  seq_gt ack (u32 (a + y)) = false -> seq_gt ack (u32 (a + x)) = true ->
  exists z, x < z <= y /\ ack = u32 (a + z).
Proof.
  intros Ha Hxy Hy Hx. set (d := u32 (ack - u32 (a + x))).
  assert (E : ack = u32 (a + (x + d))).
  { unfold d. replace (a + (x + u32 (ack - u32 (a + x)))) with (u32 (ack - u32 (a + x)) + (a + x)) by lia.
    rewrite u32_idem_add. unfold u32. rewrite Z.add_comm. rewrite Zplus_mod, Zminus_mod, Zmod_mod, <-Zminus_mod, <-Zplus_mod.
    replace (a + x + (ack - (a + x))) with ack by lia. by rewrite Z.mod_small. }
  assert (Hd : 0 < d < 2 ^ 31).
  { pose proof (u32_range (ack - u32 (a + x))) as R. fold d in R. unfold seq_gt in Hx. fold d in Hx. apply Z.ltb_lt in Hx.
    unfold s32 in Hx. rewrite (u32_small d) in Hx by lia. destruct (Z.ltb_spec d (2 ^ 31)); lia. }
  exists (x + d). split; [|done]. rewrite E, seq_gt_off in Hy by lia. apply Z.ltb_ge in Hy. lia.
Qed.

(** * Streams *)

(** What one side says: its initial sequence number, the bytes its owner has given
    to tcp_send, and whether that direction is closed. *)
Record stream := Stream { s_iss : Z; s_data : list Z; s_fin : bool }.

Definition extends (q r : stream) : Prop :=
  s_iss r = s_iss q /\ s_data q `prefix_of` s_data r /\ (s_fin q = true -> r = q).

(** A segment that says only what [q] says: a SYN carries the initial sequence
    number, the bytes it carries are those of the stream at its sequence number,
    and a FIN is at the end of a stream that is closed. *)
Definition pay_ok (q : stream) (seq flags : Z) (data : list Z) : Prop :=
  (flag flags TCP_SYN = true -> seq = s_iss q) /\
  (flag flags TCP_SYN = false -> 0 < len data \/ flag flags TCP_FIN = true ->
   exists k, 0 <= k /\ seq = u32 (s_iss q + 1 + k) /\ k + len data <= len (s_data q) /\
     data = ztake (len data) (zdrop k (s_data q)) /\
     (flag flags TCP_FIN = true -> k + len data = len (s_data q) /\ s_fin q = true)).

Definition seg_ok (q : stream) (h : segment) : Prop :=
  pay_ok q (g_seq h) (g_flags h) (g_data h) /\ 0 <= g_ack h < 2 ^ 32 /\ 0 <= g_win h < 2 ^ 16.

Definition act_ok (q : stream) (a : act) : Prop :=
  match a with Xmit h => seg_ok q h | _ => True end.

(** * One connection *)

(** The sending half of a connection whose handshake is done: [ua] bytes (and the
    FIN after the last one) are acknowledged, [na] are sent. *)
Record sync (q : stream) (t : tcb) (ua na : Z) : Prop := {
  y_state : TCP_ESTABLISHED <= fld t T_state <= TCP_TIME_WAIT;
  y_una : fld t T_snd_una = u32 (s_iss q + 1 + ua);
  y_nxt : fld t T_snd_nxt = u32 (s_iss q + 1 + na);
  y_le : 0 <= ua <= na;
  y_queued : fld t T_fin_queued = b2z (s_fin q);
  y_half : s_fin q = negb ((fld t T_state =? TCP_ESTABLISHED) || (fld t T_state =? TCP_CLOSE_WAIT));
  y_fin : fld t T_fin_sent = 0 /\ na <= len (s_data q) \/
          fld t T_fin_sent = 1 /\ na = len (s_data q) + 1 /\
          fld t T_fin_seq = u32 (s_iss q + 1 + len (s_data q)) /\ s_fin q = true;
  y_len : fld t T_sb_len = Z.max 0 (len (s_data q) - ua);
  y_max : fld t T_sb_len <= TCP_BUF_SIZE;
  y_buf : fld t T_state <> TCP_TIME_WAIT ->
          exists b, sb t = Some b /\ len b = TCP_BUF_SIZE /\ ztake (fld t T_sb_len) b = zdrop ua (s_data q);
  y_done : fld t T_state = TCP_FIN_WAIT_2 \/ fld t T_state = TCP_TIME_WAIT -> ua = len (s_data q) + 1
}.

Definition syn_state (st : Z) : Prop := st = TCP_SYN_SENT \/ st = TCP_SYN_RCVD.

(** The sending half. *)
Inductive snd_ok (q : stream) (t : tcb) : Prop :=
  | Snd_closed : fld t T_state = TCP_CLOSED -> snd_ok q t
  | Snd_syn b : syn_state (fld t T_state) -> fld t T_snd_una = s_iss q -> fld t T_snd_nxt = u32 (s_iss q + 1) ->
      fld t T_iss = s_iss q ->
      fld t T_sb_len = 0 -> s_data q = [] -> s_fin q = false -> fld t T_fin_queued = 0 -> fld t T_fin_sent = 0 ->
      sb t = Some b -> len b = TCP_BUF_SIZE -> snd_ok q t
  | Snd_sync ua na : sync q t ua na -> snd_ok q t.

(** The receiving half: [got] is what was taken off the network, [rd] what the
    owner has read; the ring holds the difference. *)
Record rcv_ok (p : stream) (rd : list Z) (t : tcb) (got : list Z) : Prop := {
  r_prefix : got `prefix_of` s_data p;
  r_fin : fld t T_fin_rcvd = 0 \/ fld t T_fin_rcvd = 1 /\ got = s_data p /\ s_fin p = true;
  r_nxt : fld t T_state = TCP_SYN_SENT \/ fld t T_state = TCP_CLOSED \/
          fld t T_rcv_nxt = u32 (s_iss p + 1 + (len got + fld t T_fin_rcvd));
  r_syn : fld t T_state = TCP_SYN_SENT -> got = [] /\ fld t T_fin_rcvd = 0;
  r_nxt_u32 : 0 <= fld t T_rcv_nxt < 2 ^ 32;
  r_len : 0 <= fld t T_rb_len <= TCP_BUF_SIZE;
  r_head : 0 <= fld t T_rb_head < TCP_BUF_SIZE;
  r_buf : match rb t with
          | Some b => len b = TCP_BUF_SIZE /\ got = rd ++ ring b (fld t T_rb_head) (fld t T_rb_len)
          | None => fld t T_rb_len = 0 /\ rd `prefix_of` got
          end
}.

Record cinv (q p : stream) (rd : list Z) (s : est) : Prop := {
  c_snd : snd_ok q (et s);
  c_rcv : exists got, rcv_ok p rd (et s) got;
  c_wnd : 0 <= s#T_snd_wnd < 2 ^ 16;
  c_mss : 1 <= s#T_peer_mss;
  c_acts : Forall (act_ok q) (acts s)
}.

(** The limits on the streams: without timestamps a sequence number names a byte
    only while fewer than 2^32 are sent. *)
Definition short (q : stream) : Prop := 0 <= s_iss q < 2 ^ 32 /\ len (s_data q) + 2 < 2 ^ 32.

Create HintDb tcp.

(** * Frames *)

(** The fields the invariant reads. *)
Definition kept (f : tfield) : bool :=
  match f with
  | T_state | T_iss | T_snd_una | T_snd_nxt | T_snd_wnd | T_peer_mss | T_rcv_nxt
  | T_sb_len | T_rb_head | T_rb_len | T_fin_rcvd | T_fin_queued | T_fin_sent | T_fin_seq => true
  | _ => false
  end.

Lemma sync_tset q t ua na f v : kept f = false -> sync q t ua na -> sync q (tset f v t) ua na.
Proof. destruct f; try discriminate; intros _ []; constructor; assumption. Qed.

Lemma snd_put q t f v : kept f = false -> snd_ok q t -> snd_ok q (tset f v t).
Proof.
  intros K [C|b ? ? ? ? ? ? ? ? ? ? ?|ua na Y].
  - apply Snd_closed. destruct f; done.
  - destruct f; try discriminate; by apply (Snd_syn q _ b).
  - by apply (Snd_sync q _ ua na), sync_tset.
Qed.

Lemma rcv_put p rd t got f v : kept f = false -> rcv_ok p rd t got -> rcv_ok p rd (tset f v t) got.
Proof. destruct f; try discriminate; intros _ []; constructor; assumption. Qed.

Lemma cinv_put q p rd s f v : kept f = false -> cinv q p rd s -> cinv q p rd (put f v s).
Proof.
  intros K [S [got R] W M A]. constructor; [by apply snd_put|exists got; by apply rcv_put|destruct f; done..|done].
Qed.

Lemma cinv_emit q p rd s a : act_ok q a -> cinv q p rd s -> cinv q p rd (emit a s).
Proof. intros K [S R W M A]. constructor; [done..|]. cbn. apply Forall_app. by repeat constructor. Qed.

Lemma cinv_segs q p rd t l k k' c : cinv q p rd (Est t l k c) -> cinv q p rd (Est t l k' c).
Proof. intros []; constructor; done. Qed.

Lemma cinv_signal q p rd s : cinv q p rd s -> cinv q p rd (tcb_signal s).
Proof. intros C. unfold tcb_signal. destruct (truth _); [by apply cinv_emit|done]. Qed.

Lemma cinv_arm q p rd s : cinv q p rd s -> cinv q p rd (arm_rtx s).
Proof. intros C. unfold arm_rtx. destruct (negb _); [by apply cinv_put|done]. Qed.

Lemma cinv_xmit q p rd s seq flags d m :
  pay_ok q seq flags d -> cinv q p rd s -> cinv q p rd (tcp_xmit seq flags d m s).
Proof.
  intros P C. unfold tcp_xmit. destruct (kmalloc_seg s) as [ok s1] eqn:E.
  assert (C1 : cinv q p rd s1).
  { unfold kmalloc_seg in E. destruct s as [t a [|b l] c]; cbn in E; injection E as <- <-; [done|]. by eapply cinv_segs. }
  destruct ok; cbn [negb]; [|done]. apply cinv_emit.
  - split; [done|]. cbn. destruct (c_rcv _ _ _ _ C1) as [got R]. split; [|apply u16_range].
    destruct (flag flags TCP_ACK); [apply (r_nxt_u32 _ _ _ _ R)|lia].
  - destruct (flag flags TCP_RST); repeat apply cinv_emit; try done; by apply cinv_put.
Qed.

(** A segment without data, SYN and FIN says nothing. *)
Lemma pay_nothing q seq flags : flag flags TCP_SYN = false -> flag flags TCP_FIN = false -> pay_ok q seq flags [].
Proof. intros HS HF. split; [congruence|]. rewrite HF. intros _ [H|H]; [|done]. by apply Z.lt_irrefl in H. Qed.

Lemma cinv_send_ack q p rd s : cinv q p rd s -> cinv q p rd (send_ack s).
Proof. apply cinv_xmit. by apply pay_nothing. Qed.

Lemma cinv_rst_raw q p rd s a b c d seq :
  cinv q p rd s -> cinv q p rd (tcp_rst_raw a b c d seq 0 false s).
Proof. 
  intros C. apply cinv_emit; [|by repeat (apply cinv_emit; [done|])]. split; [by apply pay_nothing|cbn; lia].
Qed.

(** A connection may be closed at any time. *)
Lemma cinv_close q p rd s : cinv q p rd s -> cinv q p rd (put T_state TCP_CLOSED s).
Proof.
  intros [S [got R] W M A]. constructor; try done; [by apply Snd_closed|].
  exists got. destruct R. constructor; try done. cbn. tauto.
Qed.

Lemma cinv_abort q p rd s e : cinv q p rd s -> cinv q p rd (tcp_abort e s).
Proof.
  intros C. unfold tcp_abort.
  assert (cinv q p rd (tcb_signal (put T_rtx_deadline 0 (put T_state TCP_CLOSED (put T_err e s))))) as C1
    by (apply cinv_signal, cinv_put, cinv_close, cinv_put; done).
  destruct (truth _); [by apply cinv_emit|done].
Qed.

#[export] Hint Resolve cinv_signal cinv_arm cinv_send_ack cinv_rst_raw cinv_close cinv_abort : tcp.

(** * Output *)

(** The receiving half looks at no field of the sending one. *)
Lemma cinv_snd q p rd s s' :
  cinv q p rd s -> snd_ok q (et s') ->
  s'#T_state = s#T_state \/ TCP_ESTABLISHED <= s#T_state /\ TCP_ESTABLISHED <= s'#T_state ->
  s'#T_fin_rcvd = s#T_fin_rcvd -> s'#T_rcv_nxt = s#T_rcv_nxt -> s'#T_rb_len = s#T_rb_len ->
  s'#T_rb_head = s#T_rb_head -> rb (et s') = rb (et s) ->
  s'#T_snd_wnd = s#T_snd_wnd -> s'#T_peer_mss = s#T_peer_mss -> acts s' = acts s ->
  cinv q p rd s'.
Proof.
  intros [S [got R] W M A] S' HS HF HN HL HH HB HW HM HA. constructor; [done| |by rewrite HW|by rewrite HM|by rewrite HA].
  exists got. unfold TCP_ESTABLISHED in HS.
  destruct R as [? RF RN RS ? ? ? ?]; constructor; rewrite ?HF, ?HN, ?HL, ?HH, ?HB; try done.
  - unfold TCP_SYN_SENT, TCP_CLOSED in *. destruct HS as [->|HS]; [done|]. right; right. destruct RN as [?|[?|?]]; [lia..|done].
  - unfold TCP_SYN_SENT in *. destruct HS as [->|HS]; [done|lia].
Qed.

Lemma sync_state q t ua na : sync q t ua na -> TCP_ESTABLISHED <= fld t T_state.
Proof. intros Y. apply (y_state _ _ _ _ Y). Qed.

(** What the last byte in flight is. *)
Lemma sync_flight q t ua na :
  sync q t ua na -> na - ua <= fld t T_sb_len + 1 /\ (fld t T_fin_sent = 0 -> na - ua <= fld t T_sb_len) /\
    0 <= fld t T_sb_len /\ u32 (fld t T_snd_nxt - fld t T_snd_una) = na - ua.
Proof.
  intros Y. pose proof (len_nonneg (s_data q)). pose proof (y_le _ _ _ _ Y). pose proof (y_len _ _ _ _ Y).
  pose proof (y_max _ _ _ _ Y). unfold TCP_BUF_SIZE in *.
  destruct (y_fin _ _ _ _ Y) as [[? ?]|(? & ? & ?)]; (split; [lia|split; [lia|split; [lia|]]]);
    rewrite (y_nxt _ _ _ _ Y), (y_una _ _ _ _ Y), u32_off; apply u32_small; lia.
Qed.

(** More of the buffer is sent. *)
Lemma sync_send q t ua na n :
  sync q t ua na -> fld t T_fin_sent = 0 -> 0 <= n -> na + n <= len (s_data q) ->
  sync q (tset T_snd_nxt (u32 (fld t T_snd_nxt + n)) t) ua (na + n).
Proof.
  intros [] HF Hn Hl. constructor; cbn; try done; [|lia|].
  - rewrite y_nxt0, u32_off_r. done.
  - left. split; [done|lia].
Qed.

(** The payload tcp_output sends at offset [na]. *)
Lemma sync_payload q t ua na n b :
  sync q t ua na -> fld t T_fin_sent = 0 -> 0 < n -> na + n <= len (s_data q) ->
  sb t = Some b -> len b = TCP_BUF_SIZE -> ztake (fld t T_sb_len) b = zdrop ua (s_data q) ->
  bsub b (na - ua) n = Some (ztake n (zdrop na (s_data q))) /\
  pay_ok q (fld t T_snd_nxt) (Z.lor TCP_ACK TCP_PSH) (ztake n (zdrop na (s_data q))).
Proof.
  intros Y HF Hn Hl Hb Lb Eb. pose proof (y_le _ _ _ _ Y). pose proof (y_max _ _ _ _ Y). pose proof (y_len _ _ _ _ Y).
  assert (Ln : len (ztake n (zdrop na (s_data q))) = n) by (rewrite len_ztake; [done|rewrite len_zdrop; lia]).
  split.
  - rewrite bsub_some by lia. f_equal. replace na with (ua + (na - ua)) at 2 by lia.
    rewrite <-zdrop_zdrop, <-Eb by lia. unfold ztake, zdrop. rewrite skipn_firstn_comm, take_take. f_equal. lia.
  - split; [done|]. intros _ _. exists na. rewrite Ln. repeat split; try done; lia || apply (y_nxt _ _ _ _ Y).
Qed.

Lemma can_send_buf q t ua na :
  sync q t ua na -> can_send_data (fld t T_state) = true ->
  exists b, sb t = Some b /\ len b = TCP_BUF_SIZE /\ ztake (fld t T_sb_len) b = zdrop ua (s_data q).
Proof. intros Y Hc. apply (y_buf _ _ _ _ Y). intros E. by rewrite E in Hc. Qed.

Lemma sync_arm q s ua na : sync q (et s) ua na -> sync q (et (arm_rtx s)) ua na.
Proof. intros Y. unfold arm_rtx. destruct (negb _); [by apply sync_tset|done]. Qed.

Lemma sync_xmit q s ua na seq flags d m : sync q (et s) ua na -> sync q (et (tcp_xmit seq flags d m s)) ua na.
Proof.
  intros []. pose proof (xmit_bufs seq flags d m s) as [Es _].
  constructor; rewrite ?Es, ?xmit_frame by done; done.
Qed.

(** A round of the loop. *)
Definition round_bytes (s : est) (wnd in_flight unsent : Z) : Z :=
  let n := if s#T_peer_mss <? unsent then s#T_peer_mss else unsent in
  if u32 (wnd - in_flight) <? n then u32 (wnd - in_flight) else n.

Lemma round_bytes_bound s wnd in_flight unsent :
  1 <= s#T_peer_mss -> 0 < unsent -> 0 <= in_flight < wnd -> wnd < 2 ^ 16 ->
  0 < round_bytes s wnd in_flight unsent <= unsent.
Proof.
  intros Hm Hu Hf Hw. unfold round_bytes. rewrite (u32_small (wnd - in_flight)) by lia.
  destruct (Z.ltb_spec (s#T_peer_mss) unsent); case Z.ltb_spec; lia.
Qed.

Lemma output_loop_ok q p rd fuel s ua na :
  cinv q p rd s -> sync q (et s) ua na -> can_send_data (s#T_state) = true ->
  len (s_data q) - na < Z.of_nat fuel -> (0 < fuel)%nat ->
  exists s' na', output_loop fuel s = Some s' /\ cinv q p rd s' /\ sync q (et s') ua na' /\ s'#T_state = s#T_state.
Proof.
  revert s na. induction fuel as [|fuel IH]; intros s na C Y Hc Hl Hf; [lia|]. cbn [output_loop].
  destruct (y_fin _ _ _ _ Y) as [[HF Hn]|(HF & _)]; rewrite HF; cbn [truth Z.eqb negb]; [|by exists s, na].
  destruct (sync_flight _ _ _ _ Y) as (_ & B & L0 & E). specialize (B HF). rewrite E.
  pose proof (y_le _ _ _ _ Y). pose proof (y_max _ _ _ _ Y) as LM. unfold TCP_BUF_SIZE in LM.
  rewrite (u32_small (s#T_sb_len - (na - ua))) by lia.
  set (unsent := s#T_sb_len - (na - ua)). set (wnd := if _ && _ && _ then 1 else _).
  destruct (Z.eqb_spec unsent 0) as [|Nu]; cbn [orb]; [by exists s, na|].
  destruct (Z.leb_spec wnd (na - ua)) as [|Hw]; [by exists s, na|].
  fold (round_bytes s wnd (na - ua) unsent). set (n := round_bytes _ _ _ _).
  pose proof (c_wnd _ _ _ _ C). pose proof (y_len _ _ _ _ Y) as EL.
  assert (Bn : 0 < n <= unsent).
  { apply round_bytes_bound; [apply (c_mss _ _ _ _ C)|lia|lia|]. subst wnd. destruct (_ && _); lia. }
  assert (Hq : na + n <= len (s_data q)) by lia.
  pose proof (sync_send _ _ _ _ n Y HF ltac:(lia) Hq) as Y1. set (s1 := arm_rtx (put T_snd_nxt (u32 (s#T_snd_nxt + n)) s)).
  destruct (can_send_buf _ _ _ _ Y Hc) as (b & Hb & Lb & Eb).
  replace (sb (et s1)) with (Some b) by (subst s1; by rewrite arm_sb). cbn [mbind option_bind].
  destruct (sync_payload _ _ _ _ n b Y HF ltac:(lia) Hq Hb Lb Eb) as [-> P]. cbn [mbind option_bind].
  assert (Y2 : sync q (et s1) ua (na + n)) by (by apply sync_arm).
  assert (C2 : cinv q p rd s1) by (apply cinv_arm; eapply cinv_snd; [exact C|by eapply Snd_sync|try reflexivity..]; by left).
  destruct (IH (tcp_xmit (s#T_snd_nxt) (Z.lor TCP_ACK TCP_PSH) (ztake n (zdrop na (s_data q))) false s1) (na + n))
    as (s' & na' & Hs & C' & Y' & St).
  - by apply cinv_xmit.
  - by apply sync_xmit.
  - rewrite xmit_frame by done. subst s1. by rewrite arm_frame.
  - lia.
  - lia.
  - exists s', na'. rewrite St, xmit_frame by done. subst s1. by rewrite arm_frame.
Qed.

Lemma can_send_sync q t : snd_ok q t -> can_send_data (fld t T_state) = true -> exists ua na, sync q t ua na.
Proof.
  intros [E|b [E|E] _ _ _ _ _ _ _ _ _ _|ua na Y] H; [by rewrite E in H..|eauto].
Qed.

(** The FIN goes out behind the last byte. *)
Lemma sync_fin q t ua na :
  sync q t ua na -> fld t T_fin_sent = 0 -> s_fin q = true -> na = len (s_data q) ->
  sync q (tset T_fin_sent 1 (tset T_snd_nxt (u32 (fld t T_snd_nxt + 1)) (tset T_fin_seq (fld t T_snd_nxt) t))) ua (na + 1) /\
  pay_ok q (fld t T_snd_nxt) (Z.lor TCP_FIN TCP_ACK) [].
Proof.
  intros [] HF Hs ->. split.
  - constructor; cbn; try done; [|lia|].
    + rewrite y_nxt0, u32_off_r. done.
    + right. auto.
  - split; [done|]. intros _ _. exists (len (s_data q)). pose proof (len_nonneg (s_data q)).
    change (len []) with 0. rewrite Z.add_0_r, ztake_0. done.
Qed.

Lemma tcp_output_ok q p rd s :
  cinv q p rd s -> exists s', tcp_output s = Some s' /\ cinv q p rd s' /\ s'#T_state = s#T_state.
Proof.
  intros C. unfold tcp_output. destruct (can_send_data (s#T_state)) eqn:Hc; cbn [negb]; [|by exists s].
  destruct (can_send_sync _ _ (c_snd _ _ _ _ C) Hc) as (ua & na & Y).
  destruct (output_loop_ok q p rd output_fuel s ua na C Y Hc) as (s1 & na1 & -> & C1 & Y1 & St1); cbn [mbind option_bind].
  { destruct (sync_flight _ _ _ _ Y) as (_ & _ & _ & _). pose proof (y_max _ _ _ _ Y). pose proof (y_len _ _ _ _ Y).
    pose proof (y_le _ _ _ _ Y). unfold output_fuel. lia. }
  { unfold output_fuel, TCP_BUF_SIZE. lia. }
  destruct (_ && _ && _) eqn:Hb; [|by exists s1].
  apply andb_prop in Hb as [Hb Hn]. apply andb_prop in Hb as [Hq HF].
  rewrite (y_queued _ _ _ _ Y1) in Hq. assert (Fq : s_fin q = true) by (by destruct (s_fin q)).
  apply Z.eqb_eq in Hn. destruct (sync_flight _ _ _ _ Y1) as (_ & _ & _ & E). rewrite E in Hn.
  destruct (y_fin _ _ _ _ Y1) as [[HF0 Hl]|(HF1 & _)]; [|by rewrite HF1 in HF].
  rewrite (y_len _ _ _ _ Y1) in Hn. pose proof (y_le _ _ _ _ Y1).
  destruct (sync_fin _ _ _ _ Y1 HF0 Fq ltac:(lia)) as [Y2 P].
  eexists. split; [reflexivity|]. set (s2 := put T_fin_sent 1 _). split.
  - apply cinv_xmit; [by rewrite arm_frame by done|]. apply cinv_arm.
    eapply cinv_snd; [exact C1|by eapply Snd_sync|try reflexivity..]. by left.
  - rewrite xmit_frame, arm_frame by done. done.
Qed.

(** Rewinding to the first byte that is not acknowledged. *)
Lemma sync_rewind q t ua na :
  sync q t ua na ->
  let t1 := tset T_snd_nxt (fld t T_snd_una) t in
  sync q (if truth (fld t T_fin_sent) && seq_ge (fld t T_fin_seq) (fld t T_snd_una) then tset T_fin_sent 0 t1 else t1) ua ua.
Proof.
  intros Y t1. pose proof (y_le _ _ _ _ Y). pose proof (y_max _ _ _ _ Y) as LM. pose proof (y_len _ _ _ _ Y).
  unfold TCP_BUF_SIZE in LM.
  destruct (y_fin _ _ _ _ Y) as [[HF Hl]|(HF & Hl & Hq & Fq)]; rewrite HF; cbn [truth Z.eqb negb andb].
  - destruct Y. constructor; cbn; try done; [lia|]. left. split; [done|lia].
  - rewrite Hq, (y_una _ _ _ _ Y), seq_ge_off by lia.
    destruct (Z.leb_spec ua (len (s_data q))); destruct Y; constructor; cbn; try done; try lia.
    right. split; [done|]. split; [lia|done].
Qed.

(** Only a connection that is past its handshake, or closed, goes back. *)
Lemma go_back_n_ok q p rd s :
  cinv q p rd s -> ~ syn_state (s#T_state) ->
  exists s', go_back_n s = Some s' /\ cinv q p rd s' /\ s'#T_state = s#T_state.
Proof.
  intros C Hs. unfold go_back_n. cbn zeta.
  set (s1 := if _ && _ then _ else _).
  assert (C1 : cinv q p rd s1 /\ s1#T_state = s#T_state).
  { subst s1. split; [|by destruct (_ && _)].
    destruct (c_snd _ _ _ _ C) as [E|b S ? ? ? ? ? ? ? ? ? ?|ua na Y]; [|done|].
    - destruct (_ && _); (eapply cinv_snd; [exact C|by apply Snd_closed|try reflexivity..]; by left).
    - pose proof (sync_rewind _ _ _ _ Y) as Y1. cbn zeta in Y1. cbn in Y1 |- *.
      destruct (_ && _); (eapply cinv_snd; [exact C|by eapply Snd_sync|try reflexivity..]; by left). }
  destruct C1 as [C1 St1]. clearbody s1.
  destruct (tcp_output_ok q p rd (put T_rtx_deadline 0 s1)) as (s2 & -> & C2 & St2); [by apply cinv_put|].
  cbn [mbind option_bind]. eexists. split; [reflexivity|].
  destruct (_ && _); [|by rewrite St2]. split; [by apply cinv_arm|]. rewrite arm_frame, St2 by done. done.
Qed.

(** * Acknowledgements *)

(** The bytes acknowledged leave the front of the buffer. *)
Lemma sb_drop_ok t n q ua b s :
  et s = t -> sb t = Some b -> len b = TCP_BUF_SIZE -> ztake (fld t T_sb_len) b = zdrop ua (s_data q) ->
  0 <= ua -> 0 <= n <= fld t T_sb_len -> fld t T_sb_len <= TCP_BUF_SIZE ->
  exists b', sb_drop n s = Some (put_sb (Some b') s) /\ len b' = TCP_BUF_SIZE /\
    ztake (fld t T_sb_len - n) b' = zdrop (ua + n) (s_data q).
Proof.
  intros E Hb Lb Eb Hu Hn Hm. unfold sb_drop. rewrite E, Hb. unfold TCP_BUF_SIZE in Hm, Lb.
  rewrite u32_small by lia. rewrite bsub_some by lia. cbn [mbind option_bind].
  set (d := ztake _ (zdrop n b)). assert (Ld : len d = fld t T_sb_len - n) by (subst d; rewrite len_ztake; [done|rewrite len_zdrop; lia]).
  destruct (bblit b 0 d) as [b'|] eqn:EB; [|rewrite bblit_some in EB by lia; done]. cbn [mbind option_bind].
  exists b'. split; [done|]. pose proof (bblit_len _ _ _ _ EB) as Lb'. split; [unfold TCP_BUF_SIZE; lia|].
  rewrite bblit_some in EB by lia. injection EB as <-. rewrite (ztake_app _ d) by lia. subst d.
  rewrite <-zdrop_zdrop, <-Eb by lia. unfold ztake, zdrop. rewrite skipn_firstn_comm. f_equal. lia.
Qed.

(** What an acknowledgement of [z] acknowledges. *)
Lemma ack_amount q t ua na z :
  sync q t ua na -> ua < z <= na ->
  let fa := truth (fld t T_fin_sent) && seq_gt (u32 (s_iss q + 1 + z)) (fld t T_fin_seq) in
  b2z fa = Z.max 0 (z - len (s_data q)) /\ 0 <= z - ua - b2z fa <= fld t T_sb_len /\
  ~ fld t T_state = TCP_FIN_WAIT_2 /\ ~ fld t T_state = TCP_TIME_WAIT.
Proof.
  intros Y Hz fa. pose proof (y_max _ _ _ _ Y) as LM. pose proof (y_le _ _ _ _ Y). pose proof (y_len _ _ _ _ Y).
  pose proof (y_done _ _ _ _ Y) as HD. unfold TCP_BUF_SIZE in LM. pose proof (len_nonneg (s_data q)).
  assert (Hfa : b2z fa = Z.max 0 (z - len (s_data q))).
  { subst fa. destruct (y_fin _ _ _ _ Y) as [[-> ?]|(-> & ? & -> & _)]; cbn; [lia|].
    rewrite seq_gt_off by lia. destruct (Z.ltb_spec (len (s_data q)) z); cbn; lia. }
  rewrite Hfa. destruct (y_fin _ _ _ _ Y) as [[? ?]|(? & ? & _)]; (split; [done|split; [lia|]]); split; intros E; rewrite E in HD; lia.
Qed.

(** What it leaves; [k] is 1 when the FIN is acknowledged. *)
Lemma sync_ack q t ua na z k b' :
  sync q t ua na -> ua < z <= na -> k = Z.max 0 (z - len (s_data q)) ->
  fld t T_state <> TCP_FIN_WAIT_2 -> fld t T_state <> TCP_TIME_WAIT ->
  len b' = TCP_BUF_SIZE -> ztake (fld t T_sb_len - (z - ua - k)) b' = zdrop (ua + (z - ua - k)) (s_data q) ->
  sync q (tset T_snd_una (u32 (s_iss q + 1 + z))
           (tset T_sb_len (fld t T_sb_len - (z - ua - k)) (Tcb (fld t) (Some b') (rb t)))) z na.
Proof.
  intros Y Hz -> HN HW Lb' Eb. pose proof (len_nonneg (s_data q)). pose proof (y_fin _ _ _ _ Y) as YF.
  destruct Y. constructor; cbn; try done; [lia| |lia| |tauto].
  - destruct YF as [[? ?]|(? & ? & _)]; lia.
  - intros _. exists b'. split; [done|]. split; [done|]. rewrite Eb.
    destruct (Z_le_gt_dec z (len (s_data q))); [f_equal; lia|].
    unfold zdrop. rewrite !drop_ge; [done|unfold len in *; lia..].
Qed.

(** The states an acknowledgement of the FIN leads to. *)
Lemma sync_restate q t ua na st' :
  sync q t ua na -> TCP_ESTABLISHED <= st' <= TCP_TIME_WAIT ->
  (st' =? TCP_ESTABLISHED) || (st' =? TCP_CLOSE_WAIT) = (fld t T_state =? TCP_ESTABLISHED) || (fld t T_state =? TCP_CLOSE_WAIT) ->
  fld t T_state <> TCP_TIME_WAIT ->
  (st' = TCP_FIN_WAIT_2 \/ st' = TCP_TIME_WAIT -> ua = len (s_data q) + 1) ->
  sync q (tset T_state st' t) ua na.
Proof. intros [] Hr Hh Hw Hd. constructor; cbn; try done; [by rewrite Hh|auto]. Qed.

Lemma cinv_state q p rd s ua na st' :
  cinv q p rd s -> sync q (et s) ua na -> TCP_ESTABLISHED <= st' <= TCP_TIME_WAIT ->
  (st' =? TCP_ESTABLISHED) || (st' =? TCP_CLOSE_WAIT) = (s#T_state =? TCP_ESTABLISHED) || (s#T_state =? TCP_CLOSE_WAIT) ->
  s#T_state <> TCP_TIME_WAIT ->
  (st' = TCP_FIN_WAIT_2 \/ st' = TCP_TIME_WAIT -> ua = len (s_data q) + 1) ->
  cinv q p rd (put T_state st' s).
Proof.
  intros C Y Hr Hh Hw Hd. eapply cinv_snd; [exact C|by eapply Snd_sync, sync_restate|try reflexivity..].
  right. split; [apply (y_state _ _ _ _ Y)|]. cbn. lia.
Qed.

Lemma cinv_time_wait q p rd s : cinv q p rd (put T_state TCP_TIME_WAIT s) -> cinv q p rd (enter_time_wait s).
Proof. intros C. by apply cinv_put. Qed.

(** The connection state after the FIN is acknowledged. *)
Lemma fin_acked_state q p rd s ua na :
  cinv q p rd s -> sync q (et s) ua na -> ua = len (s_data q) + 1 ->
  cinv q p rd (if s#T_state =? TCP_FIN_WAIT_1 then put T_state TCP_FIN_WAIT_2 s
               else if s#T_state =? TCP_CLOSING then enter_time_wait s
               else if s#T_state =? TCP_LAST_ACK then put T_state TCP_CLOSED s else s).
Proof.
  intros C Y Hu.
  destruct (Z.eqb_spec (s#T_state) TCP_FIN_WAIT_1) as [E|_]; [eapply cinv_state; eauto; rewrite ?E; done|].
  destruct (Z.eqb_spec (s#T_state) TCP_CLOSING) as [E|_].
  { apply cinv_time_wait. eapply cinv_state; eauto; rewrite ?E; done. }
  destruct (Z.eqb_spec (s#T_state) TCP_LAST_ACK); [by apply cinv_close|done].
Qed.

Lemma ack_new_ok q p rd s ua na ack :
  cinv q p rd s -> sync q (et s) ua na -> 0 <= ack < 2 ^ 32 ->
  seq_gt ack (s#T_snd_nxt) = false -> seq_gt ack (s#T_snd_una) = true ->
  exists s', ack_new ack s = Some s' /\ cinv q p rd s'.
Proof.
  intros C Y Ha Hn Hu. destruct (sync_flight _ _ _ _ Y) as (B & _ & L0 & _).
  pose proof (y_max _ _ _ _ Y) as LM. pose proof (y_le _ _ _ _ Y) as Le. unfold TCP_BUF_SIZE in LM.
  rewrite (y_nxt _ _ _ _ Y) in Hn. rewrite (y_una _ _ _ _ Y) in Hu.
  destruct (seq_between _ ua na ack Ha ltac:(lia) Hn Hu) as (z & Hz & ->). clear Hn Hu.
  destruct (ack_amount _ _ _ _ z Y Hz) as (Hfa & Hda & HN & HW). unfold ack_new. cbn zeta in *.
  change ((put T_dup_acks 0 s)#T_snd_una) with (s#T_snd_una). change ((put T_dup_acks 0 s)#T_sb_len) with (s#T_sb_len).
  change ((put T_dup_acks 0 s)#T_fin_sent) with (s#T_fin_sent). change ((put T_dup_acks 0 s)#T_fin_seq) with (s#T_fin_seq).
  set (fa := truth _ && seq_gt _ _) in *. set (k := b2z fa) in *.
  rewrite (y_una _ _ _ _ Y), u32_off, (u32_small (z - ua)), (u32_small (z - ua - k)) by lia.
  destruct (Z.ltb_spec (s#T_sb_len) (z - ua - k)) as [?|_]; [lia|].
  destruct (y_buf _ _ _ _ Y HW) as (b & Hb & Lb & Eb).
  destruct (sb_drop_ok (et (put T_dup_acks 0 s)) (z - ua - k) q ua b _ eq_refl Hb Lb Eb) as (b' & -> & Lb' & Eb');
    [cbn; unfold TCP_BUF_SIZE; lia..|].
  cbn [mbind option_bind]. set (s1 := put_sb (Some b') _). change (s1#T_sb_len) with (s#T_sb_len).
  rewrite (u32_small (s#T_sb_len - (z - ua - k))) by lia.
  set (s2 := put T_snd_una _ _). pose proof (sync_tset _ _ _ _ T_dup_acks 0 eq_refl Y) as Y1.
  assert (Y2 : sync q (et s2) z na) by (exact (sync_ack q _ ua na z k b' Y1 Hz Hfa HN HW Lb' Eb')).
  assert (C2 : cinv q p rd s2) by (eapply cinv_snd; [exact C|by eapply Snd_sync|try reflexivity..]; by left).
  set (s3 := put T_rtx_deadline _ _).
  assert (C3 : cinv q p rd s3) by (by repeat (apply cinv_put; [done|])).
  assert (Y3 : sync q (et s3) z na) by (by repeat (apply sync_tset; [done|])).
  clearbody s3. eexists. split; [reflexivity|]. apply cinv_signal. destruct fa; [|done].
  eapply fin_acked_state; [done..|]. cbn in k. subst k. destruct (y_fin _ _ _ _ Y) as [[? ?]|(? & ? & _)]; lia.
Qed.

(** An acknowledgement does not lead back to the handshake. *)
Lemma ack_new_state ack s s' : ack_new ack s = Some s' -> ~ syn_state (s#T_state) -> ~ syn_state (s'#T_state).
Proof.
  unfold ack_new. cbn zeta. intros H Hs. destruct (sb_drop _ _) as [s1|] eqn:E; [|done]. cbn [mbind option_bind] in H.
  apply sb_drop_frame in E as [b ->]. injection H as <-.
  assert (Hsig : forall x, (tcb_signal x)#T_state = x#T_state) by (intros x; unfold tcb_signal; by destruct (truth _)).
  rewrite Hsig. destruct (_ && seq_gt _ _); [|done]. repeat (destruct (Z.eqb _ _) at 1; cbn -[syn_state]; [intros [?|?]; done|]).
  done.
Qed.

Lemma cinv_window q p rd s w : 0 <= w < 2 ^ 16 -> cinv q p rd s -> cinv q p rd (put T_snd_wnd w s).
Proof.
  intros Hw [S [got R] W M A]. constructor; try done.
  - destruct S as [E|b ? ? ? ? ? ? ? ? ? ? ?|ua na []]; [by apply Snd_closed|by apply (Snd_syn q _ b)|].
    apply (Snd_sync q _ ua na). constructor; done.
  - exists got. destruct R. constructor; done.
Qed.

(** process_ack is run past the handshake. *)
Lemma process_ack_ok q p rd s ack w pure :
  cinv q p rd s -> ~ syn_state (s#T_state) -> s#T_state <> TCP_CLOSED -> 0 <= ack < 2 ^ 32 -> 0 <= w < 2 ^ 16 ->
  exists s', process_ack ack w pure s = Some s' /\ cinv q p rd s' /\ ~ syn_state (s'#T_state).
Proof.
  intros C Hs Hc Ha Hw. unfold process_ack.
  destruct (seq_gt ack (s#T_snd_nxt)) eqn:Hn.
  { eexists. split; [done|]. split; [auto with tcp|]. unfold send_ack. by rewrite xmit_frame. }
  destruct (_ && _ && _ && _).
  { cbn zeta. assert (cinv q p rd (put T_dup_acks (s#T_dup_acks + 1) s)) as C1 by (by apply cinv_put).
    destruct (Z.eqb _ 3); [|by eexists].
    destruct (go_back_n_ok q p rd (put T_dup_acks (-1000) (emit (Count st_retrans) (put T_dup_acks (s#T_dup_acks + 1) s))))
      as (s' & -> & C' & E'); [by apply cinv_put, cinv_emit|done|]. exists s'. by rewrite E'. }
  destruct (seq_gt ack (s#T_snd_una)) eqn:Hu.
  - destruct (c_snd _ _ _ _ C) as [E|b S ? ? ? ? ? ? ? ? ? ?|ua na Y]; [done..|].
    destruct (ack_new_ok q p rd s ua na ack C Y Ha Hn Hu) as (s' & E & C').
    pose proof (ack_new_state _ _ _ E Hs). rewrite E. cbn [mbind option_bind].
    eexists. split; [done|]. split; [by apply cinv_window|done].
  - cbn [mbind option_bind]. eexists. split; [done|]. split; [by apply cinv_window|done].
Qed.

(** * Payload *)

(** The fields of the sending half. *)
Definition snd_field (f : tfield) : bool :=
  match f with
  | T_state | T_iss | T_snd_una | T_snd_nxt | T_sb_len | T_fin_queued | T_fin_sent | T_fin_seq | T_snd_wnd | T_peer_mss => true
  | _ => false
  end.

Lemma snd_ext q t t' :
  snd_ok q t -> (forall f, snd_field f = true -> fld t' f = fld t f) -> sb t' = sb t -> snd_ok q t'.
Proof.
  intros S E Es. destruct S as [C|b ? ? ? ? ? ? ? ? ? ? ?|ua na []].
  - apply Snd_closed. by rewrite E.
  - apply (Snd_syn q _ b); rewrite ?Es, ?E by done; done.
  - apply (Snd_sync q _ ua na). constructor; rewrite ?Es, ?E by done; done.
Qed.

(** The sending half looks at no field of the receiving one. *)
Lemma cinv_rcv q p p' rd rd' s s' got :
  cinv q p rd s -> rcv_ok p' rd' (et s') got ->
  (forall f, snd_field f = true -> s'#f = s#f) -> sb (et s') = sb (et s) -> acts s' = acts s ->
  cinv q p' rd' s'.
Proof.
  intros [S _ W M A] R E Es Ea. constructor; [by eapply snd_ext|by exists got|by rewrite E|by rewrite E|by rewrite Ea].
Qed.

Lemma rb_in_ok bs b h n :
  len b = TCP_BUF_SIZE -> 0 <= h < TCP_BUF_SIZE -> 0 <= n -> n + len bs <= TCP_BUF_SIZE ->
  exists b', rb_in bs b ((h + n) mod TCP_BUF_SIZE) = Some b' /\ len b' = TCP_BUF_SIZE /\
    ring b' h (n + len bs) = ring b h n ++ bs.
Proof.
  revert b n. induction bs as [|x bs IH]; intros b n Lb Hh Hn Hl.
  { exists b. split; [done|]. split; [done|]. change (len []) with 0. by rewrite Z.add_0_r, app_nil_r. }
  rewrite len_cons in *. pose proof (len_nonneg bs). cbn [rb_in].
  pose proof (Z.mod_pos_bound (h + n) TCP_BUF_SIZE ltac:(done)).
  destruct (bput b ((h + n) mod TCP_BUF_SIZE) x) as [b1|] eqn:Eb; [|rewrite bput_some in Eb by lia; done].
  cbn [mbind option_bind]. pose proof (bput_len _ _ _ _ Eb) as L1.
  rewrite Zplus_mod_idemp_l, <-Z.add_assoc. destruct (IH b1 (n + 1)) as (b' & -> & Lb' & Er); [lia..|].
  exists b'. split; [done|]. split; [done|]. rewrite <-Z.add_assoc in Er. rewrite Er.
  rewrite bput_some in Eb by lia. injection Eb as <-. rewrite <-Lb, ring_push by lia. by rewrite <-app_assoc.
Qed.

(** What a segment at [len got] adds to what was taken. *)
Lemma slice_prefix {A} (got d sd : list A) n :
  got `prefix_of` sd -> d = ztake (len d) (zdrop (len got) sd) -> 0 <= n <= len d -> got ++ ztake n d `prefix_of` sd.
Proof.
  intros [r ->] E Hn. rewrite zdrop_app in E by done. exists (zdrop n r). rewrite <-app_assoc. f_equal.
  rewrite E, ztake_ztake by lia. symmetry. apply ztake_zdrop.
Qed.

Lemma accept_data_ok q p rd s got data :
  cinv q p rd s -> rcv_ok p rd (et s) got -> s#T_fin_rcvd = 0 -> s#T_state <> TCP_SYN_SENT ->
  data = ztake (len data) (zdrop (len got) (s_data p)) -> len got + len data <= len (s_data p) -> short p ->
  exists s' n, accept_data data s = Some s' /\ 0 <= n <= len data /\ s'#T_rb_len = s#T_rb_len + n /\
    rcv_ok p rd (et s') (got ++ ztake n data) /\ cinv q p rd s' /\ (forall f, snd_field f = true -> s'#f = s#f) /\
    s'#T_fin_rcvd = 0.
Proof.
  intros C R HF HS Ed Hl Sp. unfold accept_data. pose proof (len_nonneg data). pose proof (r_buf _ _ _ _ R) as RB.
  destruct (rb (et s)) as [b|] eqn:Eb.
  2:{ exists s, 0. rewrite ztake_0, app_nil_r. split_and!; done || lia. }
  destruct RB as [Lb Eg]. pose proof (r_len _ _ _ _ R) as RL. pose proof (r_head _ _ _ _ R) as RH.
  cbn zeta. unfold TCP_BUF_SIZE in RL, RH. rewrite (u32_small (TCP_BUF_SIZE - s#T_rb_len)) by (unfold TCP_BUF_SIZE; lia).
  set (n := if _ <? _ then _ else _).
  assert (Hn : 0 <= n <= len data /\ s#T_rb_len + n <= TCP_BUF_SIZE).
  { subst n. unfold TCP_BUF_SIZE. destruct (Z.ltb_spec (len data) (16 * 1024 - s#T_rb_len)); lia. }
  rewrite bsub_some by lia. rewrite zdrop_0. cbn [mbind option_bind]. rewrite (u32_small (s#T_rb_head + s#T_rb_len)) by lia.
  assert (Ln : len (ztake n data) = n) by (apply len_ztake; lia).
  destruct (rb_in_ok (ztake n data) b (s#T_rb_head) (s#T_rb_len)) as (b' & -> & Lb' & Er); [done|unfold TCP_BUF_SIZE; lia|lia..|].
  cbn [mbind option_bind]. rewrite Ln in Er.
  set (s' := put T_rcv_nxt _ _). exists s', n.
  assert (R' : rcv_ok p rd (et s') (got ++ ztake n data)).
  { destruct R as [RP RF RN RS RU _ _ _].
    assert (s'#T_rb_len = s#T_rb_len + n) as EL by (cbn; apply u32_small; unfold TCP_BUF_SIZE in Hn; lia).
    constructor.
    - apply slice_prefix; [done..|lia].
    - by left.
    - destruct RN as [?|[?|RN]]; [done|by right; left|]. right; right. cbn. rewrite RN, u32_off_r, len_app, Ln. f_equal. lia.
    - done.
    - apply u32_range.
    - rewrite EL. lia.
    - done.
    - change (rb (et s')) with (Some b'). split; [done|]. change (s'#T_rb_head) with (s#T_rb_head).
      rewrite EL, Er, app_assoc. by rewrite <-Eg. }
  split; [done|]. split; [lia|]. split; [cbn; apply u32_small; unfold TCP_BUF_SIZE in Hn; lia|]. split; [done|].
  split; [|split; [by intros []|done]]. eapply cinv_rcv; [exact C|exact R'|by intros []|done..].
Qed.

(** The FIN of the peer, taken when the whole stream is. *)
Lemma take_fin_ok q p rd s :
  cinv q p rd s -> rcv_ok p rd (et s) (s_data p) -> s_fin p = true -> s#T_fin_rcvd = 0 ->
  TCP_ESTABLISHED <= s#T_state -> cinv q p rd (take_fin s).
Proof.
  intros C R Hp HF HS. unfold take_fin. cbn zeta. set (s1 := put T_fin_rcvd 1 _).
  assert (R1 : rcv_ok p rd (et s1) (s_data p)).
  { destruct R as [RP RF RN RS RU RL RH RB]. constructor; try done; [by right| |unfold TCP_ESTABLISHED, TCP_SYN_SENT in *; cbn; lia|apply u32_range].
    unfold TCP_ESTABLISHED, TCP_SYN_SENT, TCP_CLOSED in *. destruct RN as [?|[?|RN]]; [lia..|]. right; right. cbn.
    rewrite RN, u32_off_r, HF. f_equal. lia. }
  assert (C1 : cinv q p rd s1) by (eapply cinv_rcv; [exact C|exact R1|by intros []|done..]).
  change TCP_ESTABLISHED with 4 in HS. assert (St : s1#T_state = s#T_state) by done. clearbody s1. rewrite <-St in HS.
  destruct (c_snd _ _ _ _ C1) as [E|b [E|E] ? ? ? ? ? ? ? ? ? ?|ua na Y]; [rewrite E in HS; unfold TCP_CLOSED, TCP_SYN_SENT, TCP_SYN_RCVD in *; lia..|].
  destruct (Z.eqb_spec (s1#T_state) TCP_ESTABLISHED) as [E|_]; [eapply cinv_state; eauto; rewrite ?E; try done; by intros [|]|].
  destruct (Z.eqb_spec (s1#T_state) TCP_FIN_WAIT_1) as [E|_].
  { destruct (truth _ && _) eqn:Hb; [|eapply cinv_state; eauto; rewrite ?E; try done; by intros [|]].
    apply andb_prop in Hb as [Hb Eq%Z.eqb_eq]. apply cinv_time_wait. eapply cinv_state; eauto; rewrite ?E; try done.
    intros _. destruct (sync_flight _ _ _ _ Y) as (_ & _ & _ & FL). rewrite Eq, Z.sub_diag in FL. unfold u32 in FL.
    change (0 mod 2 ^ 32) with 0 in FL. destruct (y_fin _ _ _ _ Y) as [[F0 _]|(_ & ? & _)]; [by rewrite F0 in Hb|lia]. }
  destruct (Z.eqb_spec (s1#T_state) TCP_FIN_WAIT_2) as [E|_]; [|done].
  apply cinv_time_wait. eapply cinv_state; eauto; rewrite ?E; try done. intros _. apply (y_done _ _ _ _ Y). by left.
Qed.

(** A segment at the number the receiver waits for is the next part of the
    stream. *)
Lemma next_slice p rd t got seq flags data :
  rcv_ok p rd t got -> TCP_ESTABLISHED <= fld t T_state -> short p ->
  pay_ok p seq flags data -> flag flags TCP_SYN = false -> 0 < len data \/ flag flags TCP_FIN = true ->
  seq = fld t T_rcv_nxt -> fld t T_fin_rcvd = 0 ->
  data = ztake (len data) (zdrop (len got) (s_data p)) /\ len got + len data <= len (s_data p) /\
  (flag flags TCP_FIN = true -> len got + len data = len (s_data p) /\ s_fin p = true).
Proof.
  intros R HS Sp [_ P] HY Hd Hn HF. destruct (P HY Hd) as (k & Hk & Es & Hl & Ed & Hf). unfold TCP_ESTABLISHED in HS.
  pose proof (r_nxt _ _ _ _ R) as [E|[E|E]]; [unfold TCP_SYN_SENT in E; lia|unfold TCP_CLOSED in E; lia|].
  rewrite HF, Z.add_0_r in E. rewrite Hn, E in Es. unfold short in Sp.
  assert (k = len got) as ->; [|done].
  pose proof (len_nonneg got). pose proof (len_nonneg data). destruct (r_prefix _ _ _ _ R) as [r Er].
  pose proof (f_equal len Er) as El. rewrite len_app in El. pose proof (len_nonneg r).
  symmetry. eapply u32_off_inj; [exact Es|lia].
Qed.

(** The bytes of a segment at the number waited for. *)
Lemma take_data_ok q p rd s h got (can : bool) :
  cinv q p rd s -> rcv_ok p rd (et s) got -> TCP_ESTABLISHED <= s#T_state ->
  (s#T_fin_rcvd = 0 -> pay_ok p (g_seq h) (g_flags h) (g_data h)) -> flag (g_flags h) TCP_SYN = false -> short p ->
  0 < len (g_data h) \/ flag (g_flags h) TCP_FIN = true -> g_seq h = s#T_rcv_nxt ->
  exists s' n,
    (if (0 <? len (g_data h)) && can && negb (truth (s#T_fin_rcvd)) then accept_data (g_data h) s else Some s) = Some s' /\
    0 <= n <= len (g_data h) /\ s'#T_rb_len = s#T_rb_len + n /\ rcv_ok p rd (et s') (got ++ ztake n (g_data h)) /\
    cinv q p rd s' /\ (forall f, snd_field f = true -> s'#f = s#f) /\ s'#T_fin_rcvd = s#T_fin_rcvd.
Proof.
  intros C R HS P HY Sp Hd En. pose proof (len_nonneg (g_data h)).
  destruct (_ && negb _) eqn:Hb; [|exists s, 0; rewrite ztake_0, app_nil_r; split_and!; done || lia].
  apply andb_prop in Hb as [_ HF].
  assert (HF0 : s#T_fin_rcvd = 0) by (destruct (r_fin _ _ _ _ R) as [?|[E _]]; [done|by rewrite E in HF]).
  destruct (next_slice _ _ _ _ _ _ _ R HS Sp (P HF0) HY Hd En HF0) as (Ed & Hl & _).
  destruct (accept_data_ok q p rd s got (g_data h) C R HF0) as (s1 & n & Ea & ? & ? & ? & ? & ? & ?); try done.
  { intros E. rewrite E in HS. done. }
  exists s1, n. rewrite HF0. split_and!; done || lia.
Qed.

Lemma prefix_whole {A} (l k : list A) : l `prefix_of` k -> len l = len k -> l = k.
Proof. intros [r ->] E. rewrite len_app in E. assert (r = []) as ->; [|by rewrite app_nil_r]. apply nil_length_inv. unfold len in *. lia. Qed.

Lemma take_payload_ok q p rd s h :
  cinv q p rd s -> TCP_ESTABLISHED <= s#T_state ->
  (g_seq h = s#T_rcv_nxt -> s#T_fin_rcvd = 0 -> pay_ok p (g_seq h) (g_flags h) (g_data h)) ->
  flag (g_flags h) TCP_SYN = false -> short p ->
  exists r, take_payload h s = Some r /\ match r with inl s' | inr s' => cinv q p rd s' end.
Proof.
  intros C HS P HY Sp. unfold take_payload. cbn zeta.
  destruct ((0 <? len (g_data h)) || _) eqn:Hd; [|by eexists].
  assert (Hd' : 0 < len (g_data h) \/ flag (g_flags h) TCP_FIN = true) by (apply orb_prop in Hd as [?%Z.ltb_lt|?]; auto).
  destruct (Z.eqb_spec (g_seq h) (s#T_rcv_nxt)) as [En|_]; cbn [negb]; [|eexists; split; [done|]; by apply cinv_send_ack].
  destruct (c_rcv _ _ _ _ C) as [got R].
  destruct (take_data_ok q p rd s h got ((s#T_state =? TCP_ESTABLISHED) || (s#T_state =? TCP_FIN_WAIT_1) || (s#T_state =? TCP_FIN_WAIT_2))
    C R HS (P En) HY Sp Hd' En) as (s1 & n & -> & Hn & EL & R1 & C1 & Ef & EF).
  cbn [mbind option_bind]. eexists. split; [reflexivity|]. cbn beta iota. apply cinv_signal, cinv_send_ack.
  destruct (_ && negb _) eqn:Hb; [|clear Hb; destruct (_ && _); [by apply cinv_put|done]].
  apply andb_prop in Hb as [Hb HF]. apply andb_prop in Hb as [Hf Ht%Z.eqb_eq]. rewrite EF in HF.
  assert (HF0 : s#T_fin_rcvd = 0) by (destruct (r_fin _ _ _ _ R) as [?|[E _]]; [done|by rewrite E in HF]).
  destruct (next_slice _ _ _ _ _ _ _ R HS Sp (P En HF0) HY Hd' En HF0) as (Ed & Hl & Hfin). destruct (Hfin Hf) as [Hlen Hp].
  pose proof (r_len _ _ _ _ R) as L0. pose proof (r_len _ _ _ _ R1) as L1. rewrite EL in Ht, L1. unfold TCP_BUF_SIZE in L0, L1.
  rewrite Z.add_simpl_l, u64_small in Ht by lia. rewrite ztake_all in R1 by lia.
  rewrite (prefix_whole _ _ (r_prefix _ _ _ _ R1)) in R1 by (rewrite len_app; lia).
  apply take_fin_ok; [done..|by rewrite EF|]. by rewrite Ef.
Qed.

(** * The handshake *)

Lemma parse_mss_nonneg fuel opt : 0 <= parse_mss fuel opt.
Proof.
  revert opt. induction fuel as [|fuel IH]; intros opt; cbn [parse_mss]; [lia|].
  destruct opt as [|kind [|olen opt]]; [lia|repeat (destruct (_ =? _)); try lia; apply IH|].
  destruct (kind =? 0); [lia|]. destruct (kind =? 1); [apply IH|]. destruct (_ || _); [lia|].
  destruct (_ && _); [apply u16_range|apply IH].
Qed.

Lemma cinv_mss q p rd s opts : cinv q p rd s -> cinv q p rd (take_mss opts s).
Proof.
  intros C. unfold take_mss. pose proof (parse_mss_nonneg (length opts) opts). unfold opt_mss, truth.
  destruct (Z.eqb_spec (parse_mss (length opts) opts) 0); cbn [negb]; [done|].
  set (m := if _ <? _ then _ else _). assert (1 <= m).
  { subst m. unfold TCP_MSS, ETH_MTU. destruct (_ <? _); lia. }
  destruct C as [S [got R] W M A]. constructor; try done; [|exists got; destruct R; constructor; done].
  destruct S as [E|b ? ? ? ? ? ? ? ? ? ? ?|ua na []]; [by apply Snd_closed|by apply (Snd_syn q _ b)|].
  apply (Snd_sync q _ ua na). constructor; done.
Qed.

(** The handshake is over: nothing is sent yet, and the SYN is acknowledged. *)
Lemma syn_sync q t :
  snd_ok q t -> syn_state (fld t T_state) ->
  sync q (tset T_state TCP_ESTABLISHED (tset T_snd_una (u32 (s_iss q + 1)) t)) 0 0 /\ fld t T_iss = s_iss q.
Proof.
  intros S K. destruct S as [E|b _ Hu Hn Hi Hs Hd Hf Hq Ht Hb Lb|ua na Y].
  - destruct K as [K|K]; rewrite E in K; done.
  - split; [|done]. constructor; cbn; rewrite ?Z.add_0_r, ?Hd; try done.
    + by rewrite Hf.
    + by left.
    + rewrite Hs. done.
    + intros _. exists b. split; [done|]. split; [done|]. by rewrite Hs.
    + intros [?|?]; done.
  - pose proof (y_state _ _ _ _ Y) as H. destruct K as [K|K]; rewrite K in H; unfold TCP_ESTABLISHED, TCP_SYN_SENT, TCP_SYN_RCVD in H; lia.
Qed.

(** The sending half of [t'] is that of [t] with the handshake over. *)
Lemma syn_sync_ext q t t' :
  snd_ok q t -> syn_state (fld t T_state) -> fld t' T_state = TCP_ESTABLISHED -> fld t' T_snd_una = u32 (fld t T_iss + 1) ->
  fld t' T_snd_nxt = fld t T_snd_nxt -> fld t' T_sb_len = fld t T_sb_len -> fld t' T_fin_queued = fld t T_fin_queued ->
  fld t' T_fin_sent = fld t T_fin_sent -> sb t' = sb t -> snd_ok q t'.
Proof.
  intros S K E1 E2 E3 E4 E5 E6 E7. destruct (syn_sync q t S K) as [[] Ei]. rewrite Ei in E2.
  apply (Snd_sync q _ 0 0). constructor; cbn in *; rewrite ?E1, ?E2, ?E3, ?E4, ?E5, ?E6, ?E7; try done.
  destruct y_fin0 as [?|(? & ? & _)]; [by left|]. pose proof (len_nonneg (s_data q)). lia.
Qed.

Lemma handle_syn_sent_ok q p rd s h :
  cinv q p rd s -> s#T_state = TCP_SYN_SENT -> (flag (g_flags h) TCP_SYN = true -> g_seq h = s_iss p) ->
  0 <= g_win h < 2 ^ 16 -> short p -> cinv q p rd (handle_syn_sent h s).
Proof.
  intros C HS PS Hw Sp. unfold handle_syn_sent. cbn zeta.
  destruct (flag _ TCP_ACK && negb _) eqn:Hb; [destruct (negb (flag _ TCP_RST)); auto with tcp|].
  destruct (_ && flag _ TCP_RST); [auto with tcp|]. destruct (negb _ && flag _ TCP_RST); [done|].
  destruct (flag _ TCP_SYN) eqn:HY; cbn [negb]; [|done].
  specialize (PS eq_refl). rewrite PS. destruct Sp as [Hi _].
  set (s0 := put T_rcv_nxt _ _).
  assert (C0 : cinv q p rd s0 /\ s0#T_rcv_nxt = u32 (s_iss p + 1)).
  { split; [|done]. destruct (c_rcv _ _ _ _ C) as [got R].
    eapply (cinv_rcv _ _ _ _ _ _ _ got); [exact C| |by intros []|done..].
    destruct R; constructor; try done; [by left|apply u32_range]. }
  set (s1 := put T_snd_wnd _ _).
  assert (C1 : cinv q p rd s1) by (apply cinv_window; [done|]; apply cinv_mss, C0).
  assert (E1 : s1#T_state = TCP_SYN_SENT /\ s1#T_iss = s#T_iss /\ s1#T_rcv_nxt = u32 (s_iss p + 1)).
  { destruct C0 as [_ En]. subst s1. unfold take_mss. destruct (truth _); split_and!; done. }
  destruct E1 as (E1 & Ei & En). clearbody s1. clear C0 s0.
  destruct (flag (g_flags h) TCP_ACK); cbn [andb] in Hb; [|done]. apply negb_false_iff, Z.eqb_eq in Hb. rewrite Hb, <-Ei.
  apply cinv_signal, cinv_send_ack. repeat (apply cinv_put; [done|]).
  destruct C1 as [S1 [got R1] W1 M1 A1]. constructor; try done.
  - apply (syn_sync_ext q (et s1)); try done. by left.
  - exists got. destruct (r_syn _ _ _ _ R1 E1) as [-> HF]. destruct R1. constructor; try done. right; right. cbn. rewrite En, HF. change (len (@nil Z)) with 0. by rewrite !Z.add_0_r.
Qed.

Lemma establish_ok q p rd s h :
  cinv q p rd s -> s#T_state = TCP_SYN_RCVD -> g_ack h = u32 (s#T_iss + 1) -> 0 <= g_win h < 2 ^ 16 ->
  cinv q p rd (establish h s) /\ (establish h s)#T_state = TCP_ESTABLISHED.
Proof.
  intros C HS Ha Hw. unfold establish. cbn zeta. set (s1 := put T_state TCP_ESTABLISHED _).
  assert (C1 : cinv q p rd s1).
  { destruct C as [S [got R] W M A]. constructor; try done.
    - apply (syn_sync_ext q (et s)); try done. by right.
    - exists got. destruct R as [? ? RN ? ? ? ? ?]. constructor; try done. right; right. cbn.
      rewrite HS in RN. destruct RN as [?|[?|?]]; done. }
  destruct (truth _); [|done]. split; [|done].
  repeat (apply cinv_emit; [done|]). apply cinv_put; [done|]. by apply cinv_emit.
Qed.

(** * Input *)

Lemma take_rst_ok q p rd s h : cinv q p rd s -> cinv q p rd (take_rst h s).
Proof.
  intros C. unfold take_rst. cbn zeta. destruct (seq_ge _ _ && _); [|done]. destruct (_ && truth _); [|auto with tcp].
  apply cinv_close, cinv_put; [done|]. by apply cinv_emit.
Qed.

(** A state past the handshake. *)
Lemma cinv_established q p rd s :
  cinv q p rd s -> s#T_state <> TCP_CLOSED -> ~ syn_state (s#T_state) -> TCP_ESTABLISHED <= s#T_state.
Proof. intros [[E|b ? ? ? ? ? ? ? ? ? ? ?|ua na Y] _ _ _ _] Hc Hs; [done..|]. apply (y_state _ _ _ _ Y). Qed.

(** The fields that say what is expected next. *)
Definition rcv_field (f : tfield) : bool := match f with T_rcv_nxt | T_fin_rcvd => true | _ => false end.

Lemma rcv_out f : out_field f = true -> rcv_field f = false.
Proof. by destruct f. Qed.

Lemma rcv_ack f : ack_field f = true -> rcv_field f = false.
Proof. by destruct f. Qed.

Lemma keeps_establish h s : keeps rcv_field s (establish h s).
Proof. unfold establish. cbn zeta. zif; (split; [by intros []|done]). Qed.

Lemma handle_synchronized_ok q p rd s h :
  cinv q p rd s -> s#T_state <> TCP_SYN_SENT -> s#T_state <> TCP_CLOSED ->
  (g_seq h = s#T_rcv_nxt -> s#T_fin_rcvd = 0 -> flag (g_flags h) TCP_SYN = false -> pay_ok p (g_seq h) (g_flags h) (g_data h)) ->
  0 <= g_ack h < 2 ^ 32 -> 0 <= g_win h < 2 ^ 16 -> short p ->
  exists s', handle_synchronized h s = Some s' /\ cinv q p rd s'.
Proof.
  intros C HS HC P Ha Hw Sp. unfold handle_synchronized. cbn zeta.
  destruct (flag _ TCP_RST); [eexists; split; [done|]; by apply take_rst_ok|].
  destruct (flag _ TCP_SYN) eqn:HY.
  { destruct (_ && (g_seq h =? _)) eqn:Hb; (eexists; split; [done|]); [|auto with tcp]. apply cinv_xmit; [|done].
    apply andb_prop in Hb as [E%Z.eqb_eq _]. split; [intros _|done].
    apply (syn_sync q _ (c_snd _ _ _ _ C)). by right. }
  destruct (flag _ TCP_ACK); cbn [negb]; [|by eexists].
  destruct (_ && negb (g_ack h =? _)) eqn:Hb; [eexists; split; [done|]; auto with tcp|].
  assert (exists r, (if s#T_state =? TCP_SYN_RCVD then Some (inr (establish h s)) else
       s ← process_ack (g_ack h) (g_win h) ((len (g_data h) =? 0) && negb (flag (g_flags h) (Z.lor TCP_FIN TCP_SYN))) s;
       Some (if s#T_state =? TCP_CLOSED then inl (tcb_signal s) else inr s)) = Some r /\
      match r with
      | inl s' => cinv q p rd s'
      | inr s' => (cinv q p rd s' /\ s'#T_state <> TCP_CLOSED /\ ~ syn_state (s'#T_state)) /\ keeps rcv_field s s'
      end)
    as (r & -> & Hr).
  { destruct (Z.eqb_spec (s#T_state) TCP_SYN_RCVD) as [E|NE].
    - cbn [andb] in Hb. apply negb_false_iff, Z.eqb_eq in Hb. destruct (establish_ok q p rd s h C E Hb Hw) as [C1 E1].
      eexists. split; [done|]. cbn beta iota. split; [|by apply keeps_establish].
      rewrite E1. split; [done|]. split; [done|]. intros [?|?]; done.
    - assert (NS : ~ syn_state (s#T_state)) by (intros [?|?]; done).
      destruct (process_ack_ok q p rd s (g_ack h) (g_win h) ((len (g_data h) =? 0) && negb (flag (g_flags h) (Z.lor TCP_FIN TCP_SYN)))
        C NS HC Ha Hw) as (s1 & E1 & C1 & NS1).
      pose proof (keeps_process_ack rcv_field rcv_out rcv_ack _ _ _ s _ _ E1 (fields_keep_refl _ s)).
      rewrite E1. cbn [mbind option_bind]. eexists. split; [done|].
      destruct (Z.eqb_spec (s1#T_state) TCP_CLOSED); [auto with tcp|done]. }
  cbn [mbind option_bind]. destruct r as [s1|s1]; [by eexists|]. destruct Hr as [(C1 & NC & NS) [Kf _]].
  destruct (take_payload_ok q p rd s1 h C1) as (r & -> & Hr); [by eapply cinv_established|rewrite !Kf by done; auto|done..|].
  cbn [mbind option_bind]. destruct r as [s2|s2]; [by eexists|].
  destruct (tcp_output_ok q p rd s2 Hr) as (s3 & -> & C3 & _). by eexists.
Qed.

(** * The timer *)

Lemma pay_syn q seq flags d : flag flags TCP_SYN = true -> seq = s_iss q -> pay_ok q seq flags d.
Proof. intros HY ->. split; [done|congruence]. Qed.

Lemma timer_rtx_ok q p rd s : cinv q p rd s -> exists s', timer_rtx s = Some s' /\ cinv q p rd s'.
Proof.
  intros C. unfold timer_rtx. destruct (_ && _); [|by eexists]. cbn zeta.
  set (s1 := put T_rtx_count _ _). assert (C1 : cinv q p rd s1) by (by apply cinv_put).
  destruct (_ <? _).
  { eexists. split; [done|]. destruct (_ && _); [|auto with tcp]. apply cinv_put; [done|]. apply cinv_emit; [done|auto with tcp]. }
  set (s2 := emit _ _). assert (C2 : cinv q p rd s2) by (apply cinv_emit; [done|]; by repeat (apply cinv_put; [done|])).
  assert (E2 : forall f, kept f = true -> s2#f = s#f) by (by intros []). clearbody s2.
  pose proof (syn_sync q _ (c_snd _ _ _ _ C2)) as HY.
  destruct (Z.eqb_spec (s2#T_state) TCP_SYN_SENT) as [E|N1].
  { eexists. split; [done|]. apply cinv_xmit; [|done]. apply pay_syn; [done|]. apply HY. by left. }
  destruct (Z.eqb_spec (s2#T_state) TCP_SYN_RCVD) as [E|N2].
  { eexists. split; [done|]. apply cinv_xmit; [|done]. apply pay_syn; [done|]. apply HY. by right. }
  destruct (go_back_n_ok q p rd s2 C2) as (s3 & -> & C3 & _); [intros [?|?]; done|by eexists].
Qed.

(** The buffers of a finished connection without an owner are given back. *)
Lemma cinv_release q p rd s :
  cinv q p rd s -> s#T_state = TCP_TIME_WAIT ->
  cinv q p rd (put T_rb_len 0 (put T_sb_len 0 (put_rb None (put_sb None s)))).
Proof.
  intros [S [got R] W M A] HS. constructor; try done.
  - destruct S as [E|b [E|E] ? ? ? ? ? ? ? ? ? ?|ua na Y]; [rewrite HS in E; done..|].
    pose proof (y_done _ _ _ _ Y (or_intror HS)) as Hd. destruct Y.
    apply (Snd_sync q _ ua na). constructor; try done; cbn; try done. rewrite Hd. lia.
  - exists got. destruct R as [? ? ? ? ? RL ? RB]. constructor; try done. cbn. split; [done|].
    destruct (rb (et s)); destruct RB as [? ?]; [subst got; by eexists|done].
Qed.

Lemma timer_tcb_ok q p rd s :
  cinv q p rd s -> exists s' reap, timer_tcb s = Some (s', reap) /\ cinv q p rd s'.
Proof.
  intros C. unfold timer_tcb. destruct (timer_rtx_ok q p rd s C) as (s1 & -> & C1). cbn [mbind option_bind].
  set (s2 := if _ && _ then tcb_signal _ else _).
  assert (C2 : cinv q p rd s2) by (subst s2; destruct (_ && _); auto with tcp). clearbody s2.
  eexists _, _. split; [done|]. match goal with |- cinv _ _ _ (if ?c then _ else _) => destruct c eqn:Hb; [|done] end.
  apply cinv_release; [done|]. apply andb_prop in Hb as [Hb _]. apply andb_prop in Hb as [_ Hb]. by apply Z.eqb_eq.
Qed.

(** * The calls of the owner *)

Definition stream_send (q : stream) (bs : list Z) : stream := Stream (s_iss q) (s_data q ++ bs) (s_fin q).
Definition stream_close (q : stream) : stream := Stream (s_iss q) (s_data q) true.

Lemma extends_send q bs : s_fin q = false -> extends q (stream_send q bs).
Proof. intros E. split; [done|]. split; [by eexists|]. congruence. Qed.

Lemma extends_close q : s_fin q = false -> extends q (stream_close q).
Proof. intros E. split; [done|]. split; [done|]. congruence. Qed.

#[export] Instance extends_refl : Reflexive extends.
Proof. intros q. by split. Qed.

Lemma pay_ok_mono q q' seq flags d : extends q q' -> pay_ok q seq flags d -> pay_ok q' seq flags d.
Proof.
  intros (Ei & [r Ed] & Ef) [P1 P2]. unfold pay_ok. rewrite Ei. split; [done|]. intros HY Hd.
  destruct (P2 HY Hd) as (k & Hk & Es & Hl & E & Hf). exists k. pose proof (len_nonneg r). pose proof (len_nonneg d).
  rewrite Ed, len_app. split; [done|]. split; [done|]. split; [lia|]. split.
  - rewrite E at 1. unfold ztake, zdrop. rewrite drop_app_le by (unfold len in *; lia).
    rewrite take_app_le; [done|]. rewrite length_drop. unfold len in *. lia.
  - intros HF. destruct (Hf HF) as [? Fq]. rewrite (Ef Fq) in Ed |- *. split; [|done].
    assert (len r = 0) by (pose proof (f_equal len Ed) as L; rewrite len_app in L; lia). lia.
Qed.

Lemma acts_mono q q' l : extends q q' -> Forall (act_ok q) l -> Forall (act_ok q') l.
Proof. intros E H. eapply Forall_impl; [exact H|]. intros [h| | | | |]; cbn; [|done..]. intros [P ?]. split; [by eapply pay_ok_mono|done]. Qed.

(** The peer may say more. *)
Lemma cinv_peer q p p' rd s : extends p p' -> cinv q p rd s -> cinv q p' rd s.
Proof.
  intros (Ei & Hd & Ef) [S [got R] W M A]. constructor; try done. exists got. destruct R as [RP RF RN RS RU RL RH RB].
  constructor; try done; [by transitivity (s_data p)| |by rewrite Ei].
  destruct RF as [?|(? & Eg & Fp)]; [by left|right]. by rewrite (Ef Fp).
Qed.

Lemma stream_open q t ua na : sync q t ua na -> fld t T_state = TCP_ESTABLISHED \/ fld t T_state = TCP_CLOSE_WAIT ->
  s_fin q = false /\ fld t T_fin_sent = 0 /\ na <= len (s_data q) /\ fld t T_state <> TCP_TIME_WAIT.
Proof.
  intros Y HS. assert (Fq : s_fin q = false) by (rewrite (y_half _ _ _ _ Y); destruct HS as [-> | ->]; done).
  split; [done|]. destruct (y_fin _ _ _ _ Y) as [[? ?]|(_ & _ & _ & E)]; [|congruence].
  split; [done|]. split; [done|]. destruct HS as [-> | ->]; done.
Qed.

(** Bytes enter the send buffer. *)
Lemma cinv_queue q p rd s d :
  cinv q p rd s -> s#T_state = TCP_ESTABLISHED \/ s#T_state = TCP_CLOSE_WAIT -> s#T_sb_len + len d <= TCP_BUF_SIZE ->
  exists b b', sb (et s) = Some b /\ bblit b (s#T_sb_len) d = Some b' /\
    cinv (stream_send q d) p rd (put T_sb_len (u32 (s#T_sb_len + len d)) (put_sb (Some b') s)) /\ s_fin q = false.
Proof.
  intros [S R W M A] HS Hl.
  destruct S as [E|b [E|E] ? ? ? ? ? ? ? ? ? ?|ua na Y]; [destruct HS as [HS|HS]; rewrite HS in E; done..|].
  destruct (stream_open _ _ _ _ Y HS) as (Fq & Fs & Hn & Hw). destruct (y_buf _ _ _ _ Y Hw) as (b & Hb & Lb & Eb).
  pose proof (len_nonneg d). destruct (sync_flight _ _ _ _ Y) as (_ & _ & L0 & _). pose proof (y_le _ _ _ _ Y) as Le.
  destruct (bblit b (s#T_sb_len) d) as [b'|] eqn:EB; [|rewrite bblit_some in EB by lia; done].
  exists b, b'. split; [done|]. split; [done|]. split; [|done]. pose proof (bblit_len _ _ _ _ EB) as Lb'.
  constructor; try done; [|destruct R as [got []]; exists got; constructor; done|by eapply acts_mono; [apply extends_send|]].
  apply (Snd_sync _ _ ua na). destruct Y. unfold TCP_BUF_SIZE in *.
  rewrite bblit_some in EB by lia. injection EB as <-.
  constructor; cbn; rewrite ?u32_small, ?len_app by lia; try done;
    [left; lia|lia| |intros [K|K]; destruct HS as [HS|HS]; rewrite K in HS; done].
  intros _. eexists. split; [done|]. split; [unfold TCP_BUF_SIZE; lia|].
  rewrite app_assoc, ztake_app by (rewrite len_app, len_ztake; lia).
  rewrite y_len0 in Eb at 1. unfold zdrop in *. rewrite drop_app_le by (unfold len in *; lia). f_equal. rewrite <-Eb. by rewrite y_len0.
Qed.

(** tcp_send, a round: the bytes taken are those after the [done] first. *)
Lemma send_round_ok q p rd s buf done deadline dw :
  cinv q p rd s -> 0 <= done <= len buf ->
  exists r, tcp_send_round buf done deadline dw s = Some r /\
    match r with
    | Send_ret _ s' | Send_waits _ _ s' => s' = s
    | Send_more done' s' => s_fin q = false /\ done < done' <= len buf /\
        cinv (stream_send q (ztake (done' - done) (zdrop done buf))) p rd s'
    end.
Proof.
  intros C Hd. unfold tcp_send_round. cbn zeta.
  destruct (Z.ltb_spec done (len buf)) as [Hlt|]; cbn [negb]; [|by eexists].
  destruct (truth (s#T_err)); [by eexists|]. destruct (_ && _) eqn:HS; [by eexists|].
  assert (HS' : s#T_state = TCP_ESTABLISHED \/ s#T_state = TCP_CLOSE_WAIT).
  { apply andb_false_iff in HS as [HS|HS]; apply negb_false_iff, Z.eqb_eq in HS; auto. }
  assert (L : 0 <= s#T_sb_len <= TCP_BUF_SIZE).
  { destruct (c_snd _ _ _ _ C) as [E|b [E|E] ? ? ? ? ? ? ? ? ? ?|ua na Y]; [destruct HS' as [K|K]; rewrite K in E; done..|].
    split; [apply (sync_flight _ _ _ _ Y)|apply (y_max _ _ _ _ Y)]. }
  rewrite (u32_small (TCP_BUF_SIZE - _)) by (unfold TCP_BUF_SIZE in *; lia).
  destruct (Z.eqb_spec (TCP_BUF_SIZE - s#T_sb_len) 0) as [_|Nz].
  { destruct dw; [by eexists|]. destruct (truth deadline); [destruct (_ <=? _)|]; by eexists. }
  set (n := if _ <? _ then _ else _).
  assert (Hn : 0 < n <= len buf - done /\ s#T_sb_len + n <= TCP_BUF_SIZE).
  { subst n. destruct (Z.ltb_spec (len buf - done) (TCP_BUF_SIZE - s#T_sb_len)); lia. }
  rewrite bsub_some by lia. cbn [mbind option_bind]. set (d := ztake n (zdrop done buf)).
  assert (Ld : len d = n) by (subst d; rewrite len_ztake; [done|rewrite len_zdrop; lia]).
  destruct (cinv_queue q p rd s d C HS' ltac:(lia)) as (b & b' & -> & EB & C1 & Fq). cbn [mbind option_bind]. rewrite EB.
  cbn [mbind option_bind]. rewrite Ld in C1.
  destruct (tcp_output_ok _ _ _ _ C1) as (s2 & E2 & C2 & _).
  change ((put_sb (Some b') s)#T_sb_len) with (s#T_sb_len). rewrite E2. cbn [mbind option_bind].
  eexists. split; [done|]. split; [done|]. split; [lia|]. by rewrite Z.add_simpl_l.
Qed.

Lemma rb_out_ok n b h m :
  len b = TCP_BUF_SIZE -> 0 <= h < TCP_BUF_SIZE -> Z.of_nat n <= m <= TCP_BUF_SIZE ->
  exists bs h', rb_out n b h = Some (bs, h') /\ 0 <= h' < TCP_BUF_SIZE /\ len bs = Z.of_nat n /\
    ring b h m = bs ++ ring b h' (m - Z.of_nat n).
Proof.
  revert h m. induction n as [|n IH]; intros h m Lb Hh Hm; cbn [rb_out].
  { exists [], h. cbn. rewrite Z.sub_0_r. done. }
  rewrite bget_some by lia. cbn [mbind option_bind].
  destruct (IH ((h + 1) mod TCP_BUF_SIZE) (m - 1)) as (bs & h' & -> & Hh' & Ll & Er); [done|apply Z.mod_pos_bound; done|lia|].
  cbn [mbind option_bind]. eexists _, h'. split; [done|]. split; [done|]. split; [rewrite len_cons; lia|].
  rewrite ring_pop by lia. rewrite Z.mod_small by lia. cbn [app]. f_equal. rewrite Lb, Er. do 2 f_equal. lia.
Qed.

(** tcp_recv, a round: what is returned are the next bytes of the stream; 0 says
    that there are no more. *)
Lemma recv_round_ok q p rd s n deadline dw sh :
  cinv q p rd s -> 0 < n ->
  exists r, tcp_recv_round n deadline dw sh s = Some r /\
    match r with
    | Recv_ret v bs s' => cinv q p (rd ++ bs) s' /\
        (v = len bs /\ 0 < v <= n \/ s#T_rb_len = 0 /\ s' = s /\ bs = [] /\
          (v < 0 \/ s#T_err <> 0 /\ v = - s#T_err \/
           s#T_err = 0 /\ v = 0 /\ (s#T_fin_rcvd <> 0 \/ sh = true \/ s#T_state = TCP_CLOSED)))
    | Recv_waits _ s' => s' = s
    end.
Proof.
  intros C Hn. unfold tcp_recv_round.
  destruct (Z.eqb_spec (s#T_rb_len) 0) as [Ez|Nz].
  { unfold truth at 1. destruct (Z.eqb_spec (s#T_err) 0) as [Ee|Ne]; cbn [negb].
    2:{ eexists. split; [done|]. cbn beta iota. rewrite app_nil_r. split; [done|]. right. do 3 (split; [done|]). by right; left. }
    destruct (_ || _ || _) eqn:Hb.
    { eexists. split; [done|]. cbn beta iota. rewrite app_nil_r. split; [done|]. right. do 3 (split; [done|]). right; right.
      do 2 (split; [done|]). apply orb_prop in Hb as [Hb|Hb%Z.eqb_eq]; [|auto]. apply orb_prop in Hb as [Hb|Hb]; [|auto].
      left. intros E. by rewrite E in Hb. }
    assert (forall v, v < 0 -> cinv q p (rd ++ []) s /\ (v = len (@nil Z) /\ 0 < v <= n \/ s#T_rb_len = 0 /\ s = s /\ @nil Z = [] /\
      (v < 0 \/ s#T_err <> 0 /\ v = - s#T_err \/
       s#T_err = 0 /\ v = 0 /\ (s#T_fin_rcvd <> 0 \/ sh = true \/ s#T_state = TCP_CLOSED)))) as K
      by (intros v Hv; rewrite app_nil_r; split; [done|]; right; do 3 (split; [done|]); by left).
    destruct dw; [eexists; split; [done|]; by apply K|]. destruct (truth deadline); [|by eexists].
    destruct (_ <=? _); [eexists; split; [done|]; by apply K|by eexists]. }
  destruct (c_rcv _ _ _ _ C) as [got R]. pose proof (r_len _ _ _ _ R) as RL. pose proof (r_head _ _ _ _ R) as RH.
  pose proof (r_buf _ _ _ _ R) as RB. cbn zeta. set (m := if _ <? _ then _ else _).
  assert (Hm : 0 < m <= n /\ m <= s#T_rb_len) by (subst m; destruct (Z.ltb_spec n (s#T_rb_len)); lia).
  destruct (rb (et s)) as [b|] eqn:Eb; [|lia]. destruct RB as [Lb Eg]. cbn [mbind option_bind].
  destruct (rb_out_ok (Z.to_nat m) b (s#T_rb_head) (s#T_rb_len) Lb RH ltac:(lia)) as (bs & h' & -> & Hh' & Ll & Er).
  cbn [mbind option_bind]. eexists. split; [reflexivity|]. cbn beta iota. rewrite Z2Nat.id in * by lia. split; [|left; lia].
  set (s1 := put T_rb_len _ _).
  assert (R1 : rcv_ok p (rd ++ bs) (et s1) got).
  { assert (EL : s1#T_rb_len = s#T_rb_len - m) by (cbn; apply u32_small; unfold TCP_BUF_SIZE in RL; lia).
    destruct R. constructor; try done; [rewrite EL; lia|].
    change (rb (et s1)) with (rb (et s)). rewrite Eb. split; [done|]. change (s1#T_rb_head) with h'. rewrite EL, Eg, Er. by rewrite app_assoc. }
  assert (C1 : cinv q p (rd ++ bs) s1) by (eapply cinv_rcv; [exact C|exact R1|by intros []|done..]). clearbody s1.
  destruct (_ && _ && _); auto with tcp.
Qed.

(** The owner closes its direction: nothing happens unless it is open. *)
Definition closing (s : est) (q : stream) : stream :=
  if (s#T_state =? TCP_ESTABLISHED) || (s#T_state =? TCP_CLOSE_WAIT) then stream_close q else q.

Lemma sync_close q t ua na st' :
  sync q t ua na ->
  fld t T_state = TCP_ESTABLISHED /\ st' = TCP_FIN_WAIT_1 \/ fld t T_state = TCP_CLOSE_WAIT /\ st' = TCP_LAST_ACK ->
  sync (stream_close q) (tset T_state st' (tset T_fin_queued 1 t)) ua na.
Proof.
  intros Y HS. destruct (stream_open _ _ _ _ Y) as (Fq & Fs & Hn & Hw); [destruct HS as [[? _]|[? _]]; auto|].
  destruct Y. destruct HS as [[HS ->]|[HS ->]]; constructor; cbn; try done; auto; by intros [|].
Qed.

Lemma queue_fin_ok q p rd s :
  cinv q p rd s -> exists s', queue_fin s = Some s' /\ cinv (closing s q) p rd s' /\ extends q (closing s q) /\
    (s'#T_state = TCP_CLOSED -> closing s q = q).
Proof.
  intros C. unfold queue_fin, closing.
  assert (forall st', s#T_state = TCP_ESTABLISHED /\ st' = TCP_FIN_WAIT_1 \/ s#T_state = TCP_CLOSE_WAIT /\ st' = TCP_LAST_ACK ->
    exists s', tcp_output (put T_state st' (put T_fin_queued 1 s)) = Some s' /\ cinv (stream_close q) p rd s' /\
      extends q (stream_close q) /\ (s'#T_state = TCP_CLOSED -> stream_close q = q)) as K.
  { intros st' HS. destruct C as [S [got R] W M A].
    destruct S as [E|b [E|E] ? ? ? ? ? ? ? ? ? ?|ua na Y]; [destruct HS as [[K _]|[K _]]; rewrite K in E; done..|].
    destruct (stream_open _ _ _ _ Y) as (Fq & _); [destruct HS as [[? _]|[? _]]; auto|].
    pose proof (sync_close _ _ _ _ st' Y HS) as Y'.
    destruct (tcp_output_ok (stream_close q) p rd (put T_state st' (put T_fin_queued 1 s))) as (s' & ? & ? & E');
      [|exists s'; split_and!; [done..|by apply extends_close|]; rewrite E'; destruct HS as [[_ ->]|[_ ->]]; done].
    constructor; try done; [by eapply Snd_sync| |eapply acts_mono; [by apply extends_close|done]].
    exists got. destruct R as [? ? RN RS ? ? ? ?]. constructor; try done; cbn; destruct HS as [[HS ->]|[HS ->]]; rewrite HS in *; try done;
      right; right; destruct RN as [?|[?|?]]; done. }
  destruct (Z.eqb_spec (s#T_state) TCP_ESTABLISHED) as [E|_]; cbn [orb]; [apply K; auto|].
  destruct (Z.eqb_spec (s#T_state) TCP_CLOSE_WAIT) as [E|_]; cbn [orb]; [apply K; auto|]. by exists s.
Qed.

Lemma conn_input_ok q p rd s h :
  cinv q p rd s -> s#T_state <> TCP_CLOSED -> seg_ok p h -> short p ->
  exists s', conn_input h s = Some s' /\ cinv q p rd s'.
Proof.
  intros C HC (P & Ha & Hw) Sp. unfold conn_input. destruct (Z.eqb_spec (s#T_state) TCP_SYN_SENT).
  - eexists. split; [done|]. apply handle_syn_sent_ok; try done. apply P.
  - by apply handle_synchronized_ok.
Qed.

Lemma conn_close_ok q p rd s :
  cinv q p rd s ->
  exists r, conn_close s = Some r /\
    match r with
    | None => True
    | Some s' => let q' := if s'#T_state =? TCP_CLOSED then q else closing s q in cinv q' p rd s' /\ extends q q'
    end.
Proof.
  intros C. unfold conn_close. destruct (_ || _); [by eexists|]. unfold orphan_close. cbn zeta.
  set (s1 := put T_tw_deadline _ _).
  assert (C1 : cinv q p rd s1) by (by repeat (apply cinv_put; [done|])).
  assert (E1 : closing s1 q = closing s q) by done. clearbody s1.
  destruct (_ && _); cbn [mbind option_bind].
  - eexists. split; [done|]. split; [|reflexivity]. apply cinv_close, cinv_xmit; [by apply pay_nothing|done].
  - destruct (queue_fin_ok q p rd s1 C1) as (s2 & -> & C2 & X & HC). rewrite E1 in *. cbn [mbind option_bind].
    eexists. split; [done|]. cbn beta iota zeta. destruct (Z.eqb_spec (s2#T_state) TCP_CLOSED) as [E|_]; [|by split]. rewrite (HC E) in C2. by split.
Qed.

(** * Opening *)

(** A block with its two buffers. *)
Lemma rcv_fresh p t b :
  fld t T_fin_rcvd = 0 -> fld t T_rb_len = 0 -> fld t T_rb_head = 0 -> rb t = Some b -> len b = TCP_BUF_SIZE ->
  0 <= fld t T_rcv_nxt < 2 ^ 32 ->
  fld t T_state = TCP_SYN_SENT \/ fld t T_rcv_nxt = u32 (s_iss p + 1) -> rcv_ok p [] t [].
Proof.
  intros HF HL HH HB Lb HN HR. constructor; rewrite ?HF, ?HL, ?HH, ?HB; try done; [apply prefix_nil|by left|].
  destruct HR as [?|HR]; [by left|]. right; right. change (len (@nil Z)) with 0. by rewrite HR, !Z.add_0_r.
Qed.

Lemma connect_syn_ok p sock cond lip lport rip rport iss b1 b2 segs now :
  len b1 = TCP_BUF_SIZE -> len b2 = TCP_BUF_SIZE ->
  cinv (Stream iss [] false) p [] (connect_syn sock cond lip lport rip rport iss (Est (tcb_init (Some b1) (Some b2)) [] segs now)).
Proof.
  intros L1 L2. unfold connect_syn. cbn zeta. set (s := put T_cond cond _).
  assert (C : cinv (Stream iss [] false) p [] s).
  { constructor; try done; [by apply (Snd_syn _ _ b1); try done; left|].
    exists []. apply (rcv_fresh _ _ b2); try done. by left. }
  apply cinv_xmit; [|by apply cinv_arm]. apply pay_syn; [done|]. by rewrite arm_frame.
Qed.

Lemma syn_child_ok p l lport iss h b1 b2 segs now :
  len b1 = TCP_BUF_SIZE -> len b2 = TCP_BUF_SIZE -> g_seq h = s_iss p -> 0 <= g_win h < 2 ^ 16 ->
  cinv (Stream iss [] false) p [] (syn_child l lport iss h (Est (tcb_init (Some b1) (Some b2)) [] segs now)).
Proof.
  intros L1 L2 Hs Hw. unfold syn_child. cbn zeta. set (s := put T_snd_wnd _ _). set (s2 := put T_parent l _).
  assert (C : cinv (Stream iss [] false) p [] s2).
  { assert (K : take_mss (g_opts h) s = s \/ exists v, 1 <= v /\ take_mss (g_opts h) s = put T_peer_mss v s).
    { unfold take_mss. pose proof (parse_mss_nonneg (length (g_opts h)) (g_opts h)). unfold opt_mss, truth.
      destruct (Z.eqb_spec (parse_mss (length (g_opts h)) (g_opts h)) 0); cbn [negb]; [by left|]. right. eexists. split; [|done].
      unfold TCP_MSS, ETH_MTU. destruct (_ <? _); lia. }
    subst s2. destruct K as [-> |(v & Hv & ->)]; (constructor; try done; [by apply (Snd_syn _ _ b1); try done; right|]);
      exists []; apply (rcv_fresh _ _ b2); try done; try apply u32_range; right; cbn; by rewrite Hs. }
  apply cinv_xmit; [|by apply cinv_arm]. apply pay_syn; [done|]. rewrite arm_frame by done.
  destruct (c_snd _ _ _ _ C) as [E|? ? ? ? Hi ? ? ? ? ? ? ?|? ? Y]; [done|done|]. pose proof (y_state _ _ _ _ Y) as B. cbn in B. by destruct B.
Qed.
