(* ===== verification/TcpWorld.v ===== *)
(** TCP, two ends: [kernel/net/tcp.c] on both sides of a network that loses,
    repeats and reorders segments, and into which anybody may put segments that
    carry nothing.

    An operation is one call of a routine of [Tcp] on one side: a segment arrives,
    the timer runs, the owner sends, receives, shuts down or closes. The order of
    operations, the outcome of every kmalloc and the clock are those of the run. *)

From stdpp Require Import base numbers option list.
From Stdlib Require Import ZArith Lia.
From S2P Require Import Prelude Buf Inet Tcp TcpFrame TcpStream.

(** * The world *)

(** A side: its control block, [None] when it is freed; what its owner has sent;
    what its owner has read. *)
Record side := Side { blk : option tcb; str : stream; got : list Z }.

(** [net_ab], [net_ba]: every segment sent so far. One may arrive at any time,
    any number of times, or never. *)
Record world := World { wa : side; wb : side; net_ab : list segment; net_ba : list segment }.

Inductive op :=
  | Op_input (i : nat)
  | Op_forge (h : segment)
  | Op_timer
  | Op_accept (sock cond : Z)
  | Op_send (buf : list Z) (done deadline : Z) (dontwait : bool)
  | Op_recv (n deadline : Z) (dontwait shut_rd : bool)
  | Op_shutdown
  | Op_close.

Definition sent (s : est) : list segment := omap (fun a => match a with Xmit h => Some h | _ => None end) (acts s).

(** A segment without SYN, FIN and payload. *)
Definition bare (h : segment) : bool :=
  negb (flag (g_flags h) TCP_SYN) && negb (flag (g_flags h) TCP_FIN) && (len (g_data h) =? 0) &&
  (0 <=? g_ack h) && (g_ack h <? 2 ^ 32) && (0 <=? g_win h) && (g_win h <? 2 ^ 16).

(** A segment arrives: find_conn does not see a closed block. *)
Definition deliver (h : segment) (sd : side) (s : est) : option (side * list segment) :=
  if s#T_state =? TCP_CLOSED then Some (sd, []) else
  s ← conn_input h s; Some (Side (Some (et s)) (str sd) (got sd), sent s).

(** One operation on a side; [None] is a fault, an operation that does not apply
    changes nothing. A call needs a socket, and less than 4 GiB are sent. *)
Definition side_run (inbox : list segment) (o : op) (oks : list bool) (now : Z) (sd : side) : option (side * list segment) :=
  match blk sd with
  | None => Some (sd, [])
  | Some t =>
      let s := Est t [] oks now in
      let q := str sd in
      match o with
      | Op_input i => match inbox !! i with Some h => deliver h sd s | None => Some (sd, []) end
      | Op_forge h => if bare h then deliver h sd s else Some (sd, [])
      | Op_timer => '(s, reap) ← timer_tcb s; Some (Side (if (reap : bool) then None else Some (et s)) q (got sd), sent s)
      | Op_accept sock cond =>
          if truth (s#T_parent) && truth sock
          then Some (Side (Some (et (put T_cond cond (put T_sock sock (put T_parent 0 s))))) q (got sd), [])
          else Some (sd, [])
      | Op_send buf done deadline dontwait =>
          if truth (s#T_sock) && (0 <=? done) && (done <=? len buf) && (len (s_data q) + len buf + 2 <? 2 ^ 32) then
            r ← tcp_send_round buf done deadline dontwait s;
            match r with
            | Send_more d s => Some (Side (Some (et s)) (stream_send q (ztake (d - done) (zdrop done buf))) (got sd), sent s)
            | _ => Some (sd, [])
            end
          else Some (sd, [])
      | Op_recv n deadline dontwait shut_rd =>
          if (0 <? n) && truth (s#T_sock) then
            r ← tcp_recv_round n deadline dontwait shut_rd s;
            match r with
            | Recv_ret _ bs s => Some (Side (Some (et s)) q (got sd ++ bs), sent s)
            | Recv_waits _ _ => Some (sd, [])
            end
          else Some (sd, [])
      | Op_shutdown =>
          if truth (s#T_sock)
          then s' ← queue_fin s; Some (Side (Some (et s')) (closing s q) (got sd), sent s') else Some (sd, [])
      | Op_close =>
          if negb (truth (s#T_sock)) then Some (sd, []) else
          r ← conn_close s;
          match r with
          | None => Some (Side None q (got sd), [])
          | Some s' => Some (Side (Some (et s')) (if s'#T_state =? TCP_CLOSED then q else closing s q) (got sd), sent s')
          end
      end
  end.

(** [who] is true for the side [wa]. *)
Definition world_run (who : bool) (o : op) (oks : list bool) (now : Z) (w : world) : option world :=
  if who then '(sd, l) ← side_run (net_ba w) o oks now (wa w); Some (World sd (wb w) (net_ab w ++ l) (net_ba w))
  else '(sd, l) ← side_run (net_ab w) o oks now (wb w); Some (World (wa w) sd (net_ab w) (net_ba w ++ l)).

Inductive reachable (w0 : world) : world -> Prop :=
  | Reach_here : reachable w0 w0
  | Reach_step w w' who o oks now : reachable w0 w -> world_run who o oks now w = Some w' -> reachable w0 w'.

(** The side that opens: tcp_connect up to its wait. *)
Definition opener (lip lport rip rport iss sock cond : Z) (b1 b2 : list Z) (oks : list bool) (now : Z) : est :=
  connect_syn sock cond lip lport rip rport iss (Est (tcb_init (Some b1) (Some b2)) [] oks now).

(** The other: handle_listen on the SYN [h]. *)
Definition opened (l iss : Z) (h : segment) (b1 b2 : list Z) (oks : list bool) (now : Z) : est :=
  syn_child l (g_dport h) iss h (Est (tcb_init (Some b1) (Some b2)) [] oks now).

(** A connection that begins: the SYN has arrived. *)
Definition connecting (ea eb : est) (issa issb : Z) : world :=
  World (Side (Some (et ea)) (Stream issa [] false) []) (Side (Some (et eb)) (Stream issb [] false) []) (sent ea) (sent eb).

Inductive opening : world -> Prop :=
  | Opening lip lport rip rport issa issb sock cond l h ba1 ba2 bb1 bb2 oksa oksb nowa nowb :
      len ba1 = TCP_BUF_SIZE -> len ba2 = TCP_BUF_SIZE -> len bb1 = TCP_BUF_SIZE -> len bb2 = TCP_BUF_SIZE ->
      0 <= issa < 2 ^ 32 -> 0 <= issb < 2 ^ 32 -> sock <> 0 ->
      let ea := opener lip lport rip rport issa sock cond ba1 ba2 oksa nowa in
      h ∈ sent ea ->
      opening (connecting ea (opened l issb h bb1 bb2 oksb nowb) issa issb).

(** A list of operations, for running examples. *)
Fixpoint run (os : list (bool * op * Z)) (w : world) : option world :=
  match os with
  | [] => Some w
  | (who, o, now) :: os => w ← world_run who o [] now w; run os w
  end.

Lemma run_reachable w0 os w w' : reachable w0 w -> run os w = Some w' -> reachable w0 w'.
Proof.
  revert w. induction os as [|[[who o] now] os IH]; intros w R E; cbn [run] in E; [by injection E as <-|].
  destruct (world_run who o [] now w) as [w1|] eqn:E1; [|done]. cbn [mbind option_bind] in E.
  eapply IH; [|exact E]. by eapply Reach_step.
Qed.

Create HintDb quiet.

(** * The end of the stream *)

(** When the FIN of the peer was taken, or the connection ended otherwise. *)
Definition eof_ok (t : tcb) : Prop :=
  (TCP_CLOSE_WAIT <= fld t T_state -> fld t T_fin_rcvd <> 0) /\
  (fld t T_state = TCP_CLOSED -> fld t T_err <> 0 \/ fld t T_sock = 0 /\ fld t T_parent = 0 \/ fld t T_fin_rcvd <> 0) /\
  (fld t T_parent <> 0 -> fld t T_sock = 0) /\
  (rb t = None -> fld t T_sock = 0 /\ fld t T_parent = 0).

Definition eof_field (f : tfield) : bool :=
  match f with T_state | T_fin_rcvd | T_err | T_sock | T_parent => true | _ => false end.

Lemma eof_out f : out_field f = true -> eof_field f = false.
Proof. by destruct f. Qed.

(** [s'] differs from [s] in other fields only, and has its ring if [s] has. *)
Abbreviation quiet := (keeps eof_field).

Lemma eof_quiet s s' : quiet s s' -> eof_ok (et s) -> eof_ok (et s').
Proof. intros [Q Qb] (A & B & C & D). unfold eof_ok. rewrite !Q by done. split_and!; try done. intros E. apply D, Qb, E. Qed.

Definition quiet_refl := fields_keep_refl eof_field.
Definition quiet_put := keeps_put eof_field.
Definition quiet_signal := keeps_signal eof_field.
Definition quiet_arm := keeps_arm eof_field eof_out.
Definition quiet_xmit := keeps_xmit eof_field eof_out.
Definition quiet_ack := keeps_ack eof_field eof_out.
Definition quiet_output := keeps_output eof_field eof_out.
Definition quiet_go_back := keeps_go_back eof_field eof_out.

#[export] Hint Resolve quiet_refl keeps_put_sb keeps_put_rb keeps_emit quiet_signal quiet_arm quiet_xmit quiet_ack keeps_mss : quiet.
#[export] Hint Extern 1 (quiet _ (put _ _ _)) => apply quiet_put; [reflexivity|] : quiet.

Lemma quiet_accept s x x' d : accept_data d x = Some x' -> quiet s x -> quiet s x'.
Proof.
  unfold accept_data. destruct (rb _); [|by intros [= <-]]. destruct (bsub _ _ _); [|done]. cbn [mbind option_bind].
  destruct (rb_in _ _ _); [|done]. intros [= <-]. auto with quiet.
Qed.

Ltac st_const :=
  unfold TCP_CLOSED, TCP_LISTEN, TCP_SYN_SENT, TCP_SYN_RCVD, TCP_ESTABLISHED, TCP_FIN_WAIT_1, TCP_FIN_WAIT_2,
    TCP_CLOSE_WAIT, TCP_CLOSING, TCP_LAST_ACK, TCP_TIME_WAIT in *.

Ltac fcbn := cbn [put put_sb put_rb with_tcb et tset fld tf_eqb tf_id Nat.eqb].

(** A state before the FIN of the peer. *)
Lemma eof_state s v : TCP_CLOSED < v < TCP_CLOSE_WAIT -> eof_ok (et s) -> eof_ok (et (put T_state v s)).
Proof. intros Hv (A & B & C & D). split_and!; fcbn; st_const; [lia|lia|done..]. Qed.

(** A state after it. *)
Lemma eof_after s v : s#T_fin_rcvd <> 0 -> eof_ok (et s) -> eof_ok (et (put T_state v s)).
Proof. intros HF (A & B & C & D). split_and!; fcbn; auto. Qed.

Lemma eof_abort s e : e <> 0 -> eof_ok (et s) -> eof_ok (et (tcp_abort e s)).
Proof.
  intros He (A & B & C & D). unfold tcp_abort.
  assert (K : eof_ok (et (put T_rtx_deadline 0 (put T_state TCP_CLOSED (put T_err e s))))).
  { split_and!; fcbn; st_const; [lia|auto|done..]. }
  set (x := put T_rtx_deadline _ _) in *. clearbody x. zif; (eapply eof_quiet; [|exact K]); auto with quiet.
Qed.

Lemma eof_ack_new ack s s' : ack_new ack s = Some s' -> eof_ok (et s) -> eof_ok (et s').
Proof.
  unfold ack_new. cbn zeta. intros H K. destruct (sb_drop _ _) as [s1|] eqn:E; [|done]. cbn [mbind option_bind] in H.
  apply sb_drop_frame in E as [b ->]. injection H as <-. eapply eof_quiet; [apply quiet_signal, quiet_refl|].
  set (x := put T_rtx_deadline _ _). assert (Kx : eof_ok (et x)) by (eapply (eof_quiet s); [unfold x; auto 12 with quiet|done]).
  assert (Ex : x#T_state = s#T_state) by done. clearbody x. rewrite <-Ex.
  destruct (_ && _); [|done]. pose proof (proj1 Kx) as A. st_const.
  destruct (Z.eqb_spec (x#T_state) 5); [apply eof_state; [st_const; lia|done]|].
  destruct (Z.eqb_spec (x#T_state) 8); [eapply eof_quiet; [apply quiet_put, quiet_refl; done|]; apply eof_after; [apply A; lia|done]|].
  destruct (Z.eqb_spec (x#T_state) 9); [apply eof_after; [apply A; lia|done]|done].
Qed.

Lemma eof_process_ack ack w pure s s' : process_ack ack w pure s = Some s' -> eof_ok (et s) -> eof_ok (et s').
Proof.
  unfold process_ack. intros H K.
  destruct (seq_gt ack (s#T_snd_nxt)); [injection H as <-; eapply (eof_quiet s); [auto with quiet|done]|].
  destruct (_ && _ && _ && _).
  { cbn zeta in H. destruct (_ =? 3); [|injection H as <-; eapply (eof_quiet s); [auto with quiet|done]].
    eapply (eof_quiet s); [eapply quiet_go_back; [exact H|auto with quiet]|done]. }
  destruct (seq_gt ack (s#T_snd_una)).
  - destruct (ack_new _ _) as [s1|] eqn:E; [|done]. injection H as <-. eapply eof_quiet; [apply quiet_put, quiet_refl; done|].
    by eapply eof_ack_new.
  - injection H as <-. eapply (eof_quiet s); [auto with quiet|done].
Qed.

Lemma eof_take_fin s : eof_ok (et s) -> eof_ok (et (take_fin s)).
Proof.
  intros K. unfold take_fin. cbn zeta. set (x := put T_fin_rcvd 1 _).
  assert (F : x#T_fin_rcvd <> 0) by done.
  assert (Kx : eof_ok (et x)) by (destruct K as (A & B & C & D); split_and!; fcbn; auto). clearbody x.
  assert (W : eof_ok (et (enter_time_wait x))) by (eapply eof_quiet; [apply quiet_put, quiet_refl; done|]; by apply eof_after).
  repeat zif; try done; by apply eof_after.
Qed.

Lemma eof_payload h s r : take_payload h s = Some r -> eof_ok (et s) -> eof_ok (et (match r with inl x | inr x => x end)).
Proof.
  unfold take_payload. cbn zeta. intros H K. destruct (_ || _) in H; [|by injection H as <-].
  destruct (negb _) in H; [injection H as <-; eapply (eof_quiet s); [auto with quiet|done]|].
  match type of H with (?e ≫= _) = _ => destruct e as [x|] eqn:E; [|done] end. cbn [mbind option_bind] in H. injection H as <-.
  assert (Kx : eof_ok (et x)).
  { destruct (_ && _ && _) in E; [|by injection E as <-]. eapply (eof_quiet s); [eapply quiet_accept; [exact E|]|]; auto with quiet. }
  eapply eof_quiet; [apply quiet_signal, quiet_ack, quiet_refl|]. zif; [by apply eof_take_fin|].
  zif; [eapply eof_quiet; [apply quiet_put, quiet_refl; done|done]|done].
Qed.

Lemma eof_input h s s' : conn_input h s = Some s' -> eof_ok (et s) -> eof_ok (et s').
Proof.
  unfold conn_input. intros H K. destruct (_ =? TCP_SYN_SENT).
  { injection H as <-. unfold handle_syn_sent. cbn zeta.
    destruct (flag _ TCP_ACK && negb _); [zif; [eapply (eof_quiet s); [|done]; unfold tcp_rst_raw; auto with quiet|done]|].
    destruct (_ && flag _ TCP_RST); [by apply eof_abort|]. destruct (negb _ && flag _ TCP_RST); [done|].
    destruct (negb _); [done|]. zif; [|eapply (eof_quiet s); [auto 8 with quiet|done]].
    eapply eof_quiet; [apply quiet_signal, quiet_ack, quiet_refl|].
    do 3 (eapply eof_quiet; [apply quiet_put, quiet_refl; done|]). apply eof_state; [st_const; lia|].
    eapply (eof_quiet s); [auto 12 with quiet|done]. }
  unfold handle_synchronized in H. cbn zeta in H.
  destruct (flag _ TCP_RST) in H.
  { injection H as <-. unfold take_rst. cbn zeta. destruct (seq_ge _ _ && _); [|done]. destruct (_ && truth _) eqn:Hp; [|by apply eof_abort].
    destruct K as (A & B & C & D). apply andb_prop in Hp as [_ Hp].
    assert (s#T_sock = 0) by (apply C; intros E; by rewrite E in Hp). split_and!; fcbn; st_const; auto; lia. }
  destruct (flag _ TCP_SYN) in H; [destruct (_ && _) in H; injection H as <-; eapply (eof_quiet s); auto with quiet|].
  destruct (negb _) in H; [by injection H as <-|].
  destruct (_ && negb _) in H; [injection H as <-; eapply (eof_quiet s); [unfold tcp_rst_raw; auto with quiet|done]|].
  match type of H with (?e ≫= _) = _ => destruct e as [r|] eqn:E; [|done] end. cbn [mbind option_bind] in H.
  assert (Kr : eof_ok (et (match r with inl x | inr x => x end))).
  { destruct (_ =? TCP_SYN_RCVD) in E.
    - injection E as <-. unfold establish. cbn zeta. set (x := put T_state TCP_ESTABLISHED _).
      assert (Kx : eof_ok (et x)).
      { unfold x. apply eof_state; [st_const; lia|]. eapply (eof_quiet s); [auto 8 with quiet|done]. }
      clearbody x. zif; [eapply (eof_quiet x); [auto 8 with quiet|done]|done].
    - match type of E with (?e ≫= _) = _ => destruct e as [x|] eqn:E1; [|done] end. cbn [mbind option_bind] in E. injection E as <-.
      pose proof (eof_process_ack _ _ _ _ _ E1 K). zif; [eapply eof_quiet; [apply quiet_signal, quiet_refl|done]|done]. }
  destruct r as [x|x]; [by injection H as <-|].
  destruct (take_payload h x) as [r|] eqn:E2; [|done]. cbn [mbind option_bind] in H. pose proof (eof_payload _ _ _ E2 Kr) as K2.
  destruct r as [y|y]; [by injection H as <-|]. eapply eof_quiet; [eapply quiet_output; [exact H|apply quiet_refl]|done].
Qed.

Lemma abort_owner e s : (tcp_abort e s)#T_sock = s#T_sock /\ (tcp_abort e s)#T_parent = s#T_parent.
Proof. unfold tcp_abort, tcb_signal. repeat zif; done. Qed.

Lemma eof_rtx s x :
  timer_rtx s = Some x -> eof_ok (et s) ->
  eof_ok (et x) /\ x#T_sock = s#T_sock /\ (s#T_parent = 0 -> x#T_parent = 0).
Proof.
  unfold timer_rtx. intros E K. destruct (_ && _) in E; [|by injection E as <-]. cbn zeta in E.
  destruct (_ <? _) in E.
  - injection E as <-. set (y := put T_rtx_count _ _).
    assert (Ky : eof_ok (et y)) by (eapply (eof_quiet s); [unfold y; auto with quiet|done]).
    assert (Ey : y#T_sock = s#T_sock /\ y#T_parent = s#T_parent) by done. clearbody y. destruct Ey as [<- <-].
    destruct (abort_owner ETIMEDOUT y) as [E1 E2].
    pose proof (eof_abort y ETIMEDOUT ltac:(done) Ky) as Ka. zif; [|by rewrite E1, E2].
    destruct Ka as (A & B & C & D). split; [|done]. split_and!; fcbn; try done.
    + intros HC. destruct (B HC) as [?|[[? ?]|?]]; auto.
    + intros HC. by destruct (D HC).
  - set (y := emit _ _) in E. assert (Qy : quiet s y) by (unfold y; auto 8 with quiet). clearbody y.
    assert (Qx : quiet s x).
    { destruct (_ =? TCP_SYN_SENT) in E; [injection E as <-; auto with quiet|].
      destruct (_ =? TCP_SYN_RCVD) in E; [injection E as <-; auto with quiet|]. by eapply quiet_go_back. }
    split; [by eapply eof_quiet|]. destruct Qx as [Q _]. by rewrite !Q.
Qed.

Lemma eof_timer s s' reap : timer_tcb s = Some (s', reap) -> eof_ok (et s) -> eof_ok (et s').
Proof.
  unfold timer_tcb. cbn zeta. intros H K. destruct (timer_rtx s) as [x|] eqn:E; [|done]. cbn [mbind option_bind] in H.
  destruct (eof_rtx _ _ E K) as (Kx & Es & Ep).
  injection H as <- _. set (y := if (_ =? TCP_TIME_WAIT) && _ then _ else _).
  assert (Ky : eof_ok (et y) /\ y#T_sock = x#T_sock /\ y#T_parent = x#T_parent).
  { unfold y. destruct (_ && _) eqn:Hb; [|done]. apply andb_prop in Hb as [Hb%Z.eqb_eq _].
    split; [|unfold tcb_signal; by destruct (truth _)].
    eapply eof_quiet; [apply quiet_signal, quiet_refl|]. apply eof_after; [|done]. apply (proj1 Kx). rewrite Hb. done. }
  destruct Ky as (Ky & Esy & Epy). clearbody y.
  match goal with |- eof_ok (et (if ?c then _ else _)) => destruct c eqn:Hb; [|done] end.
  unfold is_orphan in Hb. rewrite !andb_true_iff, !Z.eqb_eq in Hb. destruct Hb as [[[[Os Op] _] _] _].
  destruct Ky as (A & B & C & D). split_and!; fcbn; try done. intros _. rewrite Esy, Epy, Es. auto.
Qed.

Lemma eof_queue_fin s s' : queue_fin s = Some s' -> eof_ok (et s) -> eof_ok (et s').
Proof.
  unfold queue_fin. intros H K.
  destruct (_ =? TCP_ESTABLISHED).
  { eapply eof_quiet; [eapply quiet_output; [exact H|apply quiet_refl]|]. apply eof_state; [st_const; lia|].
    eapply (eof_quiet s); [auto with quiet|done]. }
  destruct (Z.eqb_spec (s#T_state) TCP_CLOSE_WAIT) as [E|]; [|by injection H as <-].
  eapply eof_quiet; [eapply quiet_output; [exact H|apply quiet_refl]|].
  apply eof_after; [apply (proj1 K); by rewrite E|]. eapply (eof_quiet s); [auto with quiet|done].
Qed.

Lemma eof_close s s' : conn_close s = Some (Some s') -> s#T_sock <> 0 -> eof_ok (et s) -> eof_ok (et s').
Proof.
  unfold conn_close. intros H HO K. destruct (_ || _); [done|]. unfold orphan_close in H. cbn zeta in H.
  set (x := put T_tw_deadline _ _) in H.
  assert (Kx : eof_ok (et x) /\ x#T_sock = 0 /\ x#T_parent = 0).
  { destruct K as (A & B & C & D). assert (s#T_parent = 0) by (destruct (Z.eq_dec (s#T_parent) 0); [done|]; by destruct HO; apply C).
    split; [|done]. split_and!; fcbn; auto. }
  destruct Kx as (Kx & Ex & Ep). clearbody x. destruct (_ && _) in H; cbn [mbind option_bind] in H.
  - injection H as <-. set (y := tcp_xmit _ _ _ _ _). assert (Q : quiet x y) by (unfold y; auto with quiet). clearbody y.
    destruct (eof_quiet _ _ Q Kx) as (A & B & C & D). destruct Q as [Q _].
    rewrite <-(Q T_sock) in Ex by done. rewrite <-(Q T_parent) in Ep by done. split_and!; fcbn; st_const; auto; lia.
  - destruct (queue_fin x) as [y|] eqn:E; [|done]. injection H as <-. by eapply eof_queue_fin.
Qed.

Lemma eof_send buf dn dl dw s d s' : tcp_send_round buf dn dl dw s = Some (Send_more d s') -> eof_ok (et s) -> eof_ok (et s').
Proof.
  unfold tcp_send_round. cbn zeta. intros H K. destruct (negb _) in H; [done|]. destruct (truth (s#T_err)) in H; [done|].
  destruct (_ && _) in H; [done|]. destruct (_ =? 0) in H.
  { destruct dw; [done|]. destruct (truth dl); [destruct (_ <=? _)|]; done. }
  destruct (bsub _ _ _); [|done]. cbn [mbind option_bind] in H. destruct (sb _); [|done]. cbn [mbind option_bind] in H.
  destruct (bblit _ _ _); [|done]. cbn [mbind option_bind] in H.
  destruct (tcp_output _) as [x|] eqn:E; [|done]. injection H as _ <-.
  eapply (eof_quiet s); [eapply quiet_output; [exact E|auto with quiet]|done].
Qed.

Lemma eof_recv n dl dw sh s v bs s' : tcp_recv_round n dl dw sh s = Some (Recv_ret v bs s') -> eof_ok (et s) -> eof_ok (et s').
Proof.
  unfold tcp_recv_round. cbn zeta. intros H K. destruct (_ =? 0) in H.
  { destruct (truth (s#T_err)); [by injection H as _ _ <-|]. destruct (_ || _ || _) in H; [by injection H as _ _ <-|].
    destruct dw; [by injection H as _ _ <-|]. destruct (truth dl); [destruct (_ <=? _) in H|]; try done; by injection H as _ _ <-. }
  destruct (rb _); [|done]. cbn [mbind option_bind] in H. destruct (rb_out _ _ _) as [[? ?]|]; [|done]. cbn [mbind option_bind] in H.
  injection H as _ _ <-. eapply (eof_quiet s); [|done]. destruct (_ && _ && _); auto with quiet.
Qed.

(** * The invariant of the world *)

Definition side_ok (p : stream) (sd : side) : Prop :=
  short (str sd) /\
  match blk sd with
  | Some t => cinv (str sd) p (got sd) (Est t [] [] 0) /\ eof_ok t
  | None => got sd `prefix_of` s_data p
  end.

Record world_ok (w : world) : Prop := {
  o_a : side_ok (str (wb w)) (wa w);
  o_b : side_ok (str (wa w)) (wb w);
  o_ab : Forall (seg_ok (str (wa w))) (net_ab w);
  o_ba : Forall (seg_ok (str (wb w))) (net_ba w)
}.

(** What was read is a prefix of what the peer sent. *)
Lemma cinv_read q p rd s : cinv q p rd s -> rd `prefix_of` s_data p.
Proof.
  intros C. destruct (c_rcv _ _ _ _ C) as [g R]. transitivity g; [|apply (r_prefix _ _ _ _ R)].
  pose proof (r_buf _ _ _ _ R) as RB. destruct (rb (et s)); destruct RB as [_ RB]; [|done]. rewrite RB. by eexists.
Qed.

Lemma cinv_start q p rd t oks now : cinv q p rd (Est t [] [] 0) -> cinv q p rd (Est t [] oks now).
Proof. intros []; by constructor. Qed.

Lemma sent_ok q p rd s : cinv q p rd s -> Forall (seg_ok q) (sent s).
Proof.
  intros C. pose proof (c_acts _ _ _ _ C) as A. unfold sent. induction A as [|a l Ha _ IH]; cbn; [constructor|].
  destruct a; [constructor; done|done..].
Qed.

(** A routine has run. *)
Definition ran (p : stream) (sd : side) (r : option (side * list segment)) : Prop :=
  exists sd' l, r = Some (sd', l) /\ side_ok p sd' /\ extends (str sd) (str sd') /\ Forall (seg_ok (str sd')) l.

Lemma ran_same p sd : side_ok p sd -> ran p sd (Some (sd, [])).
Proof. intros H. exists sd, []. split_and!; try done. Qed.

Lemma ran_some p sd q' g s :
  short q' -> cinv q' p g s -> eof_ok (et s) -> extends (str sd) q' -> ran p sd (Some (Side (Some (et s)) q' g, sent s)).
Proof.
  intros Hs C K X. eexists _, _. split; [done|]. split; [|split; [done|by eapply sent_ok]].
  split; [done|]. split; [|done]. destruct C. by constructor.
Qed.

Lemma deliver_ran p sd t oks now h :
  short p -> side_ok p sd -> blk sd = Some t -> seg_ok p h -> ran p sd (deliver h sd (Est t [] oks now)).
Proof.
  intros Sp O Eb Hh. pose proof O as [Sq C]. rewrite Eb in C. destruct C as [C K]. unfold deliver.
  destruct (Z.eqb_spec ((Est t [] oks now)#T_state) TCP_CLOSED) as [|N]; [by apply ran_same|].
  destruct (conn_input_ok _ _ _ (Est t [] oks now) h (cinv_start _ _ _ _ _ _ C) N Hh Sp) as (s' & E & C').
  rewrite E. cbn [mbind option_bind]. apply ran_some; try done. by eapply eof_input.
Qed.

Lemma short_send q bs : short q -> len (s_data q) + len bs + 2 < 2 ^ 32 -> short (stream_send q bs).
Proof. intros [Hi Hl] H. split; [done|]. cbn [stream_send s_data]. rewrite len_app. lia. Qed.

Lemma closing_short s q : short q -> short (closing s q).
Proof. intros H. unfold closing. by destruct (_ || _). Qed.

Lemma bare_ok p h : bare h = true -> seg_ok p h.
Proof.
  unfold bare. rewrite !andb_true_iff, !Z.ltb_lt, !Z.leb_le, Z.eqb_eq, !negb_true_iff.
  intros ((((((HY & HF) & HD) & B1) & B2) & B3) & B4).
  split; [|lia]. replace (g_data h) with (@nil Z); [by apply pay_nothing|]. symmetry. apply nil_length_inv. unfold len in HD. lia.
Qed.

(** Every operation returns and keeps the invariant of its side. *)
Lemma side_run_ok p inbox o oks now sd :
  short p -> side_ok p sd -> Forall (seg_ok p) inbox -> ran p sd (side_run inbox o oks now sd).
Proof.
  intros Sp O HI. pose proof O as [Sq C]. unfold side_run. destruct (blk sd) as [t|] eqn:Eb; [|by apply ran_same].
  destruct C as [C K]. pose proof (cinv_start _ _ _ _ oks now C) as Cs. cbn zeta. set (s := Est t [] oks now) in *.
  assert (Ks : eof_ok (et s)) by done.
  destruct o as [i|h| |sk cd|buf dn dl dw|n dl dw sh| |].
  - destruct (inbox !! i) as [h|] eqn:Ei; [|by apply ran_same]. apply deliver_ran; try done. by eapply Forall_lookup_1.
  - destruct (bare h) eqn:Hb; [|by apply ran_same]. apply deliver_ran; try done. by apply bare_ok.
  - destruct (timer_tcb_ok _ _ _ _ Cs) as (s' & reap & E & C'). rewrite E. cbn [mbind option_bind].
    pose proof (eof_timer _ _ _ E Ks) as K'. destruct reap; [|by apply ran_some].
    eexists _, _. split; [done|]. split; [split; [done|by eapply cinv_read]|]. split; [reflexivity|by eapply sent_ok].
  - zif; [|by apply ran_same]. apply (ran_some p sd (str sd) (got sd) (put T_cond cd (put T_sock sk (put T_parent 0 s)))); try done.
    + by repeat (apply cinv_put; [done|]).
    + rewrite andb_true_iff in Heqb. destruct Heqb as [Hp _]. destruct Ks as (A & B & D & R). split_and!; fcbn; try done.
      * intros HC. destruct (B HC) as [?|[[_ E]|?]]; [by left|by rewrite E in Hp|auto].
      * intros HC. destruct (R HC) as [_ E]. by rewrite E in Hp.
  - zif; [|by apply ran_same].
    assert (Hd : 0 <= dn <= len buf /\ len (s_data (str sd)) + len buf + 2 < 2 ^ 32).
    { rewrite !andb_true_iff, !Z.leb_le, Z.ltb_lt in Heqb. lia. }
    destruct (send_round_ok _ _ _ _ buf dn dl dw Cs ltac:(lia)) as (r & E & Hr). rewrite E. cbn [mbind option_bind].
    destruct r as [|d s'|]; [by apply ran_same| |by apply ran_same]. destruct Hr as (Fq & Hl & C').
    apply ran_some; [|done|by eapply eof_send|by apply extends_send].
    apply short_send; [done|]. rewrite len_ztake; [lia|]. rewrite len_zdrop; lia.
  - zif; [|by apply ran_same]. assert (Hn : 0 < n) by (rewrite andb_true_iff, Z.ltb_lt in Heqb; tauto).
    destruct (recv_round_ok _ _ _ _ n dl dw sh Cs Hn) as (r & E & Hr). rewrite E. cbn [mbind option_bind].
    destruct r as [v bs s'|]; [|by apply ran_same]. destruct Hr as [C' _]. apply ran_some; try done. by eapply eof_recv.
  - zif; [|by apply ran_same]. destruct (queue_fin_ok _ _ _ _ Cs) as (s' & E & C' & X & _). rewrite E. cbn [mbind option_bind].
    apply ran_some; try done; [by apply closing_short|by eapply eof_queue_fin].
  - unfold truth. destruct (Z.eqb_spec (s#T_sock) 0) as [|Ho]; cbn [negb]; [by apply ran_same|].
    destruct (conn_close_ok _ _ _ _ Cs) as (r & E & Hr). rewrite E. cbn [mbind option_bind]. destruct r as [s'|].
    + destruct Hr as [C' X]. apply ran_some; try done; [zif; [done|by apply closing_short]|by eapply eof_close].
    + eexists _, _. split; [done|]. split; [split; [done|by eapply cinv_read]|]. split; [reflexivity|constructor].
Qed.

Lemma side_ok_peer p p' sd : extends p p' -> side_ok p sd -> side_ok p' sd.
Proof.
  intros X [S C]. split; [done|]. destruct (blk sd); [destruct C as [C K]; split; [by eapply cinv_peer|done]|].
  transitivity (s_data p); [done|apply X].
Qed.

Lemma segs_mono q q' l : extends q q' -> Forall (seg_ok q) l -> Forall (seg_ok q') l.
Proof. intros X H. eapply Forall_impl; [exact H|]. intros h [P B]. split; [by eapply pay_ok_mono|done]. Qed.

Lemma world_run_ok who o oks now w : world_ok w -> exists w', world_run who o oks now w = Some w' /\ world_ok w'.
Proof.
  intros [A B AB BA]. unfold world_run. destruct who.
  - destruct (side_run_ok _ (net_ba w) o oks now _ (proj1 B) A BA) as (sd & l & -> & O & X & L). eexists. split; [done|].
    constructor; cbn; [done|by eapply side_ok_peer| |done]. apply Forall_app. split; [by eapply segs_mono|done].
  - destruct (side_run_ok _ (net_ab w) o oks now _ (proj1 A) B AB) as (sd & l & -> & O & X & L). eexists. split; [done|].
    constructor; cbn; [by eapply side_ok_peer|done|done|]. apply Forall_app. split; [by eapply segs_mono|done].
Qed.

Lemma opening_ok w : opening w -> world_ok w.
Proof.
  intros [lip lport rip rport issa issb sock cond l h ba1 ba2 bb1 bb2 oksa oksb nowa nowb L1 L2 L3 L4 Ia Ib Hs ea Hh].
  assert (Ca : cinv (Stream issa [] false) (Stream issb [] false) [] ea) by (by apply connect_syn_ok).
  pose proof (sent_ok _ _ _ _ Ca) as Sa. pose proof (proj1 (Forall_forall _ _) Sa h Hh) as (P & _ & Hw).
  assert (HY : flag (g_flags h) TCP_SYN = true).
  { subst ea. clear -Hh. revert Hh. unfold opener, connect_syn, tcp_xmit, kmalloc_seg, arm_rtx. cbn.
    destruct oksa as [|[] ?]; cbn; intros Hh; [inversion Hh as [|? ? ? K]; [done|inversion K]..|inversion Hh]. }
  destruct P as [PS _]. specialize (PS HY). set (eb := opened _ _ _ _ _ _ _).
  assert (Cb : cinv (Stream issb [] false) (Stream issa [] false) [] eb) by (by apply syn_child_ok).
  assert (Ka : eof_ok (et ea)).
  { eapply (eof_quiet (put T_sock sock (put T_state TCP_SYN_SENT (Est (tcb_init (Some ba1) (Some ba2)) [] oksa nowa)))).
    - subst ea. unfold opener, connect_syn. cbn zeta. apply quiet_xmit, quiet_arm. split; [by intros []|done].
    - split_and!; fcbn; st_const; cbn; done || lia. }
  assert (Kb : eof_ok (et eb)).
  { eapply (eof_quiet (put T_parent l (put T_state TCP_SYN_RCVD (Est (tcb_init (Some bb1) (Some bb2)) [] oksb nowb)))).
    - subst eb. unfold opened, syn_child. cbn zeta. apply quiet_xmit, quiet_arm. unfold take_mss.
      destruct (truth _); split; by intros [] || done.
    - split_and!; fcbn; st_const; cbn; done || lia. }
  assert (short (Stream issa [] false) /\ short (Stream issb [] false)) as [Sha Shb] by done.
  constructor; [split; [done|]; split; [|done]..|done|by eapply sent_ok]; [destruct Ca|destruct Cb]; by constructor.
Qed.

Lemma reachable_ok w0 w : opening w0 -> reachable w0 w -> world_ok w.
Proof.
  intros O R. induction R as [|w w' who o oks now _ IH E]; [by apply opening_ok|].
  destruct (world_run_ok who o oks now w IH) as (w1 & E1 & K). rewrite E in E1. by injection E1 as ->.
Qed.

(** * The theorems *)


(** No run makes a routine access memory outside a buffer or through a NULL
    one, or loop without end: every operation on every state returns. *)
Theorem tcp_never_faults w0 w who o oks now :
  opening w0 -> reachable w0 w -> world_run who o oks now w <> None.
Proof.
  intros O R E. destruct (world_run_ok who o oks now w (reachable_ok _ _ O R)) as (w1 & E1 & _). by rewrite E in E1.
Qed.

(** The ring of a block that has an owner. *)
Lemma owner_eof p q rd t n dl dw oks now bs s' :
  cinv q p rd (Est t [] [] 0) -> eof_ok t -> fld t T_sock <> 0 -> 0 < n ->
  tcp_recv_round n dl dw false (Est t [] oks now) = Some (Recv_ret 0 bs s') ->
  rd = s_data p /\ s_fin p = true.
Proof.
  intros C K HO Hn H. destruct (recv_round_ok _ _ _ _ n dl dw false (cinv_start _ _ _ _ oks now C) Hn) as (r & E & Hr).
  rewrite H in E. injection E as <-. destruct Hr as [_ Hr].
  destruct Hr as [[? ?]|(Ez & _ & _ & Hv)]; [lia|]. destruct Hv as [?|[[? ?]|(Ee & _ & Hf)]]; [lia..|].
  destruct K as (_ & B & _ & D). destruct (c_rcv _ _ _ _ C) as [g R].
  assert (F : fld t T_fin_rcvd <> 0).
  { destruct Hf as [?|[?|Hc]]; [done..|]. destruct (B Hc) as [?|[[? _]|?]]; done. }
  destruct (r_fin _ _ _ _ R) as [?|(_ & Eg & Fp)]; [done|]. split; [|done]. pose proof (r_buf _ _ _ _ R) as RB.
  cbn in RB. destruct (rb t); [|by destruct (D eq_refl)]. destruct RB as [_ RB]. cbn in Ez. rewrite Ez, ring_0, app_nil_r in RB. by rewrite <-RB.
Qed.


(** * A connection *)

(** A connection between sockets 7 and 8: the segment with the two bytes is lost
    once and arrives twice, then the sender closes. *)
Definition empty_buf : list Z := replicate (Z.to_nat TCP_BUF_SIZE) 0.
Definition demo_ea : est := opener 1 1000 2 80 4294967290 7 7 empty_buf empty_buf [] 0.
Definition demo_syn : segment := default (rst_segment 0 0 0 0 0 0 false) (head (sent demo_ea)).
Definition demo_w0 : world :=
  connecting demo_ea (opened 9 5000 demo_syn empty_buf empty_buf [] 1) 4294967290 5000.

Definition demo_ops : list (bool * op * Z) :=
  [(true, Op_input 0, 2); (false, Op_input 1, 3); (false, Op_accept 8 8, 4);
   (true, Op_send [104; 105] 0 0 false, 5); (true, Op_timer, 400); (false, Op_input 3, 401); (false, Op_input 3, 402);
   (true, Op_input 1, 403); (false, Op_recv 100 0 false false, 404); (true, Op_close, 405); (false, Op_input 4, 406)].

Lemma demo_opening : opening demo_w0.
Proof.
  unfold demo_w0, demo_ea. apply (Opening 1 1000 2 80 4294967290 5000 7 7 9 demo_syn); [vm_compute; reflexivity..|lia|lia|lia|].
  vm_compute. left.
Qed.

Definition demo_end : world := default demo_w0 (run demo_ops demo_w0).
Definition demo_tcb : tcb := default (tcb_init None None) (blk (wb demo_end)).

Lemma demo_reachable : reachable demo_w0 demo_end.
Proof.
  unfold demo_end. destruct (run demo_ops demo_w0) as [w|] eqn:E; [|apply Reach_here].
  eapply run_reachable; [apply Reach_here|exact E].
Qed.

Lemma demo_blk : blk (wb demo_end) = Some demo_tcb.
Proof.
  assert (H : match blk (wb demo_end) with Some _ => true | None => false end = true) by (vm_compute; reflexivity).
  unfold demo_tcb. destruct (blk (wb demo_end)); [reflexivity|discriminate].
Qed.

Lemma demo_fields : fld demo_tcb T_rb_len = 0 /\ fld demo_tcb T_err = 0 /\ fld demo_tcb T_fin_rcvd = 1 /\ fld demo_tcb T_sock = 8.
Proof. split_and!; vm_compute; reflexivity. Qed.

Lemma demo_recv_eof : exists s', tcp_recv_round 10 0 false false (Est demo_tcb [] [] 500) = Some (Recv_ret 0 [] s').
Proof.
  destruct demo_fields as (E1 & E2 & E3 & _). unfold tcp_recv_round. cbn [et]. rewrite E1, E2, E3. by eexists.
Qed.


Lemma tcp_never_faults_witness : world_run true Op_timer [] 900 demo_end <> None.
Proof. apply (tcp_never_faults demo_w0 demo_end true Op_timer [] 900 demo_opening demo_reachable). Defined.

