(* ===== verification/TcpSafe.v ===== *)
(** TCP, one connection against anybody: the routines of [Tcp] on a block that
    satisfies [safe] return and leave it [safe], whatever segment arrives. No
    assumption is made on who sent it: the streams of [TcpStream] are chosen to fit
    what is in the buffers. *)

From stdpp Require Import base numbers option list.
From Stdlib Require Import ZArith Lia.
From S2P Require Import Prelude Buf Inet Tcp TcpFrame TcpStream.

(** The widths of the fields of a segment. *)
Record seg_typed (h : segment) : Prop := {
  ty_seq : 0 <= g_seq h < 2 ^ 32; ty_ack : 0 <= g_ack h < 2 ^ 32; ty_win : 0 <= g_win h < 2 ^ 16;
  ty_len : len (g_data h) < 2 ^ 16
}.

Definition esafe (s : est) : Prop := exists q p, cinv q p [] s /\ short p.
Definition safe (t : tcb) : Prop := esafe (Est t [] [] 0).

Lemma safe_start t oks now : safe t -> esafe (Est t [] oks now).
Proof. intros (q & p & [] & S). exists q, p. split; [by constructor|done]. Qed.

Lemma safe_end s : esafe s -> safe (et s).
Proof. intros (q & p & [] & S). exists q, p. split; [by constructor|done]. Qed.

(** What the ring of a block holds. *)
Definition held (t : tcb) : list Z :=
  match rb t with Some b => ring b (fld t T_rb_head) (fld t T_rb_len) | None => [] end.

(** The peer's stream may be taken to be what the ring holds and [d] after it. *)
Lemma cinv_rebase q p rd s d fin :
  cinv q p rd s -> len d < 2 ^ 31 -> (s#T_fin_rcvd <> 0 -> d = [] /\ fin = true) ->
  let p' := Stream (u32 (s#T_rcv_nxt - 1 - (len (held (et s)) + s#T_fin_rcvd))) (held (et s) ++ d) fin in
  cinv q p' [] s /\ short p' /\ (s#T_fin_rcvd = 0 -> s#T_rcv_nxt = u32 (s_iss p' + 1 + len (held (et s)))).
Proof.
  intros C Hd HF p'. pose proof (c_rcv _ _ _ _ C) as [got R].
  assert (Lh : 0 <= len (held (et s)) <= TCP_BUF_SIZE).
  { unfold held. destruct (rb (et s)); [rewrite len_ring by apply (r_len _ _ _ _ R); apply (r_len _ _ _ _ R)|]. change (len (@nil Z)) with 0. unfold TCP_BUF_SIZE. lia. }
  assert (EN : s#T_rcv_nxt = u32 (s_iss p' + 1 + (len (held (et s)) + s#T_fin_rcvd))).
  { cbn [p' s_iss]. rewrite <-Z.add_assoc, u32_idem_add. replace (_ - 1 - _ + _) with (s#T_rcv_nxt) by lia.
    symmetry. apply u32_small, (r_nxt_u32 _ _ _ _ R). }
  split; [|split].
  - eapply cinv_rcv; [exact C| |done..]. instantiate (1 := held (et s)).
    destruct R as [RP RF RN RS RU RL RH RB]. constructor; try done; [by eexists| |by right; right| |].
    + destruct RF as [?|(E & _)]; [by left|]. right. destruct HF as [Hd' Hf]; [by rewrite E|]. unfold p'. cbn [s_data s_fin]. by rewrite Hd', app_nil_r.
    + intros E. destruct (RS E) as [-> ?]. split; [|done]. unfold held. destruct (rb (et s)); [|done]. destruct RB as [_ RB].
      symmetry in RB. by apply app_eq_nil in RB as [_ ->].
    + unfold held. destruct (rb (et s)); [|by destruct RB; split; [|apply prefix_nil]]. destruct RB as [? _]. done.
  - split; [apply u32_range|]. cbn [p' s_data]. rewrite len_app. unfold TCP_BUF_SIZE in Lh. lia.
  - intros F0. rewrite EN, F0, Z.add_0_r. done.
Qed.

Lemma esafe_of q p rd s : cinv q p rd s -> esafe s.
Proof.
  intros C. destruct (cinv_rebase q p rd s [] true C) as (C' & S & _); [done..|]. by eexists _, _.
Qed.

(** A segment from anybody. *)
Lemma input_safe h s :
  esafe s -> s#T_state <> TCP_CLOSED -> seg_typed h -> exists s', conn_input h s = Some s' /\ esafe s'.
Proof.
  intros (q & p & C & _) HC T. pose proof (ty_len _ T) as Hl. unfold conn_input.
  destruct (c_rcv _ _ _ _ C) as [got R].
  destruct (Z.eqb_spec (s#T_state) TCP_SYN_SENT) as [E|N].
  - eexists. split; [done|]. set (p' := Stream (g_seq h) [] false). assert (S : short p') by (split; [apply T|done]).
    assert (C' : cinv q p' [] s).
    { eapply cinv_rcv; [exact C| |done..]. instantiate (1 := []). destruct (r_syn _ _ _ _ R E) as [-> F].
      destruct R as [RP RF RN RS RU RL RH RB]. constructor; try done; by left. }
    exists q, p'. split; [|done]. apply handle_syn_sent_ok; try done; apply T.
  - destruct (Z.eq_dec (s#T_fin_rcvd) 0) as [F|F].
    + destruct (cinv_rebase q p [] s (g_data h) true C) as (C' & S & EN); [lia|done|]. specialize (EN F). set (p' := Stream _ _ true) in *.
      destruct (handle_synchronized_ok q p' [] s h C' N HC) as (s' & E' & C1); [|apply T|apply T|done|].
      * intros Es _ HY. split; [congruence|]. intros _ _. exists (len (held (et s))). pose proof (len_nonneg (held (et s))).
        rewrite Es, EN. cbn [p' s_data]. rewrite len_app, zdrop_app, ztake_all by done. split_and!; done || lia.
      * exists s'. split; [done|]. by exists q, p'.
    + destruct (cinv_rebase q p [] s [] true C) as (C' & S & _); [done..|].
      destruct (handle_synchronized_ok q _ [] s h C' N HC) as (s' & E' & C1); [done|apply T|apply T|done|].
      exists s'. split; [done|]. by eexists _, _.
Qed.

Lemma timer_safe s : esafe s -> exists s' reap, timer_tcb s = Some (s', reap) /\ esafe s'.
Proof. intros (q & p & C & S). destruct (timer_tcb_ok _ _ _ _ C) as (s' & reap & E & C'). exists s', reap. split; [done|]. by exists q, p. Qed.

Lemma send_safe buf done deadline dw s :
  esafe s -> 0 <= done <= len buf ->
  exists r, tcp_send_round buf done deadline dw s = Some r /\
    match r with Send_ret _ s' | Send_waits _ _ s' => s' = s | Send_more d s' => done < d <= len buf /\ esafe s' end.
Proof.
  intros (q & p & C & S) Hd. destruct (send_round_ok _ _ _ _ buf done deadline dw C Hd) as (r & E & Hr). exists r. split; [done|].
  destruct r as [| |]; [done| |done]. destruct Hr as (_ & Hl & C'). split; [done|]. by eexists _, p.
Qed.

Lemma recv_safe n deadline dw sh s :
  esafe s -> 0 < n ->
  exists r, tcp_recv_round n deadline dw sh s = Some r /\
    match r with Recv_ret _ _ s' => esafe s' | Recv_waits _ s' => s' = s end.
Proof.
  intros (q & p & C & S) Hn. destruct (recv_round_ok _ _ _ _ n deadline dw sh C Hn) as (r & E & Hr). exists r. split; [done|].
  destruct r as [v bs s'|]; [|done]. destruct Hr as [C' _]. by eapply esafe_of.
Qed.

Lemma queue_fin_safe s : esafe s -> exists s', queue_fin s = Some s' /\ esafe s'.
Proof. intros (q & p & C & S). destruct (queue_fin_ok _ _ _ _ C) as (s' & E & C' & _). exists s'. split; [done|]. by eexists _, p. Qed.

Lemma orphan_close_safe s :
  esafe s -> s#T_state <> TCP_SYN_SENT -> s#T_state <> TCP_CLOSED -> exists s', orphan_close s = Some s' /\ esafe s'.
Proof.
  intros (q & p & C & S) N1 N2. destruct (conn_close_ok _ _ _ _ C) as (r & E & Hr). unfold conn_close in E.
  destruct (Z.eqb_spec (s#T_state) TCP_SYN_SENT); [done|]. destruct (Z.eqb_spec (s#T_state) TCP_CLOSED); [done|]. cbn [orb] in E.
  destruct (orphan_close s) as [s'|]; [|done]. injection E as <-. destruct Hr as [C' _]. exists s'. split; [done|]. by eexists _, p.
Qed.

(** A reset is sent and the connection is closed. *)
Lemma reset_safe s : esafe s -> esafe (put T_state TCP_CLOSED (tcp_xmit (s#T_snd_nxt) (Z.lor TCP_RST TCP_ACK) [] false s)).
Proof. intros (q & p & C & S). exists q, p. split; [|done]. apply cinv_close, cinv_xmit; [by apply pay_nothing|done]. Qed.

Lemma close_safe s : esafe s -> esafe (put T_state TCP_CLOSED s).
Proof. intros (q & p & C & S). exists q, p. split; [|done]. by apply cinv_close. Qed.

Lemma put_safe f v s : kept f = false -> esafe s -> esafe (put f v s).
Proof. intros K (q & p & C & S). exists q, p. split; [|done]. by apply cinv_put. Qed.

Lemma connect_safe sock cond lip lport rip rport iss b1 b2 oks now :
  len b1 = TCP_BUF_SIZE -> len b2 = TCP_BUF_SIZE ->
  esafe (connect_syn sock cond lip lport rip rport iss (Est (tcb_init (Some b1) (Some b2)) [] oks now)).
Proof. intros L1 L2. exists (Stream iss [] false), (Stream 0 [] false). split; [by apply connect_syn_ok|done]. Qed.

Lemma child_safe l lport iss h b1 b2 oks now :
  len b1 = TCP_BUF_SIZE -> len b2 = TCP_BUF_SIZE -> seg_typed h ->
  esafe (syn_child l lport iss h (Est (tcb_init (Some b1) (Some b2)) [] oks now)).
Proof.
  intros L1 L2 T. exists (Stream iss [] false), (Stream (g_seq h) [] false). split; [apply syn_child_ok; try done; apply T|].
  split; [apply T|done].
Qed.
