(* ===== verification/TcpFamily.v ===== *)
(** TCP, a connection and its listener: what the routines of [Tcp] do to the link
    between a block and the listener that spawned it. A routine is [calm] (the link
    stays as it is), drops a half-open child, or completes its handshake; nothing
    else touches the listener. *)

From stdpp Require Import base numbers option list.
From Stdlib Require Import ZArith Lia.
From S2P Require Import Prelude Buf Inet Tcp TcpFrame.

Create HintDb calm.

(** The fields of the link and those only a listener uses. *)
Definition fam_field (f : tfield) : bool :=
  match f with
  | T_parent | T_aq_next | T_backlog | T_aq_head | T_aq_tail | T_aq_len | T_half_open | T_sock | T_cond => true
  | _ => false
  end.

Lemma fam_out f : out_field f = true -> fam_field f = false.
Proof. by destruct f. Qed.

(** An action that does not touch the listener [par], but for a signal. *)
Definition plain (par : Z) (a : act) : Prop :=
  match a with
  | Xmit _ | Broadcast _ | Count _ => True
  | Signal p => p = par /\ p <> 0
  | Half_open_dec _ | Accept_enqueue _ => False
  end.

Definition moved (a b : Z) : Prop := b = a \/ b = TCP_CLOSED \/ TCP_ESTABLISHED <= b.

Record calm (s s' : est) : Prop := {
  m_keeps : forall f, fam_field f = true -> s'#f = s#f;
  m_state : moved (s#T_state) (s'#T_state);
  m_acts : exists l, acts s' = acts s ++ l /\ Forall (plain (s#T_parent)) l
}.

Lemma calm_refl s : calm s s.
Proof. constructor; [done|by left|]. exists []. by rewrite app_nil_r. Qed.

Lemma calm_trans s x y : calm s x -> calm x y -> calm s y.
Proof.
  intros [K1 M1 (l1 & E1 & F1)] [K2 M2 (l2 & E2 & F2)]. constructor.
  - intros f Hf. rewrite K2 by done. by apply K1.
  - unfold moved in *. destruct M2 as [->|[->| ?]]; auto.
  - exists (l1 ++ l2). rewrite E2, E1, app_assoc. split; [done|]. rewrite K1 in F2 by done. by apply Forall_app.
Qed.

Lemma calm_put s x f v : fam_field f = false -> tf_eqb T_state f = false -> calm s x -> calm s (put f v x).
Proof.
  intros Kf Ks [K M A]. constructor; [|by rewrite fld_put_ne|done].
  intros g Hg. rewrite fld_put_ne; [by apply K|]. destruct (tf_eqb g f) eqn:E; [|done].
  assert (g = f) as -> by (by destruct f, g). congruence.
Qed.

Lemma calm_state s x v : v = TCP_CLOSED \/ TCP_ESTABLISHED <= v -> calm s x -> calm s (put T_state v x).
Proof. intros Hv [K M A]. constructor; [by intros []; try done; intros; apply K|by right|done]. Qed.

Lemma calm_put_sb s x b : calm s x -> calm s (put_sb b x).
Proof. intros []. by constructor. Qed.

Lemma calm_put_rb s x b : calm s x -> calm s (put_rb b x).
Proof. intros []. by constructor. Qed.

Lemma calm_emit s x a : plain (x#T_parent) a -> calm s x -> calm s (emit a x).
Proof.
  intros P [K M (l & E & F)]. constructor; [done|done|]. exists (l ++ [a]). cbn. rewrite E, app_assoc. split; [done|].
  rewrite K in P by done. apply Forall_app. by repeat constructor.
Qed.

Lemma calm_signal s x : calm s x -> calm s (tcb_signal x).
Proof. intros C. unfold tcb_signal. destruct (truth _); [by apply calm_emit|done]. Qed.

Lemma calm_rst_raw s x a b c d seq ack w : calm s x -> calm s (tcp_rst_raw a b c d seq ack w x).
Proof. intros C. unfold tcp_rst_raw. by repeat (apply calm_emit; [done|]). Qed.

Lemma calm_arm s x : calm s x -> calm s (arm_rtx x).
Proof. intros C. unfold arm_rtx. destruct (negb _); [by apply calm_put|done]. Qed.

Lemma calm_xmit s x seq flags d m : calm s x -> calm s (tcp_xmit seq flags d m x).
Proof.
  intros C. unfold tcp_xmit. assert (C1 : calm s (kmalloc_seg x).2).
  { unfold kmalloc_seg. destruct (segs x) as [|b l]; [done|]. destruct C. by constructor. }
  destruct (kmalloc_seg x) as [ok y]. cbn in C1. destruct ok; cbn [negb]; [|done].
  apply calm_emit; [done|]. zif; repeat (apply calm_emit; [done|]); by apply calm_put.
Qed.

Lemma calm_ack s x : calm s x -> calm s (send_ack x).
Proof. apply calm_xmit. Qed.

Lemma calm_mss s x opts : calm s x -> calm s (take_mss opts x).
Proof. intros C. unfold take_mss. destruct (truth _); [by apply calm_put|done]. Qed.

#[export] Hint Resolve calm_refl calm_put_sb calm_put_rb calm_signal calm_rst_raw calm_arm calm_xmit calm_ack calm_mss : calm.
#[export] Hint Extern 1 (calm _ (put _ _ _)) => apply calm_put; [reflexivity|reflexivity|] : calm.
#[export] Hint Extern 1 (calm _ (emit _ _)) => apply calm_emit; [exact I|] : calm.
#[export] Hint Extern 2 (calm _ (put T_state _ _)) => apply calm_state; [first [by left|by right]|] : calm.

Lemma calm_time_wait s x : calm s x -> calm s (enter_time_wait x).
Proof. intros C. unfold enter_time_wait. auto with calm. Qed.

Lemma calm_abort s x e : calm s x -> calm s (tcp_abort e x).
Proof.
  intros C. unfold tcp_abort. set (y := tcb_signal _). assert (Y : calm s y) by (unfold y; auto 8 with calm).
  unfold truth. destruct (Z.eqb_spec (y#T_parent) 0); cbn [negb]; [done|]. by apply calm_emit.
Qed.

Lemma calm_loop fuel s x x' : output_loop fuel x = Some x' -> calm s x -> calm s x'.
Proof.
  revert x. induction fuel as [|fuel IH]; intros x E Q; cbn [output_loop] in E; [done|].
  destruct (truth _); [by injection E as <-|]. destruct (_ || _); [by injection E as <-|].
  destruct (sb _) as [b|]; [|done]. cbn [mbind option_bind] in E. destruct (bsub _ _ _); [|done]. cbn [mbind option_bind] in E.
  eapply IH; [exact E|]. auto with calm.
Qed.

Lemma calm_output s x x' : tcp_output x = Some x' -> calm s x -> calm s x'.
Proof.
  unfold tcp_output. destruct (negb _); [by intros [= <-]|]. destruct (output_loop _ _) as [y|] eqn:E; [|done].
  cbn [mbind option_bind]. intros H Q. pose proof (calm_loop _ s _ _ E Q).
  destruct (_ && _); injection H as <-; auto 8 with calm.
Qed.

Lemma calm_go_back s x x' : go_back_n x = Some x' -> calm s x -> calm s x'.
Proof.
  unfold go_back_n. cbn zeta. destruct (tcp_output _) as [y|] eqn:E; [|done]. cbn [mbind option_bind]. intros H Q.
  assert (calm s y). { eapply calm_output; [exact E|]. destruct (_ && seq_ge _ _); auto with calm. }
  injection H as <-. zif; auto with calm.
Qed.

Lemma calm_ack_new ack s x x' : ack_new ack x = Some x' -> calm s x -> calm s x'.
Proof.
  unfold ack_new. cbn zeta. intros H Q. destruct (sb_drop _ _) as [y|] eqn:E; [|done]. cbn [mbind option_bind] in H.
  apply sb_drop_frame in E as [b ->]. injection H as <-. apply calm_signal.
  set (z := put T_rtx_deadline _ _). assert (Z : calm s z) by (unfold z; auto 10 with calm). clearbody z.
  repeat zif; auto using calm_time_wait with calm.
Qed.

Lemma calm_process_ack ack w pure s x x' : process_ack ack w pure x = Some x' -> calm s x -> calm s x'.
Proof.
  unfold process_ack. intros H Q. destruct (seq_gt ack _); [injection H as <-; auto with calm|].
  destruct (_ && _ && _ && _).
  { cbn zeta in H. destruct (_ =? 3); [|injection H as <-; auto with calm]. eapply calm_go_back; [exact H|auto with calm]. }
  destruct (seq_gt ack _); [|injection H as <-; auto with calm].
  destruct (ack_new _ _) as [y|] eqn:E; [|done]. injection H as <-. pose proof (calm_ack_new _ s _ _ E Q). auto with calm.
Qed.

Lemma calm_accept s x x' d : accept_data d x = Some x' -> calm s x -> calm s x'.
Proof.
  unfold accept_data. destruct (rb _); [|by intros [= <-]]. destruct (bsub _ _ _); [|done]. cbn [mbind option_bind].
  destruct (rb_in _ _ _); [|done]. intros [= <-] Q. auto with calm.
Qed.

Lemma calm_take_fin s x : calm s x -> calm s (take_fin x).
Proof.
  intros C. unfold take_fin. cbn zeta. set (y := put T_fin_rcvd _ _). assert (Y : calm s y) by (unfold y; auto with calm). clearbody y.
  repeat zif; auto using calm_time_wait with calm.
Qed.

Lemma calm_payload h s x r : take_payload h x = Some r -> calm s x -> calm s (match r with inl y | inr y => y end).
Proof.
  unfold take_payload. cbn zeta. intros H C. destruct (_ || _) in H; [|by injection H as <-].
  destruct (negb _) in H; [injection H as <-; auto with calm|].
  match type of H with (?e ≫= _) = _ => destruct e as [y|] eqn:E; [|done] end. cbn [mbind option_bind] in H. injection H as <-.
  assert (Y : calm s y). { destruct (_ && _ && _) in E; [|by injection E as <-]. by eapply calm_accept. }
  apply calm_signal, calm_ack. zif; [by apply calm_take_fin|]. zif; auto with calm.
Qed.

(** * What a routine does to the listener *)

Inductive family (s s' : est) : Prop :=
  | Fam_calm : calm s s' -> (s#T_state = TCP_SYN_RCVD -> s#T_parent <> 0 -> s'#T_state = TCP_SYN_RCVD) -> family s s'
  | Fam_drop l1 l2 :
      s#T_state = TCP_SYN_RCVD -> s#T_parent <> 0 ->
      (forall f, fam_field f = true -> tf_eqb f T_parent = false -> s'#f = s#f) ->
      s'#T_parent = 0 -> s'#T_state = TCP_CLOSED ->
      acts s' = acts s ++ l1 ++ Half_open_dec (s#T_parent) :: l2 ->
      Forall (plain (s#T_parent)) l1 -> Forall (plain (s#T_parent)) l2 -> family s s'
  | Fam_est l :
      s#T_state = TCP_SYN_RCVD -> s#T_parent <> 0 ->
      (forall f, fam_field f = true -> tf_eqb f T_aq_next = false -> s'#f = s#f) ->
      s'#T_aq_next = 0 -> s'#T_state = TCP_CLOSED \/ TCP_ESTABLISHED <= s'#T_state ->
      acts s' = acts s ++ Half_open_dec (s#T_parent) :: Accept_enqueue (s#T_parent) :: Signal (s#T_parent) :: l ->
      Forall (plain (s#T_parent)) l -> family s s'.

(** A handshake that completes, and a calm routine after it. *)
Lemma establish_family h s x :
  s#T_state = TCP_SYN_RCVD -> calm (establish h s) x -> family s x.
Proof.
  intros HS [K M (l & E & F)]. unfold establish in *. cbn zeta in *.
  set (y := put T_state TCP_ESTABLISHED _) in *. unfold truth in *.
  assert (Ep : y#T_parent = s#T_parent) by done. rewrite Ep in *.
  destruct (Z.eqb_spec (s#T_parent) 0) as [E0|N0]; cbn [negb] in *.
  - apply Fam_calm; [|done]. constructor; [intros f Hf; rewrite K by done; by destruct f| |by exists l].
    unfold moved in *. destruct M as [->|[->|?]]; cbn; auto. right; right. done.
  - eapply (Fam_est _ _ l); try done.
    + intros f Hf Hn. rewrite K by done. by destruct f.
    + by rewrite K.
    + destruct M as [->|[->|?]]; auto. right. done.
    + rewrite E. cbn. by rewrite <-!app_assoc.
Qed.

Lemma conn_input_family h s s' : conn_input h s = Some s' -> family s s'.
Proof.
  unfold conn_input. intros H. destruct (Z.eqb_spec (s#T_state) TCP_SYN_SENT) as [E|N].
  { apply Fam_calm; [|rewrite E; done]. injection H as <-. unfold handle_syn_sent. cbn zeta.
    repeat zif; auto 20 using calm_abort with calm. }
  unfold handle_synchronized in H. cbn zeta in H. destruct (flag _ TCP_RST) in H.
  { injection H as <-. unfold take_rst. cbn zeta. destruct (seq_ge _ _ && _); [|by apply Fam_calm; auto with calm].
    unfold truth. destruct (Z.eqb_spec (s#T_state) TCP_SYN_RCVD) as [E|NE]; cbn [andb].
    - destruct (Z.eqb_spec (s#T_parent) 0) as [E0|N0]; cbn [negb]; [apply Fam_calm; [auto using calm_abort with calm|done]|].
      apply (Fam_drop _ _ [] []); try done. by intros [].
    - apply Fam_calm; [auto using calm_abort with calm|done]. }
  destruct (flag _ TCP_SYN) in H.
  { destruct (_ && _) in H; injection H as <-; apply Fam_calm; auto with calm; intros; unfold send_ack; by rewrite xmit_frame. }
  destruct (negb _) in H; [injection H as <-; apply Fam_calm; auto with calm|].
  destruct (_ && negb _) in H; [injection H as <-; apply Fam_calm; auto with calm|].
  destruct (Z.eqb_spec (s#T_state) TCP_SYN_RCVD) as [E|NE]; cbn [mbind option_bind] in H.
  { destruct (take_payload _ _) as [r|] eqn:Ep; [|done]. cbn [mbind option_bind] in H.
    pose proof (calm_payload _ _ _ _ Ep (calm_refl _)) as C. eapply establish_family; [done|].
    destruct r as [x|x]; [by injection H as <-|]. eapply calm_output; [exact H|done]. }
  apply Fam_calm; [|done].
  destruct (process_ack _ _ _ _) as [x|] eqn:Ea; [|done]. cbn [mbind option_bind] in H.
  pose proof (calm_process_ack _ _ _ _ _ _ Ea (calm_refl s)) as C.
  destruct (_ =? TCP_CLOSED) in H; [injection H as <-; auto with calm|].
  destruct (take_payload _ _) as [r|] eqn:Ep; [|done]. cbn [mbind option_bind] in H. pose proof (calm_payload _ _ _ _ Ep C).
  destruct r as [y|y]; [by injection H as <-|]. by eapply calm_output.
Qed.

(** The timer. *)
Lemma timer_rtx_family s s' : timer_rtx s = Some s' -> family s s'.
Proof.
  unfold timer_rtx. intros H. destruct (_ && _) in H; [|injection H as <-; by apply Fam_calm; auto with calm]. cbn zeta in H.
  set (x := put T_rtx_count _ _) in H. assert (X : calm s x) by (unfold x; auto with calm).
  assert (Ex : x#T_state = s#T_state /\ x#T_parent = s#T_parent) by done. destruct Ex as [Es Ep]. clearbody x. rewrite Es in H.
  destruct (_ <? _) in H.
  { pose proof (calm_abort s x ETIMEDOUT X) as [K M (l & E & F)].
    destruct (Z.eqb_spec (s#T_state) TCP_SYN_RCVD) as [E1|N1]; cbn [andb] in H.
    - unfold truth in H. rewrite K in H by done.
      destruct (Z.eqb_spec (s#T_parent) 0) as [E0|N0]; cbn [negb] in H; injection H as <-.
      + apply Fam_calm; [by constructor; [| |exists l]|done].
      + apply (Fam_drop _ _ l []); try done.
        * intros f Hf Hn. rewrite fld_put_ne by done. by apply K.
        * cbn. unfold tcp_abort, tcb_signal. repeat zif; done.
        * cbn. rewrite E. by rewrite <-app_assoc.
    - injection H as <-. apply Fam_calm; [by constructor; [| |exists l]|done]. }
  set (y := emit _ _) in H. assert (Y : calm s y) by (unfold y; auto 8 with calm).
  assert (Ey : y#T_state = s#T_state) by (unfold y; cbn; done). clearbody y. rewrite Ey in H.
  destruct (Z.eqb_spec (s#T_state) TCP_SYN_SENT) as [E|N]; [injection H as <-; apply Fam_calm; [auto with calm|by rewrite E]|].
  destruct (Z.eqb_spec (s#T_state) TCP_SYN_RCVD) as [E|NE].
  - injection H as <-. apply Fam_calm; [auto with calm|]. intros. by rewrite xmit_frame, Ey.
  - apply Fam_calm; [|done]. by eapply calm_go_back.
Qed.

Lemma family_then s x s' : family s x -> calm x s' -> s'#T_state = x#T_state \/ x#T_state = TCP_TIME_WAIT -> family s s'.
Proof.
  intros F C HS. assert (N : x#T_state = TCP_SYN_RCVD -> s'#T_state = TCP_SYN_RCVD) by (intros E; destruct HS as [->|E']; [done|by rewrite E in E']).
  destruct F as [C1 H1|l1 l2 ? ? Kf Ep Es Ea F1 F2|l ? ? Kf En Es Ea F1].
  - apply Fam_calm; [by eapply calm_trans|auto].
  - destruct C as [K _ (l & E & F)]. eapply (Fam_drop _ _ l1 (l2 ++ l)); try done.
    + intros f Hf Hn. rewrite K by done. auto.
    + by rewrite K.
    + destruct HS as [->|E']; [done|]. by rewrite Es in E'.
    + rewrite E, Ea, <-!app_assoc. done.
    + apply Forall_app. split; [done|]. rewrite Ep in F. eapply Forall_impl; [exact F|]. intros [] P; cbn in *; try done. by destruct P as [-> ?].
  - destruct C as [K M (l' & E & F)]. eapply (Fam_est _ _ (l ++ l')); try done.
    + intros f Hf Hn. rewrite K by done. auto.
    + by rewrite K.
    + destruct M as [->|[->|?]]; auto.
    + rewrite E, Ea, <-!app_assoc. done.
    + apply Forall_app. split; [done|]. rewrite Kf in F by done. done.
Qed.

Lemma timer_tcb_family s s' reap :
  timer_tcb s = Some (s', reap) -> family s s' /\ (reap = true -> is_orphan (et s) = true).
Proof.
  unfold timer_tcb. intros H. destruct (timer_rtx s) as [x|] eqn:E; [|done]. cbn [mbind option_bind] in H. injection H as <- <-.
  apply timer_rtx_family in E. split; [|by intros [? _]%andb_prop].
  set (y := if (_ =? TCP_TIME_WAIT) && _ then _ else _).
  assert (Y : calm x y /\ (y#T_state = x#T_state \/ x#T_state = TCP_TIME_WAIT)).
  { unfold y. destruct (_ && _) eqn:Hb; [|auto with calm]. apply andb_prop in Hb as [Hb%Z.eqb_eq _]. auto with calm. }
  destruct Y as [Y Hy]. clearbody y.
  match goal with |- family _ (if ?c then _ else _) => destruct c end; eapply family_then; try done; auto 8 with calm.
Qed.
