(* ===== verification/Wire.v ===== *)
(** The packet formats of [kernel/include/net/net.h] as they are built and taken
    apart by [kernel/net/eth.c], [arp.c], [ipv4.c], [udp.c] and [tcp.c].

    A packed header is its bytes; a field is stored and loaded little endian
    ([le], [ld]), and htons and htonl give the order of the wire. Each format comes
    with the parser that is the prologue of its input routine, and the round trip
    of the two. *)

From stdpp Require Import base numbers option list.
From Stdlib Require Import ZArith Lia.
From S2P Require Import Prelude Buf Inet Tcp.

(** * Constants *)

Definition ETH_HLEN : Z := 14.
Definition ETH_FRAME_MAX : Z := ETH_HLEN + ETH_MTU.
Definition ETH_ZLEN : Z := 60.
Definition ETHERTYPE_IPV4 : Z := 0x0800.
Definition ETHERTYPE_ARP : Z := 0x0806.
Definition IPPROTO_ICMP : Z := 1.
Definition IPPROTO_TCP : Z := 6.
Definition IPPROTO_UDP : Z := 17.
Definition IP_DEFAULT_TTL : Z := 64.
Definition IP_FLAG_DF : Z := 0x4000.
Definition BROADCAST : list Z := [0xFF; 0xFF; 0xFF; 0xFF; 0xFF; 0xFF].

(** A field of [n] bytes at offset [i] of the packet [p]. *)
Definition field (n : nat) (p : list Z) (i : Z) : Z := ld n (bytes_at p) i.

(** * TCP *)

(** The header and payload with [c] in the checksum field. *)
Definition tcp_bytes (g : segment) (c : Z) : list Z :=
  (le 2 (htons (g_sport g)) ++ le 2 (htons (g_dport g)) ++ le 4 (htonl (g_seq g)) ++ le 4 (htonl (g_ack g)) ++
   [u8 (Z.shiftl ((20 + len (g_opts g)) / 4) 4); u8 (g_flags g)] ++ le 2 (htons (g_win g))) ++
  le 2 c ++ le 2 0 ++ g_opts g ++ g_data g.

(** What tcp_xmit and tcp_rst_raw hand to ipv4_send. *)
Definition seg_bytes (g : segment) : list Z :=
  tcp_bytes g (inet_pseudo_checksum (g_src g) (g_dst g) IPPROTO_TCP (tcp_bytes g 0)).

(** tcp_input up to the lookup: [None] is a segment that is dropped. *)
Definition parse_seg (src dst : Z) (pkt : list Z) : option segment :=
  if len pkt <? 20 then None else
  let hlen := Z.shiftr (field 1 pkt 12) 4 * 4 in
  if (hlen <? 20) || (len pkt <? hlen) then None else
  if negb (inet_pseudo_checksum src dst IPPROTO_TCP pkt =? 0) then None else
  Some (Seg src dst (ntohs (field 2 pkt 0)) (ntohs (field 2 pkt 2)) (ntohl (field 4 pkt 4)) (ntohl (field 4 pkt 8))
            (field 1 pkt 13) (ntohs (field 2 pkt 14)) (ztake (hlen - 20) (zdrop 20 pkt)) (zdrop hlen pkt)).

(** * UDP *)

Record datagram := Dgram { d_src : Z; d_dst : Z; d_sport : Z; d_dport : Z; d_data : list Z }.

Definition udp_bytes (d : datagram) (c : Z) : list Z :=
  (le 2 (htons (d_sport d)) ++ le 2 (htons (d_dport d)) ++ le 2 (htons (u16 (8 + len (d_data d))))) ++
  le 2 c ++ d_data d.

Definition udp_checksum (d : datagram) : Z :=
  let c := inet_pseudo_checksum (d_src d) (d_dst d) IPPROTO_UDP (udp_bytes d 0) in
  if truth c then c else 0xFFFF.

(** What udp_output hands to ipv4_send. *)
Definition dgram_bytes (d : datagram) : list Z := udp_bytes d (udp_checksum d).

(** udp_input up to the lookup. *)
Definition parse_dgram (src dst : Z) (pkt : list Z) : option datagram :=
  if len pkt <? 8 then None else
  let ulen := ntohs (field 2 pkt 4) in
  if (ulen <? 8) || (len pkt <? ulen) then None else
  if truth (field 2 pkt 6) && negb (inet_pseudo_checksum src dst IPPROTO_UDP (ztake ulen pkt) =? 0) then None else
  Some (Dgram src dst (ntohs (field 2 pkt 0)) (ntohs (field 2 pkt 2)) (ztake (ulen - 8) (zdrop 8 pkt))).

(** * IPv4 *)

Record packet := Packet { i_src : Z; i_dst : Z; i_ttl : Z; i_proto : Z; i_data : list Z }.

Definition ip_header (p : packet) (id c : Z) : list Z :=
  ([Z.lor (Z.shiftl 4 4) 5; 0] ++ le 2 (htons (u16 (20 + len (i_data p)))) ++ le 2 (htons id) ++
   le 2 (htons IP_FLAG_DF) ++ [u8 (i_ttl p); u8 (i_proto p)]) ++
  le 2 c ++ le 4 (htonl (i_src p)) ++ le 4 (htonl (i_dst p)).

(** What ipv4_send hands to eth_send. *)
Definition ip_bytes (p : packet) (id : Z) : list Z :=
  ip_header p id (inet_checksum (ip_header p id 0)) ++ i_data p.

(** The tests of ipv4_input on the header, and the payload it goes on with. *)
Definition parse_ip (pkt : list Z) : option packet :=
  if len pkt <? 20 then None else
  if negb (Z.shiftr (field 1 pkt 0) 4 =? 4) then None else
  let ihl := Z.land (field 1 pkt 0) 0x0F * 4 in
  if (ihl <? 20) || (len pkt <? ihl) then None else
  let total := ntohs (field 2 pkt 2) in
  if (total <? ihl) || (len pkt <? total) then None else
  if negb (inet_checksum (ztake ihl pkt) =? 0) then None else
  if truth (Z.land (ntohs (field 2 pkt 6)) 0x3FFF) then None else
  Some (Packet (ntohl (field 4 pkt 12)) (ntohl (field 4 pkt 16)) (field 1 pkt 8) (field 1 pkt 9)
               (ztake (total - ihl) (zdrop ihl pkt))).

(** * Ethernet *)

(** The frame eth_send gives to the driver, padded to ETH_ZLEN. *)
Definition eth_frame (dst src : list Z) (ethertype : Z) (payload : list Z) : list Z :=
  let f := dst ++ src ++ le 2 (htons ethertype) ++ payload in
  f ++ replicate (Z.to_nat (ETH_ZLEN - len f)) 0.

Definition eth_dst (frame : list Z) : list Z := ztake 6 frame.
Definition eth_src (frame : list Z) : list Z := ztake 6 (zdrop 6 frame).
Definition eth_type (frame : list Z) : Z := ntohs (field 2 frame 12).
Definition eth_payload (frame : list Z) : list Z := zdrop ETH_HLEN frame.

(** * ARP *)

Record arp_pkt := Arp { a_oper : Z; a_sha : list Z; a_spa : Z; a_tha : list Z; a_tpa : Z }.

Definition arp_bytes (a : arp_pkt) : list Z :=
  le 2 (htons 1) ++ le 2 (htons ETHERTYPE_IPV4) ++ [6; 4] ++ le 2 (htons (a_oper a)) ++
  a_sha a ++ le 4 (htonl (a_spa a)) ++ a_tha a ++ le 4 (htonl (a_tpa a)).

Definition parse_arp (pkt : list Z) : option arp_pkt :=
  if len pkt <? 28 then None else
  if negb (ntohs (field 2 pkt 0) =? 1) || negb (ntohs (field 2 pkt 2) =? ETHERTYPE_IPV4)
     || negb (field 1 pkt 4 =? 6) || negb (field 1 pkt 5 =? 4) then None else
  Some (Arp (ntohs (field 2 pkt 6)) (ztake 6 (zdrop 8 pkt)) (ntohl (field 4 pkt 14)) (ztake 6 (zdrop 18 pkt))
            (ntohl (field 4 pkt 24))).

(** * Fields *)

Lemma bytes_app_r pre l i : 0 <= i -> bytes_at (pre ++ l) (len pre + i) = bytes_at l i.
Proof.
  intros Hi. unfold bytes_at, len. rewrite Z2Nat.inj_add, Nat2Z.id by lia. by rewrite lookup_app_r, Nat.add_comm, Nat.add_sub by lia.
Qed.

Lemma field_S n p i : field (S n) p i = u8 (bytes_at p i) + 256 * field n p (i + 1).
Proof. done. Qed.

Lemma field_skip n pre l i : 0 <= i -> field n (pre ++ l) (len pre + i) = field n l i.
Proof.
  revert i. induction n as [|n IH]; intros i Hi; [done|]. rewrite !field_S, bytes_app_r by done.
  by rewrite <-Z.add_assoc, IH by lia.
Qed.

Lemma field_le n v l : field n (le n v ++ l) 0 = v mod 256 ^ Z.of_nat n.
Proof.
  revert v l. induction n as [|n IH]; intros v l; [by rewrite Z.mod_1_r|].
  rewrite field_S. change (bytes_at (le (S n) v ++ l) 0) with (u8 v). unfold u8 at 1 2. rewrite Zmod_mod.
  change (le (S n) v ++ l) with ([u8 v] ++ (le n (v / 256) ++ l)). change (0 + 1) with (len [u8 v] + 0).
  rewrite field_skip, IH by lia.
  rewrite Nat2Z.inj_succ, Z.pow_succ_r by lia. change (2 ^ 8) with 256. rewrite Z.rem_mul_r by lia. done.
Qed.

(** A field between [pre] and [post]. *)
Lemma field_at n pre v post i : i = len pre -> field n (pre ++ le n v ++ post) i = v mod 256 ^ Z.of_nat n.
Proof. intros ->. replace (len pre) with (len pre + 0) by lia. rewrite field_skip by lia. apply field_le. Qed.

Lemma field_htons pre v post i : i = len pre -> 0 <= v < 2 ^ 16 -> ntohs (field 2 (pre ++ le 2 (htons v) ++ post) i) = v.
Proof.
  intros Ei Hv. rewrite field_at by done. change (256 ^ Z.of_nat 2) with (2 ^ 16). rewrite Z.mod_small by apply htons_range.
  by apply htons_htons.
Qed.

Lemma htonl_range v : 0 <= htonl v < 2 ^ 32.
Proof. apply u32_range. Qed.

Lemma htonl_htonl v : 0 <= v < 2 ^ 32 -> htonl (htonl v) = v.
Proof.
  intros Hv. pose proof (byte_of_range v 0) as B0. pose proof (byte_of_range v 1) as B1.
  pose proof (byte_of_range v 2) as B2. pose proof (byte_of_range v 3) as B3.
  pose proof (htonl_eq v Hv) as E. rewrite (htonl_eq (htonl v)) by apply htonl_range.
  assert (K : forall a b c d, 0 <= a < 256 -> 0 <= b < 256 -> 0 <= c < 256 -> 0 <= d < 256 ->
    forall w, w = a + 256 * b + 65536 * c + 16777216 * d ->
    byte_of w 0 = a /\ byte_of w 1 = b /\ byte_of w 2 = c /\ byte_of w 3 = d).
  { intros a b c d Ha Hb Hc Hd w ->. unfold byte_of. change (2 ^ (8 * 0)) with 1. change (2 ^ (8 * 1)) with 256.
    change (2 ^ (8 * 2)) with 65536. change (2 ^ (8 * 3)) with 16777216. split_and!; symmetry.
    - apply Zmod_unique with (q := b + 256 * c + 65536 * d); [lia|]. rewrite Z.div_1_r. lia.
    - apply Zmod_unique with (q := c + 256 * d); [lia|]. rewrite <-(Z.div_unique _ 256 (b + 256 * c + 65536 * d) a); lia.
    - apply Zmod_unique with (q := d); [lia|]. rewrite <-(Z.div_unique _ 65536 (c + 256 * d) (a + 256 * b)); lia.
    - apply Zmod_unique with (q := 0); [lia|]. rewrite <-(Z.div_unique _ 16777216 d (a + 256 * b + 65536 * c)); lia. }
  destruct (K _ _ _ _ B3 B2 B1 B0 _ E) as (-> & -> & -> & ->). symmetry. apply bytes_of in Hv. lia.
Qed.

Lemma field_htonl pre v post i : i = len pre -> 0 <= v < 2 ^ 32 -> ntohl (field 4 (pre ++ le 4 (htonl v) ++ post) i) = v.
Proof.
  intros Ei Hv. rewrite field_at by done. change (256 ^ Z.of_nat 4) with (2 ^ 32). rewrite Z.mod_small by apply htonl_range.
  by apply htonl_htonl.
Qed.

(** One byte. *)
Lemma field_byte pre v post i : i = len pre -> 0 <= v < 256 -> field 1 (pre ++ [v] ++ post) i = v.
Proof.
  intros -> Hv. replace (len pre) with (len pre + 0) by lia. rewrite field_skip by lia.
  rewrite field_S. change (bytes_at ([v] ++ post) 0) with v. change (field 0 ([v] ++ post) (0 + 1)) with 0.
  rewrite u8_small by lia. lia.
Qed.

(** * Round trips *)

Definition u32_ok (v : Z) : Prop := 0 <= v < 2 ^ 32.
Definition u16_ok (v : Z) : Prop := 0 <= v < 2 ^ 16.

(** The sum of the pseudo-header of [n] bytes. *)
Definition halves (v : Z) : Z := Z.land (Z.shiftr v 16) 0xFFFF + Z.land v 0xFFFF.
Definition pseudo_sum (src dst proto n : Z) : Z := halves src + halves dst + proto + n.

Lemma halves_range v : 0 <= halves v < 2 * 65536.
Proof.
  unfold halves. change 0xFFFF with (Z.ones 16). rewrite !Z.land_ones by lia.
  pose proof (Z.mod_pos_bound v (2 ^ 16)). pose proof (Z.mod_pos_bound (Z.shiftr v 16) (2 ^ 16)). lia.
Qed.

Lemma pseudo_checksum_eq src dst proto (l : list Z) :
  0 <= proto < 256 -> len l < 2 ^ 16 ->
  0 <= pseudo_sum src dst proto (len l) < 2 ^ 20 /\
  inet_pseudo_checksum src dst proto l = checksum_from (pseudo_sum src dst proto (len l)) l.
Proof.
  intros Hp Hl. pose proof (len_nonneg l). pose proof (halves_range src). pose proof (halves_range dst).
  unfold pseudo_sum. split; [lia|]. unfold inet_pseudo_checksum, checksum_from. rewrite (u32_small (len l)) by lia.
  assert (E : Z.land (Z.shiftr src 16) 0xFFFF + Z.land src 0xFFFF + Z.land (Z.shiftr dst 16) 0xFFFF + Z.land dst 0xFFFF + proto + len l
    = halves src + halves dst + proto + len l) by (unfold halves; lia).
  rewrite E, u32_small by lia. done.
Qed.

Lemma pseudo_checksum src dst proto (l : list Z) :
  0 <= proto < 256 -> len l < 2 ^ 16 ->
  exists s0, 0 <= s0 < 2 ^ 20 /\ forall l', len l' = len l -> inet_pseudo_checksum src dst proto l' = checksum_from s0 l'.
Proof.
  intros Hp Hl. exists (pseudo_sum src dst proto (len l)). split; [by apply pseudo_checksum_eq|]. intros l' E. rewrite <-E in *.
  by apply pseudo_checksum_eq.
Qed.

(** The fields have the widths of tcp_hdr_t, the header is whole words, and the
    segment fits in a packet. *)
Record seg_wf (g : segment) : Prop := {
  w_src : u32_ok (g_src g); w_dst : u32_ok (g_dst g); w_sport : u16_ok (g_sport g); w_dport : u16_ok (g_dport g);
  w_seq : u32_ok (g_seq g); w_ack : u32_ok (g_ack g); w_flags : is_byte (g_flags g); w_win : u16_ok (g_win g);
  w_opts : Forall is_byte (g_opts g); w_words : len (g_opts g) mod 4 = 0; w_hlen : len (g_opts g) <= 40;
  w_data : Forall is_byte (g_data g); w_len : 20 + len (g_opts g) + len (g_data g) < 2 ^ 16
}.

Lemma len_tcp_bytes g c : len (tcp_bytes g c) = 20 + len (g_opts g) + len (g_data g).
Proof. unfold tcp_bytes. rewrite !len_app, !len_le. unfold len. cbn. lia. Qed.

(** The checksum field makes the whole sum to zero. *)
Lemma seg_checksum g : seg_wf g -> inet_pseudo_checksum (g_src g) (g_dst g) IPPROTO_TCP (seg_bytes g) = 0.
Proof.
  intros W. destruct (pseudo_checksum (g_src g) (g_dst g) IPPROTO_TCP (tcp_bytes g 0) ltac:(done))
    as (s0 & Hs & Ec); [rewrite len_tcp_bytes; apply (w_len _ W)|].
  unfold seg_bytes. rewrite Ec by (by rewrite !len_tcp_bytes). rewrite Ec by done. unfold tcp_bytes.
  pose proof (w_len _ W). pose proof (len_nonneg (g_data g)). pose proof (len_nonneg (g_opts g)).
  apply (checksum_verifies s0 _ (le 2 0 ++ g_opts g ++ g_data g)).
  - repeat (apply Forall_app; split); try apply le_bytes. repeat constructor; apply u8_range.
  - repeat (apply Forall_app; split); try apply le_bytes; apply W.
  - rewrite !len_app, !len_le. done.
  - done.
  - rewrite !len_app, !len_le. change (len [_; _]) with 2. lia.
Qed.

(** The fields of the header, whatever the checksum is. *)
Lemma tcp_fields g c :
  seg_wf g ->
  let p := tcp_bytes g c in
  ntohs (field 2 p 0) = g_sport g /\ ntohs (field 2 p 2) = g_dport g /\ ntohl (field 4 p 4) = g_seq g /\
  ntohl (field 4 p 8) = g_ack g /\ field 1 p 12 = (5 + len (g_opts g) / 4) * 16 /\ field 1 p 13 = g_flags g /\
  ntohs (field 2 p 14) = g_win g.
Proof.
  intros W p. pose proof (len_nonneg (g_opts g)). pose proof (w_hlen _ W).
  set (a := le 2 (htons (g_sport g))). set (b := le 2 (htons (g_dport g))).
  set (s := le 4 (htonl (g_seq g))). set (k := le 4 (htonl (g_ack g))).
  set (o := u8 (Z.shiftl ((20 + len (g_opts g)) / 4) 4)). set (f := u8 (g_flags g)). set (w := le 2 (htons (g_win g))).
  set (r := le 2 c ++ le 2 0 ++ g_opts g ++ g_data g).
  assert (Ep : p = a ++ b ++ s ++ k ++ [o] ++ [f] ++ w ++ r) by done. clearbody p. subst p.
  assert (Eo : o = (5 + len (g_opts g) / 4) * 16).
  { subst o. replace (20 + len (g_opts g)) with (len (g_opts g) + 5 * 4) by lia. rewrite Z.div_add, Z.shiftl_mul_pow2 by lia.
    assert (0 <= len (g_opts g) / 4 <= 10). { split; [apply Z.div_pos; lia|]. apply Z.div_le_upper_bound; lia. }
    rewrite u8_small; lia. }
  assert (0 <= o < 256) by apply u8_range. assert (Ef : f = g_flags g) by (apply u8_small, W).
  split_and!.
  - by apply (field_htons [] (g_sport g) (b ++ s ++ k ++ [o] ++ [f] ++ w ++ r)); [|apply W].
  - by apply (field_htons a (g_dport g) (s ++ k ++ [o] ++ [f] ++ w ++ r)); [|apply W].
  - by apply (field_htonl (a ++ b) (g_seq g) (k ++ [o] ++ [f] ++ w ++ r)); [|apply W].
  - by apply (field_htonl (a ++ b ++ s) (g_ack g) ([o] ++ [f] ++ w ++ r)); [|apply W].
  - rewrite <-Eo. by apply (field_byte (a ++ b ++ s ++ k) o ([f] ++ w ++ r)).
  - rewrite <-Ef. by apply (field_byte (a ++ b ++ s ++ k ++ [o]) f (w ++ r)); [|apply u8_range].
  - by apply (field_htons (a ++ b ++ s ++ k ++ [o] ++ [f]) (g_win g) r); [|apply W].
Qed.

(** What tcp_xmit builds is what tcp_input sees: every field, the options and
    the payload, with a checksum that is accepted. *)
Theorem tcp_wire_roundtrip g : seg_wf g -> parse_seg (g_src g) (g_dst g) (seg_bytes g) = Some g.
Proof.
  intros W. pose proof (seg_checksum g W) as Hc. unfold seg_bytes in *. set (c := inet_pseudo_checksum _ _ _ (tcp_bytes g 0)) in *.
  destruct (tcp_fields g c W) as (E0 & E2 & E4 & E8 & E12 & E13 & E14).
  pose proof (len_tcp_bytes g c) as L. pose proof (len_nonneg (g_opts g)). pose proof (len_nonneg (g_data g)).
  pose proof (w_words _ W) as Hw. pose proof (Z.div_mod (len (g_opts g)) 4 ltac:(lia)).
  unfold parse_seg. destruct (Z.ltb_spec (len (tcp_bytes g c)) 20); [lia|]. cbn zeta.
  assert (Eh : Z.shiftr (field 1 (tcp_bytes g c) 12) 4 * 4 = 20 + len (g_opts g)).
  { rewrite E12, Z.shiftr_div_pow2, Z.div_mul by lia. lia. }
  rewrite Eh, Hc, E0, E2, E4, E8, E13, E14. cbn [Z.eqb negb].
  destruct (Z.ltb_spec (20 + len (g_opts g)) 20); [lia|]. destruct (Z.ltb_spec (len (tcp_bytes g c)) (20 + len (g_opts g))); [lia|]. cbn [orb].
  rewrite Z.add_simpl_l. set (hd := (le 2 (htons (g_sport g)) ++ le 2 (htons (g_dport g)) ++ le 4 (htonl (g_seq g)) ++
    le 4 (htonl (g_ack g)) ++ [u8 (Z.shiftl ((20 + len (g_opts g)) / 4) 4); u8 (g_flags g)] ++ le 2 (htons (g_win g))) ++ le 2 c ++ le 2 0).
  assert (Ep : tcp_bytes g c = hd ++ g_opts g ++ g_data g) by (unfold tcp_bytes, hd; by rewrite <-!app_assoc).
  assert (Lh : len hd = 20) by done. rewrite Ep, (zdrop_app 20 hd), (ztake_app _ (g_opts g)) by done.
  rewrite app_assoc, (zdrop_app _ (hd ++ g_opts g)) by (rewrite len_app; lia). by destruct g.
Qed.

(** ** UDP *)

Record dgram_wf (d : datagram) : Prop := {
  dw_src : u32_ok (d_src d); dw_dst : u32_ok (d_dst d); dw_sport : u16_ok (d_sport d); dw_dport : u16_ok (d_dport d);
  dw_data : Forall is_byte (d_data d); dw_len : 8 + len (d_data d) < 2 ^ 16
}.

Lemma len_udp_bytes d c : len (udp_bytes d c) = 8 + len (d_data d).
Proof. unfold udp_bytes. rewrite !len_app, !len_le. lia. Qed.

(** The field that is never 0 is accepted too when the sum is. *)
Lemma udp_checksum_ok d : dgram_wf d -> inet_pseudo_checksum (d_src d) (d_dst d) IPPROTO_UDP (dgram_bytes d) = 0.
Proof.
  intros W. destruct (pseudo_checksum (d_src d) (d_dst d) IPPROTO_UDP (udp_bytes d 0) ltac:(done))
    as (s0 & Hs & Ec); [rewrite len_udp_bytes; apply (dw_len _ W)|].
  unfold dgram_bytes. rewrite Ec by (by rewrite !len_udp_bytes). unfold udp_checksum. rewrite Ec by done. unfold udp_bytes.
  set (a := le 2 _ ++ le 2 _ ++ le 2 _). assert (Ha : Forall is_byte a) by (repeat (apply Forall_app; split); apply le_bytes).
  assert (La : len a = 6) by done. pose proof (dw_len _ W). pose proof (len_nonneg (d_data d)). pose proof (dw_data _ W) as Hd.
  change (le 2 0) with [0; 0]. unfold truth.
  destruct (Z.eqb_spec (checksum_from s0 (a ++ [0; 0] ++ d_data d)) 0) as [E|_]; cbn [negb].
  - pose proof (word_sum_bound a Ha). pose proof (word_sum_bound _ Hd).
    assert (He : Z.even (len a) = true) by (by rewrite La).
    assert (Hw : forall x y, word_sum (a ++ [x; y] ++ d_data d) = word_sum a + (x * 256 + y) + word_sum (d_data d)).
    { intros x y. rewrite word_sum_app by done. cbn [app word_sum]. lia. }
    assert (Hb : forall x y, is_byte x -> is_byte y -> Forall is_byte (a ++ [x; y] ++ d_data d)).
    { intros x y Hx Hy. apply Forall_app. split; [done|]. do 2 (constructor; [done|]); done. }
    apply checksum_from_zero in E as [E1 E2]; [|by apply Hb|lia|rewrite Hw; lia]. rewrite Hw in E1, E2.
    change (le 2 0xFFFF) with [255; 255]. apply checksum_from_zero; [by apply Hb|lia|rewrite Hw; lia|].
    rewrite Hw. split; [lia|].
    replace (s0 + (word_sum a + (255 * 256 + 255) + word_sum (d_data d)))
      with (s0 + (word_sum a + (0 * 256 + 0) + word_sum (d_data d)) + 1 * 65535) by lia. by rewrite Z.mod_add by lia.
  - apply checksum_verifies; try done. lia.
Qed.

(** A datagram udp_output builds reaches udp_input unchanged, also when its
    checksum is the one that may not be sent. *)
Lemma udp_roundtrip d : dgram_wf d -> parse_dgram (d_src d) (d_dst d) (dgram_bytes d) = Some d.
Proof.
  intros W. pose proof (udp_checksum_ok d W) as Hc. unfold dgram_bytes in *. set (c := udp_checksum d) in *.
  pose proof (len_udp_bytes d c) as L. pose proof (len_nonneg (d_data d)). pose proof (dw_len _ W).
  unfold parse_dgram. destruct (Z.ltb_spec (len (udp_bytes d c)) 8); [lia|]. cbn zeta.
  set (a := le 2 (htons (d_sport d))). set (b := le 2 (htons (d_dport d))).
  assert (E0 : ntohs (field 2 (udp_bytes d c) 0) = d_sport d).
  { by apply (field_htons [] (d_sport d) (b ++ le 2 (htons (u16 (8 + len (d_data d)))) ++ le 2 c ++ d_data d)); [|apply W]. }
  assert (E2 : ntohs (field 2 (udp_bytes d c) 2) = d_dport d).
  { by apply (field_htons a (d_dport d) (le 2 (htons (u16 (8 + len (d_data d)))) ++ le 2 c ++ d_data d)); [|apply W]. }
  assert (E4 : ntohs (field 2 (udp_bytes d c) 4) = 8 + len (d_data d)).
  { rewrite <-(u16_small (8 + len (d_data d))) by lia.
    by apply (field_htons (a ++ b) (u16 (8 + len (d_data d))) (le 2 c ++ d_data d)); [|apply u16_range]. }
  rewrite E4, E0, E2. destruct (Z.ltb_spec (8 + len (d_data d)) 8); [lia|].
  destruct (Z.ltb_spec (len (udp_bytes d c)) (8 + len (d_data d))); [lia|]. cbn [orb].
  rewrite (ztake_all (8 + len (d_data d))), Hc by lia. cbn [Z.eqb negb]. rewrite andb_false_r, Z.add_simpl_l.
  assert (Ep : udp_bytes d c = (a ++ b ++ le 2 (htons (u16 (8 + len (d_data d)))) ++ le 2 c) ++ d_data d) by done.
  rewrite Ep, zdrop_app, ztake_all by done. by destruct d.
Qed.

(** ** IPv4 *)

Record packet_wf (p : packet) : Prop := {
  pw_src : u32_ok (i_src p); pw_dst : u32_ok (i_dst p); pw_ttl : is_byte (i_ttl p); pw_proto : is_byte (i_proto p);
  pw_data : Forall is_byte (i_data p); pw_len : 20 + len (i_data p) < 2 ^ 16
}.

Lemma inet_checksum_from l : inet_checksum l = checksum_from 0 l.
Proof. done. Qed.

Lemma ip_header_split p id :
  exists a b, (forall c, ip_header p id c = a ++ le 2 c ++ b) /\ Forall is_byte a /\ Forall is_byte b /\ len a = 10 /\ len b = 8.
Proof.
  eexists _, _. split; [intros c; reflexivity|]. split_and!; [| |done..].
  - repeat (apply Forall_app; split); try apply le_bytes; repeat (constructor; [try apply u8_range; done|]); constructor.
  - apply Forall_app. split; apply le_bytes.
Qed.

Lemma ip_header_checksum p id : inet_checksum (ip_header p id (inet_checksum (ip_header p id 0))) = 0.
Proof.
  rewrite !inet_checksum_from. destruct (ip_header_split p id) as (a & b & E & Ha & Hb & La & Lb).
  rewrite !E. replace (le 2 0) with [0; 0] by done. apply checksum_verifies; [done..|by rewrite La|lia|lia].
Qed.

Lemma ip_fields p id c l :
  packet_wf p -> u16_ok id ->
  let k := ip_header p id c ++ l in
  field 1 k 0 = 69 /\ ntohs (field 2 k 2) = 20 + len (i_data p) /\ ntohs (field 2 k 6) = IP_FLAG_DF /\
  field 1 k 8 = i_ttl p /\ field 1 k 9 = i_proto p /\ ntohl (field 4 k 12) = i_src p /\ ntohl (field 4 k 16) = i_dst p.
Proof.
  intros W Hid k. pose proof (pw_len _ W). pose proof (len_nonneg (i_data p)).
  set (n := le 2 (htons (u16 (20 + len (i_data p))))). set (i := le 2 (htons id)). set (f := le 2 (htons IP_FLAG_DF)).
  set (s := le 4 (htonl (i_src p))). set (d := le 4 (htonl (i_dst p))). set (t := u8 (i_ttl p)). set (o := u8 (i_proto p)).
  assert (Et : t = i_ttl p) by (apply u8_small, W). assert (Eo : o = i_proto p) by (apply u8_small, W).
  assert (En : u16 (20 + len (i_data p)) = 20 + len (i_data p)) by (apply u16_small; lia).
  split_and!.
  - by apply (field_byte [] 69 ([0] ++ n ++ i ++ f ++ [t; o] ++ le 2 c ++ s ++ d ++ l)).
  - rewrite <-En. by apply (field_htons [69; 0] (u16 (20 + len (i_data p))) (i ++ f ++ [t; o] ++ le 2 c ++ s ++ d ++ l)); [|apply u16_range].
  - by apply (field_htons ([69; 0] ++ n ++ i) IP_FLAG_DF ([t; o] ++ le 2 c ++ s ++ d ++ l)).
  - rewrite <-Et. by apply (field_byte ([69; 0] ++ n ++ i ++ f) t ([o] ++ le 2 c ++ s ++ d ++ l)); [|apply u8_range].
  - rewrite <-Eo. by apply (field_byte ([69; 0] ++ n ++ i ++ f ++ [t]) o (le 2 c ++ s ++ d ++ l)); [|apply u8_range].
  - by apply (field_htonl ([69; 0] ++ n ++ i ++ f ++ [t; o] ++ le 2 c) (i_src p) (d ++ l)); [|apply W].
  - by apply (field_htonl ([69; 0] ++ n ++ i ++ f ++ [t; o] ++ le 2 c ++ s) (i_dst p) l); [|apply W].
Qed.

(** The frame may be padded after the packet. *)
Lemma ip_roundtrip p id pad : packet_wf p -> u16_ok id -> parse_ip (ip_bytes p id ++ pad) = Some p.
Proof.
  intros W Hid. pose proof (pw_len _ W). pose proof (len_nonneg (i_data p)). pose proof (len_nonneg pad).
  unfold ip_bytes. rewrite <-app_assoc. set (c := inet_checksum (ip_header p id 0)).
  destruct (ip_fields p id c (i_data p ++ pad) W Hid) as (E0 & E2 & E6 & E8 & E9 & E12 & E16). set (k := ip_header p id c ++ _) in *.
  assert (Lh : len (ip_header p id c) = 20) by done.
  assert (Lk : len k = 20 + len (i_data p) + len pad) by (subst k; rewrite !len_app; lia).
  unfold parse_ip. destruct (Z.ltb_spec (len k) 20); [lia|]. rewrite E0, E2, E6, E8, E9, E12, E16.
  change (Z.land 69 0x0F * 4) with 20. cbn zeta. cbn [Z.ltb Z.compare Z.eqb Z.shiftr Pos.compare Pos.compare_cont orb negb].
  change (Z.shiftr 69 4 =? 4) with true. cbn [negb].
  destruct (Z.ltb_spec (len k) 20); [lia|]. destruct (Z.ltb_spec (20 + len (i_data p)) 20); [lia|].
  destruct (Z.ltb_spec (len k) (20 + len (i_data p))); [lia|]. cbn [orb].
  assert (Ek : ztake 20 k = ip_header p id c) by (by apply ztake_app). rewrite Ek. unfold c. rewrite ip_header_checksum.
  change (truth (Z.land IP_FLAG_DF 0x3FFF)) with false. cbn [Z.eqb negb]. fold c.
  assert (Ed : zdrop 20 k = i_data p ++ pad) by (by apply zdrop_app). rewrite Ed, ztake_app by lia. by destruct p.
Qed.

(** ** Ethernet and ARP *)

Lemma eth_roundtrip dst src ty p :
  len dst = 6 -> len src = 6 -> u16_ok ty ->
  let f := eth_frame dst src ty p in
  14 <= len f /\ eth_dst f = dst /\ eth_src f = src /\ eth_type f = ty /\ exists pad, eth_payload f = p ++ pad.
Proof.
  intros Ld Ls Ht f. unfold f, eth_frame, eth_dst, eth_src, eth_type, eth_payload.
  set (pad := replicate _ 0). rewrite <-!app_assoc. pose proof (len_nonneg pad). pose proof (len_nonneg p).
  split_and!.
  - rewrite !len_app, len_le. lia.
  - by apply ztake_app.
  - rewrite (zdrop_app 6 dst) by done. by apply ztake_app.
  - rewrite (app_assoc dst). apply field_htons; [rewrite len_app; lia|done].
  - exists pad. rewrite (app_assoc dst), (app_assoc (dst ++ src)). apply zdrop_app. rewrite !len_app, len_le. unfold ETH_HLEN. lia.
Qed.

Record arp_wf (a : arp_pkt) : Prop := {
  aw_oper : u16_ok (a_oper a); aw_sha : len (a_sha a) = 6; aw_spa : u32_ok (a_spa a); aw_tha : len (a_tha a) = 6;
  aw_tpa : u32_ok (a_tpa a)
}.

Lemma arp_roundtrip a pad : arp_wf a -> parse_arp (arp_bytes a ++ pad) = Some a.
Proof.
  intros [Ho Hs Hsp Ht Htp]. unfold arp_bytes. rewrite <-!app_assoc. pose proof (len_nonneg pad).
  set (h := le 2 (htons 1)). set (y := le 2 (htons ETHERTYPE_IPV4)). set (o := le 2 (htons (a_oper a))).
  set (s := le 4 (htonl (a_spa a))). set (t := le 4 (htonl (a_tpa a))). set (k := h ++ _).
  assert (E0 : ntohs (field 2 k 0) = 1) by (by apply (field_htons [] 1)).
  assert (E2 : ntohs (field 2 k 2) = ETHERTYPE_IPV4) by (by apply (field_htons h ETHERTYPE_IPV4)).
  assert (E4 : field 1 k 4 = 6) by (by apply (field_byte (h ++ y) 6 ([4] ++ o ++ a_sha a ++ s ++ a_tha a ++ t ++ pad))).
  assert (E5 : field 1 k 5 = 4) by (by apply (field_byte (h ++ y ++ [6]) 4 (o ++ a_sha a ++ s ++ a_tha a ++ t ++ pad))).
  assert (E6 : ntohs (field 2 k 6) = a_oper a) by (by apply (field_htons (h ++ y ++ [6; 4]) (a_oper a) (a_sha a ++ s ++ a_tha a ++ t ++ pad))).
  assert (Ek : k = (h ++ y ++ [6; 4] ++ o) ++ a_sha a ++ s ++ a_tha a ++ t ++ pad) by done. clearbody k. subst k.
  set (p := h ++ y ++ [6; 4] ++ o) in *. assert (Lp : len p = 8) by done. clearbody p.
  assert (Lt : len s = 4 /\ len t = 4) by done. destruct Lt as [Lt Lt'].
  unfold parse_arp. destruct (Z.ltb_spec (len (p ++ a_sha a ++ s ++ a_tha a ++ t ++ pad)) 28) as [K|_]; [rewrite !len_app in K; lia|].
  rewrite E0, E2, E4, E5, E6. cbn [Z.eqb Pos.eqb negb orb ETHERTYPE_IPV4].
  assert (F1 : zdrop 8 (p ++ a_sha a ++ s ++ a_tha a ++ t ++ pad) = a_sha a ++ s ++ a_tha a ++ t ++ pad) by (by apply zdrop_app).
  assert (F2 : ntohl (field 4 (p ++ a_sha a ++ s ++ a_tha a ++ t ++ pad) 14) = a_spa a).
  { rewrite app_assoc. apply field_htonl; [rewrite len_app; lia|done]. }
  assert (F3 : zdrop 18 (p ++ a_sha a ++ s ++ a_tha a ++ t ++ pad) = a_tha a ++ t ++ pad).
  { rewrite 2!app_assoc. apply zdrop_app. rewrite !len_app. lia. }
  assert (F4 : ntohl (field 4 (p ++ a_sha a ++ s ++ a_tha a ++ t ++ pad) 24) = a_tpa a).
  { rewrite 3!app_assoc. apply field_htonl; [rewrite !len_app; lia|done]. }
  rewrite F1, F2, F3, F4, !(ztake_app 6) by done. by destruct a.
Qed.

(** * Bytes on the wire *)

Lemma dgram_is_bytes d : dgram_wf d -> Forall is_byte (dgram_bytes d).
Proof. intros W. unfold dgram_bytes, udp_bytes. repeat (apply Forall_app; split); try apply le_bytes. apply W. Qed.

Lemma len_dgram_bytes d : len (dgram_bytes d) = 8 + len (d_data d).
Proof. apply len_udp_bytes. Qed.

Definition demo_seg : segment := Seg (IPV4 10 0 0 1) (IPV4 10 0 0 2) 80 40000 1 2 TCP_ACK 16384 [] [104; 105].

Lemma tcp_wire_roundtrip_witness : parse_seg (IPV4 10 0 0 1) (IPV4 10 0 0 2) (seg_bytes demo_seg) = Some demo_seg.
Proof. apply (tcp_wire_roundtrip demo_seg). by constructor; vm_compute; repeat constructor. Defined.
