(* ===== verification/Sock.v ===== *)
(** Sockets and the table of TCP control blocks: [kernel/net/socket.c],
    [kernel/net/udp.c] and the part of [kernel/net/tcp.c] that works on more than
    one block.

    The list [tcbs] is an association list from addresses to blocks in the order of
    the list; a pointer that is not in it dangles, and following it is [None]. A
    socket pointer is the index of the socket plus one, and so is the address of its
    condition. Segments and datagrams are recorded in the order in which they are
    handed to ipv4_send. What the heap returns is an argument: the address of a
    block and the contents of its buffers, or nothing. *)

From stdpp Require Import base numbers option list.
From Stdlib Require Import ZArith Lia.
From S2P Require Import Prelude Buf Inet Tcp Wire.

Definition SOCK_MAX : Z := 64.
Definition UDP_RXQ_MAX : Z := 64.
Definition SOCK_STREAM : Z := 1.
Definition SOCK_DGRAM : Z := 2.
Definition AF_INET : Z := 2.
Definition SHUT_RD : Z := 0.
Definition SHUT_WR : Z := 1.
Definition SHUT_RDWR : Z := 2.
Definition EDESTADDRREQ : Z := 89.
Definition EPROTONOSUPPORT : Z := 93.
Definition EOPNOTSUPP : Z := 95.
Definition EAFNOSUPPORT : Z := 97.

(** * State *)

Inductive sfield :=
  | S_used | S_type | S_bound | S_lip | S_lport | S_rip | S_rport | S_connected | S_rcvtimeo | S_sndtimeo
  | S_reuseaddr | S_shut_rd | S_shut_wr | S_tcb.

Definition sf_id (f : sfield) : nat :=
  match f with
  | S_used => 0 | S_type => 1 | S_bound => 2 | S_lip => 3 | S_lport => 4 | S_rip => 5 | S_rport => 6 | S_connected => 7
  | S_rcvtimeo => 8 | S_sndtimeo => 9 | S_reuseaddr => 10 | S_shut_rd => 11 | S_shut_wr => 12 | S_tcb => 13
  end.

Definition sf_eqb (f g : sfield) : bool := Nat.eqb (sf_id f) (sf_id g).

(** A queued datagram. *)
Record dgram := Dg { dg_ip : Z; dg_port : Z; dg_data : list Z }.

(** [dq]: the list from dq_head; dq_len is its length. *)
Record sock := Sock { sfld : sfield -> Z; dq : list dgram }.

Definition sset (f : sfield) (v : Z) (s : sock) : sock := Sock (fun g => if sf_eqb g f then v else sfld s g) (dq s).
Definition zero_sock : sock := Sock (fun _ => 0) [].

(** What leaves the module. *)
Inductive event := Ev_seg (g : segment) | Ev_dgram (d : datagram) | Ev_wake (cond : Z) | Ev_count (c : stat) | Ev_udp_rx | Ev_udp_tx.

Record sys := Sys {
  socks : list sock;
  tcbs : list (Z * tcb);
  iss_state : Z;
  next_ephemeral : Z;
  oks : list bool;
  time : Z;
  evs : list event
}.

Definition with_socks (l : list sock) (s : sys) : sys := Sys l (tcbs s) (iss_state s) (next_ephemeral s) (oks s) (time s) (evs s).
Definition with_tcbs (l : list (Z * tcb)) (s : sys) : sys := Sys (socks s) l (iss_state s) (next_ephemeral s) (oks s) (time s) (evs s).
Definition with_iss (v : Z) (s : sys) : sys := Sys (socks s) (tcbs s) v (next_ephemeral s) (oks s) (time s) (evs s).
Definition with_eph (v : Z) (s : sys) : sys := Sys (socks s) (tcbs s) (iss_state s) v (oks s) (time s) (evs s).
Definition with_oks (l : list bool) (s : sys) : sys := Sys (socks s) (tcbs s) (iss_state s) (next_ephemeral s) l (time s) (evs s).
Definition log (e : event) (s : sys) : sys := Sys (socks s) (tcbs s) (iss_state s) (next_ephemeral s) (oks s) (time s) (evs s ++ [e]).

(** * Control blocks *)

Fixpoint get_tcb (p : Z) (l : list (Z * tcb)) : option tcb :=
  match l with
  | [] => None
  | (q, t) :: l => if q =? p then Some t else get_tcb p l
  end.

Fixpoint set_tcb (p : Z) (t : tcb) (l : list (Z * tcb)) : list (Z * tcb) :=
  match l with
  | [] => []
  | (q, u) :: l => if q =? p then (q, t) :: l else (q, u) :: set_tcb p t l
  end.

Fixpoint del_tcb (p : Z) (l : list (Z * tcb)) : list (Z * tcb) :=
  match l with
  | [] => []
  | (q, u) :: l => if q =? p then l else (q, u) :: del_tcb p l
  end.

(** [p->f] and [p->f = v]. *)
Definition tget (p : Z) (f : tfield) (s : sys) : option Z := t ← get_tcb p (tcbs s); Some (fld t f).
Definition tput (p : Z) (f : tfield) (v : Z) (s : sys) : option sys :=
  t ← get_tcb p (tcbs s); Some (with_tcbs (set_tcb p (tset f v t) (tcbs s)) s).

Definition signal_tcb (p : Z) (s : sys) : option sys :=
  c ← tget p T_cond s; Some (if truth c then log (Ev_wake c) s else s).

(** The block [p] goes to the end of the accept queue of [l]. *)
Definition accept_enqueue (p l : Z) (s : sys) : option sys :=
  tail ← tget l T_aq_tail s;
  s ← (if truth tail then tput tail T_aq_next p s else tput l T_aq_head p s);
  s ← tput l T_aq_tail p s;
  n ← tget l T_aq_len s;
  tput l T_aq_len (n + 1) s.

(** What a routine on the block [p] did besides changing it. *)
Definition do_act (p : Z) (a : act) (s : sys) : option sys :=
  match a with
  | Xmit g => Some (log (Ev_seg g) s)
  | Broadcast c => Some (log (Ev_wake c) s)
  | Signal q => signal_tcb q s
  | Half_open_dec l => n ← tget l T_half_open s; tput l T_half_open (n - 1) s
  | Accept_enqueue l => accept_enqueue p l s
  | Count c => Some (log (Ev_count c) s)
  end.

Fixpoint do_acts (p : Z) (l : list act) (s : sys) : option sys :=
  match l with
  | [] => Some s
  | a :: l => s ← do_act p a s; do_acts p l s
  end.

(** A routine of [Tcp] on the block [p]. *)
Definition load (p : Z) (s : sys) : option est := t ← get_tcb p (tcbs s); Some (Est t [] (oks s) (time s)).
Definition store (p : Z) (e : est) (s : sys) : option sys :=
  do_acts p (acts e) (with_oks (segs e) (with_tcbs (set_tcb p (et e) (tcbs s)) s)).
Definition on_tcb (p : Z) (f : est -> option est) (s : sys) : option sys :=
  e ← load p s; e ← f e; store p e s.

Definition new_iss (s : sys) : Z * sys :=
  let v := u32 (u32 (u32 (iss_state s * 1103515245) + 12345) + u32 (u32 (time s) * 2654435761)) in (v, with_iss v s).

(** What the heap returns for tcb_alloc. *)
Definition heap_res : Type := option (Z * list Z * list Z).

Definition tcb_alloc (with_buffers : bool) (r : heap_res) (s : sys) : option Z * sys :=
  match r with
  | None => (None, s)
  | Some (p, b1, b2) =>
      let t := if with_buffers then tcb_init (Some b1) (Some b2) else tcb_init None None in
      (Some p, with_tcbs ((p, t) :: tcbs s) s)
  end.

(** Freeing a block that is not in the list is a double free. *)
Definition tcb_free (p : Z) (s : sys) : option sys :=
  _ ← get_tcb p (tcbs s); Some (with_tcbs (del_tcb p (tcbs s)) s).

(** ** Lookup *)

Fixpoint find_conn (lip lport rip rport : Z) (l : list (Z * tcb)) : option Z :=
  match l with
  | [] => None
  | (p, t) :: l =>
      if (fld t T_state =? TCP_LISTEN) || (fld t T_state =? TCP_CLOSED) then find_conn lip lport rip rport l else
      if (fld t T_lport =? lport) && (fld t T_rport =? rport) && (fld t T_rip =? rip) &&
         ((fld t T_lip =? lip) || (fld t T_lip =? 0)) then Some p
      else find_conn lip lport rip rport l
  end.

Fixpoint find_listener (lip lport : Z) (wildcard : option Z) (l : list (Z * tcb)) : option Z :=
  match l with
  | [] => wildcard
  | (p, t) :: l =>
      if negb (fld t T_state =? TCP_LISTEN) || negb (fld t T_lport =? lport) then find_listener lip lport wildcard l else
      if fld t T_lip =? lip then Some p else
      find_listener lip lport (if fld t T_lip =? 0 then Some p else wildcard) l
  end.

(** ** Input *)

Definition send_rst_raw (g : segment) (s : sys) : sys :=
  log (Ev_seg g) (log (Ev_count st_rst_tx) (log (Ev_count st_tx) s)).

Definition handle_listen (l : Z) (h : segment) (r : heap_res) (s : sys) : option sys :=
  let flags := g_flags h in
  if flag flags TCP_RST then Some s else
  if flag flags TCP_ACK then
    Some (send_rst_raw (rst_segment (g_dst h) (g_src h) (g_dport h) (g_sport h) (g_ack h) 0 false) s) else
  if negb (flag flags TCP_SYN) then Some s else
  lt ← get_tcb l (tcbs s);
  if fld lt T_backlog <=? fld lt T_aq_len + fld lt T_half_open then Some s else
  match tcb_alloc true r s with
  | (None, s) => Some s
  | (Some c, s) =>
      let '(iss, s) := new_iss s in
      s ← tput l T_half_open (fld lt T_half_open + 1) s;
      on_tcb c (fun e => Some (syn_child l (fld lt T_lport) iss h e)) s
  end.

Definition tcp_input (src dst : Z) (pkt : list Z) (r : heap_res) (s : sys) : option sys :=
  match parse_seg src dst pkt with
  | None => Some s
  | Some h =>
      let s := log (Ev_count st_rx) s in
      match find_conn dst (g_dport h) src (g_sport h) (tcbs s) with
      | Some p => on_tcb p (conn_input h) s
      | None =>
          match find_listener dst (g_dport h) None (tcbs s) with
          | Some l => handle_listen l h r s
          | None =>
              if flag (g_flags h) TCP_RST then Some s else
              if flag (g_flags h) TCP_ACK
              then Some (send_rst_raw (rst_segment dst src (g_dport h) (g_sport h) (g_ack h) 0 false) s)
              else
                let seg_len := u32 (u32 (len (g_data h)) + b2z (flag (g_flags h) TCP_SYN) + b2z (flag (g_flags h) TCP_FIN)) in
                Some (send_rst_raw (rst_segment dst src (g_dport h) (g_sport h) 0 (u32 (g_seq h + seg_len)) true) s)
          end
      end
  end.

(** ** The timer *)

Definition timer_one (p : Z) (s : sys) : option sys :=
  e ← load p s;
  '(e, reap) ← timer_tcb e;
  s ← store p e s;
  if (reap : bool) then tcb_free p s else Some s.

Fixpoint timer_all (ps : list Z) (s : sys) : option sys :=
  match ps with
  | [] => Some s
  | p :: ps => s ← timer_one p s; timer_all ps s
  end.

Definition tcp_timer (s : sys) : option sys := timer_all (map fst (tcbs s)) s.

Definition tcp_active_count (s : sys) : Z := len (tcbs s).

(** * The socket table *)

(** A call that returns, or blocks in net_wait and goes on in [k] when it is woken.
    The outer option is a fault. *)
Inductive call :=
  | Ret (v : Z) (s : sys)
  | Wait (ms : Z) (s : sys).

Definition sget (i : nat) (f : sfield) (s : sys) : Z := match socks s !! i with Some k => sfld k f | None => 0 end.
Definition sput (i : nat) (f : sfield) (v : Z) (s : sys) : sys :=
  match socks s !! i with Some k => with_socks (<[i := sset f v k]> (socks s)) s | None => s end.
Definition set_dq (i : nat) (l : list dgram) (s : sys) : sys :=
  match socks s !! i with Some k => with_socks (<[i := Sock (sfld k) l]> (socks s)) s | None => s end.
Definition get_dq (i : nat) (s : sys) : list dgram := match socks s !! i with Some k => dq k | None => [] end.

(** The pointer to socket [i], and to its condition. *)
Definition sock_ptr (i : nat) : Z := Z.of_nat i + 1.

Fixpoint free_slot (l : list sock) (i : nat) : option nat :=
  match l with
  | [] => None
  | k :: l => if truth (sfld k S_used) then free_slot l (S i) else Some i
  end.

Definition sock_alloc (type : Z) (s : sys) : option nat * sys :=
  match free_slot (socks s) 0 with
  | None => (None, s)
  | Some i => (Some i, with_socks (<[i := sset S_type type (sset S_used 1 zero_sock)]> (socks s)) s)
  end.

(** [get(fd)]. *)
Definition get_sock (fd : Z) (s : sys) : option nat :=
  if (fd <? 0) || (SOCK_MAX <=? fd) || negb (truth (sget (Z.to_nat fd) S_used s)) then None else Some (Z.to_nat fd).

Definition sock_open_count (s : sys) : Z := fold_right (fun k n => sfld k S_used + n) 0 (socks s).

Fixpoint port_in_use (type ip port : Z) (l : list sock) : bool :=
  match l with
  | [] => false
  | k :: l =>
      if negb (truth (sfld k S_used)) || negb (truth (sfld k S_bound)) || negb (sfld k S_type =? type)
         || negb (sfld k S_lport =? port) then port_in_use type ip port l else
      if (sfld k S_lip =? 0) || (ip =? 0) || (sfld k S_lip =? ip) then true else port_in_use type ip port l
  end.

Definition sock_port_in_use (type ip port : Z) (s : sys) : bool := port_in_use type ip port (socks s).

Fixpoint eph_loop (tries : nat) (type : Z) (s : sys) : Z * sys :=
  match tries with
  | O => (0, s)
  | S tries =>
      let p := next_ephemeral s in
      let n := u16 (p + 1) in
      let s := with_eph (if n =? 0 then 49152 else n) s in
      if negb (sock_port_in_use type 0 p s) then (p, s) else eph_loop tries type s
  end.

Definition sock_ephemeral_port (type : Z) (s : sys) : Z * sys := eph_loop (Z.to_nat 16384) type s.

Fixpoint udp_find (ip port : Z) (wildcard : option nat) (l : list sock) (i : nat) : option nat :=
  match l with
  | [] => wildcard
  | k :: l =>
      if negb (truth (sfld k S_used)) || negb (sfld k S_type =? SOCK_DGRAM) || negb (truth (sfld k S_bound))
         || negb (sfld k S_lport =? port) then udp_find ip port wildcard l (S i) else
      if sfld k S_lip =? ip then Some i else
      udp_find ip port (if sfld k S_lip =? 0 then Some i else wildcard) l (S i)
  end.

Definition udp_lookup (ip port : Z) (s : sys) : option nat := udp_find ip port None (socks s) 0.

(** * UDP *)

(** [ok]: kmalloc succeeds. *)
Definition udp_input (src dst : Z) (pkt : list Z) (ok : bool) (s : sys) : sys :=
  match parse_dgram src dst pkt with
  | None => s
  | Some d =>
      let s := log Ev_udp_rx s in
      match udp_lookup dst (d_dport d) s with
      | None => s
      | Some i =>
          if truth (sget i S_shut_rd s) || (UDP_RXQ_MAX <=? len (get_dq i s)) then s else
          if negb ok then s else
          log (Ev_wake (sock_ptr i)) (set_dq i (get_dq i s ++ [Dg src (d_sport d) (d_data d)]) s)
      end
  end.

(** [src_for] is ipv4_src_for, [rc] the result of ipv4_send. *)
Definition udp_output (src_for : Z -> Z) (src_ip src_port dst_ip dst_port : Z) (data : list Z) (ok : bool) (rc : Z) (s : sys) : Z * sys :=
  if negb ok then (- ENOBUFS, s) else
  let src_ip := if src_ip =? 0 then src_for dst_ip else src_ip in
  if src_ip =? 0 then (- ENETUNREACH, s) else
  let s := log (Ev_dgram (Dgram src_ip dst_ip src_port dst_port data)) (log Ev_udp_tx s) in
  (if rc <? 0 then rc else 0, s).

(** * Addresses *)

(** A sockaddr_in: family, port and address in network order; [None] is NULL. *)
Definition sockaddr : Type := option (Z * Z * Z).
Definition sockaddr_len : Z := 16.

Definition parse_addr (a : sockaddr) (alen : Z) : Z + Z * Z :=
  match a with
  | None => inl (- EINVAL)
  | Some (family, port, addr) =>
      if alen <? sockaddr_len then inl (- EINVAL) else
      if negb (family =? AF_INET) then inl (- EAFNOSUPPORT) else inr (ntohl addr, ntohs port)
  end.

(** The sockaddr_in that fill_addr copies out. *)
Definition fill_addr (ip port : Z) : Z * Z * Z := (AF_INET, htons port, htonl ip).

(** The address a call has filled in, if it has. *)
Definition from : Type := option (Z * Z * Z).

(** * TCP calls *)

Definition tcp_listen (i : nat) (backlog : Z) (r : heap_res) (s : sys) : option (Z * sys) :=
  let t := sget i S_tcb s in
  if truth t then
    st ← tget t T_state s;
    if st =? TCP_LISTEN then s ← tput t T_backlog (if 0 <? backlog then backlog else 1) s; Some (0, s)
    else Some (- EISCONN, s)
  else
    match tcb_alloc false r s with
    | (None, s) => Some (- ENOBUFS, s)
    | (Some l, s) =>
        s ← tput l T_state TCP_LISTEN s;
        s ← tput l T_lip (sget i S_lip s) s;
        s ← tput l T_lport (sget i S_lport s) s;
        s ← tput l T_backlog (if 0 <? backlog then if 64 <? backlog then 64 else backlog else 1) s;
        s ← tput l T_sock (sock_ptr i) s;
        s ← tput l T_cond (sock_ptr i) s;
        Some (0, sput i S_tcb l s)
    end.

(** tcp_accept: the connection at the head of the queue gets a socket. *)
Definition accept_pop (l : Z) (s : sys) : option (Z * Z * Z * sys) :=
  c ← tget l T_aq_head s;
  next ← tget c T_aq_next s;
  s ← tput l T_aq_head next s;
  s ← (if next =? 0 then tput l T_aq_tail 0 s else Some s);
  n ← tget l T_aq_len s;
  s ← tput l T_aq_len (n - 1) s;
  s ← tput c T_aq_next 0 s;
  s ← tput c T_parent 0 s;
  ct ← get_tcb c (tcbs s);
  match sock_alloc SOCK_STREAM s with
  | (None, s) =>
      s ← on_tcb c (fun e => Some (put T_state TCP_CLOSED (tcp_xmit (e#T_snd_nxt) (Z.lor TCP_RST TCP_ACK) [] false e))) s;
      Some (- EMFILE, 0, 0, s)
  | (Some j, s) =>
      let s := sput j S_bound 1 s in
      let s := sput j S_lip (fld ct T_lip) s in
      let s := sput j S_lport (fld ct T_lport) s in
      let s := sput j S_rip (fld ct T_rip) s in
      let s := sput j S_rport (fld ct T_rport) s in
      let s := sput j S_tcb c s in
      s ← tput c T_sock (sock_ptr j) s;
      s ← tput c T_cond (sock_ptr j) s;
      Some (Z.of_nat j, fld ct T_rip, fld ct T_rport, s)
  end.

(** [while (!l->aq_head)]: a round. *)
Definition accept_round (l deadline : Z) (s : sys) : option (from * call) :=
  h ← tget l T_aq_head s;
  if truth h then
    '(fd, rip, rport, s) ← accept_pop l s;
    Some (if 0 <=? fd then Some (fill_addr rip rport) else None, Ret fd s)
  else
  if truth deadline then
    if deadline <=? time s then Some (None, Ret (- EAGAIN) s) else Some (None, Wait (deadline - time s) s)
  else Some (None, Wait 0 s).

Definition tcp_accept (i : nat) (s : sys) : option (from * call) :=
  let l := sget i S_tcb s in
  if l =? 0 then Some (None, Ret (- EINVAL) s) else
  st ← tget l T_state s;
  if negb (st =? TCP_LISTEN) then Some (None, Ret (- EINVAL) s) else
  accept_round l (if truth (sget i S_rcvtimeo s) then u64 (time s + sget i S_rcvtimeo s) else 0) s.

(** After net_wait; [l] and [deadline] are the locals of the call. *)
Definition accept_woken (i : nat) (l deadline : Z) (s : sys) : option (from * call) :=
  if negb (truth (sget i S_used s)) || negb (sget i S_tcb s =? l) then Some (None, Ret (- EBADF) s) else accept_round l deadline s.

(** [while (t->state == TCP_SYN_SENT)] and what follows; [t] is not looked up
    again. *)
Definition connect_round (i : nat) (t deadline : Z) (s : sys) : option call :=
  st ← tget t T_state s;
  if (st =? TCP_SYN_SENT) && (time s <? deadline) then Some (Wait (deadline - time s) s) else
  if st =? TCP_ESTABLISHED then Some (Ret 0 s) else
  err ← tget t T_err s;
  s ← tcb_free t (sput i S_tcb 0 s);
  Some (Ret (- (if truth err then err else ETIMEDOUT)) s).

Definition tcp_connect (src_for : Z -> Z) (i : nat) (rip rport : Z) (r : heap_res) (s : sys) : option call :=
  let t := sget i S_tcb s in
  if truth t then st ← tget t T_state s; Some (Ret (if st =? TCP_LISTEN then - EINVAL else - EISCONN) s) else
  let lip := if truth (sget i S_lip s) then sget i S_lip s else src_for rip in
  if lip =? 0 then Some (Ret (- ENETUNREACH) s) else
  let '(bound, s) :=
    if negb (truth (sget i S_bound s)) then
      let '(p, s) := sock_ephemeral_port SOCK_STREAM s in
      let s := sput i S_lport p s in
      if p =? 0 then (false, s) else (true, sput i S_bound 1 s)
    else (true, s) in
  if negb bound then Some (Ret (- EADDRINUSE) s) else
  match tcb_alloc true r s with
  | (None, s) => Some (Ret (- ENOBUFS) s)
  | (Some t, s) =>
      let '(iss, s) := new_iss s in
      let s := sput i S_tcb t s in
      s ← on_tcb t (fun e => Some (connect_syn (sock_ptr i) (sock_ptr i) lip (sget i S_lport s) rip rport iss e)) s;
      let timeout := if truth (sget i S_sndtimeo s) then sget i S_sndtimeo s else TCP_CONNECT_TIMEOUT_MS in
      connect_round i t (u64 (time s + timeout)) s
  end.

(** The loop of tcp_send from [done] on: [Wait] keeps [done]. *)
Fixpoint send_rounds (fuel : nat) (t : Z) (buf : list Z) (done deadline : Z) (dontwait : bool) (s : sys) : option (Z * call) :=
  match fuel with
  | O => None
  | S fuel =>
      e ← load t s;
      r ← tcp_send_round buf done deadline dontwait e;
      match r with
      | Send_ret v _ => Some (done, Ret v s)
      | Send_waits d ms _ => Some (d, Wait ms s)
      | Send_more d e => s ← store t e s; send_rounds fuel t buf d deadline dontwait s
      end
  end.

(** A round takes a byte at least. *)
Definition send_fuel (buf : list Z) : nat := S (length buf).

Definition tcp_send (i : nat) (buf : list Z) (dontwait : bool) (s : sys) : option (Z * call) :=
  let t := sget i S_tcb s in
  if t =? 0 then Some (0, Ret (- ENOTCONN) s) else
  st ← tget t T_state s;
  if st =? TCP_LISTEN then Some (0, Ret (- ENOTCONN) s) else
  fq ← tget t T_fin_queued s;
  if truth (sget i S_shut_wr s) || truth fq then Some (0, Ret (- EPIPE) s) else
  let deadline := if truth (sget i S_sndtimeo s) then u64 (time s + sget i S_sndtimeo s) else 0 in
  send_rounds (send_fuel buf) t buf 0 deadline dontwait s.

Definition send_woken (i : nat) (t : Z) (buf : list Z) (done deadline : Z) (dontwait : bool) (s : sys) : option (Z * call) :=
  if negb (sget i S_tcb s =? t) then Some (done, Ret (if truth done then done else - EBADF) s)
  else send_rounds (send_fuel buf) t buf done deadline dontwait s.

(** A round of tcp_recv; the bytes it stores in the caller's buffer are returned. *)
Definition recv_round (i : nat) (t n deadline : Z) (dontwait : bool) (s : sys) : option (list Z * call) :=
  e ← load t s;
  r ← tcp_recv_round n deadline dontwait (truth (sget i S_shut_rd s)) e;
  match r with
  | Recv_ret v bs e => s ← store t e s; Some (bs, Ret v s)
  | Recv_waits ms _ => Some ([], Wait ms s)
  end.

Definition tcp_recv (i : nat) (n : Z) (dontwait : bool) (s : sys) : option (list Z * call) :=
  let t := sget i S_tcb s in
  if t =? 0 then Some ([], Ret (- ENOTCONN) s) else
  st ← tget t T_state s;
  if st =? TCP_LISTEN then Some ([], Ret (- EINVAL) s) else
  if n =? 0 then Some ([], Ret 0 s) else
  let deadline := if truth (sget i S_rcvtimeo s) then u64 (time s + sget i S_rcvtimeo s) else 0 in
  recv_round i t n deadline dontwait s.

Definition recv_woken (i : nat) (t n deadline : Z) (dontwait : bool) (s : sys) : option (list Z * call) :=
  if negb (sget i S_tcb s =? t) then Some ([], Ret (- EBADF) s) else recv_round i t n deadline dontwait s.

Definition tcp_shutdown (i : nat) (how : Z) (s : sys) : option (Z * sys) :=
  let t := sget i S_tcb s in
  if t =? 0 then Some (- ENOTCONN, s) else
  if (how =? SHUT_WR) || (how =? SHUT_RDWR) then s ← on_tcb t queue_fin s; Some (0, s) else Some (0, s).

(** The connections a listener has spawned. *)
Fixpoint close_children (l : Z) (ps : list Z) (s : sys) : option sys :=
  match ps with
  | [] => Some s
  | c :: ps =>
      par ← tget c T_parent s;
      s ← (if par =? l then
             on_tcb c (fun e =>
               let e := if negb (e#T_state =? TCP_CLOSED) then tcp_xmit (e#T_snd_nxt) (Z.lor TCP_RST TCP_ACK) [] false e else e in
               Some (put T_parent 0 (put T_state TCP_CLOSED e))) s
           else Some s);
      close_children l ps s
  end.

Definition tcp_close (i : nat) (s : sys) : option sys :=
  let t := sget i S_tcb s in
  let s := sput i S_tcb 0 s in
  if t =? 0 then Some s else
  st ← tget t T_state s;
  if st =? TCP_LISTEN then s ← close_children t (map fst (tcbs s)) s; tcb_free t s else
  if (st =? TCP_SYN_SENT) || (st =? TCP_CLOSED) then tcb_free t s else
  on_tcb t orphan_close s.

(** * The socket calls *)

(** A result below zero is the errno that FAIL sets. *)

Definition socket (domain type : Z) (s : sys) : Z * sys :=
  if negb (domain =? AF_INET) then (- EAFNOSUPPORT, s) else
  if negb (type =? SOCK_STREAM) && negb (type =? SOCK_DGRAM) then (- EPROTONOSUPPORT, s) else
  match sock_alloc type s with
  | (None, s) => (- EMFILE, s)
  | (Some i, s) => (Z.of_nat i, s)
  end.

Definition bind (fd : Z) (a : sockaddr) (alen : Z) (s : sys) : Z * sys :=
  match parse_addr a alen with
  | inl e => (e, s)
  | inr (ip, port) =>
      match get_sock fd s with
      | None => (- EBADF, s)
      | Some i =>
          if truth (sget i S_bound s) then (- EINVAL, s) else
          let '(port, s) := if port =? 0 then sock_ephemeral_port (sget i S_type s) s else (port, s) in
          if (port =? 0) || (negb (truth (sget i S_reuseaddr s)) && sock_port_in_use (sget i S_type s) ip port s)
          then (- EADDRINUSE, s)
          else (0, sput i S_bound 1 (sput i S_lport port (sput i S_lip ip s)))
      end
  end.

(** The binding that listen, connect and sendto do on the way. *)
Definition auto_bind (i : nat) (type : Z) (s : sys) : sys :=
  if negb (truth (sget i S_bound s)) then
    let '(p, s) := sock_ephemeral_port type s in sput i S_bound 1 (sput i S_lport p s)
  else s.

Definition listen (fd backlog : Z) (r : heap_res) (s : sys) : option (Z * sys) :=
  match get_sock fd s with
  | None => Some (- EBADF, s)
  | Some i =>
      if negb (sget i S_type s =? SOCK_STREAM) then Some (- EOPNOTSUPP, s) else
      tcp_listen i backlog r (auto_bind i SOCK_STREAM s)
  end.

Definition accept (fd : Z) (s : sys) : option (from * call) :=
  match get_sock fd s with
  | None => Some (None, Ret (- EBADF) s)
  | Some i => if negb (sget i S_type s =? SOCK_STREAM) then Some (None, Ret (- EOPNOTSUPP) s) else tcp_accept i s
  end.

Definition connect (src_for : Z -> Z) (fd : Z) (a : sockaddr) (alen : Z) (r : heap_res) (s : sys) : option call :=
  match parse_addr a alen with
  | inl e => Some (Ret e s)
  | inr (ip, port) =>
      match get_sock fd s with
      | None => Some (Ret (- EBADF) s)
      | Some i =>
          if sget i S_type s =? SOCK_DGRAM then
            let s := auto_bind i SOCK_DGRAM s in
            Some (Ret 0 (sput i S_connected 1 (sput i S_rport port (sput i S_rip ip s))))
          else if (port =? 0) || (ip =? 0) then Some (Ret (- EINVAL) s)
          else tcp_connect src_for i ip port r s
      end
  end.

(** [null]: buf is NULL. [ok], [rc]: kmalloc and ipv4_send in udp_output. The first
    component is the bytes a blocked tcp_send has taken. *)
Definition sendto (src_for : Z -> Z) (fd : Z) (buf : list Z) (null dontwait : bool) (a : sockaddr) (alen : Z)
    (ok : bool) (rc : Z) (s : sys) : option (Z * call) :=
  if null && negb (len buf =? 0) then Some (0, Ret (- EFAULT) s) else
  match get_sock fd s with
  | None => Some (0, Ret (- EBADF) s)
  | Some i =>
      if sget i S_type s =? SOCK_STREAM then tcp_send i buf dontwait s else
      match (match a with
             | Some _ => parse_addr a alen
             | None => if truth (sget i S_connected s) then inr (sget i S_rip s, sget i S_rport s) else inl (- EDESTADDRREQ)
             end) with
      | inl e => Some (0, Ret e s)
      | inr (ip, port) =>
          if ETH_MTU - 20 - 8 <? len buf then Some (0, Ret (- EMSGSIZE) s) else
          let s := auto_bind i SOCK_DGRAM s in
          let '(r, s) := udp_output src_for (sget i S_lip s) (sget i S_lport s) ip port buf ok rc s in
          Some (0, Ret (if r <? 0 then r else len buf) s)
      end
  end.

(** What recvfrom does after tcp_recv: the peer's address is filled in. *)
Definition recv_from (i : nat) (r : option (list Z * call)) : option (list Z * from * call) :=
  '(bs, c) ← r;
  match c with
  | Ret v s =>
      let t := sget i S_tcb s in
      if (0 <=? v) && truth t
      then rip ← tget t T_rip s; rport ← tget t T_rport s; Some (bs, Some (fill_addr rip rport), c)
      else Some (bs, None, c)
  | Wait _ _ => Some (bs, None, c)
  end.

(** The loop of recvfrom on a datagram socket; a datagram is cut to the buffer. *)
Definition udp_recv_round (i : nat) (n deadline : Z) (dontwait : bool) (s : sys) : list Z * from * call :=
  match get_dq i s with
  | d :: rest =>
      let m := if len (dg_data d) <? n then len (dg_data d) else n in
      (ztake m (dg_data d), Some (fill_addr (dg_ip d) (dg_port d)), Ret m (set_dq i rest s))
  | [] =>
      if dontwait then ([], None, Ret (- EAGAIN) s) else
      if truth (sget i S_shut_rd s) then ([], None, Ret 0 s) else
      if truth deadline then
        if deadline <=? time s then ([], None, Ret (- EAGAIN) s) else ([], None, Wait (deadline - time s) s)
      else ([], None, Wait 0 s)
  end.

(** After net_wait: only the slot is tested, not whose it is. *)
Definition udp_recv_woken (i : nat) (n deadline : Z) (dontwait : bool) (s : sys) : list Z * from * call :=
  if negb (truth (sget i S_used s)) then ([], None, Ret (- EBADF) s) else udp_recv_round i n deadline dontwait s.

Definition recvfrom (fd n : Z) (null dontwait : bool) (s : sys) : option (list Z * from * call) :=
  if null && negb (n =? 0) then Some ([], None, Ret (- EFAULT) s) else
  match get_sock fd s with
  | None => Some ([], None, Ret (- EBADF) s)
  | Some i =>
      if sget i S_type s =? SOCK_STREAM then recv_from i (tcp_recv i n dontwait s) else
      let deadline := if truth (sget i S_rcvtimeo s) then u64 (time s + sget i S_rcvtimeo s) else 0 in
      Some (udp_recv_round i n deadline dontwait s)
  end.

Definition send (src_for : Z -> Z) (fd : Z) (buf : list Z) (null dontwait : bool) (ok : bool) (rc : Z) (s : sys) : option (Z * call) :=
  sendto src_for fd buf null dontwait None 0 ok rc s.

Definition recv (fd n : Z) (null dontwait : bool) (s : sys) : option (list Z * from * call) := recvfrom fd n null dontwait s.

Definition SOL_SOCKET : Z := 1.
Definition SO_REUSEADDR : Z := 2.
Definition SO_RCVTIMEO : Z := 20.
Definition SO_SNDTIMEO : Z := 21.

(** [optval]: the words at the pointer (a timeval is two), [None] for NULL. *)
Definition setsockopt (fd level optname : Z) (optval : option (Z * Z)) (optlen : Z) (s : sys) : Z * sys :=
  if negb (level =? SOL_SOCKET) then (- EINVAL, s) else
  match get_sock fd s with
  | None => (- EBADF, s)
  | Some i =>
      if (optname =? SO_RCVTIMEO) || (optname =? SO_SNDTIMEO) then
        match optval with
        | None => (- EINVAL, s)
        | Some (sec, usec) =>
            if optlen <? 16 then (- EINVAL, s) else
            let ms := u64 (u64 (u64 sec * 1000) + u64 usec / 1000) in
            (0, sput i (if optname =? SO_RCVTIMEO then S_rcvtimeo else S_sndtimeo) ms s)
        end
      else if optname =? SO_REUSEADDR then
        match optval with
        | None => (- EINVAL, s)
        | Some (v, _) => if optlen <? 4 then (- EINVAL, s) else (0, sput i S_reuseaddr (b2z (negb (s32 v =? 0))) s)
        end
      else (- EINVAL, s)
  end.

Definition getsockname (fd : Z) (s : sys) : option (Z + Z * Z * Z) :=
  match get_sock fd s with
  | None => Some (inl (- EBADF))
  | Some i =>
      let ip := sget i S_lip s in
      ip ← (if truth (sget i S_tcb s)
            then l ← tget (sget i S_tcb s) T_lip s; Some (if truth l then l else ip) else Some ip);
      Some (inr (fill_addr ip (sget i S_lport s)))
  end.

Definition shutdown (fd how : Z) (s : sys) : option (Z * sys) :=
  if (how <? SHUT_RD) || (SHUT_RDWR <? how) then Some (- EINVAL, s) else
  match get_sock fd s with
  | None => Some (- EBADF, s)
  | Some i =>
      let s := if (how =? SHUT_RD) || (how =? SHUT_RDWR) then sput i S_shut_rd 1 s else s in
      let s := if (how =? SHUT_WR) || (how =? SHUT_RDWR) then sput i S_shut_wr 1 s else s in
      '(rc, s) ← (if sget i S_type s =? SOCK_STREAM then tcp_shutdown i how s else Some (0, s));
      Some (rc, log (Ev_wake (sock_ptr i)) s)
  end.

Definition sock_close (fd : Z) (s : sys) : option (Z * sys) :=
  match get_sock fd s with
  | None => Some (- EBADF, s)
  | Some i =>
      s ← (if sget i S_type s =? SOCK_STREAM then tcp_close i s else Some (set_dq i [] s));
      Some (0, sput i S_used 0 (log (Ev_wake (sock_ptr i)) s))
  end.

(** The statics at boot. *)
Definition boot : sys := Sys (replicate 64 zero_sock) [] 0x4D414B48 49152 [] 0 [].
