(* ===== verification/SockInv.v ===== *)
(** The table of control blocks: the invariant that ties listeners, children and
    accept queues together, and the sockets to their blocks. *)

From stdpp Require Import base numbers option list.
From Stdlib Require Import ZArith Lia.
From S2P Require Import Prelude Buf Inet Tcp TcpFrame TcpStream TcpSafe TcpFamily Wire Sock.

(** * The list of blocks *)

Lemma get_set_eq p t l : get_tcb p l <> None -> get_tcb p (set_tcb p t l) = Some t.
Proof.
  induction l as [|[q u] l IH]; [done|]. cbn. destruct (Z.eqb_spec q p) as [->|N]; cbn.
  - by rewrite Z.eqb_refl.
  - destruct (Z.eqb_spec q p); [done|]. done.
Qed.

Lemma get_set_ne p q t l : p <> q -> get_tcb p (set_tcb q t l) = get_tcb p l.
Proof.
  intros N. induction l as [|[r u] l IH]; [done|]. cbn. destruct (Z.eqb_spec r q) as [->|]; cbn; [|by rewrite IH].
  destruct (Z.eqb_spec q p); [done|]. done.
Qed.

Lemma keys_set p t l : map fst (set_tcb p t l) = map fst l.
Proof. induction l as [|[q u] l IH]; [done|]. cbn. destruct (q =? p); cbn; [done|by rewrite IH]. Qed.

Lemma get_none p l : get_tcb p l = None <-> p ∉ map fst l.
Proof.
  induction l as [|[q u] l IH]; cbn; [split; [intros _ H; inversion H|done]|].
  rewrite not_elem_of_cons. destruct (Z.eqb_spec q p); [split; [done|intros [? _]; done]|]. rewrite IH. split; [auto|tauto].
Qed.

Lemma get_del_ne p q l : p <> q -> get_tcb p (del_tcb q l) = get_tcb p l.
Proof.
  intros N. induction l as [|[r u] l IH]; [done|]. cbn. destruct (Z.eqb_spec r q) as [->|]; cbn; [|by rewrite IH].
  destruct (Z.eqb_spec q p); done.
Qed.

Lemma get_del_eq p l : NoDup (map fst l) -> get_tcb p (del_tcb p l) = None.
Proof.
  induction l as [|[q u] l IH]; [done|]. cbn. rewrite NoDup_cons. intros [Hn Hd].
  destruct (Z.eqb_spec q p) as [->|]; [by apply get_none|]. cbn. destruct (Z.eqb_spec q p); [done|]. auto.
Qed.

Lemma del_sub p q l : q ∈ map fst (del_tcb p l) -> q ∈ map fst l.
Proof.
  induction l as [|[r u] l IH]; [done|]. cbn. destruct (r =? p); cbn; [by right|]. rewrite !elem_of_cons. intros [->|?]; auto.
Qed.

Lemma keys_del p l : NoDup (map fst l) -> NoDup (map fst (del_tcb p l)).
Proof.
  induction l as [|[q u] l IH]; [done|]. cbn. rewrite NoDup_cons. intros [Hn Hd].
  destruct (q =? p); [done|]. cbn. apply NoDup_cons. split; [by intros ?%del_sub|auto].
Qed.

(** ** Half-open children *)

Definition is_half (l : Z) (t : tcb) : bool := (fld t T_parent =? l) && (fld t T_state =? TCP_SYN_RCVD).

Fixpoint half (l : Z) (tl : list (Z * tcb)) : Z :=
  match tl with
  | [] => 0
  | (_, t) :: tl => b2z (is_half l t) + half l tl
  end.

Lemma half_set l c t t' tl : get_tcb c tl = Some t -> half l (set_tcb c t' tl) = half l tl - b2z (is_half l t) + b2z (is_half l t').
Proof.
  induction tl as [|[q u] tl IH]; [done|]. cbn. destruct (Z.eqb_spec q c) as [->|]; cbn.
  - intros [= ->]. lia.
  - intros H. rewrite IH by done. lia.
Qed.

Lemma half_del l c t tl : get_tcb c tl = Some t -> half l (del_tcb c tl) = half l tl - b2z (is_half l t).
Proof.
  induction tl as [|[q u] tl IH]; [done|]. cbn. destruct (Z.eqb_spec q c) as [->|]; cbn.
  - intros [= ->]. lia.
  - intros H. rewrite IH by done. lia.
Qed.

Lemma half_none l tl : (forall c t, get_tcb c tl = Some t -> fld t T_parent <> l) -> NoDup (map fst tl) -> half l tl = 0.
Proof.
  induction tl as [|[q u] tl IH]; [done|]. intros H Hd. cbn in *. apply NoDup_cons in Hd as [Hn Hd].
  pose proof (H q u) as Hq. rewrite Z.eqb_refl in Hq. unfold is_half.
  destruct (Z.eqb_spec (fld u T_parent) l); [by destruct Hq|]. cbn [andb b2z]. rewrite IH; [done| |done].
  intros c t Hc. apply (H c t). destruct (Z.eqb_spec q c) as [->|]; [|done]. exfalso. apply Hn.
  destruct (decide (c ∈ map fst tl)) as [?|Hx]; [done|]. apply get_none in Hx. congruence.
Qed.

(** ** Accept queues *)

Definition next_of (tl : list (Z * tcb)) (c : Z) : option Z := t ← get_tcb c tl; Some (fld t T_aq_next).

(** The queue that starts at [h] is [q]. *)
Fixpoint linked (tl : list (Z * tcb)) (h : Z) (q : list Z) : Prop :=
  match q with
  | [] => h = 0
  | c :: q => h = c /\ exists n, next_of tl c = Some n /\ linked tl n q
  end.

Lemma linked_ext tl tl' h q : (forall c, c ∈ q -> next_of tl' c = next_of tl c) -> linked tl h q -> linked tl' h q.
Proof.
  revert h. induction q as [|c q IH]; intros h E; [done|]. cbn. intros (-> & n & En & L). split; [done|]. exists n.
  split; [rewrite E; [done|by left]|]. apply IH; [|done]. intros c' Hc. apply E. by right.
Qed.

Definition last_of (q : list Z) : Z := default 0 (last q).

Lemma last_of_snoc q c : last_of (q ++ [c]) = c.
Proof. unfold last_of. by rewrite last_snoc. Qed.

Lemma last_of_cons x y q : last_of (x :: y :: q) = last_of (y :: q).
Proof. done. Qed.

Lemma last_of_in q : q <> [] -> last_of q ∈ q.
Proof.
  induction q as [|x [|y q] IH]; [done|intros _; by left|]. intros _. rewrite last_of_cons. right. by apply IH.
Qed.

(** [c] is linked behind the last. *)
Lemma linked_snoc tl tl' h q c :
  q <> [] -> linked tl h q -> NoDup q -> next_of tl' c = Some 0 ->
  (forall x, x ∈ q -> x <> last_of q -> next_of tl' x = next_of tl x) ->
  next_of tl' (last_of q) = Some c -> linked tl' h (q ++ [c]).
Proof.
  intros Hne L D Ec. revert h L D Hne. induction q as [|x q IH]; intros h L D Hne Ek El; [done|].
  destruct L as (-> & n & En & L). apply NoDup_cons in D as [Hx D]. destruct q as [|y q].
  - change (last_of [x]) with x in El. cbn. split; [done|]. exists c. split; [done|]. split; [done|]. by exists 0.
  - rewrite last_of_cons in Ek, El. cbn [app linked]. split; [done|]. exists n. split.
    + rewrite Ek; [done|by left|]. intros ->. apply Hx, last_of_in. done.
    + apply IH; try done. intros z Hz. apply Ek. by right.
Qed.

(** * The invariant *)

(** [Q l] is the accept queue of the listener [l]. The invariant may be broken at
    three places while a routine is under way: the count of half-open children of
    [l] is off by [D l], the block [X] is not in its queue yet, and the listener [L]
    is being torn down. *)
Record store_at (tl : list (Z * tcb)) (Q : Z -> list Z) (D : Z -> Z) (X L : option Z) : Prop := {
  k_nodup : NoDup (map fst tl);
  k_nz : forall p t, get_tcb p tl = Some t -> p <> 0;
  k_safe : forall p t, get_tcb p tl = Some t -> fld t T_state = TCP_LISTEN \/ safe t;
  k_par : forall c t, get_tcb c tl = Some t -> fld t T_parent <> 0 ->
    fld t T_state <> TCP_LISTEN /\ fld t T_sock = 0 /\
    (fld t T_state <> TCP_SYN_RCVD -> Some c <> X -> Some (fld t T_parent) <> L -> c ∈ Q (fld t T_parent)) /\
    exists lt, get_tcb (fld t T_parent) tl = Some lt /\ fld lt T_state = TCP_LISTEN;
  k_lis : forall l lt, get_tcb l tl = Some lt -> fld lt T_state = TCP_LISTEN -> Some l <> L ->
    fld lt T_half_open = half l tl + D l /\ fld lt T_aq_len = len (Q l) /\ fld lt T_aq_tail = last_of (Q l) /\
    linked tl (fld lt T_aq_head) (Q l) /\ NoDup (Q l);
  k_rtx : forall l lt, get_tcb l tl = Some lt -> fld lt T_state = TCP_LISTEN -> fld lt T_rtx_deadline = 0;
  k_que : forall l c, c ∈ Q l -> Some l <> L -> l <> 0 /\ Some c <> X /\
    exists t, get_tcb c tl = Some t /\ fld t T_parent = l /\ fld t T_state <> TCP_SYN_RCVD
}.

Definition store_ok (tl : list (Z * tcb)) (Q : Z -> list Z) : Prop := store_at tl Q (fun _ => 0) None None.

(** A listener has no parent. *)
Lemma listener_root tl Q D X L l lt :
  store_at tl Q D X L -> get_tcb l tl = Some lt -> fld lt T_state = TCP_LISTEN -> fld lt T_parent = 0.
Proof. intros K G S. destruct (Z.eq_dec (fld lt T_parent) 0); [done|]. by destruct (k_par _ _ _ _ _ K _ _ G). Qed.

Lemma get_set tl c t t' p : get_tcb c tl = Some t -> get_tcb p (set_tcb c t' tl) = if decide (p = c) then Some t' else get_tcb p tl.
Proof. intros G. destruct (decide (p = c)) as [->|N]; [apply get_set_eq; congruence|by apply get_set_ne]. Qed.

Lemma next_set tl c t t' p :
  get_tcb c tl = Some t -> next_of (set_tcb c t' tl) p = if decide (p = c) then Some (fld t' T_aq_next) else next_of tl p.
Proof. intros G. unfold next_of. rewrite (get_set _ _ _ _ _ G). by destruct (decide (p = c)). Qed.

(** A block that is not a listener changes. If it is in a queue it stays there; if
    not, it is where [X] says. *)
Lemma store_block tl Q c t t' :
  store_ok tl Q -> get_tcb c tl = Some t -> fld t T_state <> TCP_LISTEN -> fld t' T_state <> TCP_LISTEN -> safe t' ->
  (fld t' T_parent = fld t T_parent /\ fld t' T_sock = fld t T_sock \/ fld t' T_parent = 0) ->
  (c ∈ Q (fld t T_parent) -> fld t' T_parent = fld t T_parent /\ fld t' T_aq_next = fld t T_aq_next /\ fld t' T_state <> TCP_SYN_RCVD) ->
  store_at (set_tcb c t' tl) Q (fun l => b2z (is_half l t) - b2z (is_half l t'))
    (if decide (c ∈ Q (fld t T_parent)) then None else Some c) None.
Proof.
  intros [KN KZ KS KP KL KR KQ] G NL NL' S HP HQ.
  assert (GS : forall p, get_tcb p (set_tcb c t' tl) = if decide (p = c) then Some t' else get_tcb p tl) by (intros; by eapply get_set).
  assert (Hc : forall l, c ∈ Q l -> fld t T_parent = l).
  { intros l Hc. destruct (KQ l c Hc) as (_ & _ & u & Gu & Eu & _); [done|]. congruence. }
  constructor.
  - by rewrite keys_set.
  - intros p u. rewrite GS. destruct (decide (p = c)) as [->|]; [intros _; by apply (KZ c t)|apply KZ].
  - intros p u. rewrite GS. destruct (decide (p = c)) as [->|]; [intros [= <-]; by right|apply KS].
  - intros p u. rewrite GS.
    assert (KL' : forall l lt, get_tcb l tl = Some lt -> fld lt T_state = TCP_LISTEN ->
      exists lt', get_tcb l (set_tcb c t' tl) = Some lt' /\ fld lt' T_state = TCP_LISTEN).
    { intros l lt Gl El. exists lt. rewrite GS. destruct (decide (l = c)) as [->|]; [congruence|done]. }
    destruct (decide (p = c)) as [->|Np].
    + intros [= <-] Hp. destruct HP as [[Ep Es]|?]; [|done]. rewrite Ep in Hp. destruct (KP c t G Hp) as (_ & E0 & Hq & lt & Gl & El).
      split; [done|]. split; [by rewrite Es|]. split; [|rewrite Ep; by eapply KL']. rewrite Ep. intros Hs HX _.
      destruct (decide (c ∈ Q (fld t T_parent))); done.
    + intros Gu Hp. destruct (KP p u Gu Hp) as (A & B & Hq & lt & Gl & El). split; [done|]. split; [done|].
      split; [|by eapply KL']. intros Hs _ _. apply Hq; done.
  - intros l lt. rewrite GS. destruct (decide (l = c)) as [->|Nl]; [intros [= <-]; done|]. intros Gl El _.
    destruct (KL l lt Gl El) as (H1 & H2 & H3 & H4 & H5); [done|]. rewrite (half_set _ _ _ _ _ G).
    split; [lia|]. split_and!; try done. eapply linked_ext; [|exact H4]. intros x Hx. rewrite (next_set _ _ _ _ _ G).
    destruct (decide (x = c)) as [->|]; [|done]. pose proof (Hc l Hx) as El'. rewrite <-El' in Hx. destruct (HQ Hx) as (_ & En & _).
    unfold next_of. rewrite G. cbn. by rewrite En.
  - intros l lt. rewrite GS. destruct (decide (l = c)) as [->|Nl]; [intros [= <-]; done|]. apply KR.
  - intros l x Hx _. destruct (KQ l x Hx) as (H1 & _ & u & Gu & Eu & Su); [done|]. split; [done|].
    rewrite GS. destruct (decide (x = c)) as [->|Nx].
    + assert (u = t) as -> by congruence. rewrite <-Eu in Hx. destruct (HQ Hx) as (Ep & _ & Hs).
      split; [by rewrite decide_True|]. exists t'. rewrite Ep. done.
    + split; [destruct (decide (c ∈ Q (fld t T_parent))); [done|by intros [= ?]]|]. by exists u.
Qed.

(** Nothing is broken. *)
Lemma store_settle tl Q D X :
  store_at tl Q D X None ->
  (forall l lt, get_tcb l tl = Some lt -> fld lt T_state = TCP_LISTEN -> D l = 0) ->
  (forall c t, X = Some c -> get_tcb c tl = Some t -> fld t T_parent <> 0 -> fld t T_state = TCP_SYN_RCVD) ->
  store_ok tl Q.
Proof.
  intros [KN KZ KS KP KL KR KQ] HD HX. constructor; try done.
  - intros c t G Hp. destruct (KP c t G Hp) as (A & B & Hq & HL). split_and!; try done. intros Hs _ _.
    apply Hq; [done| |done]. intros E. by apply Hs, (HX c t).
  - intros l lt G E _. destruct (KL l lt G E) as (H1 & H2); [done|]. rewrite (HD l lt G E) in H1. split; [lia|done].
  - intros l c Hc _. destruct (KQ l c Hc) as (A & _ & B); [done|]. done.
Qed.

(** The link of a child is as it was. *)
Lemma store_calm tl Q c t t' :
  store_ok tl Q -> get_tcb c tl = Some t -> fld t T_state <> TCP_LISTEN -> safe t' ->
  (forall f, fam_field f = true -> fld t' f = fld t f) -> moved (fld t T_state) (fld t' T_state) ->
  (fld t T_state = TCP_SYN_RCVD -> fld t T_parent <> 0 -> fld t' T_state = TCP_SYN_RCVD) ->
  store_ok (set_tcb c t' tl) Q.
Proof.
  intros K G NL S F M HS.
  assert (M1 : fld t T_state <> TCP_SYN_RCVD -> fld t' T_state <> TCP_SYN_RCVD).
  { intros N E. destruct M as [M|[M|M]]; rewrite E in M; [by rewrite M in N|done|by apply M]. }
  assert (M2 : fld t' T_state <> TCP_LISTEN).
  { intros E. destruct M as [M|[M|M]]; rewrite E in M; [by rewrite M in NL|done|by apply M]. }
  assert (HQ : forall l, c ∈ Q l -> fld t T_parent = l /\ fld t T_state <> TCP_SYN_RCVD).
  { intros l Hc. destruct (k_que _ _ _ _ _ K l c Hc) as (_ & _ & u & Gu & Eu); [done|]. assert (u = t) as -> by congruence. done. }
  eapply store_settle; [apply store_block with (t := t); try done|..].
  - left. by rewrite !F.
  - intros Hc. rewrite !F by done. split_and!; try done. by apply M1, (HQ (fld t T_parent)).
  - intros l lt Gl _. assert (l <> 0).
    { rewrite (get_set _ _ _ _ _ G) in Gl. destruct (decide (l = c)) as [->|]; [by apply (k_nz _ _ _ _ _ K c t)|by apply (k_nz _ _ _ _ _ K l lt)]. }
    unfold is_half. rewrite F by done. destruct (Z.eqb_spec (fld t T_parent) l) as [<-|]; [|done]. cbn [andb].
    destruct (Z.eqb_spec (fld t T_state) TCP_SYN_RCVD) as [E|N]; destruct (Z.eqb_spec (fld t' T_state) TCP_SYN_RCVD) as [E'|N']; try done.
    + by destruct N'; apply HS.
    + by destruct (M1 N).
  - intros x u HX Gu Hp. destruct (decide (c ∈ Q (fld t T_parent))); [done|]. injection HX as <-.
    rewrite get_set_eq in Gu by congruence. injection Gu as <-. rewrite F in Hp by done. apply HS; [|done].
    destruct (Z.eq_dec (fld t T_state) TCP_SYN_RCVD) as [?|N]; [done|]. destruct (k_par _ _ _ _ _ K c t G Hp) as (_ & _ & Hq & _).
    by destruct n; apply Hq.
Qed.

(** A child with a parent is counted or queued. *)
Lemma half_not_queued tl Q c t : store_ok tl Q -> get_tcb c tl = Some t -> fld t T_state = TCP_SYN_RCVD -> c ∉ Q (fld t T_parent).
Proof. intros K G E Hc. destruct (k_que _ _ _ _ _ K _ c Hc) as (_ & _ & u & Gu & _ & Nu); [done|]. congruence. Qed.

(** What the invariant sees of a listener besides its count. *)
Definition lis_field (f : tfield) : bool :=
  match f with T_state | T_parent | T_aq_next | T_aq_head | T_aq_tail | T_aq_len | T_rtx_deadline => true | _ => false end.

(** A listener changes, but for its links. *)
Lemma store_lis tl Q D X l lt lt' :
  store_at tl Q D X None -> get_tcb l tl = Some lt -> fld lt T_state = TCP_LISTEN ->
  (forall x, x <> l -> D x = 0) -> (forall f, lis_field f = true -> fld lt' f = fld lt f) ->
  fld lt' T_half_open = fld lt T_half_open - D l ->
  store_at (set_tcb l lt' tl) Q (fun _ => 0) X None.
Proof.
  intros K G E HD HF HH. pose proof (listener_root _ _ _ _ _ _ _ K G E) as P0. destruct K as [KN KZ KS KP KL KR KQ].
  assert (GS : forall p, get_tcb p (set_tcb l lt' tl) = if decide (p = l) then Some lt' else get_tcb p tl) by (intros; by eapply get_set).
  assert (Hh : forall x, half x (set_tcb l lt' tl) = half x tl).
  { intros x. rewrite (half_set _ _ _ _ _ G). unfold is_half. rewrite !HF by done. lia. }
  assert (Hl : forall h q, linked tl h q -> linked (set_tcb l lt' tl) h q).
  { intros h q. apply linked_ext. intros c _. rewrite (next_set _ _ _ _ _ G). destruct (decide (c = l)) as [->|]; [|done].
    unfold next_of. rewrite G. cbn. by rewrite HF. }
  constructor.
  - by rewrite keys_set.
  - intros p u. rewrite GS. destruct (decide (p = l)) as [->|]; [intros _; by eapply KZ|apply KZ].
  - intros p u. rewrite GS. destruct (decide (p = l)) as [->|]; [intros [= <-]; left; by rewrite HF|apply KS].
  - intros p u. rewrite GS. destruct (decide (p = l)) as [->|]; [intros [= <-] Hp; by rewrite HF in Hp|]. intros Gp Hp.
    destruct (KP p u Gp Hp) as (A & B & Hq & x & Gx & Ex). split_and!; try done. rewrite GS.
    destruct (decide (fld u T_parent = l)); [exists lt'; by rewrite HF|by exists x].
  - intros x u. rewrite GS, Hh. destruct (decide (x = l)) as [->|N].
    + intros [= <-] _ _. destruct (KL l lt G E) as (H1 & H2 & H3 & H4 & H5); [done|]. rewrite HH, !HF by done.
      split; [lia|]. split_and!; try done. by apply Hl.
    + intros Gx Ex _. destruct (KL x u Gx Ex) as (H1 & H2 & H3 & H4 & H5); [done|]. rewrite (HD x N) in H1. split_and!; try done. by apply Hl.
  - intros x u. rewrite GS. destruct (decide (x = l)) as [->|N]; [intros [= <-] _; rewrite HF by done; by apply (KR l lt)|apply KR].
  - intros x c Hc _. destruct (KQ x c Hc) as (A & B & u & Gu & Eu & Nu); [done|]. split_and!; try done. rewrite GS.
    destruct (decide (c = l)) as [->|]; [|by exists u]. exists lt'. assert (u = lt) as -> by congruence. by rewrite !HF.
Qed.

(** The count of the listener is set right. *)
Lemma store_half tl Q D X l lt :
  store_at tl Q D X None -> get_tcb l tl = Some lt -> fld lt T_state = TCP_LISTEN ->
  (forall x, x <> l -> D x = 0) ->
  store_at (set_tcb l (tset T_half_open (fld lt T_half_open - D l) lt) tl) Q (fun _ => 0) X None.
Proof. intros K G E HD. eapply store_lis; try done. by intros []. Qed.

(** A connection without a parent is in no queue and may change freely. *)
Lemma store_free tl Q c t t' :
  store_ok tl Q -> get_tcb c tl = Some t -> fld t T_state <> TCP_LISTEN -> fld t T_parent = 0 ->
  fld t' T_state <> TCP_LISTEN -> fld t' T_parent = 0 -> safe t' -> store_ok (set_tcb c t' tl) Q.
Proof.
  intros K G NL P0 NL' P0' S.
  assert (Q0 : c ∉ Q 0). { intros Hc. by destruct (k_que _ _ _ _ _ K 0 c Hc) as [? _]. }
  eapply store_settle; [apply store_block with (t := t); try done; [by right|by rewrite P0]|..].
  - intros l lt Gl _. assert (l <> 0).
    { rewrite (get_set _ _ _ _ _ G) in Gl. destruct (decide (l = c)) as [->|]; by eapply k_nz. }
    unfold is_half. rewrite P0, P0'. destruct (Z.eqb_spec 0 l); [congruence|]. done.
  - intros x u HX Gu Hp. rewrite P0, decide_False in HX by done. injection HX as <-. rewrite get_set_eq in Gu by congruence. congruence.
Qed.

Lemma set_set p a b tl : set_tcb p a (set_tcb p b tl) = set_tcb p a tl.
Proof.
  induction tl as [|[q u] tl IH]; [done|]. cbn. destruct (Z.eqb_spec q p) as [->|N]; cbn; [by rewrite Z.eqb_refl|].
  destruct (Z.eqb_spec q p); [done|]. by rewrite IH.
Qed.

Definition upd (Q : Z -> list Z) (l : Z) (q : list Z) : Z -> list Z := fun x => if decide (x = l) then q else Q x.

Lemma queue_upd_eq Q l q : upd Q l q l = q.
Proof. unfold upd. by rewrite decide_True. Qed.

Lemma queue_upd_ne Q l q x : x <> l -> upd Q l q x = Q x.
Proof. intros. unfold upd. by rewrite decide_False. Qed.

(** The block [c] is linked behind the last of [l], or as the first. *)
Definition enqueued (c l : Z) (lt : tcb) (tl : list (Z * tcb)) : list (Z * tcb) :=
  let tail := fld lt T_aq_tail in
  let tl1 := if truth tail then match get_tcb tail tl with Some u => set_tcb tail (tset T_aq_next c u) tl | None => tl end else tl in
  let lt1 := if truth tail then lt else tset T_aq_head c lt in
  set_tcb l (tset T_aq_len (fld lt T_aq_len + 1) (tset T_aq_tail c lt1)) tl1.

Lemma tput_some p f v s t : get_tcb p (tcbs s) = Some t -> tput p f v s = Some (with_tcbs (set_tcb p (tset f v t) (tcbs s)) s).
Proof. intros G. unfold tput. by rewrite G. Qed.

Lemma tget_some p f s t : get_tcb p (tcbs s) = Some t -> tget p f s = Some (fld t f).
Proof. intros G. unfold tget. by rewrite G. Qed.

Lemma with_tcbs_twice a b s : with_tcbs a (with_tcbs b s) = with_tcbs a s.
Proof. done. Qed.

Lemma enqueue_run c l lt s :
  get_tcb l (tcbs s) = Some lt -> fld lt T_aq_tail <> l ->
  (fld lt T_aq_tail <> 0 -> get_tcb (fld lt T_aq_tail) (tcbs s) <> None) ->
  accept_enqueue c l s = Some (with_tcbs (enqueued c l lt (tcbs s)) s).
Proof.
  intros G Nl Ht. unfold accept_enqueue, enqueued. rewrite (tget_some _ _ _ _ G). cbn [mbind option_bind]. unfold truth.
  destruct (Z.eqb_spec (fld lt T_aq_tail) 0) as [E|N]; cbn [negb].
  - rewrite (tput_some _ _ _ _ _ G). cbn [mbind option_bind].
    erewrite tput_some by (cbn; apply get_set_eq; congruence). cbn [mbind option_bind].
    erewrite tget_some by (cbn; apply get_set_eq; rewrite get_set_eq; congruence). cbn [mbind option_bind].
    erewrite tput_some by (cbn; apply get_set_eq; rewrite get_set_eq; congruence). cbn. by rewrite !set_set.
  - specialize (Ht N). destruct (get_tcb (fld lt T_aq_tail) (tcbs s)) as [u|] eqn:Gt; [|done].
    rewrite (tput_some _ _ _ _ _ Gt). cbn [mbind option_bind].
    assert (G1 : get_tcb l (set_tcb (fld lt T_aq_tail) (tset T_aq_next c u) (tcbs s)) = Some lt) by (rewrite get_set_ne by done; done).
    erewrite tput_some by (cbn; exact G1). cbn [mbind option_bind].
    erewrite tget_some by (cbn; apply get_set_eq; congruence). cbn [mbind option_bind].
    erewrite tput_some by (cbn; apply get_set_eq; congruence). cbn. by rewrite !set_set.
Qed.

Lemma last_of_zero q : (forall c, c ∈ q -> c <> 0) -> last_of q = 0 -> q = [].
Proof. intros H E. destruct q as [|x q]; [done|]. destruct (H (last_of (x :: q))); [by apply last_of_in|done]. Qed.

Lemma linked_head tl h q : linked tl h q -> q = [] -> h = 0.
Proof. by intros L ->. Qed.

(** ** Relinking *)

Definition aq_field (f : tfield) : bool :=
  match f with T_aq_next | T_aq_head | T_aq_tail | T_aq_len => true | _ => false end.

(** Blocks, and tables, that differ in the links of queues only. *)
Definition alike (t t' : tcb) : Prop := (forall f, aq_field f = false -> fld t' f = fld t f) /\ (safe t -> safe t').

Record relinked (tl tl' : list (Z * tcb)) : Prop := {
  rl_keys : map fst tl' = map fst tl;
  rl_half : forall x, half x tl' = half x tl;
  rl_get : forall p t, get_tcb p tl = Some t -> exists t', get_tcb p tl' = Some t' /\ alike t t';
  rl_inv : forall p t', get_tcb p tl' = Some t' -> exists t, get_tcb p tl = Some t /\ alike t t'
}.

Lemma alike_refl t : alike t t.
Proof. done. Qed.

Lemma alike_set t t' f v : aq_field f = true -> alike t t' -> alike t (tset f v t').
Proof.
  intros Hf [A B]. split.
  - intros g Hg. rewrite <-A by done. cbn. destruct (tf_eqb g f) eqn:E; [|done]. assert (g = f) as -> by (by destruct f, g). congruence.
  - intros S. apply (put_safe f v (Est t' [] [] 0)); [by destruct f|]. by apply B.
Qed.

Lemma relinked_refl tl : relinked tl tl.
Proof. constructor; try done; intros p t G; exists t; by split; [|apply alike_refl]. Qed.

Lemma relinked_set tl tl' c t t' : relinked tl tl' -> get_tcb c tl' = Some t -> alike t t' -> relinked tl (set_tcb c t' tl').
Proof.
  intros [K H G I] Gc A. constructor.
  - by rewrite keys_set.
  - intros x. rewrite (half_set _ _ _ _ _ Gc), H. unfold is_half. destruct A as [A _]. rewrite !A by done. lia.
  - intros p u Gp. rewrite (get_set _ _ _ _ _ Gc). destruct (decide (p = c)) as [->|]; [|by apply G].
    exists t'. split; [done|]. destruct (G c u Gp) as (u' & Gu & [B1 B2]). assert (u' = t) as -> by congruence.
    destruct A as [A1 A2]. split; [|auto]. intros f Hf. by rewrite A1, B1.
  - intros p u. rewrite (get_set _ _ _ _ _ Gc). destruct (decide (p = c)) as [->|]; [|apply I]. intros [= <-].
    destruct (I c t Gc) as (u' & Gu & [B1 B2]). exists u'. split; [done|]. destruct A as [A1 A2]. split; [|auto]. intros f Hf. by rewrite A1, B1.
Qed.

(** The invariant after relinking: only the queues have to be looked at. *)
Lemma store_relinked tl tl' Q Q' X :
  store_at tl Q (fun _ => 0) X None -> relinked tl tl' ->
  (forall c t, get_tcb c tl = Some t -> fld t T_parent <> 0 -> fld t T_state <> TCP_SYN_RCVD -> c ∈ Q' (fld t T_parent)) ->
  (forall l lt, get_tcb l tl' = Some lt -> fld lt T_state = TCP_LISTEN ->
    fld lt T_aq_len = len (Q' l) /\ fld lt T_aq_tail = last_of (Q' l) /\ linked tl' (fld lt T_aq_head) (Q' l) /\ NoDup (Q' l)) ->
  (forall l c, c ∈ Q' l -> l <> 0 /\ exists t, get_tcb c tl = Some t /\ fld t T_parent = l /\ fld t T_state <> TCP_SYN_RCVD) ->
  store_ok tl' Q'.
Proof.
  intros [KN KZ KS KP KL KR KQ] [RK RH RG RI] HP HL HQ. constructor.
  - by rewrite RK.
  - intros p t' G. destruct (RI p t' G) as (t & Gt & _). by eapply KZ.
  - intros p t' G. destruct (RI p t' G) as (t & Gt & A & B). rewrite A by done. destruct (KS p t Gt); auto.
  - intros c t' G Hp. destruct (RI c t' G) as (t & Gt & A & _). rewrite !A in * by done. destruct (KP c t Gt Hp) as (H1 & H2 & _ & lt & Gl & El).
    split; [done|]. split; [done|]. split; [intros Hs _ _; by apply HP|].
    destruct (RG _ _ Gl) as (lt' & Gl' & A' & _). exists lt'. by rewrite A'.
  - intros l lt' G E _. destruct (RI l lt' G) as (lt & Gt & A & _). split; [|by apply HL]. rewrite RH, !A in * by done.
    destruct (KL l lt Gt E) as (H1 & _); [done|]. lia.
  - intros l lt' G E. destruct (RI l lt' G) as (lt & Gt & A & _). rewrite A in * by done. by eapply KR.
  - intros l c Hc _. destruct (HQ l c Hc) as (H1 & t & Gt & Ep & Es). split; [done|]. split; [done|].
    destruct (RG c t Gt) as (t' & Gt' & A & _). exists t'. by rewrite !A.
Qed.

Lemma next_relinked_ne tl c t t' x : get_tcb c tl = Some t -> x <> c -> next_of (set_tcb c t' tl) x = next_of tl x.
Proof. intros G N. rewrite (next_set _ _ _ _ _ G). by rewrite decide_False. Qed.

(** accept_enqueue, the links. *)
Lemma enqueue_links tl Q c t l lt :
  store_at tl Q (fun _ => 0) (Some c) None -> get_tcb c tl = Some t -> fld t T_parent = l -> l <> 0 ->
  fld t T_aq_next = 0 -> get_tcb l tl = Some lt -> fld lt T_state = TCP_LISTEN ->
  relinked tl (enqueued c l lt tl) /\ next_of (enqueued c l lt tl) c = Some 0 /\
  (forall y, y <> l -> y <> last_of (Q l) -> get_tcb y (enqueued c l lt tl) = get_tcb y tl) /\
  (Q l <> [] -> next_of (enqueued c l lt tl) (last_of (Q l)) = Some c) /\
  exists lt', get_tcb l (enqueued c l lt tl) = Some lt' /\ alike lt lt' /\ fld lt' T_aq_len = fld lt T_aq_len + 1 /\
    fld lt' T_aq_tail = c /\ fld lt' T_aq_head = (if decide (Q l = []) then c else fld lt T_aq_head).
Proof.
  intros K G Ep Hl Hn Gl El. destruct (k_lis _ _ _ _ _ K l lt Gl El) as (_ & HL & HT & HK & HD); [done|].
  assert (HQ : forall x, x ∈ Q l -> x <> 0 /\ x <> c /\ x <> l /\ exists u, get_tcb x tl = Some u).
  { intros x Hx. destruct (k_que _ _ _ _ _ K l x Hx) as (_ & N & u & Gu & Eu & _); [done|].
    split; [by eapply k_nz|]. split; [congruence|]. split; [|by exists u]. intros ->.
    pose proof (listener_root _ _ _ _ _ _ _ K Gl El). congruence. }
  assert (Ncl : c <> l). { intros ->. pose proof (listener_root _ _ _ _ _ _ _ K Gl El). congruence. }
  assert (Ec : next_of tl c = Some 0) by (unfold next_of; rewrite G; cbn; by rewrite Hn).
  unfold enqueued. cbn zeta. rewrite HT. unfold truth. destruct (Z.eqb_spec (last_of (Q l)) 0) as [E|N]; cbn [negb].
  - assert (Eq : Q l = []) by (apply last_of_zero; [intros x Hx; by apply HQ|done]).
    set (lt' := tset T_aq_len _ _). assert (A : alike lt lt') by (unfold lt'; by repeat (apply alike_set; [done|])).
    split; [eapply relinked_set; [apply relinked_refl|exact Gl|done]|].
    split; [by rewrite (next_relinked_ne _ _ _ _ _ Gl)|]. split; [intros y Ny _; by rewrite get_set_ne|].
    split; [done|]. exists lt'. rewrite get_set_eq by congruence. rewrite decide_True by done. done.
  - assert (Ht : last_of (Q l) ∈ Q l) by (apply last_of_in; intros E; by rewrite E in N).
    destruct (HQ _ Ht) as (_ & N1 & N2 & u & Gu). rewrite Gu.
    set (tl1 := set_tcb _ _ tl). set (lt' := tset T_aq_len _ _).
    assert (A : alike lt lt') by (unfold lt'; by repeat (apply alike_set; [done|])).
    assert (R1 : relinked tl tl1) by (eapply relinked_set; [apply relinked_refl|exact Gu|by apply alike_set]).
    assert (Gl1 : get_tcb l tl1 = Some lt) by (unfold tl1; by rewrite get_set_ne).
    split; [by eapply relinked_set|].
    split; [rewrite (next_relinked_ne _ _ _ _ _ Gl1) by done; unfold tl1; by rewrite (next_relinked_ne _ _ _ _ _ Gu)|].
    split; [intros y Ny Nt; unfold tl1; by rewrite !get_set_ne|].
    split.
    + intros _. rewrite (next_relinked_ne _ _ _ _ _ Gl1) by done. unfold tl1. rewrite (next_set _ _ _ _ _ Gu), decide_True by done. done.
    + exists lt'. rewrite get_set_eq by congruence. rewrite decide_False by (intros E; rewrite E in Ht; inversion Ht). done.
Qed.

Lemma enqueue_ok tl Q c t l lt :
  store_at tl Q (fun _ => 0) (Some c) None -> get_tcb c tl = Some t -> fld t T_parent = l -> l <> 0 ->
  fld t T_state <> TCP_SYN_RCVD -> fld t T_aq_next = 0 -> get_tcb l tl = Some lt -> fld lt T_state = TCP_LISTEN ->
  store_ok (enqueued c l lt tl) (upd Q l (Q l ++ [c])).
Proof.
  intros K G Ep Hl Hs Hn Gl El. destruct (k_lis _ _ _ _ _ K l lt Gl El) as (_ & HL & HT & HK & HD); [done|].
  destruct (enqueue_links _ _ _ _ _ _ K G Ep Hl Hn Gl El) as (R & Nc & Ny & Nt & lt' & Gl' & A & EL & ET & EH).
  assert (HQ : forall x y, y ∈ Q x -> y <> l /\ (x <> l -> y <> last_of (Q l) \/ Q l = [])).
  { intros x y Hy. destruct (k_que _ _ _ _ _ K x y Hy) as (Nx & _ & u & Gu & Eu & _); [done|].
    split; [intros ->; pose proof (listener_root _ _ _ _ _ _ _ K Gl El); congruence|]. intros N.
    destruct (decide (Q l = [])) as [|Ne]; [by right|]. left. intros ->.
    destruct (k_que _ _ _ _ _ K l _ (last_of_in _ Ne)) as (_ & _ & u' & Gu' & Eu' & _); [done|]. congruence. }
  eapply store_relinked; [exact K|done|..].
  - intros x u Gu Hp Hsx. destruct (k_par _ _ _ _ _ K x u Gu Hp) as (_ & _ & Hq & _). destruct (Z.eq_dec (fld u T_parent) l) as [E|N].
    + rewrite E, queue_upd_eq. apply elem_of_app. destruct (Z.eq_dec x c) as [->|]; [right; by left|]. left. rewrite <-E. apply Hq; [done|congruence|done].
    + rewrite queue_upd_ne by done. apply Hq; [done| |done]. intros [= ->]. congruence.
  - intros x u Gx Ex. destruct (Z.eq_dec x l) as [->|N].
    + assert (u = lt') as -> by congruence. rewrite queue_upd_eq, len_app, last_of_snoc, EL, ET, EH. change (len [c]) with 1.
      split; [lia|]. split; [done|]. split.
      * destruct (decide (Q l = [])) as [->|Ne]; [by split; [|exists 0]|]. apply (linked_snoc tl); try done; [|by apply Nt].
        intros y Hy Hne. unfold next_of. rewrite Ny; [done|by apply (HQ l)|done].
      * apply NoDup_app. split; [done|]. split; [|by apply NoDup_singleton]. intros y Hy Hc. apply list_elem_of_singleton in Hc as ->.
        destruct (k_que _ _ _ _ _ K l c Hy) as (_ & ? & _); done.
    + rewrite queue_upd_ne by done. assert (Nx : x <> last_of (Q l)).
      { intros ->. destruct (rl_inv _ _ R _ _ Gx) as (u0 & Gu & Au & _). rewrite Au in Ex by done.
        assert (Ne : Q l <> []) by (intros E; apply (k_nz _ _ _ _ _ K _ _ Gu); by rewrite E).
        destruct (k_que _ _ _ _ _ K l _ (last_of_in _ Ne)) as (_ & _ & v & Gv & Ev & _); [done|]. assert (v = u0) as -> by congruence.
        pose proof (listener_root _ _ _ _ _ _ _ K Gu Ex). congruence. }
      rewrite Ny in Gx by done. destruct (k_lis _ _ _ _ _ K x u Gx Ex) as (_ & H2 & H3 & H4 & H5); [done|]. split_and!; try done.
      eapply linked_ext; [|exact H4]. intros y Hy. destruct (HQ x y Hy) as [N1 N2]. unfold next_of. destruct (N2 N) as [N3|E]; [by rewrite Ny|].
      rewrite Ny; [done|done|]. rewrite E. intros ->. destruct (k_que _ _ _ _ _ K x _ Hy) as (_ & _ & v & Gv & _); [done|]. by apply (k_nz _ _ _ _ _ K _ _ Gv).
  - intros x y. destruct (Z.eq_dec x l) as [->|N]; [rewrite queue_upd_eq, elem_of_app, list_elem_of_singleton|rewrite queue_upd_ne by done].
    + intros [Hy| ->]; [|split; [done|]; by exists t]. destruct (k_que _ _ _ _ _ K l y Hy) as (? & _ & u & ?); [done|]. split; [done|]. by exists u.
    + intros Hy. destruct (k_que _ _ _ _ _ K x y Hy) as (? & _ & u & ?); [done|]. split; [done|]. by exists u.
Qed.

(** * Running a routine on a block *)

(** Only events are added. *)
Definition logged (s s' : sys) : Prop :=
  socks s' = socks s /\ tcbs s' = tcbs s /\ iss_state s' = iss_state s /\ next_ephemeral s' = next_ephemeral s /\
  oks s' = oks s /\ time s' = time s.

Lemma logged_refl s : logged s s.
Proof. done. Qed.

Lemma logged_trans a b c : logged a b -> logged b c -> logged a c.
Proof. unfold logged. intuition congruence. Qed.

Lemma do_acts_app p l1 l2 s : do_acts p (l1 ++ l2) s = s ← do_acts p l1 s; do_acts p l2 s.
Proof. revert s. induction l1 as [|a l1 IH]; intros s; [done|]. cbn. destruct (do_act p a s); [apply IH|done]. Qed.

Lemma signal_logged p s t : get_tcb p (tcbs s) = Some t -> exists s', signal_tcb p s = Some s' /\ logged s s'.
Proof. intros G. unfold signal_tcb. rewrite (tget_some _ _ _ _ G). cbn. eexists. split; [done|]. by destruct (truth _). Qed.

Lemma do_plain par p l s :
  Forall (plain par) l -> (par <> 0 -> get_tcb par (tcbs s) <> None) -> exists s', do_acts p l s = Some s' /\ logged s s'.
Proof.
  intros F. revert s. induction F as [|a l Pa _ IH]; intros s Hp; [by exists s|]. cbn.
  assert (exists s1, do_act p a s = Some s1 /\ logged s s1) as (s1 & -> & L1).
  { destruct a; cbn in *; try (eexists; split; [reflexivity|done]); [|done..]. destruct Pa as [-> N].
    destruct (get_tcb par (tcbs s)) as [t|] eqn:G; [|by destruct (Hp N)]. by eapply signal_logged. }
  cbn [mbind option_bind]. destruct (IH s1) as (s2 & -> & L2).
  - destruct L1 as (_ & -> & _). done.
  - exists s2. split; [done|]. by eapply logged_trans.
Qed.

(** The owner of a block. *)
Definition owner (tl : list (Z * tcb)) (p : Z) : option Z := t ← get_tcb p tl; Some (fld t T_sock).

Lemma owner_set tl c t t' p : get_tcb c tl = Some t -> fld t' T_sock = fld t T_sock -> owner (set_tcb c t' tl) p = owner tl p.
Proof.
  intros G E. unfold owner. rewrite (get_set _ _ _ _ _ G). destruct (decide (p = c)) as [->|]; [|done]. rewrite G. cbn. by rewrite E.
Qed.

Lemma owner_relinked tl tl' p : relinked tl tl' -> owner tl' p = owner tl p.
Proof.
  intros R. unfold owner. destruct (get_tcb p tl') as [t'|] eqn:E'.
  - destruct (rl_inv _ _ R p t' E') as (t & -> & A & _). cbn. by rewrite A.
  - destruct (get_tcb p tl) as [t|] eqn:E; [|done]. destruct (rl_get _ _ R p t E) as (t' & ? & _). congruence.
Qed.

(** What a run leaves: the invariant, the sockets, the owners and the blocks. *)
Definition ran_ok (s s' : sys) (Q : Z -> list Z) : Prop :=
  store_ok (tcbs s') Q /\ socks s' = socks s /\ next_ephemeral s' = next_ephemeral s /\ time s' = time s /\
  map fst (tcbs s') = map fst (tcbs s) /\ forall p, owner (tcbs s') p = owner (tcbs s) p.

(** A half-open child leaves the count. *)
Lemma leave_half tl Q c t t' :
  store_ok tl Q -> get_tcb c tl = Some t -> fld t T_state = TCP_SYN_RCVD -> fld t T_parent <> 0 ->
  fld t' T_state <> TCP_LISTEN -> fld t' T_state <> TCP_SYN_RCVD -> safe t' ->
  (fld t' T_parent = fld t T_parent /\ fld t' T_sock = fld t T_sock \/ fld t' T_parent = 0) ->
  exists lt, get_tcb (fld t T_parent) (set_tcb c t' tl) = Some lt /\ fld lt T_state = TCP_LISTEN /\ fld t T_parent <> c /\
    store_at (set_tcb (fld t T_parent) (tset T_half_open (fld lt T_half_open - 1) lt) (set_tcb c t' tl)) Q (fun _ => 0) (Some c) None.
Proof.
  intros K G HS Hp NL NS S HP. pose proof (half_not_queued _ _ _ _ K G HS) as NQ.
  assert (NLt : fld t T_state <> TCP_LISTEN) by (by rewrite HS).
  destruct (k_par _ _ _ _ _ K c t G Hp) as (_ & _ & _ & lt & Gl & El).
  assert (Nc : fld t T_parent <> c) by (intros E; rewrite E, G in Gl; congruence).
  assert (Gl' : get_tcb (fld t T_parent) (set_tcb c t' tl) = Some lt) by (by rewrite get_set_ne).
  pose proof (store_block tl Q c t t' K G NLt NL S HP ltac:(done)) as K1. rewrite decide_False in K1 by done.
  exists lt. split_and!; try done. set (D := fun l => _) in K1.
  assert (HD : forall x, D x = if decide (x = fld t T_parent) then 1 else 0).
  { intros x. unfold D, is_half. destruct (Z.eqb_spec (fld t' T_state) TCP_SYN_RCVD); [done|]. rewrite andb_false_r.
    rewrite HS, Z.eqb_refl, andb_true_r. destruct (decide (x = fld t T_parent)) as [->|N]; [by rewrite Z.eqb_refl|].
    destruct (Z.eqb_spec (fld t T_parent) x); [congruence|done]. }
  pose proof (store_half _ _ _ _ _ _ K1 Gl' El) as K2. rewrite HD, decide_True in K2 by done. apply K2.
  intros x Nx. by rewrite HD, decide_False.
Qed.

Definition started (t : tcb) (s : sys) : est := Est t [] (oks s) (time s).

Lemma ran_logged s s1 s2 Q : ran_ok s s1 Q -> logged s1 s2 -> ran_ok s s2 Q.
Proof.
  intros (A & B & C & D & E & F) (La & Lb & _ & Lc & _ & Ld). unfold ran_ok. rewrite La, Lb, Lc, Ld. done.
Qed.

(** The table after [store] has put the block back, before the actions. *)
Definition put_back (c : Z) (e : est) (s : sys) : sys := with_oks (segs e) (with_tcbs (set_tcb c (et e) (tcbs s)) s).

Lemma parent_there tl Q c t :
  store_ok tl Q -> get_tcb c tl = Some t -> fld t T_parent <> 0 -> get_tcb (fld t T_parent) tl <> None /\ fld t T_parent <> c.
Proof.
  intros K G Hp. destruct (k_par _ _ _ _ _ K c t G Hp) as (NL & _ & _ & lt & Gl & El). split; [congruence|].
  intros E. rewrite E, G in Gl. congruence.
Qed.

Lemma store_calm_run s Q c t e l :
  store_ok (tcbs s) Q -> get_tcb c (tcbs s) = Some t -> fld t T_state <> TCP_LISTEN -> safe (et e) ->
  calm (started t s) e -> acts e = l -> Forall (plain (fld t T_parent)) l ->
  (fld t T_state = TCP_SYN_RCVD -> fld t T_parent <> 0 -> e#T_state = TCP_SYN_RCVD) ->
  exists s', do_acts c l (put_back c e s) = Some s' /\ ran_ok s s' Q /\ tcbs s' = set_tcb c (et e) (tcbs s).
Proof.
  intros K G NL S [Kf M _] Ea Fl HS. destruct (do_plain (fld t T_parent) c l (put_back c e s) Fl) as (s2 & -> & L2).
  { intros Hp. destruct (parent_there _ _ _ _ K G Hp) as [H N]. cbn. by rewrite get_set_ne. }
  exists s2. split; [done|]. split; [|by destruct L2 as (_ & -> & _)]. eapply ran_logged; [|exact L2]. unfold ran_ok. cbn.
  rewrite keys_set. split_and!; try done.
  - by eapply store_calm.
  - intros p. eapply owner_set; [exact G|]. by apply Kf.
Qed.

Lemma store_drop_run s Q c t e l1 l2 :
  store_ok (tcbs s) Q -> get_tcb c (tcbs s) = Some t -> safe (et e) ->
  fld t T_state = TCP_SYN_RCVD -> fld t T_parent <> 0 -> e#T_sock = fld t T_sock -> e#T_parent = 0 -> e#T_state = TCP_CLOSED ->
  Forall (plain (fld t T_parent)) l1 -> Forall (plain (fld t T_parent)) l2 ->
  exists s', do_acts c (l1 ++ Half_open_dec (fld t T_parent) :: l2) (put_back c e s) = Some s' /\ ran_ok s s' Q.
Proof.
  intros K G S HS Hp Kf Ep Es F1 F2. destruct (parent_there _ _ _ _ K G Hp) as [HG Nc]. rewrite do_acts_app.
  destruct (do_plain (fld t T_parent) c l1 (put_back c e s) F1) as (s2 & -> & L2); [intros _; cbn; by rewrite get_set_ne|].
  destruct L2 as (L2s & L2t & _ & L2e & _ & L2m). cbn [put_back with_oks with_tcbs tcbs socks next_ephemeral time] in *.
  destruct (leave_half (tcbs s) Q c t (et e) K G HS Hp) as (lt & Gl & El & _ & K2); try done; [by rewrite Es..|by right|].
  cbn [mbind option_bind do_acts do_act]. rewrite (tget_some _ _ _ lt) by (by rewrite L2t). cbn [mbind option_bind].
  rewrite (tput_some _ _ _ _ lt) by (by rewrite L2t). cbn [mbind option_bind]. rewrite L2t.
  set (s3 := with_tcbs _ s2). destruct (do_plain (fld t T_parent) c l2 s3 F2) as (s4 & -> & L4).
  { intros _. cbn. rewrite get_set_eq; [done|]. congruence. }
  exists s4. split; [done|]. eapply ran_logged; [|exact L4]. unfold ran_ok. cbn [s3 with_tcbs tcbs socks next_ephemeral time].
  rewrite !keys_set, L2s, L2e, L2m. split_and!; try done.
  - eapply store_settle; [exact K2|done|]. intros x u [= <-] Gu Hpu. exfalso. apply Hpu.
    rewrite get_set_ne, get_set_eq in Gu by congruence. injection Gu as <-. done.
  - intros p. rewrite (owner_set _ _ _ _ _ Gl) by done. by eapply owner_set.
Qed.

(** The last of a queue is a block, and not the listener. *)
Lemma tail_there tl Q X l lt :
  store_at tl Q (fun _ => 0) X None -> get_tcb l tl = Some lt -> fld lt T_state = TCP_LISTEN -> fld lt T_aq_tail <> 0 ->
  get_tcb (fld lt T_aq_tail) tl <> None /\ fld lt T_aq_tail <> l.
Proof.
  intros K G E. destruct (k_lis _ _ _ _ _ K _ _ G E) as (_ & _ & -> & _); [done|]. intros N.
  assert (Hin : last_of (Q l) ∈ Q l) by (apply last_of_in; intros E0; by rewrite E0 in N).
  destruct (k_que _ _ _ _ _ K _ _ Hin) as (_ & _ & u & Gu & Eu & _); [done|]. split; [congruence|]. intros E'. rewrite E' in Gu.
  pose proof (listener_root _ _ _ _ _ _ _ K G E). congruence.
Qed.

Lemma store_est_run s Q c t e l :
  store_ok (tcbs s) Q -> get_tcb c (tcbs s) = Some t -> safe (et e) ->
  fld t T_state = TCP_SYN_RCVD -> fld t T_parent <> 0 -> e#T_sock = fld t T_sock -> e#T_parent = fld t T_parent ->
  e#T_aq_next = 0 -> e#T_state <> TCP_SYN_RCVD -> e#T_state <> TCP_LISTEN -> Forall (plain (fld t T_parent)) l ->
  exists s', do_acts c (Half_open_dec (fld t T_parent) :: Accept_enqueue (fld t T_parent) :: Signal (fld t T_parent) :: l) (put_back c e s) = Some s' /\
    ran_ok s s' (upd Q (fld t T_parent) (Q (fld t T_parent) ++ [c])).
Proof.
  intros K G S HS Hp Kf Kp En NS NL Fl. destruct (parent_there _ _ _ _ K G Hp) as [HG Nc].
  destruct (leave_half (tcbs s) Q c t (et e) K G HS Hp) as (lt & Gl & El & _ & K2); try done; [by left|].
  cbn [do_acts do_act]. rewrite (tget_some _ _ _ lt) by done. cbn [mbind option_bind].
  rewrite (tput_some _ _ _ _ lt) by done. cbn [mbind option_bind]. change (tcbs (put_back c e s)) with (set_tcb c (et e) (tcbs s)).
  set (lt1 := tset T_half_open _ lt) in *. set (s2 := with_tcbs _ (put_back c e s)).
  assert (G2 : get_tcb (fld t T_parent) (tcbs s2) = Some lt1) by (cbn; apply get_set_eq; congruence).
  assert (Gc2 : get_tcb c (tcbs s2) = Some (et e)) by (cbn; rewrite get_set_ne by done; apply get_set_eq; congruence).
  pose proof (tail_there _ _ _ _ _ K2 G2 El) as HTQ.
  rewrite (enqueue_run c (fld t T_parent) lt1 s2 G2); [|intros E; destruct HTQ as [_ ?]; [by rewrite E|done]|intros N; by apply HTQ].
  cbn [mbind option_bind]. set (s3 := with_tcbs _ s2).
  destruct (enqueue_links (tcbs s2) Q c (et e) (fld t T_parent) lt1 K2 Gc2) as (R & _ & _ & _ & lt2 & Gl2 & _); try done.
  destruct (signal_logged (fld t T_parent) s3 lt2 Gl2) as (s4 & -> & L4). cbn [mbind option_bind].
  destruct (do_plain (fld t T_parent) c l s4 Fl) as (s5 & -> & L5).
  { intros _. destruct L4 as (_ & -> & _). unfold s3. cbn [with_tcbs tcbs]. congruence. }
  exists s5. split; [done|]. eapply ran_logged; [|exact L5]. eapply ran_logged; [|exact L4]. unfold ran_ok. split_and!; try done.
  - by apply (enqueue_ok _ _ _ (et e)).
  - unfold s3. cbn [with_tcbs tcbs]. rewrite (rl_keys _ _ R). unfold s2. cbn [with_tcbs tcbs]. by rewrite !keys_set.
  - intros p. unfold s3. cbn [with_tcbs tcbs]. rewrite (owner_relinked _ _ _ R). unfold s2. cbn [with_tcbs tcbs].
    rewrite (owner_set _ _ _ _ _ Gl) by done. by eapply owner_set.
Qed.

(** A routine on the block [c] that is not a listener. *)
Lemma store_family s Q c t e :
  store_ok (tcbs s) Q -> get_tcb c (tcbs s) = Some t -> fld t T_state <> TCP_LISTEN ->
  family (started t s) e -> esafe e ->
  exists s' Q', store c e s = Some s' /\ ran_ok s s' Q'.
Proof.
  intros K G NL F S. apply safe_end in S. unfold store. fold (put_back c e s).
  destruct F as [C HS|l1 l2 HS Hp Kf Ep Es Ea F1 F2|l HS Hp Kf En Es Ea Fl]; cbn [started et acts fld app] in *.
  - pose proof (m_acts _ _ C) as (l & Ea & Fl). cbn [started acts app et] in *. rewrite Ea.
    destruct (store_calm_run s Q c t e l) as (s' & E & R & _); eauto.
  - rewrite Ea. destruct (store_drop_run s Q c t e l1 l2) as (s' & E & R); eauto.
  - rewrite Ea. assert (NS : e#T_state <> TCP_SYN_RCVD /\ e#T_state <> TCP_LISTEN).
    { destruct Es as [->|E]; [done|]. split; intros E'; rewrite E' in E; by apply E. }
    destruct (store_est_run s Q c t e l) as (s' & E & R); eauto; by apply Kf || apply NS.
Qed.

(** * Blocks come and go *)

Lemma store_del tl Q p t :
  store_ok tl Q -> get_tcb p tl = Some t -> fld t T_state <> TCP_LISTEN -> fld t T_parent = 0 -> store_ok (del_tcb p tl) Q.
Proof.
  intros K G NL P0. pose proof K as [KN KZ KS KP KL KR KQ].
  assert (HQ : forall l c, c ∈ Q l -> c <> p).
  { intros l c Hc ->. destruct (KQ l p Hc) as (N & _ & u & Gu & Eu & _); [done|]. congruence. }
  assert (GD : forall x u, get_tcb x (del_tcb p tl) = Some u -> x <> p /\ get_tcb x tl = Some u).
  { intros x u Gx. destruct (Z.eq_dec x p) as [->|N]; [by rewrite get_del_eq in Gx|]. by rewrite get_del_ne in Gx. }
  constructor.
  - by apply keys_del.
  - intros x u Gx. apply GD in Gx as [_ Gx]. by eapply KZ.
  - intros x u Gx. apply GD in Gx as [_ Gx]. by eapply KS.
  - intros x u Gx Hp. apply GD in Gx as [N Gx]. destruct (KP x u Gx Hp) as (A & B & C & lt & Gl & El). split_and!; try done.
    exists lt. rewrite get_del_ne; [done|]. intros E. rewrite E, G in Gl. congruence.
  - intros l lt Gl El _. apply GD in Gl as [N Gl]. destruct (KL l lt Gl El) as (H1 & H2 & H3 & H4 & H5); [done|].
    rewrite (half_del _ _ _ _ G). split.
    + unfold is_half. rewrite P0. destruct (Z.eqb_spec 0 l) as [<-|]; [by destruct (KZ _ _ Gl)|]. cbn. lia.
    + split_and!; try done. eapply linked_ext; [|exact H4]. intros c Hc. unfold next_of. rewrite get_del_ne; [done|by eapply HQ].
  - intros l lt Gl El. apply GD in Gl as [_ Gl]. by eapply KR.
  - intros l c Hc _. destruct (KQ l c Hc) as (A & _ & u & Gu & Eu); [done|]. split_and!; try done. exists u.
    rewrite get_del_ne; [done|by eapply HQ].
Qed.

Lemma get_cons c t tl x : get_tcb x ((c, t) :: tl) = if decide (x = c) then Some t else get_tcb x tl.
Proof. cbn. destruct (Z.eqb_spec c x), (decide (x = c)); congruence. Qed.

Lemma fresh_parent tl Q c : store_ok tl Q -> get_tcb c tl = None -> forall x u, get_tcb x tl = Some u -> c <> 0 -> fld u T_parent <> c.
Proof.
  intros K N x u G Hc E. assert (Hp : fld u T_parent <> 0) by (by rewrite E).
  destruct (k_par _ _ _ _ _ K x u G Hp) as (_ & _ & _ & lt & Gl & _). congruence.
Qed.

(** A new block that is not a listener. *)
Lemma store_cons tl Q c t :
  store_ok tl Q -> get_tcb c tl = None -> c <> 0 -> fld t T_state <> TCP_LISTEN -> safe t ->
  (fld t T_parent <> 0 -> fld t T_sock = 0 /\ fld t T_state = TCP_SYN_RCVD /\
    exists lt, get_tcb (fld t T_parent) tl = Some lt /\ fld lt T_state = TCP_LISTEN) ->
  store_at ((c, t) :: tl) Q (fun x => - b2z (is_half x t)) None None.
Proof.
  intros K N Hc NL S HP. pose proof K as [KN KZ KS KP KL KR KQ]. pose proof (fresh_parent _ _ _ K N) as HF.
  assert (HL : forall p lt, get_tcb p tl = Some lt -> get_tcb p ((c, t) :: tl) = Some lt).
  { intros p lt G. rewrite get_cons. destruct (decide (p = c)) as [->|]; [congruence|done]. }
  constructor.
  - cbn. apply NoDup_cons. split; [by apply get_none|done].
  - intros p u. rewrite get_cons. destruct (decide (p = c)) as [->|]; [done|apply KZ].
  - intros p u. rewrite get_cons. destruct (decide (p = c)) as [->|]; [intros [= <-]; by right|apply KS].
  - intros p u. rewrite get_cons. destruct (decide (p = c)) as [->|].
    + intros [= <-] Hp. destruct (HP Hp) as (A & B & lt & Gl & El). split_and!; try done. exists lt. split; [by apply HL|done].
    + intros G Hp. destruct (KP p u G Hp) as (A & B & C & lt & Gl & El). split_and!; try done. exists lt. split; [by apply HL|done].
  - intros l lt. rewrite get_cons. destruct (decide (l = c)) as [->|]; [intros [= <-]; done|]. intros Gl El _.
    destruct (KL l lt Gl El) as (H1 & H2 & H3 & H4 & H5); [done|]. cbn [half]. split; [lia|]. split_and!; try done.
    eapply linked_ext; [|exact H4]. intros x Hx. destruct (KQ l x Hx) as (_ & _ & u & Gu & _); [done|]. unfold next_of. by rewrite (HL _ _ Gu), Gu.
  - intros l lt. rewrite get_cons. destruct (decide (l = c)) as [->|]; [intros [= <-]; done|]. apply KR.
  - intros l x Hx _. destruct (KQ l x Hx) as (A & _ & u & Gu & Eu); [done|]. split_and!; try done. exists u. split; [by apply HL|done].
Qed.

(** A new listener. *)
Lemma store_listener tl Q c t :
  store_ok tl Q -> get_tcb c tl = None -> c <> 0 -> fld t T_state = TCP_LISTEN -> fld t T_parent = 0 -> fld t T_rtx_deadline = 0 ->
  fld t T_half_open = 0 -> fld t T_aq_len = 0 -> fld t T_aq_tail = 0 -> fld t T_aq_head = 0 ->
  store_ok ((c, t) :: tl) Q.
Proof.
  intros K N Hc EL P0 R0 E1 E2 E3 E4. pose proof K as [KN KZ KS KP KL KR KQ]. pose proof (fresh_parent _ _ _ K N) as HF.
  assert (HL : forall p lt, get_tcb p tl = Some lt -> get_tcb p ((c, t) :: tl) = Some lt).
  { intros p lt G. rewrite get_cons. destruct (decide (p = c)) as [->|]; [congruence|done]. }
  assert (Q0 : Q c = []).
  { destruct (Q c) as [|x q] eqn:Eq; [done|]. destruct (KQ c x) as (_ & _ & u & Gu & Eu & _); [rewrite Eq; by left|done|].
    by destruct (HF x u Gu Hc). }
  assert (H0 : half c tl = 0). { apply half_none; [|done]. intros x u Gx. by eapply HF. }
  assert (I0 : forall x, x <> 0 -> is_half x t = false).
  { intros x Nx. unfold is_half. rewrite P0. by destruct (Z.eqb_spec 0 x). }
  constructor.
  - cbn. apply NoDup_cons. split; [by apply get_none|done].
  - intros p u. rewrite get_cons. destruct (decide (p = c)) as [->|]; [done|apply KZ].
  - intros p u. rewrite get_cons. destruct (decide (p = c)) as [->|]; [intros [= <-]; by left|apply KS].
  - intros p u. rewrite get_cons. destruct (decide (p = c)) as [->|]; [intros [= <-] Hp; done|].
    intros G Hp. destruct (KP p u G Hp) as (A & B & C & lt & Gl & El). split_and!; try done. exists lt. split; [by apply HL|done].
  - intros l lt. rewrite get_cons. destruct (decide (l = c)) as [->|Nl].
    + intros [= <-] _ _. cbn [half]. rewrite I0, Q0, H0, E1, E2, E3, E4 by done. split_and!; try done. constructor.
    + intros Gl El _. destruct (KL l lt Gl El) as (H1 & H2 & H3 & H4 & H5); [done|]. cbn [half].
      rewrite I0 by (by eapply KZ). split; [cbn; lia|]. split_and!; try done.
      eapply linked_ext; [|exact H4]. intros x Hx. destruct (KQ l x Hx) as (_ & _ & u & Gu & _); [done|]. unfold next_of. by rewrite (HL _ _ Gu), Gu.
  - intros l lt. rewrite get_cons. destruct (decide (l = c)) as [->|]; [intros [= <-]; done|]. apply KR.
  - intros l x Hx _. destruct (KQ l x Hx) as (A & _ & u & Gu & Eu); [done|]. split_and!; try done. exists u. split; [by apply HL|done].
Qed.

(** ** Out of the queue *)

(** The first of the queue of [l] leaves it and loses its parent. *)
Lemma store_pop tl tl' Q l lt lt' c ct ct' q :
  store_ok tl Q -> get_tcb l tl = Some lt -> fld lt T_state = TCP_LISTEN -> Q l = c :: q -> get_tcb c tl = Some ct ->
  tl' = set_tcb c ct' (set_tcb l lt' tl) ->
  (forall f, aq_field f = false -> fld lt' f = fld lt f) -> fld lt' T_aq_next = fld lt T_aq_next ->
  fld lt' T_aq_head = fld ct T_aq_next -> fld lt' T_aq_tail = (if fld ct T_aq_next =? 0 then 0 else fld lt T_aq_tail) ->
  fld lt' T_aq_len = fld lt T_aq_len - 1 -> safe ct' -> fld ct' T_parent = 0 -> fld ct' T_state = fld ct T_state ->
  store_ok tl' (upd Q l q).
Proof.
  intros K Gl El Eq Gc -> HF Hn HH HT HL S P0 Es. pose proof (listener_root _ _ _ _ _ _ _ K Gl El) as Pl.
  pose proof K as [KN KZ KS KP KL KR KQ]. destruct (KL l lt Gl El) as (L1 & L2 & L3 & L4 & L5); [done|].
  assert (Hcq : c ∈ Q l) by (rewrite Eq; by left). destruct (KQ l c Hcq) as (Nl & _ & u & Gu & Pc & Nc); [done|].
  assert (u = ct) as -> by congruence. clear Gu. assert (Ncl : c <> l) by (intros ->; congruence).
  destruct (KP c ct Gc) as (NLc & _); [congruence|].
  assert (GS : forall p, get_tcb p (set_tcb c ct' (set_tcb l lt' tl)) = if decide (p = c) then Some ct' else if decide (p = l) then Some lt' else get_tcb p tl).
  { intros p. erewrite get_set by (rewrite get_set_ne by done; exact Gc). by rewrite (get_set _ _ _ _ _ Gl). }
  rewrite Eq in L2, L3, L4, L5. destruct L4 as (_ & n & En & L4). unfold next_of in En. rewrite Gc in En. injection En as <-.
  apply NoDup_cons in L5 as [Hc L5].
  assert (Ho : forall x, x ∈ Q l -> x <> c -> x ∈ q) by (intros x; rewrite Eq, elem_of_cons; by intros [->|]).
  assert (HN : forall x y, y ∈ upd Q l q x -> y <> c).
  { intros x y. destruct (Z.eq_dec x l) as [->|N]; [rewrite queue_upd_eq; by intros Hy ->|rewrite queue_upd_ne by done]. intros Hy ->.
    destruct (KQ x c Hy) as (_ & _ & v & Gv & Ev & _); [done|]. congruence. }
  assert (HX : forall h x, linked tl h (upd Q l q x) -> linked (set_tcb c ct' (set_tcb l lt' tl)) h (upd Q l q x)).
  { intros h x. apply linked_ext. intros y Hy. unfold next_of. rewrite GS, decide_False by (by eapply HN).
    destruct (decide (y = l)) as [->|]; [|done]. rewrite Gl. cbn. by rewrite Hn. }
  constructor.
  - by rewrite !keys_set.
  - intros p v. rewrite GS. repeat destruct (decide _) as [->|]; [intros _; by eapply KZ..|apply KZ].
  - intros p v. rewrite GS. repeat destruct (decide _) as [->|]; [intros [= <-]; by right|intros [= <-]; left; by rewrite HF|apply KS].
  - intros p v. rewrite GS. destruct (decide (p = c)) as [->|Npc]; [by intros [= <-] ?|].
    destruct (decide (p = l)) as [->|Npl]; [intros [= <-]; by rewrite HF|]. intros Gv Hp.
    destruct (KP p v Gv Hp) as (A & B & C & w & Gw & Ew). split_and!; try done.
    + intros Hs _ _. specialize (C Hs ltac:(done) ltac:(done)). destruct (Z.eq_dec (fld v T_parent) l) as [E|N]; [|by rewrite queue_upd_ne].
      rewrite E, queue_upd_eq in *. auto.
    + rewrite GS, decide_False by (intros E; rewrite E in Gw; congruence). destruct (decide (fld v T_parent = l)); [exists lt'; by rewrite HF|by exists w].
  - intros x v. rewrite GS. destruct (decide (x = c)) as [->|]; [intros [= <-]; congruence|].
    erewrite half_set by (rewrite get_set_ne by done; exact Gc). rewrite (half_set _ _ _ _ _ Gl).
    destruct (decide (x = l)) as [->|N].
    + intros [= <-] _ _. unfold is_half. rewrite P0, Es, (HF T_parent), (HF T_state), (HF T_half_open), HL, HT, HH by done.
      destruct (Z.eqb_spec (fld ct T_state) TCP_SYN_RCVD); [done|]. rewrite !andb_false_r. split; [lia|].
      pose proof (HX (fld ct T_aq_next) l) as HX'. rewrite queue_upd_eq in *. rewrite len_cons in L2. split; [lia|]. split_and!; auto.
      destruct q as [|y q]; [by rewrite L4|]. rewrite L3, last_of_cons. destruct L4 as (-> & _).
      destruct (Z.eqb_spec y 0) as [->|]; [|done]. destruct (KQ l 0) as (_ & _ & w & Gw & _); [rewrite Eq; right; by left|done|]. by apply KZ in Gw.
    + intros Gx Ex _. destruct (KL x v Gx Ex) as (M1 & M2 & M3 & M4 & M5); [done|]. unfold is_half. rewrite P0, Es, (HF T_parent), (HF T_state) by done.
      destruct (Z.eqb_spec (fld ct T_state) TCP_SYN_RCVD); [done|]. rewrite !andb_false_r. split; [lia|].
      pose proof (HX (fld v T_aq_head) x) as HX'. rewrite queue_upd_ne in * by done. split_and!; auto.
  - intros x v. rewrite GS. destruct (decide (x = c)) as [->|]; [intros [= <-]; congruence|].
    destruct (decide (x = l)) as [->|]; [intros [= <-] _; rewrite HF by done; by eapply KR|apply KR].
  - intros x y Hy _. pose proof (HN x y Hy) as Ny. assert (Hy' : y ∈ Q x).
    { destruct (Z.eq_dec x l) as [->|N]; [|by rewrite queue_upd_ne in Hy]. rewrite queue_upd_eq in Hy. rewrite Eq. by right. }
    destruct (KQ x y Hy') as (A & _ & v & Gv & Ev); [done|]. split_and!; try done. exists v. rewrite GS, decide_False by done.
    rewrite decide_False; [done|]. intros ->. destruct Ev as [Ev _]. congruence.
Qed.

(** ** The end of a listener *)

(** A child of the listener that is torn down becomes an orphan. *)
Lemma store_orphan tl Q l c t t' :
  store_at tl Q (fun _ => 0) None (Some l) -> get_tcb c tl = Some t -> fld t T_parent = l -> l <> 0 ->
  fld t' T_parent = 0 -> fld t' T_state <> TCP_LISTEN -> safe t' ->
  store_at (set_tcb c t' tl) Q (fun _ => 0) None (Some l).
Proof.
  intros [KN KZ KS KP KL KR KQ] G Ep Hl P0 NL S. destruct (KP c t G) as (NLt & _); [congruence|].
  assert (GS : forall p, get_tcb p (set_tcb c t' tl) = if decide (p = c) then Some t' else get_tcb p tl) by (intros; by eapply get_set).
  assert (HN : forall x y, y ∈ Q x -> x <> l -> y <> c).
  { intros x y Hy N ->. destruct (KQ x c Hy) as (_ & _ & v & Gv & Ev & _); [congruence|]. congruence. }
  constructor.
  - by rewrite keys_set.
  - intros p v. rewrite GS. destruct (decide _) as [->|]; [intros _; by eapply KZ|apply KZ].
  - intros p v. rewrite GS. destruct (decide _) as [->|]; [intros [= <-]; by right|apply KS].
  - intros p v. rewrite GS. destruct (decide _) as [->|]; [by intros [= <-] ?|]. intros Gv Hp.
    destruct (KP p v Gv Hp) as (A & B & C & w & Gw & Ew). split_and!; try done. rewrite GS.
    destruct (decide _) as [E|]; [rewrite E in Gw; congruence|by exists w].
  - intros x v. rewrite GS. destruct (decide _) as [->|]; [by intros [= <-]|]. intros Gx Ex Nx.
    destruct (KL x v Gx Ex Nx) as (M1 & M2 & M3 & M4 & M5). assert (x <> l) by congruence. pose proof (KZ _ _ Gx).
    rewrite (half_set _ _ _ _ _ G). unfold is_half. rewrite Ep, P0.
    destruct (Z.eqb_spec l x); [congruence|]. destruct (Z.eqb_spec 0 x); [congruence|]. split; [cbn; lia|]. split_and!; try done.
    eapply linked_ext; [|exact M4]. intros y Hy. unfold next_of. rewrite GS, decide_False by (by eapply HN). done.
  - intros x v. rewrite GS. destruct (decide _) as [->|]; [by intros [= <-]|apply KR].
  - intros x y Hy Nx. destruct (KQ x y Hy Nx) as (A & _ & v & Gv & Ev). split_and!; try done. exists v.
    rewrite GS, decide_False by (eapply HN; [done|congruence]). done.
Qed.

Lemma store_close tl Q l : store_ok tl Q -> store_at tl Q (fun _ => 0) None (Some l).
Proof.
  intros [KN KZ KS KP KL KR KQ]. constructor; try done.
  - intros c t G Hp. destruct (KP c t G Hp) as (A & B & C & D). split_and!; try done. intros. by apply C.
  - intros x v G E _. by apply KL.
  - intros x y Hy _. by apply KQ.
Qed.

(** The listener is freed when it has no children. *)
Lemma store_del_listener tl Q l lt :
  store_at tl Q (fun _ => 0) None (Some l) -> get_tcb l tl = Some lt -> fld lt T_state = TCP_LISTEN ->
  (forall c t, get_tcb c tl = Some t -> fld t T_parent <> l) -> store_ok (del_tcb l tl) (upd Q l []).
Proof.
  intros K G El HN. pose proof (listener_root _ _ _ _ _ _ _ K G El) as P0. pose proof K as [KN KZ KS KP KL KR KQ].
  assert (GD : forall x u, get_tcb x (del_tcb l tl) = Some u -> x <> l /\ get_tcb x tl = Some u).
  { intros x u Gx. destruct (Z.eq_dec x l) as [->|N]; [by rewrite get_del_eq in Gx|]. by rewrite get_del_ne in Gx. }
  assert (HQ : forall x y, y ∈ Q x -> x <> l -> y <> l).
  { intros x y Hy N ->. destruct (KQ x l Hy) as (? & _ & v & Gv & Ev & _); [congruence|]. congruence. }
  constructor.
  - by apply keys_del.
  - intros x u [_ Gx]%GD. by eapply KZ.
  - intros x u [_ Gx]%GD. by eapply KS.
  - intros x u [N Gx]%GD Hp. pose proof (HN x u Gx) as Np. destruct (KP x u Gx Hp) as (A & B & C & w & Gw & Ew). split_and!; try done.
    + intros Hs _ _. rewrite queue_upd_ne by done. apply C; congruence.
    + exists w. by rewrite get_del_ne.
  - intros x u [N Gx]%GD Ex _. destruct (KL x u Gx Ex) as (M1 & M2 & M3 & M4 & M5); [congruence|]. pose proof (KZ _ _ Gx).
    rewrite (half_del _ _ _ _ G). unfold is_half. rewrite P0. destruct (Z.eqb_spec 0 x); [congruence|]. rewrite queue_upd_ne by done.
    split; [cbn; lia|]. split_and!; try done. eapply linked_ext; [|exact M4]. intros y Hy. unfold next_of.
    rewrite get_del_ne; [done|by eapply HQ].
  - intros x u [_ Gx]%GD. by eapply KR.
  - intros x y Hy _. destruct (Z.eq_dec x l) as [->|N]; [rewrite queue_upd_eq in Hy; by inversion Hy|]. rewrite queue_upd_ne in Hy by done.
    destruct (KQ x y Hy) as (A & _ & v & Gv & Ev); [congruence|]. split_and!; try done. exists v. rewrite get_del_ne; [done|by eapply HQ].
Qed.
