(* ===== verification/SockSafe.v ===== *)
(** Sockets and control blocks are safe: every call of [Sock] on a system that
    satisfies [sys_ok] returns and leaves such a system, whatever packets arrive and
    in whatever order the calls are made. No pointer to a freed block is followed,
    no buffer is overrun, and the counts and queues of the listeners are exact. *)

From stdpp Require Import base numbers option list.
From Stdlib Require Import ZArith Lia.
From S2P Require Import Prelude Buf Inet Tcp TcpFrame TcpStream TcpSafe TcpFamily Wire Sock SockInv.

Record sys_ok (s : sys) : Prop := {
  o_store : exists Q, store_ok (tcbs s) Q;
  o_len : length (socks s) = 64%nat;
  o_own : forall i k, socks s !! i = Some k -> sfld k S_tcb <> 0 -> owner (tcbs s) (sfld k S_tcb) = Some (sock_ptr i);
  o_eph : 49152 <= next_ephemeral s < 65536
}.

(** What the heap guarantees: a block is new and its buffers are whole. *)
Definition heap_ok (r : heap_res) (s : sys) : Prop :=
  match r with
  | None => True
  | Some (p, b1, b2) => p <> 0 /\ get_tcb p (tcbs s) = None /\ len b1 = TCP_BUF_SIZE /\ len b2 = TCP_BUF_SIZE
  end.

Lemma ran_sys s s' Q : sys_ok s -> ran_ok s s' Q -> sys_ok s'.
Proof.
  intros [[Q0 K] L O E] (A & B & C & D & F & G). constructor; [by exists Q|by rewrite B| |by rewrite C].
  intros i k. rewrite B, G. apply O.
Qed.

Lemma logged_sys s s' : sys_ok s -> logged s s' -> sys_ok s'.
Proof.
  intros [[Q K] L O E] (A & B & _ & D & _ & _). constructor; rewrite ?A, ?B, ?D; try done. by exists Q.
Qed.

Lemma logged_log e s : logged s (log e s).
Proof. done. Qed.

Lemma logged_rst g s : logged s (send_rst_raw g s).
Proof. done. Qed.

(** The call returns in a system that differs from that of [O] in the log only. *)
Ltac ret O := eexists; split; [reflexivity|first [exact O|by apply (logged_sys _ _ O)]].

(** A routine of [Tcp] on a block. *)
Lemma on_tcb_ok c f s t :
  sys_ok s -> get_tcb c (tcbs s) = Some t -> fld t T_state <> TCP_LISTEN ->
  (forall e, esafe e -> et e = t -> exists e', f e = Some e' /\ esafe e' /\ family e e') ->
  exists s', on_tcb c f s = Some s' /\ sys_ok s' /\ socks s' = socks s /\ (forall p, owner (tcbs s') p = owner (tcbs s) p) /\ time s' = time s.
Proof.
  intros O G NL H. destruct (o_store _ O) as [Q K].
  assert (S : esafe (started t s)). { apply safe_start. by destruct (k_safe _ _ _ _ _ K c t G). }
  destruct (H (started t s) S eq_refl) as (e & E & Se & F). unfold on_tcb, load. rewrite G. cbn [mbind option_bind].
  change (Est t [] (oks s) (time s)) with (started t s). rewrite E. cbn [mbind option_bind].
  destruct (store_family s Q c t e K G NL F Se) as (s' & Q' & -> & R). exists s'. split; [done|].
  split; [by eapply ran_sys|]. destruct R as (_ & B & _ & D & _ & W). done.
Qed.

(** ** Lookup *)

Lemma find_conn_some lip lport rip rport l p :
  NoDup (map fst l) -> find_conn lip lport rip rport l = Some p ->
  exists t, get_tcb p l = Some t /\ fld t T_state <> TCP_LISTEN /\ fld t T_state <> TCP_CLOSED /\
    fld t T_lport = lport /\ fld t T_rport = rport /\ fld t T_rip = rip /\ (fld t T_lip = lip \/ fld t T_lip = 0).
Proof.
  induction l as [|[q u] l IH]; [done|]. cbn [map fst find_conn]. intros D H. apply NoDup_cons in D as [Hn D].
  assert (K : find_conn lip lport rip rport l = Some p -> exists t, get_tcb p ((q, u) :: l) = Some t /\ fld t T_state <> TCP_LISTEN /\
    fld t T_state <> TCP_CLOSED /\ fld t T_lport = lport /\ fld t T_rport = rport /\ fld t T_rip = rip /\ (fld t T_lip = lip \/ fld t T_lip = 0)).
  { intros E. destruct (IH D E) as (t & G & R). exists t. split; [|done]. rewrite get_cons. destruct (decide (p = q)) as [->|]; [|done].
    apply get_none in Hn. congruence. }
  destruct (_ || _) eqn:Hs; [by apply K|]. destruct (_ && _) eqn:Hb; [|by apply K]. injection H as <-.
  apply orb_false_iff in Hs as [N1%Z.eqb_neq N2%Z.eqb_neq]. exists u. rewrite get_cons, decide_True by done.
  rewrite !andb_true_iff, orb_true_iff, !Z.eqb_eq in Hb. tauto.
Qed.

Lemma find_listener_some lip lport w l p :
  NoDup (map fst l) -> find_listener lip lport w l = Some p ->
  w = Some p \/ exists t, get_tcb p l = Some t /\ fld t T_state = TCP_LISTEN /\ fld t T_lport = lport /\ (fld t T_lip = lip \/ fld t T_lip = 0).
Proof.
  revert w. induction l as [|[q u] l IH]; intros w D H; [by left|]. cbn [map fst find_listener] in *. apply NoDup_cons in D as [Hn D].
  assert (K : forall w', find_listener lip lport w' l = Some p -> w' = Some p \/ exists t, get_tcb p ((q, u) :: l) = Some t /\
    fld t T_state = TCP_LISTEN /\ fld t T_lport = lport /\ (fld t T_lip = lip \/ fld t T_lip = 0)).
  { intros w' E. destruct (IH w' D E) as [?|(t & G & R)]; [by left|]. right. exists t. split; [|done]. rewrite get_cons.
    destruct (decide (p = q)) as [->|]; [|done]. apply get_none in Hn. congruence. }
  destruct (_ || _) eqn:Hb; [by apply K|]. apply orb_false_iff in Hb as [E1%negb_false_iff%Z.eqb_eq E2%negb_false_iff%Z.eqb_eq].
  assert (Gq : get_tcb q ((q, u) :: l) = Some u) by (by rewrite get_cons, decide_True).
  destruct (Z.eqb_spec (fld u T_lip) lip) as [E3|_]; [injection H as <-; right; exists u; auto|].
  apply K in H as [H|H]; [|by right]. destruct (Z.eqb_spec (fld u T_lip) 0) as [E0|]; [|by left]. injection H as <-. right. exists u. auto.
Qed.

Lemma get_in p l : p ∈ map fst l -> exists t, get_tcb p l = Some t.
Proof. intros H. destruct (get_tcb p l) as [t|] eqn:G; [by exists t|]. by apply get_none in G. Qed.

Lemma in_get p l t : get_tcb p l = Some t -> p ∈ map fst l.
Proof. intros H. destruct (decide (p ∈ map fst l)) as [|N]; [done|]. apply get_none in N. congruence. Qed.

(** * Packets *)

Lemma parse_typed src dst pkt h : len pkt < 2 ^ 16 -> parse_seg src dst pkt = Some h -> seg_typed h.
Proof.
  intros Hl. unfold parse_seg. cbn zeta. destruct (len pkt <? 20); [done|]. destruct (_ || _) eqn:Hb; [done|].
  destruct (negb _); [done|]. intros [= <-]. apply orb_false_iff in Hb as [Hb1%Z.ltb_ge Hb2%Z.ltb_ge].
  constructor; cbn; [apply htonl_range..|apply htons_range|]. rewrite len_zdrop; lia.
Qed.

(** A routine whose actions touch no other block. *)
Lemma on_tcb_plain par c f s t e :
  get_tcb c (tcbs s) = Some t -> f (started t s) = Some e -> Forall (plain par) (acts e) ->
  (par <> 0 -> get_tcb par (set_tcb c (et e) (tcbs s)) <> None) ->
  exists s', on_tcb c f s = Some s' /\ logged (put_back c e s) s'.
Proof.
  intros G E F H. unfold on_tcb, load. rewrite G. cbn [mbind option_bind]. change (Est t [] (oks s) (time s)) with (started t s).
  rewrite E. cbn [mbind option_bind]. unfold store. fold (put_back c e s). by eapply do_plain.
Qed.

Lemma xmit_plain seq flags d m s : acts s = [] -> Forall (plain 0) (acts (tcp_xmit seq flags d m s)).
Proof.
  intros E. unfold tcp_xmit, kmalloc_seg.
  destruct (segs s) as [|[] l]; [| |by cbn; rewrite E]; cbn; destruct (flag _ _); cbn; rewrite E; repeat constructor.
Qed.

(** tcp_xmit adds nothing that the table of blocks sees. *)
Lemma xmit_last seq flags d m (f : est -> est) (g : est -> est) s t c :
  get_tcb c (tcbs s) = Some t -> (forall e, f e = tcp_xmit seq flags d m (g e)) -> acts (g (started t s)) = [] ->
  exists s', on_tcb c (fun e => Some (f e)) s = Some s' /\ logged (put_back c (f (started t s)) s) s'.
Proof. intros G E A. eapply (on_tcb_plain 0); try done. rewrite E. by apply xmit_plain. Qed.

(** What syn_child and connect_syn make of a fresh block. *)
Lemma syn_child_fresh l lport iss h b1 b2 oks now :
  let e := syn_child l lport iss h (Est (tcb_init (Some b1) (Some b2)) [] oks now) in
  e#T_state = TCP_SYN_RCVD /\ e#T_parent = l /\ e#T_sock = 0 /\ Forall (plain 0) (acts e).
Proof.
  cbn zeta. unfold syn_child. cbn zeta. split_and!; [rewrite xmit_frame, arm_frame by done; try done..|].
  - cbn. unfold take_mss. by destruct (truth _).
  - apply xmit_plain. unfold arm_rtx. destruct (negb _); cbn; unfold take_mss; by destruct (truth _).
Qed.

Lemma connect_fresh sock cond lip lport rip rport iss b1 b2 oks now :
  let e := connect_syn sock cond lip lport rip rport iss (Est (tcb_init (Some b1) (Some b2)) [] oks now) in
  e#T_state = TCP_SYN_SENT /\ e#T_parent = 0 /\ e#T_sock = sock /\ Forall (plain 0) (acts e).
Proof.
  cbn zeta. unfold connect_syn. cbn zeta. split_and!; [rewrite xmit_frame, arm_frame by done; done..|].
  apply xmit_plain. unfold arm_rtx. destruct (negb _); done.
Qed.

Lemma owner_cons tl c t p : get_tcb c tl = None -> owner tl p <> None -> owner ((c, t) :: tl) p = owner tl p.
Proof. intros N H. unfold owner in *. rewrite get_cons. destruct (decide (p = c)) as [->|]; [by rewrite N in H|done]. Qed.

Lemma owned_there s i k : sys_ok s -> socks s !! i = Some k -> sfld k S_tcb <> 0 ->
  exists t, get_tcb (sfld k S_tcb) (tcbs s) = Some t /\ fld t T_sock = sock_ptr i.
Proof.
  intros O E N. pose proof (o_own _ O i k E N) as H. unfold owner in H. destruct (get_tcb _ _) as [t|]; [|done].
  exists t. split; [done|]. by injection H.
Qed.

(** The table may change as long as the owners of the sockets' blocks are the same. *)
Lemma sys_tcbs s s' Q :
  sys_ok s -> store_ok (tcbs s') Q -> socks s' = socks s -> next_ephemeral s' = next_ephemeral s ->
  (forall p, owner (tcbs s) p <> None -> owner (tcbs s') p = owner (tcbs s) p) -> sys_ok s'.
Proof.
  intros [K L O E] K' Es Ee HO. constructor; [by exists Q|by rewrite Es| |by rewrite Ee].
  intros i k. rewrite Es. intros Ek N. pose proof (O i k Ek N) as Hk. rewrite HO; [done|congruence].
Qed.

Lemma handle_listen_ok l lt h r s :
  sys_ok s -> heap_ok r s -> seg_typed h -> get_tcb l (tcbs s) = Some lt -> fld lt T_state = TCP_LISTEN ->
  exists s', handle_listen l h r s = Some s' /\ sys_ok s'.
Proof.
  intros O H T G E. unfold handle_listen. cbn zeta. destruct (flag _ _); [ret O|]. destruct (flag _ _); [ret O|].
  destruct (flag _ _); cbn [negb]; [|ret O]. rewrite G. cbn [mbind option_bind].
  destruct (_ <=? _); [ret O|]. destruct r as [[[c b1] b2]|]; cbn [tcb_alloc]; [|ret O]. destruct H as (Hc & N & L1 & L2).
  destruct (o_store _ O) as [Q K]. unfold new_iss. set (iss := u32 _). set (t0 := tcb_init _ _).
  assert (Ncl : c <> l) by congruence. assert (Gl : get_tcb l ((c, t0) :: tcbs s) = Some lt) by (by rewrite get_cons, decide_False).
  rewrite (tput_some _ _ _ _ lt) by done. cbn [mbind option_bind with_iss with_tcbs tcbs].
  set (s1 := with_tcbs _ _). assert (Gc : get_tcb c (tcbs s1) = Some t0).
  { cbn [s1 with_tcbs tcbs]. rewrite get_set_ne by done. by rewrite get_cons, decide_True. }
  pose proof (syn_child_fresh l (fld lt T_lport) iss h b1 b2 (oks s1) (time s1)) as (F1 & F2 & F3 & F4).
  pose proof (child_safe l (fld lt T_lport) iss h b1 b2 (oks s1) (time s1) L1 L2 T) as SF%safe_end.
  change (Est _ [] (oks s1) (time s1)) with (started t0 s1) in *. set (e := syn_child _ _ _ _ _) in *.
  destruct (on_tcb_plain 0 c (fun e => Some (syn_child l (fld lt T_lport) iss h e)) s1 t0 e Gc) as (s' & E' & L'); try done.
  exists s'. split; [exact E'|]. destruct L' as (La & Lb & _ & Lc & _).
  assert (Tb : tcbs s' = set_tcb l (tset T_half_open (fld lt T_half_open + 1) lt) ((c, et e) :: tcbs s)).
  { rewrite Lb. cbn. destruct (Z.eqb_spec c l); [done|]. cbn. by rewrite Z.eqb_refl. }
  assert (Gl' : get_tcb l ((c, et e) :: tcbs s) = Some lt) by (by rewrite get_cons, decide_False).
  apply (sys_tcbs s s' Q); try done.
  - rewrite Tb. assert (K1 : store_at ((c, et e) :: tcbs s) Q (fun x => - b2z (is_half x (et e))) None None).
    { apply store_cons; try done; [by rewrite F1|]. intros _. rewrite F2. split_and!; try done. by exists lt. }
    assert (I : forall x, is_half x (et e) = (l =? x)) by (intros x; unfold is_half; by rewrite F1, F2, Z.eqb_refl, andb_true_r).
    eapply (store_settle _ _ (fun _ => 0) None); [|done|done]. eapply store_lis; [exact K1|exact Gl'|done|..]; cbn beta.
    + intros x Nx. rewrite I. destruct (Z.eqb_spec l x); [congruence|done].
    + by intros [].
    + rewrite I, Z.eqb_refl. cbn. lia.
  - intros p Hp. rewrite Tb, (owner_set _ _ _ _ _ Gl') by done. by apply owner_cons.
Qed.

(** A segment, whatever it holds. *)
Lemma tcp_input_ok src dst pkt r s :
  sys_ok s -> heap_ok r s -> len pkt < 2 ^ 16 -> exists s', tcp_input src dst pkt r s = Some s' /\ sys_ok s'.
Proof.
  intros O H Hl. unfold tcp_input. destruct (parse_seg src dst pkt) as [h|] eqn:Eh; [|ret O].
  pose proof (parse_typed _ _ _ _ Hl Eh) as T. cbn zeta. set (s1 := log _ s).
  assert (O1 : sys_ok s1) by (by apply (logged_sys s)). assert (H1 : heap_ok r s1) by done.
  clearbody s1. destruct (o_store _ O1) as [Q K]. pose proof (k_nodup _ _ _ _ _ K) as ND.
  destruct (find_conn _ _ _ _ _) as [c|] eqn:Ec.
  - destruct (find_conn_some _ _ _ _ _ _ ND Ec) as (t & G & NL & NC & _).
    destruct (on_tcb_ok c (conn_input h) s1 t O1 G NL) as (s' & E & O' & _); [|by exists s'].
    intros e Se Et. destruct (input_safe h e Se) as (e' & Ee & Se'); [by rewrite Et|done|]. exists e'. split_and!; try done.
    by eapply conn_input_family.
  - destruct (find_listener _ _ _ _) as [l|] eqn:El.
    + destruct (find_listener_some _ _ _ _ _ ND El) as [?|(lt & G & ES & _)]; [done|]. by eapply handle_listen_ok.
    + destruct (flag _ _); [ret O1|]. destruct (flag _ TCP_ACK); ret O1.
Qed.

(** * The timer *)

Lemma set_same p t l : get_tcb p l = Some t -> set_tcb p t l = l.
Proof. induction l as [|[q u] l IH]; [done|]. cbn. destruct (Z.eqb_spec q p) as [->|]; [by intros [= ->]|]. intros H. by rewrite IH. Qed.

(** A routine that does nothing. *)
Lemma store_same p t s : get_tcb p (tcbs s) = Some t -> exists s', store p (started t s) s = Some s' /\ logged s s'.
Proof. intros G. eexists. split; [reflexivity|]. unfold logged. cbn. by rewrite set_same. Qed.

(** A listener has nothing to do. *)
Lemma timer_listener t s : fld t T_state = TCP_LISTEN -> fld t T_rtx_deadline = 0 -> timer_tcb (started t s) = Some (started t s, false).
Proof.
  intros E R. unfold timer_tcb, timer_rtx, is_orphan. cbn zeta. cbn [started et fld]. rewrite R, E. change (truth 0) with false. cbn [andb negb].
  rewrite !andb_false_r. cbn [mbind option_bind started et fld]. rewrite !E. done.
Qed.

Lemma sys_del s s' p t :
  sys_ok s -> get_tcb p (tcbs s) = Some t -> fld t T_sock = 0 -> (exists Q, store_ok (del_tcb p (tcbs s)) Q) ->
  socks s' = socks s -> next_ephemeral s' = next_ephemeral s -> tcbs s' = del_tcb p (tcbs s) -> sys_ok s'.
Proof.
  intros O G E0 [Q K] Es Ee Et. destruct O as [_ L O E]. constructor; [exists Q; by rewrite Et|by rewrite Es| |by rewrite Ee].
  intros i k. rewrite Es, Et. intros Ek N. pose proof (O i k Ek N) as H. unfold owner in *. rewrite get_del_ne; [done|].
  intros E1. rewrite E1, G in H. cbn in H. rewrite E0 in H. unfold sock_ptr in H. injection H. lia.
Qed.

Lemma timer_one_ok p s :
  sys_ok s -> p ∈ map fst (tcbs s) ->
  exists s', timer_one p s = Some s' /\ sys_ok s' /\ forall q, q <> p -> q ∈ map fst (tcbs s) -> q ∈ map fst (tcbs s').
Proof.
  intros O Hp. apply get_in in Hp as [t G]. destruct (o_store _ O) as [Q K]. unfold timer_one, load. rewrite G. cbn [mbind option_bind].
  change (Est t [] (oks s) (time s)) with (started t s). destruct (Z.eq_dec (fld t T_state) TCP_LISTEN) as [EL|NL].
  { rewrite timer_listener by (done || by eapply k_rtx). cbn [mbind option_bind]. destruct (store_same p t s G) as (s' & -> & L).
    exists s'. split; [done|]. split; [by eapply logged_sys|]. by destruct L as (_ & -> & _). }
  assert (S : esafe (started t s)). { apply safe_start. by destruct (k_safe _ _ _ _ _ K p t G). }
  destruct (timer_safe _ S) as (e & reap & E & Se). rewrite E. cbn [mbind option_bind]. destruct (timer_tcb_family _ _ _ E) as [F R].
  destruct reap.
  - specialize (R eq_refl). unfold is_orphan in R. rewrite !andb_true_iff, !Z.eqb_eq in R. cbn in R. destruct R as [[R1 R2] _].
    assert (C : calm (started t s) e) by (by destruct F). pose proof (m_acts _ _ C) as (l & Ea & Fl). cbn [started acts app et] in *.
    unfold store. fold (put_back p e s). rewrite Ea. apply safe_end in Se.
    destruct (store_calm_run s Q p t e l) as (s' & -> & RO & Et); try done. cbn [mbind option_bind].
    assert (G' : get_tcb p (tcbs s') = Some (et e)) by (rewrite Et; apply get_set_eq; congruence).
    unfold tcb_free. rewrite G'. cbn [mbind option_bind]. eexists. split; [reflexivity|].
    assert (E1 : e#T_sock = 0 /\ e#T_parent = 0 /\ e#T_state <> TCP_LISTEN).
    { destruct C as [Kf [M|[M|M]] _]; rewrite !Kf by done; split_and!; try done; cbn in M; intros E'; rewrite E' in M; [congruence|done|by apply M]. }
    destruct E1 as (E1 & E2 & E3). pose proof (ran_sys _ _ _ O RO) as O'. destruct RO as (K' & _ & _ & _ & Ek & _). split.
    + eapply (sys_del s'); try done. exists Q. by eapply store_del.
    + intros q Nq Hq. cbn. rewrite <-Ek in Hq. apply get_in in Hq as [u Gu]. eapply in_get. by rewrite get_del_ne.
  - destruct (store_family s Q p t e K G NL F Se) as (s' & Q' & -> & RO). cbn [mbind option_bind]. exists s'. split; [done|].
    split; [by eapply ran_sys|]. destruct RO as (_ & _ & _ & _ & -> & _). done.
Qed.

Lemma timer_all_ok ps s :
  sys_ok s -> NoDup ps -> (forall p, p ∈ ps -> p ∈ map fst (tcbs s)) -> exists s', timer_all ps s = Some s' /\ sys_ok s'.
Proof.
  revert s. induction ps as [|p ps IH]; intros s O ND H; [ret O|]. apply NoDup_cons in ND as [Np ND]. cbn [timer_all].
  destruct (timer_one_ok p s O) as (s1 & -> & O1 & H1); [apply H; by left|]. cbn [mbind option_bind]. apply IH; [done..|].
  intros q Hq. apply H1; [by intros ->|]. apply H. by right.
Qed.

Lemma tcp_timer_ok s : sys_ok s -> exists s', tcp_timer s = Some s' /\ sys_ok s'.
Proof. intros O. apply timer_all_ok; [done| |done]. destruct (o_store _ O) as [Q K]. apply K. Qed.

(** * The socket table *)

Lemma sys_socks s s' :
  sys_ok s -> tcbs s' = tcbs s -> 49152 <= next_ephemeral s' < 65536 -> length (socks s') = length (socks s) ->
  (forall i k', socks s' !! i = Some k' -> sfld k' S_tcb <> 0 -> exists k, socks s !! i = Some k /\ sfld k S_tcb = sfld k' S_tcb) -> sys_ok s'.
Proof.
  intros [K L O E] Et Ee El H. constructor; [by rewrite Et|congruence| |done].
  intros i k' Ek N. destruct (H i k' Ek N) as (k & Ek' & Es). rewrite Et, <-Es. apply O; [done|by rewrite Es].
Qed.

Lemma sput_ok i f v s : f <> S_tcb \/ v = 0 -> sys_ok s -> sys_ok (sput i f v s).
Proof.
  intros Hf O. unfold sput. destruct (socks s !! i) as [k|] eqn:Ek; [|done]. apply (sys_socks s); try done; [apply O|cbn; by rewrite length_insert|].
  intros j k'. cbn. destruct (decide (j = i)) as [->|N].
  - rewrite list_lookup_insert_eq by (by eapply lookup_lt_Some). intros [= <-] Nz. exists k. split; [done|].
    destruct f; try done. destruct Hf as [?| ->]; [done|]. by destruct Nz.
  - rewrite list_lookup_insert_ne by done. intros E _. by exists k'.
Qed.

Lemma set_dq_ok i l s : sys_ok s -> sys_ok (set_dq i l s).
Proof.
  intros O. unfold set_dq. destruct (socks s !! i) as [k|] eqn:Ek; [|done]. apply (sys_socks s); try done; [apply O|cbn; by rewrite length_insert|].
  intros j k'. cbn. destruct (decide (j = i)) as [->|N].
  - rewrite list_lookup_insert_eq by (by eapply lookup_lt_Some). intros [= <-] _. by exists k.
  - rewrite list_lookup_insert_ne by done. intros E _. by exists k'.
Qed.

Lemma free_slot_some l i j : free_slot l i = Some j -> (i <= j < i + length l)%nat.
Proof.
  revert i. induction l as [|k l IH]; intros i; [done|]. cbn. destruct (truth _); [|intros [= <-]; lia]. intros H%IH. lia.
Qed.

Lemma sock_alloc_ok type s : sys_ok s ->
  sys_ok (sock_alloc type s).2 /\ tcbs (sock_alloc type s).2 = tcbs s /\
  match (sock_alloc type s).1 with Some i => (i < 64)%nat | None => (sock_alloc type s).2 = s end.
Proof.
  intros O. unfold sock_alloc. destruct (free_slot _ _) as [i|] eqn:E; [|done]. apply free_slot_some in E. cbn. split_and!; [|done|rewrite (o_len _ O) in E; lia].
  apply (sys_socks s); try done; [apply O|cbn; by rewrite length_insert|]. intros j k'. cbn. destruct (decide (j = i)) as [->|N].
  - rewrite list_lookup_insert_eq by lia. by intros [= <-].
  - rewrite list_lookup_insert_ne by done. intros E' _. by exists k'.
Qed.

Lemma eph_loop_ok n type s : sys_ok s -> sys_ok (eph_loop n type s).2.
Proof.
  revert s. induction n as [|n IH]; intros s O; [done|]. cbn [eph_loop]. cbn zeta.
  assert (O' : sys_ok (with_eph (if u16 (next_ephemeral s + 1) =? 0 then 49152 else u16 (next_ephemeral s + 1)) s)).
  { apply (sys_socks s); try done; [|by intros j k' ? _; exists k']. pose proof (o_eph _ O). cbn.
    destruct (Z.eqb_spec (u16 (next_ephemeral s + 1)) 0); [lia|]. destruct (Z.eq_dec (next_ephemeral s) 65535) as [E|]; [by rewrite E in *|].
    rewrite u16_small; lia. }
  destruct (negb _); [done|by apply IH].
Qed.

Lemma auto_bind_ok i type s : sys_ok s -> sys_ok (auto_bind i type s).
Proof.
  intros O. unfold auto_bind. destruct (negb _); [|done]. pose proof (eph_loop_ok (Z.to_nat 16384) type s O) as O'.
  unfold sock_ephemeral_port. destruct (eph_loop _ _ _) as [p s1]. by repeat (apply sput_ok; [by left|]).
Qed.

Lemma eph_tcbs n type s : tcbs (eph_loop n type s).2 = tcbs s.
Proof. revert s. induction n as [|n IH]; intros s; [done|]. cbn [eph_loop]. cbn zeta. destruct (negb _); [done|by rewrite IH]. Qed.

Lemma sput_tcbs i f v s : tcbs (sput i f v s) = tcbs s.
Proof. unfold sput. by destruct (socks s !! i). Qed.

Lemma auto_bind_tcbs i type s : tcbs (auto_bind i type s) = tcbs s.
Proof.
  unfold auto_bind, sock_ephemeral_port. destruct (negb _); [|done]. pose proof (eph_tcbs (Z.to_nat 16384) type s).
  destruct (eph_loop _ _ _) as [p s1]. by rewrite !sput_tcbs.
Qed.

Lemma get_sock_some fd s i : get_sock fd s = Some i -> (i < 64)%nat.
Proof.
  unfold get_sock, SOCK_MAX. destruct (_ || _) eqn:E; [done|]. intros [= <-]. rewrite !orb_false_iff, Z.ltb_ge, Z.leb_gt in E. lia.
Qed.

(** The block of socket [i]. *)
Lemma sock_block i s : sys_ok s -> sget i S_tcb s <> 0 -> exists t, get_tcb (sget i S_tcb s) (tcbs s) = Some t /\ fld t T_sock = sock_ptr i.
Proof. intros O. unfold sget. destruct (socks s !! i) as [k|] eqn:Ek; [|done]. intros N. by eapply owned_there. Qed.

Lemma sock_lookup i s : sys_ok s -> (i < 64)%nat -> exists k, socks s !! i = Some k.
Proof. intros O Hi. apply lookup_lt_is_Some. by rewrite (o_len _ O). Qed.

(** Socket [i] gets the block [p]. *)
Lemma sys_own i p s s' Q :
  sys_ok s -> (i < 64)%nat -> store_ok (tcbs s') Q -> socks s' = socks (sput i S_tcb p s) -> next_ephemeral s' = next_ephemeral s ->
  owner (tcbs s') p = Some (sock_ptr i) -> (forall x, x <> p -> owner (tcbs s) x <> None -> owner (tcbs s') x = owner (tcbs s) x) ->
  (forall j k, socks s !! j = Some k -> sfld k S_tcb <> 0 -> j <> i -> sfld k S_tcb <> p) -> sys_ok s'.
Proof.
  intros O Hi K' Es Ee Eo Ho HN. destruct (sock_lookup i s O Hi) as [k Ek]. unfold sput in Es. rewrite Ek in Es. cbn in Es.
  destruct O as [K L O E]. constructor; [by exists Q|by rewrite Es, length_insert| |by rewrite Ee].
  intros j k'. rewrite Es. destruct (decide (j = i)) as [->|N].
  - rewrite list_lookup_insert_eq by (by eapply lookup_lt_Some). intros [= <-] _. done.
  - rewrite list_lookup_insert_ne by done. intros Ej Nz. pose proof (O j k' Ej Nz) as Hj. rewrite Ho; [done| |congruence]. by eapply HN.
Qed.

(** No socket has a block that is new. *)
Lemma fresh_unowned p s : sys_ok s -> get_tcb p (tcbs s) = None ->
  forall j k, socks s !! j = Some k -> sfld k S_tcb <> 0 -> sfld k S_tcb <> p.
Proof. intros O N j k Ek Nz E. destruct (owned_there s j k O Ek Nz) as (t & G & _). congruence. Qed.

(** * The TCP calls *)

Definition call_sys (c : call) : sys := match c with Ret _ s | Wait _ s => s end.

(** The call returns or waits, in a system that is as it should be. *)
Definition call_ok (r : option call) : Prop := exists c, r = Some c /\ sys_ok (call_sys c).

Lemma call_ret v s : sys_ok s -> call_ok (Some (Ret v s)).
Proof. intros O. by exists (Ret v s). Qed.

Lemma call_wait v s : sys_ok s -> call_ok (Some (Wait v s)).
Proof. intros O. by exists (Wait v s). Qed.

#[export] Hint Resolve call_ret call_wait : core.

(** A call with a value that is kept while it waits, or given back. *)
Definition pair_ok {A} (r : option (A * call)) : Prop := exists v c, r = Some (v, c) /\ sys_ok (call_sys c).

Lemma pair_ret {A} (v : A) r s : sys_ok s -> pair_ok (Some (v, Ret r s)).
Proof. intros O. by exists v, (Ret r s). Qed.

Lemma pair_wait {A} (v : A) ms s : sys_ok s -> pair_ok (Some (v, Wait ms s)).
Proof. intros O. by exists v, (Wait ms s). Qed.

#[export] Hint Resolve pair_ret pair_wait : core.

(** A value and a system. *)
Definition ret_ok {A} (r : option (A * sys)) : Prop := exists v s, r = Some (v, s) /\ sys_ok s.

Lemma ret_some {A} (v : A) s : sys_ok s -> ret_ok (Some (v, s)).
Proof. intros O. by exists v, s. Qed.

#[export] Hint Resolve ret_some : core.

Lemma tput_head p f v t l s : tput p f v (with_tcbs ((p, t) :: l) s) = Some (with_tcbs ((p, tset f v t) :: l) s).
Proof. unfold tput. cbn. by rewrite Z.eqb_refl. Qed.

Lemma tcp_listen_ok i backlog r s : sys_ok s -> (i < 64)%nat -> heap_ok r s -> ret_ok (tcp_listen i backlog r s).
Proof.
  intros O Hi H. unfold tcp_listen. cbn zeta. unfold truth. destruct (Z.eqb_spec (sget i S_tcb s) 0) as [E0|N0]; cbn [negb].
  - destruct r as [[[l b1] b2]|]; cbn [tcb_alloc]; [|auto]. destruct H as (Hl & N & _ & _).
    repeat (rewrite tput_head; cbn [mbind option_bind]). set (t := tset T_cond _ _). destruct (o_store _ O) as [Q K].
    apply ret_some, (sys_own i l s _ Q); try done.
    + rewrite sput_tcbs. cbn [with_tcbs tcbs]. by apply store_listener.
    + unfold sput. cbn. by destruct (socks s !! i).
    + unfold sput. cbn. by destruct (socks s !! i).
    + rewrite sput_tcbs. unfold owner. cbn. by rewrite Z.eqb_refl.
    + intros x Nx Hx. rewrite sput_tcbs. by apply owner_cons.
    + intros j k Ek Nz _. by eapply fresh_unowned.
  - destruct (sock_block i s O N0) as (t & G & Es). rewrite (tget_some _ _ _ _ G). cbn [mbind option_bind].
    destruct (Z.eqb_spec (fld t T_state) TCP_LISTEN) as [EL|]; [|auto]. rewrite (tput_some _ _ _ _ _ G). cbn [mbind option_bind].
    destruct (o_store _ O) as [Q K]. apply ret_some, (sys_tcbs s _ Q); try done.
    + cbn. eapply store_lis; try done; [by intros []|cbn; lia].
    + intros p _. cbn. by eapply owner_set.
Qed.

(** ** accept *)

(** The head of the queue of a listener. *)
Lemma accept_head l lt s Q :
  store_ok (tcbs s) Q -> get_tcb l (tcbs s) = Some lt -> fld lt T_state = TCP_LISTEN -> fld lt T_aq_head <> 0 ->
  exists q ct, Q l = fld lt T_aq_head :: q /\ get_tcb (fld lt T_aq_head) (tcbs s) = Some ct /\ fld ct T_parent = l /\
    fld ct T_state <> TCP_LISTEN /\ fld lt T_aq_head <> l.
Proof.
  intros K G E N. destruct (k_lis _ _ _ _ _ K l lt G E) as (_ & _ & _ & L4 & _); [done|].
  destruct (Q l) as [|c q] eqn:Eq; [done|]. destruct L4 as (-> & _). assert (Hc : c ∈ Q l) by (rewrite Eq; by left).
  destruct (k_que _ _ _ _ _ K l c Hc) as (Nl & _ & ct & Gc & Pc & Nc); [done|]. exists q, ct. split_and!; try done.
  - by destruct (k_par _ _ _ _ _ K c ct Gc ltac:(congruence)) as [? _].
  - intros ->. pose proof (listener_root _ _ _ _ _ _ _ K G E). congruence.
Qed.

(** The links of the listener and of the block after the pop. *)
Definition popped_listener (next : Z) (lt : tcb) : tcb :=
  let lt := tset T_aq_head next lt in
  let lt := if next =? 0 then tset T_aq_tail 0 lt else lt in
  tset T_aq_len (fld lt T_aq_len - 1) lt.
Definition popped_child (ct : tcb) : tcb := tset T_parent 0 (tset T_aq_next 0 ct).

(** accept_pop up to the socket. *)
Lemma pop_run l lt ct s :
  get_tcb l (tcbs s) = Some lt -> get_tcb (fld lt T_aq_head) (tcbs s) = Some ct -> fld lt T_aq_head <> l ->
  let c := fld lt T_aq_head in
  let s1 := with_tcbs (set_tcb c (popped_child ct) (set_tcb l (popped_listener (fld ct T_aq_next) lt) (tcbs s))) s in
  accept_pop l s =
    match sock_alloc SOCK_STREAM s1 with
    | (None, s) =>
        s ← on_tcb c (fun e => Some (put T_state TCP_CLOSED (tcp_xmit (e#T_snd_nxt) (Z.lor TCP_RST TCP_ACK) [] false e))) s;
        Some (- EMFILE, 0, 0, s)
    | (Some j, s) =>
        let s := sput j S_tcb c (sput j S_rport (fld ct T_rport) (sput j S_rip (fld ct T_rip)
                   (sput j S_lport (fld ct T_lport) (sput j S_lip (fld ct T_lip) (sput j S_bound 1 s))))) in
        s ← tput c T_sock (sock_ptr j) s;
        s ← tput c T_cond (sock_ptr j) s;
        Some (Z.of_nat j, fld ct T_rip, fld ct T_rport, s)
    end.
Proof.
  intros Gl Gc N c s1. unfold accept_pop. rewrite (tget_some _ _ _ _ Gl). cbn [mbind option_bind]. fold c. fold c in Gc, N.
  rewrite (tget_some _ _ _ _ Gc). cbn [mbind option_bind]. rewrite (tput_some _ _ _ _ _ Gl). cbn [mbind option_bind].
  set (t1 := tset T_aq_head _ lt). set (n := fld ct T_aq_next) in *.
  set (t2 := if n =? 0 then tset T_aq_tail 0 t1 else t1).
  match goal with |- (?x ≫= _) = _ => assert (E2 : x = Some (with_tcbs (set_tcb l t2 (tcbs s)) s)) end.
  { unfold t2. destruct (n =? 0); [|done]. erewrite tput_some by (cbn; apply get_set_eq; congruence). cbn. by rewrite set_set. }
  rewrite E2. cbn [mbind option_bind]. erewrite tget_some by (cbn; apply get_set_eq; congruence). cbn [mbind option_bind].
  erewrite tput_some by (cbn; apply get_set_eq; congruence). cbn [mbind option_bind with_tcbs tcbs]. rewrite set_set.
  erewrite tput_some by (cbn; rewrite get_set_ne by done; exact Gc). cbn [mbind option_bind].
  assert (Gc2 : forall t' x, get_tcb c (set_tcb c t' (set_tcb l x (tcbs s))) = Some t').
  { intros t' x. apply get_set_eq. rewrite get_set_ne by done. congruence. }
  erewrite tput_some by (cbn; apply Gc2). cbn [mbind option_bind with_tcbs tcbs]. rewrite set_set, Gc2. cbn [mbind option_bind]. done.
Qed.

(** A routine on a connection without a parent. *)
Lemma on_tcb_free c f s t e :
  sys_ok s -> get_tcb c (tcbs s) = Some t -> fld t T_state <> TCP_LISTEN -> fld t T_parent = 0 ->
  f (started t s) = Some e -> esafe e -> Forall (plain 0) (acts e) -> e#T_state <> TCP_LISTEN -> e#T_parent = 0 ->
  exists s' Q, on_tcb c f s = Some s' /\ logged (put_back c e s) s' /\ store_ok (tcbs s') Q.
Proof.
  intros O G NL P0 E S F NL' P0'. destruct (o_store _ O) as [Q K]. destruct (on_tcb_plain 0 c f s t e G E F) as (s' & E' & L); [done|].
  exists s', Q. split_and!; try done. destruct L as (_ & -> & _). apply safe_end in S. by eapply store_free.
Qed.

(** A block that no socket refers to. *)
Lemma unowned s c t j k :
  sys_ok s -> get_tcb c (tcbs s) = Some t -> fld t T_sock = 0 -> socks s !! j = Some k -> sfld k S_tcb <> 0 -> sfld k S_tcb <> c.
Proof.
  intros O G E Ek N Ec. destruct (owned_there s j k O Ek N) as (u & Gu & Es). rewrite Ec in Gu. unfold sock_ptr in Es.
  assert (u = t) as -> by congruence. lia.
Qed.

Lemma put_acts_plain f v s : Forall (plain 0) (acts s) -> Forall (plain 0) (acts (put f v s)).
Proof. done. Qed.

Lemma popped_ok s l lt ct :
  sys_ok s -> get_tcb l (tcbs s) = Some lt -> fld lt T_state = TCP_LISTEN -> fld lt T_aq_head <> 0 ->
  get_tcb (fld lt T_aq_head) (tcbs s) = Some ct ->
  sys_ok (with_tcbs (set_tcb (fld lt T_aq_head) (popped_child ct) (set_tcb l (popped_listener (fld ct T_aq_next) lt) (tcbs s))) s) /\
  fld ct T_sock = 0 /\ fld ct T_state <> TCP_LISTEN /\ safe (popped_child ct).
Proof.
  intros O Gl El Nh Gc. destruct (o_store _ O) as [Q K]. destruct (accept_head l lt s Q K Gl El Nh) as (q & ct' & Eq & Gc' & Pc & NLc & Ncl).
  assert (ct' = ct) as -> by congruence. destruct (k_par _ _ _ _ _ K _ ct Gc) as (_ & S0 & _); [rewrite Pc; by eapply k_nz|].
  assert (Sc : safe (popped_child ct)).
  { destruct (k_safe _ _ _ _ _ K _ ct Gc) as [?|Sc]; [done|]. unfold popped_child.
    apply (put_safe T_parent 0 (Est (tset T_aq_next 0 ct) [] [] 0)); [done|]. by apply (put_safe T_aq_next 0 (Est ct [] [] 0)). }
  split_and!; try done. apply (sys_tcbs s _ (upd Q l q)); try done.
  - cbn. eapply store_pop; try done; unfold popped_listener; cbn zeta; destruct (_ =? 0); try done; by intros [].
  - intros p _. cbn [with_tcbs tcbs]. rewrite (owner_set _ _ ct); [|by rewrite get_set_ne|done]. eapply owner_set; [done|].
    unfold popped_listener. by destruct (_ =? 0).
Qed.

Lemma accept_pop_ok s l lt :
  sys_ok s -> get_tcb l (tcbs s) = Some lt -> fld lt T_state = TCP_LISTEN -> fld lt T_aq_head <> 0 ->
  exists v a b s', accept_pop l s = Some (v, a, b, s') /\ sys_ok s'.
Proof.
  intros O Gl El Nh. destruct (o_store _ O) as [Q K]. destruct (accept_head l lt s Q K Gl El Nh) as (q & ct & _ & Gc & _ & _ & Ncl).
  rewrite (pop_run l lt ct s Gl Gc Ncl). cbn zeta. destruct (popped_ok s l lt ct O Gl El Nh Gc) as (O1 & S0 & NLc & Sc).
  set (c := fld lt T_aq_head) in *. set (s1 := with_tcbs _ s) in *.
  assert (Gc1 : get_tcb c (tcbs s1) = Some (popped_child ct)) by (cbn; apply get_set_eq; rewrite get_set_ne by done; congruence).
  clearbody s1. pose proof (sock_alloc_ok SOCK_STREAM s1 O1) as (O2 & T2 & Hj). destruct (sock_alloc SOCK_STREAM s1) as [[j|] s2]; cbn in O2, T2, Hj.
  - set (s3 := sput j S_rport _ _). assert (O3 : sys_ok s3) by (unfold s3; by repeat (apply sput_ok; [by left|])).
    assert (T3 : tcbs s3 = tcbs s1) by (unfold s3; by rewrite !sput_tcbs, T2). clearbody s3.
    erewrite tput_some by (rewrite sput_tcbs, T3; exact Gc1). cbn [mbind option_bind].
    erewrite tput_some by (cbn; apply get_set_eq; rewrite sput_tcbs, T3; congruence). cbn [mbind option_bind].
    do 4 eexists. split; [reflexivity|]. cbn [with_tcbs tcbs]. rewrite set_set, sput_tcbs, T3. set (ct' := tset T_cond _ _).
    assert (Sc' : safe ct').
    { unfold ct'. apply (put_safe T_cond _ (Est (tset T_sock (sock_ptr j) (popped_child ct)) [] [] 0)); [done|].
      by apply (put_safe T_sock _ (Est (popped_child ct) [] [] 0)). }
    destruct (o_store _ O1) as [Q1 K1]. eapply (sys_own j c s3 _ Q1); cbn [with_tcbs tcbs socks next_ephemeral]; try done.
    + by eapply store_free.
    + unfold sput. by destruct (socks s3 !! j).
    + unfold owner. rewrite get_set_eq by congruence. done.
    + intros x Nx _. rewrite T3. unfold owner. by rewrite get_set_ne.
    + intros i k Ek Nz _. eapply (unowned s3 c (popped_child ct)); try done. by rewrite T3.
  - subst s2. destruct (on_tcb_free c (fun e => Some (put T_state TCP_CLOSED (tcp_xmit (e#T_snd_nxt) (Z.lor TCP_RST TCP_ACK) [] false e))) s1
      (popped_child ct) (put T_state TCP_CLOSED (tcp_xmit (fld ct T_snd_nxt) (Z.lor TCP_RST TCP_ACK) [] false (started (popped_child ct) s1))) O1 Gc1)
      as (s' & Q' & -> & L & K'); try done.
    + by apply reset_safe, safe_start.
    + apply put_acts_plain. by apply xmit_plain.
    + by rewrite fld_put_ne, xmit_frame.
    + do 4 eexists. split; [reflexivity|]. destruct L as (La & Lb & _ & Lc & _). apply (sys_tcbs s1 _ Q'); try done.
      intros p _. rewrite Lb. cbn [put_back with_oks with_tcbs tcbs]. eapply owner_set; [done|]. by rewrite fld_put_ne, xmit_frame.
Qed.

Lemma accept_round_ok l lt deadline s :
  sys_ok s -> get_tcb l (tcbs s) = Some lt -> fld lt T_state = TCP_LISTEN -> pair_ok (accept_round l deadline s).
Proof.
  intros O G E. unfold accept_round. rewrite (tget_some _ _ _ _ G). cbn [mbind option_bind]. unfold truth.
  destruct (Z.eqb_spec (fld lt T_aq_head) 0) as [|N]; cbn [negb].
  - destruct (negb _); [destruct (_ <=? _)|]; auto.
  - destruct (accept_pop_ok s l lt O G E N) as (v & a & b & s' & -> & O'). cbn. auto.
Qed.

Lemma tcp_accept_ok i s : sys_ok s -> pair_ok (tcp_accept i s).
Proof.
  intros O. unfold tcp_accept. destruct (Z.eqb_spec (sget i S_tcb s) 0) as [|N]; [auto|].
  destruct (sock_block i s O N) as (t & G & _). rewrite (tget_some _ _ _ _ G). cbn [mbind option_bind].
  destruct (Z.eqb_spec (fld t T_state) TCP_LISTEN); cbn [negb]; [|auto]. by eapply accept_round_ok.
Qed.

(** ** connect *)

(** The block of a socket has no parent. *)
Lemma owned_root s p t : sys_ok s -> get_tcb p (tcbs s) = Some t -> fld t T_sock <> 0 -> fld t T_parent = 0.
Proof.
  intros O G N. destruct (o_store _ O) as [Q K]. destruct (Z.eq_dec (fld t T_parent) 0) as [|Np]; [done|].
  by destruct (k_par _ _ _ _ _ K p t G Np) as (_ & ? & _).
Qed.

Lemma ptr_nz i : sock_ptr i <> 0.
Proof. unfold sock_ptr. lia. Qed.

Lemma sget_sput_eq i f v s : sys_ok s -> (i < 64)%nat -> sget i f (sput i f v s) = v.
Proof.
  intros O Hi. destruct (sock_lookup i s O Hi) as [k Ek]. unfold sget, sput. rewrite Ek. cbn.
  rewrite list_lookup_insert_eq by (by eapply lookup_lt_Some). cbn. unfold sf_eqb. by rewrite Nat.eqb_refl.
Qed.

Lemma sput_eph i f v s : next_ephemeral (sput i f v s) = next_ephemeral s.
Proof. unfold sput. by destruct (socks s !! i). Qed.

Lemma socks_sput i f v s s' : socks s = socks s' -> socks (sput i f v s) = socks (sput i f v s').
Proof. intros E. unfold sput. rewrite E. by destruct (socks s' !! i). Qed.

(** Nobody else has the block of socket [i]. *)
Lemma sole_owner s i j k t p :
  sys_ok s -> get_tcb p (tcbs s) = Some t -> fld t T_sock = sock_ptr i -> socks s !! j = Some k -> sfld k S_tcb <> 0 -> j <> i -> sfld k S_tcb <> p.
Proof.
  intros O G Es Ek N Nj E. destruct (owned_there s j k O Ek N) as (u & Gu & Eu). rewrite E in Gu. assert (u = t) as -> by congruence.
  unfold sock_ptr in *. lia.
Qed.

(** Socket [i] gives up its block. *)
Lemma release_ok i p t s s' Q :
  sys_ok s -> (i < 64)%nat -> get_tcb p (tcbs s) = Some t -> fld t T_sock = sock_ptr i -> store_ok (tcbs s') Q ->
  (forall x, x <> p -> owner (tcbs s') x = owner (tcbs s) x) -> socks s' = socks (sput i S_tcb 0 s) ->
  next_ephemeral s' = next_ephemeral s -> sys_ok s'.
Proof.
  intros O Hi G Es K' Ho Ek Ee. destruct (sock_lookup i s O Hi) as [k Hk]. unfold sput in Ek. rewrite Hk in Ek. cbn in Ek.
  pose proof (sole_owner s i) as HS. destruct O as [K L O E]. constructor; [by exists Q|by rewrite Ek, length_insert| |by rewrite Ee].
  intros j k'. rewrite Ek. destruct (decide (j = i)) as [->|N].
  - rewrite list_lookup_insert_eq by (by eapply lookup_lt_Some). by intros [= <-].
  - rewrite list_lookup_insert_ne by done. intros Ej Nz. rewrite Ho; [by apply O|]. by eapply HS.
Qed.

Lemma owner_del p x tl : x <> p -> owner (del_tcb p tl) x = owner tl x.
Proof. intros N. unfold owner. by rewrite get_del_ne. Qed.

(** Its connection is freed. *)
Lemma free_conn_ok i p t s :
  sys_ok s -> (i < 64)%nat -> get_tcb p (tcbs s) = Some t -> fld t T_sock = sock_ptr i -> fld t T_state <> TCP_LISTEN ->
  sys_ok (with_tcbs (del_tcb p (tcbs s)) (sput i S_tcb 0 s)).
Proof.
  intros O Hi G Es NL. destruct (o_store _ O) as [Q K]. eapply (release_ok i p t s _ Q); cbn [with_tcbs tcbs]; try done.
  - eapply store_del; try done. eapply owned_root; try done. rewrite Es. apply ptr_nz.
  - intros x Nx. by apply owner_del.
  - cbn. by rewrite sput_eph.
Qed.

Lemma connect_round_ok i p t deadline s :
  sys_ok s -> (i < 64)%nat -> get_tcb p (tcbs s) = Some t -> fld t T_sock = sock_ptr i -> fld t T_state <> TCP_LISTEN ->
  call_ok (connect_round i p deadline s).
Proof.
  intros O Hi G Es NL. unfold connect_round. rewrite !(tget_some _ _ _ _ G). cbn [mbind option_bind]. destruct (_ && _); [auto|].
  destruct (_ =? _); [auto|]. unfold tcb_free. rewrite sput_tcbs, G. cbn [mbind option_bind]. apply call_ret.
  by eapply free_conn_ok.
Qed.

(** A new block for socket [i] and its SYN. *)
Lemma connect_open_ok i p b1 b2 lip lport rip rport iss s s1 :
  sys_ok s -> (i < 64)%nat -> heap_ok (Some (p, b1, b2)) s ->
  tcbs s1 = (p, tcb_init (Some b1) (Some b2)) :: tcbs s -> socks s1 = socks (sput i S_tcb p s) -> next_ephemeral s1 = next_ephemeral s ->
  exists s' t, on_tcb p (fun e => Some (connect_syn (sock_ptr i) (sock_ptr i) lip lport rip rport iss e)) s1 = Some s' /\ sys_ok s' /\
    get_tcb p (tcbs s') = Some t /\ fld t T_sock = sock_ptr i /\ fld t T_state <> TCP_LISTEN.
Proof.
  intros O Hi (Hp & N & L1 & L2) Et Ek Ee. set (t0 := tcb_init _ _) in *.
  assert (G : get_tcb p (tcbs s1) = Some t0) by (by rewrite Et, get_cons, decide_True).
  pose proof (connect_fresh (sock_ptr i) (sock_ptr i) lip lport rip rport iss b1 b2 (oks s1) (time s1)) as (F1 & F2 & F3 & F4).
  pose proof (connect_safe (sock_ptr i) (sock_ptr i) lip lport rip rport iss b1 b2 (oks s1) (time s1) L1 L2) as SF%safe_end.
  change (Est _ [] (oks s1) (time s1)) with (started t0 s1) in *. set (e := connect_syn _ _ _ _ _ _ _ _) in *.
  destruct (on_tcb_plain 0 p (fun e => Some (connect_syn (sock_ptr i) (sock_ptr i) lip lport rip rport iss e)) s1 t0 e G) as (s' & E' & L'); try done.
  destruct L' as (La & Lb & _ & Lc & _).
  assert (Tb : tcbs s' = (p, et e) :: tcbs s) by (rewrite Lb; cbn; rewrite Et; cbn; by rewrite Z.eqb_refl).
  exists s', (et e). split; [exact E'|]. rewrite Tb, get_cons, decide_True by done. split_and!; try done; [|by rewrite F1].
  destruct (o_store _ O) as [Q K]. apply (sys_own i p s _ Q); try done.
  - rewrite Tb. eapply (store_settle _ _ (fun x => - b2z (is_half x (et e))) None); [apply store_cons; try done; by rewrite F1| |done].
    intros l lt _ _. unfold is_half. rewrite F1. by destruct (_ =? l).
  - by rewrite La.
  - by rewrite Lc.
  - rewrite Tb. unfold owner. rewrite get_cons, decide_True by done. cbn. by rewrite F3.
  - intros x Nx Hx. rewrite Tb. by apply owner_cons.
  - intros j k Hk Nz _. by eapply fresh_unowned.
Qed.

(** The port that tcp_connect binds. *)
Lemma connect_bind_ok i s : sys_ok s ->
  let r := if negb (truth (sget i S_bound s)) then
             let '(p, s) := sock_ephemeral_port SOCK_STREAM s in
             let s := sput i S_lport p s in
             if p =? 0 then (false, s) else (true, sput i S_bound 1 s)
           else (true, s) in
  sys_ok r.2 /\ tcbs r.2 = tcbs s.
Proof.
  intros O. cbn zeta. destruct (negb _); [|done]. pose proof (eph_loop_ok (Z.to_nat 16384) SOCK_STREAM s O) as O'.
  pose proof (eph_tcbs (Z.to_nat 16384) SOCK_STREAM s). unfold sock_ephemeral_port. destruct (eph_loop _ _ _) as [p s1]. cbn in O', H.
  destruct (p =? 0); cbn [snd]; rewrite !sput_tcbs; split; try done; by repeat (apply sput_ok; [by left|]).
Qed.

Lemma tcp_connect_ok src_for i rip rport r s :
  sys_ok s -> (i < 64)%nat -> heap_ok r s -> call_ok (tcp_connect src_for i rip rport r s).
Proof.
  intros O Hi H. unfold tcp_connect. cbn zeta. unfold truth at 1. destruct (Z.eqb_spec (sget i S_tcb s) 0) as [E0|N0]; cbn [negb].
  2:{ destruct (sock_block i s O N0) as (t & G & _). rewrite (tget_some _ _ _ _ G). cbn [mbind option_bind]. auto. }
  set (lip := if truth _ then _ else _). destruct (lip =? 0); [auto|]. clearbody lip.
  pose proof (connect_bind_ok i s O) as HB. cbn zeta in HB. destruct (if negb (truth (sget i S_bound s)) then _ else _) as [bound s1].
  cbn in HB. destruct HB as [O1 T1]. destruct bound; cbn [negb]; [|auto]. destruct r as [[[p b1] b2]|]; cbn [tcb_alloc]; [|auto].
  unfold new_iss. set (iss := u32 _). clearbody iss. set (s2 := sput i S_tcb p _).
  assert (H1 : heap_ok (Some (p, b1, b2)) s1) by (unfold heap_ok; by rewrite T1).
  destruct (connect_open_ok i p b1 b2 lip (sget i S_lport s2) rip rport iss s1 s2 O1 Hi H1) as (s3 & t & -> & O3 & G3 & E3 & N3).
  - unfold s2. by rewrite sput_tcbs.
  - unfold s2. by apply socks_sput.
  - unfold s2. by rewrite sput_eph.
  - cbn [mbind option_bind]. by eapply connect_round_ok.
Qed.
