(* ===== verification/SockCalls.v ===== *)
(** The socket calls are safe, in any order: [net_step] is one call, one packet or
    one run of the timer on a system, and every step from a system that satisfies
    [sys_ok] returns and leaves such a system. *)

From stdpp Require Import base numbers option list.
From Stdlib Require Import ZArith Lia.
From S2P Require Import Prelude Buf Inet Tcp TcpFrame TcpStream TcpSafe TcpFamily Wire Sock SockInv SockSafe.

(** * Data *)

(** A calm routine on a block. *)
Lemma calm_run s p t e :
  sys_ok s -> get_tcb p (tcbs s) = Some t -> fld t T_state <> TCP_LISTEN -> esafe e -> calm (started t s) e ->
  (fld t T_state = TCP_SYN_RCVD -> e#T_state = TCP_SYN_RCVD) ->
  exists s', store p e s = Some s' /\ sys_ok s' /\ get_tcb p (tcbs s') = Some (et e) /\ e#T_state <> TCP_LISTEN.
Proof.
  intros O G NL S C HS. destruct (o_store _ O) as [Q K]. apply safe_end in S. pose proof (m_acts _ _ C) as (l & Ea & Fl).
  cbn [started acts app et] in *. unfold store. fold (put_back p e s). rewrite Ea.
  destruct (store_calm_run s Q p t e l) as (s' & -> & R & Et); try done; [auto|]. exists s'. split; [done|].
  split; [by eapply ran_sys|]. rewrite Et. split; [apply get_set_eq; congruence|].
  destruct (m_state _ _ C) as [M|[M|M]]; cbn in M; intros E; rewrite E in M; [congruence|done|by apply M].
Qed.

Lemma send_round_calm buf done deadline dw s d s' :
  tcp_send_round buf done deadline dw s = Some (Send_more d s') -> calm s s' /\ s#T_state <> TCP_SYN_RCVD.
Proof.
  unfold tcp_send_round. cbn zeta. destruct (negb _); [done|]. destruct (truth (s#T_err)); [done|].
  destruct (Z.eqb_spec (s#T_state) TCP_ESTABLISHED) as [E|N1]; [|destruct (Z.eqb_spec (s#T_state) TCP_CLOSE_WAIT) as [E|]; [|done]];
    cbn [andb negb]; (destruct (_ =? 0); [destruct dw; [done|]; destruct (truth _); [destruct (_ <=? _)|]; done|]);
    (destruct (bsub _ _ _); [|done]); cbn [mbind option_bind]; (destruct (sb _); [|done]); cbn [mbind option_bind];
    (destruct (bblit _ _ _); [|done]); cbn [mbind option_bind];
    (match goal with |- (?x ≫= _) = _ -> _ => destruct x as [y|] eqn:Eo; [|done] end); cbn [mbind option_bind]; intros [= _ <-];
    (split; [eapply calm_output; [exact Eo|auto with calm]|by rewrite E]).
Qed.

Lemma block_safe s p t : sys_ok s -> get_tcb p (tcbs s) = Some t -> fld t T_state <> TCP_LISTEN -> esafe (started t s).
Proof. intros O G NL. destruct (o_store _ O) as [Q K]. apply safe_start. by destruct (k_safe _ _ _ _ _ K p t G). Qed.

(** The loop of tcp_send ends: every round takes a byte at least. *)
Lemma send_rounds_ok fuel p t buf done deadline dw s :
  sys_ok s -> get_tcb p (tcbs s) = Some t -> fld t T_state <> TCP_LISTEN -> 0 <= done <= len buf -> len buf - done < Z.of_nat fuel ->
  pair_ok (send_rounds fuel p buf done deadline dw s).
Proof.
  revert t done s. induction fuel as [|fuel IH]; intros t done s O G NL Hd Hf; [lia|]. cbn [send_rounds]. unfold load. rewrite G.
  cbn [mbind option_bind]. change (Est t [] (oks s) (time s)) with (started t s).
  destruct (send_safe buf done deadline dw (started t s) (block_safe s p t O G NL) Hd) as (r & E & Hr). rewrite E. cbn [mbind option_bind].
  destruct r as [v e|d e|d ms e]; [auto| |auto]. destruct Hr as [Hd' Se]. destruct (send_round_calm _ _ _ _ _ _ _ E) as [C NS].
  destruct (calm_run s p t e O G NL Se C) as (s' & -> & O' & G' & NL'); [done|]. cbn [mbind option_bind]. apply (IH (et e)); try done; lia.
Qed.

Lemma tcp_send_ok i buf dw s : sys_ok s -> pair_ok (tcp_send i buf dw s).
Proof.
  intros O. unfold tcp_send. cbn zeta. destruct (Z.eqb_spec (sget i S_tcb s) 0) as [|N]; [auto|].
  destruct (sock_block i s O N) as (t & G & _). rewrite !(tget_some _ _ _ _ G). cbn [mbind option_bind].
  destruct (Z.eqb_spec (fld t T_state) TCP_LISTEN); [auto|]. destruct (_ || _); [auto|]. pose proof (len_nonneg buf).
  eapply send_rounds_ok; try done. unfold send_fuel, len. lia.
Qed.

Lemma recv_round_calm n deadline dw sh s v bs s' :
  tcp_recv_round n deadline dw sh s = Some (Recv_ret v bs s') -> calm s s' /\ s'#T_state = s#T_state.
Proof.
  unfold tcp_recv_round. cbn zeta. destruct (_ =? 0).
  - destruct (truth _); [by intros [= _ _ <-]; auto with calm|]. destruct (_ || _); [by intros [= _ _ <-]; auto with calm|].
    destruct dw; [by intros [= _ _ <-]; auto with calm|]. destruct (truth _); [|done]. destruct (_ <=? _); [|done]. intros [= _ _ <-]. auto with calm.
  - destruct (rb _) as [b|]; [|done]. cbn [mbind option_bind]. destruct (rb_out _ _ _) as [[out head]|]; [|done]. cbn [mbind option_bind].
    intros [= _ _ <-]. set (x := put T_rb_len _ _). assert (X : calm s x) by (unfold x; auto with calm).
    assert (Es : x#T_state = s#T_state) by done. clearbody x. destruct (_ && _ && _); [|done].
    split; [by apply calm_ack|]. unfold send_ack. by rewrite xmit_frame.
Qed.

Lemma recv_round_sys i p t n deadline dw s :
  sys_ok s -> get_tcb p (tcbs s) = Some t -> fld t T_state <> TCP_LISTEN -> 0 < n -> pair_ok (recv_round i p n deadline dw s).
Proof.
  intros O G NL Hn. unfold recv_round, load. rewrite G. cbn [mbind option_bind]. change (Est t [] (oks s) (time s)) with (started t s).
  destruct (recv_safe n deadline dw (truth (sget i S_shut_rd s)) (started t s) (block_safe s p t O G NL) Hn) as (r & E & Hr).
  rewrite E. cbn [mbind option_bind]. destruct r as [v bs e|ms e]; [|auto]. destruct (recv_round_calm _ _ _ _ _ _ _ _ E) as [C Es].
  destruct (calm_run s p t e O G NL Hr C) as (s' & -> & O' & _); [by rewrite Es|]. cbn. auto.
Qed.

Lemma tcp_recv_ok i n dw s : sys_ok s -> 0 <= n -> pair_ok (tcp_recv i n dw s).
Proof.
  intros O Hn. unfold tcp_recv. cbn zeta. destruct (Z.eqb_spec (sget i S_tcb s) 0) as [|N]; [auto|].
  destruct (sock_block i s O N) as (t & G & _). rewrite !(tget_some _ _ _ _ G). cbn [mbind option_bind].
  destruct (Z.eqb_spec (fld t T_state) TCP_LISTEN); [auto|]. destruct (Z.eqb_spec n 0); [auto|].
  eapply recv_round_sys; try done. lia.
Qed.

(** * shutdown and close *)

Lemma queue_fin_calm s s' : queue_fin s = Some s' -> calm s s' /\ (s#T_state = TCP_SYN_RCVD \/ s#T_state = TCP_LISTEN -> s' = s).
Proof.
  unfold queue_fin. intros H. destruct (Z.eqb_spec (s#T_state) TCP_ESTABLISHED) as [E|].
  { split; [eapply calm_output; [exact H|auto with calm]|]. rewrite E. by intros [?|?]. }
  destruct (Z.eqb_spec (s#T_state) TCP_CLOSE_WAIT) as [E|]; [|injection H as <-; auto with calm].
  split; [eapply calm_output; [exact H|auto with calm]|]. rewrite E. by intros [?|?].
Qed.

Lemma tcp_shutdown_ok i how s : sys_ok s -> ret_ok (tcp_shutdown i how s).
Proof.
  intros O. unfold tcp_shutdown. cbn zeta. destruct (Z.eqb_spec (sget i S_tcb s) 0) as [|N]; [auto|]. destruct (_ || _); [|auto].
  destruct (sock_block i s O N) as (t & G & _). unfold on_tcb, load. rewrite G. cbn [mbind option_bind].
  change (Est t [] (oks s) (time s)) with (started t s). destruct (Z.eq_dec (fld t T_state) TCP_LISTEN) as [EL|NL].
  - assert (E : queue_fin (started t s) = Some (started t s)) by (unfold queue_fin; cbn [started et fld]; by rewrite EL).
    rewrite E. cbn [mbind option_bind]. destruct (store_same _ t s G) as (s' & -> & L). cbn. apply ret_some. by eapply logged_sys.
  - destruct (queue_fin_safe _ (block_safe s _ t O G NL)) as (e & E & Se). rewrite E. cbn [mbind option_bind].
    destruct (queue_fin_calm _ _ E) as [C HS]. destruct (calm_run s _ t e O G NL Se C) as (s' & -> & O' & _); [|cbn; auto].
    intros E1. rewrite HS by (by left). done.
Qed.

(** The reset of a child when its listener is closed. *)
Definition reset_child (e : est) : est :=
  let e := if negb (e#T_state =? TCP_CLOSED) then tcp_xmit (e#T_snd_nxt) (Z.lor TCP_RST TCP_ACK) [] false e else e in
  put T_parent 0 (put T_state TCP_CLOSED e).

Lemma reset_child_ok t s : safe t ->
  let e := reset_child (started t s) in
  safe (et e) /\ Forall (plain 0) (acts e) /\ e#T_state = TCP_CLOSED /\ e#T_parent = 0 /\ e#T_sock = fld t T_sock.
Proof.
  intros S. cbn zeta. unfold reset_child. cbn zeta. split; [|split; [|split; [|split]]].
  - apply safe_end, put_safe; [done|]. destruct (negb _); [by apply reset_safe, safe_start|by apply close_safe, safe_start].
  - destruct (negb _); [|done]. do 2 apply put_acts_plain. by apply xmit_plain.
  - done.
  - done.
  - rewrite !fld_put_ne by done. destruct (negb _); [by rewrite xmit_frame|done].
Qed.

Lemma close_children_ok l lt ps s Q :
  store_at (tcbs s) Q (fun _ => 0) None (Some l) -> get_tcb l (tcbs s) = Some lt -> fld lt T_state = TCP_LISTEN ->
  (forall p, p ∈ ps -> p ∈ map fst (tcbs s)) ->
  exists s', close_children l ps s = Some s' /\ store_at (tcbs s') Q (fun _ => 0) None (Some l) /\ get_tcb l (tcbs s') = Some lt /\
    socks s' = socks s /\ next_ephemeral s' = next_ephemeral s /\ (forall p, owner (tcbs s') p = owner (tcbs s) p) /\
    (forall c t', get_tcb c (tcbs s') = Some t' -> fld t' T_parent = l -> (c ∉ ps) /\ exists t, get_tcb c (tcbs s) = Some t /\ fld t T_parent = l).
Proof.
  intros K G E. revert s K G. induction ps as [|c ps IH]; intros s K G Hps.
  { exists s. split_and!; try done. intros c t' Gc Ep. split; [by apply not_elem_of_nil|]. by exists t'. }
  cbn [close_children]. destruct (get_in c (tcbs s)) as [t Gc]; [apply Hps; by left|]. rewrite (tget_some _ _ _ _ Gc). cbn [mbind option_bind].
  pose proof (k_nz _ _ _ _ _ K l lt G) as Nl. destruct (Z.eqb_spec (fld t T_parent) l) as [Ep|Np].
  - destruct (k_par _ _ _ _ _ K c t Gc) as (NLt & _); [congruence|].
    assert (St : safe t) by (by destruct (k_safe _ _ _ _ _ K c t Gc)).
    destruct (reset_child_ok t s St) as (Se & Fe & S1 & S2 & S3). set (e := reset_child _) in *.
    change (on_tcb c _ s) with (on_tcb c (fun e => Some (reset_child e)) s).
    destruct (on_tcb_plain 0 c (fun e => Some (reset_child e)) s t e Gc) as (s1 & -> & L); try done. cbn [mbind option_bind].
    destruct L as (La & Lb & _ & Lc & _). cbn [put_back with_oks with_tcbs tcbs] in Lb.
    assert (Ncl : c <> l) by (intros ->; congruence).
    destruct (IH s1) as (s' & -> & K' & G' & Es & Ee & Ho & Hn).
    + rewrite Lb. eapply store_orphan; try done.
    + rewrite Lb. by rewrite get_set_ne.
    + intros p Hp. rewrite Lb, keys_set. apply Hps. by right.
    + exists s'. split_and!; try done; [by rewrite Es|by rewrite Ee| |].
      * intros p. rewrite Ho, Lb. by eapply owner_set.
      * intros x t' Gx Ex. destruct (Hn x t' Gx Ex) as (N1 & u & Gu & Eu). rewrite Lb, (get_set _ _ _ _ _ Gc) in Gu.
        destruct (decide (x = c)) as [->|Nx]; [assert (u = et e) as -> by congruence; congruence|]. split; [|by exists u]. by apply not_elem_of_cons.
  - cbn [mbind option_bind]. destruct (IH s K G) as (s' & -> & K' & G' & Es & Ee & Ho & Hn); [intros p Hp; apply Hps; by right|].
    exists s'. split_and!; try done. intros x t' Gx Ex. destruct (Hn x t' Gx Ex) as (N1 & u & Gu & Eu). split; [|by exists u].
    apply not_elem_of_cons. split; [|done]. intros ->. congruence.
Qed.

Lemma close_listener_ok i p t s :
  sys_ok s -> (i < 64)%nat -> get_tcb p (tcbs s) = Some t -> fld t T_sock = sock_ptr i -> fld t T_state = TCP_LISTEN ->
  exists s', (s ← close_children p (map fst (tcbs s)) (sput i S_tcb 0 s); tcb_free p s) = Some s' /\ sys_ok s'.
Proof.
  intros O Hi G Es EL. destruct (o_store _ O) as [Q K].
  destruct (close_children_ok p t (map fst (tcbs s)) (sput i S_tcb 0 s) Q) as (s1 & -> & K1 & G1 & E1 & E2 & E3 & HN);
    rewrite ?sput_tcbs; try done; [by apply store_close|].
  cbn [mbind option_bind]. unfold tcb_free. rewrite G1. cbn [mbind option_bind]. eexists. split; [reflexivity|].
  apply (release_ok i p t s _ (upd Q p [])); cbn [with_tcbs tcbs socks next_ephemeral]; try done.
  - eapply store_del_listener; try done. intros c u Gc Ep. destruct (HN c u Gc Ep) as (Nc & v & Gv & _). apply Nc.
    rewrite sput_tcbs in Gv. by eapply in_get.
  - intros x Nx. by rewrite owner_del, E3, sput_tcbs.
  - by rewrite E2, sput_eph.
Qed.

Lemma orphan_close_calm s s' : orphan_close s = Some s' -> calm (put T_cond 0 (put T_sock 0 s)) s'.
Proof.
  unfold orphan_close. cbn zeta. set (y := put T_cond 0 _). set (x := put T_tw_deadline _ y). assert (X : calm y x) by (unfold x; auto with calm).
  clearbody x y. destruct (_ && _); [intros [= <-]; auto with calm|]. intros H. destruct (queue_fin_calm _ _ H) as [C _]. by eapply calm_trans.
Qed.

Lemma close_conn_ok i p t s :
  sys_ok s -> (i < 64)%nat -> get_tcb p (tcbs s) = Some t -> fld t T_sock = sock_ptr i -> fld t T_state <> TCP_LISTEN ->
  fld t T_state <> TCP_SYN_SENT -> fld t T_state <> TCP_CLOSED ->
  exists s', on_tcb p orphan_close (sput i S_tcb 0 s) = Some s' /\ sys_ok s'.
Proof.
  intros O Hi G Es N1 N2 N3. set (s0 := sput i S_tcb 0 s). assert (O0 : sys_ok s0) by (apply sput_ok; [by right|done]).
  assert (G0 : get_tcb p (tcbs s0) = Some t) by (unfold s0; by rewrite sput_tcbs).
  assert (P0 : fld t T_parent = 0) by (eapply owned_root; [exact O|exact G|rewrite Es; apply ptr_nz]).
  destruct (orphan_close_safe (started t s0) (block_safe s0 p t O0 G0 N1) N2 N3) as (e & E & Se).
  pose proof (orphan_close_calm _ _ E) as [Kf M (l & Ea & Fl)]. cbn in Ea. rewrite fld_put_ne, fld_put_ne in Fl by done. cbn in Fl. rewrite P0 in Fl.
  assert (NL : e#T_state <> TCP_LISTEN).
  { destruct M as [M|[M|M]]; intros E'; rewrite E' in M; [by apply N1|done|by apply M]. }
  destruct (on_tcb_free p orphan_close s0 t e O0 G0 N1 P0 E Se) as (s' & Q & -> & (La & Lb & _ & Lc & _) & K'); try done; [by rewrite Ea|by rewrite Kf|].
  exists s'. split; [done|]. apply (release_ok i p t s _ Q); try done.
  - intros x Nx. rewrite Lb. unfold owner. cbn. rewrite get_set_ne by done. unfold s0. by rewrite sput_tcbs.
  - rewrite Lc. cbn. unfold s0. by rewrite sput_eph.
Qed.

Lemma tcp_close_ok i s : sys_ok s -> (i < 64)%nat -> exists s', tcp_close i s = Some s' /\ sys_ok s'.
Proof.
  intros O Hi. unfold tcp_close. cbn zeta. assert (O0 : sys_ok (sput i S_tcb 0 s)) by (apply sput_ok; [by right|done]).
  destruct (Z.eqb_spec (sget i S_tcb s) 0) as [|N]; [by eexists|]. destruct (sock_block i s O N) as (t & G & Es).
  rewrite (tget_some _ _ _ t) by (by rewrite sput_tcbs). cbn [mbind option_bind].
  destruct (Z.eqb_spec (fld t T_state) TCP_LISTEN) as [EL|NL]; [rewrite sput_tcbs; by eapply close_listener_ok|].
  destruct (Z.eqb_spec (fld t T_state) TCP_SYN_SENT) as [|N2]; [|destruct (Z.eqb_spec (fld t T_state) TCP_CLOSED) as [|N3]]; cbn [orb];
    [| |by eapply close_conn_ok].
  all: unfold tcb_free; rewrite sput_tcbs, G; cbn [mbind option_bind]; eexists; (split; [reflexivity|]); by eapply free_conn_ok.
Qed.

(** * A step of the network *)

(** One thing that happens under net_lock: a packet, the timer, time passing, a
    call from its beginning to its return or its wait, or the end of a wait, with
    what the call kept on its stack. *)
Inductive net_op :=
  | N_segment (src dst : Z) (pkt : list Z) (r : heap_res)
  | N_datagram (src dst : Z) (pkt : list Z) (ok : bool)
  | N_timer
  | N_tick (ms : Z)
  | N_socket (domain type : Z)
  | N_bind (fd : Z) (a : sockaddr) (alen : Z)
  | N_listen (fd backlog : Z) (r : heap_res)
  | N_accept (fd : Z)
  | N_accept_woken (i : nat) (l deadline : Z)
  | N_connect (src_for : Z -> Z) (fd : Z) (a : sockaddr) (alen : Z) (r : heap_res)
  | N_connect_woken (i : nat) (t deadline : Z)
  | N_sendto (src_for : Z -> Z) (fd : Z) (buf : list Z) (null dontwait : bool) (a : sockaddr) (alen : Z) (ok : bool) (rc : Z)
  | N_send_woken (i : nat) (t : Z) (buf : list Z) (done deadline : Z) (dontwait : bool)
  | N_recvfrom (fd n : Z) (null dontwait : bool)
  | N_recv_woken (i : nat) (t n deadline : Z) (dontwait : bool)
  | N_udp_recv_woken (i : nat) (n deadline : Z) (dontwait : bool)
  | N_setsockopt (fd level optname : Z) (optval : option (Z * Z)) (optlen : Z)
  | N_getsockname (fd : Z)
  | N_shutdown (fd how : Z)
  | N_close (fd : Z).

Definition tick (ms : Z) (s : sys) : sys :=
  Sys (socks s) (tcbs s) (iss_state s) (next_ephemeral s) (oks s) (u64 (time s + ms)) (evs s).

Definition net_step (op : net_op) (s : sys) : option sys :=
  let call (c : option call) := c ← c; Some (call_sys c) in
  let pair {A} (c : option (A * Sock.call)) := '(_, c) ← c; Some (call_sys c) in
  let ret (r : option (Z * sys)) := '(_, s) ← r; Some s in
  match op with
  | N_segment src dst pkt r => tcp_input src dst pkt r s
  | N_datagram src dst pkt ok => Some (udp_input src dst pkt ok s)
  | N_timer => tcp_timer s
  | N_tick ms => Some (tick ms s)
  | N_socket domain type => Some (socket domain type s).2
  | N_bind fd a alen => Some (bind fd a alen s).2
  | N_listen fd backlog r => ret (listen fd backlog r s)
  | N_accept fd => pair (accept fd s)
  | N_accept_woken i l deadline => pair (accept_woken i l deadline s)
  | N_connect src_for fd a alen r => call (connect src_for fd a alen r s)
  | N_connect_woken i t deadline => call (connect_round i t deadline s)
  | N_sendto src_for fd buf null dw a alen ok rc => pair (sendto src_for fd buf null dw a alen ok rc s)
  | N_send_woken i t buf done deadline dw => pair (send_woken i t buf done deadline dw s)
  | N_recvfrom fd n null dw => pair (recvfrom fd n null dw s)
  | N_recv_woken i t n deadline dw => pair (recv_from i (recv_woken i t n deadline dw s))
  | N_udp_recv_woken i n deadline dw => pair (Some (udp_recv_woken i n deadline dw s))
  | N_setsockopt fd level optname optval optlen => Some (setsockopt fd level optname optval optlen s).2
  | N_getsockname fd => _ ← getsockname fd s; Some s
  | N_shutdown fd how => ret (shutdown fd how s)
  | N_close fd => ret (sock_close fd s)
  end.

(** The block [p] that a call kept over its wait, if it is the block of socket [i]
    again, is still of the kind it was: the address was not used again for a block
    of the other kind. *)
Definition same_kind (i : nat) (p : Z) (listening : bool) (s : sys) : Prop :=
  sget i S_tcb s = p -> forall t, get_tcb p (tcbs s) = Some t -> (fld t T_state =? TCP_LISTEN) = listening.

(** What a step asks of its environment: the heap returns new blocks, a packet is
    no longer than an IPv4 packet, and a call that goes on after a wait has the
    locals it had. A connect must find its block still there. *)
Definition op_ok (op : net_op) (s : sys) : Prop :=
  match op with
  | N_segment _ _ pkt r => heap_ok r s /\ len pkt < 2 ^ 16
  | N_listen _ _ r | N_connect _ _ _ _ r => heap_ok r s
  | N_accept_woken i l _ => l <> 0 /\ same_kind i l true s
  | N_connect_woken i t _ => (i < 64)%nat /\ t <> 0 /\ sget i S_tcb s = t /\ same_kind i t false s
  | N_send_woken i t buf done _ _ => t <> 0 /\ 0 <= done <= len buf /\ same_kind i t false s
  | N_recvfrom _ n _ _ => 0 <= n
  | N_recv_woken i t n _ _ => t <> 0 /\ 0 < n /\ same_kind i t false s
  | _ => True
  end.

Lemma udp_input_ok src dst pkt ok s : sys_ok s -> sys_ok (udp_input src dst pkt ok s).
Proof.
  intros O. unfold udp_input. destruct (parse_dgram _ _ _) as [d|]; [|done]. cbn zeta. set (s1 := log _ s).
  assert (O1 : sys_ok s1) by (by apply (logged_sys s)). clearbody s1. destruct (udp_lookup _ _ _) as [i|]; [|done].
  destruct (_ || _); [done|]. destruct (negb ok); [done|]. apply (logged_sys (set_dq i (get_dq i s1 ++ [Dg src (d_sport d) (d_data d)]) s1)); [|done].
  by apply set_dq_ok.
Qed.

Lemma udp_output_ok src_for a b c d buf ok rc s : sys_ok s -> sys_ok (udp_output src_for a b c d buf ok rc s).2.
Proof. intros O. unfold udp_output. destruct (negb ok); [done|]. cbn zeta. set (a' := if a =? 0 then _ else _). destruct (a' =? 0); [done|by apply (logged_sys s)]. Qed.

Lemma bind_ok fd a alen s : sys_ok s -> sys_ok (bind fd a alen s).2.
Proof.
  intros O. unfold bind. destruct (parse_addr a alen) as [|[ip port]]; [done|]. destruct (get_sock fd s) as [i|]; [|done].
  destruct (truth _); [done|].
  assert (O1 : sys_ok (if port =? 0 then sock_ephemeral_port (sget i S_type s) s else (port, s)).2) by (destruct (port =? 0); [by apply eph_loop_ok|done]).
  destruct (if port =? 0 then _ else _) as [p s1]. cbn in O1. destruct (_ || _); [done|]. cbn. by repeat (apply sput_ok; [by left|]).
Qed.

Lemma setsockopt_ok fd level optname optval optlen s : sys_ok s -> sys_ok (setsockopt fd level optname optval optlen s).2.
Proof.
  intros O. unfold setsockopt. destruct (negb _); [done|]. destruct (get_sock fd s) as [i|]; [|done].
  destruct (_ || _).
  - destruct optval as [[sec usec]|]; [|done]. destruct (_ <? _); [done|]. cbn. apply sput_ok; [left; by destruct (_ =? _)|done].
  - destruct (_ =? _); [|done]. destruct optval as [[v w]|]; [|done]. destruct (_ <? _); [done|]. cbn. apply sput_ok; [by left|done].
Qed.

Lemma udp_recv_ok i n deadline dw s : sys_ok s -> sys_ok (call_sys (udp_recv_round i n deadline dw s).2).
Proof.
  intros O. unfold udp_recv_round. destruct (get_dq i s) as [|d rest]; [|by apply set_dq_ok].
  destruct dw; [done|]. destruct (truth _); [done|]. destruct (truth deadline); [by destruct (_ <=? _)|done].
Qed.

Lemma connect_ok src_for fd a alen r s : sys_ok s -> heap_ok r s -> call_ok (connect src_for fd a alen r s).
Proof.
  intros O H. unfold connect. destruct (parse_addr a alen) as [|[ip port]]; [auto|]. destruct (get_sock fd s) as [i|] eqn:E; [|auto].
  apply get_sock_some in E. destruct (_ =? _); [|destruct (_ || _); [auto|by apply tcp_connect_ok]].
  apply call_ret. do 3 (apply sput_ok; [by left|]). by apply auto_bind_ok.
Qed.

Lemma sendto_ok src_for fd buf null dw a alen ok rc s : sys_ok s -> pair_ok (sendto src_for fd buf null dw a alen ok rc s).
Proof.
  intros O. unfold sendto. destruct (_ && _); [auto|]. destruct (get_sock fd s) as [i|]; [|auto].
  destruct (_ =? _); [by apply tcp_send_ok|]. match goal with |- context [match ?m with inl _ => _ | inr _ => _ end] => destruct m as [|[ip port]] end; [auto|].
  destruct (_ <? _); [auto|]. cbn zeta. set (s1 := auto_bind _ _ s). assert (O1 : sys_ok s1) by (by apply auto_bind_ok). clearbody s1.
  pose proof (udp_output_ok src_for (sget i S_lip s1) (sget i S_lport s1) ip port buf ok rc s1 O1) as O2. destruct (udp_output _ _ _ _ _ _ _ _ _). auto.
Qed.

(** The peer's address is read from the block of the socket. *)
Lemma recv_from_ok i r : pair_ok r -> pair_ok (recv_from i r).
Proof.
  intros (bs & c & -> & O). unfold recv_from. cbn [mbind option_bind]. destruct c as [v s|ms s]; cbn [call_sys] in O; [|auto]. cbn zeta.
  destruct (0 <=? v); cbn [andb]; [|auto]. unfold truth. destruct (Z.eqb_spec (sget i S_tcb s) 0) as [|N]; cbn [negb]; [auto|].
  destruct (sock_block i s O N) as (t & G & _). rewrite !(tget_some _ _ _ _ G). cbn [mbind option_bind]. auto.
Qed.

Lemma recvfrom_ok fd n null dw s : sys_ok s -> 0 <= n -> pair_ok (recvfrom fd n null dw s).
Proof.
  intros O Hn. unfold recvfrom. destruct (_ && _); [auto|]. destruct (get_sock fd s) as [i|]; [|auto].
  destruct (_ =? _); [by apply recv_from_ok, tcp_recv_ok|]. cbn zeta. set (d := if truth _ then _ else _).
  pose proof (udp_recv_ok i n d dw s O) as O1. destruct (udp_recv_round i n d dw s) as [v c]. by exists v, c.
Qed.

Lemma listen_ok fd backlog r s : sys_ok s -> heap_ok r s -> ret_ok (listen fd backlog r s).
Proof.
  intros O H. unfold listen. destruct (get_sock fd s) as [i|] eqn:E; [|auto]. destruct (negb _); [auto|].
  apply get_sock_some in E. apply tcp_listen_ok; [by apply auto_bind_ok|done|]. destruct r as [[[p b1] b2]|]; [|done]. unfold heap_ok. by rewrite auto_bind_tcbs.
Qed.

Lemma shutdown_ok fd how s : sys_ok s -> ret_ok (shutdown fd how s).
Proof.
  intros O. unfold shutdown. destruct (_ || _); [auto|]. destruct (get_sock fd s) as [i|]; [|auto]. cbn zeta.
  set (s1 := if (how =? SHUT_RD) || _ then _ else _). assert (O1 : sys_ok s1) by (unfold s1; destruct (_ || _); [by apply sput_ok; [left|]|done]).
  clearbody s1. set (s2 := if (how =? SHUT_WR) || _ then _ else _).
  assert (O2 : sys_ok s2) by (unfold s2; destruct (_ || _); [by apply sput_ok; [left|]|done]). clearbody s2.
  destruct (_ =? _).
  - destruct (tcp_shutdown_ok i how s2 O2) as (v & s3 & -> & O3). cbn. apply ret_some. by apply (logged_sys s3).
  - cbn. apply ret_some. by apply (logged_sys s2).
Qed.

Lemma sock_close_ok fd s : sys_ok s -> ret_ok (sock_close fd s).
Proof.
  intros O. unfold sock_close. destruct (get_sock fd s) as [i|] eqn:E; [|auto]. apply get_sock_some in E.
  assert (exists s1, (if sget i S_type s =? SOCK_STREAM then tcp_close i s else Some (set_dq i [] s)) = Some s1 /\ sys_ok s1) as (s1 & -> & O1).
  { destruct (_ =? _); [by apply tcp_close_ok|]. eexists. split; [done|]. by apply set_dq_ok. }
  cbn [mbind option_bind]. apply ret_some, sput_ok; [by left|]. by apply (logged_sys s1).
Qed.

Lemma getsockname_ok fd s : sys_ok s -> exists r, getsockname fd s = Some r.
Proof.
  intros O. unfold getsockname. destruct (get_sock fd s) as [i|]; [|by eexists]. cbn zeta. unfold truth at 1.
  destruct (Z.eqb_spec (sget i S_tcb s) 0) as [|N]; cbn [negb]; [by eexists|]. destruct (sock_block i s O N) as (t & G & _).
  rewrite (tget_some _ _ _ _ G). by eexists.
Qed.

Lemma same_kind_block i p b s : sys_ok s -> p <> 0 -> sget i S_tcb s = p -> same_kind i p b s ->
  exists t, get_tcb p (tcbs s) = Some t /\ fld t T_sock = sock_ptr i /\ (fld t T_state =? TCP_LISTEN) = b.
Proof. intros O N <- H. destruct (sock_block i s O N) as (t & G & Es). exists t. split_and!; try done. by apply H. Qed.

Lemma woken_ok op s :
  sys_ok s -> op_ok op s ->
  match op with
  | N_accept_woken i l d => pair_ok (accept_woken i l d s)
  | N_connect_woken i t d => call_ok (connect_round i t d s)
  | N_send_woken i t buf done d dw => pair_ok (send_woken i t buf done d dw s)
  | N_recv_woken i t n d dw => pair_ok (recv_from i (recv_woken i t n d dw s))
  | _ => True
  end.
Proof.
  intros O H. destruct op; try done; cbn in H.
  - unfold accept_woken. destruct (negb (truth _)); [cbn; auto|]. destruct (Z.eqb_spec (sget i S_tcb s) l) as [E|]; cbn; [|auto].
    destruct (same_kind_block i l true s O) as (t & G & _ & Et%Z.eqb_eq); try done; try apply H. by eapply accept_round_ok.
  - destruct H as (Hi & Nt & E & Hk). destruct (same_kind_block i t false s O Nt E Hk) as (u & G & Es & Et%Z.eqb_neq). by eapply connect_round_ok.
  - unfold send_woken. destruct H as (Nt & Hd & Hk). destruct (Z.eqb_spec (sget i S_tcb s) t) as [E|]; cbn [negb]; [|auto].
    destruct (same_kind_block i t false s O Nt E Hk) as (u & G & _ & Et%Z.eqb_neq). eapply send_rounds_ok; try done. unfold send_fuel, len in *. lia.
  - apply recv_from_ok. unfold recv_woken. destruct H as (Nt & Hn & Hk). destruct (Z.eqb_spec (sget i S_tcb s) t) as [E|]; cbn [negb]; [|auto].
    destruct (same_kind_block i t false s O Nt E Hk) as (u & G & _ & Et%Z.eqb_neq). by eapply recv_round_sys.
Qed.

Ltac finish H := let c := fresh in destruct H as (? & c & -> & ?); cbn; eexists; split; [reflexivity|done].


(** ** The state at boot *)

Lemma sys_boot : sys_ok boot.
Proof.
  constructor; [|done| |done].
  - exists (fun _ => []). constructor; try done; [by apply NoDup_nil_2|]. intros l c Hc. by inversion Hc.
  - intros i k [-> _]%lookup_replicate. done.
Qed.

Definition demo_buf : list Z := replicate (Z.to_nat TCP_BUF_SIZE) 0.

Lemma demo_len : len demo_buf = TCP_BUF_SIZE.
Proof. unfold len, demo_buf. rewrite length_replicate, Z2Nat.id by done. done. Qed.

Lemma demo_heap s : get_tcb 4096 (tcbs s) = None -> heap_ok (Some (4096, demo_buf, demo_buf)) s.
Proof. intros G. split; [done|]. split; [done|]. split; apply demo_len. Qed.


(** * Ports *)

(** The port that the [j]th try looks at. *)
Definition eph_port (p j : Z) : Z := 49152 + (p - 49152 + j) mod 16384.

Lemma eph_next p : 49152 <= p < 65536 -> (if u16 (p + 1) =? 0 then 49152 else u16 (p + 1)) = eph_port p 1.
Proof.
  intros Hp. unfold eph_port. destruct (Z.eq_dec p 65535) as [->|N]; [done|]. rewrite u16_small, Z.mod_small by lia.
  destruct (Z.eqb_spec (p + 1) 0); lia.
Qed.

Lemma eph_port_next p j : eph_port (eph_port p 1) j = eph_port p (j + 1).
Proof. unfold eph_port. f_equal. replace (49152 + (p - 49152 + 1) mod 16384 - 49152 + j) with ((p - 49152 + 1) mod 16384 + j) by lia.
  rewrite Zplus_mod_idemp_l. f_equal. lia. Qed.

Lemma eph_port_range p j : 49152 <= eph_port p j < 65536.
Proof. unfold eph_port. pose proof (Z.mod_pos_bound (p - 49152 + j) 16384). lia. Qed.

(** The loop finds the first free port, or every port it looked at is in use. *)
Lemma eph_loop_spec n type s :
  49152 <= next_ephemeral s < 65536 ->
  let p := (eph_loop n type s).1 in
  49152 <= p < 65536 /\ sock_port_in_use type 0 p s = false \/
  p = 0 /\ forall j, (j < n)%nat -> sock_port_in_use type 0 (eph_port (next_ephemeral s) (Z.of_nat j)) s = true.
Proof.
  revert s. induction n as [|n IH]; intros s Hs; [right; split; [done|intros; lia]|]. cbn [eph_loop]. cbn zeta. rewrite eph_next by done.
  set (s1 := with_eph _ s). change (sock_port_in_use type 0 (next_ephemeral s) s1) with (sock_port_in_use type 0 (next_ephemeral s) s).
  destruct (sock_port_in_use type 0 (next_ephemeral s) s) eqn:E; cbn [negb]; [|by left]. destruct (IH s1) as [[H1 H2]|[H1 H2]]; [apply eph_port_range|by left|].
  right. split; [done|]. intros [|j] Hj.
  - replace (eph_port _ _) with (next_ephemeral s); [done|]. unfold eph_port. rewrite Z.mod_small; lia.
  - specialize (H2 j ltac:(lia)). cbn in H2. rewrite eph_port_next in H2. by replace (Z.of_nat (S j)) with (Z.of_nat j + 1) by lia.
Qed.

Lemma port_used_by type port l : port_in_use type 0 port l = true -> port ∈ map (fun k => sfld k S_lport) l.
Proof.
  induction l as [|k l IH]; [done|]. cbn [port_in_use map]. destruct (_ || _) eqn:E; [by intros ?; right; apply IH|]. intros _.
  rewrite !orb_false_iff in E. destruct E as [_ E%negb_false_iff%Z.eqb_eq]. subst port. by left.
Qed.

(** An ephemeral port is always found: with 64 sockets the 16384 tries cannot
    all hit a port in use, so the port is in 49152..65535, no socket of the type is
    bound to it, and the zero that means there is none is never returned. *)
Theorem ephemeral_port_found type s :
  sys_ok s -> let p := (sock_ephemeral_port type s).1 in 49152 <= p < 65536 /\ sock_port_in_use type 0 p s = false.
Proof.
  intros O. cbn zeta. unfold sock_ephemeral_port. destruct (eph_loop_spec (Z.to_nat 16384) type s (o_eph _ O)) as [?|[_ H]]; [done|]. exfalso.
  set (ports := map (fun j => eph_port (next_ephemeral s) (Z.of_nat j)) (seq 0 65)).
  assert (ND : NoDup ports).
  { apply NoDup_fmap_2_strong; [|apply NoDup_seq]. intros a b Ha Hb. apply elem_of_seq in Ha, Hb. unfold eph_port. pose proof (o_eph _ O). intros E.
    assert (E' : (next_ephemeral s - 49152 + Z.of_nat a) mod 16384 = (next_ephemeral s - 49152 + Z.of_nat b) mod 16384) by lia.
    pose proof (Z.div_mod (next_ephemeral s - 49152 + Z.of_nat a) 16384). pose proof (Z.div_mod (next_ephemeral s - 49152 + Z.of_nat b) 16384). nia. }
  assert (Hsub : ports ⊆ map (fun k => sfld k S_lport) (socks s)).
  { intros x (j & -> & Hj%elem_of_seq)%list_elem_of_fmap. eapply port_used_by, H. lia. }
  apply (NoDup_submseteq _ _ ND), submseteq_length in Hsub. unfold ports in Hsub. rewrite !length_map, length_seq, (o_len _ O) in Hsub. lia.
Qed.

Lemma ephemeral_port_found_witness : 49152 <= (sock_ephemeral_port SOCK_DGRAM boot).1 < 65536.
Proof. apply (ephemeral_port_found SOCK_DGRAM boot sys_boot). Defined.

(** * A connect that is closed while it waits *)

(** C40: tcp_connect does not look its block up again after net_wait: when the socket
    is closed by another thread while the SYN is out, sock_close frees the block,
    and the connect that is woken reads it. *)
Theorem connect_close_dangles fd i deadline s :
  sys_ok s -> get_sock fd s = Some i -> sget i S_type s = SOCK_STREAM -> sget i S_tcb s <> 0 ->
  tget (sget i S_tcb s) T_state s = Some TCP_SYN_SENT ->
  exists s', sock_close fd s = Some (0, s') /\ connect_round i (sget i S_tcb s) deadline s' = None.
Proof.
  intros O G Ht N Hs. unfold sock_close. rewrite G, Ht. cbn [Z.eqb]. unfold tcp_close. cbn zeta.
  destruct (Z.eqb_spec (sget i S_tcb s) 0); [done|]. set (p := sget i S_tcb s) in *. unfold tget in *. rewrite sput_tcbs.
  destruct (get_tcb p (tcbs s)) as [t|] eqn:Gp; [|done]. injection Hs as Hs. cbn [mbind option_bind]. rewrite Hs. cbn [Z.eqb orb].
  unfold tcb_free. rewrite sput_tcbs, Gp. cbn [mbind option_bind]. eexists. split; [reflexivity|]. unfold connect_round, tget.
  destruct (o_store _ O) as [Q K]. rewrite sput_tcbs. cbn [log with_tcbs tcbs]. rewrite get_del_eq; [done|]. apply K.
Qed.

(** A socket that waits for the answer to its SYN. *)
Definition demo_waiting : sys :=
  match connect (fun _ => 0x0A000202) 0 (Some (AF_INET, htons 80, htonl 0x0A000203)) 16 (Some (4096, demo_buf, demo_buf))
          (socket AF_INET SOCK_STREAM boot).2 with
  | Some c => call_sys c
  | None => boot
  end.

Lemma demo_waiting_ok : sys_ok demo_waiting.
Proof.
  unfold demo_waiting. destruct (connect_ok (fun _ => 0x0A000202) 0 (Some (AF_INET, htons 80, htonl 0x0A000203)) 16
    (Some (4096, demo_buf, demo_buf)) (socket AF_INET SOCK_STREAM boot).2) as (c & -> & O); [|by apply demo_heap|done].
  apply (sock_alloc_ok SOCK_STREAM boot sys_boot).
Qed.

Lemma connect_close_dangles_witness :
  exists s', sock_close 0 demo_waiting = Some (0, s') /\ connect_round 0 (sget 0 S_tcb demo_waiting) 10000 s' = None.
Proof. apply (connect_close_dangles 0 0 10000 demo_waiting demo_waiting_ok); vm_compute; done. Defined.
