(* ===== verification/Ip.v ===== *)
(** The layers below the sockets: devices and loopback ([kernel/net/netdev.c]),
    Ethernet ([eth.c]), ARP ([arp.c]), IPv4 ([ipv4.c]), ICMP ([icmp.c]), and how
    a received frame climbs to [Sock] and a segment comes down again.

    A device pointer is its index in devs. The driver of a network card is an
    argument: what its transmit routine returns ([n_drv]) and the frames it has
    received. What kmalloc returns is [n_mem] for buffers and [n_blocks] for the
    control block a SYN may need. The segments and datagrams that [Sock] records
    are handed to ipv4_send in their order ([flush]). *)

From stdpp Require Import base numbers option list.
From Stdlib Require Import ZArith Lia.
From S2P Require Import Prelude Buf Inet Tcp Wire Sock.

(** * Constants *)

Definition NET_MAX_DEVS : Z := 4.
Definition ARP_CACHE_SIZE : Z := 32.
Definition ARP_TTL_MS : Z := 60 * 1000.
Definition ARP_RETRY_MS : Z := 300.
Definition ARP_OP_REQUEST : Z := 1.
Definition ARP_OP_REPLY : Z := 2.
Definition ARP_WAIT_MS : Z := 1000.
Definition ICMP_ECHO_REPLY : Z := 0.
Definition ICMP_ECHO_REQUEST : Z := 8.
Definition PING_ID : Z := 0x4D41.
Definition PING_SLOTS : Z := 8.
Definition PING_PAYLOAD : Z := 32.
Definition LO_QUEUE : Z := 64.
Definition NET_TICK_MS : Z := 50.

(** * State *)

Inductive dstat := rx_packets | tx_packets | rx_bytes | tx_bytes | rx_dropped | tx_dropped.
Definition ds_id (c : dstat) : nat :=
  match c with rx_packets => 0 | tx_packets => 1 | rx_bytes => 2 | tx_bytes => 3 | rx_dropped => 4 | tx_dropped => 5 end.

(** dev->send: NULL, lo_send, or that of a driver. *)
Inductive dsend := No_send | Lo_send | Nic_send.

Record netdev := Dev {
  d_name : list Z; d_mac : list Z; d_ip : Z; d_netmask : Z; d_gateway : Z; d_up : bool; d_loop : bool;
  d_send : dsend; d_poll : bool; d_stat : dstat -> Z
}.

Definition add_stat (c : dstat) (n : Z) (d : netdev) : netdev :=
  Dev (d_name d) (d_mac d) (d_ip d) (d_netmask d) (d_gateway d) (d_up d) (d_loop d) (d_send d) (d_poll d)
      (fun x => if Nat.eqb (ds_id x) (ds_id c) then u64 (d_stat d x + n) else d_stat d x).

Record arp_entry := Entry { e_ip : Z; e_mac : list Z; e_expires : Z; e_valid : bool }.

Record ping_slot := Ping { p_used : bool; p_dst : Z; p_seq : Z; p_done : bool; p_sent : Z; p_rtt : Z; p_ttl : Z }.

Record lo_state := Lo { lo_q : list (list Z); lo_head : Z; lo_tail : Z; lo_count : Z; lo_drop : Z; lo_counter : Z }.

Inductive nstat := ip_rx | ip_tx | ip_bad | icmp_rx | icmp_tx | arp_rx | arp_tx | dropped_no_route.
Definition ns_id (c : nstat) : nat :=
  match c with
  | ip_rx => 0 | ip_tx => 1 | ip_bad => 2 | icmp_rx => 3 | icmp_tx => 4 | arp_rx => 5 | arp_tx => 6 | dropped_no_route => 7
  end.

(** [n_out]: the frames given to network cards; [n_wakes]: the calls of
    net_rx_notify, and of pthread_cond_broadcast on arp_cond and ping_cond. *)
Inductive wake := W_rx | W_arp | W_ping.

Record nst := Nst {
  n_devs : list netdev; n_default : option nat; n_arp : list arp_entry; n_ipid : Z; n_pings : list ping_slot;
  n_lo : lo_state; n_stats : nstat -> Z; n_out : list (nat * list Z); n_wakes : list wake;
  n_drv : list Z; n_mem : list bool; n_blocks : list heap_res; n_sys : sys
}.

Definition now (s : nst) : Z := time (n_sys s).

Definition with_devs (v : list netdev) (s : nst) : nst :=
  Nst v (n_default s) (n_arp s) (n_ipid s) (n_pings s) (n_lo s) (n_stats s) (n_out s) (n_wakes s) (n_drv s) (n_mem s) (n_blocks s) (n_sys s).
Definition with_default (v : option nat) (s : nst) : nst :=
  Nst (n_devs s) v (n_arp s) (n_ipid s) (n_pings s) (n_lo s) (n_stats s) (n_out s) (n_wakes s) (n_drv s) (n_mem s) (n_blocks s) (n_sys s).
Definition with_arp (v : list arp_entry) (s : nst) : nst :=
  Nst (n_devs s) (n_default s) v (n_ipid s) (n_pings s) (n_lo s) (n_stats s) (n_out s) (n_wakes s) (n_drv s) (n_mem s) (n_blocks s) (n_sys s).
Definition with_ipid (v : Z) (s : nst) : nst :=
  Nst (n_devs s) (n_default s) (n_arp s) v (n_pings s) (n_lo s) (n_stats s) (n_out s) (n_wakes s) (n_drv s) (n_mem s) (n_blocks s) (n_sys s).
Definition with_pings (v : list ping_slot) (s : nst) : nst :=
  Nst (n_devs s) (n_default s) (n_arp s) (n_ipid s) v (n_lo s) (n_stats s) (n_out s) (n_wakes s) (n_drv s) (n_mem s) (n_blocks s) (n_sys s).
Definition with_lo (v : lo_state) (s : nst) : nst :=
  Nst (n_devs s) (n_default s) (n_arp s) (n_ipid s) (n_pings s) v (n_stats s) (n_out s) (n_wakes s) (n_drv s) (n_mem s) (n_blocks s) (n_sys s).
Definition stat_inc (c : nstat) (s : nst) : nst :=
  Nst (n_devs s) (n_default s) (n_arp s) (n_ipid s) (n_pings s) (n_lo s)
      (fun x => if Nat.eqb (ns_id x) (ns_id c) then u64 (n_stats s x + 1) else n_stats s x)
      (n_out s) (n_wakes s) (n_drv s) (n_mem s) (n_blocks s) (n_sys s).
Definition wake_up (w : wake) (s : nst) : nst :=
  Nst (n_devs s) (n_default s) (n_arp s) (n_ipid s) (n_pings s) (n_lo s) (n_stats s) (n_out s) (n_wakes s ++ [w]) (n_drv s) (n_mem s) (n_blocks s) (n_sys s).
Definition with_sys (v : sys) (s : nst) : nst :=
  Nst (n_devs s) (n_default s) (n_arp s) (n_ipid s) (n_pings s) (n_lo s) (n_stats s) (n_out s) (n_wakes s) (n_drv s) (n_mem s) (n_blocks s) v.

(** The next answers of the driver and of the heap. *)
Definition nic_xmit (i : nat) (frame : list Z) (s : nst) : Z * nst :=
  (hd 0 (n_drv s),
   Nst (n_devs s) (n_default s) (n_arp s) (n_ipid s) (n_pings s) (n_lo s) (n_stats s) (n_out s ++ [(i, frame)]) (n_wakes s)
       (tl (n_drv s)) (n_mem s) (n_blocks s) (n_sys s)).
Definition kmalloc (s : nst) : bool * nst :=
  (hd true (n_mem s),
   Nst (n_devs s) (n_default s) (n_arp s) (n_ipid s) (n_pings s) (n_lo s) (n_stats s) (n_out s) (n_wakes s)
       (n_drv s) (tl (n_mem s)) (n_blocks s) (n_sys s)).
Definition new_block (s : nst) : heap_res * nst :=
  (hd None (n_blocks s),
   Nst (n_devs s) (n_default s) (n_arp s) (n_ipid s) (n_pings s) (n_lo s) (n_stats s) (n_out s) (n_wakes s)
       (n_drv s) (n_mem s) (tl (n_blocks s)) (n_sys s)).

Definition dev_add (i : nat) (c : dstat) (n : Z) (s : nst) : nst := with_devs (alter (add_stat c n) i (n_devs s)) s.

(** * Devices *)

Definition netdev_register (d : netdev) (s : nst) : Z * nst :=
  if NET_MAX_DEVS <=? len (n_devs s) then (-1, s) else
  let i := length (n_devs s) in
  let s := with_devs (n_devs s ++ [d]) s in
  (0, match n_default s with None => if d_loop d then s else with_default (Some i) s | Some _ => s end).

Definition netdev_set_default (d : option nat) (s : nst) : nst := with_default d s.

Fixpoint find_name (name : list Z) (l : list netdev) (i : nat) : option nat :=
  match l with
  | [] => None
  | d :: l => if bool_decide (d_name d = name) then Some i else find_name name l (S i)
  end.
Definition netdev_by_name (name : list Z) (s : nst) : option nat := find_name name (n_devs s) 0.

(** "lo". *)
Definition lo_name : list Z := [108; 111].

(** * Routing *)

Definition is_local_ip (ip : Z) (s : nst) : bool := existsb (fun d => d_up d && (d_ip d =? ip)) (n_devs s).

(** The directly connected device. *)
Fixpoint find_link (dst : Z) (l : list netdev) (i : nat) : option nat :=
  match l with
  | [] => None
  | d :: l =>
      if negb (d_up d) || d_loop d || (d_ip d =? 0) then find_link dst l (S i) else
      if Z.land dst (d_netmask d) =? Z.land (d_ip d) (d_netmask d) then Some i else find_link dst l (S i)
  end.

(** The device and the next hop. *)
Definition ipv4_route (dst : Z) (s : nst) : option (nat * Z) :=
  if (Z.shiftr dst 24 =? 127) || is_local_ip dst s then i ← netdev_by_name lo_name s; Some (i, dst) else
  match find_link dst (n_devs s) 0 with
  | Some i => Some (i, dst)
  | None =>
      match (i ← n_default s; d ← n_devs s !! i; Some (i, d)) with
      | None => None
      | Some (i, d) =>
          if dst =? 0xFFFFFFFF then Some (i, dst) else
          if d_up d && truth (d_gateway d) then Some (i, d_gateway d) else None
      end
  end.

Definition ipv4_src_for (dst : Z) (s : nst) : Z :=
  match (r ← ipv4_route dst s; n_devs s !! r.1) with
  | None => 0
  | Some d => if d_loop d then if Z.shiftr dst 24 =? 127 then d_ip d else dst else d_ip d
  end.

(** * Transmission *)

Definition lo_send (i : nat) (frame : list Z) (s : nst) : Z * nst :=
  if ETH_FRAME_MAX <? len frame then (-1, dev_add i tx_dropped 1 s) else
  let l := n_lo s in
  let counter := if truth (lo_drop l) then u32 (lo_counter l + 1) else lo_counter l in
  let s := with_lo (Lo (lo_q l) (lo_head l) (lo_tail l) (lo_count l) (lo_drop l) counter) s in
  if truth (lo_drop l) && (counter mod lo_drop l =? 0) then (0, dev_add i tx_dropped 1 s) else
  let '(ok, s) := kmalloc s in
  if negb ok then (-1, dev_add i tx_dropped 1 s) else
  if lo_count l =? LO_QUEUE then (-1, dev_add i tx_dropped 1 s) else
  let s := with_lo (Lo (<[Z.to_nat (lo_tail l) := frame]> (lo_q l)) (lo_head l) ((lo_tail l + 1) mod LO_QUEUE)
                       (lo_count l + 1) (lo_drop l) counter) s in
  (0, wake_up W_rx (dev_add i tx_bytes (len frame) (dev_add i tx_packets 1 s))).

(** [dst] is [None] for NULL, the broadcast. *)
Definition eth_send (i : nat) (dst : option (list Z)) (ethertype : Z) (payload : list Z) (s : nst) : Z * nst :=
  match n_devs s !! i with
  | None => (-1, s)
  | Some d =>
      if ETH_MTU <? len payload then (-1, s) else
      let frame := eth_frame (default BROADCAST dst) (d_mac d) ethertype payload in
      match d_send d with
      | No_send => (-1, s)
      | Lo_send => lo_send i frame s
      | Nic_send => nic_xmit i frame s
      end
  end.

(** * ARP *)

Fixpoint arp_find (ip : Z) (l : list arp_entry) (i : nat) : option nat :=
  match l with
  | [] => None
  | e :: l => if e_valid e && (e_ip e =? ip) then Some i else arp_find ip l (S i)
  end.

(** The slot for a new address: [best] is [e]. *)
Fixpoint arp_victim (l : list arp_entry) (i best : nat) (expires : Z) : nat :=
  match l with
  | [] => best
  | e :: l =>
      if negb (e_valid e) then i else
      if e_expires e <? expires then arp_victim l (S i) i (e_expires e) else arp_victim l (S i) best expires
  end.

Definition arp_update (ip : Z) (mac : list Z) (s : nst) : nst :=
  if ip =? 0 then s else
  let i := match arp_find ip (n_arp s) 0 with
           | Some i => i
           | None => arp_victim (n_arp s) 0 0 (match n_arp s !! 0%nat with Some e => e_expires e | None => 0 end)
           end in
  wake_up W_arp (with_arp (<[i := Entry ip mac (u64 (now s + ARP_TTL_MS)) true]> (n_arp s)) s).

Definition arp_lookup (ip : Z) (s : nst) : option (list Z) :=
  i ← arp_find ip (n_arp s) 0; e ← n_arp s !! i; Some (e_mac e).

Definition arp_cache_count (s : nst) : Z := fold_right (fun e n => b2z (e_valid e) + n) 0 (n_arp s).

Definition arp_timer (s : nst) : nst :=
  with_arp (map (fun e => if e_valid e && (e_expires e <=? now s) then Entry (e_ip e) (e_mac e) (e_expires e) false else e) (n_arp s)) s.

Definition arp_send (i : nat) (op : Z) (tha : option (list Z)) (tpa : Z) (dst : option (list Z)) (s : nst) : nst :=
  match n_devs s !! i with
  | None => s
  | Some d =>
      let p := Arp op (d_mac d) (d_ip d) (default (replicate 6 0) tha) tpa in
      (eth_send i dst ETHERTYPE_ARP (arp_bytes p) (stat_inc arp_tx s)).2
  end.

Definition arp_input (i : nat) (pkt : list Z) (s : nst) : nst :=
  match parse_arp pkt, n_devs s !! i with
  | Some p, Some d =>
      let s := stat_inc arp_rx s in
      let known := match arp_find (a_spa p) (n_arp s) 0 with Some _ => true | None => false end in
      let s := if negb (a_spa p =? 0) && (known || (a_tpa p =? d_ip d)) then arp_update (a_spa p) (a_sha p) s else s in
      if (a_oper p =? ARP_OP_REQUEST) && (a_tpa p =? d_ip d) && negb (d_ip d =? 0)
      then arp_send i ARP_OP_REPLY (Some (a_sha p)) (a_spa p) (Some (a_sha p)) s else s
  | _, _ => s
  end.

(** arp_resolve returns, or waits for [ms] on arp_cond with its locals. *)
Inductive resolved :=
  | R_mac (mac : list Z) (s : nst)
  | R_err (rc : Z) (s : nst)
  | R_wait (ms deadline next_retry : Z) (s : nst).

(** The head of [for (;;)], to net_wait. *)
Definition arp_slice (deadline next_retry : Z) (s : nst) : resolved :=
  if deadline <=? now s then R_err (- EHOSTUNREACH) s else
  let slice := u64 ((if next_retry <? deadline then next_retry else deadline) - now s) in
  R_wait (if truth slice then slice else 1) deadline next_retry s.

Definition arp_resolve (in_netd : bool) (i : nat) (ip timeout : Z) (s : nst) : resolved :=
  match n_devs s !! i with
  | None => R_err (- EHOSTUNREACH) s
  | Some d =>
      if d_loop d then R_mac (replicate 6 0) s else
      if ip =? 0xFFFFFFFF then R_mac BROADCAST s else
      match arp_lookup ip s with
      | Some mac => R_mac mac s
      | None =>
          let s := arp_send i ARP_OP_REQUEST None ip None s in
          if (timeout =? 0) || in_netd then R_err (- EAGAIN) s
          else arp_slice (u64 (now s + timeout)) (u64 (now s + ARP_RETRY_MS)) s
      end
  end.

(** After net_wait. *)
Definition arp_woken (i : nat) (ip deadline next_retry : Z) (s : nst) : resolved :=
  match arp_lookup ip s with
  | Some mac => R_mac mac s
  | None =>
      if next_retry <=? now s
      then let s := arp_send i ARP_OP_REQUEST None ip None s in arp_slice deadline (u64 (now s + ARP_RETRY_MS)) s
      else arp_slice deadline next_retry s
  end.

(** * IPv4 output *)

(** ipv4_send returns, or waits in arp_resolve. *)
Inductive sent :=
  | S_ret (rc : Z) (s : nst)
  | S_wait (dev : nat) (hop ms deadline next_retry : Z) (s : nst).

(** From the resolved address on. *)
Definition ipv4_emit (i : nat) (mac : list Z) (dst proto : Z) (payload : list Z) (s : nst) : Z * nst :=
  let id := n_ipid s in
  let pkt := ip_bytes (Packet (ipv4_src_for dst s) dst IP_DEFAULT_TTL proto payload) id in
  let s := stat_inc ip_tx (with_ipid (u16 (id + 1)) s) in
  eth_send i (Some mac) ETHERTYPE_IPV4 pkt s.

Definition ipv4_resolved (i : nat) (hop dst proto : Z) (payload : list Z) (r : resolved) : sent :=
  match r with
  | R_mac mac s => let '(rc, s) := ipv4_emit i mac dst proto payload s in S_ret rc s
  | R_err rc s => S_ret rc (dev_add i tx_dropped 1 s)
  | R_wait ms deadline retry s => S_wait i hop ms deadline retry s
  end.

Definition ipv4_send (in_netd : bool) (dst proto : Z) (payload : list Z) (s : nst) : sent :=
  if ETH_MTU <? len payload + 20 then S_ret (- EMSGSIZE) s else
  match ipv4_route dst s with
  | None => S_ret (- ENETUNREACH) (stat_inc dropped_no_route s)
  | Some (i, hop) =>
      ipv4_resolved i hop dst proto payload (arp_resolve in_netd i hop (if in_netd then 0 else ARP_WAIT_MS) s)
  end.

Definition ipv4_woken (i : nat) (hop deadline next_retry dst proto : Z) (payload : list Z) (s : nst) : sent :=
  ipv4_resolved i hop dst proto payload (arp_woken i hop deadline next_retry s).

Definition sent_st (r : sent) : nst := match r with S_ret _ s | S_wait _ _ _ _ _ s => s end.

(** * ICMP *)

(** An echo message with [c] in the checksum field. *)
Definition icmp_bytes (type id seq c : Z) (data : list Z) : list Z :=
  [type; 0] ++ le 2 c ++ le 2 (htons id) ++ le 2 (htons seq) ++ data.

(** The echo: the message with type 0 and a new checksum. *)
Definition icmp_reply (pkt : list Z) : list Z :=
  let rest := zdrop 4 pkt in
  let head := [ICMP_ECHO_REPLY; field 1 pkt 1] in
  head ++ le 2 (inet_checksum (head ++ [0; 0] ++ rest)) ++ rest.

(** The first slot that waits for this reply. *)
Fixpoint ping_done (src seq ttl t : Z) (l : list ping_slot) : option (list ping_slot) :=
  match l with
  | [] => None
  | p :: l =>
      if p_used p && negb (p_done p) && (p_seq p =? seq) && (p_dst p =? src)
      then Some (Ping true (p_dst p) (p_seq p) true (p_sent p) (u64 (t - p_sent p)) ttl :: l)
      else l ← ping_done src seq ttl t l; Some (p :: l)
  end.

Definition icmp_input (src ttl : Z) (pkt : list Z) (s : nst) : nst :=
  if len pkt <? 8 then s else
  if negb (inet_checksum pkt =? 0) then s else
  let s := stat_inc icmp_rx s in
  if (field 1 pkt 0 =? ICMP_ECHO_REQUEST) && (field 1 pkt 1 =? 0) then
    let '(ok, s) := kmalloc s in
    if negb ok then s else
    sent_st (ipv4_send true src IPPROTO_ICMP (icmp_reply pkt) (stat_inc icmp_tx s))
  else if (field 1 pkt 0 =? ICMP_ECHO_REPLY) && (ntohs (field 2 pkt 4) =? PING_ID) then
    match ping_done src (ntohs (field 2 pkt 6)) ttl (now s) (n_pings s) with
    | Some l => wake_up W_ping (with_pings l s)
    | None => s
    end
  else s.

(** * Input *)

(** What [Sock] has sent goes down, in netd. *)
Fixpoint flush (l : list event) (s : nst) : nst :=
  match l with
  | [] => s
  | Ev_seg g :: l => flush l (sent_st (ipv4_send true (g_dst g) IPPROTO_TCP (seg_bytes g) s))
  | Ev_dgram d :: l => flush l (sent_st (ipv4_send true (d_dst d) IPPROTO_UDP (dgram_bytes d) s))
  | _ :: l => flush l s
  end.

Definition with_new_events (y : sys) (s : nst) : nst :=
  let l := drop (length (evs (n_sys s))) (evs y) in flush l (with_sys y s).

(** The switch on the protocol. *)
Definition ip_dispatch (p : packet) (s : nst) : option nst :=
  if i_proto p =? IPPROTO_ICMP then Some (icmp_input (i_src p) (i_ttl p) (i_data p) s) else
  if i_proto p =? IPPROTO_UDP then
    let '(ok, s) := kmalloc s in Some (with_new_events (udp_input (i_src p) (i_dst p) (i_data p) ok (n_sys s)) s)
  else if i_proto p =? IPPROTO_TCP then
    let '(r, s) := new_block s in y ← tcp_input (i_src p) (i_dst p) (i_data p) r (n_sys s); Some (with_new_events y s)
  else Some s.

(** [smac]: the source address of the frame. *)
Definition ipv4_input (i : nat) (smac pkt : list Z) (s : nst) : option nst :=
  match n_devs s !! i with
  | None => Some s
  | Some d =>
      match parse_ip pkt with
      | None => Some (stat_inc ip_bad s)
      | Some p =>
          let for_us := (i_dst p =? d_ip d) || d_loop d || (i_dst p =? 0xFFFFFFFF)
                        || (truth (d_netmask d) && (i_dst p =? Z.lor (d_ip d) (u32 (Z.lnot (d_netmask d))))) in
          if negb for_us then Some s else
          let s := stat_inc ip_rx s in
          let s := if negb (d_loop d) && truth (d_netmask d) && negb (i_src p =? 0)
                      && (Z.land (i_src p) (d_netmask d) =? Z.land (d_ip d) (d_netmask d))
                   then arp_update (i_src p) smac s else s in
          ip_dispatch p s
      end
  end.

Definition net_input (i : nat) (frame : list Z) (s : nst) : option nst :=
  if len frame <? ETH_HLEN then Some (dev_add i rx_dropped 1 s) else
  match n_devs s !! i with
  | None => Some s
  | Some d =>
      if negb (d_loop d) && negb (bool_decide (eth_dst frame = d_mac d)) && negb (bool_decide (eth_dst frame = BROADCAST))
      then Some s else
      if eth_type frame =? ETHERTYPE_ARP then Some (arp_input i (eth_payload frame) s) else
      if eth_type frame =? ETHERTYPE_IPV4 then ipv4_input i (eth_src frame) (eth_payload frame) s
      else Some s
  end.

(** * Loopback and netd *)

Definition net_loopback_set_drop (n : Z) (s : nst) : nst :=
  let l := n_lo s in with_lo (Lo (lo_q l) (lo_head l) (lo_tail l) (lo_count l) n 0) s.

(** The next frame of the loopback queue. *)
Definition lo_take (s : nst) : option (list Z * nst) :=
  let l := n_lo s in
  if lo_count l =? 0 then None else
  Some (lo_q l !!! Z.to_nat (lo_head l),
        with_lo (Lo (lo_q l) ((lo_head l + 1) mod LO_QUEUE) (lo_tail l) (lo_count l - 1) (lo_drop l) (lo_counter l)) s).

(** [for (;;)], until the queue is empty; [None] also when [fuel] is not enough. *)
Fixpoint lo_poll (fuel : nat) (i : nat) (s : nst) : option nst :=
  match fuel with
  | O => None
  | S fuel =>
      match lo_take s with
      | None => Some s
      | Some (f, s) => s ← net_input i f (dev_add i rx_bytes (len f) (dev_add i rx_packets 1 s)); lo_poll fuel i s
      end
  end.

(** A driver's poll: every frame it has received. *)
Fixpoint nic_poll (i : nat) (rx : list (list Z)) (s : nst) : option nst :=
  match rx with
  | [] => Some s
  | f :: rx => s ← net_input i f s; nic_poll i rx s
  end.

Definition dev_poll (fuel : nat) (rx : nat -> list (list Z)) (i : nat) (s : nst) : option nst :=
  match n_devs s !! i with
  | Some d => if d_up d && d_poll d then match d_send d with Lo_send => lo_poll fuel i s | _ => nic_poll i (rx i) s end else Some s
  | None => Some s
  end.

Fixpoint poll_all (fuel : nat) (rx : nat -> list (list Z)) (ds : list nat) (s : nst) : option nst :=
  match ds with
  | [] => Some s
  | i :: ds => s ← dev_poll fuel rx i s; poll_all fuel rx ds s
  end.

(** What netd does under net_lock in a round: the devices, and the timers when
    the tick is due. *)
Definition netd_round (fuel : nat) (rx : nat -> list (list Z)) (next_tick : Z) (s : nst) : option (Z * nst) :=
  s ← poll_all fuel rx (seq 0 (length (n_devs s))) s;
  if next_tick <=? now s then
    let s := arp_timer s in
    y ← tcp_timer (n_sys s);
    Some (u64 (now s + NET_TICK_MS), with_new_events y s)
  else Some (next_tick, s).

(** * Ping *)

Fixpoint ping_free (l : list ping_slot) (i : nat) : option nat :=
  match l with
  | [] => None
  | p :: l => if p_used p then ping_free l (S i) else Some i
  end.

Definition ping_data : list Z := map (fun i => u8 (97 + Z.of_nat i mod 26)) (seq 0 (Z.to_nat PING_PAYLOAD)).

Definition ping_msg (seq : Z) : list Z :=
  icmp_bytes ICMP_ECHO_REQUEST PING_ID seq (inet_checksum (icmp_bytes ICMP_ECHO_REQUEST PING_ID seq 0 ping_data)) ping_data.

(** icmp_ping returns (with *ttl_out), waits in ipv4_send, or waits for the reply. *)
Inductive pinged :=
  | P_ret (r : Z) (ttl : option Z) (s : nst)
  | P_arp (slot dev : nat) (hop ms deadline next_retry : Z) (s : nst)
  | P_wait (slot : nat) (ms deadline : Z) (s : nst).

Definition free_ping (slot : nat) (s : nst) : nst :=
  with_pings (alter (fun p => Ping false (p_dst p) (p_seq p) (p_done p) (p_sent p) (p_rtt p) (p_ttl p)) slot (n_pings s)) s.

(** [while (!slot->done)] and what follows. *)
Definition ping_round (slot : nat) (deadline : Z) (s : nst) : pinged :=
  match n_pings s !! slot with
  | None => P_ret (- ETIMEDOUT) None s
  | Some p =>
      if negb (p_done p) && (now s <? deadline) then P_wait slot (deadline - now s) deadline s
      else P_ret (if p_done p then s32 (u32 (p_rtt p)) else - ETIMEDOUT) (if p_done p then Some (p_ttl p) else None) (free_ping slot s)
  end.

(** After ipv4_send. *)
Definition ping_sent (slot : nat) (timeout : Z) (r : sent) : pinged :=
  match r with
  | S_wait dev hop ms deadline retry s => P_arp slot dev hop ms deadline retry s
  | S_ret rc s => if rc <? 0 then P_ret rc None (free_ping slot s) else ping_round slot (u64 (now s + timeout)) s
  end.

Definition icmp_ping (in_netd : bool) (dst seq timeout : Z) (s : nst) : pinged :=
  match ping_free (n_pings s) 0 with
  | None => P_ret (- ENOBUFS) None s
  | Some i =>
      let s := with_pings (alter (fun p => Ping true dst seq false (now s) (p_rtt p) (p_ttl p)) i (n_pings s)) s in
      ping_sent i timeout (ipv4_send in_netd dst IPPROTO_ICMP (ping_msg seq) (stat_inc icmp_tx s))
  end.

(** * Boot *)

(** The statics before net_init. *)
Definition net_blank : nst :=
  Nst [] None (replicate (Z.to_nat ARP_CACHE_SIZE) (Entry 0 [] 0 false)) 1
      (replicate (Z.to_nat PING_SLOTS) (Ping false 0 0 false 0 0 0)) (Lo (replicate (Z.to_nat LO_QUEUE) []) 0 0 0 0 0)
      (fun _ => 0) [] [] [] [] [] boot.

Definition lo_dev : netdev :=
  Dev lo_name (replicate 6 0) (IPV4 127 0 0 1) (IPV4 255 0 0 0) 0 true true Lo_send true (fun _ => 0).

Definition net_init : nst := (netdev_register lo_dev net_blank).2.
