(* ===== verification/Arp.v ===== *)
(** ARP: the cache of [kernel/net/arp.c] as a map from addresses to stations, and
    the exchange of a request and its reply between two machines. *)

From stdpp Require Import base numbers option list.
From Stdlib Require Import ZArith Lia.
From S2P Require Import Prelude Buf Inet Tcp Wire Sock Ip.

(** * The cache *)

(** An address is in at most one valid entry, and never 0. *)
Record arp_ok (l : list arp_entry) : Prop := {
  ac_len : len l = ARP_CACHE_SIZE;
  ac_uniq : forall i j a b, l !! i = Some a -> l !! j = Some b -> e_valid a = true -> e_valid b = true -> e_ip a = e_ip b -> i = j;
  ac_nz : forall i e, l !! i = Some e -> e_valid e = true -> e_ip e <> 0
}.

Lemma arp_find_some ip l k i :
  arp_find ip l k = Some i -> exists j e, i = (k + j)%nat /\ l !! j = Some e /\ e_valid e = true /\ e_ip e = ip.
Proof.
  revert k. induction l as [|e l IH]; intros k; [done|]. cbn [arp_find]. destruct (e_valid e && (e_ip e =? ip)) eqn:E.
  - intros [= <-]. apply andb_prop in E as [E1 E2%Z.eqb_eq]. exists 0%nat, e. by split_and!.
  - intros (j & e' & -> & H)%IH. exists (S j), e'. split; [lia|done].
Qed.

Lemma arp_find_none ip l k : arp_find ip l k = None <-> forall i e, l !! i = Some e -> e_valid e = true -> e_ip e <> ip.
Proof.
  revert k. induction l as [|e l IH]; intros k; [done|]. cbn [arp_find]. destruct (e_valid e && (e_ip e =? ip)) eqn:E.
  - split; [done|]. intros H. apply andb_prop in E as [E1 E2%Z.eqb_eq]. by destruct (H 0%nat e).
  - rewrite IH. split; intros H i e' Hi.
    + destruct i as [|i]; [|by apply (H i)]. injection Hi as <-. intros V Ev. rewrite V, Ev, Z.eqb_refl in E. done.
    + by apply (H (S i)).
Qed.

(** The entry of [ip], when the cache has one. *)
Lemma arp_find_at l i e : arp_ok l -> l !! i = Some e -> e_valid e = true -> arp_find (e_ip e) l 0 = Some i.
Proof.
  intros O Hi V. destruct (arp_find (e_ip e) l 0) as [k|] eqn:E.
  - apply arp_find_some in E as (j & e' & -> & Hj & V' & Ee). f_equal. by eapply (ac_uniq _ O).
  - by destruct (proj1 (arp_find_none _ _ _) E i e Hi V).
Qed.

(** The slot that is taken: free, or of the entry that expires first. *)
Lemma arp_victim_spec l k best x :
  let i := arp_victim l k best x in
  (exists e, l !! (i - k)%nat = Some e /\ (k <= i)%nat /\ (e_valid e = false \/
     (forall j a, l !! j = Some a -> e_valid a = true /\ e_expires e <= e_expires a) /\ e_expires e < x)) \/
  i = best /\ forall j a, l !! j = Some a -> e_valid a = true /\ x <= e_expires a.
Proof.
  revert k best x. induction l as [|e l IH]; intros k best x; [by right|]. cbn [arp_victim]. destruct (e_valid e) eqn:V; cbn [negb].
  2:{ left. exists e. rewrite Nat.sub_diag. split_and!; try done. by left. }
  assert (HS : forall i', (S k <= i')%nat -> (e :: l) !! (i' - k)%nat = l !! (i' - S k)%nat).
  { intros i' Hi. replace (i' - k)%nat with (S (i' - S k)) by lia. done. }
  destruct (Z.ltb_spec (e_expires e) x) as [Hx|Hx].
  - destruct (IH (S k) k (e_expires e)) as [(a & Ha & Hk & Hv)|[Ei Hl]].
    + left. exists a. rewrite HS by done. split; [done|]. split; [lia|]. destruct Hv as [?|[Hv Ht]]; [by left|]. right. split; [|lia].
      intros [|j] b; [intros [= <-]; split; [done|lia]|apply Hv].
    + left. exists e. rewrite Ei, Nat.sub_diag. split; [done|]. split; [done|]. right. split; [|done].
      intros [|j] b; [intros [= <-]; split; [done|lia]|apply Hl].
  - destruct (IH (S k) best x) as [(a & Ha & Hk & Hv)|[Ei Hl]].
    + left. exists a. rewrite HS by done. split; [done|]. split; [lia|]. destruct Hv as [?|[Hv Ht]]; [by left|]. right. split; [|done].
      intros [|j] b; [intros [= <-]; split; [done|lia]|apply Hv].
    + right. split; [done|]. intros [|j] b; [intros [= <-]; split; [done|lia]|apply Hl].
Qed.

(** The slot arp_update stores in. *)
Definition arp_slot (ip : Z) (l : list arp_entry) : nat :=
  match arp_find ip l 0 with
  | Some i => i
  | None => arp_victim l 0 0 (match l !! 0%nat with Some e => e_expires e | None => 0 end)
  end.

Lemma arp_slot_spec ip l :
  arp_ok l -> exists old, l !! arp_slot ip l = Some old /\
    (e_valid old = true -> e_ip old <> ip ->
      (forall j a, l !! j = Some a -> e_valid a = true /\ e_expires old <= e_expires a)) /\
    (forall j a, l !! j = Some a -> e_valid a = true -> e_ip a = ip -> j = arp_slot ip l).
Proof.
  intros O. pose proof (ac_len _ O) as L. unfold arp_slot. destruct (arp_find ip l 0) as [i|] eqn:E.
  - apply arp_find_some in E as (j & e & -> & Hj & V & Ei). exists e. split_and!; try done. intros j' a Ha Va Ea. eapply (ac_uniq _ O); try done. congruence.
  - pose proof (proj1 (arp_find_none _ _ _) E) as HN.
    assert (Hx : exists e0, l !! 0%nat = Some e0) by (apply lookup_lt_is_Some; unfold len, ARP_CACHE_SIZE in L; lia). destruct Hx as [e0 H0]. rewrite H0.
    assert (K : exists old, l !! arp_victim l 0 0 (e_expires e0) = Some old /\ (e_valid old = true -> e_ip old <> ip ->
      forall j a, l !! j = Some a -> e_valid a = true /\ e_expires old <= e_expires a)).
    { destruct (arp_victim_spec l 0 0 (e_expires e0)) as [(e & He & _ & Hv)|[-> Hl]].
      - rewrite Nat.sub_0_r in He. exists e. split; [done|]. intros V _. destruct Hv as [?|[Hv _]]; [congruence|done].
      - exists e0. done. }
    destruct K as (old & K1 & K2). exists old. split_and!; try done. intros j a Ha Va Ea. by destruct (HN j a Ha Va).
Qed.

Lemma arp_update_at ip mac s :
  ip <> 0 -> n_arp (arp_update ip mac s) = <[arp_slot ip (n_arp s) := Entry ip mac (u64 (now s + ARP_TTL_MS)) true]> (n_arp s).
Proof. intros N. unfold arp_update. by destruct (Z.eqb_spec ip 0). Qed.

Lemma arp_update_ok ip mac s : arp_ok (n_arp s) -> arp_ok (n_arp (arp_update ip mac s)).
Proof.
  intros O. destruct (Z.eq_dec ip 0) as [->|N]; [done|]. rewrite arp_update_at by done.
  destruct (arp_slot_spec ip _ O) as (old & Ho & _ & HI). set (k := arp_slot ip (n_arp s)) in *. set (e := Entry _ _ _ _).
  assert (Hk : (k < length (n_arp s))%nat) by (by eapply lookup_lt_Some).
  assert (HL : forall i a, <[k := e]> (n_arp s) !! i = Some a -> i = k /\ a = e \/ i <> k /\ n_arp s !! i = Some a).
  { intros i a. destruct (decide (i = k)) as [->|Ne]; [rewrite list_lookup_insert_eq by done; intros [= <-]; by left|].
    rewrite list_lookup_insert_ne by done. by right. }
  constructor.
  - unfold len. rewrite length_insert. apply O.
  - intros i j a b [[-> ->]|[Ni Ha]]%HL [[-> ->]|[Nj Hb]]%HL Va Vb E; [done|..].
    + symmetry. by apply (HI j b).
    + by apply (HI i a).
    + by eapply (ac_uniq _ O).
  - intros i a [[-> ->]|[Ni Ha]]%HL V; [done|]. by eapply (ac_nz _ O).
Qed.

Lemma arp_update_get ip mac s : arp_ok (n_arp s) -> ip <> 0 -> arp_lookup ip (arp_update ip mac s) = Some mac.
Proof.
  intros O N. pose proof (arp_update_ok ip mac s O) as O'. unfold arp_lookup. rewrite arp_update_at in * by done.
  destruct (arp_slot_spec ip _ O) as (old & Ho & _). set (k := arp_slot ip (n_arp s)) in *. set (e := Entry _ _ _ _) in *.
  assert (Le : <[k := e]> (n_arp s) !! k = Some e) by (apply list_lookup_insert_eq; by eapply lookup_lt_Some).
  change ip with (e_ip e) at 1. rewrite (arp_find_at _ k e O' Le) by done. cbn [mbind option_bind]. by rewrite Le.
Qed.

(** The cache is a map: after arp_update the address resolves to the new
    station; any other address resolves as before, unless the cache was full and
    its entry was the one that expires first. *)
Theorem arp_update_lookup ip mac s :
  arp_ok (n_arp s) -> ip <> 0 ->
  arp_ok (n_arp (arp_update ip mac s)) /\ arp_lookup ip (arp_update ip mac s) = Some mac /\
  forall other, other <> ip ->
    arp_lookup other (arp_update ip mac s) = arp_lookup other s \/
    (exists i e, n_arp s !! i = Some e /\ e_ip e = other /\ forall j a, n_arp s !! j = Some a -> e_valid a = true /\ e_expires e <= e_expires a) /\
    arp_lookup other (arp_update ip mac s) = None.
Proof.
  intros O N. pose proof (arp_update_ok ip mac s O) as O'. split; [done|]. split; [by apply arp_update_get|].
  unfold arp_lookup. rewrite arp_update_at in * by done.
  destruct (arp_slot_spec ip _ O) as (old & Ho & HE & HI). set (k := arp_slot ip (n_arp s)) in *. set (e := Entry _ _ _ _) in *.
  assert (Hk : (k < length (n_arp s))%nat) by (by eapply lookup_lt_Some).
  assert (Le : <[k := e]> (n_arp s) !! k = Some e) by (by rewrite list_lookup_insert_eq).
  intros other No. destruct (arp_find other (n_arp s) 0) as [i|] eqn:Ei.
  - apply arp_find_some in Ei as (j & a & -> & Hj & V & Ea). cbn [Nat.add]. destruct (decide (j = k)) as [->|Nj].
    + assert (a = old) as -> by congruence. right. split; [exists k, old; split_and!; try done; apply HE; [done|congruence]|].
      destruct (arp_find other (<[k := e]> (n_arp s)) 0) as [m|] eqn:Em; [|done].
      apply arp_find_some in Em as (m' & b & -> & Hm & Vb & Eb). destruct (decide (m' = k)) as [->|Nm].
      * assert (b = e) as -> by congruence. by destruct No.
      * rewrite list_lookup_insert_ne in Hm by done. destruct Nm. apply (ac_uniq _ O m' k b old); done || congruence.
    + left. assert (Hj' : <[k := e]> (n_arp s) !! j = Some a) by (by rewrite list_lookup_insert_ne).
      rewrite <-Ea, (arp_find_at _ j a O' Hj' V). cbn [mbind option_bind]. by rewrite Hj', Hj.
  - left. assert (arp_find other (<[k := e]> (n_arp s)) 0 = None) as ->; [|done]. apply arp_find_none. intros i a Hi V.
    destruct (decide (i = k)) as [->|Ni]; [assert (a = e) as -> by congruence; intros <-; by apply No|].
    rewrite list_lookup_insert_ne in Hi by done. by apply (proj1 (arp_find_none _ _ _) Ei i a).
Qed.

Lemma arp_timer_ok s : arp_ok (n_arp s) -> arp_ok (n_arp (arp_timer s)).
Proof.
  intros [L U Z]. unfold arp_timer. cbn [with_arp n_arp].
  assert (K : forall i e, map (fun e => if e_valid e && (e_expires e <=? now s) then Entry (e_ip e) (e_mac e) (e_expires e) false else e) (n_arp s) !! i = Some e ->
    e_valid e = true -> n_arp s !! i = Some e).
  { intros i e He V. apply list_lookup_fmap_Some in He as (a & -> & Ha). destruct (_ && _); [done|done]. }
  constructor.
  - unfold len. rewrite length_map. apply L.
  - intros i j a b Ha Hb Va Vb. apply (K i a) in Ha; [|done]. apply (K j b) in Hb; [|done]. by apply U.
  - intros i e He V. apply (K i e) in He; [|done]. by apply Z in He.
Qed.

(** * An exchange *)

(** Device [i] is a network card with an address. *)
Record card (s : nst) (i : nat) (d : netdev) : Prop := {
  cd_dev : n_devs s !! i = Some d;
  cd_send : d_send d = Nic_send;
  cd_loop : d_loop d = false;
  cd_mac : len (d_mac d) = 6;
  cd_ip : u32_ok (d_ip d);
  cd_nz : d_ip d <> 0
}.

Lemma len_arp_bytes p : len (a_sha p) = 6 -> len (a_tha p) = 6 -> len (arp_bytes p) = 28.
Proof. intros E1 E2. unfold arp_bytes. rewrite !len_app, !len_le, E1, E2. done. Qed.

(** The frame arp_send gives to the card. *)
Definition arp_frame (d : netdev) (op : Z) (tha : option (list Z)) (tpa : Z) (dst : option (list Z)) : list Z :=
  eth_frame (default BROADCAST dst) (d_mac d) ETHERTYPE_ARP (arp_bytes (Arp op (d_mac d) (d_ip d) (default (replicate 6 0) tha) tpa)).

Lemma arp_send_card i d op tha tpa dst s :
  card s i d -> len (default (replicate 6 0) tha) = 6 ->
  let s' := arp_send i op tha tpa dst s in
  n_out s' = n_out s ++ [(i, arp_frame d op tha tpa dst)] /\ n_arp s' = n_arp s /\ n_devs s' = n_devs s /\ n_sys s' = n_sys s.
Proof.
  intros C Lt. cbn zeta. unfold arp_send, eth_send. rewrite (cd_dev _ _ _ C). change (n_devs (stat_inc arp_tx s)) with (n_devs s).
  rewrite (cd_dev _ _ _ C), len_arp_bytes by (done || apply C). cbn [Z.ltb]. rewrite (cd_send _ _ _ C). done.
Qed.

(** The frame arrives at a card it is meant for. *)
Lemma arp_frame_input i d d0 op tha tpa dst s :
  card s i d -> len (d_mac d0) = 6 -> u32_ok (d_ip d0) -> u32_ok tpa -> u16_ok op -> len (default (replicate 6 0) tha) = 6 ->
  default BROADCAST dst = BROADCAST \/ default BROADCAST dst = d_mac d ->
  exists pkt, net_input i (arp_frame d0 op tha tpa dst) s = Some (arp_input i pkt s) /\
    parse_arp pkt = Some (Arp op (d_mac d0) (d_ip d0) (default (replicate 6 0) tha) tpa).
Proof.
  intros C Lm Hip Ht Ho Lt Hd. unfold arp_frame. set (p := Arp _ _ _ _ _).
  assert (Ld : len (default BROADCAST dst) = 6) by (destruct Hd as [->| ->]; [done|apply C]).
  destruct (eth_roundtrip (default BROADCAST dst) (d_mac d0) ETHERTYPE_ARP (arp_bytes p) Ld Lm ltac:(done)) as (L14 & Ed & _ & Et & pad & Ep).
  set (f := eth_frame _ _ _ _) in *. exists (arp_bytes p ++ pad). split; [|by apply arp_roundtrip].
  unfold net_input. destruct (Z.ltb_spec (len f) ETH_HLEN); [unfold ETH_HLEN in *; lia|]. rewrite (cd_dev _ _ _ C), Ed, Et, Ep.
  destruct Hd as [->| ->].
  - rewrite (bool_decide_eq_true_2 (BROADCAST = BROADCAST)) by done. by rewrite andb_false_r.
  - rewrite (bool_decide_eq_true_2 (d_mac d = d_mac d)) by done. by rewrite andb_false_r.
Qed.

(** C36: address resolution between two machines: the request that a card of [a]
    broadcasts makes [b], whose card has the address, learn the station of [a] and
    answer; the answer makes [a] resolve the address to the station of [b]. *)
Theorem arp_exchange a i da b j db :
  card a i da -> card b j db -> arp_ok (n_arp a) -> arp_ok (n_arp b) ->
  exists request reply b' a',
    n_out (arp_send i ARP_OP_REQUEST None (d_ip db) None a) = n_out a ++ [(i, request)] /\
    net_input j request b = Some b' /\ n_out b' = n_out b ++ [(j, reply)] /\ arp_lookup (d_ip da) b' = Some (d_mac da) /\
    net_input i reply (arp_send i ARP_OP_REQUEST None (d_ip db) None a) = Some a' /\ arp_lookup (d_ip db) a' = Some (d_mac db).
Proof.
  intros CA CB OA OB. destruct (arp_send_card i da ARP_OP_REQUEST None (d_ip db) None a CA) as (Eo & Ea & Ed & _); [done|].
  set (a1 := arp_send _ _ _ _ _ a) in *. clearbody a1.
  assert (CA1 : card a1 i da) by (destruct CA; by constructor; rewrite ?Ed).
  destruct (arp_frame_input j db da ARP_OP_REQUEST None (d_ip db) None b CB) as (pkt & En & Ep); try done; try apply CA; try apply CB; [by left|].
  set (request := arp_frame da _ _ _ _) in *.
  exists request, (arp_frame db ARP_OP_REPLY (Some (d_mac da)) (d_ip da) (Some (d_mac da))).
  assert (HB : arp_input j pkt b = arp_send j ARP_OP_REPLY (Some (d_mac da)) (d_ip da) (Some (d_mac da)) (arp_update (d_ip da) (d_mac da) (stat_inc arp_rx b))).
  { unfold arp_input. rewrite Ep, (cd_dev _ _ _ CB). cbn [a_spa a_tpa a_oper a_sha]. rewrite !Z.eqb_refl, orb_true_r.
    destruct (Z.eqb_spec (d_ip da) 0) as [E|_]; [by destruct (cd_nz _ _ _ CA)|]. destruct (Z.eqb_spec (d_ip db) 0) as [E|_]; [by destruct (cd_nz _ _ _ CB)|]. done. }
  set (b1 := arp_update _ _ _) in HB. assert (Kb : n_devs b1 = n_devs b /\ n_out b1 = n_out b).
  { unfold b1, arp_update. by destruct (_ =? 0). }
  destruct Kb as [Kb1 Kb2]. assert (CB1 : card b1 j db) by (destruct CB; by constructor; rewrite ?Kb1).
  destruct (arp_send_card j db ARP_OP_REPLY (Some (d_mac da)) (d_ip da) (Some (d_mac da)) b1 CB1 (cd_mac _ _ _ CA)) as (Fo & Fa & _).
  rewrite <-HB in Fo, Fa. exists (arp_input j pkt b).
  destruct (arp_frame_input i da db ARP_OP_REPLY (Some (d_mac da)) (d_ip da) (Some (d_mac da)) a1 CA1) as (pkt2 & En2 & Ep2); try done; try apply CA; try apply CB; [by right|].
  exists (arp_input i pkt2 a1). split_and!; try done.
  - by rewrite Fo, Kb2.
  - unfold arp_lookup. rewrite Fa. by apply (arp_update_get (d_ip da) (d_mac da) (stat_inc arp_rx b)); [|apply CA].
  - unfold arp_input. rewrite Ep2, (cd_dev _ _ _ CA1). cbn [a_spa a_tpa a_oper a_sha]. rewrite Z.eqb_refl, orb_true_r.
    destruct (Z.eqb_spec (d_ip db) 0) as [E|_]; [by destruct (cd_nz _ _ _ CB)|]. cbn [negb andb Z.eqb ARP_OP_REPLY ARP_OP_REQUEST].
    apply (arp_update_get (d_ip db) (d_mac db) (stat_inc arp_rx a1)); [|apply CB]. cbn. by rewrite Ea.
Qed.

(** * Two machines *)

Lemma blank_arp_ok : arp_ok (n_arp net_blank).
Proof.
  constructor; [done|..]; [intros i j a b [-> _]%lookup_replicate _ V; done|]. intros i e [-> _]%lookup_replicate V. done.
Qed.

Lemma arp_update_lookup_witness : arp_lookup 0x0A000202 (arp_update 0x0A000202 [1; 2; 3; 4; 5; 6] net_blank) = Some [1; 2; 3; 4; 5; 6].
Proof. apply (arp_update_lookup 0x0A000202 [1; 2; 3; 4; 5; 6] net_blank blank_arp_ok). done. Defined.

Definition demo_card (ip : Z) (mac : list Z) : netdev := Dev [101; 116; 104; 48] mac ip 0xFFFFFF00 0 true false Nic_send true (fun _ => 0).
Definition demo_machine (ip : Z) (mac : list Z) : nst := (netdev_register (demo_card ip mac) net_blank).2.

Lemma demo_card_ok ip mac : len mac = 6 -> u32_ok ip -> ip <> 0 -> card (demo_machine ip mac) 0 (demo_card ip mac).
Proof. by constructor. Qed.

Lemma arp_exchange_witness :
  exists request b', n_out (arp_send 0 ARP_OP_REQUEST None 2 None (demo_machine 1 [0; 0; 0; 0; 0; 1])) = [(0%nat, request)] /\
    net_input 0 request (demo_machine 2 [0; 0; 0; 0; 0; 2]) = Some b' /\ arp_lookup 1 b' = Some [0; 0; 0; 0; 0; 1].
Proof.
  destruct (arp_exchange (demo_machine 1 [0; 0; 0; 0; 0; 1]) 0 (demo_card 1 [0; 0; 0; 0; 0; 1]) (demo_machine 2 [0; 0; 0; 0; 0; 2]) 0 (demo_card 2 [0; 0; 0; 0; 0; 2]))
    as (request & reply & b' & a' & E1 & E2 & E3 & E4 & _); [by apply demo_card_ok..|apply blank_arp_ok|apply blank_arp_ok|].
  by exists request, b'.
Defined.
