(* ===== verification/Loopback.v ===== *)
(** The loopback device of [kernel/net/netdev.c] as a bounded queue, and what
    travels through it: a frame that ipv4_send makes is the packet ipv4_input
    finds, a UDP datagram reaches the queue of its socket, an echo request is
    answered, and a segment with a source other than the one ipv4_send writes is
    thrown away. *)

From stdpp Require Import base numbers option list.
From Stdlib Require Import ZArith Lia.
From S2P Require Import Prelude Buf Inet Tcp Wire Sock Ip.

(** * The queue *)

Record lo_ok (l : lo_state) : Prop := {
  lk_len : len (lo_q l) = LO_QUEUE;
  lk_head : 0 <= lo_head l < LO_QUEUE;
  lk_count : 0 <= lo_count l <= LO_QUEUE;
  lk_tail : lo_tail l = (lo_head l + lo_count l) mod LO_QUEUE
}.

(** The frames in the queue, oldest first. *)
Definition lo_frames (l : lo_state) : list (list Z) := ring (lo_q l) (lo_head l) (lo_count l).

(** A frame is lost on the way in: because it is too long, by the fault injection,
    for want of memory, or because the queue is full. *)
Definition lo_lost (frame : list Z) (s : nst) : bool :=
  (ETH_FRAME_MAX <? len frame)
  || (truth (lo_drop (n_lo s)) && (u32 (lo_counter (n_lo s) + 1) mod lo_drop (n_lo s) =? 0))
  || negb (hd true (n_mem s)) || (len (lo_frames (n_lo s)) =? LO_QUEUE).

Lemma lo_push l f counter :
  lo_ok l -> lo_count l <> LO_QUEUE ->
  let l' := Lo (<[Z.to_nat (lo_tail l) := f]> (lo_q l)) (lo_head l) ((lo_tail l + 1) mod LO_QUEUE) (lo_count l + 1) (lo_drop l) counter in
  lo_ok l' /\ lo_frames l' = lo_frames l ++ [f].
Proof.
  intros [L H C T] N. cbn zeta. unfold lo_frames. cbn [lo_q lo_head lo_count lo_tail]. split.
  - constructor; cbn; [unfold len; by rewrite length_insert|done|lia|]. rewrite T, Zplus_mod_idemp_l. f_equal. lia.
  - rewrite T. rewrite <-L. apply ring_push; lia.
Qed.

Lemma lo_same l counter : lo_ok l -> lo_ok (Lo (lo_q l) (lo_head l) (lo_tail l) (lo_count l) (lo_drop l) counter).
Proof. intros []. by constructor. Qed.

Lemma lo_take_spec s : lo_ok (n_lo s) ->
  match lo_frames (n_lo s) with
  | [] => lo_take s = None
  | f :: rest => exists s', lo_take s = Some (f, s') /\ lo_ok (n_lo s') /\ lo_frames (n_lo s') = rest
  end.
Proof.
  intros [L H C T]. unfold lo_frames, lo_take. destruct (Z.eqb_spec (lo_count (n_lo s)) 0) as [->|N]; [done|].
  rewrite ring_pop by lia. rewrite L, (Z.mod_small (lo_head (n_lo s))) by done. eexists. split; [done|]. cbn. split; [|done].
  constructor; cbn; [done|apply Z.mod_pos_bound; done|lia|]. rewrite T, Zplus_mod_idemp_l. f_equal. lia.
Qed.

Lemma lo_send_spec i frame s : lo_ok (n_lo s) ->
  let '(rc, s') := lo_send i frame s in
  lo_ok (n_lo s') /\ lo_frames (n_lo s') = lo_frames (n_lo s) ++ (if lo_lost frame s then [] else [frame]) /\ (lo_lost frame s = false -> rc = 0).
Proof.
  intros O. unfold lo_send, lo_lost. destruct (ETH_FRAME_MAX <? len frame); cbn [orb].
  { cbn. rewrite app_nil_r. done. }
  assert (Ec : len (lo_frames (n_lo s)) = lo_count (n_lo s)) by (apply len_ring, O). rewrite Ec.
  set (l := n_lo s) in *. unfold truth. destruct (Z.eqb_spec (lo_drop l) 0) as [E0|N0]; cbn [negb andb orb].
  - cbn. destruct (hd true (n_mem s)); cbn; [|rewrite app_nil_r; split_and!; try done; by apply lo_same].
    destruct (Z.eqb_spec (lo_count l) LO_QUEUE) as [E|N]; cbn; [rewrite app_nil_r; split_and!; try done; by apply lo_same|].
    destruct (lo_push l frame (lo_counter l) O N) as [P1 P2]. done.
  - set (c := u32 (lo_counter l + 1)). destruct (c mod lo_drop l =? 0); cbn [orb].
    { cbn. rewrite app_nil_r. split_and!; try done. by apply lo_same. }
    cbn. destruct (hd true (n_mem s)); cbn; [|rewrite app_nil_r; split_and!; try done; by apply lo_same].
    destruct (Z.eqb_spec (lo_count l) LO_QUEUE) as [E|N]; cbn; [rewrite app_nil_r; split_and!; try done; by apply lo_same|].
    destruct (lo_push l frame c O N) as [P1 P2]. done.
Qed.

(** The loopback queue is first in, first out: lo_send appends the frame unless
    it is lost, and answers 0 when it is not; what lo_poll takes is the oldest
    frame, and it stops when there is none. *)
Theorem loopback_fifo i frame s :
  lo_ok (n_lo s) ->
  let '(rc, s') := lo_send i frame s in
  lo_ok (n_lo s') /\ lo_frames (n_lo s') = lo_frames (n_lo s) ++ (if lo_lost frame s then [] else [frame]) /\
  (lo_lost frame s = false -> rc = 0) /\
  match lo_frames (n_lo s) with
  | [] => lo_take s = None
  | f :: rest => exists s', lo_take s = Some (f, s') /\ lo_ok (n_lo s') /\ lo_frames (n_lo s') = rest
  end.
Proof.
  intros O. pose proof (lo_send_spec i frame s O) as S. pose proof (lo_take_spec s O) as T.
  destruct (lo_send i frame s) as [rc s']. destruct S as (S1 & S2 & S3). done.
Qed.

Lemma blank_lo_ok : lo_ok (n_lo net_blank).
Proof. by constructor. Qed.

Lemma loopback_fifo_witness : let '(rc, s') := lo_send 0 [1; 2; 3] net_init in lo_frames (n_lo s') = [[1; 2; 3]] /\ rc = 0.
Proof. destruct (loopback_fifo 0 [1; 2; 3] net_init blank_lo_ok) as (_ & E & R & _). split; [exact E|by apply R]. Defined.

(** * Devices without their counters *)

Definition bare (d : netdev) : netdev :=
  Dev (d_name d) (d_mac d) (d_ip d) (d_netmask d) (d_gateway d) (d_up d) (d_loop d) (d_send d) (d_poll d) (fun _ => 0).

(** The same devices and routes. *)
Definition net_like (s s' : nst) : Prop := map bare (n_devs s') = map bare (n_devs s) /\ n_default s' = n_default s.

#[export] Instance net_like_preorder : PreOrder net_like.
Proof. split; [done|]. intros a b c [H1 H2] [H3 H4]. split; congruence. Qed.

Lemma like_get s s' i d : net_like s s' -> n_devs s !! i = Some d -> exists d', n_devs s' !! i = Some d' /\ bare d' = bare d.
Proof.
  intros [E _] G. assert (H : map bare (n_devs s) !! i = Some (bare d)) by (by rewrite list_lookup_fmap, G). rewrite <-E in H.
  apply list_lookup_fmap_Some in H as (d' & Eb & G'). by exists d'.
Qed.

Lemma bare_eq d d' : bare d' = bare d ->
  d_mac d' = d_mac d /\ d_ip d' = d_ip d /\ d_gateway d' = d_gateway d /\ d_up d' = d_up d /\ d_loop d' = d_loop d /\ d_send d' = d_send d.
Proof. intros E. injection E. intros. done. Qed.

Lemma dev_add_like i c n s : net_like s (dev_add i c n s).
Proof.
  split; [|done]. unfold dev_add. cbn. apply list_eq. intros j. rewrite !list_lookup_fmap. destruct (decide (j = i)) as [->|N].
  - rewrite list_lookup_alter_eq. by destruct (n_devs s !! i).
  - by rewrite list_lookup_alter_ne.
Qed.

Lemma find_name_bare name l i : find_name name (map bare l) i = find_name name l i.
Proof. revert i. induction l as [|d l IH]; intros i; [done|]. cbn. by rewrite IH. Qed.

Lemma find_link_bare dst l i : find_link dst (map bare l) i = find_link dst l i.
Proof. revert i. induction l as [|d l IH]; intros i; [done|]. cbn. by rewrite IH. Qed.

Lemma local_bare ip l : existsb (fun d => d_up d && (d_ip d =? ip)) (map bare l) = existsb (fun d => d_up d && (d_ip d =? ip)) l.
Proof. induction l as [|d l IH]; [done|]. cbn. by rewrite IH. Qed.

Lemma route_like dst s s' : net_like s s' -> ipv4_route dst s' = ipv4_route dst s.
Proof.
  intros L. pose proof L as [E D]. unfold ipv4_route, is_local_ip, netdev_by_name. rewrite <-(local_bare dst (n_devs s')), E, local_bare.
  rewrite <-(find_name_bare _ (n_devs s')), E, find_name_bare. rewrite <-(find_link_bare _ (n_devs s')), E, find_link_bare, D.
  destruct (_ || _); [done|]. destruct (find_link _ _ _); [done|]. destruct (n_default s) as [i|]; [|done]. cbn [mbind option_bind].
  assert (L' : forall a b, net_like a b -> n_devs a !! i = None -> n_devs b !! i = None).
  { intros a b [Eb _] G. assert (H : map bare (n_devs a) !! i = None) by (by rewrite list_lookup_fmap, G). rewrite <-Eb, list_lookup_fmap in H.
    by destruct (n_devs b !! i). }
  destruct (n_devs s !! i) as [d|] eqn:G; [|by rewrite (L' _ _ L G)]. destruct (like_get _ _ _ _ L G) as (d' & -> & (_ & _ & Eg & Eu & _)%bare_eq). cbn.
  by rewrite Eg, Eu.
Qed.

Lemma src_for_like dst s s' : net_like s s' -> ipv4_src_for dst s' = ipv4_src_for dst s.
Proof.
  intros L. unfold ipv4_src_for. rewrite (route_like _ _ _ L). destruct (ipv4_route dst s) as [[i hop]|]; [|done]. cbn [mbind option_bind fst].
  destruct (n_devs s !! i) as [d|] eqn:G.
  - destruct (like_get _ _ _ _ L G) as (d' & -> & (_ & Ei & _ & _ & El & _)%bare_eq). by rewrite Ei, El.
  - assert (H : map bare (n_devs s) !! i = None) by (by rewrite list_lookup_fmap, G). rewrite <-(proj1 L), list_lookup_fmap in H.
    by destruct (n_devs s' !! i).
Qed.

(** * Through the loopback *)

(** The loopback device is device [i], with nothing in its way. *)
Record lo_clear (s : nst) (i : nat) (d : netdev) : Prop := {
  lc_dev : n_devs s !! i = Some d;
  lc_name : netdev_by_name lo_name s = Some i;
  lc_send : d_send d = Lo_send;
  lc_loop : d_loop d = true;
  lc_mac : len (d_mac d) = 6;
  lc_ip : u32_ok (d_ip d);
  lc_lo : lo_ok (n_lo s);
  lc_drop : lo_drop (n_lo s) = 0;
  lc_mem : n_mem s = [];
  lc_id : u16_ok (n_ipid s)
}.

(** What the layers above have is as before. *)
Record above (s s' : nst) : Prop := {
  ab_sys : n_sys s' = n_sys s;
  ab_pings : n_pings s' = n_pings s;
  ab_like : net_like s s'
}.

(** The frame holds the packet. *)
Definition carries (f : list Z) (p : packet) : Prop :=
  14 <= len f /\ eth_type f = ETHERTYPE_IPV4 /\ parse_ip (eth_payload f) = Some p.

Lemma clear_next s i d s' : lo_clear s i d -> net_like s s' -> lo_ok (n_lo s') -> lo_drop (n_lo s') = 0 -> n_mem s' = [] -> u16_ok (n_ipid s') ->
  exists d', lo_clear s' i d' /\ bare d' = bare d.
Proof.
  intros [C1 C2 C3 C4 C5 C6 C7 C8 C9 C10] L O D M I. destruct (like_get _ _ _ _ L C1) as (d' & G & E). exists d'. split; [|done].
  apply bare_eq in E as (Em & Ei & _ & _ & El & Es).
  constructor; try done; try congruence.
  unfold netdev_by_name in *. destruct L as [L _]. by rewrite <-find_name_bare, L, find_name_bare.
Qed.

(** A packet to an address of the machine goes into the queue. *)
Lemma send_local nd s i d dst proto payload :
  lo_clear s i d -> Z.shiftr dst 24 = 127 \/ is_local_ip dst s = true ->
  packet_wf (Packet (ipv4_src_for dst s) dst IP_DEFAULT_TTL proto payload) -> len payload <= 1480 -> len (lo_frames (n_lo s)) < LO_QUEUE ->
  exists f s' d', ipv4_send nd dst proto payload s = S_ret 0 s' /\ lo_frames (n_lo s') = lo_frames (n_lo s) ++ [f] /\
    carries f (Packet (ipv4_src_for dst s) dst IP_DEFAULT_TTL proto payload) /\ above s s' /\ lo_clear s' i d' /\ bare d' = bare d.
Proof.
  intros C HR W Hl HQ. unfold ipv4_send, ETH_MTU. destruct (Z.ltb_spec 1500 (len payload + 20)); [lia|].
  assert (ER : ipv4_route dst s = Some (i, dst)).
  { unfold ipv4_route. rewrite (lc_name _ _ _ C). destruct HR as [E|E]; rewrite E; [done|by rewrite orb_true_r]. }
  rewrite ER. unfold arp_resolve. rewrite (lc_dev _ _ _ C), (lc_loop _ _ _ C). cbn [ipv4_resolved]. unfold ipv4_emit. cbn zeta.
  set (p := Packet _ _ _ _ _) in *. set (pkt := ip_bytes p (n_ipid s)).
  assert (Lp : len pkt = 20 + len payload) by (unfold pkt, ip_bytes; rewrite len_app; done).
  set (s1 := stat_inc ip_tx _). unfold eth_send. change (n_devs s1) with (n_devs s). rewrite (lc_dev _ _ _ C), (lc_send _ _ _ C). cbn [default].
  unfold ETH_MTU. destruct (Z.ltb_spec 1500 (len pkt)); [lia|].
  destruct (eth_roundtrip (replicate 6 0) (d_mac d) ETHERTYPE_IPV4 pkt) as (L14 & _ & _ & Et & pad & Ep); [done|apply C|done|].
  set (f := eth_frame _ _ _ _) in *. assert (Lf : len f <= ETH_FRAME_MAX).
  { unfold f, eth_frame. rewrite !len_app. change (len (replicate 6 0)) with 6. rewrite (lc_mac _ _ _ C), len_le, Lp.
    unfold len at 2. rewrite length_replicate. unfold ETH_FRAME_MAX, ETH_HLEN, ETH_MTU, ETH_ZLEN. lia. }
  unfold lo_send. destruct (Z.ltb_spec ETH_FRAME_MAX (len f)); [lia|]. change (n_lo s1) with (n_lo s). rewrite (lc_drop _ _ _ C). cbn [truth Z.eqb negb andb].
  unfold kmalloc. change (n_mem (with_lo _ s1)) with (n_mem s). rewrite (lc_mem _ _ _ C). cbn [hd tl negb].
  assert (Ec : len (lo_frames (n_lo s)) = lo_count (n_lo s)) by (apply len_ring, C).
  destruct (Z.eqb_spec (lo_count (n_lo s)) LO_QUEUE); [lia|].
  destruct (lo_push (n_lo s) f (lo_counter (n_lo s)) (lc_lo _ _ _ C)) as [P1 P2]; [lia|]. rewrite (lc_drop _ _ _ C) in P1, P2.
  set (s2 := wake_up _ _). assert (NL : net_like s s2).
  { transitivity (dev_add i tx_packets 1 s); [apply dev_add_like|]. exact (dev_add_like i tx_bytes (len f) (dev_add i tx_packets 1 s)). }
  destruct (clear_next s i d s2 C NL) as (d' & C' & Eb); try done; [apply u16_range|].
  exists f, s2, d'. split; [done|]. split; [exact P2|]. split; [|split; [by constructor|done]].
  split; [done|]. split; [done|]. rewrite Ep. apply ip_roundtrip; [done|apply C].
Qed.

(** A frame of the queue reaches the protocol. *)
Lemma take_local s i d f rest p :
  lo_clear s i d -> lo_frames (n_lo s) = f :: rest -> carries f p ->
  exists s' d', lo_frames (n_lo s') = rest /\ above s s' /\ lo_clear s' i d' /\ bare d' = bare d /\
    forall fuel, lo_poll (S fuel) i s = s2 ← ip_dispatch p s'; lo_poll fuel i s2.
Proof.
  intros C Ef (L14 & Et & Ep). pose proof (lc_lo _ _ _ C) as [QL QH QC QT]. unfold lo_frames in Ef.
  destruct (Z.eq_dec (lo_count (n_lo s)) 0) as [E0|N0]; [by rewrite E0 in Ef|]. rewrite ring_pop in Ef by lia.
  rewrite QL, (Z.mod_small (lo_head (n_lo s))) in Ef by done. injection Ef as Ef Er.
  set (l' := Lo (lo_q (n_lo s)) ((lo_head (n_lo s) + 1) mod LO_QUEUE) (lo_tail (n_lo s)) (lo_count (n_lo s) - 1) (lo_drop (n_lo s)) (lo_counter (n_lo s))).
  assert (O' : lo_ok l').
  { constructor; cbn; [done|by apply Z.mod_pos_bound|lia|]. rewrite QT, Zplus_mod_idemp_l. f_equal. lia. }
  set (s1 := dev_add i rx_bytes (len f) (dev_add i rx_packets 1 (with_lo l' s))).
  assert (NL : net_like s s1) by (transitivity (dev_add i rx_packets 1 s); [apply dev_add_like|]; exact (dev_add_like i rx_bytes (len f) (dev_add i rx_packets 1 s))).
  assert (NL2 : net_like s (stat_inc ip_rx s1)) by done.
  destruct (clear_next s i d (stat_inc ip_rx s1) C NL2) as (d' & C' & Eb); [done|apply C|apply C|apply C|].
  exists (stat_inc ip_rx s1), d'. split; [done|]. split; [by constructor|]. split; [done|]. split; [done|]. intros fuel. cbn [lo_poll]. unfold lo_take.
  destruct (Z.eqb_spec (lo_count (n_lo s)) 0); [done|]. rewrite Ef. fold l' s1. unfold net_input.
  destruct (Z.ltb_spec (len f) ETH_HLEN); [unfold ETH_HLEN in *; lia|]. pose proof (lc_dev _ _ _ C') as G. change (n_devs (stat_inc ip_rx s1)) with (n_devs s1) in G.
  rewrite G, (lc_loop _ _ _ C'), Et. cbn [negb andb Z.eqb]. unfold ipv4_input. rewrite G, Ep, (lc_loop _ _ _ C'). rewrite orb_true_r. cbn [orb negb andb]. done.
Qed.

Lemma poll_empty fuel s i : lo_ok (n_lo s) -> lo_frames (n_lo s) = [] -> lo_poll (S fuel) i s = Some s.
Proof.
  intros O E. assert (H : len (lo_frames (n_lo s)) = lo_count (n_lo s)) by (apply len_ring, O). rewrite E in H. cbn [lo_poll]. unfold lo_take.
  rewrite <-H. done.
Qed.

(** ** A datagram *)

Lemma udp_find_some ip port w l k j :
  udp_find ip port w l k = Some j -> w = Some j \/ exists n, j = (k + n)%nat /\ (n < length l)%nat.
Proof.
  revert w k. induction l as [|x l IH]; intros w k; [by left|]. cbn [udp_find length].
  assert (K : forall w', udp_find ip port w' l (S k) = Some j -> w' = Some j \/ exists n, j = (k + n)%nat /\ (n < S (length l))%nat).
  { intros w' [?|(n & -> & Hn)]%IH; [by left|]. right. exists (S n). lia. }
  destruct (_ || _); [apply K|]. destruct (_ =? ip); [intros [= <-]; right; exists 0%nat; lia|].
  intros [E|?]%K; [|by right]. destruct (_ =? 0); [|by left]. injection E as <-. right. exists 0%nat. lia.
Qed.

(** udp_input on a datagram that has a socket with room. *)
Lemma udp_input_queues y g j :
  dgram_wf g -> udp_lookup (d_dst g) (d_dport g) y = Some j -> sget j S_shut_rd y = 0 -> len (get_dq j y) < UDP_RXQ_MAX ->
  let y' := udp_input (d_src g) (d_dst g) (dgram_bytes g) true y in
  evs y' = evs y ++ [Ev_udp_rx; Ev_wake (sock_ptr j)] /\
  get_dq j y' = get_dq j y ++ [Dg (d_src g) (d_sport g) (d_data g)] /\ forall k, k <> j -> get_dq k y' = get_dq k y.
Proof.
  intros W HL HS HQ. cbn zeta. unfold udp_input. rewrite (udp_roundtrip g W). cbn zeta. set (y1 := log Ev_udp_rx y).
  change (udp_lookup (d_dst g) (d_dport g) y1) with (udp_lookup (d_dst g) (d_dport g) y). rewrite HL.
  change (sget j S_shut_rd y1) with (sget j S_shut_rd y). rewrite HS. change (get_dq j y1) with (get_dq j y).
  destruct (Z.leb_spec UDP_RXQ_MAX (len (get_dq j y))); [lia|]. cbn [truth Z.eqb negb orb].
  apply udp_find_some in HL as [?|(n & -> & Hn)]; [done|]. cbn [Nat.add] in *. apply lookup_lt_is_Some in Hn as [k Hk].
  unfold set_dq, get_dq. change (socks y1) with (socks y). rewrite Hk. cbn. rewrite <-app_assoc.
  split; [done|]. split; [rewrite list_lookup_insert_eq by (by eapply lookup_lt_Some); done|].
  intros m Nm. by rewrite list_lookup_insert_ne.
Qed.

(** C26: a datagram sent to an address of the machine arrives: ipv4_send puts it in
    the loopback queue, and when netd polls the device the payload is appended to
    the queue of the socket bound to the port, with the sender's address and port;
    no other socket is touched. *)
Theorem udp_loopback_delivers nd s i d g j :
  lo_clear s i d -> lo_frames (n_lo s) = [] -> dgram_wf g -> len (d_data g) <= 1472 -> d_src g = ipv4_src_for (d_dst g) s ->
  Z.shiftr (d_dst g) 24 = 127 \/ is_local_ip (d_dst g) s = true ->
  udp_lookup (d_dst g) (d_dport g) (n_sys s) = Some j -> sget j S_shut_rd (n_sys s) = 0 -> len (get_dq j (n_sys s)) < UDP_RXQ_MAX ->
  exists s1 s2, ipv4_send nd (d_dst g) IPPROTO_UDP (dgram_bytes g) s = S_ret 0 s1 /\ lo_poll 2 i s1 = Some s2 /\
    get_dq j (n_sys s2) = get_dq j (n_sys s) ++ [Dg (d_src g) (d_sport g) (d_data g)] /\
    (forall k, k <> j -> get_dq k (n_sys s2) = get_dq k (n_sys s)) /\ lo_frames (n_lo s2) = [].
Proof.
  intros C E0 W Hl Es HR HL HS HQ. pose proof (dw_len _ W).
  destruct (send_local nd s i d (d_dst g) IPPROTO_UDP (dgram_bytes g) C HR) as (f & s1 & d1 & E1 & F1 & K1 & A1 & C1 & _).
  - constructor; cbn [i_src i_dst i_ttl i_proto i_data]; [rewrite <-Es; apply W|apply W|done|done|by apply dgram_is_bytes|rewrite len_dgram_bytes; lia].
  - rewrite len_dgram_bytes. lia.
  - by rewrite E0.
  - rewrite E0 in F1. destruct (take_local s1 i d1 f [] _ C1 F1 K1) as (s2 & d2 & F2 & A2 & C2 & _ & HP).
    exists s1. rewrite HP. unfold ip_dispatch. cbn [i_proto i_src i_dst i_data]. cbn [Z.eqb IPPROTO_UDP IPPROTO_ICMP Pos.eqb]. unfold kmalloc.
    rewrite (lc_mem _ _ _ C2). cbn [hd tl mbind option_bind]. set (s3 := Nst _ _ _ _ _ _ _ _ _ _ _ _ _).
    assert (Y3 : n_sys s3 = n_sys s) by (cbn; rewrite (ab_sys _ _ A2); apply A1). rewrite Y3, <-Es.
    destruct (udp_input_queues (n_sys s) g j W HL HS HQ) as (V & D1 & D2). set (y := udp_input _ _ _ _ _) in *.
    assert (Ew : with_new_events y s3 = with_sys y s3).
    { unfold with_new_events. rewrite Y3, V, drop_app_length. done. }
    rewrite Ew. exists (with_sys y s3). rewrite poll_empty; [done|apply C2|done].
Qed.

(** ** Echo *)

Lemma icmp_checksum t id seq data :
  is_byte t -> Forall is_byte data -> len data < 1000 ->
  inet_checksum (icmp_bytes t id seq (inet_checksum (icmp_bytes t id seq 0 data)) data) = 0.
Proof.
  intros Ht Hd Hl. rewrite !inet_checksum_from. unfold icmp_bytes. change (le 2 0) with [0; 0].
  apply (checksum_verifies 0 [t; 0] (le 2 (htons id) ++ le 2 (htons seq) ++ data)).
  - constructor; [done|]. constructor; [done|]. constructor.
  - repeat (apply Forall_app; split); done || apply le_bytes.
  - done.
  - done.
  - rewrite !len_app, !len_le. change (len [t; 0]) with 2. lia.
Qed.

Lemma icmp_fields t id seq c data :
  is_byte t -> u16_ok id -> u16_ok seq ->
  let m := icmp_bytes t id seq c data in
  field 1 m 0 = t /\ field 1 m 1 = 0 /\ ntohs (field 2 m 4) = id /\ ntohs (field 2 m 6) = seq /\ len m = 8 + len data /\
  zdrop 4 m = le 2 (htons id) ++ le 2 (htons seq) ++ data.
Proof.
  intros Ht Hi Hs. cbn zeta. unfold icmp_bytes. set (a := le 2 (htons id)). set (b := le 2 (htons seq)). split_and!.
  - by apply (field_byte [] t ([0] ++ le 2 c ++ a ++ b ++ data)).
  - by apply (field_byte [t] 0 (le 2 c ++ a ++ b ++ data)).
  - by apply (field_htons ([t; 0] ++ le 2 c) id (b ++ data)).
  - by apply (field_htons ([t; 0] ++ le 2 c ++ a) seq data).
  - rewrite !len_app. change (len [t; 0]) with 2. unfold a, b. rewrite !len_le. lia.
  - by apply (zdrop_app 4 ([t; 0] ++ le 2 c) (a ++ b ++ data)).
Qed.

Lemma icmp_reply_bytes id seq c data :
  u16_ok id -> u16_ok seq ->
  icmp_reply (icmp_bytes ICMP_ECHO_REQUEST id seq c data) =
  icmp_bytes ICMP_ECHO_REPLY id seq (inet_checksum (icmp_bytes ICMP_ECHO_REPLY id seq 0 data)) data.
Proof.
  intros Hi Hs. destruct (icmp_fields ICMP_ECHO_REQUEST id seq c data ltac:(done) Hi Hs) as (_ & E1 & _ & _ & _ & Ed).
  unfold icmp_reply. rewrite E1, Ed. done.
Qed.

Lemma ping_data_ok : Forall is_byte ping_data /\ len ping_data = PING_PAYLOAD.
Proof. split; [|done]. vm_compute. repeat constructor; done. Qed.

(** The request with its checksum, and the answer. *)
Definition echo (t seq : Z) : list Z :=
  icmp_bytes t PING_ID seq (inet_checksum (icmp_bytes t PING_ID seq 0 ping_data)) ping_data.

Lemma echo_ok t seq : is_byte t -> u16_ok seq ->
  inet_checksum (echo t seq) = 0 /\ len (echo t seq) = 40 /\ Forall is_byte (echo t seq) /\ field 1 (echo t seq) 0 = t /\
  field 1 (echo t seq) 1 = 0 /\ ntohs (field 2 (echo t seq) 4) = PING_ID /\ ntohs (field 2 (echo t seq) 6) = seq.
Proof.
  intros Ht Hs. destruct ping_data_ok as [Hb Hl]. unfold echo. split; [by apply icmp_checksum|].
  destruct (icmp_fields t PING_ID seq (inet_checksum (icmp_bytes t PING_ID seq 0 ping_data)) ping_data Ht ltac:(done) Hs) as (F0 & F1 & F4 & F6 & FL & _).
  rewrite F0, F1, F4, F6, FL, Hl. split_and!; try done. unfold icmp_bytes. constructor; [done|]. constructor; [done|].
  repeat (apply Forall_app; split); done || apply le_bytes.
Qed.

(** A request is answered. *)
Lemma echo_request src ttl seq s :
  u16_ok seq -> n_mem s = [] ->
  exists s', icmp_input src ttl (echo ICMP_ECHO_REQUEST seq) s = sent_st (ipv4_send true src IPPROTO_ICMP (echo ICMP_ECHO_REPLY seq) s') /\
    above s s' /\ n_lo s' = n_lo s /\ n_mem s' = [] /\ n_ipid s' = n_ipid s.
Proof.
  intros Hs Hm. destruct (echo_ok ICMP_ECHO_REQUEST seq ltac:(done) Hs) as (E1 & E2 & _ & E3 & E4 & _).
  unfold icmp_input. rewrite E1, E2, E3, E4. cbn [Z.ltb Z.compare Pos.compare Pos.compare_cont Z.eqb Pos.eqb negb andb ICMP_ECHO_REQUEST].
  unfold kmalloc. change (n_mem (stat_inc icmp_rx s)) with (n_mem s). rewrite Hm. cbn [hd tl negb].
  unfold echo at 1. rewrite icmp_reply_bytes by done. eexists. split; [reflexivity|]. by repeat constructor.
Qed.

(** An answer is matched against the slots. *)
Lemma echo_reply src ttl seq s :
  u16_ok seq -> exists s1, above s s1 /\ n_lo s1 = n_lo s /\
    icmp_input src ttl (echo ICMP_ECHO_REPLY seq) s =
    match ping_done src seq ttl (now s) (n_pings s) with Some l => wake_up W_ping (with_pings l s1) | None => s1 end.
Proof.
  intros Hs. destruct (echo_ok ICMP_ECHO_REPLY seq ltac:(done) Hs) as (E1 & E2 & _ & E3 & E4 & E5 & E6).
  exists (stat_inc icmp_rx s). split; [done|]. split; [done|].
  unfold icmp_input. rewrite E1, E2, E3, E4, E5, E6. done.
Qed.

Lemma ping_free_some l k i : ping_free l k = Some i -> exists j p, i = (k + j)%nat /\ l !! j = Some p /\ p_used p = false.
Proof.
  revert k. induction l as [|p l IH]; intros k; [done|]. cbn [ping_free]. destruct (p_used p) eqn:U.
  - intros (j & q & -> & H)%IH. exists (S j), q. split; [lia|done].
  - intros [= <-]. exists 0%nat, p. split; [lia|done].
Qed.

(** Only slot [k] may wait for [seq]. *)
Lemma ping_done_at src seq ttl t l k p :
  l !! k = Some p -> (forall j q, l !! j = Some q -> j <> k -> p_used q = true -> p_seq q <> seq) ->
  p_used p = true -> p_done p = false -> p_seq p = seq ->
  ping_done src seq ttl t l =
    if p_dst p =? src then Some (<[k := Ping true (p_dst p) (p_seq p) true (p_sent p) (u64 (t - p_sent p)) ttl]> l) else None.
Proof.
  revert k. induction l as [|q l IH]; intros k Hk HN U D Sq; [done|]. cbn [ping_done]. destruct k as [|k].
  - injection Hk as ->. rewrite U, D, Sq, Z.eqb_refl. cbn [negb andb]. destruct (p_dst p =? src); [done|].
    assert (K : ping_done src seq ttl t l = None); [|by rewrite K]. clear -HN. assert (H : forall j q, l !! j = Some q -> p_used q = true -> p_seq q <> seq).
    { intros j q Hj. by apply (HN (S j) q). }
    clear HN. induction l as [|q l IH]; [done|]. cbn [ping_done]. destruct (p_used q && negb (p_done q) && (p_seq q =? seq) && (p_dst q =? src)) eqn:E.
    + rewrite !andb_true_iff in E. destruct E as [[[E1 _] E2%Z.eqb_eq] _]. by destruct (H 0%nat q eq_refl E1).
    + rewrite IH; [done|]. intros j q'. apply (H (S j) q').
  - assert (Hq : p_used q = true -> p_seq q <> seq) by (apply (HN 0%nat q); done).
    destruct (p_used q && negb (p_done q) && (p_seq q =? seq) && (p_dst q =? src)) eqn:E.
    { rewrite !andb_true_iff in E. destruct E as [[[E1 _] E2%Z.eqb_eq] _]. by destruct (Hq E1). }
    rewrite (IH k); [by destruct (_ =? _)|done| |done..]. intros j q' Hj Nj. apply (HN (S j) q'); [done|lia].
Qed.

Lemma local_src s i d dst : lo_clear s i d -> Z.shiftr dst 24 = 127 -> ipv4_src_for dst s = d_ip d.
Proof.
  intros C E. unfold ipv4_src_for, ipv4_route. rewrite E, (lc_name _ _ _ C). cbn [Z.eqb Pos.eqb orb mbind option_bind fst].
  by rewrite (lc_dev _ _ _ C), (lc_loop _ _ _ C).
Qed.

Lemma bare_ip d d' : bare d' = bare d -> d_ip d' = d_ip d.
Proof. intros E. by apply bare_eq in E as (_ & ? & _). Qed.

(** An echo message on its way through the queue. *)
Lemma echo_send nd s i d dst t seq :
  lo_clear s i d -> lo_frames (n_lo s) = [] -> is_byte t -> u16_ok seq -> u32_ok dst -> Z.shiftr dst 24 = 127 ->
  exists s1 d1, ipv4_send nd dst IPPROTO_ICMP (echo t seq) s = S_ret 0 s1 /\ above s s1 /\ lo_clear s1 i d1 /\ bare d1 = bare d /\
  exists s2 d2, above s1 s2 /\ lo_clear s2 i d2 /\ bare d2 = bare d /\ lo_frames (n_lo s2) = [] /\
    forall fuel, lo_poll (S fuel) i s1 = lo_poll fuel i (icmp_input (d_ip d) IP_DEFAULT_TTL (echo t seq) s2).
Proof.
  intros C E0 Ht Hs Hd H127. destruct (echo_ok t seq Ht Hs) as (_ & L & B & _).
  destruct (send_local nd s i d dst IPPROTO_ICMP (echo t seq) C (or_introl H127)) as (f & s1 & d1 & E1 & F1 & K1 & A1 & C1 & B1).
  - rewrite (local_src _ _ _ _ C H127). constructor; cbn [i_src i_dst i_ttl i_proto i_data]; try apply C; rewrite ?L; done.
  - rewrite L. done.
  - by rewrite E0.
  - exists s1, d1. split_and!; try done. rewrite E0 in F1. destruct (take_local s1 i d1 f [] _ C1 F1 K1) as (s2 & d2 & F2 & A2 & C2 & B2 & HP).
    exists s2, d2. split_and!; try done; [congruence|]. intros fuel. rewrite HP, (local_src _ _ _ _ C H127). done.
Qed.

Lemma above_trans a b c : above a b -> above b c -> above a c.
Proof. intros [A1 A2 A3] [B1 B2 B3]. constructor; [congruence..|]. by transitivity b. Qed.

(** A ping of the machine itself: the request goes through the loopback queue,
    is answered in the same poll, and the answer wakes the caller with the time and
    the TTL when the address is that of the device. For any other address of
    127.0.0.0/8 the answer comes from the address of the device and is not
    recognised, so the ping goes on waiting. *)
Theorem ping_loopback nd s i d dst seq timeout k :
  lo_clear s i d -> lo_frames (n_lo s) = [] -> ping_free (n_pings s) 0 = Some k ->
  (forall j q, n_pings s !! j = Some q -> p_used q = true -> p_seq q <> seq) ->
  u16_ok seq -> u32_ok dst -> Z.shiftr dst 24 = 127 -> Z.shiftr (d_ip d) 24 = 127 ->
  0 <= now s -> 0 < timeout -> now s + timeout < 2 ^ 64 ->
  exists s1 s2, icmp_ping nd dst seq timeout s = P_wait k timeout (now s + timeout) s1 /\ lo_poll 3 i s1 = Some s2 /\
    ping_round k (now s + timeout) s2 =
      if dst =? d_ip d then P_ret 0 (Some IP_DEFAULT_TTL) (free_ping k s2) else P_wait k timeout (now s + timeout) s2.
Proof.
  intros C E0 Hk HN Hs Hd H1 H2 Hn Ht Hb. unfold icmp_ping. rewrite Hk. apply ping_free_some in Hk as (j & p & Ek & Hj & Uj). cbn in Ek. subst j.
  set (q := Ping true dst seq false (now s) (p_rtt p) (p_ttl p)).
  set (s0 := stat_inc icmp_tx _). assert (P0 : n_pings s0 = <[k := q]> (n_pings s)).
  { cbn. apply list_eq. intros j. destruct (decide (j = k)) as [->|N].
    - rewrite list_lookup_alter_eq, list_lookup_insert_eq by (by eapply lookup_lt_Some). by rewrite Hj.
    - by rewrite list_lookup_alter_ne, list_lookup_insert_ne. }
  assert (C0 : lo_clear s0 i d) by (by destruct C).
  change (ping_msg seq) with (echo ICMP_ECHO_REQUEST seq).
  destruct (echo_send nd s0 i d dst ICMP_ECHO_REQUEST seq C0 E0) as (s1 & d1 & -> & A1 & C1 & B1 & s2 & d2 & A2 & C2 & B2 & F2 & HP1); try done.
  assert (HK : forall x, n_pings x = n_pings s0 -> n_pings x !! k = Some q).
  { intros x ->. rewrite P0. apply list_lookup_insert_eq. by eapply lookup_lt_Some. }
  assert (HW : forall x, n_sys x = n_sys s -> n_pings x = n_pings s0 -> ping_round k (now s + timeout) x = P_wait k timeout (now s + timeout) x).
  { intros x Ex Px. unfold ping_round. rewrite (HK x Px). cbn [q p_done negb andb]. assert (Nx : now x = now s) by (unfold now; by rewrite Ex). rewrite Nx.
    destruct (Z.ltb_spec (now s) (now s + timeout)); [|lia]. f_equal. lia. }
  assert (S1 : n_sys s1 = n_sys s) by (by rewrite (ab_sys _ _ A1)).
  assert (N1 : now s1 = now s) by (unfold now; by rewrite S1).
  exists s1. cbn [ping_sent Z.ltb Z.compare]. rewrite N1, (u64_small (now s + timeout)) by lia.
  rewrite (HW s1 S1 (ab_pings _ _ A1)). rewrite HP1.
  destruct (echo_request (d_ip d) IP_DEFAULT_TTL seq s2 Hs (lc_mem _ _ _ C2)) as (s3 & E3 & A3 & L3 & M3 & I3). rewrite E3.
  assert (C3 : exists d3, lo_clear s3 i d3 /\ bare d3 = bare d2).
  { apply (clear_next s2 i d2 s3 C2); [apply A3|rewrite L3; apply C2..|done|rewrite I3; apply C2]. }
  destruct C3 as (d3 & C3 & B3). assert (Ed : d_ip d3 = d_ip d) by (rewrite (bare_ip _ _ B3); by apply bare_ip).
  destruct (echo_send true s3 i d3 (d_ip d) ICMP_ECHO_REPLY seq C3) as (s4 & d4 & -> & A4 & C4 & B4 & s5 & d5 & A5 & C5 & B5 & F5 & HP2); try done; [by rewrite L3|apply C|].
  cbn [sent_st]. rewrite HP2, Ed. pose proof (above_trans _ _ _ (above_trans _ _ _ (above_trans _ _ _ (above_trans _ _ _ A1 A2) A3) A4) A5) as A.
  destruct (echo_reply (d_ip d) IP_DEFAULT_TTL seq s5 Hs) as (s6 & A6 & L6 & E6). rewrite E6.
  assert (N5 : now s5 = now s) by (unfold now; by rewrite (ab_sys _ _ A)). rewrite (ab_pings _ _ A), P0.
  rewrite (ping_done_at _ _ _ _ _ k q); [|apply list_lookup_insert_eq; by eapply lookup_lt_Some| |done..].
  2:{ intros j r. intros Hr Nr. rewrite list_lookup_insert_ne in Hr by done. by eapply HN. }
  cbn [q p_dst]. destruct (Z.eqb_spec dst (d_ip d)) as [->|Nd].
  - eexists. split; [done|]. split; [apply poll_empty; cbn; rewrite L6; [apply C5|done]|]. unfold ping_round. cbn [wake_up with_pings n_pings].
    rewrite list_lookup_insert_eq by (rewrite length_insert; by eapply lookup_lt_Some). cbn [p_done p_rtt p_ttl negb andb q p_sent].
    rewrite N5, Z.sub_diag. done.
  - exists s6. split; [done|]. split; [apply poll_empty; rewrite L6; [apply C5|done]|]. apply HW; [|by rewrite (ab_pings _ _ A6), (ab_pings _ _ A)].
    rewrite (ab_sys _ _ A6), (ab_sys _ _ A). done.
Qed.

(** * The source address *)

Lemma seg_is_bytes g : seg_wf g -> Forall is_byte (seg_bytes g).
Proof.
  intros W. unfold seg_bytes, tcp_bytes. repeat (apply Forall_app; split); try apply le_bytes; try apply W.
  constructor; [apply u8_range|]. constructor; [apply u8_range|]. constructor.
Qed.

(** A checksum made for one source does not verify for another. *)
Lemma checksum_source g src :
  seg_wf g -> (halves src - halves (g_src g)) mod 65535 <> 0 -> inet_pseudo_checksum src (g_dst g) IPPROTO_TCP (seg_bytes g) <> 0.
Proof.
  intros W N E. assert (L : len (seg_bytes g) = 20 + len (g_opts g) + len (g_data g)) by (unfold seg_bytes; apply len_tcp_bytes).
  pose proof (w_len _ W) as Hl. pose proof (seg_is_bytes g W) as HB. pose proof (word_sum_bound _ HB).
  destruct (pseudo_checksum_eq src (g_dst g) IPPROTO_TCP (seg_bytes g)) as [R1 E1]; [done|lia|].
  destruct (pseudo_checksum_eq (g_src g) (g_dst g) IPPROTO_TCP (seg_bytes g)) as [R2 E2]; [done|lia|].
  pose proof (seg_checksum g W) as Z. rewrite E2 in Z. rewrite E1 in E.
  apply checksum_from_zero in E as [_ E]; [|done|lia|lia]. apply checksum_from_zero in Z as [_ Z]; [|done|lia|lia].
  apply N. unfold pseudo_sum in *. apply Z.mod_divide in E as [x Ex]; [|lia]. apply Z.mod_divide in Z as [y Ey]; [|lia].
  apply Z.mod_divide; [lia|]. exists (x - y). lia.
Qed.

(** Tcp_xmit makes the checksum for the local address of the connection, but
    ipv4_send writes the source of its own route into the header. When the two
    differ the receiver throws every segment of the connection away, so a
    connection accepted on an address of 127.0.0.0/8 other than that of the
    device, or a socket bound to the address of another device, never gets an
    answer through. *)
Theorem source_mismatch_dropped g s r y :
  seg_wf g -> (halves (ipv4_src_for (g_dst g) s) - halves (g_src g)) mod 65535 <> 0 ->
  tcp_input (ipv4_src_for (g_dst g) s) (g_dst g) (seg_bytes g) r y = Some y.
Proof.
  intros W N. pose proof (checksum_source g _ W N) as H. unfold tcp_input, parse_seg. destruct (_ <? 20); [done|]. cbn zeta. destruct (_ || _); [done|].
  destruct (Z.eqb_spec (inet_pseudo_checksum (ipv4_src_for (g_dst g) s) (g_dst g) IPPROTO_TCP (seg_bytes g)) 0); [done|]. done.
Qed.

(** * Examples *)

Lemma init_clear : lo_clear net_init 0 lo_dev.
Proof. by repeat constructor. Qed.

(** A socket bound to port 7 of any address. *)
Definition demo_bound : nst := with_sys (bind 0 (Some (AF_INET, htons 7, 0)) 16 (socket AF_INET SOCK_DGRAM boot).2).2 net_init.
Definition demo_dgram : datagram := Dgram (IPV4 127 0 0 1) (IPV4 127 0 0 2) 50000 7 [104; 105].

Lemma udp_loopback_delivers_witness :
  exists s1 s2, ipv4_send false (IPV4 127 0 0 2) IPPROTO_UDP (dgram_bytes demo_dgram) demo_bound = S_ret 0 s1 /\ lo_poll 2 0 s1 = Some s2 /\
    get_dq 0 (n_sys s2) = [Dg (IPV4 127 0 0 1) 50000 [104; 105]].
Proof.
  destruct (udp_loopback_delivers false demo_bound 0 lo_dev demo_dgram 0) as (s1 & s2 & E1 & E2 & E3 & _).
  - by repeat constructor.
  - done.
  - by constructor; vm_compute; repeat constructor.
  - done.
  - done.
  - by left.
  - done.
  - done.
  - done.
  - by exists s1, s2.
Defined.

Lemma ping_loopback_witness :
  exists s1 s2, icmp_ping false (IPV4 127 0 0 1) 1 1000 net_init = P_wait 0 1000 1000 s1 /\ lo_poll 3 0 s1 = Some s2 /\
    ping_round 0 1000 s2 = P_ret 0 (Some 64) (free_ping 0 s2).
Proof.
  apply (ping_loopback false net_init 0 lo_dev (IPV4 127 0 0 1) 1 1000 0 init_clear); try done.
  intros j q Hq. apply lookup_replicate in Hq as [-> _]. done.
Defined.

(** The answer of a listener to a SYN for 127.0.0.2. *)
Definition demo_syn_ack : segment := Seg (IPV4 127 0 0 2) (IPV4 127 0 0 1) 80 40000 1 2 (Z.lor TCP_SYN TCP_ACK) 16384 mss_option [].

Lemma source_mismatch_dropped_witness :
  ipv4_src_for (IPV4 127 0 0 1) net_init = IPV4 127 0 0 1 /\
  tcp_input (IPV4 127 0 0 1) (IPV4 127 0 0 1) (seg_bytes demo_syn_ack) None boot = Some boot.
Proof.
  split; [done|]. apply (source_mismatch_dropped demo_syn_ack net_init None boot); [|vm_compute; done].
  by constructor; vm_compute; repeat constructor.
Defined.
