(* ===== verification/NetSafe.v ===== *)
(** Frames from anybody: net_input on a well-formed network returns and leaves a
    well-formed network, whatever the bytes of the frame are, through every layer
    up to the sockets and down again. *)

From stdpp Require Import base numbers option list.
From Stdlib Require Import ZArith Lia.
From S2P Require Import Prelude Buf Inet Tcp Wire Sock SockInv SockSafe SockCalls Ip Arp Loopback.

Record net_ok (s : nst) : Prop := {
  ok_sys : sys_ok (n_sys s);
  ok_arp : arp_ok (n_arp s);
  ok_lo : lo_ok (n_lo s)
}.

(** What goes down changes nothing above. *)
Record down (s s' : nst) : Prop := {
  dn_sys : n_sys s' = n_sys s;
  dn_blocks : n_blocks s' = n_blocks s;
  dn_arp : n_arp s' = n_arp s;
  dn_lo : lo_ok (n_lo s) -> lo_ok (n_lo s')
}.

#[export] Instance down_preorder : PreOrder down.
Proof. split; [by constructor|]. intros a b c [] []. constructor; try congruence. auto. Qed.

Lemma down_ok s s' : down s s' -> net_ok s -> net_ok s'.
Proof. intros [E1 _ E2 E3] [O1 O2 O3]. constructor; [by rewrite E1|by rewrite E2|auto]. Qed.

Create HintDb net.
#[export] Hint Resolve down_ok : net.

Lemma down_stat c s : down s (stat_inc c s).
Proof. by constructor. Qed.

Lemma down_dev i c n s : down s (dev_add i c n s).
Proof. by constructor. Qed.

Lemma down_mem s : down s (kmalloc s).2.
Proof. by constructor. Qed.

#[export] Hint Resolve down_stat down_dev down_mem : net.

Lemma lo_send_down i frame s : down s (lo_send i frame s).2.
Proof.
  constructor; [..|intros O; pose proof (lo_send_spec i frame s O) as H; by destruct (lo_send i frame s), H].
  all: unfold lo_send, kmalloc; destruct (_ <? _); [done|]; cbn zeta; destruct (_ && _); [done|]; cbn; destruct (negb _); [done|]; destruct (_ =? _); done.
Qed.

Lemma eth_send_down i dst ty payload s : down s (eth_send i dst ty payload s).2.
Proof.
  unfold eth_send. destruct (n_devs s !! i) as [d|]; [|done]. destruct (_ <? _); [done|]. destruct (d_send d); [done|apply lo_send_down|by constructor].
Qed.

Lemma arp_send_down i op tha tpa dst s : down s (arp_send i op tha tpa dst s).
Proof.
  unfold arp_send. destruct (n_devs s !! i) as [d|]; [|done]. transitivity (stat_inc arp_tx s); [apply down_stat|apply eth_send_down].
Qed.

Definition resolved_st (r : resolved) : nst := match r with R_mac _ s | R_err _ s | R_wait _ _ _ s => s end.

Lemma arp_resolve_down nd i ip timeout s : down s (resolved_st (arp_resolve nd i ip timeout s)).
Proof.
  unfold arp_resolve. destruct (n_devs s !! i) as [d|]; [|done]. destruct (d_loop d); [done|]. destruct (ip =? _); [done|].
  destruct (arp_lookup ip s); [done|]. pose proof (arp_send_down i ARP_OP_REQUEST None ip None s) as D. destruct (_ || nd); [done|].
  unfold arp_slice. by destruct (_ <=? _).
Qed.

Lemma ipv4_send_down nd dst proto payload s : down s (sent_st (ipv4_send nd dst proto payload s)).
Proof.
  unfold ipv4_send. destruct (_ <? _); [done|]. destruct (ipv4_route dst s) as [[i hop]|]; [|apply down_stat].
  pose proof (arp_resolve_down nd i hop (if nd then 0 else ARP_WAIT_MS) s) as D. destruct (arp_resolve _ _ _ _ s) as [mac s1|rc s1|ms dl rt s1]; cbn in *.
  - unfold ipv4_emit. cbn zeta. set (s2 := stat_inc ip_tx _). pose proof (eth_send_down i (Some mac) ETHERTYPE_IPV4
      (ip_bytes (Packet (ipv4_src_for dst s1) dst IP_DEFAULT_TTL proto payload) (n_ipid s1)) s2) as D2.
    destruct (eth_send _ _ _ _ s2) as [rc s3]. cbn in *. transitivity s1; [done|]. by transitivity s2.
  - by transitivity s1; [|apply down_dev].
  - done.
Qed.

Lemma flush_down l s : down s (flush l s).
Proof.
  revert s. induction l as [|e l IH]; intros s; [done|]. destruct e; cbn [flush]; try apply IH.
  all: etrans; [apply ipv4_send_down|apply IH].
Qed.

Lemma new_events_ok y s : sys_ok y -> net_ok s -> net_ok (with_new_events y s).
Proof.
  intros Y [O1 O2 O3]. unfold with_new_events. eapply down_ok; [apply flush_down|]. by constructor.
Qed.

Lemma arp_update_net ip mac s : net_ok s -> net_ok (arp_update ip mac s) /\ n_sys (arp_update ip mac s) = n_sys s /\ n_blocks (arp_update ip mac s) = n_blocks s.
Proof.
  intros [O1 O2 O3]. pose proof (arp_update_ok ip mac s O2) as A. unfold arp_update in *. destruct (ip =? 0); [done|]. split; [by constructor|done].
Qed.

Lemma arp_input_net i pkt s : net_ok s -> net_ok (arp_input i pkt s).
Proof.
  intros O. unfold arp_input. destruct (parse_arp pkt) as [p|]; [|done]. destruct (n_devs s !! i) as [d|]; [|done]. cbn zeta.
  set (s1 := stat_inc arp_rx s). assert (O1 : net_ok s1) by (eauto with net). clearbody s1.
  set (s2 := if negb (a_spa p =? 0) && _ then _ else _). assert (O2 : net_ok s2) by (unfold s2; destruct (_ && _); [by apply arp_update_net|done]).
  clearbody s2. destruct (_ && _ && _); [|done]. eauto using arp_send_down with net.
Qed.

Lemma icmp_input_net src ttl pkt s : net_ok s -> net_ok (icmp_input src ttl pkt s).
Proof.
  intros O. unfold icmp_input. destruct (_ <? _); [done|]. destruct (negb _); [done|]. cbn zeta.
  set (s1 := stat_inc icmp_rx s). assert (O1 : net_ok s1) by (eauto with net). clearbody s1.
  destruct (_ && _).
  - pose proof (down_mem s1) as D. destruct (kmalloc s1) as [ok s2]. cbn in D. pose proof (down_ok _ _ D O1) as O2. destruct (negb ok); [done|].
    eapply down_ok; [apply ipv4_send_down|]. eauto with net.
  - destruct (_ && _); [|done]. destruct (ping_done _ _ _ _ _); [|done]. destruct O1. by constructor.
Qed.

(** The next block the heap gives is new. *)
Definition block_fresh (s : nst) : Prop := heap_ok (hd None (n_blocks s)) (n_sys s).

Lemma parse_ip_len pkt p : parse_ip pkt = Some p -> len (i_data p) < 2 ^ 16.
Proof.
  unfold parse_ip. cbn zeta. repeat match goal with |- (if ?c then None else _) = _ -> _ => destruct c eqn:?; [done|] end.
  intros [= <-]. cbn [i_data]. set (ihl := Z.land _ _ * 4) in *. set (total := ntohs (field 2 pkt 2)) in *.
  assert (total < 2 ^ 16) by apply htons_range. rewrite !orb_false_iff, !Z.ltb_ge in *. rewrite len_ztake; rewrite ?len_zdrop; lia.
Qed.

Lemma ip_dispatch_net p s : net_ok s -> block_fresh s -> len (i_data p) < 2 ^ 16 -> exists s', ip_dispatch p s = Some s' /\ net_ok s'.
Proof.
  intros O B L. unfold ip_dispatch. destruct (_ =? IPPROTO_ICMP); [eexists; split; [done|]; by apply icmp_input_net|].
  destruct (_ =? IPPROTO_UDP).
  - pose proof (down_mem s) as D. destruct (kmalloc s) as [ok s1]. cbn in D. pose proof (down_ok _ _ D O) as O1. eexists. split; [done|].
    apply new_events_ok; [|done]. apply udp_input_ok, O1.
  - destruct (_ =? IPPROTO_TCP); [|by eexists]. unfold new_block. set (s1 := Nst _ _ _ _ _ _ _ _ _ _ _ _ _).
    assert (O1 : net_ok s1) by (destruct O; by constructor).
    destruct (tcp_input_ok (i_src p) (i_dst p) (i_data p) (hd None (n_blocks s)) (n_sys s1) (ok_sys _ O1) B L) as (y & -> & Y).
    eexists. split; [done|]. by apply new_events_ok.
Qed.


Lemma init_ok : net_ok net_init.
Proof. constructor; [apply sys_boot|apply blank_arp_ok|apply blank_lo_ok]. Qed.

