(* ===== verification/Ext2.v ===== *)
(** The ext2 driver, [kernel/fs/ext2.c], over the block device of
    [kernel/include/fs/blkdev.h].

    The device is an array of bytes with a capacity in sectors and a list of the
    requests that will fail; a driver's page is a local byte map, and an access
    outside its 4096 bytes is a fault ([None]), as is an access to a freed object.
    The driver's state counts the free page frames, holds the addresses the heap
    will hand out (0 or none left: kcalloc fails), and the objects the driver
    made. One volume is mounted: every [ext2_fs_t] uses the one device. *)

From stdpp Require Import base numbers option list gmap.
From Stdlib Require Import ZArith Lia.
From S2P Require Import Prelude Buf Tmpfs.

(** * State *)

Definition PAGE : Z := 4096.
Definition SECTOR : Z := 512.
Definition ENOSPC : Z := 28.

Definition EXT2_MAGIC : Z := 61267.
Definition EXT2_ROOT_INO : Z := 2.
Definition EXT2_NDIR : Z := 12.
Definition EXT2_IND : Z := 12.
Definition EXT2_DIND : Z := 13.
Definition EXT2_TIND : Z := 14.
Definition EXT2_S_IFMT : Z := 61440.
Definition EXT2_S_IFDIR : Z := 16384.

(** &ext2_ops. *)
Definition EXT2_OPS : Z := 2.

(** [faults]: what becomes of the next requests. [None]: the request succeeds;
    [Some w]: it fails, and [w] says whether a write reached the disk all the same.
    Requests past the list succeed. *)
Record blkdev := Blkdev { image : mem; nsectors : Z; faults : list (option bool) }.

(** [fs_self]: its own address. *)
Record ext2_fs := Ext2fs {
  fs_self : Z; block_size : Z; spb : Z; inodes_per_group : Z; blocks_per_group : Z;
  inodes_count : Z; blocks_count : Z; inode_size : Z; first_data_block : Z; gdt_block : Z; gc_head : Z
}.

Record ext2_vinfo := Vinfo {
  vi_fs : Z; vi_ino : Z; vi_size : Z; vi_mode : Z; vi_links : Z; vi_blocks512 : Z;
  vi_block : list Z; vi_gc_next : Z
}.

(** [e_junk]: what is in a frame that has just been allocated. *)
Record est := Est {
  e_dev : blkdev; e_frames : Z; e_junk : mem; e_heap : list Z;
  e_fss : gmap Z ext2_fs; e_vis : gmap Z ext2_vinfo; e_vns : gmap Z vnode
}.

Definition set_dev (d : blkdev) (s : est) : est :=
  Est d (e_frames s) (e_junk s) (e_heap s) (e_fss s) (e_vis s) (e_vns s).
Definition set_frames (n : Z) (s : est) : est :=
  Est (e_dev s) n (e_junk s) (e_heap s) (e_fss s) (e_vis s) (e_vns s).
Definition set_heap (h : list Z) (s : est) : est :=
  Est (e_dev s) (e_frames s) (e_junk s) h (e_fss s) (e_vis s) (e_vns s).
Definition set_fss (m : gmap Z ext2_fs) (s : est) : est :=
  Est (e_dev s) (e_frames s) (e_junk s) (e_heap s) m (e_vis s) (e_vns s).
Definition set_vis (m : gmap Z ext2_vinfo) (s : est) : est :=
  Est (e_dev s) (e_frames s) (e_junk s) (e_heap s) (e_fss s) m (e_vns s).
Definition set_vns (m : gmap Z vnode) (s : est) : est :=
  Est (e_dev s) (e_frames s) (e_junk s) (e_heap s) (e_fss s) (e_vis s) m.

Definition with_gc_head (a : Z) (f : ext2_fs) : ext2_fs :=
  Ext2fs (fs_self f) (block_size f) (spb f) (inodes_per_group f) (blocks_per_group f) (inodes_count f)
    (blocks_count f) (inode_size f) (first_data_block f) (gdt_block f) a.
Definition with_vi_size (n : Z) (v : ext2_vinfo) : ext2_vinfo :=
  Vinfo (vi_fs v) (vi_ino v) n (vi_mode v) (vi_links v) (vi_blocks512 v) (vi_block v) (vi_gc_next v).
Definition with_vi_mode (m : Z) (v : ext2_vinfo) : ext2_vinfo :=
  Vinfo (vi_fs v) (vi_ino v) (vi_size v) m (vi_links v) (vi_blocks512 v) (vi_block v) (vi_gc_next v).
Definition with_vi_links (n : Z) (v : ext2_vinfo) : ext2_vinfo :=
  Vinfo (vi_fs v) (vi_ino v) (vi_size v) (vi_mode v) n (vi_blocks512 v) (vi_block v) (vi_gc_next v).
Definition with_vi_gc_next (a : Z) (v : ext2_vinfo) : ext2_vinfo :=
  Vinfo (vi_fs v) (vi_ino v) (vi_size v) (vi_mode v) (vi_links v) (vi_blocks512 v) (vi_block v) a.

(** [vi->i_block[k] = b; vi->blocks512 = n]. *)
Definition with_vi_slot (k b n : Z) (v : ext2_vinfo) : ext2_vinfo :=
  Vinfo (vi_fs v) (vi_ino v) (vi_size v) (vi_mode v) (vi_links v) n
    (<[Z.to_nat k := b]> (vi_block v)) (vi_gc_next v).

Definition blk_slot (v : ext2_vinfo) (k : Z) : Z := default 0 (vi_block v !! Z.to_nat k).

(** * The driver's effects *)

Definition M (A : Type) : Type := est -> option (A * est).

#[export] Instance M_ret : MRet M := fun A a s => Some (a, s).
#[export] Instance M_bind : MBind M :=
  fun A B k m s => match m s with Some (a, s) => k a s | None => None end.

Definition fault {A} : M A := fun _ => None.
Definition gets {A} (f : est -> A) : M A := fun s => Some (f s, s).
Definition modify (f : est -> est) : M unit := fun s => Some (tt, f s).
Definition obj {A} (m : est -> gmap Z A) (a : Z) : M A :=
  fun s => match m s !! a with Some x => Some (x, s) | None => None end.

Definition put_vi (a : Z) (v : ext2_vinfo) : M unit := modify (fun s => set_vis (<[a := v]> (e_vis s)) s).
Definition put_vn (a : Z) (v : vnode) : M unit := modify (fun s => set_vns (<[a := v]> (e_vns s)) s).
Definition put_fs (a : Z) (f : ext2_fs) : M unit := modify (fun s => set_fss (<[a := f]> (e_fss s)) s).

Definition kcalloc : M Z :=
  fun s => match e_heap s with a :: h => Some (a, set_heap h s) | [] => Some (0, s) end.
(** kfree of a vnode and of its ext2_vinfo: a fault when it is not allocated. *)
Definition kfree_vi (a : Z) : M unit := obj e_vis a ≫= fun _ => modify (fun s => set_vis (delete a (e_vis s)) s).
Definition kfree_vn (a : Z) : M unit := obj e_vns a ≫= fun _ => modify (fun s => set_vns (delete a (e_vns s)) s).
Definition kfree_fs (a : Z) : M unit := obj e_fss a ≫= fun _ => modify (fun s => set_fss (delete a (e_fss s)) s).

Definition blk_alloc : M (option mem) :=
  fun s => if 0 <? e_frames s then Some (Some (e_junk s), set_frames (e_frames s - 1) s) else Some (None, s).
Definition blk_free : M unit := modify (fun s => set_frames (e_frames s + 1) s).

(** [b = blk_alloc(); if (!b) return fail; ... blk_free(b); return r]. *)
Definition with_page {A} (fail : A) (body : mem -> M A) : M A :=
  b ← blk_alloc;
  match b with
  | None => mret fail
  | Some b => r ← body b; blk_free ;; mret r
  end.

(** ** Bytes of a page *)

Definition in_page (o n : Z) : bool := (0 <=? o) && (o + n <=? PAGE).

Definition rd8 (b : mem) (o : Z) : M Z := if in_page o 1 then mret (ld8 b o) else fault.
Definition rd16 (b : mem) (o : Z) : M Z := if in_page o 2 then mret (ld16 b o) else fault.
Definition rd32 (b : mem) (o : Z) : M Z := if in_page o 4 then mret (ld32 b o) else fault.
Definition wr8 (b : mem) (o v : Z) : M mem := if in_page o 1 then mret (st8 b o v) else fault.
Definition wr16 (b : mem) (o v : Z) : M mem := if in_page o 2 then mret (st16 b o v) else fault.
Definition wr32 (b : mem) (o v : Z) : M mem := if in_page o 4 then mret (st32 b o v) else fault.

(** [n] bytes of [src] at [s] copied to [dst] at [d]. *)
Definition mblit (dst : mem) (d : Z) (src : mem) (s n : Z) : mem :=
  fun x => if (d <=? x) && (x <? d + n) then src (s + (x - d)) else dst x.

Definition mbytes (b : mem) (o n : Z) : list Z := (fun i => u8 (b (o + i))) <$> seqZ 0 n.

(** memcpy from and to a page; memset(b, 0, n). *)
Definition copy_out (b : mem) (o n : Z) : M (list Z) := if in_page o n then mret (mbytes b o n) else fault.
Definition copy_in (b : mem) (o : Z) (bs : list Z) : M mem :=
  if in_page o (len bs) then mret (mblit b o (bytes_at bs) 0 (len bs)) else fault.
Definition clear (b : mem) (n : Z) : M mem := if in_page 0 n then mret (mfill b 0 n 0) else fault.

Definition align4 (x : Z) : Z := Z.land (u32 (x + 3)) (2 ^ 32 - 4).

(** ** The block device *)

Definition next_fault (d : blkdev) : option bool * blkdev :=
  match faults d with
  | f :: l => (f, Blkdev (image d) (nsectors d) l)
  | [] => (None, d)
  end.

(** The result and the buffer. *)
Definition dev_read (lba cnt : Z) (b : mem) : M (Z * mem) := fun s =>
  if PAGE <? cnt * SECTOR then None
  else if nsectors (e_dev s) <? lba + cnt then Some ((- EINVAL, b), s)
  else let '(f, d) := next_fault (e_dev s) in
       match f with
       | Some _ => Some ((- EIO, b), set_dev d s)
       | None => Some ((0, mblit b 0 (image d) (lba * SECTOR) (cnt * SECTOR)), set_dev d s)
       end.

Definition put_sectors (d : blkdev) (lba cnt : Z) (b : mem) : blkdev :=
  Blkdev (mblit (image d) (lba * SECTOR) b 0 (cnt * SECTOR)) (nsectors d) (faults d).

Definition dev_write (lba cnt : Z) (b : mem) : M Z := fun s =>
  if PAGE <? cnt * SECTOR then None
  else if nsectors (e_dev s) <? lba + cnt then Some (- EINVAL, s)
  else let '(f, d) := next_fault (e_dev s) in
       match f with
       | Some w => Some (- EIO, set_dev (if w then put_sectors d lba cnt b else d) s)
       | None => Some (0, set_dev (put_sectors d lba cnt b) s)
       end.

Definition bread (fs : ext2_fs) (blk : Z) (dst : mem) : M (Z * mem) := dev_read (blk * spb fs) (spb fs) dst.
Definition bwrite (fs : ext2_fs) (blk : Z) (src : mem) : M Z := dev_write (blk * spb fs) (spb fs) src.

(** * Inodes *)

(** The block of the inode table and the offset in it of inode [ino]. *)
Definition inode_at (fs : ext2_fs) (ino itable : Z) : Z * Z :=
  let idx := (ino - 1) mod inodes_per_group fs in
  let in_byte := u32 (idx * inode_size fs) in
  (u32 (itable + in_byte / block_size fs), in_byte mod block_size fs).

(** The block of the descriptor table and the offset in it of group [g]'s field. *)
Definition gd_at (fs : ext2_fs) (g off : Z) : Z * Z :=
  let byte := u32 (g * 32 + off) in
  (u32 (gdt_block fs + byte / block_size fs), byte mod block_size fs).

Definition read_inode (fs : ext2_fs) (ino : Z) : M (Z + ext2_vinfo) :=
  if ino =? 0 then mret (inl (- EINVAL)) else
  with_page (inl (- ENOMEM)) (fun blk =>
    let '(gb, go) := gd_at fs ((ino - 1) / inodes_per_group fs) 0 in
    '(rc, blk) ← bread fs gb blk;
    if negb (rc =? 0) then mret (inl (- EIO)) else
    itable ← rd32 blk (go + 8);
    let '(ib, o) := inode_at fs ino itable in
    '(rc, blk) ← bread fs ib blk;
    if negb (rc =? 0) then mret (inl (- EIO)) else
    mode ← rd16 blk (o + 0);
    size ← rd32 blk (o + 4);
    links ← rd16 blk (o + 26);
    blocks ← rd32 blk (o + 28);
    map ← mapM (fun i => rd32 blk (o + 40 + i * 4)) (seqZ 0 15);
    mret (inr (Vinfo (fs_self fs) ino size mode links blocks map 0))).

(** * Block maps *)

(** [per^(level-1)]. *)
Fixpoint span_of (per : Z) (level : nat) : Z :=
  match level with S (S _ as l) => u32 (span_of per l * per) | _ => 1 end.

Fixpoint map_indirect (fs : ext2_fs) (level : nat) (ptr_blk idx : Z) : M Z :=
  if ptr_blk =? 0 then mret 0 else
  with_page 0 (fun blk =>
    '(rc, blk) ← bread fs ptr_blk blk;
    if negb (rc =? 0) then mret 0 else
    match level with
    | O => fault
    | S O => rd32 blk (idx * 4)
    | S (S _ as l) =>
        let span := span_of (block_size fs / 4) level in
        child ← rd32 blk (idx / span * 4);
        map_indirect fs l child (idx mod span)
    end).

Definition map_block (fs : ext2_fs) (vi : ext2_vinfo) (fblk : Z) : M Z :=
  if fblk <? EXT2_NDIR then mret (blk_slot vi fblk) else
  let per := block_size fs / 4 in
  let fblk := fblk - EXT2_NDIR in
  if fblk <? per then map_indirect fs 1 (blk_slot vi EXT2_IND) fblk else
  let fblk := fblk - per in
  if fblk <? per * per then map_indirect fs 2 (blk_slot vi EXT2_DIND) fblk else
  let fblk := fblk - per * per in
  if fblk <? per * per * per then map_indirect fs 3 (blk_slot vi EXT2_TIND) fblk else
  mret 0.

(** * Vnodes *)

Definition is_dir_mode (mode : Z) : bool := Z.land mode EXT2_S_IFMT =? EXT2_S_IFDIR.

(** The vnode, 0 for NULL. *)
Definition make_vnode (fa ino : Z) : M Z :=
  vi ← kcalloc;
  if vi =? 0 then mret 0 else
  fs ← obj e_fss fa;
  r ← read_inode fs ino;
  match r with
  | inl _ => mret 0
  | inr i =>
      vn ← kcalloc;
      if vn =? 0 then mret 0 else
      put_vn vn (Vnode (if is_dir_mode (vi_mode i) then VNODE_DIR else VNODE_REG) EXT2_OPS vi (vi_size i) 0
                       (Z.land (vi_mode i) 4095) 0) ;;
      put_vi vi (with_vi_gc_next (gc_head fs) i) ;;
      put_fs fa (with_gc_head vn fs) ;;
      mret vn
  end.

(** * Reading *)

(** [done < n], one block at a time; the result and the bytes stored. *)
Fixpoint read_loop (fuel : nat) (fs : ext2_fs) (vi : ext2_vinfo) (blk : mem) (n off : Z) (acc : list Z)
    : M (Z * list Z) :=
  let done := len acc in
  if n <=? done then mret (done, acc) else
  match fuel with
  | O => fault
  | S fuel =>
      let fpos := u64 (off + done) in
      let fblk := u32 (fpos / block_size fs) in
      let boff := fpos mod block_size fs in
      let chunk := Z.min (block_size fs - boff) (n - done) in
      disk ← map_block fs vi fblk;
      if disk =? 0 then read_loop fuel fs vi blk n off (acc ++ replicate (Z.to_nat chunk) 0) else
      '(rc, blk) ← bread fs disk blk;
      if negb (rc =? 0) then mret (if done =? 0 then - EIO else done, acc) else
      bs ← copy_out blk boff chunk;
      read_loop fuel fs vi blk n off (acc ++ bs)
  end.

Definition ext2_read (vn n off : Z) : M (Z * list Z) :=
  v ← obj e_vns vn;
  if v_priv v =? 0 then mret (- EINVAL, []) else
  vi ← obj e_vis (v_priv v);
  if vi_size vi <=? off then mret (0, []) else
  let n := if vi_size vi <? u64 (off + n) then vi_size vi - off else n in
  fs ← obj e_fss (vi_fs vi);
  with_page (- ENOMEM, []) (fun blk => read_loop (Z.to_nat n) fs vi blk n off []).

(** * Directories *)

Record hit := Hit { h_ino : Z; h_ftype : Z; h_name : list Z }.

(** memcmp(b + o, name, nlen) == 0: it stops at the first difference. *)
Fixpoint memeq (b : mem) (o : Z) (name : list Z) : M bool :=
  match name with
  | [] => mret true
  | c :: l => x ← rd8 b o; if x =? c then memeq b (o + 1) l else mret false
  end.

(** The records of one block from offset [o]; [seen] counts the listable ones.
    [inr] is the count when the entry sought is not in the block. *)
Fixpoint walk_block (fuel : nat) (fs : ext2_fs) (blk : mem) (want : option (list Z)) (index cap : Z)
    (all : bool) (o seen : Z) : M (hit + Z) :=
  if block_size fs <? o + 8 then mret (inr seen) else
  match fuel with
  | O => fault
  | S fuel =>
      ino ← rd32 blk o;
      rlen ← rd16 blk (o + 4);
      nlen ← rd8 blk (o + 6);
      ftype ← rd8 blk (o + 7);
      if (rlen <? 8) || (block_size fs <? o + rlen) || (rlen <? 8 + nlen) then mret (inr seen) else
      if negb (ino =? 0) && negb (nlen =? 0) then
        match want with
        | Some w =>
            same ← (if nlen =? len w then memeq blk (o + 8) w else mret false);
            if (same : bool) then mret (inl (Hit ino ftype []))
            else walk_block fuel fs blk want index cap all (o + rlen) seen
        | None =>
            if all || (nlen <=? VFS_NAME_MAX) then
              if seen =? index then
                let k := if cap <? nlen + 1 then (if cap =? 0 then 0 else cap - 1) else nlen in
                name ← copy_out blk (o + 8) k;
                mret (inl (Hit ino ftype name))
              else walk_block fuel fs blk want index cap all (o + rlen) (u32 (seen + 1))
            else walk_block fuel fs blk want index cap all (o + rlen) seen
        end
      else walk_block fuel fs blk want index cap all (o + rlen) seen
  end.

(** Blocks [b], [b + 1], ..., [n] of them. *)
Fixpoint walk_blocks (n : nat) (fs : ext2_fs) (vi : ext2_vinfo) (blk : mem) (want : option (list Z))
    (index cap : Z) (all : bool) (b seen : Z) : M (option hit) :=
  match n with
  | O => mret None
  | S n =>
      disk ← map_block fs vi b;
      if disk =? 0 then walk_blocks n fs vi blk want index cap all (b + 1) seen else
      '(rc, blk) ← bread fs disk blk;
      if negb (rc =? 0) then walk_blocks n fs vi blk want index cap all (b + 1) seen else
      r ← walk_block (Z.to_nat (block_size fs)) fs blk want index cap all 0 seen;
      match r with
      | inl h => mret (Some h)
      | inr seen => walk_blocks n fs vi blk want index cap all (b + 1) seen
      end
  end.

Definition dir_blocks (fs : ext2_fs) (vi : ext2_vinfo) : Z :=
  u32 (vi_size vi + block_size fs - 1) / block_size fs.

(** [None]: -1. *)
Definition dir_walk (dir : Z) (want : option (list Z)) (index cap : Z) (all : bool) : M (option hit) :=
  d ← obj e_vns dir;
  if (v_priv d =? 0) || negb (is_type VNODE_DIR d) then mret None else
  vi ← obj e_vis (v_priv d);
  fs ← obj e_fss (vi_fs vi);
  with_page None (fun blk => walk_blocks (Z.to_nat (dir_blocks fs vi)) fs vi blk want index cap all 0 0).

Definition ext2_lookup (dir : Z) (name : list Z) : M Z :=
  r ← dir_walk dir (Some name) 0 0 false;
  match r with
  | None => mret 0
  | Some h =>
      d ← obj e_vns dir;
      vi ← obj e_vis (v_priv d);
      make_vnode (vi_fs vi) (h_ino h)
  end.

Definition ext2_readdir (dir index cap : Z) : M (Z * list Z) :=
  r ← dir_walk dir None index cap false;
  mret (match r with None => (-1, []) | Some h => (0, h_name h) end).

(** * Writing inodes, bitmaps and counters *)

Fixpoint wr_map (blk : mem) (o : Z) (l : list Z) : M mem :=
  match l with
  | [] => mret blk
  | x :: l => blk ← wr32 blk o x; wr_map blk (o + 4) l
  end.

Definition write_inode (fs : ext2_fs) (vi : ext2_vinfo) : M Z :=
  with_page (- ENOMEM) (fun blk =>
    let '(gb, go) := gd_at fs ((vi_ino vi - 1) / inodes_per_group fs) 0 in
    '(rc, blk) ← bread fs gb blk;
    if negb (rc =? 0) then mret (- EIO) else
    itable ← rd32 blk (go + 8);
    let '(ib, o) := inode_at fs (vi_ino vi) itable in
    '(rc, blk) ← bread fs ib blk;
    if negb (rc =? 0) then mret (- EIO) else
    blk ← wr16 blk (o + 0) (vi_mode vi);
    blk ← wr32 blk (o + 4) (vi_size vi);
    blk ← wr16 blk (o + 26) (vi_links vi);
    blk ← wr32 blk (o + 28) (vi_blocks512 vi);
    blk ← wr_map blk (o + 40) (vi_block vi);
    bwrite fs ib blk).

(** The first clear bit of [n] bits from bit [i] on. *)
Fixpoint find_clear (n : nat) (bm : mem) (i : Z) : M (option Z) :=
  match n with
  | O => mret None
  | S n =>
      x ← rd8 bm (i / 8);
      if Z.testbit x (i mod 8) then find_clear n bm (i + 1) else mret (Some i)
  end.

(** The bit, or -1. *)
Definition bitmap_alloc (fs : ext2_fs) (bmp_block limit : Z) : M Z :=
  with_page (-1) (fun bm =>
    '(rc, bm) ← bread fs bmp_block bm;
    if negb (rc =? 0) then mret (-1) else
    r ← find_clear (Z.to_nat limit) bm 0;
    match r with
    | None => mret (-1)
    | Some i =>
        x ← rd8 bm (i / 8);
        bm ← wr8 bm (i / 8) (Z.lor x (Z.shiftl 1 (i mod 8)));
        rc ← bwrite fs bmp_block bm;
        mret (if rc =? 0 then i else -1)
    end).

Definition group_count (fs : ext2_fs) : Z :=
  u32 (blocks_count fs - first_data_block fs + blocks_per_group fs - 1) / blocks_per_group fs.

Definition gd_read32 (fs : ext2_fs) (g off : Z) : M Z :=
  with_page 0 (fun b =>
    let '(gb, go) := gd_at fs g off in
    '(rc, b) ← bread fs gb b;
    if negb (rc =? 0) then mret 0 else rd32 b go).

(** [up]: the delta is +1 rather than -1. *)
Definition step_count (up : bool) (v : Z) : option Z :=
  if up then Some (v + 1) else if v =? 0 then None else Some (v - 1).

Definition adj_free_counts (fs : ext2_fs) (g gd_off16 sb_off32 : Z) (up : bool) : M unit :=
  with_page tt (fun b =>
    let '(gdblk, o) := gd_at fs g gd_off16 in
    '(rc, b) ← bread fs gdblk b;
    b ← (if negb (rc =? 0) then mret b else
         v ← rd16 b o;
         b ← (match step_count up v with Some v => wr16 b o v | None => mret b end);
         _ ← bwrite fs gdblk b;
         mret b);
    '(rc, b) ← dev_read 2 2 b;
    if negb (rc =? 0) then mret tt else
    v ← rd32 b sb_off32;
    b ← (match step_count up v with Some v => wr32 b sb_off32 v | None => mret b end);
    _ ← dev_write 2 2 b;
    mret tt).

(** The bits of group [g]'s block bitmap: the last group is short. *)
Definition group_base (fs : ext2_fs) (g : Z) : Z := u32 (first_data_block fs + g * blocks_per_group fs).
Definition group_limit (fs : ext2_fs) (g : Z) : Z :=
  let base := group_base fs g in
  let limit := blocks_per_group fs in
  let limit := if blocks_count fs <? u32 (base + limit) then u32 (blocks_count fs - base) else limit in
  if block_size fs * 8 <? limit then block_size fs * 8 else limit.

(** [if (z) { memset(z, 0, block_size); bwrite(fs, bn, z); }]. *)
Definition zero_block (fs : ext2_fs) (bn : Z) : M unit :=
  with_page tt (fun z => z ← clear z (block_size fs); _ ← bwrite fs bn z; mret tt).

(** Groups [g], [g + 1], ..., [n] of them; the block, 0 when all are full. *)
Fixpoint alloc_block_from (n : nat) (fs : ext2_fs) (g : Z) : M Z :=
  match n with
  | O => mret 0
  | S n =>
      bbmp ← gd_read32 fs g 0;
      if bbmp =? 0 then alloc_block_from n fs (g + 1) else
      bit ← bitmap_alloc fs bbmp (group_limit fs g);
      if bit <? 0 then alloc_block_from n fs (g + 1) else
      let bn := u32 (group_base fs g + bit) in
      zero_block fs bn ;;
      adj_free_counts fs g 12 12 false ;;
      mret bn
  end.
Definition alloc_block (fs : ext2_fs) : M Z := alloc_block_from (Z.to_nat (group_count fs)) fs 0.

Fixpoint alloc_inode_from (n : nat) (fs : ext2_fs) (g : Z) : M Z :=
  match n with
  | O => mret 0
  | S n =>
      ibmp ← gd_read32 fs g 4;
      if ibmp =? 0 then alloc_inode_from n fs (g + 1) else
      let limit := inodes_per_group fs in
      let limit := if block_size fs * 8 <? limit then block_size fs * 8 else limit in
      bit ← bitmap_alloc fs ibmp limit;
      if bit <? 0 then alloc_inode_from n fs (g + 1) else
      let ino := u32 (g * inodes_per_group fs + bit + 1) in
      if inodes_count fs <? ino then mret 0 else
      adj_free_counts fs g 14 16 false ;;
      mret ino
  end.
Definition alloc_inode (fs : ext2_fs) : M Z := alloc_inode_from (Z.to_nat (group_count fs)) fs 0.

Definition bitmap_free (fs : ext2_fs) (bmp_block bit : Z) : M unit :=
  with_page tt (fun bm =>
    '(rc, bm) ← bread fs bmp_block bm;
    if negb (rc =? 0) then mret tt else
    x ← rd8 bm (bit / 8);
    bm ← wr8 bm (bit / 8) (Z.ldiff x (Z.shiftl 1 (bit mod 8)));
    _ ← bwrite fs bmp_block bm;
    mret tt).

Definition free_block (fs : ext2_fs) (bn : Z) : M unit :=
  if bn <? first_data_block fs then mret tt else
  let rel := bn - first_data_block fs in
  let g := rel / blocks_per_group fs in
  let bit := rel mod blocks_per_group fs in
  bbmp ← gd_read32 fs g 0;
  if bbmp =? 0 then mret tt else
  bitmap_free fs bbmp bit ;;
  adj_free_counts fs g 12 12 true.

Definition free_inode_num (fs : ext2_fs) (ino : Z) : M unit :=
  if ino =? 0 then mret tt else
  let g := (ino - 1) / inodes_per_group fs in
  let bit := (ino - 1) mod inodes_per_group fs in
  ibmp ← gd_read32 fs g 4;
  if ibmp =? 0 then mret tt else
  bitmap_free fs ibmp bit ;;
  adj_free_counts fs g 14 16 true.

(** * Freeing the blocks of a file *)

(** Data pointers [i], ..., [n] of them; the page, [i_blocks] and whether the page
    changed. *)
Fixpoint free_leaves (n : nat) (fs : ext2_fs) (b : mem) (i b512 : Z) (dirty : bool) : M (mem * Z * bool) :=
  match n with
  | O => mret (b, b512, dirty)
  | S n =>
      d ← rd32 b (i * 4);
      if d =? 0 then free_leaves n fs b (i + 1) b512 dirty else
      free_block fs d ;;
      b ← wr32 b (i * 4) 0;
      free_leaves n fs b (i + 1) (u32 (b512 - spb fs)) true
  end.

(** Child pointers [s], ..., [n] of them; [rec] frees a child from an index on. *)
Fixpoint free_children (rec : Z -> Z -> Z -> M (Z * Z)) (span start : Z) (n : nat) (b : mem) (s b512 : Z)
    (dirty : bool) : M (mem * Z * bool) :=
  match n with
  | O => mret (b, b512, dirty)
  | S n =>
      child ← rd32 b (s * 4);
      if child =? 0 then free_children rec span start n b (s + 1) b512 dirty else
      let base := s * span in
      if start <=? base then
        '(_, b512) ← rec child 0 b512;
        b ← wr32 b (s * 4) 0;
        free_children rec span start n b (s + 1) b512 true
      else if start <? base + span then
        '(_, b512) ← rec child (start - base) b512;
        free_children rec span start n b (s + 1) b512 dirty
      else free_children rec span start n b (s + 1) b512 dirty
  end.

(** [*rootp] and [i_blocks] afterwards. *)
Fixpoint free_indirect_from (fs : ext2_fs) (level : nat) (root start b512 : Z) : M (Z * Z) :=
  if root =? 0 then mret (root, b512) else
  let per := block_size fs / 4 in
  with_page (root, b512) (fun b =>
    '(rc, b) ← bread fs root b;
    '(b, b512, dirty) ←
      (if negb (rc =? 0) then mret (b, b512, false) else
       match level with
       | O => fault
       | S O => free_leaves (Z.to_nat (per - start)) fs b start b512 false
       | S (S _ as l) =>
           free_children (fun c st n => free_indirect_from fs l c st n) (span_of per level) start (Z.to_nat per)
             b 0 b512 false
       end);
    if start =? 0 then free_block fs root ;; mret (0, u32 (b512 - spb fs)) else
    if (dirty : bool) then _ ← bwrite fs root b; mret (root, b512) else mret (root, b512)).

(** Direct slots [b], ..., [n] of them. *)
Fixpoint free_direct (n : nat) (fs : ext2_fs) (vi : ext2_vinfo) (b : Z) : M ext2_vinfo :=
  match n with
  | O => mret vi
  | S n =>
      if blk_slot vi b =? 0 then free_direct n fs vi (b + 1) else
      free_block fs (blk_slot vi b) ;;
      free_direct n fs (with_vi_slot b 0 (u32 (vi_blocks512 vi - spb fs)) vi) (b + 1)
  end.

(** free_indirect_from on the slot [k] of the inode, the first block of whose
    region is [base]. *)
Definition free_region (fs : ext2_fs) (level : nat) (k base from : Z) (vi : ext2_vinfo) : M ext2_vinfo :=
  '(root, b512) ← free_indirect_from fs level (blk_slot vi k) (if from <=? base then 0 else from - base)
                    (vi_blocks512 vi);
  mret (with_vi_slot k root b512 vi).

Definition free_from (fs : ext2_fs) (vi : ext2_vinfo) (from : Z) : M ext2_vinfo :=
  let per := block_size fs / 4 in
  vi ← free_direct (Z.to_nat (EXT2_NDIR - from)) fs vi from;
  let ibase := EXT2_NDIR in
  vi ← (if from <? ibase + per then free_region fs 1 EXT2_IND ibase from vi else mret vi);
  let dbase := ibase + per in
  vi ← (if from <? dbase + per * per then free_region fs 2 EXT2_DIND dbase from vi else mret vi);
  let tbase := dbase + per * per in
  free_region fs 3 EXT2_TIND tbase from vi.

(** * Allocating the blocks of a file *)

(** The data block (0 on failure), [*rootp] and [i_blocks] afterwards. *)
Fixpoint alloc_indirect (fs : ext2_fs) (level : nat) (root idx b512 : Z) : M (Z * Z * Z) :=
  '(root, b512) ← (if root =? 0 then
                     nb ← alloc_block fs;
                     mret (if nb =? 0 then (0, b512) else (nb, u32 (b512 + spb fs)))
                   else mret (root, b512));
  if root =? 0 then mret (0, root, b512) else
  match level with
  | O => fault
  | S O =>
      data ← alloc_block fs;
      if data =? 0 then mret (0, root, b512) else
      let b512 := u32 (b512 + spb fs) in
      ok ← with_page false (fun b =>
             '(rc, b) ← bread fs root b;
             if negb (rc =? 0) then mret false else
             b ← wr32 b (idx * 4) data;
             rc ← bwrite fs root b;
             mret (rc =? 0));
      mret (if (ok : bool) then data else 0, root, b512)
  | S (S _ as l) =>
      let span := span_of (block_size fs / 4) level in
      let slot := idx / span in
      with_page (0, root, b512) (fun b =>
        '(rc, b) ← bread fs root b;
        if negb (rc =? 0) then mret (0, root, b512) else
        child ← rd32 b (slot * 4);
        '(data, child', b512) ← alloc_indirect fs l child (idx mod span) b512;
        (if child' =? child then mret tt else
         b ← wr32 b (slot * 4) child'; _ ← bwrite fs root b; mret tt) ;;
        mret (data, root, b512))
  end.

(** alloc_indirect on the slot [k] of the inode. *)
Definition alloc_region (fs : ext2_fs) (level : nat) (k fblk : Z) (vi : ext2_vinfo) : M (Z * ext2_vinfo) :=
  '(data, root, b512) ← alloc_indirect fs level (blk_slot vi k) fblk (vi_blocks512 vi);
  mret (data, with_vi_slot k root b512 vi).

Definition alloc_file_block (fs : ext2_fs) (vi : ext2_vinfo) (fblk : Z) : M (Z * ext2_vinfo) :=
  if fblk <? EXT2_NDIR then
    b ← alloc_block fs;
    mret (if b =? 0 then (0, vi) else (b, with_vi_slot fblk b (u32 (vi_blocks512 vi + spb fs)) vi))
  else
  let per := block_size fs / 4 in
  let fblk := fblk - EXT2_NDIR in
  if fblk <? per then alloc_region fs 1 EXT2_IND fblk vi else
  let fblk := fblk - per in
  if fblk <? per * per then alloc_region fs 2 EXT2_DIND fblk vi else
  let fblk := fblk - per * per in
  if fblk <? per * per * per then alloc_region fs 3 EXT2_TIND fblk vi else
  mret (0, vi).

(** * Writing *)

(** How the loop of ext2_write ends. *)
Inductive wend := Wdone | Wfull | Wio.

Fixpoint write_loop (fuel : nat) (fs : ext2_fs) (vi : ext2_vinfo) (blk : mem) (bs : list Z) (off done : Z)
    : M (wend * Z * ext2_vinfo) :=
  let n := len bs in
  if n <=? done then mret (Wdone, done, vi) else
  match fuel with
  | O => fault
  | S fuel =>
      let fpos := u64 (off + done) in
      let fblk := u32 (fpos / block_size fs) in
      let boff := fpos mod block_size fs in
      let chunk := Z.min (block_size fs - boff) (n - done) in
      disk ← map_block fs vi fblk;
      '(disk, vi) ← (if disk =? 0 then alloc_file_block fs vi fblk else mret (disk, vi));
      if disk =? 0 then mret (Wfull, done, vi) else
      '(rc, blk) ← (if chunk <? block_size fs then bread fs disk blk
                    else blk ← clear blk (block_size fs); mret (0, blk));
      if negb (rc =? 0) then mret (Wio, done, vi) else
      blk ← copy_in blk boff (ztake chunk (zdrop done bs));
      rc ← bwrite fs disk blk;
      if negb (rc =? 0) then mret (Wio, done, vi) else
      write_loop fuel fs vi blk bs off (done + chunk)
  end.

Definition done_or (done err : Z) : Z := if done =? 0 then - err else done.

Definition ext2_write (vn : Z) (bs : list Z) (off : Z) : M Z :=
  v ← obj e_vns vn;
  let a := v_priv v in
  if a =? 0 then mret (- EINVAL) else
  vi ← obj e_vis a;
  fs ← obj e_fss (vi_fs vi);
  r ← with_page None (fun blk => r ← write_loop (Z.to_nat (len bs)) fs vi blk bs off 0; mret (Some r));
  match r with
  | None => mret (- ENOMEM)
  | Some (Wfull, done, vi) => put_vi a vi ;; _ ← write_inode fs vi; mret (done_or done ENOSPC)
  | Some (Wio, done, vi) => put_vi a vi ;; mret (done_or done EIO)
  | Some (Wdone, done, vi) =>
      let e := u64 (off + len bs) in
      vi ← (if vi_size vi <? e then
              put_vn vn (with_size (u32 e) v) ;; mret (with_vi_size (u32 e) vi)
            else mret vi);
      put_vi a vi ;;
      _ ← write_inode fs vi;
      mret done
  end.

Definition ext2_chmod (vn mode : Z) : M Z :=
  v ← obj e_vns vn;
  let a := v_priv v in
  if a =? 0 then mret (- EINVAL) else
  vi ← obj e_vis a;
  let vi := with_vi_mode (u16 (Z.lor (Z.land (vi_mode vi) EXT2_S_IFMT) (Z.land mode 4095))) vi in
  put_vi a vi ;;
  fs ← obj e_fss (vi_fs vi);
  write_inode fs vi.

Definition ext2_truncate (vn n : Z) : M Z :=
  v ← obj e_vns vn;
  let a := v_priv v in
  if a =? 0 then mret (- EINVAL) else
  vi ← obj e_vis a;
  fs ← obj e_fss (vi_fs vi);
  vi ← (if n <? vi_size vi then free_from fs vi (u32 (u64 (n + block_size fs - 1) / block_size fs)) else mret vi);
  let vi := with_vi_size (u32 n) vi in
  put_vi a vi ;;
  put_vn vn (with_size n v) ;;
  write_inode fs vi.

(** * Changing directories *)

(** A record: inode, length, length and type of the name, and the name. *)
Definition wr_dirent (blk : mem) (o ino rlen ftype : Z) (name : list Z) : M mem :=
  blk ← wr32 blk o ino;
  blk ← wr16 blk (o + 4) rlen;
  blk ← wr8 blk (o + 6) (len name);
  blk ← wr8 blk (o + 7) ftype;
  copy_in blk (o + 8) name.

(** The block with the entry put where it fits first, if it fits. *)
Fixpoint add_in_block (fuel : nat) (fs : ext2_fs) (blk : mem) (ino ftype : Z) (name : list Z) (o : Z)
    : M (option mem) :=
  if block_size fs <? o + 8 then mret None else
  match fuel with
  | O => fault
  | S fuel =>
      e_ino ← rd32 blk o;
      rlen ← rd16 blk (o + 4);
      e_nl ← rd8 blk (o + 6);
      if (rlen <? 8) || (block_size fs <? o + rlen) then mret None else
      let need := align4 (8 + len name) in
      let ideal := if e_ino =? 0 then 0 else align4 (8 + e_nl) in
      if need <=? u32 (rlen - ideal) then
        blk ← (if e_ino =? 0 then wr_dirent blk o ino rlen ftype name
               else blk ← wr16 blk (o + 4) (u16 ideal);
                    wr_dirent blk (o + ideal) ino (u16 (rlen - ideal)) ftype name);
        mret (Some blk)
      else add_in_block fuel fs blk ino ftype name (o + rlen)
  end.

Fixpoint add_in_blocks (n : nat) (fs : ext2_fs) (vi : ext2_vinfo) (blk : mem) (ino ftype : Z) (name : list Z)
    (b : Z) : M (option Z) :=
  match n with
  | O => mret None
  | S n =>
      disk ← map_block fs vi b;
      if disk =? 0 then add_in_blocks n fs vi blk ino ftype name (b + 1) else
      '(rc, blk) ← bread fs disk blk;
      if negb (rc =? 0) then add_in_blocks n fs vi blk ino ftype name (b + 1) else
      r ← add_in_block (Z.to_nat (block_size fs)) fs blk ino ftype name 0;
      match r with
      | Some blk => rc ← bwrite fs disk blk; mret (Some rc)
      | None => add_in_blocks n fs vi blk ino ftype name (b + 1)
      end
  end.

(** A new last block with the entry; the result and the directory's inode. *)
Definition grow_dir (fs : ext2_fs) (vi : ext2_vinfo) (blk : mem) (ino ftype : Z) (name : list Z)
    : M (Z * ext2_vinfo) :=
  '(nb, vi) ← alloc_file_block fs vi (dir_blocks fs vi);
  if nb =? 0 then mret (- ENOSPC, vi) else
  blk ← clear blk (block_size fs);
  blk ← wr_dirent blk 0 ino (u16 (block_size fs)) ftype name;
  rc ← bwrite fs nb blk;
  mret (rc, vi).

Definition dir_add_entry (dir : Z) (name : list Z) (ino ftype : Z) : M Z :=
  d ← obj e_vns dir;
  let a := v_priv d in
  vi ← obj e_vis a;
  fs ← obj e_fss (vi_fs vi);
  r ← with_page (inl (- ENOMEM)) (fun blk =>
        r ← add_in_blocks (Z.to_nat (dir_blocks fs vi)) fs vi blk ino ftype name 0;
        match r with
        | Some rc => mret (inl rc)
        | None => '(rc, vi) ← grow_dir fs vi blk ino ftype name; mret (inr (rc, vi))
        end);
  match r with
  | inl rc => mret rc
  | inr (rc, vi) =>
      if negb (rc =? 0) then put_vi a vi ;; mret rc else
      let vi := with_vi_size (u32 (vi_size vi + block_size fs)) vi in
      put_vi a vi ;;
      put_vn dir (with_size (vi_size vi) d) ;;
      write_inode fs vi
  end.

(** The inode of the entry and the block without it. *)
Fixpoint remove_in_block (fuel : nat) (fs : ext2_fs) (blk : mem) (name : list Z) (prev : option Z) (o : Z)
    : M (option (Z * mem)) :=
  if block_size fs <? o + 8 then mret None else
  match fuel with
  | O => fault
  | S fuel =>
      e_ino ← rd32 blk o;
      rlen ← rd16 blk (o + 4);
      e_nl ← rd8 blk (o + 6);
      if (rlen <? 8) || (block_size fs <? o + rlen) then mret None else
      hit ← (if negb (e_ino =? 0) && (e_nl =? len name)
             then memeq blk (o + 8) name else mret false);
      if (hit : bool) then
        blk ← (match prev with
               | Some p => pl ← rd16 blk (p + 4); wr16 blk (p + 4) (u16 (pl + rlen))
               | None => wr32 blk o 0
               end);
        mret (Some (e_ino, blk))
      else remove_in_block fuel fs blk name (Some o) (o + rlen)
  end.

(** The result and the inode of the entry (0 when there is none). *)
Fixpoint remove_in_blocks (n : nat) (fs : ext2_fs) (vi : ext2_vinfo) (blk : mem) (name : list Z) (b : Z)
    : M (Z * Z) :=
  match n with
  | O => mret (- ENOENT, 0)
  | S n =>
      disk ← map_block fs vi b;
      if disk =? 0 then remove_in_blocks n fs vi blk name (b + 1) else
      '(rc, blk) ← bread fs disk blk;
      if negb (rc =? 0) then remove_in_blocks n fs vi blk name (b + 1) else
      r ← remove_in_block (Z.to_nat (block_size fs)) fs blk name None 0;
      match r with
      | Some (ino, blk) => rc ← bwrite fs disk blk; mret (rc, ino)
      | None => remove_in_blocks n fs vi blk name (b + 1)
      end
  end.

Definition dir_remove_entry (dir : Z) (name : list Z) : M (Z * Z) :=
  d ← obj e_vns dir;
  vi ← obj e_vis (v_priv d);
  fs ← obj e_fss (vi_fs vi);
  with_page (- ENOMEM, 0) (fun blk => remove_in_blocks (Z.to_nat (dir_blocks fs vi)) fs vi blk name 0).

(** [nm] up to its NUL is "." or "..". *)
Definition is_dots (nm : list Z) : bool :=
  let at_ k := default 0 (nm !! k) in
  (at_ 0%nat =? 46) && ((at_ 1%nat =? 0) || ((at_ 1%nat =? 46) && (at_ 2%nat =? 0))).

(** Every entry from the [idx]th on is "." or "..". *)
Fixpoint only_dots (fuel : nat) (dir idx : Z) (real : Z) : M bool :=
  match fuel with
  | O => fault
  | S fuel =>
      r ← dir_walk dir None idx 256 true;
      match r with
      | None => mret (real =? 0)
      | Some h => only_dots fuel dir (u32 (idx + 1)) (if is_dots (h_name h) then real else u32 (real + 1))
      end
  end.

(** [fuel]: more than the entries of the directory. *)
Definition dir_is_empty (fuel : nat) (dir : Z) : M bool := only_dots fuel dir 0 0.

(** * Creating, unlinking and renaming *)

(** memset(&nw, 0, ...) with the fields that are set. *)
Definition new_vinfo (fs : ext2_fs) (ino size mode links b512 blk0 : Z) : ext2_vinfo :=
  Vinfo (fs_self fs) ino size mode links b512 (blk0 :: replicate 14 0) 0.

(** The block of a new directory: "." and "..". *)
Definition dots_block (fs : ext2_fs) (blk : mem) (ino parent : Z) : M mem :=
  blk ← clear blk (block_size fs);
  blk ← wr32 blk 0 ino; blk ← wr16 blk 4 12; blk ← wr8 blk 6 1; blk ← wr8 blk 7 2; blk ← wr8 blk 8 46;
  blk ← wr32 blk 12 parent; blk ← wr16 blk 16 (u16 (block_size fs - 12));
  blk ← wr8 blk 18 2; blk ← wr8 blk 19 2; blk ← wr8 blk 20 46; wr8 blk 21 46.

Definition create_dir (fs : ext2_fs) (dir a : Z) (name : list Z) (ino parent : Z) : M Z :=
  dblk ← alloc_block fs;
  if dblk =? 0 then free_inode_num fs ino ;; mret 0 else
  ok ← with_page false (fun blk =>
         blk ← dots_block fs blk ino parent;
         rc ← bwrite fs dblk blk;
         mret (rc =? 0));
  if negb ok then free_block fs dblk ;; free_inode_num fs ino ;; mret 0 else
  rc ← write_inode fs (new_vinfo fs ino (block_size fs) 16877 2 (spb fs) dblk);
  if negb (rc =? 0) then mret 0 else
  rc ← dir_add_entry dir name ino 2;
  if negb (rc =? 0) then mret 0 else
  dvi ← obj e_vis a;
  let dvi := with_vi_links (u16 (vi_links dvi + 1)) dvi in
  put_vi a dvi ;;
  _ ← write_inode fs dvi;
  make_vnode (fs_self fs) ino.

Definition create_file (fs : ext2_fs) (dir : Z) (name : list Z) (ino : Z) : M Z :=
  rc ← write_inode fs (new_vinfo fs ino 0 33188 1 0 0);
  if negb (rc =? 0) then mret 0 else
  rc ← dir_add_entry dir name ino 1;
  if negb (rc =? 0) then mret 0 else
  make_vnode (fs_self fs) ino.

Definition ext2_create (dir : Z) (name : list Z) (t : vtype) : M Z :=
  d ← obj e_vns dir;
  let a := v_priv d in
  if (a =? 0) || negb (is_type VNODE_DIR d) then mret 0 else
  if negb (bool_decide (t = VNODE_REG)) && negb (bool_decide (t = VNODE_DIR)) then mret 0 else
  dvi ← obj e_vis a;
  fs ← obj e_fss (vi_fs dvi);
  ino ← alloc_inode fs;
  if ino =? 0 then mret 0 else
  if bool_decide (t = VNODE_DIR) then create_dir fs dir a name ino (vi_ino dvi)
  else create_file fs dir name ino.

(** Decremented unless it is 0. *)
Definition drop_link (v : ext2_vinfo) : ext2_vinfo :=
  if 0 <? vi_links v then with_vi_links (vi_links v - 1) v else v.

(** rmdir's check: the vnode made for it is freed. *)
Definition rmdir_check (fuel : nat) (fa ino : Z) : M Z :=
  cv ← make_vnode fa ino;
  if cv =? 0 then mret (- EIO) else
  empty ← dir_is_empty fuel cv;
  c ← obj e_vns cv;
  kfree_vi (v_priv c) ;;
  kfree_vn cv ;;
  mret (if (empty : bool) then 0 else - ENOTEMPTY).

Definition ext2_unlink (fuel : nat) (dir : Z) (name : list Z) : M Z :=
  d ← obj e_vns dir;
  let a := v_priv d in
  if (a =? 0) || negb (is_type VNODE_DIR d) then mret (- EINVAL) else
  dvi ← obj e_vis a;
  fs ← obj e_fss (vi_fs dvi);
  h ← dir_walk dir (Some name) 0 0 false;
  match h with
  | None => mret (- ENOENT)
  | Some h =>
      let ino := h_ino h in
      c ← read_inode fs ino;
      match c with
      | inl _ => mret (- EIO)
      | inr cvi =>
          let dir_p := is_dir_mode (vi_mode cvi) in
          rc ← (if dir_p then rmdir_check fuel (vi_fs dvi) ino else mret 0);
          if negb (rc =? 0) then mret rc else
          '(rc, _) ← dir_remove_entry dir name;
          if negb (rc =? 0) then mret rc else
          if dir_p then
            _ ← free_from fs cvi 0;
            free_inode_num fs ino ;;
            dvi ← obj e_vis a;
            put_vi a (drop_link dvi) ;;
            _ ← write_inode fs (drop_link dvi);
            mret 0
          else
            let cvi := drop_link cvi in
            (if vi_links cvi =? 0 then _ ← free_from fs cvi 0; free_inode_num fs ino
             else _ ← write_inode fs cvi; mret tt) ;;
            mret 0
      end
  end.

(** The ".." of a moved directory. *)
Definition set_dotdot (fs : ext2_fs) (blk0 parent : Z) : M unit :=
  with_page tt (fun blk =>
    '(rc, blk) ← bread fs blk0 blk;
    if negb (rc =? 0) then mret tt else
    blk ← wr32 blk 12 parent;
    _ ← bwrite fs blk0 blk;
    mret tt).

(** A cross-directory move of a directory: ".." and the parents' link counts. *)
Definition move_dir (fs : ext2_fs) (oa na : Z) (blk0 nino : Z) : M unit :=
  set_dotdot fs blk0 nino ;;
  ovi ← obj e_vis oa;
  put_vi oa (drop_link ovi) ;;
  _ ← write_inode fs (drop_link ovi);
  nvi ← obj e_vis na;
  let nvi := with_vi_links (u16 (vi_links nvi + 1)) nvi in
  put_vi na nvi ;;
  _ ← write_inode fs nvi;
  mret tt.

Definition ext2_rename (fuel : nat) (olddir : Z) (oldname : list Z) (newdir : Z) (newname : list Z) : M Z :=
  od ← obj e_vns olddir;
  nd ← obj e_vns newdir;
  let oa := v_priv od in
  let na := v_priv nd in
  if (oa =? 0) || (na =? 0) then mret (- EINVAL) else
  ovi ← obj e_vis oa;
  nvi ← obj e_vis na;
  if negb (vi_fs ovi =? vi_fs nvi) then mret (- EINVAL) else
  fs ← obj e_fss (vi_fs ovi);
  h ← dir_walk olddir (Some oldname) 0 0 false;
  match h with
  | None => mret (- ENOENT)
  | Some h =>
      let ino := h_ino h in
      c ← read_inode fs ino;
      match c with
      | inl _ => mret (- EIO)
      | inr cvi =>
          let is_dir := is_dir_mode (vi_mode cvi) in
          ex ← dir_walk newdir (Some newname) 0 0 false;
          rc ← (match ex with Some _ => ext2_unlink fuel newdir newname | None => mret 0 end);
          if negb (rc =? 0) then mret (- EEXIST) else
          rc ← dir_add_entry newdir newname ino (if is_dir then 2 else 1);
          if negb (rc =? 0) then mret (- ENOSPC) else
          '(rc, _) ← dir_remove_entry olddir oldname;
          if negb (rc =? 0) then mret (- EIO) else
          (if is_dir && negb (vi_ino ovi =? vi_ino nvi) then move_dir fs oa na (blk_slot cvi 0) (vi_ino nvi)
           else mret tt) ;;
          mret 0
      end
  end.

(** * Mounting *)

Definition ext2_geometry_ok (s_log_block_size blocks_per_group inodes_per_group : Z) : bool :=
  if 2 <? s_log_block_size then false
  else if (blocks_per_group =? 0) || (inodes_per_group =? 0) then false
  else true.

(** What the superblock in the page [sb] says, the block size still missing. *)
Definition read_super (fa : Z) (sb : mem) : M (ext2_fs * Z) :=
  log_bs ← rd32 sb 24;
  bc ← rd32 sb 4;
  ic ← rd32 sb 0;
  bpg ← rd32 sb 32;
  ipg ← rd32 sb 40;
  fdb ← rd32 sb 20;
  isz ← rd16 sb 88;
  mret (Ext2fs fa 0 0 ipg bpg ic bc (if isz =? 0 then 128 else isz) fdb (u32 (fdb + 1)) 0, log_bs).

Definition with_block_size (bs : Z) (f : ext2_fs) : ext2_fs :=
  Ext2fs (fs_self f) bs (bs / 512) (inodes_per_group f) (blocks_per_group f) (inodes_count f)
    (blocks_count f) (inode_size f) (first_data_block f) (gdt_block f) (gc_head f).

Definition ext2_mount_dev : M Z :=
  r ← with_page None (fun sb =>
        '(rc, sb) ← dev_read 2 2 sb;
        if negb (rc =? 0) then mret None else
        magic ← rd16 sb 56;
        if negb (magic =? EXT2_MAGIC) then mret None else
        fa ← kcalloc;
        if fa =? 0 then mret None else
        r ← read_super fa sb;
        mret (Some r));
  match r with
  | None => mret 0
  | Some (fs, log_bs) =>
      if negb (ext2_geometry_ok log_bs (blocks_per_group fs) (inodes_per_group fs)) then mret 0 else
      put_fs (fs_self fs) (with_block_size (Z.shiftl 1024 log_bs) fs) ;;
      root ← make_vnode (fs_self fs) EXT2_ROOT_INO;
      if root =? 0 then kfree_fs (fs_self fs) ;; mret 0 else mret root
  end.

Fixpoint unmount_loop (fuel : nat) (vn : Z) : M unit :=
  if vn =? 0 then mret tt else
  match fuel with
  | O => fault
  | S fuel =>
      v ← obj e_vns vn;
      vi ← obj e_vis (v_priv v);
      kfree_vi (v_priv v) ;;
      kfree_vn vn ;;
      unmount_loop fuel (vi_gc_next vi)
  end.

(** [fuel]: more than the vnodes of the volume. *)
Definition ext2_unmount (fuel : nat) (root : Z) : M unit :=
  if root =? 0 then mret tt else
  r ← obj e_vns root;
  if v_priv r =? 0 then mret tt else
  vi ← obj e_vis (v_priv r);
  fs ← obj e_fss (vi_fs vi);
  unmount_loop fuel (gc_head fs) ;;
  kfree_fs (vi_fs vi).

(** [dev]: the virtio disk of the unit. *)
Definition ext2_mount_unit (dev : blkdev) : M Z :=
  da ← kcalloc;
  if da =? 0 then mret 0 else
  modify (set_dev dev) ;;
  ext2_mount_dev.

(** [vfs_mount]: what vfs_mount(path, root) returns. *)
Fixpoint ext2_mount_any (units : list blkdev) (vfs_mount : Z -> Z) : M Z :=
  match units with
  | [] => mret (-1)
  | u :: units =>
      root ← ext2_mount_unit u;
      if root =? 0 then ext2_mount_any units vfs_mount
      else mret (if vfs_mount root =? 0 then 0 else -1)
  end.
