(* ===== verification/Ext2Safe.v ===== *)
(** The ext2 driver on an arbitrary disk: whatever the blocks hold and whichever
    requests fail, the operations below never leave their pages, never touch a
    freed object, end, and give back every page frame they took. *)

From stdpp Require Import base numbers option list gmap.
From Stdlib Require Import ZArith Lia.
From S2P Require Import Prelude Buf Tmpfs Ext2.

(** * Triples

    [spec R m Q]: from every state [m] ends without a fault in a state related by
    [R], with a result in [Q]. *)

Definition spec {A} (R : relation est) (m : M A) (Q : A -> Prop) : Prop :=
  forall s, exists a s', m s = Some (a, s') /\ R s s' /\ Q a.

(** Only the device changed, and its capacity did not. *)
Record dev_only (s s' : est) : Prop := {
  do_frames : e_frames s' = e_frames s;
  do_junk : e_junk s' = e_junk s;
  do_heap : e_heap s' = e_heap s;
  do_fss : e_fss s' = e_fss s;
  do_vis : e_vis s' = e_vis s;
  do_vns : e_vns s' = e_vns s;
  do_nsectors : nsectors (e_dev s') = nsectors (e_dev s)
}.

(** Not even the bytes on the disk. *)
Definition read_only (s s' : est) : Prop := dev_only s s' /\ image (e_dev s') = image (e_dev s).

(** A relation that a page taken and given back respects. *)
Class PageRel (R : relation est) : Prop := {
  page_preorder :: PreOrder R;
  page_bracket s s' n : R (set_frames (n - 1) s) s' -> e_frames s = n -> R s (set_frames (e_frames s' + 1) s')
}.

#[export] Instance dev_only_page : PageRel dev_only.
Proof.
  split; [split|].
  - by intros s.
  - intros s t u [] []. split; congruence.
  - intros s s' n [] <-. destruct s, s'. cbn in *. split; cbn; congruence || lia.
Qed.

#[export] Instance read_only_page : PageRel read_only.
Proof.
  split; [split|].
  - by split.
  - intros s t u [] []. split; [by etrans|congruence].
  - intros s s' n [H E] Hn. split; [by eapply page_bracket|done].
Qed.

Lemma read_only_dev s s' : read_only s s' -> dev_only s s'.
Proof. by intros []. Qed.

Lemma spec_weaken {A} (R R' : relation est) (m : M A) (Q Q' : A -> Prop) :
  (forall s s', R s s' -> R' s s') -> (forall a, Q a -> Q' a) -> spec R m Q -> spec R' m Q'.
Proof. intros HR HQ H s. destruct (H s) as (a & s1 & E & ? & ?). exists a, s1. auto. Qed.

Section Rules.
Context {R : relation est} `{!PageRel R}.

Lemma spec_ret {A} (a : A) (Q : A -> Prop) : Q a -> spec R (mret a) Q.
Proof. intros H s. exists a, s. by split_and!. Qed.

Lemma spec_bind {A B} (m : M A) (k : A -> M B) (P : A -> Prop) (Q : B -> Prop) :
  spec R m P -> (forall a, P a -> spec R (k a) Q) -> spec R (m ≫= k) Q.
Proof.
  intros Hm Hk s. destruct (Hm s) as (a & s1 & E1 & R1 & Pa). destruct (Hk a Pa s1) as (b & s2 & E2 & R2 & Qb).
  exists b, s2. split_and!; [|by etrans|done]. unfold mbind, M_bind. by rewrite E1.
Qed.

Lemma spec_page {A} (fail : A) (body : mem -> M A) (Q : A -> Prop) :
  Q fail -> (forall b, spec R (body b) Q) -> spec R (with_page fail body) Q.
Proof.
  intros Hf Hb s. unfold with_page, mbind, M_bind, blk_alloc. zif; [|by exists fail, s].
  destruct (Hb (e_junk s) (set_frames (e_frames s - 1) s)) as (a & s' & E & Hr & Qa). rewrite E.
  exists a, (set_frames (e_frames s' + 1) s'). split_and!; [done| |done]. by eapply page_bracket.
Qed.

Lemma spec_rd8 b o : 0 <= o -> o + 1 <= PAGE -> spec R (rd8 b o) (fun v => 0 <= v < 2 ^ 8).
Proof. intros. unfold rd8, in_page. zif; [|lia]. apply spec_ret, ld8_range. Qed.

Lemma spec_rd16 b o : 0 <= o -> o + 2 <= PAGE -> spec R (rd16 b o) (fun v => 0 <= v < 2 ^ 16).
Proof. intros. unfold rd16, in_page. zif; [|lia]. apply spec_ret, (ld_range 2). Qed.

Lemma spec_rd32 b o : 0 <= o -> o + 4 <= PAGE -> spec R (rd32 b o) (fun v => 0 <= v < 2 ^ 32).
Proof. intros. unfold rd32, in_page. zif; [|lia]. apply spec_ret, ld32_range. Qed.

Lemma spec_copy_out b o n : 0 <= o -> 0 <= n -> o + n <= PAGE -> spec R (copy_out b o n) (fun l => len l = n).
Proof.
  intros. unfold copy_out, in_page. zif; [|lia]. apply spec_ret. unfold mbytes, len.
  rewrite length_fmap, length_seqZ. lia.
Qed.

Lemma spec_mapM {A B} (f : A -> M B) (P : B -> Prop) l :
  (forall x, x ∈ l -> spec R (f x) P) -> spec R (mapM f l) (fun r => length r = length l /\ Forall P r).
Proof.
  induction l as [|x l IH]; intros H; cbn [mapM]; [by apply spec_ret|].
  eapply spec_bind; [apply H; set_solver|]. intros a Ha.
  eapply spec_bind; [apply IH; intros; apply H; set_solver|]. intros r [Hl Hr]. apply spec_ret.
  split; [cbn; by rewrite Hl|by constructor].
Qed.

Lemma spec_memeq b o name : 0 <= o -> o + len name <= PAGE -> spec R (memeq b o name) (fun _ => True).
Proof.
  revert o. induction name as [|c l IH]; intros o Ho Hl; cbn [memeq]; [by apply spec_ret|].
  rewrite len_cons in Hl. pose proof (len_nonneg l).
  eapply spec_bind; [apply spec_rd8; lia|]. intros x _. case_match; [apply IH; lia|by apply spec_ret].
Qed.

End Rules.

Create HintDb spec.
#[export] Hint Resolve spec_ret : spec.

(** One step of a program: the read or the call in front is discharged. *)
Ltac sstep :=
  eapply spec_bind;
  [first [apply spec_rd32; lia | apply spec_rd16; lia | apply spec_rd8; lia | solve [eauto with spec]]|cbn beta].
Tactic Notation "sbind" uconstr(t) := eapply spec_bind; [apply t; lia|cbn beta].

(** * Geometry *)

(** What ext2_geometry_ok checks, and the two things it does not: inodes that fill
    whole parts of a block, and groups whose bitmap fits in one. *)
Record geom_ok (fs : ext2_fs) : Prop := {
  g_bs : block_size fs = 1024 \/ block_size fs = 2048 \/ block_size fs = 4096;
  g_spb : spb fs = block_size fs / 512;
  g_ipg : 0 < inodes_per_group fs <= 8 * block_size fs;
  g_bpg : 0 < blocks_per_group fs <= 8 * block_size fs;
  g_isz : 128 <= inode_size fs /\ (inode_size fs | block_size fs)
}.

Lemma g_bs_bound fs : geom_ok fs -> 1024 <= block_size fs <= PAGE.
Proof. intros []. unfold PAGE. lia. Qed.

Lemma g_spb_bound fs : geom_ok fs -> 0 < spb fs /\ spb fs * SECTOR = block_size fs.
Proof.
  intros [Hb -> _ _ _]. unfold SECTOR. destruct Hb as [->|[->| ->]]; vm_compute; by split.
Qed.

Lemma g_bs_div fs : geom_ok fs -> (block_size fs | 2 ^ 32) /\ (32 | block_size fs).
Proof.
  intros [Hb _ _ _ _]. destruct Hb as [->|[->| ->]]; split.
  - by exists 4194304. - by exists 32. - by exists 2097152. - by exists 64. - by exists 1048576. - by exists 128.
Qed.

Lemma mod_u32 x d : 0 < d -> (d | 2 ^ 32) -> u32 x mod d = x mod d.
Proof. intros Hd H. unfold u32. by apply Z.mod_mod_divide. Qed.

(** A multiple of [d] modulo a multiple [m] of [d] leaves [d] bytes before [m]. *)
Lemma mod_slot x d m : 0 < d -> 0 < m -> (d | m) -> (d | x) -> 0 <= x mod m /\ x mod m + d <= m.
Proof.
  intros Hd Hm [k ->] [j ->]. assert (0 < k) by nia.
  rewrite Zmult_mod_distr_r. pose proof (Z.mod_pos_bound j k ltac:(lia)). nia.
Qed.

Lemma gd_at_bound fs g off : geom_ok fs -> 0 <= off < 32 ->
  0 <= (gd_at fs g off).2 - off /\ (gd_at fs g off).2 - off + 32 <= block_size fs.
Proof.
  intros G Ho. unfold gd_at. cbn [snd]. pose proof (g_bs_bound fs G). destruct (g_bs_div fs G) as [D1 D2].
  rewrite mod_u32 by (done || lia).
  assert (E : (g * 32 + off) mod block_size fs = g * 32 mod block_size fs + off).
  { destruct (mod_slot (g * 32) 32 (block_size fs)) as [H1 H2]; [lia..|done|by exists g|].
    rewrite <- Z.add_mod_idemp_l by lia. apply Z.mod_small. lia. }
  rewrite E. destruct (mod_slot (g * 32) 32 (block_size fs)); [lia..|done|by exists g|]. lia.
Qed.

Lemma inode_at_bound fs ino t : geom_ok fs ->
  0 <= (inode_at fs ino t).2 /\ (inode_at fs ino t).2 + 128 <= block_size fs.
Proof.
  intros G. unfold inode_at. cbn [snd]. destruct (g_isz fs G) as [H1 H2]. pose proof (g_bs_bound fs G).
  destruct (g_bs_div fs G) as [D1 _]. rewrite mod_u32 by (done || lia).
  destruct (mod_slot ((ino - 1) mod inodes_per_group fs * inode_size fs) (inode_size fs) (block_size fs));
    [lia..|done|by eexists|]. lia.
Qed.

(** * Reading *)

Section Read.
Context (fs : ext2_fs) (G : geom_ok fs).

Lemma next_fault_same d f d' : next_fault d = (f, d') -> image d' = image d /\ nsectors d' = nsectors d.
Proof. unfold next_fault. destruct (faults d); by intros [= <- <-]. Qed.

Lemma spec_dev_read lba cnt b : cnt * SECTOR <= PAGE -> spec read_only (dev_read lba cnt b) (fun _ => True).
Proof.
  intros H s. unfold dev_read. zif; [lia|]. zif; [by eexists _, _|].
  destruct (next_fault (e_dev s)) as [f d] eqn:E. apply next_fault_same in E as [E1 E2].
  destruct f; eexists _, _; (split_and!; [done| |done]); by split.
Qed.

Lemma spec_bread b blk : spec read_only (bread fs blk b) (fun _ => True).
Proof. apply spec_dev_read. pose proof (g_spb_bound fs G). pose proof (g_bs_bound fs G). lia. Qed.

#[local] Hint Resolve spec_bread : spec.

Lemma spec_read_inode ino :
  spec read_only (read_inode fs ino)
    (fun r => forall vi, r = inr vi -> vi_fs vi = fs_self fs /\ vi_ino vi = ino /\ 0 <= vi_size vi < 2 ^ 32 /\
                                       length (vi_block vi) = 15%nat).
Proof.
  unfold read_inode. case_match; [by apply spec_ret|]. apply spec_page; [done|]. intros b.
  pose proof (gd_at_bound fs ((ino - 1) / inodes_per_group fs) 0 G ltac:(lia)) as Hg.
  destruct (gd_at _ _ _) as [gb go]. cbn [snd] in Hg. pose proof (g_bs_bound fs G).
  sstep. intros [rc b1] _. case_match; [by apply spec_ret|].
  sstep. intros t _. pose proof (inode_at_bound fs ino t G) as Hi. destruct (inode_at _ _ _) as [ib o]. cbn [snd] in Hi.
  sstep. intros [rc2 b2] _. case_match; [by apply spec_ret|].
  sstep. intros mode _. sstep. intros size Hs. sstep. intros links _. sstep. intros blocks _.
  eapply spec_bind.
  { apply (spec_mapM _ (fun v => 0 <= v < 2 ^ 32)). intros i Hi'. apply elem_of_seqZ in Hi'. apply spec_rd32; lia. }
  intros map [Hm _]. apply spec_ret. intros vi [= <-]. by cbn.
Qed.

Lemma per_bound : 256 <= block_size fs / 4 <= 1024 /\ block_size fs / 4 * 4 = block_size fs.
Proof. destruct (g_bs fs G) as [->|[->| ->]]; vm_compute; intuition congruence. Qed.

Lemma span_of_pow l : (l <= 2)%nat -> span_of (block_size fs / 4) (S l) = (block_size fs / 4) ^ Z.of_nat l.
Proof.
  destruct per_bound as [Hp _]. set (per := block_size fs / 4) in *. clearbody per.
  intros Hl. assert (P2 : per * per <= 1024 * 1024) by nia.
  destruct l as [|[|[|]]]; [..|lia]; cbn [span_of].
  - done.
  - rewrite u32_small by lia. lia.
  - rewrite !u32_small by (rewrite ?u32_small; lia). lia.
Qed.

(** The child of an interior pointer block, and the index inside it. *)
Lemma child_index l idx : (l <= 1)%nat -> 0 <= idx < (block_size fs / 4) ^ Z.of_nat (S (S l)) ->
  let span := span_of (block_size fs / 4) (S (S l)) in
  0 <= idx / span < block_size fs / 4 /\ 0 <= idx mod span < (block_size fs / 4) ^ Z.of_nat (S l).
Proof.
  intros Hl Hi. cbv zeta. rewrite span_of_pow by lia. destruct per_bound as [Hp _].
  rewrite (Nat2Z.inj_succ (S l)), Z.pow_succ_r in Hi by lia.
  assert (0 < (block_size fs / 4) ^ Z.of_nat (S l)) by (apply Z.pow_pos_nonneg; lia). split.
  - split; [apply Z.div_pos; lia|]. apply Z.div_lt_upper_bound; [done|]. lia.
  - by apply Z.mod_pos_bound.
Qed.

Lemma spec_map_indirect l ptr idx : (l <= 2)%nat -> 0 <= idx < (block_size fs / 4) ^ Z.of_nat (S l) ->
  spec read_only (map_indirect fs (S l) ptr idx) (fun _ => True).
Proof.
  destruct per_bound as [Hp Hp4]. pose proof (g_bs_bound fs G).
  revert ptr idx. induction l as [|l IH]; intros ptr idx Hl Hi; cbn [map_indirect].
  all: case_match; [by apply spec_ret|]; apply spec_page; [done|]; intros b; sstep; intros [rc b1] _;
    case_match; [by apply spec_ret|].
  - change (Z.of_nat 1) with 1 in Hi. rewrite Z.pow_1_r in Hi.
    eapply spec_weaken; [done|done|apply spec_rd32; lia].
  - destruct (child_index l idx ltac:(lia) Hi) as [C1 C2]. sstep. intros c _. apply IH; [lia|done].
Qed.

Lemma spec_map_block vi fblk : 0 <= fblk -> spec read_only (map_block fs vi fblk) (fun _ => True).
Proof.
  intros Hf. unfold map_block, EXT2_NDIR. destruct per_bound as [Hp _].
  repeat (zif; [first [by apply spec_ret | apply spec_map_indirect; cbn -[Z.div]; lia]|]). by apply spec_ret.
Qed.
#[local] Hint Resolve spec_map_block : spec.

(** A chunk starts and ends in the block. *)
Lemma chunk_bound fpos left : 0 < left ->
  let boff := fpos mod block_size fs in let chunk := Z.min (block_size fs - boff) left in
  0 <= boff /\ 0 < chunk <= left /\ boff + chunk <= block_size fs.
Proof.
  intros Hl. cbv zeta. pose proof (g_bs_bound fs G).
  pose proof (Z.mod_pos_bound fpos (block_size fs) ltac:(lia)). lia.
Qed.

Lemma spec_read_loop fuel vi b n off acc : n - len acc <= Z.of_nat fuel -> 0 <= n ->
  spec read_only (read_loop fuel fs vi b n off acc) (fun r => len r.2 <= Z.max n (len acc) /\ (r.1 = - EIO \/ r.1 = len r.2)).
Proof.
  revert b acc. induction fuel as [|fuel IH]; intros b acc Hf Hn; cbn [read_loop].
  all: pose proof (len_nonneg acc); zif; [apply spec_ret; cbn; lia|]. 1: lia.
  pose proof (chunk_bound (u64 (off + len acc)) (n - len acc) ltac:(lia)) as (C1 & C2 & C3). cbv zeta in C1, C2, C3.
  set (boff := _ mod _) in *. set (chunk := Z.min _ _) in *. clearbody chunk boff. pose proof (g_bs_bound fs G).
  eapply spec_bind. { apply spec_map_block. pose proof (u32_range (u64 (off + len acc) / block_size fs)). lia. }
  intros disk _. case_match.
  - eapply spec_weaken; [done| |apply IH; rewrite ?len_app, ?replicate_len; lia].
    intros a. cbn beta. rewrite len_app, replicate_len by lia. lia.
  - sstep. intros [rc b1] _. case_match; [apply spec_ret; cbn; case_match; lia|].
    sbind spec_copy_out. intros bs Hbs.
    eapply spec_weaken; [done| |apply IH; rewrite ?len_app; lia].
    intros a. cbn beta. rewrite len_app. lia.
Qed.

Lemma spec_walk_block fuel b want index cap all o seen : 0 <= o -> block_size fs - o <= Z.of_nat fuel -> 0 <= cap ->
  spec read_only (walk_block fuel fs b want index cap all o seen)
    (fun r => forall h, r = inl h -> len (h_name h) <= Z.max 0 (cap - 1)).
Proof.
  pose proof (g_bs_bound fs G). revert b o seen. induction fuel as [|fuel IH]; intros b o seen Ho Hf Hc; cbn [walk_block].
  all: zif; [by apply spec_ret|]. 1: lia.
  sstep. intros ino _. sstep. intros rlen Hr. sstep. intros nlen Hn. sstep. intros ft _.
  destruct ((rlen <? 8) || (block_size fs <? o + rlen) || (rlen <? 8 + nlen)) eqn:E; [by apply spec_ret|].
  assert (8 + nlen <= rlen /\ o + rlen <= block_size fs) as [R1 R2] by lia.
  assert (Next : forall seen', spec read_only (walk_block fuel fs b want index cap all (o + rlen) seen')
    (fun r => forall h, r = inl h -> len (h_name h) <= Z.max 0 (cap - 1))) by (intros; apply IH; lia).
  case_match; [|apply Next]. destruct want as [w|].
  - eapply (spec_bind _ _ (fun _ => True)).
    { destruct (Z.eqb_spec nlen (len w)) as [Ew|]; [apply spec_memeq; lia|by apply spec_ret]. }
    intros [] _; [apply spec_ret; intros h [= <-]; apply Z.le_max_l|apply Next].
  - case_match; [|apply Next]. case_match; [|apply Next].
    set (k := if cap <? nlen + 1 then if cap =? 0 then 0 else cap - 1 else nlen).
    assert (Hk : 0 <= k <= nlen /\ k <= Z.max 0 (cap - 1)) by (subst k; repeat zif; lia). clearbody k.
    sbind spec_copy_out. intros name Hnm.
    apply spec_ret. intros h [= <-]. cbn. lia.
Qed.

Lemma spec_walk_blocks n vi b want index cap all i seen : 0 <= i -> 0 <= cap ->
  spec read_only (walk_blocks n fs vi b want index cap all i seen)
    (fun r => forall h, r = Some h -> len (h_name h) <= Z.max 0 (cap - 1)).
Proof.
  revert b i seen. induction n as [|n IH]; intros b i seen Hi Hc; cbn [walk_blocks]; [by apply spec_ret|].
  pose proof (g_bs_bound fs G).
  sstep. intros disk _. case_match; [apply IH; lia|]. sstep. intros [rc b1] _. case_match; [apply IH; lia|].
  sbind spec_walk_block. intros [h|k] Hr; [|apply IH; lia].
  apply spec_ret. intros h' [= <-]. by apply Hr.
Qed.
End Read.

(** * Writing *)

Lemma spec_ro {A} (m : M A) Q : spec read_only m Q -> spec dev_only m Q.
Proof. apply spec_weaken; [apply read_only_dev|done]. Qed.

Section WriteRules.
Context {R : relation est} `{!PageRel R}.

Lemma spec_wr8 b o v : 0 <= o -> o + 1 <= PAGE -> spec R (wr8 b o v) (fun _ => True).
Proof. intros. unfold wr8, in_page. zif; [|lia]. by apply spec_ret. Qed.

Lemma spec_wr16 b o v : 0 <= o -> o + 2 <= PAGE -> spec R (wr16 b o v) (fun _ => True).
Proof. intros. unfold wr16, in_page. zif; [|lia]. by apply spec_ret. Qed.

Lemma spec_wr32 b o v : 0 <= o -> o + 4 <= PAGE -> spec R (wr32 b o v) (fun _ => True).
Proof. intros. unfold wr32, in_page. zif; [|lia]. by apply spec_ret. Qed.

Lemma spec_copy_in b o bs : 0 <= o -> o + len bs <= PAGE -> spec R (copy_in b o bs) (fun _ => True).
Proof. intros. unfold copy_in, in_page. zif; [|lia]. by apply spec_ret. Qed.

Lemma spec_clear b n : n <= PAGE -> spec R (clear b n) (fun _ => True).
Proof. intros. unfold clear, in_page. zif; [|lia]. by apply spec_ret. Qed.

Lemma spec_wr_map b o l : 0 <= o -> o + 4 * len l <= PAGE -> spec R (wr_map b o l) (fun _ => True).
Proof.
  revert b o. induction l as [|x l IH]; intros b o Ho Hl; cbn [wr_map]; [by apply spec_ret|].
  rewrite len_cons in Hl. pose proof (len_nonneg l).
  eapply spec_bind; [apply spec_wr32; lia|]. intros b1 _. apply IH; lia.
Qed.

Lemma spec_find_clear n bm i : 0 <= i -> i + Z.of_nat n <= 8 * PAGE ->
  spec R (find_clear n bm i) (fun r => forall k, r = Some k -> i <= k < i + Z.of_nat n).
Proof.
  revert i. induction n as [|n IH]; intros i Hi Hn; cbn [find_clear]; [by apply spec_ret|].
  eapply spec_bind; [apply spec_rd8|].
  { apply Z.div_pos; lia. }
  { assert (i / 8 < PAGE) by (apply Z.div_lt_upper_bound; lia). lia. }
  intros x _. case_match.
  - eapply spec_weaken; [done| |apply IH; lia]. intros r Hr k Hk. specialize (Hr k Hk). lia.
  - apply spec_ret. intros k [= <-]. lia.
Qed.
End WriteRules.

(** A page access, a read or a call that is a hint. *)
Ltac wstep :=
  eapply spec_bind;
  [first [apply spec_rd32; lia | apply spec_rd16; lia | apply spec_rd8; lia
         | apply spec_wr32; lia | apply spec_wr16; lia | apply spec_wr8; lia | apply spec_clear; lia
         | solve [eauto with spec] | solve [apply spec_ro; eauto with spec]]|cbn beta].

(** The block map has its fifteen slots. *)
Definition slots (vi : ext2_vinfo) : Prop := length (vi_block vi) = 15%nat.

(** [w] is [v] but for what its slots and [i_blocks] hold. *)
Definition remap (v w : ext2_vinfo) : Prop :=
  length (vi_block w) = length (vi_block v) /\
  w = Vinfo (vi_fs v) (vi_ino v) (vi_size v) (vi_mode v) (vi_links v) (vi_blocks512 w) (vi_block w) (vi_gc_next v).

Lemma remap_refl v : remap v v.
Proof. by destruct v. Qed.

Lemma remap_trans u v w : remap u v -> remap v w -> remap u w.
Proof. intros [L1 E1] [L2 E2]. split; [congruence|]. rewrite E2, E1. done. Qed.

Lemma remap_slot k b n v : remap v (with_vi_slot k b n v).
Proof. split; [cbn; by rewrite length_insert|done]. Qed.

Lemma remap_slots v w : remap v w -> slots v -> slots w.
Proof. intros [L _]. unfold slots. congruence. Qed.
#[export] Hint Resolve remap_refl remap_trans remap_slot remap_slots : spec.

Section Write.
Context (fs : ext2_fs) (G : geom_ok fs).

#[local] Hint Resolve spec_bread spec_map_block spec_read_inode : spec.

Lemma spec_dev_write lba cnt b : cnt * SECTOR <= PAGE -> spec dev_only (dev_write lba cnt b) (fun _ => True).
Proof.
  intros H s. unfold dev_write. zif; [lia|]. zif; [by eexists _, _|].
  destruct (next_fault (e_dev s)) as [f d] eqn:E. apply next_fault_same in E as [E1 E2].
  destruct f as [[]|]; eexists _, _; (split_and!; [done| |done]); by split.
Qed.

Lemma spec_bwrite b blk : spec dev_only (bwrite fs blk b) (fun _ => True).
Proof. apply spec_dev_write. pose proof (g_spb_bound fs G). pose proof (g_bs_bound fs G). lia. Qed.
#[local] Hint Resolve spec_bwrite : spec.

Lemma spec_write_inode vi : slots vi -> spec dev_only (write_inode fs vi) (fun _ => True).
Proof.
  intros Hv. unfold write_inode. apply spec_page; [done|]. intros b.
  pose proof (gd_at_bound fs ((vi_ino vi - 1) / inodes_per_group fs) 0 G ltac:(lia)) as Hg.
  destruct (gd_at _ _ _) as [gb go]. cbn [snd] in Hg. pose proof (g_bs_bound fs G).
  wstep. intros [rc b1] _. case_match; [by apply spec_ret|].
  wstep. intros t _. pose proof (inode_at_bound fs (vi_ino vi) t G) as Hi.
  destruct (inode_at _ _ _) as [ib o]. cbn [snd] in Hi.
  wstep. intros [rc2 b2] _. case_match; [by apply spec_ret|].
  do 4 (wstep; intros ? _). eapply spec_bind; [apply spec_wr_map; unfold len; rewrite ?Hv; lia|]. intros ? _. auto with spec.
Qed.

Lemma spec_gd_read32 g off : 0 <= off <= 28 -> spec dev_only (gd_read32 fs g off) (fun v => 0 <= v < 2 ^ 32).
Proof.
  intros Ho. unfold gd_read32. apply spec_page; [lia|]. intros b.
  pose proof (gd_at_bound fs g off G ltac:(lia)) as Hg. destruct (gd_at _ _ _) as [gb go]. cbn [snd] in Hg.
  pose proof (g_bs_bound fs G). wstep. intros [rc b1] _. case_match; [apply spec_ret; lia|]. apply spec_rd32; lia.
Qed.

Lemma spec_bitmap_alloc bmp limit : limit <= 8 * block_size fs ->
  spec dev_only (bitmap_alloc fs bmp limit) (fun i => i < 0 \/ 0 <= i < limit).
Proof.
  intros Hl. unfold bitmap_alloc. apply spec_page; [lia|]. intros b. pose proof (g_bs_bound fs G).
  wstep. intros [rc b1] _. case_match; [apply spec_ret; lia|].
  eapply spec_bind; [apply spec_find_clear; lia|]. intros [i|] Hi; [|apply spec_ret; lia].
  specialize (Hi i eq_refl). assert (0 <= i / 8 < PAGE).
  { split; [apply Z.div_pos; lia|apply Z.div_lt_upper_bound; lia]. }
  wstep. intros x _. wstep. intros b2 _. wstep. intros rc2 _. apply spec_ret. case_match; lia.
Qed.

Lemma spec_bitmap_free bmp bit : 0 <= bit < 8 * block_size fs -> spec dev_only (bitmap_free fs bmp bit) (fun _ => True).
Proof.
  intros Hb. unfold bitmap_free. apply spec_page; [done|]. intros b. pose proof (g_bs_bound fs G).
  assert (0 <= bit / 8 < PAGE) by (split; [apply Z.div_pos; lia|apply Z.div_lt_upper_bound; lia]).
  wstep. intros [rc b1] _. case_match; [by apply spec_ret|].
  wstep. intros x _. wstep. intros b2 _. wstep. intros ? _. by apply spec_ret.
Qed.

Lemma spec_adj g o16 o32 up : 0 <= o16 <= 30 -> 0 <= o32 <= 1020 ->
  spec dev_only (adj_free_counts fs g o16 o32 up) (fun _ => True).
Proof.
  intros H1 H2. unfold adj_free_counts. apply spec_page; [done|]. intros b. pose proof (g_bs_bound fs G).
  pose proof (gd_at_bound fs g o16 G ltac:(lia)) as Hg. destruct (gd_at _ _ _) as [gb go]. cbn [snd] in Hg.
  wstep. intros [rc b1] _. eapply (spec_bind _ _ (fun _ => True)).
  { case_match; [by apply spec_ret|]. wstep. intros v _.
    eapply (spec_bind _ _ (fun _ => True)); [case_match; [apply spec_wr16; lia|by apply spec_ret]|].
    intros b2 _. wstep. intros ? _. by apply spec_ret. }
  intros b2 _. eapply spec_bind; [apply spec_ro, spec_dev_read; unfold SECTOR, PAGE; lia|].
  intros [rc2 b3] _. case_match; [by apply spec_ret|].
  assert (o32 + 4 <= PAGE) by (unfold PAGE; lia). wstep. intros v _.
  eapply (spec_bind _ _ (fun _ => True)); [case_match; [apply spec_wr32; lia|by apply spec_ret]|].
  intros b4 _. eapply spec_bind; [apply spec_dev_write; unfold SECTOR, PAGE; lia|]. intros ? _. by apply spec_ret.
Qed.

Lemma spec_zero_block bn : spec dev_only (zero_block fs bn) (fun _ => True).
Proof.
  unfold zero_block. apply spec_page; [done|]. intros b. pose proof (g_bs_bound fs G).
  wstep. intros ? _. wstep. intros ? _. by apply spec_ret.
Qed.
#[local] Hint Resolve spec_write_inode spec_zero_block : spec.

Lemma group_limit_bound g : group_limit fs g <= 8 * block_size fs.
Proof. unfold group_limit. cbv zeta. repeat zif; lia. Qed.

Lemma spec_alloc_block : spec dev_only (alloc_block fs) (fun v => 0 <= v < 2 ^ 32).
Proof.
  enough (H : forall n g, spec dev_only (alloc_block_from n fs g) (fun v => 0 <= v < 2 ^ 32)) by apply H.
  intros n. induction n as [|n IH]; intros g; cbn [alloc_block_from].
  { apply spec_ret; lia. }
  sbind spec_gd_read32. intros bb _. case_match; [apply IH|].
  eapply spec_bind; [apply spec_bitmap_alloc, group_limit_bound|]. intros bit _. case_match; [apply IH|].
  wstep. intros ? _. sbind spec_adj. intros ? _. apply spec_ret, u32_range.
Qed.

Lemma spec_alloc_inode : spec dev_only (alloc_inode fs) (fun v => 0 <= v < 2 ^ 32).
Proof.
  enough (H : forall n g, spec dev_only (alloc_inode_from n fs g) (fun v => 0 <= v < 2 ^ 32)) by apply H.
  intros n. induction n as [|n IH]; intros g; cbn [alloc_inode_from].
  { apply spec_ret; lia. }
  sbind spec_gd_read32. intros bb _. case_match; [apply IH|].
  eapply spec_bind; [apply spec_bitmap_alloc; zif; lia|]. intros bit _. case_match; [apply IH|].
  case_match; [apply spec_ret; lia|]. sbind spec_adj. intros ? _. apply spec_ret, u32_range.
Qed.
#[local] Hint Resolve spec_alloc_block spec_alloc_inode : spec.

Lemma bit_bound d n : 0 < n <= 8 * block_size fs -> 0 <= d mod n < 8 * block_size fs.
Proof. intros. pose proof (Z.mod_pos_bound d n ltac:(lia)). lia. Qed.

Lemma spec_free_block bn : spec dev_only (free_block fs bn) (fun _ => True).
Proof.
  unfold free_block. case_match; [by apply spec_ret|]. sbind spec_gd_read32. intros bb _.
  case_match; [by apply spec_ret|].
  eapply spec_bind; [apply spec_bitmap_free, bit_bound, G|]. intros ? _. apply spec_adj; lia.
Qed.

Lemma spec_free_inode_num ino : spec dev_only (free_inode_num fs ino) (fun _ => True).
Proof.
  unfold free_inode_num. case_match; [by apply spec_ret|]. sbind spec_gd_read32. intros bb _.
  case_match; [by apply spec_ret|].
  eapply spec_bind; [apply spec_bitmap_free, bit_bound, G|]. intros ? _. apply spec_adj; lia.
Qed.
#[local] Hint Resolve spec_free_block spec_free_inode_num : spec.

Lemma spec_free_leaves n b i b512 dirty : 0 <= i -> 4 * (i + Z.of_nat n) <= PAGE ->
  spec dev_only (free_leaves n fs b i b512 dirty) (fun _ => True).
Proof.
  revert b i b512 dirty. induction n as [|n IH]; intros b i b512 dirty Hi Hn; cbn [free_leaves]; [by apply spec_ret|].
  wstep. intros d _. case_match; [apply IH; lia|]. wstep. intros ? _. wstep. intros b1 _. apply IH; lia.
Qed.

Lemma spec_free_children rec span start n b i b512 dirty : 0 <= i -> 4 * (i + Z.of_nat n) <= PAGE ->
  (forall c st m, 0 <= st -> spec dev_only (rec c st m) (fun _ => True)) ->
  spec dev_only (free_children rec span start n b i b512 dirty) (fun _ => True).
Proof.
  intros Hi Hn Hr. revert b i b512 dirty Hi Hn.
  induction n as [|n IH]; intros b i b512 dirty Hi Hn; cbn [free_children]; [by apply spec_ret|].
  wstep. intros c _. case_match; [apply IH; lia|]. case_match.
  - sbind Hr. intros [? ?] _. wstep. intros ? _. apply IH; lia.
  - case_match; [|apply IH; lia]. sbind Hr. intros [? ?] _. apply IH; lia.
Qed.

Lemma spec_free_indirect l root start b512 : 0 <= start ->
  spec dev_only (free_indirect_from fs (S l) root start b512) (fun _ => True).
Proof.
  destruct (per_bound fs G) as [Hp Hp4]. pose proof (g_bs_bound fs G).
  revert root start b512. induction l as [|l IH]; intros root start b512 Hs; cbn [free_indirect_from].
  all: case_match; [by apply spec_ret|]; apply spec_page; [done|]; intros b; wstep; intros [rc b1] _.
  all: eapply (spec_bind _ _ (fun _ => True));
    [case_match; [by apply spec_ret|]|intros [[b2 n2] d2] _; case_match;
      [wstep; intros ? _; by apply spec_ret|case_match; [wstep; intros ? _; by apply spec_ret|by apply spec_ret]]].
  - destruct (Z.le_gt_cases start (block_size fs / 4)); [apply spec_free_leaves; lia|].
    replace (Z.to_nat (block_size fs / 4 - start)) with O by lia. by apply spec_ret.
  - apply spec_free_children; [lia|lia|]. intros. by apply IH.
Qed.

Lemma spec_free_direct n u vi i : remap u vi -> spec dev_only (free_direct n fs vi i) (remap u).
Proof.
  revert vi i. induction n as [|n IH]; intros vi i Hv; cbn [free_direct]; [by apply spec_ret|].
  case_match; [by apply IH|]. wstep. intros ? _. apply IH. eauto with spec.
Qed.

Lemma spec_free_region l k base from u vi : remap u vi -> spec dev_only (free_region fs (S l) k base from vi) (remap u).
Proof.
  intros Hv. unfold free_region.
  eapply spec_bind; [apply spec_free_indirect; zif; lia|]. intros [root n] _. apply spec_ret. eauto with spec.
Qed.

Lemma spec_free_from vi from : spec dev_only (free_from fs vi from) (remap vi).
Proof.
  unfold free_from. eapply spec_bind; [apply spec_free_direct, remap_refl|]. intros v1 H1.
  eapply (spec_bind _ _ (remap vi)); [case_match; [by apply spec_free_region|by apply spec_ret]|]. intros v2 H2.
  eapply (spec_bind _ _ (remap vi)); [case_match; [by apply spec_free_region|by apply spec_ret]|]. intros v3 H3.
  by apply spec_free_region.
Qed.

Lemma spec_alloc_indirect l root idx b512 : (l <= 2)%nat -> 0 <= idx < (block_size fs / 4) ^ Z.of_nat (S l) ->
  spec dev_only (alloc_indirect fs (S l) root idx b512) (fun _ => True).
Proof.
  destruct (per_bound fs G) as [Hp Hp4]. pose proof (g_bs_bound fs G).
  revert root idx b512. induction l as [|l IH]; intros root idx b512 Hl Hi; cbn [alloc_indirect].
  all: eapply (spec_bind _ _ (fun _ => True));
    [case_match; [wstep; intros ? _; by apply spec_ret|by apply spec_ret]|].
  all: intros [r n] _; case_match; [by apply spec_ret|].
  - change (Z.of_nat 1) with 1 in Hi. rewrite Z.pow_1_r in Hi.
    wstep. intros d _. case_match; [by apply spec_ret|]. eapply (spec_bind _ _ (fun _ => True)); [|intros; by apply spec_ret].
    apply spec_page; [done|]. intros b. wstep. intros [rc b1] _. case_match; [by apply spec_ret|].
    wstep. intros b2 _. wstep. intros rc2 _. by apply spec_ret.
  - destruct (child_index fs G l idx ltac:(lia) Hi) as [C1 C2].
    apply spec_page; [done|]. intros b. wstep. intros [rc b1] _. case_match; [by apply spec_ret|].
    wstep. intros c _. eapply spec_bind; [apply IH; [lia|done]|]. intros [[d c'] n'] _.
    eapply (spec_bind _ _ (fun _ => True)); [|intros; by apply spec_ret].
    case_match; [by apply spec_ret|]. wstep. intros b2 _. wstep. intros ? _. by apply spec_ret.
Qed.

Lemma spec_alloc_region l k idx vi : (l <= 2)%nat -> 0 <= idx < (block_size fs / 4) ^ Z.of_nat (S l) ->
  spec dev_only (alloc_region fs (S l) k idx vi) (fun r => remap vi r.2).
Proof.
  intros Hl Hi. unfold alloc_region. eapply spec_bind; [by apply spec_alloc_indirect|].
  intros [[d r] n] _. apply spec_ret. cbn. auto with spec.
Qed.

Lemma spec_alloc_file_block vi fblk : 0 <= fblk -> spec dev_only (alloc_file_block fs vi fblk) (fun r => remap vi r.2).
Proof.
  intros Hf. unfold alloc_file_block, EXT2_NDIR. destruct (per_bound fs G) as [Hp _].
  zif. { wstep. intros b _. apply spec_ret. case_match; cbn; auto with spec. }
  repeat (zif; [apply spec_alloc_region; [lia|cbn -[Z.div]; lia]|]). apply spec_ret, remap_refl.
Qed.

Lemma spec_write_loop fuel u vi b bs off done : remap u vi -> 0 <= done -> len bs - done <= Z.of_nat fuel ->
  spec dev_only (write_loop fuel fs vi b bs off done) (fun r => remap u r.2).
Proof.
  revert vi b done. induction fuel as [|fuel IH]; intros vi b done Hv Hd Hf; cbn [write_loop].
  all: destruct (Z.leb_spec (len bs) done); [by apply spec_ret|]. 1: lia.
  pose proof (chunk_bound fs G (u64 (off + done)) (len bs - done) ltac:(lia)) as (C1 & C2 & C3). cbv zeta in C1, C2, C3.
  set (boff := _ mod _) in *. set (chunk := Z.min _ _) in *. clearbody chunk boff. pose proof (g_bs_bound fs G).
  pose proof (u32_range (u64 (off + done) / block_size fs)) as Hb.
  eapply spec_bind. { apply spec_ro, spec_map_block; [done|lia]. }
  intros disk _. eapply (spec_bind _ _ (fun r : Z * ext2_vinfo => remap u r.2)).
  { case_match; [|by apply spec_ret]. eapply spec_weaken; [done| |apply spec_alloc_file_block; lia].
    cbn beta. eauto with spec. }
  intros [d v1] Hv1. cbn [snd] in Hv1. case_match; [by apply spec_ret|].
  eapply (spec_bind _ _ (fun _ => True)).
  { case_match; [apply spec_ro; auto with spec|]. wstep. intros ? _. by apply spec_ret. }
  intros [rc b1] _. case_match; [by apply spec_ret|].
  assert (len (ztake chunk (zdrop done bs)) = chunk) by (rewrite len_ztake; [done|rewrite len_zdrop; lia]).
  sbind spec_copy_in. intros b2 _. wstep. intros rc2 _. case_match; [by apply spec_ret|]. apply IH; [done|lia..].
Qed.
End Write.

(** * The operations of a mounted volume *)

Record vol_ok (s : est) : Prop := {
  vo_fs a f : e_fss s !! a = Some f -> geom_ok f;
  vo_vi a v : e_vis s !! a = Some v -> slots v /\ is_Some (e_fss s !! vi_fs v) /\ 0 <= vi_size v < 2 ^ 32;
  vo_vn a v : e_vns s !! a = Some v -> v_priv v = 0 \/ is_Some (e_vis s !! v_priv v);
  vo_self a f : e_fss s !! a = Some f -> fs_self f = a
}.

(** The operations that are safe on every disk. *)
Inductive vop :=
  | Vread (vn n off : Z) | Vwrite (vn : Z) (bs : list Z) (off : Z) | Vlookup (dir : Z) (name : list Z)
  | Vreaddir (dir index cap : Z) | Vtruncate (vn n : Z) | Vchmod (vn mode : Z).

Definition op_vnode (o : vop) : Z :=
  match o with Vread v _ _ | Vwrite v _ _ | Vlookup v _ | Vreaddir v _ _ | Vtruncate v _ | Vchmod v _ => v end.

(** size_t and uint64_t arguments are not negative. *)
Definition op_args (o : vop) : Prop :=
  match o with Vread _ n off => 0 <= n /\ 0 <= off | Vreaddir _ i cap => 0 <= i /\ 0 <= cap | _ => True end.

(** The result and the bytes stored in the caller's buffer. *)
Definition run_op (o : vop) : M (Z * list Z) :=
  match o with
  | Vread vn n off => ext2_read vn n off
  | Vwrite vn bs off => r ← ext2_write vn bs off; mret (r, [])
  | Vlookup dir name => r ← ext2_lookup dir name; mret (r, [])
  | Vreaddir dir i cap => ext2_readdir dir i cap
  | Vtruncate vn n => r ← ext2_truncate vn n; mret (r, [])
  | Vchmod vn mode => r ← ext2_chmod vn mode; mret (r, [])
  end.

(** How much of the caller's buffer an operation may fill. *)
Definition op_room (o : vop) : Z :=
  match o with Vread _ n _ => n | Vreaddir _ _ cap => Z.max 0 (cap - 1) | _ => 0 end.

Definition op_reads (o : vop) : bool :=
  match o with Vread _ _ _ | Vlookup _ _ | Vreaddir _ _ _ => true | _ => false end.

(** [m] ends in a state that is well formed, with the frames it started with. *)
Definition safe_op {A} (m : M A) (s : est) (Q : A -> est -> Prop) : Prop :=
  exists a s', m s = Some (a, s') /\ vol_ok s' /\ e_frames s' = e_frames s /\ Q a s'.

Lemma dev_only_vol s s' : dev_only s s' -> vol_ok s -> vol_ok s'.
Proof. intros [] []. destruct s, s'. cbn in *. subst. by split. Qed.

Lemma bind_some {A B} (m : M A) (k : A -> M B) s a s' : m s = Some (a, s') -> (m ≫= k) s = k a s'.
Proof. unfold mbind, M_bind. by intros ->. Qed.

Lemma obj_some {A B} (f : est -> gmap Z A) a x (k : A -> M B) s : f s !! a = Some x -> (obj f a ≫= k) s = k x s.
Proof. intros H. apply bind_some. unfold obj. by rewrite H. Qed.

(** Storing back a vnode and its inode. *)
Lemma vol_put_vi s a vi : vol_ok s -> slots vi -> is_Some (e_fss s !! vi_fs vi) -> 0 <= vi_size vi < 2 ^ 32 ->
  vol_ok (set_vis (<[a := vi]> (e_vis s)) s).
Proof.
  intros [] Hs Hf Hz. split; cbn; [done| | |done].
  - intros b v. destruct (decide (b = a)) as [->|]; [rewrite lookup_insert_eq; by intros [= <-]|].
    rewrite lookup_insert_ne by done. apply vo_vi0.
  - intros b v Hv. destruct (vo_vn0 b v Hv) as [|[x Hx]]; [by left|right].
    destruct (decide (v_priv v = a)) as [->|]; [rewrite lookup_insert_eq; eauto|].
    rewrite lookup_insert_ne by done. eauto.
Qed.

Lemma vol_put_vn s a v : vol_ok s -> v_priv v = 0 \/ is_Some (e_vis s !! v_priv v) ->
  vol_ok (set_vns (<[a := v]> (e_vns s)) s).
Proof.
  intros [] Hp. split; cbn; [done|done| |done]. intros b w.
  destruct (decide (b = a)) as [->|]; [rewrite lookup_insert_eq; by intros [= <-]|].
  rewrite lookup_insert_ne by done. apply vo_vn0.
Qed.

Section Ops.
Context (s : est) (V : vol_ok s).

(** A vnode that has an inode, and the volume behind it. *)
Lemma vnode_vi vn v : e_vns s !! vn = Some v -> (v_priv v =? 0) = false ->
  exists vi fs, e_vis s !! v_priv v = Some vi /\ e_fss s !! vi_fs vi = Some fs /\ geom_ok fs /\ slots vi /\
                0 <= vi_size vi < 2 ^ 32.
Proof.
  intros Hv Hp. destruct (vo_vn s V _ _ Hv) as [|[vi Hvi]]; [lia|].
  destruct (vo_vi s V _ _ Hvi) as (S1 & [fs Hfs] & S2). exists vi, fs. split_and!; try done; try lia. by eapply vo_fs.
Qed.

Lemma safe_ret {A} (a : A) (Q : A -> est -> Prop) : Q a s -> safe_op (mret a) s Q.
Proof. intros H. by exists a, s. Qed.

Lemma safe_spec {A} (R : relation est) (m : M A) (Q : A -> Prop) :
  (forall s', R s s' -> dev_only s s') -> spec R m Q -> safe_op m s (fun a s' => Q a /\ R s s').
Proof.
  intros HR H. destruct (H s) as (a & s' & E & Hr & Hq). exists a, s'.
  split_and!; [done|by eapply dev_only_vol; [apply HR|]|by apply HR|done|done].
Qed.

Lemma op_read_ok vn v n off : e_vns s !! vn = Some v -> 0 <= n -> 0 <= off ->
  safe_op (ext2_read vn n off) s (fun r s' => len r.2 <= n /\ read_only s s').
Proof.
  intros Hv Hn Ho. unfold safe_op, ext2_read. rewrite (obj_some e_vns vn v) by done. case_match; [by apply safe_ret|].
  destruct (vnode_vi vn v Hv) as (vi & fs & Hvi & Hfs & G & S1 & S2); [done|].
  rewrite (obj_some e_vis _ vi) by done. destruct (Z.leb_spec (vi_size vi) off); [by apply safe_ret|].
  rewrite (obj_some e_fss _ fs) by done. set (m := if _ : bool then _ else _).
  assert (Hm : 0 <= m <= n).
  { subst m. pose proof (Z.mod_le (off + n) (2 ^ 64) ltac:(lia) ltac:(lia)). unfold u64. zif; lia. }
  apply (safe_spec read_only _ (fun r => len r.2 <= n) (read_only_dev s)). apply spec_page; [done|]. intros b.
  eapply spec_weaken; [done| |apply spec_read_loop; [done|change (len []) with 0; lia|lia]].
  intros a. change (len []) with 0. cbn beta. lia.
Qed.

Lemma op_walk_ok dir d want i cap all : e_vns s !! dir = Some d -> 0 <= cap ->
  safe_op (dir_walk dir want i cap all) s
    (fun r s' => (forall h, r = Some h -> len (h_name h) <= Z.max 0 (cap - 1) /\ (v_priv d =? 0) = false) /\ read_only s s').
Proof.
  intros Hd Hc. unfold safe_op, dir_walk. rewrite (obj_some e_vns dir d) by done.
  destruct (v_priv d =? 0) eqn:Ep; cbn [orb]; [by apply safe_ret|].
  destruct (negb (is_type VNODE_DIR d)); [by apply safe_ret|].
  destruct (vnode_vi dir d Hd) as (vi & fs & Hvi & Hfs & G & S1 & S2); [done|].
  rewrite (obj_some e_vis _ vi), (obj_some e_fss _ fs) by done.
  apply (safe_spec read_only _ (fun r => forall h, r = Some h -> len (h_name h) <= Z.max 0 (cap - 1) /\ false = false)
           (read_only_dev s)).
  apply spec_page; [done|]. intros b. eapply spec_weaken; [done| |by apply spec_walk_blocks].
  intros a Ha h Hh. split; [by apply Ha|done].
Qed.

Lemma op_readdir_ok dir d i cap : e_vns s !! dir = Some d -> 0 <= cap ->
  safe_op (ext2_readdir dir i cap) s (fun r s' => len r.2 <= Z.max 0 (cap - 1) /\ read_only s s').
Proof.
  intros Hd Hc. destruct (op_walk_ok dir d None i cap false Hd Hc) as (r & s' & E & V' & Hf & Hh & Hr).
  unfold safe_op, ext2_readdir. rewrite (bind_some _ _ _ _ _ E). eexists _, s'. split_and!; [done..| |done].
  destruct r as [h|]; [by apply Hh|]. apply Z.le_max_l.
Qed.

(** A driver call, then the rest from a state that differs in the device only. *)
Lemma safe_bind_spec {A B} (m : M A) (k : A -> M B) (P : A -> Prop) Q :
  spec dev_only m P ->
  (forall a s', P a -> dev_only s s' -> vol_ok s' -> safe_op (k a) s' Q) -> safe_op (m ≫= k) s Q.
Proof.
  intros Hm Hk. destruct (Hm s) as (a & s1 & E & D & Pa).
  destruct (Hk a s1 Pa D (dev_only_vol _ _ D V)) as (b & s2 & E2 & V2 & F2 & Hq).
  exists b, s2. split_and!; [by rewrite (bind_some _ _ _ _ _ E)|done|rewrite F2; apply D|done].
Qed.
End Ops.

(** A step that is a store or a load of the driver's own. *)
Lemma safe_step {A B} (m : M A) (k : A -> M B) s a s' Q :
  m s = Some (a, s') -> e_frames s' = e_frames s -> safe_op (k a) s' Q -> safe_op (m ≫= k) s Q.
Proof.
  intros E F (b & s2 & E2 & V2 & F2 & Hq). exists b, s2. split_and!; [by rewrite (bind_some _ _ _ _ _ E)|done|lia|done].
Qed.

Lemma safe_obj {A B} (f : est -> gmap Z A) a x (k : A -> M B) s Q :
  f s !! a = Some x -> safe_op (k x) s Q -> safe_op (obj f a ≫= k) s Q.
Proof. intros H. apply safe_step; [|done]. unfold obj. by rewrite H. Qed.

Lemma safe_put_vi {B} a vi (k : unit -> M B) s Q :
  safe_op (k tt) (set_vis (<[a := vi]> (e_vis s)) s) Q -> safe_op (put_vi a vi ≫= k) s Q.
Proof. by apply safe_step. Qed.

Lemma safe_put_vn {B} a v (k : unit -> M B) s Q :
  safe_op (k tt) (set_vns (<[a := v]> (e_vns s)) s) Q -> safe_op (put_vn a v ≫= k) s Q.
Proof. by apply safe_step. Qed.

Lemma safe_call {A} (m : M A) (P : A -> Prop) s : vol_ok s -> spec dev_only m P -> safe_op m s (fun _ _ => True).
Proof.
  intros V H. destruct (safe_spec s V dev_only m P) as (a & s' & E & V' & F & _); [done|done|]. by exists a, s'.
Qed.

Lemma op_chmod_ok s vn v mode : vol_ok s -> e_vns s !! vn = Some v -> safe_op (ext2_chmod vn mode) s (fun _ _ => True).
Proof.
  intros V Hv. unfold ext2_chmod. apply (safe_obj _ _ v); [done|]. cbv zeta. case_match; [by apply safe_ret|].
  destruct (vnode_vi s V vn v Hv) as (vi & fs & Hvi & Hfs & G & S1 & S2); [done|].
  apply (safe_obj _ _ vi); [done|]. apply safe_put_vi. apply (safe_obj _ _ fs); [done|].
  eapply safe_call; [apply vol_put_vi; eauto|by apply spec_write_inode].
Qed.

Lemma op_truncate_ok s vn v n : vol_ok s -> e_vns s !! vn = Some v -> safe_op (ext2_truncate vn n) s (fun _ _ => True).
Proof.
  intros V Hv. unfold ext2_truncate. apply (safe_obj _ _ v); [done|]. cbv zeta. case_match; [by apply safe_ret|].
  destruct (vnode_vi s V vn v Hv) as (vi & fs & Hvi & Hfs & G & S1 & S2); [done|].
  apply (safe_obj _ _ vi); [done|]. apply (safe_obj _ _ fs); [done|].
  apply (safe_bind_spec s V _ _ (remap vi)). { case_match; [by apply spec_free_from|apply spec_ret, remap_refl]. }
  intros w s1 Hw D V1. assert (S3 : slots w) by eauto with spec. destruct Hw as [_ Hw].
  apply safe_put_vi, safe_put_vn. eapply safe_call; [|by apply spec_write_inode].
  pose proof (u32_range n). apply vol_put_vn.
  - apply vol_put_vi; [done..| |cbn; lia]. rewrite Hw, (do_fss _ _ D). cbn. eauto.
  - right. cbn. rewrite lookup_insert_eq. eauto.
Qed.

Lemma op_write_ok s vn v bs off : vol_ok s -> e_vns s !! vn = Some v -> safe_op (ext2_write vn bs off) s (fun _ _ => True).
Proof.
  intros V Hv. unfold ext2_write. apply (safe_obj _ _ v); [done|]. cbv zeta. case_match; [by apply safe_ret|].
  destruct (vnode_vi s V vn v Hv) as (vi & fs & Hvi & Hfs & G & S1 & S2); [done|].
  apply (safe_obj _ _ vi); [done|]. apply (safe_obj _ _ fs); [done|].
  apply (safe_bind_spec s V _ _ (fun r => forall e d w, r = Some (e, d, w) -> remap vi w)).
  { apply spec_page; [done|]. intros b. eapply spec_bind; [apply (spec_write_loop fs G); [apply remap_refl|lia|lia]|].
    intros [[e d] w] Hw. apply spec_ret. intros ??? [= <- <- <-]. done. }
  intros [[[e d] w]|] s1 Hw D V1; [|by apply safe_ret].
  specialize (Hw _ _ _ eq_refl). assert (S3 : slots w) by eauto with spec. destruct Hw as [_ Hw].
  assert (Hf : is_Some (e_fss s1 !! vi_fs w)) by (rewrite Hw, (do_fss _ _ D); cbn; eauto).
  assert (Hz : 0 <= vi_size w < 2 ^ 32) by (rewrite Hw; done).
  assert (Fin : forall t x (r : Z), vol_ok t -> slots x -> is_Some (e_fss t !! vi_fs x) -> 0 <= vi_size x < 2 ^ 32 ->
    safe_op (put_vi (v_priv v) x ;; (_ ← write_inode fs x; mret r)) t (fun _ _ => True)).
  { intros t x r Vt Sx Fx Zx. apply safe_put_vi.
    eapply safe_call; [by apply vol_put_vi|]. eapply (spec_bind _ _ (fun _ => True)); [by apply spec_write_inode|].
    intros. by apply (spec_ret _ (fun _ => True)). }
  destruct e; [|by apply Fin|].
  - pose proof (u32_range (u64 (off + len bs))). case_match; [|by apply Fin].
    apply (safe_step _ _ s1 (with_vi_size (u32 (u64 (off + len bs))) w)
             (set_vns (<[vn := with_size (u32 (u64 (off + len bs))) v]> (e_vns s1)) s1)); [done|done|].
    apply Fin; [|done|done|cbn; lia]. apply vol_put_vn; [done|].
    right. cbn. rewrite (do_vis _ _ D). eauto.
  - apply safe_put_vi. eapply safe_ret. { by apply vol_put_vi. } done.
Qed.

Lemma vol_heap h s : vol_ok s -> vol_ok (set_heap h s).
Proof. intros []. split; cbn; assumption. Qed.

Lemma op_make_vnode_ok s fa ino : vol_ok s -> is_Some (e_fss s !! fa) ->
  safe_op (make_vnode fa ino) s (fun _ s' => image (e_dev s') = image (e_dev s)).
Proof.
  intros V [fs Hfs]. unfold make_vnode.
  assert (Hk : forall t, exists a h, kcalloc t = Some (a, set_heap h t)).
  { intros t. unfold kcalloc. destruct t as [? ? ? [|a h]]; [by eexists _, []|by eexists _, _]. }
  destruct (Hk s) as (vi & h & E). apply (safe_step _ _ _ _ _ _ E); [done|]. case_match.
  { apply safe_ret; [by apply vol_heap|done]. }
  pose proof (vol_heap h s V) as V1. set (s1 := set_heap h s) in *.
  apply (safe_obj _ _ fs); [done|]. pose proof (vo_fs s V _ _ Hfs) as G.
  destruct (spec_read_inode fs G ino s1) as (r & s2 & E2 & [D I] & Hr).
  apply (safe_step _ _ _ _ _ _ E2); [apply D|]. assert (V2 : vol_ok s2) by (by eapply dev_only_vol).
  destruct r as [e|i]; [by apply safe_ret|]. destruct (Hr i eq_refl) as (F1 & F2 & F3 & F4).
  destruct (Hk s2) as (vn & h2 & E3). apply (safe_step _ _ _ _ _ _ E3); [done|]. case_match.
  { apply safe_ret; [by apply vol_heap|done]. }
  pose proof (vo_self s V _ _ Hfs) as Hs.
  eexists vn, _. split_and!; [reflexivity| |done|done].
  split; cbn.
  - intros a f. destruct (decide (a = fa)) as [->|]; [rewrite lookup_insert_eq; intros [= <-]; by destruct G|].
    rewrite lookup_insert_ne by done. rewrite (do_fss _ _ D). by apply (vo_fs s V).
  - intros a v. destruct (decide (a = vi)) as [->|].
    + rewrite lookup_insert_eq. intros [= <-]. cbn. rewrite F1, Hs, lookup_insert_eq. eauto.
    + rewrite lookup_insert_ne by done. intros Hv. destruct (vo_vi _ V2 _ _ Hv) as (S1 & Sf & S2). split_and!; try done; try lia.
      destruct (decide (vi_fs v = fa)) as [->|]; [rewrite lookup_insert_eq; eauto|by rewrite lookup_insert_ne].
  - intros a v. destruct (decide (a = vn)) as [->|].
    + rewrite lookup_insert_eq. intros [= <-]. cbn. rewrite lookup_insert_eq. eauto.
    + rewrite lookup_insert_ne by done. intros Hv. destruct (vo_vn _ V2 _ _ Hv) as [|Hx]; [by left|right].
      destruct (decide (v_priv v = vi)) as [->|]; [rewrite lookup_insert_eq; eauto|by rewrite lookup_insert_ne].
  - intros a f. destruct (decide (a = fa)) as [->|]; [rewrite lookup_insert_eq; by intros [= <-]|].
    rewrite lookup_insert_ne by done. rewrite (do_fss _ _ D). by apply (vo_self s V).
Qed.

Lemma op_lookup_ok s dir d name : vol_ok s -> e_vns s !! dir = Some d ->
  safe_op (ext2_lookup dir name) s (fun _ s' => image (e_dev s') = image (e_dev s)).
Proof.
  intros V Hd. unfold ext2_lookup.
  destruct (op_walk_ok s V dir d (Some name) 0 0 false Hd ltac:(lia)) as (r & s1 & E & V1 & F & Hh & D & I).
  apply (safe_step _ _ _ _ _ _ E); [done|]. destruct r as [h|]; [|by apply safe_ret].
  destruct (Hh h eq_refl) as [_ Hp]. destruct (vnode_vi s V dir d Hd Hp) as (vi & fs & Hvi & Hfs & _).
  apply (safe_obj _ _ d); [by rewrite (do_vns _ _ D)|]. apply (safe_obj _ _ vi); [by rewrite (do_vis _ _ D)|].
  destruct (op_make_vnode_ok s1 (vi_fs vi) (h_ino h) V1) as (a & s2 & E2 & V2 & F2 & I2).
  { rewrite (do_fss _ _ D). eauto. }
  exists a, s2. split_and!; [done..|congruence].
Qed.

Lemma safe_map {A B} (m : M A) (f : A -> B) s (Q : A -> est -> Prop) (Q' : B -> est -> Prop) :
  (forall a s', Q a s' -> Q' (f a) s') -> safe_op m s Q -> safe_op (r ← m; mret (f r)) s Q'.
Proof.
  intros HQ (a & s' & E & V & F & Hq). exists (f a), s'. split_and!; [by rewrite (bind_some _ _ _ _ _ E)|done|done|auto].
Qed.

