(* ===== verification/Ext2Disk.v ===== *)
(** The ext2 driver on a disk whose requests succeed: what its routines compute
    and how they change the bytes of the image. The layout of a volume, the
    bitmap allocator and the inode table. *)

From stdpp Require Import base numbers option list gmap.
From Stdlib Require Import ZArith Lia.
From S2P Require Import Prelude Buf Tmpfs Ext2 Ext2Safe.

(** * Evaluation

    [eval NS junk F m img a img']: in every state whose disk holds [img], with
    [NS] sectors, no failing request and [F] free frames at least, [m] returns [a]
    and leaves [img'] on the disk and nothing else changed. *)

Definition set_image (img : mem) (s : est) : est :=
  set_dev (Blkdev img (nsectors (e_dev s)) (faults (e_dev s))) s.

Record quiet (NS : Z) (junk : mem) (F : Z) (img : mem) (s : est) : Prop := {
  q_image : image (e_dev s) = img;
  q_faults : faults (e_dev s) = [];
  q_ns : nsectors (e_dev s) = NS;
  q_junk : e_junk s = junk;
  q_frames : F <= e_frames s
}.

Definition eval {A} (NS : Z) (junk : mem) (F : Z) (m : M A) (img : mem) (a : A) (img' : mem) : Prop :=
  forall s, quiet NS junk F img s -> m s = Some (a, set_image img' s).

Section Eval.
Context {NS : Z} {junk : mem}.

Lemma quiet_image F img img' s : quiet NS junk F img s -> quiet NS junk F img' (set_image img' s).
Proof. intros []. by split. Qed.

Lemma set_image_same F img s : quiet NS junk F img s -> set_image img s = s.
Proof. intros []. destruct s as [[] ]. cbn in *. by subst. Qed.

Lemma eval_ret {A} F (a : A) img : eval NS junk F (mret a) img a img.
Proof. intros s Q. by rewrite (set_image_same F). Qed.

Lemma eval_bind {A B} F (m : M A) (k : A -> M B) img a img1 b img2 :
  eval NS junk F m img a img1 -> eval NS junk F (k a) img1 b img2 -> eval NS junk F (m ≫= k) img b img2.
Proof.
  intros Hm Hk s Q. rewrite (bind_some _ _ _ _ _ (Hm s Q)). by rewrite (Hk _ (quiet_image _ _ _ _ Q)).
Qed.

Lemma eval_weaken {A} F F' (m : M A) img a img' : F <= F' -> eval NS junk F m img a img' -> eval NS junk F' m img a img'.
Proof. intros H Hm s []. apply Hm. split; lia || done. Qed.

Lemma eval_page {A} F (fail : A) body img a img' : 0 <= F ->
  eval NS junk F (body junk) img a img' -> eval NS junk (F + 1) (with_page fail body) img a img'.
Proof.
  intros HF Hb s []. unfold with_page, mbind, M_bind, blk_alloc. zif; [|lia]. rewrite q_junk0, Hb.
  - destruct s as [d n ? ? ? ? ?]. unfold blk_free, modify, set_image, set_dev, set_frames. cbn.
    by replace (n - 1 + 1) with n by lia.
  - split; try done. cbn. lia.
Qed.

Lemma eval_rd32 F b o img : 0 <= o -> o + 4 <= PAGE -> eval NS junk F (rd32 b o) img (ld32 b o) img.
Proof. intros. unfold rd32, in_page. zif; [|lia]. apply eval_ret. Qed.

Lemma eval_rd16 F b o img : 0 <= o -> o + 2 <= PAGE -> eval NS junk F (rd16 b o) img (ld16 b o) img.
Proof. intros. unfold rd16, in_page. zif; [|lia]. apply eval_ret. Qed.

Lemma eval_rd8 F b o img : 0 <= o -> o + 1 <= PAGE -> eval NS junk F (rd8 b o) img (ld8 b o) img.
Proof. intros. unfold rd8, in_page. zif; [|lia]. apply eval_ret. Qed.

Lemma eval_wr32 F b o v img : 0 <= o -> o + 4 <= PAGE -> eval NS junk F (wr32 b o v) img (st32 b o v) img.
Proof. intros. unfold wr32, in_page. zif; [|lia]. apply eval_ret. Qed.

Lemma eval_wr16 F b o v img : 0 <= o -> o + 2 <= PAGE -> eval NS junk F (wr16 b o v) img (st16 b o v) img.
Proof. intros. unfold wr16, in_page. zif; [|lia]. apply eval_ret. Qed.

Lemma eval_wr8 F b o v img : 0 <= o -> o + 1 <= PAGE -> eval NS junk F (wr8 b o v) img (st8 b o v) img.
Proof. intros. unfold wr8, in_page. zif; [|lia]. apply eval_ret. Qed.

Lemma eval_clear F b n img : n <= PAGE -> eval NS junk F (clear b n) img (mfill b 0 n 0) img.
Proof. intros. unfold clear, in_page. zif; [|lia]. apply eval_ret. Qed.

Lemma eval_copy_in F b o bs img : 0 <= o -> o + len bs <= PAGE ->
  eval NS junk F (copy_in b o bs) img (mblit b o (bytes_at bs) 0 (len bs)) img.
Proof. intros. unfold copy_in, in_page. zif; [|lia]. apply eval_ret. Qed.

Lemma eval_copy_out F b o n img : 0 <= o -> o + n <= PAGE -> eval NS junk F (copy_out b o n) img (mbytes b o n) img.
Proof. intros. unfold copy_out, in_page. zif; [|lia]. apply eval_ret. Qed.

Lemma eval_dev_read F lba cnt b img : cnt * SECTOR <= PAGE -> lba + cnt <= NS ->
  eval NS junk F (dev_read lba cnt b) img (0, mblit b 0 img (lba * SECTOR) (cnt * SECTOR)) img.
Proof.
  intros H1 H2 s Q. unfold dev_read. zif; [lia|]. rewrite (q_ns _ _ _ _ _ Q). zif; [lia|].
  unfold next_fault. rewrite (q_faults _ _ _ _ _ Q), (q_image _ _ _ _ _ Q), (set_image_same F _ _ Q).
  by destruct s as [[] ].
Qed.

Lemma eval_dev_write F lba cnt b img : cnt * SECTOR <= PAGE -> lba + cnt <= NS ->
  eval NS junk F (dev_write lba cnt b) img 0 (mblit img (lba * SECTOR) b 0 (cnt * SECTOR)).
Proof.
  intros H1 H2 s Q. unfold dev_write. zif; [lia|]. rewrite (q_ns _ _ _ _ _ Q). zif; [lia|].
  unfold next_fault. rewrite (q_faults _ _ _ _ _ Q). unfold put_sectors. by rewrite (q_image _ _ _ _ _ Q).
Qed.
End Eval.

(** * Bytes *)

Lemma mblit_in dst d src s n x : d <= x < d + n -> mblit dst d src s n x = src (s + (x - d)).
Proof. intros. unfold mblit. zif; [done|lia]. Qed.

Lemma mblit_out dst d src s n x : x < d \/ d + n <= x -> mblit dst d src s n x = dst x.
Proof. intros. unfold mblit. zif; [lia|done]. Qed.

(** A load inside a copied range. *)
Lemma ld_mblit_in k dst d src s n x : d <= x -> x + Z.of_nat k <= d + n ->
  ld k (mblit dst d src s n) x = ld k src (s + (x - d)).
Proof.
  revert x. induction k as [|k IH]; intros x H1 H2; [done|].
  change (u8 (mblit dst d src s n x) + 256 * ld k (mblit dst d src s n) (x + 1) =
          u8 (src (s + (x - d))) + 256 * ld k src (s + (x - d) + 1)).
  rewrite mblit_in, IH by lia. by replace (s + (x + 1 - d)) with (s + (x - d) + 1) by lia.
Qed.

Lemma ld_mblit_out k dst d src s n x : x + Z.of_nat k <= d \/ d + n <= x ->
  ld k (mblit dst d src s n) x = ld k dst x.
Proof. intros. apply ld_ext. intros. apply mblit_out. lia. Qed.

(** * Layout of a volume *)

Section Layout.
Context (fs : ext2_fs) (NS : Z).

Definition last_gdt : Z := gdt_block fs + (group_count fs * 32 - 1) / block_size fs.

(** The superblock's numbers fit the device and 32 bits. *)
Record volume : Prop := {
  v_geom : geom_ok fs;
  v_first : 0 <= first_data_block fs /\ gdt_block fs = first_data_block fs + 1;
  v_super : 1024 / block_size fs = first_data_block fs;
  v_count : first_data_block fs < blocks_count fs /\ blocks_count fs + blocks_per_group fs < 2 ^ 32;
  v_cap : blocks_count fs * spb fs <= NS;
  v_gdt : last_gdt < blocks_count fs /\ group_count fs * 32 < 2 ^ 32
}.

(** The 32-bit field at [off] of group [g]'s descriptor. *)
Definition gd32 (img : mem) (g off : Z) : Z := ld32 img (gdt_block fs * block_size fs + g * 32 + off).

Definition group_ok (g : Z) : Prop := 0 <= g < group_count fs.

(** Blocks of an inode table. *)
Definition itab_len : Z := (inodes_per_group fs * inode_size fs + block_size fs - 1) / block_size fs.

Definition is_bbm (img : mem) (b : Z) : Prop := exists g, group_ok g /\ b = gd32 img g 0.
Definition is_ibm (img : mem) (b : Z) : Prop := exists g, group_ok g /\ b = gd32 img g 4.
Definition is_itab (img : mem) (b : Z) : Prop :=
  exists g, group_ok g /\ gd32 img g 8 <= b < gd32 img g 8 + itab_len.

(** The blocks that are not a file's: those before the first bitmap, the bitmaps
    and the inode tables. *)
Definition sys (img : mem) (b : Z) : Prop :=
  b <= last_gdt \/ is_bbm img b \/ is_ibm img b \/ is_itab img b.

(** The bit of block [b] in its group's bitmap. *)
Definition used (img : mem) (b : Z) : bool :=
  let r := b - first_data_block fs in
  let bit := r mod blocks_per_group fs in
  Z.testbit (ld8 img (gd32 img (r / blocks_per_group fs) 0 * block_size fs + bit / 8)) (bit mod 8).

Definition in_vol (b : Z) : Prop := first_data_block fs <= b < blocks_count fs.

Record layout (img : mem) : Prop := {
  lay_bbm g : group_ok g -> last_gdt < gd32 img g 0 < blocks_count fs;
  lay_bbm_inj g g' : group_ok g -> group_ok g' -> gd32 img g 0 = gd32 img g' 0 -> g = g';
  lay_ibm g : group_ok g -> last_gdt < gd32 img g 4 < blocks_count fs;
  lay_ibm_bbm b : is_ibm img b -> is_bbm img b -> False;
  lay_itab g : group_ok g -> last_gdt < gd32 img g 8 /\ gd32 img g 8 + itab_len <= blocks_count fs;
  lay_itab_maps b : is_itab img b -> is_bbm img b \/ is_ibm img b -> False;
  lay_itab_inj g g' b : group_ok g -> group_ok g' -> gd32 img g 8 <= b < gd32 img g 8 + itab_len ->
    gd32 img g' 8 <= b < gd32 img g' 8 + itab_len -> g = g';
  lay_used b : sys img b -> in_vol b -> used img b = true
}.

(** A block a file may own. *)
Definition data_blk (img : mem) (b : Z) : Prop := in_vol b /\ used img b = true /\ ~ sys img b.

Definition in_blk (b x : Z) : Prop := b * block_size fs <= x < b * block_size fs + block_size fs.

(** The pointers of the group descriptors did not change. *)
Definition same_gd (img img' : mem) : Prop :=
  forall g off, group_ok g -> off = 0 \/ off = 4 \/ off = 8 -> gd32 img' g off = gd32 img g off.
End Layout.

Section Volume.
Context (fs : ext2_fs) (NS : Z) (junk : mem) (Vol : volume fs NS).
#[local] Abbreviation bs := (block_size fs).
#[local] Abbreviation eval := (eval NS junk).

Lemma bs_bound : 1024 <= bs <= PAGE.
Proof. apply g_bs_bound, Vol. Qed.

Lemma in_blk_inj b b' x : in_blk fs b x -> in_blk fs b' x -> b = b'.
Proof. unfold in_blk. pose proof bs_bound. nia. Qed.

Lemma in_blk_div x : in_blk fs (x / bs) x.
Proof. unfold in_blk. pose proof bs_bound. pose proof (Z.div_mod x bs ltac:(lia)). pose proof (Z.mod_pos_bound x bs ltac:(lia)). nia. Qed.

Lemma eval_bread F b pg img : b < blocks_count fs -> eval F (bread fs b pg) img (0, mblit pg 0 img (b * bs) bs) img.
Proof.
  intros Hb. destruct (g_spb_bound fs (v_geom _ _ Vol)) as [S1 S2]. pose proof bs_bound. pose proof (v_cap _ _ Vol).
  unfold bread. replace (b * bs) with (b * spb fs * SECTOR) by nia. rewrite <- S2. apply eval_dev_read; nia.
Qed.

Lemma eval_bwrite F b pg img : b < blocks_count fs -> eval F (bwrite fs b pg) img 0 (mblit img (b * bs) pg 0 bs).
Proof.
  intros Hb. destruct (g_spb_bound fs (v_geom _ _ Vol)) as [S1 S2]. pose proof bs_bound. pose proof (v_cap _ _ Vol).
  unfold bwrite. replace (b * bs) with (b * spb fs * SECTOR) by nia. rewrite <- S2. apply eval_dev_write; nia.
Qed.

Lemma group_count_bound : 0 < group_count fs /\ group_count fs * blocks_per_group fs < 2 ^ 32 /\
  blocks_count fs - first_data_block fs <= group_count fs * blocks_per_group fs.
Proof.
  destruct (g_bpg fs (v_geom _ _ Vol)) as [B1 _]. destruct (v_first _ _ Vol) as [F1 _]. destruct (v_count _ _ Vol) as [C1 C2].
  unfold group_count. rewrite u32_small by lia. set (n := blocks_count fs - first_data_block fs) in *.
  set (p := blocks_per_group fs) in *. pose proof (Z.div_mod (n + p - 1) p ltac:(lia)).
  pose proof (Z.mod_pos_bound (n + p - 1) p ltac:(lia)). replace (blocks_count fs - first_data_block fs + p - 1) with (n + p - 1) by lia.
  split_and!; nia.
Qed.

(** Where a field of a descriptor is. *)
Lemma gd_at_addr g off : group_ok fs g -> 0 <= off < 32 ->
  let '(gb, go) := gd_at fs g off in
  gdt_block fs <= gb <= last_gdt fs /\ 0 <= go < bs /\ gb * bs + go = gdt_block fs * bs + g * 32 + off.
Proof.
  intros [G1 G2] Ho. unfold gd_at. pose proof bs_bound. destruct (v_first _ _ Vol) as [F1 F2].
  destruct (v_count _ _ Vol) as [C1 C2]. destruct (v_gdt _ _ Vol) as [D1 D2]. unfold last_gdt in *.
  pose proof (g_bpg fs (v_geom _ _ Vol)).
  rewrite (u32_small (g * 32 + off)) by lia. set (y := g * 32 + off) in *.
  assert (Hy : 0 <= y / bs <= (group_count fs * 32 - 1) / bs) by (split; [apply Z.div_pos; lia|apply Z.div_le_mono; lia]).
  rewrite u32_small by lia. pose proof (Z.mod_pos_bound y bs ltac:(lia)). pose proof (Z.div_mod y bs ltac:(lia)). nia.
Qed.

Lemma last_gdt_first : first_data_block fs < last_gdt fs.
Proof.
  destruct (v_first _ _ Vol) as [F1 F2]. pose proof bs_bound. destruct group_count_bound as (B1 & _).
  unfold last_gdt. pose proof (Z.div_pos (group_count fs * 32 - 1) bs ltac:(lia) ltac:(lia)). lia.
Qed.

Lemma eval_gd_read32 g off img : group_ok fs g -> 0 <= off <= 28 -> eval 1 (gd_read32 fs g off) img (gd32 fs img g off) img.
Proof.
  intros Hg Ho. unfold gd_read32. apply (eval_page 0); [done|].
  pose proof (gd_at_addr g off Hg ltac:(lia)) as Ha. pose proof (gd_at_bound fs g off (v_geom _ _ Vol) ltac:(lia)) as Hb.
  destruct (gd_at fs g off) as [gb go]. cbn [snd] in Hb. destruct Ha as (A1 & A2 & A3). pose proof bs_bound.
  destruct (v_gdt _ _ Vol) as [D1 D2].
  eapply eval_bind; [apply eval_bread; lia|]. cbn [Z.eqb negb].
  unfold gd32. rewrite <- A3. rewrite <- (Z.sub_0_r go) at 2.
  rewrite <- (ld_mblit_in 4 junk 0 img (gb * bs) bs go) by lia. apply eval_rd32; lia.
Qed.

(** The first clear bit of the [n] bits of the page [bm] from [i] on. *)
Definition bit_at (bm : mem) (i : Z) : bool := Z.testbit (ld8 bm (i / 8)) (i mod 8).

Lemma eval_find_clear F n bm i img : 0 <= i -> i + Z.of_nat n <= 8 * PAGE ->
  exists r, eval F (find_clear n bm i) img r img /\
    match r with
    | Some k => i <= k < i + Z.of_nat n /\ bit_at bm k = false
    | None => forall k, i <= k < i + Z.of_nat n -> bit_at bm k = true
    end.
Proof.
  revert i. induction n as [|n IH]; intros i Hi Hn; cbn [find_clear].
  { exists None. split; [apply eval_ret|]. lia. }
  assert (0 <= i / 8 < PAGE) by (split; [apply Z.div_pos; lia|apply Z.div_lt_upper_bound; lia]).
  destruct (bit_at bm i) eqn:Eb.
  - destruct (IH (i + 1)) as (r & E & Hr); [lia..|]. exists r. split.
    + eapply eval_bind; [apply eval_rd8; lia|]. unfold bit_at in Eb. by rewrite Eb.
    + destruct r as [k|]; [split; [lia|apply Hr]|]. intros k Hk. destruct (decide (k = i)) as [->|]; [done|].
      apply Hr. lia.
  - exists (Some i). split; [|split; [lia|done]].
    eapply eval_bind; [apply eval_rd8; lia|]. unfold bit_at in Eb. rewrite Eb. apply eval_ret.
Qed.

(** Setting or clearing a bit of a bitmap block changes one byte. *)
Definition bit_img (img : mem) (bmp k : Z) (f : Z -> Z) : mem :=
  mblit img (bmp * bs) (st8 (mblit junk 0 img (bmp * bs) bs) (k / 8) (f (ld8 (mblit junk 0 img (bmp * bs) bs) (k / 8)))) 0 bs.

Lemma bit_img_out img bmp k f x : 0 <= k < 8 * bs -> x <> bmp * bs + k / 8 -> bit_img img bmp k f x = img x.
Proof.
  intros Hk Hx. unfold bit_img. assert (0 <= k / 8 < bs) by (split; [apply Z.div_pos; lia|apply Z.div_lt_upper_bound; lia]).
  destruct (decide (bmp * bs <= x < bmp * bs + bs)); [|rewrite mblit_out by lia; done].
  rewrite mblit_in by lia. rewrite st_frame by lia. rewrite mblit_in by lia. f_equal. lia.
Qed.

Lemma bit_img_in img bmp k f : 0 <= k < 8 * bs ->
  ld8 (bit_img img bmp k f) (bmp * bs + k / 8) = u8 (f (ld8 img (bmp * bs + k / 8))).
Proof.
  intros Hk. unfold bit_img. assert (0 <= k / 8 < bs) by (split; [apply Z.div_pos; lia|apply Z.div_lt_upper_bound; lia]).
  rewrite ld_mblit_in by lia. replace (0 + (bmp * bs + k / 8 - bmp * bs)) with (k / 8) by lia.
  rewrite ld8_st8. rewrite ld_mblit_in by lia. do 3 f_equal. lia.
Qed.

(** The bit [k] of the bitmap block [bmp]. *)
Definition dbit (img : mem) (bmp k : Z) : bool := Z.testbit (ld8 img (bmp * bs + k / 8)) (k mod 8).

Lemma bit_at_page img bmp k : 0 <= k < 8 * bs -> bit_at (mblit junk 0 img (bmp * bs) bs) k = dbit img bmp k.
Proof.
  intros Hk. assert (0 <= k / 8 < bs) by (split; [apply Z.div_pos; lia|apply Z.div_lt_upper_bound; lia]).
  unfold bit_at, dbit. rewrite ld_mblit_in by lia. do 2 f_equal. lia.
Qed.

Definition set_bit (img : mem) (bmp k : Z) : mem := bit_img img bmp k (fun x => Z.lor x (Z.shiftl 1 (k mod 8))).
Definition clear_bit (img : mem) (bmp k : Z) : mem := bit_img img bmp k (fun x => Z.ldiff x (Z.shiftl 1 (k mod 8))).

(** Two bits with the same byte and the same place in it are the same. *)
Lemma bit_eq j k : j / 8 = k / 8 -> j mod 8 = k mod 8 -> j = k.
Proof. intros. rewrite (Z.div_mod j 8), (Z.div_mod k 8) by lia. congruence. Qed.

Lemma dbit_bit_img img bmp b k j f : 0 <= k < 8 * bs -> 0 <= j < 8 * bs ->
  dbit (bit_img img bmp k f) b j =
    if decide (b = bmp /\ j / 8 = k / 8) then Z.testbit (u8 (f (ld8 img (bmp * bs + k / 8)))) (j mod 8) else dbit img b j.
Proof.
  intros Hk Hj. unfold dbit.
  assert (0 <= k / 8 < bs) by (split; [apply Z.div_pos; lia|apply Z.div_lt_upper_bound; lia]).
  assert (0 <= j / 8 < bs) by (split; [apply Z.div_pos; lia|apply Z.div_lt_upper_bound; lia]).
  destruct (decide (b = bmp /\ j / 8 = k / 8)) as [[-> E]|N].
  - rewrite E. by rewrite bit_img_in.
  - f_equal. apply ld_ext. intros x Hx. apply bit_img_out; [done|]. intros ->. pose proof bs_bound.
    assert (b * bs + j / 8 = bmp * bs + k / 8) by lia.
    assert (b = bmp) by nia. apply N. split; [done|]. subst. lia.
Qed.

Lemma dbit_set img bmp b k j : 0 <= k < 8 * bs -> 0 <= j < 8 * bs ->
  dbit (set_bit img bmp k) b j = if decide (b = bmp /\ j = k) then true else dbit img b j.
Proof.
  intros Hk Hj. unfold set_bit. rewrite dbit_bit_img by done.
  pose proof (Z.mod_pos_bound k 8 ltac:(lia)). pose proof (Z.mod_pos_bound j 8 ltac:(lia)).
  destruct (decide (b = bmp /\ j / 8 = k / 8)) as [[-> E]|N].
  - rewrite testbit_u8, Z.lor_spec, testbit_one_shift by lia. unfold dbit. rewrite E.
    destruct (decide (bmp = bmp /\ j = k)) as [[_ ->]|N'].
    + by rewrite bool_decide_eq_true_2, orb_true_r.
    + case_bool_decide as E'; [|by rewrite orb_false_r].
      destruct N'. split; [done|by apply bit_eq].
  - destruct (decide (b = bmp /\ j = k)) as [[-> ->]|]; [by destruct N|done].
Qed.

Lemma dbit_clear img bmp b k j : 0 <= k < 8 * bs -> 0 <= j < 8 * bs ->
  dbit (clear_bit img bmp k) b j = if decide (b = bmp /\ j = k) then false else dbit img b j.
Proof.
  intros Hk Hj. unfold clear_bit. rewrite dbit_bit_img by done.
  pose proof (Z.mod_pos_bound k 8 ltac:(lia)). pose proof (Z.mod_pos_bound j 8 ltac:(lia)).
  destruct (decide (b = bmp /\ j / 8 = k / 8)) as [[-> E]|N].
  - rewrite testbit_u8, Z.ldiff_spec, testbit_one_shift by lia. unfold dbit. rewrite E.
    destruct (decide (bmp = bmp /\ j = k)) as [[_ ->]|N'].
    + by rewrite bool_decide_eq_true_2, andb_false_r.
    + case_bool_decide as E'; [|by rewrite andb_true_r].
      destruct N'. split; [done|by apply bit_eq].
  - destruct (decide (b = bmp /\ j = k)) as [[-> ->]|]; [by destruct N|done].
Qed.

Lemma eval_bitmap_alloc bmp limit img : bmp < blocks_count fs -> 0 <= limit <= 8 * bs ->
  (eval 1 (bitmap_alloc fs bmp limit) img (-1) img /\ forall k, 0 <= k < limit -> dbit img bmp k = true) \/
  exists k, 0 <= k < limit /\ dbit img bmp k = false /\ eval 1 (bitmap_alloc fs bmp limit) img k (set_bit img bmp k).
Proof.
  intros Hb Hl. pose proof bs_bound. set (pg := mblit junk 0 img (bmp * bs) bs).
  destruct (eval_find_clear 0 (Z.to_nat limit) pg 0 img) as (r & E & Hr); [lia..|].
  assert (Hpg : eval 0 (bread fs bmp junk) img (0, pg) img) by (by apply eval_bread).
  destruct r as [k|]; [right|left].
  - destruct Hr as [Hk Hc]. exists k. unfold pg in Hc. rewrite bit_at_page in Hc by lia. split_and!; [lia|lia|done|].
    assert (0 <= k / 8 < bs) by (split; [apply Z.div_pos; lia|apply Z.div_lt_upper_bound; lia]).
    unfold bitmap_alloc. apply (eval_page 0); [done|]. eapply eval_bind; [done|]. cbn [Z.eqb negb].
    eapply eval_bind; [done|]. cbn beta iota.
    eapply eval_bind; [apply eval_rd8; lia|]. eapply eval_bind; [apply eval_wr8; lia|].
    eapply eval_bind; [by apply eval_bwrite|]. apply eval_ret.
  - split.
    + unfold bitmap_alloc. apply (eval_page 0); [done|]. eapply eval_bind; [done|]. cbn [Z.eqb negb].
      eapply eval_bind; [done|]. apply eval_ret.
    + intros k Hk. rewrite <- bit_at_page by lia. apply Hr. lia.
Qed.

Lemma eval_bitmap_free bmp k img : bmp < blocks_count fs -> 0 <= k < 8 * bs ->
  eval 1 (bitmap_free fs bmp k) img tt (clear_bit img bmp k).
Proof.
  intros Hb Hk. pose proof bs_bound.
  assert (0 <= k / 8 < bs) by (split; [apply Z.div_pos; lia|apply Z.div_lt_upper_bound; lia]).
  unfold bitmap_free. apply (eval_page 0); [done|]. eapply eval_bind; [by apply eval_bread|]. cbn [Z.eqb negb].
  eapply eval_bind; [apply eval_rd8; lia|]. eapply eval_bind; [apply eval_wr8; lia|].
  eapply eval_bind; [by apply eval_bwrite|]. apply eval_ret.
Qed.

(** Zeroing a block. *)
Definition zero_img (img : mem) (b : Z) : mem := mblit img (b * bs) (mfill junk 0 bs 0) 0 bs.

Lemma eval_zero_block b img : b < blocks_count fs -> eval 1 (zero_block fs b) img tt (zero_img img b).
Proof.
  intros Hb. pose proof bs_bound. unfold zero_block. apply (eval_page 0); [done|].
  eapply eval_bind; [apply eval_clear; lia|]. eapply eval_bind; [by apply eval_bwrite|]. apply eval_ret.
Qed.

Lemma zero_img_in img b x : in_blk fs b x -> zero_img img b x = 0.
Proof. intros H. unfold zero_img, in_blk in *. rewrite mblit_in, mfill_in by lia. done. Qed.

Lemma zero_img_out img b x : ~ in_blk fs b x -> zero_img img b x = img x.
Proof. intros H. unfold zero_img, in_blk in *. apply mblit_out. lia. Qed.

(** The free counters: two bytes of a descriptor and four of the superblock. *)
Definition counts (g o16 o32 x : Z) : Prop :=
  let d := gdt_block fs * bs + g * 32 + o16 in d <= x < d + 2 \/ 1024 + o32 <= x < 1024 + o32 + 4.

(** A page read from [a], perhaps with [n] bytes stored at [o], written back. *)
Lemma write_back img pg a sz o n v x : 0 <= o -> o + Z.of_nat n <= sz -> ~ (a + o <= x < a + o + Z.of_nat n) ->
  mblit img a (st n (mblit pg 0 img a sz) o v) 0 sz x = img x.
Proof.
  intros Ho Hn Hx. destruct (decide (a <= x < a + sz)); [|by rewrite mblit_out by lia].
  rewrite mblit_in by lia. rewrite st_frame by lia. rewrite mblit_in by lia. f_equal. lia.
Qed.

Lemma write_same img pg a sz x : mblit img a (mblit pg 0 img a sz) 0 sz x = img x.
Proof.
  destruct (decide (a <= x < a + sz)); [|by rewrite mblit_out by lia].
  rewrite mblit_in by lia. rewrite mblit_in by lia. f_equal. lia.
Qed.

Lemma eval_adj g o16 o32 up img : group_ok fs g -> 0 <= o16 <= 30 -> 0 <= o32 <= 1020 ->
  exists img', eval 1 (adj_free_counts fs g o16 o32 up) img tt img' /\
    forall x, ~ counts g o16 o32 x -> img' x = img x.
Proof.
  intros Hg H1 H2. unfold adj_free_counts.
  pose proof (gd_at_addr g o16 Hg ltac:(lia)) as Ha. pose proof (gd_at_bound fs g o16 (v_geom _ _ Vol) ltac:(lia)) as Hb.
  destruct (gd_at fs g o16) as [gb go]. cbn [snd] in Hb. destruct Ha as (A1 & A2 & A3). pose proof bs_bound.
  destruct (v_gdt _ _ Vol) as [D1 D2].
  assert (4 <= NS).
  { pose proof (v_cap _ _ Vol). destruct (g_spb_bound fs (v_geom _ _ Vol)). pose proof last_gdt_first.
    destruct (v_first _ _ Vol). unfold SECTOR in *. nia. }
  set (p1 := mblit junk 0 img (gb * bs) bs).
  set (p2 := match step_count up (ld16 p1 go) with Some v => st16 p1 go v | None => p1 end).
  set (i1 := mblit img (gb * bs) p2 0 bs).
  assert (E1 : forall x, ~ counts g o16 o32 x -> i1 x = img x).
  { intros x Hx. unfold counts in Hx. subst i1 p2. destruct (step_count _ _).
    - apply write_back; [lia|lia|]. rewrite A3. lia.
    - apply write_same. }
  set (p3 := mblit p2 0 i1 (2 * SECTOR) (2 * SECTOR)).
  set (p4 := match step_count up (ld32 p3 o32) with Some v => st32 p3 o32 v | None => p3 end).
  exists (mblit i1 (2 * SECTOR) p4 0 (2 * SECTOR)). split.
  - apply (eval_page 0); [done|]. eapply eval_bind; [apply eval_bread; lia|]. cbn [Z.eqb negb].
    eapply (eval_bind _ _ _ _ p2 i1).
    { eapply eval_bind; [apply eval_rd16; lia|].
      eapply (eval_bind _ _ _ _ p2 img). { subst p2 p1. case_match; [apply eval_wr16; lia|apply eval_ret]. }
      eapply eval_bind; [apply eval_bwrite; lia|]. apply eval_ret. }
    eapply eval_bind; [apply eval_dev_read; unfold SECTOR, PAGE; lia|]. cbn [Z.eqb negb].
    eapply eval_bind; [apply eval_rd32; unfold PAGE; lia|].
    eapply (eval_bind _ _ _ _ p4 i1). { subst p4 p3. case_match; [apply eval_wr32; unfold PAGE; lia|apply eval_ret]. }
    eapply eval_bind; [apply eval_dev_write; unfold SECTOR, PAGE; lia|]. apply eval_ret.
  - intros x Hx. rewrite <- (E1 x Hx). unfold counts in Hx. subst p4 p3. unfold SECTOR. destruct (step_count up (ld32 _ _)).
    + apply write_back; lia.
    + apply write_same.
Qed.

(** ** Groups and blocks *)

Lemma group_extent g : group_ok fs g ->
  group_base fs g = first_data_block fs + g * blocks_per_group fs /\ group_base fs g < blocks_count fs /\
  group_limit fs g = Z.min (blocks_per_group fs) (blocks_count fs - group_base fs g) /\ 0 < group_limit fs g <= 8 * bs.
Proof.
  intros [G1 G2]. destruct group_count_bound as (B1 & B2 & B3). destruct (g_bpg fs (v_geom _ _ Vol)) as [P1 P2].
  destruct (v_first _ _ Vol) as [F1 F2]. destruct (v_count _ _ Vol) as [C1 C2].
  assert (Hlast : first_data_block fs + g * blocks_per_group fs < blocks_count fs).
  { unfold group_count in G2. rewrite u32_small in G2 by lia.
    set (n := blocks_count fs - first_data_block fs) in *. set (q := blocks_per_group fs) in *.
    assert (g + 1 <= (n + q - 1) / q) by lia. pose proof (Z.mul_div_le (n + q - 1) q ltac:(lia)). nia. }
  assert (0 <= g * blocks_per_group fs) by nia.
  assert (Hb : group_base fs g = first_data_block fs + g * blocks_per_group fs) by (unfold group_base; apply u32_small; lia).
  unfold group_limit. rewrite Hb. cbv zeta.
  rewrite (u32_small (first_data_block fs + g * blocks_per_group fs + blocks_per_group fs)) by lia.
  rewrite (u32_small (blocks_count fs - (first_data_block fs + g * blocks_per_group fs))) by lia.
  destruct (Z.ltb_spec (blocks_count fs) (first_data_block fs + g * blocks_per_group fs + blocks_per_group fs)); zif; lia.
Qed.

(** The group and the bit of a block. *)
Definition grp (b : Z) : Z := (b - first_data_block fs) / blocks_per_group fs.
Definition bit (b : Z) : Z := (b - first_data_block fs) mod blocks_per_group fs.

Lemma block_coords b : in_vol fs b ->
  group_ok fs (grp b) /\ 0 <= bit b < group_limit fs (grp b) /\ group_base fs (grp b) + bit b = b.
Proof.
  intros [V1 V2]. destruct group_count_bound as (B1 & B2 & B3). destruct (g_bpg fs (v_geom _ _ Vol)) as [P1 P2].
  unfold grp, bit. set (r := b - first_data_block fs). set (q := blocks_per_group fs) in *.
  assert (Hg : group_ok fs (r / q)).
  { split; [apply Z.div_pos; lia|]. apply Z.div_lt_upper_bound; [lia|]. lia. }
  destruct (group_extent _ Hg) as (E1 & E2 & E3 & E4). fold q in E1, E3.
  pose proof (Z.div_mod r q ltac:(lia)). pose proof (Z.mod_pos_bound r q ltac:(lia)). split; [done|]. lia.
Qed.

Lemma coords_block g k : group_ok fs g -> 0 <= k < group_limit fs g ->
  let b := group_base fs g + k in in_vol fs b /\ grp b = g /\ bit b = k /\ u32 b = b.
Proof.
  intros Hg Hk. cbv zeta. destruct (group_extent _ Hg) as (E1 & E2 & E3 & E4). pose proof Hg as [G1 G2].
  destruct (g_bpg fs (v_geom _ _ Vol)) as [P1 P2]. destruct (v_first _ _ Vol) as [F1 F2]. destruct (v_count _ _ Vol) as [C1 C2].
  assert (Er : group_base fs g + k - first_data_block fs = k + g * blocks_per_group fs) by lia.
  unfold in_vol, grp, bit. rewrite Er. rewrite Z.div_add, Z.mod_add by lia. rewrite Z.div_small, Z.mod_small by lia.
  assert (0 <= g * blocks_per_group fs) by nia. split_and!; [lia|lia|lia|lia|apply u32_small; lia].
Qed.

Lemma used_dbit img b : used fs img b = dbit img (gd32 fs img (grp b) 0) (bit b).
Proof. done. Qed.

Lemma bit_range b : 0 <= bit b < 8 * bs.
Proof.
  destruct (g_bpg fs (v_geom _ _ Vol)) as [P1 P2]. unfold bit.
  pose proof (Z.mod_pos_bound (b - first_data_block fs) (blocks_per_group fs) ltac:(lia)). lia.
Qed.

(** ** Blocks that did not change *)

Definition untouched (img img' : mem) (b : Z) : Prop := forall x, in_blk fs b x -> img' x = img x.

Lemma untouched_refl img b : untouched img img b.
Proof. done. Qed.

Lemma untouched_trans i1 i2 i3 b : untouched i1 i2 b -> untouched i2 i3 b -> untouched i1 i3 b.
Proof. intros H1 H2 x Hx. rewrite H2, H1; done. Qed.

Lemma untouched_ld k img img' b o : untouched img img' b -> 0 <= o -> o + Z.of_nat k <= bs ->
  ld k img' (b * bs + o) = ld k img (b * bs + o).
Proof. intros H H1 H2. apply ld_ext. intros x Hx. apply H. unfold in_blk. lia. Qed.

(** The descriptors lie in the blocks of the table. *)
Lemma gd32_ext img img' g off : group_ok fs g -> 0 <= off <= 28 ->
  (forall x, gdt_block fs * bs + g * 32 + off <= x < gdt_block fs * bs + g * 32 + off + 4 -> img' x = img x) ->
  gd32 fs img' g off = gd32 fs img g off.
Proof. intros Hg Ho H. apply ld_ext. intros x Hx. apply H. lia. Qed.

Lemma gd_bytes g x : group_ok fs g -> gdt_block fs * bs + g * 32 <= x < gdt_block fs * bs + g * 32 + 32 ->
  forall b, last_gdt fs < b -> ~ in_blk fs b x.
Proof.
  intros Hg Hx b Hb Hin. pose proof (gd_at_addr g 0 Hg ltac:(lia)) as Ha.
  pose proof (gd_at_bound fs g 0 (v_geom _ _ Vol) ltac:(lia)) as Hb'.
  destruct (gd_at fs g 0) as [gb go]. cbn [snd] in Hb'. destruct Ha as (A1 & A2 & A3). pose proof bs_bound.
  assert (Hgb : in_blk fs gb x) by (unfold in_blk; lia). pose proof (in_blk_inj _ _ _ Hin Hgb). lia.
Qed.

(** The superblock lies before the descriptors. *)
Lemma super_bytes : 2048 <= gdt_block fs * bs.
Proof.
  destruct (v_first _ _ Vol) as [F1 F2]. pose proof (v_super _ _ Vol) as S.
  destruct (g_bs fs (v_geom _ _ Vol)) as [E|[E|E]]; rewrite E in *; change (1024 / 1024) with 1 in *;
    change (1024 / 2048) with 0 in *; change (1024 / 4096) with 0 in *; lia.
Qed.

Lemma counts_before g o16 o32 x b : group_ok fs g -> 0 <= o16 <= 30 -> 0 <= o32 <= 1020 -> last_gdt fs < b ->
  in_blk fs b x -> ~ counts g o16 o32 x.
Proof.
  intros Hg H1 H2 Hb Hx [Hc|Hc].
  - eapply (gd_bytes g x Hg); [|done|done]. lia.
  - pose proof super_bytes. destruct (v_first _ _ Vol) as [F1 F2]. pose proof last_gdt_first. unfold in_blk in Hx. pose proof bs_bound. nia.
Qed.

(** * Allocation *)

Lemma same_gd_refl img : same_gd fs img img.
Proof. done. Qed.

Lemma same_gd_trans i1 i2 i3 : same_gd fs i1 i2 -> same_gd fs i2 i3 -> same_gd fs i1 i3.
Proof. intros H1 H2 g off Hg Ho. rewrite H2, H1; done. Qed.

Lemma same_gd_bbm img img' b : same_gd fs img img' -> is_bbm fs img' b <-> is_bbm fs img b.
Proof. intros H. unfold is_bbm. split; intros (g & Hg & ->); exists g; (split; [done|]); rewrite H; auto. Qed.

Lemma same_gd_ibm img img' b : same_gd fs img img' -> is_ibm fs img' b <-> is_ibm fs img b.
Proof. intros H. unfold is_ibm. split; intros (g & Hg & ->); exists g; (split; [done|]); rewrite H; auto. Qed.

Lemma same_gd_itab img img' b : same_gd fs img img' -> is_itab fs img' b <-> is_itab fs img b.
Proof.
  intros H. unfold is_itab. split; intros (g & Hg & Hb); exists g; (split; [done|]); rewrite H in *; auto.
Qed.

Lemma same_gd_sys img img' b : same_gd fs img img' -> sys fs img' b <-> sys fs img b.
Proof. intros H. unfold sys. by rewrite same_gd_bbm, same_gd_ibm, same_gd_itab. Qed.

(** A layout stays one when no bit is cleared. *)
Lemma layout_mono img img' : layout fs img -> same_gd fs img img' ->
  (forall b, in_vol fs b -> used fs img b = true -> used fs img' b = true) -> layout fs img'.
Proof.
  intros L S U. split.
  - intros g Hg. rewrite S by auto. by apply L.
  - intros g g' Hg Hg'. rewrite !S by auto. by apply L.
  - intros g Hg. rewrite S by auto. by apply L.
  - intros b. rewrite same_gd_ibm, same_gd_bbm by done. apply L.
  - intros g Hg. rewrite S by auto. by apply L.
  - intros b. rewrite same_gd_itab, same_gd_ibm, same_gd_bbm by done. apply L.
  - intros g g' b Hg Hg'. rewrite !S by auto. by apply L.
  - intros b Hs Hv. apply U; [done|]. rewrite same_gd_sys in Hs by done. by apply L.
Qed.

(** [img'] is [img] with the blocks [new], free before, now in use. *)
Record grown (img : mem) (new : list Z) (img' : mem) : Prop := {
  gr_lay : layout fs img';
  gr_gd : same_gd fs img img';
  gr_nodup : NoDup new;
  gr_free b : b ∈ new -> in_vol fs b /\ used fs img b = false;
  gr_used b : in_vol fs b -> used fs img' b = used fs img b || bool_decide (b ∈ new)
}.

(** Past the descriptors, only the block bitmaps and the blocks in [W] changed. *)
Definition frame (img img' : mem) (W : Z -> Prop) : Prop :=
  forall b, last_gdt fs < b -> ~ is_bbm fs img b -> ~ W b -> untouched img img' b.

Lemma grown_refl img : layout fs img -> grown img [] img.
Proof.
  clear Vol. intros L. split; [done|done|constructor|by intros b ?%not_elem_of_nil|]. intros b _. by rewrite orb_false_r.
Qed.

Lemma grown_trans i1 n1 i2 n2 i3 : grown i1 n1 i2 -> grown i2 n2 i3 -> grown i1 (n1 ++ n2) i3.
Proof.
  clear Vol. intros G1 G2. split.
  - apply G2.
  - eapply same_gd_trans; [apply G1|apply G2].
  - apply NoDup_app. split_and!; [apply G1| |apply G2]. intros b H1 H2.
    destruct (gr_free _ _ _ G2 b H2) as [V U]. rewrite (gr_used _ _ _ G1) in U by done.
    rewrite (bool_decide_eq_true_2 (b ∈ n1)) in U by done. by rewrite orb_true_r in U.
  - intros b [Hb|Hb]%elem_of_app; [by apply G1|]. destruct (gr_free _ _ _ G2 b Hb) as [V U]. split; [done|].
    rewrite (gr_used _ _ _ G1) in U by done. by apply orb_false_iff in U as [-> _].
  - intros b V. rewrite (gr_used _ _ _ G2), (gr_used _ _ _ G1) by done. rewrite <- orb_assoc. f_equal.
    rewrite <- bool_decide_or. apply bool_decide_ext. set_solver.
Qed.

Lemma frame_trans i1 i2 i3 W1 W2 : same_gd fs i1 i2 -> frame i1 i2 W1 -> frame i2 i3 W2 -> frame i1 i3 (fun b => W1 b \/ W2 b).
Proof.
  intros S F1 F2 b Hb Hm Hw. eapply untouched_trans; [apply F1; tauto|]. apply F2; [done| |tauto].
  by rewrite same_gd_bbm.
Qed.

Lemma frame_mono img img' (W W' : Z -> Prop) : (forall b, W b -> W' b) -> frame img img' W -> frame img img' W'.
Proof. intros H F b Hb Hm Hw. apply F; auto. Qed.

(** What alloc_block does when it returns the block [b]. *)
Definition allocated (img : mem) (b : Z) (img' : mem) : Prop :=
  grown img [b] img' /\ frame img img' (eq b) /\ (forall x, in_blk fs b x -> img' x = 0).

Definition full (img : mem) : Prop := forall b, in_vol fs b -> used fs img b = true.

Lemma free_not_sys img b : layout fs img -> in_vol fs b -> used fs img b = false -> ~ sys fs img b.
Proof. intros L V U S. pose proof (lay_used _ _ L b S V). congruence. Qed.

(** The image after a bit was set, the block zeroed and the counters stepped. *)
Lemma alloc_effect img g k img' : layout fs img -> group_ok fs g -> 0 <= k < group_limit fs g ->
  dbit img (gd32 fs img g 0) k = false ->
  (forall x, ~ counts g 12 12 x -> img' x = zero_img (set_bit img (gd32 fs img g 0) k) (group_base fs g + k) x) ->
  allocated img (group_base fs g + k) img'.
Proof.
  intros L Hg Hk Hd Hi. set (bmp := gd32 fs img g 0) in *. destruct (coords_block g k Hg Hk) as (V & Cg & Cb & _).
  set (b := group_base fs g + k) in *.
  assert (Hu : used fs img b = false) by (by rewrite used_dbit, Cg, Cb).
  pose proof (free_not_sys img b L V Hu) as Ns. destruct (lay_bbm _ _ L g Hg) as [M1 M2]. fold bmp in M1, M2.
  destruct (group_extent g Hg) as (_ & _ & _ & Hlim).
  assert (Hbl : last_gdt fs < b) by (unfold sys in Ns; lia).
  assert (Hbb : b <> bmp). { intros ->. apply Ns. right. left. by exists g. }
  assert (Hk8 : 0 <= k / 8 < bs) by (split; [apply Z.div_pos; lia|apply Z.div_lt_upper_bound; lia]).
  (* outside the bitmap block, the new block and the counters *)
  assert (Out : forall x, ~ counts g 12 12 x -> ~ in_blk fs b x -> x <> bmp * bs + k / 8 -> img' x = img x).
  { intros x X1 X2 X3. rewrite Hi, zero_img_out by done. apply bit_img_out; [lia|done]. }
  assert (Sg : same_gd fs img img').
  { intros h off Hh Ho. apply gd32_ext; [done|lia|]. intros x Hx.
    assert (Hx32 : gdt_block fs * bs + h * 32 <= x < gdt_block fs * bs + h * 32 + 32) by lia. apply Out.
    - intros [C|C]; [|pose proof super_bytes; destruct Hh; lia].
      destruct (decide (h = g)) as [->|]; [lia|]. destruct Hh, Hg. lia.
    - by apply (gd_bytes h x).
    - intros ->. apply (gd_bytes h _ Hh Hx32 bmp); [done|]. unfold in_blk. lia. }
  assert (Bit : forall b', in_vol fs b' -> used fs img' b' = used fs img b' || bool_decide (b' ∈ [b])).
  { intros b' V'. rewrite !used_dbit. destruct (block_coords b' V') as (Hg' & Hb' & Eb').
    rewrite Sg by auto. set (bmp' := gd32 fs img (grp b') 0). pose proof (bit_range b').
    destruct (lay_bbm _ _ L _ Hg') as [M1' M2']. fold bmp' in M1', M2'.
    assert (bit b' / 8 < bs) by (apply Z.div_lt_upper_bound; lia). pose proof (Z.div_pos (bit b') 8 ltac:(lia) ltac:(lia)).
    transitivity (dbit (set_bit img bmp k) bmp' (bit b')).
    { unfold dbit. f_equal. apply ld_ext. intros x Hx.
      assert (Hin : in_blk fs bmp' x) by (unfold in_blk; lia).
      rewrite Hi, zero_img_out; [done| |by eapply counts_before; try exact Hin; try lia].
      intros Hxb. pose proof (in_blk_inj _ _ _ Hin Hxb) as E. apply Ns. rewrite <- E. right. left. by exists (grp b'). }
    rewrite dbit_set by lia. destruct (decide _) as [[E1 E2]|N].
    - assert (grp b' = g) as Eg by (apply (lay_bbm_inj _ _ L); done).
      rewrite bool_decide_eq_true_2, orb_true_r; [done|]. rewrite <- Eb', Eg, E2. set_solver.
    - rewrite bool_decide_eq_false_2, orb_false_r; [done|]. intros ->%list_elem_of_singleton. apply N.
      unfold bmp', bmp. by rewrite Cg, Cb. }
  split_and!; [split| |].
  - eapply layout_mono; [done|done|]. intros b' V' U'. rewrite Bit by done. by rewrite U'.
  - done.
  - apply NoDup_singleton.
  - intros b' ->%list_elem_of_singleton. done.
  - done.
  - intros b' H1 H2 H3 x Hx. apply Out.
    + by eapply counts_before; try exact Hx; try lia.
    + intros Hx'. apply H3. by eapply in_blk_inj.
    + intros ->. apply H2. exists g. split; [done|]. apply (in_blk_inj _ _ _ Hx). unfold in_blk. fold bmp. lia.
  - intros x Hx. rewrite Hi by (by eapply counts_before; try exact Hx; try lia). by apply zero_img_in.
Qed.

Lemma eval_alloc_block img : layout fs img ->
  (eval 1 (alloc_block fs) img 0 img /\ full img) \/
  exists b img', eval 1 (alloc_block fs) img b img' /\ allocated img b img'.
Proof.
  intros L.
  enough (H : forall n g, 0 <= g -> g + Z.of_nat n = group_count fs ->
    (eval 1 (alloc_block_from n fs g) img 0 img /\ forall b, in_vol fs b -> g <= grp b -> used fs img b = true) \/
    exists b img', eval 1 (alloc_block_from n fs g) img b img' /\ allocated img b img').
  { destruct group_count_bound as (B1 & _). destruct (H (Z.to_nat (group_count fs)) 0) as [[E F]|(b & img' & E & A)]; [lia..| |].
    - left. split; [done|]. intros b V. apply F; [done|]. by destruct (block_coords b V) as ([? _] & _).
    - right. by exists b, img'. }
  intros n. induction n as [|n IH]; intros g Hg Hn; cbn [alloc_block_from].
  { left. split; [apply eval_ret|]. intros b V Hb. destruct (block_coords b V) as ([? ?] & _). lia. }
  assert (Gg : group_ok fs g) by (split; lia). destruct (lay_bbm _ _ L g Gg) as [M1 M2].
  destruct (group_extent g Gg) as (E1 & E2 & E3 & E4). pose proof last_gdt_first. destruct (v_first _ _ Vol) as [F1 F2].
  set (bmp := gd32 fs img g 0) in *.
  assert (Hne : (bmp =? 0) = false) by lia.
  pose proof (eval_gd_read32 g 0 img Gg ltac:(lia)) as Eg. fold bmp in Eg.
  destruct (eval_bitmap_alloc bmp (group_limit fs g) img) as [[E F]|(k & Hk & Hd & E)]; [lia..| |].
  - destruct (IH (g + 1)) as [[E' F']|(b & img' & E' & A)]; [lia..| |].
    + left. split.
      * eapply eval_bind; [exact Eg|]. rewrite Hne. eapply eval_bind; [exact E|]. done.
      * intros b V Hb. destruct (decide (grp b = g)) as [Eq|]; [|apply F'; [done|lia]].
        rewrite used_dbit, Eq. apply F. destruct (block_coords b V) as (_ & ? & _). by rewrite <- Eq.
    + right. exists b, img'. split; [|done].
      eapply eval_bind; [exact Eg|]. rewrite Hne. eapply eval_bind; [exact E|]. done.
  - right. destruct (coords_block g k Gg Hk) as (V & Cg & Cb & Cu).
    destruct (eval_adj g 12 12 false (zero_img (set_bit img bmp k) (group_base fs g + k)) Gg) as (img' & Ea & Ha); [lia..|].
    exists (group_base fs g + k), img'. split.
    + eapply eval_bind; [exact Eg|]. rewrite Hne. eapply eval_bind; [exact E|].
      replace (k <? 0) with false by lia. cbv zeta. rewrite Cu.
      eapply eval_bind; [apply eval_zero_block, V|]. eapply eval_bind; [exact Ea|]. apply eval_ret.
    + by apply alloc_effect.
Qed.
End Volume.
