(* ===== verification/Ext2Inode.v ===== *)
(** The inode table of an ext2 volume: write_inode and read_inode are inverse, and
    writing one inode changes neither another nor a bitmap nor a file's block. *)

From stdpp Require Import base numbers option list gmap.
From Stdlib Require Import ZArith Lia.
From S2P Require Import Prelude Buf Tmpfs Ext2 Ext2Safe Ext2Disk.

(** * The bytes of an inode *)

Fixpoint st_map (b : mem) (o : Z) (l : list Z) : mem :=
  match l with [] => b | x :: l => st_map (st32 b o x) (o + 4) l end.

Lemma st_map_out b o l x : x < o \/ o + 4 * len l <= x -> st_map b o l x = b x.
Proof.
  revert b o. induction l as [|y l IH]; intros b o Hx; cbn [st_map]; [done|]. rewrite len_cons in Hx.
  pose proof (len_nonneg l). rewrite IH by lia. apply st_frame. lia.
Qed.

Lemma ld_st_map_out n b o l x : x + Z.of_nat n <= o \/ o + 4 * len l <= x -> ld n (st_map b o l) x = ld n b x.
Proof. intros H. apply ld_ext. intros y Hy. apply st_map_out. lia. Qed.

Lemma ld_st_map b o l i x : l !! i = Some x -> ld32 (st_map b o l) (o + 4 * Z.of_nat i) = u32 x.
Proof.
  revert b o i. induction l as [|y l IH]; intros b o i Hi; [done|]. cbn [st_map]. destruct i as [|i].
  - injection Hi as ->. rewrite ld_st_map_out by lia. replace (o + 4 * Z.of_nat 0) with o by lia. apply ld32_st32.
  - replace (o + 4 * Z.of_nat (S i)) with (o + 4 + 4 * Z.of_nat i) by lia. by apply IH.
Qed.

(** The inode [vi] stored at [o]. *)
Definition put_inode (b : mem) (o : Z) (vi : ext2_vinfo) : mem :=
  st_map (st32 (st16 (st32 (st16 b (o + 0) (vi_mode vi)) (o + 4) (vi_size vi)) (o + 26) (vi_links vi)) (o + 28)
    (vi_blocks512 vi)) (o + 40) (vi_block vi).

(** The inode number [ino] read at [a]. *)
Definition get_inode (fa : Z) (m : mem) (a ino : Z) : ext2_vinfo :=
  Vinfo fa ino (ld32 m (a + 4)) (ld16 m (a + 0)) (ld16 m (a + 26)) (ld32 m (a + 28))
    ((fun i => ld32 m (a + 40 + i * 4)) <$> seqZ 0 15) 0.

(** The fields that are on the disk fit their width. *)
Record fits (vi : ext2_vinfo) : Prop := {
  ft_slots : slots vi;
  ft_mode : 0 <= vi_mode vi < 2 ^ 16;
  ft_size : 0 <= vi_size vi < 2 ^ 32;
  ft_links : 0 <= vi_links vi < 2 ^ 16;
  ft_blocks : 0 <= vi_blocks512 vi < 2 ^ 32;
  ft_map : Forall (fun x => 0 <= x < 2 ^ 32) (vi_block vi)
}.

Lemma put_inode_out b o vi x : slots vi -> x < o \/ o + 128 <= x -> put_inode b o vi x = b x.
Proof.
  intros Hs Hx. unfold put_inode. assert (len (vi_block vi) = 15) by (unfold len; by rewrite Hs).
  rewrite st_map_out by lia. rewrite !st_frame by lia. done.
Qed.

Lemma get_put_inode fa b o vi : fits vi -> get_inode fa (put_inode b o vi) o (vi_ino vi) = with_vi_gc_next 0
  (Vinfo fa (vi_ino vi) (vi_size vi) (vi_mode vi) (vi_links vi) (vi_blocks512 vi) (vi_block vi) 0).
Proof.
  intros [Hs H1 H2 H3 H4 H5]. assert (Hl : len (vi_block vi) = 15) by (unfold len; by rewrite Hs).
  unfold get_inode, put_inode, with_vi_gc_next. cbn [vi_fs vi_ino vi_size vi_mode vi_links vi_blocks512 vi_block].
  rewrite !(ld_st_map_out 4), !(ld_st_map_out 2) by lia. f_equal.
  - rewrite !(ld_st_disj _ 4) by lia. rewrite ld32_st32. by apply u32_small.
  - rewrite !(ld_st_disj _ 2) by lia. rewrite (ld_st_in 2); [done|]. change (256 ^ Z.of_nat 2) with (2 ^ 16). lia.
  - rewrite !(ld_st_disj _ 2) by lia. rewrite (ld_st_in 2); [done|]. change (256 ^ Z.of_nat 2) with (2 ^ 16). lia.
  - rewrite ld32_st32. by apply u32_small.
  - apply list_eq. intros k. rewrite list_lookup_fmap. destruct (decide (k < 15)%nat) as [Hk|Hk].
    + rewrite (lookup_seqZ_lt _ _ k) by lia. cbn. destruct (lookup_lt_is_Some_2 (vi_block vi) k) as [x Hx]; [by rewrite Hs|].
      rewrite Hx. f_equal. replace (o + 40 + (0 + Z.of_nat k) * 4) with (o + 40 + 4 * Z.of_nat k) by lia. erewrite ld_st_map by exact Hx. apply u32_small.
      by eapply (Forall_lookup_1 _ _ _ _ H5).
    + rewrite (lookup_seqZ_ge _ _ k) by lia. symmetry. apply lookup_ge_None. rewrite Hs. lia.
Qed.

(** * In the inode table *)

Section Inode.
Context (fs : ext2_fs) (NS : Z) (junk : mem) (Vol : volume fs NS).
#[local] Abbreviation bs := (block_size fs).
#[local] Abbreviation eval := (eval NS junk).

Definition igrp (ino : Z) : Z := (ino - 1) / inodes_per_group fs.
Definition iidx (ino : Z) : Z := (ino - 1) mod inodes_per_group fs.

(** An inode number of the volume, and where its bytes are. *)
Definition ino_ok (ino : Z) : Prop := 1 <= ino /\ group_ok fs (igrp ino).
Definition ino_addr (img : mem) (ino : Z) : Z := gd32 fs img (igrp ino) 8 * bs + iidx ino * inode_size fs.

Lemma inode_place img ino : layout fs img -> ino_ok ino ->
  let '(ib, o) := inode_at fs ino (gd32 fs img (igrp ino) 8) in
  gd32 fs img (igrp ino) 8 <= ib < gd32 fs img (igrp ino) 8 + itab_len fs /\ ib < blocks_count fs /\ 0 <= o /\ o + 128 <= bs /\ ib * bs + o = ino_addr img ino.
Proof.
  intros L [I1 I2]. pose proof (inode_at_bound fs ino (gd32 fs img (igrp ino) 8) (v_geom _ _ Vol)) as Hb.
  destruct (lay_itab _ _ L _ I2) as [T1 T2]. set (t := gd32 fs img (igrp ino) 8) in *.
  unfold inode_at in *. cbn [snd] in Hb. pose proof (g_bs_bound fs (v_geom _ _ Vol)) as B. unfold PAGE in B.
  destruct (g_ipg fs (v_geom _ _ Vol)) as [G1 G2]. destruct (g_isz fs (v_geom _ _ Vol)) as [S1 S2].
  assert (S3 : inode_size fs <= bs) by (apply Z.divide_pos_le; [lia|done]).
  pose proof (Z.mod_pos_bound (ino - 1) (inodes_per_group fs) ltac:(lia)) as Hm. fold (iidx ino) in *.
  assert (Hy : 0 <= iidx ino * inode_size fs < 2 ^ 32) by nia. rewrite (u32_small (iidx ino * inode_size fs)) in * by lia.
  set (y := iidx ino * inode_size fs) in *. pose proof (Z.div_mod y bs ltac:(lia)) as Dm.
  assert (Hq : 0 <= y / bs < itab_len fs).
  { split; [apply Z.div_pos; lia|]. unfold itab_len.
    apply Z.lt_le_trans with ((y + bs) / bs); [rewrite <- (Z.mul_1_l bs) at 2; rewrite Z.div_add by lia; lia|].
    apply Z.div_le_mono; [lia|]. subst y. nia. }
  destruct (v_count _ _ Vol) as [C1 C2]. pose proof (g_bpg fs (v_geom _ _ Vol)). pose proof (last_gdt_first fs NS Vol).
  destruct (v_first _ _ Vol) as [F1 F2].
  rewrite u32_small by lia. unfold ino_addr. fold t y. lia.
Qed.

(** The image with the inode [vi] written. *)
Definition inode_img (img : mem) (vi : ext2_vinfo) : mem :=
  let '(ib, o) := inode_at fs (vi_ino vi) (gd32 fs img (igrp (vi_ino vi)) 8) in
  let pg := mblit junk 0 img (fst (gd_at fs (igrp (vi_ino vi)) 0) * bs) bs in
  mblit img (ib * bs) (put_inode (mblit pg 0 img (ib * bs) bs) o vi) 0 bs.

Lemma eval_wr_map F b o l img : 0 <= o -> o + 4 * len l <= PAGE -> eval F (wr_map b o l) img (st_map b o l) img.
Proof.
  revert b o. induction l as [|x l IH]; intros b o Ho Hl; cbn [wr_map st_map]; [apply eval_ret|].
  rewrite len_cons in Hl. pose proof (len_nonneg l). eapply eval_bind; [apply eval_wr32; lia|]. apply IH; lia.
Qed.

(** The table of the inode's group, read from the page of the descriptor. *)
Lemma gd_table img ino : ino_ok ino ->
  let '(gb, go) := gd_at fs (igrp ino) 0 in
  gb < blocks_count fs /\ 0 <= go /\ go + 12 <= bs /\
  ld32 (mblit junk 0 img (gb * bs) bs) (go + 8) = gd32 fs img (igrp ino) 8.
Proof.
  intros [I1 I2]. pose proof (gd_at_addr fs NS Vol _ 0 I2 ltac:(lia)) as Ha.
  pose proof (gd_at_bound fs (igrp ino) 0 (v_geom _ _ Vol) ltac:(lia)) as Hb.
  destruct (gd_at fs (igrp ino) 0) as [gb go]. cbn [snd] in Hb. destruct Ha as (A1 & A2 & A3). destruct (v_gdt _ _ Vol) as [D1 D2].
  split_and!; [lia|lia|lia|]. rewrite ld_mblit_in by lia. unfold gd32. f_equal. lia.
Qed.

Lemma eval_write_inode vi img : layout fs img -> ino_ok (vi_ino vi) -> slots vi ->
  eval 1 (write_inode fs vi) img 0 (inode_img img vi).
Proof.
  intros L Hi Hs. unfold write_inode, inode_img. fold (igrp (vi_ino vi)). apply (eval_page 0); [done|].
  pose proof (gd_table img _ Hi) as Hg. pose proof (inode_place img _ L Hi) as Hp. pose proof (bs_bound fs NS Vol).
  destruct (gd_at fs (igrp (vi_ino vi)) 0) as [gb go]. destruct Hg as (G1 & G2 & G3 & G4).
  eapply eval_bind; [by apply (eval_bread fs NS junk Vol)|]. cbn [Z.eqb negb].
  eapply eval_bind; [apply eval_rd32; lia|]. rewrite G4. cbn [fst].
  destruct (inode_at _ _ _) as [ib o]. destruct Hp as (P1 & P2 & P3 & P4 & P5).
  eapply eval_bind; [by apply (eval_bread fs NS junk Vol)|]. cbn [Z.eqb negb].
  eapply eval_bind; [apply eval_wr16; lia|]. eapply eval_bind; [apply eval_wr32; lia|].
  eapply eval_bind; [apply eval_wr16; lia|]. eapply eval_bind; [apply eval_wr32; lia|].
  eapply eval_bind; [apply eval_wr_map; unfold len; rewrite ?Hs; lia|]. by apply (eval_bwrite fs NS junk Vol).
Qed.

Lemma eval_mapM {A B} F (f : A -> M B) (g : A -> B) l img : (forall x, x ∈ l -> eval F (f x) img (g x) img) ->
  eval F (mapM f l) img (g <$> l) img.
Proof.
  induction l as [|x l IH]; intros H; cbn [mapM]; [apply eval_ret|].
  eapply eval_bind; [apply H; by left|]. eapply eval_bind; [apply IH; intros; apply H; by right|]. apply eval_ret.
Qed.

Lemma eval_read_inode ino img : layout fs img -> ino_ok ino ->
  eval 1 (read_inode fs ino) img (inr (get_inode (fs_self fs) img (ino_addr img ino) ino)) img.
Proof.
  intros L Hi. unfold read_inode. fold (igrp ino). destruct Hi as [I1 I2] eqn:Ei. clear Ei. replace (ino =? 0) with false by lia.
  apply (eval_page 0); [done|].
  pose proof (gd_table img _ Hi) as Hg. pose proof (inode_place img _ L Hi) as Hp. pose proof (bs_bound fs NS Vol).
  destruct (gd_at fs (igrp ino) 0) as [gb go]. destruct Hg as (G1 & G2 & G3 & G4).
  eapply eval_bind; [by apply (eval_bread fs NS junk Vol)|]. cbn [Z.eqb negb].
  eapply eval_bind; [apply eval_rd32; lia|]. rewrite G4.
  destruct (inode_at _ _ _) as [ib o]. destruct Hp as (P1 & P2 & P3 & P4 & P5).
  eapply eval_bind; [by apply (eval_bread fs NS junk Vol)|]. cbn [Z.eqb negb]. set (pg := mblit _ 0 img (ib * bs) bs).
  assert (Ld : forall n k, 0 <= k -> k + Z.of_nat n <= 128 -> ld n pg (o + k) = ld n img (ino_addr img ino + k)).
  { intros n k K1 K2. subst pg. rewrite ld_mblit_in by lia. f_equal. lia. }
  eapply eval_bind; [apply eval_rd16; lia|]. eapply eval_bind; [apply eval_rd32; lia|].
  eapply eval_bind; [apply eval_rd16; lia|]. eapply eval_bind; [apply eval_rd32; lia|].
  eapply eval_bind. { apply (eval_mapM _ _ (fun i => ld32 pg (o + 40 + i * 4))). intros i Hx%elem_of_seqZ. apply eval_rd32; lia. }
  unfold get_inode. rewrite !Ld by lia.
  replace ((fun i => ld32 img (ino_addr img ino + 40 + i * 4)) <$> seqZ 0 15)
    with ((fun i => ld32 pg (o + 40 + i * 4)) <$> seqZ 0 15); [apply eval_ret|].
  apply list_fmap_ext. intros k x Hx. apply lookup_seqZ in Hx as [-> Hk].
  rewrite <- !Z.add_assoc. apply Ld; lia.
Qed.

(** ** What writing an inode changes *)

Lemma inode_img_out img vi x : layout fs img -> ino_ok (vi_ino vi) -> slots vi ->
  x < ino_addr img (vi_ino vi) \/ ino_addr img (vi_ino vi) + 128 <= x -> inode_img img vi x = img x.
Proof.
  intros L Hi Hs Hx. unfold inode_img. pose proof (inode_place img _ L Hi) as Hp.
  destruct (inode_at _ _ _) as [ib o]. destruct Hp as (P1 & P2 & P3 & P4 & P5).
  destruct (decide (ib * bs <= x < ib * bs + bs)); [|by rewrite mblit_out by lia].
  rewrite mblit_in by lia. rewrite put_inode_out by (done || lia). rewrite mblit_in by lia. f_equal. lia.
Qed.

Lemma inode_img_get img vi : layout fs img -> ino_ok (vi_ino vi) -> fits vi -> vi_fs vi = fs_self fs ->
  get_inode (fs_self fs) (inode_img img vi) (ino_addr img (vi_ino vi)) (vi_ino vi) = with_vi_gc_next 0 vi.
Proof.
  intros L Hi Hf Hs. unfold inode_img. pose proof (inode_place img _ L Hi) as Hp.
  destruct (inode_at _ _ _) as [ib o]. destruct Hp as (P1 & P2 & P3 & P4 & P5).
  set (b := mblit _ 0 img (ib * bs) bs). pose proof (get_put_inode (fs_self fs) b o vi Hf) as E.
  transitivity (get_inode (fs_self fs) (put_inode b o vi) o (vi_ino vi)); [|rewrite E, <- Hs; done].
  assert (Ld : forall n k, 0 <= k -> k + Z.of_nat n <= 128 ->
    ld n (mblit img (ib * bs) (put_inode b o vi) 0 bs) (ino_addr img (vi_ino vi) + k) = ld n (put_inode b o vi) (o + k)).
  { intros n k K1 K2. rewrite ld_mblit_in by lia. f_equal. lia. }
  unfold get_inode. rewrite !Ld by lia. f_equal. apply list_fmap_ext. intros k x Hx. apply lookup_seqZ in Hx as [-> Hk].
  rewrite <- !Z.add_assoc. apply Ld; lia.
Qed.

(** Only a block of an inode table changes. *)
Lemma inode_img_block img vi b : layout fs img -> ino_ok (vi_ino vi) -> slots vi -> ~ is_itab fs img b ->
  untouched fs img (inode_img img vi) b.
Proof.
  intros L Hi Hs Hb x Hx. apply inode_img_out; [done..|]. pose proof (inode_place img _ L Hi) as Hp.
  destruct (inode_at _ _ _) as [ib o]. destruct Hp as (P1 & P2 & P3 & P4 & P5).
  destruct (decide (ino_addr img (vi_ino vi) <= x < ino_addr img (vi_ino vi) + 128)); [|lia].
  exfalso. apply Hb. assert (E : b = ib); [|rewrite E; exists (igrp (vi_ino vi)); split; [apply Hi|done]]. apply (in_blk_inj fs NS Vol b ib x Hx). unfold in_blk. lia.
Qed.

Lemma inode_img_layout img vi : layout fs img -> ino_ok (vi_ino vi) -> slots vi ->
  same_gd fs img (inode_img img vi) /\ layout fs (inode_img img vi) /\
  forall b, in_vol fs b -> used fs (inode_img img vi) b = used fs img b.
Proof.
  intros L Hi Hs. assert (S : same_gd fs img (inode_img img vi)).
  { intros g off Hg Ho. apply (gd32_ext fs); [done|lia|]. intros x Hx. apply inode_img_out; [done..|].
    pose proof (inode_place img _ L Hi) as Hp. destruct (inode_at _ _ _) as [ib o]. destruct Hp as (P1 & P2 & P3 & P4 & P5).
    destruct Hi as [_ Hg']. destruct (lay_itab _ _ L _ Hg') as [T1 T2].
    pose proof (gd_bytes fs NS Vol g x Hg ltac:(lia) ib ltac:(lia)) as Hn. unfold in_blk in Hn. lia. }
  assert (U : forall b, in_vol fs b -> used fs (inode_img img vi) b = used fs img b).
  { intros b V. rewrite !used_dbit. destruct (block_coords fs NS Vol b V) as (Hg & Hk & _). rewrite S by auto.
    unfold dbit. f_equal. pose proof (bit_range fs NS Vol b).
    assert (0 <= bit fs b / 8 < bs) by (split; [apply Z.div_pos; lia|apply Z.div_lt_upper_bound; lia]).
    apply (untouched_ld fs); [|lia|lia]. apply inode_img_block; [done..|]. intros Ht. eapply (lay_itab_maps _ _ L); [exact Ht|].
    left. by exists (grp fs b). }
  split_and!; [done| |done]. eapply layout_mono; [done|done|]. intros b V. by rewrite U.
Qed.

Lemma inode_img_addr img vi ino : layout fs img -> ino_ok (vi_ino vi) -> slots vi -> ino_ok ino ->
  ino_addr (inode_img img vi) ino = ino_addr img ino.
Proof.
  intros L Hi Hs [_ Hg]. destruct (inode_img_layout img vi L Hi Hs) as (S & _). unfold ino_addr. rewrite S by auto. done.
Qed.

(** Two inodes do not overlap. *)
Lemma ino_addr_disjoint img i j : layout fs img -> ino_ok i -> ino_ok j -> i <> j ->
  ino_addr img i + 128 <= ino_addr img j \/ ino_addr img j + 128 <= ino_addr img i.
Proof.
  intros L Hi Hj N. pose proof Hi as [I1 I2]. pose proof Hj as [J1 J2]. destruct (decide (igrp i = igrp j)) as [E|Ng].
  - unfold ino_addr. rewrite E. destruct (g_isz fs (v_geom _ _ Vol)) as [S1 _].
    destruct (g_ipg fs (v_geom _ _ Vol)) as [G1 _].
    assert (iidx i <> iidx j).
    { intros E'. apply N. unfold igrp, iidx in *. pose proof (Z.div_mod (i - 1) (inodes_per_group fs) ltac:(lia)).
      pose proof (Z.div_mod (j - 1) (inodes_per_group fs) ltac:(lia)). rewrite E, E' in *. lia. }
    nia.
  - pose proof (inode_place img i L Hi) as Pi. pose proof (inode_place img j L Hj) as Pj.
    destruct (inode_at fs i _) as [bi oi] eqn:Ei. destruct (inode_at fs j _) as [bj oj] eqn:Ej.
    destruct Pi as (Ri & _ & P3 & P4 & P5). destruct Pj as (Rj & _ & Q3 & Q4 & Q5).
    destruct (decide (bi = bj)) as [Eb|Nb]; [|nia]. destruct Ng. rewrite Eb in Ri. by eapply (lay_itab_inj _ _ L).
Qed.

Lemma inode_img_other img vi ino : layout fs img -> ino_ok (vi_ino vi) -> slots vi -> ino_ok ino -> ino <> vi_ino vi ->
  get_inode (fs_self fs) (inode_img img vi) (ino_addr img ino) ino = get_inode (fs_self fs) img (ino_addr img ino) ino.
Proof.
  intros L Hi Hs Ho N. pose proof (ino_addr_disjoint img ino (vi_ino vi) L Ho Hi N) as Hd.
  assert (Ld : forall n k, 0 <= k -> k + Z.of_nat n <= 128 ->
    ld n (inode_img img vi) (ino_addr img ino + k) = ld n img (ino_addr img ino + k)).
  { intros n k K1 K2. apply ld_ext. intros x Hx. apply inode_img_out; [done..|]. lia. }
  unfold get_inode. rewrite !Ld by lia. f_equal. apply list_fmap_ext. intros k x Hx. apply lookup_seqZ in Hx as [-> Hk].
  rewrite <- !Z.add_assoc. apply Ld; lia.
Qed.
End Inode.
