(* ===== verification/Ext2File.v ===== *)
(** The block map of an ext2 file as a tree of pointer blocks: which blocks it
    owns, what map_block and alloc_file_block do to it, and what the bytes of the
    file are. *)

From stdpp Require Import base numbers option list gmap.
From Stdlib Require Import ZArith Lia.
From S2P Require Import Prelude Buf Tmpfs Ext2 Ext2Safe Ext2Disk.

(** * Concatenations over the slots of a block *)

Definition kids (n : Z) (f : Z -> list Z) : list Z := List.concat (f <$> seqZ 0 n).

Lemma kids_split n f i : 0 <= i < n ->
  kids n f = List.concat (f <$> seqZ 0 i) ++ f i ++ List.concat (f <$> seqZ (i + 1) (n - i - 1)).
Proof.
  intros Hi. unfold kids. replace n with (i + (1 + (n - i - 1))) at 1 by lia.
  rewrite seqZ_app by lia. rewrite (seqZ_app (0 + i) 1) by lia. rewrite !fmap_app, !concat_app.
  replace (0 + i + 1) with (i + 1) by lia. replace (0 + i) with i by lia.
  change (seqZ i 1) with [0 + i]. rewrite Z.add_0_l. cbn [fmap list_fmap List.concat]. by rewrite app_nil_r.
Qed.

Lemma elem_of_kids n f x : x ∈ kids n f <-> exists i, 0 <= i < n /\ x ∈ f i.
Proof.
  unfold kids. rewrite list_elem_of_In, in_concat. split.
  - intros (l & Hl & Hx). apply list_elem_of_In, list_elem_of_fmap in Hl as (i & -> & Hi).
    apply elem_of_seqZ in Hi. exists i. split; [lia|]. by apply list_elem_of_In.
  - intros (i & Hi & Hx). exists (f i). split; [|by apply list_elem_of_In].
    apply list_elem_of_In, list_elem_of_fmap. exists i. split; [done|]. apply elem_of_seqZ. lia.
Qed.

Lemma slots_ext n f g : (forall i, 0 <= i < n -> f i = g i) -> kids n f = kids n g.
Proof.
  intros H. unfold kids. f_equal. apply list_fmap_ext. intros k x Hx. apply lookup_seqZ in Hx as [-> Hk].
  apply H. lia.
Qed.

Lemma kids_update n f g i new : 0 <= i < n -> g i ≡ₚ f i ++ new -> (forall j, 0 <= j < n -> j <> i -> g j = f j) ->
  kids n g ≡ₚ kids n f ++ new.
Proof.
  intros Hi Hg Hj. rewrite !(kids_split n _ i) by done. rewrite Hg.
  assert (E1 : g <$> seqZ 0 i = f <$> seqZ 0 i).
  { apply list_fmap_ext. intros k x Hx. apply lookup_seqZ in Hx as [-> Hk]. apply Hj; lia. }
  assert (E2 : g <$> seqZ (i + 1) (n - i - 1) = f <$> seqZ (i + 1) (n - i - 1)).
  { apply list_fmap_ext. intros k x Hx. apply lookup_seqZ in Hx as [-> Hk]. apply Hj; lia. }
  rewrite E1, E2. rewrite <- !app_assoc. do 2 f_equiv. apply Permutation_app_comm.
Qed.

Lemma kids_nil n f : (forall i, 0 <= i < n -> f i = []) -> kids n f = [].
Proof.
  intros H. destruct (kids n f) as [|x l] eqn:E; [done|]. assert (Hx : x ∈ kids n f) by (rewrite E; by left).
  apply elem_of_kids in Hx as (i & Hi & Hx). rewrite H in Hx by done. by apply not_elem_of_nil in Hx.
Qed.

Lemma NoDup_kid n f i : 0 <= i < n -> NoDup (kids n f) -> NoDup (f i).
Proof. intros Hi. rewrite (kids_split n f i Hi). intros (_ & _ & H)%NoDup_app. by apply NoDup_app in H as (? & _). Qed.

Lemma slots_disjoint n f i j x : 0 <= i < n -> 0 <= j < n -> NoDup (kids n f) -> x ∈ f i -> x ∈ f j -> i = j.
Proof.
  intros Hi Hj Hn Xi Xj. destruct (decide (i = j)) as [|N]; [done|exfalso].
  rewrite (kids_split n f i Hi) in Hn. apply NoDup_app in Hn as (_ & D1 & H2). apply NoDup_app in H2 as (_ & D2 & _).
  assert (Hx : x ∈ List.concat (f <$> seqZ 0 i) \/ x ∈ List.concat (f <$> seqZ (i + 1) (n - i - 1))).
  { destruct (decide (j < i)); [left|right]; rewrite list_elem_of_In, in_concat; exists (f j);
      (split; [|by apply list_elem_of_In]); apply list_elem_of_In, list_elem_of_fmap; exists j;
      (split; [done|]); apply elem_of_seqZ; lia. }
  destruct Hx as [Hx|Hx]; [apply (D1 x Hx)|apply (D2 x Xi)]; set_solver.
Qed.

(** * Trees *)

Section Trees.
Context (fs : ext2_fs).
#[local] Abbreviation bs := (block_size fs).
#[local] Abbreviation per := (block_size fs / 4).

(** Pointer [i] of the block [b]. *)
Definition word (img : mem) (b i : Z) : Z := ld32 img (b * bs + i * 4).

(** The data block at index [idx] of the tree of level [l] at [r]; level 0 is a
    data block. *)
Fixpoint tmap (img : mem) (l : nat) (r idx : Z) : Z :=
  match l with
  | O => r
  | S l => if r =? 0 then 0 else tmap img l (word img r (idx / per ^ Z.of_nat l)) (idx mod per ^ Z.of_nat l)
  end.

(** All the blocks of the tree, and its pointer blocks. *)
Fixpoint tblocks (img : mem) (l : nat) (r : Z) : list Z :=
  if r =? 0 then [] else
  r :: match l with O => [] | S l => kids per (fun i => tblocks img l (word img r i)) end.

Fixpoint tinner (img : mem) (l : nat) (r : Z) : list Z :=
  match l with
  | O => []
  | S l => if r =? 0 then [] else r :: kids per (fun i => tinner img l (word img r i))
  end.

Lemma tblocks_S img l r :
  tblocks img (S l) r = if r =? 0 then [] else r :: kids per (fun i => tblocks img l (word img r i)).
Proof. done. Qed.

Lemma tinner_S img l r :
  tinner img (S l) r = if r =? 0 then [] else r :: kids per (fun i => tinner img l (word img r i)).
Proof. done. Qed.

Lemma tmap_0 img l idx : tmap img l 0 idx = 0.
Proof. by destruct l. Qed.

Lemma tblocks_0 img l : tblocks img l 0 = [].
Proof. by destruct l. Qed.

Lemma tinner_sub img l r b : b ∈ tinner img l r -> b ∈ tblocks img l r.
Proof.
  revert r. induction l as [|l IH]; intros r; cbn [tinner tblocks]; [by intros ?%not_elem_of_nil|].
  case_match; [done|]. intros [->|Hb]%elem_of_cons; [by left|right].
  apply elem_of_kids in Hb as (i & Hi & Hb). apply elem_of_kids. eauto.
Qed.

(** A tree depends on its pointer blocks only. *)
Lemma ptree_ext img img' l r : (forall b, b ∈ tinner img l r -> untouched fs img img' b) ->
  0 < per -> per * 4 = bs ->
  tblocks img' l r = tblocks img l r /\
  (forall idx, 0 <= idx < per ^ Z.of_nat l -> tmap img' l r idx = tmap img l r idx).
Proof.
  intros H Hp Hb. revert r H. induction l as [|l IH]; intros r H; cbn [tblocks tmap]; [done|].
  destruct (r =? 0) eqn:Er; [done|]. cbn [tinner] in H. rewrite Er in H.
  assert (W : forall i, 0 <= i < per -> word img' r i = word img r i).
  { intros i Hi. apply untouched_ld; [|lia|lia]. apply H. by left. }
  assert (K : forall i, 0 <= i < per -> forall b, b ∈ tinner img l (word img r i) -> untouched fs img img' b).
  { intros i Hi b Hin. apply H. right. apply elem_of_kids. eauto. }
  split.
  - f_equal. apply slots_ext. intros i Hi. rewrite W by done. by apply IH, K.
  - intros idx Hx. rewrite Nat2Z.inj_succ, Z.pow_succ_r in Hx by lia.
    assert (Hq : 0 < per ^ Z.of_nat l) by (apply Z.pow_pos_nonneg; lia).
    assert (Hi : 0 <= idx / per ^ Z.of_nat l < per).
    { split; [apply Z.div_pos; lia|]. apply Z.div_lt_upper_bound; lia. }
    rewrite W by done. apply IH; [by apply K|]. by apply Z.mod_pos_bound.
Qed.

Lemma tinner_ext img img' l r : (forall b, b ∈ tinner img l r -> untouched fs img img' b) ->
  0 < per -> per * 4 = bs -> tinner img' l r = tinner img l r.
Proof.
  intros H Hp Hb. revert r H. induction l as [|l IH]; intros r H; [done|]. cbn [tinner] in *.
  destruct (r =? 0) eqn:Er; [done|]. f_equal. apply slots_ext. intros i Hi.
  assert (W : word img' r i = word img r i) by (apply untouched_ld; [apply H; by left|lia|lia]).
  rewrite W. apply IH. intros b Hin. apply H. right. apply elem_of_kids. eauto.
Qed.

(** Data blocks are in the tree and are not pointer blocks. *)
Lemma tmap_in img l r idx : 0 < per -> 0 <= idx < per ^ Z.of_nat l -> tmap img l r idx <> 0 -> tmap img l r idx ∈ tblocks img l r.
Proof.
  intros Hp. revert r idx. induction l as [|l IH]; intros r idx Hx Hn; cbn [tmap tblocks] in *.
  - replace (r =? 0) with false by lia. by left.
  - destruct (r =? 0) eqn:Er; [done|]. right. apply elem_of_kids.
    rewrite Nat2Z.inj_succ, Z.pow_succ_r in Hx by lia. assert (Hq : 0 < per ^ Z.of_nat l) by (apply Z.pow_pos_nonneg; lia).
    exists (idx / per ^ Z.of_nat l). split; [split; [apply Z.div_pos; lia|apply Z.div_lt_upper_bound; lia]|].
    apply IH; [by apply Z.mod_pos_bound|done].
Qed.

Lemma tmap_not_inner img l r idx : 0 < per -> NoDup (tblocks img l r) -> 0 <= idx < per ^ Z.of_nat l ->
  tmap img l r idx <> 0 -> tmap img l r idx ∉ tinner img l r.
Proof.
  intros Hp. revert r idx. induction l as [|l IH]; intros r idx Hd Hx Hn; cbn [tmap tblocks tinner] in *; [apply not_elem_of_nil|].
  destruct (r =? 0) eqn:Er; [done|]. rewrite Nat2Z.inj_succ, Z.pow_succ_r in Hx by lia.
  assert (Hq : 0 < per ^ Z.of_nat l) by (apply Z.pow_pos_nonneg; lia).
  assert (Hi : 0 <= idx / per ^ Z.of_nat l < per) by (split; [apply Z.div_pos; lia|apply Z.div_lt_upper_bound; lia]).
  assert (Hm : 0 <= idx mod per ^ Z.of_nat l < per ^ Z.of_nat l) by (by apply Z.mod_pos_bound).
  apply NoDup_cons in Hd as [Hr Hk]. pose proof (tmap_in _ _ _ _ Hp Hm Hn) as Hin.
  intros [E|Hb]%elem_of_cons.
  - apply Hr, elem_of_kids. rewrite E in Hin. by exists (idx / per ^ Z.of_nat l).
  - apply elem_of_kids in Hb as (j & Hj & Hb).
    assert (E : j = idx / per ^ Z.of_nat l) by (eapply slots_disjoint; [done|done|exact Hk|by apply tinner_sub|done]).
    subst j. revert Hb. apply IH; [|done|done]. by apply (NoDup_kid per _ _ Hi Hk).
Qed.

Lemma tmap_inj img l r i j : 0 < per -> NoDup (tblocks img l r) -> 0 <= i < per ^ Z.of_nat l -> 0 <= j < per ^ Z.of_nat l ->
  tmap img l r i <> 0 -> tmap img l r i = tmap img l r j -> i = j.
Proof.
  intros Hp. revert r i j. induction l as [|l IH]; intros r i j Hd Hi Hj Hn E; [cbn in *; lia|]. cbn [tmap tblocks] in *.
  destruct (r =? 0) eqn:Er; [done|]. rewrite Nat2Z.inj_succ, Z.pow_succ_r in Hi, Hj by lia.
  set (q := per ^ Z.of_nat l) in *. assert (Hq : 0 < q) by (apply Z.pow_pos_nonneg; lia).
  assert (Hi' : 0 <= i / q < per) by (split; [apply Z.div_pos; lia|apply Z.div_lt_upper_bound; lia]).
  assert (Hj' : 0 <= j / q < per) by (split; [apply Z.div_pos; lia|apply Z.div_lt_upper_bound; lia]).
  pose proof (Z.mod_pos_bound i q Hq) as Mi. pose proof (Z.mod_pos_bound j q Hq) as Mj.
  apply NoDup_cons in Hd as [_ Hk].
  assert (Eq : i / q = j / q).
  { eapply (slots_disjoint _ _ _ _ (tmap img l (word img r (i / q)) (i mod q)) Hi' Hj' Hk); [by apply tmap_in|]. rewrite E. apply tmap_in; [done|done|congruence]. }
  rewrite Eq in E, Hn. assert (Em : i mod q = j mod q).
  { eapply IH; [|done|done|exact Hn|exact E]. by apply (NoDup_kid per _ _ Hj' Hk). }
  rewrite (Z.div_mod i q), (Z.div_mod j q) by lia. congruence.
Qed.
End Trees.

Section Alloc.
Context (fs : ext2_fs) (NS : Z) (junk : mem) (Vol : volume fs NS).
#[local] Abbreviation bs := (block_size fs).
#[local] Abbreviation per := (block_size fs / 4).
#[local] Abbreviation eval := (eval NS junk).
#[local] Abbreviation tmap := (tmap fs).
#[local] Abbreviation tblocks := (tblocks fs).
#[local] Abbreviation tinner := (tinner fs).
#[local] Abbreviation word := (word fs).

Lemma per_ok : 0 < per /\ per <= 1024 /\ per * 4 = bs.
Proof. pose proof (per_bound fs (v_geom _ _ Vol)). lia. Qed.

Lemma word_range img b i : 0 <= word img b i < 2 ^ 32.
Proof. apply ld32_range. Qed.

(** Pointer [i] read from the page of block [b]. *)
Lemma page_word pg img b i : 0 <= i < per -> ld32 (mblit pg 0 img (b * bs) bs) (i * 4) = word img b i.
Proof.
  intros Hi. pose proof per_ok. unfold Ext2File.word. rewrite ld_mblit_in by lia. f_equal. lia.
Qed.

Lemma eval_map_indirect l r idx img : (l <= 2)%nat -> (forall b, b ∈ tinner img (S l) r -> b < blocks_count fs) ->
  0 <= idx < per ^ Z.of_nat (S l) -> eval (Z.of_nat (S l)) (map_indirect fs (S l) r idx) img (tmap img (S l) r idx) img.
Proof.
  destruct per_ok as (P1 & P2 & P3). pose proof (bs_bound fs NS Vol).
  revert r idx. induction l as [|l IH]; intros r idx Hl Hc Hi; cbn [map_indirect Ext2File.tmap Ext2File.tinner] in *.
  - destruct (r =? 0) eqn:Er; [apply eval_ret|]. change (Z.of_nat 1) with (0 + 1) in *. rewrite Z.add_0_l, Z.pow_1_r in Hi.
    apply eval_page; [done|]. eapply eval_bind; [apply (eval_bread fs NS junk Vol); apply Hc; by left|]. cbn [Z.eqb negb].
    change (per ^ Z.of_nat 0) with 1. rewrite Z.div_1_r. rewrite <- (page_word junk img r idx) by done. apply eval_rd32; lia.
  - destruct (r =? 0) eqn:Er; [apply eval_ret|].
    destruct (child_index fs (v_geom _ _ Vol) l idx ltac:(lia) Hi) as [C1 C2]. cbv zeta in C1, C2.
    rewrite (span_of_pow fs (v_geom _ _ Vol) (S l)) in * by lia.
    replace (Z.of_nat (S (S l))) with (Z.of_nat (S l) + 1) by lia.
    apply eval_page; [lia|]. eapply eval_bind; [apply (eval_bread fs NS junk Vol); apply Hc; by left|]. cbn [Z.eqb negb].
    eapply eval_bind; [apply eval_rd32; lia|]. rewrite page_word by done. apply IH; [lia| |done].
    intros b Hb. apply Hc. right. apply elem_of_kids. by exists (idx / per ^ Z.of_nat (S l)).
Qed.

(** A pointer stored in the page read when the disk held [img0]. *)
Definition set_word (img img0 : mem) (b i v : Z) : mem :=
  mblit img (b * bs) (st32 (mblit junk 0 img0 (b * bs) bs) (i * 4) v) 0 bs.

Lemma set_word_other img img0 b i v b' : b' <> b -> untouched fs img (set_word img img0 b i v) b'.
Proof.
  intros N x Hx. apply mblit_out. destruct (decide (b * bs <= x < b * bs + bs)); [|lia].
  destruct N. by eapply (in_blk_inj fs NS Vol).
Qed.

Lemma word_set_word img img0 b i v j : 0 <= i < per -> 0 <= j < per ->
  word (set_word img img0 b i v) b j = if decide (j = i) then u32 v else word img0 b j.
Proof.
  intros Hi Hj. destruct per_ok as (P1 & P2 & P3). unfold Ext2File.word, set_word.
  rewrite ld_mblit_in by lia. replace (0 + (b * bs + j * 4 - b * bs)) with (j * 4) by lia.
  destruct (decide (j = i)) as [->|]; [apply ld32_st32|].
  rewrite ld_st_disj by lia. by apply page_word.
Qed.

(** A store into a file's pointer block changes neither the descriptors nor the
    bitmaps. *)
Lemma blit_grown img b p : layout fs img -> ~ sys fs img b -> grown fs img [] (mblit img (b * bs) p 0 bs).
Proof.
  intros L Ns. set (img' := mblit img (b * bs) p 0 bs).
  assert (Hb : last_gdt fs < b) by (unfold sys in Ns; lia).
  assert (Hu : forall b', b' <> b -> untouched fs img img' b').
  { intros b' N x Hx. apply mblit_out. destruct (decide (b * bs <= x < b * bs + bs)); [|lia].
    destruct N. by eapply (in_blk_inj fs NS Vol). }
  assert (S : same_gd fs img img').
  { intros g off Hg Ho. apply (gd32_ext fs); [done|lia|]. intros x Hx. apply mblit_out.
    pose proof (gd_bytes fs NS Vol g x Hg ltac:(lia) b Hb) as Hn. unfold in_blk in Hn. lia. }
  assert (U : forall b', in_vol fs b' -> used fs img' b' = used fs img b').
  { intros b' V. rewrite !used_dbit. destruct (block_coords fs NS Vol b' V) as (Hg & Hk & _). rewrite S by auto.
    unfold dbit. f_equal. pose proof (bit_range fs NS Vol b').
    assert (0 <= bit fs b' / 8 < bs) by (split; [apply Z.div_pos; lia|apply Z.div_lt_upper_bound; lia]).
    apply (untouched_ld fs); [|lia|lia]. apply Hu. intros E. apply Ns. rewrite <- E. right. left. by exists (grp fs b'). }
  split; [|done|constructor|set_solver|].
  - eapply layout_mono; [done|done|]. intros b' V Hb'. by rewrite U.
  - intros b' V. rewrite U by done. by rewrite orb_false_r.
Qed.

Lemma blit_frame img b p : frame fs img (mblit img (b * bs) p 0 bs) (eq b).
Proof.
  intros b' _ _ N x Hx. apply mblit_out. destruct (decide (b * bs <= x < b * bs + bs)); [|lia].
  destruct N. by eapply (in_blk_inj fs NS Vol).
Qed.

(** A data block is not touched by what changes only [W]. *)
Lemma frame_data img img' W b : frame fs img img' W -> data_blk fs img b -> ~ W b -> untouched fs img img' b.
Proof. intros F (V & U & N) Hw. apply F; [unfold sys in N; lia|unfold sys in N; tauto|done]. Qed.

Lemma grown_data img new img' b : grown fs img new img' -> data_blk fs img b -> data_blk fs img' b.
Proof.
  intros G (V & U & N). split_and!; [done| |].
  - rewrite (gr_used _ _ _ _ G) by done. by rewrite U.
  - by rewrite (same_gd_sys fs _ _ b (gr_gd _ _ _ _ G)).
Qed.

Lemma grown_new_data img new img' b : layout fs img -> grown fs img new img' -> b ∈ new -> data_blk fs img' b.
Proof.
  intros L G Hb. destruct (gr_free _ _ _ _ G b Hb) as [V U]. split_and!; [done| |].
  - rewrite (gr_used _ _ _ _ G) by done. by rewrite U, bool_decide_eq_true_2.
  - rewrite (same_gd_sys fs _ _ b (gr_gd _ _ _ _ G)). by apply free_not_sys.
Qed.

(** * Allocating in a tree

    What alloc_indirect does to the tree of level [l] at [r]: the new blocks, the
    new root, and the data block [d] at index [idx] (0: the disk is full). *)
Record placed (img : mem) (l : nat) (r idx d r' : Z) (new : list Z) (img' : mem) : Prop := {
  pl_grown : grown fs img new img';
  pl_frame : frame fs img img' (fun b => b ∈ tinner img l r \/ b ∈ new);
  pl_blocks : tblocks img' l r' ≡ₚ tblocks img l r ++ new;
  pl_map j : 0 <= j < per ^ Z.of_nat l ->
    tmap img' l r' j = if decide (d <> 0 /\ j = idx) then d else tmap img l r j;
  pl_new : d <> 0 -> d ∈ new /\ forall x, in_blk fs d x -> img' x = 0;
  pl_full : d = 0 -> full fs img';
  pl_root : r <> 0 -> r' = r;
  pl_root0 : r = 0 -> r' = 0 \/ r' ∈ new
}.

Definition own_tree (img : mem) (l : nat) (r : Z) : Prop :=
  NoDup (tblocks img l r) /\ Forall (data_blk fs img) (tblocks img l r).

Definition alloc_spec (l : nat) (r idx : Z) (img : mem) : Prop :=
  forall b512, exists d r' n new img',
    eval (Z.of_nat l) (alloc_indirect fs l r idx b512) img (d, r', n) img' /\ placed img l r idx d r' new img' /\
    (0 <= b512 < 2 ^ 32 -> 0 <= n < 2 ^ 32).

Lemma in_vol_pos img b : layout fs img -> in_vol fs b -> used fs img b = false -> 0 < b < 2 ^ 32.
Proof.
  intros L [V1 V2] U. destruct (v_count _ _ Vol) as [C1 C2]. destruct (v_first _ _ Vol) as [F1 F2].
  pose proof (g_bpg fs (v_geom _ _ Vol)). pose proof (last_gdt_first fs NS Vol).
  assert (b <> 0); [|lia]. intros ->. apply (free_not_sys fs img 0 L); [done|done|]. left. lia.
Qed.

(** A fresh block is the root of an empty tree. *)
Lemma fresh_tree img b l : 0 < b -> (forall x, in_blk fs b x -> img x = 0) ->
  tblocks img (S l) b = [b] /\ tinner img (S l) b = [b] /\ forall j, 0 <= j < per ^ Z.of_nat (S l) -> tmap img (S l) b j = 0.
Proof.
  intros Hb Hz. destruct per_ok as (P1 & P2 & P3).
  assert (W : forall i, 0 <= i < per -> word img b i = 0).
  { intros i Hi. unfold Ext2File.word. rewrite (ld_ext 4 img (mfill img (b * bs) bs 0)).
    - apply ld_mfill0; lia.
    - intros x Hx. rewrite mfill_in by lia. apply Hz. unfold in_blk. lia. }
  cbn [Ext2File.tblocks Ext2File.tinner Ext2File.tmap]. replace (b =? 0) with false by lia. split_and!.
  - f_equal. apply kids_nil. intros i Hi. rewrite W by done. apply tblocks_0.
  - f_equal. apply kids_nil. intros i Hi. rewrite W by done. by destruct l.
  - intros j Hj. rewrite Nat2Z.inj_succ, Z.pow_succ_r in Hj by lia.
    assert (Hq : 0 < per ^ Z.of_nat l) by (apply Z.pow_pos_nonneg; lia).
    rewrite W by (split; [apply Z.div_pos; lia|apply Z.div_lt_upper_bound; lia]). apply tmap_0.
Qed.

(** The root is allocated first when there is none. *)
Lemma alloc_spec_root0 l idx img : layout fs img ->
  (forall r img1, r <> 0 -> layout fs img1 -> own_tree img1 (S l) r -> tmap img1 (S l) r idx = 0 -> alloc_spec (S l) r idx img1) ->
  0 <= idx < per ^ Z.of_nat (S l) -> alloc_spec (S l) 0 idx img.
Proof.
  intros L Core Hi b512.
  destruct (eval_alloc_block fs NS junk Vol img L) as [[E F]|(b & img1 & E & A)].
  { exists 0, 0, b512, [], img. split_and!; [| |done].
    - cbn [alloc_indirect]. eapply (eval_bind _ _ _ _ (0, b512) img); [|apply eval_ret]. cbn [Z.eqb].
      eapply eval_bind; [eapply eval_weaken; [|exact E]; lia|]. apply eval_ret.
    - split; rewrite ?tblocks_0; try done.
      + by apply grown_refl.
      + by left. }
  destruct A as (G & Fr & Z0). pose proof (gr_free _ _ _ _ G b ltac:(by left)) as [V U].
  pose proof (in_vol_pos img b L V U) as Hb. destruct (fresh_tree img1 b l ltac:(lia) Z0) as (T1 & T2 & T3).
  destruct (Core b img1 ltac:(lia) (gr_lay _ _ _ _ G)) with (b512 := u32 (b512 + spb fs)) as (d & r' & n & new & img' & E' & P & Hn).
  { unfold own_tree. rewrite T1. split; [apply NoDup_singleton|]. apply Forall_singleton.
    eapply grown_new_data; [done|exact G|by left]. }
  { by apply T3. }
  exists d, r', n, (b :: new), img'. pose proof (pl_root _ _ _ _ _ _ _ _ P ltac:(lia)) as ->.
  split_and!; [| |intros _; apply Hn, u32_range].
  - cbn [alloc_indirect] in *. eapply eval_bind.
    { cbn [Z.eqb]. eapply eval_bind; [eapply eval_weaken; [|exact E]; lia|]. replace (b =? 0) with false by lia. apply eval_ret. }
    assert (Eb : (b =? 0) = false) by lia. rewrite Eb in E'. exact E'.
  - split.
    + apply (grown_trans fs _ [b] img1); [done|apply P].
    + eapply frame_mono; [|eapply (frame_trans fs img img1 img'); [apply G|exact Fr|apply P]]. cbn beta. rewrite T2. set_solver.
    + rewrite (pl_blocks _ _ _ _ _ _ _ _ P), T1, tblocks_0. done.
    + intros j Hj. rewrite (pl_map _ _ _ _ _ _ _ _ P) by done. rewrite T3 by done. by rewrite tmap_0.
    + intros Hd. destruct (pl_new _ _ _ _ _ _ _ _ P Hd). split; [by right|done].
    + apply P.
    + done.
    + right. by left.
Qed.

(** A tree whose slot [slot] changed. *)
Lemma node_update img img2 l r slot c' new d k :
  r <> 0 -> 0 <= slot < per -> 0 <= k < per ^ Z.of_nat l ->
  (forall i, 0 <= i < per -> word img2 r i = if decide (i = slot) then c' else word img r i) ->
  tblocks img2 l c' ≡ₚ tblocks img l (word img r slot) ++ new ->
  (forall j, 0 <= j < per ^ Z.of_nat l ->
     tmap img2 l c' j = if decide (d <> 0 /\ j = k) then d else tmap img l (word img r slot) j) ->
  (forall i, 0 <= i < per -> i <> slot ->
     tblocks img2 l (word img r i) = tblocks img l (word img r i) /\
     forall j, 0 <= j < per ^ Z.of_nat l -> tmap img2 l (word img r i) j = tmap img l (word img r i) j) ->
  tblocks img2 (S l) r ≡ₚ tblocks img (S l) r ++ new /\
  forall j, 0 <= j < per ^ Z.of_nat (S l) ->
    tmap img2 (S l) r j = if decide (d <> 0 /\ j = slot * per ^ Z.of_nat l + k) then d else tmap img (S l) r j.
Proof.
  intros Hr Hs Hk HW HB HM HO. destruct per_ok as (P1 & P2 & P3). cbn [Ext2File.tblocks Ext2File.tmap].
  replace (r =? 0) with false by lia. split.
  - cbn [app]. constructor. apply (kids_update per _ _ slot); [done| |].
    + by rewrite HW, decide_True by done.
    + intros i Hi N. rewrite HW, decide_False by done. by apply HO.
  - intros j Hj. rewrite Nat2Z.inj_succ, Z.pow_succ_r in Hj by lia. set (q := per ^ Z.of_nat l) in *.
    assert (Hq : 0 < q) by (apply Z.pow_pos_nonneg; lia).
    assert (Hd : 0 <= j / q < per) by (split; [apply Z.div_pos; lia|apply Z.div_lt_upper_bound; lia]).
    pose proof (Z.mod_pos_bound j q Hq) as Hm. pose proof (Z.div_mod j q ltac:(lia)) as Ej.
    rewrite HW by done. destruct (decide (j / q = slot)) as [E|N].
    + rewrite HM by done. rewrite E. destruct (decide (d <> 0 /\ j mod q = k)) as [[D K]|N].
      * rewrite decide_True; [done|]. split; [done|]. rewrite <- K, <- E. lia.
      * rewrite decide_False; [done|]. intros [D K]. apply N. split; [done|]. nia.
    + destruct (HO (j / q) Hd N) as [_ HT]. rewrite HT by done. rewrite decide_False; [done|].
      intros [D K]. apply N. rewrite K. rewrite Z.add_comm, Z.div_add by lia. rewrite Z.div_small by lia. lia.
Qed.

Lemma own_root img l r : own_tree img l r -> r <> 0 -> data_blk fs img r.
Proof.
  intros [_ H] Hr. eapply Forall_forall; [exact H|]. destruct l; cbn [Ext2File.tblocks]; replace (r =? 0) with false by lia; by left.
Qed.

Lemma own_kid img l r i : own_tree img (S l) r -> r <> 0 -> 0 <= i < per -> own_tree img l (word img r i).
Proof.
  intros [Hd Ho] Hr Hi. cbn [Ext2File.tblocks] in *. replace (r =? 0) with false in * by lia.
  apply NoDup_cons in Hd as [_ Hd]. apply Forall_cons in Ho as [_ Ho]. split.
  - by apply (NoDup_kid per _ i Hi Hd).
  - apply Forall_forall. intros b Hb. eapply Forall_forall; [exact Ho|]. apply elem_of_kids. eauto.
Qed.

(** The leaves of a pointer block. *)
Lemma alloc_leaf img r idx : r <> 0 -> layout fs img -> own_tree img 1 r -> tmap img 1 r idx = 0 -> 0 <= idx < per ->
  alloc_spec 1 r idx img.
Proof.
  intros Hr L Own H0 Hi b512. destruct per_ok as (P1 & P2 & P3). pose proof (bs_bound fs NS Vol).
  pose proof (own_root _ _ _ Own Hr) as Dr. assert (Er : (r =? 0) = false) by lia.
  cbn [Ext2File.tmap] in H0. rewrite Er in H0. change (per ^ Z.of_nat 0) with 1 in H0. rewrite Z.div_1_r in H0.
  change (Z.of_nat 1) with 1.
  destruct (eval_alloc_block fs NS junk Vol img L) as [[E F]|(d & img1 & E & G & Fr & Z0)].
  { exists 0, r, b512, [], img. split_and!; [| |done].
    - cbn [alloc_indirect]. rewrite Er. eapply (eval_bind _ _ _ _ (r, b512) img); [apply eval_ret|]. cbn beta iota. rewrite Er.
      eapply eval_bind; [exact E|]. apply eval_ret.
    - split; rewrite ?app_nil_r; try done. by apply grown_refl. }
  pose proof (gr_free _ _ _ _ G d ltac:(by left)) as [V U]. pose proof (in_vol_pos img d L V U) as Hd.
  assert (Nrd : r <> d). { intros ->. destruct Dr as (_ & ? & _). congruence. }
  pose proof (frame_data _ _ _ _ Fr Dr ltac:(congruence)) as Ur.
  pose proof (grown_data _ _ _ _ G Dr) as (Vr1 & Ur1 & Sr1).
  exists d, r, (u32 (b512 + spb fs)), [d], (set_word img1 img1 r idx d).
  assert (W1 : forall i, 0 <= i < per -> word img1 r i = word img r i) by (intros; apply untouched_ld; [done|lia|lia]).
  assert (W2 : forall i, 0 <= i < per -> word (set_word img1 img1 r idx d) r i = if decide (i = idx) then d else word img r i).
  { intros i Hi'. rewrite word_set_word by done. rewrite W1, u32_small by lia || done. done. }
  split_and!; [| |intros _; apply u32_range].
  - cbn [alloc_indirect]. rewrite Er. eapply (eval_bind _ _ _ _ (r, b512) img); [apply eval_ret|]. cbn beta iota. rewrite Er.
    eapply eval_bind; [exact E|]. replace (d =? 0) with false by lia.
    eapply (eval_bind _ _ _ _ true (set_word img1 img1 r idx d)); [|apply eval_ret].
    apply (eval_page 0); [done|]. eapply eval_bind; [apply (eval_bread fs NS junk Vol), Vr1|]. cbn [Z.eqb negb].
    eapply eval_bind; [apply eval_wr32; lia|]. eapply eval_bind; [apply (eval_bwrite fs NS junk Vol), Vr1|]. apply eval_ret.
  - destruct (node_update img (set_word img1 img1 r idx d) 0 r idx d [d] d 0) as [B T]; try done.
    { rewrite H0. cbn [Ext2File.tblocks Z.eqb app]. by replace (d =? 0) with false by lia. }
    { intros j Hj. change (per ^ Z.of_nat 0) with 1 in Hj. cbn [Ext2File.tmap]. rewrite decide_True; [done|lia]. }
    pose proof (blit_grown img1 r (st32 (mblit junk 0 img1 (r * bs) bs) (idx * 4) d) (gr_lay _ _ _ _ G) Sr1) as G2.
    split; [| |done| | |by lia|done|by intros ->].
    + rewrite <- (app_nil_r [d]). by eapply grown_trans.
    + eapply frame_mono; [|eapply (frame_trans fs img img1); [apply G|exact Fr|apply blit_frame]]. cbn beta.
      cbn [Ext2File.tinner]. rewrite Er. intros b [<-|<-]; [right; by left|left; by left].
    + intros j Hj. rewrite T by done. by replace (idx * per ^ Z.of_nat 0 + 0) with idx by lia.
    + intros _. split; [by left|]. intros x Hx. rewrite <- (Z0 x Hx). by apply (set_word_other img1 img1 r idx d d).
Qed.

(** What a store in the root's page leaves of the subtrees. *)
Lemma subtree_ext img img' l c : (forall b, b ∈ tinner img l c -> untouched fs img img' b) ->
  tblocks img' l c = tblocks img l c /\
  forall j, 0 <= j < per ^ Z.of_nat l -> tmap img' l c j = tmap img l c j.
Proof. intros H. destruct per_ok as (P1 & P2 & P3). by apply ptree_ext. Qed.

(** The slot written back when the child is new. *)
Lemma alloc_node_image img l r slot k d c' new img1 :
  r <> 0 -> layout fs img -> own_tree img (S (S l)) r -> 0 <= slot < per -> 0 <= k < per ^ Z.of_nat (S l) ->
  placed img (S l) (word img r slot) k d c' new img1 ->
  placed img (S (S l)) r (slot * per ^ Z.of_nat (S l) + k) d r new
    (if c' =? word img r slot then img1 else set_word img1 img r slot c').
Proof.
  intros Hr L Own Hs Hk P. destruct per_ok as (P1 & P2 & P3). set (c := word img r slot) in *.
  pose proof (own_root _ _ _ Own Hr) as Dr. assert (Er : (r =? 0) = false) by lia.
  destruct Own as [Nd Fd]. rewrite tblocks_S, Er in Nd, Fd.
  apply NoDup_cons in Nd as [Rk Nk]. apply Forall_cons in Fd as [_ Fk].
  assert (Nin : forall b, b ∈ new -> ~ data_blk fs img b).
  { intros b Hb (_ & U & _). destruct (gr_free _ _ _ _ (pl_grown _ _ _ _ _ _ _ _ P) b Hb). congruence. }
  assert (Rc : r ∉ tblocks img (S l) c) by (intros Hin; apply Rk, elem_of_kids; exists slot; split; [lia|exact Hin]).
  assert (Ur : untouched fs img img1 r).
  { eapply frame_data; [apply P|done|]. intros [Hin|Hin]; [by apply Rc, tinner_sub|by eapply Nin]. }
  set (img2 := if c' =? c then img1 else set_word img1 img r slot c').
  assert (O2 : forall b, b <> r -> untouched fs img1 img2 b).
  { intros b N. subst img2. case_match; [done|]. by apply set_word_other. }
  assert (W2 : forall i, 0 <= i < per -> word img2 r i = if decide (i = slot) then c' else word img r i).
  { intros i Hi. subst img2. destruct (Z.eqb_spec c' c) as [->|N].
    - transitivity (word img r i); [apply untouched_ld; [done|lia|lia]|]. by destruct (decide _) as [->|].
    - rewrite word_set_word by done. case_decide; [|done]. apply u32_small.
      destruct (decide (c = 0)) as [C0|C0]; [|by rewrite (pl_root _ _ _ _ _ _ _ _ P C0) in N].
      destruct (pl_root0 _ _ _ _ _ _ _ _ P C0) as [->|Hin]; [lia|].
      destruct (gr_free _ _ _ _ (pl_grown _ _ _ _ _ _ _ _ P) c' Hin) as [V U]. pose proof (in_vol_pos _ _ L V U). lia. }
  assert (Rc' : r ∉ tblocks img1 (S l) c').
  { rewrite (pl_blocks _ _ _ _ _ _ _ _ P). intros [Hin|Hin]%elem_of_app; [done|by eapply Nin]. }
  destruct (subtree_ext img1 img2 (S l) c') as [B2 M2].
  { intros b Hb. apply O2. intros ->. by apply Rc', tinner_sub. }
  destruct (node_update img img2 (S l) r slot c' new d k) as [B T]; [done..| | | |].
  { rewrite B2. apply P. }
  { intros j Hj. rewrite M2 by done. by apply (pl_map _ _ _ _ _ _ _ _ P). }
  { intros i Hi N. apply subtree_ext. intros b Hb.
    assert (Hk' : b ∈ tblocks img (S l) (word img r i)) by (by apply tinner_sub).
    eapply untouched_trans; [eapply frame_data; [apply P| |]|].
    - eapply Forall_forall; [exact Fk|]. apply elem_of_kids. eauto.
    - intros [Hin|Hin]; [|eapply Nin; [exact Hin|]; eapply Forall_forall; [exact Fk|]; apply elem_of_kids; eauto].
      apply N. eapply slots_disjoint; [exact Hi|exact Hs|exact Nk|exact Hk'|by apply tinner_sub].
    - apply O2. intros ->. apply Rk, elem_of_kids. eauto. }
  split; [| |done|done| | |done|by intros ->].
  - subst img2. case_match; [apply P|]. rewrite <- (app_nil_r new). eapply grown_trans; [apply P|].
    apply blit_grown; [apply P|]. destruct (grown_data _ _ _ _ (pl_grown _ _ _ _ _ _ _ _ P) Dr) as (_ & _ & ?). done.
  - rewrite tinner_S, Er. intros b Hb Hm Hw. eapply untouched_trans.
    + apply (pl_frame _ _ _ _ _ _ _ _ P); [done|done|]. intros [Hin|Hin]; apply Hw; [left; right|by right].
      apply elem_of_kids. by exists slot.
    + apply O2. intros ->. apply Hw. left. by left.
  - intros Hd. destruct (pl_new _ _ _ _ _ _ _ _ P Hd) as [Hin Hz]. split; [done|]. intros x Hx. rewrite <- (Hz x Hx).
    apply O2 with d; [|done]. intros ->. by eapply Nin.
  - intros Hd b V. subst img2. pose proof (pl_full _ _ _ _ _ _ _ _ P Hd b V) as Hb. case_match; [done|].
    destruct (grown_data _ _ _ _ (pl_grown _ _ _ _ _ _ _ _ P) Dr) as (_ & _ & Ns).
    unfold set_word. rewrite (gr_used _ _ _ _ (blit_grown img1 r _ (gr_lay _ _ _ _ (pl_grown _ _ _ _ _ _ _ _ P)) Ns) b V). by rewrite Hb.
Qed.

(** An interior pointer block, when the subtrees can be allocated in. *)
Lemma alloc_node l r idx img : (l <= 1)%nat -> r <> 0 -> layout fs img -> own_tree img (S (S l)) r ->
  tmap img (S (S l)) r idx = 0 -> 0 <= idx < per ^ Z.of_nat (S (S l)) ->
  (forall c k, own_tree img (S l) c -> tmap img (S l) c k = 0 -> 0 <= k < per ^ Z.of_nat (S l) -> alloc_spec (S l) c k img) ->
  alloc_spec (S (S l)) r idx img.
Proof.
  intros Hl Hr L Own H0 Hi IH b512. destruct per_ok as (P1 & P2 & P3). pose proof (bs_bound fs NS Vol).
  assert (Er : (r =? 0) = false) by lia.
  destruct (child_index fs (v_geom _ _ Vol) l idx ltac:(lia) Hi) as [C1 C2]. cbv zeta in C1, C2.
  rewrite (span_of_pow fs (v_geom _ _ Vol) (S l)) in C1, C2 by lia.
  set (q := per ^ Z.of_nat (S l)) in *. set (slot := idx / q) in *. set (k := idx mod q) in *.
  assert (Hc : tmap img (S l) (word img r slot) k = 0).
  { change (tmap img (S (S l)) r idx) with (if r =? 0 then 0 else tmap img (S l) (word img r slot) k) in H0.
    by rewrite Er in H0. }
  destruct (own_root _ _ _ Own Hr) as (Vr & _ & _).
  destruct (IH _ _ (own_kid _ _ _ _ Own Hr C1) Hc C2 b512) as (d & c' & n & new & img1 & E & P & Hn).
  pose proof (alloc_node_image img l r slot k d c' new img1 Hr L Own C1 C2 P) as P'.
  assert (Ei : slot * q + k = idx) by (subst slot k; pose proof (Z.div_mod idx q ltac:(subst q; apply Z.pow_nonzero; lia)); lia).
  fold q in P'. rewrite Ei in P'. eexists d, r, n, new, _. split_and!; [|exact P'|done].
  change (alloc_indirect fs (S (S l)) r idx b512) with
    ('(root, b512) ← (if r =? 0 then nb ← alloc_block fs; mret (if nb =? 0 then (0, b512) else (nb, u32 (b512 + spb fs)))
                      else mret (r, b512));
     if root =? 0 then mret (0, root, b512) else
     let span := span_of per (S (S l)) in let slot := idx / span in
     with_page (0, root, b512) (fun b =>
       '(rc, b) ← bread fs root b;
       if negb (rc =? 0) then mret (0, root, b512) else
       child ← rd32 b (slot * 4);
       '(data, child', b512) ← alloc_indirect fs (S l) child (idx mod span) b512;
       (if child' =? child then mret tt else b ← wr32 b (slot * 4) child'; _ ← bwrite fs root b; mret tt) ;;
       mret (data, root, b512))).
  rewrite Er. eapply (eval_bind _ _ _ _ (r, b512) img); [apply eval_ret|]. cbn beta iota. rewrite Er. cbv zeta.
  rewrite (span_of_pow fs (v_geom _ _ Vol) (S l)) by lia. fold q. fold slot. fold k.
  replace (Z.of_nat (S (S l))) with (Z.of_nat (S l) + 1) by lia. apply eval_page; [lia|].
  eapply eval_bind; [apply (eval_bread fs NS junk Vol), Vr|]. cbn [Z.eqb negb].
  eapply eval_bind; [apply eval_rd32; lia|]. rewrite page_word by done. eapply eval_bind; [exact E|]. cbn beta iota.
  destruct (c' =? word img r slot); [eapply eval_bind; [apply eval_ret|]; apply eval_ret|].
  eapply eval_bind; [|apply eval_ret]. eapply eval_bind; [apply eval_wr32; lia|].
  eapply eval_bind; [apply (eval_bwrite fs NS junk Vol), Vr|]. apply eval_ret.
Qed.

Lemma alloc_indirect_ok l r idx img : (l <= 2)%nat -> layout fs img -> own_tree img (S l) r ->
  tmap img (S l) r idx = 0 -> 0 <= idx < per ^ Z.of_nat (S l) -> alloc_spec (S l) r idx img.
Proof.
  revert r idx img. induction l as [|l IH]; intros r idx img Hl L Own H0 Hi.
  - assert (Hi' : 0 <= idx < per) by (by rewrite Z.pow_1_r in Hi).
    destruct (decide (r = 0)) as [->|Hr]; [|by apply alloc_leaf].
    apply alloc_spec_root0; [done| |done]. intros. by apply alloc_leaf.
  - destruct (decide (r = 0)) as [->|Hr].
    + apply alloc_spec_root0; [done| |done]. intros. apply alloc_node; try done; [lia|]. intros. apply IH; [lia|done..].
    + apply alloc_node; try done; [lia|]. intros. apply IH; [lia|done..].
Qed.
End Alloc.

(** * Files *)

Section File.
Context (fs : ext2_fs) (NS : Z) (junk : mem) (Vol : volume fs NS).
#[local] Abbreviation bs := (block_size fs).
#[local] Abbreviation per := (block_size fs / 4).
#[local] Abbreviation eval := (eval NS junk).

(** The level of the tree at slot [k] of the inode. *)
Definition lev (k : Z) : nat := if k <? 12 then 0 else if k =? 12 then 1 else if k =? 13 then 2 else 3.

(** The slot and the index in its tree of file block [fblk]. *)
Definition region (fblk : Z) : option (Z * Z) :=
  if fblk <? 12 then Some (fblk, 0)
  else if fblk - 12 <? per then Some (12, fblk - 12)
  else if fblk - 12 - per <? per * per then Some (13, fblk - 12 - per)
  else if fblk - 12 - per - per * per <? per * per * per then Some (14, fblk - 12 - per - per * per)
  else None.

Definition fmap (img : mem) (vi : ext2_vinfo) (fblk : Z) : Z :=
  match region fblk with Some (k, i) => tmap fs img (lev k) (blk_slot vi k) i | None => 0 end.

Definition fblocks (img : mem) (vi : ext2_vinfo) : list Z := kids 15 (fun k => tblocks fs img (lev k) (blk_slot vi k)).
Definition finner (img : mem) (vi : ext2_vinfo) : list Z := kids 15 (fun k => tinner fs img (lev k) (blk_slot vi k)).

(** The file owns its blocks. *)
Record own_file (img : mem) (vi : ext2_vinfo) : Prop := {
  of_slots : slots vi;
  of_nodup : NoDup (fblocks img vi);
  of_data b : b ∈ fblocks img vi -> data_blk fs img b
}.

Lemma lev_bound k : (lev k <= 3)%nat.
Proof. unfold lev. repeat case_match; lia. Qed.

Lemma region_range fblk k i : 0 <= fblk -> region fblk = Some (k, i) -> 0 <= k < 15 /\ 0 <= i < per ^ Z.of_nat (lev k).
Proof.
  pose proof (per_ok fs NS Vol). intros Hf. unfold region.
  repeat (zif; [intros [= <- <-]; split; [lia|]|]); [| | | |done].
  - unfold lev. zif; [|lia]. lia.
  - change (lev 12) with 1%nat. lia.
  - change (lev 13) with 2%nat. lia.
  - change (lev 14) with 3%nat. lia.
Qed.

Lemma region_inj f g k i : 0 <= f -> 0 <= g -> region f = Some (k, i) -> region g = Some (k, i) -> f = g.
Proof. intros Hf Hg. unfold region. repeat zif; intros [= <- <-] [=]; lia. Qed.

Lemma own_slot img vi k : own_file img vi -> 0 <= k < 15 -> own_tree fs img (lev k) (blk_slot vi k).
Proof.
  intros [_ Hn Hd] Hk. split; [by apply (NoDup_kid 15 _ k Hk Hn)|].
  apply Forall_forall. intros b Hb. apply Hd, elem_of_kids. eauto.
Qed.

Lemma eval_map_block vi fblk img : own_file img vi -> 0 <= fblk ->
  eval 3 (map_block fs vi fblk) img (fmap img vi fblk) img.
Proof.
  intros Own Hf. pose proof (per_ok fs NS Vol) as (P1 & P2 & P3).
  assert (Hc : forall k, 0 <= k < 15 -> forall b, b ∈ tinner fs img (lev k) (blk_slot vi k) -> b < blocks_count fs).
  { intros k Hk b Hb. destruct (own_slot _ _ k Own Hk) as [_ H]. eapply Forall_forall in H; [|by apply tinner_sub].
    by destruct H as ((_ & ?) & _). }
  unfold map_block, fmap, region, EXT2_NDIR, EXT2_IND, EXT2_DIND, EXT2_TIND.
  zif. { unfold lev. zif; [apply eval_ret|lia]. }
  zif. { eapply eval_weaken; [|apply (eval_map_indirect fs NS junk Vol 0); [lia|apply (Hc 12); lia|lia]]. lia. }
  zif. { eapply eval_weaken; [|apply (eval_map_indirect fs NS junk Vol 1); [lia|apply (Hc 13); lia|lia]]. lia. }
  zif. { eapply eval_weaken; [|apply (eval_map_indirect fs NS junk Vol 2); [lia|apply (Hc 14); lia|lia]]. lia. }
  apply eval_ret.
Qed.

(** What alloc_file_block does: the block [d] is at [fblk] (0: the disk is full). *)
Record filled (img : mem) (vi : ext2_vinfo) (fblk d : Z) (vi' : ext2_vinfo) (new : list Z) (img' : mem) : Prop := {
  fi_grown : grown fs img new img';
  fi_frame : frame fs img img' (fun b => b ∈ finner img vi \/ b ∈ new);
  fi_blocks : fblocks img' vi' ≡ₚ fblocks img vi ++ new;
  fi_map j : 0 <= j -> fmap img' vi' j = if decide (d <> 0 /\ j = fblk) then d else fmap img vi j;
  fi_new : d <> 0 -> d ∈ new /\ forall x, in_blk fs d x -> img' x = 0;
  fi_full : d = 0 -> full fs img';
  fi_remap : remap vi vi';
  fi_b512 : 0 <= vi_blocks512 vi < 2 ^ 32 -> 0 <= vi_blocks512 vi' < 2 ^ 32
}.

Lemma blk_slot_set vi k r n j : slots vi -> 0 <= k < 15 -> 0 <= j ->
  blk_slot (with_vi_slot k r n vi) j = if decide (j = k) then r else blk_slot vi j.
Proof.
  intros Hs Hk Hj. unfold blk_slot, with_vi_slot, slots in *. cbn. destruct (decide (j = k)) as [->|N].
  - rewrite list_lookup_insert_eq by lia. done.
  - rewrite list_lookup_insert_ne by lia. done.
Qed.

(** The inode's slot [k] after an allocation in its tree. *)
Lemma slot_filled img vi fblk k i d r' n new img' : layout fs img -> own_file img vi -> 0 <= fblk ->
  region fblk = Some (k, i) -> placed fs img (lev k) (blk_slot vi k) i d r' new img' ->
  (0 <= vi_blocks512 vi < 2 ^ 32 -> 0 <= n < 2 ^ 32) ->
  filled img vi fblk d (with_vi_slot k r' n vi) new img'.
Proof.
  intros L Own Hf Hreg P Hn. pose proof (per_ok fs NS Vol) as (P1 & P2 & P3). pose proof (region_range _ _ _ Hf Hreg) as [Hk Hi].
  assert (Hs : forall j, 0 <= j -> blk_slot (with_vi_slot k r' n vi) j = if decide (j = k) then r' else blk_slot vi j).
  { intros j Hj. apply blk_slot_set; [apply Own|done|done]. }
  assert (Nin : forall b, b ∈ new -> b ∈ fblocks img vi -> False).
  { intros b Hb Hin. destruct (gr_free _ _ _ _ (pl_grown _ _ _ _ _ _ _ _ _ P) b Hb) as [_ U].
    destruct (of_data _ _ Own b Hin) as (_ & U' & _). congruence. }
  assert (Oth : forall j, 0 <= j < 15 -> j <> k ->
    tblocks fs img' (lev j) (blk_slot vi j) = tblocks fs img (lev j) (blk_slot vi j) /\
    forall x, 0 <= x < per ^ Z.of_nat (lev j) -> tmap fs img' (lev j) (blk_slot vi j) x = tmap fs img (lev j) (blk_slot vi j) x).
  { intros j Hj N. apply (subtree_ext fs NS Vol). intros b Hb.
    assert (Hin : b ∈ fblocks img vi) by (apply elem_of_kids; exists j; split; [done|by apply tinner_sub]).
    eapply frame_data; [apply P|by apply (of_data _ _ Own)|]. intros [H|H]; [|by eapply Nin].
    apply N. eapply (slots_disjoint 15 _ j k b Hj Hk (of_nodup _ _ Own)); by apply tinner_sub. }
  split.
  - apply P.
  - eapply frame_mono; [|apply P]. cbn beta. intros b [H|H]; [left|by right]. apply elem_of_kids. eauto.
  - apply (kids_update 15 _ _ k); [done| |].
    + rewrite Hs, decide_True by (done || lia). apply P.
    + intros j Hj N. rewrite Hs, decide_False by (done || lia). by apply Oth.
  - intros j Hj. unfold fmap. destruct (region j) as [[k' i']|] eqn:Er.
    + destruct (region_range _ _ _ Hj Er) as [Hk' Hi']. rewrite Hs by lia. destruct (decide (k' = k)) as [->|N].
      * rewrite (pl_map _ _ _ _ _ _ _ _ _ P) by done. destruct (decide (d <> 0 /\ i' = i)) as [[D ->]|N].
        -- rewrite decide_True; [done|]. split; [done|]. by eapply region_inj.
        -- rewrite decide_False; [done|]. intros [D ->]. apply N. split; [done|]. congruence.
      * destruct (Oth k' Hk' N) as [_ T]. rewrite T by done. rewrite decide_False; [done|]. intros [D ->]. congruence.
    + rewrite decide_False; [done|]. intros [_ ->]. congruence.
  - apply P.
  - apply P.
  - apply remap_slot.
  - done.
Qed.

Lemma alloc_direct_placed img : layout fs img ->
  exists d new img', eval 1 (alloc_block fs) img d img' /\ placed fs img 0 0 0 d d new img'.
Proof.
  intros L. destruct (eval_alloc_block fs NS junk Vol img L) as [[E F]|(d & img1 & E & G & Fr & Z0)].
  - exists 0, [], img. split; [done|]. split; try done; [by apply grown_refl|by left].
  - pose proof (gr_free _ _ _ _ G d ltac:(by left)) as [V U]. pose proof (in_vol_pos fs NS Vol img d L V U) as Hd.
    exists d, [d], img1. split; [done|]. split; try done.
    + eapply frame_mono; [|exact Fr]. cbn beta. intros b <-. right. by left.
    + cbn [tblocks app Z.eqb]. by replace (d =? 0) with false by lia.
    + intros j Hj. cbn [tmap] in *. rewrite decide_True; [done|]. change (per ^ Z.of_nat 0) with 1 in Hj. lia.
    + intros _. split; [by left|done].
    + lia.
    + intros _. right. by left.
Qed.

Lemma slot_same vi k : slots vi -> 0 <= k < 15 -> with_vi_slot k (blk_slot vi k) (vi_blocks512 vi) vi = vi.
Proof.
  intros Hs Hk. unfold with_vi_slot, blk_slot, slots in *. destruct vi as [? ? ? ? ? ? l ?]. cbn in *. f_equal.
  destruct (l !! Z.to_nat k) as [x|] eqn:E; [by apply list_insert_id|]. apply lookup_ge_None in E. lia.
Qed.

(** An allocation in the tree at slot 12, 13 or 14. *)
Lemma eval_alloc_region vi fblk k i l img : layout fs img -> own_file img vi -> 0 <= fblk -> region fblk = Some (k, i) ->
  lev k = S l -> (l <= 2)%nat -> fmap img vi fblk = 0 ->
  exists d vi' new img', eval 3 (alloc_region fs (S l) k i vi) img (d, vi') img' /\ filled img vi fblk d vi' new img'.
Proof.
  intros L Own Hf Er El Hl H0. pose proof (region_range _ _ _ Hf Er) as [Hk Hi]. unfold fmap in H0. rewrite Er in H0.
  pose proof (own_slot _ _ _ Own Hk) as Ot. rewrite El in Hi, H0, Ot.
  destruct (alloc_indirect_ok fs NS junk Vol l _ i img Hl L Ot H0 Hi (vi_blocks512 vi)) as (d & r' & n & new & img' & E & P & Hn).
  exists d, (with_vi_slot k r' n vi), new, img'. split.
  - unfold alloc_region. eapply eval_bind; [eapply eval_weaken; [|exact E]; lia|]. apply eval_ret.
  - eapply slot_filled; try done. by rewrite El.
Qed.

Lemma eval_alloc_file_block vi fblk img : layout fs img -> own_file img vi -> 0 <= fblk -> region fblk <> None ->
  fmap img vi fblk = 0 ->
  exists d vi' new img', eval 3 (alloc_file_block fs vi fblk) img (d, vi') img' /\ filled img vi fblk d vi' new img'.
Proof.
  intros L Own Hf Hreg H0. unfold alloc_file_block, EXT2_NDIR, EXT2_IND, EXT2_DIND, EXT2_TIND.
  destruct (Z.ltb_spec fblk 12) as [H12|H12].
  - assert (Er : region fblk = Some (fblk, 0)) by (unfold region; zif; [done|lia]).
    assert (El : lev fblk = 0%nat) by (unfold lev; zif; [done|lia]).
    assert (S0 : blk_slot vi fblk = 0) by (unfold fmap in H0; rewrite Er, El in H0; done).
    destruct (alloc_direct_placed img L) as (d & new & img' & E & P).
    assert (F : forall n, (0 <= vi_blocks512 vi < 2 ^ 32 -> 0 <= n < 2 ^ 32) ->
      filled img vi fblk d (with_vi_slot fblk d n vi) new img').
    { intros n Hn. eapply slot_filled; try done. by rewrite El, S0. }
    destruct (decide (d = 0)) as [->|Nd].
    + exists 0, vi, new, img'. split.
      * eapply eval_bind; [eapply eval_weaken; [|exact E]; lia|]. apply eval_ret.
      * specialize (F (vi_blocks512 vi) (fun H => H)). rewrite <- S0 in F at 2. rewrite slot_same in F; [done|apply Own|lia].
    + exists d, (with_vi_slot fblk d (u32 (vi_blocks512 vi + spb fs)) vi), new, img'. split; [|apply F; intros _; apply u32_range].
      eapply eval_bind; [eapply eval_weaken; [|exact E]; lia|]. replace (d =? 0) with false by lia. apply eval_ret.
  - unfold region in Hreg. cbv zeta.
    destruct (Z.ltb_spec (fblk - 12) per).
    { apply (eval_alloc_region vi fblk 12 _ 0); try done; try lia. unfold region. by repeat (zif; try lia). }
    destruct (Z.ltb_spec (fblk - 12 - per) (per * per)).
    { apply (eval_alloc_region vi fblk 13 _ 1); try done; try lia. unfold region. by repeat (zif; try lia). }
    destruct (Z.ltb_spec (fblk - 12 - per - per * per) (per * per * per)).
    { apply (eval_alloc_region vi fblk 14 _ 2); try done; try lia. unfold region. by repeat (zif; try lia). }
    exfalso. revert Hreg. by repeat (zif; try lia).
Qed.
End File.
