(* ===== verification/Ext2Io.v ===== *)
(** Reading and writing the bytes of an ext2 file: ext2_write stores its bytes and
    changes no other byte of this file or of another, and ext2_read returns the
    bytes of the file. *)

From stdpp Require Import base numbers option list gmap.
From Stdlib Require Import ZArith Lia.
From S2P Require Import Prelude Buf Tmpfs Ext2 Ext2Safe Ext2Disk Ext2Inode Ext2File.

Section Io.
Context (fs : ext2_fs) (NS : Z) (junk : mem) (Vol : volume fs NS).
#[local] Abbreviation bs := (block_size fs).
#[local] Abbreviation per := (block_size fs / 4).
#[local] Abbreviation eval := (eval NS junk).
#[local] Abbreviation fmap := (fmap fs).
#[local] Abbreviation own_file := (own_file fs).

(** Byte [x] of the file: 0 in a hole. *)
Definition fbyte (img : mem) (vi : ext2_vinfo) (x : Z) : Z :=
  let d := fmap img vi (x / bs) in
  if d =? 0 then 0 else u8 (img (d * bs + x mod bs)).

(** ** The map of a file *)

Lemma fmap_in img vi j : 0 <= j -> fmap img vi j <> 0 -> fmap img vi j ∈ fblocks fs img vi.
Proof.
  intros Hj. unfold Ext2File.fmap. destruct (region fs j) as [[k i]|] eqn:Er; [|done].
  destruct (region_range fs NS Vol j k i Hj Er) as [Hk Hi]. intros Hn. apply elem_of_kids. exists k. split; [done|].
  apply tmap_in; [apply (per_ok fs NS Vol)|done|done].
Qed.

Lemma fmap_not_inner img vi j : own_file img vi -> 0 <= j -> fmap img vi j <> 0 -> fmap img vi j ∉ finner fs img vi.
Proof.
  intros Own Hj. unfold Ext2File.fmap. destruct (region fs j) as [[k i]|] eqn:Er; [|done].
  destruct (region_range fs NS Vol j k i Hj Er) as [Hk Hi]. intros Hn (k' & Hk' & Hin)%elem_of_kids.
  destruct (per_ok fs NS Vol) as (P1 & _).
  assert (E : k' = k).
  { eapply (slots_disjoint 15 _ k' k _ Hk' Hk (of_nodup _ _ _ Own)); [by apply tinner_sub|]. by apply tmap_in. }
  subst k'. revert Hin. apply tmap_not_inner; [done|apply (own_slot fs img vi k Own Hk)|done|done].
Qed.

Lemma fmap_inj img vi i j : own_file img vi -> 0 <= i -> 0 <= j -> fmap img vi i <> 0 -> fmap img vi i = fmap img vi j -> i = j.
Proof.
  intros Own Hi Hj Hn E. unfold Ext2File.fmap in Hn, E.
  destruct (region fs i) as [[k x]|] eqn:Ei; [|done]. destruct (region fs j) as [[k' y]|] eqn:Ej; [|congruence].
  destruct (region_range fs NS Vol i k x Hi Ei) as [Hk Hx]. destruct (region_range fs NS Vol j k' y Hj Ej) as [Hk' Hy].
  destruct (per_ok fs NS Vol) as (P1 & _).
  assert (Ek : k = k').
  { eapply (slots_disjoint 15 _ k k' _ Hk Hk' (of_nodup _ _ _ Own)); [by apply tmap_in|]. rewrite E. apply tmap_in; [done|done|congruence]. }
  subst k'. assert (x = y); [|by subst; eapply region_inj].
  eapply tmap_inj; [done|apply (own_slot fs img vi k Own Hk)|done|done|exact Hn|exact E].
Qed.

(** The map depends on the pointer blocks only. *)
Lemma fmap_ext img img' vi : (forall b, b ∈ finner fs img vi -> untouched fs img img' b) ->
  fblocks fs img' vi = fblocks fs img vi /\ forall j, 0 <= j -> fmap img' vi j = fmap img vi j.
Proof.
  intros H. split.
  - apply slots_ext. intros k Hk. apply (subtree_ext fs NS Vol). intros b Hb. apply H, elem_of_kids. eauto.
  - intros j Hj. unfold Ext2File.fmap. destruct (region fs j) as [[k i]|] eqn:Er; [|done].
    destruct (region_range fs NS Vol j k i Hj Er) as [Hk Hi].
    apply (subtree_ext fs NS Vol); [|done]. intros b Hb. apply H, elem_of_kids. eauto.
Qed.

Lemma finner_sub img vi b : b ∈ finner fs img vi -> b ∈ fblocks fs img vi.
Proof. intros (k & Hk & Hb)%elem_of_kids. apply elem_of_kids. exists k. split; [done|by apply tinner_sub]. Qed.

Lemma region_some x : 0 <= x < 2 ^ 32 -> region fs (x / bs) <> None.
Proof.
  intros Hx. unfold region.
  assert (Hq : x / bs < 12 + per + per * per + per * per * per).
  { destruct (g_bs fs (v_geom _ _ Vol)) as [->|[->| ->]];
      (eapply Z.le_lt_trans; [apply Z.div_le_mono; [lia|apply (Z.lt_le_pred x (2 ^ 32)); lia]|vm_compute; done]). }
  repeat (zif; [done|]). lia.
Qed.

(** Nothing a file owns is free. *)
Lemma new_not_owned img vi new img' b : own_file img vi -> grown fs img new img' -> b ∈ new -> b ∈ fblocks fs img vi -> False.
Proof.
  intros Own G Hb Hin. destruct (gr_free _ _ _ _ G b Hb) as [_ U]. destruct (of_data _ _ _ Own b Hin) as (_ & U' & _). congruence.
Qed.

(** A block allocated in the file changes no byte of it. *)
Lemma filled_own img vi fblk d vi' new img' : layout fs img -> own_file img vi -> filled fs img vi fblk d vi' new img' ->
  own_file img' vi'.
Proof.
  intros L Own F. pose proof (fi_grown _ _ _ _ _ _ _ _ F) as G. split.
  - eapply remap_slots; [apply F|apply Own].
  - rewrite (fi_blocks _ _ _ _ _ _ _ _ F). apply NoDup_app. split_and!; [apply Own| |apply G].
    intros b H1 H2. by eapply new_not_owned.
  - intros b. rewrite (fi_blocks _ _ _ _ _ _ _ _ F). intros [Hb|Hb]%elem_of_app.
    + eapply grown_data; [exact G|by apply Own].
    + by eapply grown_new_data.
Qed.

Lemma filled_bytes img vi fblk d vi' new img' x : layout fs img -> own_file img vi -> filled fs img vi fblk d vi' new img' ->
  fmap img vi fblk = 0 -> 0 <= x -> fbyte img' vi' x = fbyte img vi x.
Proof.
  intros L Own F H0 Hx. unfold fbyte. pose proof (bs_bound fs NS Vol). pose proof (Z.mod_pos_bound x bs ltac:(lia)).
  assert (Hq : 0 <= x / bs) by (apply Z.div_pos; lia). rewrite (fi_map _ _ _ _ _ _ _ _ F) by done.
  destruct (decide (d <> 0 /\ x / bs = fblk)) as [[D E]|N].
  - rewrite E, H0. replace (d =? 0) with false by lia. cbn [Z.eqb].
    destruct (fi_new _ _ _ _ _ _ _ _ F D) as [_ Hz]. rewrite Hz; [done|]. unfold in_blk. lia.
  - destruct (Z.eqb_spec (fmap img vi (x / bs)) 0) as [|Hn]; [done|]. f_equal.
    eapply (frame_data fs img img'); [apply F|by apply (of_data _ _ _ Own), fmap_in| |unfold in_blk; lia].
    intros [Hin|Hin]; [by eapply fmap_not_inner|]. eapply new_not_owned; [done|apply F|exact Hin|by apply fmap_in].
Qed.

(** The data block of [fblk] overwritten by the page [p]. *)
Lemma store_data img vi fblk p : layout fs img -> own_file img vi -> 0 <= fblk -> fmap img vi fblk <> 0 ->
  let d := fmap img vi fblk in let img' := mblit img (d * bs) p 0 bs in
  grown fs img [] img' /\ frame fs img img' (eq d) /\ own_file img' vi /\ fblocks fs img' vi = fblocks fs img vi /\
  forall x, 0 <= x -> fbyte img' vi x = if decide (x / bs = fblk) then u8 (p (x mod bs)) else fbyte img vi x.
Proof.
  intros L Own Hf Hn d img'. pose proof (fmap_in img vi fblk Hf Hn) as Hin. fold d in Hin.
  pose proof (of_data _ _ _ Own d Hin) as Dd. pose proof (bs_bound fs NS Vol).
  assert (G : grown fs img [] img') by (apply (blit_grown fs NS Vol); [done|apply Dd]).
  assert (Fr : frame fs img img' (eq d)) by apply (blit_frame fs NS Vol).
  destruct (fmap_ext img img' vi) as [Bl Mp].
  { intros b Hb. eapply frame_data; [exact Fr|by apply (of_data _ _ _ Own), finner_sub|].
    intros <-. by apply (fmap_not_inner img vi fblk Own Hf Hn). }
  split_and!; [done|done| |done|].
  - split; [apply Own|rewrite Bl; apply Own|]. intros b. rewrite Bl. intros Hb. eapply grown_data; [exact G|by apply Own].
  - intros x Hx. pose proof (Z.mod_pos_bound x bs ltac:(lia)). assert (Hq : 0 <= x / bs) by (apply Z.div_pos; lia).
    unfold fbyte. rewrite Mp by done. destruct (decide (x / bs = fblk)) as [E|N].
    + rewrite E. fold d. replace (d =? 0) with false by lia. f_equal. unfold img'. rewrite mblit_in by lia. f_equal. lia.
    + destruct (Z.eqb_spec (fmap img vi (x / bs)) 0) as [|Hn']; [done|]. f_equal.
      eapply (frame_data fs img img'); [exact Fr|by apply (of_data _ _ _ Own), fmap_in| |unfold in_blk; lia].
      intros E. apply N. symmetry. by eapply (fmap_inj img vi fblk).
Qed.

(** ** Writing *)

(** From [img] and [vi] to [img'] and [vi'], the bytes of [data] at [lo], ..., before
    [hi] stored at [off + lo] on, with the blocks [new] allocated. *)
Record wrote (img : mem) (vi : ext2_vinfo) (data : list Z) (off lo hi : Z) (new : list Z) (img' : mem) (vi' : ext2_vinfo) : Prop := {
  wr_grown : grown fs img new img';
  wr_own : own_file img' vi';
  wr_remap : remap vi vi';
  wr_b512 : 0 <= vi_blocks512 vi < 2 ^ 32 -> 0 <= vi_blocks512 vi' < 2 ^ 32;
  wr_blocks : fblocks fs img' vi' ≡ₚ fblocks fs img vi ++ new;
  wr_frame : frame fs img img' (fun b => b ∈ fblocks fs img vi \/ b ∈ new);
  wr_bytes x : 0 <= x -> fbyte img' vi' x =
    if decide (off + lo <= x < off + hi) then u8 (bytes_at data (x - off)) else fbyte img vi x
}.

Lemma wrote_refl img vi data off lo : layout fs img -> own_file img vi -> wrote img vi data off lo lo [] img vi.
Proof.
  intros L Own. split; [by apply grown_refl|done|apply remap_refl|done|by rewrite app_nil_r|done|].
  intros x Hx. by rewrite decide_False by lia.
Qed.

Lemma wrote_trans i1 v1 i2 v2 i3 v3 data off a b c n1 n2 : a <= b <= c ->
  wrote i1 v1 data off a b n1 i2 v2 -> wrote i2 v2 data off b c n2 i3 v3 -> wrote i1 v1 data off a c (n1 ++ n2) i3 v3.
Proof.
  intros Hab W1 W2. split.
  - eapply grown_trans; [apply W1|apply W2].
  - apply W2.
  - eapply remap_trans; [apply W1|apply W2].
  - intros H. by apply W2, W1.
  - by rewrite (wr_blocks _ _ _ _ _ _ _ _ _ W2), (wr_blocks _ _ _ _ _ _ _ _ _ W1), app_assoc.
  - eapply frame_mono; [|eapply (frame_trans fs i1 i2 i3); [apply W1|apply W1|apply W2]]. cbn beta.
    intros x. rewrite (wr_blocks _ _ _ _ _ _ _ _ _ W1). set_solver.
  - intros x Hx. rewrite (wr_bytes _ _ _ _ _ _ _ _ _ W2), (wr_bytes _ _ _ _ _ _ _ _ _ W1) by done.
    repeat case_decide; try done; lia.
Qed.

(** The block found or allocated for a position. *)
Lemma eval_find_block vi fblk img : layout fs img -> own_file img vi -> 0 <= fblk -> region fs fblk <> None ->
  exists d vi' new img',
    eval 3 (disk ← map_block fs vi fblk; if disk =? 0 then alloc_file_block fs vi fblk else mret (disk, vi)) img (d, vi') img' /\
    (forall data off lo, wrote img vi data off lo lo new img' vi') /\
    (d <> 0 -> fmap img' vi' fblk = d) /\ (d = 0 -> full fs img').
Proof.
  intros L Own Hf Hreg. pose proof (eval_map_block fs NS junk Vol vi fblk img Own Hf) as Em.
  destruct (decide (fmap img vi fblk = 0)) as [H0|Hn].
  - destruct (eval_alloc_file_block fs NS junk Vol vi fblk img L Own Hf Hreg H0) as (d & vi' & new & img' & E & F).
    exists d, vi', new, img'. split_and!.
    + eapply eval_bind; [exact Em|]. by rewrite H0.
    + intros data off lo. split; [apply F|by eapply filled_own|apply F|apply F|apply F| |].
      * eapply frame_mono; [|apply F]. cbn beta. intros b [?|?]; [left; by apply finner_sub|by right].
      * intros x Hx. rewrite decide_False by lia. by eapply filled_bytes.
    + intros Hd. rewrite (fi_map _ _ _ _ _ _ _ _ F) by done. by rewrite decide_True.
    + apply F.
  - exists (fmap img vi fblk), vi, [], img. split_and!; [|by intros; apply wrote_refl|done|done].
    eapply eval_bind; [exact Em|]. replace (fmap img vi fblk =? 0) with false by lia. apply eval_ret.
Qed.

(** One chunk stored. *)
Lemma eval_store_chunk vi d pg data off done chunk img : layout fs img -> own_file img vi -> 0 <= off -> 0 <= done ->
  let fpos := off + done in let boff := fpos mod bs in
  0 < chunk -> boff + chunk <= bs -> done + chunk <= len data -> fmap img vi (fpos / bs) = d -> d <> 0 ->
  exists pg' img',
    eval 3 ('(rc, blk) ← (if chunk <? bs then bread fs d pg else blk ← clear pg bs; mret (0, blk));
            if negb (rc =? 0) then mret None else
            blk ← copy_in blk boff (ztake chunk (zdrop done data));
            rc ← bwrite fs d blk;
            mret (if negb (rc =? 0) then None else Some blk)) img (Some pg') img' /\
    wrote img vi data off done (done + chunk) [] img' vi.
Proof.
  intros L Own Ho Hd fpos boff Hc Hb Hl Em Dn. pose proof (bs_bound fs NS Vol).
  assert (Hq : 0 <= fpos / bs) by (apply Z.div_pos; lia). pose proof (Z.mod_pos_bound fpos bs ltac:(lia)) as Hbo. fold boff in Hbo.
  rewrite <- Em in Dn. pose proof (of_data _ _ _ Own _ (fmap_in img vi _ Hq Dn)) as Dd. rewrite Em in Dd.
  assert (Hlen : len (ztake chunk (zdrop done data)) = chunk) by (rewrite len_ztake; [done|rewrite len_zdrop; lia]).
  set (base := if chunk <? bs then mblit pg 0 img (d * bs) bs else mfill pg 0 bs 0).
  set (p := mblit base boff (bytes_at (ztake chunk (zdrop done data))) 0 (len (ztake chunk (zdrop done data)))).
  exists p, (mblit img (d * bs) p 0 bs). split.
  - eapply (eval_bind _ _ _ _ (0, base) img).
    { subst base. case_match; [apply (eval_bread fs NS junk Vol), Dd|]. eapply eval_bind; [apply eval_clear; lia|]. apply eval_ret. }
    cbn [Z.eqb negb]. eapply eval_bind; [apply eval_copy_in; lia|].
    eapply eval_bind; [apply (eval_bwrite fs NS junk Vol), Dd|]. apply eval_ret.
  - destruct (store_data img vi (fpos / bs) p L Own Hq Dn) as (G & Fr & Ow & Bl & By). rewrite Em in G, Fr, Ow, Bl, By.
    split; [done|done|apply remap_refl|done|by rewrite Bl, app_nil_r| |].
    + eapply frame_mono; [|exact Fr]. cbn beta. intros b <-. left. rewrite <- Em. by apply fmap_in.
    + intros x Hx. rewrite By by done. pose proof (Z.mod_pos_bound x bs ltac:(lia)) as Hm.
      pose proof (Z.div_mod x bs ltac:(lia)). pose proof (Z.div_mod fpos bs ltac:(lia)) as Ef. fold boff in Ef.
      destruct (decide (x / bs = fpos / bs)) as [E|N].
      * destruct (decide (off + done <= x < off + (done + chunk))) as [Hin|Hout].
        -- f_equal. subst p. rewrite mblit_in by (rewrite Hlen; subst fpos; nia).
           rewrite bytes_take, bytes_drop by (subst fpos; nia). f_equal. subst fpos. nia.
        -- subst p. rewrite mblit_out by (rewrite Hlen; subst fpos; nia). subst base.
           destruct (Z.ltb_spec chunk bs); [|subst fpos; nia]. rewrite mblit_in by lia. unfold fbyte. rewrite E, Em.
           replace (d =? 0) with false by lia. do 2 f_equal. lia.
      * rewrite decide_False; [done|]. intros Hin. apply N. symmetry. apply (Z.div_unique _ _ _ (x - fpos / bs * bs)); [|lia].
        left. subst fpos. nia.
Qed.

Lemma eval_ext {A} F (m m' : M A) img a img' : (forall s, m s = m' s) -> eval F m' img a img' -> eval F m img a img'.
Proof. intros H E s Q. rewrite H. by apply E. Qed.

(** The loop of ext2_write as the three steps above. *)
Lemma write_loop_steps fuel vi pg data off done s : done < len data ->
  write_loop (S fuel) fs vi pg data off done s =
    (let fpos := u64 (off + done) in
     let boff := fpos mod bs in
     let chunk := Z.min (bs - boff) (len data - done) in
     '(d, vi) ← (disk ← map_block fs vi (u32 (fpos / bs));
                 if disk =? 0 then alloc_file_block fs vi (u32 (fpos / bs)) else mret (disk, vi));
     if d =? 0 then mret (Wfull, done, vi) else
     r ← ('(rc, blk) ← (if chunk <? bs then bread fs d pg else blk ← clear pg bs; mret (0, blk));
          if negb (rc =? 0) then mret None else
          blk ← copy_in blk boff (ztake chunk (zdrop done data));
          rc ← bwrite fs d blk;
          mret (if negb (rc =? 0) then None else Some blk));
     match r with
     | None => mret (Wio, done, vi)
     | Some blk => write_loop fuel fs vi blk data off (done + chunk)
     end) s.
Proof.
  intros Hd. cbn [write_loop]. replace (len data <=? done) with false by lia. cbv zeta. unfold mbind, M_bind.
  destruct (map_block _ _ _ s) as [[disk s1]|]; [|done].
  set (m1 := if disk =? 0 then _ else _). destruct (m1 s1) as [[[d v] s2]|]; [|done]. destruct (d =? 0); [done|].
  set (m2 := if _ : bool then bread _ _ _ else _). destruct (m2 s2) as [[[rc b] s3]|]; [|done].
  destruct (negb (rc =? 0)); [done|].
  destruct (copy_in _ _ _ s3) as [[b' s4]|]; [|done]. destruct (bwrite _ _ _ s4) as [[rc' s5]|]; [|done].
  cbn. by destruct (negb (rc' =? 0)).
Qed.

Lemma eval_write_loop fuel vi pg data off done img : layout fs img -> own_file img vi -> 0 <= off -> 0 <= done <= len data ->
  off + len data < 2 ^ 32 -> len data - done <= Z.of_nat fuel ->
  exists e done' vi' new img',
    eval 3 (write_loop fuel fs vi pg data off done) img (e, done', vi') img' /\
    wrote img vi data off done done' new img' vi' /\
    ((e = Wdone /\ done' = len data) \/ (e = Wfull /\ done <= done' < len data /\ full fs img')).
Proof.
  revert vi pg done img. induction fuel as [|fuel IH]; intros vi pg done img L Own Ho Hd Hmax Hf.
  all: destruct (decide (done = len data)) as [->|Nd];
    [eexists Wdone, (len data), vi, [], img; split_and!;
      [cbn [write_loop]; rewrite Z.leb_refl; apply eval_ret|by apply wrote_refl|by left]|].
  1: lia.
  pose proof (bs_bound fs NS Vol). set (fpos := off + done).
  assert (U1 : u64 fpos = fpos) by (apply u64_small; subst fpos; lia).
  assert (Hq : 0 <= fpos / bs < 2 ^ 32).
  { split; [apply Z.div_pos; subst fpos; lia|]. apply Z.div_lt_upper_bound; subst fpos; nia. }
  assert (U2 : u32 (fpos / bs) = fpos / bs) by (apply u32_small; lia).
  destruct (chunk_bound fs (v_geom _ _ Vol) fpos (len data - done) ltac:(lia)) as (C1 & C2 & C3). cbv zeta in C1, C2, C3.
  destruct (eval_find_block vi (fpos / bs) img L Own ltac:(lia)) as (d & v1 & n1 & i1 & E1 & W1 & M1 & F1).
  { apply region_some. subst fpos. lia. }
  set (chunk := Z.min (bs - fpos mod bs) (len data - done)) in *.
  destruct (decide (d = 0)) as [->|Dn].
  { exists Wfull, done, v1, n1, i1. split_and!; [|apply W1|right; split_and!; [done|lia|lia|by apply F1]].
    eapply eval_ext; [intros s; apply write_loop_steps; lia|]. cbv zeta. fold fpos. rewrite U1, U2.
    eapply eval_bind; [exact E1|]. apply eval_ret. }
  specialize (M1 Dn). pose proof (W1 data off done) as W1'. pose proof (wr_own _ _ _ _ _ _ _ _ _ W1') as O1.
  pose proof (gr_lay _ _ _ _ (wr_grown _ _ _ _ _ _ _ _ _ W1')) as L1.
  destruct (eval_store_chunk v1 d pg data off done chunk i1 L1 O1 Ho ltac:(lia) ltac:(lia) C3 ltac:(lia) M1 Dn)
    as (pg' & i2 & E2 & W2).
  destruct (IH v1 pg' (done + chunk) i2) as (e & done' & v3 & n3 & i3 & E3 & W3 & R3).
  { apply (wr_grown _ _ _ _ _ _ _ _ _ W2). } { apply W2. } { done. } { lia. } { done. } { lia. }
  exists e, done', v3, (n1 ++ [] ++ n3), i3. split_and!.
  - eapply eval_ext; [intros s; apply write_loop_steps; lia|]. cbv zeta. fold fpos. rewrite U1, U2. fold chunk.
    eapply eval_bind; [exact E1|]. cbn beta iota. replace (d =? 0) with false by lia.
    eapply eval_bind; [exact E2|]. exact E3.
  - eapply (wrote_trans _ _ i1 v1); [|exact W1'|]. { destruct R3; lia. }
    eapply (wrote_trans _ _ i2 v1); [|exact W2|exact W3]. destruct R3; lia.
  - destruct R3 as [?|(? & ? & ?)]; [by left|right]. split_and!; try done; lia.
Qed.

(** ** Reading *)

(** A chunk of the file inside one block. *)
Lemma chunk_bytes img vi fpos chunk : 0 <= fpos -> fpos mod bs + chunk <= bs ->
  (fun i => fbyte img vi i) <$> seqZ fpos chunk =
    let d := fmap img vi (fpos / bs) in
    if d =? 0 then replicate (Z.to_nat chunk) 0 else mbytes (mblit junk 0 img (d * bs) bs) (fpos mod bs) chunk.
Proof.
  intros Hp Hc. pose proof (bs_bound fs NS Vol). cbv zeta. pose proof (Z.mod_pos_bound fpos bs ltac:(lia)).
  pose proof (Z.div_mod fpos bs ltac:(lia)).
  assert (Hx : forall i, 0 <= i < chunk -> (fpos + i) / bs = fpos / bs /\ (fpos + i) mod bs = fpos mod bs + i).
  { intros i Hi. assert (E : (fpos + i) / bs = fpos / bs).
    { symmetry. apply (Z.div_unique _ _ _ (fpos mod bs + i)); [left; lia|lia]. }
    split; [done|]. pose proof (Z.div_mod (fpos + i) bs ltac:(lia)). rewrite E in *. lia. }
  apply list_eq. intros k. rewrite list_lookup_fmap.
  destruct (decide (Z.of_nat k < chunk)) as [Hk|Hk].
  - rewrite (lookup_seqZ_lt _ _ k) by lia. cbn [base.fmap option_fmap option_map]. destruct (Hx (Z.of_nat k) ltac:(lia)) as [E1 E2].
    unfold fbyte. rewrite E1, E2. destruct (fmap img vi (fpos / bs) =? 0).
    + symmetry. apply lookup_replicate. split; [done|lia].
    + unfold mbytes. rewrite list_lookup_fmap, (lookup_seqZ_lt _ _ k) by lia. cbn. rewrite mblit_in by lia. do 3 f_equal. lia.
  - rewrite (lookup_seqZ_ge _ _ k) by lia. symmetry. destruct (fmap img vi (fpos / bs) =? 0).
    + apply lookup_replicate_None. lia.
    + unfold mbytes. by rewrite list_lookup_fmap, (lookup_seqZ_ge _ _ k) by lia.
Qed.

Lemma mbytes_page pg pg' img d o n : 0 <= o -> o + n <= bs ->
  mbytes (mblit pg 0 img (d * bs) bs) o n = mbytes (mblit pg' 0 img (d * bs) bs) o n.
Proof.
  intros Ho Hn. unfold mbytes. apply list_fmap_ext. intros k x Hx. apply lookup_seqZ in Hx as [-> Hk].
  by rewrite !mblit_in by lia.
Qed.

Lemma eval_read_loop fuel vi pg n off acc img : own_file img vi -> 0 <= off -> 0 <= n -> off + n <= 2 ^ 32 ->
  len acc <= n -> n - len acc <= Z.of_nat fuel ->
  eval 3 (read_loop fuel fs vi pg n off acc) img (n, acc ++ (fbyte img vi <$> seqZ (off + len acc) (n - len acc))) img.
Proof.
  intros Own Ho Hn Hmax. revert pg acc. induction fuel as [|fuel IH]; intros pg acc Ha Hf.
  all: pose proof (len_nonneg acc); destruct (decide (len acc = n)) as [E|Nd];
    [rewrite E; replace (n - n) with 0 by lia; change (seqZ (off + n) 0) with (@nil Z); rewrite app_nil_r;
      cbn [read_loop]; rewrite E, Z.leb_refl; apply eval_ret|].
  1: lia.
  pose proof (bs_bound fs NS Vol). cbn [read_loop]. replace (n <=? len acc) with false by lia. cbv zeta.
  set (fpos := off + len acc). assert (U1 : u64 fpos = fpos) by (apply u64_small; subst fpos; lia). rewrite U1.
  assert (Hq : 0 <= fpos / bs < 2 ^ 32).
  { split; [apply Z.div_pos; subst fpos; lia|]. apply Z.div_lt_upper_bound; subst fpos; nia. }
  rewrite (u32_small (fpos / bs)) by lia.
  destruct (chunk_bound fs (v_geom _ _ Vol) fpos (n - len acc) ltac:(lia)) as (C1 & C2 & C3). cbv zeta in C1, C2, C3.
  set (chunk := Z.min (bs - fpos mod bs) (n - len acc)) in *.
  pose proof (chunk_bytes img vi fpos chunk ltac:(subst fpos; lia) ltac:(lia)) as Cb. cbv zeta in Cb.
  assert (Next : forall pg', eval 3 (read_loop fuel fs vi pg' n off (acc ++ (fbyte img vi <$> seqZ fpos chunk))) img
    (n, acc ++ (fbyte img vi <$> seqZ fpos (n - len acc))) img).
  { intros pg'. assert (Hl : len (acc ++ (fbyte img vi <$> seqZ fpos chunk)) = len acc + chunk).
    { rewrite len_app. unfold len at 2. rewrite length_fmap, length_seqZ. lia. }
    specialize (IH pg' (acc ++ (fbyte img vi <$> seqZ fpos chunk))). rewrite Hl in IH.
    replace (fbyte img vi <$> seqZ fpos (n - len acc))
      with ((fbyte img vi <$> seqZ fpos chunk) ++ (fbyte img vi <$> seqZ (off + (len acc + chunk)) (n - (len acc + chunk)))).
    - rewrite app_assoc. apply IH; lia.
    - rewrite <- fmap_app. f_equal. replace (n - len acc) with (chunk + (n - (len acc + chunk))) by lia.
      rewrite seqZ_app by lia. do 2 f_equal. subst fpos. lia. }
  eapply eval_bind; [apply eval_map_block; [done|done|lia]|].
  change (fbyte img vi <$> seqZ fpos chunk) with ((fun i => fbyte img vi i) <$> seqZ fpos chunk) in Next. rewrite Cb in Next.
  destruct (Z.eqb_spec (fmap img vi (fpos / bs)) 0) as [E0|Hn']; [apply Next|].
  destruct Hq as [Hq _]. pose proof (of_data _ _ _ Own _ (fmap_in img vi _ Hq Hn')) as ((_ & Vd) & _).
  eapply eval_bind; [by apply (eval_bread fs NS junk Vol)|]. cbn [Z.eqb negb].
  eapply eval_bind; [apply eval_copy_out; lia|]. rewrite (mbytes_page pg junk) by lia. apply Next.
Qed.

(** ** Files that are not written *)

(** A file none of whose blocks changed. *)
Lemma file_untouched img img' vi : own_file img vi -> (forall b, b ∈ fblocks fs img vi -> untouched fs img img' b /\ data_blk fs img' b) ->
  own_file img' vi /\ forall x, 0 <= x -> fbyte img' vi x = fbyte img vi x.
Proof.
  intros Own H. destruct (fmap_ext img img' vi) as [Bl Mp]. { intros b Hb. by apply H, finner_sub. }
  pose proof (bs_bound fs NS Vol). split.
  - split; [apply Own|rewrite Bl; apply Own|]. intros b. rewrite Bl. intros Hb. by apply H.
  - intros x Hx. assert (Hq : 0 <= x / bs) by (apply Z.div_pos; lia). pose proof (Z.mod_pos_bound x bs ltac:(lia)).
    unfold fbyte. rewrite Mp by done. destruct (Z.eqb_spec (fmap img vi (x / bs)) 0) as [|Hn]; [done|]. f_equal.
    destruct (H _ (fmap_in img vi _ Hq Hn)) as [Hu _]. apply Hu. unfold in_blk. lia.
Qed.

Lemma wrote_other img vi data off lo hi new img' vi' u : wrote img vi data off lo hi new img' vi' -> own_file img u ->
  (forall b, b ∈ fblocks fs img u -> b ∉ fblocks fs img vi) ->
  own_file img' u /\ forall x, 0 <= x -> fbyte img' u x = fbyte img u x.
Proof.
  intros W Ou Hd. apply file_untouched; [done|]. intros b Hb. pose proof (of_data _ _ _ Ou b Hb) as Db. split.
  - eapply frame_data; [apply W|done|]. intros [Hin|Hin]; [by apply (Hd b)|]. eapply new_not_owned; [exact Ou|apply W|done|done].
  - eapply grown_data; [apply W|done].
Qed.

Lemma inode_img_file img vi u : layout fs img -> ino_ok fs (vi_ino vi) -> slots vi -> own_file img u ->
  own_file (inode_img fs junk img vi) u /\ forall x, 0 <= x -> fbyte (inode_img fs junk img vi) u x = fbyte img u x.
Proof.
  intros L Hi Hs Ou. destruct (inode_img_layout fs NS junk Vol img vi L Hi Hs) as (Sg & _ & U).
  apply file_untouched; [done|]. intros b Hb. destruct (of_data _ _ _ Ou b Hb) as (V & Ub & N). split.
  - apply (inode_img_block fs NS junk Vol); [done..|]. intros H. apply N. right. right. by right.
  - split_and!; [done|by rewrite U|]. by rewrite (same_gd_sys fs _ _ b Sg).
Qed.

(** The slots of a file's inode fit 32 bits. *)
Lemma own_map_fits img vi : own_file img vi -> Forall (fun x => 0 <= x < 2 ^ 32) (vi_block vi).
Proof.
  intros Own. apply Forall_lookup. intros k b Hb. destruct (decide (b = 0)) as [->|Hn]; [lia|].
  pose proof (lookup_lt_Some _ _ _ Hb) as Hk. rewrite (of_slots _ _ _ Own) in Hk.
  assert (Hin : b ∈ fblocks fs img vi).
  { apply elem_of_kids. exists (Z.of_nat k). split; [lia|]. unfold blk_slot. rewrite Nat2Z.id, Hb. change (default 0 (Some b)) with b.
    destruct (lev (Z.of_nat k)); cbn [tblocks]; replace (b =? 0) with false by lia; by left. }
  destruct (of_data _ _ _ Own b Hin) as ((V1 & V2) & _). destruct (v_first _ _ Vol). destruct (v_count _ _ Vol).
  pose proof (g_bpg fs (v_geom _ _ Vol)). lia.
Qed.

Lemma wrote_fits img vi data off lo hi new img' vi' : wrote img vi data off lo hi new img' vi' -> fits vi -> fits vi'.
Proof.
  intros W [F1 F2 F3 F4 F5 F6]. pose proof (wr_remap _ _ _ _ _ _ _ _ _ W) as [_ E].
  split; [eapply remap_slots; [apply W|done]|..]; try (by rewrite E); [by apply W|]. eapply own_map_fits, W.
Qed.
End Io.

(** * The operations *)

(** [vn] is a vnode of the volume [fs], with the inode [vi]. *)
Record file_at (s : est) (vn : Z) (fs : ext2_fs) (vi : ext2_vinfo) : Prop := {
  fa_vn : exists v, e_vns s !! vn = Some v /\ v_priv v <> 0 /\ e_vis s !! v_priv v = Some vi;
  fa_fs : e_fss s !! vi_fs vi = Some fs;
  fa_self : fs_self fs = vi_fs vi
}.

Section Ops.
Context (fs : ext2_fs) (NS : Z) (junk : mem) (Vol : volume fs NS).

Lemma eval_run {A} F (m : M A) img a img' s : eval NS junk F m img a img' -> quiet NS junk F img s -> m s = Some (a, set_image img' s).
Proof. intros H Q. by apply H. Qed.

Lemma quiet_weaken F F' img s : F' <= F -> quiet NS junk F img s -> quiet NS junk F' img s.
Proof. intros H []. split; try done. lia. Qed.

Lemma ext2_read_bytes s vn vi img n off : file_at s vn fs vi -> quiet NS junk 4 img s -> own_file fs img vi ->
  0 <= vi_size vi < 2 ^ 32 -> 0 <= n -> 0 <= off -> off + n < 2 ^ 64 ->
  ext2_read vn n off s =
    (let k := Z.max 0 (Z.min n (vi_size vi - off)) in Some ((k, fbyte fs img vi <$> seqZ off k), s)).
Proof.
  intros [(v & Hv & Hp & Hvi) Hfs Hself] Q Own Hz Hn Ho Hmax. unfold ext2_read.
  rewrite (obj_some e_vns vn v) by done. replace (v_priv v =? 0) with false by lia. rewrite (obj_some e_vis _ vi) by done.
  cbv zeta. destruct (Z.leb_spec (vi_size vi) off).
  - replace (Z.max 0 (Z.min n (vi_size vi - off))) with 0 by lia. done.
  - rewrite (obj_some e_fss _ fs) by done. rewrite (u64_small (off + n)) by lia.
    set (m := if _ : bool then _ else _). assert (Em : m = Z.max 0 (Z.min n (vi_size vi - off))) by (subst m; zif; lia).
    rewrite <- Em. assert (Hm : 0 <= m /\ off + m <= 2 ^ 32) by lia. clearbody m.
    assert (E : eval NS junk (3 + 1) (with_page (- ENOMEM, []) (fun blk => read_loop (Z.to_nat m) fs vi blk m off [])) img
      (m, fbyte fs img vi <$> seqZ off m) img).
    { apply eval_page; [lia|]. pose proof (eval_read_loop fs NS junk Vol (Z.to_nat m) vi junk m off [] img Own Ho) as R.
      change (len []) with 0 in R. rewrite Z.add_0_r, Z.sub_0_r in R. apply R; lia. }
    rewrite (eval_run _ _ _ _ _ _ E Q). by rewrite (set_image_same 4 _ _ Q).
Qed.

(** The loop of ext2_write in its page. *)
Lemma eval_write_page vi data off img : layout fs img -> own_file fs img vi -> 0 <= off -> off + len data < 2 ^ 32 ->
  exists e k vi' new img',
    eval NS junk 4 (with_page None (fun blk => r ← write_loop (Z.to_nat (len data)) fs vi blk data off 0; mret (Some r)))
      img (Some (e, k, vi')) img' /\
    wrote fs img vi data off 0 k new img' vi' /\
    ((e = Wdone /\ k = len data) \/ (e = Wfull /\ 0 <= k < len data /\ full fs img')).
Proof.
  intros L Own Ho Hmax. pose proof (len_nonneg data).
  destruct (eval_write_loop fs NS junk Vol (Z.to_nat (len data)) vi junk data off 0 img) as (e & k & vi' & new & img' & E & W & R);
    [done|done|done|lia|lia|lia|].
  exists e, k, vi', new, img'. split_and!; [|done|done].
  apply (eval_page 3); [lia|]. eapply eval_bind; [exact E|]. apply eval_ret.
Qed.

(** The inode after a write: its size is the end of the bytes if that is larger. *)
Definition sized (vi : ext2_vinfo) (e : Z) : ext2_vinfo := if vi_size vi <? e then with_vi_size e vi else vi.

(** How a write ended: [r] is its result, [vi1] the inode with its new blocks. *)
Definition write_end (vi vi1 : ext2_vinfo) (img' : mem) (data : list Z) (off r : Z) (vi' : ext2_vinfo) : Prop :=
  (r = len data /\ vi' = sized vi1 (off + len data)) \/ (r < len data /\ full fs img' /\ vi' = vi1).

Lemma run_write s vn vi img data off : layout fs img -> own_file fs img vi -> fits vi -> ino_ok fs (vi_ino vi) ->
  file_at s vn fs vi -> quiet NS junk 4 img s -> 0 <= off -> off + len data < 2 ^ 32 ->
  exists r k vi1 vi' new img1 s', ext2_write vn data off s = Some (r, s') /\
    wrote fs img vi data off 0 k new img1 vi1 /\ k = Z.max 0 r /\
    write_end vi vi1 img1 data off r vi' /\
    quiet NS junk 4 (inode_img fs junk img1 vi') s' /\ file_at s' vn fs vi' /\ vi_ino vi' = vi_ino vi /\ vi_fs vi' = vi_fs vi /\ fits vi'.
Proof.
  intros L Own Ft Hi [(v & Hv & Hp & Hvi) Hfs Hself] Q Ho Hmax. pose proof (len_nonneg data).
  destruct (eval_write_page vi data off img L Own Ho Hmax) as (e & k & vi1 & new & img1 & E & W & R).
  pose proof (wrote_fits fs NS Vol _ _ _ _ _ _ _ _ _ W Ft) as Ft1.
  pose proof (gr_lay _ _ _ _ (wr_grown _ _ _ _ _ _ _ _ _ _ W)) as L1.
  destruct (wr_remap _ _ _ _ _ _ _ _ _ _ W) as [_ Er].
  assert (I1 : vi_ino vi1 = vi_ino vi) by (by rewrite Er). assert (F1 : vi_fs vi1 = vi_fs vi) by (by rewrite Er).
  pose proof (quiet_image _ _ img1 _ Q) as Q1.
  unfold ext2_write. rewrite (obj_some e_vns vn v) by done. cbv zeta. replace (v_priv v =? 0) with false by lia.
  rewrite (obj_some e_vis _ vi) by done. rewrite (obj_some e_fss _ fs) by done.
  rewrite (bind_some _ _ _ _ _ (eval_run _ _ _ _ _ _ E Q)).
  destruct R as [[-> ->]|(-> & Hd & Hfull)].
  - rewrite (u64_small (off + len data)) by lia. rewrite (u32_small (off + len data)) by lia.
    set (vi' := sized vi1 (off + len data)).
    assert (Hs' : vi_ino vi' = vi_ino vi /\ vi_fs vi' = vi_fs vi /\ fits vi').
    { subst vi'. unfold sized. case_match; [|done]. split_and!; [done|done|]. destruct Ft1. split; try done. cbn. lia. }
    destruct Hs' as (I2 & F2 & Ft2). assert (Hi2 : ino_ok fs (vi_ino vi')) by (by rewrite I2).
    set (s1 := set_image img1 s) in *.
    set (s2 := if vi_size vi1 <? off + len data then set_vns (<[vn := with_size (off + len data) v]> (e_vns s1)) s1 else s1).
    assert (Q2 : quiet NS junk 1 img1 (set_vis (<[v_priv v := vi']> (e_vis s2)) s2)).
    { destruct Q1. subst s2 s1. case_match; split; cbn in *; try done; lia. }
    pose proof (eval_write_inode fs NS junk Vol vi' img1 L1 Hi2 (ft_slots _ Ft2)) as Ew.
    exists (len data), (len data), vi1, vi', new, img1, (set_image (inode_img fs junk img1 vi') (set_vis (<[v_priv v := vi']> (e_vis s2)) s2)).
    split_and!; try done.
    + rewrite (bind_some _ _ s1 vi' s2) by (subst s2 vi'; unfold sized; case_match; done).
      unfold put_vi. rewrite (bind_some _ _ s2 tt (set_vis (<[v_priv v := vi']> (e_vis s2)) s2)) by done.
      by rewrite (bind_some _ _ _ _ _ (Ew _ Q2)).
    + lia.
    + left. done.
    + destruct Q1. subst s2 s1. case_match; split; cbn in *; try done; lia.
    + split; [|subst s2; case_match; cbn; rewrite F2; done|by rewrite F2].
      subst s2. case_match; cbn; [exists (with_size (off + len data) v)|exists v]; rewrite ?lookup_insert_eq; split_and!; try done;
        cbn; by rewrite lookup_insert_eq.
  - set (s1 := set_image img1 s) in *. assert (Hi1 : ino_ok fs (vi_ino vi1)) by (by rewrite I1).
    assert (Q2 : quiet NS junk 1 img1 (set_vis (<[v_priv v := vi1]> (e_vis s1)) s1)) by (destruct Q1; subst s1; split; cbn in *; try done; lia).
    pose proof (eval_write_inode fs NS junk Vol vi1 img1 L1 Hi1 (ft_slots _ Ft1)) as Ew.
    exists (done_or k ENOSPC), k, vi1, vi1, new, img1, (set_image (inode_img fs junk img1 vi1) (set_vis (<[v_priv v := vi1]> (e_vis s1)) s1)).
    split_and!; try done.
    + unfold put_vi. rewrite (bind_some _ _ s1 tt (set_vis (<[v_priv v := vi1]> (e_vis s1)) s1)) by done.
      by rewrite (bind_some _ _ _ _ _ (Ew _ Q2)).
    + unfold done_or, ENOSPC. zif; lia.
    + right. split_and!; [unfold done_or, ENOSPC; zif; lia|done|done].
    + destruct Q1. subst s1. split; cbn in *; done.
    + split; [|cbn; by rewrite F1|by rewrite F1]. exists v. cbn. by rewrite lookup_insert_eq.
Qed.

(** The size does not matter to the map. *)
Lemma write_end_same vi vi1 img data off r vi' : write_end vi vi1 img data off r vi' ->
  slots vi' = slots vi1 /\ (forall i, fblocks fs i vi' = fblocks fs i vi1) /\
  (forall i, own_file fs i vi1 -> own_file fs i vi') /\ forall i x, fbyte fs i vi' x = fbyte fs i vi1 x.
Proof.
  intros [(_ & ->)|(_ & _ & ->)]; [|done]. unfold sized. case_match; [|done].
  split_and!; try done. intros i []. by split.
Qed.

(** C18: writing an ext2 file and reading it back. On a volume with a sound layout
    whose file owns its blocks, ext2_write of [data] at [off] stores all of it, or
    as much as fits when the disk becomes full; afterwards the file's bytes in that
    range are those of [data], every other byte of this file and every byte of any
    other file is as before, ext2_read returns the file's bytes up to its size, the
    new inode is on the disk, and the layout and the ownership still hold. *)
Theorem ext2_write_read s vn vi img data off :
  layout fs img -> own_file fs img vi -> fits vi -> ino_ok fs (vi_ino vi) ->
  file_at s vn fs vi -> quiet NS junk 4 img s -> 0 <= off -> off + len data < 2 ^ 32 ->
  exists r s' vi' img', ext2_write vn data off s = Some (r, s') /\
    quiet NS junk 4 img' s' /\ file_at s' vn fs vi' /\ layout fs img' /\ own_file fs img' vi' /\
    ((r = len data /\ vi_size vi' = Z.max (vi_size vi) (off + len data)) \/
     (r < len data /\ full fs img' /\ vi_size vi' = vi_size vi)) /\
    (forall x, 0 <= x -> fbyte fs img' vi' x =
       if decide (off <= x < off + r) then u8 (bytes_at data (x - off)) else fbyte fs img vi x) /\
    (forall n o, 0 <= n -> 0 <= o -> o + n < 2 ^ 64 -> ext2_read vn n o s' =
       let k := Z.max 0 (Z.min n (vi_size vi' - o)) in Some ((k, fbyte fs img' vi' <$> seqZ o k), s')) /\
    (forall u, own_file fs img u -> (forall b, b ∈ fblocks fs img u -> b ∉ fblocks fs img vi) ->
       own_file fs img' u /\ forall x, 0 <= x -> fbyte fs img' u x = fbyte fs img u x) /\
    read_inode fs (vi_ino vi) s' = Some (inr (with_vi_gc_next 0 vi'), s').
Proof.
  intros L Own Ft Hi Fa Q Ho Hmax.
  destruct (run_write s vn vi img data off L Own Ft Hi Fa Q Ho Hmax)
    as (r & k & vi1 & vi' & new & img1 & s' & E & W & Hk & En & Q' & Fa' & Ei & Ef & Ft').
  destruct (write_end_same _ _ _ _ _ _ _ En) as (Es & Eb & Eo & Ey).
  pose proof (gr_lay _ _ _ _ (wr_grown _ _ _ _ _ _ _ _ _ _ W)) as L1.
  assert (Hi' : ino_ok fs (vi_ino vi')) by (by rewrite Ei). pose proof (ft_slots _ Ft') as Sl.
  destruct (inode_img_layout fs NS junk Vol img1 vi' L1 Hi' Sl) as (Sg & L' & U').
  destruct (inode_img_file fs NS junk Vol img1 vi' vi' L1 Hi' Sl (Eo _ (wr_own _ _ _ _ _ _ _ _ _ _ W))) as [Own' By'].
  destruct (wr_remap _ _ _ _ _ _ _ _ _ _ W) as [_ Er].
  exists r, s', vi', (inode_img fs junk img1 vi'). split_and!; try done.
  - destruct En as [(-> & ->)|(Hr & Hf & ->)]; [left|right].
    + split; [done|]. unfold sized. rewrite Er. cbn [vi_size]. zif; cbn; lia.
    + split_and!; [done| |by rewrite Er]. intros b V. rewrite U' by done. by apply Hf.
  - intros x Hx. rewrite By' by done. rewrite Ey. rewrite (wr_bytes _ _ _ _ _ _ _ _ _ _ W) by done.
    destruct (decide (off <= x < off + r)) as [Hin|Hout]; [rewrite decide_True by lia; done|].
    by rewrite decide_False by lia.
  - intros n o Hn Hoo Hno. by apply ext2_read_bytes; try apply Ft'.
  - intros u Ou Hd. destruct (wrote_other fs NS Vol _ _ _ _ _ _ _ _ _ u W Ou Hd) as [Ou1 Bu1].
    destruct (inode_img_file fs NS junk Vol img1 vi' u L1 Hi' Sl Ou1) as [Ou2 Bu2].
    split; [done|]. intros x Hx. by rewrite Bu2, Bu1.
  - pose proof (eval_read_inode fs NS junk Vol (vi_ino vi) _ L' Hi) as Rd.
    rewrite (inode_img_addr fs NS junk Vol img1 vi' _ L1 Hi' Sl Hi) in Rd.
    rewrite <- Ei in Rd at 2 3. rewrite (inode_img_get fs NS junk Vol img1 vi' L1 Hi' Ft') in Rd by (rewrite Ef; symmetry; apply Fa).
    rewrite (eval_run _ _ _ _ _ _ Rd (quiet_weaken 4 1 _ _ ltac:(lia) Q')). by rewrite (set_image_same 4 _ _ Q').
Qed.
End Ops.
