(* ===== verification/Ext2Dir.v ===== *)
(** The directories of an ext2 volume: the records of a block as a list, what
    dir_walk finds in them, and what dir_add_entry and dir_remove_entry change. *)

From stdpp Require Import base numbers option list gmap.
From Stdlib Require Import ZArith Lia.
From S2P Require Import Prelude Buf Tmpfs Ext2 Ext2Safe Ext2Disk Ext2Inode Ext2File Ext2Io.

(** * Records *)

Record dent := Dent { de_ino : Z; de_rlen : Z; de_ftype : Z; de_name : list Z }.

(** The record [e] at offset [o] of the page [m]. *)
Record rec_at (m : mem) (o : Z) (e : dent) : Prop := {
  ra_ino : ld32 m o = de_ino e;
  ra_rlen : ld16 m (o + 4) = de_rlen e;
  ra_nlen : ld8 m (o + 6) = len (de_name e);
  ra_ftype : ld8 m (o + 7) = de_ftype e;
  ra_name : mbytes m (o + 8) (len (de_name e)) = de_name e;
  ra_room : 8 + len (de_name e) <= de_rlen e;
  ra_align : (4 | de_rlen e)
}.

Section Records.
Context (bs : Z).

(** The records of a block from [o] to its end. *)
Fixpoint chain (m : mem) (o : Z) (l : list dent) : Prop :=
  match l with [] => o = bs | e :: l => rec_at m o e /\ chain m (o + de_rlen e) l end.

Lemma chain_end m o l : chain m o l -> o + 8 * len l <= bs.
Proof.
  revert o. induction l as [|e l IH]; intros o; cbn [chain]; [change (len []) with 0; lia|].
  intros [R C]. apply IH in C. rewrite len_cons. pose proof (ra_room _ _ _ R). pose proof (len_nonneg (de_name e)). lia.
Qed.

Lemma rec_at_ext m m' o e : (forall x, o <= x < o + de_rlen e -> m' x = m x) -> rec_at m o e -> rec_at m' o e.
Proof.
  intros H [R1 R2 R3 R4 R5 R6 R7]. pose proof (len_nonneg (de_name e)).
  split; [rewrite <- R1|rewrite <- R2|rewrite <- R3|rewrite <- R4| |done|done]; try (apply ld_ext; intros; apply H; lia).
  transitivity (mbytes m (o + 8) (len (de_name e))); [|done]. unfold mbytes. apply list_fmap_ext. intros k x Hx. apply lookup_seqZ in Hx as [-> Hk]. f_equal. apply H. lia.
Qed.

Lemma recs_ext m m' o l : (forall x, o <= x < bs -> m' x = m x) -> chain m o l -> chain m' o l.
Proof.
  revert o. induction l as [|e l IH]; intros o H; cbn [chain]; [done|]. intros [R C].
  pose proof (chain_end _ _ _ C). pose proof (ra_room _ _ _ R). pose proof (len_nonneg (de_name e)). pose proof (len_nonneg l).
  split; [eapply rec_at_ext; [|exact R]; intros; apply H; lia|]. apply IH; [|done]. intros. apply H. lia.
Qed.
End Records.

Definition live (e : dent) : bool := negb (de_ino e =? 0) && negb (len (de_name e) =? 0).

(** The first live record of that name. *)
Fixpoint find_name (w : list Z) (l : list dent) : option dent :=
  match l with
  | [] => None
  | e :: l => if live e && bool_decide (de_name e = w) then Some e else find_name w l
  end.

(** ** Alignment *)

Lemma align4_spec x : 0 <= x < 2 ^ 31 -> align4 x = (x + 3) / 4 * 4.
Proof.
  intros Hx. unfold align4. rewrite u32_small by lia. change (2 ^ 32 - 4) with (Z.shiftl (Z.ones 30) 2).
  replace ((x + 3) / 4 * 4) with (Z.shiftl (Z.shiftr (x + 3) 2) 2)
    by (rewrite Z.shiftl_mul_pow2, Z.shiftr_div_pow2 by lia; done).
  apply Z.bits_inj'. intros k Hk. rewrite Z.land_spec, !Z.shiftl_spec by lia.
  destruct (Z.ltb_spec k 2); [rewrite !(Z.testbit_neg_r _ (k - 2)) by lia; by rewrite andb_false_r|].
  rewrite Z.shiftr_spec by lia. replace (k - 2 + 2) with k by lia.
  destruct (Z.ltb_spec (k - 2) 30); [rewrite Z.ones_spec_low by lia; apply andb_true_r|].
  rewrite Z.ones_spec_high by lia. rewrite andb_false_r. symmetry. apply (Z.bits_above_log2 (x + 3) k); [lia|].
  apply Z.log2_lt_pow2; [lia|]. apply Z.lt_le_trans with (2 ^ 32); [lia|]. apply Z.pow_le_mono_r; lia.
Qed.

Lemma align4_bound x : 0 <= x < 2 ^ 31 -> x <= align4 x <= x + 3 /\ (4 | align4 x).
Proof.
  intros Hx. rewrite align4_spec by done. split; [|by eexists].
  pose proof (Z.div_mod (x + 3) 4 ltac:(lia)). pose proof (Z.mod_pos_bound (x + 3) 4 ltac:(lia)). lia.
Qed.

(** A multiple of four that is at least [x] is at least [x] rounded up. *)
Lemma align4_le x y : 0 <= x < 2 ^ 31 -> (4 | y) -> x <= y -> align4 x <= y.
Proof.
  intros Hx [k ->] Hy. rewrite align4_spec by done. apply Z.mul_le_mono_nonneg_r; [lia|].
  apply Z.lt_succ_r. apply Z.div_lt_upper_bound; lia.
Qed.

(** * Scanning a block *)

Lemma mbytes_cons m o n : 0 <= n -> mbytes m o (1 + n) = u8 (m o) :: mbytes m (o + 1) n.
Proof.
  intros Hn. unfold mbytes. rewrite (seqZ_cons 0 (1 + n)) by lia. rewrite fmap_cons, Z.add_0_r. f_equal.
  apply list_eq. intros k. rewrite !list_lookup_fmap.
  destruct (decide (Z.of_nat k < n)).
  - rewrite !(lookup_seqZ_lt _ _ k) by lia. cbn. do 3 f_equal. lia.
  - by rewrite !(lookup_seqZ_ge _ _ k) by lia.
Qed.

Lemma len_mbytes m o n : 0 <= n -> len (mbytes m o n) = n.
Proof. intros. unfold mbytes, len. rewrite length_fmap, length_seqZ. lia. Qed.

Section Dir.
Context (fs : ext2_fs) (NS : Z) (junk : mem) (Vol : volume fs NS).
#[local] Abbreviation bs := (block_size fs).
#[local] Abbreviation eval := (eval NS junk).
#[local] Abbreviation chain := (chain (block_size fs)).

Lemma eval_memeq F b o name img : 0 <= o -> o + len name <= PAGE ->
  eval F (memeq b o name) img (bool_decide (mbytes b o (len name) = name)) img.
Proof.
  revert o. induction name as [|c l IH]; intros o Ho Hl; cbn [memeq]; [apply eval_ret|].
  rewrite len_cons in *. pose proof (len_nonneg l). rewrite mbytes_cons by done.
  eapply eval_bind; [apply eval_rd8; lia|].
  assert (El : ld8 b o = u8 (b o)) by (unfold ld; lia). rewrite El.
  destruct (Z.eqb_spec (u8 (b o)) c) as [->|N].
  - rewrite (bool_decide_ext _ (mbytes b (o + 1) (len l) = l)); [apply IH; lia|]. split; [by intros [=]|by intros ->].
  - rewrite bool_decide_eq_false_2; [apply eval_ret|]. by intros [=].
Qed.

(** One record of the page, as the loops read it. *)
Lemma recs_head m o e l : 0 <= o -> chain m o (e :: l) ->
  o + 8 <= bs /\ 8 <= de_rlen e < 2 ^ 16 /\ o + de_rlen e <= bs /\ 0 <= len (de_name e) < 256 /\ 0 <= de_ino e < 2 ^ 32.
Proof.
  intros Ho [R C]. pose proof (chain_end bs _ _ _ C). pose proof (len_nonneg l). pose proof (len_nonneg (de_name e)).
  pose proof (ra_room _ _ _ R). pose proof (ld_range 2 m (o + 4)) as H4. rewrite (ra_rlen _ _ _ R) in H4.
  pose proof (ld8_range m (o + 6)) as H6. rewrite (ra_nlen _ _ _ R) in H6. change (256 ^ Z.of_nat 2) with (2 ^ 16) in H4.
  pose proof (ld32_range m o) as H0'. rewrite (ra_ino _ _ _ R) in H0'. lia.
Qed.

Lemma eval_walk_block F fuel m w o l seen img : 0 <= o -> chain m o l -> bs - o <= Z.of_nat fuel ->
  eval F (walk_block fuel fs m (Some w) 0 0 false o seen) img
    (match find_name w l with Some e => inl (Hit (de_ino e) (de_ftype e) []) | None => inr seen end) img.
Proof.
  pose proof (bs_bound fs NS Vol) as B. revert o l. induction fuel as [|fuel IH]; intros o l Ho C Hf.
  - assert (l = []) as ->. { destruct l as [|e l]; [done|]. destruct (recs_head _ _ _ _ Ho C). lia. }
    cbn in C |- *. zif; [apply eval_ret|lia].
  - destruct l as [|e l].
    { cbn in C |- *. zif; [apply eval_ret|lia]. }
    destruct (recs_head _ _ _ _ Ho C) as (H1 & H2 & H3 & H4 & H5). destruct C as [R C]. cbn [walk_block find_name].
    replace (bs <? o + 8) with false by lia.
    eapply eval_bind; [apply eval_rd32; lia|]. rewrite (ra_ino _ _ _ R). eapply eval_bind; [apply eval_rd16; lia|]. rewrite (ra_rlen _ _ _ R).
    eapply eval_bind; [apply eval_rd8; lia|]. rewrite (ra_nlen _ _ _ R). eapply eval_bind; [apply eval_rd8; lia|]. rewrite (ra_ftype _ _ _ R).
    pose proof (ra_room _ _ _ R). replace (_ || _ || _) with false by lia.
    fold (live e). destruct (live e); cbn [andb]; [|apply IH; [lia|done|lia]].
    eapply (eval_bind _ _ _ _ (bool_decide (de_name e = w)) img).
    { destruct (Z.eqb_spec (len (de_name e)) (len w)) as [E|N].
      - pose proof (ra_name _ _ _ R) as En. rewrite E in En.
        rewrite (bool_decide_ext (de_name e = w) (mbytes m (o + 8) (len w) = w)) by (by rewrite En). apply eval_memeq; lia.
      - rewrite bool_decide_eq_false_2; [apply eval_ret|]. intros E'. by rewrite E' in N. }
    destruct (bool_decide _); [apply eval_ret|apply IH; [lia|done|lia]].
Qed.

(** * Adding an entry to a block *)

Definition put_dirent (m : mem) (o ino rlen ftype : Z) (name : list Z) : mem :=
  mblit (st8 (st8 (st16 (st32 m o ino) (o + 4) rlen) (o + 6) (len name)) (o + 7) ftype) (o + 8) (bytes_at name) 0 (len name).

(** A name and an entry that can be on the disk. *)
Record entry_ok (ino ftype : Z) (name : list Z) : Prop := {
  eo_ino : 0 < ino < 2 ^ 32;
  eo_ftype : 0 <= ftype < 256;
  eo_len : 0 < len name < 256;
  eo_bytes : Forall (fun c => 0 <= c < 256) name
}.

Lemma eval_wr_dirent F m o ino rlen ftype name img : 0 <= o -> o + 8 + len name <= PAGE ->
  eval F (wr_dirent m o ino rlen ftype name) img (put_dirent m o ino rlen ftype name) img.
Proof.
  intros Ho Hl. pose proof (len_nonneg name). unfold wr_dirent.
  eapply eval_bind; [apply eval_wr32; lia|]. eapply eval_bind; [apply eval_wr16; lia|].
  eapply eval_bind; [apply eval_wr8; lia|]. eapply eval_bind; [apply eval_wr8; lia|]. apply eval_copy_in; lia.
Qed.

Lemma put_dirent_out m o ino rlen ftype name x : x < o \/ o + 8 + len name <= x -> put_dirent m o ino rlen ftype name x = m x.
Proof. intros H. pose proof (len_nonneg name). unfold put_dirent. rewrite mblit_out by lia. rewrite !st_frame by lia. done. Qed.

Lemma put_dirent_rec m o ino rlen ftype name : entry_ok ino ftype name -> 8 + len name <= rlen < 2 ^ 16 -> (4 | rlen) ->
  rec_at (put_dirent m o ino rlen ftype name) o (Dent ino rlen ftype name).
Proof.
  intros [E1 E2 E3 E4] Hr Ha. unfold put_dirent. split; cbn [de_ino de_rlen de_ftype de_name]; [| | | | |lia|done].
  - rewrite ld_mblit_out by lia. rewrite !(ld_st_disj _ 4) by lia. rewrite ld32_st32. apply u32_small. lia.
  - rewrite ld_mblit_out by lia. rewrite !(ld_st_disj _ 2) by lia. rewrite (ld_st_in 2); [done|].
    change (256 ^ Z.of_nat 2) with (2 ^ 16). lia.
  - rewrite ld_mblit_out by lia. rewrite !(ld_st_disj _ 1) by lia. rewrite ld8_st8. apply u8_small. lia.
  - rewrite ld_mblit_out by lia. rewrite ld8_st8. apply u8_small. lia.
  - apply list_eq. intros k. unfold mbytes. rewrite list_lookup_fmap.
    destruct (decide (Z.of_nat k < len name)) as [Hk|Hk].
    + rewrite (lookup_seqZ_lt _ _ k) by lia. cbn. rewrite mblit_in by lia.
      destruct (lookup_lt_is_Some_2 name k) as [c Hc]; [unfold len in Hk; lia|]. rewrite Hc. f_equal.
      pose proof (Forall_lookup_1 _ _ _ _ E4 Hc) as Hb. cbn beta in Hb.
      unfold bytes_at. replace (Z.to_nat (0 + (o + 8 + (0 + Z.of_nat k) - (o + 8)))) with k by lia. rewrite Hc. cbn. apply u8_small. lia.
    + rewrite (lookup_seqZ_ge _ _ k) by lia. symmetry. apply lookup_ge_None. unfold len in Hk. lia.
Qed.

(** The slot of a record that is not needed for its own name. *)
Definition ideal (e : dent) : Z := if de_ino e =? 0 then 0 else align4 (8 + len (de_name e)).

(** The new record put in the first slack that holds it. *)
Fixpoint insert_dent (ino ftype : Z) (name : list Z) (l : list dent) : option (list dent) :=
  match l with
  | [] => None
  | e :: l =>
      if align4 (8 + len name) <=? de_rlen e - ideal e then
        Some (if de_ino e =? 0 then Dent ino (de_rlen e) ftype name :: l
              else Dent (de_ino e) (ideal e) (de_ftype e) (de_name e) :: Dent ino (de_rlen e - ideal e) ftype name :: l)
      else cons e <$> insert_dent ino ftype name l
  end.

Lemma ideal_bound m o e : rec_at m o e -> len (de_name e) < 256 -> 0 <= ideal e <= de_rlen e /\ (4 | ideal e) /\
  (de_ino e <> 0 -> 8 + len (de_name e) <= ideal e).
Proof.
  intros R Hn. pose proof (len_nonneg (de_name e)). unfold ideal.
  destruct (Z.eqb_spec (de_ino e) 0) as [E|E]; [split_and!; [lia|pose proof (ra_room _ _ _ R); lia|by exists 0|lia]|].
  pose proof (align4_bound (8 + len (de_name e)) ltac:(lia)) as [B D]. split_and!; [lia| |done|lia].
  apply align4_le; [lia|apply R|apply R].
Qed.

(** A record whose length alone changed. *)
Lemma rec_at_rlen m o e n : rec_at m o e -> 8 + len (de_name e) <= n < 2 ^ 16 -> (4 | n) ->
  rec_at (st16 m (o + 4) n) o (Dent (de_ino e) n (de_ftype e) (de_name e)).
Proof.
  intros [R1 R2 R3 R4 R5 R6 R7] Hn Ha. pose proof (len_nonneg (de_name e)).
  split; cbn [de_ino de_rlen de_ftype de_name]; [| | | | |lia|done].
  - rewrite (ld_st_disj 2 4) by lia. done.
  - rewrite (ld_st_in 2); [done|]. change (256 ^ Z.of_nat 2) with (2 ^ 16). lia.
  - rewrite (ld_st_disj 2 1) by lia. done.
  - rewrite (ld_st_disj 2 1) by lia. done.
  - transitivity (mbytes m (o + 8) (len (de_name e))); [|done]. unfold mbytes.
    apply list_fmap_ext. intros k x Hx. apply lookup_seqZ in Hx as [-> Hk]. f_equal. apply st_frame. lia.
Qed.

(** The page after the entry was put in the record [e] at [o]. *)
Definition add_at (m : mem) (o : Z) (e : dent) (ino ftype : Z) (name : list Z) : mem :=
  if de_ino e =? 0 then put_dirent m o ino (de_rlen e) ftype name
  else put_dirent (st16 m (o + 4) (ideal e)) (o + ideal e) ino (de_rlen e - ideal e) ftype name.

Lemma add_at_chain m o e l ino ftype name : 0 <= o -> entry_ok ino ftype name -> chain m o (e :: l) ->
  align4 (8 + len name) <= de_rlen e - ideal e ->
  chain (add_at m o e ino ftype name) o
    (if de_ino e =? 0 then Dent ino (de_rlen e) ftype name :: l
     else Dent (de_ino e) (ideal e) (de_ftype e) (de_name e) :: Dent ino (de_rlen e - ideal e) ftype name :: l) /\
  (forall x, x < o \/ o + de_rlen e <= x -> add_at m o e ino ftype name x = m x).
Proof.
  intros Ho Ok C Fit. destruct (recs_head _ _ _ _ Ho C) as (H1 & H2 & H3 & H4 & H5). destruct C as [R C].
  destruct (ideal_bound m o e R) as (I1 & I2 & I3); [lia|]. destruct (eo_len _ _ _ Ok) as [L1 L2].
  pose proof (align4_bound (8 + len name) ltac:(lia)) as [A1 A2]. pose proof (ra_align _ _ _ R) as Al.
  unfold add_at, ideal in *. destruct (Z.eqb_spec (de_ino e) 0) as [E|E].
  - split; [|intros x Hx; apply put_dirent_out; lia]. split; [apply put_dirent_rec; [done|lia|done]|].
    cbn [de_rlen]. eapply recs_ext; [|exact C]. intros x Hx. apply put_dirent_out. lia.
  - set (i := align4 (8 + len (de_name e))) in *. specialize (I3 E).
    split; [|intros x Hx; rewrite put_dirent_out by lia; apply st_frame; lia]. cbn [Ext2Dir.chain de_rlen]. split_and!.
    + eapply rec_at_ext; [|apply rec_at_rlen; [exact R|lia|done]]. cbn [de_rlen]. intros x Hx. apply put_dirent_out. lia.
    + apply put_dirent_rec; [done|lia|]. by apply Z.divide_sub_r.
    + replace (o + i + (de_rlen e - i)) with (o + de_rlen e) by lia. eapply recs_ext; [|exact C].
      intros x Hx. rewrite put_dirent_out by lia. apply st_frame. lia.
Qed.

Lemma eval_add_in_block F fuel m ino ftype name o l img : 0 <= o -> chain m o l -> bs - o <= Z.of_nat fuel ->
  entry_ok ino ftype name ->
  match insert_dent ino ftype name l with
  | None => eval F (add_in_block fuel fs m ino ftype name o) img None img
  | Some l' => exists m', eval F (add_in_block fuel fs m ino ftype name o) img (Some m') img /\ chain m' o l' /\
                          forall x, x < o \/ bs <= x -> m' x = m x
  end.
Proof.
  pose proof (bs_bound fs NS Vol) as B. intros Ho C Hf Ok. revert o l Ho C Hf. induction fuel as [|fuel IH]; intros o l Ho C Hf.
  - assert (l = []) as ->. { destruct l as [|e l]; [done|]. destruct (recs_head _ _ _ _ Ho C). lia. }
    cbn in C |- *. zif; [apply eval_ret|lia].
  - destruct l as [|e l].
    { cbn in C |- *. zif; [apply eval_ret|lia]. }
    pose proof (recs_head _ _ _ _ Ho C) as (H1 & H2 & H3 & H4 & H5). pose proof C as [R C'].
    destruct (ideal_bound m o e R) as (I1 & I2 & I3); [lia|]. destruct (eo_len _ _ _ Ok) as [L1 L2].
    pose proof (align4_bound (8 + len name) ltac:(lia)) as [A1 A2].
    set (act := fun r => eval F (add_in_block (S fuel) fs m ino ftype name o) img r img).
    assert (Step : forall r,
      eval F (if align4 (8 + len name) <=? u32 (de_rlen e - ideal e) then
                blk ← (if de_ino e =? 0 then wr_dirent m o ino (de_rlen e) ftype name
                       else blk ← wr16 m (o + 4) (u16 (ideal e));
                            wr_dirent blk (o + ideal e) ino (u16 (de_rlen e - ideal e)) ftype name);
                mret (Some blk)
              else add_in_block fuel fs m ino ftype name (o + de_rlen e)) img r img -> act r).
    { intros r Hr. unfold act. cbn [add_in_block]. replace (bs <? o + 8) with false by lia.
      eapply eval_bind; [apply eval_rd32; lia|]. rewrite (ra_ino _ _ _ R).
      eapply eval_bind; [apply eval_rd16; lia|]. rewrite (ra_rlen _ _ _ R).
      eapply eval_bind; [apply eval_rd8; lia|]. rewrite (ra_nlen _ _ _ R).
      pose proof (ra_room _ _ _ R). replace (_ || _) with false by lia. exact Hr. }
    rewrite u32_small in Step by lia. cbn [insert_dent].
    destruct (Z.leb_spec (align4 (8 + len name)) (de_rlen e - ideal e)) as [Fit|NoFit].
    + destruct (add_at_chain m o e l ino ftype name Ho Ok C Fit) as [Ch Out].
      exists (add_at m o e ino ftype name). split_and!; [|done|intros x Hx; apply Out; lia].
      apply Step. unfold add_at. destruct (Z.eqb_spec (de_ino e) 0) as [E|E].
      * eapply eval_bind; [apply eval_wr_dirent; [lia|]|apply eval_ret]. unfold ideal in *. rewrite E in *. cbn [Z.eqb] in *. lia.
      * specialize (I3 E). rewrite !u16_small by lia.
        eapply eval_bind; [|apply eval_ret]. eapply eval_bind; [apply eval_wr16; lia|]. apply eval_wr_dirent; lia.
    + specialize (IH (o + de_rlen e) l ltac:(lia) C' ltac:(lia)). destruct (insert_dent ino ftype name l) as [l'|]; cbn.
      * destruct IH as (m' & E & Ch & Out). exists m'. split_and!; [by apply Step| | |].
        -- eapply rec_at_ext; [|exact R]. intros x Hx. apply Out. lia.
        -- done.
        -- intros x Hx. apply Out. lia.
      * by apply Step.
Qed.

(** What a lookup returns. *)
Definition found (w : list Z) (l : list dent) : option (Z * Z) :=
  match find_name w l with Some e => Some (de_ino e, de_ftype e) | None => None end.

Lemma found_cons w e l :
  found w (e :: l) = if live e && bool_decide (de_name e = w) then Some (de_ino e, de_ftype e) else found w l.
Proof. unfold found. cbn [find_name]. by destruct (_ && _). Qed.

Lemma found_insert ino ftype name l l' w : entry_ok ino ftype name -> insert_dent ino ftype name l = Some l' -> found name l = None ->
  found w l' = if decide (w = name) then Some (ino, ftype) else found w l.
Proof.
  intros Ok. destruct Ok as [E1 E2 E3 E4]. revert l'. induction l as [|e l IH]; intros l'; cbn [insert_dent]; [done|].
  rewrite found_cons. intros Hi Hn.
  assert (Nx : live e && bool_decide (de_name e = name) = false) by (by destruct (_ && _)). rewrite Nx in Hn.
  assert (Lv : forall n, live (Dent ino n ftype name) = true).
  { intros n. unfold live. cbn. replace (ino =? 0) with false by lia. by replace (len name =? 0) with false by lia. }
  case_match.
  - injection Hi as <-. destruct (Z.eqb_spec (de_ino e) 0) as [E|E].
    + rewrite !found_cons, Lv. cbn [de_name de_ino de_ftype andb].
      assert (live e = false) as -> by (unfold live; rewrite E; done). cbn [andb].
      destruct (decide (w = name)) as [->|N]; [by rewrite bool_decide_eq_true_2|]. by rewrite bool_decide_eq_false_2.
    + rewrite !found_cons, Lv. change (live (Dent (de_ino e) (ideal e) (de_ftype e) (de_name e))) with (live e).
      cbn [de_name de_ino de_ftype andb]. destruct (decide (w = name)) as [->|N].
      * rewrite Nx. by rewrite bool_decide_eq_true_2.
      * by rewrite (bool_decide_eq_false_2 (name = w)) by done.
  - destruct (insert_dent ino ftype name l) as [l''|]; [|done]. injection Hi as <-. rewrite !found_cons.
    rewrite (IH l'' eq_refl Hn). destruct (decide (w = name)) as [->|N]; [by rewrite Nx|done].
Qed.

(** * Directories *)

(** The page of block [d]. *)
Definition pgv (img : mem) (d : Z) : mem := fun x => img (d * bs + x).

(** The directory [vi] holds the records [ls], block by block. *)
Record dir_ok (img : mem) (vi : ext2_vinfo) (ls : list (list dent)) : Prop := {
  dk_own : own_file fs img vi;
  dk_size : vi_size vi = len ls * bs;
  dk_max : len ls * bs + bs < 2 ^ 32;
  dk_blk i l : ls !! i = Some l -> fmap fs img vi (Z.of_nat i) <> 0 /\ chain (pgv img (fmap fs img vi (Z.of_nat i))) 0 l;
  dk_end j : len ls <= j -> fmap fs img vi j = 0
}.

Definition hit_of (r : option (Z * Z)) : option hit := match r with Some (i, t) => Some (Hit i t []) | None => None end.

Lemma dir_blocks_len img vi ls : dir_ok img vi ls -> dir_blocks fs vi = len ls.
Proof.
  intros D. pose proof (bs_bound fs NS Vol). pose proof (dk_max _ _ _ D). pose proof (len_nonneg ls).
  unfold dir_blocks. rewrite (dk_size _ _ _ D). rewrite u32_small by nia.
  replace (len ls * bs + bs - 1) with (bs - 1 + len ls * bs) by lia. rewrite Z.div_add by lia. rewrite (Z.div_small (bs - 1)) by lia. lia.
Qed.

(** The block read into a page. *)
Lemma chain_page img d pg l : chain (pgv img d) 0 l -> chain (mblit pg 0 img (d * bs) bs) 0 l.
Proof. apply recs_ext. intros x Hx. rewrite mblit_in by lia. unfold pgv. f_equal. lia. Qed.

Lemma dir_block_vol img vi ls i l : dir_ok img vi ls -> ls !! i = Some l ->
  fmap fs img vi (Z.of_nat i) <> 0 /\ chain (pgv img (fmap fs img vi (Z.of_nat i))) 0 l /\ fmap fs img vi (Z.of_nat i) < blocks_count fs.
Proof.
  intros D Hl. destruct (dk_blk _ _ _ D i l Hl) as [Hn C]. split_and!; [done|done|].
  destruct (of_data _ _ _ (dk_own _ _ _ D) _ (fmap_in fs NS Vol img vi _ (Nat2Z.is_nonneg i) Hn)) as ((_ & ?) & _). done.
Qed.

Lemma found_app w l l' : found w (l ++ l') = match found w l with Some r => Some r | None => found w l' end.
Proof.
  induction l as [|e l IH]; cbn [app]; [by destruct (found w l')|]. rewrite !found_cons. by destruct (_ && _).
Qed.

Lemma eval_walk_blocks vi ls w img : dir_ok img vi ls -> forall k n pg seen, (k + n)%nat = length ls ->
  eval 3 (walk_blocks n fs vi pg (Some w) 0 0 false (Z.of_nat k) seen) img (hit_of (found w (List.concat (drop k ls)))) img.
Proof.
  intros D k n. revert k. induction n as [|n IH]; intros k pg seen Hk; cbn [walk_blocks].
  - rewrite drop_ge by lia. apply eval_ret.
  - destruct (lookup_lt_is_Some_2 ls k) as [l Hl]; [lia|]. rewrite (drop_S _ l k Hl). cbn [List.concat]. rewrite found_app.
    destruct (dir_block_vol img vi ls k l D Hl) as (Hn & C & Hv).
    eapply eval_bind; [apply (eval_map_block fs NS junk Vol); [apply D|lia]|].
    replace (fmap fs img vi (Z.of_nat k) =? 0) with false by lia.
    eapply eval_bind; [by apply (eval_bread fs NS junk Vol)|]. cbn [Z.eqb negb].
    pose proof (bs_bound fs NS Vol).
    eapply eval_bind; [eapply eval_walk_block; [lia|by apply chain_page|lia]|].
    unfold found at 1. destruct (find_name w l) as [e|]; cbn [hit_of]; [apply eval_ret|].
    replace (Z.of_nat k + 1) with (Z.of_nat (S k)) by lia. apply IH. lia.
Qed.

(** ** Adding *)

(** The first block with room. *)
Fixpoint insert_blocks (ino ftype : Z) (name : list Z) (ls : list (list dent)) : option (list (list dent)) :=
  match ls with
  | [] => None
  | l :: ls => match insert_dent ino ftype name l with
               | Some l' => Some (l' :: ls)
               | None => cons l <$> insert_blocks ino ftype name ls
               end
  end.

Lemma found_none_app w l l' : found w (l ++ l') = None -> found w l = None /\ found w l' = None.
Proof. rewrite found_app. by destruct (found w l). Qed.

Lemma found_insert_blocks ino ftype name ls ls' w : entry_ok ino ftype name -> insert_blocks ino ftype name ls = Some ls' ->
  found name (List.concat ls) = None ->
  found w (List.concat ls') = if decide (w = name) then Some (ino, ftype) else found w (List.concat ls).
Proof.
  intros Ok. revert ls'. induction ls as [|l ls IH]; intros ls'; cbn [insert_blocks List.concat]; [done|].
  intros Hi [Hn1 Hn2]%found_none_app. destruct (insert_dent ino ftype name l) as [l'|] eqn:El.
  - injection Hi as <-. cbn [List.concat]. rewrite !found_app, (found_insert _ _ _ _ _ w Ok El Hn1). by destruct (decide (w = name)).
  - destruct (insert_blocks ino ftype name ls) as [ls''|] eqn:Els; [|done]. injection Hi as <-. cbn [List.concat].
    rewrite !found_app, (IH ls'' eq_refl Hn2). destruct (decide (w = name)) as [->|]; [by rewrite Hn1|done].
Qed.

(** A block of the directory replaced by a page that holds the records [l']. *)
Lemma dir_store img vi ls i l l' m' : layout fs img -> dir_ok img vi ls -> ls !! i = Some l -> chain m' 0 l' ->
  let img' := mblit img (fmap fs img vi (Z.of_nat i) * bs) m' 0 bs in
  layout fs img' /\ dir_ok img' vi (<[i := l']> ls) /\ grown fs img [] img' /\ frame fs img img' (eq (fmap fs img vi (Z.of_nat i))).
Proof.
  intros L D Hl C'. destruct (dk_blk _ _ _ D i l Hl) as [Hn C].
  destruct (store_data fs NS Vol img vi (Z.of_nat i) m' L (dk_own _ _ _ D) ltac:(lia) Hn) as (G & Fr & Ow & Bl & _).
  set (d := fmap fs img vi (Z.of_nat i)) in *. cbv zeta. set (img' := mblit img (d * bs) m' 0 bs) in *.
  destruct (fmap_ext fs NS Vol img img' vi) as [_ Mp].
  { intros b Hb. eapply frame_data; [exact Fr|by apply (of_data _ _ _ (dk_own _ _ _ D)), finner_sub|].
    intros <-. by apply (fmap_not_inner fs NS Vol img vi (Z.of_nat i) (dk_own _ _ _ D) ltac:(lia) Hn). }
  pose proof (bs_bound fs NS Vol).
  split_and!; [apply G| |done|done]. split.
  - done.
  - unfold len. rewrite length_insert. apply D.
  - unfold len. rewrite length_insert. apply D.
  - intros j k Hk. rewrite Mp by lia. destruct (decide (j = i)) as [->|N].
    + rewrite list_lookup_insert_eq in Hk by (by eapply lookup_lt_Some). injection Hk as <-. fold d. split; [done|].
      eapply recs_ext; [|exact C']. intros x Hx. unfold pgv, img'. rewrite mblit_in by lia. f_equal. lia.
    + rewrite list_lookup_insert_ne in Hk by done. destruct (dk_blk _ _ _ D j k Hk) as [Hn' Ck]. split; [done|].
      eapply recs_ext; [|exact Ck]. intros x Hx. unfold pgv, img'. apply mblit_out.
      assert (Nd : fmap fs img vi (Z.of_nat j) <> d).
      { intros E. apply N. apply Nat2Z.inj. eapply (fmap_inj fs NS Vol); [apply D|lia|lia|exact Hn'|exact E]. }
      nia.
  - intros j Hj. unfold len in Hj. rewrite length_insert in Hj. fold (len ls) in Hj. pose proof (len_nonneg ls).
    rewrite Mp by lia. by apply D.
Qed.

Lemma eval_add_in_blocks vi ls ino ftype name img : layout fs img -> dir_ok img vi ls -> entry_ok ino ftype name ->
  forall k n pg, (k + n)%nat = length ls ->
  match insert_blocks ino ftype name (drop k ls) with
  | None => eval 3 (add_in_blocks n fs vi pg ino ftype name (Z.of_nat k)) img None img
  | Some tl => exists img', eval 3 (add_in_blocks n fs vi pg ino ftype name (Z.of_nat k)) img (Some 0) img' /\
      layout fs img' /\ dir_ok img' vi (take k ls ++ tl) /\ grown fs img [] img' /\
      frame fs img img' (fun b => b ∈ fblocks fs img vi)
  end.
Proof.
  intros L D Ok k n. revert k. induction n as [|n IH]; intros k pg Hk; cbn [add_in_blocks].
  - rewrite drop_ge by lia. apply eval_ret.
  - destruct (lookup_lt_is_Some_2 ls k) as [l Hl]; [lia|]. rewrite (drop_S _ l k Hl). cbn [insert_blocks].
    destruct (dir_block_vol img vi ls k l D Hl) as (Hn & C & Hv). pose proof (bs_bound fs NS Vol).
    set (d := fmap fs img vi (Z.of_nat k)) in *. set (m := mblit pg 0 img (d * bs) bs).
    assert (Step : forall (a : option Z) img', eval 3
      (r ← add_in_block (Z.to_nat bs) fs m ino ftype name 0;
       match r with Some blk => rc ← bwrite fs d blk; mret (Some rc)
       | None => add_in_blocks n fs vi m ino ftype name (Z.of_nat k + 1) end) img a img' ->
      eval 3 (disk ← map_block fs vi (Z.of_nat k);
              if disk =? 0 then add_in_blocks n fs vi pg ino ftype name (Z.of_nat k + 1) else
              '(rc, blk) ← bread fs disk pg;
              if negb (rc =? 0) then add_in_blocks n fs vi blk ino ftype name (Z.of_nat k + 1) else
              r ← add_in_block (Z.to_nat bs) fs blk ino ftype name 0;
              match r with Some blk => rc ← bwrite fs disk blk; mret (Some rc)
              | None => add_in_blocks n fs vi blk ino ftype name (Z.of_nat k + 1) end) img a img').
    { intros a img' Ha. eapply eval_bind; [apply (eval_map_block fs NS junk Vol); [apply D|lia]|]. fold d.
      replace (d =? 0) with false by lia. eapply eval_bind; [by apply (eval_bread fs NS junk Vol)|]. exact Ha. }
    pose proof (eval_add_in_block 3 (Z.to_nat bs) m ino ftype name 0 l img ltac:(lia) (chain_page _ _ _ _ C) ltac:(lia) Ok) as Eb.
    destruct (insert_dent ino ftype name l) as [l'|].
    + destruct Eb as (m' & Em & Ch & _). destruct (dir_store img vi ls k l l' m' L D Hl Ch) as (L' & D' & G & Fr). fold d in L', D', G, Fr.
      exists (mblit img (d * bs) m' 0 bs). split_and!; [|done| |done|].
      * apply Step. eapply eval_bind; [exact Em|]. eapply eval_bind; [by apply (eval_bwrite fs NS junk Vol)|]. apply eval_ret.
      * rewrite <- (insert_take_drop ls k l'); [done|]. by eapply lookup_lt_Some.
      * eapply frame_mono; [|exact Fr]. cbn beta. intros b <-. by apply (fmap_in fs NS Vol); [lia|].
    + specialize (IH (S k) m ltac:(lia)). replace (Z.of_nat (S k)) with (Z.of_nat k + 1) in IH by lia.
      destruct (insert_blocks ino ftype name (drop (S k) ls)) as [tl|]; cbn.
      * destruct IH as (img' & E & L' & D' & G & Fr). exists img'. split_and!; [|done| |done|done].
        -- apply Step. eapply eval_bind; [exact Eb|]. exact E.
        -- rewrite (take_S_r _ _ l Hl), <- app_assoc in D'. done.
      * apply Step. eapply eval_bind; [exact Eb|]. exact IH.
Qed.

(** A directory none of whose blocks changed. *)
Lemma dir_untouched img img' vi ls : dir_ok img vi ls ->
  (forall b, b ∈ fblocks fs img vi -> untouched fs img img' b /\ data_blk fs img' b) -> dir_ok img' vi ls.
Proof.
  intros D H. destruct (file_untouched fs NS Vol img img' vi (dk_own _ _ _ D) H) as [Own' _].
  destruct (fmap_ext fs NS Vol img img' vi) as [_ Mp]. { intros b Hb. by apply H, finner_sub. }
  split; [done|apply D|apply D| |].
  - intros i l Hl. rewrite Mp by lia. destruct (dk_blk _ _ _ D i l Hl) as [Hn C]. split; [done|].
    eapply recs_ext; [|exact C]. intros x Hx. unfold pgv.
    destruct (H _ (fmap_in fs NS Vol img vi _ (Nat2Z.is_nonneg i) Hn)) as [Hu _]. apply Hu. unfold in_blk. lia.
  - intros j Hj. pose proof (len_nonneg ls). rewrite Mp by lia. by apply D.
Qed.

(** The blocks of the directory after an allocation for it. *)
Lemma filled_dir img vi ls fblk d vi' new img' : layout fs img -> dir_ok img vi ls -> filled fs img vi fblk d vi' new img' ->
  fmap fs img vi fblk = 0 ->
  forall i l, ls !! i = Some l -> fmap fs img' vi' (Z.of_nat i) <> 0 /\ chain (pgv img' (fmap fs img' vi' (Z.of_nat i))) 0 l.
Proof.
  intros L D F H0 i l Hl. destruct (dk_blk _ _ _ D i l Hl) as [Hn C]. rewrite (fi_map _ _ _ _ _ _ _ _ F) by lia.
  rewrite decide_False by (intros [_ E]; rewrite E in Hn; congruence). split; [done|].
  eapply recs_ext; [|exact C]. intros x Hx. unfold pgv.
  eapply (frame_data fs img img'); [apply F|apply (of_data _ _ _ (dk_own _ _ _ D)), (fmap_in fs NS Vol); [apply Nat2Z.is_nonneg|done]| |unfold in_blk; lia].
  intros [Hin|Hin].
  - eapply (fmap_not_inner fs NS Vol); [apply D| |exact Hn|exact Hin]. lia.
  - eapply (new_not_owned fs); [apply D|apply F|exact Hin|]. apply (fmap_in fs NS Vol); [apply Nat2Z.is_nonneg|done].
Qed.

(** The new last block. *)
Lemma new_block_chain pg ino ftype name : entry_ok ino ftype name ->
  chain (put_dirent (mfill pg 0 bs 0) 0 ino bs ftype name) 0 [Dent ino bs ftype name].
Proof.
  intros Ok. pose proof (bs_bound fs NS Vol) as B. unfold PAGE in B. destruct (eo_len _ _ _ Ok).
  cbn [Ext2Dir.chain de_rlen]. split; [|lia]. apply put_dirent_rec; [done|lia|].
  destruct (g_bs fs (v_geom _ _ Vol)) as [->|[->| ->]]; [by exists 256|by exists 512|by exists 1024].
Qed.

Lemma dir_grown img vi ls d vi1 new img1 m' l' : layout fs img -> dir_ok img vi ls -> len ls * bs + 2 * bs < 2 ^ 32 ->
  filled fs img vi (len ls) d vi1 new img1 -> d <> 0 -> chain m' 0 l' ->
  dir_ok (mblit img1 (d * bs) m' 0 bs) (with_vi_size (vi_size vi1 + bs) vi1) (ls ++ [l']).
Proof.
  intros L D Hmax F Hd C'. pose proof (bs_bound fs NS Vol). pose proof (len_nonneg ls) as Hl0.
  assert (H0 : fmap fs img vi (len ls) = 0) by (by apply D).
  assert (Ed : fmap fs img1 vi1 (len ls) = d) by (rewrite (fi_map _ _ _ _ _ _ _ _ F) by done; by rewrite decide_True).
  pose proof (filled_own fs _ _ _ _ _ _ _ L (dk_own _ _ _ D) F) as O1.
  pose proof (gr_lay _ _ _ _ (fi_grown _ _ _ _ _ _ _ _ F)) as L1.
  destruct (store_data fs NS Vol img1 vi1 (len ls) m' L1 O1 Hl0) as (G & Fr & Ow & Bl & _); [congruence|]. rewrite Ed in G, Fr, Ow, Bl.
  set (img2 := mblit img1 (d * bs) m' 0 bs) in *.
  destruct (fmap_ext fs NS Vol img1 img2 vi1) as [_ Mp].
  { intros b Hb. eapply frame_data; [exact Fr|by apply (of_data _ _ _ O1), finner_sub|].
    intros <-. rewrite <- Ed in Hb. eapply (fmap_not_inner fs NS Vol img1 vi1); [done|exact Hl0|congruence|exact Hb]. }
  change (fmap fs img2 (with_vi_size (vi_size vi1 + bs) vi1)) with (fmap fs img2 vi1).
  destruct (fi_remap _ _ _ _ _ _ _ _ F) as [_ Er]. split.
  - by destruct Ow.
  - cbn. rewrite Er. cbn [vi_size]. rewrite (dk_size _ _ _ D), len_app. change (len [l']) with 1. lia.
  - rewrite len_app. change (len [l']) with 1. lia.
  - change (fmap fs img2 (with_vi_size (vi_size vi1 + bs) vi1)) with (fmap fs img2 vi1).
    intros i l Hl. rewrite Mp by lia. apply lookup_app_Some in Hl as [Hl|[Hge Hl]].
    + destruct (filled_dir _ _ _ _ _ _ _ _ L D F H0 i l Hl) as [Hn C]. split; [done|]. eapply recs_ext; [|exact C].
      intros x Hx. unfold pgv, img2. apply mblit_out.
      assert (Nd : fmap fs img1 vi1 (Z.of_nat i) <> d).
      { intros E. apply lookup_lt_Some in Hl. rewrite <- Ed in E.
        pose proof (fmap_inj fs NS Vol img1 vi1 _ _ O1 (Nat2Z.is_nonneg i) Hl0 Hn E). unfold len in *. lia. }
      nia.
    + destruct (i - length ls)%nat as [|k] eqn:Ei; [|done]. injection Hl as <-.
      assert (Eq : Z.of_nat i = len ls) by (unfold len; lia). rewrite Eq, Ed. split; [done|].
      eapply recs_ext; [|exact C']. intros x Hx. unfold pgv, img2. rewrite mblit_in by lia. f_equal. lia.
  - change (fmap fs img2 (with_vi_size (vi_size vi1 + bs) vi1)) with (fmap fs img2 vi1).
    intros j Hj. rewrite len_app in Hj. change (len [l']) with 1 in Hj. rewrite Mp by lia.
    rewrite (fi_map _ _ _ _ _ _ _ _ F) by lia. rewrite decide_False by lia. apply D. lia.
Qed.

Lemma eval_grow_dir vi ls pg ino ftype name img : layout fs img -> dir_ok img vi ls -> entry_ok ino ftype name ->
  len ls * bs + 2 * bs < 2 ^ 32 ->
  exists rc vi1 new img', eval 3 (grow_dir fs vi pg ino ftype name) img (rc, vi1) img' /\
    grown fs img new img' /\ frame fs img img' (fun b => b ∈ fblocks fs img vi \/ b ∈ new) /\ remap vi vi1 /\
    (0 <= vi_blocks512 vi < 2 ^ 32 -> 0 <= vi_blocks512 vi1 < 2 ^ 32) /\
    ((rc = 0 /\ dir_ok img' (with_vi_size (vi_size vi1 + bs) vi1) (ls ++ [[Dent ino bs ftype name]])) \/
     (rc = - ENOSPC /\ full fs img' /\ dir_ok img' vi1 ls)).
Proof.
  intros L D Ok Hmax. pose proof (bs_bound fs NS Vol) as B. pose proof (len_nonneg ls) as Hl0.
  assert (H0 : fmap fs img vi (len ls) = 0) by (by apply D).
  assert (Hreg : region fs (len ls) <> None).
  { rewrite <- (Z.div_mul (len ls) bs) by lia. apply (region_some fs NS Vol). nia. }
  destruct (eval_alloc_file_block fs NS junk Vol vi (len ls) img L (dk_own _ _ _ D) Hl0 Hreg H0) as (d & vi1 & new & img1 & E & F).
  assert (Fr1 : frame fs img img1 (fun b => b ∈ fblocks fs img vi \/ b ∈ new)).
  { eapply frame_mono; [|apply F]. cbn beta. intros b [?|?]; [left; by apply finner_sub|by right]. }
  unfold grow_dir. rewrite (dir_blocks_len _ _ _ D). destruct (decide (d = 0)) as [->|Hd].
  - exists (- ENOSPC), vi1, new, img1. split_and!; [|apply F|done|apply F|apply F|right].
    { eapply eval_bind; [exact E|]. apply eval_ret. }
    destruct (fi_remap _ _ _ _ _ _ _ _ F) as [_ Er]. split_and!; [done|by apply F|]. split.
    + by eapply (filled_own fs); [|apply D|].
    + rewrite Er. apply D.
    + apply D.
    + by apply (filled_dir img vi ls (len ls) 0 vi1 new img1).
    + intros j Hj. rewrite (fi_map _ _ _ _ _ _ _ _ F) by lia. rewrite decide_False by lia. by apply D.
  - destruct (grown_new_data fs _ _ _ d L (fi_grown _ _ _ _ _ _ _ _ F)) as ((V1 & V2) & _ & Ns); [by apply F|].
    set (m' := put_dirent (mfill pg 0 bs 0) 0 ino bs ftype name). destruct (eo_len _ _ _ Ok). unfold PAGE in B.
    exists 0, vi1, new, (mblit img1 (d * bs) m' 0 bs). split_and!; [| | |apply F|apply F|left; split; [done|]].
    + eapply eval_bind; [exact E|]. cbn beta iota. replace (d =? 0) with false by lia. eapply eval_bind; [apply eval_clear; unfold PAGE; lia|].
      rewrite (u16_small bs) by lia. eapply eval_bind; [apply eval_wr_dirent; unfold PAGE; lia|].
      eapply eval_bind; [by apply (eval_bwrite fs NS junk Vol)|]. apply eval_ret.
    + rewrite <- (app_nil_r new). eapply grown_trans; [apply F|]. apply (blit_grown fs NS Vol); [apply F|done].
    + eapply frame_mono; [|eapply (frame_trans fs img img1); [apply F|exact Fr1|apply (blit_frame fs NS Vol)]].
      cbn beta. intros b [?|<-]; [done|]. right. by apply F.
    + by eapply dir_grown; [..|apply new_block_chain].
Qed.

(** ** The whole operation *)

(** What the search for room and the new block did: the records, the inode and
    whether the inode is to be written. *)
Definition added (img1 : mem) (vi : ext2_vinfo) (ls : list (list dent)) (ino ftype : Z) (name : list Z)
    (r : Z + Z * ext2_vinfo) : Prop :=
  match r with
  | inl rc => rc = 0 /\ exists ls', insert_blocks ino ftype name ls = Some ls' /\ dir_ok img1 vi ls'
  | inr (rc, vi1) => remap vi vi1 /\ (0 <= vi_blocks512 vi < 2 ^ 32 -> 0 <= vi_blocks512 vi1 < 2 ^ 32) /\
      ((rc = 0 /\ dir_ok img1 (with_vi_size (vi_size vi1 + bs) vi1) (ls ++ [[Dent ino bs ftype name]])) \/
       (rc = - ENOSPC /\ full fs img1 /\ dir_ok img1 vi1 ls))
  end.

Lemma eval_add_page vi ls ino ftype name img : layout fs img -> dir_ok img vi ls -> entry_ok ino ftype name ->
  len ls * bs + 2 * bs < 2 ^ 32 ->
  exists r new img1, eval 4 (with_page (inl (- ENOMEM)) (fun blk =>
      r ← add_in_blocks (Z.to_nat (dir_blocks fs vi)) fs vi blk ino ftype name 0;
      match r with
      | Some rc => mret (inl rc)
      | None => '(rc, vi) ← grow_dir fs vi blk ino ftype name; mret (inr (rc, vi))
      end)) img r img1 /\
    grown fs img new img1 /\ frame fs img img1 (fun b => b ∈ fblocks fs img vi \/ b ∈ new) /\ added img1 vi ls ino ftype name r.
Proof.
  intros L D Ok Hmax. rewrite (dir_blocks_len _ _ _ D). pose proof (eval_add_in_blocks vi ls ino ftype name img L D Ok 0 (length ls) junk eq_refl) as A.
  assert (En : Z.to_nat (len ls) = length ls) by (unfold len; lia). rewrite En.
  change (drop 0 ls) with ls in A. destruct (insert_blocks ino ftype name ls) as [ls'|] eqn:Ei.
  - destruct A as (img1 & E & L' & D' & G & Fr). exists (inl 0), [], img1. split_and!; [|done| |].
    + apply (eval_page 3); [lia|]. eapply eval_bind; [exact E|]. apply eval_ret.
    + eapply frame_mono; [|exact Fr]. cbn beta. auto.
    + split; [done|]. by exists ls'.
  - destruct (eval_grow_dir vi ls junk ino ftype name img L D Ok Hmax) as (rc & vi1 & new & img1 & E & G & Fr & Rm & Bl & R).
    exists (inr (rc, vi1)), new, img1. split_and!; [|done|done|by split_and!].
    apply (eval_page 3); [lia|]. eapply eval_bind; [exact A|]. cbn beta iota. eapply eval_bind; [exact E|]. apply eval_ret.
Qed.

Definition dir_at (s : est) (vn : Z) (vi : ext2_vinfo) : Prop :=
  file_at s vn fs vi /\ exists v, e_vns s !! vn = Some v /\ is_type VNODE_DIR v = true.

Lemma dir_at_image s vn vi img : dir_at s vn vi -> dir_at (set_image img s) vn vi.
Proof. intros [[] ]. by repeat split. Qed.

Lemma dir_walk_found s vn vi img ls w : dir_at s vn vi -> quiet NS junk 4 img s -> dir_ok img vi ls ->
  dir_walk vn (Some w) 0 0 false s = Some (hit_of (found w (List.concat ls)), s).
Proof.
  intros [[(v & Hv & Hp & Hvi) Hfs Hself] (v' & Hv' & Ht)] Q D. rewrite Hv in Hv'. injection Hv' as <-.
  unfold dir_walk. rewrite (obj_some e_vns vn v) by done. rewrite Ht. replace (v_priv v =? 0) with false by lia. cbn [orb negb].
  rewrite (obj_some e_vis _ vi) by done. rewrite (obj_some e_fss _ fs) by done. rewrite (dir_blocks_len _ _ _ D).
  assert (En : Z.to_nat (len ls) = length ls) by (unfold len; lia). rewrite En.
  assert (E : eval (3 + 1) (with_page None (fun blk => walk_blocks (length ls) fs vi blk (Some w) 0 0 false 0 0)) img
    (hit_of (found w (List.concat ls))) img).
  { apply eval_page; [lia|]. by apply (eval_walk_blocks vi ls w img D 0). }
  rewrite (E _ Q). by rewrite (set_image_same 4 _ _ Q).
Qed.

(** The directory's inode written back. *)
Lemma inode_img_dir img vi ls u : layout fs img -> ino_ok fs (vi_ino vi) -> slots vi -> dir_ok img u ls ->
  dir_ok (inode_img fs junk img vi) u ls.
Proof.
  intros L Hi Hs D. destruct (inode_img_layout fs NS junk Vol img vi L Hi Hs) as (Sg & _ & U).
  apply (dir_untouched img); [done|]. intros b Hb. destruct (of_data _ _ _ (dk_own _ _ _ D) b Hb) as (V & Ub & N). split.
  - apply (inode_img_block fs NS junk Vol); [done..|]. intros H. apply N. right. right. by right.
  - split_and!; [done|by rewrite U|]. by rewrite (same_gd_sys fs _ _ b Sg).
Qed.

Lemma grown_other img vi new img1 u : grown fs img new img1 -> frame fs img img1 (fun b => b ∈ fblocks fs img vi \/ b ∈ new) ->
  own_file fs img u -> (forall b, b ∈ fblocks fs img u -> b ∉ fblocks fs img vi) ->
  forall b, b ∈ fblocks fs img u -> untouched fs img img1 b /\ data_blk fs img1 b.
Proof.
  intros G Fr Ou Hd b Hb. pose proof (of_data _ _ _ Ou b Hb) as Db. split; [|by eapply (grown_data fs)].
  eapply frame_data; [exact Fr|done|]. intros [Hin|Hin]; [by apply (Hd b)|]. by eapply (new_not_owned fs img u).
Qed.

(** The results of dir_add_entry: the entry is there, or the disk is full. *)
Definition add_end (img' : mem) (ls ls' : list (list dent)) (ino ftype : Z) (name : list Z) (r : Z) : Prop :=
  (r = 0 /\ forall w, found w (List.concat ls') = if decide (w = name) then Some (ino, ftype) else found w (List.concat ls)) \/
  (r = - ENOSPC /\ full fs img' /\ ls' = ls).

Lemma found_last ls ino ftype name w : entry_ok ino ftype name -> found name (List.concat ls) = None ->
  found w (List.concat (ls ++ [[Dent ino bs ftype name]])) = if decide (w = name) then Some (ino, ftype) else found w (List.concat ls).
Proof.
  intros Ok Hn. rewrite concat_app, found_app. cbn [List.concat app]. rewrite found_cons. unfold live. cbn [de_ino de_name de_ftype].
  destruct (eo_ino _ _ _ Ok), (eo_len _ _ _ Ok).
  replace (ino =? 0) with false by lia. replace (len name =? 0) with false by lia. cbn [negb andb].
  destruct (decide (w = name)) as [->|N]; [rewrite Hn; by rewrite bool_decide_eq_true_2|].
  rewrite bool_decide_eq_false_2 by congruence. by destruct (found w (List.concat ls)).
Qed.

Lemma dir_at_put s vn vi vi' v z : file_at s vn fs vi -> e_vns s !! vn = Some v -> is_type VNODE_DIR v = true -> vi_fs vi' = vi_fs vi ->
  let s1 := set_vis (<[v_priv v := vi']> (e_vis s)) s in
  dir_at s1 vn vi' /\ dir_at (set_vns (<[vn := with_size z v]> (e_vns s1)) s1) vn vi'.
Proof.
  intros [(v' & Hv' & Hp & Hvi) Hfs Hself] Hv Ht Ef s1. rewrite Hv in Hv'. injection Hv' as <-.
  assert (Ht' : is_type VNODE_DIR (with_size z v) = true) by exact Ht.
  split; (split; [split; [|cbn; by rewrite Ef|by rewrite Ef]|]).
  - exists v. cbn. by rewrite lookup_insert_eq.
  - by exists v.
  - exists (with_size z v). cbn. by rewrite !lookup_insert_eq.
  - exists (with_size z v). cbn. by rewrite lookup_insert_eq.
Qed.

(** How the operation ends, for each way the search for room ended. *)
Lemma run_add s vn vi img ls ino ftype name : layout fs img -> dir_ok img vi ls -> fits vi -> ino_ok fs (vi_ino vi) ->
  dir_at s vn vi -> quiet NS junk 4 img s -> entry_ok ino ftype name -> len ls * bs + 2 * bs < 2 ^ 32 ->
  found name (List.concat ls) = None ->
  exists r s' vi' ls' new img1 img', dir_add_entry vn name ino ftype s = Some (r, s') /\
    grown fs img new img1 /\ frame fs img img1 (fun b => b ∈ fblocks fs img vi \/ b ∈ new) /\
    (img' = img1 \/ (img' = inode_img fs junk img1 vi' /\ vi_ino vi' = vi_ino vi /\ slots vi')) /\
    quiet NS junk 4 img' s' /\ dir_at s' vn vi' /\ dir_ok img1 vi' ls' /\ add_end img1 ls ls' ino ftype name r.
Proof.
  intros L D Ft Hi Da Q Ok Hmax Hno. pose proof Da as [Fa (v & Hv & Ht)]. pose proof Fa as [(v' & Hv' & Hp & Hvi) Hfs Hself].
  rewrite Hv in Hv'. injection Hv' as <-. pose proof (len_nonneg ls). pose proof (bs_bound fs NS Vol).
  destruct (eval_add_page vi ls ino ftype name img L D Ok Hmax) as (r & new & img1 & E & G & Fr & A).
  pose proof (quiet_image _ _ img1 _ Q) as Q1. pose proof (gr_lay _ _ _ _ G) as L1.
  unfold dir_add_entry. rewrite (obj_some e_vns vn v) by done. cbv zeta. rewrite (obj_some e_vis _ vi) by done.
  rewrite (obj_some e_fss _ fs) by done. rewrite (bind_some _ _ _ _ _ (E _ Q)). set (s1 := set_image img1 s) in *.
  destruct r as [rc|[rc vi1]]; cbn [added] in A.
  - destruct A as (-> & ls' & Ei & D'). exists 0, s1, vi, ls', new, img1, img1. split_and!; try done; [by left|by apply dir_at_image|].
    left. split; [done|]. intros w. by eapply found_insert_blocks.
  - destruct A as ((Hsl & Er) & Hb & A).
    assert (Ei : vi_ino vi1 = vi_ino vi) by (by rewrite Er). assert (Ef : vi_fs vi1 = vi_fs vi) by (by rewrite Er).
    assert (Es : vi_size vi1 = len ls * bs) by (rewrite Er; apply D).
    destruct A as [(-> & D')|(-> & Hfull & D')]; cbn [Z.eqb negb].
    + rewrite u32_small by (cbn; rewrite Es; lia). set (vi' := with_vi_size (vi_size vi1 + bs) vi1) in *.
      assert (Hs' : slots vi') by (apply (of_slots _ _ _ (dk_own _ _ _ D'))).
      destruct (dir_at_put s1 vn vi vi' v (vi_size vi')) as [_ Da']; [by apply (dir_at_image s)|done|done|done|].
      set (s2 := set_vns _ _) in Da'. assert (Q2 : quiet NS junk 4 img1 s2) by (subst s2 s1; destruct Q1; by split).
      pose proof (eval_write_inode fs NS junk Vol vi' img1 L1 ltac:(cbn; by rewrite Ei) Hs') as Ew.
      exists 0, (set_image (inode_img fs junk img1 vi') s2), vi', (ls ++ [[Dent ino bs ftype name]]), new, img1, (inode_img fs junk img1 vi').
      split_and!; try done.
      * unfold put_vi, put_vn. cbn beta. rewrite (bind_some _ _ s1 tt (set_vis (<[v_priv v := vi']> (e_vis s1)) s1)) by done.
        rewrite (bind_some _ _ _ tt s2) by done. apply Ew. eapply quiet_weaken; [|exact Q2]. lia.
      * right. done.
      * by apply (quiet_image _ img1).
      * by apply dir_at_image.
      * left. split; [done|]. intros w. by apply found_last.
    + destruct (dir_at_put s1 vn vi vi1 v 0) as [Da' _]; [by apply (dir_at_image s)|done|done|done|].
      set (s2 := set_vis _ _) in Da'. exists (- ENOSPC), s2, vi1, ls, new, img1, img1. split_and!; try done; [by left| |by right].
      subst s2 s1. destruct Q1. by split.
Qed.

(** C19: adding a directory entry and looking names up. On a volume with a sound
    layout whose directory holds well-formed records, dir_add_entry of a name that is
    not there either adds it (into a record's slack, a deleted record, or a new
    block), after which dir_walk finds that name with its inode and type and every
    other name exactly as before, or returns -ENOSPC with the disk full and every
    lookup unchanged; the directory stays well formed, the layout stays sound, and
    no other file changes. *)
Theorem dir_add_lookup s vn vi img ls ino ftype name : layout fs img -> dir_ok img vi ls -> fits vi -> ino_ok fs (vi_ino vi) ->
  dir_at s vn vi -> quiet NS junk 4 img s -> entry_ok ino ftype name -> len ls * bs + 2 * bs < 2 ^ 32 ->
  found name (List.concat ls) = None ->
  exists r s' vi' ls' img', dir_add_entry vn name ino ftype s = Some (r, s') /\
    quiet NS junk 4 img' s' /\ layout fs img' /\ dir_at s' vn vi' /\ dir_ok img' vi' ls' /\
    add_end img' ls ls' ino ftype name r /\
    (forall w, dir_walk vn (Some w) 0 0 false s' = Some (hit_of (found w (List.concat ls')), s')) /\
    (forall u, own_file fs img u -> (forall b, b ∈ fblocks fs img u -> b ∉ fblocks fs img vi) ->
       own_file fs img' u /\ forall x, 0 <= x -> fbyte fs img' u x = fbyte fs img u x).
Proof.
  intros L D Ft Hi Da Q Ok Hmax Hno.
  destruct (run_add s vn vi img ls ino ftype name L D Ft Hi Da Q Ok Hmax Hno)
    as (r & s' & vi' & ls' & new & img1 & img' & E & G & Fr & Hc & Q' & Da' & D' & A).
  pose proof (gr_lay _ _ _ _ G) as L1.
  assert (K : layout fs img' /\ dir_ok img' vi' ls' /\ add_end img' ls ls' ino ftype name r /\
    forall u, own_file fs img1 u -> own_file fs img' u /\ forall x, 0 <= x -> fbyte fs img' u x = fbyte fs img1 u x).
  { destruct Hc as [->|(-> & Ei & Sl)]; [done|]. rewrite <- Ei in Hi.
    destruct (inode_img_layout fs NS junk Vol img1 vi' L1 Hi Sl) as (Sg & L' & U). split_and!; [done|by apply inode_img_dir| |].
    - destruct A as [A|(-> & Hf & ->)]; [by left|right]. split_and!; [done| |done]. intros b V. rewrite U by done. by apply Hf.
    - intros u Ou. by apply (inode_img_file fs NS junk Vol). }
  destruct K as (L' & D2 & A2 & K). exists r, s', vi', ls', img'. split_and!; try done.
  - intros w. by eapply dir_walk_found.
  - intros u Ou Hd. destruct (file_untouched fs NS Vol img img1 u Ou) as [O1 B1].
    { by eapply grown_other. }
    destruct (K u O1) as [O2 B2]. split; [done|]. intros x Hx. by rewrite B2, B1.
Qed.
End Dir.
