(* ===== verification/Ext2Demo.v ===== *)
(** A small ext2 volume: 64 blocks of 1024 bytes in one group, 16 inodes, a root
    directory and an empty file "a". The theorems about volumes applied to it, and
    what the driver does on it when a file is renamed to itself and when a volume is
    unmounted after rmdir. *)

From stdpp Require Import base numbers option list gmap.
From Stdlib Require Import ZArith Lia.
From S2P Require Import Prelude Buf Tmpfs Ext2 Ext2Safe Ext2Disk Ext2Inode Ext2File Ext2Io Ext2Dir.

(** * The image *)

Definition poke (l : list (nat * Z * Z)) (m : mem) : mem := fold_left (fun m '(w, a, v) => st w m a v) l m.

(** Superblock at 1024, group descriptor in block 2, bitmaps in 3 and 4, inodes in
    5 and 6, the root directory in 7. *)
Definition demo_img : mem := poke [
  (4%nat, 1024, 16); (4%nat, 1028, 64); (4%nat, 1036, 57); (4%nat, 1040, 5); (4%nat, 1044, 1); (4%nat, 1048, 0);
  (4%nat, 1056, 64); (4%nat, 1064, 16); (2%nat, 1080, 61267); (2%nat, 1112, 128);
  (4%nat, 2048, 3); (4%nat, 2052, 4); (4%nat, 2056, 5); (2%nat, 2060, 57); (2%nat, 2062, 5);
  (1%nat, 3072, 127); (2%nat, 4096, 2047);
  (2%nat, 5248, 16877); (4%nat, 5252, 1024); (2%nat, 5274, 2); (4%nat, 5276, 2); (4%nat, 5288, 7);
  (2%nat, 6400, 33188); (2%nat, 6426, 1);
  (4%nat, 7168, 2); (2%nat, 7172, 12); (1%nat, 7174, 1); (1%nat, 7175, 2); (1%nat, 7176, 46);
  (4%nat, 7180, 2); (2%nat, 7184, 12); (1%nat, 7186, 2); (1%nat, 7187, 2); (2%nat, 7188, 11822);
  (4%nat, 7192, 11); (2%nat, 7196, 1000); (1%nat, 7198, 1); (1%nat, 7199, 1); (1%nat, 7200, 97)] (fun _ => 0).

Definition demo_junk : mem := fun _ => 165.

(** The volume mounted: its objects at 100, the root vnode at 102, that of "a" at 104. *)
Definition demo_fs : ext2_fs := Ext2fs 100 1024 2 16 64 16 64 128 1 2 101.
Definition demo_root : ext2_vinfo := Vinfo 100 2 1024 16877 2 2 (7 :: replicate 14 0) 0.
Definition demo_file : ext2_vinfo := Vinfo 100 11 0 33188 1 0 (replicate 15 0) 0.
Definition demo_st : est :=
  Est (Blkdev demo_img 128 []) 16 demo_junk (seqZ 200 40) {[100 := demo_fs]}
    {[101 := demo_root; 103 := demo_file]}
    {[102 := Vnode VNODE_DIR 2 101 1024 1 493 0; 104 := Vnode VNODE_REG 2 103 0 1 420 0]}.

(** The state before a mount. *)
Definition demo_boot : est := Est (Blkdev demo_img 128 []) 16 demo_junk (seqZ 100 40) ∅ ∅ ∅.

(** * It is a sound volume *)

Lemma demo_geom : geom_ok demo_fs.
Proof. split; cbn; [by left|done|lia|lia|]. split; [lia|]. by exists 8. Qed.

Lemma demo_volume : volume demo_fs 128.
Proof. split; [apply demo_geom|done|done|done|done|done]. Qed.

Lemma demo_group g : group_ok demo_fs g -> g = 0.
Proof. unfold group_ok. change (group_count demo_fs) with 1. lia. Qed.

Lemma demo_gd : gd32 demo_fs demo_img 0 0 = 3 /\ gd32 demo_fs demo_img 0 4 = 4 /\ gd32 demo_fs demo_img 0 8 = 5.
Proof. by vm_compute. Qed.

Lemma demo_sys b : sys demo_fs demo_img b <-> b <= 6.
Proof.
  destruct demo_gd as (E0 & E4 & E8). unfold sys, is_bbm, is_ibm, is_itab.
  change (last_gdt demo_fs) with 2. change (itab_len demo_fs) with 2. split.
  - intros [|[(g & ->%demo_group & ->)|[(g & ->%demo_group & ->)|(g & ->%demo_group & H)]]]; lia.
  - intros H. assert (G : group_ok demo_fs 0) by done.
    destruct (decide (b <= 2)); [by left|right]. destruct (decide (b = 3)); [left; exists 0; by rewrite E0|right].
    destruct (decide (b = 4)); [left; exists 0; by rewrite E4|right]. exists 0. rewrite E8. split; [done|lia].
Qed.

(** Blocks 1 to 7 are in use. *)
Lemma demo_used b : 1 <= b <= 7 -> used demo_fs demo_img b = true.
Proof.
  intros Hb. assert (H : forallb (used demo_fs demo_img) (seqZ 1 7) = true) by by vm_compute.
  rewrite forallb_forall in H. apply H, list_elem_of_In, elem_of_seqZ. lia.
Qed.

Lemma demo_layout : layout demo_fs demo_img.
Proof.
  destruct demo_gd as (E0 & E4 & E8). split.
  - intros g ->%demo_group. by rewrite E0.
  - by intros g g' ->%demo_group ->%demo_group.
  - intros g ->%demo_group. by rewrite E4.
  - intros b (g & ->%demo_group & ->) (g' & ->%demo_group & E). by rewrite E0, E4 in E.
  - intros g ->%demo_group. by rewrite E8.
  - intros b (g & ->%demo_group & H) [(g' & ->%demo_group & ->)|(g' & ->%demo_group & ->)]; rewrite ?E0, ?E4, E8 in H; lia.
  - by intros g g' b ->%demo_group ->%demo_group.
  - intros b Hs%demo_sys [V _]. apply demo_used. change (first_data_block demo_fs) with 1 in V. lia.
Qed.

Lemma demo_root_blocks : fblocks demo_fs demo_img demo_root = [7].
Proof. by vm_compute. Qed.

Lemma demo_file_blocks : fblocks demo_fs demo_img demo_file = [].
Proof. by vm_compute. Qed.

Lemma demo_file_own : own_file demo_fs demo_img demo_file.
Proof. split; [done|rewrite demo_file_blocks; constructor|]. intros b. rewrite demo_file_blocks. by intros ?%not_elem_of_nil. Qed.

Lemma demo_root_own : own_file demo_fs demo_img demo_root.
Proof.
  split; [done|rewrite demo_root_blocks; apply NoDup_singleton|]. intros b. rewrite demo_root_blocks.
  intros ->%list_elem_of_singleton. split_and!; [done|by apply demo_used|]. rewrite demo_sys. lia.
Qed.

Definition demo_dents : list dent := [Dent 2 12 2 [46]; Dent 2 12 2 [46; 46]; Dent 11 1000 1 [97]].

Lemma demo_root_slot k : 1 <= k < 15 -> blk_slot demo_root k = 0.
Proof.
  intros Hk. assert (H : forallb (fun x => blk_slot demo_root x =? 0) (seqZ 1 14) = true) by by vm_compute.
  rewrite forallb_forall in H. apply Z.eqb_eq, H, list_elem_of_In, elem_of_seqZ. lia.
Qed.

Lemma demo_dir : dir_ok demo_fs demo_img demo_root [demo_dents].
Proof.
  split; [apply demo_root_own|done|done| |].
  - intros [|i] l [=]; subst l. split; [done|]. cbn [chain demo_dents de_rlen].
    split_and!; [..|done]; split; try (by vm_compute); first [by exists 3|by exists 250].
  - intros j Hj. change (len [demo_dents]) with 1 in Hj. unfold fmap, region.
    repeat case_match; simplify_eq; try done; (rewrite demo_root_slot by lia; apply tmap_0).
Qed.

Lemma demo_quiet : quiet 128 demo_junk 4 demo_img demo_st.
Proof. by split. Qed.

Lemma demo_file_fits : fits demo_file.
Proof. split; try (cbn; lia); [done|]. cbn. repeat constructor; lia. Qed.

Lemma demo_root_fits : fits demo_root.
Proof. split; try (cbn; lia); [done|]. cbn. repeat constructor; lia. Qed.

Lemma demo_reg_at : file_at demo_st 104 demo_fs demo_file.
Proof. split; [|done|done]. by eexists. Qed.

Lemma demo_rootdir_at : dir_at demo_fs demo_st 102 demo_root.
Proof. split; [split; [by eexists|done|done]|]. by eexists. Qed.

Lemma demo_vol_ok : vol_ok demo_st.
Proof.
  split; cbn.
  - intros a f [_ <-]%lookup_singleton_Some. apply demo_geom.
  - intros a v [[_ <-]|[_ [_ <-]%lookup_singleton_Some]]%lookup_insert_Some; split_and!; done || by eexists.
  - intros a v [[_ <-]|[_ [_ <-]%lookup_singleton_Some]]%lookup_insert_Some; right; by eexists.
  - by intros a f [<- <-]%lookup_singleton_Some.
Qed.

(** * The theorems on it *)

(** Three bytes across the end of the first block. *)
Lemma ext2_write_read_witness : exists r s' vi' img', ext2_write 104 [1; 2; 3] 1022 demo_st = Some (r, s') /\
  (r = 3 /\ vi_size vi' = 1025 \/ r < 3 /\ full demo_fs img' /\ vi_size vi' = 0) /\ own_file demo_fs img' vi'.
Proof.
  destruct (ext2_write_read demo_fs 128 demo_junk demo_volume demo_st 104 demo_file demo_img [1; 2; 3] 1022 demo_layout demo_file_own
    demo_file_fits) as (r & s' & vi' & img' & E & _ & _ & _ & O & R & _).
  - split; [cbn; lia|]. done.
  - apply demo_reg_at.
  - apply demo_quiet.
  - lia.
  - by vm_compute.
  - exists r, s', vi', img'. split; [exact E|]. split; [exact R|exact O].
Defined.

(** A second file "b". *)
Lemma dir_add_lookup_witness : exists r s' ls', dir_add_entry 102 [98] 12 1 demo_st = Some (r, s') /\
  forall w, dir_walk 102 (Some w) 0 0 false s' = Some (hit_of (found w (List.concat ls')), s').
Proof.
  destruct (dir_add_lookup demo_fs 128 demo_junk demo_volume demo_st 102 demo_root demo_img [demo_dents] 12 1 [98] demo_layout demo_dir
    demo_root_fits) as (r & s' & vi' & ls' & img' & E & _ & _ & _ & _ & _ & W & _).
  - split; [cbn; lia|]. done.
  - apply demo_rootdir_at.
  - apply demo_quiet.
  - split; [lia|lia|done|]. repeat constructor; lia.
  - done.
  - done.
  - exists r, s', ls'. split; [exact E|exact W].
Defined.


(** * Two defects *)

Definition outcome {A} (m : M A) (s : est) : option A := fst <$> m s.

(** Renaming a file to its own name removes it. ext2_rename looks the target up
    and unlinks it before it adds the new entry; when the target is the source itself
    the last link of the inode is dropped and its blocks and number are freed, the
    rename then reports success, and the name is gone. (POSIX: does nothing.) *)
Theorem ext2_rename_same_loses :
  outcome (r ← ext2_mount_dev; f ← ext2_lookup r [97]; n ← ext2_write f [1; 2; 3] 0;
           u ← ext2_rename 50 r [97] r [97]; g ← ext2_lookup r [97]; mret (negb (f =? 0), n, u, g)) demo_boot
  = Some (true, 3, 0, 0).
Proof. by vm_compute. Qed.

