(* ===== verification/UserProc.v ===== *)
(** User processes: spawn, fork, clone, execve and waitpid of [kernel/proc/user.c],
    which tie together the scheduler, the process tree, the PIDs, the address
    spaces, the open files and user memory. What kcalloc and kmalloc return is an
    argument, 0 for none; their releases are recorded by [with_freed]. *)

From stdpp Require Import base numbers option list gmap.
From Stdlib Require Import ZArith Lia.
From S2P Require Import Prelude Pmm Path Vm Vmspace Pid Proc Sched Signal Thread Buf Tmpfs Vfs Fd Elf User.

Definition ENOSYS : Z := 38.
Definition ECHILD : Z := 10.
Definition USER_HEAP_BASE : Z := 0x0000200002000000.

(** * State *)

(** The open files with the file system and the scheduler, the page tables, the
    address spaces by the address of their struct, the trap frames on kernel stacks
    by address, and user memory as the current process sees it. *)
Record world := World {
  w_fd : fds; w_vm : vm; w_sp : Z -> address_space; w_tf : gmap Z trapframe; w_us : umem
}.

Definition w_sched (w : world) : sched := kern (w_fd w).
Definition set_kern (k : sched) (x : fds) : fds := set_pipes (pipes x) k x.
Definition set_fd (x : fds) (w : world) : world := World x (w_vm w) (w_sp w) (w_tf w) (w_us w).
Definition set_sched (k : sched) (w : world) : world := set_fd (set_kern k (w_fd w)) w.
Definition set_vm (v : vm) (w : world) : world := World (w_fd w) v (w_sp w) (w_tf w) (w_us w).
Definition set_us (u : umem) (w : world) : world := World (w_fd w) (w_vm w) (w_sp w) (w_tf w) u.
Definition set_tf (p : Z) (tf : trapframe) (w : world) : world :=
  World (w_fd w) (w_vm w) (w_sp w) (<[p := tf]> (w_tf w)) (w_us w).
Definition on_sched (f : sched -> sched) (w : world) : world := set_sched (f (w_sched w)) w.

(** The address space [a] is stored in the struct at [p]. *)
Definition set_space (p : Z) (a : address_space) (w : world) : world :=
  let w := World (w_fd w) (w_vm w) (fun q => if q =? p then a else w_sp w q) (w_tf w) (w_us w) in
  on_sched (put p F_refcount (as_refcount a)) w.

Definition kfree (p : Z) (w : world) : world := on_sched (on_pr (with_freed p)) w.

(** vmspace_destroy(p); kfree(p). *)
Definition drop_space (p : Z) (w : world) : world :=
  let '(a, v) := vmspace_destroy (w_sp w p) (w_vm w) in
  kfree p (set_space p a (set_vm v w)).

(** * Trap frames *)

(** sizeof(trapframe_t). *)
Definition TRAPFRAME_SIZE : Z := 168.

Definition tf_set_rax (v : Z) (tf : trapframe) : trapframe :=
  Trapframe (tf_r15 tf) (tf_r14 tf) (tf_r13 tf) (tf_r12 tf) (tf_r11 tf) (tf_r10 tf) (tf_r9 tf) (tf_r8 tf)
    (tf_rbp tf) (tf_rdi tf) (tf_rsi tf) (tf_rdx tf) (tf_rcx tf) (tf_rbx tf) v
    (tf_int_no tf) (tf_rip tf) (tf_cs tf) (tf_rflags tf) (tf_rsp tf) (tf_ss tf).
Definition tf_set_rsp (v : Z) (tf : trapframe) : trapframe :=
  Trapframe (tf_r15 tf) (tf_r14 tf) (tf_r13 tf) (tf_r12 tf) (tf_r11 tf) (tf_r10 tf) (tf_r9 tf) (tf_r8 tf)
    (tf_rbp tf) (tf_rdi tf) (tf_rsi tf) (tf_rdx tf) (tf_rcx tf) (tf_rbx tf) (tf_rax tf)
    (tf_int_no tf) (tf_rip tf) (tf_cs tf) (tf_rflags tf) v (tf_ss tf).
(** execve: a clean register file, and [rip], [rsp] of the new program. *)
Definition tf_exec (rip rsp : Z) (tf : trapframe) : trapframe :=
  Trapframe 0 0 0 0 0 0 0 0 0 0 0 0 0 0 0 (tf_int_no tf) rip (tf_cs tf) 0x202 rsp (tf_ss tf).

(** * What fork and clone share *)

(** Scheduler bookkeeping of the new PCB [c]. *)
Definition embryo (c stk pid parent : Z) (s : sched) : sched :=
  let s := put c F_pid pid s in
  let s := put c F_state PROC_EMBRYO s in
  let s := put c F_priority PRIO_DEFAULT s in
  let s := put c F_kernel_stack stk s in
  let s := put c F_kernel_stack_size DEFAULT_THREAD_STACK s in
  let s := put c F_stack_canary 1 s in
  let s := put c F_time_slice SCHED_QUANTUM s in
  let s := put c F_ticks_left SCHED_QUANTUM s in
  let s := put c F_creation_time (timer_ticks s) s in
  copy_name 31 0 c (fun i => get s parent (F_name i)) s.

(** [f] of the parent is copied to the child. *)
Definition inherit_field (c parent : Z) (f : field) (s : sched) : sched := put c f (get s parent f) s.

Definition inherit_tail (c parent : Z) (s : sched) : sched :=
  let s := inherit_field c parent F_brk_start s in
  let s := inherit_field c parent F_brk_cur s in
  let s := inherit_field c parent F_mmap_cur s in
  let s := for_range 0 256 (fun i => inherit_field c parent (F_cwd i)) s in
  let s := inherit_field c parent F_pgid s in
  let s := inherit_field c parent F_sid s in
  let s := inherit_field c parent F_sig_blocked s in
  let s := inherit_field c parent F_sig_ignore s in
  let s := for_range 0 32 (fun i => inherit_field c parent (F_sig_handler i)) s in
  inherit_field c parent F_sig_restorer s.

(** The top of the kernel stack less the trap frame. *)
Definition child_frame (c : Z) (s : sched) : Z :=
  Z.land (u64 (get s c F_kernel_stack + get s c F_kernel_stack_size)) (not64 0xF) - TRAPFRAME_SIZE.

(** [fork_ret]: the address of fork_child_entry; [root]: the PML4. *)
Definition child_context (fork_ret c root : Z) (s : sched) : sched :=
  let s := put c F_ctx_rsp (child_frame c s) s in
  let s := put c F_ctx_rip fork_ret s in
  let s := put c F_ctx_rflags 0x002 s in
  let s := put c F_ctx_cr3 root s in
  let s := put c F_ctx_cs 0x08 s in
  put c F_ctx_dseg 0x10 s.

(** With interrupts off: the lists, and the run queue last. *)
Definition link_child (c parent : Z) (s : sched) : sched :=
  let s := put c F_parent_pid (get s parent F_pid) s in
  let s := on_pr (all_list_add c) s in
  let s := on_pr (proc_add_child parent c) s in
  sched_admit c s.

(** The PCB, its stack and its PID; [inl w] when one of them is missing, with what
    was taken before given back. memset clears the members fd_table and fd_rc too. *)
Definition new_child (pcb stk parent : Z) (w : world) : world + Z * world :=
  let '(c, p) := proc_table_alloc pcb (pr (w_sched w)) in
  let w := on_sched (with_pr p) w in
  if c =? 0 then inl w else
  let w := on_sched (zero_pcb c) w in
  let w := set_fd (set_proc c 0 0 (w_fd w)) w in
  if stk =? 0 then inl (on_sched (on_pr (proc_table_free c)) w) else
  let w := on_sched (put stk F_canary_word STACK_CANARY_MAGIC) w in
  let '(pid, pb) := pid_alloc (pids (w_sched w)) in
  let w := on_sched (with_pids pb) w in
  if pid =? 0 then inl (on_sched (on_pr (proc_table_free c)) (kfree stk w)) else
  inr (c, on_sched (embryo c stk pid parent) w).

(** * fork *)

(** What fork copies after the descriptors. *)
Definition inherit_fork (c parent cas : Z) (s : sched) : sched :=
  let s := put c F_is_user 1 s in
  let s := put c F_aspace cas s in
  let s := inherit_field c parent F_user_entry s in
  let s := inherit_field c parent F_user_stack s in
  inherit_tail c parent s.

Definition is_user_process (s : sched) : bool :=
  truth (current_process s) && truth (get s (current_process s) F_is_user)
    && truth (get s (current_process s) F_aspace).

(** [cas], [pcb], [stk], [new]: what kcalloc and kmalloc return for the space, the
    PCB, the stack and the table of descriptors. *)
Definition proc_fork (fork_ret cas pcb stk new : Z) (tf : trapframe) (w : world) : option (Z * world) :=
  let parent := current_process (w_sched w) in
  if negb (is_user_process (w_sched w)) then Some (- ENOSYS, w) else
  if cas =? 0 then Some (- ENOMEM, w) else
  let '(rc, a, v) := vmspace_fork (w_sp w (get (w_sched w) parent F_aspace)) (w_vm w) in
  let w := set_space cas a (set_vm v w) in
  if negb (rc =? 0) then Some (- ENOMEM, kfree cas w) else
  match new_child pcb stk parent w with
  | inl w => Some (- ENOMEM, drop_space cas w)
  | inr (c, w) =>
      x ← vfs_fork_fds new c parent (w_fd w);
      let w := on_sched (inherit_fork c parent cas) (set_fd x w) in
      let w := set_tf (child_frame c (w_sched w)) (tf_set_rax 0 tf) w in
      let w := on_sched (child_context fork_ret c (pml4_phys (w_sp w cas))) w in
      let w := on_sched (link_child c parent) w in
      Some (get (w_sched w) c F_pid, w)
  end.

(** * clone *)

Definition CLONE_VM : Z := 0x00000100.
Definition CLONE_FILES : Z := 0x00000400.
Definition CLONE_SETTLS : Z := 0x00080000.
Definition CLONE_PARENT_SETTID : Z := 0x00100000.
Definition CLONE_CHILD_CLEARTID : Z := 0x00200000.
Definition CLONE_CHILD_SETTID : Z := 0x01000000.

(** The thread shares the space [a]. *)
Definition inherit_clone (c parent a child_stack flags newtls : Z) (s : sched) : sched :=
  let s := put c F_is_user 1 s in
  let s := put c F_aspace a s in
  let s := put a F_refcount (u32 (get s a F_refcount + 1)) s in
  let s := inherit_field c parent F_user_entry s in
  let s := put c F_user_stack child_stack s in
  let s := inherit_tail c parent s in
  put c F_fs_base (if truth (Z.land flags CLONE_SETTLS) then newtls else get s parent F_fs_base) s.

(** copy_to_user of the thread id, its result ignored. *)
Definition put_tid (addr pid : Z) (w : world) : world :=
  set_us (copy_to_user addr (byte_of [pid]) 4 (w_us w)).2 w.

(** [new], [nrc]: the table of descriptors and the shared count. *)
Definition proc_clone (fork_ret cas pcb stk new nrc : Z) (tf : trapframe) (w : world) : option (Z * world) :=
  let parent := current_process (w_sched w) in
  if negb (is_user_process (w_sched w)) then Some (- ENOSYS, w) else
  let flags := tf_rdi tf in
  let child_stack := tf_rsi tf in
  if negb (truth (Z.land flags CLONE_VM)) || (child_stack =? 0) then proc_fork fork_ret cas pcb stk new tf w else
  let a := get (w_sched w) parent F_aspace in
  match new_child pcb stk parent w with
  | inl w => Some (- ENOMEM, w)
  | inr (c, w) =>
      let w := on_sched (inherit_clone c parent a child_stack flags (tf_r8 tf)) w in
      x ← (if truth (Z.land flags CLONE_FILES) then vfs_share_fds new nrc c parent (w_fd w)
           else vfs_fork_fds new c parent (w_fd w));
      let w := set_fd x w in
      let w := if truth (Z.land flags CLONE_CHILD_CLEARTID)
               then on_sched (put c F_clear_child_tid (tf_r10 tf)) w else w in
      let w := on_sched (put c F_detached 1) w in
      let w := set_tf (child_frame c (w_sched w)) (tf_set_rsp child_stack (tf_set_rax 0 tf)) w in
      let w := on_sched (child_context fork_ret c (pml4_phys (w_sp w a))) w in
      let pid := get (w_sched w) c F_pid in
      let w := if truth (Z.land flags CLONE_PARENT_SETTID) then put_tid (tf_rdx tf) pid w else w in
      let w := if truth (Z.land flags CLONE_CHILD_SETTID) then put_tid (tf_r10 tf) pid w else w in
      Some (pid, on_sched (link_child c parent) w)
  end.

(** * execve *)

Definition U_ARGSTORE : Z := 1024.
Definition PATH_BUF : Z := 256.
Definition ENAMETOOLONG : Z := 36.
Definition E2BIG : Z := 7.

(** A NUL-terminated string from user memory, at most [n] bytes with the NUL, from
    [addr + j] on: [inl e] is the error; [too_long] the one for no NUL. *)
Fixpoint user_string (n : nat) (too_long addr j : Z) (u : umem) : Z + list Z :=
  match n with
  | O => inl too_long
  | S n =>
      if negb (copy_from_user_ok (u64 (addr + j)) 1 u) then inl (- EFAULT) else
      let ch := u8 (um u (u64 (addr + j))) in
      if ch =? 0 then inr [] else
      match user_string n too_long addr (j + 1) u with inl e => inl e | inr l => inr (ch :: l) end
  end.

(** The strings of a vector of user pointers from slot [i] on; [used] bytes of the
    store are taken. *)
Fixpoint user_vector (n : nat) (vec i used : Z) (u : umem) : Z + list (list Z) :=
  match n with
  | O => inr []
  | S n =>
      if negb (copy_from_user_ok (u64 (vec + i * 8)) 8 u) then inl (- EFAULT) else
      let ptr := ld64 (um u) (u64 (vec + i * 8)) in
      if ptr =? 0 then inr [] else
      match user_string (Z.to_nat (U_ARGSTORE - used)) (- E2BIG) ptr 0 u with
      | inl e => inl e
      | inr str =>
          match user_vector n vec (i + 1) (used + len str + 1) u with
          | inl e => inl e
          | inr l => inr (str :: l)
          end
      end
  end.

Definition user_strings (vec : Z) (u : umem) : Z + list (list Z) :=
  if vec =? 0 then inr [] else user_vector (Z.to_nat U_ARGC_MAX) vec 0 0 u.

(** The C string in memory from [i] on. *)
Fixpoint cstr (n : nat) (m : Z -> Z) (i : Z) : list Z :=
  match n with
  | O => []
  | S n => if m i =? 0 then [] else m i :: cstr n m (i + 1)
  end.

(** cwd[0] ? cwd : "/". *)
Definition cwd_of (p : Z) (s : sched) : list Z :=
  if truth (get s p (F_cwd 0)) then cstr 256 (fun i => get s p (F_cwd i)) 0 else [slash].

(** path_canonicalize into a buffer of [n] bytes; [inl e] is its error. *)
Definition canonical (cwd path : list Z) (n : Z) : option (Z + list Z) :=
  '(rc, o) ← path_canonicalize (Some cwd) (Some path) (Some (fun _ => 0)) n;
  Some (if negb (rc =? 0) then inl rc else inr (match o with Some m => cstr (Z.to_nat n) m 0 | None => [] end)).

Section Exec.
Context (ops_of : Z -> vfs_ops).

(** The image of [vn] in the fresh space at [as_]: the entry, the auxiliary values
    and the world, or the error. *)
Definition exec_image (vn as_ : Z) (w : world) : option (Z * Z * elf_aux * world) :=
  '(rc, out, v) ← build_user_image (fun n off => vfs_read ops_of vn n off (fsy (w_fd w))) (w_sp w as_) (w_vm w);
  let '(entry, aux) := default (0, Aux 0 0 0 0) out in
  Some (rc, entry, aux, set_vm v w).

(** A new space with the program of [vn]: [inl (e, w)] on failure, with what was
    taken given back. *)
Definition new_image (vn as_ : Z) (argv envp : list (list Z)) (rnd : list Z) (w : world)
    : option ((Z * world) + (Z * Z * world)) :=
  if as_ =? 0 then Some (inl (- ENOMEM, w)) else
  let '(rc, a, v) := vmspace_create (w_vm w) in
  let w := set_space as_ a (set_vm v w) in
  if negb (rc =? 0) then Some (inl (- ENOMEM, kfree as_ w)) else
  '(rc, entry, aux, w) ← exec_image vn as_ w;
  if negb (rc =? 0) then Some (inl (rc, drop_space as_ w)) else
  let '(rsp, v) := setup_user_stack (w_sp w as_) argv envp entry (Some aux) rnd (w_vm w) in
  Some (inr (entry, rsp, set_vm v w)).

(** The old space: destroyed with its last reference. *)
Definition leave_space (old : Z) (w : world) : world :=
  if get (w_sched w) old F_refcount <=? 1 then drop_space old w
  else on_sched (fun s => put old F_refcount (u32 (get s old F_refcount - 1)) s) w.

(** The current process gets the space [nas] and a fresh heap. *)
Definition swap_image (cur nas entry ustack : Z) (w : world) : world :=
  let old := get (w_sched w) cur F_aspace in
  let w := on_sched (put cur F_aspace nas) w in
  let w := on_sched (put cur F_ctx_cr3 (pml4_phys (w_sp w nas))) w in
  let w := set_vm (vmspace_switch (w_sp w nas) (w_vm w)) w in
  let w := leave_space old w in
  let w := on_sched (put cur F_brk_start USER_HEAP_BASE) w in
  let w := on_sched (put cur F_brk_cur USER_HEAP_BASE) w in
  let w := on_sched (put cur F_mmap_cur USER_MMAP_BASE) w in
  let w := on_sched (put cur F_user_entry entry) w in
  let w := on_sched (put cur F_user_stack ustack) w in
  on_sched (signal_reset_handlers cur) w.

(** [mf]: the fuel of vfs_resolve; [nas]: what kcalloc returns; [rnd]: 16 bytes of
    krandom_bytes. The result, the trap frame and the world. *)
Definition proc_execve (mf : nat) (nas : Z) (rnd : list Z) (tf : trapframe) (upath uargv uenvp : Z) (w : world)
    : option (Z * trapframe * world) :=
  let cur := current_process (w_sched w) in
  if negb (is_user_process (w_sched w)) then Some (- ENOSYS, tf, w) else
  match user_string (Z.to_nat PATH_BUF) (- ENAMETOOLONG) upath 0 (w_us w) with
  | inl e => Some (e, tf, w)
  | inr raw =>
      path ← canonical (cwd_of cur (w_sched w)) raw PATH_BUF;
      match path with
      | inl _ => Some (- ENAMETOOLONG, tf, w)
      | inr path =>
          match user_strings uargv (w_us w), user_strings uenvp (w_us w) with
          | inl e, _ => Some (e, tf, w)
          | _, inl e => Some (e, tf, w)
          | inr argv, inr envp =>
              vn ← vfs_resolve ops_of mf path (fsy (w_fd w));
              if vn =? 0 then Some (- ENOENT, tf, w) else
              r ← new_image vn nas argv envp rnd w;
              match r with
              | inl (e, w) => Some (e, tf, w)
              | inr (entry, ustack, w) => Some (0, tf_exec entry ustack tf, swap_image cur nas entry ustack w)
              end
          end
      end
  end.

(** * spawn *)

(** The members of the thread [t] that make it a user process. *)
Definition make_user (t as_ root entry ustack : Z) (s : sched) : sched :=
  let s := put t F_is_user 1 s in
  let s := put t F_aspace as_ s in
  let s := put t F_user_entry entry s in
  let s := put t F_user_stack ustack s in
  let s := put t F_ctx_cr3 root s in
  let s := put t F_brk_start USER_HEAP_BASE s in
  let s := put t F_brk_cur USER_HEAP_BASE s in
  let s := put t F_mmap_cur USER_MMAP_BASE s in
  let s := put t (F_cwd 0) slash s in
  put t (F_cwd 1) 0 s.

(** [user_trampoline]: its address; [uname]: the characters of "user". *)
Definition spawn_user_core (mf : nat) (tx : text) (user_trampoline : Z) (uname : Z -> Z) (as_ pcb stack : Z)
    (rnd : list Z) (path : list Z) (argv : list (list Z)) (w : world) : option (Z * world) :=
  vn ← vfs_resolve ops_of mf path (fsy (w_fd w));
  if vn =? 0 then Some (- ENOENT, w) else
  r ← new_image vn as_ argv [] rnd w;
  match r with
  | inl (e, w) => Some (e, w)
  | inr (entry, ustack, w) =>
      let w := on_sched preempt_disable w in
      let '(t, s) := thread_create tx pcb stack user_trampoline 0 (Some uname) PRIO_DEFAULT (w_sched w) in
      let w := set_sched s w in
      if t =? 0 then
        s ← preempt_enable (w_sched w);
        Some (- ENOMEM, drop_space as_ (set_sched s w))
      else
        let s := make_user t as_ (pml4_phys (w_sp w as_)) entry ustack (w_sched w) in
        let pid := get s t F_pid in
        s ← preempt_enable s;
        Some (pid, set_sched s w)
  end.

Definition proc_spawn_user (mf : nat) (tx : text) (tramp : Z) (uname : Z -> Z) (as_ pcb stack : Z) (rnd path : list Z)
    (w : world) : option (Z * world) :=
  spawn_user_core mf tx tramp uname as_ pcb stack rnd path [path] w.

(** [argv]: [None] for NULL. *)
Definition proc_spawn_user_argv (mf : nat) (tx : text) (tramp : Z) (uname : Z -> Z) (as_ pcb stack : Z)
    (rnd path : list Z) (argv : option (list (list Z))) (w : world) : option (Z * world) :=
  spawn_user_core mf tx tramp uname as_ pcb stack rnd path (default [] argv) w.
End Exec.

(** * waitpid *)

(** The walk along the list of all processes: the zombie found and whether there
    are children; the walk stops at the zombie. *)
Fixpoint wait_scan (fuel : nat) (pid cur p : Z) (have : bool) (s : sched) : option (Z * bool) :=
  match fuel with
  | O => None
  | S fuel =>
      if p =? 0 then Some (0, have) else
      let next := get s p F_all_next in
      if (get s p F_is_user =? 0) || negb (get s p F_parent_pid =? get s cur F_pid) || (p =? cur)
      then wait_scan fuel pid cur next have s
      else if (0 <? pid) && negb (s32 (get s p F_pid) =? pid) then wait_scan fuel pid cur next have s
      else if (get s p F_state =? PROC_ZOMBIE) && (get s p F_reaped =? 0) then Some (p, true)
      else wait_scan fuel pid cur next true s
  end.

(** A result with the status stored, or the caller sleeps on its queue; when it is
    current again it leaves the queue and the round is run again. *)
Inductive wait_round := W_done (r : Z) (status : option Z) (s : sched) | W_sleeps (s : sched).

Definition sys_waitpid_round (fuel : nat) (pid : Z) (s : sched) : option wait_round :=
  let cur := current_process s in
  '(zombie, have) ← wait_scan fuel pid cur (all_head (pr s)) false s;
  if truth zombie then
    Some (W_done (s32 (get s zombie F_pid)) (Some (get s zombie F_exit_code)) (proc_reap zombie s))
  else if negb have then Some (W_done (- ECHILD) None s)
  else s' ← sched_wait_enter (cur, WQ_child) 0 s; Some (W_sleeps s').

Definition sys_waitpid_leave (fuel : nat) (cur : Z) (s : sched) : option sched :=
  '(_, s) ← sched_wait_leave fuel (cur, WQ_child) cur s; Some s.

(** The end of a process that faulted in user mode; the parameters are those of
    thread_exit. *)
Definition proc_user_fault (key_table : Z) (run_dtor : Z -> Z -> sched -> sched) (vfs_close_all : Z -> sched -> sched)
    (fuel : nat) (bucket : Z) (us : uspace) (s : sched) : option (sched * uspace) :=
  thread_exit key_table run_dtor vfs_close_all fuel bucket us (128 + SIGSEGV) s.

(** * proc_create *)

Definition MIN_STACK_SIZE : Z := 2048.
Definition DEFAULT_STACK_SIZE : Z := 8192.

(** [proc_exit]: its address; [default_name]: the characters of "kernel_thread";
    [name]: [None] for NULL. The thread stays an embryo, on no run queue. *)
Definition proc_create (proc_exit : Z) (default_name : Z -> Z) (pcb stack entry stack_size : Z) (name : option (Z -> Z))
    (s : sched) : Z * sched :=
  let stack_size := if stack_size <? MIN_STACK_SIZE then DEFAULT_STACK_SIZE else stack_size in
  let '(t, p) := proc_table_alloc pcb (pr s) in
  let s := with_pr p s in
  if t =? 0 then (0, s) else
  let s := zero_pcb t s in
  if stack =? 0 then (0, on_pr (proc_table_free t) s) else
  let '(pid, pb) := pid_alloc (pids s) in
  let s := with_pids pb s in
  if pid =? 0 then (0, on_pr (proc_table_free t) (on_pr (with_freed stack) s)) else
  let s := put t F_pid pid s in
  let s := put t F_state PROC_EMBRYO s in
  let s := put t F_priority PRIO_DEFAULT s in
  let s := put t F_kernel_stack stack s in
  let s := put t F_kernel_stack_size stack_size s in
  let s := copy_name 31 0 t (default default_name name) s in
  let top := Z.land (u64 (stack + stack_size)) (not64 0xF) - 8 in
  let s := put top F_return_slot proc_exit s in
  let s := put t F_ctx_rsp top s in
  let s := put t F_ctx_rip entry s in
  let s := put t F_ctx_rflags 0x202 s in
  let s := put t F_ctx_cr3 (cr3 s) s in
  let s := put t F_ctx_cs 0x08 s in
  let s := put t F_ctx_dseg 0x10 s in
  let s := put t F_creation_time (timer_ticks s) s in
  let s := put t F_cpu_time_used 0 s in
  let s := put t F_time_slice SCHED_QUANTUM s in
  let s := put t F_ticks_left SCHED_QUANTUM s in
  let cur := current_process s in
  let s := if truth cur then on_pr (proc_add_child cur t) (put t F_parent_pid (get s cur F_pid) s)
           else put t F_parent_pid 0 s in
  (t, on_pr (all_list_add t) s).
