(* ===== verification/ForkOk.v ===== *)
(** fork: the child's PCB field by field, what the parent and the other threads
    see, the invariant of the scheduler, and what a failing fork leaves behind. *)

From stdpp Require Import base numbers option list gmap.
From Stdlib Require Import ZArith Lia.
From S2P Require Import Prelude Pmm Vm Vmspace Pid Proc Sched SchedInv Signal WaitQ Thread Buf Tmpfs Vfs Fd Elf User UserProc.

(** * Stores to one PCB *)

(** The fields of a PCB that linking a child leaves alone, in every PCB. *)
Definition plain (f : field) : bool :=
  match f with
  | F_state | F_run_next | F_all_next | F_all_prev | F_sibling_next | F_children_head | F_children_tail
  | F_child_count | F_parent_pid => false
  | _ => true
  end.

Lemma get_on_pr g s p f : get (on_pr g s) p f = ps (g (pr s)) p f.
Proof. done. Qed.

Lemma all_list_add_get c p q f : f <> F_all_next -> f <> F_all_prev -> ps (all_list_add c p) q f = ps p q f.
Proof.
  intros H1 H2. unfold all_list_add. destruct (c =? 0); [done|]. cbn [on_ps with_ps with_all ps all_tail].
  destruct (truth _); cbn; by rewrite !upd_field by (by intros ->).
Qed.

Lemma add_child_get parent c p q f :
  f <> F_parent_pid -> f <> F_sibling_next -> f <> F_children_head -> f <> F_children_tail -> f <> F_child_count ->
  ps (proc_add_child parent c p) q f = ps p q f.
Proof.
  intros. unfold proc_add_child. destruct (_ || _); [done|]. cbn [on_ps with_ps ps].
  destruct (truth _); cbn; by rewrite !upd_field by (by intros ->).
Qed.

Lemma add_child_parent parent c p : parent <> 0 -> c <> 0 -> ps (proc_add_child parent c p) c F_parent_pid = ps p parent F_pid.
Proof.
  intros H1 H2. unfold proc_add_child. replace (parent =? 0) with false by lia. replace (c =? 0) with false by lia. cbn [orb].
  cbn [on_ps with_ps ps]. destruct (truth _); cbn; rewrite !(upd_field _ _ _ _ _ F_parent_pid) by done; apply upd_eq.
Qed.

Lemma link_child_get c parent s q f : plain f = true -> get (link_child c parent s) q f = get s q f.
Proof.
  intros H. unfold link_child, sched_admit. rewrite make_ready_get by (by intros ->).
  rewrite get_on_pr, add_child_get by (by intros ->). cbn [on_pr with_pr pr].
  rewrite all_list_add_get by (by intros ->). apply get_put_field. by intros ->.
Qed.

Lemma link_child_self c parent s : c <> 0 -> parent <> 0 ->
  get (link_child c parent s) c F_state = PROC_READY /\ get (link_child c parent s) c F_parent_pid = get s parent F_pid.
Proof.
  intros Hc Hp. unfold link_child, sched_admit. rewrite make_ready_state, Z.eqb_refl. split; [done|].
  rewrite make_ready_get by done. rewrite get_on_pr, add_child_parent by done. cbn [on_pr with_pr pr].
  rewrite all_list_add_get by done. by apply get_put_field.
Qed.

Lemma link_child_current c parent s : current_process (link_child c parent s) = current_process s.
Proof. unfold link_child, sched_admit, make_ready.
  match goal with |- current_process (with_need 1 (runq_push ?t ?x)) = _ => exact (proj1 (proj2 (runq_push_frame t x))) end. Qed.

(** ** Inherited fields *)

Lemma inherit_other c parent f s q g : (q, g) <> (c, f) -> get (inherit_field c parent f s) q g = get s q g.
Proof. apply get_put_ne. Qed.

Lemma inherit_self c parent f s : get (inherit_field c parent f s) c f = get s parent f.
Proof. apply get_put_eq. Qed.

Lemma inherit_range_other c parent (G : Z -> field) lo hi s q f : (forall i, lo <= i < hi -> (q, f) <> (c, G i)) ->
  get (for_range lo hi (fun i => inherit_field c parent (G i)) s) q f = get s q f.
Proof.
  intros H. apply (for_range_inv (fun x => get x q f = get s q f)); [done|].
  intros i t Hi <-. apply inherit_other. by apply H.
Qed.

Lemma inherit_range_self c parent (G : Z -> field) lo hi s i : lo <= hi -> parent <> c -> lo <= i < hi ->
  get (for_range lo hi (fun i => inherit_field c parent (G i)) s) c (G i) = get s parent (G i).
Proof.
  intros Hle Hne Hi.
  assert (K : (forall k, lo <= k < hi -> get (for_range lo hi (fun i => inherit_field c parent (G i)) s) c (G k) = get s parent (G k)) /\
    forall f, get (for_range lo hi (fun i => inherit_field c parent (G i)) s) parent f = get s parent f); [|by apply K].
  apply (for_range_ind (fun j t => (forall k, lo <= k < j -> get t c (G k) = get s parent (G k)) /\
    forall f, get t parent f = get s parent f)); [done|split; [intros; lia|done]|].
  intros j t Hj [K1 K2]. split.
  - intros k Hk. destruct (decide (G k = G j)) as [->|N]; [by rewrite inherit_self|].
    rewrite inherit_other by congruence. apply K1. assert (k <> j) by (by intros ->). lia.
  - intros f. rewrite inherit_other by congruence. apply K2.
Qed.

(** The fields inherit_tail copies. *)
Definition tail_field (f : field) : bool :=
  match f with
  | F_brk_start | F_brk_cur | F_mmap_cur | F_pgid | F_sid | F_sig_blocked | F_sig_ignore | F_sig_restorer => true
  | F_cwd i => (0 <=? i) && (i <? 256)
  | F_sig_handler i => (0 <=? i) && (i <? 32)
  | _ => false
  end.

Lemma inherit_tail_other c parent s q f : q <> c \/ tail_field f = false -> get (inherit_tail c parent s) q f = get s q f.
Proof.
  intros H. unfold inherit_tail. repeat rewrite inherit_other by (intros [= -> ->]; by destruct H).
  rewrite inherit_range_other by (intros i Hi [= -> ->]; destruct H as [|H]; [done|]; cbn in H; lia).
  repeat rewrite inherit_other by (intros [= -> ->]; by destruct H).
  rewrite inherit_range_other by (intros i Hi [= -> ->]; destruct H as [|H]; [done|]; cbn in H; lia).
  by repeat rewrite inherit_other by (intros [= -> ->]; by destruct H).
Qed.

Lemma inherit_tail_self c parent s f : parent <> c -> tail_field f = true -> get (inherit_tail c parent s) c f = get s parent f.
Proof.
  intros Hne H. unfold inherit_tail.
  destruct f; try discriminate H; cbn in H;
    repeat first [ rewrite inherit_other by congruence | rewrite inherit_self
                 | rewrite (inherit_range_self c parent F_sig_handler) by lia || congruence
                 | rewrite (inherit_range_self c parent F_cwd) by lia || congruence
                 | rewrite inherit_range_other by (intros; congruence) ]; done.
Qed.

(** * The new PCB *)

Definition is_name (f : field) : bool := match f with F_name _ => true | _ => false end.

Lemma copy_name_get n i t nm s q f : q <> t \/ is_name f = false -> get (copy_name n i t nm s) q f = get s q f.
Proof.
  intros H. assert (P : forall j v x, get (put t (F_name j) v x) q f = get x q f).
  { intros j v x. apply get_put_ne. intros [= -> ->]. by destruct H. }
  revert i s. induction n as [|n IH]; intros i s; cbn [copy_name]; [apply P|].
  destruct (truth _); [|apply P]. by rewrite IH.
Qed.

(** The members embryo sets; the others are zero. *)
Definition embryo_value (stk pid now : Z) (f : field) : Z :=
  match f with
  | F_pid => pid
  | F_state => PROC_EMBRYO
  | F_priority => PRIO_DEFAULT
  | F_kernel_stack => stk
  | F_kernel_stack_size => DEFAULT_THREAD_STACK
  | F_stack_canary => 1
  | F_time_slice | F_ticks_left => SCHED_QUANTUM
  | F_creation_time => now
  | _ => 0
  end.

Lemma embryo_other c stk pid parent s q f : q <> c -> get (embryo c stk pid parent s) q f = get s q f.
Proof. intros H. unfold embryo. rewrite copy_name_get by by left. by rewrite !get_put_ptr. Qed.

Lemma embryo_self c stk pid parent s f : is_name f = false -> (forall g, is_name g = false -> g <> F_canary_word -> get s c g = 0) ->
  f <> F_canary_word -> get (embryo c stk pid parent s) c f = embryo_value stk pid (timer_ticks s) f.
Proof.
  intros Hn H0 Hc. unfold embryo. rewrite copy_name_get by by right.
  destruct f; try discriminate Hn; try done; cbn [embryo_value];
    repeat first [rewrite get_put_eq | rewrite get_put_field by done]; by first [done|apply H0].
Qed.

(** What stores to PCBs do not touch. *)
Definition statics (s : sched) := (pids s, current_process s, timer_ticks s, (all_head (pr s), process_table (pr s), freed (pr s))).

Lemma copy_name_statics n i t nm s : statics (copy_name n i t nm s) = statics s.
Proof.
  revert i s. induction n as [|n IH]; intros i s; cbn [copy_name]; [done|]. destruct (truth _); [|done]. by rewrite IH.
Qed.

Lemma embryo_statics c stk pid parent s : statics (embryo c stk pid parent s) = statics s.
Proof. unfold embryo. by rewrite copy_name_statics. Qed.

Lemma inherit_range_statics c parent (G : Z -> field) lo hi s :
  statics (for_range lo hi (fun i => inherit_field c parent (G i)) s) = statics s.
Proof. by apply (for_range_inv (fun x => statics x = statics s)). Qed.

Lemma inherit_tail_statics c parent s : statics (inherit_tail c parent s) = statics s.
Proof.
  unfold inherit_tail. set (s1 := for_range 0 256 _ _). set (s2 := for_range 0 32 _ _).
  transitivity (statics s2); [done|]. unfold s2. rewrite inherit_range_statics. transitivity (statics s1); [done|].
  unfold s1. by rewrite inherit_range_statics.
Qed.

Record child_made (pcb stk : Z) (w : world) (c : Z) (w1 : world) : Prop := {
  cm_c : c = pcb /\ c <> 0;
  cm_pid : get (w_sched w1) c F_pid <> 0 /\ pid_alloc (pids (w_sched w)) = (get (w_sched w1) c F_pid, pids (w_sched w1));
  cm_self f : is_name f = false -> f <> F_canary_word ->
    get (w_sched w1) c f = embryo_value stk (get (w_sched w1) c F_pid) (timer_ticks (w_sched w)) f;
  cm_other q f : q <> c -> f <> F_canary_word -> get (w_sched w1) q f = get (w_sched w) q f;
  cm_current : current_process (w_sched w1) = current_process (w_sched w);
  cm_nofd : fd_table_of (w_fd w1) c = 0;
  cm_fd q : q <> c -> fd_table_of (w_fd w1) q = fd_table_of (w_fd w) q;
  cm_files : files (w_fd w1) = files (w_fd w) /\ tables (w_fd w1) = tables (w_fd w) /\ rcs (w_fd w1) = rcs (w_fd w);
  cm_rest : w_vm w1 = w_vm w /\ w_sp w1 = w_sp w /\ w_tf w1 = w_tf w /\ w_us w1 = w_us w
}.

Lemma proc_table_alloc_ps p s : ps (proc_table_alloc p s).2 = ps s.
Proof. unfold proc_table_alloc. destruct (p =? 0); [done|]. by destruct (if _ : bool then _ else _). Qed.

Lemma new_child_made pcb stk parent w c w1 : new_child pcb stk parent w = inr (c, w1) -> child_made pcb stk w c w1.
Proof.
  unfold new_child. pose proof (proc_table_alloc_result pcb (pr (w_sched w))) as Hr.
  pose proof (proc_table_alloc_ps pcb (pr (w_sched w))) as Hp.
  destruct (proc_table_alloc pcb (pr (w_sched w))) as [c0 p]. cbn [fst snd] in Hr, Hp.
  destruct (Z.eqb_spec c0 0) as [|Hc]; [done|]. destruct (stk =? 0); [done|].
  match goal with |- context [pid_alloc (pids (w_sched ?x))] => set (w0 := x) end.
  destruct (pid_alloc (pids (w_sched w0))) as [pid pb] eqn:Ep. destruct (Z.eqb_spec pid 0) as [|Hpid]; [done|].
  intros [= <- <-]. set (s1 := w_sched (on_sched (with_pids pb) w0)).
  assert (E1 : forall q f, f <> F_canary_word -> get s1 q f = if q =? c0 then 0 else get (w_sched w) q f).
  { intros q f Hf. change (get s1 q f) with (get (put stk F_canary_word STACK_CANARY_MAGIC (zero_pcb c0 (with_pr p (w_sched w)))) q f).
    rewrite get_put_field by done. change (get (zero_pcb c0 (with_pr p (w_sched w))) q f) with (if q =? c0 then 0 else ps p q f).
    by rewrite Hp. }
  pose proof (embryo_statics c0 stk pid parent s1) as St. set (w1 := on_sched (embryo c0 stk pid parent) _).
  assert (Ew : w_sched w1 = embryo c0 stk pid parent s1) by done.
  assert (Z0 : forall g, is_name g = false -> g <> F_canary_word -> get s1 c0 g = 0) by (intros g _ Hg; rewrite E1 by done; by rewrite Z.eqb_refl).
  assert (Epid : get (w_sched w1) c0 F_pid = pid) by (by rewrite Ew, embryo_self).
  injection St as Sp Sc Stk _ _ _.
  split; [by destruct Hr as [?| ->]| | | | | | |done|done].
  - rewrite Epid. split; [done|]. change (pids (w_sched w0)) with (pids (w_sched w)) in Ep. by rewrite Ep, Ew, Sp.
  - intros f Hf Hf'. rewrite Epid, Ew. by rewrite embryo_self.
  - intros q f Hq Hf. rewrite Ew, embryo_other, E1 by done. zif; [lia|done].
  - by rewrite Ew, Sc.
  - change (fd_table_of (w_fd w1) c0) with (if c0 =? c0 then 0 else fd_table_of (w_fd w) c0). by rewrite Z.eqb_refl.
  - intros q Hq. change (fd_table_of (w_fd w1) q) with (if q =? c0 then 0 else fd_table_of (w_fd w) q). zif; [lia|done].
Qed.

(** * fork *)

Lemma inherit_fork_other c parent cas s q f : q <> c -> get (inherit_fork c parent cas s) q f = get s q f.
Proof.
  intros H. unfold inherit_fork. rewrite inherit_tail_other by by left.
  by rewrite !inherit_other, !get_put_ptr by congruence.
Qed.

Definition fork_value (s : sched) (parent c cas : Z) (f : field) : Z :=
  match f with
  | F_is_user => 1
  | F_aspace => cas
  | F_user_entry | F_user_stack => get s parent f
  | _ => if tail_field f then get s parent f else get s c f
  end.

Lemma inherit_fork_self c parent cas s f : parent <> c -> get (inherit_fork c parent cas s) c f = fork_value s parent c cas f.
Proof.
  intros H. unfold inherit_fork. destruct (tail_field f) eqn:Ht.
  - rewrite inherit_tail_self by done. rewrite !inherit_other, !get_put_ptr by congruence.
    unfold fork_value. rewrite Ht. by destruct f.
  - rewrite inherit_tail_other by by right. unfold fork_value. rewrite Ht.
    destruct f; try done; repeat first [rewrite inherit_self | rewrite inherit_other by congruence | rewrite get_put_eq | rewrite get_put_ne by congruence]; done.
Qed.

Definition context_value (fork_ret root frame : Z) (f : field) (v : Z) : Z :=
  match f with
  | F_ctx_rsp => frame | F_ctx_rip => fork_ret | F_ctx_rflags => 2 | F_ctx_cr3 => root | F_ctx_cs => 8 | F_ctx_dseg => 16
  | _ => v
  end.

Lemma child_context_other fork_ret c root s q f : q <> c -> get (child_context fork_ret c root s) q f = get s q f.
Proof. intros H. unfold child_context. by rewrite !get_put_ptr. Qed.

Lemma child_context_self fork_ret c root s f :
  get (child_context fork_ret c root s) c f = context_value fork_ret root (child_frame c s) f (get s c f).
Proof. unfold child_context. destruct f; repeat first [rewrite get_put_eq | rewrite get_put_field by done]; done. Qed.

(** The members of a PCB whose values fork decides; the name, the links of lists
    and the words of other objects are not among them. *)
Definition member (f : field) : bool :=
  match f with
  | F_name _ | F_canary_word | F_return_slot | F_refcount => false
  | F_state | F_parent_pid => true
  | _ => plain f
  end.

(** The trap frame at the top of the stack at [stk]. *)
Definition stack_frame (stk : Z) : Z := Z.land (u64 (stk + DEFAULT_THREAD_STACK)) (not64 0xF) - TRAPFRAME_SIZE.

(** The child's PCB. *)
Definition forked (s : sched) (parent stk pid cas root fork_ret : Z) (f : field) : Z :=
  match f with
  | F_state => PROC_READY
  | F_parent_pid => get s parent F_pid
  | F_is_user => 1
  | F_aspace => cas
  | F_user_entry | F_user_stack => get s parent f
  | F_ctx_rsp => stack_frame stk
  | F_ctx_rip => fork_ret | F_ctx_rflags => 2 | F_ctx_cr3 => root | F_ctx_cs => 8 | F_ctx_dseg => 16
  | _ => if tail_field f then get s parent f else embryo_value stk pid (timer_ticks s) f
  end.

Lemma share_all_kern l x x' : share_all l x = Some x' -> kern x' = kern x /\ tables x' = tables x /\ fd_table_of x' = fd_table_of x.
Proof.
  revert x. induction l as [|f l IH]; intros x; cbn [share_all]; [by intros [= <-]|].
  intros (x1 & E & H)%bind_Some. destruct (IH _ H) as (-> & -> & ->). destruct (truth f); [|by injection E as <-].
  unfold file_get in E. apply bind_Some in E as (fl & _ & [= <-]). done.
Qed.

(** The child's table: the parent's slots in a table of its own; none when the
    parent has none, and none when there is no memory for it. *)
Lemma vfs_fork_fds_child new d p x x' : vfs_fork_fds new d p x = Some x' ->
  kern x' = kern x /\ (forall q, q <> d -> fd_table_of x' q = fd_table_of x q) /\
  if (fd_table_of x p =? 0) || (new =? 0) then x' = x
  else fd_table_of x' d = new /\ tables x' !! new = tables x !! fd_table_of x p.
Proof.
  unfold vfs_fork_fds. destruct (fd_table_of x p =? 0); [by intros [= <-]|]. destruct (new =? 0); [by intros [= <-]|].
  intros (l & Hl & H)%bind_Some. apply bind_Some in H as (x1 & H & [= <-]).
  apply share_all_kern in H as (K & T & F). cbn [orb set_proc kern fd_table_of tables].
  split_and!; [done| |by rewrite Z.eqb_refl|].
  - intros q Hq. zif; [lia|]. by rewrite F.
  - rewrite T. cbn. by rewrite lookup_insert_eq, Hl.
Qed.

(** The state of the scheduler after a fork, from the one with the new PCB. *)
Definition fork_sched (fork_ret c parent cas root : Z) (s : sched) : sched :=
  link_child c parent (child_context fork_ret c root (inherit_fork c parent cas s)).

Lemma fork_sched_other fork_ret c parent cas root s q f : q <> c -> plain f = true ->
  get (fork_sched fork_ret c parent cas root s) q f = get s q f.
Proof. intros Hq Hf. unfold fork_sched. by rewrite link_child_get, child_context_other, inherit_fork_other. Qed.

Lemma fork_sched_self fork_ret c parent cas root s f : c <> 0 -> parent <> 0 -> parent <> c -> member f = true ->
  let v := context_value fork_ret root (child_frame c s) f (fork_value s parent c cas f) in
  get (fork_sched fork_ret c parent cas root s) c f =
    match f with F_state => PROC_READY | F_parent_pid => get s parent F_pid | _ => v end.
Proof.
  intros Hc Hp Hne Hm v. unfold fork_sched.
  set (s1 := inherit_fork c parent cas s). set (s2 := child_context fork_ret c root s1).
  destruct (link_child_self c parent s2 Hc Hp) as [L1 L2].
  assert (Ev : get s2 c f = v).
  { unfold s2, v. rewrite child_context_self. unfold s1 at 2. rewrite inherit_fork_self by done. f_equal.
    unfold child_frame. unfold s1. by rewrite !inherit_fork_self by done. }
  assert (Hpl : plain f = true -> get (link_child c parent s2) c f = v) by (intros; by rewrite link_child_get).
  destruct f; try discriminate Hm; try (by apply Hpl); [|exact L1].
  rewrite L2. unfold s2, s1. by rewrite child_context_other, inherit_fork_other.
Qed.

Lemma fork_sched_current fork_ret c parent cas root s : current_process (fork_sched fork_ret c parent cas root s) = current_process s.
Proof.
  unfold fork_sched. rewrite link_child_current.
  pose proof (inherit_tail_statics c parent (inherit_field c parent F_user_stack (inherit_field c parent F_user_entry
    (put c F_aspace cas (put c F_is_user 1 s))))) as H.
  exact (f_equal (fun t => t.1.1.2) H).
Qed.

(** What a successful fork did. *)
Record fork_done (fork_ret cas pcb stk new : Z) (tf : trapframe) (w : world) (r : Z) (w' : world) : Prop := {
  fd_pid : get (w_sched w') pcb F_pid = r;
  fd_child f : member f = true -> get (w_sched w') pcb f =
    forked (w_sched w) (current_process (w_sched w)) stk r cas (pml4_phys (w_sp w' cas)) fork_ret f;
  fd_others q f : q <> pcb -> plain f = true -> f <> F_canary_word -> f <> F_refcount ->
    get (w_sched w') q f = get (w_sched w) q f;
  fd_current : current_process (w_sched w') = current_process (w_sched w);
  fd_frame : w_tf w' !! stack_frame stk = Some (tf_set_rax 0 tf);
  fd_user : w_us w' = w_us w;
  fd_space : vmspace_fork (w_sp w (get (w_sched w) (current_process (w_sched w)) F_aspace)) (w_vm w) = (0, w_sp w' cas, w_vm w');
  fd_files : let t := fd_table_of (w_fd w) (current_process (w_sched w)) in
    if (t =? 0) || (new =? 0) then fd_table_of (w_fd w') pcb = 0
    else fd_table_of (w_fd w') pcb = new /\ tables (w_fd w') !! new = tables (w_fd w) !! t
}.

Lemma forked_value fork_ret pcb parent cas root stk pid s s1 f : member f = true -> parent <> pcb ->
  (forall g, is_name g = false -> g <> F_canary_word -> get s1 pcb g = embryo_value stk pid (timer_ticks s) g) ->
  (forall g, g <> F_canary_word -> g <> F_refcount -> get s1 parent g = get s parent g) ->
  match f with
  | F_state => PROC_READY
  | F_parent_pid => get s1 parent F_pid
  | _ => context_value fork_ret root (stack_frame stk) f (fork_value s1 parent pcb cas f)
  end = forked s parent stk pid cas root fork_ret f.
Proof.
  intros Hm Hne Self Par. destruct f; try discriminate Hm; cbn [context_value fork_value forked tail_field];
    try case_match; first [done | by apply Par | by apply Self].
Qed.

Lemma child_frame_made pcb stk w c w1 : child_made pcb stk w c w1 -> child_frame c (w_sched w1) = stack_frame stk.
Proof.
  intros [_ _ Self _ _ _ _ _ _]. unfold child_frame, stack_frame. by rewrite (Self F_kernel_stack), (Self F_kernel_stack_size).
Qed.

Lemma error_result (e : Z) (x w' : world) r : Some (- e, x) = Some (r, w') -> 0 < e -> 0 <= r -> False.
Proof. intros [= <- _]. lia. Qed.

Lemma fork_success fork_ret cas pcb stk new tf w r w' :
  proc_fork fork_ret cas pcb stk new tf w = Some (r, w') -> 0 <= r -> pcb <> current_process (w_sched w) ->
  fork_done fork_ret cas pcb stk new tf w r w'.
Proof.
  intros H Hr Hne. unfold proc_fork in H. set (parent := current_process (w_sched w)) in *.
  assert (Hpc : parent <> pcb) by congruence.
  destruct (is_user_process (w_sched w)) eqn:Eu; cbn [negb] in H; [|by apply error_result in H].
  destruct (cas =? 0); [by apply error_result in H|].
  destruct (vmspace_fork _ _) as [[rc a] v] eqn:Ev. set (w0 := set_space cas a (set_vm v w)) in *.
  destruct (Z.eqb_spec rc 0) as [->|]; cbn [negb] in H; [|by apply error_result in H].
  destruct (new_child pcb stk parent w0) as [we|[c w1]] eqn:En; [by apply error_result in H|].
  pose proof (child_frame_made _ _ _ _ _ (new_child_made _ _ _ _ _ _ En)) as Ef.
  destruct (new_child_made _ _ _ _ _ _ En) as [(-> & Hc) (Hp1 & Hp2) Self Oth Cur Nofd Fd (F1 & F2 & F3) (V1 & V2 & V3 & V4)].
  apply bind_Some in H as (x & Hx & H). destruct (vfs_fork_fds_child _ _ _ _ _ Hx) as (K & T1 & T2).
  assert (Hpar : parent <> 0).
  { intros E. unfold is_user_process in Eu. fold parent in Eu. rewrite E in Eu. done. }
  set (s1 := w_sched w1) in *. injection H as <- <-.
  set (w' := on_sched (link_child pcb parent) _).
  assert (Es : w_sched w' = fork_sched fork_ret pcb parent cas (pml4_phys (w_sp w' cas)) s1) by (unfold s1, w_sched; rewrite <- K; done).
  assert (Ea : w_sp w' cas = a) by (change (w_sp w') with (w_sp w1); rewrite V2; cbn; by rewrite Z.eqb_refl).
  assert (G0 : forall q f, f <> F_refcount -> get (w_sched w0) q f = get (w_sched w) q f).
  { intros q f Hf. by apply get_put_field. }
  assert (Gp : forall q f, q <> pcb -> f <> F_canary_word -> f <> F_refcount -> get s1 q f = get (w_sched w) q f).
  { intros q f Hq H1 H2. unfold s1. by rewrite Oth, G0. }
  assert (Epid : get (w_sched w') pcb F_pid = get s1 pcb F_pid).
  { rewrite Es. by rewrite (fork_sched_self fork_ret pcb parent cas _ s1 F_pid) by (done || congruence). }
  fold w'. rewrite Epid. split.
  - done.
  - intros f Hf. rewrite Es, fork_sched_self by (done || congruence).
    cbv zeta. rewrite Ef. apply forked_value; [done|exact Hpc|intros; by apply Self|]. intros g H1 H2. by apply Gp.
  - intros q f Hq Hf H1 H2. rewrite Es, fork_sched_other by done. by apply Gp.
  - rewrite Es, fork_sched_current. exact Cur.
  - assert (Ec : child_frame pcb (w_sched (on_sched (inherit_fork pcb parent cas) (set_fd x w1))) = stack_frame stk).
    { unfold child_frame. change (w_sched (on_sched (inherit_fork pcb parent cas) (set_fd x w1))) with (inherit_fork pcb parent cas (kern x)).
      rewrite K. rewrite !inherit_fork_self by (done || congruence). exact Ef. }
    change (w_tf w') with (<[child_frame pcb (w_sched (on_sched (inherit_fork pcb parent cas) (set_fd x w1))) := tf_set_rax 0 tf]> (w_tf w1)).
    rewrite Ec. by rewrite lookup_insert_eq.
  - change (w_us w') with (w_us w1). by rewrite V4.
  - rewrite Ea. change (w_vm w') with (w_vm w1). by rewrite V1.
  - change (fd_table_of (w_fd w') pcb) with (fd_table_of x pcb). change (tables (w_fd w')) with (tables x).
    rewrite (Fd parent) in T2 by congruence. rewrite F2 in T2. cbn zeta. fold parent.
    change (fd_table_of (w_fd w0) parent) with (fd_table_of (w_fd w) parent) in T2. change (tables (w_fd w0)) with (tables (w_fd w)) in T2.
    destruct (_ || _); [|done]. by rewrite T2.
Qed.

(** * The invariant of the scheduler *)

Lemma inherit_same c parent f s : sched_field f = false -> same s (inherit_field c parent f s).
Proof. intros H. by apply same_put_r. Qed.

Lemma inherit_range_same c parent (G : Z -> field) lo hi s : (forall i, sched_field (G i) = false) ->
  same s (for_range lo hi (fun i => inherit_field c parent (G i)) s).
Proof.
  intros H. apply (for_range_inv (same s)); [done|]. intros j t _ Ht. etransitivity; [exact Ht|]. by apply inherit_same.
Qed.

Lemma inherit_tail_same c parent s : same s (inherit_tail c parent s).
Proof.
  unfold inherit_tail. etransitivity; [|by apply inherit_same]. etransitivity; [|by apply inherit_range_same].
  etransitivity; [|by apply inherit_same]. etransitivity; [|by apply inherit_same]. etransitivity; [|by apply inherit_same].
  etransitivity; [|by apply inherit_same]. etransitivity; [|by apply inherit_range_same].
  etransitivity; [|by apply inherit_same]. etransitivity; [|by apply inherit_same]. by apply inherit_same.
Qed.

Lemma inherit_fork_same c parent cas s : same s (inherit_fork c parent cas s).
Proof. unfold inherit_fork, inherit_field at 1 2. etransitivity; [|apply inherit_tail_same]. same. Qed.

Lemma child_context_same fork_ret c root s : same s (child_context fork_ret c root s).
Proof. unfold child_context. same. Qed.

Lemma embryo_fresh c stk pid parent s0 s : fresh c s0 s -> fresh c s0 (embryo c stk pid parent s).
Proof. intros H. unfold embryo. fresh_steps; first [done|unfold PRIO_DEFAULT; lia]. Qed.

(** A child, or the PCB given back. *)
Lemma new_child_sched pcb stk parent w : 
  match new_child pcb stk parent w with
  | inl w' => same (w_sched w) (w_sched w') \/ fresh pcb (w_sched w) (w_sched w')
  | inr (c, w') => c = pcb /\ fresh pcb (w_sched w) (w_sched w')
  end.
Proof.
  unfold new_child. pose proof (proc_table_alloc_result pcb (pr (w_sched w))) as Hr.
  pose proof (same_proc_table_alloc pcb (pr (w_sched w))) as Hp.
  destruct (proc_table_alloc pcb (pr (w_sched w))) as [c p]. cbn [fst snd] in Hr, Hp.
  assert (S1 : same (w_sched w) (with_pr p (w_sched w))) by by constructor.
  destruct (Z.eqb_spec c 0) as [|Hc]; [by left|]. destruct Hr as [?| ->]; [done|].
  assert (F0 : fresh pcb (w_sched w) (zero_pcb pcb (with_pr p (w_sched w)))).
  { destruct (fresh_zero pcb (with_pr p (w_sched w))) as [G H T I C St Pr]. destruct S1 as [Sg Sh Stt Si Sc].
    split; [|congruence..|done|done]. intros u f Hu Hf. rewrite G by done. by apply Sg. }
  destruct (stk =? 0); [right; eapply (fresh_same _ _ _ _); [|exact F0]; cbn; same|].
  destruct (pid_alloc _) as [pid pb]. destruct (pid =? 0).
  - right. eapply fresh_same; [|exact F0]. cbn. same.
  - split; [done|]. apply embryo_fresh. eapply fresh_same; [|exact F0]. cbn. same.
Qed.

(** * A fork that fails *)

Lemma table_given_back pcb p p1 p' : proc_table_alloc pcb p = (pcb, p1) -> pcb <> 0 -> in_table pcb p = false ->
  0 <= process_count p < 2 ^ 32 -> process_table p' = process_table p1 -> process_count p' = process_count p1 ->
  (forall i, process_table (proc_table_free pcb p') i = process_table p i) /\
  process_count (proc_table_free pcb p') = process_count p /\ ps (proc_table_free pcb p') = ps p' /\
  freed (proc_table_free pcb p') = pcb :: freed p'.
Proof.
  intros Ha Hp Hin Hc Ht Hn. unfold proc_table_alloc in Ha. replace (pcb =? 0) with false in Ha by lia.
  destruct (if process_count p <? MAX_PROCESSES then _ else None) as [i|] eqn:Ei; [|by injection Ha as ? _].
  injection Ha as <-. cbn [process_table process_count with_table] in Ht, Hn.
  destruct (process_count p <? MAX_PROCESSES); [|done]. apply find_slot_Some in Ei as (Hi & H0 & _).
  assert (Hnone : forall k, 0 <= k < MAX_PROCESSES -> process_table p k <> pcb).
  { intros k Hk E. unfold in_table in Hin. destruct (find_slot _ _ _) eqn:Ef; [done|].
    apply (find_slot_None _ _ _ k) in Ef; [cbn in Ef; lia|]. unfold MAX_PROCESSES in *. lia. }
  unfold proc_table_free. replace (pcb =? 0) with false by lia. rewrite Ht, Hn.
  destruct (find_slot _ _ (fun j => tset (process_table p) i pcb j =? pcb)) as [j|] eqn:Ej.
  - apply find_slot_Some in Ej as (Hj & Ej & _). unfold tset in Ej. destruct (Z.eqb_spec j i) as [->|].
    + cbn [with_freed with_table process_table process_count ps freed]. split_and!; [|rewrite u32_idem_sub, Z.add_simpl_r; by apply u32_small|done|done].
      intros k. unfold tset. destruct (Z.eqb_spec k i) as [->|]; [lia|done].
    + exfalso. apply (Hnone j); [unfold MAX_PROCESSES in *; lia|lia].
  - exfalso. apply (find_slot_None _ _ _ i) in Ej; [|unfold MAX_PROCESSES in *; lia]. unfold tset in Ej. rewrite Z.eqb_refl in Ej. lia.
Qed.

(** Nothing of what a process sees has changed. *)
Record unforked (pcb : Z) (w w' : world) : Prop := {
  uf_get q f : q <> pcb -> f <> F_canary_word -> f <> F_refcount -> get (w_sched w') q f = get (w_sched w) q f;
  uf_current : current_process (w_sched w') = current_process (w_sched w);
  uf_table i : process_table (pr (w_sched w')) i = process_table (pr (w_sched w)) i;
  uf_count : process_count (pr (w_sched w')) = process_count (pr (w_sched w));
  uf_pids q : taken (pids (w_sched w')) q = taken (pids (w_sched w)) q;
  uf_fd q : q <> pcb -> fd_table_of (w_fd w') q = fd_table_of (w_fd w) q;
  uf_files : files (w_fd w') = files (w_fd w) /\ tables (w_fd w') = tables (w_fd w) /\ rcs (w_fd w') = rcs (w_fd w);
  uf_rest : w_tf w' = w_tf w /\ w_us w' = w_us w
}.

Lemma unforked_refl pcb w : unforked pcb w w.
Proof. by split. Qed.

Lemma unforked_trans pcb w1 w2 w3 : unforked pcb w1 w2 -> unforked pcb w2 w3 -> unforked pcb w1 w3.
Proof.
  intros [A1 A2 A3 A4 A5 A6 (A7 & A8 & A9) (A10 & A11)] [B1 B2 B3 B4 B5 B6 (B7 & B8 & B9) (B10 & B11)].
  split; [intros; by rewrite B1, A1|congruence|intros; by rewrite B3|congruence|intros; by rewrite B5|intros; by rewrite B6, A6| |];
    split_and!; congruence.
Qed.

Lemma unforked_space pcb p a v w : unforked pcb w (set_space p a (set_vm v w)).
Proof. split; try done. intros q f _ _ H. by apply get_put_field. Qed.

Lemma unforked_kfree pcb p w : unforked pcb w (kfree p w).
Proof. by split. Qed.

Lemma unforked_drop pcb p w : unforked pcb w (drop_space p w).
Proof.
  unfold drop_space. destruct (vmspace_destroy _ _) as [a v]. eapply unforked_trans; [apply (unforked_space pcb p a v)|apply unforked_kfree].
Qed.

Lemma new_child_failed pcb stk parent w w' : new_child pcb stk parent w = inl w' ->
  in_table pcb (pr (w_sched w)) = false -> 0 <= process_count (pr (w_sched w)) < 2 ^ 32 -> pid_wf (pids (w_sched w)) ->
  unforked pcb w w'.
Proof.
  intros H Hin Hc Hw. unfold new_child in H. destruct (proc_table_alloc pcb (pr (w_sched w))) as [c p] eqn:Ea.
  assert (Hps : ps p = ps (pr (w_sched w))) by (pose proof (proc_table_alloc_ps pcb (pr (w_sched w))) as E; by rewrite Ea in E).
  destruct (Z.eqb_spec c 0) as [->|Hc0].
  { injection H as <-. split; try done.
    - intros q f _ _ _. change (ps p q f = ps (pr (w_sched w)) q f). by rewrite Hps.
    - unfold proc_table_alloc in Ea. destruct (Z.eqb_spec pcb 0); [by injection Ea as <-|].
      destruct (if _ : bool then _ else _); [congruence|]. by injection Ea as <-.
    - unfold proc_table_alloc in Ea. destruct (Z.eqb_spec pcb 0); [by injection Ea as <-|].
      destruct (if _ : bool then _ else _); [congruence|]. by injection Ea as <-. }
  assert (c = pcb) as ->. { destruct (proc_table_alloc_result pcb (pr (w_sched w))) as [E|E]; rewrite Ea in E; cbn in E; congruence. }
  set (w0 := set_fd _ _) in H.
  assert (G0 : forall q f, q <> pcb -> get (w_sched w0) q f = get (w_sched w) q f).
  { intros q f Hq. change (get (w_sched w0) q f) with (if q =? pcb then 0 else ps p q f). rewrite Hps. zif; [lia|done]. }
  destruct (stk =? 0).
  - injection H as <-. destruct (table_given_back pcb (pr (w_sched w)) p (pr (w_sched w0)) Ea Hc0 Hin Hc) as (T1 & T2 & T3 & _); [done|done|].
    split; try done.
    + intros q f Hq _ _. change (ps (proc_table_free pcb (pr (w_sched w0))) q f = get (w_sched w) q f). rewrite T3. by apply G0.
    + intros q Hq. cbn. zif; [lia|done].
  - destruct (pid_alloc _) as [pid pb] eqn:Ep. assert (Ep' : pid_alloc (pids (w_sched w)) = (pid, pb)) by exact Ep.
    clear Ep. unfold pid_alloc in Ep'.
    destruct (pid_scan_spec (Z.to_nat (Pid.PID_MAX - 2)) (pids (w_sched w)) Hw) as [(s' & E & _ & Ht & _)|(x & s' & k & E & Hx & _)];
      rewrite E in Ep'; injection Ep' as <- <-; cbn [Z.eqb] in H; [|replace (x =? 0) with false in H by lia; done].
    injection H as <-. match goal with |- unforked _ _ (on_sched _ ?x) => set (w1 := x) end.
    destruct (table_given_back pcb (pr (w_sched w)) p (pr (w_sched w1)) Ea Hc0 Hin Hc) as (T1 & T2 & T3 & _); [done|done|].
    split; try done.
    + intros q f Hq H1 _. change (ps (proc_table_free pcb (pr (w_sched w1))) q f = get (w_sched w) q f). rewrite T3.
      change (get (put stk F_canary_word STACK_CANARY_MAGIC (w_sched w0)) q f = get (w_sched w) q f).
      rewrite get_put_field by done. by apply G0.
    + intros q Hq. cbn. zif; [lia|done].
Qed.

(** * The theorem *)

Lemma share_all_some l x : (forall f, f ∈ l -> f <> 0 -> is_Some (files x !! f)) -> is_Some (share_all l x).
Proof.
  revert x. induction l as [|f l IH]; intros x H; cbn [share_all]; [by eexists|].
  destruct (truth f) eqn:Ef.
  - destruct (H f) as [fl Hfl]; [by left|intros ->; done|]. unfold file_get. rewrite Hfl. cbn [mbind option_bind]. apply IH.
    intros g Hg Hg0. cbn. destruct (decide (g = f)) as [->|N]; [rewrite lookup_insert_eq; by eexists|].
    rewrite lookup_insert_ne by done. apply H; [by right|done].
  - apply IH. intros g Hg. apply H. by right.
Qed.

(** The descriptors of [p] are there. *)
Definition fds_of_ok (x : fds) (p : Z) : Prop := fd_table_of x p <> 0 ->
  exists l, tables x !! fd_table_of x p = Some l /\ forall f, f ∈ l -> f <> 0 -> is_Some (files x !! f).

Lemma vfs_fork_fds_some new d p x : fds_of_ok x p -> is_Some (vfs_fork_fds new d p x).
Proof.
  intros H. unfold vfs_fork_fds. destruct (Z.eqb_spec (fd_table_of x p) 0) as [|Hn]; [by eexists|].
  destruct (new =? 0); [by eexists|]. destruct (H Hn) as (l & -> & Hl). cbn [mbind option_bind].
  destruct (share_all_some l (set_tables (<[new := l]> (tables x)) x)) as [y ->]; [done|]. by eexists.
Qed.

Lemma runq_push_pids t s : pids (runq_push t s) = pids s.
Proof. unfold runq_push. by destruct (truth _). Qed.

Lemma make_ready_pids t s : pids (make_ready t s) = pids s.
Proof. unfold make_ready. set (x := put t F_state PROC_READY s). transitivity (pids (runq_push t x)); [done|]. by rewrite runq_push_pids. Qed.

Lemma child_context_pids fork_ret c root s : pids (child_context fork_ret c root s) = pids s.
Proof. done. Qed.

Lemma fork_sched_pids fork_ret c parent cas root s : pids (fork_sched fork_ret c parent cas root s) = pids s.
Proof.
  unfold fork_sched, link_child, sched_admit. rewrite make_ready_pids. generalize (child_context_pids fork_ret c root (inherit_fork c parent cas s)).
  intros E. etransitivity; [exact E|].
  exact (f_equal (fun t => t.1.1.1) (inherit_tail_statics c parent (inherit_field c parent F_user_stack (inherit_field c parent F_user_entry
    (put c F_aspace cas (put c F_is_user 1 s)))))).
Qed.

Lemma link_child_ok c parent s0 s : sched_ok s0 -> c <> 0 -> get s0 c F_state <> PROC_READY -> get s0 c F_state <> PROC_RUNNING ->
  fresh c s0 s -> sched_ok (link_child c parent s).
Proof.
  intros H Hc Hr Hu F. unfold link_child. set (s1 := on_pr _ _).
  assert (F1 : fresh c s0 s1) by (eapply fresh_same; [|exact F]; unfold s1; same).
  apply make_ready_ok; [by eapply fresh_ok|done|by rewrite (fr_state _ _ _ F1)..].
Qed.

Lemma space_same p a v w : same (w_sched w) (w_sched (set_space p a (set_vm v w))).
Proof. change (same (w_sched w) (put p F_refcount (as_refcount a) (w_sched w))). same. Qed.

Lemma kfree_same p w : same (w_sched w) (w_sched (kfree p w)).
Proof. change (same (w_sched w) (on_pr (with_freed p) (w_sched w))). generalize (w_sched w). intros s. same. Qed.

Lemma drop_space_same p w : same (w_sched w) (w_sched (drop_space p w)).
Proof.
  unfold drop_space. destruct (vmspace_destroy _ _) as [a v].
  etransitivity; [apply (space_same p a v)|]. apply kfree_same.
Qed.

Lemma fresh_after t s0 s1 s2 : same s0 s1 -> fresh t s1 s2 -> fresh t s0 s2.
Proof.
  intros S [G H T I C St Pr]. split; [|by rewrite H; apply S|by rewrite T; apply S|by rewrite I; apply S|by rewrite C; apply S|done|done].
  intros u f Hu Hf. rewrite G by done. by apply (same_get _ _ _ _ S).
Qed.

(** The bookkeeping of a fork that ends well. *)
Lemma fork_admitted fork_ret cas pcb stk parent w0 c w1 : new_child pcb stk parent w0 = inr (c, w1) ->
  sched_ok (w_sched w0) -> get (w_sched w0) pcb F_state <> PROC_READY -> get (w_sched w0) pcb F_state <> PROC_RUNNING ->
  forall root, sched_ok (fork_sched fork_ret c parent cas root (w_sched w1)).
Proof.
  intros E H Hr Hu root. pose proof (new_child_sched pcb stk parent w0) as F. rewrite E in F. destruct F as [-> F].
  destruct (new_child_made _ _ _ _ _ _ E) as [(_ & Hc) _ _ _ _ _ _ _ _].
  unfold fork_sched. eapply link_child_ok; [exact H|done..|].
  eapply fresh_same; [|exact F]. etransitivity; [apply inherit_fork_same|apply child_context_same].
Qed.

(** A PCB that kmalloc returned: not a thread the scheduler knows. *)
Record fresh_pcb (pcb : Z) (s : sched) : Prop := {
  fp_current : pcb <> current_process s;
  fp_ready : get s pcb F_state <> PROC_READY;
  fp_running : get s pcb F_state <> PROC_RUNNING;
  fp_table : in_table pcb (pr s) = false
}.

(** The PID of the child: it was free, and it is the only one taken since. *)
Definition new_pid (r : Z) (s s' : sched) : Prop :=
  2 <= r < Pid.PID_MAX /\ taken (pids s) r = false /\ forall q, taken (pids s') q = bool_decide (q = r) || taken (pids s) q.

(** A PID that was free, and the bitmap after it was taken. *)
Lemma made_pid pcb stk w c w1 : child_made pcb stk w c w1 -> pid_wf (pids (w_sched w)) ->
  new_pid (get (w_sched w1) c F_pid) (w_sched w) (w_sched w1).
Proof.
  intros [_ (P1 & P2) _ _ _ _ _ _ _] Hw. pose proof (pid_alloc_fresh (pids (w_sched w)) Hw) as F.
  rewrite P2 in F. destruct F as (_ & _ & F). by apply F.
Qed.

(** A fork fails with nothing changed, or gets as far as the child. *)
Lemma fork_cases fork_ret cas pcb stk new tf w r w' : pid_wf (pids (w_sched w)) -> fresh_pcb pcb (w_sched w) ->
  0 <= process_count (pr (w_sched w)) < 2 ^ 32 -> proc_fork fork_ret cas pcb stk new tf w = Some (r, w') ->
  (r < 0 /\ unforked pcb w w' /\ (same (w_sched w) (w_sched w') \/ fresh pcb (w_sched w) (w_sched w'))) \/
  exists w0 w1, same (w_sched w) (w_sched w0) /\ pids (w_sched w0) = pids (w_sched w) /\
    new_child pcb stk (current_process (w_sched w)) w0 = inr (pcb, w1) /\ r = get (w_sched w1) pcb F_pid /\
    w_sched w' = fork_sched fork_ret pcb (current_process (w_sched w)) cas (pml4_phys (w_sp w1 cas)) (w_sched w1).
Proof.
  intros Hw Fp Hc H. unfold proc_fork in H.
  destruct (is_user_process (w_sched w)); cbn [negb] in H; [|left; injection H as <- <-; split_and!; [done|apply unforked_refl|by left]].
  destruct (cas =? 0); [left; injection H as <- <-; split_and!; [done|apply unforked_refl|by left]|].
  destruct (vmspace_fork _ _) as [[rc a] v].
  pose proof (unforked_space pcb cas a v w) as U0. pose proof (space_same cas a v w) as S0.
  assert (P0 : pids (w_sched (set_space cas a (set_vm v w))) = pids (w_sched w)) by done.
  assert (I0 : in_table pcb (pr (w_sched (set_space cas a (set_vm v w)))) = false) by apply Fp.
  assert (C0 : 0 <= process_count (pr (w_sched (set_space cas a (set_vm v w)))) < 2 ^ 32) by exact Hc.
  generalize dependent (set_space cas a (set_vm v w)). intros w0 H U0 S0 P0 I0 C0.
  destruct (rc =? 0); cbn [negb] in H.
  2:{ left. injection H as <- <-. split_and!; [done|eapply unforked_trans; [exact U0|apply unforked_kfree]|].
      left. etransitivity; [exact S0|apply kfree_same]. }
  pose proof (new_child_sched pcb stk (current_process (w_sched w)) w0) as Ns.
  destruct (new_child _ _ _ _) as [we|[c w1]] eqn:En.
  - left. injection H as <- <-. split_and!; [done| |].
    + eapply unforked_trans; [exact U0|]. eapply unforked_trans; [|apply unforked_drop].
      eapply new_child_failed; [exact En|exact I0|exact C0|by rewrite P0].
    + destruct Ns as [Ns|Ns]; [left|right].
      * etransitivity; [exact S0|]. etransitivity; [exact Ns|apply drop_space_same].
      * eapply fresh_same; [apply drop_space_same|]. by eapply fresh_after.
  - right. destruct Ns as [-> _]. apply bind_Some in H as (x & Hx & H). destruct (vfs_fork_fds_child _ _ _ _ _ Hx) as (K & _).
    injection H as E1 E2. exists w0, w1.
    assert (Es : w_sched w' = fork_sched fork_ret pcb (current_process (w_sched w)) cas (pml4_phys (w_sp w1 cas)) (w_sched w1))
      by (rewrite <- E2; unfold w_sched; rewrite <- K; done).
    split_and!; [done|done|done| |exact Es].
    rewrite <- E1, E2, Es. unfold fork_sched. rewrite link_child_get, child_context_self by done. cbn [context_value].
    rewrite inherit_fork_self; [done|]. intros E. by destruct (fp_current _ _ Fp).
Qed.

Lemma fork_total fork_ret cas pcb stk new tf w : fds_of_ok (w_fd w) (current_process (w_sched w)) ->
  pcb <> current_process (w_sched w) -> is_Some (proc_fork fork_ret cas pcb stk new tf w).
Proof.
  intros Hf Hne. unfold proc_fork. destruct (is_user_process _); cbn [negb]; [|by eexists]. destruct (cas =? 0); [by eexists|].
  destruct (vmspace_fork _ _) as [[rc a] v]. destruct (rc =? 0); cbn [negb]; [|by eexists].
  destruct (new_child _ _ _ _) as [we|[c w1]] eqn:En; [by eexists|].
  destruct (new_child_made _ _ _ _ _ _ En) as [(-> & _) _ _ _ _ _ Fd (F1 & F2 & _) _].
  destruct (vfs_fork_fds_some new pcb (current_process (w_sched w)) (w_fd w1)) as [x Hx].
  { unfold fds_of_ok. rewrite Fd, F1, F2 by congruence. exact Hf. }
  rewrite Hx. by eexists.
Qed.


(** ** Witness: thread 3000 forks *)

Definition demo_parent : sched :=
  put 3000 F_fs_base 0x7000 (put 3000 F_user_entry 0x400000 (put 3000 F_is_user 1 (put 3000 F_aspace 500 demo_runs_3000))).
Definition demo_world : world :=
  World (Fds demo_fs ∅ ∅ (fun _ => 0) (fun _ => 0) ∅ ∅ demo_parent) demo_vm (fun _ => demo_as) ∅ (Umem (fun _ => 0) (fun _ => false)).
Definition demo_tf : trapframe := Trapframe 0 0 0 0 0 0 0 0 0 0 0 0 0 0 57 57 0x400010 0x23 0x202 0x7fff0000 0x1b.

Lemma demo_parent_ok : sched_ok demo_parent.
Proof.
  apply sched_ok_same with demo_runs_3000; [unfold demo_parent; same|].
  destruct demo_two_ok as [q H]. unfold demo_runs_3000, demo_run.
  destruct (schedule demo_two) as [s|] eqn:E; [|by exists q]. by eapply schedule_ok; [apply ok_mid|].
Qed.

