(* ===== verification/ExecOk.v ===== *)
(** waitpid finds the first dead child; a failing execve leaves the caller as it
    was, and a successful one replaces its image and nothing else. *)

From stdpp Require Import base numbers option list gmap.
From Stdlib Require Import ZArith Lia.
From S2P Require Import Prelude Pmm Path Vm Vmspace VmFork Pid Proc Sched SchedInv Signal WaitQ Thread Buf Tmpfs Vfs Fd Elf User UserProc ForkOk.

(** * waitpid *)

(** [p] is a child the caller [cur] waits for; [dead]: it has exited and was not
    reaped. *)
Definition awaited (pid cur : Z) (s : sched) (p : Z) : bool :=
  negb (get s p F_is_user =? 0) && (get s p F_parent_pid =? get s cur F_pid) && negb (p =? cur)
    && ((pid <=? 0) || (s32 (get s p F_pid) =? pid)).
Definition dead (s : sched) (p : Z) : bool := (get s p F_state =? PROC_ZOMBIE) && (get s p F_reaped =? 0).

(** The first process of the list that is such a child and dead. *)
Fixpoint first_dead (pid cur : Z) (s : sched) (l : list Z) : option Z :=
  match l with
  | [] => None
  | p :: l => if awaited pid cur s p && dead s p then Some p else first_dead pid cur s l
  end.

Lemma first_dead_Some pid cur s l p : first_dead pid cur s l = Some p -> p ∈ l /\ awaited pid cur s p = true /\ dead s p = true.
Proof.
  induction l as [|q l IH]; cbn; [done|]. destruct (awaited pid cur s q && dead s q) eqn:E.
  - intros [= <-]. apply andb_true_iff in E as []. split_and!; [left|done|done].
  - intros (H1 & H2 & H3)%IH. split_and!; [by right|done|done].
Qed.

Lemma wait_scan_step fuel pid cur p have s : p <> 0 ->
  wait_scan (S fuel) pid cur p have s =
    if awaited pid cur s p then if dead s p then Some (p, true) else wait_scan fuel pid cur (get s p F_all_next) true s
    else wait_scan fuel pid cur (get s p F_all_next) have s.
Proof.
  intros Hp. cbn [wait_scan]. replace (p =? 0) with false by lia. unfold awaited, dead.
  destruct (get s p F_is_user =? 0), (get s p F_parent_pid =? get s cur F_pid), (p =? cur); cbn [negb andb orb]; try done.
  destruct (Z.leb_spec pid 0); cbn [orb]; [by replace (0 <? pid) with false by lia|].
  replace (0 <? pid) with true by lia. by destruct (s32 (get s p F_pid) =? pid).
Qed.

Lemma wait_scan_spec pid cur s l : forall fuel p have, chain (ps (pr s)) F_all_next p l -> (length l < fuel)%nat ->
  wait_scan fuel pid cur p have s =
    Some (match first_dead pid cur s l with Some z => (z, true) | None => (0, have || existsb (awaited pid cur s) l) end).
Proof.
  induction l as [|q l IH]; intros fuel p have C Hf; (destruct fuel as [|fuel]; [cbn in Hf; lia|]).
  - cbn in C. subst p. cbn. by rewrite orb_false_r.
  - destruct C as (-> & Hq & C). cbn [first_dead existsb length] in *. rewrite wait_scan_step by done.
    assert (Hf' : (length l < fuel)%nat) by lia. change (ps (pr s) q F_all_next) with (get s q F_all_next) in C.
    destruct (awaited pid cur s q); cbn [andb orb]; [|by apply IH].
    destruct (dead s q); [done|]. rewrite IH by done. by rewrite orb_true_r.
Qed.

(** ** Reaping *)

Lemma all_list_remove_get t p q f : f <> F_all_next -> f <> F_all_prev -> ps (all_list_remove t p) q f = ps p q f.
Proof.
  intros H1 H2. unfold all_list_remove. destruct (t =? 0); [done|].
  assert (U : forall a g v st, g = F_all_next \/ g = F_all_prev -> Proc.upd a g v st q f = st q f).
  { intros a g v st [-> | ->]; by apply Proc.upd_field. }
  repeat match goal with |- context [if truth ?b then _ else _] => destruct (truth b) end; cbn; rewrite !U by auto; done.
Qed.

Lemma release_aspace_get t s q f : f <> F_aspace -> f <> F_refcount -> get (release_aspace t s) q f = get s q f.
Proof.
  intros H1 H2. unfold release_aspace. destruct (truth _); [|done]. destruct (_ <=? 1).
  - change (get (put t F_aspace 0 s) q f = get s q f). by apply get_put_field.
  - by rewrite !get_put_field.
Qed.

Lemma release_aspace_pids t s : pids (release_aspace t s) = pids s.
Proof. unfold release_aspace. destruct (truth _); [|done]. by destruct (_ <=? 1). Qed.

Lemma proc_table_free_ps p s : ps (proc_table_free p s) = ps s.
Proof. unfold proc_table_free. by repeat case_match. Qed.

(** if (t->g) { kfree(t->g); t->g = 0; } *)
Lemma free_member_get t g s q f : f <> g ->
  get (if truth (get s t g) then put t g 0 (on_pr (with_freed (get s t g)) s) else s) q f = get s q f.
Proof. intros H. destruct (truth _); [|done]. by rewrite get_put_field by done. Qed.

Lemma free_member_pids t g s :
  pids (if truth (get s t g) then put t g 0 (on_pr (with_freed (get s t g)) s) else s) = pids s.
Proof. by destruct (truth _). Qed.

(** The fields reap does not look at or change in another thread. *)
Definition reap_field (f : field) : bool :=
  match f with F_all_next | F_all_prev | F_aspace | F_refcount | F_tls | F_kernel_stack | F_reaped => true | _ => false end.

Lemma reap_get t s q f : reap_field f = false -> get (reap t s) q f = get s q f.
Proof.
  intros Hf. unfold reap. set (s1 := on_pr (all_list_remove t) s). set (s2 := release_aspace t s1).
  set (s3 := if truth (get s2 t F_tls) then _ else _). set (s4 := if truth (get s3 t F_kernel_stack) then _ else _).
  assert (E1 : get s1 q f = get s q f) by (apply all_list_remove_get; by intros ->).
  assert (E2 : get s2 q f = get s1 q f) by (apply release_aspace_get; by intros ->).
  assert (E3 : get s3 q f = get s2 q f) by (apply free_member_get; by intros ->).
  assert (E4 : get s4 q f = get s3 q f) by (apply free_member_get; by intros ->).
  rewrite <- E1, <- E2, <- E3, <- E4. clearbody s4. rewrite get_on_pr. rewrite proc_table_free_ps.
  change (get (put t F_reaped 1 (with_pids (pid_free (get s4 t F_pid) (pids s4)) s4)) q f = get s4 q f).
  rewrite get_put_field by (by intros ->). done.
Qed.

Lemma reap_pids t s : pids (reap t s) = pid_free (get s t F_pid) (pids s) /\ get (reap t s) t F_reaped = 1.
Proof.
  unfold reap. set (s1 := on_pr (all_list_remove t) s). set (s2 := release_aspace t s1).
  set (s3 := if truth (get s2 t F_tls) then _ else _). set (s4 := if truth (get s3 t F_kernel_stack) then _ else _).
  assert (E1 : get s1 t F_pid = get s t F_pid) by (by apply all_list_remove_get).
  assert (E2 : get s2 t F_pid = get s1 t F_pid) by (by apply release_aspace_get).
  assert (E3 : get s3 t F_pid = get s2 t F_pid) by (by apply free_member_get).
  assert (E4 : get s4 t F_pid = get s3 t F_pid) by (by apply free_member_get).
  assert (P : pids s4 = pids s).
  { transitivity (pids s3); [apply free_member_pids|]. transitivity (pids s2); [apply free_member_pids|].
    unfold s2. by rewrite release_aspace_pids. }
  rewrite <- E1, <- E2, <- E3, <- E4, <- P. clearbody s4. split; [done|]. rewrite get_on_pr. rewrite proc_table_free_ps. apply get_put_eq.
Qed.

(** What reaping [z] leaves: its PID is free, nobody else's state changed. *)
Lemma proc_reap_effect z s : z <> 0 -> get s z F_reaped = 0 -> 2 <= get s z F_pid < Pid.PID_MAX ->
  (forall q, taken (pids (proc_reap z s)) q = negb (bool_decide (q = get s z F_pid)) && taken (pids s) q) /\
  get (proc_reap z s) z F_reaped = 1 /\ (forall q f, reap_field f = false -> get (proc_reap z s) q f = get s q f).
Proof.
  intros Hz Hr Hp. unfold proc_reap. replace (z =? 0) with false by lia. rewrite Hr. change (truth 0) with false. cbn [truth].
  destruct (reap_pids z s) as [-> ->]. split_and!; [|done|].
  - intros q. by apply taken_free.
  - intros q f. apply reap_get.
Qed.


(** ** Witness: thread 3000 waits for its child 4000, which has exited with 7 *)

Lemma quiet_state_ok t v s : sched_ok s -> get s t F_state <> PROC_READY -> get s t F_state <> PROC_RUNNING ->
  v <> PROC_READY -> v <> PROC_RUNNING -> sched_ok (put t F_state v s).
Proof.
  intros [q [[Q1 Q2 Q3 Q4 Q5 Q6] R C I0 I]] H1 H2 H3 H4. exists q.
  assert (G : forall u, get (put t F_state v s) u F_state = if decide (u = t) then v else get s u F_state).
  { intros u. case_decide as E; [subst; apply get_put_eq|apply get_put_ne; congruence]. }
  assert (P : forall u, prio_of (put t F_state v s) u = prio_of s u) by (intros u; unfold prio_of; by rewrite get_put_field).
  split; [split|..]; try done.
  - intros p Hp. eapply chain_ext; [|by apply Q1]. intros u _. by apply get_put_field.
  - intros p u Hp Hu. rewrite P, G. destruct (Q4 p u Hp Hu) as (? & ? & ?). case_decide; [subst; congruence|done].
  - intros u. rewrite P, G. case_decide; [done|]. apply Q5.
  - intros u. rewrite get_put_field by done. apply Q6.
  - intros u. rewrite G. cbn [current_process]. change (current_process (put t F_state v s)) with (current_process s).
    case_decide as E; [|apply R]. subst. split; [done|]. intros ->. destruct H2. by apply R.
  - intros Hi. change (idle_thread (put t F_state v s)) with (idle_thread s) in *. rewrite G. case_decide as E; [|by apply I].
    exfalso. apply H1. rewrite <- E. by apply I.
Qed.

Definition demo_dead : sched :=
  on_pr (all_list_add 4000) (put 4000 F_exit_code 7 (put 4000 F_pid 3 (put 4000 F_parent_pid 2 (put 4000 F_is_user 1
    (put 4000 F_state PROC_ZOMBIE demo_parent))))).

Lemma demo_dead_ok : sched_ok demo_dead.
Proof.
  apply sched_ok_same with (put 4000 F_state PROC_ZOMBIE demo_parent); [unfold demo_dead; generalize (put 4000 F_state PROC_ZOMBIE demo_parent); intros s; same|].
  apply quiet_state_ok; [exact demo_parent_ok|vm_compute; discriminate..].
Qed.


(** * execve *)

(** ** The strings from user memory *)

Lemma user_string_ok n e addr j u l : user_string n e addr j u = inr l -> chars l /\ len l + 1 <= Z.of_nat n.
Proof.
  revert j l. induction n as [|n IH]; intros j l; cbn [user_string]; [done|]. destruct (negb _); [done|].
  destruct (Z.eqb_spec (u8 (um u (u64 (addr + j)))) 0) as [|Hne]; [intros [= <-]; split; [by apply Forall_nil|change (len (@nil Z)) with 0; lia]|].
  destruct (user_string n e addr (j + 1) u) as [|l'] eqn:E; [done|]. intros [= <-]. destruct (IH _ _ E) as [H1 H2].
  pose proof (u8_range (um u (u64 (addr + j)))). rewrite len_cons. split; [apply Forall_cons; split; [lia|done]|lia].
Qed.

Lemma user_vector_size n vec i used u l : user_vector n vec i used u = inr l -> used <= U_ARGSTORE -> used + strings_size l <= U_ARGSTORE.
Proof.
  revert i used l. induction n as [|n IH]; intros i used l; cbn [user_vector]; [intros [= <-]; cbn; lia|].
  destruct (negb _); [done|]. destruct (_ =? 0); [intros [= <-]; cbn; lia|].
  destruct (user_string _ _ _ _ u) as [|x] eqn:Ex; [done|]. destruct (user_vector n vec _ _ u) as [|l'] eqn:E; [done|]. intros [= <-] Hu.
  apply user_string_ok in Ex as [_ Hx]. rewrite Z2Nat.id in Hx by lia. specialize (IH _ _ _ E ltac:(lia)).
  unfold strings_size in *. cbn [foldr]. lia.
Qed.

Lemma ztake_strings_size n l : strings_size (ztake n l) <= strings_size l.
Proof.
  unfold ztake, strings_size. revert l. induction (Z.to_nat n) as [|k IH]; intros [|x l]; cbn; try lia.
  - pose proof (strings_size_nonneg l). unfold strings_size in *. pose proof (len_nonneg x). lia.
  - specialize (IH l). lia.
Qed.

Lemma user_strings_size vec u l : user_strings vec u = inr l -> strings_size (ztake U_ARGC_MAX l) <= 1024.
Proof.
  unfold user_strings. destruct (vec =? 0); [intros [= <-]; by vm_compute|]. intros H%user_vector_size; [|done].
  pose proof (ztake_strings_size U_ARGC_MAX l). unfold U_ARGSTORE in H. lia.
Qed.

Lemma cstr_chars n m i : (forall k, 0 <= m k < 256) -> chars (cstr n m i).
Proof. intros H. revert i. induction n as [|n IH]; intros i; cbn [cstr]; [by apply Forall_nil|].
  specialize (H i) as Hi. destruct (Z.eqb_spec (m i) 0); [by apply Forall_nil|]. apply Forall_cons. split; [lia|apply IH]. Qed.

Lemma canonical_total cwd path n : 2 <= n -> chars cwd -> chars path -> is_Some (canonical cwd path n).
Proof.
  intros Hn Hc Hp. unfold canonical. pose proof (canonicalize_result (Some cwd) path (fun _ => 0) n Hn Hp ltac:(intros l [= <-]; done)) as H.
  assert (X : exists rc o, path_canonicalize (Some cwd) (Some path) (Some (fun _ => 0)) n = Some (rc, o)).
  { destruct (Path.canonical n (Some cwd) path); destruct H as (o & E & _); eexists _, _; exact E. }
  destruct X as (rc & o & ->). by eexists.
Qed.

(** ** The page tables *)

(** Every space of before translates as before, and no page of data has changed. *)
Definition spaces_kept (s : vm) (own : Z -> option place) (s' : vm) : Prop :=
  (forall root va, is_space own root -> user_va va -> translate (phys s') root va = translate (phys s) root va) /\
  (forall f x, data_frame s own f -> f <= x < f + 4096 -> phys s' x = phys s x).

Lemma spaces_kept_phys s own s1 s2 : spaces_kept s own s1 -> phys s2 = phys s1 -> spaces_kept s own s2.
Proof. intros [H1 H2] E. by split; intros; rewrite E; eauto. Qed.

Lemma decref_phys f s : phys (page_decref f s).2 = phys s.
Proof. unfold page_decref. destruct (refcount s) as [r|]; [|done]. destruct (_ <=? _); [done|]. by destruct (0 <? r (pfn f)); destruct (_ =? 0). Qed.

Lemma free_frame_phys f s : phys (free_frame f s) = phys s.
Proof. done. Qed.

Lemma free_level_phys level p s : phys (free_level level p s) = phys s.
Proof.
  revert p s. induction level as [|n IH]; intros p s; cbn [free_level]; rewrite free_frame_phys.
  - apply (for_range_inv (fun t => phys t = phys s)); [done|]. intros i t _ <-. destruct (negb _); [done|apply decref_phys].
  - apply (for_range_inv (fun t => phys t = phys s)); [done|]. intros i t _ <-. destruct (negb _); [done|apply IH].
Qed.

Lemma vmspace_destroy_phys a s : phys (vmspace_destroy a s).2 = phys s.
Proof.
  unfold vmspace_destroy. destruct (_ =? 0); [done|]. cbn [snd]. rewrite free_frame_phys.
  apply (for_range_inv (fun t => phys t = phys s)); [done|]. intros i t _ <-. destruct (has _ _); [apply free_level_phys|done].
Qed.

(** A space apart from all others: 0 is no frame. *)
Lemma not_zero_space s own root : sound s own -> is_space own root -> root <> 0.
Proof. intros S Hr ->. destruct (o_frame _ _ (proj1 (sd_ok _ _ S)) _ _ Hr) as [[? _] _]. lia. Qed.

Lemma alters_kept s own s' : sound s own -> alters 0 s own s' -> spaces_kept s own s'.
Proof.
  intros S A. split; [|by apply A]. intros root va Hr Hv. apply (alters_translate 0 s own s' S A root va Hr Hv). by eapply not_zero_space.
Qed.

(** What vmspace_create and the loader leave. *)
Lemma loaded_kept s own c s1 own1 s2 own2 img : sound s own -> own c = None -> grows 0 c s own s1 own1 ->
  loaded s1 own1 c s2 own2 img -> spaces_kept s own s2.
Proof.
  intros S Hc G L. destruct (alters_kept s own s1 S (gr_alters _ _ _ _ _ _ G)) as [K1 K2]. split.
  - intros root va Hr Hv. rewrite (ld_others _ _ _ _ _ _ L root va); [by apply K1|by apply G| |done]. intros ->. unfold is_space in Hr. congruence.
  - intros f x Hf Hx. rewrite (ld_data _ _ _ _ _ _ L f x); [by apply (K2 f)|by eapply grows_data|done].
Qed.

Lemma fresh_empty s c : (forall j, 0 <= j < 256 -> entry (phys s) c j = 0) -> empty_space s c.
Proof.
  intros Z0 va Hva%low_user. unfold translate. cbn [tab mbind option_bind]. unfold tab_next at 3.
  rewrite (Z0 (ix 0 va)) by (pose proof (ix_range 0 va); unfold user_va in Hva; lia). done.
Qed.

(** ** The new image *)

(** A vnode is a file, or every read of it fails. *)
Definition readable (rd : Z -> Z -> option (Z * list Z)) : Prop :=
  (exists content, FileOf rd content) \/ (exists e, 0 < e /\ forall n off, rd n off = Some (- e, [])).

Lemma build_image_ok rd a s own : readable rd -> vm_ok s own -> is_space own (pml4_phys a) -> empty_space s (pml4_phys a) ->
  exists rc out s', build_user_image rd a s = Some (rc, out, s') /\ exists own' img, loaded s own (pml4_phys a) s' own' img.
Proof.
  intros R V Hr He. pose proof (loaded_start s own _ V He) as L0. unfold build_user_image. destruct R as [[content HF]|(e & He0 & HR)].
  - destruct (elf_load_total rd content a s) as (rc & out & s1 & E). rewrite E. cbn [mbind option_bind].
    assert (L : exists own' img, loaded s own (pml4_phys a) s1 own' img).
    { destruct (elf_load_loaded rd content s own a rc out s1 V Hr He E) as [(_ & _ & o & i & L)|(_ & o & en & au & _ & L & _)]; by eexists _, _. }
    destruct (negb (rc =? 0)); [by eexists _, _, _|]. destruct (stack_pages _ a _ s1) as [rc2 s2] eqn:ES. destruct L as (o & i & L).
    destruct (stack_pages_ok 16 s own (pml4_phys a) s1 o i a (USTACK_TOP - USTACK_SIZE) rc2 s2 Hr L eq_refl) as (o2 & i2 & L2);
      [by vm_compute|by vm_compute|exact ES|]. exists rc2, out, s2. split; [reflexivity|]. by exists o2, i2.
  - unfold elf_load. rewrite HR. cbn [mbind option_bind]. replace (- e =? sizeof_ehdr) with false by (unfold sizeof_ehdr; lia). cbn [negb].
    eexists _, _, _. split; [done|]. by eexists _, _.
Qed.

(** What making an image leaves alone, whether it succeeds or not: everything a
    process sees, and every space but the one at [nas]. *)
Record imaged (nas : Z) (own : Z -> option place) (w w' : world) : Prop := {
  im_spaces : spaces_kept (w_vm w) own (w_vm w');
  im_seen pcb : unforked pcb w w';
  im_sp q : q <> nas -> w_sp w' q = w_sp w q;
  im_refs q : q <> nas -> get (w_sched w') q F_refcount = get (w_sched w) q F_refcount;
  im_pids : pids (w_sched w') = pids (w_sched w)
}.

Lemma spaces_kept_refl s own : spaces_kept s own s.
Proof. by split. Qed.

Lemma imaged_refl nas own w : imaged nas own w w.
Proof. split; try done. Qed.

Lemma imaged_vm nas own w v : spaces_kept (w_vm w) own v -> imaged nas own w (set_vm v w).
Proof. intros K. by split. Qed.

(** Steps after which only the space at [nas] and the page tables differ. *)
Lemma imaged_set_space nas own w w' a : imaged nas own w w' -> imaged nas own w (set_space nas a w').
Proof.
  intros [K U S R P]. split; [done| | | |done].
  - intros pcb. eapply unforked_trans; [apply U|]. exact (unforked_space pcb nas a (w_vm w') w').
  - intros q Hq. cbn. zif; [lia|]. by apply S.
  - intros q Hq. rewrite <- R by done. apply get_put_ne. congruence.
Qed.

Lemma imaged_set_vm nas own w w' v : imaged nas own w w' -> spaces_kept (w_vm w) own v -> imaged nas own w (set_vm v w').
Proof. intros [K U S R P] K2. split; [done| |done|done|done]. intros pcb. eapply unforked_trans; [apply U|]. by split. Qed.

Lemma imaged_kfree nas own w w' p : imaged nas own w w' -> imaged nas own w (kfree p w').
Proof. intros [K U S R P]. split; [done| |done|done|done]. intros pcb. eapply unforked_trans; [apply U|apply unforked_kfree]. Qed.

Lemma imaged_drop nas own w w' : imaged nas own w w' -> imaged nas own w (drop_space nas w').
Proof.
  intros I. unfold drop_space. pose proof (vmspace_destroy_phys (w_sp w' nas) (w_vm w')) as E. destruct (vmspace_destroy _ _) as [a v]. cbn [snd] in E.
  apply imaged_kfree, imaged_set_space, imaged_set_vm; [done|]. eapply spaces_kept_phys; [apply I|done].
Qed.

Lemma setup_stack_ok s0 own0 a argv envp entry aux rnd s own img : is_space own0 (pml4_phys a) -> loaded s0 own0 (pml4_phys a) s own img ->
  len rnd = 16 -> strings_size (ztake U_ARGC_MAX argv) + strings_size (ztake U_ARGC_MAX envp) <= 64000 ->
  exists own' img', loaded s0 own0 (pml4_phys a) (setup_user_stack a argv envp entry (Some aux) rnd s).2 own' img'.
Proof.
  intros Hr L Hrnd Hsz. unfold setup_user_stack. destruct (stack_layout argv envp entry (Some aux) rnd) as [[rsp ws] ps] eqn:EY.
  destruct (stack_layout_ok argv envp entry (Some aux) rnd rsp ws ps Hrnd Hsz EY) as (_ & Y2 & Y3 & _). cbn [snd].
  destruct (pokes_ok s0 own0 (pml4_phys a) Hr a ps s own img L eq_refl) as [o L2]; [|by eexists _, _].
  eapply Forall_impl; [exact Y3|]. intros w [W1 W2]. unfold USTACK_TOP, USTACK_SIZE in *. lia.
Qed.

Lemma new_image_ok ops_of vn nas argv envp rnd w own : sound (w_vm w) own ->
  readable (fun n off => vfs_read ops_of vn n off (fsy (w_fd w))) -> len rnd = 16 ->
  strings_size (ztake U_ARGC_MAX argv) + strings_size (ztake U_ARGC_MAX envp) <= 64000 ->
  exists r, new_image ops_of vn nas argv envp rnd w = Some r /\
    match r with
    | inl (e, w') => e <> 0 /\ imaged nas own w w'
    | inr (entry, rsp, w') => nas <> 0 /\ imaged nas own w w' /\ own (pml4_phys (w_sp w' nas)) = None
    end.
Proof.
  intros S0 R Hrnd Hsz. unfold new_image. destruct (Z.eqb_spec nas 0) as [|Hnas].
  { eexists. split; [done|]. split; [done|apply imaged_refl]. }
  destruct (vmspace_create (w_vm w)) as [[rc a] v] eqn:EC.
  destruct (vmspace_create_ok 0 (w_vm w) own rc a v S0 EC) as [(-> & _ & Hc0 & Hc & own1 & G & Hsp & Z0)|(-> & -> & A & _)]; cbn [Z.eqb negb].
  2:{ eexists. split; [done|]. split; [done|]. apply imaged_kfree, imaged_set_space, imaged_vm. by apply alters_kept. }
  set (w1 := set_space nas a (set_vm v w)). assert (I1 : imaged nas own w w1).
  { apply imaged_set_space, imaged_vm, alters_kept; [done|apply G]. }
  assert (Ea : w_sp w1 nas = a) by (cbn; by rewrite Z.eqb_refl). unfold exec_image. rewrite Ea.
  change (fsy (w_fd w1)) with (fsy (w_fd w)). change (w_vm w1) with v.
  destruct (build_image_ok _ a v own1 R (sd_ok _ _ (gr_sound _ _ _ _ _ _ G)) Hsp (fresh_empty _ _ Z0)) as (rc & out & s1 & E & own2 & img & L).
  rewrite E. cbn [mbind option_bind]. destruct (default (0, Aux 0 0 0 0) out) as [entry aux].
  pose proof (loaded_kept _ _ _ _ _ _ _ _ S0 Hc0 G L) as K1. cbn [mbind option_bind].
  destruct (Z.eqb_spec rc 0) as [->|Hrc]; cbn [negb].
  2:{ eexists. split; [done|]. split; [done|]. apply imaged_drop. by apply imaged_set_vm. }
  change (w_sp (set_vm s1 w1) nas) with (w_sp w1 nas). rewrite Ea. change (w_vm (set_vm s1 w1)) with s1.
  destruct (setup_stack_ok v own1 a argv envp entry aux rnd s1 own2 img Hsp L Hrnd Hsz) as (own3 & img3 & L3).
  destruct (setup_user_stack a argv envp entry (Some aux) rnd s1) as [rsp s2]. cbn [snd] in L3.
  eexists. split; [done|]. split; [done|]. split.
  - change (imaged nas own w (set_vm s2 w1)). apply imaged_set_vm; [done|]. by eapply loaded_kept.
  - change (w_sp (set_vm s2 (set_vm s1 w1)) nas) with (w_sp w1 nas). by rewrite Ea.
Qed.

(** ** The switch to the new image *)

Definition reset_field (f : field) : bool :=
  match f with F_sig_restorer => true | F_sig_handler i => (0 <=? i) && (i <? NSIG) | _ => false end.

Lemma reset_handlers_get t s q f : t <> 0 ->
  get (signal_reset_handlers t s) q f = if (q =? t) && reset_field f then 0 else get s q f.
Proof.
  intros Ht. unfold signal_reset_handlers. replace (t =? 0) with false by lia.
  assert (O : forall hi, 0 <= hi -> forall g, (q, g) <> (t, F_sig_restorer) ->
    get (for_range 0 hi (fun sig => put t (F_sig_handler sig) 0) s) q g =
      if (q =? t) && match g with F_sig_handler i => (0 <=? i) && (i <? hi) | _ => false end then 0 else get s q g).
  { intros hi Hhi g _. apply (for_range_ind (fun j x => get x q g =
      if (q =? t) && match g with F_sig_handler i => (0 <=? i) && (i <? j) | _ => false end then 0 else get s q g)); [done| |].
    - assert (N : forall i, (0 <=? i) && (i <? 0) = false) by lia. destruct g; rewrite ?N, ?andb_false_r; done.
    - intros j x Hj IH. destruct (decide ((q, g) = (t, F_sig_handler j))) as [[= -> ->]|N].
      + rewrite get_put_eq. by replace ((t =? t) && ((0 <=? j) && (j <? j + 1))) with true by lia.
      + rewrite get_put_ne, IH by done. destruct g; try done. destruct (Z.eqb_spec q t) as [->|]; [|done]. cbn [andb].
        assert (sig <> j) by congruence. by replace (sig <? j + 1) with (sig <? j) by lia. }
  destruct (decide ((q, f) = (t, F_sig_restorer))) as [[= -> ->]|N]; [rewrite get_put_eq; cbn; by rewrite Z.eqb_refl|].
  rewrite get_put_ne by done. rewrite O by done. destruct f; try done. cbn. destruct (Z.eqb_spec q t); [congruence|done].
Qed.

Lemma reset_handlers_statics t s : statics (signal_reset_handlers t s) = statics s.
Proof.
  unfold signal_reset_handlers. destruct (t =? 0); [done|].
  assert (E : statics (for_range 0 NSIG (fun sig => put t (F_sig_handler sig) 0) s) = statics s) by (by apply (for_range_inv (fun x => statics x = statics s))).
  exact E.
Qed.

(** What leaving the space at [old] does: nothing but its last reference matters. *)
Lemma leave_space_effect old w : let w' := leave_space old w in
  (forall q f, f <> F_refcount -> get (w_sched w') q f = get (w_sched w) q f) /\
  (forall q, q <> old -> w_sp w' q = w_sp w q) /\ phys (w_vm w') = phys (w_vm w) /\
  pids (w_sched w') = pids (w_sched w) /\ current_process (w_sched w') = current_process (w_sched w) /\
  (files (w_fd w'), tables (w_fd w'), rcs (w_fd w'), fd_table_of (w_fd w'), fsy (w_fd w')) =
  (files (w_fd w), tables (w_fd w), rcs (w_fd w), fd_table_of (w_fd w), fsy (w_fd w)) /\ w_tf w' = w_tf w /\ w_us w' = w_us w /\
  (if get (w_sched w) old F_refcount <=? 1 then pml4_phys (w_sp w' old) = 0 /\ freed (pr (w_sched w')) = old :: freed (pr (w_sched w))
   else w_sp w' old = w_sp w old /\ get (w_sched w') old F_refcount = u32 (get (w_sched w) old F_refcount - 1)).
Proof.
  cbv zeta. unfold leave_space. destruct (_ <=? 1).
  - unfold drop_space. pose proof (vmspace_destroy_phys (w_sp w old) (w_vm w)) as E.
    assert (P : pml4_phys (vmspace_destroy (w_sp w old) (w_vm w)).1 = 0).
    { unfold vmspace_destroy. by destruct (Z.eqb_spec (pml4_phys (w_sp w old)) 0). }
    destruct (vmspace_destroy _ _) as [a v]. cbn [fst snd] in *. split_and!; try done.
    + intros q f Hf. by apply get_put_field.
    + intros q Hq. cbn. zif; [lia|done].
    + cbn. by rewrite Z.eqb_refl.
  - split_and!; try done; [intros q f Hf; by apply get_put_field|apply get_put_eq].
Qed.

(** The members execve sets in the PCB of the caller. *)
Definition exec_value (nas root entry ustack : Z) (f : field) (v : Z) : Z :=
  match f with
  | F_aspace => nas | F_ctx_cr3 => root | F_brk_start | F_brk_cur => USER_HEAP_BASE | F_mmap_cur => USER_MMAP_BASE
  | F_user_entry => entry | F_user_stack => ustack
  | _ => if reset_field f then 0 else v
  end.

Lemma space_members cur nas root s f : get (put cur F_ctx_cr3 root (put cur F_aspace nas s)) cur f =
  match f with F_aspace => nas | F_ctx_cr3 => root | _ => get s cur f end.
Proof. destruct f; repeat first [rewrite get_put_eq | rewrite get_put_field by done]; done. Qed.

Lemma heap_members cur a b c entry ustack s f :
  get (put cur F_user_stack ustack (put cur F_user_entry entry (put cur F_mmap_cur c (put cur F_brk_cur b (put cur F_brk_start a s))))) cur f =
  match f with
  | F_brk_start => a | F_brk_cur => b | F_mmap_cur => c | F_user_entry => entry | F_user_stack => ustack
  | _ => get s cur f
  end.
Proof. destruct f; repeat first [rewrite get_put_eq | rewrite get_put_field by done]; done. Qed.

Record executed (nas entry ustack : Z) (own : Z -> option place) (w w' : world) : Prop := {
  ex_caller f : f <> F_refcount -> f <> F_canary_word -> get (w_sched w') (current_process (w_sched w)) f =
    exec_value nas (pml4_phys (w_sp w' nas)) entry ustack f (get (w_sched w) (current_process (w_sched w)) f);
  ex_others q f : q <> current_process (w_sched w) -> f <> F_refcount -> f <> F_canary_word ->
    get (w_sched w') q f = get (w_sched w) q f;
  ex_current : current_process (w_sched w') = current_process (w_sched w) /\ pids (w_sched w') = pids (w_sched w);
  ex_files : files (w_fd w') = files (w_fd w) /\ tables (w_fd w') = tables (w_fd w) /\ rcs (w_fd w') = rcs (w_fd w) /\
    forall q, fd_table_of (w_fd w') q = fd_table_of (w_fd w) q;
  ex_new : own (pml4_phys (w_sp w' nas)) = None;
  ex_spaces : spaces_kept (w_vm w) own (w_vm w');
  ex_old : let old := get (w_sched w) (current_process (w_sched w)) F_aspace in
    if get (w_sched w) old F_refcount <=? 1 then pml4_phys (w_sp w' old) = 0 /\ old ∈ freed (pr (w_sched w'))
    else w_sp w' old = w_sp w old /\ get (w_sched w') old F_refcount = u32 (get (w_sched w) old F_refcount - 1)
}.

Lemma unforked_get w w' q f : (forall pcb, unforked pcb w w') -> f <> F_canary_word -> f <> F_refcount ->
  get (w_sched w') q f = get (w_sched w) q f.
Proof. intros U H1 H2. apply (uf_get (q + 1) _ _ (U _)); [lia|done|done]. Qed.

Lemma swap_image_ok nas entry ustack own w w1 : imaged nas own w w1 -> own (pml4_phys (w_sp w1 nas)) = None ->
  current_process (w_sched w) <> 0 -> nas <> get (w_sched w) (current_process (w_sched w)) F_aspace ->
  executed nas entry ustack own w (swap_image (current_process (w_sched w)) nas entry ustack w1).
Proof.
  intros [K U S R P] Hn Hc Hne. set (cur := current_process (w_sched w)) in *. pose proof (unforked_get w w1) as Ug.
  assert (Eo : get (w_sched w1) cur F_aspace = get (w_sched w) cur F_aspace) by (by apply Ug).
  unfold swap_image. rewrite Eo. set (old := get (w_sched w) cur F_aspace) in *.
  set (w2 := set_vm _ (on_sched (put cur F_ctx_cr3 _) (on_sched (put cur F_aspace nas) w1))).
  assert (G2 : forall q f, get (w_sched w2) q f = get (put cur F_ctx_cr3 (pml4_phys (w_sp w1 nas)) (put cur F_aspace nas (w_sched w1))) q f) by done.
  destruct (leave_space_effect old w2) as (L1 & L2 & L3 & L4 & L5 & L6 & L7 & L8 & L9). set (w3 := leave_space old w2) in *. clearbody w3.
  match goal with |- executed _ _ _ _ _ ?x => set (w' := x) end.
  set (s4 := put cur F_user_stack ustack (put cur F_user_entry entry (put cur F_mmap_cur USER_MMAP_BASE
    (put cur F_brk_cur USER_HEAP_BASE (put cur F_brk_start USER_HEAP_BASE (w_sched w3)))))).
  assert (Es : w_sched w' = signal_reset_handlers cur s4) by done.
  assert (Esp : w_sp w' = w_sp w3) by done. assert (En : w_sp w' nas = w_sp w1 nas) by (rewrite Esp, L2 by done; done).
  pose proof (reset_handlers_statics cur s4) as St. injection St as St1 St2 _ _ _ St6.
  assert (R2 : get (w_sched w2) old F_refcount = get (w_sched w) old F_refcount).
  { rewrite G2, !get_put_field by done. by apply R. }
  injection L6 as F1 F2 F3 F4 F5. pose proof (U cur) as [_ U2 _ _ _ _ (U7 & U8 & U9) _].
  split.
  - intros f H1 H2. rewrite Es, reset_handlers_get, Z.eqb_refl, En by done. cbn [andb]. fold cur.
    rewrite <- (Ug cur f U H2 H1). unfold s4. rewrite heap_members, L1, G2, space_members by done. by destruct f.
  - intros q f Hq H1 H2. rewrite Es, reset_handlers_get by done. replace (q =? cur) with false by lia. cbn [andb]. unfold s4.
    rewrite !get_put_ptr by done. rewrite L1, G2, !get_put_ptr by done. by apply Ug.
  - rewrite Es, St1, St2. split; [transitivity (current_process (w_sched w3)); [done|]; rewrite L5; exact U2|].
    transitivity (pids (w_sched w3)); [done|]. rewrite L4. exact P.
  - split_and!; [transitivity (files (w_fd w3)); [done|]; by rewrite F1|transitivity (tables (w_fd w3)); [done|]; by rewrite F2|
      transitivity (rcs (w_fd w3)); [done|]; by rewrite F3|].
    intros q. transitivity (fd_table_of (w_fd w3) q); [done|]. rewrite F4. apply (uf_fd (q + 1) _ _ (U _)). lia.
  - by rewrite En.
  - eapply spaces_kept_phys; [exact K|]. transitivity (phys (w_vm w3)); [done|]. by rewrite L3.
  - fold cur. fold old. cbv zeta. rewrite R2 in L9. rewrite Esp. destruct (get (w_sched w) old F_refcount <=? 1).
    + destruct L9 as [L9 L10]. split; [done|]. rewrite Es, St6. change (freed (pr s4)) with (freed (pr (w_sched w3))). rewrite L10. by left.
    + destruct L9 as [L9 L10]. split; [rewrite L9; by apply S|]. rewrite Es, reset_handlers_get by done.
      change (reset_field F_refcount) with false. rewrite andb_false_r. unfold s4. by rewrite !get_put_field by done.
Qed.

(** ** The theorem *)

(** Every vnode of the system can be read or says it cannot. *)
Definition all_readable (ops_of : Z -> vfs_ops) (s : fs) : Prop :=
  forall vn, valid s vn -> vn <> 0 -> readable (fun n off => vfs_read ops_of vn n off s).

Lemma execve_error nas own tf (e : Z) w : e <> 0 -> exists r tf' w', Some (e, tf, w) = Some (r, tf', w') /\
  spaces_kept (w_vm w) own (w_vm w') /\
  ((r <> 0 /\ tf' = tf /\ forall pcb, unforked pcb w w') \/
   (r = 0 /\ exists entry rsp, tf' = tf_exec entry rsp tf /\ executed nas entry rsp own w w')).
Proof.
  intros He. exists e, tf, w. split; [done|]. split; [apply spaces_kept_refl|]. left. split; [done|]. split; [done|]. intros pcb. apply unforked_refl.
Qed.

Lemma user_string_error n e addr j u x : e <> 0 -> user_string n e addr j u = inl x -> x <> 0.
Proof.
  intros He. revert j. induction n as [|n IH]; intros j; cbn [user_string]; [by intros [= <-]|]. destruct (negb _); [by intros [= <-]|].
  destruct (_ =? 0); [done|]. destruct (user_string n e addr (j + 1) u) eqn:E; [|done]. intros [= <-]. by eapply IH.
Qed.

Lemma user_vector_error n vec i used u x : user_vector n vec i used u = inl x -> x <> 0.
Proof.
  revert i used. induction n as [|n IH]; intros i used; cbn [user_vector]; [done|]. destruct (negb _); [by intros [= <-]|]. destruct (_ =? 0); [done|].
  destruct (user_string _ _ _ _ u) eqn:E; [intros [= <-]; refine (user_string_error _ (- E2BIG) _ _ _ _ _ E); done|].
  destruct (user_vector n vec _ _ u) eqn:E2; [|done]. intros [= <-]. by eapply IH.
Qed.

Lemma user_strings_error vec u x : user_strings vec u = inl x -> x <> 0.
Proof. unfold user_strings. destruct (vec =? 0); [done|]. apply user_vector_error. Qed.


(** ** Witness: thread 3000 replaces its image with the program "/a" *)

Definition exec_file : vnode := Vnode VNODE_REG TMPFS_OPS 220 (len demo_elf) 1 0 0.
Definition exec_root : vnode := Vnode VNODE_DIR TMPFS_OPS 200 0 1 0 0.
Definition exec_fs : fs :=
  Fs (<[100 := exec_root]> {[120 := exec_file]}) {[200 := [Dirent 300 [97] 120]]} {[220 := Tfile demo_elf (len demo_elf)]} 100.
Definition exec_world : world :=
  World (Fds exec_fs ∅ ∅ (fun _ => 0) (fun _ => 0) ∅ ∅ demo_parent) fork_vm (fun _ => demo_as) ∅
    (Umem (fun a => if a =? 0x1000 then 47 else if a =? 0x1001 then 97 else 0) (fun _ => true)).

Lemma exec_vnodes a v : vnodes exec_fs !! a = Some v -> (a = 100 /\ v = exec_root) \/ (a = 120 /\ v = exec_file).
Proof.
  unfold exec_fs. cbn [vnodes]. rewrite lookup_insert_Some, lookup_singleton_Some. naive_solver.
Qed.

Lemma exec_fs_ok : fs_ok demo_ops exec_fs.
Proof.
  constructor.
  - intros a v [[-> ->]|[-> ->]]%exec_vnodes; by left.
  - intros a v [[-> ->]|[-> ->]]%exec_vnodes Ht; try done.
    exists [Dirent 300 [97] 120]. split; [vm_compute; reflexivity|]. intros e He. right.
    apply list_elem_of_In in He as [<-|[]]. eexists. vm_compute. reflexivity.
  - intros a v [[-> ->]|[-> ->]]%exec_vnodes Ht; done.
  - intros a v [[-> ->]|[-> ->]]%exec_vnodes; by left.
  - eexists. vm_compute. reflexivity.
Qed.

Lemma exec_file_at : file_at exec_fs 120 exec_file (Tfile demo_elf (len demo_elf)).
Proof. split_and!; [vm_compute; reflexivity|done|vm_compute; reflexivity|]. constructor; vm_compute; [done|split; discriminate]. Qed.

Lemma exec_readable : all_readable demo_ops exec_fs.
Proof.
  intros vn [->|[v Hv]] Hne; [done|]. apply exec_vnodes in Hv as [[-> ->]|[-> ->]].
  - right. exists EINVAL. split; [done|]. intros n off. vm_compute. reflexivity.
  - left. eexists. by apply (tmpfs_file demo_ops 120 exec_file _ exec_fs exec_file_at).
Qed.

Definition exec_result : option (Z * trapframe * world) :=
  proc_execve demo_ops 2 700 (le 16 99) demo_tf 0x1000 0 0 exec_world.

Lemma exec_succeeds : option_map (fun r => (r.1.1, tf_rip r.1.2)) exec_result = Some (0, 0x400000).
Proof. vm_compute. reflexivity. Qed.

