(* ===== verification/LineEdit.v ===== *)
(** The line editor of the kernel shell: [kernel/input_line.c] and the dispatch of
    the keys in the main loop of [kernel/kernel.c]. The arrays are checked, so
    [None] is an access outside the line, the clipboard or the history. What is
    drawn on the screen is not part of the state. *)

From stdpp Require Import base numbers option list.
From Stdlib Require Import ZArith Lia.
From S2P Require Import Prelude Buf.

Definition INPUT_LINE_MAX : Z := 256.
Definition INPUT_HISTORY_MAX : Z := 50.
Definition INPUT_CLIPBOARD_MAX : Z := 256.

(** input_line_t and the clipboard, which is global. *)
Record editor := Editor {
  l_buf : list Z; l_len : Z; l_cur : Z; l_s : Z; l_e : Z; clip : list Z; clip_len : Z
}.

Definition set_line (b : list Z) (n c : Z) (e : editor) : editor := Editor b n c (l_s e) (l_e e) (clip e) (clip_len e).
Definition set_cur (c : Z) (e : editor) : editor := set_line (l_buf e) (l_len e) c e.
Definition set_sel (s t : Z) (e : editor) : editor := Editor (l_buf e) (l_len e) (l_cur e) s t (clip e) (clip_len e).
Definition set_clip (c : list Z) (n : Z) (e : editor) : editor := Editor (l_buf e) (l_len e) (l_cur e) (l_s e) (l_e e) c n.

Definition blank : list Z := replicate 256 0.

Definition input_line_init (e : editor) : editor := Editor blank 0 0 (-1) (-1) (clip e) (clip_len e).

(** * Loops *)

(** [for (i = from; ...; i--) b[i] = b[i - 1]], [n] rounds. *)
Fixpoint shift_right (n : nat) (i : Z) (b : list Z) : option (list Z) :=
  match n with
  | O => Some b
  | S n => x ← bget b (i - 1); b ← bput b i x; shift_right n (i - 1) b
  end.

(** [for (i = from; ...; i++) b[i] = b[i + k]], [n] rounds. *)
Fixpoint move_down (n : nat) (i k : Z) (b : list Z) : option (list Z) :=
  match n with
  | O => Some b
  | S n => x ← bget b (i + k); b ← bput b i x; move_down n (i + 1) k b
  end.

(** [for (i = from; ...; i++) c[i] = b[start + i]], [n] rounds. *)
Fixpoint copy_out (n : nat) (i start : Z) (b c : list Z) : option (list Z) :=
  match n with
  | O => Some c
  | S n => x ← bget b (start + i); c ← bput c i x; copy_out n (i + 1) start b c
  end.

(** The bytes from [start] on go to the clipboard, at most 255 of [kill_len]. *)
Definition save_clip (start kill_len : Z) (e : editor) : option editor :=
  let n := if INPUT_CLIPBOARD_MAX - 1 <? kill_len then INPUT_CLIPBOARD_MAX - 1 else kill_len in
  c ← copy_out (Z.to_nat n) 0 start (l_buf e) (clip e);
  c ← bput c n 0;
  Some (set_clip c n e).

(** The bytes from [start + kill_len] on move to [start]; the line is that much
    shorter, with its NUL, and the cursor is at [cur]. *)
Definition close_gap (start kill_len cur : Z) (e : editor) : option editor :=
  let n := l_len e - kill_len in
  b ← move_down (Z.to_nat (n - start)) start kill_len (l_buf e);
  b ← bput b n 0;
  Some (set_line b n cur e).

(** * Selection *)

Definition input_line_sel_clear (e : editor) : editor := set_sel (-1) (-1) e.

Definition input_line_sel_delete (e : editor) : option editor :=
  if l_s e =? -1 then Some e else
  let start := if l_s e <? l_e e then l_s e else l_e e in
  let stop := if l_s e <? l_e e then l_e e else l_s e in
  e ← save_clip start (stop - start) e;
  e ← close_gap start (stop - start) start e;
  Some (input_line_sel_clear e).

Definition start_sel (e : editor) : editor := if l_s e =? -1 then set_sel (l_cur e) (l_cur e) e else e.

Definition input_line_sel_extend_left (e : editor) : editor :=
  let e := start_sel e in
  if 0 <? l_cur e then set_sel (l_s e) (l_cur e - 1) (set_cur (l_cur e - 1) e) else e.

Definition input_line_sel_extend_right (e : editor) : editor :=
  let e := start_sel e in
  if l_cur e <? l_len e then set_sel (l_s e) (l_cur e + 1) (set_cur (l_cur e + 1) e) else e.

(** * Editing *)

Definition input_line_insert (c : Z) (e : editor) : option editor :=
  e ← (if negb (l_s e =? -1) then input_line_sel_delete e else Some e);
  if INPUT_LINE_MAX - 1 <=? l_len e then Some e else
  b ← shift_right (Z.to_nat (l_len e - l_cur e)) (l_len e) (l_buf e);
  b ← bput b (l_cur e) c;
  b ← bput b (l_len e + 1) 0;
  Some (set_line b (l_len e + 1) (l_cur e + 1) e).

Definition input_line_backspace (e : editor) : option editor :=
  if negb (l_s e =? -1) then input_line_sel_delete e else
  if l_cur e <=? 0 then Some e else close_gap (l_cur e - 1) 1 (l_cur e - 1) e.

Definition input_line_delete (e : editor) : option editor :=
  if negb (l_s e =? -1) then input_line_sel_delete e else
  if l_len e <=? l_cur e then Some e else close_gap (l_cur e) 1 (l_cur e) e.

Definition input_line_move_left (e : editor) : editor :=
  let e := input_line_sel_clear e in if 0 <? l_cur e then set_cur (l_cur e - 1) e else e.
Definition input_line_move_right (e : editor) : editor :=
  let e := input_line_sel_clear e in if l_cur e <? l_len e then set_cur (l_cur e + 1) e else e.
Definition input_line_move_home (e : editor) : editor := set_cur 0 (input_line_sel_clear e).
Definition input_line_move_end (e : editor) : editor := set_cur (l_len e) (input_line_sel_clear e).

Definition SPACE : Z := 32.

(** [while (i > 0 && b[i] == ' ') i--]; [while (i > 0 && b[i - 1] != ' ') i--]. *)
Fixpoint skip_spaces_back (n : nat) (b : list Z) (i : Z) : option Z :=
  match n with
  | O => None
  | S n => if 0 <? i then x ← bget b i; if x =? SPACE then skip_spaces_back n b (i - 1) else Some i else Some i
  end.
Fixpoint skip_word_back (n : nat) (b : list Z) (i : Z) : option Z :=
  match n with
  | O => None
  | S n => if 0 <? i then x ← bget b (i - 1); if x =? SPACE then Some i else skip_word_back n b (i - 1) else Some i
  end.
Definition word_start (e : editor) : option Z :=
  let n := S (Z.to_nat (l_cur e)) in
  i ← skip_spaces_back n (l_buf e) (l_cur e - 1);
  skip_word_back n (l_buf e) i.

(** [while (i < length && (b[i] == ' ') == sp) i++]. *)
Fixpoint skip_fwd (n : nat) (sp : bool) (b : list Z) (stop i : Z) : option Z :=
  match n with
  | O => None
  | S n => if i <? stop then x ← bget b i; if Bool.eqb (x =? SPACE) sp then skip_fwd n sp b stop (i + 1) else Some i else Some i
  end.

Definition input_line_move_word_left (e : editor) : option editor :=
  let e := input_line_sel_clear e in
  if l_cur e =? 0 then Some e else i ← word_start e; Some (set_cur i e).

Definition input_line_move_word_right (e : editor) : option editor :=
  let e := input_line_sel_clear e in
  if l_len e <=? l_cur e then Some e else
  let n := S (Z.to_nat (l_len e - l_cur e)) in
  i ← skip_fwd n false (l_buf e) (l_len e) (l_cur e);
  i ← skip_fwd n true (l_buf e) (l_len e) i;
  Some (set_cur i e).

(** * Kill and yank: none of the kills looks at the selection *)

Definition input_line_kill_to_end (e : editor) : option editor :=
  if l_len e <=? l_cur e then Some e else
  e ← save_clip (l_cur e) (l_len e - l_cur e) e;
  b ← bput (l_buf e) (l_cur e) 0;
  Some (set_line b (l_cur e) (l_cur e) e).

Definition input_line_kill_to_start (e : editor) : option editor :=
  if l_cur e =? 0 then Some e else
  let kill_len := l_cur e in
  e ← save_clip 0 kill_len e;
  close_gap 0 kill_len 0 e.

Definition input_line_kill_word_back (e : editor) : option editor :=
  if l_cur e =? 0 then Some e else
  i ← word_start e;
  let kill_len := l_cur e - i in
  e ← save_clip i kill_len e;
  close_gap i kill_len i e.

(** The bound is read anew in every round; an insertion may change it. *)
Fixpoint yank_loop (n : nat) (i : Z) (e : editor) : option editor :=
  match n with
  | O => None
  | S n => if i <? clip_len e then x ← bget (clip e) i; e ← input_line_insert x e; yank_loop n (i + 1) e else Some e
  end.
Definition input_line_yank (e : editor) : option editor := yank_loop (Z.to_nat INPUT_CLIPBOARD_MAX + 1) 0 e.

(** * History *)

Record history := History { h_entries : list (list Z); h_count : Z; h_current : Z }.

Definition input_history_init : history := History (replicate 50 blank) 0 0.

(** The characters of a C string in an array, at most [n]; the loops look at one
    more before they stop, which is inside the array. *)
Fixpoint string_in (n : nat) (i : Z) (b : list Z) : option (list Z) :=
  match n with
  | O => Some []
  | S n => x ← bget b i; if x =? 0 then Some [] else l ← string_in n (i + 1) b; Some (x :: l)
  end.

Definition entry_at (h : history) (i : Z) : option (list Z) :=
  if (0 <=? i) && (i <? INPUT_HISTORY_MAX) then h_entries h !! Z.to_nat i else None.

Definition input_history_push (line : list Z) (h : history) : option history :=
  let full := INPUT_HISTORY_MAX <=? h_count h in
  let es := if full then drop 1 (h_entries h) ++ [default blank (last (h_entries h))] else h_entries h in
  let n := if full then INPUT_HISTORY_MAX - 1 else h_count h in
  cs ← string_in (Z.to_nat (INPUT_LINE_MAX - 1)) 0 line;
  old ← entry_at (History es n n) n;
  b ← bblit old 0 (cs ++ [0]);
  Some (History (<[Z.to_nat n := b]> es) (n + 1) (n + 1)).

Definition input_history_prev (h : history) : option (option (list Z) * history) :=
  if 0 <? h_current h
  then e ← entry_at h (h_current h - 1); Some (Some e, History (h_entries h) (h_count h) (h_current h - 1))
  else Some (None, h).

Definition input_history_next (h : history) : option (option (list Z) * history) :=
  if h_current h <? h_count h - 1
  then e ← entry_at h (h_current h + 1); Some (Some e, History (h_entries h) (h_count h) (h_current h + 1))
  else Some (None, History (h_entries h) (h_count h) (h_count h)).

Definition input_history_load (entry : list Z) (e : editor) : option editor :=
  cs ← string_in (Z.to_nat (INPUT_LINE_MAX - 1)) 0 entry;
  b ← bblit blank 0 (cs ++ [0]);
  Some (Editor b (len cs) (len cs) (-1) (-1) (clip e) (clip_len e)).

(** * The keys of the shell *)

Definition CHAR_ARROW_UP : Z := 0x80.
Definition CHAR_ARROW_DOWN : Z := 0x81.
Definition CHAR_ARROW_LEFT : Z := 0x82.
Definition CHAR_ARROW_RIGHT : Z := 0x83.
Definition CHAR_SELECT_LEFT : Z := 0x84.
Definition CHAR_SELECT_RIGHT : Z := 0x85.
Definition CHAR_DELETE : Z := 0x86.
Definition CHAR_CTRL_A : Z := 0x90.
Definition CHAR_CTRL_E : Z := 0x91.
Definition CHAR_CTRL_K : Z := 0x92.
Definition CHAR_CTRL_U : Z := 0x93.
Definition CHAR_CTRL_W : Z := 0x94.
Definition CHAR_CTRL_Y : Z := 0x95.

Definition with_hist (h : history) (r : option editor) : option (editor * history) := e ← r; Some (e, h).

(** One round of the main loop, what it runs and draws left out. *)
Definition shell_key (c : Z) (e : editor) (h : history) : option (editor * history) :=
  if (c =? 10) || (c =? 13) then
    h ← (if 0 <? l_len e then input_history_push (l_buf e) h else Some h);
    Some (input_line_init e, h)
  else if c =? 8 then with_hist h (input_line_backspace e)
  else if c =? CHAR_DELETE then with_hist h (input_line_delete e)
  else if c =? CHAR_ARROW_LEFT then Some (input_line_move_left e, h)
  else if c =? CHAR_ARROW_RIGHT then Some (input_line_move_right e, h)
  else if c =? CHAR_ARROW_UP then
    '(p, h) ← input_history_prev h;
    match p with Some p => with_hist h (input_history_load p e) | None => Some (e, h) end
  else if c =? CHAR_ARROW_DOWN then
    '(p, h) ← input_history_next h;
    match p with Some p => with_hist h (input_history_load p e) | None => Some (input_line_init e, h) end
  else if c =? CHAR_SELECT_LEFT then Some (input_line_sel_extend_left e, h)
  else if c =? CHAR_SELECT_RIGHT then Some (input_line_sel_extend_right e, h)
  else if c =? CHAR_CTRL_A then Some (input_line_move_home e, h)
  else if c =? CHAR_CTRL_E then Some (input_line_move_end e, h)
  else if c =? CHAR_CTRL_K then with_hist h (input_line_kill_to_end e)
  else if c =? CHAR_CTRL_U then with_hist h (input_line_kill_to_start e)
  else if c =? CHAR_CTRL_W then with_hist h (input_line_kill_word_back e)
  else if c =? CHAR_CTRL_Y then with_hist h (input_line_yank e)
  else if (32 <=? c) && (c <=? 126) then with_hist h (input_line_insert c e)
  else Some (e, h).

(** The keys one after another. *)
Fixpoint shell_keys (l : list Z) (e : editor) (h : history) : option (editor * history) :=
  match l with
  | [] => Some (e, h)
  | c :: l => '(e, h) ← shell_key c e h; shell_keys l e h
  end.

Definition fresh_editor : editor := Editor blank 0 0 (-1) (-1) blank 0.

(** * The array loops *)

Lemma bget_lookup (b : list Z) i : 0 <= i < len b -> exists x, bget b i = Some x /\ b !! Z.to_nat i = Some x.
Proof.
  intros Hi. unfold bget. replace ((0 <=? i) && (i <? len b)) with true by lia.
  destruct (lookup_lt_is_Some_2 b (Z.to_nat i)) as [x Hx]; [unfold len in Hi; lia|]. by exists x.
Qed.

Lemma list_eq_z {A} (l k : list A) : (forall j, 0 <= j -> l !! Z.to_nat j = k !! Z.to_nat j) -> l = k.
Proof. intros H. apply list_eq. intros i. specialize (H (Z.of_nat i) ltac:(lia)). by rewrite Nat2Z.id in H. Qed.

Lemma lookup_ztake {A} n (l : list A) j : 0 <= j -> ztake n l !! Z.to_nat j = if j <? n then l !! Z.to_nat j else None.
Proof.
  intros Hj. unfold ztake. destruct (Z.ltb_spec j n); [apply lookup_take_lt; lia|apply lookup_take_ge; lia].
Qed.

Lemma lookup_zdrop {A} n (l : list A) j : 0 <= n -> 0 <= j -> zdrop n l !! Z.to_nat j = l !! Z.to_nat (n + j).
Proof. intros Hn Hj. unfold zdrop. rewrite lookup_drop. f_equal. lia. Qed.

Lemma zdrop_past {A} n (l : list A) : len l <= n -> zdrop n l = [].
Proof. intros H. apply drop_ge. unfold len in H. lia. Qed.

Lemma lookup_S {A} (x : A) l n : (x :: l) !! S n = l !! n.
Proof. done. Qed.

Lemma lookup_zapp {A} (l k : list A) j : 0 <= j -> (l ++ k) !! Z.to_nat j = if j <? len l then l !! Z.to_nat j else k !! Z.to_nat (j - len l).
Proof.
  intros Hj. unfold len. destruct (Z.ltb_spec j (Z.of_nat (length l))); [apply lookup_app_l; lia|].
  rewrite lookup_app_r by lia. f_equal. lia.
Qed.

Lemma lookup_bput (b : list Z) i v j : 0 <= i < len b -> 0 <= j -> <[Z.to_nat i := v]> b !! Z.to_nat j = if j =? i then Some v else b !! Z.to_nat j.
Proof.
  intros Hi Hj. unfold len in Hi. destruct (Z.eqb_spec j i) as [->|]; [apply list_lookup_insert_eq; lia|]. apply list_lookup_insert_ne. lia.
Qed.

Lemma len_insert (b : list Z) i v : len (<[i := v]> b) = len b.
Proof. unfold len. by rewrite length_insert. Qed.

Lemma shift_right_ok n : forall i (b : list Z), Z.of_nat n <= i -> i < len b ->
  exists b', shift_right n i b = Some b' /\ len b' = len b /\
    forall j, 0 <= j -> b' !! Z.to_nat j = if (i - Z.of_nat n <? j) && (j <=? i) then b !! Z.to_nat (j - 1) else b !! Z.to_nat j.
Proof.
  induction n as [|n IH]; intros i b H1 H2; cbn [shift_right].
  - exists b. split_and!; [done|done|]. intros j Hj. change (Z.of_nat 0) with 0. by replace ((i - 0 <? j) && (j <=? i)) with false by lia.
  - destruct (bget_lookup b (i - 1)) as (x & -> & Hx); [lia|]. cbn [mbind option_bind]. rewrite bput_some by lia. cbn [mbind option_bind].
    destruct (IH (i - 1) (<[Z.to_nat i := x]> b)) as (b' & -> & L & H); [lia|rewrite len_insert; lia|].
    exists b'. rewrite L, len_insert. split_and!; [done|done|]. intros j Hj. rewrite H by done.
    assert (Em : Z.of_nat (S n) = Z.of_nat n + 1) by lia. rewrite Em in *. set (m := Z.of_nat n) in *. assert (0 <= m) by lia. clearbody m.
    replace (i - 1 - m) with (i - (m + 1)) by lia.
    destruct (Z.eqb_spec j i) as [->|Hne].
    + replace ((i - (m + 1) <? i) && (i <=? i - 1)) with false by lia. replace ((i - (m + 1) <? i) && (i <=? i)) with true by lia.
      rewrite lookup_bput, Z.eqb_refl by lia. done.
    + replace (j <=? i - 1) with (j <=? i) by lia. destruct ((i - (m + 1) <? j) && (j <=? i)) eqn:E; rewrite lookup_bput by lia; zif; done || lia.
Qed.

Lemma move_down_ok n : forall i k (b : list Z), 0 <= i -> 0 <= k -> i + Z.of_nat n + k <= len b ->
  exists b', move_down n i k b = Some b' /\ len b' = len b /\
    forall j, 0 <= j -> b' !! Z.to_nat j = if (i <=? j) && (j <? i + Z.of_nat n) then b !! Z.to_nat (j + k) else b !! Z.to_nat j.
Proof.
  induction n as [|n IH]; intros i k b H1 H2 H3; cbn [move_down].
  - exists b. split_and!; [done|done|]. intros j Hj. change (Z.of_nat 0) with 0. by replace ((i <=? j) && (j <? i + 0)) with false by lia.
  - destruct (bget_lookup b (i + k)) as (x & -> & Hx); [lia|]. cbn [mbind option_bind]. rewrite bput_some by lia. cbn [mbind option_bind].
    destruct (IH (i + 1) k (<[Z.to_nat i := x]> b)) as (b' & -> & L & H); [lia|lia|rewrite len_insert; lia|].
    exists b'. rewrite L, len_insert. split_and!; [done|done|]. intros j Hj. rewrite H by done.
    assert (Em : Z.of_nat (S n) = Z.of_nat n + 1) by lia. rewrite Em in *. set (m := Z.of_nat n) in *. assert (0 <= m) by lia. clearbody m.
    destruct (Z.eqb_spec j i) as [->|Hne].
    + replace ((i + 1 <=? i) && (i <? i + 1 + m)) with false by lia. replace ((i <=? i) && (i <? i + (m + 1))) with true by lia.
      rewrite lookup_bput, Z.eqb_refl by lia. done.
    + replace ((i + 1 <=? j) && (j <? i + 1 + m)) with ((i <=? j) && (j <? i + (m + 1))) by lia.
      destruct ((i <=? j) && (j <? i + (m + 1))) eqn:E; rewrite lookup_bput by lia; zif; done || lia.
Qed.

Lemma copy_out_ok n : forall i start (b c : list Z), 0 <= i -> 0 <= start -> start + i + Z.of_nat n <= len b -> i + Z.of_nat n <= len c ->
  exists c', copy_out n i start b c = Some c' /\ len c' = len c /\
    forall j, 0 <= j -> c' !! Z.to_nat j = if (i <=? j) && (j <? i + Z.of_nat n) then b !! Z.to_nat (start + j) else c !! Z.to_nat j.
Proof.
  induction n as [|n IH]; intros i start b c H1 H2 H3 H4; cbn [copy_out].
  - exists c. split_and!; [done|done|]. intros j Hj. change (Z.of_nat 0) with 0. by replace ((i <=? j) && (j <? i + 0)) with false by lia.
  - destruct (bget_lookup b (start + i)) as (x & -> & Hx); [lia|]. cbn [mbind option_bind]. rewrite bput_some by lia. cbn [mbind option_bind].
    destruct (IH (i + 1) start b (<[Z.to_nat i := x]> c)) as (c' & -> & L & H); [lia|lia|lia|rewrite len_insert; lia|].
    exists c'. rewrite L, len_insert. split_and!; [done|done|]. intros j Hj. rewrite H by done.
    assert (Em : Z.of_nat (S n) = Z.of_nat n + 1) by lia. rewrite Em in *. set (m := Z.of_nat n) in *. assert (0 <= m) by lia. clearbody m.
    destruct (Z.eqb_spec j i) as [->|Hne].
    + replace ((i + 1 <=? i) && (i <? i + 1 + m)) with false by lia. replace ((i <=? i) && (i <? i + (m + 1))) with true by lia.
      rewrite lookup_bput, Z.eqb_refl by lia. done.
    + replace ((i + 1 <=? j) && (j <? i + 1 + m)) with ((i <=? j) && (j <? i + (m + 1))) by lia.
      destruct ((i <=? j) && (j <? i + (m + 1))) eqn:E; [done|]. rewrite lookup_bput by lia; zif; done || lia.
Qed.

(** * The line as text *)

(** What the user sees: the text, the cursor, the clipboard, and the mark, from
    which the selection runs to the cursor. *)
Record view := View { v_text : list Z; v_cur : Z; v_mark : option Z; v_clip : list Z }.

Definition view_of (e : editor) : view :=
  View (ztake (l_len e) (l_buf e)) (l_cur e) (if l_s e =? -1 then None else Some (l_s e)) (ztake (clip_len e) (clip e)).

(** [k] characters from [a] on are removed. *)
Definition erase (a k : Z) (t : list Z) : list Z := ztake a t ++ zdrop (a + k) t.

Definition spec_sel_delete (v : view) : view :=
  match v_mark v with
  | None => v
  | Some m => let a := Z.min m (v_cur v) in let k := Z.max m (v_cur v) - a in
      View (erase a k (v_text v)) a None (ztake k (zdrop a (v_text v)))
  end.
Definition spec_insert (c : Z) (v : view) : view :=
  let v := spec_sel_delete v in
  if 255 <=? len (v_text v) then v
  else View (ztake (v_cur v) (v_text v) ++ [c] ++ zdrop (v_cur v) (v_text v)) (v_cur v + 1) None (v_clip v).
Definition spec_backspace (v : view) : view :=
  if decide (v_mark v = None) then
    if v_cur v <=? 0 then v else View (erase (v_cur v - 1) 1 (v_text v)) (v_cur v - 1) None (v_clip v)
  else spec_sel_delete v.
Definition spec_delete (v : view) : view :=
  if decide (v_mark v = None) then
    if len (v_text v) <=? v_cur v then v else View (erase (v_cur v) 1 (v_text v)) (v_cur v) None (v_clip v)
  else spec_sel_delete v.
Definition spec_move (c : Z) (v : view) : view := View (v_text v) c None (v_clip v).
(** The cursor goes to [c] and the mark stays, or is set where the cursor was. *)
Definition spec_extend (c : Z) (v : view) : view := View (v_text v) c (Some (default (v_cur v) (v_mark v))) (v_clip v).
Definition spec_kill (a k : Z) (v : view) : view :=
  if k =? 0 then v else View (erase a k (v_text v)) a None (ztake k (zdrop a (v_text v))).

Fixpoint drop_while (p : Z -> bool) (l : list Z) : list Z :=
  match l with [] => [] | x :: k => if p x then drop_while p k else l end.
Definition nonspace (x : Z) : bool := negb (x =? SPACE).
(** The text before the word that ends before the cursor, its spaces included. *)
Definition before_word (t : list Z) : Z :=
  len (drop_while nonspace (drop_while (fun x => x =? SPACE) (reverse t))).

(** The selection runs from a place in the line to the cursor, no character is NUL, the line and the clipboard
    end with one. *)
Record wf (e : editor) : Prop := {
  wf_buf : len (l_buf e) = 256;
  wf_clip : len (clip e) = 256 /\ 0 <= clip_len e <= 255;
  wf_cur : 0 <= l_cur e <= l_len e /\ l_len e <= 255;
  wf_nul : l_buf e !! Z.to_nat (l_len e) = Some 0;
  wf_sel : l_s e = -1 \/ (0 <= l_s e <= l_len e /\ l_e e = l_cur e);
  wf_text : Forall (fun x => x <> 0) (ztake (l_len e) (l_buf e)) /\ Forall (fun x => x <> 0) (ztake (clip_len e) (clip e))
}.

Lemma len_blank : len blank = 256.
Proof. done. Qed.

Lemma save_clip_ok start k e : len (l_buf e) = 256 -> len (clip e) = 256 -> 0 <= start -> 0 <= k -> start + k <= l_len e <= 255 ->
  exists c, save_clip start k e = Some (set_clip c k e) /\ len c = 256 /\ ztake k c = ztake k (zdrop start (ztake (l_len e) (l_buf e))).
Proof.
  intros Hb Hc H1 H2 H3. unfold save_clip, INPUT_CLIPBOARD_MAX. replace (256 - 1 <? k) with false by lia.
  destruct (copy_out_ok (Z.to_nat k) 0 start (l_buf e) (clip e)) as (c & -> & L & H); [lia..|]. rewrite Z2Nat.id in H by lia. cbn [mbind option_bind].
  rewrite bput_some by lia. cbn [mbind option_bind]. eexists. split; [done|]. split; [by rewrite len_insert, L|].
  apply list_eq_z. intros j Hj. rewrite !lookup_ztake by done. destruct (Z.ltb_spec j k); [|done].
  rewrite lookup_bput by lia. replace (j =? k) with false by lia. rewrite H by done. replace ((0 <=? j) && (j <? 0 + k)) with true by lia.
  rewrite lookup_zdrop, lookup_ztake by lia. by replace (start + j <? l_len e) with true by lia.
Qed.

Lemma close_gap_ok start k cur e : len (l_buf e) = 256 -> 0 <= start -> 0 <= k -> start + k <= l_len e <= 255 ->
  exists b, close_gap start k cur e = Some (set_line b (l_len e - k) cur e) /\ len b = 256 /\ b !! Z.to_nat (l_len e - k) = Some 0 /\
    ztake (l_len e - k) b = erase start k (ztake (l_len e) (l_buf e)).
Proof.
  intros Hb H1 H2 H3. unfold close_gap. destruct (move_down_ok (Z.to_nat (l_len e - k - start)) start k (l_buf e)) as (b & -> & L & H); [lia..|].
  rewrite Z2Nat.id in H by lia. cbn [mbind option_bind]. rewrite bput_some by lia. cbn [mbind option_bind]. eexists. split; [done|].
  split; [by rewrite len_insert, L|]. split; [rewrite lookup_bput, Z.eqb_refl by lia; done|].
  apply list_eq_z. intros j Hj. unfold erase. assert (Lt : len (ztake start (ztake (l_len e) (l_buf e))) = start) by (rewrite len_ztake; rewrite ?len_ztake; lia).
  rewrite lookup_ztake, lookup_zapp, Lt by done. destruct (Z.ltb_spec j (l_len e - k)).
  - rewrite lookup_bput, H by lia. replace (j =? l_len e - k) with false by lia. destruct (Z.ltb_spec j start).
    + replace ((start <=? j) && (j <? start + (l_len e - k - start))) with false by lia.
      rewrite !lookup_ztake by lia. by replace (j <? start) with true by lia; replace (j <? l_len e) with true by lia.
    + replace ((start <=? j) && (j <? start + (l_len e - k - start))) with true by lia.
      rewrite lookup_zdrop, lookup_ztake by lia. replace (start + k + (j - start)) with (j + k) by lia. by replace (j + k <? l_len e) with true by lia.
  - replace (j <? start) with false by lia. rewrite lookup_zdrop, lookup_ztake by lia. by replace (start + k + (j - start) <? l_len e) with false by lia.
Qed.

Lemma Forall_ztake {A} (P : A -> Prop) n l : Forall P l -> Forall P (ztake n l).
Proof. apply Forall_take. Qed.
Lemma Forall_zdrop {A} (P : A -> Prop) n l : Forall P l -> Forall P (zdrop n l).
Proof. apply Forall_drop. Qed.
Lemma Forall_erase P a k l : Forall P l -> Forall P (erase a k l).
Proof. intros H. apply Forall_app. split; [by apply Forall_ztake|by apply Forall_zdrop]. Qed.

(** Without a selection its other end does not matter. *)
Lemma clear_same e : l_s e = -1 -> wf (input_line_sel_clear e) -> wf e /\ view_of (input_line_sel_clear e) = view_of e.
Proof.
  intros Hs [W1 W2 W3 W4 W5 W6]. split; [split; try done; by left|]. unfold view_of. cbn. by rewrite Hs.
Qed.

Lemma wf_clear e : wf e -> wf (input_line_sel_clear e).
Proof. intros [W1 W2 W3 W4 W5 W6]. split; try done. by left. Qed.

(** Cutting [k] characters at [a] into the clipboard. *)
Lemma cut_ok e a k : wf e -> 0 <= a -> 0 <= k -> a + k <= l_len e ->
  exists e1 e', save_clip a k e = Some e1 /\ close_gap a k a e1 = Some e' /\ l_s e' = l_s e /\ wf (input_line_sel_clear e') /\
    view_of (input_line_sel_clear e') = View (erase a k (v_text (view_of e))) a None (ztake k (zdrop a (v_text (view_of e)))).
Proof.
  intros [W1 [W2 W2'] [W3 W3'] W4 W5 [W6 W7]] Ha Hk Hak.
  destruct (save_clip_ok a k e W1 W2 Ha Hk ltac:(lia)) as (c & E1 & Lc & Ec).
  destruct (close_gap_ok a k a (set_clip c k e) W1 Ha Hk ltac:(cbn; lia)) as (b & E2 & Lb & Nb & Eb). cbn [set_clip l_buf l_len] in *.
  eexists _, _. split; [exact E1|]. split; [exact E2|]. assert (F : Forall (fun x => x <> 0) (erase a k (ztake (l_len e) (l_buf e)))) by (by apply Forall_erase).
  split_and!; [done|split|]; cbn [input_line_sel_clear set_sel set_line set_clip l_buf l_len l_cur l_s l_e clip clip_len].
  - done.
  - split; [done|lia].
  - lia.
  - done.
  - by left.
  - rewrite Eb, Ec. split; [done|]. by apply Forall_ztake, Forall_zdrop.
  - unfold view_of. cbn [input_line_sel_clear set_sel set_line set_clip l_buf l_len l_cur l_s l_e clip clip_len v_text]. by rewrite Eb, Ec.
Qed.

(** [e'] is where the code goes, [v] what the user is to see. *)
Definition shows (r : option editor) (v : view) : Prop := exists e', r = Some e' /\ wf e' /\ view_of e' = v.

Lemma view_len e : wf e -> len (v_text (view_of e)) = l_len e.
Proof. intros W. cbn. apply len_ztake. rewrite (wf_buf _ W). pose proof (wf_cur _ W). lia. Qed.

Lemma sel_delete_shows e : wf e -> shows (input_line_sel_delete e) (spec_sel_delete (view_of e)).
Proof.
  intros W. unfold input_line_sel_delete, spec_sel_delete. cbn [view_of v_mark v_cur v_text]. destruct (Z.eqb_spec (l_s e) (-1)) as [|Hs].
  { by exists e. }
  destruct (wf_sel _ W) as [|[Hs1 Hs2]]; [done|]. pose proof (wf_cur _ W). rewrite <- Hs2.
  assert (Em : (if l_s e <? l_e e then l_s e else l_e e) = Z.min (l_s e) (l_e e)) by (destruct (Z.ltb_spec (l_s e) (l_e e)); lia).
  assert (Ex : (if l_s e <? l_e e then l_e e else l_s e) = Z.max (l_s e) (l_e e)) by (destruct (Z.ltb_spec (l_s e) (l_e e)); lia).
  rewrite Em, Ex. destruct (cut_ok e (Z.min (l_s e) (l_e e)) (Z.max (l_s e) (l_e e) - Z.min (l_s e) (l_e e)) W) as (e1 & e' & -> & E2 & _ & W' & V); [lia..|].
  cbn [mbind option_bind]. rewrite E2. cbn [mbind option_bind]. by exists (input_line_sel_clear e').
Qed.

(** A cut without a selection. *)
Lemma kill_shows e a k : wf e -> l_s e = -1 -> 0 <= a -> 0 < k -> a + k <= l_len e ->
  shows (e1 ← save_clip a k e; close_gap a k a e1) (spec_kill a k (view_of e)).
Proof.
  intros W Hs Ha Hk Hak. destruct (cut_ok e a k W Ha ltac:(lia) Hak) as (e1 & e' & -> & E2 & Hs' & W' & V). cbn [mbind option_bind]. rewrite E2.
  destruct (clear_same e' ltac:(congruence) W') as [W2 V2]. exists e'. split; [done|]. split; [done|]. rewrite <- V2, V.
  unfold spec_kill. by replace (k =? 0) with false by lia.
Qed.

(** One character removed, the clipboard kept. *)
Lemma remove_shows e a : wf e -> l_s e = -1 -> 0 <= a < l_len e ->
  shows (close_gap a 1 a e) (View (erase a 1 (v_text (view_of e))) a None (v_clip (view_of e))).
Proof.
  intros [W1 [W2 W2'] [W3 W3'] W4 W5 [W6 W7]] Hs Ha. destruct (close_gap_ok a 1 a e W1) as (b & -> & Lb & Nb & Eb); [lia..|].
  eexists. split; [done|]. split; [split|]; cbn [set_line l_buf l_len l_cur l_s l_e clip clip_len]; try done; try lia.
  - rewrite Eb. split; [by apply Forall_erase|done].
  - unfold view_of. cbn [set_line l_buf l_len l_cur l_s l_e clip clip_len v_text v_clip]. by rewrite Eb, Hs.
Qed.

Lemma insert_clear_shows c e : wf e -> l_s e = -1 -> c <> 0 -> l_len e < 255 ->
  shows (b ← shift_right (Z.to_nat (l_len e - l_cur e)) (l_len e) (l_buf e); b ← bput b (l_cur e) c; b ← bput b (l_len e + 1) 0;
         Some (set_line b (l_len e + 1) (l_cur e + 1) e))
    (View (ztake (l_cur e) (v_text (view_of e)) ++ [c] ++ zdrop (l_cur e) (v_text (view_of e))) (l_cur e + 1) None (v_clip (view_of e))).
Proof.
  intros W Hs Hc Hl. pose proof (view_len e W) as Lt. destruct W as [W1 [W2 W2'] [W3 W3'] W4 W5 [W6 W7]]. cbn [view_of v_text v_clip] in *.
  destruct (shift_right_ok (Z.to_nat (l_len e - l_cur e)) (l_len e) (l_buf e)) as (b & -> & L & H); [lia..|]. rewrite Z2Nat.id in H by lia.
  cbn [mbind option_bind]. rewrite bput_some by lia. cbn [mbind option_bind]. rewrite bput_some by (rewrite len_insert; lia). cbn [mbind option_bind].
  set (t := ztake (l_len e) (l_buf e)) in *. set (b' := <[Z.to_nat (l_len e + 1) := 0]> _).
  assert (E : ztake (l_len e + 1) b' = ztake (l_cur e) t ++ [c] ++ zdrop (l_cur e) t).
  { apply list_eq_z. intros j Hj. assert (Lc : len (ztake (l_cur e) t) = l_cur e) by (rewrite len_ztake; lia).
    rewrite lookup_ztake, lookup_zapp, Lc by done. cbn [app]. destruct (Z.ltb_spec j (l_len e + 1)).
    - unfold b'. rewrite lookup_bput by (rewrite ?len_insert; lia). replace (j =? l_len e + 1) with false by lia.
      rewrite lookup_bput by lia. destruct (Z.ltb_spec j (l_cur e)).
      + replace (j =? l_cur e) with false by lia. rewrite H by done. replace ((l_len e - (l_len e - l_cur e) <? j) && (j <=? l_len e)) with false by lia.
        unfold t. rewrite !lookup_ztake by done. by replace (j <? l_cur e) with true by lia; replace (j <? l_len e) with true by lia.
      + destruct (Z.eqb_spec j (l_cur e)) as [->|]; [by rewrite Z.sub_diag|]. rewrite H by done.
        replace ((l_len e - (l_len e - l_cur e) <? j) && (j <=? l_len e)) with true by lia.
        replace (Z.to_nat (j - l_cur e)) with (S (Z.to_nat (j - l_cur e - 1))) by lia. rewrite lookup_S.
        rewrite lookup_zdrop by lia. replace (l_cur e + (j - l_cur e - 1)) with (j - 1) by lia. unfold t. rewrite lookup_ztake by lia.
        by replace (j - 1 <? l_len e) with true by lia.
    - replace (j <? l_cur e) with false by lia. replace (Z.to_nat (j - l_cur e)) with (S (Z.to_nat (j - l_cur e - 1))) by lia. rewrite lookup_S.
      rewrite lookup_zdrop by lia. unfold t. rewrite lookup_ztake by lia. by replace (l_cur e + (j - l_cur e - 1) <? l_len e) with false by lia. }
  eexists. split; [done|]. split; [split|]; cbn [set_line l_buf l_len l_cur l_s l_e clip clip_len]; try done; try lia.
  - unfold b'. rewrite !len_insert. lia.
  - unfold b'. rewrite lookup_bput, Z.eqb_refl by (rewrite ?len_insert; lia). done.
  - rewrite E. split; [|done]. apply Forall_app. split; [by apply Forall_ztake|]. apply Forall_app. split; [by apply Forall_singleton|by apply Forall_zdrop].
  - unfold view_of. cbn [set_line l_buf l_len l_cur l_s l_e clip clip_len]. by rewrite E, Hs.
Qed.

Lemma wf_no_mark e : v_mark (view_of e) = None -> l_s e = -1.
Proof. cbn. by destruct (Z.eqb_spec (l_s e) (-1)). Qed.

Lemma spec_sel_delete_mark v : v_mark (spec_sel_delete v) = None.
Proof. unfold spec_sel_delete. by destruct (v_mark v) eqn:E. Qed.

(** * The operations *)

Lemma insert_shows c e : wf e -> c <> 0 -> shows (input_line_insert c e) (spec_insert c (view_of e)).
Proof.
  intros W Hc. unfold input_line_insert, spec_insert. destruct (sel_delete_shows e W) as (e1 & E1 & W1 & V1).
  replace (if negb (l_s e =? -1) then input_line_sel_delete e else Some e) with (Some e1)
    by (rewrite <- E1; unfold input_line_sel_delete; by destruct (l_s e =? -1)).
  cbn [mbind option_bind]. rewrite <- V1. pose proof (wf_no_mark e1 ltac:(rewrite V1; apply spec_sel_delete_mark)) as Hs.
  rewrite (view_len e1 W1). change (INPUT_LINE_MAX - 1) with 255. destruct (Z.leb_spec 255 (l_len e1)); [by exists e1|].
  apply insert_clear_shows; [done|done|done|lia].
Qed.

Lemma mark_decide e : (if decide (v_mark (view_of e) = None) then true else false) = (l_s e =? -1).
Proof. cbn. by destruct (l_s e =? -1). Qed.

Lemma backspace_shows e : wf e -> shows (input_line_backspace e) (spec_backspace (view_of e)).
Proof.
  intros W. unfold input_line_backspace, spec_backspace. pose proof (mark_decide e) as Hm. destruct (decide _) as [E|E]; rewrite <- Hm; cbn [negb].
  - cbn [view_of v_cur]. pose proof (wf_no_mark _ E). pose proof (wf_cur _ W). destruct (Z.leb_spec (l_cur e) 0); [by exists e|]. apply remove_shows; [done|done|lia].
  - by apply sel_delete_shows.
Qed.

Lemma delete_shows e : wf e -> shows (input_line_delete e) (spec_delete (view_of e)).
Proof.
  intros W. unfold input_line_delete, spec_delete. pose proof (mark_decide e) as Hm. destruct (decide _) as [E|E]; rewrite <- Hm; cbn [negb].
  - rewrite (view_len e W). cbn [view_of v_cur]. pose proof (wf_no_mark _ E). pose proof (wf_cur _ W).
    destruct (Z.leb_spec (l_len e) (l_cur e)); [by exists e|]. apply remove_shows; [done|done|lia].
  - by apply sel_delete_shows.
Qed.

(** The cursor anywhere in the line, without a selection. *)
Lemma move_shows c e : wf e -> 0 <= c <= l_len e -> shows (Some (set_cur c (input_line_sel_clear e))) (spec_move c (view_of e)).
Proof.
  intros [W1 W2 W3 W4 W5 W6] Hc. eexists. split; [done|]. split; [split; try done; cbn; lia|done].
Qed.

Lemma move_left_shows e : wf e -> shows (Some (input_line_move_left e)) (spec_move (Z.max 0 (l_cur e - 1)) (view_of e)).
Proof.
  intros W. pose proof (wf_cur _ W). pose proof (move_shows (Z.max 0 (l_cur e - 1)) e W ltac:(lia)) as M.
  unfold input_line_move_left. cbn zeta. cbn [input_line_sel_clear set_sel l_cur]. destruct (Z.ltb_spec 0 (l_cur e)).
  - by replace (Z.max 0 (l_cur e - 1)) with (l_cur e - 1) in * by lia.
  - replace (Z.max 0 (l_cur e - 1)) with (l_cur e) in * by lia. by destruct e.
Qed.

Lemma move_right_shows e : wf e -> shows (Some (input_line_move_right e)) (spec_move (Z.min (l_len e) (l_cur e + 1)) (view_of e)).
Proof.
  intros W. pose proof (wf_cur _ W). pose proof (move_shows (Z.min (l_len e) (l_cur e + 1)) e W ltac:(lia)) as M.
  unfold input_line_move_right. cbn zeta. cbn [input_line_sel_clear set_sel l_cur l_len]. destruct (Z.ltb_spec (l_cur e) (l_len e)).
  - by replace (Z.min (l_len e) (l_cur e + 1)) with (l_cur e + 1) in * by lia.
  - replace (Z.min (l_len e) (l_cur e + 1)) with (l_cur e) in * by lia. by destruct e.
Qed.

(** The mark set, and the cursor at [c]. *)
Lemma extend_shows c e : wf e -> 0 <= c <= l_len e ->
  shows (Some (set_sel (l_s (start_sel e)) c (set_cur c (start_sel e)))) (spec_extend c (view_of e)).
Proof.
  intros [W1 W2 W3 W4 W5 W6] Hc. eexists. split; [done|]. unfold start_sel, spec_extend, view_of. cbn [v_mark v_cur v_text v_clip].
  destruct (Z.eqb_spec (l_s e) (-1)) as [E|E].
  - split; [split; try done; cbn; lia|]. cbn. by replace (l_cur e =? -1) with false by lia.
  - split; [split; try done; cbn; lia|]. cbn. by replace (l_s e =? -1) with false by lia.
Qed.

Lemma extend_stay e : wf e -> set_sel (l_s (start_sel e)) (l_cur e) (set_cur (l_cur e) (start_sel e)) = start_sel e.
Proof.
  intros W. unfold start_sel. destruct (Z.eqb_spec (l_s e) (-1)); [done|]. destruct (wf_sel _ W) as [|[_ E]]; [done|]. destruct e. cbn in *. by subst.
Qed.

Lemma start_sel_same e : l_cur (start_sel e) = l_cur e /\ l_len (start_sel e) = l_len e.
Proof. unfold start_sel. by destruct (l_s e =? -1). Qed.

Lemma extend_left_shows e : wf e -> shows (Some (input_line_sel_extend_left e)) (spec_extend (Z.max 0 (l_cur e - 1)) (view_of e)).
Proof.
  intros W. pose proof (wf_cur _ W). pose proof (extend_shows (Z.max 0 (l_cur e - 1)) e W ltac:(lia)) as M. pose proof (extend_stay e W) as St.
  unfold input_line_sel_extend_left. cbn zeta. destruct (start_sel_same e) as [-> _]. destruct (Z.ltb_spec 0 (l_cur e)).
  - by replace (Z.max 0 (l_cur e - 1)) with (l_cur e - 1) in * by lia.
  - replace (Z.max 0 (l_cur e - 1)) with (l_cur e) in * by lia. by rewrite St in M.
Qed.

Lemma extend_right_shows e : wf e -> shows (Some (input_line_sel_extend_right e)) (spec_extend (Z.min (l_len e) (l_cur e + 1)) (view_of e)).
Proof.
  intros W. pose proof (wf_cur _ W). pose proof (extend_shows (Z.min (l_len e) (l_cur e + 1)) e W ltac:(lia)) as M. pose proof (extend_stay e W) as St.
  unfold input_line_sel_extend_right. cbn zeta. destruct (start_sel_same e) as [-> ->]. destruct (Z.ltb_spec (l_cur e) (l_len e)).
  - by replace (Z.min (l_len e) (l_cur e + 1)) with (l_cur e + 1) in * by lia.
  - replace (Z.min (l_len e) (l_cur e + 1)) with (l_cur e) in * by lia. by rewrite St in M.
Qed.

Lemma kill_to_end_shows e : wf e -> l_s e = -1 -> shows (input_line_kill_to_end e) (spec_kill (l_cur e) (l_len e - l_cur e) (view_of e)).
Proof.
  intros [W1 [W2 W2'] [W3 W3'] W4 W5 [W6 W7]] Hs. unfold input_line_kill_to_end, spec_kill.
  destruct (Z.leb_spec (l_len e) (l_cur e)); [replace (l_len e - l_cur e =? 0) with true by lia; by exists e|].
  replace (l_len e - l_cur e =? 0) with false by lia. destruct (save_clip_ok (l_cur e) (l_len e - l_cur e) e W1 W2) as (c & -> & Lc & Ec); [lia..|].
  cbn [mbind option_bind set_clip l_buf l_cur]. rewrite bput_some by lia. cbn [mbind option_bind].
  set (t := ztake (l_len e) (l_buf e)) in *. assert (Lt : len t = l_len e) by (unfold t; rewrite len_ztake; lia).
  assert (Eb : ztake (l_cur e) (<[Z.to_nat (l_cur e) := 0]> (l_buf e)) = erase (l_cur e) (l_len e - l_cur e) t).
  { unfold erase. rewrite (zdrop_past _ t), app_nil_r by lia.
    apply list_eq_z. intros j Hj. unfold t. rewrite !lookup_ztake by done. destruct (Z.ltb_spec j (l_cur e)); [|done].
    rewrite lookup_bput by lia. by replace (j =? l_cur e) with false by lia; replace (j <? l_len e) with true by lia. }
  eexists. split; [done|]. split; [split|]; cbn [set_line set_clip l_buf l_len l_cur l_s l_e clip clip_len]; try done; try lia.
  - rewrite len_insert. lia.
  - rewrite lookup_bput, Z.eqb_refl by lia. done.
  - rewrite Eb, Ec. split; [by apply Forall_erase|by apply Forall_ztake, Forall_zdrop].
  - unfold view_of. cbn [set_line set_clip l_buf l_len l_cur l_s l_e clip clip_len v_text]. by rewrite Eb, Ec, Hs.
Qed.

Lemma kill_to_start_shows e : wf e -> l_s e = -1 -> shows (input_line_kill_to_start e) (spec_kill 0 (l_cur e) (view_of e)).
Proof.
  intros W Hs. unfold input_line_kill_to_start. pose proof (wf_cur _ W). destruct (Z.eqb_spec (l_cur e) 0) as [->|]; [by exists e|].
  apply kill_shows; [done|done|lia..].
Qed.

(** ** Words *)

Lemma reverse_ztake (b : list Z) i x : 0 < i -> b !! Z.to_nat (i - 1) = Some x -> reverse (ztake i b) = x :: reverse (ztake (i - 1) b).
Proof.
  intros Hi Hx. unfold ztake. replace (Z.to_nat i) with (S (Z.to_nat (i - 1))) by lia. by rewrite (take_S_r _ _ _ Hx), reverse_snoc.
Qed.

Lemma skip_word_back_ok (b : list Z) n : forall i, 0 <= i <= len b -> i < Z.of_nat n ->
  skip_word_back n b i = Some (len (drop_while nonspace (reverse (ztake i b)))).
Proof.
  induction n as [|n IH]; intros i Hi Hn; [lia|]. cbn [skip_word_back]. destruct (Z.ltb_spec 0 i).
  - destruct (bget_lookup b (i - 1)) as (x & -> & Hx); [lia|]. cbn [mbind option_bind]. rewrite (reverse_ztake b i x) by done. cbn [drop_while].
    unfold nonspace at 1. destruct (x =? SPACE); cbn [negb].
    + f_equal. rewrite len_cons. unfold len. rewrite length_reverse. fold (len (ztake (i - 1) b)). rewrite len_ztake; lia.
    + apply IH; lia.
  - by replace i with 0 by lia.
Qed.

Lemma skip_spaces_back_ok (b : list Z) n : forall i, 0 <= i < len b -> i < Z.of_nat n ->
  exists j, skip_spaces_back n b i = Some j /\ 0 <= j <= i /\
    drop_while nonspace (reverse (ztake j b)) = drop_while nonspace (drop_while (fun x => x =? SPACE) (reverse (ztake (i + 1) b))).
Proof.
  induction n as [|n IH]; intros i Hi Hn; [lia|]. cbn [skip_spaces_back].
  destruct (bget_lookup b i) as (x & E & Hx); [lia|]. rewrite (reverse_ztake b (i + 1) x) by (rewrite ?Z.add_simpl_r; done || lia).
  rewrite Z.add_simpl_r. cbn [drop_while]. destruct (Z.ltb_spec 0 i).
  - rewrite E. cbn [mbind option_bind]. destruct (x =? SPACE) eqn:Ex.
    + destruct (IH (i - 1)) as (j & -> & Hj & D); [lia..|]. exists j. split_and!; [done|lia..|]. by rewrite D, Z.sub_add.
    + exists i. split_and!; [done|lia..|]. cbn [drop_while]. unfold nonspace at 2. by rewrite Ex.
  - replace i with 0 by lia. exists 0. split_and!; [done|lia..|]. rewrite !ztake_0. destruct (x =? SPACE) eqn:Ex; [done|]. unfold nonspace. cbn. by rewrite Ex.
Qed.

Lemma drop_while_len p l : len (drop_while p l) <= len l.
Proof. induction l as [|x l IH]; cbn [drop_while]; [lia|]. rewrite len_cons. destruct (p x); [lia|rewrite len_cons; lia]. Qed.

Lemma word_start_ok e : wf e -> l_cur e <> 0 -> word_start e = Some (before_word (ztake (l_cur e) (v_text (view_of e)))).
Proof.
  intros W H0. pose proof (wf_buf _ W). pose proof (wf_cur _ W). unfold word_start. cbn [view_of v_text]. rewrite ztake_ztake by lia.
  destruct (skip_spaces_back_ok (l_buf e) (S (Z.to_nat (l_cur e))) (l_cur e - 1)) as (j & -> & Hj & D); [lia..|]. cbn [mbind option_bind].
  rewrite skip_word_back_ok by lia. rewrite D, Z.sub_add. done.
Qed.

Lemma before_word_lt (t : list Z) : t <> [] -> 0 <= before_word t < len t.
Proof.
  intros Ht. unfold before_word. assert (len (reverse t) = len t) as <- by (unfold len; by rewrite length_reverse).
  assert (reverse t <> []) by (intros E; apply Ht; by rewrite <- (reverse_involutive t), E). split; [apply len_nonneg|].
  destruct (reverse t) as [|x l]; [done|]. cbn [drop_while]. rewrite len_cons. destruct (x =? SPACE) eqn:E.
  - pose proof (drop_while_len nonspace (drop_while (fun x => x =? SPACE) l)). pose proof (drop_while_len (fun x => x =? SPACE) l). lia.
  - cbn [drop_while]. unfold nonspace at 1. rewrite E. cbn [negb]. pose proof (drop_while_len nonspace l). lia.
Qed.

(** The word before the cursor, as the specification sees it. *)
Definition word_of (v : view) : Z := before_word (ztake (v_cur v) (v_text v)).

Lemma word_of_bounds e : wf e -> l_cur e <> 0 -> 0 <= word_of (view_of e) < l_cur e.
Proof.
  intros W H0. pose proof (wf_cur _ W). pose proof (view_len e W) as Lt. unfold word_of. change (v_cur (view_of e)) with (l_cur e).
  assert (L : len (ztake (l_cur e) (v_text (view_of e))) = l_cur e) by (rewrite len_ztake; lia).
  pose proof (before_word_lt (ztake (l_cur e) (v_text (view_of e)))) as B. rewrite L in B. apply B.
  intros E. apply H0. rewrite <- L. by rewrite E.
Qed.

Lemma kill_word_back_shows e : wf e -> l_s e = -1 ->
  shows (input_line_kill_word_back e) (spec_kill (word_of (view_of e)) (l_cur e - word_of (view_of e)) (view_of e)).
Proof.
  intros W Hs. unfold input_line_kill_word_back. pose proof (wf_cur _ W). destruct (Z.eqb_spec (l_cur e) 0) as [E|E].
  - unfold word_of. cbn [view_of v_cur]. rewrite E, ztake_0. by exists e.
  - rewrite word_start_ok by done. pose proof (word_of_bounds e W E). apply kill_shows; [done|done|unfold word_of in *; cbn [view_of v_cur v_text] in *; lia..].
Qed.

Lemma move_word_left_shows e : wf e -> shows (input_line_move_word_left e) (spec_move (word_of (view_of e)) (view_of e)).
Proof.
  intros W. unfold input_line_move_word_left. cbn zeta. change (l_cur (input_line_sel_clear e)) with (l_cur e). pose proof (wf_cur _ W).
  destruct (Z.eqb_spec (l_cur e) 0) as [E|E].
  - unfold word_of. cbn [view_of v_cur]. rewrite E, ztake_0. change (before_word []) with 0. pose proof (move_shows 0 e W ltac:(lia)) as M.
    destruct e. cbn in E. subst. exact M.
  - change (word_start (input_line_sel_clear e)) with (word_start e). rewrite word_start_ok by done. pose proof (word_of_bounds e W E).
    cbn [mbind option_bind]. apply move_shows; [done|lia].
Qed.

(** ** Yank *)

Definition spec_yank (v : view) : view := fold_left (fun v x => spec_insert x v) (v_clip v) v.

Lemma spec_insert_clip c v : v_mark v = None -> v_mark (spec_insert c v) = None /\ v_clip (spec_insert c v) = v_clip v.
Proof. intros E. unfold spec_insert, spec_sel_delete. rewrite E. by destruct (255 <=? len (v_text v)). Qed.

Lemma yank_loop_shows n : forall i e, wf e -> l_s e = -1 -> 0 <= i <= clip_len e -> clip_len e - i < Z.of_nat n ->
  shows (yank_loop n i e) (fold_left (fun v x => spec_insert x v) (zdrop i (v_clip (view_of e))) (view_of e)).
Proof.
  induction n as [|n IH]; intros i e W Hs Hi Hn; [lia|]. cbn [yank_loop]. destruct (wf_clip _ W) as [Lc Hc].
  assert (Lv : len (v_clip (view_of e)) = clip_len e) by (cbn; rewrite len_ztake; lia). destruct (Z.ltb_spec i (clip_len e)).
  - destruct (bget_lookup (clip e) i) as (x & -> & Hx); [lia|]. cbn [mbind option_bind].
    assert (Hv : v_clip (view_of e) !! Z.to_nat i = Some x) by (cbn [view_of v_clip]; rewrite lookup_ztake by lia; by replace (i <? clip_len e) with true by lia).
    assert (Hx0 : x <> 0) by (eapply (Forall_lookup_1 _ _ _ _ (proj2 (wf_text _ W))); exact Hv).
    destruct (insert_shows x e W Hx0) as (e1 & -> & W1 & V1). cbn [mbind option_bind].
    assert (Hm : v_mark (view_of e) = None) by (cbn; by rewrite Hs). destruct (spec_insert_clip x _ Hm) as [Hm1 Hc1]. rewrite <- V1 in Hm1, Hc1.
    assert (Lv1 : clip_len e1 = clip_len e).
    { rewrite <- Lv, <- Hc1. cbn. destruct (wf_clip _ W1). rewrite len_ztake; lia. }
    unfold zdrop at 1. rewrite (drop_S _ _ _ Hv). cbn [fold_left]. rewrite <- V1, <- Hc1.
    replace (S (Z.to_nat i)) with (Z.to_nat (i + 1)) by lia. apply IH; [done|by apply wf_no_mark|lia..].
  - rewrite zdrop_past by lia. by exists e.
Qed.

Lemma yank_shows e : wf e -> l_s e = -1 -> shows (input_line_yank e) (spec_yank (view_of e)).
Proof.
  intros W Hs. destruct (wf_clip _ W). pose proof (yank_loop_shows (Z.to_nat INPUT_CLIPBOARD_MAX + 1) 0 e W Hs) as Y. rewrite zdrop_0 in Y.
  apply Y; [lia|]. unfold INPUT_CLIPBOARD_MAX. lia.
Qed.

(** The word under the cursor and the spaces after it. *)
Definition after_word (v : view) : Z :=
  len (v_text v) - len (drop_while (fun x => x =? SPACE) (drop_while nonspace (zdrop (v_cur v) (v_text v)))).

Lemma skip_fwd_ok (b : list Z) sp stop n : forall i, 0 <= i <= stop -> stop <= len b -> stop - i < Z.of_nat n ->
  exists j, skip_fwd n sp b stop i = Some j /\ i <= j <= stop /\
    zdrop j (ztake stop b) = drop_while (fun x => Bool.eqb (x =? SPACE) sp) (zdrop i (ztake stop b)).
Proof.
  induction n as [|n IH]; intros i Hi Hs Hn; [lia|]. cbn [skip_fwd]. destruct (Z.ltb_spec i stop).
  - destruct (bget_lookup b i) as (x & -> & Hx); [lia|]. cbn [mbind option_bind].
    assert (E : zdrop i (ztake stop b) = x :: zdrop (i + 1) (ztake stop b)).
    { unfold zdrop. rewrite (drop_S _ x (Z.to_nat i)); [|rewrite lookup_ztake by lia; by replace (i <? stop) with true by lia]. do 2 f_equal. lia. }
    rewrite E. cbn [drop_while]. destruct (Bool.eqb (x =? SPACE) sp).
    + destruct (IH (i + 1)) as (j & -> & Hj & D); [lia..|]. exists j. split_and!; [done|lia..|done].
    + exists i. split_and!; [done|lia..|done].
  - exists i. split_and!; [done|lia..|]. rewrite zdrop_past by (rewrite len_ztake; lia). done.
Qed.

Lemma drop_while_ext p q l : (forall x : Z, p x = q x) -> drop_while p l = drop_while q l.
Proof. intros H. induction l as [|x l IH]; [done|]. cbn. by rewrite H, IH. Qed.

Lemma move_word_right_shows e : wf e -> shows (input_line_move_word_right e) (spec_move (after_word (view_of e)) (view_of e)).
Proof.
  intros W. pose proof (wf_cur _ W). pose proof (wf_buf _ W). unfold input_line_move_word_right, after_word. rewrite (view_len e W). cbn zeta.
  cbn [view_of v_cur v_text input_line_sel_clear set_sel l_len l_cur l_buf]. destruct (Z.leb_spec (l_len e) (l_cur e)).
  - rewrite zdrop_past by (rewrite len_ztake; lia). change (len (drop_while _ (drop_while nonspace []))) with 0. rewrite Z.sub_0_r.
    pose proof (move_shows (l_len e) e W ltac:(lia)) as M. replace (l_len e) with (l_cur e) in * by lia. by destruct e.
  - destruct (skip_fwd_ok (l_buf e) false (l_len e) (S (Z.to_nat (l_len e - l_cur e))) (l_cur e)) as (j & -> & Hj & D); [lia..|]. cbn [mbind option_bind].
    destruct (skip_fwd_ok (l_buf e) true (l_len e) (S (Z.to_nat (l_len e - l_cur e))) j) as (k & -> & Hk & D2); [lia..|]. cbn [mbind option_bind].
    rewrite (drop_while_ext nonspace (fun x => Bool.eqb (x =? SPACE) false)) by (intros x; unfold nonspace; by destruct (x =? SPACE)).
    rewrite (drop_while_ext (fun x => x =? SPACE) (fun x => Bool.eqb (x =? SPACE) true)) by (intros x; by destruct (x =? SPACE)).
    rewrite <- D, <- D2, len_zdrop, len_ztake by (rewrite ?len_ztake; lia). replace (l_len e - (l_len e - k)) with k by lia. apply move_shows; [done|lia].
Qed.

(** * The history *)

(** [b] starts with the C string [x]. *)
Definition holds (b x : list Z) : Prop := Forall (fun c => c <> 0) x /\ exists junk, b = x ++ 0 :: junk.

Record hist_rep (h : history) (l : list (list Z)) : Prop := {
  hr_entries : length (h_entries h) = 50%nat /\ Forall (fun b => len b = 256) (h_entries h);
  hr_count : h_count h = len l /\ len l <= 50;
  hr_current : 0 <= h_current h <= len l;
  hr_hold : forall i x, l !! i = Some x -> exists b, h_entries h !! i = Some b /\ holds b x
}.

Lemma string_in_app l : forall n (pre junk : list Z), Forall (fun c => c <> 0) l -> (length l <= n)%nat ->
  string_in n (len pre) (pre ++ l ++ 0 :: junk) = Some l.
Proof.
  induction l as [|x l IH]; intros n pre junk F Hn.
  - destruct n as [|n]; [done|]. cbn [string_in app]. rewrite bget_some by (rewrite len_app, len_cons; pose proof (len_nonneg pre); pose proof (len_nonneg junk); lia).
    replace (Z.to_nat (len pre)) with (length pre) by (unfold len; lia). rewrite lookup_total_app_r, Nat.sub_diag by lia. done.
  - destruct n as [|n]; [cbn in Hn; lia|]. cbn [string_in app]. apply Forall_cons in F as [Fx F].
    rewrite bget_some by (rewrite len_app, len_cons, len_app; pose proof (len_nonneg pre); pose proof (len_nonneg l); pose proof (len_nonneg (0 :: junk)); lia).
    replace (Z.to_nat (len pre)) with (length pre) by (unfold len; lia). rewrite lookup_total_app_r, Nat.sub_diag by lia. cbn [mbind option_bind lookup_total list_lookup_total].
    replace (x =? 0) with false by lia. replace (len pre + 1) with (len (pre ++ [x])) by (rewrite len_app; done).
    replace (pre ++ x :: l ++ 0 :: junk) with ((pre ++ [x]) ++ l ++ 0 :: junk) by (by rewrite <- app_assoc).
    rewrite IH; [done|done|cbn in Hn; lia].
Qed.

Lemma string_in_holds (b x : list Z) : holds b x -> len b = 256 -> string_in (Z.to_nat (INPUT_LINE_MAX - 1)) 0 b = Some x /\ len x <= 255.
Proof.
  intros [F [junk ->]] L. rewrite len_app, len_cons in L. pose proof (len_nonneg junk).
  split; [|lia]. apply (string_in_app x _ [] junk F). change (Z.to_nat (INPUT_LINE_MAX - 1)) with 255%nat. unfold len in *. lia.
Qed.

(** Writing a string at the start of an array. *)
Lemma bblit_holds (b x : list Z) : len b = 256 -> Forall (fun c => c <> 0) x -> len x <= 255 ->
  exists b', bblit b 0 (x ++ [0]) = Some b' /\ len b' = 256 /\ holds b' x.
Proof.
  intros L F Hx. assert (E : len (x ++ [0]) = len x + 1) by (rewrite len_app; done). eexists. split; [apply bblit_some; [done|lia]|].
  rewrite ztake_0, E. cbn [app]. pose proof (len_nonneg x). split.
  - rewrite !len_app, len_zdrop by lia. rewrite len_cons. change (len []) with 0. lia.
  - split; [done|]. exists (zdrop (0 + (len x + 1)) b). by rewrite <- app_assoc.
Qed.

(** The buffer of a line holds its text. *)
Lemma wf_holds e : wf e -> holds (l_buf e) (v_text (view_of e)).
Proof.
  intros W. split; [exact (proj1 (wf_text _ W))|]. pose proof (wf_cur _ W). exists (zdrop (l_len e + 1) (l_buf e)). cbn [view_of v_text].
  rewrite <- (ztake_zdrop (l_len e) (l_buf e)) at 1. f_equal. unfold zdrop. rewrite (drop_S _ _ _ (wf_nul _ W)). do 2 f_equal. lia.
Qed.

Lemma list_insert_hold es (b x : list Z) (l : list (list Z)) : (length l < length es)%nat -> holds b x ->
  (forall i y, l !! i = Some y -> exists b, es !! i = Some b /\ holds b y) ->
  forall i y, (l ++ [x]) !! i = Some y -> exists b', <[length l := b]> es !! i = Some b' /\ holds b' y.
Proof.
  intros Hl Hb H i y. destruct (decide (i < length l)%nat) as [Hi|Hi].
  - rewrite lookup_app_l, list_lookup_insert_ne by lia. apply H.
  - rewrite lookup_app_r by lia. intros E. assert (Ei : (i - length l)%nat = 0%nat) by (apply lookup_lt_Some in E; cbn in E; lia).
    rewrite Ei in E. injection E as <-. replace i with (length l) by lia. exists b. by rewrite list_lookup_insert_eq by lia.
Qed.

(** One more line in the history; the oldest of fifty goes. *)
Definition spec_push (t : list Z) (l : list (list Z)) : list (list Z) := (if 50 <=? len l then drop 1 l else l) ++ [t].

Lemma push_ok h l e : hist_rep h l -> wf e ->
  exists h', input_history_push (l_buf e) h = Some h' /\ hist_rep h' (spec_push (v_text (view_of e)) l) /\
    h_current h' = len (spec_push (v_text (view_of e)) l).
Proof.
  intros [[Le Fe] [Hc Hc2] Hp Hh] W. unfold input_history_push, spec_push. cbn zeta. rewrite Hc. change INPUT_HISTORY_MAX with 50.
  destruct (string_in_holds _ _ (wf_holds e W) (wf_buf _ W)) as [-> Hx]. cbn [mbind option_bind]. set (t := v_text (view_of e)) in *.
  assert (Ft : Forall (fun c => c <> 0) t) by exact (proj1 (wf_text _ W)).
  set (es := if 50 <=? len l then _ else h_entries h). set (l' := if 50 <=? len l then drop 1 l else l). set (n := if 50 <=? len l then _ else len l).
  assert (Hn : n = len l' /\ len l' < 50).
  { unfold n, l'. destruct (Z.leb_spec 50 (len l)); [|lia]. unfold len in *. rewrite length_drop. lia. }
  assert (Les : length es = 50%nat).
  { unfold es. destruct (50 <=? len l); [|done]. rewrite length_app, length_drop, Le. done. }
  assert (Fes : Forall (fun b => len b = 256) es).
  { unfold es. destruct (50 <=? len l); [|done]. apply Forall_app. split; [by apply Forall_drop|]. apply Forall_singleton.
    destruct (last (h_entries h)) eqn:E; [|done]. rewrite last_lookup in E. by apply (Forall_lookup_1 _ _ _ _ Fe E). }
  assert (Hh' : forall i y, l' !! i = Some y -> exists b, es !! i = Some b /\ holds b y).
  { unfold l', es. destruct (Z.leb_spec 50 (len l)); [|done]. intros i y. rewrite lookup_drop. intros E. destruct (Hh _ _ E) as (b & Eb & B).
    exists b. split; [|done]. pose proof (lookup_lt_Some _ _ _ E). unfold len in *. rewrite lookup_app_l by (rewrite length_drop; lia). by rewrite lookup_drop. }
  destruct Hn as [En Hn]. pose proof (len_nonneg l'). unfold entry_at, INPUT_HISTORY_MAX. replace ((0 <=? n) && (n <? 50)) with true by lia. cbn [h_entries].
  destruct (lookup_lt_is_Some_2 es (Z.to_nat n)) as [old Eo]; [lia|]. rewrite Eo. cbn [mbind option_bind].
  destruct (bblit_holds old t) as (b & -> & Lb & B); [by apply (Forall_lookup_1 _ _ _ _ Fes Eo)|done|done|]. cbn [mbind option_bind].
  assert (Ll : len (l' ++ [t]) = n + 1) by (rewrite len_app, En; done). assert (Nn : Z.to_nat n = length l') by (rewrite En; unfold len; lia).
  eexists. split; [done|]. cbn [h_current]. split; [split; cbn [h_entries h_count h_current]|by rewrite Ll].
  - rewrite length_insert. split; [done|]. by apply Forall_insert.
  - lia.
  - lia.
  - rewrite Nn. apply list_insert_hold; [unfold len in *; lia|done|done].
Qed.

(** Text from the history, or none, in the line. *)
Definition spec_load (x : list Z) (v : view) : view := View x (len x) None (v_clip v).

Lemma load_shows b x e : wf e -> holds b x -> len b = 256 -> shows (input_history_load b e) (spec_load x (view_of e)).
Proof.
  intros W B L. unfold input_history_load. destruct (string_in_holds _ _ B L) as [-> Hx]. cbn [mbind option_bind]. destruct B as [F _].
  destruct (bblit_holds blank x len_blank F Hx) as (b' & -> & Lb & [_ [junk ->]]). cbn [mbind option_bind]. pose proof (len_nonneg x).
  destruct W as [W1 [W2 W2'] W3 W4 W5 [W6 W7]]. eexists. split; [done|]. split; [split|]; cbn [l_buf l_len l_cur l_s l_e clip clip_len]; try done; try lia.
  - rewrite lookup_zapp, Z.ltb_irrefl, Z.sub_diag by lia. done.
  - by rewrite ztake_app.
  - unfold view_of. cbn [l_buf l_len l_cur l_s l_e clip clip_len]. by rewrite ztake_app.
Qed.

Lemma init_shows e : wf e -> shows (Some (input_line_init e)) (spec_load [] (view_of e)).
Proof.
  intros [W1 [W2 W2'] W3 W4 W5 [W6 W7]]. eexists. split; [done|]. split; [split|]; cbn [input_line_init l_buf l_len l_cur l_s l_e clip clip_len]; try done; try lia.
Qed.

Lemma prev_ok h l : hist_rep h l -> 0 < h_current h ->
  exists b x, input_history_prev h = Some (Some b, History (h_entries h) (h_count h) (h_current h - 1)) /\
    l !! Z.to_nat (h_current h - 1) = Some x /\ holds b x /\ len b = 256.
Proof.
  intros [[Le Fe] [Hc Hc2] Hp Hh] H0. unfold input_history_prev. replace (0 <? h_current h) with true by lia.
  destruct (lookup_lt_is_Some_2 l (Z.to_nat (h_current h - 1))) as [x Hx]; [unfold len in *; lia|]. destruct (Hh _ _ Hx) as (b & Eb & B).
  exists b, x. unfold entry_at, INPUT_HISTORY_MAX. replace ((0 <=? h_current h - 1) && (h_current h - 1 <? 50)) with true by lia. rewrite Eb.
  split_and!; [done..|]. by apply (Forall_lookup_1 _ _ _ _ Fe Eb).
Qed.

Lemma next_ok h l : hist_rep h l -> h_current h < len l - 1 ->
  exists b x, input_history_next h = Some (Some b, History (h_entries h) (h_count h) (h_current h + 1)) /\
    l !! Z.to_nat (h_current h + 1) = Some x /\ holds b x /\ len b = 256.
Proof.
  intros [[Le Fe] [Hc Hc2] Hp Hh] H0. unfold input_history_next. rewrite Hc. replace (h_current h <? len l - 1) with true by lia.
  destruct (lookup_lt_is_Some_2 l (Z.to_nat (h_current h + 1))) as [x Hx]; [unfold len in *; lia|]. destruct (Hh _ _ Hx) as (b & Eb & B).
  exists b, x. unfold entry_at, INPUT_HISTORY_MAX. replace ((0 <=? h_current h + 1) && (h_current h + 1 <? 50)) with true by lia. rewrite Eb.
  split_and!; [done..|]. by apply (Forall_lookup_1 _ _ _ _ Fe Eb).
Qed.

(** Another place in the history. *)
Lemma hist_rep_at h l c : hist_rep h l -> 0 <= c <= len l -> hist_rep (History (h_entries h) (h_count h) c) l.
Proof. by intros [H1 H2 H3 H4] Hc. Qed.

(** * The session: a line, the lines before it, and the place among them *)

Record session := Session { s_view : view; s_hist : list (list Z); s_at : Z }.

Definition on_view (f : view -> view) (s : session) : session := Session (f (s_view s)) (s_hist s) (s_at s).

Definition spec_enter (s : session) : session :=
  let t := v_text (s_view s) in
  let l := spec_push t (s_hist s) in
  if len t =? 0 then on_view (spec_load []) s else Session (spec_load [] (s_view s)) l (len l).
Definition spec_up (s : session) : session :=
  if 0 <? s_at s then Session (spec_load (default [] (s_hist s !! Z.to_nat (s_at s - 1))) (s_view s)) (s_hist s) (s_at s - 1) else s.
Definition spec_down (s : session) : session :=
  if s_at s <? len (s_hist s) - 1
  then Session (spec_load (default [] (s_hist s !! Z.to_nat (s_at s + 1))) (s_view s)) (s_hist s) (s_at s + 1)
  else Session (spec_load [] (s_view s)) (s_hist s) (len (s_hist s)).

Definition spec_key (c : Z) (s : session) : session :=
  let v := s_view s in
  if (c =? 10) || (c =? 13) then spec_enter s
  else if c =? 8 then on_view spec_backspace s
  else if c =? CHAR_DELETE then on_view spec_delete s
  else if c =? CHAR_ARROW_LEFT then on_view (spec_move (Z.max 0 (v_cur v - 1))) s
  else if c =? CHAR_ARROW_RIGHT then on_view (spec_move (Z.min (len (v_text v)) (v_cur v + 1))) s
  else if c =? CHAR_ARROW_UP then spec_up s
  else if c =? CHAR_ARROW_DOWN then spec_down s
  else if c =? CHAR_SELECT_LEFT then on_view (spec_extend (Z.max 0 (v_cur v - 1))) s
  else if c =? CHAR_SELECT_RIGHT then on_view (spec_extend (Z.min (len (v_text v)) (v_cur v + 1))) s
  else if c =? CHAR_CTRL_A then on_view (spec_move 0) s
  else if c =? CHAR_CTRL_E then on_view (spec_move (len (v_text v))) s
  else if c =? CHAR_CTRL_K then on_view (spec_kill (v_cur v) (len (v_text v) - v_cur v)) s
  else if c =? CHAR_CTRL_U then on_view (spec_kill 0 (v_cur v)) s
  else if c =? CHAR_CTRL_W then on_view (spec_kill (word_of v) (v_cur v - word_of v)) s
  else if c =? CHAR_CTRL_Y then on_view spec_yank s
  else if (32 <=? c) && (c <=? 126) then on_view (spec_insert c) s
  else s.

(** No kill and no yank while a selection is active. *)
Definition key_ok (c : Z) (s : session) : bool :=
  negb ((CHAR_CTRL_K <=? c) && (c <=? CHAR_CTRL_Y)) || bool_decide (v_mark (s_view s) = None).

Fixpoint keys_ok (l : list Z) (s : session) : bool :=
  match l with [] => true | c :: l => key_ok c s && keys_ok l (spec_key c s) end.

Definition spec_keys (l : list Z) (s : session) : session := fold_left (fun s c => spec_key c s) l s.
Definition fresh_session : session := Session (View [] 0 None []) [] 0.

Definition refines (e : editor) (h : history) (s : session) : Prop :=
  wf e /\ view_of e = s_view s /\ hist_rep h (s_hist s) /\ h_current h = s_at s.

Lemma on_view_refines e h r s f : refines e h s -> shows r (f (view_of e)) ->
  exists e' h', with_hist h r = Some (e', h') /\ refines e' h' (on_view f s).
Proof.
  intros (W & V & H & C) (e' & -> & W' & V'). exists e', h. split; [done|]. split_and!; [done|by rewrite V', V|done|done].
Qed.

Lemma enter_refines e h s : refines e h s ->
  exists e' h', (h ← (if 0 <? l_len e then input_history_push (l_buf e) h else Some h); Some (input_line_init e, h)) = Some (e', h') /\ refines e' h' (spec_enter s).
Proof.
  intros (W & V & H & C). destruct (init_shows e W) as (e' & [= <-] & W' & V'). unfold spec_enter. cbn zeta. rewrite <- V, (view_len e W).
  pose proof (wf_cur _ W). destruct (Z.ltb_spec 0 (l_len e)).
  - replace (l_len e =? 0) with false by lia. destruct (push_ok h _ e H W) as (h' & -> & H' & C'). eexists _, h'. split; [done|]. by split_and!.
  - replace (l_len e =? 0) with true by lia. eexists _, h. split; [done|]. split_and!; [done|by rewrite V', V|done|done].
Qed.

Lemma up_refines e h s : refines e h s ->
  exists e' h', ('(p, h) ← input_history_prev h; match p with Some p => with_hist h (input_history_load p e) | None => Some (e, h) end) = Some (e', h') /\
    refines e' h' (spec_up s).
Proof.
  intros (W & V & H & C). unfold spec_up. rewrite <- C. destruct (Z.ltb_spec 0 (h_current h)) as [Hp|Hp].
  - destruct (prev_ok h _ H Hp) as (b & x & -> & -> & B & Lb). cbn [mbind option_bind default]. destruct (load_shows b x e W B Lb) as (e' & -> & W' & V').
    eexists _, _. split; [done|]. split_and!; [done|by rewrite V', V|apply hist_rep_at; [done|]|done]. pose proof (hr_current _ _ H). cbn [s_hist]. lia.
  - unfold input_history_prev. replace (0 <? h_current h) with false by lia. exists e, h. by split_and!.
Qed.

Lemma down_refines e h s : refines e h s ->
  exists e' h', ('(p, h) ← input_history_next h; match p with Some p => with_hist h (input_history_load p e) | None => Some (input_line_init e, h) end) = Some (e', h') /\
    refines e' h' (spec_down s).
Proof.
  intros (W & V & H & C). unfold spec_down. rewrite <- C. pose proof (hr_current _ _ H). destruct (Z.ltb_spec (h_current h) (len (s_hist s) - 1)) as [Hp|Hp].
  - destruct (next_ok h _ H Hp) as (b & x & -> & -> & B & Lb). cbn [mbind option_bind default]. destruct (load_shows b x e W B Lb) as (e' & -> & W' & V').
    eexists _, _. split; [done|]. split_and!; [done|by rewrite V', V|apply hist_rep_at; [done|]|done]. cbn [s_hist]. lia.
  - destruct (hr_count _ _ H) as [Hc Hc2]. unfold input_history_next. rewrite Hc. replace (h_current h <? len (s_hist s) - 1) with false by lia.
    destruct (init_shows e W) as (e' & [= <-] & W' & V'). eexists _, _. split; [done|]. split_and!; [done|by rewrite V', V| |done].
    rewrite <- Hc at 1. apply hist_rep_at; [done|]. cbn [s_hist]. lia.
Qed.

Lemma key_ok_mark c e h s : refines e h s -> key_ok c s = true -> CHAR_CTRL_K <= c <= CHAR_CTRL_Y -> l_s e = -1.
Proof.
  intros (W & V & _) K Hc. apply wf_no_mark. rewrite V. unfold key_ok in K. replace ((CHAR_CTRL_K <=? c) && (c <=? CHAR_CTRL_Y)) with true in K by lia.
  by apply bool_decide_eq_true in K.
Qed.

Lemma shell_key_refines c e h s : refines e h s -> key_ok c s = true ->
  exists e' h', shell_key c e h = Some (e', h') /\ refines e' h' (spec_key c s).
Proof.
  intros R K. pose proof (key_ok_mark c e h s R K) as Hm. pose proof R as (W & V & H & C). unfold shell_key, spec_key. cbn zeta. rewrite <- V, (view_len e W). change (v_cur (view_of e)) with (l_cur e).
  pose proof (wf_cur _ W) as Hcur. destruct ((c =? 10) || (c =? 13)); [by apply enter_refines|].
  destruct (c =? 8); [by apply (on_view_refines e); [|apply backspace_shows]|].
  destruct (c =? CHAR_DELETE); [by apply (on_view_refines e); [|apply delete_shows]|].
  destruct (c =? CHAR_ARROW_LEFT); [by apply (on_view_refines e _ (Some _)); [|apply move_left_shows]|].
  destruct (c =? CHAR_ARROW_RIGHT); [by apply (on_view_refines e _ (Some _)); [|apply move_right_shows]|].
  destruct (c =? CHAR_ARROW_UP); [by apply up_refines|]. destruct (c =? CHAR_ARROW_DOWN); [by apply down_refines|].
  destruct (c =? CHAR_SELECT_LEFT); [by apply (on_view_refines e _ (Some _)); [|apply extend_left_shows]|].
  destruct (c =? CHAR_SELECT_RIGHT); [by apply (on_view_refines e _ (Some _)); [|apply extend_right_shows]|].
  destruct (c =? CHAR_CTRL_A); [by apply (on_view_refines e _ (Some _)); [|apply move_shows; [|lia]]|].
  destruct (c =? CHAR_CTRL_E); [by apply (on_view_refines e _ (Some _)); [|apply move_shows; [|lia]]|].
  destruct (Z.eqb_spec c CHAR_CTRL_K) as [->|]; [by apply (on_view_refines e); [|apply kill_to_end_shows; [|apply Hm]]|].
  destruct (Z.eqb_spec c CHAR_CTRL_U) as [->|]; [by apply (on_view_refines e); [|apply kill_to_start_shows; [|apply Hm]]|].
  destruct (Z.eqb_spec c CHAR_CTRL_W) as [->|]; [by apply (on_view_refines e); [|apply kill_word_back_shows; [|apply Hm]]|].
  destruct (Z.eqb_spec c CHAR_CTRL_Y) as [->|]; [by apply (on_view_refines e); [|apply yank_shows; [|apply Hm]]|].
  destruct (Z.leb_spec 32 c), (Z.leb_spec c 126); [by apply (on_view_refines e); [|apply insert_shows; [|lia]]|by exists e, h..].
Qed.

Lemma shell_keys_refines l : forall e h s, refines e h s -> keys_ok l s = true ->
  exists e' h', shell_keys l e h = Some (e', h') /\ refines e' h' (spec_keys l s).
Proof.
  induction l as [|c l IH]; intros e h s R K; cbn [shell_keys spec_keys fold_left]; [by exists e, h|].
  cbn [keys_ok] in K. apply andb_true_iff in K as [K1 K2]. destruct (shell_key_refines c e h s R K1) as (e' & h' & -> & R').
  cbn [mbind option_bind]. exact (IH e' h' _ R' K2).
Qed.

Lemma fresh_refines : refines fresh_editor input_history_init fresh_session.
Proof.
  split_and!; [split|done|split|done]; try done; try (cbn; lia).
  split; [done|]. by apply Forall_replicate.
Qed.

(** C37: typing never leaves the arrays. From the empty line, any keys, no kill (Ctrl-K,
    Ctrl-U, Ctrl-W) and no yank among them while a selection is active, keep every access
    inside the line, the clipboard and the history, and show what an editor of plain text
    shows: a character goes in at the cursor and over the selection, up to 255; the cuts
    take a range into the clipboard and the yank types it; Enter puts a line that is not
    empty at the end of the last fifty, and the arrows walk over them. *)
Theorem typing_refines (l : list Z) : keys_ok l fresh_session = true ->
  exists e h, shell_keys l fresh_editor input_history_init = Some (e, h) /\ refines e h (spec_keys l fresh_session).
Proof. intros K. exact (shell_keys_refines l _ _ _ fresh_refines K). Qed.

(** "ab", a selection of both, cut by typing "c", yanked twice, Enter, and back with the arrow. *)
Definition demo_keys : list Z := [97; 98; 0x84; 0x84; 99; 0x95; 0x95; 10; 0x80].

Example typing_refines_witness :
  v_text (s_view (spec_keys demo_keys fresh_session)) = [99; 97; 98; 97; 98] /\
  exists e h, shell_keys demo_keys fresh_editor input_history_init = Some (e, h) /\ refines e h (spec_keys demo_keys fresh_session).
Proof. split; [vm_compute; reflexivity|]. apply (typing_refines demo_keys). vm_compute. reflexivity. Defined.

Lemma shell_keys_app l k e h : shell_keys (l ++ k) e h = '(e, h) ← shell_keys l e h; shell_keys k e h.
Proof. revert e h. induction l as [|c l IH]; intros e h; [done|]. cbn [app shell_keys]. destruct (shell_key c e h) as [[e1 h1]|]; cbn; [apply IH|done]. Qed.

(** The keys that delete the selection. *)
Definition deletes (c : Z) : Prop := c = 8 \/ c = CHAR_DELETE \/ 32 <= c <= 126.

Lemma deletes_selection c e h : deletes c -> l_s e <> -1 -> input_line_sel_delete e = None -> shell_key c e h = None.
Proof.
  intros Hc Hs Hd. assert (negb (l_s e =? -1) = true) as Hb by lia. assert (input_line_insert c e = None) as Hi by (unfold input_line_insert; rewrite Hb, Hd; reflexivity).
  destruct Hc as [->|[->|Hc]].
  - change (with_hist h (input_line_backspace e) = None). unfold input_line_backspace. by rewrite Hb, Hd.
  - change (with_hist h (input_line_delete e) = None). unfold input_line_delete. by rewrite Hb, Hd.
  - unfold shell_key. repeat match goal with |- context [c =? ?k] => replace (c =? k) with false by (symmetry; apply Z.eqb_neq; cbv; lia) end.
    cbn [orb]. replace ((32 <=? c) && (c <=? 126)) with true by lia. by rewrite Hi.
Qed.

(** C38: a kill keeps the selection, which may then lie beyond the line. "ab", both
    selected from the end, and Ctrl-K: the line is empty and the selection still has two
    characters. The next key that deletes a selection makes the length -2 and writes the
    NUL before the line. *)
Theorem kill_leaves_selection :
  (exists e h, shell_keys [97; 98; 0x84; 0x84; 0x92] fresh_editor input_history_init = Some (e, h) /\ l_len e = 0 /\ l_s e = 2 /\ l_e e = 0) /\
  forall c, deletes c -> shell_keys [97; 98; 0x84; 0x84; 0x92; c] fresh_editor input_history_init = None.
Proof.
  assert (E : exists e h, shell_keys [97; 98; 0x84; 0x84; 0x92] fresh_editor input_history_init = Some (e, h) /\
    l_len e = 0 /\ l_s e = 2 /\ l_e e = 0 /\ input_line_sel_delete e = None) by (eexists _, _; split; [vm_compute; reflexivity|done]).
  destruct E as (e & h & E & H1 & H2 & H3 & Hd). split; [by exists e, h|]. intros c Hc.
  change [97; 98; 0x84; 0x84; 0x92; c] with ([97; 98; 0x84; 0x84; 0x92] ++ [c]). rewrite shell_keys_app, E. cbn [mbind option_bind shell_keys].
  rewrite deletes_selection; [done|done|lia|done].
Qed.

Example kill_leaves_selection_witness : deletes 120 /\ shell_keys [97; 98; 0x84; 0x84; 0x92; 120] fresh_editor input_history_init = None.
Proof.
  assert (D : deletes 120) by (right; right; lia). split; [exact D|]. exact (proj2 kill_leaves_selection 120 D).
Defined.

(** A yank over a selection loses what it was to paste. With "xyz" in the clipboard and
    "a" selected, Ctrl-Y types the first character over the selection, which puts "a" into
    the clipboard, and goes on reading there: "x" is all that is pasted. *)
Theorem yank_over_selection_pastes_one :
  exists e h, shell_keys [120; 121; 122; 0x93; 97; 0x84; 0x95] fresh_editor input_history_init = Some (e, h) /\
    v_text (view_of e) = [120] /\ v_clip (view_of e) = [97].
Proof. eexists _, _. split; [vm_compute; reflexivity|]. split; vm_compute; reflexivity. Qed.
